(* ===== verification/_CoqProject ===== *)
-Q . S2P
Prelude.v
Crc.v
Hdlc.v
Base64.v
Datetime.v
LibC.v
Stdio.v
Cmdline.v
Shell.v
ShellSpec.v
Timer.v
Heap.v
Pmem.v
Pagetable.v
PagetableSpec.v
Pbuf.v
Eventlog.v
Block.v
Ota.v
OtaSpec.v
Elf.v
ElfSpec.v
Smux.v
Sched.v
Fdt.v
Vllp.v
VllpLink.v
VllpArq.v
VllpHost.v
VllpHostSpec.v
PushPull.v
Ipv4.v
Ether.v
Udp.v
Dhcp.v
Rpc.v
Ntp.v
Dsig.v
NetCore.v
Tcp.v
TcpInv.v
TcpInput.v
TcpPair.v
TcpSpec.v
