(* ===== verification/Prelude.v ===== *)
(** * Mios: a verification library for the mios kernel and its services

    Mios (the repository under [src/]) is an operating system for small
    microcontrollers, written in C: a preemptive scheduler, a heap, network
    packet buffers, framing and link protocols, TCP over IPv4, a C library and
    utilities.  This library models that code as Rocq functions and proves what
    makes it correct.

    ** How code is modelled

    A definition carries the name of the C function it translates.  A w-bit
    unsigned integer is a [Z] with its wrap-around written out ([u8], [u16],
    [u32], [s32], ...), a pointer is an address or an index, memory is a list of
    bytes or a finite map, and a copy is checked against the object it touches.
    An operation returns the next state; where the C code can stop ([panic],
    [assert], an access outside an object, a blocking wait) it returns in [res],
    with that [fault] as the outcome.  A loop that is not structural takes fuel;
    every theorem about such a loop states how much is enough and concludes that
    the loop returns ([Ret ...]), so running out of fuel is never a way to satisfy
    it.  Where non-termination is the claim, the fault [NoFuel] is shown for every
    amount of fuel.  The target is a 32-bit little-endian machine with
    [PBUF_DATA_SIZE] 512, the default.

    ** Files

    - [Prelude]: machine integers, the [res] monad and its faults (an access outside
      an object is [OutOfBounds], a copy that only reads behind one [OverRead]),
      buffers ([rd], [wr]), arrays and the loop over them ([arr_get], [arr_put],
      [for_up]), the sorted insertion of [sys/queue.h], the tactics [bool_to_prop],
      [split_ifs], [dlia], [xor_ac], and the hint database [mios].
    - [Crc] ([src/util/crc4.c, crc8.c, crc16.c, crc32.c]): tables and loops against
      bit-serial registers; the class [Crc32Spec] is what framing code relies on (the
      C symbol is weak), and [crc32] is its instance.
    - [Hdlc] ([src/util/hdlc.c]): proved against [Crc32Spec]: any payload sent is
      received, frames back to back are all delivered, stores stay in bounds.
    - [Base64] ([src/util/base64.c]): decoding gives the input back.
    - [Datetime] ([src/util/datetime.c]): civil dates for every 32-bit Unix time.
    - [LibC] ([src/lib/libc/string.c, libc.c]): memory, string and number functions.
    - [Stdio] ([src/lib/libc/stdio.c]): the format engine against the class [FmtSink]
      of output callbacks; formats are built from directives whose text is defined
      independently of the code.
    - [Cmdline] ([src/util/cmdline.c]): proved against [Crc32Spec]: the boot command
      line left in RAM.
    - [Shell] ([src/shell/cli.c, cli_edit.c, history.c]): the line editor, the
      history, completion, the lookup of commands and the loop of the shell.
    - [ShellSpec]: the editor as a text with a cursor, the session with its history as
      lists of lines, a terminal of any width the line fits on which line and cursor
      are what the editor holds, and completion with its list of words.
    - [Timer] ([src/kernel/timer.c]): the sorted timer queue and its dispatch with
      re-entrant callbacks.
    - [Heap] ([src/lib/libc/heap_simple.c]): boundary-tag block lists; the
      representation predicate [heap_repr] relates the linked headers to an abstract
      list of blocks, on which first fit, coalescing and the round trip of allocate
      and free are stated.
    - [Pmem] ([src/util/pmem.c, platform/t234ccplex/t234ccplex.c]): the map of
      physical memory as an array of segments; [type_at] is the map as a function, of
      which setting a range changes exactly the range.
    - [Pagetable] ([src/cpu/aarch64/pagetable.c, platform/t234ccplex/t234ccplex.c]):
      the page tables of the boot core: regions, blocks and pages, the pool of tables,
      mapping and unmapping ranges.
    - [PagetableSpec]: the translation of the processor over these tables, what each
      call does to it, and the boot code of Tegra: what the map of [Pmem] marks
      inaccessible is not translated.
    - [Pbuf] ([src/net/pbuf.c, pbuf.h]): packets as chains of headers that own data
      buffers; each operation is given by what it does to [payload], keeps [packet]
      and [nm_ok], and conserves headers and buffers.
    - [Eventlog] ([src/kernel/eventlog.c, host/dsig/vllp_logstream.c]): the ring of
      the event log with its followers, writers and readers in any interleaving, the
      log service with its client.
    - [Block] ([src/util/block.c, block_stream.c]): block devices as a record of
      operations, the class [BlockDev] of what a device promises, and the stacked
      devices as instances of it over any device.
    - [Ota] ([src/net/service/svc_ota.c, host/dsig/vllp_ota.c, util/bin_to_ota.c]):
      the upgrade service with its thread and the callbacks of its channel, its
      client, and the stream that does the same on the device.
    - [OtaSpec]: what an upgrade leaves on the partition, in any interleaving of
      thread and channel, with a failing device or a wrong image, and what the client
      is told of it.
    - [Elf] ([src/util/elf_to_bin.c, host/mios_image.c]): the two programs that make
      an image of an ELF file.
    - [ElfSpec]: the image as one string of bytes: the stream writes it from any
      pieces of the file, and host and device agree.
    - [Smux] ([src/util/smux.c]): several streams over one.
    - [Sched] ([src/kernel/task.c, task.h]): ready queues, wait lists, threads with
      their reference counts, mutexes; the invariant [wf] holds in every state
      reachable by [sched_step]; [mutex_step] is the interleaving of lock operations,
      of which no wake-up is lost.
    - [Fdt] ([src/util/fdt.c]): device tree blobs; [enc_item] is the abstract tree as
      bytes, against which search, erase and property access are stated.
    - [Vllp] ([src/net/vllp.c, service.c]): the reliable link over CAN, in a state and
      fault monad over the packet pools of [Pbuf].
    - [VllpLink]: a message sent is the message received (fragments, padding,
      checksum, reassembly), and concrete runs of a connection.
    - [VllpArq]: the alternating-bit protocol as an abstract transition system of two
      endpoints and two lossy links, exactly-once delivery by an invariant, and the
      refinement: [vllp_rx], the timers and the task callback take only steps of the
      abstract endpoint.
    - [VllpHost] ([host/dsig/vllp.c]): the other end of the link, the library of a
      host computer.
    - [VllpHostSpec]: the library takes only steps of the same abstract endpoint; the
      two ends connect and exchange messages.
    - [PushPull] ([src/net/pushpull.c]): the adapter between a byte stream and a
      message channel, as a system of reader, writer and channel in any interleaving;
      a blocked writer finishes; two adapters over [Vllp] carry a byte stream.
    - [Ipv4] ([src/net/ipv4/ipv4.c]): checksums over buffer chains against a one's
      complement sum, routes, header checks, ICMP echo.
    - [Ether] ([src/net/ether.c]): frames, ARP and the table of neighbours with its
      countdown.
    - [Udp] ([src/net/ipv4/udp.c, net/dsig_udp.c]): datagrams out and in, and DSIG
      over them.
    - [Dhcp] ([src/net/ipv4/dhcpv4.c]): the client with its messages, option parser
      and timer; an address is used only as long as a server granted it.
    - [Rpc] ([src/lib/rpc/rpc_cbor.c, rpc_core.c, net/service/svc_rpc.c,
      host/dsig/vllp_rpc.c]): calls from the client through CBOR to the method and
      back, and the service around them, whose thread sleeps on a condition variable
      and is never left asleep with work to do.
    - [Ntp] ([src/net/ipv4/ntp.c]): the wall clock from the network.
    - [Dsig] ([src/net/dsig.c]): the signal bus: subscriptions, forwarding, the send
      queue shared by threads.
    - [NetCore] ([src/net/net_core.c]): the network thread with its tasks, and the
      task of an interface.
    - [Tcp] ([src/net/ipv4/tcp.c]): the whole of TCP, one definition per function and
      per step of the input processing, in a monad over the control block and its
      surroundings.
    - [TcpInv] and [TcpInput]: total-correctness rules for that monad, the ring
      buffers, the invariant [conn_ok] of a connection and that output, timers, task,
      stream calls and input keep it.
    - [TcpPair]: two endpoints over a network that loses, repeats and reorders
      segments; what one reads is a prefix of what the other wrote. Ends with a
      session run step by step.
    - [TcpSpec]: what a connection promises, and what happens outside the invariant's
      assumptions.

    ** How the parts interact

    [Hdlc], [Cmdline] and [Vllp] call the checksum through [Crc32Spec], [Ota] calls
    [crc32] of [Crc].  [Timer], [Heap] and [Sched] share the sorted insertion of this
    file.  [Vllp], [PushPull], [Ota] and [Eventlog] call [Pbuf] for every buffer they take, fill, cut
    and free; their proofs use the lemmas of [Pbuf], not its loops.  Services behind a
    VLLP channel are a record of callbacks ([app_fn]), the allocator for channels and
    the table of services are parameters, and calls into the layers below are output
    events.  [PushPull] is such a service: [stream_over_vllp] runs its [stream_app] on
    the link of [VllpLink].  [VllpHost] is the second endpoint of [VllpArq] and its
    messages are those of [Vllp].  [Ota] stores to any device of the class [BlockDev]
    of [Block], and the stream of [Elf] writes into the upgrade stream of [Ota].
    [Shell] prints through [Stdio], which reads its numbers back with the parsers of
    [LibC].  [Ether], [Udp], [Dhcp], [Ntp] and [Tcp] send through the routes and
    checksums of [Ipv4]; [Dhcp] and [Ntp] send through [Udp], [Ntp] sets the clock of
    [Datetime], and [Dsig] goes out through [Udp].  In [Tcp] the drivers, the
    allocators, the clock and the random numbers are what the surroundings [net]
    return next, and the theorems hold whatever that is.
    [Pagetable] unmaps what [Pmem] says is inaccessible: the boot code joins them.

    ** Fuel

    Ring copies and packets need none.  [tcp_emit] fills at most three buffers
    ([EMIT_FUEL] 4), a stream read takes two rounds (3), a checksum folds twice (3);
    the drain loop of the TCP task is given one more than the unsent bytes, and the
    option parser and the search for a port take any fuel as an argument.  The other
    files state the fuel where the loop is defined.

    ** Properties

    Each property is a theorem whose comment starts with its number. Scheduler: C1,
    C9, C18; timers: C21; heap: C6, C7; memory map and page tables: C30, C31, C32;
    TCP: C2, C4, C16, C17, C40; VLLP and its host library: C3, C5, C10, C11, C12, C13;
    stream adapter: C8, C14, C15; formatted output: C19; HDLC and checksums: C20, C22;
    upgrades and images: C23, C24, C25, C26; shell: C27, C28, C29; event log: C35;
    Ethernet, DHCP and NTP: C33, C39; network thread: C36; signal bus: C34; RPC: C37,
    C38. C40 shows behaviour the code does not mean to have: TCP uses a block after it
    was freed. Further theorems without a number cover the rest of the operations and
    further limits of the code.

    Every theorem with hypotheses is followed by a witness that applies it at
    concrete values.

    ** Not modelled

    Context switching in assembly and interrupts within an operation: each operation
    runs with them masked, as the code does around its critical sections.  Drivers,
    platforms, CPU ports (but for the page tables of aarch64) and the USB stack are
    register accesses whose effect is not in the source; cache and TLB maintenance has
    no effect in [Pagetable].  Threads outside [Sched] are steps from one wait to the
    next: the sleep on a condition variable and its signals are fields of the
    component's state ([sr_waiting] in [Rpc], for one).  The graphics and signal libraries are floating point arithmetic, the
    cryptography, the HTTP parser and the JSON reader are third-party code, the file
    system is a git submodule behind glue.  Of the protocols, MBUS (the predecessor of
    VLLP), IGMP, mDNS, LLDP, PTP, the HTTP server and Bluetooth are left out, of the
    programs for a development computer all but the libraries that talk to a device.
    In [Tcp] the stack context of the packet that is recycled for a reply is left out,
    and a packet is its windows, not the pools of [Pbuf].  Closing is not part of the
    two-endpoint theorem of [TcpPair].  The shell has no locks: its history is used by
    one shell at a time. *)

From stdpp Require Import base list numbers sorting.
From Stdlib Require Import ZArith Lia.

Open Scope Z_scope.

Create HintDb mios.

(** ** Machine integers

    A w-bit unsigned C value is a [Z] in [0, 2^w).  The conversions below are
    the wrap-around the compiler performs on assignment to that width. *)

Definition u8 (z : Z) : Z := z mod 256.
Definition u16 (z : Z) : Z := z mod 65536.
Definition u32 (z : Z) : Z := z mod 4294967296.
Definition u64 (z : Z) : Z := z mod 18446744073709551616.

(** Two's complement reading of a 32-bit and a 64-bit value. *)
Definition s32 (z : Z) : Z :=
  let m := u32 z in if m <? 2147483648 then m else m - 4294967296.
Definition s64 (z : Z) : Z :=
  let m := u64 z in if m <? 9223372036854775808 then m else m - 18446744073709551616.

(** [~x] on an unsigned 32-bit value. *)
Definition not32 (z : Z) : Z := Z.lxor z 4294967295.

Definition is_byte (z : Z) : Prop := 0 <= z < 256.
Definition is_u32 (z : Z) : Prop := 0 <= z < 4294967296.
Abbreviation bytes := (Forall is_byte).

(** C truth value of a comparison. *)
Definition b2z (b : bool) : Z := if b then 1 else 0.

(** Little-endian and big-endian 16/32-bit stores and loads. *)
Definition le16 (x : Z) : list Z := [u8 x; u8 (Z.shiftr x 8)].
Definition le32 (x : Z) : list Z :=
  [u8 x; u8 (Z.shiftr x 8); u8 (Z.shiftr x 16); u8 (Z.shiftr x 24)].
Definition be32 (x : Z) : list Z :=
  [u8 (Z.shiftr x 24); u8 (Z.shiftr x 16); u8 (Z.shiftr x 8); u8 x].
Definition rd_le32 (a b c d : Z) : Z := a + 256 * b + 65536 * c + 16777216 * d.

(** ** Outcomes of code that can fault

    [Fault] is where the C program stops going on by itself: it called [panic],
    ran an [assert] that fails, touched memory outside an object, went to sleep
    until another thread wakes it, or (for a fuelled loop) did not finish within
    the fuel.  [OverRead] is a copy inside an array that only reads behind it. *)

Inductive fault :=
| Panic
| Assert
| OutOfBounds
| OverRead
| Blocked
| NoFuel.

Inductive res (A : Type) :=
| Ret (a : A)
| Fault (f : fault).
Arguments Ret {A} _.
Arguments Fault {A} _.

#[export] Instance res_ret : MRet res := @Ret.
#[export] Instance res_bind : MBind res := λ A B k m,
  match m with Ret a => k a | Fault f => Fault f end.

#[export] Instance fault_eq_dec : EqDecision fault.
Proof. solve_decision. Defined.

(** [x ← m; k] succeeds exactly when [m] does and the continuation does. *)
Lemma res_bind_ret {A B} (m : res A) (k : A → res B) b :
  (m ≫= k) = Ret b ↔ ∃ a, m = Ret a ∧ k a = Ret b.
Proof. destruct m; simpl; naive_solver. Qed.

(** ** Tactics *)

(** Case analysis on every [if]/[match] the goal or a hypothesis is stuck on,
    with boolean comparisons turned into propositions. *)
Ltac bool_to_prop :=
  repeat match goal with
  | H : (_ && _)%bool = true |- _ => apply andb_true_iff in H as [? ?]
  | H : (_ || _)%bool = false |- _ => apply orb_false_iff in H as [? ?]
  | H : (_ && _)%bool = false |- _ => apply andb_false_iff in H
  | H : (_ || _)%bool = true |- _ => apply orb_true_iff in H
  | H : negb _ = true |- _ => apply negb_true_iff in H
  | H : negb _ = false |- _ => apply negb_false_iff in H
  | H : (_ =? _) = true |- _ => apply Z.eqb_eq in H
  | H : (_ =? _) = false |- _ => apply Z.eqb_neq in H
  | H : (_ <? _) = true |- _ => apply Z.ltb_lt in H
  | H : (_ <? _) = false |- _ => apply Z.ltb_ge in H
  | H : (_ <=? _) = true |- _ => apply Z.leb_le in H
  | H : (_ <=? _) = false |- _ => apply Z.leb_gt in H
  end.

Ltac split_ifs :=
  repeat (case_match; bool_to_prop; simplify_eq/=).

(** Arithmetic with [/] and [mod] by constants. *)
Ltac dlia := Z.div_mod_to_equations; lia.

(** Equalities of exclusive-ors, up to associativity, commutativity and
    cancellation, one bit at a time. *)
Ltac xor_ac :=
  apply Z.bits_inj'; intros ? ?; rewrite ?Z.lxor_spec;
  repeat match goal with |- context [Z.testbit ?a ?i] => destruct (Z.testbit a i) end;
  reflexivity.

(** ** Bit-level facts *)

(** A boolean property of bytes holds when it evaluates to [true] on all 256. *)
Lemma byte_enum (P : Z → bool) :
  forallb P (seqZ 0 256) = true → ∀ i, is_byte i → P i = true.
Proof.
  intros H i Hi. rewrite forallb_forall in H. apply H.
  apply list_elem_of_In, elem_of_seqZ. unfold is_byte in Hi. lia.
Qed.

Lemma byte_split z : z = Z.lxor (u8 z) (Z.shiftl (Z.shiftr z 8) 8).
Proof.
  unfold u8. change 256 with (2 ^ 8). rewrite <- Z.land_ones by lia.
  apply Z.bits_inj'; intros i Hi.
  rewrite Z.lxor_spec, Z.land_spec, Z.testbit_ones_nonneg by lia.
  destruct (decide (i < 8)).
  - rewrite (proj2 (Z.ltb_lt i 8)), Z.shiftl_spec_low by lia. by destruct (Z.testbit z i).
  - rewrite (proj2 (Z.ltb_ge i 8)), Z.shiftl_spec, Z.shiftr_spec by lia.
    replace (i - 8 + 8) with i by lia. by destruct (Z.testbit z i).
Qed.

Lemma lxor_bound (n a b : Z) :
  0 <= n → 0 <= a < 2 ^ n → 0 <= b < 2 ^ n → 0 <= Z.lxor a b < 2 ^ n.
Proof.
  intros Hn Ha Hb.
  assert (Z.lxor a b = Z.lxor a b mod 2 ^ n) as ->; [|by apply Z.mod_pos_bound; lia].
  apply Z.bits_inj'; intros i Hi.
  destruct (decide (i < n)).
  - by rewrite Z.mod_pow2_bits_low.
  - rewrite Z.mod_pow2_bits_high by lia.
    rewrite Z.lxor_spec.
    rewrite <- (Z.mod_small a (2 ^ n)), <- (Z.mod_small b (2 ^ n)) by lia.
    by rewrite !Z.mod_pow2_bits_high by lia.
Qed.

Lemma lxor_byte a b : is_byte a → is_byte b → is_byte (Z.lxor a b).
Proof. unfold is_byte. apply (lxor_bound 8); lia. Qed.

Lemma lxor_u32 a b : is_u32 a → is_u32 b → is_u32 (Z.lxor a b).
Proof. unfold is_u32. apply (lxor_bound 32); lia. Qed.

Lemma u8_byte z : is_byte (u8 z).
Proof. unfold is_byte, u8. apply Z.mod_pos_bound. lia. Qed.

Lemma u8_id z : is_byte z → u8 z = z.
Proof. intros. apply Z.mod_small. done. Qed.

Lemma u16_id z : 0 <= z < 65536 → u16 z = z.
Proof. intros. by apply Z.mod_small. Qed.

Lemma u32_range z : is_u32 (u32 z).
Proof. unfold is_u32, u32. apply Z.mod_pos_bound. lia. Qed.

Lemma u32_id z : is_u32 z → u32 z = z.
Proof. intros. apply Z.mod_small. done. Qed.

(** Signed readings of values in range. *)
Lemma s32_id z : -2147483648 <= z < 2147483648 → s32 z = z.
Proof. intros. unfold s32, u32. case_match; bool_to_prop; dlia. Qed.

Lemma s64_id z : -9223372036854775808 <= z < 9223372036854775808 → s64 z = z.
Proof. intros. unfold s64, u64. case_match; bool_to_prop; dlia. Qed.

Lemma u8_lxor a b : u8 (Z.lxor a b) = Z.lxor (u8 a) (u8 b).
Proof.
  unfold u8. change 256 with (2 ^ 8). rewrite <- !Z.land_ones by lia.
  apply Z.bits_inj'; intros i Hi.
  rewrite !Z.lxor_spec, !Z.land_spec, Z.lxor_spec.
  by destruct (Z.testbit a i), (Z.testbit b i), (Z.testbit (Z.ones 8) i).
Qed.

Lemma shiftr_u32 z k : 0 <= k → is_u32 z → is_u32 (Z.shiftr z k).
Proof.
  unfold is_u32. intros Hk Hz. rewrite Z.shiftr_div_pow2 by done.
  assert (0 < 2 ^ k) by (apply Z.pow_pos_nonneg; lia).
  split; [apply Z.div_pos; lia|].
  apply Z.div_lt_upper_bound; [lia|]. nia.
Qed.

Lemma not32_u32 z : is_u32 z → is_u32 (not32 z).
Proof. intros. apply lxor_u32; [done|]. unfold is_u32. lia. Qed.

Lemma not32_involutive z : not32 (not32 z) = z.
Proof. unfold not32. by rewrite Z.lxor_assoc, Z.lxor_nilpotent, Z.lxor_0_r. Qed.

(** [(hi << k) | lo] is positional notation when [lo] fits in [k] bits. *)
Lemma shiftl_lor hi k lo :
  0 <= k → 0 <= lo < 2 ^ k → Z.lor (Z.shiftl hi k) lo = hi * 2 ^ k + lo.
Proof.
  intros Hk Hlo. assert (Z.land (Z.shiftl hi k) lo = 0) as Hz.
  { apply Z.bits_inj'; intros i Hi. rewrite Z.land_spec, Z.bits_0.
    destruct (decide (i < k)).
    - by rewrite Z.shiftl_spec_low.
    - rewrite <- (Z.mod_small lo (2 ^ k)) by lia.
      rewrite Z.mod_pow2_bits_high by lia. apply andb_false_r. }
  rewrite <- Z.lxor_lor, <- Z.add_nocarry_lxor by done.
  by rewrite Z.shiftl_mul_pow2.
Qed.

Lemma land_ones_mod z k : 0 <= k → Z.land z (2 ^ k - 1) = z mod 2 ^ k.
Proof.
  intros. rewrite <- Z.land_ones by done. f_equal. by rewrite Z.ones_equiv, Z.sub_1_r.
Qed.

#[export] Hint Resolve lxor_byte lxor_u32 u8_byte u32_range not32_u32 : mios.

Lemma le32_bytes x : bytes (le32 x).
Proof. repeat constructor; apply u8_byte. Qed.

Lemma le16_bytes x : bytes (le16 x).
Proof. repeat constructor; apply u8_byte. Qed.

#[export] Hint Resolve le32_bytes le16_bytes : mios.

(** A 32-bit value is recovered from its little-endian bytes. *)
Lemma rd_le32_le32 x :
  is_u32 x →
  rd_le32 (u8 x) (u8 (Z.shiftr x 8)) (u8 (Z.shiftr x 16)) (u8 (Z.shiftr x 24)) = x.
Proof.
  unfold is_u32, rd_le32, u8. rewrite !Z.shiftr_div_pow2 by lia.
  change (2 ^ 8) with 256. change (2 ^ 16) with 65536. change (2 ^ 24) with 16777216.
  intros. dlia.
Qed.

Lemma le32_inj x y : is_u32 x → is_u32 y → le32 x = le32 y → x = y.
Proof.
  intros Hx Hy [=]. rewrite <- (rd_le32_le32 x), <- (rd_le32_le32 y) by done. congruence.
Qed.

(** ** The sorted insertion of [sys/queue.h]

    [LIST_INSERT_SORTED(head, elm, field, cmpfunc)] walks the list and places
    [elm] before the first element [tmp] with [cmpfunc(elm, tmp) <= 0], or
    after the last element. *)

Fixpoint list_insert_sorted {A} (cmp : A → A → Z) (elm : A) (l : list A) : list A :=
  match l with
  | [] => [elm]
  | tmp :: rest =>
      if cmp elm tmp <=? 0 then elm :: tmp :: rest
      else tmp :: list_insert_sorted cmp elm rest
  end.

Section InsertSorted.
Context {A : Type} (cmp : A → A → Z).

Lemma list_insert_sorted_perm x l : list_insert_sorted cmp x l ≡ₚ x :: l.
Proof.
  induction l as [|y l IH]; simpl; [done|]. case_match; [done|].
  rewrite IH. by constructor.
Qed.

Lemma list_insert_sorted_split x l :
  ∃ l1 l2, l = l1 ++ l2 ∧ list_insert_sorted cmp x l = l1 ++ x :: l2 ∧
    Forall (λ y, 0 < cmp x y) l1 ∧ (∀ y, head l2 = Some y → cmp x y <= 0).
Proof.
  induction l as [|y l (l1 & l2 & -> & Heq & Hl1 & Hl2)]; simpl.
  - by exists [], [].
  - destruct (cmp x y <=? 0) eqn:E; bool_to_prop.
    + exists [], (y :: l1 ++ l2). split_and!; try done. by intros ? [= ->].
    + exists (y :: l1), l2. rewrite Heq. split_and!; try done. by constructor.
Qed.

Context (R : relation A) `{!Transitive R}.
Hypothesis cmp_le : ∀ x y, cmp x y <= 0 → R x y.
Hypothesis cmp_gt : ∀ x y, 0 < cmp x y → R y x.

Lemma list_insert_sorted_sorted x l :
  StronglySorted R l → StronglySorted R (list_insert_sorted cmp x l).
Proof.
  induction 1 as [|y l Hl IH Hy]; simpl; [by repeat constructor|].
  destruct (cmp x y <=? 0) eqn:E; bool_to_prop.
  - constructor; [by constructor|]. constructor; [by apply cmp_le|].
    eapply Forall_impl; [exact Hy|]. intros z Hz. etransitivity; [|exact Hz].
    by apply cmp_le.
  - constructor; [done|]. rewrite list_insert_sorted_perm.
    constructor; [by apply cmp_gt|done].
Qed.
End InsertSorted.

Lemma list_insert_sorted_fmap {A B} (f : A → B) (cmp : B → B → Z) x l :
  f <$> list_insert_sorted (λ a b, cmp (f a) (f b)) x l =
  list_insert_sorted cmp (f x) (f <$> l).
Proof.
  induction l as [|y l IH]; [done|]. cbn [list_insert_sorted].
  rewrite fmap_cons. cbn [list_insert_sorted]. destruct (_ <=? 0); [done|].
  by rewrite fmap_cons, IH.
Qed.

(** ** Lists *)

Lemma Forall_byte_app l1 l2 : bytes (l1 ++ l2) ↔ bytes l1 ∧ bytes l2.
Proof. apply Forall_app. Qed.

(** Total lookup with the C-string convention: reading at or past the end of
    the contents gives the terminating NUL. *)
Definition deref (s : list Z) : Z := match s with [] => 0 | c :: _ => c end.

(** The bytes of a NUL-terminated string: every one is non-zero. *)
Definition is_char (c : Z) : Prop := 0 < c < 256.
Abbreviation cstr := (Forall is_char).

Lemma cstr_bytes s : cstr s → bytes s.
Proof. induction 1 as [|c s Hc _ IH]; constructor; [unfold is_char, is_byte in *; lia|done]. Qed.

(** ** Buffers

    Copies out of and into a buffer, checked against its bounds. *)

Definition rd (m : list Z) (off n : Z) : res (list Z) :=
  if ((0 <=? off) && (0 <=? n) && (off + n <=? Z.of_nat (length m)))%bool
  then Ret (take (Z.to_nat n) (drop (Z.to_nat off) m))
  else Fault OutOfBounds.
Definition wr (m : list Z) (off : Z) (bs : list Z) : res (list Z) :=
  if ((0 <=? off) && (off + Z.of_nat (length bs) <=? Z.of_nat (length m)))%bool
  then Ret (take (Z.to_nat off) m ++ bs ++ drop (Z.to_nat off + length bs) m)
  else Fault OutOfBounds.

Lemma rd_ok m off n :
  0 <= off → 0 <= n → off + n <= Z.of_nat (length m) →
  rd m off n = Ret (take (Z.to_nat n) (drop (Z.to_nat off) m)).
Proof.
  intros. unfold rd. by rewrite !(proj2 (Z.leb_le _ _)) by lia.
Qed.

Lemma wr_ok m off bs :
  0 <= off → off + Z.of_nat (length bs) <= Z.of_nat (length m) →
  wr m off bs = Ret (take (Z.to_nat off) m ++ bs ++ drop (Z.to_nat off + length bs) m).
Proof. intros. unfold wr. by rewrite !(proj2 (Z.leb_le _ _)) by lia. Qed.

Lemma wr_length m off bs m' : wr m off bs = Ret m' → length m' = length m.
Proof.
  unfold wr. destruct (_ && _)%bool eqn:E; [|done]. bool_to_prop. intros [= <-].
  rewrite !length_app, length_take, length_drop. lia.
Qed.

(** A read inside a known decomposition of the buffer. *)
Lemma rd_at pre bs post off :
  off = Z.of_nat (length pre) → rd (pre ++ bs ++ post) off (Z.of_nat (length bs)) = Ret bs.
Proof.
  intros ->. rewrite rd_ok by (rewrite ?length_app; lia). rewrite !Nat2Z.id.
  by rewrite drop_app_length, take_app_length.
Qed.

Lemma wr_at pre bs bs' post off :
  off = Z.of_nat (length pre) → length bs' = length bs →
  wr (pre ++ bs ++ post) off bs' = Ret (pre ++ bs' ++ post).
Proof.
  intros -> Hl. rewrite wr_ok by (rewrite ?length_app; lia). rewrite !Nat2Z.id.
  rewrite take_app_length. do 3 f_equal. rewrite Hl, app_assoc.
  rewrite <- length_app. apply drop_app_length.
Qed.

(** ** Arrays

    Elements of an array checked against its bounds, [memmove] within it, and the loop
    [for(i = a; i < a + n; i++)]. *)

Definition arr_get {A} (l : list A) (i : Z) : res A :=
  if i <? 0 then Fault OutOfBounds
  else match l !! Z.to_nat i with Some x => Ret x | None => Fault OutOfBounds end.
Definition arr_put {A} (l : list A) (i : Z) (x : A) : res (list A) :=
  _ ← arr_get l i; Ret (<[Z.to_nat i := x]> l).
Definition arr_move {A} (l : list A) (dst src n : Z) : res (list A) :=
  let len := Z.of_nat (length l) in
  if negb ((0 <=? dst) && (0 <=? src) && (0 <=? n) && (dst + n <=? len))%bool then Fault OutOfBounds
  else if src + n <=? len
  then Ret (take (Z.to_nat dst) l ++ take (Z.to_nat n) (drop (Z.to_nat src) l) ++ drop (Z.to_nat (dst + n)) l)
  else Fault OverRead.

Fixpoint for_up {A} (n : nat) (i : Z) (f : Z → A → res A) (a : A) : res A :=
  match n with
  | O => Ret a
  | S n => a ← f i a; for_up n (i + 1) f a
  end.

Lemma arr_get_at {A} l1 (x : A) l2 i : i = Z.of_nat (length l1) → arr_get (l1 ++ x :: l2) i = Ret x.
Proof.
  intros ->. unfold arr_get. rewrite (proj2 (Z.ltb_ge _ _)), Nat2Z.id by lia. by rewrite list_lookup_middle.
Qed.

Lemma arr_put_at {A} l1 (x : A) l2 i y : i = Z.of_nat (length l1) → arr_put (l1 ++ x :: l2) i y = Ret (l1 ++ y :: l2).
Proof.
  intros Hi. unfold arr_put. rewrite arr_get_at by done. cbn. rewrite Hi, Nat2Z.id.
  by rewrite insert_app_r_alt, Nat.sub_diag by lia.
Qed.

Lemma arr_get_lookup {A} (l : list A) i x : 0 <= i → l !! Z.to_nat i = Some x → arr_get l i = Ret x.
Proof. intros Hi E. unfold arr_get. by rewrite (proj2 (Z.ltb_ge _ _)), E by lia. Qed.

(** An invariant of the loop gives its total correctness. *)
Lemma for_up_ind {A} (P : Z → A → Prop) f n i a :
  P i a → (∀ j a, i <= j < i + Z.of_nat n → P j a → ∃ a', f j a = Ret a' ∧ P (j + 1) a') →
  ∃ a', for_up n i f a = Ret a' ∧ P (i + Z.of_nat n) a'.
Proof.
  revert i a. induction n as [|n IH]; intros i a Ha H; cbn [for_up].
  { exists a. by rewrite Z.add_0_r. }
  destruct (H i a) as (a1 & E1 & H1); [lia|done|]. rewrite E1. cbn [mbind res_bind].
  destruct (IH (i + 1) a1 H1) as (a2 & E2 & H2); [intros; apply H; [lia|done]|].
  exists a2. split; [done|]. by replace (i + Z.of_nat (S n)) with (i + 1 + Z.of_nat n) by lia.
Qed.
