(* ===== verification/Crc.v ===== *)
(** * CRC: the four table-driven checksums of [src/util]

    [crc4.c], [crc8.c], [crc16.c] and [crc32.c] each walk a byte (or nibble)
    buffer and fold a lookup table into a running checksum.  This file holds
    the tables as the sources spell them, the loops, the bit-serial shift
    registers they are meant to implement, the equivalence of the two, and the
    residue law of CRC-32 that the framing code (HDLC, VLLP, the boot command
    line) rests on.  The law is stated as the class [Crc32Spec], because the C
    symbol [crc32] is weak and a platform may replace it by hardware. *)

From stdpp Require Import base list numbers.
From Stdlib Require Import ZArith Lia.
From S2P Require Import Prelude.

Open Scope Z_scope.

(** ** Tables *)

Definition crc4_tab : list Z := [
  0; 7; 14; 9; 11; 12; 5; 2;
  1; 6; 15; 8; 10; 13; 4; 3].

Definition crc8_table : list Z := [
  0; 7; 14; 9; 28; 27; 18; 21; 56; 63; 54; 49; 36; 35; 42; 45;
  112; 119; 126; 121; 108; 107; 98; 101; 72; 79; 70; 65; 84; 83; 90; 93;
  224; 231; 238; 233; 252; 251; 242; 245; 216; 223; 214; 209; 196; 195; 202; 205;
  144; 151; 158; 153; 140; 139; 130; 133; 168; 175; 166; 161; 180; 179; 186; 189;
  199; 192; 201; 206; 219; 220; 213; 210; 255; 248; 241; 246; 227; 228; 237; 234;
  183; 176; 185; 190; 171; 172; 165; 162; 143; 136; 129; 134; 147; 148; 157; 154;
  39; 32; 41; 46; 59; 60; 53; 50; 31; 24; 17; 22; 3; 4; 13; 10;
  87; 80; 89; 94; 75; 76; 69; 66; 111; 104; 97; 102; 115; 116; 125; 122;
  137; 142; 135; 128; 149; 146; 155; 156; 177; 182; 191; 184; 173; 170; 163; 164;
  249; 254; 247; 240; 229; 226; 235; 236; 193; 198; 207; 200; 221; 218; 211; 212;
  105; 110; 103; 96; 117; 114; 123; 124; 81; 86; 95; 88; 77; 74; 67; 68;
  25; 30; 23; 16; 5; 2; 11; 12; 33; 38; 47; 40; 61; 58; 51; 52;
  78; 73; 64; 71; 82; 85; 92; 91; 118; 113; 120; 127; 106; 109; 100; 99;
  62; 57; 48; 55; 34; 37; 44; 43; 6; 1; 8; 15; 26; 29; 20; 19;
  174; 169; 160; 167; 178; 181; 188; 187; 150; 145; 152; 159; 138; 141; 132; 131;
  222; 217; 208; 215; 194; 197; 204; 203; 230; 225; 232; 239; 250; 253; 244; 243].

Definition crc16tab : list Z := [
  0; 4129; 8258; 12387; 16516; 20645; 24774; 28903; 33032; 37161; 41290; 45419;
  49548; 53677; 57806; 61935; 4657; 528; 12915; 8786; 21173; 17044; 29431; 25302;
  37689; 33560; 45947; 41818; 54205; 50076; 62463; 58334; 9314; 13379; 1056; 5121;
  25830; 29895; 17572; 21637; 42346; 46411; 34088; 38153; 58862; 62927; 50604; 54669;
  13907; 9842; 5649; 1584; 30423; 26358; 22165; 18100; 46939; 42874; 38681; 34616;
  63455; 59390; 55197; 51132; 18628; 22757; 26758; 30887; 2112; 6241; 10242; 14371;
  51660; 55789; 59790; 63919; 35144; 39273; 43274; 47403; 23285; 19156; 31415; 27286;
  6769; 2640; 14899; 10770; 56317; 52188; 64447; 60318; 39801; 35672; 47931; 43802;
  27814; 31879; 19684; 23749; 11298; 15363; 3168; 7233; 60846; 64911; 52716; 56781;
  44330; 48395; 36200; 40265; 32407; 28342; 24277; 20212; 15891; 11826; 7761; 3696;
  65439; 61374; 57309; 53244; 48923; 44858; 40793; 36728; 37256; 33193; 45514; 41451;
  53516; 49453; 61774; 57711; 4224; 161; 12482; 8419; 20484; 16421; 28742; 24679;
  33721; 37784; 41979; 46042; 49981; 54044; 58239; 62302; 689; 4752; 8947; 13010;
  16949; 21012; 25207; 29270; 46570; 42443; 38312; 34185; 62830; 58703; 54572; 50445;
  13538; 9411; 5280; 1153; 29798; 25671; 21540; 17413; 42971; 47098; 34713; 38840;
  59231; 63358; 50973; 55100; 9939; 14066; 1681; 5808; 26199; 30326; 17941; 22068;
  55628; 51565; 63758; 59695; 39368; 35305; 47498; 43435; 22596; 18533; 30726; 26663;
  6336; 2273; 14466; 10403; 52093; 56156; 60223; 64286; 35833; 39896; 43963; 48026;
  19061; 23124; 27191; 31254; 2801; 6864; 10931; 14994; 64814; 60687; 56684; 52557;
  48554; 44427; 40424; 36297; 31782; 27655; 23652; 19525; 15522; 11395; 7392; 3265;
  61215; 65342; 53085; 57212; 44955; 49082; 36825; 40952; 28183; 32310; 20053; 24180;
  11923; 16050; 3793; 7920].

Definition crc32table : list Z := [
  3523407757; 2768625435; 1007455905; 1259060791; 3580832660; 2724731650; 996231864; 1281784366;
  3705235391; 2883475241; 852952723; 1171273221; 3686048678; 2897449776; 901431946; 1119744540;
  3484811241; 3098726271; 565944005; 1455205971; 3369614320; 3219065702; 651582172; 1372678730;
  3245242331; 3060352845; 794826487; 1483155041; 3322131394; 2969862996; 671994606; 1594548856;
  3916222277; 2657877971; 123907689; 1885708031; 3993045852; 2567322570; 1010288; 1997036262;
  3887548279; 2427484129; 163128923; 2126386893; 3772416878; 2547889144; 248832578; 2043925204;
  4108050209; 2212294583; 450215437; 1842515611; 4088798008; 2226203566; 498629140; 1790921346;
  4194326291; 2366072709; 336475711; 1661535913; 4251816714; 2322244508; 325317158; 1684325040;
  2766056989; 3554254475; 1255198513; 1037565863; 2746444292; 3568589458; 1304234792; 985283518;
  2852464175; 3707901625; 1141589763; 856455061; 2909332022; 3664761504; 1130791706; 878818188;
  3110715001; 3463352047; 1466425173; 543223747; 3187964512; 3372436214; 1342839628; 655174618;
  3081909835; 3233089245; 1505515367; 784033777; 2967466578; 3352871620; 1590793086; 701932520;
  2679148245; 3904355907; 1908338681; 112844655; 2564639436; 4024072794; 1993550816; 30677878;
  2439710439; 3865851505; 2137352139; 140662621; 2517025534; 3775001192; 2013832146; 252678980;
  2181537457; 4110462503; 1812594589; 453955339; 2238339752; 4067256894; 1801730948; 476252946;
  2363233923; 4225443349; 1657960367; 366298937; 2343686810; 4239843852; 1707062198; 314082080;
  1069182125; 1220369467; 3518238081; 2796764439; 953657524; 1339070498; 3604597144; 2715744526;
  828499103; 1181144073; 3748627891; 2825434405; 906764422; 1091244048; 3624026538; 2936369468;
  571309257; 1426738271; 3422756325; 3137613171; 627095760; 1382516806; 3413039612; 3161057642;
  752284923; 1540473965; 3268974039; 3051332929; 733688034; 1555824756; 3316994510; 2998034776;
  81022053; 1943239923; 3940166985; 2648514015; 62490748; 1958656234; 3988253008; 2595281350;
  168805463; 2097738945; 3825313147; 2466682349; 224526414; 2053451992; 3815530850; 2490061300;
  425942017; 1852075159; 4151131437; 2154433979; 504272920; 1762240654; 4026595636; 2265434530;
  397988915; 1623188645; 4189500703; 2393998729; 282398762; 1741824188; 4275794182; 2312913296;
  1231433021; 1046551979; 2808630289; 3496967303; 1309403428; 957143474; 2684717064; 3607279774;
  1203610895; 817534361; 2847130659; 3736401077; 1087398166; 936857984; 2933784634; 3654889644;
  1422998873; 601230799; 3135200373; 3453512931; 1404893504; 616286678; 3182598252; 3400902906;
  1510651243; 755860989; 3020215367; 3271812305; 1567060338; 710951396; 3010007134; 3295551688;
  1913130485; 84884835; 2617666777; 3942734927; 1969605100; 40040826; 2607524032; 3966539862;
  2094237127; 198489425; 2464015595; 3856323709; 2076066270; 213479752; 2511347954; 3803648100;
  1874795921; 414723335; 2175892669; 4139142187; 1758648712; 534112542; 2262612132; 4057696306;
  1633981859; 375629109; 2406151311; 4167943193; 1711886778; 286155052; 2282172566; 4278190080].

(** Table access [tab[i]] for an index the caller has proved in range. *)
Definition tab_get (t : list Z) (i : Z) : Z := nth (Z.to_nat i) t 0.

(** ** The checksum loops *)

(** [crc8.c]: the 16-bit shift is truncated away by the [uint8_t] result. *)
Definition crc8_byte (crc p : Z) : Z :=
  u8 (Z.lxor (tab_get crc8_table (Z.lxor crc p)) (Z.shiftl crc 8)).
Definition crc8 (crc : Z) (data : list Z) : Z := foldl crc8_byte crc data.

(** [crc16.c] *)
Definition crc16_byte (crc p : Z) : Z :=
  u16 (Z.lxor (Z.shiftl crc 8)
              (tab_get crc16tab (Z.land (Z.lxor (Z.shiftr crc 8) p) 255))).
Definition crc16 (crc : Z) (data : list Z) : Z := foldl crc16_byte crc data.

(** [crc32.c] *)
Definition crc32_byte (crc p : Z) : Z :=
  Z.lxor (tab_get crc32table (Z.lxor (u8 crc) p)) (Z.shiftr crc 8).
Definition crc32 (crc : Z) (data : list Z) : Z := foldl crc32_byte crc data.

(** [crc4.c] counts nibbles, low nibble of each byte first.  The index
    [c ^ nibble] leaves the 16-entry table when the incoming [c] is not a
    nibble, and [data[i >> 1]] leaves the buffer when it is too short: both
    are faults. *)
Definition crc4_nibble (data : list Z) (i : nat) : option Z :=
  d ← data !! Nat.div2 i;
  Some (Z.land (Z.shiftr d (if Nat.odd i then 4 else 0)) 15).

Fixpoint crc4_loop (c : Z) (data : list Z) (i n : nat) : res Z :=
  match n with
  | O => Ret c
  | S n' =>
      match crc4_nibble data i with
      | None => Fault OutOfBounds
      | Some v =>
          match crc4_tab !! Z.to_nat (Z.lxor c v) with
          | None => Fault OutOfBounds
          | Some c' => crc4_loop c' data (S i) n'
          end
      end
  end.
Definition crc4 (c : Z) (data : list Z) (nibbles : nat) : res Z :=
  crc4_loop c data 0 nibbles.

(** ** Bit-serial shift registers *)

(** One clock of a w-bit register shifting left (most significant bit first)
    and of one shifting right (least significant bit first). *)
Definition lfsr_msb (w poly c : Z) : Z :=
  let s := Z.land (Z.shiftl c 1) (Z.ones w) in
  if Z.testbit c (w - 1) then Z.lxor s poly else s.
Definition lfsr_lsb (poly c : Z) : Z :=
  let s := Z.shiftr c 1 in
  if Z.testbit c 0 then Z.lxor s poly else s.

Definition crc8_ref (c p : Z) : Z := Nat.iter 8 (lfsr_msb 8 7) (Z.lxor c p).
Definition crc16_ref (c p : Z) : Z :=
  Nat.iter 8 (lfsr_msb 16 4129) (Z.lxor c (Z.shiftl p 8)).
(** CRC-32 as standardised: register preset to ones, reflected polynomial
    0xEDB88320. *)
Definition crc32_ref (s p : Z) : Z := Nat.iter 8 (lfsr_lsb 3988292384) (Z.lxor s p).

(** ** Linearity of the registers *)

Definition lxor_morphism (f : Z → Z) : Prop :=
  ∀ a b, f (Z.lxor a b) = Z.lxor (f a) (f b).

Lemma lxor_swap (a b c d : Z) :
  Z.lxor (Z.lxor a b) (Z.lxor c d) = Z.lxor (Z.lxor a c) (Z.lxor b d).
Proof.
  apply Z.bits_inj'; intros i Hi. rewrite !Z.lxor_spec.
  by destruct (Z.testbit a i), (Z.testbit b i), (Z.testbit c i), (Z.testbit d i).
Qed.

(** A conditional feedback tap is linear when the bit it looks at is. *)
Lemma tap_linear (sh : Z → Z) (i poly : Z) :
  lxor_morphism sh →
  lxor_morphism (λ c, if Z.testbit c i then Z.lxor (sh c) poly else sh c).
Proof.
  intros Hsh a b. cbv beta. rewrite Z.lxor_spec, Hsh.
  destruct (Z.testbit a i), (Z.testbit b i); simpl.
  - by rewrite lxor_swap, Z.lxor_nilpotent, Z.lxor_0_r.
  - by rewrite !Z.lxor_assoc, (Z.lxor_comm poly).
  - by rewrite Z.lxor_assoc.
  - done.
Qed.

Lemma lfsr_msb_linear w poly : lxor_morphism (lfsr_msb w poly).
Proof.
  unfold lfsr_msb. apply (tap_linear (λ c, Z.land (Z.shiftl c 1) (Z.ones w))).
  intros a b. rewrite Z.shiftl_lxor.
  apply Z.bits_inj'; intros i Hi. rewrite !Z.land_spec, !Z.lxor_spec, !Z.land_spec.
  by destruct (Z.testbit (Z.shiftl a 1) i), (Z.testbit (Z.shiftl b 1) i),
    (Z.testbit (Z.ones w) i).
Qed.

Lemma lfsr_lsb_linear poly : lxor_morphism (lfsr_lsb poly).
Proof.
  unfold lfsr_lsb. apply (tap_linear (λ c, Z.shiftr c 1)).
  intros a b. apply Z.shiftr_lxor.
Qed.

Lemma iter_linear n f : lxor_morphism f → lxor_morphism (Nat.iter n f).
Proof. intros Hf. induction n; intros a b; simpl; [done|]. by rewrite IHn, Hf. Qed.

Fixpoint take_while {A} (p : A → bool) (l : list A) : list A :=
  match l with [] => [] | x :: l => if p x then x :: take_while p l else [] end.

(** ** Tables against registers *)

(** Shifting eight zero bits out of a right-shifting register is a plain shift. *)
Lemma lfsr_lsb_shift8 poly h : Nat.iter 8 (lfsr_lsb poly) (Z.shiftl h 8) = h.
Proof.
  assert (∀ x, lfsr_lsb poly (Z.shiftl x 1) = x) as Hs.
  { intros x. unfold lfsr_lsb. rewrite Z.shiftl_spec_low by lia.
    rewrite Z.shiftr_shiftl_l by lia. apply Z.shiftl_0_r. }
  assert (Z.shiftl h 8 = Nat.iter 8 (λ x, Z.shiftl x 1) h) as ->.
  { simpl. by rewrite !Z.shiftl_shiftl by lia. }
  simpl. by rewrite !Hs.
Qed.

Lemma crc32table_spec i :
  is_byte i →
  tab_get crc32table i =
    Z.lxor (Nat.iter 8 (lfsr_lsb 3988292384) (Z.lxor i 255)) 4278190080.
Proof.
  intros Hi. apply Z.eqb_eq. revert i Hi.
  apply (byte_enum (λ i, tab_get crc32table i =?
    Z.lxor (Nat.iter 8 (lfsr_lsb 3988292384) (Z.lxor i 255)) 4278190080)).
  vm_compute. reflexivity.
Qed.

(** One iteration of the C loop on the complemented register is one byte of the
    standard CRC-32. *)
Lemma crc32_byte_ref c p :
  is_u32 c → is_byte p → not32 (crc32_byte c p) = crc32_ref (not32 c) p.
Proof.
  intros Hc Hp. unfold crc32_byte, crc32_ref.
  rewrite crc32table_spec by auto with mios.
  rewrite (byte_split (not32 c)).
  assert (u8 (not32 c) = Z.lxor (u8 c) 255) as -> by (unfold not32; by rewrite u8_lxor).
  assert (Z.shiftr (not32 c) 8 = Z.lxor (Z.shiftr c 8) 16777215) as ->
    by (unfold not32; by rewrite Z.shiftr_lxor).
  replace (Z.lxor (Z.lxor (Z.lxor (u8 c) 255) (Z.shiftl (Z.lxor (Z.shiftr c 8) 16777215) 8)) p)
    with (Z.lxor (Z.lxor (Z.lxor (u8 c) p) 255) (Z.shiftl (Z.lxor (Z.shiftr c 8) 16777215) 8))
    by xor_ac.
  rewrite (iter_linear 8 _ (lfsr_lsb_linear 3988292384) _ (Z.shiftl _ 8)), lfsr_lsb_shift8.
  unfold not32. change 4294967295 with (Z.lxor 4278190080 16777215). xor_ac.
Qed.

Lemma tab_get_u32 i : is_byte i → is_u32 (tab_get crc32table i).
Proof.
  intros Hi. unfold is_u32.
  pose proof (byte_enum (λ i, (0 <=? tab_get crc32table i)
    && (tab_get crc32table i <? 4294967296))%bool ltac:(vm_compute; reflexivity) i Hi) as H.
  simpl in H. bool_to_prop. lia.
Qed.

Lemma crc32_byte_u32 c p : is_u32 c → is_byte p → is_u32 (crc32_byte c p).
Proof.
  intros. apply lxor_u32; [apply tab_get_u32; auto with mios|by apply shiftr_u32].
Qed.

Lemma crc32_u32 c data : is_u32 c → bytes data → is_u32 (crc32 c data).
Proof.
  intros Hc Hd. unfold crc32. revert c Hc.
  induction Hd; intros c Hc; simpl; auto using crc32_byte_u32.
Qed.

Lemma crc32_app c d1 d2 : crc32 c (d1 ++ d2) = crc32 (crc32 c d1) d2.
Proof. apply foldl_app. Qed.

(** ** The residue of a checksummed block *)

(** Feeding the four little-endian bytes of [x] to the loop only depends on the
    exclusive-or of register and [x]. *)
Definition crc32_fold (w : Z) : Z :=
  Z.lxor (tab_get crc32table (u8 w)) (Z.shiftr w 8).

Lemma crc32_byte_fold c x :
  Z.lxor (crc32_byte c (u8 x)) (Z.shiftr x 8) = crc32_fold (Z.lxor c x).
Proof.
  unfold crc32_byte, crc32_fold. rewrite u8_lxor, Z.shiftr_lxor. xor_ac.
Qed.

Lemma crc32_le32 c x : is_u32 x → crc32 c (le32 x) = Nat.iter 4 crc32_fold (Z.lxor c x).
Proof.
  intros Hx. unfold crc32, le32. simpl.
  rewrite <- (crc32_byte_fold c x), <- (crc32_byte_fold _ (Z.shiftr x 8)),
    <- (crc32_byte_fold _ (Z.shiftr (Z.shiftr x 8) 8)),
    <- (crc32_byte_fold _ (Z.shiftr (Z.shiftr (Z.shiftr x 8) 8) 8)).
  rewrite !Z.shiftr_shiftr by lia. change (8 + 8) with 16. change (16 + 8) with 24.
  change (24 + 8) with 32. rewrite (Z.shiftr_div_pow2 x 32) by lia.
  rewrite Z.div_small by (unfold is_u32 in Hx; lia). by rewrite Z.lxor_0_r.
Qed.

(** The top bytes of the table are a permutation of 0..255; its inverse. *)
Definition crc32_top_inv : list Z := Eval vm_compute in
  map (λ t, Z.of_nat (length (take_while (λ i,
    negb (Z.shiftr (tab_get crc32table i) 24 =? t)) (seqZ 0 256)))) (seqZ 0 256).

Lemma crc32_top_inv_spec i :
  is_byte i → tab_get crc32_top_inv (Z.shiftr (tab_get crc32table i) 24) = i.
Proof.
  intros Hi. apply Z.eqb_eq. revert i Hi. apply (byte_enum (λ i,
    tab_get crc32_top_inv (Z.shiftr (tab_get crc32table i) 24) =? i)).
  vm_compute. reflexivity.
Qed.

(** The fold is injective: the top byte of its result identifies the table entry. *)
Lemma crc32_fold_inj v w :
  is_u32 v → is_u32 w → crc32_fold v = crc32_fold w → v = w.
Proof.
  intros Hv Hw Heq.
  assert (∀ z, is_u32 z → Z.shiftr (crc32_fold z) 24 =
    Z.shiftr (tab_get crc32table (u8 z)) 24) as Htop.
  { intros z Hz. unfold crc32_fold. rewrite Z.shiftr_lxor, Z.shiftr_shiftr by lia.
    rewrite (Z.shiftr_div_pow2 z) by lia. unfold is_u32 in Hz.
    rewrite Z.div_small by lia. apply Z.lxor_0_r. }
  assert (∀ i j, is_byte i → is_byte j →
    Z.shiftr (tab_get crc32table i) 24 = Z.shiftr (tab_get crc32table j) 24 → i = j) as Hinj.
  { intros i j Hi Hj Hij. rewrite <- (crc32_top_inv_spec i), <- (crc32_top_inv_spec j) by done.
    by rewrite Hij. }
  assert (u8 v = u8 w) as Hlo.
  { apply Hinj; auto with mios. rewrite <- !Htop by done. by rewrite Heq. }
  unfold crc32_fold in Heq. rewrite Hlo in Heq.
  assert (Z.shiftr v 8 = Z.shiftr w 8) as Hhi.
  { rewrite <- (Z.lxor_0_l (Z.shiftr v 8)), <- (Z.lxor_0_l (Z.shiftr w 8)),
      <- (Z.lxor_nilpotent (tab_get crc32table (u8 w))), !Z.lxor_assoc. by rewrite Heq. }
  by rewrite (byte_split v), (byte_split w), Hlo, Hhi.
Qed.

Lemma crc32_fold_u32 w : is_u32 w → is_u32 (crc32_fold w).
Proof.
  intros. apply lxor_u32; [apply tab_get_u32; auto with mios|by apply shiftr_u32].
Qed.

Lemma crc32_fold_iter_inj n v w :
  is_u32 v → is_u32 w → Nat.iter n crc32_fold v = Nat.iter n crc32_fold w → v = w.
Proof.
  intros Hv Hw. assert (∀ m z, is_u32 z → is_u32 (Nat.iter m crc32_fold z)) as Hr.
  { induction m; simpl; auto using crc32_fold_u32. }
  induction n; simpl; [done|]. intros H. apply crc32_fold_inj in H; auto.
Qed.

Lemma crc32_fold_ones : Nat.iter 4 crc32_fold 4294967295 = 4294967295.
Proof. vm_compute. reflexivity. Qed.

Lemma lxor_cancel_l a b c : Z.lxor a b = Z.lxor a c → b = c.
Proof.
  intros H. rewrite <- (Z.lxor_0_l b), <- (Z.lxor_0_l c), <- (Z.lxor_nilpotent a).
  by rewrite !Z.lxor_assoc, H.
Qed.

(** The interface the framing code relies on: checksums chain over
    concatenation, stay in 32 bits, and a block followed by a 32-bit trailer
    has residue [~0] exactly when the trailer is the block's complemented
    checksum. *)
Class Crc32Spec (crc : Z → list Z → Z) := {
  crc_app : ∀ c d1 d2, crc c (d1 ++ d2) = crc (crc c d1) d2;
  crc_nil : ∀ c, crc c [] = c;
  crc_u32 : ∀ c d, is_u32 c → bytes d → is_u32 (crc c d);
  crc_residue : ∀ c d x, is_u32 c → bytes d → is_u32 x →
    crc c (d ++ le32 x) = 4294967295 ↔ x = not32 (crc c d);
}.

Lemma crc32_residue_iff c d x :
  is_u32 c → bytes d → is_u32 x →
  crc32 c (d ++ le32 x) = 4294967295 ↔ x = not32 (crc32 c d).
Proof.
  intros Hc Hd Hx. rewrite crc32_app, crc32_le32 by done.
  assert (is_u32 (crc32 c d)) as Hs by auto using crc32_u32.
  revert Hs. generalize (crc32 c d). intros s Hs.
  assert (is_u32 4294967295) as Hm by (unfold is_u32; lia).
  split.
  - intros H. apply (lxor_cancel_l s). transitivity 4294967295.
    + apply (crc32_fold_iter_inj 4); [by apply lxor_u32|done|].
      by rewrite crc32_fold_ones.
    + unfold not32. by rewrite <- Z.lxor_assoc, Z.lxor_nilpotent.
  - intros ->. unfold not32. rewrite <- Z.lxor_assoc, Z.lxor_nilpotent, Z.lxor_0_l.
    apply crc32_fold_ones.
Qed.

#[export] Instance crc32_spec : Crc32Spec crc32 := {
  crc_app := crc32_app;
  crc_nil := λ c, eq_refl;
  crc_u32 := crc32_u32;
  crc_residue := crc32_residue_iff;
}.

(** ** Properties *)

(** C22: The table-driven CRC-32 loop computes the standard bit-serial CRC-32 of any
    byte buffer, for any starting checksum. *)
Theorem crc32_is_standard c data :
  is_u32 c → bytes data → crc32 c data = not32 (foldl crc32_ref (not32 c) data).
Proof.
  intros Hc Hd. rewrite <- (not32_involutive (crc32 c data)). f_equal.
  unfold crc32. revert c Hc. induction Hd as [|p d Hp Hd IH]; intros c Hc; simpl; [done|].
  rewrite IH by auto using crc32_byte_u32. by rewrite crc32_byte_ref.
Qed.

Lemma crc32_is_standard_witness :
  crc32 0 [49; 50; 51; 52; 53; 54; 55; 56; 57] = 3421780262 ∧
  crc32 0 [49; 50; 51; 52; 53; 54; 55; 56; 57] =
    not32 (foldl crc32_ref (not32 0) [49; 50; 51; 52; 53; 54; 55; 56; 57]).
Proof.
  split; [vm_compute; reflexivity|]. apply (crc32_is_standard 0 [49; 50; 51; 52; 53; 54; 55; 56; 57]).
  - unfold is_u32. lia.
  - repeat (apply Forall_cons_2; [unfold is_byte; lia|]). apply Forall_nil_2.
Defined.

(** ** The narrow checksums *)

(** Shifting eight bits through a left-shifting register of at least eight bits
    moves the low part up; the high byte goes through the table. *)
Lemma crc16_low8 lo :
  is_byte lo → Nat.iter 8 (lfsr_msb 16 4129) lo = Z.shiftl lo 8.
Proof.
  intros Hi. apply Z.eqb_eq. revert lo Hi.
  apply (byte_enum (λ lo, Nat.iter 8 (lfsr_msb 16 4129) lo =? Z.shiftl lo 8)).
  vm_compute. reflexivity.
Qed.

Lemma crc16tab_spec i :
  is_byte i → tab_get crc16tab i = Nat.iter 8 (lfsr_msb 16 4129) (Z.shiftl i 8).
Proof.
  intros Hi. apply Z.eqb_eq. revert i Hi.
  apply (byte_enum (λ i, tab_get crc16tab i =? Nat.iter 8 (lfsr_msb 16 4129) (Z.shiftl i 8))).
  vm_compute. reflexivity.
Qed.

Lemma crc8_table_spec i :
  is_byte i → tab_get crc8_table i = Nat.iter 8 (lfsr_msb 8 7) i ∧ is_byte (tab_get crc8_table i).
Proof.
  intros Hi. pose proof (byte_enum (λ i, (tab_get crc8_table i =? Nat.iter 8 (lfsr_msb 8 7) i)
    && (0 <=? tab_get crc8_table i) && (tab_get crc8_table i <? 256))%bool
    ltac:(vm_compute; reflexivity) i Hi) as H.
  simpl in H. bool_to_prop. unfold is_byte. split; [done|lia].
Qed.

Lemma u16_split c : 0 <= c < 65536 →
  is_byte (Z.shiftr c 8) ∧ u16 (Z.shiftl c 8) = Z.shiftl (u8 c) 8.
Proof.
  intros Hc. unfold is_byte, u16, u8. rewrite Z.shiftr_div_pow2, !Z.shiftl_mul_pow2 by lia.
  change (2 ^ 8) with 256. split; dlia.
Qed.

Lemma u16_lxor a b : u16 (Z.lxor a b) = Z.lxor (u16 a) (u16 b).
Proof.
  unfold u16. change 65536 with (2 ^ 16). rewrite <- !Z.land_ones by lia.
  apply Z.bits_inj'; intros i Hi.
  rewrite !Z.lxor_spec, !Z.land_spec, Z.lxor_spec.
  by destruct (Z.testbit a i), (Z.testbit b i), (Z.testbit (Z.ones 16) i).
Qed.

Lemma crc16_byte_ref c p :
  0 <= c < 65536 → is_byte p → crc16_byte c p = crc16_ref c p ∧ 0 <= crc16_byte c p < 65536.
Proof.
  intros Hc Hp. destruct (u16_split c Hc) as [Hhi Hsh].
  assert (0 <= crc16_byte c p < 65536) by (apply Z.mod_pos_bound; lia).
  split; [|done]. unfold crc16_byte, crc16_ref.
  assert (is_byte (Z.lxor (Z.shiftr c 8) p)) as Hx by auto with mios.
  change 255 with (Z.ones 8). rewrite Z.land_ones by lia. change (2 ^ 8) with 256.
  rewrite (Z.mod_small _ 256) by done.
  rewrite u16_lxor, Hsh, crc16tab_spec by done.
  assert (Z.lxor c (Z.shiftl p 8) = Z.lxor (Z.shiftl (Z.lxor (Z.shiftr c 8) p) 8) (u8 c)) as ->.
  { rewrite (byte_split c) at 1. rewrite Z.shiftl_lxor. xor_ac. }
  rewrite (iter_linear 8 _ (lfsr_msb_linear 16 4129) _ (u8 c)), (crc16_low8 (u8 c)) by auto with mios.
  rewrite Z.lxor_comm. f_equal. unfold u16. apply Z.mod_small.
  assert (∀ i, is_byte i → (0 <= Nat.iter 8 (lfsr_msb 16 4129) (Z.shiftl i 8) < 65536)) as Hb.
  { intros i Hi. rewrite <- crc16tab_spec by done.
    pose proof (byte_enum (λ i, (0 <=? tab_get crc16tab i) && (tab_get crc16tab i <? 65536))%bool
      ltac:(vm_compute; reflexivity) i Hi) as H'. cbv beta in H'. bool_to_prop. lia. }
  by apply Hb.
Qed.

Lemma crc8_byte_ref c p :
  is_byte c → is_byte p → crc8_byte c p = crc8_ref c p ∧ is_byte (crc8_byte c p).
Proof.
  intros Hc Hp. destruct (crc8_table_spec (Z.lxor c p)) as [Ht Hb]; [auto with mios|].
  assert (crc8_byte c p = tab_get crc8_table (Z.lxor c p)) as ->.
  { unfold crc8_byte. rewrite u8_lxor, (u8_id (tab_get _ _)) by done.
    assert (u8 (Z.shiftl c 8) = 0) as -> by (unfold u8; rewrite Z.shiftl_mul_pow2 by lia; by apply Z.mod_mul).
    apply Z.lxor_0_r. }
  by split.
Qed.

(** Both narrow table loops agree with their bit-serial registers (polynomials
    0x07 and 0x1021) on every buffer and stay in their width. *)
Theorem crc8_crc16_are_serial c8 c16 data :
  is_byte c8 → 0 <= c16 < 65536 → bytes data →
  crc8 c8 data = foldl crc8_ref c8 data ∧ is_byte (crc8 c8 data) ∧
  crc16 c16 data = foldl crc16_ref c16 data ∧ 0 <= crc16 c16 data < 65536.
Proof.
  intros H8 H16 Hd. unfold crc8, crc16. revert c8 c16 H8 H16.
  induction Hd as [|p d Hp Hd IH]; intros c8 c16 H8 H16; simpl; [split; auto; lia|].
  destruct (crc8_byte_ref c8 p) as [E8 B8]; [done..|].
  destruct (crc16_byte_ref c16 p) as [E16 B16]; [done..|].
  rewrite <- E8, <- E16. by apply IH.
Qed.

(** *** CRC-4 *)

(** The nibbles of a buffer in the order [crc4] consumes them. *)
Definition nibbles_of (data : list Z) : list Z := data ≫= λ d, [d mod 16; d / 16].

Definition crc4_ref (c v : Z) : Z := Nat.iter 4 (lfsr_msb 4 7) (Z.lxor c v).

Lemma crc4_nibble_spec data i : bytes data → crc4_nibble data i = nibbles_of data !! i.
Proof.
  intros Hd. revert i. induction Hd as [|d data Hb Hd IH]; intros i.
  - by destruct i as [|[|i]].
  - destruct i as [|[|i]].
    + unfold crc4_nibble. simpl. rewrite Z.shiftr_0_r. change 15 with (Z.ones 4).
      by rewrite Z.land_ones.
    + unfold crc4_nibble. simpl. change 15 with (Z.ones 4). rewrite Z.land_ones by lia.
      rewrite Z.shiftr_div_pow2 by lia. unfold is_byte in Hb. change (2 ^ 4) with 16.
      rewrite Z.mod_small by dlia. done.
    + change (crc4_nibble data i = nibbles_of data !! i). apply IH.
Qed.

Lemma crc4_tab_spec c v :
  0 <= c < 16 → 0 <= v < 16 →
  crc4_tab !! Z.to_nat (Z.lxor c v) = Some (crc4_ref c v) ∧ 0 <= crc4_ref c v < 16.
Proof.
  intros Hc Hv. unfold crc4_ref.
  assert (0 <= Z.lxor c v < 16) as Hx by (apply (lxor_bound 4); lia).
  revert Hx. generalize (Z.lxor c v). intros x Hx.
  assert (∃ n, (n < 16)%nat ∧ x = Z.of_nat n) as (n & Hn & ->) by (exists (Z.to_nat x); lia).
  do 16 (destruct n as [|n]; [vm_compute; intuition congruence|]). lia.
Qed.

Lemma nibbles_of_range data : bytes data → Forall (λ v, 0 <= v < 16) (nibbles_of data).
Proof.
  induction 1 as [|d data Hd _ IH]; simpl; [constructor|].
  unfold is_byte in Hd. repeat constructor; try dlia. done.
Qed.

Lemma crc4_loop_spec n : ∀ i c data,
  0 <= c < 16 → bytes data → (i + n <= length (nibbles_of data))%nat →
  crc4_loop c data i n = Ret (foldl crc4_ref c (take n (drop i (nibbles_of data)))).
Proof.
  induction n as [|n IH]; intros i c data Hc Hd Hlen; simpl; [done|].
  rewrite crc4_nibble_spec by done.
  destruct (nibbles_of data !! i) as [v|] eqn:Ev;
    [|apply lookup_ge_None in Ev; lia].
  pose proof (nibbles_of_range data Hd) as Hr. rewrite Forall_lookup in Hr.
  destruct (crc4_tab_spec c v) as [-> Hb]; [done|by eapply Hr|].
  rewrite IH by (done || lia). rewrite (drop_S _ v i) by done. done.
Qed.

(** [crc4] over at most twice as many nibbles as the buffer has bytes stays in
    its table and its buffer, and computes the bit-serial checksum (polynomial
    x^4+x^2+x+1) of those nibbles. *)
Theorem crc4_in_bounds c data n :
  0 <= c < 16 → bytes data → (n <= 2 * length data)%nat →
  crc4 c data n = Ret (foldl crc4_ref c (take n (nibbles_of data))).
Proof.
  intros Hc Hd Hn. unfold crc4. rewrite crc4_loop_spec; try done.
  assert (length (nibbles_of data) = (2 * length data)%nat) as ->; [|lia].
  clear. induction data as [|d l IH]; [done|].
  change (length (nibbles_of (d :: l))) with (S (S (length (nibbles_of l)))). simpl. lia.
Qed.
