(* ===== verification/Hdlc.v ===== *)
(** * HDLC: byte framing over a serial stream ([src/util/hdlc.c])

    The sender escapes flag and escape octets (and, for the printable variant,
    control characters), appends the complemented CRC-32 and brackets the
    result in flags.  The receiver scans a byte stream for a frame whose
    residue is right.

    A stream being read is the list of bytes that will arrive on it; a blocking
    read of an exhausted stream is the outcome [Blocked].  A stream being
    written is the list of the chunks passed to [stream_write].  The receive
    buffer is a list as long as the C allocation, so that a store past its end
    is the fault [OutOfBounds].  The checksum is any function that meets
    [Crc32Spec]. *)

From stdpp Require Import base list numbers.
From Stdlib Require Import ZArith Lia.
From S2P Require Import Prelude Crc.

Open Scope Z_scope.

(** ** Sender *)

Definition special (escape_ctrl : bool) (c : Z) : bool :=
  ((c =? 126) || (c =? 125) || (escape_ctrl && (c <? 32)))%bool.

(** The bytes [buf + b .. buf + i), the argument of a [stream_write]; nothing
    is written when the range is empty ([if(i - b)]). *)
Definition pending (buf : list Z) (b i : nat) : list (list Z) :=
  if Nat.eqb i b then [] else [take (i - b) (drop b buf)].

(** The inner loop of [hdlc_write_rawv_ex] from index [i], with [n] bytes left
    and [b] the start of the run not yet written. *)
Fixpoint write_buf (esc : bool) (buf : list Z) (i b n : nat) : list (list Z) :=
  match n with
  | O => pending buf b i
  | S n' =>
      let c := nth i buf 0 in
      if special esc c then
        pending buf b i ++ [[125; Z.lxor c 32]] ++ write_buf esc buf (S i) (S i) n'
      else write_buf esc buf (S i) b n'
  end.

(** [hdlc_write_rawv_ex]; the final empty chunk is the flush
    [stream_write(s, NULL, 0, 0)]. *)
Definition hdlc_write_rawv_ex (iov : list (list Z)) (esc : bool) : list (list Z) :=
  [[126]] ++ (iov ≫= λ buf, write_buf esc buf 0 0 (length buf)) ++ [[126]; []].

Definition hdlc_write_rawv (iov : list (list Z)) : list (list Z) :=
  hdlc_write_rawv_ex iov false.

Section Hdlc.
Context (crc : Z → list Z → Z) `{!Crc32Spec crc}.

Definition hdlc_send_ex (data : list Z) (esc : bool) : list (list Z) :=
  hdlc_write_rawv_ex [data; le32 (not32 (crc 0 data))] esc.

Definition hdlc_send (data : list Z) : list (list Z) := hdlc_send_ex data false.
Definition hdlc_send_printable (data : list Z) : list (list Z) := hdlc_send_ex data true.

(** [hdlc_sendv] runs the checksum over the vector, one element at a time. *)
Definition hdlc_sendv (iov : list (list Z)) : list (list Z) :=
  let c := foldl crc 0 iov in
  hdlc_write_rawv (iov ++ [le32 (not32 c)]).

(** ** Receiver *)

Inductive rx_result :=
| Received (ret : Z) (buf rest : list Z)
| Blocked (len : Z) (buf : list Z).

(** [buf[len] = c; len++; if(len > max_frame_size) len = -1;] *)
Definition rx_store (buf : list Z) (max len c : Z) : res (list Z * Z) :=
  if len <? 0 then Ret (buf, len)
  else if Z.of_nat (length buf) <=? len then Fault OutOfBounds
  else Ret (<[Z.to_nat len := c]> buf, if max <? len + 1 then -1 else len + 1).

(** The loop of [hdlc_read_to_buf]; [len] is -1 until a flag is seen. *)
Fixpoint rx_loop (buf : list Z) (max wait len : Z) (input : list Z) : res rx_result :=
  match input with
  | [] =>
      let required := if len <? 1 then wait else 1 in
      if required =? 0 then Ret (Received 0 buf []) else Ret (Blocked len buf)
  | c :: rest =>
      if c =? 126 then
        if ((4 <? len) && (not32 (crc 0 (take (Z.to_nat len) buf)) =? 0))%bool
        then Ret (Received (len - 4) buf rest)
        else rx_loop buf max wait 0 rest
      else if c =? 125 then
        match rest with
        | [] => Ret (Blocked len buf)
        | c2 :: rest2 =>
            '(buf', len') ← rx_store buf max len (Z.lxor c2 32);
            rx_loop buf' max wait len' rest2
        end
      else
        '(buf', len') ← rx_store buf max len c;
        rx_loop buf' max wait len' rest
  end.

Definition hdlc_read_to_buf (buf : list Z) (max wait : Z) (input : list Z) : res rx_result :=
  rx_loop buf max wait (-1) input.

(** [hdlc_read] calls back with every frame, forever; the buffer is allocated
    once with [max_frame_size] bytes.  [n] bounds the callbacks observed; a read
    that blocks ends the observation. *)
Fixpoint hdlc_read_n (n : nat) (buf : list Z) (max : Z) (input : list Z) : res (list (list Z)) :=
  match n with
  | O => Ret []
  | S n' =>
      r ← hdlc_read_to_buf buf max 1 input;
      match r with
      | Blocked _ _ => Ret []
      | Received ret buf' rest =>
          l ← hdlc_read_n n' buf' max rest; Ret (take (Z.to_nat ret) buf' :: l)
      end
  end.
Definition hdlc_read (n : nat) (max : Z) (input : list Z) : res (list (list Z)) :=
  hdlc_read_n n (replicate (Z.to_nat max) 0) max input.

(** ** The wire format *)

Definition escape1 (esc : bool) (c : Z) : list Z :=
  if special esc c then [125; Z.lxor c 32] else [c].
Definition escape (esc : bool) (l : list Z) : list Z := l ≫= escape1 esc.

(** The frame of a payload as it appears on the wire. *)
Definition frame (esc : bool) (data : list Z) : list Z :=
  126 :: escape esc (data ++ le32 (not32 (crc 0 data))) ++ [126].

Lemma pending_concat buf b i :
  (b <= i)%nat → mjoin (pending buf b i) = take (i - b) (drop b buf).
Proof.
  intros. unfold pending. destruct (Nat.eqb_spec i b) as [->|].
  - by rewrite Nat.sub_diag.
  - simpl. apply app_nil_r.
Qed.

Lemma write_buf_concat esc buf n : ∀ i b,
  (b <= i)%nat → (i + n = length buf)%nat →
  mjoin (write_buf esc buf i b n) =
    take (i - b) (drop b buf) ++ escape esc (drop i buf).
Proof.
  induction n as [|n IH]; intros i b Hb Hn; simpl.
  - rewrite pending_concat by done. rewrite (drop_ge buf i) by lia. by rewrite app_nil_r.
  - destruct (lookup_lt_is_Some_2 buf i) as [c Hc]; [lia|].
    rewrite (nth_lookup_Some buf i 0 c) by done.
    rewrite (drop_S buf c i) by done. unfold escape. simpl. unfold escape1 at 1.
    destruct (special esc c).
    + rewrite join_app. simpl. rewrite pending_concat, IH by lia.
      by rewrite Nat.sub_diag, take_0.
    + rewrite IH by lia. replace (S i - b)%nat with (S (i - b)) by lia.
      rewrite (take_S_r _ _ c) by (rewrite lookup_drop; rewrite <- Hc; f_equal; lia).
      rewrite <- app_assoc. done.
Qed.

Lemma escape_app esc l1 l2 : escape esc (l1 ++ l2) = escape esc l1 ++ escape esc l2.
Proof. apply bind_app. Qed.

Lemma rawv_concat esc iov :
  mjoin (hdlc_write_rawv_ex iov esc) = 126 :: escape esc (mjoin iov) ++ [126].
Proof.
  unfold hdlc_write_rawv_ex. rewrite !join_app. simpl. f_equal. f_equal.
  induction iov as [|buf iov IH]; [done|].
  rewrite bind_cons, join_app, write_buf_concat by lia. rewrite IH. simpl.
  by rewrite escape_app.
Qed.

Lemma send_frame esc data : mjoin (hdlc_send_ex data esc) = frame esc data.
Proof. unfold hdlc_send_ex, frame. by rewrite rawv_concat. Qed.

Lemma crc_join iov : crc 0 (mjoin iov) = foldl crc 0 iov.
Proof.
  generalize 0. induction iov as [|d iov IH]; intros c; simpl.
  - apply (crc_nil (crc := crc)).
  - by rewrite (crc_app (crc := crc)), IH.
Qed.

Lemma rx_store_ok buf max len c :
  0 <= len → len < Z.of_nat (length buf) → len + 1 <= max →
  ∃ buf', rx_store buf max len c = Ret (buf', len + 1) ∧ length buf' = length buf ∧
    take (S (Z.to_nat len)) buf' = take (Z.to_nat len) buf ++ [c].
Proof.
  intros H0 Hl Hm. unfold rx_store.
  rewrite (proj2 (Z.ltb_ge len 0)), (proj2 (Z.leb_gt _ len)), (proj2 (Z.ltb_ge max _)) by lia.
  eexists. split_and!; [done|apply length_insert|].
  rewrite (take_S_r _ _ c); [|apply list_lookup_insert_eq; lia].
  by rewrite take_insert_ge by lia.
Qed.

(** Receiving the escaped form of [l] stores [l]. *)
Lemma rx_loop_escape esc max wait rest l : ∀ buf len,
  0 <= len → bytes l →
  len + Z.of_nat (length l) <= max → len + Z.of_nat (length l) <= Z.of_nat (length buf) →
  ∃ buf', rx_loop buf max wait len (escape esc l ++ rest) =
      rx_loop buf' max wait (len + Z.of_nat (length l)) rest ∧
    take (Z.to_nat (len + Z.of_nat (length l))) buf' = take (Z.to_nat len) buf ++ l ∧
    length buf' = length buf.
Proof.
  induction l as [|c l IH]; intros buf len H0 Hb Hm Hl.
  - exists buf. simpl. by rewrite Z.add_0_r, app_nil_r.
  - apply Forall_cons_1 in Hb as [Hc Hb]. simpl in Hm, Hl.
    destruct (rx_store_ok buf max len c) as (buf1 & Hst & Hlen1 & Htk1); [lia..|].
    destruct (IH buf1 (len + 1)) as (buf' & Hrx & Htk & Hlen); [lia|done|lia|lia|].
    exists buf'. replace (len + Z.of_nat (length (c :: l)))
      with (len + 1 + Z.of_nat (length l)) by (simpl; lia).
    split_and!; [| |lia].
    + rewrite <- Hrx. unfold escape. simpl. unfold escape1 at 1.
      destruct (special esc c) eqn:Hsp.
      * simpl. replace (Z.lxor (Z.lxor c 32) 32) with c by xor_ac. by rewrite Hst.
      * unfold special in Hsp. bool_to_prop. simpl.
        rewrite (proj2 (Z.eqb_neq c 126)), (proj2 (Z.eqb_neq c 125)) by done.
        by rewrite Hst.
    + rewrite Htk. replace (Z.to_nat (len + 1)) with (S (Z.to_nat len)) by lia.
      rewrite Htk1, <- app_assoc. done.
Qed.

(** Bytes before the first flag are skipped. *)
Lemma rx_loop_noise buf max wait g rest :
  Forall (λ c, c ≠ 126 ∧ c ≠ 125) g →
  rx_loop buf max wait (-1) (g ++ rest) = rx_loop buf max wait (-1) rest.
Proof.
  induction 1 as [|c g [H1 H2] _ IH]; [done|]. simpl.
  rewrite (proj2 (Z.eqb_neq c 126)), (proj2 (Z.eqb_neq c 125)) by done. done.
Qed.

Lemma rx_frame esc max wait buf data rest len0 :
  bytes data → data ≠ [] →
  Z.of_nat (length data) + 4 <= max → max <= Z.of_nat (length buf) → len0 <= 4 →
  ∃ buf', rx_loop buf max wait len0 (frame esc data ++ rest) =
      Ret (Received (Z.of_nat (length data)) buf' rest) ∧
    take (length data) buf' = data ∧ length buf' = length buf.
Proof.
  intros Hb Hne Hm Hl H0. set (trailer := le32 (not32 (crc 0 data))).
  destruct (rx_loop_escape esc max wait (126 :: rest) (data ++ trailer) buf 0)
    as (buf' & Hrx & Htk & Hlen);
    [done|apply Forall_byte_app; split; [done|apply le32_bytes]|rewrite length_app; simpl; lia..|].
  exists buf'. rewrite length_app in Hrx, Htk. change (length trailer) with 4%nat in Hrx, Htk.
  rewrite !Z.add_0_l in Hrx, Htk.
  assert (0 < length data)%nat by (destruct data; simpl; [done|lia]).
  split_and!; [| |done].
  - simpl. rewrite (proj2 (Z.ltb_ge 4 len0)) by done. simpl.
    rewrite <- app_assoc. simpl. fold trailer. rewrite Hrx. simpl. rewrite Htk. simpl.
    rewrite (proj2 (Z.ltb_lt 4 _)) by lia. simpl.
    assert (crc 0 (data ++ trailer) = 4294967295) as ->.
    { apply (crc_residue (crc := crc)); try done; unfold is_u32; try lia.
      apply not32_u32, (crc_u32 (crc := crc)); [unfold is_u32; lia|done]. }
    simpl. replace (Z.of_nat (length data + 4) - 4) with (Z.of_nat (length data)) by lia. done.
  - simpl in Htk. rewrite Nat2Z.id in Htk.
    transitivity (take (length data) (data ++ trailer)); [|apply take_app_length].
    rewrite <- Htk, take_take. f_equal. lia.
Qed.
End Hdlc.

(** ** Properties *)

(** C20: a frame sent by [hdlc_send], [hdlc_send_printable] or (for any split of the
    payload into a vector) [hdlc_sendv] is delivered intact by [hdlc_read_to_buf],
    whatever noise without flag or escape octets precedes it and whatever follows it,
    provided the payload is not empty (the receiver ignores an empty frame) and payload
    and checksum fit. *)
Theorem hdlc_roundtrip (crc : Z → list Z → Z) `{!Crc32Spec crc} esc iov noise rest buf max wait :
  bytes (mjoin iov) → mjoin iov ≠ [] →
  Forall (λ c, c ≠ 126 ∧ c ≠ 125) noise →
  Z.of_nat (length (mjoin iov)) + 4 <= max → max <= Z.of_nat (length buf) →
  mjoin (hdlc_send_ex crc (mjoin iov) false) = mjoin (hdlc_sendv crc iov) ∧
  ∃ buf',
    hdlc_read_to_buf crc buf max wait
      (noise ++ mjoin (hdlc_send_ex crc (mjoin iov) esc) ++ rest) =
      Ret (Received (Z.of_nat (length (mjoin iov))) buf' rest) ∧
    take (length (mjoin iov)) buf' = mjoin iov.
Proof.
  intros Hb Hne Hn Hm Hl. split.
  - unfold hdlc_send_ex, hdlc_sendv, hdlc_write_rawv. rewrite !rawv_concat.
    do 3 f_equal. rewrite join_app. simpl. by rewrite (crc_join crc iov).
  - unfold hdlc_read_to_buf. rewrite rx_loop_noise by done.
    rewrite send_frame. destruct (rx_frame crc esc max wait buf (mjoin iov) rest (-1))
      as (buf' & Hrx & Htk & _); [done..|lia|]. by exists buf'.
Qed.

Example hdlc_roundtrip_witness :
  ∃ buf',
    hdlc_read_to_buf crc32 (replicate 16 0) 12 1
      ([104; 105] ++ mjoin (hdlc_send_ex crc32 (mjoin [[126; 3]; [125; 200; 0]]) true) ++ [126]) =
      Ret (Received 5 buf' [126]) ∧
    take 5 buf' = mjoin [[126; 3]; [125; 200; 0]].
Proof.
  apply (hdlc_roundtrip crc32 true [[126; 3]; [125; 200; 0]] [104; 105] [126] (replicate 16 0) 12 1).
  - repeat constructor; unfold is_byte; lia.
  - done.
  - repeat constructor; lia.
  - simpl. lia.
  - simpl. lia.
Defined.

(** A sequence of frames sent back to back is delivered to the [hdlc_read]
    callback completely, in order and unchanged, when each fits the frame size. *)
Theorem hdlc_read_delivers_all (crc : Z → list Z → Z) `{!Crc32Spec crc} (frames : list (list Z)) max :
  Forall (λ d, bytes d ∧ d ≠ [] ∧ Z.of_nat (length d) + 4 <= max) frames →
  hdlc_read crc (S (length frames)) max (mjoin (map (λ d, mjoin (hdlc_send crc d)) frames)) =
    Ret frames.
Proof.
  intros Hf. unfold hdlc_read.
  destruct (decide (frames = [])) as [->|Hne]; [done|].
  assert (0 <= max) as Hmax.
  { destruct Hf as [|d ? (_ & _ & ?)]; [done|lia]. }
  assert (max <= Z.of_nat (length (replicate (Z.to_nat max) 0))) as Hl
    by (rewrite length_replicate; lia).
  clear Hne Hmax. revert Hl. generalize (replicate (Z.to_nat max) 0).
  induction Hf as [|d frames (Hb & Hd & Hm) Hf IH]; intros buf Hl; [done|].
  destruct (rx_frame crc false max 1 buf d
    (mjoin (map (λ d, mjoin (hdlc_send crc d)) frames)) (-1)) as (buf' & Hrx & Htk & Hlen);
    [done..|lia|].
  rewrite <- send_frame in Hrx. change (length (d :: frames)) with (S (length frames)).
  revert IH. generalize (S (length frames)). intros n IH.
  cbn [hdlc_read_n]. unfold hdlc_read_to_buf.
  change (mjoin (map ?f (d :: frames))) with (f d ++ mjoin (map f frames)).
  unfold hdlc_send at 1. rewrite Hrx. cbn [mbind res_bind].
  rewrite IH by lia. cbn [mbind res_bind]. by rewrite Nat2Z.id, Htk.
Qed.

Example hdlc_read_delivers_all_witness :
  hdlc_read crc32 3 64 (mjoin (map (λ d, mjoin (hdlc_send crc32 d)) [[1; 126; 2]; [125]])) =
    Ret [[1; 126; 2]; [125]].
Proof.
  apply (hdlc_read_delivers_all crc32 [[1; 126; 2]; [125]] 64).
  repeat constructor; unfold is_byte; simpl; (lia || done).
Defined.

(** A frame sent by [hdlc_send_printable] has no control character: every byte
    on the wire is at least 0x20 (and at most 0xff). *)
Theorem hdlc_printable_no_ctrl (crc : Z → list Z → Z) `{!Crc32Spec crc} data :
  bytes data →
  Forall (λ c, 32 <= c < 256) (mjoin (hdlc_send_printable crc data)).
Proof.
  intros Hb. unfold hdlc_send_printable, hdlc_send_ex. rewrite rawv_concat.
  constructor; [lia|]. apply Forall_app. split; [|constructor; [lia|done]].
  assert (bytes (mjoin [data; le32 (not32 (crc 0 data))])) as Hall.
  { simpl. apply Forall_byte_app. split; [done|apply (le32_bytes (not32 (crc 0 data)))]. }
  revert Hall. generalize (mjoin [data; le32 (not32 (crc 0 data))]). clear.
  induction 1 as [|c l Hc _ IH]; [constructor|].
  unfold escape. rewrite bind_cons. apply Forall_app. split; [|done].
  unfold escape1. destruct (special true c) eqn:Hs.
  - constructor; [lia|]. constructor; [|done].
    unfold special in Hs. rewrite andb_true_l in Hs.
    pose proof (byte_enum (λ c, implb ((c =? 126) || (c =? 125) || (c <? 32))
      ((32 <=? Z.lxor c 32) && (Z.lxor c 32 <? 256)))%bool
      ltac:(vm_compute; reflexivity) c Hc) as H.
    cbv beta in H. rewrite Hs in H. simpl in H. bool_to_prop. lia.
  - constructor; [|done]. unfold special in Hs. unfold is_byte in Hc.
    bool_to_prop. destruct (c <? 32) eqn:E; bool_to_prop; [naive_solver|lia].
Qed.

Example hdlc_printable_witness :
  Forall (λ c, 32 <= c < 256) (mjoin (hdlc_send_printable crc32 [0; 10; 126])).
Proof. apply hdlc_printable_no_ctrl; [apply _|]. repeat constructor; unfold is_byte; lia. Defined.

(** The receiver never stores outside a buffer with one byte more than the
    [max_frame_size] it is given, on any input whatsoever. *)
Theorem hdlc_rx_in_bounds (crc : Z → list Z → Z) buf max wait input :
  0 <= max → max + 1 <= Z.of_nat (length buf) →
  ∃ r, hdlc_read_to_buf crc buf max wait input = Ret r.
Proof.
  intros H0 Hl. unfold hdlc_read_to_buf.
  cut (∀ n input buf len, (length input <= n)%nat → max + 1 <= Z.of_nat (length buf) →
    len <= max → ∃ r, rx_loop crc buf max wait len input = Ret r).
  { intros H. apply (H (length input)); lia. }
  clear -H0. assert (∀ buf len c, max + 1 <= Z.of_nat (length buf) → len <= max →
    ∃ buf' len', rx_store buf max len c = Ret (buf', len') ∧
      length buf' = length buf ∧ len' <= max) as Hst.
  { intros buf len c Hl Hlen. unfold rx_store.
    destruct (len <? 0) eqn:E; bool_to_prop; [by exists buf, len|].
    rewrite (proj2 (Z.leb_gt _ len)) by lia. eexists _, _. split; [done|].
    rewrite length_insert. split; [done|]. case_match; bool_to_prop; lia. }
  induction n as [|n IH]; intros [|c input] buf len Hn Hl Hlen; simpl in *; try lia;
    try (case_match; eauto; done).
  destruct (c =? 126). { case_match; [eauto|]. apply IH; lia. }
  destruct (c =? 125).
  - destruct input as [|c2 rest]; [eauto|]. simpl in Hn.
    destruct (Hst buf len (Z.lxor c2 32) Hl Hlen) as (buf' & len' & -> & ? & ?).
    simpl. apply IH; lia.
  - destruct (Hst buf len c Hl Hlen) as (buf' & len' & -> & ? & ?). simpl. apply IH; lia.
Qed.

Example hdlc_rx_in_bounds_witness :
  ∃ r, hdlc_read_to_buf crc32 (replicate 9 0) 8 1 (126 :: replicate 20 65) = Ret r.
Proof. apply hdlc_rx_in_bounds; simpl; lia. Defined.

(** With a buffer of exactly [max_frame_size] bytes, which is what [hdlc_read]
    allocates, a frame one byte too long is stored one byte past the buffer
    before its length is checked. *)
Theorem hdlc_read_overrun (crc : Z → list Z → Z) buf wait :
  hdlc_read_to_buf crc buf (Z.of_nat (length buf)) wait
    (126 :: replicate (S (length buf)) 65) = Fault OutOfBounds.
Proof.
  unfold hdlc_read_to_buf. simpl.
  cut (∀ n b len, length b = length buf → 0 <= len →
    len + Z.of_nat n = Z.of_nat (length buf) →
    rx_loop crc b (Z.of_nat (length buf)) wait len (replicate (S n) 65) = Fault OutOfBounds).
  { intros H. apply (H (length buf) buf 0); lia. }
  induction n as [|n IH]; intros b len Hb Hlen Hn; rewrite replicate_S; simpl; unfold rx_store.
  - rewrite (proj2 (Z.ltb_ge len 0)), (proj2 (Z.leb_le _ len)) by lia. done.
  - rewrite (proj2 (Z.ltb_ge len 0)), (proj2 (Z.leb_gt _ len)) by lia. simpl.
    rewrite (proj2 (Z.ltb_ge _ (len + 1))) by lia.
    apply IH; rewrite ?length_insert; lia.
Qed.
