(* ===== verification/Base64.v ===== *)
(** * Base64: the encoder of [src/util/base64.c]

    [base64_encode] turns three bytes into four characters, pads the last
    group and writes a terminating NUL.  Its [out_size] argument is ignored, so
    the model gives it the output buffer as the C allocation has it and faults
    when the text does not fit.  Correctness is stated against a decoder
    written from RFC 4648. *)

From stdpp Require Import base list numbers.
From Stdlib Require Import ZArith Lia.
From S2P Require Import Prelude.

Open Scope Z_scope.

(** ["ABC...Zabc...z0123456789+/"] *)
Definition b64tbl : list Z :=
  seqZ 65 26 ++ seqZ 97 26 ++ seqZ 48 10 ++ [43; 47].

Definition b64 (i : Z) : Z := nth (Z.to_nat i) b64tbl 0.

(** The characters written for [in], group by group. *)
Fixpoint b64_text (l : list Z) : list Z :=
  match l with
  | a :: b :: c :: rest =>
      b64 (Z.shiftr a 2) ::
      b64 (Z.land (Z.lor (Z.shiftl a 4) (Z.shiftr b 4)) 63) ::
      b64 (Z.land (Z.lor (Z.shiftl b 2) (Z.shiftr c 6)) 63) ::
      b64 (Z.land c 63) ::
      b64_text rest
  | [a; b] =>
      [b64 (Z.shiftr a 2);
       b64 (Z.land (Z.lor (Z.shiftl a 4) (Z.shiftr b 4)) 63);
       b64 (Z.land (Z.shiftl b 2) 63);
       61]
  | [a] => [b64 (Z.shiftr a 2); b64 (Z.land (Z.shiftl a 4) 63); 61; 61]
  | [] => []
  end.

(** [base64_encode(out, out_size, in, in_size)]: stores the text and a NUL from
    the start of [out], whatever [out_size] says. *)
Definition base64_encode (out : list Z) (out_size : Z) (l : list Z) : res (list Z) :=
  let text := b64_text l ++ [0] in
  if Nat.leb (length text) (length out)
  then Ret (text ++ drop (length text) out)
  else Fault OutOfBounds.

(** ** Reference decoder *)

(** The sextet of a character of the base64 alphabet (RFC 4648, table 1). *)
Definition b64_value (c : Z) : option Z :=
  if ((65 <=? c) && (c <=? 90))%bool then Some (c - 65)
  else if ((97 <=? c) && (c <=? 122))%bool then Some (c - 71)
  else if ((48 <=? c) && (c <=? 57))%bool then Some (c + 4)
  else if c =? 43 then Some 62
  else if c =? 47 then Some 63
  else None.

Fixpoint b64_decode (l : list Z) : option (list Z) :=
  match l with
  | [] => Some []
  | c0 :: c1 :: c2 :: c3 :: rest =>
      if ((c2 =? 61) && (c3 =? 61))%bool then
        match rest with
        | [] => v0 ← b64_value c0; v1 ← b64_value c1; Some [v0 * 4 + v1 / 16]
        | _ => None
        end
      else if c3 =? 61 then
        match rest with
        | [] => v0 ← b64_value c0; v1 ← b64_value c1; v2 ← b64_value c2;
            Some [v0 * 4 + v1 / 16; v1 mod 16 * 16 + v2 / 4]
        | _ => None
        end
      else
        v0 ← b64_value c0; v1 ← b64_value c1; v2 ← b64_value c2; v3 ← b64_value c3;
        tl ← b64_decode rest;
        Some (v0 * 4 + v1 / 16 :: v1 mod 16 * 16 + v2 / 4 :: v2 mod 4 * 64 + v3 :: tl)
  | _ => None
  end.

(** ** Lemmas *)

Lemma b64_value_b64 i :
  0 <= i < 64 → b64_value (b64 i) = Some i ∧ (b64 i =? 61) = false ∧ is_char (b64 i).
Proof.
  intros Hi. assert (∃ n, (n < 64)%nat ∧ i = Z.of_nat n) as (n & Hn & ->)
    by (exists (Z.to_nat i); lia).
  pose proof (Forall_seq (λ n, b64_value (b64 (Z.of_nat n)) = Some (Z.of_nat n) ∧
    (b64 (Z.of_nat n) =? 61) = false ∧ is_char (b64 (Z.of_nat n))) 0 64) as H.
  apply H; [|lia]. unfold is_char. vm_compute. repeat constructor.
Qed.

(** The sextets the shifts and masks compute, as quotients and remainders. *)
Lemma sextet_01 a b : is_byte a → is_byte b →
  Z.land (Z.lor (Z.shiftl a 4) (Z.shiftr b 4)) 63 = a mod 4 * 16 + b / 16.
Proof.
  unfold is_byte. intros Ha Hb. rewrite Z.shiftr_div_pow2 by lia. change (2 ^ 4) with 16.
  rewrite shiftl_lor by dlia. change 63 with (2 ^ 6 - 1). rewrite land_ones_mod by lia.
  change (2 ^ 4) with 16. change (2 ^ 6) with 64. dlia.
Qed.

Lemma sextet_12 b c : is_byte b → is_byte c →
  Z.land (Z.lor (Z.shiftl b 2) (Z.shiftr c 6)) 63 = b mod 16 * 4 + c / 64.
Proof.
  unfold is_byte. intros Hb Hc. rewrite Z.shiftr_div_pow2 by lia. change (2 ^ 6) with 64.
  rewrite shiftl_lor by dlia. change 63 with (2 ^ 6 - 1). rewrite land_ones_mod by lia.
  change (2 ^ 2) with 4. change (2 ^ 6) with 64. dlia.
Qed.

Lemma sextet_last k b : is_byte b → 0 <= k <= 6 →
  Z.land (Z.shiftl b k) 63 = b * 2 ^ k mod 64.
Proof.
  intros Hb Hk. rewrite Z.shiftl_mul_pow2 by lia. change 63 with (2 ^ 6 - 1).
  by rewrite land_ones_mod by lia.
Qed.

Ltac sextets :=
  rewrite ?sextet_01, ?sextet_12, ?(sextet_last 4), ?(sextet_last 2) by (done || lia);
  rewrite ?Z.shiftr_div_pow2 by lia;
  change 63 with (2 ^ 6 - 1); rewrite ?land_ones_mod by lia;
  change (2 ^ 2) with 4; change (2 ^ 4) with 16; change (2 ^ 6) with 64.

Ltac chars :=
  repeat (apply List.Forall_cons; [first [done|unfold is_char; lia]|]);
  first [done|constructor].

Lemma list_ind3 {A} (P : list A → Prop) :
  P [] → (∀ a, P [a]) → (∀ a b, P [a; b]) →
  (∀ a b c l, P l → P (a :: b :: c :: l)) → ∀ l, P l.
Proof.
  intros H0 H1 H2 H3 l. cut (P l ∧ (∀ a, P (a :: l)) ∧ (∀ a b, P (a :: b :: l))); [tauto|].
  induction l as [|x l (IH0 & IH1 & IH2)]; [auto|]. split_and!; auto.
Qed.

Lemma b64_text_spec l :
  bytes l →
  b64_decode (b64_text l) = Some l ∧ cstr (b64_text l) ∧
  Z.of_nat (length (b64_text l)) = 4 * ((Z.of_nat (length l) + 2) / 3).
Proof.
  intros Hl. induction l as [|a|a b|a b c l IH] using list_ind3.
  - split; [done|]. split; [constructor|done].
  - apply Forall_cons_1 in Hl as [Ha _]. simpl. sextets. unfold is_byte in Ha.
    destruct (b64_value_b64 (a / 4)) as (V0 & E0 & ?); [dlia|].
    destruct (b64_value_b64 (a * 16 mod 64)) as (V1 & E1 & ?); [dlia|].
    rewrite V0, V1. simpl. split_and!; [do 2 f_equal; dlia| |done].
    chars.
  - apply Forall_cons_1 in Hl as [Ha Hl]. apply Forall_cons_1 in Hl as [Hb _]. simpl.
    sextets. unfold is_byte in Ha, Hb.
    destruct (b64_value_b64 (a / 4)) as (V0 & E0 & ?); [dlia|].
    destruct (b64_value_b64 (a mod 4 * 16 + b / 16)) as (V1 & E1 & ?); [dlia|].
    destruct (b64_value_b64 (b * 4 mod 64)) as (V2 & E2 & ?); [dlia|].
    rewrite E2, V0, V1, V2. simpl. split_and!; [do 2 f_equal; [dlia|f_equal; dlia]| |done].
    chars.
  - apply Forall_cons_1 in Hl as [Ha Hl]. apply Forall_cons_1 in Hl as [Hb Hl].
    apply Forall_cons_1 in Hl as [Hc Hl]. destruct (IH Hl) as (IHd & IHc & IHl).
    cbn [b64_text b64_decode]. sextets. unfold is_byte in Ha, Hb, Hc.
    destruct (b64_value_b64 (a / 4)) as (V0 & E0 & ?); [dlia|].
    destruct (b64_value_b64 (a mod 4 * 16 + b / 16)) as (V1 & E1 & ?); [dlia|].
    destruct (b64_value_b64 (b mod 16 * 4 + c / 64)) as (V2 & E2 & ?); [dlia|].
    destruct (b64_value_b64 (c mod 64)) as (V3 & E3 & ?); [dlia|].
    rewrite E2, E3, V0, V1, V2, V3, IHd. simpl. split_and!.
    + do 2 f_equal; [dlia|]. f_equal; [dlia|]. f_equal. dlia.
    + chars.
    + simpl length. dlia.
Qed.

(** ** Properties *)

(** Decoding the text of [base64_encode] by RFC 4648 gives the input back; the
    text has [4 * ceil(n / 3)] characters, none of them NUL. *)
Theorem base64_roundtrip l :
  bytes l →
  b64_decode (b64_text l) = Some l ∧ cstr (b64_text l) ∧
  Z.of_nat (length (b64_text l)) = 4 * ((Z.of_nat (length l) + 2) / 3).
Proof. apply b64_text_spec. Qed.

Example base64_roundtrip_witness :
  b64_decode (b64_text [77; 97; 110; 255; 0]) = Some [77; 97; 110; 255; 0] ∧
  cstr (b64_text [77; 97; 110; 255; 0]) ∧ Z.of_nat (length (b64_text [77; 97; 110; 255; 0])) = 8.
Proof. apply (base64_roundtrip [77; 97; 110; 255; 0]). repeat constructor; unfold is_byte; lia. Defined.

(** [base64_encode] stays inside its output buffer exactly when the buffer has
    room for the text and the NUL; the [out_size] it is given plays no part.
    In particular the 20-byte digest of the WebSocket handshake fits the
    64-byte buffer the HTTP server passes. *)
Theorem base64_encode_bounds out out_size l :
  bytes l →
  (∃ o, base64_encode out out_size l = Ret o) ↔
  4 * ((Z.of_nat (length l) + 2) / 3) + 1 <= Z.of_nat (length out).
Proof.
  intros Hl. destruct (b64_text_spec l Hl) as (_ & _ & Hlen).
  unfold base64_encode. rewrite length_app. simpl.
  destruct (Nat.leb_spec (length (b64_text l) + 1) (length out)); split; intros; try lia; eauto.
  by destruct H0.
Qed.
