(* ===== verification/Datetime.v ===== *)
(** * Datetime: wall-clock time ([src/util/datetime.c])

    [datetime_from_unixtime] splits a 32-bit Unix time into calendar fields with
    32-bit unsigned arithmetic; [datetime_day_of_week] is Zeller's congruence;
    [datetime_adj] and [datetime_set_utc_offset] move the 64-bit microsecond
    offset between the monotonic clock and UTC.  The calendar is specified by
    the Gregorian leap-year rule, counting days from 1970-01-01. *)

From stdpp Require Import base list numbers.
From Stdlib Require Import ZArith Lia.
From S2P Require Import Prelude.

Open Scope Z_scope.

(** ** Data *)

Record datetime := mk_datetime {
  year : Z;
  mon : Z;
  mday : Z;
  hour : Z;
  min : Z;
  sec : Z;
}.

Record wallclock := mk_wallclock {
  utc_offset : Z;   (* microseconds, signed 64 bits *)
  source : list Z;
}.

Inductive datetime_adj_hand :=
| DATETIME_YEAR | DATETIME_MON | DATETIME_MDAY | DATETIME_HOUR | DATETIME_MIN | DATETIME_SEC.

(** ** Operations *)

(** [datetime_from_unixtime], every intermediate in [uint32_t]; the fields are
    stored as [uint16_t] and [uint8_t]. *)
Definition datetime_from_unixtime (t : Z) : datetime :=
  let s := t mod 60 in
  let t := t / 60 in
  let m := t mod 60 in
  let t := t / 60 in
  let h := t mod 24 in
  let t := t / 24 in
  let a := u32 (u32 (4 * t + 102032) / 146097 + 15) in
  let b := u32 (t + 2442113 + a - a / 4) in
  let c := u32 (20 * b - 2442) / 7305 in
  let d := u32 (b - 365 * c - c / 4) in
  let e := u32 (d * 1000) / 30601 in
  let f := u32 (d - e * 30 - u32 (e * 601) / 1000) in
  let '(c, e) := if e <=? 13 then (u32 (c - 4716), u32 (e - 1))
                 else (u32 (c - 4715), u32 (e - 13)) in
  mk_datetime (u16 c) (u8 e) (u8 f) (u8 h) (u8 m) (u8 s).

Definition datetime_day_of_week (dt : datetime) : Z :=
  let '(month, y) := if mon dt <? 3 then (mon dt + 12, year dt - 1) else (mon dt, year dt) in
  let k := Z.rem y 100 in
  let j := Z.quot y 100 in
  let h := Z.rem (mday dt + Z.quot (13 * (month + 1)) 5 + k + Z.quot k 4 + Z.quot j 4 + 5 * j) 7 in
  Z.rem (h + 5) 7 + 1.

Definition datetime_get_utc_usec (clock : Z) (w : wallclock) : Z := u64 (clock + utc_offset w).
Definition datetime_get_utc_sec (clock : Z) (w : wallclock) : Z :=
  u32 (datetime_get_utc_usec clock w / 1000000).

Definition days_per_month : list Z := [31; 28; 31; 30; 31; 30; 31; 31; 30; 31; 30; 31].

(** [datetime_adj]: the [switch] scales [delta] to seconds in [int]; the result
    is multiplied by an unsigned 64-bit constant and added to the signed 64-bit
    offset. *)
Definition adj_seconds (clock : Z) (w : wallclock) (which : datetime_adj_hand) (delta : Z) : Z :=
  match which with
  | DATETIME_YEAR => s32 (delta * 31536000)
  | DATETIME_MON =>
      let dt := datetime_from_unixtime (datetime_get_utc_sec clock w) in
      s32 (delta * (86400 * nth (Z.to_nat (mon dt - 1)) days_per_month 0))
  | DATETIME_MDAY => s32 (delta * 86400)
  | DATETIME_HOUR => s32 (delta * 3600)
  | DATETIME_MIN => s32 (delta * 60)
  | DATETIME_SEC => delta
  end.
Definition datetime_adj (clock : Z) (w : wallclock) (which : datetime_adj_hand) (delta : Z)
    : wallclock :=
  let delta := adj_seconds clock w which delta in
  mk_wallclock (s64 (u64 (utc_offset w) + u64 (u64 delta * 1000000))) (source w).

Definition datetime_set_utc_offset (w : wallclock) (offset : Z) (src : list Z) : wallclock * bool :=
  let significant_change := ((1000000 <? offset) || (offset <? -1000000))%bool in
  (mk_wallclock (s64 (utc_offset w + offset)) src, significant_change).

(** ** The Gregorian calendar *)

Definition leap (y : Z) : bool :=
  ((y mod 4 =? 0) && negb (y mod 100 =? 0) || (y mod 400 =? 0))%bool.

Definition year_days (y : Z) : Z := if leap y then 366 else 365.
Definition month_days (y m : Z) : Z :=
  if m =? 2 then (if leap y then 29 else 28) else nth (Z.to_nat (m - 1)) days_per_month 0.

(** Days from 1970-01-01 to January 1st of [y], and to the first of month [m]. *)
Definition days_before_year (y : Z) : Z := foldr Z.add 0 (year_days <$> seqZ 1970 (y - 1970)).
Definition days_before_month (y m : Z) : Z := foldr Z.add 0 (month_days y <$> seqZ 1 (m - 1)).

Definition date_days (dt : datetime) : Z :=
  days_before_year (year dt) + days_before_month (year dt) (mon dt) + (mday dt - 1).

Definition unixtime_of (dt : datetime) : Z :=
  date_days dt * 86400 + hour dt * 3600 + min dt * 60 + sec dt.

Definition valid_datetime (dt : datetime) : Prop :=
  1970 <= year dt <= 2106 ∧ 1 <= mon dt <= 12 ∧
  1 <= mday dt <= month_days (year dt) (mon dt) ∧
  0 <= hour dt < 24 ∧ 0 <= min dt < 60 ∧ 0 <= sec dt < 60.

(** ** Closed forms of the calendar on the 32-bit range *)

Lemma days_before_year_closed y :
  1970 <= y <= 2106 →
  days_before_year y =
    365 * (y - 1970) + (y - 1969) / 4 - (y - 1901) / 100 + (y - 1601) / 400.
Proof.
  intros Hy. assert (∃ n, (n < 137)%nat ∧ y = 1970 + Z.of_nat n) as (n & Hn & ->)
    by (exists (Z.to_nat (y - 1970)); lia).
  apply Z.eqb_eq. clear Hy. revert n Hn.
  assert (forallb (λ n, days_before_year (1970 + Z.of_nat n) =?
    365 * (1970 + Z.of_nat n - 1970) + (1970 + Z.of_nat n - 1969) / 4
      - (1970 + Z.of_nat n - 1901) / 100 + (1970 + Z.of_nat n - 1601) / 400) (seq 0 137) = true)
    as H by (vm_compute; reflexivity).
  rewrite forallb_forall in H. intros n Hn. apply H, in_seq. lia.
Qed.

Lemma leap_closed y :
  1970 <= y <= 2106 → leap y = ((y mod 4 =? 0) && negb (y =? 2100))%bool.
Proof.
  intros Hy. unfold leap.
  destruct (y mod 4 =? 0) eqn:E4, (y mod 100 =? 0) eqn:E1, (y mod 400 =? 0) eqn:E400,
    (y =? 2100) eqn:E21; bool_to_prop; try done; exfalso; dlia.
Qed.

Definition cum_days : list Z := [0; 31; 59; 90; 120; 151; 181; 212; 243; 273; 304; 334].

Lemma days_before_month_closed y m :
  1 <= m <= 12 →
  days_before_month y m =
    nth (Z.to_nat (m - 1)) cum_days 0 + (if (2 <? m) && leap y then 1 else 0)%bool.
Proof.
  intros Hm. unfold days_before_month, month_days.
  assert (∃ n, (n < 12)%nat ∧ m = Z.of_nat n + 1) as (n & Hn & ->)
    by (exists (Z.to_nat (m - 1)); lia).
  do 12 (destruct n as [|n]; [destruct (leap y); vm_compute; reflexivity|]). lia.
Qed.

(** ** The conversion on days *)

(** The date arithmetic of [datetime_from_unixtime], without the wrap-around
    that the 32-bit day range cannot reach. *)
Lemma date_split t :
  0 <= t <= 49710 →
  let a := (4 * t + 102032) / 146097 + 15 in
  let b := t + 2442113 + a - a / 4 in
  let c := (20 * b - 2442) / 7305 in
  let d := b - 365 * c - c / 4 in
  let e := d * 1000 / 30601 in
  let f := d - e * 30 - e * 601 / 1000 in
  2442125 <= b <= 2491836 ∧ 6685 <= c <= 6821 ∧ 123 <= d <= 488 ∧ 4 <= e <= 15 ∧ 1 <= f <= 31.
Proof.
  intros Ht a b c d e f.
  assert (15 <= a <= 17) by (unfold a; dlia).
  assert (2442125 <= b <= 2491836) by (unfold b; dlia).
  assert (6685 <= c <= 6821) by (unfold c; dlia).
  assert (123 <= d <= 488) by (unfold d, c; dlia).
  assert (4 <= e <= 15) by (unfold e; dlia).
  split_and!; try lia.
  all: unfold f; revert H2 H3; unfold e; clearbody d; dlia.
Qed.

(** The two halves of the century correction on the 32-bit day range. *)
Lemma century_split t :
  0 <= t <= 49710 →
  let a := (4 * t + 102032) / 146097 + 15 in
  t + 2442113 + a - a / 4 = t + 2442125 + (if 47541 <=? t then 1 else 0).
Proof.
  intros Ht a.
  assert ((a = 15 ∨ a = 16) ∧ t < 47541 ∨ a = 17 ∧ 47541 <= t) as Ha by (unfold a; dlia).
  destruct (47541 <=? t) eqn:E; bool_to_prop; clearbody a; dlia.
Qed.

Definition civil (t : Z) : Z * Z * Z :=
  let b := t + 2442125 + (if 47541 <=? t then 1 else 0) in
  let c := (20 * b - 2442) / 7305 in
  let d := b - 365 * c - c / 4 in
  let e := d * 1000 / 30601 in
  let f := d - e * 30 - e * 601 / 1000 in
  if e <=? 13 then (c - 4716, e - 1, f) else (c - 4715, e - 13, f).

Lemma civil_correct t :
  0 <= t <= 49710 →
  let '(y, m, dd) := civil t in
  1970 <= y <= 2106 ∧ 1 <= m <= 12 ∧ 1 <= dd <= month_days y m ∧
  days_before_year y + days_before_month y m + (dd - 1) = t.
Proof.
  intros Ht. unfold civil.
  pose proof (date_split t Ht) as Hs. pose proof (century_split t Ht) as Hc.
  cbv zeta in Hs, Hc. rewrite Hc in Hs. clear Hc.
  set (b := t + 2442125 + (if 47541 <=? t then 1 else 0)) in *.
  set (c := (20 * b - 2442) / 7305) in *.
  set (d := b - 365 * c - c / 4) in *.
  set (e := d * 1000 / 30601) in *.
  destruct Hs as (Hb & Hc & Hd & He & Hf).
  assert (∃ k, (k < 12)%nat ∧ e = 4 + Z.of_nat k) as (k & Hk & Ek)
    by (exists (Z.to_nat (e - 4)); lia).
  assert (1970 <= c - 4716 ∨ 14 <= e) as Hy by (unfold e, d, c, b in *; case_match; bool_to_prop; dlia).
  assert (b = t + 2442125 ∧ t < 47541 ∨ b = t + 2442126 ∧ 47541 <= t) as Hbt
    by (unfold b; case_match; bool_to_prop; lia).
  assert (7305 * c <= 20 * b - 2442 < 7305 * c + 7305) as Hc' by (unfold c; dlia).
  assert (30601 * e <= 1000 * d < 30601 * e + 30601) as He' by (unfold e; dlia).
  assert (d = b - 365 * c - c / 4) as Hd' by done.
  clearbody b c d e. subst e.
  destruct k as [|[|[|[|[|[|[|[|[|[|[|[|k]]]]]]]]]]]]; [..|lia]; simpl.
  all: unfold month_days; simpl.
  all: rewrite days_before_month_closed by lia; simpl.
  all: rewrite days_before_year_closed by dlia.
  all: rewrite ?leap_closed by dlia.
  all: split; [dlia|].
  all: split; [dlia|].
  all: split; [repeat case_match; bool_to_prop; dlia|repeat case_match; bool_to_prop; dlia].
Qed.


(** On 32-bit times the wrap-around never happens: the C code computes [civil]
    of the day number and the time of day. *)
Lemma datetime_from_unixtime_civil t :
  0 <= t < 4294967296 →
  let '(y, m, d) := civil (t / 86400) in
  datetime_from_unixtime t =
    mk_datetime y m d (t mod 86400 / 3600) (t mod 3600 / 60) (t mod 60).
Proof.
  intros Ht. unfold datetime_from_unixtime, civil.
  replace (t / 60 / 60 / 24) with (t / 86400) by (rewrite !Z.div_div; [done|lia..]).
  assert (0 <= t / 86400 <= 49710) as Hd by dlia.
  pose proof (date_split _ Hd) as Hs. pose proof (century_split _ Hd) as Hc.
  cbv zeta in Hs, Hc. rewrite Hc in Hs.
  rewrite (u32_id (4 * (t / 86400) + 102032)) by (unfold is_u32; lia).
  rewrite (u32_id (_ / 146097 + 15)) by (unfold is_u32; dlia).
  rewrite Hc. clear Hc.
  set (b := t / 86400 + 2442125 + _) in *. rewrite (u32_id b) by (unfold is_u32; lia).
  rewrite (u32_id (20 * b - 2442)) by (unfold is_u32; lia).
  set (c := (20 * b - 2442) / 7305) in *.
  rewrite (u32_id (b - 365 * c - c / 4)) by (unfold is_u32; lia).
  set (d := b - 365 * c - c / 4) in *.
  rewrite (u32_id (d * 1000)) by (unfold is_u32; lia).
  set (e := d * 1000 / 30601) in *.
  rewrite (u32_id (e * 601)) by (unfold is_u32; lia).
  set (f := d - e * 30 - e * 601 / 1000) in *. clearbody b c d e f.
  rewrite (u32_id f) by (unfold is_u32; lia).
  assert (t mod 86400 / 3600 = t / 60 / 60 mod 24 ∧ t mod 3600 / 60 = t / 60 mod 60) as [-> ->]
    by dlia.
  unfold u16, u8. destruct (e <=? 13) eqn:E; bool_to_prop;
    rewrite !u32_id by (unfold is_u32; lia);
    f_equal; rewrite Z.mod_small by dlia; done.
Qed.

(** The operands are non-negative, so C division is floor division. *)
Lemma zeller_floor y m d :
  0 <= y → 0 <= m → 0 <= d →
  let h := Z.rem (d + Z.quot (13 * (m + 1)) 5 + Z.rem y 100 + Z.quot (Z.rem y 100) 4 +
                  Z.quot (Z.quot y 100) 4 + 5 * Z.quot y 100) 7 in
  Z.rem (h + 5) 7 + 1 =
    (d + 13 * (m + 1) / 5 + y mod 100 + y mod 100 / 4 + y / 100 / 4 + 5 * (y / 100) + 5) mod 7 + 1.
Proof.
  intros Hy Hm Hd h. unfold h.
  rewrite (Z.rem_mod_nonneg y), (Z.quot_div_nonneg y) by lia.
  rewrite !Z.quot_div_nonneg by dlia.
  rewrite (Z.rem_mod_nonneg (d + _ + _ + _ + _ + _)) by dlia.
  rewrite Z.rem_mod_nonneg by dlia.
  by rewrite Zplus_mod_idemp_l.
Qed.

(** Zeller's congruence counts weekdays from the epoch, a Thursday. *)
Lemma zeller_correct dt :
  valid_datetime dt → datetime_day_of_week dt = (date_days dt + 3) mod 7 + 1.
Proof.
  intros (Hy & Hm & Hd & _). unfold datetime_day_of_week, date_days.
  rewrite days_before_year_closed, days_before_month_closed, leap_closed by done.
  destruct dt as [y m d h mi s]; simpl in *.
  assert (∃ k, (k < 12)%nat ∧ m = 1 + Z.of_nat k) as (k & Hk & ->)
    by (exists (Z.to_nat (m - 1)); lia).
  assert (1 <= d) as Hd1 by lia. clear Hd Hm.
  destruct k as [|[|[|[|[|[|[|[|[|[|[|[|k]]]]]]]]]]]]; [..|lia]; clear Hk; simpl.
  all: rewrite zeller_floor by lia; simpl.
  all: try case_match; bool_to_prop.
  all: dlia.
Qed.

Lemma datetime_from_unixtime_spec t :
  0 <= t < 4294967296 →
  valid_datetime (datetime_from_unixtime t) ∧ unixtime_of (datetime_from_unixtime t) = t ∧
  date_days (datetime_from_unixtime t) = t / 86400.
Proof.
  intros Ht. pose proof (datetime_from_unixtime_civil t Ht) as Hdt.
  pose proof (civil_correct (t / 86400)) as Hc.
  destruct (civil (t / 86400)) as [[y m] d]. rewrite Hdt.
  destruct Hc as (Hy & Hm & Hd & Hdays); [dlia|].
  unfold valid_datetime, unixtime_of, date_days. simpl. rewrite Hdays.
  split_and!; try done; dlia.
Qed.

(** The number of seconds one step of a hand stands for. *)
Definition hand_seconds (clock : Z) (w : wallclock) (which : datetime_adj_hand) : Z :=
  match which with
  | DATETIME_YEAR => 365 * 86400
  | DATETIME_MON =>
      86400 * nth (Z.to_nat (mon (datetime_from_unixtime (datetime_get_utc_sec clock w)) - 1))
                  days_per_month 0
  | DATETIME_MDAY => 86400
  | DATETIME_HOUR => 3600
  | DATETIME_MIN => 60
  | DATETIME_SEC => 1
  end.

Lemma s64_wrap x y : s64 (u64 x + u64 (u64 y * 1000000)) = s64 (x + y * 1000000).
Proof.
  unfold s64, u64. rewrite (Z.mul_mod_idemp_l y) by lia.
  by rewrite <- Z.add_mod by lia.
Qed.

(** ** Properties *)

(** For every 32-bit Unix time, [datetime_from_unixtime] gives a valid Gregorian
    date and time of day whose Unix time is the argument again, and
    [datetime_day_of_week] of it is the ISO weekday of that day. *)
Theorem datetime_correct t :
  0 <= t < 4294967296 →
  valid_datetime (datetime_from_unixtime t) ∧
  unixtime_of (datetime_from_unixtime t) = t ∧
  datetime_day_of_week (datetime_from_unixtime t) = (t / 86400 + 3) mod 7 + 1.
Proof.
  intros Ht. destruct (datetime_from_unixtime_spec t Ht) as (Hv & Hu & Hd).
  rewrite zeller_correct, Hd by done. done.
Qed.

Example datetime_correct_witness :
  datetime_from_unixtime 4107542399 = mk_datetime 2100 2 28 23 59 59 ∧
  unixtime_of (datetime_from_unixtime 4107542399) = 4107542399.
Proof.
  split; [vm_compute; reflexivity|].
  apply (datetime_correct 4107542399). lia.
Defined.

(** Turning a hand by [delta] moves the clock by exactly [delta] times the
    seconds the hand stands for, backwards too, as long as that many seconds
    fit an [int] and the offset stays in 64 bits; the conversion of a negative
    step to an unsigned product is harmless. *)
Theorem datetime_adj_exact clock w which delta :
  -2147483648 <= delta * hand_seconds clock w which < 2147483648 →
  -9223372036854775808 <=
    utc_offset w + delta * hand_seconds clock w which * 1000000 < 9223372036854775808 →
  utc_offset (datetime_adj clock w which delta) =
    utc_offset w + delta * hand_seconds clock w which * 1000000.
Proof.
  intros H32 H64. unfold datetime_adj. simpl. rewrite s64_wrap.
  assert (adj_seconds clock w which delta = delta * hand_seconds clock w which) as ->.
  { clear H64. destruct which; cbn [adj_seconds hand_seconds] in *; cbv zeta;
      first [rewrite s32_id by exact H32; reflexivity|rewrite ?s32_id by lia; lia]. }
  by apply s64_id.
Qed.

Example datetime_adj_exact_witness :
  utc_offset (datetime_adj 0 (mk_wallclock 951782400000000 []) DATETIME_MON (-2)) =
    951782400000000 + -2 * hand_seconds 0 (mk_wallclock 951782400000000 []) DATETIME_MON * 1000000.
Proof. apply datetime_adj_exact; vm_compute; split; congruence. Defined.
