(* ===== verification/LibC.v ===== *)
(** * LibC: the C library of [src/lib/libc] ([string.c] and [libc.c])

    A [const char *] is the list of bytes from the pointer on; reading at or
    past the end of the list gives the terminating NUL ([deref]).  [char] is
    unsigned, as on every mios target.  A destination buffer is a list as long
    as the C object, and a store outside it is the fault [OutOfBounds].  The
    memory routines work on one flat memory (a list of bytes) with offsets for
    pointers, so that overlapping source and destination are really shared. *)

From stdpp Require Import base list numbers.
From Stdlib Require Import ZArith Lia.
From S2P Require Import Prelude.

Open Scope Z_scope.

(** ** Memory *)

Definition store (m : list Z) (i : nat) (v : Z) : res (list Z) :=
  if decide (i < length m)%nat then Ret (<[i := v]> m) else Fault OutOfBounds.
Definition load (m : list Z) (i : nat) : res Z :=
  match m !! i with Some v => Ret v | None => Fault OutOfBounds end.

(** One assignment [*d = *s]. *)
Definition move1 (m : list Z) (d s : nat) : res (list Z) :=
  v ← load m s; store m d v.

(** The ascending loop of [memcpy] and of [bcopy] when [dest < src]. *)
Fixpoint copy_up (m : list Z) (d s n : nat) : res (list Z) :=
  match n with
  | O => Ret m
  | S n' => m' ← move1 m d s; copy_up m' (S d) (S s) n'
  end.

(** The descending [do { *--d = *--s; } while(b != s)] loop of [bcopy]. *)
Fixpoint copy_down (m : list Z) (d s n : nat) : res (list Z) :=
  match n with
  | O => Ret m
  | S n' => m' ← move1 m (d + n') (s + n'); copy_down m' d s n'
  end.

Definition bcopy (m : list Z) (src dest len : nat) : res (list Z) :=
  if decide (len = 0%nat) then Ret m
  else if decide (dest < src)%nat then copy_up m dest src len
  else copy_down m dest src len.

Definition memcpy (m : list Z) (dest src n : nat) : res (list Z) := copy_up m dest src n.
Definition memmove (m : list Z) (dest src n : nat) : res (list Z) := bcopy m src dest n.

Fixpoint memset (m : list Z) (dest : nat) (val : Z) (len : nat) : res (list Z) :=
  match len with
  | O => Ret m
  | S n => m' ← store m dest (u8 val); memset m' (S dest) val n
  end.

(** [memcmp]: -1, 0 or 1 by the first differing byte. *)
Fixpoint memcmp (s1 s2 : list Z) (count : nat) : Z :=
  match count with
  | O => 0
  | S n =>
      if deref s1 =? deref s2 then memcmp (tail s1) (tail s2) n
      else if deref s1 <? deref s2 then -1 else 1
  end.

(** ** Strings *)

Fixpoint strlen (s : list Z) : nat :=
  match s with [] => 0 | c :: r => if c =? 0 then 0 else S (strlen r) end.

Fixpoint strcmp (s1 s2 : list Z) : Z :=
  match s1 with
  | c :: r =>
      if (negb (c =? 0) && (c =? deref s2))%bool then strcmp r (tail s2)
      else c - deref s2
  | [] => 0 - deref s2
  end.

Fixpoint strncmp (s1 s2 : list Z) (n : nat) : Z :=
  match n with
  | O => 0
  | S n' =>
      if (negb (deref s1 =? 0) && (deref s1 =? deref s2))%bool
      then strncmp (tail s1) (tail s2) n'
      else deref s1 - deref s2
  end.

Definition tolower (c : Z) : Z := if ((65 <=? c) && (c <=? 90))%bool then c + 32 else c.

Fixpoint strcasecmp (s1 s2 : list Z) : Z :=
  match s1 with
  | c :: r =>
      if (negb (c =? 0) && (tolower c =? tolower (deref s2)))%bool then strcasecmp r (tail s2)
      else tolower c - tolower (deref s2)
  | [] => tolower 0 - tolower (deref s2)
  end.

(** [strlcpy] from destination index [d], with [siz] bytes of room left:
    returns the destination and the source pointer where copying stopped. *)
Fixpoint strlcpy_loop (dst : list Z) (d : nat) (src : list Z) (siz : nat)
    : res (list Z * nat * list Z * nat) :=
  match siz with
  | S (S n as siz') =>
      if deref src =? 0 then Ret (dst, d, src, siz)
      else dst' ← store dst d (deref src); strlcpy_loop dst' (S d) (tail src) siz'
  | _ => Ret (dst, d, src, siz)
  end.
Definition strlcpy (dst src : list Z) (siz : nat) : res (list Z * nat) :=
  '(dst, d, src', siz') ← strlcpy_loop dst 0 src siz;
  dst ← (if Nat.eqb siz' 0 then Ret dst else store dst d 0);
  Ret (dst, (d + strlen src')%nat).

(** [strcpy] *)
Fixpoint strcpy_loop (dst : list Z) (d : nat) (src : list Z) : res (list Z) :=
  match src with
  | [] => store dst d 0
  | c :: r => dst' ← store dst d c; if c =? 0 then Ret dst' else strcpy_loop dst' (S d) r
  end.
Definition strcpy (dst src : list Z) : res (list Z) := strcpy_loop dst 0 src.

(** [strtbl]: entry [index] of a table of NUL-terminated strings that ends with
    an empty one; the literal ["???"] past the end. *)
Fixpoint strtbl (str : list Z) (index : nat) : list Z :=
  match index with
  | O => str
  | S i =>
      let n := strlen str in
      if Nat.eqb n 0 then [63; 63; 63] else strtbl (drop (n + 1) str) i
  end.

Fixpoint strchr (s : list Z) (c : Z) : option (list Z) :=
  match s with
  | [] => None
  | x :: r => if x =? 0 then None else if u8 c =? x then Some s else strchr r c
  end.

Fixpoint strspn (s accept : list Z) : nat :=
  match s with
  | [] => 0
  | x :: r =>
      if x =? 0 then 0
      else match strchr accept x with None => 0 | Some _ => S (strspn r accept) end
  end.

Fixpoint strcspn (s reject : list Z) : nat :=
  match s with
  | [] => 0
  | x :: r =>
      if x =? 0 then 0
      else match strchr reject x with Some _ => 0 | None => S (strcspn r reject) end
  end.

(** [strdup]: [alloc n] is the fresh object of [n] bytes that [xalloc] gives,
    or [None]. *)
Definition strdup (alloc : nat → option (list Z)) (line : list Z) : res (option (list Z)) :=
  let len := strlen line in
  match alloc (len + 1)%nat with
  | None => Ret None
  | Some new => '(new, _) ← strlcpy new line (len + 1); Ret (Some new)
  end.

(** [glob]: iterative matching with one backtrack point.  [star] is the pattern
    after the last [*] met and [ss] the string position it is tried from. *)
Fixpoint skip_stars (p : list Z) : list Z :=
  match p with c :: r => if c =? 42 then skip_stars r else p | [] => [] end.

Fixpoint glob_loop (fuel : nat) (s p : list Z) (bt : option (list Z * list Z)) : res bool :=
  match fuel with
  | O => Fault NoFuel
  | S f =>
      if deref s =? 0 then Ret (deref (skip_stars p) =? 0)
      else if ((deref p =? 63) || (deref p =? deref s))%bool
      then glob_loop f (tail s) (tail p) bt
      else if deref p =? 42 then glob_loop f s (tail p) (Some (tail p, s))
      else match bt with
           | Some (star, ss) => glob_loop f (tail ss) star (Some (star, tail ss))
           | None => Ret false
           end
  end.
Definition glob (str pat : list Z) : res bool :=
  glob_loop (S (S (length str) * S (length pat))) str pat None.

(** ** Numbers ([libc.c]) *)

Definition abs (j : Z) : Z := if j <? 0 then s32 (- j) else j.

Fixpoint skip_blank (s : list Z) : list Z :=
  match s with
  | c :: r => if (negb (c =? 0) && (c <=? 32))%bool then skip_blank r else s
  | [] => []
  end.

(** The digit loop, with [wrap] the width of the accumulator. *)
Fixpoint dec_loop (wrap : Z → Z) (s : list Z) (r : Z) : Z :=
  match s with
  | c :: rest =>
      if ((48 <=? c) && (c <=? 57))%bool then dec_loop wrap rest (wrap (r * 10 + c - 48))
      else r
  | [] => r
  end.

Definition ato (wrap : Z → Z) (s : list Z) : Z :=
  let s := skip_blank s in
  if deref s =? 0 then 0
  else if deref s =? 45 then wrap (dec_loop wrap (tail s) 0 * -1)
  else wrap (dec_loop wrap s 0 * 1).

Definition atoi (s : list Z) : Z := ato s32 s.
(** [long] is 64 bits here; the result is declared [int]. *)
Definition atol (s : list Z) : Z := s32 (ato s64 s).

Definition conv_hex_to_nibble (c : Z) : Z :=
  if ((48 <=? c) && (c <=? 57))%bool then c - 48
  else if ((65 <=? c) && (c <=? 70))%bool then c - 65 + 10
  else if ((97 <=? c) && (c <=? 102))%bool then c - 97 + 10
  else -1.

Fixpoint hex_loop (wrap : Z → Z) (s : list Z) (r : Z) : Z :=
  match s with
  | c :: rest =>
      let v := conv_hex_to_nibble c in
      if v =? -1 then r else hex_loop wrap rest (wrap (r * 16 + v))
  | [] => r
  end.
Definition xtoi (s : list Z) : Z := hex_loop u32 s 0.
Definition xtol (s : list Z) : Z := hex_loop u64 s 0.

Definition atoix (s : list Z) : Z :=
  let s := skip_blank s in
  if ((deref s =? 48) && (deref (tail s) =? 120))%bool then xtoi (drop 2 s) else u32 (atoi s).
Definition atolx (s : list Z) : Z :=
  let s := skip_blank s in
  if ((deref s =? 48) && (deref (tail s) =? 120))%bool then xtol (drop 2 s) else u64 (atol s).

(** ** Memory moves *)

(** The intended effect: bytes [d, d+n) become the old bytes [s, s+n). *)
Definition moved (m : list Z) (d s n : nat) : list Z :=
  take d m ++ take n (drop s m) ++ drop (d + n) m.

Lemma moved_lookup m d s n i :
  (d + n <= length m)%nat → (s + n <= length m)%nat →
  moved m d s n !! i =
    if decide (d <= i < d + n)%nat then m !! (s + (i - d))%nat else m !! i.
Proof.
  intros Hd Hs. unfold moved. case_decide as Hi.
  - rewrite lookup_app_r by (rewrite length_take; lia). rewrite length_take.
    rewrite lookup_app_l by (rewrite length_take, length_drop; lia).
    rewrite lookup_take_lt, lookup_drop by lia. f_equal. lia.
  - destruct (decide (i < d)%nat).
    + rewrite lookup_app_l by (rewrite length_take; lia). by rewrite lookup_take_lt by lia.
    + rewrite lookup_app_r by (rewrite length_take; lia). rewrite length_take.
      rewrite lookup_app_r by (rewrite length_take, length_drop; lia).
      rewrite length_take, length_drop, lookup_drop. f_equal. lia.
Qed.

Lemma move1_ok m d s :
  (d < length m)%nat → (s < length m)%nat →
  ∃ v, m !! s = Some v ∧ move1 m d s = Ret (<[d := v]> m).
Proof.
  intros Hd Hs. destruct (lookup_lt_is_Some_2 m s Hs) as [v Hv]. exists v.
  unfold move1, load, store. rewrite Hv. simpl. by rewrite decide_True.
Qed.

Lemma copy_up_lookup n : ∀ m d s,
  (d + n <= length m)%nat → (s + n <= length m)%nat → (d < s ∨ s + n <= d)%nat →
  ∃ r, copy_up m d s n = Ret r ∧ length r = length m ∧
    ∀ i, r !! i = if decide (d <= i < d + n)%nat then m !! (s + (i - d))%nat else m !! i.
Proof.
  induction n as [|n IH]; intros m d s Hd Hs Hov; simpl.
  - exists m. split_and!; [done..|]. intros i. by rewrite decide_False by lia.
  - destruct (move1_ok m d s) as (v & Hv & ->); [lia..|]. simpl.
    destruct (IH (<[d := v]> m) (S d) (S s)) as (r & -> & Hl & Hr);
      [rewrite ?length_insert; lia..|].
    exists r. rewrite length_insert in Hl. split_and!; [done..|].
    intros i. rewrite Hr. repeat case_decide; try lia.
    + rewrite list_lookup_insert_ne by lia. f_equal. lia.
    + assert (i = d) as -> by lia. rewrite list_lookup_insert_eq by lia.
      rewrite <- Hv. f_equal. lia.
    + by rewrite list_lookup_insert_ne by lia.
Qed.

Lemma copy_down_lookup n : ∀ m d s,
  (d + n <= length m)%nat → (s + n <= length m)%nat → (s <= d)%nat →
  ∃ r, copy_down m d s n = Ret r ∧ length r = length m ∧
    ∀ i, r !! i = if decide (d <= i < d + n)%nat then m !! (s + (i - d))%nat else m !! i.
Proof.
  induction n as [|n IH]; intros m d s Hd Hs Hov; simpl.
  - exists m. split_and!; [done..|]. intros i. by rewrite decide_False by lia.
  - destruct (move1_ok m (d + n) (s + n)) as (v & Hv & ->); [lia..|]. simpl.
    destruct (IH (<[(d + n)%nat := v]> m) d s) as (r & -> & Hl & Hr);
      [rewrite ?length_insert; lia..|].
    exists r. rewrite length_insert in Hl. split_and!; [done..|].
    intros i. rewrite Hr. repeat case_decide; try lia.
    + by rewrite list_lookup_insert_ne by lia.
    + assert (i = d + n)%nat as -> by lia. rewrite list_lookup_insert_eq by lia.
      rewrite <- Hv. f_equal. lia.
    + by rewrite list_lookup_insert_ne by lia.
Qed.

Lemma moved_eq m d s n r :
  (d + n <= length m)%nat → (s + n <= length m)%nat →
  (∀ i, r !! i = if decide (d <= i < d + n)%nat then m !! (s + (i - d))%nat else m !! i) →
  r = moved m d s n.
Proof. intros Hd Hs Hr. apply list_eq. intros i. by rewrite Hr, moved_lookup. Qed.

(** [memcpy] between non-overlapping in-range regions. *)
Lemma memcpy_ok m d s n :
  (d + n <= length m)%nat → (s + n <= length m)%nat → (d < s ∨ s + n <= d)%nat →
  memcpy m d s n = Ret (moved m d s n).
Proof.
  intros Hd Hs Hov. destruct (copy_up_lookup n m d s Hd Hs Hov) as (r & Hr & _ & Hl).
  unfold memcpy. rewrite Hr. f_equal. by apply moved_eq.
Qed.

(** ** String lemmas *)

Lemma strlen_cstr s r : cstr s → strlen (s ++ 0 :: r) = length s.
Proof.
  induction 1 as [|c s Hc _ IH]; simpl; [done|]. unfold is_char in Hc.
  rewrite (proj2 (Z.eqb_neq c 0)) by lia. by rewrite IH.
Qed.

Lemma strlen_pure s : cstr s → strlen s = length s.
Proof.
  induction 1 as [|c s Hc _ IH]; simpl; [done|]. unfold is_char in Hc.
  rewrite (proj2 (Z.eqb_neq c 0)) by lia. by rewrite IH.
Qed.

Lemma strlcpy_loop_step dst d src n :
  strlcpy_loop dst d src (S (S n)) =
    if deref src =? 0 then Ret (dst, d, src, S (S n))
    else dst' ← store dst d (deref src); strlcpy_loop dst' (S d) (tail src) (S n).
Proof. done. Qed.

Lemma strlcpy_loop_spec siz : ∀ pre dst d src,
  cstr src → (length pre + siz <= length dst)%nat → d = length pre → take d dst = pre →
  ∃ dst' k, strlcpy_loop dst d src siz = Ret (dst', (d + k)%nat, drop k src, (siz - k)%nat) ∧
    k = Nat.min (siz - 1) (length src) ∧
    length dst' = length dst ∧ take (d + k) dst' = pre ++ take k src ∧
    drop (d + k) dst' = drop (d + k) dst.
Proof.
  induction siz as [|siz IH]; intros pre dst d src Hc Hl Hd Htk.
  - exists dst, 0%nat. simpl. rewrite Nat.add_0_r, drop_0, take_0, app_nil_r. auto.
  - destruct siz as [|n].
    + exists dst, 0%nat. simpl. rewrite Nat.add_0_r, drop_0, take_0, app_nil_r. auto.
    + destruct src as [|c src].
      * exists dst, 0%nat. simpl. rewrite Nat.add_0_r, app_nil_r. auto.
      * apply Forall_cons_1 in Hc as [Hch Hc]. unfold is_char in Hch.
        rewrite strlcpy_loop_step. simpl deref. simpl tail.
        rewrite (proj2 (Z.eqb_neq c 0)) by lia.
        unfold store. rewrite decide_True by lia. cbn [mbind res_bind].
        destruct (IH (pre ++ [c]) (<[d := c]> dst) (S d) src) as (dst' & k & Hk & Ek & Hl' & Ht & Hdr).
        { done. } { rewrite length_app, length_insert. simpl. lia. }
        { rewrite length_app. simpl. lia. }
        { rewrite (take_S_r _ _ c) by (apply list_lookup_insert_eq; lia).
          by rewrite take_insert_ge, Htk by lia. }
        exists dst', (S k). rewrite Hk. simpl. split_and!.
        -- by rewrite <- plus_n_Sm.
        -- lia.
        -- by rewrite Hl', length_insert.
        -- rewrite Nat.add_succ_r. simpl in Ht. rewrite Ht, <- app_assoc. done.
        -- rewrite Nat.add_succ_r. simpl in Hdr. rewrite Hdr.
           by rewrite drop_insert_lt by lia.
Qed.

Lemma strlcpy_spec dst src siz :
  cstr src → (0 < siz <= length dst)%nat →
  let k := Nat.min (siz - 1) (length src) in
  strlcpy dst src siz = Ret (take k src ++ 0 :: drop (S k) dst, length src).
Proof.
  intros Hc Hs k. unfold strlcpy.
  destruct (strlcpy_loop_spec siz [] dst 0 src) as (dst' & k' & Hl & Ek & Hlen & Ht & Hdr);
    [done|simpl; lia|done|done|].
  rewrite Hl. simpl in *. replace k' with k by (unfold k; lia).
  destruct (Nat.eqb_spec (siz - k) 0); [lia|].
  unfold store. rewrite decide_True by lia. simpl. do 2 f_equal.
  - assert (k < length dst')%nat as Hk by lia.
    rewrite (insert_take_drop dst' k 0) by done.
    subst k'. fold k in Ht, Hdr. rewrite Ht.
    rewrite <- Nat.add_1_r. by rewrite <- !(drop_drop _ 1 k), Hdr.
  - rewrite strlen_pure by (by apply Forall_drop). rewrite length_drop. lia.
Qed.

(** ** Glob patterns *)

(** The meaning of a pattern: [?] matches one character, [*] any run of
    characters, anything else itself. *)
Inductive gmatch : list Z → list Z → Prop :=
| gm_nil : gmatch [] []
| gm_any p c s : gmatch p s → gmatch (63 :: p) (c :: s)
| gm_char p c s : c ≠ 42 → gmatch p s → gmatch (c :: p) (c :: s)
| gm_star0 p s : gmatch p s → gmatch (42 :: p) s
| gm_star1 p c s : gmatch (42 :: p) s → gmatch (42 :: p) (c :: s).

#[local] Hint Constructors gmatch : core.

Lemma gmatch_star p s : gmatch (42 :: p) s ↔ ∃ a b, s = a ++ b ∧ gmatch p b.
Proof.
  split.
  - remember (42 :: p) as q eqn:Hq. induction 1; simplify_eq.
    + by exists [], s.
    + destruct IHgmatch as (a & b & -> & ?); [done|]. by exists (c :: a), b.
  - intros (a & b & -> & H). induction a; simpl; auto.
Qed.

Lemma gmatch_star_app p a s : gmatch (42 :: p) s → gmatch (42 :: p) (a ++ s).
Proof. intros H. induction a; simpl; auto. Qed.

(** A star-free prefix consumes as many characters as it has. *)
Lemma gmatch_prefix q p s :
  42 ∉ q → gmatch (q ++ p) s → ∃ a b, s = a ++ b ∧ length a = length q ∧ gmatch p b.
Proof.
  revert s. induction q as [|c q IH]; intros s Hq H; simpl in *; [by exists [], s|].
  apply not_elem_of_cons in Hq as [Hc Hq].
  inversion H; simplify_eq;
    (destruct (IH _ Hq ltac:(eassumption)) as (a & b & -> & Hl & Hb));
    eexists (_ :: a), b; simpl; eauto.
Qed.

(** What is left to decide at a loop head: the current attempt, or a later
    start of the part after the last star.  The characters consumed since that
    start are as many as the star-free pattern consumed. *)
Definition glob_inv (s p : list Z) (bt : option (list Z * list Z)) : Prop :=
  match bt with
  | None => True
  | Some (sp, ss) => ∃ q a, sp = q ++ p ∧ ss = a ++ s ∧ length a = length q ∧ 42 ∉ q
  end.
Definition glob_goal (s p : list Z) (bt : option (list Z * list Z)) : Prop :=
  gmatch p s ∨
  match bt with None => False | Some (sp, ss) => ss ≠ [] ∧ gmatch (42 :: sp) (tail ss) end.

Lemma suffix_le_suffix (b t l : list Z) :
  b `suffix_of` l → t `suffix_of` l → (length b <= length t)%nat → b `suffix_of` t.
Proof.
  intros (x & ->) (y & Hy) Hl. exists (drop (length y) x).
  assert (length x + length b = length y + length t)%nat as Hlen
    by (apply (f_equal length) in Hy; by rewrite !length_app in Hy).
  rewrite <- drop_app_le, Hy by lia. by rewrite drop_app_length.
Qed.

(** The current position is at least as good as any later start: once another
    star is reached, or the string is exhausted, the old start can be dropped. *)
Lemma glob_later s p sp ss q a :
  sp = q ++ p → ss = a ++ s → length a = length q → 42 ∉ q →
  ss ≠ [] → gmatch (42 :: sp) (tail ss) → ∃ b, b `suffix_of` tail s ∧ gmatch p b ∧ s ≠ [].
Proof.
  intros -> -> Hl Hq Hne H. apply gmatch_star in H as (x & y & Hx & Hy).
  apply gmatch_prefix in Hy as (y1 & b & -> & Hl1 & Hb); [|done].
  assert (length (tail (a ++ s)) = length (a ++ s) - 1)%nat as Ht by (destruct (a ++ s); simpl; lia).
  rewrite Hx, !length_app in Ht.
  assert (s ≠ []) as Hs.
  { intros ->. destruct a; [done|]. simpl in *. lia. }
  exists b. split_and!; [|done..]. apply (suffix_le_suffix b (tail s) (tail (a ++ s))).
  - rewrite Hx, app_assoc. by apply suffix_app_r.
  - destruct a; [done|]. simpl. destruct s; [done|]. simpl.
    by exists (a ++ [z0]); rewrite <- app_assoc.
  - destruct s; simpl in *; [done|lia].
Qed.

Lemma gmatch_star_inv p s :
  gmatch (42 :: p) s ↔ gmatch p s ∨ (s ≠ [] ∧ gmatch (42 :: p) (tail s)).
Proof.
  split.
  - intros H. inversion H; simplify_eq; auto.
  - intros [H|[Hs H]]; [auto|]. destruct s; [done|]. auto.
Qed.

Lemma gmatch_nil p : cstr p → gmatch p [] ↔ deref (skip_stars p) = 0.
Proof.
  induction 1 as [|c p Hc _ IH]; simpl; [split; auto|]. unfold is_char in Hc.
  destruct (Z.eqb_spec c 42) as [->|Hne].
  - rewrite <- IH. rewrite gmatch_star_inv. naive_solver.
  - simpl. split; [|lia]. intros H. inversion H; simplify_eq.
Qed.

Lemma gmatch_step x p c s : x ≠ 42 → x = 63 ∨ x = c → gmatch (x :: p) (c :: s) ↔ gmatch p s.
Proof.
  intros Hx Hor. split.
  - intros H. inversion H; simplify_eq; auto.
  - intros H. destruct Hor as [->| ->]; auto.
Qed.

(** Strings the loop walks: no NUL and no literal star. *)
Abbreviation gstr := (Forall (λ c, is_char c ∧ c ≠ 42)).

Definition bt_ok (P : nat) (bt : option (list Z * list Z)) : Prop :=
  match bt with None => True | Some (sp, ss) => gstr ss ∧ cstr sp ∧ (length sp <= P)%nat end.
Definition glob_measure (P : nat) (s p : list Z) (bt : option (list Z * list Z)) : nat :=
  (match bt with None => length s | Some (_, ss) => length ss end) * S P + length p.

Lemma glob_loop_correct P fuel : ∀ s p bt,
  gstr s → cstr p → (length p <= P)%nat → bt_ok P bt → glob_inv s p bt →
  (glob_measure P s p bt < fuel)%nat →
  ∃ b, glob_loop fuel s p bt = Ret b ∧ (b = true ↔ glob_goal s p bt).
Proof.
  induction fuel as [|fuel IH]; intros s p bt Hs Hp Hpl Hbt Hinv Hm; [lia|].
  assert (Hlater : ∀ sp ss, bt = Some (sp, ss) → ss ≠ [] → gmatch (42 :: sp) (tail ss) →
    ∃ b, b `suffix_of` tail s ∧ gmatch p b ∧ s ≠ []).
  { intros sp ss -> Hne H. destruct Hinv as (q & a & Hsp & Hss & Hl & Hq).
    by eapply glob_later. }
  destruct s as [|c s].
  { simpl. eexists. split; [done|]. rewrite Z.eqb_eq, <- gmatch_nil by done.
    unfold glob_goal. split; [auto|]. intros [H|H]; [done|].
    destruct bt as [[sp ss]|]; [|done]. destruct H as [Hne H].
    destruct (Hlater _ _ eq_refl Hne H) as (_ & _ & _ & ?). done. }
  apply Forall_cons_1 in Hs as Hs'. destruct Hs' as [[Hc Hc42] Hs']. unfold is_char in Hc.
  simpl. rewrite (proj2 (Z.eqb_neq c 0)) by lia.
  destruct ((deref p =? 63) || (deref p =? c))%bool eqn:Emat.
  { assert (deref p = 63 ∨ deref p = c) as Hx
      by (apply orb_true_iff in Emat as [E|E]; bool_to_prop; auto).
    clear Emat. destruct p as [|x p]; simpl in *; [lia|].
    assert (x ≠ 42) as Hx42 by (destruct Hx; lia).
    apply Forall_cons_1 in Hp as [_ Hp].
    destruct (IH s p bt) as (b & Hb & Hg); try done.
    - lia.
    - destruct bt as [[sp ss]|]; [|done]. destruct Hinv as (q & a & -> & -> & Hl & Hq).
      exists (q ++ [x]), (a ++ [c]). rewrite <- !app_assoc, !length_app. simpl.
      split_and!; [done..|lia|]. rewrite elem_of_app, list_elem_of_singleton. naive_solver.
    - unfold glob_measure in *. destruct bt as [[sp ss]|]; simpl in *; lia.
    - exists b. split; [done|]. rewrite Hg. unfold glob_goal. by rewrite gmatch_step. }
  assert (deref p ≠ 63 ∧ deref p ≠ c) as [N1 N2] by (bool_to_prop; done).
  destruct (Z.eqb_spec (deref p) 42) as [E42|N42].
  { destruct p as [|x p]; simpl in *; [lia|]. subst x. apply Forall_cons_1 in Hp as [_ Hp].
    destruct (IH (c :: s) p (Some (p, c :: s))) as (b & Hb & Hg); try done.
    - lia.
    - simpl. split_and!; [done..|lia].
    - exists [], []. simpl. split_and!; try done. apply not_elem_of_nil.
    - unfold glob_measure in *. destruct bt as [[sp ss]|]; simpl in *; [|lia].
      destruct Hinv as (q & a & -> & -> & Hl & Hq). rewrite length_app in Hm. simpl in Hm. nia.
    - exists b. split; [done|]. rewrite Hg. unfold glob_goal. rewrite <- gmatch_star_inv.
      split; [auto|]. intros [H|H]; [done|]. destruct bt as [[sp ss]|]; [|done].
      destruct H as [Hne H]. destruct (Hlater _ _ eq_refl Hne H) as (d & (y & Hd) & Hgm & _).
      simpl in Hd. rewrite Hd. apply (gmatch_star_app _ (c :: y)). done. }
  assert (¬ gmatch p (c :: s)) as Hno.
  { intros H. inversion H; simplify_eq; simpl in *; lia. }
  destruct bt as [[sp ss]|].
  - destruct Hbt as (Hss & Hsp & Hspl). destruct Hinv as (q & a & Hqp & Has & Hl & Hq).
    assert (ss ≠ []) as Hne by (rewrite Has; by destruct a).
    destruct (IH (tail ss) sp (Some (sp, tail ss))) as (b & Hb & Hg); try done.
    + by apply Forall_tail.
    + simpl. split_and!; [by apply Forall_tail|done..].
    + exists [], []. simpl. split_and!; try done. apply not_elem_of_nil.
    + unfold glob_measure in *. destruct ss; [done|]. simpl in *. lia.
    + exists b. split; [done|]. rewrite Hg. unfold glob_goal. rewrite <- gmatch_star_inv.
      naive_solver.
  - exists false. split; [done|]. unfold glob_goal. naive_solver.
Qed.

(** ** Comparison lemmas *)

Lemma deref_0 s : cstr s → deref s = 0 ↔ s = [].
Proof. destruct 1 as [|c s Hc]; simpl; [done|]. unfold is_char in Hc. split; [lia|done]. Qed.

(** [strncmp(tok, key, strlen(key)) == 0] says that [key] is a prefix. *)
Lemma strncmp_prefix s key : cstr key → strncmp s key (length key) = 0 ↔ key `prefix_of` s.
Proof.
  intros Hk. revert s. induction Hk as [|c key Hc Hk IH]; intros s; simpl.
  - split; [intros _; apply prefix_nil|done].
  - unfold is_char in Hc.
    destruct (Z.eqb_spec (deref s) c) as [E|E].
    + destruct s as [|x s]; simpl in *; [lia|]. subst x.
      rewrite (proj2 (Z.eqb_neq c 0)) by lia. simpl. rewrite IH.
      split; [apply prefix_cons|apply prefix_cons_inv_2].
    + rewrite andb_false_r. split; [lia|].
      intros (r & ->). simpl in E. done.
Qed.

Lemma strcmp_eq_0 s1 s2 : cstr s1 → cstr s2 → strcmp s1 s2 = 0 ↔ s1 = s2.
Proof.
  intros H1. revert s2. induction H1 as [|c s1 Hc H1 IH]; intros s2 H2; simpl.
  - pose proof (deref_0 s2 H2). naive_solver lia.
  - unfold is_char in Hc. rewrite (proj2 (Z.eqb_neq c 0)) by lia. simpl.
    destruct (Z.eqb_spec c (deref s2)) as [E|E].
    + destruct s2 as [|x s2]; simpl in *; [lia|]. apply Forall_cons_1 in H2 as [_ H2].
      rewrite IH by done. subst x. naive_solver.
    + split; [lia|]. intros <-. done.
Qed.

(** ** Numbers *)

Definition is_digit (c : Z) : Prop := 48 <= c <= 57.
Definition dec_value (ds : list Z) : Z := foldl (λ r c, r * 10 + (c - 48)) 0 ds.

Lemma dec_value_mono ds : ∀ r, Forall is_digit ds → 0 <= r →
  r <= foldl (λ r c, r * 10 + (c - 48)) r ds.
Proof.
  induction ds as [|c ds IH]; intros r Hd Hr; simpl; [lia|].
  apply Forall_cons_1 in Hd as [Hc Hd]. unfold is_digit in Hc.
  specialize (IH (r * 10 + (c - 48)) Hd). lia.
Qed.

Lemma dec_loop_exact ds wrap B rest : ∀ r,
  (∀ z, 0 <= z < B → wrap z = z) → Forall is_digit ds → 0 <= r →
  ¬ is_digit (deref rest) →
  foldl (λ r c, r * 10 + (c - 48)) r ds < B →
  dec_loop wrap (ds ++ rest) r = foldl (λ r c, r * 10 + (c - 48)) r ds.
Proof.
  induction ds as [|c ds IH]; intros r Hw Hd Hr Hrest HB; simpl.
  - destruct rest as [|x rest]; [done|]. simpl in *. unfold is_digit in Hrest.
    case_match; bool_to_prop; [lia|done].
  - apply Forall_cons_1 in Hd as [Hc Hd]. unfold is_digit in Hc.
    rewrite (proj2 (Z.leb_le 48 c)), (proj2 (Z.leb_le c 57)) by lia. simpl.
    simpl in HB. pose proof (dec_value_mono ds (r * 10 + (c - 48)) Hd).
    replace (r * 10 + c - 48) with (r * 10 + (c - 48)) by lia.
    rewrite Hw by lia. apply IH; try done. lia.
Qed.

Definition hex_value (ds : list Z) : Z := foldl (λ r c, r * 16 + conv_hex_to_nibble c) 0 ds.

Lemma conv_hex_range c : -1 <= conv_hex_to_nibble c < 16.
Proof. unfold conv_hex_to_nibble. repeat case_match; bool_to_prop; lia. Qed.

Lemma hex_loop_exact ds wrap B rest : ∀ r,
  (∀ z, 0 <= z < B → wrap z = z) → Forall (λ c, conv_hex_to_nibble c ≠ -1) ds → 0 <= r →
  conv_hex_to_nibble (deref rest) = -1 →
  foldl (λ r c, r * 16 + conv_hex_to_nibble c) r ds < B →
  hex_loop wrap (ds ++ rest) r = foldl (λ r c, r * 16 + conv_hex_to_nibble c) r ds.
Proof.
  assert (∀ ds r, Forall (λ c, conv_hex_to_nibble c ≠ -1) ds → 0 <= r →
    r <= foldl (λ r c, r * 16 + conv_hex_to_nibble c) r ds) as Hmono.
  { clear. induction ds as [|c ds IH]; intros r Hd Hr; simpl; [lia|].
    apply Forall_cons_1 in Hd as [Hc Hd]. pose proof (conv_hex_range c).
    specialize (IH (r * 16 + conv_hex_to_nibble c) Hd). lia. }
  induction ds as [|c ds IH]; intros r Hw Hd Hr Hrest HB; simpl.
  - destruct rest as [|x rest]; [done|]. simpl in *. by rewrite Hrest.
  - apply Forall_cons_1 in Hd as [Hc Hd]. pose proof (conv_hex_range c).
    rewrite (proj2 (Z.eqb_neq _ (-1))) by done. simpl in HB.
    pose proof (Hmono ds (r * 16 + conv_hex_to_nibble c) Hd).
    rewrite Hw by lia. apply IH; try done. lia.
Qed.

Lemma skip_blank_app bl s :
  Forall (λ c, 0 < c <= 32) bl → (deref s = 0 ∨ 32 < deref s) → skip_blank (bl ++ s) = s.
Proof.
  intros Hb Hs. induction Hb as [|c bl Hc _ IH]; simpl.
  - destruct s as [|x s]; simpl in *; [done|].
    destruct (Z.eqb_spec x 0); simpl; [done|]. case_match; bool_to_prop; [lia|done].
  - rewrite (proj2 (Z.eqb_neq c 0)), (proj2 (Z.leb_le c 32)) by lia. simpl. done.
Qed.

Lemma skip_blank_id s : deref s = 0 ∨ 32 < deref s → skip_blank s = s.
Proof. apply (skip_blank_app []). constructor. Qed.

(** ** Properties *)

(** [memmove] is correct for every overlap: the destination range receives the
    bytes the source range had before the call and nothing else changes. *)
Theorem memmove_correct m dest src n :
  (dest + n <= length m)%nat → (src + n <= length m)%nat →
  memmove m dest src n = Ret (moved m dest src n).
Proof.
  intros Hd Hs. unfold memmove, bcopy. case_decide as H0.
  { subst. f_equal. apply moved_eq; [lia..|]. intros i. by rewrite decide_False by lia. }
  case_decide as Hlt.
  - destruct (copy_up_lookup n m dest src) as (r & -> & _ & Hr); [lia..|].
    f_equal. by apply moved_eq.
  - destruct (copy_down_lookup n m dest src) as (r & -> & _ & Hr); [lia..|].
    f_equal. by apply moved_eq.
Qed.

Example memmove_correct_witness :
  memmove [1; 2; 3; 4; 5; 6] 2 0 4 = Ret (moved [1; 2; 3; 4; 5; 6] 2 0 4) ∧
  moved [1; 2; 3; 4; 5; 6] 2 0 4 = [1; 2; 1; 2; 3; 4].
Proof. split; [apply memmove_correct; simpl; lia|reflexivity]. Defined.

(** [glob] terminates and decides whether the string matches the pattern ([?]
    for one character, [*] for any run), for every pattern and every string
    without a literal [*]. *)
Theorem glob_correct str pat :
  cstr pat → Forall (λ c, is_char c ∧ c ≠ 42) str →
  ∃ b, glob str pat = Ret b ∧ (b = true ↔ gmatch pat str).
Proof.
  intros Hp Hs. unfold glob.
  destruct (glob_loop_correct (length pat) (S (S (length str) * S (length pat))) str pat None)
    as (b & Hb & Hg); try done.
  - unfold glob_measure. lia.
  - exists b. split; [done|]. rewrite Hg. unfold glob_goal. naive_solver.
Qed.

Example glob_correct_witness :
  ∃ b, glob [97; 98; 98; 97; 98; 99] [97; 42; 98; 63] = Ret b ∧
    (b = true ↔ gmatch [97; 42; 98; 63] [97; 98; 98; 97; 98; 99]).
Proof. apply glob_correct; repeat constructor; lia. Defined.

(** [strlcpy] into a buffer of at least [siz > 0] bytes copies what fits, always
    terminates it, leaves the rest of the buffer alone and returns the full
    source length (so truncation shows as a result [>= siz]). *)
Theorem strlcpy_correct dst src siz :
  cstr src → (0 < siz <= length dst)%nat →
  let k := Nat.min (siz - 1) (length src) in
  strlcpy dst src siz = Ret (take k src ++ 0 :: drop (S k) dst, length src).
Proof. apply strlcpy_spec. Qed.

Example strlcpy_correct_witness :
  strlcpy (replicate 5 255) [104; 101; 108; 108; 111] 4 = Ret ([104; 101; 108; 0; 255], 5%nat).
Proof. apply (strlcpy_correct (replicate 5 255) [104; 101; 108; 108; 111] 4); simpl; [repeat constructor; lia|lia]. Defined.

(** [atoix] reads, after blanks, an unsigned hexadecimal number after [0x] and
    an optionally negated decimal number otherwise, up to the first character
    that is no digit; the value is exact when it fits the result type. *)
Theorem atoix_parses blanks neg ds rest :
  Forall (λ c, 0 < c <= 32) blanks →
  (Forall (λ c, conv_hex_to_nibble c ≠ -1) ds → conv_hex_to_nibble (deref rest) = -1 →
   hex_value ds < 4294967296 → atoix (blanks ++ 48 :: 120 :: ds ++ rest) = hex_value ds) ∧
  (Forall is_digit ds → ds ≠ [] → ¬ is_digit (deref rest) → deref rest ≠ 120 →
   dec_value ds < 2147483648 →
   atoix (blanks ++ (if neg : bool then [45] else []) ++ ds ++ rest) =
     u32 (if neg then - dec_value ds else dec_value ds)).
Proof.
  intros Hb. split.
  - intros Hd Hr Hv. unfold atoix. rewrite skip_blank_app by (simpl; auto with lia). simpl.
    apply (hex_loop_exact ds u32 4294967296); try done.
    intros z Hz. by apply Z.mod_small.
  - intros Hd Hne Hr Hx Hv. destruct ds as [|c ds]; [done|].
    apply Forall_cons_1 in Hd as Hd'. destruct Hd' as [Hc _]. unfold is_digit in Hc.
    assert (∀ z, 0 <= z < 2147483648 → s32 z = z) as Hw.
    { intros z Hz. unfold s32, u32. rewrite Z.mod_small by lia. by case_match; bool_to_prop; lia. }
    pose proof (dec_value_mono (c :: ds) 0 Hd) as Hge. fold (dec_value (c :: ds)) in Hge.
    pose proof (dec_loop_exact (c :: ds) s32 2147483648 rest 0 Hw Hd ltac:(lia) Hr Hv) as Hl.
    unfold atoix. destruct neg; simpl app.
    + rewrite skip_blank_app by (simpl; auto with lia).
      cbn [deref tail]. change (45 =? 48) with false. cbn [andb].
      unfold atoi, ato. cbn [skip_blank]. change (45 <=? 32) with false. rewrite andb_false_r.
      cbn [deref tail]. change (45 =? 0) with false. change (45 =? 45) with true. cbn iota beta.
      simpl app in Hl. rewrite Hl. fold (dec_value (c :: ds)). f_equal.
      unfold s32, u32. case_match; bool_to_prop; dlia.
    + rewrite skip_blank_app by (simpl; auto with lia).
      cbn [deref tail].
      assert (((c =? 48) && (deref (ds ++ rest) =? 120))%bool = false) as ->.
      { destruct ds as [|x ds]; simpl.
        - rewrite (proj2 (Z.eqb_neq _ 120)) by done. apply andb_false_r.
        - apply Forall_cons_1 in Hd as [_ Hd]. apply Forall_cons_1 in Hd as [Hx' _].
          unfold is_digit in Hx'. rewrite (proj2 (Z.eqb_neq x 120)) by lia. apply andb_false_r. }
      unfold atoi, ato. rewrite (skip_blank_id (c :: ds ++ rest)) by (simpl; lia).
      cbn [deref].
      rewrite (proj2 (Z.eqb_neq c 0)), (proj2 (Z.eqb_neq c 45)) by lia.
      change (c :: ds ++ rest) with ((c :: ds) ++ rest). rewrite Hl, Z.mul_1_r.
      fold (dec_value (c :: ds)). by rewrite Hw by lia.
Qed.

Example atoix_parses_witness :
  atoix ([32; 9] ++ 48 :: 120 :: [49; 70; 102] ++ [32]) = hex_value [49; 70; 102] ∧
  atoix ([32] ++ [45] ++ [49; 50] ++ []) = u32 (- dec_value [49; 50]).
Proof.
  split.
  - apply (proj1 (atoix_parses [32; 9] false [49; 70; 102] [32] ltac:(repeat constructor; lia)));
      [repeat constructor; vm_compute; discriminate|reflexivity|reflexivity].
  - apply (proj2 (atoix_parses [32] true [49; 50] [] ltac:(repeat constructor; lia)));
      [repeat constructor; lia|discriminate|unfold is_digit; simpl; lia|simpl; lia|reflexivity].
Defined.
