(* ===== verification/Stdio.v ===== *)
(** * Stdio: formatted output ([src/lib/libc/stdio.c])

    [fmtv] hands its output piecewise to a callback [cb(aux, s, len)].  A callback
    is a function on a state ([aux] and what it points to) that can fault; the
    class [FmtSink] says what every callback of the program promises: it takes all
    the bytes, returns their number, and does not care where the pieces are cut.
    [fmtv] and its helpers are proved against that class, and the callbacks
    ([stream_fmt], [snbuf_cb]) are its instances.

    Variadic arguments are a list of typed values; taking one that is not there, or
    at another type, is a fault, as is reading behind the terminator of the format.
    A string argument is the object it points into, from the pointer on.
    [long64] is the [__LONG_WIDTH__] switch.  [ENABLE_MATH] and [ENABLE_NET_IPV4]
    are on, [ENABLE_FIXMATH] is off.  Character counts are not wrapped. *)

From Stdlib Require Import Strings.Ascii Strings.String.
From stdpp Require Import base list numbers.
From Stdlib Require Import ZArith Lia.
From S2P Require Import Prelude LibC.

Open Scope Z_scope.

(** The bytes of a C string literal, without its NUL. *)
Definition lit (s : String.string) : list Z :=
  (λ a, Z.of_N (Ascii.N_of_ascii a)) <$> String.list_ascii_of_string s.
Arguments lit s%_string.

Definition s16 (z : Z) : Z := let m := u16 z in if m <? 32768 then m else m - 65536.
Definition INT16_MIN : Z := -32768.

(** ** Callbacks *)

(** A step of formatted output on the callback's state. *)
Definition emit (St A : Type) : Type := St → res (A * St).
#[export] Instance emit_ret {St} : MRet (emit St) := λ A a st, Ret (a, st).
#[export] Instance emit_bind {St} : MBind (emit St) := λ A B k m st,
  match m st with Ret (a, st') => k a st' | Fault f => Fault f end.

Definition fmtcb (St : Type) : Type := list Z → emit St Z.

(** [fmtparam_t] *)
Record fmtparam := FmtParam {
  width : Z;
  decimals : Z;
  lz : bool;
  la : bool;
  plus : bool;
  sign_pad : bool;
  ipv4 : bool }.

(** What [va_arg] can deliver. *)
Inductive arg :=
| AInt (v : Z)                 (* int, unsigned int: 32 bits *)
| ALong (v : Z)                (* uint64_t *)
| ADouble (bits : Z)           (* double, as its 64 bits *)
| APtr (p : Z)                 (* void *, not followed *)
| AStr (s : option (list Z)).  (* const char *, NULL or an object *)

Section Fmt.
Context {St : Type} (cb : fmtcb St).

Fixpoint repeat_loop (n : nat) (c : Z) : emit St unit :=
  match n with
  | O => mret tt
  | S n' => _ ← cb [c]; repeat_loop n' c
  end.
Definition emit_repeated_char (len c : Z) : emit St Z :=
  if len <? 0 then mret 0
  else _ ← repeat_loop (Z.to_nat len) c; mret len.

(** Reading [n] bytes of an object, as [cb(aux, p, n)] does. *)
Definition cb_obj (mem : list Z) (off n : Z) : emit St Z := λ st,
  match rd mem off n with Ret bs => cb bs st | Fault f => Fault f end.

Definition emit_str (str : option (list Z)) (fp : fmtparam) : emit St Z :=
  match str with
  | None => cb (lit "(null)")
  | Some mem =>
      let sl := if decimals fp =? INT16_MIN then Z.of_nat (strlen mem) else u32 (decimals fp) in
      let pad := s32 (width fp - sl) in
      t1 ← (if la fp then mret 0 else emit_repeated_char pad 32);
      t2 ← cb_obj mem 0 sl;
      t3 ← (if la fp then emit_repeated_char pad 32 else mret 0);
      mret (t1 + t2 + t3)
  end.

(** ["0123456789abcdef"[d]] *)
Definition hexdigit (d : Z) : Z := default 0 (lit "0123456789abcdef" !! Z.to_nat d).

Fixpoint hexdump_loop (data : list Z) (fp : fmtparam) (len i : Z) (total : Z) (n : nat)
    : emit St Z :=
  match n with
  | O => mret total
  | S n' =>
      v ← (λ st, match data !! Z.to_nat i with
                  | Some v => Ret (v, st) | None => Fault OutOfBounds end);
      let buf := [hexdigit (Z.shiftr v 4); hexdigit (Z.land v 15); 46] in
      t ← cb (take (if (la fp && negb (i =? len - 1))%bool then 3 else 2) buf);
      hexdump_loop data fp len (i + 1) (total + t) n'
  end.
Definition emit_hexdump (data : list Z) (fp : fmtparam) (len : Z) : emit St Z :=
  hexdump_loop data fp len 0 0 (Z.to_nat len).

(** [end - digits] is [digits] bytes before the end of [buf]. *)
Definition emit_intstr (fp : fmtparam) (neg : bool) (buf : list Z) (digits : Z) : emit St Z :=
  let pad := s32 (width fp - (digits + b2z neg)) in
  t1 ← (if la fp then mret 0 else emit_repeated_char pad (if lz fp then 48 else 32));
  t2 ← (if neg then cb [45] else mret 0);
  t3 ← cb_obj buf (Z.of_nat (length buf) - digits) digits;
  t4 ← (if la fp then emit_repeated_char pad 32 else mret 0);
  mret (t1 + t2 + t3 + t4).

(** The digit loops fill [buf] from its last byte down; [buf] here is the part
    already written. *)
Fixpoint dec_digits (n : nat) (i x : Z) (buf : list Z) (digits : Z) : list Z * Z :=
  match n with
  | O => (buf, digits)
  | S n' =>
      let d := x mod 10 in
      dec_digits n' (i + 1) (x / 10) (48 + d :: buf) (if d =? 0 then digits else i + 1)
  end.
Fixpoint hex_digits (n : nat) (i x : Z) (buf : list Z) (digits : Z) : list Z * Z :=
  match n with
  | O => (buf, digits)
  | S n' =>
      let d := Z.land x 15 in
      hex_digits n' (i + 1) (Z.shiftr x 4) (hexdigit d :: buf) (if d =? 0 then digits else i + 1)
  end.

Definition emit_u32 (fp : fmtparam) (neg : bool) (x : Z) : emit St Z :=
  let '(buf, digits) := dec_digits 10 0 x [] 1 in emit_intstr fp neg buf digits.
Definition emit_u64 (fp : fmtparam) (neg : bool) (x : Z) : emit St Z :=
  let '(buf, digits) := dec_digits 20 0 x [] 1 in emit_intstr fp neg buf digits.
Definition emit_s64 (fp : fmtparam) (x : Z) : emit St Z :=
  if x <? 0 then emit_u64 fp true (u64 (- x)) else emit_u64 fp false x.

(** The padding loop of [emit_x64] and [emit_x32]. *)
Fixpoint pad_loop (n : nat) (c : Z) (total : Z) : emit St Z :=
  match n with
  | O => mret total
  | S n' => t ← cb [c]; pad_loop n' c (total + t)
  end.
Definition emit_x (buf : list Z) (digits : Z) (fp : fmtparam) : emit St Z :=
  total ← (if width fp >? digits
            then pad_loop (Z.to_nat (width fp - digits)) (if lz fp then 48 else 32) 0
            else mret 0);
  t ← cb_obj buf (Z.of_nat (length buf) - digits) digits;
  mret (t + total).
Definition emit_x64 (x : Z) (fp : fmtparam) : emit St Z :=
  let '(buf, digits) := hex_digits 16 0 x [] 1 in emit_x buf digits fp.
Definition emit_x32 (x : Z) (fp : fmtparam) : emit St Z :=
  let '(buf, digits) := hex_digits 8 0 x [] 1 in emit_x buf digits fp.

(** [ntohl] on the little-endian target. *)
Definition ntohl (x : Z) : Z :=
  rd_le32 (u8 (Z.shiftr x 24)) (u8 (Z.shiftr x 16)) (u8 (Z.shiftr x 8)) (u8 x).

Definition emit_s32 (fp : fmtparam) (x : Z) : emit St Z :=
  if ipv4 fp then
    let x := s32 (ntohl x) in
    r1 ← emit_u32 fp false (Z.land (Z.shiftr x 24) 255);
    r2 ← cb [46];
    r3 ← emit_u32 fp false (Z.land (Z.shiftr x 16) 255);
    r4 ← cb [46];
    r5 ← emit_u32 fp false (Z.land (Z.shiftr x 8) 255);
    r6 ← cb [46];
    r7 ← emit_u32 fp false (Z.land x 255);
    mret (r1 + r2 + r3 + r4 + r5 + r6 + r7)
  else if x <? 0 then emit_u32 fp true (u32 (- x)) else emit_u32 fp false x.

(** *** Floating point *)

(** [for(i = 0; i < significands; i++) { count++; e10--; if(e10 == 0) count++; }] *)
Fixpoint count_loop (n : nat) (count e10 : Z) : Z :=
  match n with
  | O => count
  | S n' => count_loop n' (if e10 - 1 =? 0 then count + 2 else count + 1) (e10 - 1)
  end.
Definition flt_count_output_chars (sign : bool) (e10 significands : Z) (fp : fmtparam) : Z :=
  let count := if (sign || plus fp || sign_pad fp)%bool then 1 else 0 in
  if 0 <? e10 then count_loop (Z.to_nat (significands + e10)) count e10
  else
    let count := count + 2 + - e10 in
    let significands := significands + e10 in
    if significands <=? 0 then count else count_loop (Z.to_nat significands) count e10.

(** [do { mantissa >>= 1; e2++; } while((uint32_t)(mantissa >> 32) >= 0x33333333)] *)
Fixpoint shrink (fuel : nat) (mantissa e2 : Z) : res (Z * Z) :=
  match fuel with
  | O => Fault NoFuel
  | S f =>
      let m := Z.shiftr mantissa 1 in
      if 858993459 <=? u32 (Z.shiftr m 32) then shrink f m (e2 + 1) else Ret (m, e2 + 1)
  end.
(** [while(e2 < -2)] *)
Fixpoint scale_up (fuel : nat) (mantissa e2 e10 : Z) : res (Z * Z * Z) :=
  match fuel with
  | O => Fault NoFuel
  | S f =>
      if e2 <? -2 then
        '(m, e2) ← shrink 64 mantissa e2;
        scale_up f (u64 (m * 5)) (e2 + 1) (e10 - 1)
      else Ret (mantissa, e2, e10)
  end.
(** [do { mantissa <<= 1; e2--; } while(!(mantissa & (1ull << 63)))] *)
Fixpoint grow (fuel : nat) (mantissa e2 : Z) : res (Z * Z) :=
  match fuel with
  | O => Fault NoFuel
  | S f =>
      let m := u64 (Z.shiftl mantissa 1) in
      if Z.testbit m 63 then Ret (m, e2 - 1) else grow f m (e2 - 1)
  end.
(** [while(e2 > 0)] *)
Fixpoint scale_down (fuel : nat) (mantissa e2 e10 : Z) : res (Z * Z * Z) :=
  match fuel with
  | O => Fault NoFuel
  | S f =>
      if 0 <? e2 then
        '(m, e2) ← grow 64 (u64 (2 + mantissa) / 5) (e2 - 1);
        scale_down f m e2 (e10 + 1)
      else Ret (mantissa, e2, e10)
  end.

(** Lines 289-321: the mantissa as a 60-bit fraction times [10^e10]. *)
Definition flt_normalise (bits : Z) : res (Z * Z) :=
  let mantissa := Z.land bits (2 ^ 52 - 1) in
  let e2 := Z.land (Z.shiftr bits 52) 2047 in
  if e2 =? 0 then Ret (0, 1)
  else
    '(m, e2, e10) ← scale_up 1100 (Z.lor (u64 (Z.shiftl mantissa 11)) (2 ^ 63)) (e2 - 1022) 0;
    '(m, e2, e10) ← scale_down 1100 m e2 e10;
    Ret (Z.shiftr m (4 - e2), e10).

(** The zeros behind ["0."]: the flag tells that the significant digits ran out. *)
Fixpoint zeros_loop (n : nat) (significands total : Z) : emit St (Z * Z * bool) :=
  match n with
  | O => mret (significands, total, false)
  | S n' =>
      t ← cb [48];
      if significands - 1 <=? 0 then mret (significands - 1, total + t, true)
      else zeros_loop n' (significands - 1) (total + t)
  end.

Fixpoint div10_loop (n : nat) (r : Z) : Z :=
  match n with O => r | S n' => div10_loop n' (r / 10) end.

Fixpoint digits_loop (n : nat) (mantissa e10 total : Z) : emit St Z :=
  match n with
  | O => mret total
  | S n' =>
      let m := u64 (mantissa * 10) in
      let c := u8 (Z.shiftr m 60) in
      let c := (if 9 <? c then 9 else c) + 48 in
      t ← cb [c];
      t' ← (if e10 - 1 =? 0 then cb [46] else mret 0);
      digits_loop n' (Z.land m (2 ^ 60 - 1)) (e10 - 1) (total + t + t')
  end.

Definition float_to_str (bits : Z) (fp : fmtparam) : emit St Z :=
  let sign := Z.testbit bits 63 in
  if Z.land (Z.shiftr bits 52) 2047 =? 2047 then
    let str := if Z.land bits (2 ^ 52 - 1) =? 0
               then if sign then lit "-inf" else lit "+inf"
               else lit "nan" in
    emit_str (Some (str ++ [0])) fp
  else
    '(mantissa, e10) ← (λ st, match flt_normalise bits with
                               | Ret p => Ret (p, st) | Fault f => Fault f end);
    let significands := if 0 <? decimals fp then decimals fp else 6 in
    let pad := s32 (width fp - flt_count_output_chars sign e10 significands fp) in
    t1 ← (if la fp then mret 0 else emit_repeated_char pad 32);
    t2 ← (if sign then cb [45] else if plus fp then cb [43]
           else if sign_pad fp then cb [32] else mret 0);
    '(significands, t3, done) ←
      (if 0 <? e10 then mret (significands + e10, 0, false)
       else t ← cb [48; 46]; zeros_loop (Z.to_nat (- e10)) significands t);
    t4 ← (if done : bool then mret 0
           else digits_loop (Z.to_nat significands)
                  (u64 (mantissa + div10_loop (Z.to_nat significands) (2 ^ 59))) e10 0);
    t5 ← (if la fp then emit_repeated_char pad 32 else mret 0);
    mret (t1 + t2 + (t3 + t4) + t5).

(** *** The format *)

(** The digits after the first one. *)
Fixpoint parse_dec_loop (fmt : list Z) (acc : Z) : Z * list Z :=
  match fmt with
  | c :: r =>
      if ((c <? 48) || (57 <? c))%bool then (acc, fmt)
      else parse_dec_loop r (s32 (s32 (acc * 10) + (c - 48)))
  | [] => (acc, fmt)
  end.
Definition parse_dec (fmt : list Z) (defval : Z) : Z * list Z :=
  let c := deref fmt in
  if ((c <? 48) || (57 <? c))%bool then (defval, fmt) else parse_dec_loop fmt 0.

Definition va_int (ap : list arg) : res (Z * list arg) :=
  match ap with AInt v :: ap => Ret (v, ap) | _ => Fault OutOfBounds end.
Definition va_long (ap : list arg) : res (Z * list arg) :=
  match ap with ALong v :: ap => Ret (v, ap) | _ => Fault OutOfBounds end.
Definition va_double (ap : list arg) : res (Z * list arg) :=
  match ap with ADouble v :: ap => Ret (v, ap) | _ => Fault OutOfBounds end.
Definition va_ptr (ap : list arg) : res (Z * list arg) :=
  match ap with APtr v :: ap => Ret (v, ap) | _ => Fault OutOfBounds end.
Definition va_str (ap : list arg) : res (option (list Z) * list arg) :=
  match ap with AStr s :: ap => Ret (s, ap) | _ => Fault OutOfBounds end.

(** The length modifiers, for either width of [long]. *)
Definition parse_length (long64 : bool) (fmt : list Z) : bool * list Z :=
  if long64 then
    let '(is64, fmt) :=
      if deref fmt =? 108 then
        let fmt := tail fmt in (true, if deref (tail fmt) =? 108 then tail fmt else fmt)
      else (false, fmt) in
    if deref fmt =? 122 then (true, tail fmt) else (is64, fmt)
  else
    let '(is64, fmt) :=
      if deref fmt =? 108 then
        let fmt := tail fmt in if deref fmt =? 108 then (true, tail fmt) else (false, fmt)
      else (false, fmt) in
    (is64, if deref fmt =? 122 then tail fmt else fmt).

(** Lines 421-487: flag, width, precision, [I] and length. *)
Definition parse_spec (long64 : bool) (fmt : list Z) (ap : list arg)
    : res (fmtparam * bool * list Z * list arg) :=
  let c := deref fmt in
  let lz := c =? 48 in
  let la := c =? 45 in
  let plus := c =? 43 in
  let fmt := if (lz || la || plus)%bool then tail fmt else fmt in
  '(width, fmt, ap) ←
    (if deref fmt =? 42 then '(v, ap) ← va_int ap; Ret (s16 v, tail fmt, ap)
     else let '(v, fmt) := parse_dec fmt (-1) in Ret (s16 v, fmt, ap));
  '(decimals, fmt, ap) ←
    (if deref fmt =? 46 then
       let fmt := tail fmt in
       if deref fmt =? 42 then '(v, ap) ← va_int ap; Ret (s16 v, tail fmt, ap)
       else let '(v, fmt) := parse_dec fmt INT16_MIN in Ret (s16 v, fmt, ap)
     else Ret (INT16_MIN, fmt, ap));
  let ipv4 := deref fmt =? 73 in
  let fmt := if ipv4 then tail fmt else fmt in
  let '(is64, fmt) := parse_length long64 fmt in
  Ret (FmtParam width decimals lz la plus false ipv4, is64, fmt, ap).

Definition lift {A} (m : res A) : emit St A := λ st,
  match m with Ret a => Ret (a, st) | Fault f => Fault f end.

(** The conversion [switch]. *)
Definition convert (long64 : bool) (c : Z) (fp : fmtparam) (is64 : bool) (ap : list arg)
    : emit St (Z * list arg) :=
  if c =? 37 then t ← cb [37]; mret (t, ap)
  else if c =? 99 then '(v, ap) ← lift (va_int ap); t ← cb [u8 v]; mret (t, ap)
  else if c =? 115 then
    '(s, ap) ← lift (va_str ap);
    if (negb (decimals fp =? INT16_MIN) && (decimals fp <? 0))%bool then
      match s with
      | Some data => t ← emit_hexdump data fp (- decimals fp); mret (t, ap)
      | None => lift (Fault OutOfBounds)
      end
    else t ← emit_str s fp; mret (t, ap)
  else if c =? 120 then
    if is64 then '(v, ap) ← lift (va_long ap); t ← emit_x64 v fp; mret (t, ap)
    else '(v, ap) ← lift (va_int ap); t ← emit_x32 (u32 v) fp; mret (t, ap)
  else if c =? 100 then
    if is64 then '(v, ap) ← lift (va_long ap); t ← emit_s64 fp (s64 v); mret (t, ap)
    else '(v, ap) ← lift (va_int ap); t ← emit_s32 fp (s32 v); mret (t, ap)
  else if c =? 117 then
    if is64 then '(v, ap) ← lift (va_long ap); t ← emit_u64 fp false v; mret (t, ap)
    else '(v, ap) ← lift (va_int ap); t ← emit_u32 fp false (u32 v); mret (t, ap)
  else if c =? 102 then
    '(v, ap) ← lift (va_double ap); t ← float_to_str v fp; mret (t, ap)
  else if c =? 112 then
    t1 ← cb (lit "0x");
    '(v, ap) ← lift (va_ptr ap);
    t ← (if long64 then emit_x64 v fp else emit_x32 v fp); mret (t1 + t, ap)
  else mret (0, ap).

(** [s] is where the pending literal text starts, [fmt] the read position; both are
    tails of the format.  The terminator consumed as a conversion character takes
    the loop behind the format. *)
Fixpoint fmt_loop (long64 : bool) (fuel : nat) (s fmt : list Z) (ap : list arg) (total : Z)
    : emit St Z :=
  match fuel with
  | O => lift (Fault NoFuel)
  | S f =>
      let c := deref fmt in
      if c =? 0 then
        let l := (length s - length fmt)%nat in
        if Nat.eqb l 0 then mret total
        else t ← cb (take l s); mret (total + t)
      else
        let fmt := tail fmt in
        if negb (c =? 37) then fmt_loop long64 f s fmt ap total
        else
          let l := (length s - length fmt - 1)%nat in
          t ← (if Nat.eqb l 0 then mret 0 else cb (take l s));
          '(fp, is64, fmt, ap) ← lift (parse_spec long64 fmt ap);
          let c := deref fmt in
          if c =? 0 then
            '(_, _) ← convert long64 c fp is64 ap; lift (Fault OutOfBounds)
          else
            '(t', ap) ← convert long64 c fp is64 ap;
            fmt_loop long64 f (tail fmt) (tail fmt) ap (total + t + t')
  end.
Definition fmtv (long64 : bool) (fmt : list Z) (ap : list arg) : emit St Z :=
  fmt_loop long64 (S (length fmt)) fmt fmt ap 0.
End Fmt.

(** ** Output to a stream

    [write] stands for [stream_write(s, buf, len, 0)]: the stream's own code. *)
Section Streams.
Context {St : Type} (write : list Z → emit St Z).

Definition stream_fmt : fmtcb St := λ buf, _ ← write buf; mret (Z.of_nat (length buf)).

Definition vstprintf (long64 : bool) (fmt : option (list Z)) (ap : list arg) : emit St Z :=
  match fmt with
  | None => _ ← write []; mret 0
  | Some fmt => fmtv stream_fmt long64 fmt ap
  end.
Definition stprintf (long64 : bool) (fmt : String.string) (ap : list arg) : emit St Z :=
  vstprintf long64 (Some (lit fmt)) ap.

(** The [NUL]-terminated object behind a string literal or a C string. *)
Definition cobj (s : list Z) : option (list Z) := Some (s ++ [0]).

(** One row of [sthexdump], [row] being the data from offset [i] on, at most 16. *)
Fixpoint hex_row (long64 : bool) (row : list Z) (j : Z) : emit St unit :=
  match row with
  | [] => mret tt
  | v :: r =>
      _ ← stprintf long64 "%s%02x " [AStr (cobj (if j =? 8 then [32] else [])); AInt v];
      hex_row long64 r (j + 1)
  end.
Fixpoint blanks (long64 : bool) (n : nat) : emit St unit :=
  match n with
  | O => mret tt
  | S n' => _ ← stprintf long64 " " []; blanks long64 n'
  end.
Fixpoint char_row (long64 : bool) (row : list Z) : emit St unit :=
  match row with
  | [] => mret tt
  | v :: r =>
      _ ← stprintf long64 "%c" [AInt (if ((v <? 32) || (126 <? v))%bool then 46 else v)];
      char_row long64 r
  end.
Fixpoint sthexdump_loop (long64 : bool) (n : nat) (prefix : option (list Z)) (data : list Z)
    (i : Z) (offset : Z) : emit St unit :=
  match n with
  | O => mret tt
  | S n' =>
      if Z.of_nat (length data) <=? i then mret tt
      else
        _ ← stprintf long64 "%s%s0x%04x: "
              [AStr (cobj (default [] prefix));
               AStr (cobj (match prefix with Some _ => lit ": " | None => [] end));
               AInt (u32 (i + offset))];
        let row := take 16 (drop (Z.to_nat i) data) in
        let j := Z.of_nat (length row) in
        _ ← hex_row long64 row 0;
        _ ← blanks long64 (Z.to_nat ((17 - j) * 3 + b2z (j <? 8)));
        _ ← char_row long64 row;
        _ ← vstprintf long64 (Some [10]) [];
        sthexdump_loop long64 n' prefix data (i + 16) offset
  end.
Definition sthexdump (long64 : bool) (prefix : option (list Z)) (data : list Z) (offset : Z)
    : emit St unit :=
  sthexdump_loop long64 (S (length data)) prefix data 0 offset.

(** [str] is a table of NUL-terminated names ended by an empty one. *)
Fixpoint flags_loop (fuel : nat) (str : list Z) (i flags : Z) (sep : list Z) (need_sep : bool)
    : emit St unit :=
  match fuel with
  | O => lift (Fault NoFuel)
  | S f =>
      let n := strlen str in
      if Nat.eqb n 0 then mret tt
      else
        need ←
          (if Z.testbit flags i then
             _ ← (if need_sep then write (take (strlen sep) sep) else mret 0);
             _ ← write (take n str);
             mret true
           else mret need_sep);
        flags_loop f (drop (n + 1) str) (i + 1) flags sep need
  end.
Definition stprintflags (str : list Z) (flags : Z) (sep : list Z) : emit St unit :=
  flags_loop (S (length str)) str 0 flags sep false.

Fixpoint sthexstr (data : list Z) : emit St unit :=
  match data with
  | [] => mret tt
  | v :: r =>
      _ ← write [hexdigit (Z.shiftr v 4); hexdigit (Z.land v 15)];
      sthexstr r
  end.
End Streams.

(** [bin2hex]: [s] is the destination object, [d] the write position. *)
Fixpoint bin2hex_loop (s : list Z) (d : nat) (data : list Z) : res (list Z) :=
  match data with
  | [] => store s d 0
  | v :: r =>
      s ← store s d (hexdigit (Z.shiftr v 4));
      s ← store s (d + 1) (hexdigit (Z.land v 15));
      bin2hex_loop s (d + 2) r
  end.
Definition bin2hex (s data : list Z) : res (list Z) := bin2hex_loop s 0 data.

(** ** The global [stdio] stream

    [None] is [stdio == NULL]. *)
Section Stdout.
Context {St : Type} (write : list Z → emit St Z).

Definition stdout_cb : fmtcb (option St) := λ s o,
  match o with
  | None => Ret (Z.of_nat (length s), None)
  | Some st => match write s st with
               | Ret (_, st') => Ret (Z.of_nat (length s), Some st')
               | Fault f => Fault f
               end
  end.
Definition printf (long64 : bool) (format : list Z) (ap : list arg) : emit (option St) Z :=
  fmtv stdout_cb long64 format ap.
Definition putchar (c : Z) : emit (option St) Z :=
  _ ← stdout_cb [u8 c]; mret c.
Definition puts (s : list Z) : emit (option St) Z :=
  _ ← stdout_cb (take (strlen s) s);
  _ ← stdout_cb [10];
  mret 0.
End Stdout.

(** ** Output to a buffer *)

(** [snbuf_t], with the object behind [ptr]. *)
Record snbuf := SnBuf { ptr : list Z; size : Z; used : Z }.

Definition snbuf_cb : fmtcb snbuf := λ s b,
  let avail := size b - used b in
  let len := Z.of_nat (length s) in
  if 0 <? avail then
    let to_copy := if avail <? len then avail else len in
    match wr (ptr b) (used b) (take (Z.to_nat to_copy) s) with
    | Ret m => Ret (len, SnBuf m (size b) (used b + to_copy))
    | Fault f => Fault f
    end
  else Ret (len, b).

(** [vsnprintf] on the object [str], declared to hold [sz] bytes. *)
Definition vsnprintf (long64 : bool) (str : list Z) (sz : Z) (format : list Z)
    (ap : list arg) : res (Z * list Z) :=
  '(r, buf) ← fmtv snbuf_cb long64 format ap (SnBuf str sz 0);
  if 0 <? size buf then
    str ← store (ptr buf) (Z.to_nat (used buf)) 0;
    Ret (r, str)
  else Ret (r, ptr buf).

(** ** What callbacks promise *)

Class FmtSink {St} (cb : fmtcb St) := {
  sink_ok : St → Prop;
  absorb : St → list Z → St;
  cb_absorbs : ∀ st s, sink_ok st → cb s st = Ret (Z.of_nat (length s), absorb st s);
  absorb_ok : ∀ st s, sink_ok st → sink_ok (absorb st s);
  absorb_nil : ∀ st, sink_ok st → absorb st [] = st;
  absorb_app : ∀ st a b, sink_ok st → absorb (absorb st a) b = absorb st (a ++ b) }.

(** What a stream promises to the printing functions: it takes the bytes in order
    whatever way they are cut. *)
Class StreamSink {St} (write : list Z → emit St Z) := {
  str_ok : St → Prop;
  str_absorb : St → list Z → St;
  str_writes : ∀ st s, str_ok st → ∃ n, write s st = Ret (n, str_absorb st s);
  str_absorb_ok : ∀ st s, str_ok st → str_ok (str_absorb st s);
  str_absorb_nil : ∀ st, str_ok st → str_absorb st [] = st;
  str_absorb_app : ∀ st a b, str_ok st → str_absorb (str_absorb st a) b = str_absorb st (a ++ b) }.

#[export] Program Instance stream_fmt_sink {St} (write : list Z → emit St Z)
    `{!StreamSink write} : FmtSink (stream_fmt write) :=
  {| sink_ok := str_ok; absorb := str_absorb |}.
Next Obligation.
  intros St write HS st s H. unfold stream_fmt. cbn. unfold mbind, emit_bind.
  destruct (str_writes st s H) as [n ->]. done.
Qed.
Next Obligation. intros. by apply str_absorb_ok. Qed.
Next Obligation. intros. by apply str_absorb_nil. Qed.
Next Obligation. intros. by apply str_absorb_app. Qed.

(** The buffer callback keeps to the declared size as long as the object has it. *)
Definition sn_ok (b : snbuf) : Prop :=
  0 <= used b <= size b ∧ size b <= Z.of_nat (length (ptr b)).
Definition sn_absorb (b : snbuf) (s : list Z) : snbuf :=
  let t := take (Z.to_nat (size b - used b)) s in
  SnBuf (take (Z.to_nat (used b)) (ptr b) ++ t ++ drop (Z.to_nat (used b) + length t) (ptr b))
        (size b) (used b + Z.of_nat (length t)).

Lemma splice_app (p t1 t2 : list Z) (u : nat) :
  (u + length t1 <= length p)%nat →
  take (u + length t1) (take u p ++ t1 ++ drop (u + length t1) p) ++ t2 ++
    drop (u + length t1 + length t2) (take u p ++ t1 ++ drop (u + length t1) p) =
  take u p ++ (t1 ++ t2) ++ drop (u + length (t1 ++ t2)) p.
Proof.
  intros Hle. assert (length (take u p ++ t1) = (u + length t1)%nat) as Hl.
  { rewrite length_app, length_take. lia. }
  rewrite (app_assoc (take u p)), (take_app_length' _ _ _ (eq_sym Hl)).
  rewrite drop_app, Hl, (drop_ge (take u p ++ t1)) by lia. cbn [app].
  rewrite drop_drop, length_app, <- !app_assoc. do 4 f_equal. lia.
Qed.

Lemma take_app_cut (n : nat) (a b : list Z) :
  take n (a ++ b) = take n a ++ take (n - length (take n a)) b.
Proof. rewrite take_app, length_take. f_equal. f_equal. lia. Qed.

#[export] Program Instance snbuf_cb_sink : FmtSink snbuf_cb :=
  {| sink_ok := sn_ok; absorb := sn_absorb |}.
Next Obligation.
  intros [p sz u] s [Hu Hs]. cbn [ptr size used] in *. unfold snbuf_cb, sn_absorb.
  cbn [ptr size used]. destruct (0 <? sz - u) eqn:E; bool_to_prop.
  - assert (take (Z.to_nat (if sz - u <? Z.of_nat (length s) then sz - u else Z.of_nat (length s))) s
            = take (Z.to_nat (sz - u)) s) as ->.
    { case_match; [done|]. bool_to_prop. rewrite Nat2Z.id, !take_ge by lia. done. }
    assert (length (take (Z.to_nat (sz - u)) s) <= Z.to_nat (sz - u))%nat by (rewrite length_take; lia).
    rewrite wr_ok by lia. do 3 f_equal. rewrite length_take. case_match; bool_to_prop; lia.
  - assert (sz = u) as -> by lia. rewrite Z.sub_diag. simpl.
    rewrite Z.add_0_r, Nat.add_0_r, take_drop. done.
Qed.
Next Obligation.
  intros [p sz u] s [Hu Hs]. cbn [ptr size used] in *. unfold sn_absorb, sn_ok.
  cbn [ptr size used]. rewrite !length_app, !length_drop, !length_take. lia.
Qed.
Next Obligation.
  intros [p sz u] [Hu Hs]. unfold sn_absorb. cbn [ptr size used]. rewrite take_nil. simpl.
  by rewrite Z.add_0_r, Nat.add_0_r, take_drop.
Qed.
Next Obligation.
  intros [p sz u] a b [Hu Hs]. cbn [ptr size used] in *. unfold sn_absorb. cbn [ptr size used].
  rewrite (take_app_cut (Z.to_nat (sz - u)) a b). set (t1 := take (Z.to_nat (sz - u)) a).
  assert (length t1 <= Z.to_nat (sz - u))%nat by (unfold t1; rewrite length_take; lia).
  replace (Z.to_nat (u + Z.of_nat (length t1))) with (Z.to_nat u + length t1)%nat by lia.
  replace (Z.to_nat (sz - (u + Z.of_nat (length t1)))) with (Z.to_nat (sz - u) - length t1)%nat by lia.
  rewrite splice_app by lia. f_equal. rewrite length_app. lia.
Qed.

(** ** What the helpers emit *)

(** [m] sends exactly [out] to the callback and counts it right. *)
Section Emits.
Context {St : Type} (cb : fmtcb St) `{Hsink : !FmtSink cb}.

Definition sends {A} (m : emit St A) (a : A) (out : list Z) : Prop :=
  ∀ st, sink_ok st → m st = Ret (a, absorb st out).
Definition emits (m : emit St Z) (out : list Z) : Prop := sends m (Z.of_nat (length out)) out.

Lemma sends_ret {A} (a : A) : sends (mret a) a [].
Proof. intros st H. unfold mret, emit_ret. by rewrite absorb_nil. Qed.

Lemma sends_bind {A B} (m : emit St A) (k : A → emit St B) a b o1 o2 :
  sends m a o1 → sends (k a) b o2 → sends (m ≫= k) b (o1 ++ o2).
Proof.
  intros Hm Hk st H. unfold mbind, emit_bind. rewrite (Hm st H).
  rewrite (Hk _ (absorb_ok _ _ H)). by rewrite absorb_app.
Qed.

Lemma sends_cb s : emits (cb s) s.
Proof. intros st H. by apply cb_absorbs. Qed.

Lemma sends_lift {A} (m : res A) a : m = Ret a → sends (lift m) a [].
Proof. intros -> st H. unfold lift. by rewrite absorb_nil. Qed.

Lemma sends_eq {A} (m : emit St A) a a' o o' : sends m a o → a = a' → o = o' → sends m a' o'.
Proof. by intros ? -> ->. Qed.

Lemma emits_cb_obj mem off n bs : rd mem off n = Ret bs → emits (cb_obj cb mem off n) bs.
Proof. intros E st H. unfold cb_obj. rewrite E. by apply cb_absorbs. Qed.

Lemma repeat_loop_sends n c : sends (repeat_loop cb n c) tt (replicate n c).
Proof.
  induction n as [|n IH]; [apply sends_ret|]. cbn [repeat_loop].
  eapply sends_eq; [|done|]; [eapply sends_bind; [apply sends_cb|apply IH]|done].
Qed.

(** A negative count emits nothing. *)
Lemma emit_repeated_char_emits len c :
  emits (emit_repeated_char cb len c) (replicate (Z.to_nat len) c).
Proof.
  unfold emit_repeated_char, emits. rewrite length_replicate. destruct (len <? 0) eqn:E; bool_to_prop.
  - rewrite Z2Nat.nonpos by lia. apply sends_ret.
  - rewrite Z2Nat.id by lia. eapply sends_eq; [|done|].
    + eapply sends_bind; [apply repeat_loop_sends|apply sends_ret].
    + apply app_nil_r.
Qed.

Lemma pad_loop_sends n c t : sends (pad_loop cb n c t) (t + Z.of_nat n) (replicate n c).
Proof.
  revert t. induction n as [|n IH]; intros t; cbn [pad_loop].
  - eapply sends_eq; [apply sends_ret|lia|done].
  - eapply sends_eq; [eapply sends_bind; [apply sends_cb|apply IH]|simpl; lia|done].
Qed.
End Emits.

(** The reference text of each conversion. *)
Definition padded (left : bool) (fill : Z) (w : Z) (body : list Z) : list Z :=
  let p := Z.to_nat (w - Z.of_nat (length body)) in
  if left then body ++ replicate p 32 else replicate p fill ++ body.

(** The shortest numeral of [x] in base [b], [n] digits at most. *)
Fixpoint numeral (b : Z) (dig : Z → Z) (n : nat) (x : Z) : list Z :=
  match n with
  | O => []
  | S n' => if x <? b then [dig x] else numeral b dig n' (x / b) ++ [dig (x mod b)]
  end.
Definition dec_str (x : Z) : list Z := numeral 10 (λ d, 48 + d) 20 x.
Definition hex_str (x : Z) : list Z := numeral 16 hexdigit 16 x.

Lemma numeral_fuel b dig n : ∀ m x, 1 < b → 0 <= x < b ^ Z.of_nat n → (n <= m)%nat →
  n ≠ 0%nat → numeral b dig m x = numeral b dig n x.
Proof.
  induction n as [|n IH]; intros m x Hb Hx Hm Hn; [done|].
  destruct m as [|m]; [lia|]. cbn [numeral]. destruct (x <? b) eqn:E; [done|]. bool_to_prop.
  destruct n as [|n].
  { change (Z.of_nat 1) with 1 in Hx. rewrite Z.pow_1_r in Hx. lia. }
  rewrite (IH m); [done|lia| |lia|lia].
  rewrite Nat2Z.inj_succ, Z.pow_succ_r in Hx by lia.
  split; [apply Z.div_pos; lia|apply Z.div_lt_upper_bound; lia].
Qed.

Lemma numeral_nonempty b dig n x : n ≠ 0%nat → numeral b dig n x ≠ [].
Proof. destruct n; [done|]. cbn [numeral]. case_match; [done|]. by intros _ [_ [=]]%app_eq_nil. Qed.

(** The common shape of the two digit loops. *)
Fixpoint num_digits (b : Z) (dig : Z → Z) (n : nat) (i x : Z) (buf : list Z) (digits : Z)
    : list Z * Z :=
  match n with
  | O => (buf, digits)
  | S n' =>
      num_digits b dig n' (i + 1) (x / b) (dig (x mod b) :: buf)
        (if x mod b =? 0 then digits else i + 1)
  end.

Lemma dec_digits_num n : ∀ i x buf dg,
  dec_digits n i x buf dg = num_digits 10 (λ d, 48 + d) n i x buf dg.
Proof. induction n as [|n IH]; intros; [done|]. cbn [dec_digits num_digits]. apply IH. Qed.

Lemma hex_digits_num n : ∀ i x buf dg,
  hex_digits n i x buf dg = num_digits 16 hexdigit n i x buf dg.
Proof.
  induction n as [|n IH]; intros; [done|]. cbn [hex_digits num_digits].
  change 15 with (2 ^ 4 - 1). rewrite land_ones_mod, Z.shiftr_div_pow2 by lia. apply IH.
Qed.

(** The digit loop leaves the numeral at the end of the buffer, and its length. *)
Lemma num_digits_spec b dig n : ∀ i x buf dg,
  1 < b → 0 <= x < b ^ Z.of_nat n →
  num_digits b dig n i x buf dg =
    if x =? 0 then (replicate n (dig 0) ++ buf, dg)
    else (replicate (n - length (numeral b dig n x)) (dig 0) ++ numeral b dig n x ++ buf,
          i + Z.of_nat (length (numeral b dig n x))).
Proof.
  induction n as [|n IH]; intros i x buf dg Hb Hx.
  { simpl in Hx. assert (x = 0) as -> by lia. done. }
  cbn [num_digits]. rewrite Nat2Z.inj_succ, Z.pow_succ_r in Hx by lia.
  rewrite IH; [|done|split; [apply Z.div_pos; lia|apply Z.div_lt_upper_bound; lia]].
  destruct (x =? 0) eqn:E0; bool_to_prop.
  { subst x. rewrite Z.div_0_l, Z.mod_0_l by lia. cbn [Z.eqb].
    f_equal. change (dig 0 :: buf) with ([dig 0] ++ buf).
    rewrite app_assoc. f_equal. by rewrite <- replicate_cons_app. }
  cbn [numeral]. destruct (x <? b) eqn:Eb; bool_to_prop.
  - rewrite Z.div_small, Z.mod_small by lia. cbn [Z.eqb].
    destruct (x =? 0) eqn:E1; bool_to_prop; [lia|]. cbn [length]. f_equal. 
    by rewrite Nat.sub_succ, Nat.sub_0_r.
  - assert (0 < x / b) by (apply Z.div_str_pos; lia).
    destruct (x / b =? 0) eqn:E1; bool_to_prop; [lia|].
    rewrite length_app. cbn [length]. rewrite <- app_assoc. cbn [app].
    f_equal; [|lia]. f_equal. f_equal. lia.
Qed.

Lemma numeral_length b dig n x :
  1 < b → (length (numeral b dig n x) <= n)%nat.
Proof.
  intros Hb. revert x. induction n as [|n IH]; intros x; cbn [numeral]; [done|].
  case_match; [simpl; lia|]. rewrite length_app. specialize (IH (x / b)). simpl. lia.
Qed.

(** What the caller of the loop reads back: the last [digits] bytes. *)
Lemma num_digits_out b dig n x buf dg :
  1 < b → n ≠ 0%nat → 0 <= x < b ^ Z.of_nat n →
  num_digits b dig n 0 x [] 1 = (buf, dg) →
  dg = Z.of_nat (length (numeral b dig n x)) ∧
  rd buf (Z.of_nat (length buf) - dg) dg = Ret (numeral b dig n x).
Proof.
  intros Hb Hn Hx.
  assert (∃ pre, num_digits b dig n 0 x [] 1 = (pre ++ numeral b dig n x, Z.of_nat (length (numeral b dig n x)))) as (pre & Hp).
  { rewrite num_digits_spec by done. destruct (x =? 0) eqn:E; bool_to_prop.
    - subst x. destruct n as [|n]; [done|]. cbn [numeral]. rewrite (proj2 (Z.ltb_lt 0 b)) by lia.
      exists (replicate n (dig 0)). rewrite app_nil_r. f_equal. by rewrite <- replicate_cons_app.
    - exists (replicate (n - length (numeral b dig n x)) (dig 0)). by rewrite app_nil_r. }
  rewrite Hp. intros [= <- <-]. split; [done|].
  pose proof (rd_at pre (numeral b dig n x) []
    (Z.of_nat (length (pre ++ numeral b dig n x)) - Z.of_nat (length (numeral b dig n x)))) as Hr.
  rewrite app_nil_r in Hr. apply Hr. rewrite length_app. lia.
Qed.

(** The field widths of [fmtparam_t] are 16-bit. *)
Definition fp_ok (fp : fmtparam) : Prop :=
  -32768 <= width fp < 32768 ∧ -32768 <= decimals fp < 32768.

(** The text of an integer conversion: the padding comes before the sign. *)
Definition int_text (fp : fmtparam) (neg : bool) (x : Z) : list Z :=
  padded (la fp) (if lz fp then 48 else 32) (width fp)
    ((if neg then [45] else []) ++ dec_str x).
Definition hex_text (fp : fmtparam) (x : Z) : list Z :=
  padded false (if lz fp then 48 else 32) (width fp) (hex_str x).
Definition signed_text (fp : fmtparam) (x : Z) : list Z :=
  if x <? 0 then int_text fp true (- x) else int_text fp false x.
Definition ipv4_text (fp : fmtparam) (addr : Z) : list Z :=
  int_text fp false (u8 addr) ++ [46] ++ int_text fp false (u8 (Z.shiftr addr 8)) ++ [46] ++
  int_text fp false (u8 (Z.shiftr addr 16)) ++ [46] ++ int_text fp false (u8 (Z.shiftr addr 24)).
Definition str_text (fp : fmtparam) (body : list Z) : list Z :=
  padded (la fp) 32 (width fp) body.

Section EmitInt.
Context {St : Type} (cb : fmtcb St) `{Hsink : !FmtSink cb}.
#[local] Abbreviation emits := (emits cb).

(** Padding on one side of a body, as [emit_str] and [emit_intstr] do it. *)
Lemma emits_padded (left : bool) pad fill m (body : list Z) w :
  emits m body → pad = w - Z.of_nat (length body) →
  emits (t1 ← (if left then mret 0 else emit_repeated_char cb pad fill);
         t2 ← m;
         t3 ← (if left then emit_repeated_char cb pad 32 else mret 0);
         mret (t1 + t2 + t3)) (padded left fill w body).
Proof.
  intros Hm ->. unfold padded. destruct left.
  - eapply sends_eq.
    + eapply sends_bind; [apply sends_ret|]. eapply sends_bind; [apply Hm|].
      eapply sends_bind; [apply emit_repeated_char_emits|apply sends_ret].
    + rewrite !length_app. simpl. lia.
    + by rewrite app_nil_r.
  - eapply sends_eq.
    + eapply sends_bind; [apply emit_repeated_char_emits|]. eapply sends_bind; [apply Hm|].
      eapply sends_bind; [apply sends_ret|apply sends_ret].
    + rewrite !length_app. simpl. lia.
    + by rewrite !app_nil_r.
Qed.

Lemma emit_str_emits mem fp body :
  fp_ok fp →
  (if decimals fp =? INT16_MIN then strlen mem = length body ∧ ∃ r, mem = body ++ r
   else 0 <= decimals fp ∧ rd mem 0 (decimals fp) = Ret body) →
  Z.of_nat (length body) < 2147450000 →
  emits (emit_str cb (Some mem) fp) (str_text fp body).
Proof.
  intros [Hw Hd] Hb Hlen. unfold emit_str, str_text.
  assert (rd mem 0 (if decimals fp =? INT16_MIN then Z.of_nat (strlen mem) else u32 (decimals fp))
          = Ret body ∧
          (if decimals fp =? INT16_MIN then Z.of_nat (strlen mem) else u32 (decimals fp))
          = Z.of_nat (length body)) as [Hr Hl].
  { destruct (decimals fp =? INT16_MIN).
    - destruct Hb as [-> [r ->]]. split; [|done]. apply (rd_at [] body r 0). done.
    - destruct Hb as [Hd0 Hr]. unfold u32. rewrite Z.mod_small by lia. split; [done|].
      unfold rd in Hr. destruct (_ && _)%bool eqn:E; [|done]. bool_to_prop. injection Hr as <-.
      rewrite length_take, length_drop. lia. }
  rewrite Hl in *. apply emits_padded; [by apply emits_cb_obj|].
  apply s32_id. lia.
Qed.

Lemma emit_intstr_emits fp neg buf digits body :
  fp_ok fp → digits = Z.of_nat (length body) → (length body <= 20)%nat →
  rd buf (Z.of_nat (length buf) - digits) digits = Ret body →
  emits (emit_intstr cb fp neg buf digits)
    (padded (la fp) (if lz fp then 48 else 32) (width fp) ((if neg then [45] else []) ++ body)).
Proof.
  intros [Hw _] -> Hlen Hr. unfold emit_intstr.
  rewrite s32_id by (destruct neg; simpl; lia).
  assert (∀ w, w - (Z.of_nat (length body) + b2z neg)
    = w - Z.of_nat (length ((if neg then [45] else []) ++ body))) as Hp.
  { intros w. destruct neg; simpl; lia. }
  rewrite Hp. unfold padded. destruct (la fp).
  - eapply sends_eq.
    + eapply sends_bind; [apply sends_ret|].
      eapply (sends_bind _ _ _ (Z.of_nat (length (if neg then [45] else []))) _ (if neg then [45] else [])).
      { destruct neg; [apply sends_cb|apply sends_ret]. }
      eapply sends_bind; [by apply emits_cb_obj|].
      eapply sends_bind; [apply emit_repeated_char_emits|apply sends_ret].
    + rewrite !length_app. lia.
    + by rewrite app_nil_r, <- app_assoc.
  - eapply sends_eq.
    + eapply sends_bind; [apply emit_repeated_char_emits|].
      eapply (sends_bind _ _ _ (Z.of_nat (length (if neg then [45] else []))) _ (if neg then [45] else [])).
      { destruct neg; [apply sends_cb|apply sends_ret]. }
      eapply sends_bind; [by apply emits_cb_obj|].
      eapply sends_bind; [apply sends_ret|apply sends_ret].
    + rewrite !length_app. lia.
    + by rewrite !app_nil_r.
Qed.

Lemma emit_dec_emits n fp neg x :
  fp_ok fp → n ≠ 0%nat → (n <= 20)%nat → 0 <= x < 10 ^ Z.of_nat n →
  emits (let '(buf, digits) := dec_digits n 0 x [] 1 in emit_intstr cb fp neg buf digits)
    (int_text fp neg x).
Proof.
  intros Hfp Hn Hn20 Hx. rewrite dec_digits_num.
  destruct (num_digits _ _ _ _ _ _ _) as [buf dg] eqn:E.
  destruct (num_digits_out 10 (λ d, 48 + d) n x buf dg ltac:(lia) Hn Hx E) as [-> Hr].
  unfold int_text, dec_str. rewrite (numeral_fuel _ _ n 20) by (try done; lia).
  apply emit_intstr_emits; [done|done| |done].
  pose proof (numeral_length 10 (λ d, 48 + d) n x ltac:(lia)). lia.
Qed.

Lemma emit_u32_emits fp neg x :
  fp_ok fp → is_u32 x → emits (emit_u32 cb fp neg x) (int_text fp neg x).
Proof.
  unfold is_u32. intros. apply (emit_dec_emits 10); [done|lia|lia|].
  change (10 ^ Z.of_nat 10) with 10000000000. lia.
Qed.

Lemma emit_u64_emits fp neg x :
  fp_ok fp → 0 <= x < 2 ^ 64 → emits (emit_u64 cb fp neg x) (int_text fp neg x).
Proof.
  intros. apply (emit_dec_emits 20); [done|lia|lia|].
  change (10 ^ Z.of_nat 20) with 100000000000000000000. lia.
Qed.

Lemma emit_hex_emits n fp x :
  fp_ok fp → n ≠ 0%nat → (n <= 16)%nat → 0 <= x < 16 ^ Z.of_nat n →
  emits (let '(buf, digits) := hex_digits n 0 x [] 1 in emit_x cb buf digits fp) (hex_text fp x).
Proof.
  intros Hfp Hn Hn16 Hx. rewrite hex_digits_num.
  destruct (num_digits _ _ _ _ _ _ _) as [buf dg] eqn:E.
  destruct (num_digits_out 16 hexdigit n x buf dg ltac:(lia) Hn Hx E) as [-> Hr].
  unfold hex_text, hex_str. rewrite (numeral_fuel _ _ n 16) by (try done; lia).
  set (body := numeral 16 hexdigit n x) in *. unfold emit_x, padded.
  eapply sends_eq.
  - eapply (sends_bind _ _ _ (Z.of_nat (Z.to_nat (width fp - Z.of_nat (length body)))) _
      (replicate (Z.to_nat (width fp - Z.of_nat (length body))) (if lz fp then 48 else 32))).
    + destruct (width fp >? Z.of_nat (length body)) eqn:Ew.
      * eapply sends_eq; [apply pad_loop_sends|lia|done].
      * rewrite Z.gtb_ltb in Ew. bool_to_prop. rewrite Z2Nat.nonpos by lia. apply sends_ret.
    + eapply sends_bind; [by apply emits_cb_obj|apply sends_ret].
  - rewrite length_app, length_replicate. lia.
  - by rewrite app_nil_r.
Qed.
End EmitInt.

(** ** Numerals denote *)

Lemma numeral_forall b dig (P : Z → Prop) n : ∀ x,
  1 < b → 0 <= x → (∀ d, 0 <= d < b → P (dig d)) → Forall P (numeral b dig n x).
Proof.
  induction n as [|n IH]; intros x Hb Hx HP; cbn [numeral]; [constructor|].
  destruct (x <? b) eqn:E; bool_to_prop.
  - apply Forall_singleton, HP. lia.
  - apply Forall_app_2.
    + apply IH; [done|apply Z.div_pos; lia|done].
    + apply Forall_singleton, HP. apply Z.mod_pos_bound. lia.
Qed.

Lemma numeral_value b dig (val : Z → Z) n : ∀ x,
  1 < b → 0 <= x < b ^ Z.of_nat n → (∀ d, 0 <= d < b → val (dig d) = d) →
  foldl (λ r c, r * b + val c) 0 (numeral b dig n x) = x.
Proof.
  induction n as [|n IH]; intros x Hb Hx Hv.
  { simpl in *. lia. }
  cbn [numeral]. rewrite Nat2Z.inj_succ, Z.pow_succ_r in Hx by lia.
  destruct (x <? b) eqn:E; bool_to_prop; cbn [foldl].
  - rewrite Hv by lia. lia.
  - rewrite foldl_app. cbn [foldl].
    rewrite IH; [|done|split; [apply Z.div_pos; lia|apply Z.div_lt_upper_bound; lia]|done].
    rewrite Hv by (apply Z.mod_pos_bound; lia). rewrite (Z.div_mod x b) at 3 by lia. lia.
Qed.

(** No leading zero. *)
Lemma numeral_head b dig n : ∀ x c,
  1 < b → 0 < x < b ^ Z.of_nat n → (∀ d, 0 < d < b → dig d ≠ c) → deref (numeral b dig n x) ≠ c.
Proof.
  induction n as [|n IH]; intros x c Hb Hx Hc.
  { simpl in Hx. lia. }
  cbn [numeral]. rewrite Nat2Z.inj_succ, Z.pow_succ_r in Hx by lia.
  destruct (x <? b) eqn:E; bool_to_prop; [apply Hc; lia|].
  assert (0 < x / b < b ^ Z.of_nat n).
  { split; [apply Z.div_str_pos; lia|apply Z.div_lt_upper_bound; lia]. }
  specialize (IH (x / b) c Hb ltac:(lia) Hc).
  destruct (numeral b dig n (x / b)) as [|c' r] eqn:En; [|done].
  destruct n as [|n]; [simpl in *; lia|]. by apply numeral_nonempty in En.
Qed.

Lemma dec_str_digits x : 0 <= x → Forall is_digit (dec_str x).
Proof. intros. apply numeral_forall; [lia|done|]. unfold is_digit. lia. Qed.

Lemma dec_str_value x : 0 <= x < 10 ^ 20 → dec_value (dec_str x) = x.
Proof.
  intros. unfold dec_value, dec_str. rewrite <- (numeral_value 10 (λ d, 48 + d) (λ c, c - 48) 20 x)
    at 2; [done|lia|done|intros; lia].
Qed.

Lemma dec_str_nonempty x : dec_str x ≠ [].
Proof. by apply numeral_nonempty. Qed.

Lemma hexdigit_spec d : 0 <= d < 16 → conv_hex_to_nibble (hexdigit d) = d ∧ is_char (hexdigit d).
Proof.
  intros Hd. unfold is_char.
  assert (forallb (λ d, (conv_hex_to_nibble (hexdigit d) =? d) && (0 <? hexdigit d) &&
                        (hexdigit d <? 256))%bool (seqZ 0 16) = true) as H by reflexivity.
  rewrite forallb_forall in H. specialize (H d). rewrite <- list_elem_of_In, elem_of_seqZ in H.
  specialize (H ltac:(lia)). bool_to_prop. lia.
Qed.

Lemma hex_str_value x : 0 <= x < 16 ^ 16 → hex_value (hex_str x) = x.
Proof.
  intros. unfold hex_value, hex_str.
  apply (numeral_value 16 hexdigit conv_hex_to_nibble 16); [lia|done|].
  intros d Hd. by apply hexdigit_spec.
Qed.

Lemma hex_str_digits x : 0 <= x → Forall (λ c, conv_hex_to_nibble c ≠ -1) (hex_str x).
Proof.
  intros. apply numeral_forall; [lia|done|]. intros d Hd. rewrite (proj1 (hexdigit_spec d Hd)). lia.
Qed.

(** [parse_dec] reads a numeral back. *)
Lemma parse_dec_loop_exact ds rest : ∀ r,
  Forall is_digit ds → 0 <= r → ¬ is_digit (deref rest) →
  foldl (λ r c, r * 10 + (c - 48)) r ds < 2147483648 →
  parse_dec_loop (ds ++ rest) r = (foldl (λ r c, r * 10 + (c - 48)) r ds, rest).
Proof.
  induction ds as [|c ds IH]; intros r Hd Hr Hrest HB; simpl.
  - destruct rest as [|x rest]; [done|]. simpl in *. unfold is_digit in Hrest.
    assert (((x <? 48) || (57 <? x))%bool = true) as ->; [|done].
    apply orb_true_iff. rewrite !Z.ltb_lt. lia.
  - apply Forall_cons_1 in Hd as [Hc Hd]. unfold is_digit in Hc.
    rewrite (proj2 (Z.ltb_ge c 48)), (proj2 (Z.ltb_ge 57 c)) by lia. cbn [orb].
    simpl in HB. pose proof (dec_value_mono ds (r * 10 + (c - 48)) Hd).
    rewrite (s32_id (r * 10)), s32_id by lia. apply IH; try done. lia.
Qed.

Lemma parse_dec_str x rest def :
  0 <= x < 2147483648 → ¬ is_digit (deref rest) → parse_dec (dec_str x ++ rest) def = (x, rest).
Proof.
  intros Hx Hr. pose proof (dec_str_digits x ltac:(lia)) as Hd.
  pose proof (dec_str_value x ltac:(lia)) as Hv. pose proof (dec_str_nonempty x).
  assert (parse_dec (dec_str x ++ rest) def = parse_dec_loop (dec_str x ++ rest) 0) as ->.
  { destruct (dec_str x) as [|c ds]; [done|]. unfold parse_dec. simpl.
    apply Forall_cons_1 in Hd as [Hc _]. unfold is_digit in Hc.
    by rewrite (proj2 (Z.ltb_ge c 48)), (proj2 (Z.ltb_ge 57 c)) by lia. }
  rewrite parse_dec_loop_exact by (try done; unfold dec_value in Hv; lia).
  by rewrite <- Hv at 2.
Qed.

Lemma parse_dec_none rest def : ¬ is_digit (deref rest) → parse_dec rest def = (def, rest).
Proof.
  intros Hr. unfold parse_dec, is_digit in *.
  assert (((deref rest <? 48) || (57 <? deref rest))%bool = true) as ->; [|done].
  apply orb_true_iff. rewrite !Z.ltb_lt. lia.
Qed.

(** ** Formats as sequences of directives *)

Inductive flag := FlagNone | FlagZero | FlagMinus | FlagPlus.

(** A conversion with the value it prints; [VStr] has the object and the bytes of it
    that are the text. *)
Inductive conversion :=
| VPercent
| VChar (v : Z)
| VStr (mem body : list Z)
| VNull
| VHex32 (v : Z) | VHex64 (v : Z)
| VDec32 (v : Z) | VDec64 (v : Z)
| VUns32 (v : Z) | VUns64 (v : Z)
| VIpv4 (v : Z)
| VPtr (v : Z).

Inductive directive :=
| DText (s : list Z)
| DConv (fl : flag) (w d : option Z) (v : conversion).

Definition flag_text (fl : flag) : list Z :=
  match fl with FlagNone => [] | FlagZero => [48] | FlagMinus => [45] | FlagPlus => [43] end.
Definition num_text (w : option Z) : list Z := match w with Some w => dec_str w | None => [] end.
Definition conv_text (v : conversion) : list Z :=
  match v with
  | VPercent => [37] | VChar _ => [99] | VStr _ _ | VNull => [115]
  | VHex32 _ => [120] | VHex64 _ => [108; 108; 120]
  | VDec32 _ => [100] | VDec64 _ => [108; 108; 100]
  | VUns32 _ => [117] | VUns64 _ => [108; 108; 117]
  | VIpv4 _ => [73; 100] | VPtr _ => [112]
  end.
Definition dir_text (d : directive) : list Z :=
  match d with
  | DText s => s
  | DConv fl w d v =>
      37 :: flag_text fl ++ num_text w ++
      (match d with Some _ => 46 :: num_text d | None => [] end) ++ conv_text v
  end.

Definition dir_args (d : directive) : list arg :=
  match d with
  | DText _ => []
  | DConv _ _ _ v =>
      match v with
      | VPercent => []
      | VChar v | VHex32 v | VDec32 v | VUns32 v | VIpv4 v => [AInt v]
      | VHex64 v | VDec64 v | VUns64 v => [ALong (u64 v)]
      | VStr mem _ => [AStr (Some mem)]
      | VNull => [AStr None]
      | VPtr v => [APtr v]
      end
  end.

Definition dir_param (fl : flag) (w d : option Z) (v : conversion) : fmtparam :=
  FmtParam (default (-1) w) (default INT16_MIN d)
    (match fl with FlagZero => true | _ => false end)
    (match fl with FlagMinus => true | _ => false end)
    (match fl with FlagPlus => true | _ => false end) false
    (match v with VIpv4 _ => true | _ => false end).

(** What a directive prints. *)
Definition dir_out (d : directive) : list Z :=
  match d with
  | DText s => s
  | DConv fl w d v =>
      let fp := dir_param fl w d v in
      match v with
      | VPercent => [37]
      | VChar v => [u8 v]
      | VStr _ body => str_text fp body
      | VNull => lit "(null)"
      | VHex32 v | VHex64 v => hex_text fp v
      | VDec32 v | VDec64 v => signed_text fp v
      | VUns32 v | VUns64 v => int_text fp false v
      | VIpv4 v => ipv4_text fp v
      | VPtr v => lit "0x" ++ hex_text fp v
      end
  end.

(** Values in the range of their C type; a precision never reads behind the object. *)
Definition conv_ok (d : option Z) (v : conversion) : Prop :=
  match v with
  | VPercent | VChar _ | VNull => True
  | VStr mem body =>
      Z.of_nat (length body) < 2147450000 ∧
      match d with
      | None => cstr body ∧ ∃ r, mem = body ++ 0 :: r
      | Some n => n <= Z.of_nat (length mem) ∧ body = take (Z.to_nat n) mem
      end
  | VHex32 v | VUns32 v | VIpv4 v | VPtr v => is_u32 v
  | VHex64 v | VUns64 v => 0 <= v < 2 ^ 64
  | VDec32 v => -2147483648 <= v < 2147483648
  | VDec64 v => - 2 ^ 63 <= v < 2 ^ 63
  end.
Definition dir_ok (d : directive) : Prop :=
  match d with
  | DText s => Forall (λ c, 0 < c < 256 ∧ c ≠ 37) s
  | DConv _ w d v =>
      match w with Some w => 0 < w < 32768 | None => True end ∧
      match d with Some d => 0 <= d < 32768 | None => True end ∧ conv_ok d v
  end.

Definition conv_is64 (v : conversion) : bool :=
  match v with VHex64 _ | VDec64 _ | VUns64 _ => true | _ => false end.
(** The conversion character. *)
Definition conv_char (v : conversion) : Z := List.last (conv_text v) 0.

(** Characters that open a conversion's text: none of the ones parsed before it. *)
Definition conv_head (c : Z) : Prop := c = 37 ∨ c = 73 ∨ 97 <= c.

Lemma conv_text_head v rest : conv_head (deref (conv_text v ++ rest)).
Proof. unfold conv_head. destruct v; simpl; lia. Qed.

Lemma conv_text_parse v rest :
  (deref (conv_text v ++ rest) =? 73) = (match v with VIpv4 _ => true | _ => false end) ∧
  parse_length false (if deref (conv_text v ++ rest) =? 73 then tail (conv_text v ++ rest)
                      else conv_text v ++ rest) = (conv_is64 v, conv_char v :: rest).
Proof. by destruct v. Qed.

Lemma num_text_head w rest :
  match w with Some w => 0 < w < 32768 | None => True end →
  conv_head (deref rest) ∨ deref rest = 46 →
  let c := deref (num_text w ++ rest) in c ≠ 42 ∧ c ≠ 43 ∧ c ≠ 45 ∧ c ≠ 48.
Proof.
  unfold conv_head. intros Hw Hr. destruct w as [w|]; simpl; [|lia].
  assert (deref (dec_str w) ≠ 48) as H48.
  { apply numeral_head; [lia| |intros; lia]. change (10 ^ Z.of_nat 20) with 100000000000000000000. lia. }
  pose proof (dec_str_digits w ltac:(lia)) as Hd. pose proof (dec_str_nonempty w).
  destruct (dec_str w) as [|c ds]; [done|]. apply Forall_cons_1 in Hd as [Hc _].
  unfold is_digit in Hc. simpl in *. lia.
Qed.

Lemma s16_id z : -32768 <= z < 32768 → s16 z = z.
Proof. intros. unfold s16, u16. case_match; bool_to_prop; dlia. Qed.

Lemma parse_num w rest def :
  match w with Some w => 0 <= w < 32768 | None => True end →
  ¬ is_digit (deref rest) → -32768 <= def < 32768 →
  parse_dec (num_text w ++ rest) def = (default def w, rest) ∧ s16 (default def w) = default def w.
Proof.
  intros Hw Hr Hdef. destruct w as [w|]; cbn [num_text from_option id].
  - split; [apply parse_dec_str; [lia|done]|apply s16_id; lia].
  - split; [by apply parse_dec_none|by apply s16_id].
Qed.

(** The printed form of a directive parses to its parameters. *)
Lemma parse_spec_text fl w d v rest ap :
  match w with Some w => 0 < w < 32768 | None => True end →
  match d with Some d => 0 <= d < 32768 | None => True end →
  parse_spec false
    (flag_text fl ++ num_text w ++
     (match d with Some _ => 46 :: num_text d | None => [] end) ++ conv_text v ++ rest) ap =
  Ret (dir_param fl w d v, conv_is64 v, conv_char v :: rest, ap).
Proof.
  intros Hw Hd. pose proof (conv_text_head v rest) as Hc.
  destruct (conv_text_parse v rest) as [Hip Hlen].
  set (T := conv_text v ++ rest) in *.
  assert (¬ is_digit (deref T) ∧ deref T ≠ 46 ∧ deref T ≠ 42) as (Hnd & H46 & H42).
  { unfold conv_head, is_digit in *. lia. }
  set (D := (match d with Some _ => 46 :: num_text d | None => [] end) ++ T).
  assert (conv_head (deref D) ∨ deref D = 46) as HD by (unfold D; destruct d; simpl; auto).
  assert (¬ is_digit (deref D)) as HDd.
  { unfold conv_head, is_digit in *. lia. }
  pose proof (num_text_head w D Hw HD) as Hh. cbv zeta in Hh.
  destruct (parse_num w D (-1)) as [Hpw Hsw]; [by destruct w; [lia|]|done|lia|].
  assert (deref (flag_text fl ++ num_text w ++ D) =
          match fl with FlagNone => deref (num_text w ++ D) | FlagZero => 48
                   | FlagMinus => 45 | FlagPlus => 43 end) as Hfl by by destruct fl.
  assert (∀ x, (if ((deref (flag_text fl ++ num_text w ++ D) =? 48) ||
               (deref (flag_text fl ++ num_text w ++ D) =? 45) ||
               (deref (flag_text fl ++ num_text w ++ D) =? 43))%bool
           then tail (flag_text fl ++ num_text w ++ D) else flag_text fl ++ num_text w ++ D) = x
          ↔ num_text w ++ D = x) as Htl.
  { intros x. rewrite Hfl. destruct fl; try done.
    rewrite !(proj2 (Z.eqb_neq _ _)) by lia. done. }
  unfold parse_spec. rewrite (proj2 (Htl _) eq_refl), Hpw. clear Htl.
  rewrite (proj2 (Z.eqb_neq (deref (num_text w ++ D)) 42)) by lia. cbn [mbind res_bind].
  assert ((if deref D =? 46
     then if deref (tail D) =? 42 then '(v0, ap0) ← va_int ap; Ret (s16 v0, tail (tail D), ap0)
          else let '(v0, fmt) := parse_dec (tail D) INT16_MIN in Ret (s16 v0, fmt, ap)
     else Ret (INT16_MIN, D, ap)) = Ret (default INT16_MIN d, T, ap)) as HDd'.
  { unfold D. destruct d as [d|]; cbn [app deref tail].
    - change (46 =? 46) with true. cbv iota.
      destruct (parse_num (Some d) T INT16_MIN) as [-> Hs];
        [done|done|unfold INT16_MIN; lia|].
      rewrite Hs. rewrite (proj2 (Z.eqb_neq _ 42)); [done|].
      cbn [num_text]. pose proof (dec_str_digits d ltac:(lia)) as Hds.
      pose proof (dec_str_nonempty d). destruct (dec_str d) as [|x ds]; [done|].
      apply Forall_cons_1 in Hds as [Hx _]. unfold is_digit in Hx. simpl. lia.
    - rewrite (proj2 (Z.eqb_neq _ 46)) by done. done. }
  rewrite HDd'. cbn [mbind res_bind]. rewrite Hlen, Hip, Hsw. unfold dir_param. repeat f_equal.
  all: rewrite Hfl; destruct fl; try done; apply Z.eqb_neq; lia.
Qed.

Section Directives.
Context {St : Type} (cb : fmtcb St) `{Hsink : !FmtSink cb}.

Lemma dir_param_ok fl w d v :
  match w with Some w => 0 < w < 32768 | None => True end →
  match d with Some d => 0 <= d < 32768 | None => True end → fp_ok (dir_param fl w d v).
Proof.
  intros Hw Hd. unfold fp_ok, dir_param, INT16_MIN. cbn [width decimals].
  destruct w, d; simpl in *; lia.
Qed.

(** The argument fetch followed by an emitting helper. *)
Lemma sends_fetch {A B C} (m : res (A * B)) a b (k : A → emit St Z) (g : Z → C) out :
  m = Ret (a, b) → emits cb (k a) out →
  sends cb ('(v, ap) ← lift m; t ← k v; mret (g t, ap)) (g (Z.of_nat (length out)), b) out.
Proof.
  intros Hm Hk. eapply sends_eq; [|done|].
  - eapply sends_bind; [by apply sends_lift|]. cbv beta iota.
    eapply sends_bind; [apply Hk|apply sends_ret].
  - by rewrite app_nil_r.
Qed.

Lemma ipv4_octets v : is_u32 v →
  let x := s32 (ntohl v) in
  Z.land (Z.shiftr x 24) 255 = u8 v ∧ Z.land (Z.shiftr x 16) 255 = u8 (Z.shiftr v 8) ∧
  Z.land (Z.shiftr x 8) 255 = u8 (Z.shiftr v 16) ∧ Z.land x 255 = u8 (Z.shiftr v 24).
Proof.
  unfold is_u32, s32, u32, ntohl, rd_le32, u8. intros Hv. cbv zeta.
  change 255 with (2 ^ 8 - 1). rewrite !land_ones_mod, !Z.shiftr_div_pow2 by lia.
  change (2 ^ 8) with 256. change (2 ^ 16) with 65536. change (2 ^ 24) with 16777216.
  case_match; bool_to_prop; repeat split; dlia.
Qed.

Lemma emit_s32_emits fp v :
  fp_ok fp → ipv4 fp = false → -2147483648 <= v < 2147483648 →
  emits cb (emit_s32 cb fp v) (signed_text fp v).
Proof.
  intros Hfp Hip Hv. unfold emit_s32, signed_text. rewrite Hip.
  destruct (v <? 0) eqn:E; bool_to_prop.
  - rewrite u32_id by (unfold is_u32; lia). apply emit_u32_emits; [done|unfold is_u32; lia].
  - apply emit_u32_emits; [done|unfold is_u32; lia].
Qed.

Lemma emit_s64_emits fp v :
  fp_ok fp → - 2 ^ 63 <= v < 2 ^ 63 → emits cb (emit_s64 cb fp v) (signed_text fp v).
Proof.
  intros Hfp Hv. unfold emit_s64, signed_text. destruct (v <? 0) eqn:E; bool_to_prop.
  - unfold u64. rewrite Z.mod_small by lia. apply emit_u64_emits; [done|lia].
  - apply emit_u64_emits; [done|lia].
Qed.

Lemma emit_ipv4_emits fp v :
  fp_ok fp → ipv4 fp = true → is_u32 v → emits cb (emit_s32 cb fp (s32 v)) (ipv4_text fp v).
Proof.
  intros Hfp Hip Hv. unfold emit_s32, ipv4_text. rewrite Hip.
  assert (ntohl (s32 v) = ntohl v) as ->.
  { unfold is_u32 in Hv. unfold ntohl, s32, u32, rd_le32, u8. rewrite !Z.shiftr_div_pow2 by lia.
    change (2 ^ 8) with 256. change (2 ^ 16) with 65536. change (2 ^ 24) with 16777216.
    case_match; bool_to_prop; dlia. }
  destruct (ipv4_octets v Hv) as (-> & -> & -> & ->). cbv zeta.
  assert (∀ z, is_u32 (u8 z)) as Hb.
  { intros z. pose proof (u8_byte z). unfold is_byte, is_u32 in *. lia. }
  eapply sends_eq.
  - repeat (eapply sends_bind; [first [by apply emit_u32_emits | apply sends_cb]|]).
    apply sends_ret.
  - rewrite !length_app. cbn [length]. lia.
  - by rewrite app_nil_r.
Qed.
End Directives.

Section Fmtv.
Context {St : Type} (cb : fmtcb St) `{Hsink : !FmtSink cb}.

Lemma strlen_obj body r : cstr body → strlen (body ++ 0 :: r) = length body.
Proof. apply strlen_cstr. Qed.

Lemma s64_u64 v : - 2 ^ 63 <= v < 2 ^ 63 → s64 (u64 v) = v.
Proof.
  change (2 ^ 63) with 9223372036854775808. intros Hv. unfold s64, u64.
  rewrite Z.mod_mod by lia. case_match; bool_to_prop; dlia.
Qed.

(** A parsed precision is never negative, so [%s] prints text and not a dump. *)
Lemma dir_param_no_dump fl w d v :
  match d with Some d => 0 <= d < 32768 | None => True end →
  (negb (decimals (dir_param fl w d v) =? INT16_MIN) && (decimals (dir_param fl w d v) <? 0))%bool
  = false.
Proof.
  intros Hd. unfold dir_param, INT16_MIN. cbn [decimals]. destruct d as [d|]; [|done].
  cbn [from_option id]. rewrite (proj2 (Z.ltb_ge d 0)) by lia. apply andb_false_r.
Qed.

(** A conversion prints its text and takes its own arguments. *)
Lemma convert_sends fl w d v ap :
  dir_ok (DConv fl w d v) →
  sends cb (convert cb false (conv_char v) (dir_param fl w d v) (conv_is64 v)
              (dir_args (DConv fl w d v) ++ ap))
    (Z.of_nat (length (dir_out (DConv fl w d v))), ap) (dir_out (DConv fl w d v)).
Proof.
  intros (Hw & Hd & Hv). pose proof (dir_param_ok fl w d v Hw Hd) as Hfp.
  unfold convert, conv_char, dir_out. set (fp := dir_param fl w d v) in *.
  destruct v as [|v|mem body| |v|v|v|v|v|v|v|v]; cbn [conv_text List.last conv_is64 dir_args app Z.eqb Pos.eqb];
    cbn [conv_ok] in Hv.
  - eapply sends_eq; [eapply sends_bind; [apply sends_cb|apply sends_ret]|done|done].
  - apply (sends_fetch cb _ v ap (λ v, cb [u8 v]) id); [done|]. apply sends_cb.
  - unfold fp at 1 2. rewrite dir_param_no_dump by done.
    apply (sends_fetch cb _ (Some mem) ap (λ s, emit_str cb s fp) id); [done|].
    destruct Hv as [Hlen Hb]. apply emit_str_emits; [done| |done].
    unfold fp, dir_param, INT16_MIN. cbn [decimals]. destruct d as [d|]; cbn [from_option id].
    + rewrite (proj2 (Z.eqb_neq d (-32768))) by lia. split; [lia|].
      destruct Hb as [Hn ->]. rewrite rd_ok by lia. done.
    + destruct Hb as [Hc [r ->]]. rewrite Z.eqb_refl. split; [by apply strlen_obj|by exists (0 :: r)].
  - unfold fp at 1 2. rewrite dir_param_no_dump by done.
    apply (sends_fetch cb _ None ap (λ s, emit_str cb s fp) id); [done|]. exact (sends_cb cb (lit "(null)")).
  - apply (sends_fetch cb _ v ap (λ v, emit_x32 cb (u32 v) fp) id); [done|].
    rewrite u32_id by done. unfold is_u32 in Hv. apply emit_hex_emits; [done|lia|lia|].
    change (16 ^ Z.of_nat 8) with 4294967296. lia.
  - apply (sends_fetch cb _ (u64 v) ap (λ v, emit_x64 cb v fp) id); [done|].
    unfold u64. rewrite Z.mod_small by lia. apply emit_hex_emits; [done|lia|lia|].
    change (16 ^ Z.of_nat 16) with 18446744073709551616. lia.
  - apply (sends_fetch cb _ v ap (λ v, emit_s32 cb fp (s32 v)) id); [done|].
    rewrite s32_id by lia. by apply emit_s32_emits.
  - apply (sends_fetch cb _ (u64 v) ap (λ v, emit_s64 cb fp (s64 v)) id); [done|].
    rewrite s64_u64 by done.
    by apply emit_s64_emits.
  - apply (sends_fetch cb _ v ap (λ v, emit_u32 cb fp false (u32 v)) id); [done|].
    rewrite u32_id by done. by apply emit_u32_emits.
  - apply (sends_fetch cb _ (u64 v) ap (λ v, emit_u64 cb fp false v) id); [done|].
    unfold u64. rewrite Z.mod_small by lia. by apply emit_u64_emits.
  - apply (sends_fetch cb _ v ap (λ v, emit_s32 cb fp (s32 v)) id); [done|].
    by apply emit_ipv4_emits.
  - eapply sends_eq.
    + eapply sends_bind; [apply sends_cb|].
      apply (sends_fetch cb _ v ap (λ v, emit_x32 cb v fp) (λ t, Z.of_nat (length (lit "0x")) + t)); [done|].
      unfold is_u32 in Hv. apply emit_hex_emits; [done|lia|lia|].
      change (16 ^ Z.of_nat 8) with 4294967296. lia.
    + rewrite length_app. f_equal. lia.
    + done.
Qed.

Lemma conv_char_nz v : (conv_char v =? 0) = false.
Proof. by destruct v. Qed.

Lemma concat_text_cons d ds :
  concat (dir_text <$> d :: ds) = dir_text d ++ concat (dir_text <$> ds).
Proof. done. Qed.

(** The loop over ordinary characters only moves the read position. *)
Lemma fmt_loop_text s : ∀ f pend rest ap total,
  Forall (λ c, 0 < c < 256 ∧ c ≠ 37) s →
  fmt_loop cb false (length s + f) (pend ++ s ++ rest) (s ++ rest) ap total =
  fmt_loop cb false f ((pend ++ s) ++ rest) rest ap total.
Proof.
  induction s as [|c s IH]; intros f pend rest ap total Hs; [by rewrite app_nil_r|].
  apply Forall_cons_1 in Hs as [[Hc H37] Hs]. cbn [length Nat.add fmt_loop app deref tail].
  rewrite (proj2 (Z.eqb_neq c 0)), (proj2 (Z.eqb_neq c 37)) by lia. cbn [negb].
  change (pend ++ c :: s ++ rest) with (pend ++ [c] ++ s ++ rest).
  rewrite (app_assoc pend [c]), IH by done. by rewrite <- (app_assoc pend [c]).
Qed.

Lemma fmt_loop_sends ds : ∀ f pend ap total,
  Forall dir_ok ds → (length (concat (dir_text <$> ds)) < f)%nat →
  sends cb
    (fmt_loop cb false f (pend ++ concat (dir_text <$> ds)) (concat (dir_text <$> ds))
       (concat (dir_args <$> ds) ++ ap) total)
    (total + Z.of_nat (length (pend ++ concat (dir_out <$> ds))))
    (pend ++ concat (dir_out <$> ds)).
Proof.
  induction ds as [|d ds IH]; intros f pend ap total Hok Hf.
  - destruct f as [|f]; [simpl in Hf; lia|]. cbn [fmap list_fmap concat fmt_loop deref].
    change (0 =? 0) with true. cbv iota. rewrite !app_nil_r, Nat.sub_0_r, firstn_all.
    destruct pend as [|c pend].
    + eapply sends_eq; [apply sends_ret|simpl; lia|done].
    + cbn [length Nat.eqb]. eapply sends_eq; [|done|].
      * eapply sends_bind; [apply sends_cb|apply sends_ret].
      * apply app_nil_r.
  - apply Forall_cons_1 in Hok as [Hd Hok]. destruct d as [s|fl w d v].
    + cbn [fmap list_fmap concat dir_text dir_args dir_out app] in *.
      rewrite length_app in Hf.
      replace f with (length s + (f - length s))%nat by lia.
      rewrite fmt_loop_text by done. rewrite app_assoc. apply IH; [done|lia].
    + pose proof (convert_sends fl w d v (concat (dir_args <$> ds) ++ ap) Hd) as Hc.
      destruct f as [|f]; [lia|].
      rewrite concat_text_cons. rewrite concat_text_cons, length_app in Hf.
      change (concat (dir_args <$> DConv fl w d v :: ds))
        with (dir_args (DConv fl w d v) ++ concat (dir_args <$> ds)).
      change (concat (dir_out <$> DConv fl w d v :: ds))
        with (dir_out (DConv fl w d v) ++ concat (dir_out <$> ds)).
      rewrite <- (app_assoc (dir_args _)). set (R := concat (dir_text <$> ds)) in *.
      cbn [dir_text app fmt_loop deref tail]. change (37 =? 0) with false.
      change (negb (37 =? 37)) with false. cbv iota.
      rewrite <- !app_assoc. set (X := flag_text fl ++ _).
      assert (length (pend ++ 37%Z :: X) - length X - 1 = length pend)%nat as ->
        by (rewrite length_app; simpl; lia).
      rewrite take_app_length. eapply sends_eq.
      * eapply (sends_bind cb _ _ (Z.of_nat (length pend)) _ pend).
        { destruct pend; [apply sends_ret|apply sends_cb]. }
        eapply sends_bind.
        { apply sends_lift. destruct Hd as (Hw & Hdd & _). by apply parse_spec_text. }
        cbv beta iota. cbn [deref tail]. rewrite conv_char_nz.
        eapply sends_bind; [exact Hc|]. cbv beta iota.
        apply (IH f [] ap); [done|]. simpl in Hf. rewrite !length_app in Hf. lia.
      * rewrite !length_app. simpl. lia.
      * done.
Qed.

End Fmtv.

(** ** Floating point: the loops end, and how *)

(** [0x33333333 << 32], the bound below which [mantissa * 5] fits 64 bits. *)
Definition fifth : Z := 3689348813882916864.
Definition mant_low : Z := 9223372034707292160.
Definition mant_ok (m : Z) : Prop := mant_low <= m <= 2 ^ 64 - 4.

Lemma shrink_ret g : ∀ f m e2,
  (g <= f)%nat → fifth <= m < 2 ^ 64 → m < fifth * 2 ^ Z.of_nat g →
  ∃ m' k, shrink f m e2 = Ret (m', e2 + k) ∧ 1 <= k <= Z.of_nat g ∧ fifth <= 2 * m' + 1 ∧ m' < fifth.
Proof.
  induction g as [|g IH]; intros f m e2 Hf Hm Hg; [simpl in Hg; lia|].
  destruct f as [|f]; [lia|]. cbn [shrink].
  rewrite Nat2Z.inj_succ, Z.pow_succ_r in Hg by lia.
  assert (0 <= m / 2 < 2 ^ 63) by (change (2 ^ 64) with (2 ^ 63 * 2) in Hm; unfold fifth in Hm; dlia).
  rewrite Z.shiftr_div_pow2, Z.shiftr_div_pow2, Z.pow_1_r by lia.
  rewrite u32_id by (unfold is_u32; split; [apply Z.div_pos|apply Z.div_lt_upper_bound]; lia).
  destruct (858993459 <=? m / 2 / 2 ^ 32) eqn:E; bool_to_prop.
  - assert (fifth <= m / 2) by (unfold fifth; change (2 ^ 32) with 4294967296 in E; dlia).
    destruct (IH f (m / 2) (e2 + 1)) as (m' & k & -> & Hk & Hl & Hu); [lia|lia| |].
    { apply Z.div_lt_upper_bound; lia. }
    exists m', (k + 1). repeat split; [f_equal; f_equal; lia|lia|lia|lia|lia].
  - exists (m / 2), 1. repeat split; try lia.
    + unfold fifth in *. dlia.
    + pose proof (Z.mul_succ_div_gt (m / 2) (2 ^ 32) ltac:(lia)). unfold fifth. lia.
Qed.

Lemma scale_up_ret f : ∀ m e2 e10,
  mant_ok m → e2 <= 1025 → Z.max 0 (- e2 - 2) < Z.of_nat f →
  ∃ m' e2' e10', scale_up f m e2 e10 = Ret (m', e2', e10') ∧ mant_ok m' ∧
    -2 <= e2' <= 1025 ∧ e10 - Z.of_nat f <= e10' <= e10.
Proof.
  induction f as [|f IH]; intros m e2 e10 Hm He Hf; cbn [scale_up].
  { lia. }
  destruct (e2 <? -2) eqn:E; bool_to_prop; [|exists m, e2, e10; split_and!; solve [done|lia]].
  destruct (shrink_ret 3 64 m e2) as (m' & k & -> & Hk & Hl & Hu);
    [lia|unfold mant_ok, mant_low, fifth in *; lia|unfold mant_ok, mant_low, fifth in *; simpl; lia|].
  cbn [mbind res_bind]. 
  assert (u64 (m' * 5) = m' * 5) as Hmul by (unfold u64, fifth in *; apply Z.mod_small; lia).
  rewrite Hmul.
  destruct (IH (m' * 5) (e2 + k + 1) (e10 - 1)) as (m2 & e2' & e10' & -> & ? & ? & ?);
    [unfold mant_ok, mant_low, fifth in *; lia|lia|lia|].
  exists m2, e2', e10'. split_and!; solve [done|lia].
Qed.

Lemma testbit_63 m : 0 <= m < 2 ^ 64 → Z.testbit m 63 = (2 ^ 63 <=? m).
Proof.
  intros Hm. destruct (2 ^ 63 <=? m) eqn:E; bool_to_prop.
  - apply Z.testbit_true; [lia|]. assert (m / 2 ^ 63 = 1) as -> by (symmetry; apply Z.div_unique with (m - 2 ^ 63); lia). done.
  - apply Z.testbit_false; [lia|]. by rewrite Z.div_small by lia.
Qed.

Lemma grow_ret g : ∀ f q e2,
  (g <= f)%nat → (1 <= g)%nat → 2 ^ 63 <= q * 2 ^ Z.of_nat g → 0 < q < 2 ^ 63 →
  ∃ k, grow f q e2 = Ret (q * 2 ^ k, e2 - k) ∧ 1 <= k <= Z.of_nat g ∧ 2 ^ 63 <= q * 2 ^ k < 2 ^ 64.
Proof.
  induction g as [|g IH]; intros f q e2 Hf Hg Hq Hlt; [lia|].
  destruct f as [|f]; [lia|]. cbn [grow]. rewrite Z.shiftl_mul_pow2, Z.pow_1_r by lia.
  assert (u64 (q * 2) = q * 2) as -> by (unfold u64; apply Z.mod_small; lia).
  rewrite testbit_63 by lia. destruct (2 ^ 63 <=? q * 2) eqn:E; bool_to_prop.
  - exists 1. rewrite Z.pow_1_r. repeat split; lia.
  - rewrite Nat2Z.inj_succ, Z.pow_succ_r in Hq by lia.
    assert (1 <= g)%nat. { destruct g; [simpl in Hq; lia|lia]. }
    destruct (IH f (q * 2) (e2 - 1)) as (k & -> & Hk & Hr); [lia|lia|lia|lia|].
    exists (k + 1). rewrite Z.pow_add_r, Z.pow_1_r by lia.
    replace (q * (2 ^ k * 2)) with (q * 2 * 2 ^ k) by ring.
    repeat split; try lia. f_equal. f_equal. lia.
Qed.

Lemma scale_down_ret f : ∀ m e2 e10,
  mant_ok m → -3 <= e2 → Z.max 0 e2 < Z.of_nat f →
  ∃ m' e2' e10', scale_down f m e2 e10 = Ret (m', e2', e10') ∧ mant_ok m' ∧
    -3 <= e2' <= 0 ∧ e10 <= e10' <= e10 + Z.of_nat f.
Proof.
  induction f as [|f IH]; intros m e2 e10 Hm He Hf; cbn [scale_down].
  { lia. }
  destruct (0 <? e2) eqn:E; bool_to_prop; [|exists m, e2, e10; split_and!; solve [done|lia]].
  assert (u64 (2 + m) = 2 + m) as -> by (unfold u64, mant_ok, mant_low in *; apply Z.mod_small; lia).
  assert (2 ^ 60 <= (2 + m) / 5 < 2 ^ 62) as Hq.
  { unfold mant_ok, mant_low in Hm. dlia. }
  destruct (grow_ret 3 64 ((2 + m) / 5) (e2 - 1)) as (k & -> & Hk & Hr); [lia|lia|simpl; lia|lia|].
  cbn [mbind res_bind].
  assert (2 <= k). { destruct (decide (k = 1)) as [->|]; [|lia]. rewrite Z.pow_1_r in Hr. lia. }
  destruct (IH ((2 + m) / 5 * 2 ^ k) (e2 - 1 - k) (e10 + 1)) as (m2 & e2' & e10' & -> & ? & ? & ?).
  - unfold mant_ok, mant_low. split; [lia|].
    replace k with (2 + (k - 2)) in * by lia. rewrite Z.pow_add_r in * by lia.
    change (2 ^ 2) with 4 in *. change (2 ^ 64) with (4 * 2 ^ 62) in *. nia.
  - lia.
  - lia.
  - exists m2, e2', e10'. split_and!; solve [done|lia].
Qed.

(** Every double is brought to a 60-bit fraction and a decimal exponent. *)
Lemma flt_normalise_ret bits :
  0 <= bits < 2 ^ 64 →
  ∃ m e10, flt_normalise bits = Ret (m, e10) ∧ 0 <= m < 2 ^ 60 ∧ -2200 <= e10 <= 2200.
Proof.
  intros Hb. unfold flt_normalise.
  set (f := Z.land bits (2 ^ 52 - 1)). set (e := Z.land (Z.shiftr bits 52) 2047).
  assert (0 <= f < 2 ^ 52) as Hf.
  { unfold f. rewrite land_ones_mod by lia. apply Z.mod_pos_bound. lia. }
  assert (0 <= e < 2048) as He.
  { unfold e. change 2047 with (2 ^ 11 - 1). rewrite land_ones_mod by lia. apply Z.mod_pos_bound. lia. }
  destruct (e =? 0) eqn:E; bool_to_prop.
  { exists 0, 1. repeat split; lia. }
  rewrite Z.shiftl_mul_pow2 by lia.
  assert (u64 (f * 2 ^ 11) = f * 2 ^ 11) as -> by (unfold u64; apply Z.mod_small; lia).
  rewrite Z.lor_comm. change (2 ^ 63) with (Z.shiftl 1 63). rewrite shiftl_lor by lia.
  destruct (scale_up_ret 1100 (1 * 2 ^ 63 + f * 2 ^ 11) (e - 1022) 0) as (m & e2 & e10 & -> & Hm & He2 & He10).
  { unfold mant_ok, mant_low. lia. }
  { lia. }
  { lia. }
  cbn [mbind res_bind].
  destruct (scale_down_ret 1100 m e2 e10) as (m' & e2' & e10' & -> & Hm' & He2' & He10'); [done|lia|lia|].
  cbn [mbind res_bind]. exists (Z.shiftr m' (4 - e2')), e10'. split; [done|].
  rewrite Z.shiftr_div_pow2 by lia. unfold mant_ok, mant_low in Hm'.
  assert (2 ^ 4 <= 2 ^ (4 - e2')) by (apply Z.pow_le_mono_r; lia).
  split; [|lia]. split; [apply Z.div_pos; lia|]. apply Z.div_lt_upper_bound; [lia|]. nia.
Qed.

Lemma count_loop_spec n : ∀ c e10,
  count_loop n c e10 = c + Z.of_nat n + (if (1 <=? e10) && (e10 <=? Z.of_nat n) then 1 else 0)%bool.
Proof.
  induction n as [|n IH]; intros c e10; cbn [count_loop].
  - destruct (1 <=? e10) eqn:E1, (e10 <=? Z.of_nat 0) eqn:E2; bool_to_prop; simpl; lia.
  - rewrite IH.
    destruct (e10 - 1 =? 0) eqn:E0, (1 <=? e10 - 1) eqn:E1, (e10 - 1 <=? Z.of_nat n) eqn:E2,
      (1 <=? e10) eqn:E3, (e10 <=? Z.of_nat (S n)) eqn:E4; bool_to_prop; cbn [andb]; lia.
Qed.

Definition sign_text (sign : bool) (fp : fmtparam) : list Z :=
  if sign then [45] else if plus fp then [43] else if sign_pad fp then [32] else [].

(** The width is computed from at least the characters printed. *)
Lemma flt_count_bound sign e10 sig fp :
  0 < sig →
  Z.of_nat (length (sign_text sign fp)) + Z.max 1 e10 + 1 + sig
    <= flt_count_output_chars sign e10 sig fp.
Proof.
  intros Hs. assert (Z.of_nat (length (sign_text sign fp)) =
    if (sign || plus fp || sign_pad fp)%bool then 1 else 0) as ->.
  { unfold sign_text. by destruct sign, (plus fp), (sign_pad fp). }
  unfold flt_count_output_chars. set (c := if (sign || plus fp || sign_pad fp)%bool then 1 else 0).
  destruct (0 <? e10) eqn:E; bool_to_prop.
  - rewrite count_loop_spec, (proj2 (Z.leb_le 1 e10)), (proj2 (Z.leb_le e10 _)) by lia. simpl. lia.
  - destruct (sig + e10 <=? 0) eqn:E2; bool_to_prop; [lia|].
    rewrite count_loop_spec. case_match; lia.
Qed.

Section Float.
Context {St : Type} (cb : fmtcb St) `{Hsink : !FmtSink cb}.

Lemma zeros_loop_sends n : ∀ sig t, 0 < sig →
  sends cb (zeros_loop cb n sig t)
    (sig - Z.min sig (Z.of_nat n), t + Z.min sig (Z.of_nat n), sig <=? Z.of_nat n)
    (replicate (Z.to_nat (Z.min sig (Z.of_nat n))) 48).
Proof.
  induction n as [|n IH]; intros sig t Hs; cbn [zeros_loop].
  { rewrite Z.min_r, (proj2 (Z.leb_gt sig _)) by lia.
    eapply sends_eq; [apply sends_ret|do 2 f_equal; lia|done]. }
  replace (Z.to_nat (Z.min sig (Z.of_nat (S n))))
    with (S (Z.to_nat (Z.min (sig - 1) (Z.of_nat n)))) by lia.
  destruct (sig - 1 <=? 0) eqn:E; bool_to_prop.
  - eapply sends_eq.
    + eapply sends_bind; [apply sends_cb|]. apply sends_ret.
    + rewrite (proj2 (Z.leb_le sig _)) by lia. do 2 f_equal; simpl; lia.
    + replace (Z.to_nat (Z.min (sig - 1) (Z.of_nat n))) with 0%nat by lia. done.
  - eapply sends_eq.
    + eapply sends_bind; [apply sends_cb|]. apply IH. lia.
    + f_equal; [f_equal; cbn [length]; lia|].
      destruct (sig - 1 <=? Z.of_nat n) eqn:E1, (sig <=? Z.of_nat (S n)) eqn:E2; bool_to_prop;
        first [done|lia].
    + done.
Qed.

Lemma flt_digit m : is_digit ((if 9 <? u8 (Z.shiftr (u64 m) 60) then 9 else u8 (Z.shiftr (u64 m) 60)) + 48).
Proof.
  pose proof (u8_byte (Z.shiftr (u64 m) 60)). unfold is_digit, is_byte in *.
  case_match; bool_to_prop; lia.
Qed.

(** The digits, with the point after the first [e10] of them when there are so many. *)
Lemma digits_loop_sends n : ∀ m e10,
  ∃ ds, length ds = n ∧ Forall is_digit ds ∧ ∀ total,
    sends cb (digits_loop cb n m e10 total)
      (total + Z.of_nat n + (if (1 <=? e10) && (e10 <=? Z.of_nat n) then 1 else 0)%bool)
      (if (1 <=? e10) && (e10 <=? Z.of_nat n)
       then take (Z.to_nat e10) ds ++ 46 :: drop (Z.to_nat e10) ds else ds)%bool.
Proof.
  induction n as [|n IH]; intros m e10.
  { exists []. split_and!; [done|constructor|]. intros total. cbn [digits_loop].
    assert (((1 <=? e10) && (e10 <=? Z.of_nat 0))%bool = false) as ->.
    { destruct (1 <=? e10) eqn:E1, (e10 <=? Z.of_nat 0) eqn:E2; bool_to_prop; try done; lia. }
    eapply sends_eq; [apply sends_ret|simpl; lia|done]. }
  destruct (IH (Z.land (u64 (m * 10)) (2 ^ 60 - 1)) (e10 - 1)) as (ds & Hl & Hd & Hs).
  set (c := (if 9 <? u8 (Z.shiftr (u64 (m * 10)) 60) then 9 else u8 (Z.shiftr (u64 (m * 10)) 60)) + 48).
  exists (c :: ds). split_and!; [by simpl; rewrite Hl|by apply Forall_cons_2; [apply flt_digit|]|].
  intros total. cbn [digits_loop]. fold c.
  destruct (e10 - 1 =? 0) eqn:E0; bool_to_prop.
  - assert (e10 = 1) as -> by lia. rewrite (proj2 (Z.leb_le 1 (Z.of_nat (S n)))) by lia. cbn [andb].
    change (Z.to_nat 1) with 1%nat. cbn [take drop].
    eapply sends_eq.
    + eapply sends_bind; [apply sends_cb|]. eapply sends_bind; [apply sends_cb|]. apply Hs.
    + simpl. lia.
    + done.
  - eapply sends_eq.
    + eapply sends_bind; [apply sends_cb|]. eapply sends_bind; [apply sends_ret|]. apply Hs.
    + destruct (1 <=? e10 - 1) eqn:E1, (e10 - 1 <=? Z.of_nat n) eqn:E2,
        (1 <=? e10) eqn:E3, (e10 <=? Z.of_nat (S n)) eqn:E4; bool_to_prop; cbn [andb length]; lia.
    + destruct (1 <=? e10 - 1) eqn:E1, (e10 - 1 <=? Z.of_nat n) eqn:E2,
        (1 <=? e10) eqn:E3, (e10 <=? Z.of_nat (S n)) eqn:E4; bool_to_prop; cbn [andb app];
        try lia; try done.
      replace (Z.to_nat e10) with (S (Z.to_nat (e10 - 1))) by lia. done.
Qed.

(** The number itself, between sign and padding. *)
Lemma flt_body_sends mantissa e10 sig :
  0 < sig →
  ∃ int frac, Forall is_digit int ∧ Z.of_nat (length int) = Z.max 1 e10 ∧ Forall is_digit frac ∧
    Z.of_nat (length frac) = sig ∧
    ∀ (k : Z → emit St Z) b o, sends cb (k (Z.of_nat (length (int ++ 46 :: frac)))) b o →
    sends cb
      ('(significands, t3, done) ←
         (if 0 <? e10 then mret (sig + e10, 0, false)
          else t ← cb [48; 46]; zeros_loop cb (Z.to_nat (- e10)) sig t);
       t4 ← (if done : bool then mret 0
             else digits_loop cb (Z.to_nat significands) (mantissa significands) e10 0);
       k (t3 + t4)) b ((int ++ 46 :: frac) ++ o).
Proof.
  intros Hs. destruct (0 <? e10) eqn:E; bool_to_prop.
  - destruct (digits_loop_sends (Z.to_nat (sig + e10)) (mantissa (sig + e10)) e10) as (ds & Hl & Hd & Hx).
    rewrite (proj2 (Z.leb_le 1 e10)), (proj2 (Z.leb_le e10 _)) in Hx by lia. cbn [andb] in Hx.
    exists (take (Z.to_nat e10) ds), (drop (Z.to_nat e10) ds). split_and!.
    + by apply Forall_take.
    + rewrite length_take. lia.
    + by apply Forall_drop.
    + rewrite length_drop. lia.
    + intros k b o Hk. eapply sends_eq; [|done|].
      * eapply sends_bind; [apply sends_ret|]. cbv beta iota. eapply sends_bind; [apply Hx|].
        rewrite length_app in Hk. cbn [length] in Hk. rewrite length_take, length_drop in Hk.
        replace (0 + (0 + Z.of_nat (Z.to_nat (sig + e10)) + 1)) with
          (Z.of_nat (Z.to_nat e10 `min` length ds + S (length ds - Z.to_nat e10))) by lia.
        exact Hk.
      * done.
  - destruct (digits_loop_sends (Z.to_nat (sig + e10)) (mantissa (sig + e10)) e10) as (ds & Hl & Hd & Hx).
    rewrite (proj2 (Z.leb_gt 1 e10)) in Hx by lia. cbn [andb] in Hx.
    exists [48], (replicate (Z.to_nat (Z.min sig (- e10))) 48 ++ ds). split_and!.
    + apply Forall_singleton. unfold is_digit. lia.
    + simpl. lia.
    + apply Forall_app_2; [|done]. apply Forall_replicate. unfold is_digit. lia.
    + rewrite length_app, length_replicate. lia.
    + intros k b o Hk.
      pose proof (zeros_loop_sends (Z.to_nat (- e10)) sig (Z.of_nat (length [48; 46])) Hs) as Hz.
      rewrite Z2Nat.id in Hz by lia.
      cbn [app] in Hk |- *. change (48 :: 46 :: ?x) with ([48; 46] ++ x).
      eapply sends_eq.
      * eapply sends_bind; [eapply sends_bind; [apply sends_cb|apply Hz]|]. cbv beta iota.
        eapply (sends_bind cb _ _ (Z.of_nat (length ds)) b ds).
        { destruct (sig <=? - e10) eqn:E2; bool_to_prop.
          - destruct ds; [apply sends_ret|simpl in Hl; lia].
          - rewrite Z.min_r by lia. replace (sig - - e10) with (sig + e10) by lia.
            eapply sends_eq; [apply Hx|lia|done]. }
        cbn [length] in Hk |- *. rewrite length_app, length_replicate in Hk.
        replace (Z.of_nat 2 + Z.min sig (- e10) + Z.of_nat (length ds)) with
          (Z.of_nat (S (S (Z.to_nat (Z.min sig (- e10)) + length ds)))) by lia. exact Hk.
      * done.
      * by rewrite <- !app_assoc.
Qed.
End Float.

(** ** Callbacks that count differently

    The engine only adds up what the callback returns: two callbacks that change their
    state alike end in the same state, whatever they return. *)
Section Counts.
Context {St : Type} (cb cb' : fmtcb St).

Definition sim {A} (R : A → A → Prop) (m m' : emit St A) : Prop := ∀ st,
  match m st, m' st with
  | Ret (a, s), Ret (a', s') => R a a' ∧ s = s'
  | Fault f, Fault f' => f = f'
  | _, _ => False
  end.
Definition any (a a' : Z) : Prop := True.

Context (cb_sim : ∀ s, sim any (cb s) (cb' s)).

Lemma sim_refl {A} (R : A → A → Prop) m : (∀ a, R a a) → sim R m m.
Proof. intros H st. destruct (m st) as [[a s]|f]; auto. Qed.

Lemma sim_weak {A} (R R' : A → A → Prop) m m' : (∀ a a', R a a' → R' a a') → sim R m m' → sim R' m m'.
Proof. intros H Hs st. specialize (Hs st). destruct (m st) as [[??]|], (m' st) as [[??]|]; naive_solver. Qed.

Lemma sim_ret {A} (R : A → A → Prop) a a' : R a a' → sim R (mret a) (mret a').
Proof. intros H st. by split. Qed.

Lemma sim_bind {A B} (R : A → A → Prop) (R' : B → B → Prop) (m m' : emit St A) k k' :
  sim R m m' → (∀ a a', R a a' → sim R' (k a) (k' a')) → sim R' (m ≫= k) (m' ≫= k').
Proof.
  intros Hm Hk st. unfold mbind, emit_bind. specialize (Hm st).
  destruct (m st) as [[a s]|f], (m' st) as [[a' s']|f']; try done.
  destruct Hm as [HR ->]. apply (Hk a a' HR).
Qed.

(** Behind a callback or a helper whose result is only added up. *)
Lemma sim_count {B} (R : B → B → Prop) (m m' : emit St Z) k k' :
  sim any m m' → (∀ a a', sim R (k a) (k' a')) → sim R (m ≫= k) (m' ≫= k').
Proof. intros Hm Hk. eapply sim_bind; [exact Hm|]. intros a a' _. apply Hk. Qed.

(** Behind a step that does not involve the callback. *)
Lemma sim_same {A B} (R : B → B → Prop) (m : emit St A) k k' :
  (∀ a, sim R (k a) (k' a)) → sim R (m ≫= k) (m ≫= k').
Proof. intros Hk. eapply sim_bind; [apply (sim_refl eq); done|]. intros a a' ->. apply Hk. Qed.

Lemma cb_obj_sim mem off n : sim any (cb_obj cb mem off n) (cb_obj cb' mem off n).
Proof. intros st. unfold cb_obj. destruct (rd mem off n) as [bs|f]; [apply cb_sim|done]. Qed.

Ltac sim :=
  cbv zeta;
  lazymatch goal with
  | |- sim _ (mret _) (mret _) => apply sim_ret; try done
  | |- sim _ (match ?x with _ => _ end) (match ?x with _ => _ end) => destruct x; sim
  | |- sim _ (mbind _ ?m) (mbind _ ?m) => apply sim_same; intros ?; sim
  | |- sim _ (mbind _ _) (mbind _ _) => apply sim_count; [sim|intros ? ?; sim]
  | |- sim _ ?m ?m => apply sim_refl; try done
  | |- _ => eauto using cb_obj_sim
  end.

Lemma repeat_loop_sim n c : sim eq (repeat_loop cb n c) (repeat_loop cb' n c).
Proof. induction n; cbn [repeat_loop]; sim. Qed.

Lemma emit_repeated_char_sim len c : sim any (emit_repeated_char cb len c) (emit_repeated_char cb' len c).
Proof.
  unfold emit_repeated_char. case_match; [by apply sim_ret|].
  eapply sim_bind; [apply repeat_loop_sim|]. intros. by apply sim_ret.
Qed.
Hint Resolve emit_repeated_char_sim : core.

Lemma emit_str_sim str fp : sim any (emit_str cb str fp) (emit_str cb' str fp).
Proof. unfold emit_str. sim. Qed.

Lemma hexdump_loop_sim data fp len n : ∀ i t t',
  sim any (hexdump_loop cb data fp len i t n) (hexdump_loop cb' data fp len i t' n).
Proof. induction n as [|n IH]; intros i t t'; cbn [hexdump_loop]; sim. Qed.

Lemma emit_intstr_sim fp neg buf digits :
  sim any (emit_intstr cb fp neg buf digits) (emit_intstr cb' fp neg buf digits).
Proof. unfold emit_intstr. sim. Qed.

Lemma pad_loop_sim n c : ∀ t t', sim any (pad_loop cb n c t) (pad_loop cb' n c t').
Proof. induction n as [|n IH]; intros t t'; cbn [pad_loop]; sim. Qed.
Hint Resolve emit_str_sim hexdump_loop_sim emit_intstr_sim pad_loop_sim : core.

Lemma emit_u32_sim fp neg x : sim any (emit_u32 cb fp neg x) (emit_u32 cb' fp neg x).
Proof. unfold emit_u32. sim. Qed.
Lemma emit_u64_sim fp neg x : sim any (emit_u64 cb fp neg x) (emit_u64 cb' fp neg x).
Proof. unfold emit_u64. sim. Qed.
Lemma emit_x_sim buf digits fp : sim any (emit_x cb buf digits fp) (emit_x cb' buf digits fp).
Proof. unfold emit_x. sim. Qed.
Hint Resolve emit_u32_sim emit_u64_sim emit_x_sim : core.
Lemma emit_s32_sim fp x : sim any (emit_s32 cb fp x) (emit_s32 cb' fp x).
Proof. unfold emit_s32. sim. Qed.
Lemma emit_s64_sim fp x : sim any (emit_s64 cb fp x) (emit_s64 cb' fp x).
Proof. unfold emit_s64. sim. Qed.
Lemma emit_x32_sim x fp : sim any (emit_x32 cb x fp) (emit_x32 cb' x fp).
Proof. unfold emit_x32. sim. Qed.
Lemma emit_x64_sim x fp : sim any (emit_x64 cb x fp) (emit_x64 cb' x fp).
Proof. unfold emit_x64. sim. Qed.

(** The zeros tell how many significant digits are left. *)
Definition zeros_rel (a a' : Z * Z * bool) : Prop := a.1.1 = a'.1.1 ∧ a.2 = a'.2.
Lemma zeros_loop_sim n : ∀ sg t t', sim zeros_rel (zeros_loop cb n sg t) (zeros_loop cb' n sg t').
Proof. induction n as [|n IH]; intros sg t t'; cbn [zeros_loop]; sim. Qed.
Lemma digits_loop_sim n : ∀ m e t t', sim any (digits_loop cb n m e t) (digits_loop cb' n m e t').
Proof. induction n as [|n IH]; intros m e t t'; cbn [digits_loop]; sim. Qed.
Hint Resolve emit_s32_sim emit_s64_sim emit_x32_sim emit_x64_sim digits_loop_sim : core.

Lemma float_to_str_sim bits fp : sim any (float_to_str cb bits fp) (float_to_str cb' bits fp).
Proof.
  unfold float_to_str. case_match; [sim|]. apply sim_same. intros [mant e10]. cbv zeta.
  apply sim_count; [sim|intros ? ?]. apply sim_count; [sim|intros ? ?].
  apply (sim_bind zeros_rel).
  - case_match; [by apply sim_ret|]. apply sim_count; [sim|]. intros. apply zeros_loop_sim.
  - intros [[sg t] d] [[sg' t'] d'] [Es Ed]. cbn in Es, Ed. subst. sim.
Qed.
Hint Resolve float_to_str_sim : core.

Definition conv_rel (a a' : Z * list arg) : Prop := a.2 = a'.2.
Lemma convert_sim long64 c fp is64 ap :
  sim conv_rel (convert cb long64 c fp is64 ap) (convert cb' long64 c fp is64 ap).
Proof. unfold convert, emit_hexdump. repeat case_match; sim. Qed.

Lemma fmt_loop_sim long64 fuel : ∀ s fmt ap t t',
  sim any (fmt_loop cb long64 fuel s fmt ap t) (fmt_loop cb' long64 fuel s fmt ap t').
Proof.
  induction fuel as [|fuel IH]; intros s fmt ap t t'; cbn [fmt_loop]; [sim|].
  case_match; [sim|]. cbv zeta. case_match; [apply IH|].
  apply sim_count; [sim|]. intros x x'. apply sim_same. intros [[[fp is64] fmt'] ap'].
  case_match; (eapply sim_bind; [apply convert_sim|]).
  - intros [y ap1] [y' ap2] E. apply sim_refl. done.
  - intros [y ap1] [y' ap2] E. unfold conv_rel in E; cbn in E. subst. apply IH.
Qed.

Lemma fmtv_sim long64 fmt ap : sim any (fmtv cb long64 fmt ap) (fmtv cb' long64 fmt ap).
Proof. apply fmt_loop_sim. Qed.
End Counts.

(** ** Properties *)

(** C19: formatting is complete on a 32-bit build: for every format made of text and
    directives, each with an optional flag (zero, minus or plus), width and precision
    below 32768 and one of the conversions %%, c, s (also of NULL), x, d, u, their ll
    forms, I (an IPv4 address) and p, and matching arguments in the range of their type,
    [fmtv] ends, sends the concatenation of the directives' texts to the callback, and
    returns its length, whatever the callback is.  Not covered: %f, a width or precision
    taken from the arguments, the lengths z and single l, and the hex dump. *)
Theorem fmtv_correct {St} (cb : fmtcb St) `{!FmtSink cb} ds ap :
  Forall dir_ok ds →
  emits cb (fmtv cb false (concat (dir_text <$> ds)) (concat (dir_args <$> ds) ++ ap))
    (concat (dir_out <$> ds)).
Proof.
  intros Hds. eapply sends_eq; [|apply Z.add_0_l|apply app_nil_l].
  apply (fmt_loop_sends cb ds _ [] ap 0 Hds). lia.
Qed.

Lemma sn_ok_init str sz : 0 <= sz <= Z.of_nat (length str) → sn_ok (SnBuf str sz 0).
Proof. intros. split; cbn [size used ptr]; lia. Qed.

Lemma fmtv_sn ds (str : list Z) sz :
  Forall dir_ok ds → 0 <= sz <= Z.of_nat (length str) →
  fmtv snbuf_cb false (concat (dir_text <$> ds)) (concat (dir_args <$> ds)) (SnBuf str sz 0) =
  Ret (Z.of_nat (length (concat (dir_out <$> ds))),
       sn_absorb (SnBuf str sz 0) (concat (dir_out <$> ds))).
Proof.
  intros Hds Hsz.
  pose proof (fmt_loop_sends snbuf_cb ds (S (length (concat (dir_text <$> ds)))) [] [] 0 Hds
    (Nat.lt_succ_diag_r _)) as H.
  rewrite app_nil_r in H. by apply (H (SnBuf str sz 0)), sn_ok_init.
Qed.

(** [vsnprintf] into an object of the declared size returns the length of the full
    text; when the text is shorter than the buffer, the buffer holds the text, a NUL and
    its old tail; with size 0 nothing is written. *)
Theorem vsnprintf_correct ds str sz :
  Forall dir_ok ds → 0 <= sz <= Z.of_nat (length str) →
  let out := concat (dir_out <$> ds) in
  sz = 0 ∨ Z.of_nat (length out) < sz →
  vsnprintf false str sz (concat (dir_text <$> ds)) (concat (dir_args <$> ds)) =
    Ret (Z.of_nat (length out),
         if sz =? 0 then str else out ++ 0 :: drop (length out + 1) str).
Proof.
  intros Hds Hsz out Hfit. unfold vsnprintf. rewrite (fmtv_sn ds str sz Hds Hsz). fold out.
  cbn [mbind res_bind]. unfold sn_absorb. cbn [size used ptr]. rewrite Z.sub_0_r.
  change (Z.to_nat 0) with 0%nat. cbn [Nat.add take]. cbn [app].
  destruct (Z.eqb_spec sz 0) as [->|Hz].
  - cbn. done.
  - rewrite (proj2 (Z.ltb_lt 0 sz)), (take_ge out), take_0 by lia. cbn [app].
    unfold store. rewrite Z.add_0_l, Nat2Z.id, length_app, length_drop.
    destruct (decide _) as [_|Hn]; [|lia]. cbn [mbind res_bind]. do 2 f_equal.
    destruct (drop (length out) str) as [|c r] eqn:E.
    { apply (f_equal length) in E. rewrite length_drop in E. simpl in E. lia. }
    rewrite <- drop_drop, E, insert_app_r_alt by lia. by rewrite Nat.sub_diag.
Qed.

(** Literal text and strings, decided by evaluation. *)
Lemma text_ok s :
  forallb (λ c, (0 <? c) && (c <? 256) && negb (c =? 37))%bool s = true → dir_ok (DText s).
Proof.
  intros H. cbn [dir_ok]. apply Forall_forall. intros c Hc.
  rewrite forallb_forall in H. specialize (H c Hc). bool_to_prop. lia.
Qed.

Lemma cstr_chars s : forallb (λ c, (0 <? c) && (c <? 256))%bool s = true → cstr s.
Proof.
  intros H. apply Forall_forall. intros c Hc.
  rewrite forallb_forall in H. specialize (H c Hc). bool_to_prop. unfold is_char. lia.
Qed.

Definition demo_directives : list directive :=
  [DText (lit "v="); DConv FlagNone (Some 5) None (VDec32 (-42)); DText (lit " ");
   DConv FlagZero (Some 8) None (VHex32 48879); DConv FlagMinus (Some 4) None (VStr [97; 98; 0] [97; 98]);
   DConv FlagNone None None (VIpv4 16777343)].

Lemma demo_directives_ok : Forall dir_ok demo_directives.
Proof.
  unfold demo_directives, is_u32. repeat apply Forall_cons_2; [..|apply Forall_nil_2];
    cbn [dir_ok conv_ok]; unfold is_u32; split_and?;
    first [done | lia | apply text_ok; reflexivity | apply cstr_chars; reflexivity | by exists []].
Qed.

Example fmtv_correct_witness :
  fmtv snbuf_cb false (lit "v=%5d %08x%-4s%Id") [AInt (-42); AInt 48879; AStr (Some [97; 98; 0]); AInt 16777343]
    (SnBuf (replicate 64 255) 64 0) =
  Ret (Z.of_nat 29, SnBuf (lit "v=  -42 0000beefab  127.0.0.1" ++ replicate 35 255) 64 29).
Proof.
  exact (fmtv_correct snbuf_cb demo_directives [] demo_directives_ok (SnBuf (replicate 64 255) 64 0)
           (sn_ok_init (replicate 64 255) 64 ltac:(cbn; lia))).
Defined.

Example vsnprintf_correct_witness :
  vsnprintf false (replicate 32 255) 32 (lit "v=%5d %08x%-4s%Id")
    [AInt (-42); AInt 48879; AStr (Some [97; 98; 0]); AInt 16777343] =
  Ret (29, lit "v=  -42 0000beefab  127.0.0.1" ++ [0; 255; 255]).
Proof.
  exact (vsnprintf_correct demo_directives (replicate 32 255) 32 demo_directives_ok
           ltac:(cbn; lia) ltac:(right; reflexivity)).
Defined.

(** A text at least as long as the buffer makes [vsnprintf] store its terminator
    behind the end: the byte at index [size] of an object of [size] bytes. *)
Theorem vsnprintf_terminator_overflow ds str :
  Forall dir_ok ds → str ≠ [] → (length str <= length (concat (dir_out <$> ds)))%nat →
  vsnprintf false str (Z.of_nat (length str)) (concat (dir_text <$> ds)) (concat (dir_args <$> ds))
    = Fault OutOfBounds.
Proof.
  intros Hds Hne Hlen. unfold vsnprintf. rewrite (fmtv_sn ds str _ Hds) by lia.
  set (out := concat (dir_out <$> ds)) in *. cbn [mbind res_bind]. unfold sn_absorb.
  cbn [size used ptr]. rewrite Z.sub_0_r, Nat2Z.id.
  destruct str as [|c str]; [done|]. rewrite (proj2 (Z.ltb_lt 0 _)) by (simpl; lia).
  change (Z.to_nat 0) with 0%nat. cbn [Nat.add]. rewrite take_0. cbn [app].
  unfold store. rewrite Z.add_0_l, Nat2Z.id, length_app, length_drop, length_take.
  destruct (decide _) as [Hd|_]; [lia|done].
Qed.

Example vsnprintf_terminator_overflow_witness :
  vsnprintf false (replicate 4 0) 4 (lit "%04x") [AInt 48879] = Fault OutOfBounds.
Proof.
  exact (vsnprintf_terminator_overflow [DConv FlagZero (Some 4) None (VHex32 48879)] (replicate 4 0)
    ltac:(apply Forall_singleton; cbn [dir_ok conv_ok]; unfold is_u32; lia) ltac:(done)
    ltac:(vm_compute; lia)).
Defined.

(** [%f] ends for every finite double and prints the sign, the integer digits, a
    point and exactly the requested number of decimals (6 by default), padded on the
    requested side by at most what the width leaves. *)
Theorem float_to_str_shape {St} (cb : fmtcb St) `{!FmtSink cb} bits fp :
  0 <= bits < 2 ^ 64 → Z.land (Z.shiftr bits 52) 2047 ≠ 2047 → fp_ok fp →
  ∃ p int frac,
    let body := sign_text (Z.testbit bits 63) fp ++ int ++ 46 :: frac in
    emits cb (float_to_str cb bits fp)
      (if la fp then body ++ replicate p 32 else replicate p 32 ++ body) ∧
    Forall is_digit int ∧ int ≠ [] ∧ Forall is_digit frac ∧
    Z.of_nat (length frac) = (if 0 <? decimals fp then decimals fp else 6) ∧
    Z.of_nat p <= Z.max 0 (width fp - Z.of_nat (length body)).
Proof.
  intros Hb Hfin [Hw Hd]. set (sign := Z.testbit bits 63).
  destruct (flt_normalise_ret bits Hb) as (m & e10 & Hn & Hm & He).
  set (sig := if 0 <? decimals fp then decimals fp else 6).
  assert (0 < sig < 32768) as Hsig by (unfold sig; case_match; bool_to_prop; lia).
  pose proof (flt_count_bound sign e10 sig fp ltac:(lia)) as Hc.
  set (count := flt_count_output_chars sign e10 sig fp) in *.
  destruct (flt_body_sends cb (λ s, u64 (m + div10_loop (Z.to_nat s) (2 ^ 59))) e10 sig ltac:(lia))
    as (int & frac & Hi & Hil & Hf & Hfl & Hk).
  assert (count <= 100000) as Hcu.
  { unfold count, flt_count_output_chars. rewrite !count_loop_spec. repeat case_match; bool_to_prop; lia. }
  assert (s32 (width fp - count) = width fp - count) as Hs by (apply s32_id; lia).
  exists (Z.to_nat (width fp - count)), int, frac.
  assert (Z.of_nat (length (sign_text sign fp ++ int ++ 46 :: frac)) <= count) as Hlen.
  { rewrite !length_app. cbn [length]. lia. }
  split_and!; [|done|by intros ->; simpl in Hil; lia|done|done|lia].
  assert (emits cb (if sign then cb [45] else if plus fp then cb [43]
           else if sign_pad fp then cb [32] else mret 0) (sign_text sign fp)) as Hsg.
  { unfold sign_text. repeat case_match; first [apply sends_cb|apply sends_ret]. }
  unfold float_to_str. rewrite (proj2 (Z.eqb_neq _ 2047)) by done. fold sign sig.
  eapply sends_eq; [|done|apply app_nil_l].
  eapply sends_bind; [exact (sends_lift cb (flt_normalise bits) (m, e10) Hn)|].
  cbv beta iota. fold count. rewrite Hs. destruct (la fp).
  - eapply sends_eq.
    + eapply sends_bind; [apply sends_ret|]. eapply sends_bind; [exact Hsg|].
      apply (Hk (λ t, t5 ← emit_repeated_char cb (width fp - count) 32;
                      mret (0 + Z.of_nat (length (sign_text sign fp)) + t + t5))).
      eapply sends_bind; [apply emit_repeated_char_emits|apply sends_ret].
    + rewrite !length_app. lia.
    + by rewrite app_nil_r, <- !app_assoc.
  - eapply sends_eq.
    + eapply sends_bind; [apply emit_repeated_char_emits|]. eapply sends_bind; [exact Hsg|].
      apply (Hk (λ t, t5 ← mret 0;
                      mret (Z.of_nat (length (replicate (Z.to_nat (width fp - count)) 32)) +
                            Z.of_nat (length (sign_text sign fp)) + t + t5))).
      eapply sends_bind; [apply sends_ret|apply sends_ret].
    + rewrite !length_app. lia.
    + by rewrite !app_nil_r.
Qed.

Definition pi_bits : Z := 4614256656552045848.
Definition fp_default (w d : Z) : fmtparam := FmtParam w d false false false false false.

(** Printing [M_PI] with [%8.2f]. *)
Example float_to_str_shape_witness :
  float_to_str snbuf_cb pi_bits (fp_default 8 2) (SnBuf (replicate 12 0) 12 0)
    = Ret (8, SnBuf (lit "    3.14" ++ [0; 0; 0; 0]) 12 8) ∧
  ∃ p int frac,
    let body := sign_text (Z.testbit pi_bits 63) (fp_default 8 2) ++ int ++ 46 :: frac in
    emits snbuf_cb (float_to_str snbuf_cb pi_bits (fp_default 8 2)) (replicate p 32 ++ body) ∧
    Forall is_digit int ∧ int ≠ [] ∧ Forall is_digit frac ∧ Z.of_nat (length frac) = 2 ∧
    Z.of_nat p <= Z.max 0 (8 - Z.of_nat (length body)).
Proof.
  split; [vm_compute; reflexivity|].
  exact (float_to_str_shape snbuf_cb pi_bits (fp_default 8 2) ltac:(unfold pi_bits; lia)
           ltac:(vm_compute; discriminate) ltac:(split; cbn; lia)).
Defined.

(** Leading zeros do not change a value. *)
Lemma dec_value_zeros p ds : dec_value (replicate p 48 ++ ds) = dec_value ds.
Proof. unfold dec_value. rewrite foldl_app. f_equal. by induction p. Qed.

Lemma hex_value_zeros p ds : hex_value (replicate p 48 ++ ds) = hex_value ds.
Proof. unfold hex_value. rewrite foldl_app. f_equal. by induction p. Qed.

(** [atoi] on blanks, an optional minus, digits. *)
Lemma atoi_parses p neg ds rest :
  Forall is_digit ds → ds ≠ [] → ¬ is_digit (deref rest) → dec_value ds < 2147483648 →
  atoi (replicate p 32 ++ (if neg : bool then [45] else []) ++ ds ++ rest) =
    if neg then - dec_value ds else dec_value ds.
Proof.
  intros Hd Hne Hr Hv. destruct ds as [|c ds]; [done|].
  apply Forall_cons_1 in Hd as Hd'. destruct Hd' as [Hc _]. unfold is_digit in Hc.
  pose proof (dec_value_mono (c :: ds) 0 Hd) as Hge. fold (dec_value (c :: ds)) in Hge.
  pose proof (dec_loop_exact (c :: ds) s32 2147483648 rest 0 (λ z Hz, s32_id z ltac:(lia)) Hd
    ltac:(lia) Hr Hv) as Hl.
  fold (dec_value (c :: ds)) in Hl. unfold atoi, ato.
  assert (Forall (λ c, 0 < c <= 32) (replicate p 32)) by (apply Forall_replicate; lia).
  rewrite skip_blank_app by (try done; destruct neg; simpl; lia). destruct neg.
  - cbn [app deref tail]. change (45 =? 0) with false. change (45 =? 45) with true. cbv iota.
    change (c :: ds ++ rest) with ((c :: ds) ++ rest). rewrite Hl. rewrite s32_id by lia. lia.
  - cbn [app deref]. rewrite (proj2 (Z.eqb_neq c 0)), (proj2 (Z.eqb_neq c 45)) by lia.
    change (c :: ds ++ rest) with ((c :: ds) ++ rest). rewrite Hl. rewrite s32_id by lia. lia.
Qed.

(** Numbers printed by [%d] and [%x] are read back by [atoi] and [xtoi], for every
    width and flag, followed by anything that is no digit: all of [int] but its smallest
    value, and all of [unsigned int].  A zero-padded [%d] needs a value that is not
    negative, a padded [%x] needs the zero flag. *)
Theorem printed_numbers_parse fl w rest :
  match w with Some w => 0 < w < 32768 | None => True end →
  (∀ v, -2147483648 < v < 2147483648 → (fl = FlagZero → 0 <= v) → ¬ is_digit (deref rest) →
    atoi (dir_out (DConv fl w None (VDec32 v)) ++ rest) = v) ∧
  (∀ v, is_u32 v → w = None ∨ fl = FlagZero → conv_hex_to_nibble (deref rest) = -1 →
    xtoi (dir_out (DConv fl w None (VHex32 v)) ++ rest) = v).
Proof.
  intros Hw. split.
  - intros v Hv Hz Hr. cbn [dir_out]. unfold signed_text, int_text.
    set (fp := dir_param fl w None (VDec32 v)).
    assert (∀ neg x, 0 <= x < 2147483648 → (fl = FlagZero → neg = false) →
      atoi (padded (la fp) (if lz fp then 48 else 32) (width fp)
              ((if neg : bool then [45] else []) ++ dec_str x) ++ rest) = if neg then - x else x) as H.
    { intros neg x Hx Hneg. unfold padded. set (p := Z.to_nat _).
      pose proof (dec_str_digits x ltac:(lia)) as Hds. pose proof (dec_str_nonempty x) as Hne.
      pose proof (dec_str_value x ltac:(lia)) as Hval.
      destruct (la fp) eqn:Ela.
      - rewrite <- !app_assoc.
        etransitivity; [apply (atoi_parses 0 neg (dec_str x) (replicate p 32 ++ rest))|by rewrite Hval];
          [done|done| |lia].
        destruct p; simpl; [done|unfold is_digit; lia].
      - destruct fl; cbn [fp lz dir_param].
        1,3,4: rewrite <- !app_assoc; rewrite (atoi_parses p neg (dec_str x) rest); [by rewrite Hval|done..|lia].
        rewrite (Hneg eq_refl). cbn [app].
        etransitivity; [apply (atoi_parses 0 false (replicate p 48 ++ dec_str x) rest)|by rewrite dec_value_zeros].
        + apply Forall_app_2; [apply Forall_replicate; unfold is_digit; lia|done].
        + by intros [_ ?]%app_eq_nil.
        + done.
        + rewrite dec_value_zeros. lia. }
    destruct (v <? 0) eqn:E; bool_to_prop.
    + rewrite (H true (- v)); [lia|lia|]. intros Hf. specialize (Hz Hf). lia.
    + apply (H false v); [lia|done].
  - intros v Hv Hpad Hr. cbn [dir_out]. unfold hex_text, padded.
    set (fp := dir_param fl w None (VHex32 v)). set (p := Z.to_nat _).
    pose proof (hex_str_digits v) as Hd. pose proof (hex_str_value v) as Hval. unfold is_u32 in Hv.
    assert (replicate p (if lz fp then 48 else 32) = replicate p 48) as ->.
    { destruct Hpad as [->| ->]; [|done]. by assert (p = 0%nat) as -> by (unfold p; cbn; lia). }
    unfold xtoi. rewrite (hex_loop_exact _ u32 4294967296 rest 0).
    + fold (hex_value (replicate p 48 ++ hex_str v)). rewrite hex_value_zeros. apply Hval. lia.
    + intros z Hz. by apply u32_id.
    + apply Forall_app_2; [apply Forall_replicate; done|apply Hd; lia].
    + lia.
    + done.
    + fold (hex_value (replicate p 48 ++ hex_str v)). rewrite hex_value_zeros, Hval; lia.
Qed.

Example printed_numbers_parse_witness :
  atoi (dir_out (DConv FlagMinus (Some 6) None (VDec32 (-77))) ++ [59]) = -77 ∧
  xtoi (dir_out (DConv FlagZero (Some 8) None (VHex32 48879)) ++ [59]) = 48879.
Proof.
  split.
  - apply (proj1 (printed_numbers_parse FlagMinus (Some 6) [59] ltac:(cbn; lia)));
      [lia|discriminate|unfold is_digit; simpl; lia].
  - apply (proj2 (printed_numbers_parse FlagZero (Some 8) [59] ltac:(cbn; lia)));
      [unfold is_u32; lia|by right|reflexivity].
Defined.

(** A zero-padded negative number is printed with the zeros before the sign, and reads
    back as 0. *)
Theorem zero_padded_negative v w :
  -2147483648 <= v < 0 → Z.of_nat (length (dec_str (- v))) + 1 < w < 32768 →
  ∃ p, p ≠ 0%nat ∧
    dir_out (DConv FlagZero (Some w) None (VDec32 v)) = replicate p 48 ++ 45 :: dec_str (- v) ∧
    atoi (dir_out (DConv FlagZero (Some w) None (VDec32 v))) = 0.
Proof.
  intros Hv Hw. set (p := Z.to_nat (w - (Z.of_nat (length (dec_str (- v))) + 1))).
  assert (dir_out (DConv FlagZero (Some w) None (VDec32 v)) = replicate p 48 ++ 45 :: dec_str (- v)) as Hout.
  { cbn [dir_out]. unfold signed_text. rewrite (proj2 (Z.ltb_lt v 0)) by lia.
    unfold int_text, padded. cbn [la lz width dir_param from_option id app].
    f_equal. f_equal. unfold p. cbn [length]. lia. }
  exists p. split_and!; [lia|done|]. rewrite Hout.
  pose proof (atoi_parses 0 false (replicate p 48) (45 :: dec_str (- v))) as Ha.
  cbn [replicate app] in Ha. rewrite Ha.
  - rewrite <- (app_nil_r (replicate p 48)), dec_value_zeros. done.
  - apply Forall_replicate. unfold is_digit. lia.
  - intros E. apply (f_equal length) in E. rewrite length_replicate in E. simpl in E. lia.
  - unfold is_digit. simpl. lia.
  - rewrite <- (app_nil_r (replicate p 48)), dec_value_zeros. done.
Qed.

Example zero_padded_negative_witness :
  ∃ p, p ≠ 0%nat ∧
    dir_out (DConv FlagZero (Some 6) None (VDec32 (-42))) = replicate p 48 ++ 45 :: dec_str (- (-42)) ∧
    atoi (dir_out (DConv FlagZero (Some 6) None (VDec32 (-42)))) = 0.
Proof. apply (zero_padded_negative (-42) 6); [lia|]. vm_compute. split; reflexivity. Defined.

(** A format that ends in a lone [%] takes the loop behind the terminating NUL. *)
Theorem fmtv_trailing_percent {St} (cb : fmtcb St) `{!FmtSink cb} s ap st :
  dir_ok (DText s) → sink_ok st → fmtv cb false (s ++ [37]) ap st = Fault OutOfBounds.
Proof.
  intros Hs Hst. unfold fmtv.
  replace (S (length (s ++ [37]))) with (length s + 2)%nat by (rewrite length_app; simpl; lia).
  pose proof (fmt_loop_text cb s 2 [] [37] ap 0 Hs) as Hl. cbn [app] in Hl. rewrite Hl.
  cbn [fmt_loop deref tail].
  change (37 =? 0) with false. change (negb (37 =? 37)) with false. cbv iota.
  rewrite length_app. cbn [length]. replace (length s + 1 - 0 - 1)%nat with (length s) by lia.
  rewrite take_app_length.
  assert (sends cb (if Nat.eqb (length s) 0 then mret 0 else cb s) (Z.of_nat (length s)) s) as H.
  { destruct s; [apply sends_ret|apply sends_cb]. }
  unfold mbind at 1, emit_bind at 1. rewrite (H st Hst). done.
Qed.

Example fmtv_trailing_percent_witness :
  fmtv snbuf_cb false (lit "100%") [] (SnBuf (replicate 8 0) 8 0) = Fault OutOfBounds.
Proof.
  exact (fmtv_trailing_percent snbuf_cb (lit "100") [] (SnBuf (replicate 8 0) 8 0)
           (text_ok (lit "100") eq_refl) (sn_ok_init (replicate 8 0) 8 ltac:(cbn; lia))).
Defined.

(** Where [long] has 64 bits, [%lld] prints the letter d and takes no argument; a
    precision on [%f] cuts an infinity, and reads behind the literal of a NaN. *)
Example fmt_lld_64bit :
  vsnprintf true (replicate 8 0) 8 (lit "%lld") [ALong 5] = Ret (1, 100 :: replicate 7 0).
Proof. vm_compute. reflexivity. Qed.

Example fmt_inf_precision :
  vsnprintf false (replicate 8 0) 8 (lit "%.2f") [ADouble (2047 * 2 ^ 52)]
    = Ret (2, lit "+i" ++ replicate 6 0) ∧
  vsnprintf false (replicate 8 0) 8 (lit "%.6f") [ADouble (2047 * 2 ^ 52 + 1)] = Fault OutOfBounds.
Proof. split; vm_compute; reflexivity. Qed.

(** The width of [%f] is not reached for small numbers: 1e-10 in a field of 12. *)
Example fmt_small_float_width :
  vsnprintf false (replicate 16 0) 16 (lit "%12.2f") [ADouble 4457293557087583675]
    = Ret (5, lit " 0.00" ++ replicate 11 0).
Proof. vm_compute. reflexivity. Qed.

(** *** Hexadecimal dumps *)

Definition hex_of (data : list Z) : list Z :=
  concat ((λ v, [hexdigit (Z.shiftr v 4); hexdigit (Z.land v 15)]) <$> data).

(** Two digits back to a byte. *)
Fixpoint unhex (l : list Z) : list Z :=
  match l with
  | h :: l :: r => conv_hex_to_nibble h * 16 + conv_hex_to_nibble l :: unhex r
  | _ => []
  end.

Lemma unhex_hex_of data : bytes data → unhex (hex_of data) = data.
Proof.
  induction 1 as [|v data Hv _ IH]; [done|]. unfold is_byte in Hv.
  change (hex_of (v :: data)) with (hexdigit (Z.shiftr v 4) :: hexdigit (Z.land v 15) :: hex_of data).
  cbn [unhex]. rewrite IH. f_equal. change 15 with (2 ^ 4 - 1).
  rewrite land_ones_mod, Z.shiftr_div_pow2 by lia. change (2 ^ 4) with 16.
  rewrite (proj1 (hexdigit_spec (v / 16) ltac:(dlia))), (proj1 (hexdigit_spec (v mod 16) ltac:(dlia))).
  dlia.
Qed.

Lemma store_at pre x post v : store (pre ++ x :: post) (length pre) v = Ret (pre ++ v :: post).
Proof.
  unfold store. destruct (decide _) as [_|H]; [|rewrite length_app in H; simpl in H; lia].
  by rewrite insert_app_r_alt, Nat.sub_diag by lia.
Qed.

Lemma bin2hex_loop_spec data : ∀ pre s,
  (2 * length data + 1 <= length s)%nat →
  bin2hex_loop (pre ++ s) (length pre) data =
    Ret (pre ++ hex_of data ++ 0 :: drop (2 * length data + 1) s).
Proof.
  induction data as [|v data IH]; intros pre s Hl.
  - destruct s as [|x s]; [simpl in Hl; lia|]. cbn [bin2hex_loop]. by rewrite store_at.
  - destruct s as [|x [|y s]]; [simpl in Hl; lia|simpl in Hl; lia|]. cbn [bin2hex_loop].
    rewrite store_at. cbn [mbind res_bind].
    set (h := hexdigit (Z.shiftr v 4)). set (l := hexdigit (Z.land v 15)).
    change (pre ++ h :: y :: s) with (pre ++ [h] ++ y :: s). rewrite app_assoc.
    replace (length pre + 1)%nat with (length (pre ++ [h])) by (rewrite length_app; simpl; lia).
    rewrite store_at. cbn [mbind res_bind].
    replace ((pre ++ [h]) ++ l :: s) with ((pre ++ [h; l]) ++ s) by by rewrite <- !app_assoc.
    replace (length pre + 2)%nat with (length (pre ++ [h; l])) by (rewrite length_app; simpl; lia).
    rewrite IH by (simpl in Hl; lia). rewrite <- app_assoc.
    replace (2 * length (v :: data) + 1)%nat with (S (S (2 * length data + 1))) by (simpl; lia). done.
Qed.

(** [bin2hex] fills twice the input's length plus a NUL, leaves the rest of the
    destination alone, and two digits at a time read back as the input. *)
Theorem bin2hex_correct s data :
  bytes data → (2 * length data + 1 <= length s)%nat →
  ∃ hex, bin2hex s data = Ret (hex ++ 0 :: drop (2 * length data + 1) s) ∧
    length hex = (2 * length data)%nat ∧ unhex hex = data.
Proof.
  intros Hd Hl. exists (hex_of data). split_and!.
  - apply (bin2hex_loop_spec data [] s Hl).
  - clear. induction data as [|v data IH]; [done|].
    change (hex_of (v :: data)) with (hexdigit (Z.shiftr v 4) :: hexdigit (Z.land v 15) :: hex_of data).
    simpl. rewrite IH. lia.
  - by apply unhex_hex_of.
Qed.

Example bin2hex_correct_witness :
  ∃ hex, bin2hex (replicate 6 255) [222; 173] = Ret (hex ++ 0 :: drop 5 (replicate 6 255)) ∧
    length hex = 4%nat ∧ unhex hex = [222; 173].
Proof. apply (bin2hex_correct (replicate 6 255) [222; 173]); [repeat constructor; lia|simpl; lia]. Defined.

Lemma sthexstr_sends {St} (write : list Z → emit St Z) `{!StreamSink write} data :
  sends (stream_fmt write) (sthexstr write data) tt (hex_of data).
Proof.
  induction data as [|v data IH]; [apply sends_ret|]. cbn [sthexstr].
  intros st Hst. unfold mbind, emit_bind.
  destruct (str_writes st [hexdigit (Z.shiftr v 4); hexdigit (Z.land v 15)] Hst) as [n ->].
  rewrite (IH _ (str_absorb_ok _ _ Hst)). f_equal. f_equal. by apply str_absorb_app.
Qed.

(** *** Flag names *)

Fixpoint selected (i flags : Z) (names : list (list Z)) : list (list Z) :=
  match names with
  | [] => []
  | n :: r => (if Z.testbit flags i then [n] else []) ++ selected (i + 1) flags r
  end.
Fixpoint join (need : bool) (sep : list Z) (l : list (list Z)) : list Z :=
  match l with
  | [] => []
  | x :: r => (if need then sep else []) ++ x ++ join true sep r
  end.

Lemma flags_loop_sends {St} (write : list Z → emit St Z) `{!StreamSink write} sep flags names :
  ∀ fuel i need,
  cstr sep → Forall (λ n, cstr n ∧ n ≠ []) names →
  (length (concat ((λ n, n ++ [0%Z]) <$> names)) < fuel)%nat →
  sends (stream_fmt write)
    (flags_loop write fuel (concat ((λ n, n ++ [0]) <$> names) ++ [0]) i flags sep need)
    tt (join need sep (selected i flags names)).
Proof.
  intros fuel i need Hsep Hn. revert fuel i need.
  induction Hn as [|n names [Hc Hne] Hn IH]; intros fuel i need Hf.
  { destruct fuel; [simpl in Hf; lia|]. apply sends_ret. }
  destruct fuel as [|fuel]; [lia|].
  assert (concat ((λ n, n ++ [0]) <$> n :: names) ++ [0] =
          n ++ 0 :: (concat ((λ n, n ++ [0]) <$> names) ++ [0])) as ->.
  { cbn [fmap list_fmap concat]. by rewrite <- !app_assoc. }
  assert (length (concat ((λ n, n ++ [0%Z]) <$> names)) < fuel)%nat as Hf'.
  { cbn [fmap list_fmap concat] in Hf. rewrite !length_app in Hf. simpl in Hf. lia. }
  set (R := concat ((λ n, n ++ [0]) <$> names) ++ [0]) in *.
  cbn [flags_loop selected]. rewrite strlen_cstr by done.
  rewrite (strlen_pure sep), (take_ge sep), take_app_length by done.
  assert (Nat.eqb (length n) 0 = false) as -> by (destruct n; done).
  assert (drop (length n + 1) (n ++ 0 :: R) = R) as ->.
  { change (n ++ 0 :: R) with (n ++ [0] ++ R). rewrite app_assoc.
    replace (length n + 1)%nat with (length (n ++ [0])) by (rewrite length_app; simpl; lia).
    apply drop_app_length. }
  destruct (Z.testbit flags i); cbn [app join].
  - intros st Hst. unfold mbind, emit_bind.
    destruct need.
    + destruct (str_writes st sep Hst) as [k1 ->].
      destruct (str_writes _ n (str_absorb_ok _ sep Hst)) as [k2 ->]. cbv beta iota.
      unfold mret, emit_ret.
      rewrite (IH fuel (i + 1) true Hf' _ (str_absorb_ok _ n (str_absorb_ok _ sep Hst))).
      f_equal. f_equal. cbn [absorb stream_fmt_sink].
      rewrite !str_absorb_app by (try apply str_absorb_ok; done). by rewrite <- ?app_assoc.
    + unfold mret, emit_ret. destruct (str_writes st n Hst) as [k2 ->]. cbv beta iota.
      rewrite (IH fuel (i + 1) true Hf' _ (str_absorb_ok _ n Hst)).
      cbn [absorb stream_fmt_sink]. by rewrite str_absorb_app.
  - intros st Hst. unfold mbind, emit_bind, mret, emit_ret. apply IH; done.
Qed.

(** [stprintflags] prints the names of the bits that are set, in order, with the
    separator between them. *)
Theorem stprintflags_correct {St} (write : list Z → emit St Z) `{!StreamSink write} names flags sep :
  cstr sep → Forall (λ n, cstr n ∧ n ≠ []) names → (length names <= 32)%nat →
  sends (stream_fmt write) (stprintflags write (concat ((λ n, n ++ [0]) <$> names) ++ [0]) flags sep)
    tt (join false sep (selected 0 flags names)).
Proof.
  intros Hsep Hn _. apply flags_loop_sends; [done|done|]. rewrite length_app. simpl. lia.
Qed.

(** A stream that keeps what is written. *)
Definition list_write (bs : list Z) : emit (list Z) Z := λ st, Ret (Z.of_nat (length bs), st ++ bs).
#[export] Program Instance list_write_sink : StreamSink list_write :=
  {| str_ok := λ _, True; str_absorb := λ st bs, st ++ bs |}.
Next Obligation. intros. by exists (Z.of_nat (length s)). Qed.
Next Obligation. done. Qed.
Next Obligation. intros. apply app_nil_r. Qed.
Next Obligation. intros. by rewrite app_assoc. Qed.

Example stprintflags_correct_witness :
  stprintflags list_write (lit "up" ++ [0] ++ lit "lo" ++ [0] ++ lit "mc" ++ [0] ++ [0]) 5 (lit ", ") []
    = Ret (tt, lit "up, mc").
Proof.
  exact (stprintflags_correct list_write [lit "up"; lit "lo"; lit "mc"] 5 (lit ", ")
    (cstr_chars (lit ", ") eq_refl)
    ltac:(repeat apply Forall_cons_2; [..|apply Forall_nil_2]; (split; [by apply cstr_chars|done]))
    ltac:(simpl; lia) [] I).
Defined.

(** *** Rows of [sthexdump] *)

Section HexRows.
Context {St : Type} (write : list Z → emit St Z) `{!StreamSink write}.
#[local] Abbreviation out := (stream_fmt write).

Lemma stprintf_sends fmt args ds :
  lit fmt = concat (dir_text <$> ds) → args = concat (dir_args <$> ds) → Forall dir_ok ds →
  emits out (stprintf write false fmt args) (concat (dir_out <$> ds)).
Proof.
  intros Hf -> Hds. unfold stprintf, vstprintf. rewrite Hf.
  pose proof (fmt_loop_sends out ds (S (length (concat (dir_text <$> ds)))) [] [] 0 Hds
    (Nat.lt_succ_diag_r _)) as H.
  rewrite app_nil_r in H. exact H.
Qed.

Lemma hex_byte_out v : is_byte v →
  length (dir_out (DConv FlagZero (Some 2) None (VHex32 v))) = 2%nat.
Proof.
  intros Hv. apply Nat.eqb_eq.
  revert v Hv. apply (byte_enum (λ v, Nat.eqb (length (dir_out (DConv FlagZero (Some 2) None (VHex32 v)))) 2)).
  vm_compute. reflexivity.
Qed.

Lemma hex_row_sends row : ∀ j, bytes row →
  ∃ o, sends out (hex_row write false row j) tt o ∧
    Z.of_nat (length o) = 3 * Z.of_nat (length row) +
      b2z ((j <=? 8) && (8 <? j + Z.of_nat (length row)))%bool.
Proof.
  induction row as [|v row IH]; intros j Hb.
  { exists []. split; [apply sends_ret|]. simpl. rewrite Z.add_0_r.
    destruct (j <=? 8) eqn:E1, (8 <? j) eqn:E2; bool_to_prop; simpl; lia. }
  apply Forall_cons_1 in Hb as [Hv Hb]. destruct (IH (j + 1) Hb) as (o & Ho & Hl).
  set (pre := if j =? 8 then [32] else []).
  set (ds := [DConv FlagNone None None (VStr (pre ++ [0]) pre);
              DConv FlagZero (Some 2) None (VHex32 v); DText [32]]).
  assert (emits out (stprintf write false "%s%02x " [AStr (cobj pre); AInt v]) (concat (dir_out <$> ds))) as Hs.
  { apply stprintf_sends; [done|done|]. unfold ds.
    apply Forall_cons_2; [|apply Forall_cons_2; [|apply Forall_singleton]].
    - cbn [dir_ok conv_ok]. split_and!; [done|done|unfold pre; case_match; simpl; lia| |by exists []].
      unfold pre. case_match; [|constructor]. apply Forall_singleton. unfold is_char. lia.
    - cbn [dir_ok conv_ok]. unfold is_u32, is_byte in *. lia.
    - by apply text_ok. }
  eexists. split.
  { cbn [hex_row]. eapply sends_bind; [exact Hs|exact Ho]. }
  rewrite length_app, Nat2Z.inj_add, Hl. unfold ds.
  cbn [fmap list_fmap concat]. rewrite !length_app, hex_byte_out by done.
  assert (length (dir_out (DConv FlagNone None None (VStr (pre ++ [0]) pre))) = length pre) as ->.
  { cbn [dir_out]. unfold str_text, padded. cbn. replace (Z.to_nat _) with 0%nat by lia. done. }
  assert (Z.of_nat (length pre) = b2z (j =? 8)) as Hp by (unfold pre; by destruct (j =? 8)).
  cbn [length dir_out]. rewrite !Nat2Z.inj_add, Hp. cbn [length].
  destruct (j =? 8) eqn:E0, (j + 1 <=? 8) eqn:E1, (8 <? j + 1 + Z.of_nat (length row)) eqn:E2,
    (j <=? 8) eqn:E3, (8 <? j + Z.of_nat (S (length row))) eqn:E4; bool_to_prop; cbn [andb b2z]; lia.
Qed.

Lemma blanks_sends n : sends out (blanks write false n) tt (replicate n 32).
Proof.
  induction n as [|n IH]; [apply sends_ret|]. cbn [blanks].
  change (replicate (S n) 32) with ([32] ++ replicate n 32).
  eapply sends_bind; [|exact IH].
  apply (stprintf_sends " " [] [DText [32]]); [done|done|]. apply Forall_singleton. by apply text_ok.
Qed.

(** The character column of a dump starts at column 52 behind the offset, but one
    earlier in a row of exactly 8 bytes. *)
Theorem sthexdump_columns row :
  bytes row → (length row <= 16)%nat →
  let j := Z.of_nat (length row) in
  ∃ o, sends out
      (_ ← hex_row write false row 0; blanks write false (Z.to_nat ((17 - j) * 3 + b2z (j <? 8)))) tt o ∧
    Z.of_nat (length o) = if j =? 8 then 51 else 52.
Proof.
  intros Hb Hl j. destruct (hex_row_sends row 0 Hb) as (o & Ho & Hlo). fold j in Hlo.
  eexists. split; [eapply sends_bind; [exact Ho|apply blanks_sends]|].
  rewrite length_app, length_replicate, Nat2Z.inj_add, Hlo.
  assert (0 <= j <= 16) by (unfold j; lia).
  destruct (8 <? 0 + j) eqn:E1, (j <? 8) eqn:E2, (j =? 8) eqn:E3; bool_to_prop; cbn [andb b2z Z.leb]; simpl; lia.
Qed.
End HexRows.

Example sthexdump_columns_witness :
  ∃ o, sends (stream_fmt list_write)
      (_ ← hex_row list_write false [1; 2; 3] 0; blanks list_write false 43) tt o ∧
    Z.of_nat (length o) = 52.
Proof.
  apply (sthexdump_columns list_write [1; 2; 3]); [repeat constructor; lia|simpl; lia].
Defined.
