(* ===== verification/Cmdline.v ===== *)
(** * Cmdline: the boot command line ([src/util/cmdline.c])

    A blob left in RAM (magic, length, text, complemented CRC-32) is validated,
    copied to the heap and cut into NUL-terminated tokens; the source is wiped
    so that it does not survive a reboot.  The state is the pair of the C
    globals [cmdline_buf]/[cmdline_len]; RAM is the list of bytes from [addr].
    The checksum is any implementation of [Crc32Spec], and whether [xalloc]
    succeeds is an argument. *)

From stdpp Require Import base list numbers.
From Stdlib Require Import ZArith Lia.
From S2P Require Import Prelude Crc LibC.

Open Scope Z_scope.

(** ** State and operations *)

(** [None]: no blob ingested.  [Some buf]: the buffer with its trailing NUL, of
    length [cmdline_len + 1]. *)
Definition cmdline := option (list Z).
Definition cmdline_len (st : cmdline) : nat :=
  match st with None => 0 | Some buf => length buf - 1 end.

Definition CMDLINE_MAGIC : Z := 1818520931.

Definition rd32 (m : list Z) (off : nat) : Z :=
  rd_le32 (nth off m 0) (nth (off + 1) m 0) (nth (off + 2) m 0) (nth (off + 3) m 0).

(** [memset(base + off, 0, n)] *)
Definition zero_range (m : list Z) (off n : nat) : list Z :=
  take off m ++ replicate n 0 ++ drop (off + n) m.

(** Item separators become NUL. *)
Definition tokenize (text : list Z) : list Z := map (λ c, if c =? 32 then 0 else c) text.

Section Init.
Context (crc : Z → list Z → Z).

Definition cmdline_init (alloc_ok : bool) (maxlen : Z) (base : list Z) (st : cmdline)
    : list Z * cmdline :=
  let magic := rd32 base 0 in
  let len := rd32 base 4 in
  if negb (magic =? CMDLINE_MAGIC) then (zero_range base 0 8, st)
  else if ((len =? 0) || (maxlen <? len))%bool then (zero_range base 0 8, st)
  else
    let n := Z.to_nat len in
    if negb (not32 (crc 0 (take (8 + n + 4) base)) =? 0) then (zero_range base 0 8, st)
    else
      let st' := if alloc_ok then Some (tokenize (take n (drop 8 base)) ++ [0]) else st in
      (zero_range (zero_range base (8 + n) 4) 0 8, st').
End Init.

(** [cmdline_find] from the token at [tok], with [n] bytes of the buffer left
    ([cmdline_len - i]).  The result points into the buffer. *)
Fixpoint find_loop (fuel : nat) (key tok : list Z) (n : nat) : option (list Z) :=
  match fuel with
  | O => None
  | S f =>
      if Nat.eqb n 0 then None
      else
        let keylen := strlen key in
        let toklen := strlen tok in
        if Nat.eqb toklen 0 then find_loop f key (drop 1 tok) (n - 1)
        else if ((strncmp tok key keylen =? 0) && (nth keylen tok 0 =? 61))%bool
        then Some (drop (keylen + 1) tok)
        else if ((strncmp tok key keylen =? 0) && (nth keylen tok 0 =? 0))%bool
        then Some (drop keylen tok)
        else find_loop f key (drop (toklen + 1) tok) (n - (toklen + 1))
  end.
Definition cmdline_find (st : cmdline) (key : list Z) : option (list Z) :=
  match st with
  | None => None
  | Some buf => find_loop (S (cmdline_len st)) key buf (cmdline_len st)
  end.

Definition cmdline_get_str (st : cmdline) (key : list Z) (def : option (list Z))
    : option (list Z) :=
  match cmdline_find st key with Some v => Some v | None => def end.
Definition cmdline_get_int (st : cmdline) (key : list Z) (def : Z) : Z :=
  match cmdline_find st key with Some v => s32 (atoix v) | None => def end.
Definition cmdline_get_bool (st : cmdline) (key : list Z) : bool :=
  match cmdline_find st key with Some _ => true | None => false end.

(** ** Specification *)

(** The C string at a pointer. *)
Definition contents (p : list Z) : list Z := take (strlen p) p.

(** The blob layout documented in [cmdline.h]. *)
Definition cmdline_blob (crc : Z → list Z → Z) (text : list Z) : list Z :=
  let body := le32 CMDLINE_MAGIC ++ le32 (Z.of_nat (length text)) ++ text in
  body ++ le32 (not32 (crc 0 body)).

Fixpoint split_sp (l : list Z) : list (list Z) :=
  match l with
  | [] => [[]]
  | c :: r =>
      if c =? 32 then [] :: split_sp r
      else match split_sp r with [] => [[c]] | w :: ws => (c :: w) :: ws end
  end.

(** The value an item [it] gives to [key]: empty for a bare flag. *)
Definition item_value (key it : list Z) : option (list Z) :=
  if decide (it = []) then None
  else if decide (key `prefix_of` it) then
    match drop (length key) it with
    | [] => Some []
    | c :: v => if c =? 61 then Some v else None
    end
  else None.

Fixpoint find_item (key : list Z) (items : list (list Z)) : option (list Z) :=
  match items with
  | [] => None
  | it :: items => match item_value key it with Some v => Some v | None => find_item key items end
  end.

(** ** Lemmas *)

Lemma split_sp_word w : Forall (λ c, c ≠ 32) w → split_sp w = [w].
Proof.
  induction 1 as [|c w Hc _ IH]; simpl; [done|].
  by rewrite (proj2 (Z.eqb_neq c 32)), IH.
Qed.

Lemma split_sp_cons w r : Forall (λ c, c ≠ 32) w → split_sp (w ++ 32 :: r) = w :: split_sp r.
Proof.
  induction 1 as [|c w Hc _ IH]; simpl; [done|].
  by rewrite (proj2 (Z.eqb_neq c 32)), IH.
Qed.

Lemma split_first (text : list Z) :
  ∃ w, Forall (λ c, c ≠ 32) w ∧ (text = w ∨ ∃ r, text = w ++ 32 :: r).
Proof.
  induction text as [|c text (w & Hw & Ht)]; [by exists []; auto|].
  destruct (decide (c = 32)) as [->|Hc].
  - exists []. split; [done|]. right. by exists text.
  - exists (c :: w). split; [by constructor|]. destruct Ht as [->|(r & ->)]; [auto|].
    right. by exists r.
Qed.

Lemma tokenize_word w : Forall (λ c, c ≠ 32) w → tokenize w = w.
Proof.
  induction 1 as [|c w Hc _ IH]; simpl; [done|]. rewrite (proj2 (Z.eqb_neq c 32)) by done.
  change (c :: tokenize w = c :: w). by rewrite IH.
Qed.

Lemma tokenize_cons w r :
  Forall (λ c, c ≠ 32) w → tokenize (w ++ 32 :: r) = w ++ 0 :: tokenize r.
Proof.
  intros Hw. unfold tokenize. rewrite map_app. fold (tokenize w). by rewrite tokenize_word.
Qed.

(** A NUL-free key is a prefix of a terminated token iff it is one of the token. *)
Lemma prefix_token key w tail :
  cstr key → key `prefix_of` w ++ 0 :: tail ↔ key `prefix_of` w.
Proof.
  intros Hk. split.
  - revert w. induction Hk as [|c key Hc _ IH]; intros w Hp; [apply prefix_nil|].
    destruct w as [|x w]; simpl in Hp.
    + apply prefix_cons_inv_1 in Hp. unfold is_char in Hc. lia.
    + assert (c = x) as -> by (by apply prefix_cons_inv_1 in Hp).
      apply prefix_cons, IH. by apply prefix_cons_inv_2 in Hp.
  - intros. by apply prefix_app_r.
Qed.

(** One token of the buffer against its item. *)
Lemma token_match key w tail :
  cstr key → cstr w → w ≠ [] →
  let tok := w ++ 0 :: tail in
  match item_value key w with
  | Some v =>
      ∃ p, contents p = v ∧
      (if ((strncmp tok key (length key) =? 0) && (nth (length key) tok 0 =? 61))%bool
       then Some (drop (length key + 1) tok)
       else if ((strncmp tok key (length key) =? 0) && (nth (length key) tok 0 =? 0))%bool
       then Some (drop (length key) tok) else None) = Some p
  | None =>
      ((strncmp tok key (length key) =? 0) && (nth (length key) tok 0 =? 61))%bool = false ∧
      ((strncmp tok key (length key) =? 0) && (nth (length key) tok 0 =? 0))%bool = false
  end.
Proof.
  intros Hk Hw Hne tok. unfold item_value. rewrite decide_False by done.
  destruct (decide (key `prefix_of` w)) as [Hp|Hp].
  - assert (strncmp tok key (length key) = 0) as ->
      by (apply strncmp_prefix; [done|by apply prefix_token]).
    destruct Hp as (v & ->). rewrite drop_app_length.
    assert (nth (length key) tok 0 = deref (v ++ 0 :: tail)) as ->.
    { unfold tok. rewrite <- app_assoc, app_nth2, Nat.sub_diag by lia. by destruct v. }
    apply Forall_app in Hw as [_ Hv]. simpl. destruct v as [|c v]; simpl.
    + eexists. split; [|done]. unfold tok. rewrite app_nil_r, drop_app_length. done.
    + apply Forall_cons_1 in Hv as [Hc Hv]. unfold is_char in Hc.
      destruct (c =? 61) eqn:E.
      * eexists. split; [|done]. unfold tok. rewrite <- app_assoc, <- drop_drop, drop_app_length.
        simpl. unfold contents. rewrite drop_0, strlen_cstr by done. apply take_app_length.
      * split; [done|]. apply Z.eqb_neq. lia.
  - assert ((strncmp tok key (length key) =? 0) = false) as ->; [|done].
    apply Z.eqb_neq. rewrite strncmp_prefix by done. unfold tok. by rewrite prefix_token.
Qed.

Lemma find_loop_correct key : cstr key → ∀ fuel text tail,
  cstr text → (length text < fuel)%nat →
  contents <$> find_loop fuel key (tokenize text ++ 0 :: tail) (length text) =
    find_item key (split_sp text).
Proof.
  intros Hk. induction fuel as [|fuel IH]; intros text tail Ht Hf; [lia|].
  destruct (split_first text) as (w & Hw & Hsp).
  assert (∃ tail', tokenize text ++ 0 :: tail = w ++ 0 :: tail' ∧ cstr w ∧
    ((text = w ∧ split_sp text = [w]) ∨
     ∃ r, text = w ++ 32 :: r ∧ tail' = tokenize r ++ 0 :: tail ∧
       split_sp text = w :: split_sp r ∧ cstr r)) as (tail' & Htok & Hcw & Hcases).
  { destruct Hsp as [->|(r & ->)].
    - exists tail. rewrite tokenize_word, split_sp_word by done. auto.
    - apply Forall_app in Ht as [? Hr]. apply Forall_cons_1 in Hr as [_ Hr].
      exists (tokenize r ++ 0 :: tail). rewrite tokenize_cons, split_sp_cons, <- app_assoc by done.
      split; [done|]. split; [done|]. right. by exists r. }
  rewrite Htok. cbn [find_loop]. rewrite (strlen_pure key), (strlen_cstr w) by done.
  destruct (decide (w = [])) as [->|Hne].
  - (* an empty token is skipped *)
    destruct Hcases as [(-> & ->)|(r & -> & -> & -> & Hr)]; [done|]. simpl.
    rewrite Nat.sub_0_r, drop_0. apply IH; [done|simpl in Hf; lia].
  - assert (length text ≠ 0%nat) as Hl0.
    { destruct Hcases as [(-> & _)|(r & -> & _)]; destruct w; simpl; try done; lia. }
    rewrite (proj2 (Nat.eqb_neq _ 0) Hl0).
    rewrite (proj2 (Nat.eqb_neq (length w) 0)) by (destruct w; simpl; lia || done).
    pose proof (token_match key w tail' Hk Hcw Hne) as Hm. cbv zeta in Hm.
    destruct (item_value key w) as [v|] eqn:Ev.
    + destruct Hm as (p & Hp & Hm).
      assert (find_item key (split_sp text) = Some v) as ->.
      { destruct Hcases as [(_ & ->)|(r & _ & _ & -> & _)]; simpl; by rewrite Ev. }
      case_match; [by simplify_eq|]. case_match; [by simplify_eq|done].
    + destruct Hm as [-> ->].
      rewrite <- drop_drop, drop_app_length. simpl drop.
      destruct Hcases as [(-> & ->)|(r & -> & -> & -> & Hr)].
      * simpl. rewrite Ev. replace (length w - (length w + 1))%nat with 0%nat by lia.
        destruct fuel; done.
      * simpl find_item. rewrite Ev, length_app. simpl length. rewrite drop_0.
        replace (length w + S (length r) - (length w + 1))%nat with (length r) by lia.
        rewrite length_app in Hf. simpl in Hf. apply IH; [done|lia].
Qed.

Lemma rd32_le32_0 x r : is_u32 x → rd32 (le32 x ++ r) 0 = x.
Proof. apply rd_le32_le32. Qed.
Lemma rd32_le32_4 x y r : is_u32 y → rd32 (le32 x ++ le32 y ++ r) 4 = y.
Proof. apply rd_le32_le32. Qed.

(** Any four bytes are the little-endian form of the word they spell. *)
Lemma le32_rd32 a b c d :
  is_byte a → is_byte b → is_byte c → is_byte d →
  le32 (rd_le32 a b c d) = [a; b; c; d] ∧ is_u32 (rd_le32 a b c d).
Proof.
  unfold is_byte, is_u32, rd_le32, le32, u8. intros. rewrite !Z.shiftr_div_pow2 by lia.
  change (2 ^ 8) with 256. change (2 ^ 16) with 65536. change (2 ^ 24) with 16777216.
  split; [|lia]. f_equal; [dlia|]. f_equal; [dlia|]. f_equal; [dlia|]. f_equal. dlia.
Qed.

Lemma take4_rd32 m off :
  bytes m → (off + 4 <= length m)%nat →
  take 4 (drop off m) = le32 (rd32 m off) ∧ is_u32 (rd32 m off).
Proof.
  intros Hm Hl. unfold rd32.
  assert (∀ k, (k < 4)%nat → is_byte (nth (off + k) m 0) ∧
    drop off m !! k = Some (nth (off + k) m 0)) as H.
  { intros k Hk. rewrite lookup_drop.
    destruct (lookup_lt_is_Some_2 m (off + k)) as [v Hv]; [lia|].
    rewrite (nth_lookup_Some _ _ 0 v Hv). split; [|done]. rewrite Forall_lookup in Hm. eauto. }
  destruct (H 0%nat) as [B0 L0]; [lia|]. destruct (H 1%nat) as [B1 L1]; [lia|].
  destruct (H 2%nat) as [B2 L2]; [lia|]. destruct (H 3%nat) as [B3 L3]; [lia|].
  rewrite Nat.add_0_r in *. destruct (le32_rd32 _ _ _ _ B0 B1 B2 B3) as [-> ?]. split; [|done].
  destruct (drop off m) as [|v0 [|v1 [|v2 [|v3 l]]]]; simpl in *; simplify_eq. done.
Qed.

Lemma zero_range_head base : (8 <= length base)%nat → rd32 (zero_range base 0 8) 0 = 0.
Proof. done. Qed.

Section Props.
Context (crc : Z → list Z → Z) `{!Crc32Spec crc}.

Lemma blob_accepted text rest maxlen st :
  bytes text → 0 < Z.of_nat (length text) <= maxlen → Z.of_nat (length text) < 4294967296 →
  snd (cmdline_init crc true maxlen (cmdline_blob crc text ++ rest) st) =
    Some (tokenize text ++ [0]).
Proof.
  intros Hb Hl Hm. unfold cmdline_init, cmdline_blob. cbv zeta.
  set (body := le32 CMDLINE_MAGIC ++ le32 (Z.of_nat (length text)) ++ text).
  assert (rd32 ((body ++ le32 (not32 (crc 0 body))) ++ rest) 0 = CMDLINE_MAGIC) as ->
    by (apply rd32_le32_0; unfold is_u32, CMDLINE_MAGIC; lia).
  assert (rd32 ((body ++ le32 (not32 (crc 0 body))) ++ rest) 4 = Z.of_nat (length text)) as ->.
  { unfold body. rewrite <- !app_assoc. apply rd32_le32_4. unfold is_u32. lia. }
  rewrite Z.eqb_refl. cbn [negb].
  rewrite (proj2 (Z.eqb_neq _ 0)), (proj2 (Z.ltb_ge maxlen _)) by lia. cbn [orb].
  rewrite Nat2Z.id.
  assert (length body = 8 + length text)%nat as Hlb by (unfold body; rewrite !length_app; done).
  assert (bytes body) as Hbb.
  { unfold body. apply Forall_app. split; [apply le32_bytes|].
    apply Forall_app. split; [apply le32_bytes|done]. }
  assert (drop 8 body = text) as Htext by done. clearbody body.
  assert (length (body ++ le32 (not32 (crc 0 body))) = 8 + length text + 4)%nat as Hall
    by (rewrite length_app, Hlb; done).
  rewrite take_app_le, take_ge by lia.
  assert (is_u32 0) as H0 by (unfold is_u32; lia).
  rewrite (proj2 (crc_residue (crc := crc) 0 body _ H0 Hbb
    (not32_u32 _ (crc_u32 (crc := crc) 0 body H0 Hbb)))) by done.
  change (negb (not32 4294967295 =? 0)) with false. cbn [snd].
  rewrite <- app_assoc, drop_app_le, Htext by lia. by rewrite take_app_length.
Qed.

(** Whatever [cmdline_init] ingests was a well-formed blob. *)
Lemma accepted_is_blob ok maxlen base st :
  bytes base → 0 <= maxlen → (8 + Z.to_nat maxlen + 4 <= length base)%nat →
  snd (cmdline_init crc ok maxlen base st) ≠ st →
  ∃ text rest, base = cmdline_blob crc text ++ rest ∧ text ≠ [] ∧
    Z.of_nat (length text) <= maxlen ∧
    snd (cmdline_init crc ok maxlen base st) = Some (tokenize text ++ [0]).
Proof.
  intros Hb Hmax Hl. unfold cmdline_init. cbv zeta.
  destruct (take4_rd32 base 0 Hb) as [Hmg _]; [lia|].
  destruct (take4_rd32 base 4 Hb) as [Hln Hlr]; [lia|]. rewrite drop_0 in Hmg.
  destruct (rd32 base 0 =? CMDLINE_MAGIC) eqn:E1; cbn [negb]; [|by intros []]. bool_to_prop.
  destruct ((rd32 base 4 =? 0) || (maxlen <? rd32 base 4))%bool eqn:E2; [by intros []|].
  bool_to_prop. unfold is_u32 in Hlr. set (n := Z.to_nat (rd32 base 4)) in *.
  destruct (not32 (crc 0 (take (8 + n + 4) base)) =? 0) eqn:E3; cbn [negb]; [|by intros []].
  bool_to_prop. destruct ok; [|by intros []]. intros _.
  set (text := take n (drop 8 base)).
  assert (length text = n) as Hlt by (unfold text; rewrite length_take, length_drop; lia).
  exists text, (drop (8 + n + 4) base).
  assert (take (8 + n + 4) base = cmdline_blob crc text) as Hblob.
  { set (body := le32 CMDLINE_MAGIC ++ le32 (Z.of_nat (length text)) ++ text).
    assert (take (8 + n) base = body) as Hbody.
    { unfold body. rewrite Hlt. replace (Z.of_nat n) with (rd32 base 4) by lia.
      rewrite <- E1, <- Hmg, <- Hln.
      rewrite <- (take_drop 4 (take (8 + n) base)). rewrite take_take, skipn_firstn_comm.
      replace (4 `min` (8 + n))%nat with 4%nat by lia. f_equal.
      rewrite <- (take_drop 4 (take _ (drop 4 base))). rewrite take_take, skipn_firstn_comm, drop_drop.
      replace (4 `min` (8 + n - 4))%nat with 4%nat by lia. f_equal.
      unfold text. f_equal. lia. }
    destruct (take4_rd32 base (8 + n) Hb) as [Htr Htu]; [lia|].
    assert (take (8 + n + 4) base = body ++ le32 (rd32 base (8 + n))) as Hall.
    { rewrite <- Htr, <- Hbody, <- (take_drop (8 + n) (take (8 + n + 4) base)).
      rewrite take_take, skipn_firstn_comm. f_equal; f_equal; lia. }
    rewrite Hall. unfold cmdline_blob. fold body. f_equal. f_equal.
    assert (bytes body) as Hbb by (rewrite <- Hbody; by apply Forall_take).
    apply (crc_residue (crc := crc)); [unfold is_u32; lia|done|done|].
    rewrite <- Hall, <- (not32_involutive (crc 0 _)), E3. done. }
  split_and!.
  - by rewrite <- Hblob, take_drop.
  - destruct text; [simpl in Hlt; lia|done].
  - lia.
  - done.
Qed.
End Props.

(** ** Properties *)

(** A blob written as documented is ingested, and every key then has the value
    of the first item that names it: what follows [key=], or the empty string
    for a bare flag. *)
Theorem cmdline_lookup (crc : Z → list Z → Z) `{!Crc32Spec crc} text rest maxlen st key :
  cstr text → 0 < Z.of_nat (length text) <= maxlen → Z.of_nat (length text) < 4294967296 →
  cstr key →
  let st' := snd (cmdline_init crc true maxlen (cmdline_blob crc text ++ rest) st) in
  contents <$> cmdline_find st' key = find_item key (split_sp text) ∧
  cmdline_get_bool st' key = bool_decide (is_Some (find_item key (split_sp text))).
Proof.
  intros Ht Hl Hm Hk st'. unfold st'.
  pose proof (cstr_bytes text Ht) as Hb.
  rewrite blob_accepted by done.
  assert (contents <$> cmdline_find (Some (tokenize text ++ [0])) key =
    find_item key (split_sp text)) as H.
  { unfold cmdline_find, cmdline_len.
    assert ((length (tokenize text ++ [0%Z]) - 1)%nat = length text) as ->
      by (rewrite length_app; unfold tokenize; rewrite length_map; simpl; lia).
    apply find_loop_correct; [done..|lia]. }
  split; [done|]. rewrite <- H. unfold cmdline_get_bool.
  by destruct (cmdline_find _ _).
Qed.

(** ["vid=5 dbg"]: [vid] has a value, [dbg] is a flag. *)
Example cmdline_lookup_witness :
  let st' := snd (cmdline_init crc32 true 64
    (cmdline_blob crc32 [118; 105; 100; 61; 53; 32; 100; 98; 103] ++ [7]) None) in
  contents <$> cmdline_find st' [118; 105; 100] = Some [53] ∧
  contents <$> cmdline_find st' [100; 98; 103] = Some [] ∧ cmdline_get_int st' [118; 105; 100] 0 = 5.
Proof.
  cbv zeta. split_and!.
  - apply (cmdline_lookup crc32 [118; 105; 100; 61; 53; 32; 100; 98; 103] [7] 64 None [118; 105; 100]);
      simpl; [repeat constructor; lia|lia|lia|repeat constructor; lia].
  - apply (cmdline_lookup crc32 [118; 105; 100; 61; 53; 32; 100; 98; 103] [7] 64 None [100; 98; 103]);
      simpl; [repeat constructor; lia|lia|lia|repeat constructor; lia].
  - vm_compute. reflexivity.
Defined.

(** On arbitrary RAM contents [cmdline_init] changes the command line only when
    the RAM holds a complete, correctly checksummed blob of acceptable length;
    and in every case a second run on the RAM it leaves behind (a reboot)
    ingests nothing. *)
Theorem cmdline_init_safe (crc : Z → list Z → Z) `{!Crc32Spec crc} ok maxlen base st st2 :
  bytes base → 0 <= maxlen → (8 + Z.to_nat maxlen + 4 <= length base)%nat →
  (snd (cmdline_init crc ok maxlen base st) = st ∨
   ∃ text rest, base = cmdline_blob crc text ++ rest ∧ text ≠ [] ∧
     Z.of_nat (length text) <= maxlen ∧
     snd (cmdline_init crc ok maxlen base st) = Some (tokenize text ++ [0])) ∧
  snd (cmdline_init crc ok maxlen (fst (cmdline_init crc ok maxlen base st)) st2) = st2.
Proof.
  intros Hb Hm Hl. split.
  - destruct (decide (snd (cmdline_init crc ok maxlen base st) = st)) as [?|Hne]; [auto|].
    right. by apply accepted_is_blob.
  - assert (∃ m, fst (cmdline_init crc ok maxlen base st) = zero_range m 0 8) as [m ->].
    { unfold cmdline_init. cbv zeta. repeat case_match; simpl; eauto. }
    done.
Qed.

Example cmdline_init_safe_witness :
  snd (cmdline_init crc32 true 8 (fst (cmdline_init crc32 true 8
    (cmdline_blob crc32 [97; 98; 99] ++ replicate 10 0) None)) None) = None.
Proof.
  apply cmdline_init_safe; [apply _|..]; [|lia|vm_compute; lia].
  apply Forall_app. split; [vm_compute; repeat constructor; discriminate|].
  repeat constructor; unfold is_byte; lia.
Defined.
