(* ===== verification/Shell.v ===== *)
(** * Shell: the command line ([shell/cli_edit.c], [shell/history.c], [shell/cli.c])

    The line editor is a state machine over a buffer of 80 bytes, the history a ring of
    eight strings, the shell a loop that feeds characters to the editor, completes and runs
    commands, and keeps the line on the terminal.  Characters are unsigned, as on ARM.
    Output goes through [fmtv] of [Stdio] to a list of bytes; flushing is left out.  The
    table of commands is made by the linker, and what a command does is its own code: both
    are parameters.  [strdup] may find no memory: [mem] says for each call in turn whether
    it does.  The half of the file for tests on a host is not modelled. *)

From Stdlib Require Import Strings.String ZArith Lia.
From stdpp Require Import base list numbers.
From S2P Require Import Prelude LibC Stdio.

Open Scope Z_scope.

(** ** The line editor *)

Definition CLI_LINE_BUF_SIZE : Z := 80.

Inductive cli_ed_event_t :=
| CLI_ED_NONE | CLI_ED_ENTER | CLI_ED_TAB | CLI_ED_HELP | CLI_ED_HIST_UP | CLI_ED_HIST_DOWN
| CLI_ED_CLEAR | CLI_ED_CANCEL | CLI_ED_EOF.

Inductive esc := CLI_ESC_NONE | CLI_ESC_ESC | CLI_ESC_BRACKET | CLI_ESC_PARAM1 | CLI_ESC_SEMI | CLI_ESC_PARAM2.

Record cli_ed_t := CliEd {
  ed_buf : list Z;
  ed_pos : Z;
  ed_len : Z;
  esc_state : esc;
  esc_param1 : Z;
  esc_param2 : Z }.

Definition set_line (buf : list Z) (pos len : Z) (ed : cli_ed_t) : cli_ed_t :=
  CliEd buf pos len (esc_state ed) (esc_param1 ed) (esc_param2 ed).
Definition set_pos (pos : Z) (ed : cli_ed_t) : cli_ed_t := set_line (ed_buf ed) pos (ed_len ed) ed.
Definition set_esc (s : esc) (p1 p2 : Z) (ed : cli_ed_t) : cli_ed_t :=
  CliEd (ed_buf ed) (ed_pos ed) (ed_len ed) s p1 p2.

Definition char_at (buf : list Z) (i : Z) : res Z :=
  c ← rd buf i 1; match c with [c] => Ret c | _ => Fault OutOfBounds end.
Definition memmove (buf : list Z) (dst src n : Z) : res (list Z) :=
  d ← rd buf src n; wr buf dst d.

Definition cli_ed_init : cli_ed_t :=
  CliEd (replicate (Z.to_nat CLI_LINE_BUF_SIZE) 0) 0 0 CLI_ESC_NONE 0 0.

(** One character at the cursor. *)
Definition put_char (c : Z) (ed : cli_ed_t) : res cli_ed_t :=
  if CLI_LINE_BUF_SIZE - 1 <=? ed_len ed then Ret ed
  else
    buf ← memmove (ed_buf ed) (ed_pos ed + 1) (ed_pos ed) (ed_len ed - ed_pos ed);
    buf ← wr buf (ed_pos ed) [c];
    buf ← wr buf (ed_len ed + 1) [0];
    Ret (set_line buf (ed_pos ed + 1) (ed_len ed + 1) ed).

Fixpoint cli_ed_insert (text : list Z) (ed : cli_ed_t) : res cli_ed_t :=
  match text with
  | [] => Ret ed
  | c :: text =>
      if CLI_LINE_BUF_SIZE - 1 <=? ed_len ed then Ret ed
      else ed ← put_char c ed; cli_ed_insert text ed
  end.

Definition cli_ed_clear (ed : cli_ed_t) : res cli_ed_t :=
  buf ← wr (ed_buf ed) 0 [0]; Ret (set_line buf 0 0 ed).

(** [None] is the null pointer. *)
Definition cli_ed_set (text : option (list Z)) (ed : cli_ed_t) : res cli_ed_t :=
  match text with
  | Some text =>
      let tlen := Z.of_nat (length text) in
      let tlen := if CLI_LINE_BUF_SIZE <=? tlen then CLI_LINE_BUF_SIZE - 1 else tlen in
      buf ← wr (ed_buf ed) 0 (take (Z.to_nat tlen) text);
      buf ← wr buf tlen [0];
      Ret (set_line buf tlen tlen ed)
  | None => cli_ed_clear ed
  end.

Definition delete_char_at (pos : Z) (ed : cli_ed_t) : res cli_ed_t :=
  if ed_len ed <=? pos then Ret ed
  else
    buf ← memmove (ed_buf ed) pos (pos + 1) (ed_len ed - pos - 1);
    buf ← wr buf (ed_len ed - 1) [0];
    Ret (set_line buf (ed_pos ed) (ed_len ed - 1) ed).

(** Over blanks ([blank]) or over a word, to the left and to the right. *)
Fixpoint skip_left (fuel : nat) (buf : list Z) (blank : bool) (pos : Z) : res Z :=
  match fuel with
  | O => Fault NoFuel
  | S fuel =>
      if negb (0 <? pos) then Ret pos
      else
        c ← char_at buf (pos - 1);
        if Bool.eqb (c =? 32) blank then skip_left fuel buf blank (pos - 1) else Ret pos
  end.
Fixpoint skip_right (fuel : nat) (buf : list Z) (len : Z) (blank : bool) (pos : Z) : res Z :=
  match fuel with
  | O => Fault NoFuel
  | S fuel =>
      if negb (pos <? len) then Ret pos
      else
        c ← char_at buf pos;
        if Bool.eqb (c =? 32) blank then skip_right fuel buf len blank (pos + 1) else Ret pos
  end.
Definition word_fuel : nat := Z.to_nat 81.

Definition kill_word_back (ed : cli_ed_t) : res cli_ed_t :=
  if ed_pos ed =? 0 then Ret ed
  else
    let end_ := ed_pos ed in
    pos ← skip_left word_fuel (ed_buf ed) true end_;
    pos ← skip_left word_fuel (ed_buf ed) false pos;
    let removed := end_ - pos in
    buf ← memmove (ed_buf ed) pos end_ (ed_len ed - end_);
    buf ← wr buf (ed_len ed - removed) [0];
    Ret (set_line buf pos (ed_len ed - removed) ed).

Definition word_forward (ed : cli_ed_t) : res cli_ed_t :=
  pos ← skip_right word_fuel (ed_buf ed) (ed_len ed) false (ed_pos ed);
  pos ← skip_right word_fuel (ed_buf ed) (ed_len ed) true pos;
  Ret (set_pos pos ed).
Definition word_backward (ed : cli_ed_t) : res cli_ed_t :=
  pos ← skip_left word_fuel (ed_buf ed) true (ed_pos ed);
  pos ← skip_left word_fuel (ed_buf ed) false pos;
  Ret (set_pos pos ed).

Definition move_right (ed : cli_ed_t) : cli_ed_t :=
  if ed_pos ed <? ed_len ed then set_pos (ed_pos ed + 1) ed else ed.
Definition move_left (ed : cli_ed_t) : cli_ed_t :=
  if 0 <? ed_pos ed then set_pos (ed_pos ed - 1) ed else ed.

(** The event is [CLI_ED_NONE]. *)
Definition none (ed : res cli_ed_t) : res (cli_ed_event_t * cli_ed_t) := ed ← ed; Ret (CLI_ED_NONE, ed).

Definition handle_csi_final (final : Z) (ed : cli_ed_t) : res (cli_ed_event_t * cli_ed_t) :=
  if final =? 65 then Ret (CLI_ED_HIST_UP, ed)
  else if final =? 66 then Ret (CLI_ED_HIST_DOWN, ed)
  else if final =? 67 then
    none (if esc_param2 ed =? 5 then word_forward ed else Ret (move_right ed))
  else if final =? 68 then
    none (if esc_param2 ed =? 5 then word_backward ed else Ret (move_left ed))
  else if final =? 72 then none (Ret (set_pos 0 ed))
  else if final =? 70 then none (Ret (set_pos (ed_len ed) ed))
  else if final =? 126 then
    none (if esc_param1 ed =? 3 then delete_char_at (ed_pos ed) ed else Ret ed)
  else none (Ret ed).

Definition digit (c : Z) : bool := ((48 <=? c) && (c <=? 57))%bool.

Definition backspace (ed : cli_ed_t) : res cli_ed_t :=
  if 0 <? ed_pos ed then delete_char_at (ed_pos ed - 1) (set_pos (ed_pos ed - 1) ed) else Ret ed.

Definition normal_input (c : Z) (ed : cli_ed_t) : res (cli_ed_event_t * cli_ed_t) :=
  if c =? 27 then none (Ret (set_esc CLI_ESC_ESC (esc_param1 ed) (esc_param2 ed) ed))
  else if c =? 1 then none (Ret (set_pos 0 ed))
  else if c =? 2 then none (Ret (move_left ed))
  else if c =? 3 then Ret (CLI_ED_CANCEL, ed)
  else if c =? 4 then
    if ed_len ed =? 0 then Ret (CLI_ED_EOF, ed) else none (delete_char_at (ed_pos ed) ed)
  else if c =? 5 then none (Ret (set_pos (ed_len ed) ed))
  else if c =? 6 then none (Ret (move_right ed))
  else if c =? 9 then Ret (CLI_ED_TAB, ed)
  else if ((c =? 10) || (c =? 13))%bool then Ret (CLI_ED_ENTER, ed)
  else if c =? 11 then
    none (buf ← wr (ed_buf ed) (ed_pos ed) [0]; Ret (set_line buf (ed_pos ed) (ed_pos ed) ed))
  else if c =? 12 then Ret (CLI_ED_CLEAR, ed)
  else if c =? 21 then none (cli_ed_clear ed)
  else if c =? 23 then none (kill_word_back ed)
  else if ((c =? 127) || (c =? 8))%bool then none (backspace ed)
  else if c =? 63 then Ret (CLI_ED_HELP, ed)
  else if ((32 <=? c) && (c <? 127))%bool then none (put_char c ed)
  else none (Ret ed).

Definition cli_ed_input (c : Z) (ed : cli_ed_t) : res (cli_ed_event_t * cli_ed_t) :=
  let p1 := esc_param1 ed in
  let p2 := esc_param2 ed in
  match esc_state ed with
  | CLI_ESC_ESC =>
      if c =? 91 then none (Ret (set_esc CLI_ESC_BRACKET 0 0 ed))
      else
        let ed := set_esc CLI_ESC_NONE p1 p2 ed in
        if c =? 98 then none (word_backward ed)
        else if c =? 102 then none (word_forward ed)
        else none (Ret ed)
  | CLI_ESC_BRACKET =>
      if digit c then none (Ret (set_esc CLI_ESC_PARAM1 (c - 48) p2 ed))
      else handle_csi_final c (set_esc CLI_ESC_NONE p1 p2 ed)
  | CLI_ESC_PARAM1 =>
      if digit c then none (Ret (set_esc CLI_ESC_PARAM1 (u8 (p1 * 10 + (c - 48))) p2 ed))
      else if c =? 59 then none (Ret (set_esc CLI_ESC_SEMI p1 p2 ed))
      else handle_csi_final c (set_esc CLI_ESC_NONE p1 p2 ed)
  | CLI_ESC_SEMI =>
      if digit c then none (Ret (set_esc CLI_ESC_PARAM2 p1 (c - 48) ed))
      else none (Ret (set_esc CLI_ESC_NONE p1 p2 ed))
  | CLI_ESC_PARAM2 =>
      if digit c then none (Ret (set_esc CLI_ESC_PARAM2 p1 (u8 (p2 * 10 + (c - 48))) ed))
      else handle_csi_final c (set_esc CLI_ESC_NONE p1 p2 ed)
  | CLI_ESC_NONE => normal_input c ed
  end.

(** ** The history *)

Definition HISTORY_SIZE : Z := 8.

Record history := History {
  history_lines : list (option (list Z));
  history_wpos : Z;
  history_count : Z }.
Definition history0 : history := History (replicate 8 None) 0 0.

(** The memory is there for all calls when nothing more is said. *)
Definition strdup (s : list Z) (mem : list bool) : option (list Z) * list bool :=
  match mem with [] => (Some s, []) | b :: mem => (if b then Some s else None, mem) end.

(** The line at an index; [None] is the null pointer. *)
Definition line_at (h : history) (i : Z) : res (option (list Z)) :=
  if i <? 0 then Fault OutOfBounds
  else match history_lines h !! Z.to_nat i with Some l => Ret l | None => Fault OutOfBounds end.

Definition history_add (line : list Z) (h : history) (mem : list bool) : res (history * list bool) :=
  same ← (if 0 <? history_count h then
            l ← line_at h ((history_wpos h - 1 + HISTORY_SIZE) mod HISTORY_SIZE);
            match l with Some l => Ret (bool_decide (line = l)) | None => Fault OutOfBounds end
          else Ret false);
  if (same : bool) then Ret (h, mem)
  else
    let '(str, mem) := strdup line mem in
    Ret (History (<[Z.to_nat (history_wpos h) := str]> (history_lines h))
           ((history_wpos h + 1) mod HISTORY_SIZE) (s32 (history_count h + 1)), mem).

Definition history_get (offset : Z) (h : history) (mem : list bool) : res (option (list Z) * list bool) :=
  let avail := if history_count h <? HISTORY_SIZE then history_count h else HISTORY_SIZE in
  if ((0 <=? offset) && (offset <? avail))%bool then
    l ← line_at h ((history_wpos h - 1 - offset + HISTORY_SIZE) mod HISTORY_SIZE);
    match l with Some l => Ret (strdup l mem) | None => Fault OutOfBounds end
  else Ret (None, mem).

(** ** Commands *)

(** The string at the start of a list; a list without a terminator is read behind its end. *)
Fixpoint str_at (m : list Z) : res (list Z) :=
  match m with
  | [] => Fault OutOfBounds
  | c :: m => if c =? 0 then Ret [] else s ← str_at m; Ret (c :: s)
  end.

Fixpoint skip_blanks (fuel : nat) (buf : list Z) (i : Z) : res Z :=
  match fuel with
  | O => Fault NoFuel
  | S fuel =>
      c ← char_at buf i;
      if ((0 <? c) && (c <? 33))%bool then skip_blanks fuel buf (i + 1) else Ret i
  end.
Fixpoint skip_token (fuel : nat) (buf : list Z) (i : Z) : res Z :=
  match fuel with
  | O => Fault NoFuel
  | S fuel =>
      c ← char_at buf i;
      if 32 <? c then skip_token fuel buf (i + 1) else Ret i
  end.

(** The buffer with the tokens terminated, and where they start. *)
Fixpoint tokenize (room : nat) (buf : list Z) (i : Z) : res (list Z * list Z) :=
  i ← skip_blanks (S (length buf)) buf i;
  c ← char_at buf i;
  if c =? 0 then Ret (buf, [])
  else
    match room with
    | O => Fault OutOfBounds
    | S O => Ret (buf, [i])
    | S room =>
        j ← skip_token (S (length buf)) buf i;
        c ← char_at buf j;
        if c =? 0 then Ret (buf, [i])
        else
          buf ← wr buf j [0];
          '(buf, vec) ← tokenize room buf (j + 1);
          Ret (buf, i :: vec)
    end.
Definition CLI_MAX_ARGC : nat := 10.

Fixpoint token_strings (buf : list Z) (vec : list Z) : res (list (list Z)) :=
  match vec with
  | [] => Ret []
  | i :: vec => s ← str_at (drop (Z.to_nat i) buf); l ← token_strings buf vec; Ret (s :: l)
  end.
(** [tokenize] and the strings behind the pointers. *)
Definition get_argv (buf : list Z) : res (list (list Z)) :=
  '(buf, vec) ← tokenize CLI_MAX_ARGC buf 0; token_strings buf vec.

Fixpoint match_str (p t : list Z) {struct t} : option (list Z) :=
  match t with
  | [] => Some p
  | c :: t => match p with x :: p => if x =? c then match_str p t else None | [] => None end
  end.
(** What of the name is left; [first] is whether no token came before. *)
Fixpoint match_argv (first : bool) (p : list Z) (argv : list (list Z)) : option (list Z) :=
  match argv with
  | [] => Some p
  | t :: argv =>
      match (if first then Some p else match_str p [95]) with
      | Some p => match match_str p t with Some p => match_argv false p argv | None => None end
      | None => None
      end
  end.

(** [cmd[i]] for the positions of the buffer; behind the terminator nothing may be read. *)
Fixpoint prefix_match (cmd buf : list Z) {struct buf} : res bool :=
  match buf with
  | [] => Ret true
  | b :: buf =>
      let bc := if b =? 32 then 95 else b in
      match cmd with
      | x :: cmd => if x =? bc then prefix_match cmd buf else Ret false
      | [] => if bc =? 0 then Fault OutOfBounds else Ret false
      end
  end.

Definition ERR_INVALID_ARGS : Z := -23.
Definition ERR_NOT_FOUND : Z := -17.

Section Cli.
Context {W : Type}.

(** What has been written, and the rest of the system. *)
Definition cli : Type := list Z * W.

Record cli_cmd := CliCmd {
  cc_cmd : list Z;
  cc_dispatch : list (list Z) → cli → res (Z * cli);
  cc_synopsis : option (list Z);
  cc_brief : option (list Z) }.

Context (cmds : list cli_cmd) (hostname : list Z) (error_to_string : Z → list Z).

Definition cli_printf (fmt : list Z) (ap : list arg) (c : cli) : res (Z * cli) :=
  '(n, out) ← fmtv (stream_fmt list_write) false fmt ap c.1;
  Ret (n, (out, c.2)).
Definition cli_puts (s : list Z) (c : cli) : res cli := '(_, c) ← cli_printf s [] c; Ret c.

(** The first command whose name is the first [join] tokens, for the smallest [join]. *)
Fixpoint find_exact (l : list cli_cmd) (argv : list (list Z)) : option cli_cmd :=
  match l with
  | [] => None
  | p :: l =>
      match match_argv true (cc_cmd p) argv with Some [] => Some p | _ => find_exact l argv end
  end.
Fixpoint find_join (n : nat) (join : nat) (argv : list (list Z)) : option (cli_cmd * list (list Z)) :=
  match n with
  | O => None
  | S n =>
      match find_exact cmds (take join argv) with
      | Some p => Some (p, cc_cmd p :: drop join argv)
      | None => find_join n (S join) argv
      end
  end.
Definition find_command (argv : list (list Z)) : option (cli_cmd * list (list Z)) :=
  find_join (length argv) 1 argv.
Fixpoint group_prefix (l : list cli_cmd) (argv : list (list Z)) : bool :=
  match l with
  | [] => false
  | p :: l =>
      match match_argv true (cc_cmd p) argv with
      | Some (c :: _) => if c =? 95 then true else group_prefix l argv
      | _ => group_prefix l argv
      end
  end.

Definition cli_dispatch (line : list Z) (c : cli) : res (Z * cli) :=
  argv ← get_argv line;
  match argv with
  | [] => Ret (0, c)
  | _ =>
      match find_command argv with
      | Some (p, argv) => cc_dispatch p argv c
      | None => Ret (if group_prefix cmds argv then ERR_INVALID_ARGS else ERR_NOT_FOUND, c)
      end
  end.

Fixpoint print_cmd_name (cmd : list Z) (c : cli) : res cli :=
  match cmd with
  | [] => Ret c
  | x :: cmd =>
      '(_, c) ← cli_printf (lit "%c") [AInt (if x =? 95 then 32 else x)] c; print_cmd_name cmd c
  end.

Definition dispatch_command (line : list Z) (c : cli) : res cli :=
  argv ← get_argv line;
  match argv with
  | [] => Ret c
  | _ =>
      match find_command argv with
      | Some (p, argv) =>
          '(err, c) ← cc_dispatch p argv c;
          if err =? 0 then Ret c
          else
            match cc_synopsis p with
            | Some synopsis =>
                if err =? ERR_INVALID_ARGS then
                  c ← cli_puts (lit "Usage: ") c;
                  c ← print_cmd_name (cc_cmd p) c;
                  '(_, c) ← cli_printf (lit " %s" ++ [10]) [AStr (cobj synopsis)] c; Ret c
                else '(_, c) ← cli_printf (lit "! Error: %s" ++ [10]) [AStr (cobj (error_to_string err))] c; Ret c
            | None => '(_, c) ← cli_printf (lit "! Error: %s" ++ [10]) [AStr (cobj (error_to_string err))] c; Ret c
            end
      | None =>
          if group_prefix cmds argv then cli_puts (lit "Incomplete command. Press ? for options." ++ [10]) c
          else cli_puts (lit "Unknown command" ++ [10]) c
      end
  end.

(** ** Completion *)

(** [p->cmd[i]]. *)
Definition cmd_at (cmd : list Z) (i : Z) : Z := deref (drop (Z.to_nat i) cmd).

Fixpoint common_loop (n : nat) (p first : list Z) (i : Z) : Z :=
  match n with
  | O => i
  | S n => if cmd_at p i =? cmd_at first i then common_loop n p first (i + 1) else i
  end.

(** The first match, how many there are, and how far they agree. *)
Fixpoint count_matches (l : list cli_cmd) (line : list Z) (first : option cli_cmd) (common nmatch : Z)
    : res (option cli_cmd * Z * Z) :=
  match l with
  | [] => Ret (first, common, nmatch)
  | p :: l =>
      m ← prefix_match (cc_cmd p) line;
      if (m : bool) then
        match first with
        | None => count_matches l line (Some p) (Z.of_nat (length (cc_cmd p))) (nmatch + 1)
        | Some f =>
            let plen := Z.of_nat (length line) in
            let common := common_loop (Z.to_nat (common - plen)) (cc_cmd p) (cc_cmd f) plen in
            count_matches l line first common (nmatch + 1)
        end
      else count_matches l line first common nmatch
  end.

Definition print_help (p : cli_cmd) (c : cli) : res cli :=
  match cc_synopsis p, cc_brief p with
  | Some synopsis, _ =>
      c ← print_cmd_name (cc_cmd p) c;
      '(_, c) ← cli_printf (lit " %s" ++ [10]) [AStr (cobj synopsis)] c; Ret c
  | None, Some brief =>
      c ← print_cmd_name (cc_cmd p) c;
      '(_, c) ← cli_printf (lit " - %s" ++ [10]) [AStr (cobj brief)] c; Ret c
  | None, None => Ret c
  end.

Fixpoint exact_help (l : list cli_cmd) (line : list Z) : res (option cli_cmd) :=
  match l with
  | [] => Ret None
  | p :: l =>
      if Nat.eqb (length (cc_cmd p)) (length line) then
        m ← prefix_match (cc_cmd p) line;
        if (m : bool) then Ret (Some p) else exact_help l line
      else exact_help l line
  end.

Fixpoint insert_common (n : nat) (first : list Z) (i : Z) (ed : cli_ed_t) : res cli_ed_t :=
  match n with
  | O => Ret ed
  | S n =>
      let ch := if cmd_at first i =? 95 then 32 else cmd_at first i in
      ed ← cli_ed_insert [ch] ed; insert_common n first (i + 1) ed
  end.

Fixpoint segment (s : list Z) : list Z :=
  match s with
  | [] => []
  | c :: s => if c =? 95 then [] else c :: segment s
  end.

(** One line for each different next word. *)
Fixpoint list_loop (l : list cli_cmd) (line : list Z) (word_start : Z) (prev : list Z) (c : cli) : res cli :=
  match l with
  | [] => Ret c
  | p :: l =>
      m ← prefix_match (cc_cmd p) line;
      if negb m then list_loop l line word_start prev c
      else
        let suffix := drop (Z.to_nat word_start) (cc_cmd p) in
        let seg := segment suffix in
        let seg_len := Z.of_nat (length seg) in
        if seg_len =? 0 then list_loop l line word_start prev c
        else if bool_decide (seg = prev) then list_loop l line word_start prev c
        else
          match cc_brief p with
          | Some brief =>
              if Nat.eqb (length seg) (length suffix) then
                '(_, c) ← cli_printf (lit "  %-16.*s %s" ++ [10]) [AInt seg_len; AStr (cobj suffix); AStr (cobj brief)] c;
                list_loop l line word_start seg c
              else
                '(_, c) ← cli_printf (lit "  %.*s" ++ [10]) [AInt seg_len; AStr (cobj suffix)] c;
                list_loop l line word_start seg c
          | None =>
              '(_, c) ← cli_printf (lit "  %.*s" ++ [10]) [AInt seg_len; AStr (cobj suffix)] c;
              list_loop l line word_start seg c
          end
  end.

(** No match: a blank at the end may be one too many. *)
Definition trimmed_help (list_only : bool) (line : list Z) (c : cli) : res cli :=
  if (list_only && (0 <? Z.of_nat (length line)) && (List.last line 0 =? 32))%bool then
    p ← exact_help cmds (take (length line - 1) line);
    match p with
    | Some p => c ← cli_puts [10] c; print_help p c
    | None => Ret c
    end
  else Ret c.

Definition list_matches (list_only : bool) (first : cli_cmd) (nmatch : Z) (ed : cli_ed_t) (line : list Z) (c : cli)
    : res cli :=
  c ← cli_puts [10] c;
  if (list_only && (nmatch =? 1) && Nat.eqb (length (cc_cmd first)) (length line))%bool
  then print_help first c
  else
    word_start ← skip_left word_fuel (ed_buf ed) false (ed_len ed);
    list_loop cmds line word_start [] c.

Definition do_completion (list_only : bool) (ed : cli_ed_t) (c : cli) : res (cli_ed_t * cli) :=
  line ← rd (ed_buf ed) 0 (ed_len ed);
  let plen := ed_len ed in
  '(first, common, nmatch) ← count_matches cmds line None 0 0;
  match first with
  | None => c ← trimmed_help list_only line c; Ret (ed, c)
  | Some first =>
      if (negb list_only && (plen <? common))%bool then
        ed ← insert_common (Z.to_nat (common - plen)) (cc_cmd first) plen ed;
        ed ← (if (((nmatch =? 1) && (cmd_at (cc_cmd first) common =? 0)) || (cmd_at (cc_cmd first) common =? 95))%bool
              then cli_ed_insert [32] ed else Ret ed);
        Ret (ed, c)
      else
        c ← list_matches list_only first nmatch ed line c; Ret (ed, c)
  end.

(** ** The loop *)

Definition s_clear_line : list Z := [13; 27; 91; 50; 75].
Definition s_clear_screen : list Z := [27; 91; 50; 74; 27; 91; 72].
Definition s_crlf : list Z := [13; 10].
Definition s_rubout : list Z := [8; 32; 8].
Definition s_column : list Z := 27 :: lit "[%dG".

Definition cli_prompt (promptchar : Z) (c : cli) : res (Z * cli) :=
  c ← cli_puts s_clear_line c;
  '(len, c) ← (match hostname with
               | [] => Ret (0, c)
               | _ => cli_printf (lit "%s") [AStr (cobj hostname)] c
               end);
  '(n, c) ← cli_printf (lit "%c ") [AInt promptchar] c;
  Ret (len + n, c).

Definition redraw_line (promptchar : Z) (ed : cli_ed_t) (c : cli) : res cli :=
  '(prompt_len, c) ← cli_prompt promptchar c;
  '(_, c) ← cli_printf (lit "%s") [AStr (Some (ed_buf ed))] c;
  '(_, c) ← cli_printf s_column [AInt (s32 (prompt_len + ed_pos ed + 1))] c;
  Ret c.

Record shell := Shell {
  sh_ed : cli_ed_t;
  sh_history : history;
  sh_offset : Z;
  sh_saved : option (list Z);
  sh_mem : list bool;
  sh_cli : cli }.

(** After the line is gone. *)
Definition fresh_line (promptchar : Z) (ed : cli_ed_t) (h : history) (mem : list bool) (c : cli) : res shell :=
  ed ← cli_ed_clear ed;
  c ← redraw_line promptchar ed c;
  Ret (Shell ed h (-1) None mem c).

Definition loop_enter (promptchar : Z) (s : shell) : res shell :=
  c ← cli_puts s_crlf (sh_cli s);
  first ← char_at (ed_buf (sh_ed s)) 0;
  if first =? 0 then fresh_line promptchar (sh_ed s) (sh_history s) (sh_mem s) c
  else
    line ← str_at (ed_buf (sh_ed s));
    '(h, mem) ← history_add line (sh_history s) (sh_mem s);
    c ← dispatch_command (ed_buf (sh_ed s)) c;
    fresh_line promptchar (sh_ed s) h mem c.

Definition loop_hist_up (promptchar : Z) (s : shell) : res shell :=
  let next := sh_offset s + 1 in
  '(str, mem) ← history_get next (sh_history s) (sh_mem s);
  s ← (match str with
       | Some str =>
           line ← str_at (ed_buf (sh_ed s));
           let '(saved, mem) := if sh_offset s =? -1 then strdup line mem else (sh_saved s, mem) in
           ed ← cli_ed_set (Some str) (sh_ed s);
           Ret (Shell ed (sh_history s) next saved mem (sh_cli s))
       | None => Ret (Shell (sh_ed s) (sh_history s) (sh_offset s) (sh_saved s) mem (sh_cli s))
       end);
  c ← redraw_line promptchar (sh_ed s) (sh_cli s);
  Ret (Shell (sh_ed s) (sh_history s) (sh_offset s) (sh_saved s) (sh_mem s) c).

Definition loop_hist_down (promptchar : Z) (s : shell) : res shell :=
  s ← (if 0 <? sh_offset s then
         let offset := sh_offset s - 1 in
         '(str, mem) ← history_get offset (sh_history s) (sh_mem s);
         ed ← cli_ed_set str (sh_ed s);
         Ret (Shell ed (sh_history s) offset (sh_saved s) mem (sh_cli s))
       else if sh_offset s =? 0 then
         ed ← cli_ed_set (sh_saved s) (sh_ed s);
         Ret (Shell ed (sh_history s) (-1) None (sh_mem s) (sh_cli s))
       else Ret s);
  c ← redraw_line promptchar (sh_ed s) (sh_cli s);
  Ret (Shell (sh_ed s) (sh_history s) (sh_offset s) (sh_saved s) (sh_mem s) c).

(** What a change of the line does to the terminal. *)
Definition loop_none (promptchar old_pos old_len : Z) (ed : cli_ed_t) (c : cli) : res cli :=
  if ((ed_len ed =? old_len) && (ed_pos ed =? old_pos))%bool then Ret c
  else if ((ed_pos ed =? ed_len ed) && (ed_len ed =? old_len + 1) && (ed_pos ed =? old_pos + 1))%bool then
    x ← char_at (ed_buf ed) (ed_pos ed - 1);
    '(_, c) ← cli_printf (lit "%c") [AInt x] c; Ret c
  else if ((ed_pos ed =? ed_len ed) && (ed_len ed =? old_len - 1) && (ed_pos ed =? old_pos - 1))%bool then
    cli_puts s_rubout c
  else redraw_line promptchar ed c.

(** One round of [cli_loop]; the result is whether the loop goes on. *)
Definition cli_round (promptchar ch : Z) (s : shell) : res (bool * shell) :=
  let '(old_pos, old_len) := (ed_pos (sh_ed s), ed_len (sh_ed s)) in
  '(ev, ed) ← cli_ed_input ch (sh_ed s);
  let s := Shell ed (sh_history s) (sh_offset s) (sh_saved s) (sh_mem s) (sh_cli s) in
  let keep (ed : cli_ed_t) (c : cli) : shell := Shell ed (sh_history s) (sh_offset s) (sh_saved s) (sh_mem s) c in
  match ev with
  | CLI_ED_ENTER => s ← loop_enter promptchar s; Ret (true, s)
  | CLI_ED_TAB =>
      '(ed, c) ← do_completion false ed (sh_cli s);
      c ← redraw_line promptchar ed c; Ret (true, keep ed c)
  | CLI_ED_HELP =>
      '(ed, c) ← do_completion true ed (sh_cli s);
      c ← redraw_line promptchar ed c; Ret (true, keep ed c)
  | CLI_ED_HIST_UP => s ← loop_hist_up promptchar s; Ret (true, s)
  | CLI_ED_HIST_DOWN => s ← loop_hist_down promptchar s; Ret (true, s)
  | CLI_ED_CLEAR =>
      c ← cli_puts s_clear_screen (sh_cli s);
      c ← redraw_line promptchar ed c; Ret (true, keep ed c)
  | CLI_ED_CANCEL =>
      c ← cli_puts s_crlf (sh_cli s);
      s ← fresh_line promptchar ed (sh_history s) (sh_mem s) c; Ret (true, s)
  | CLI_ED_EOF => c ← cli_puts s_crlf (sh_cli s); Ret (false, keep ed c)
  | CLI_ED_NONE =>
      c ← loop_none promptchar old_pos old_len ed (sh_cli s); Ret (true, keep ed c)
  end.

(** The loop over the characters that come, until it ends or no more come. *)
Fixpoint cli_rounds (promptchar : Z) (input : list Z) (s : shell) : res (bool * shell) :=
  match input with
  | [] => Ret (true, s)
  | ch :: input =>
      '(more, s) ← cli_round promptchar ch s;
      if (more : bool) then cli_rounds promptchar input s else Ret (false, s)
  end.
Definition cli_loop (promptchar : Z) (input : list Z) (h : history) (mem : list bool) (c : cli) : res (bool * shell) :=
  c ← redraw_line promptchar cli_ed_init c;
  cli_rounds promptchar input (Shell cli_ed_init h (-1) None mem c).
End Cli.
