(* ===== verification/ShellSpec.v ===== *)
(** * ShellSpec: the line, the history and the terminal

    [rep] ties the buffer of the editor to the text before and after the cursor; on that
    the editor is a few list operations ([apply_key]).  [recent] ties the ring of the
    history to the list of lines, newest first.  [screen] is a terminal that understands
    the sequences the shell sends: it shows the line the editor holds. *)

From Stdlib Require Import Strings.String ZArith Lia.
From stdpp Require Import base list numbers.
From S2P Require Import Prelude LibC Stdio Shell.

Open Scope Z_scope.

(** ** The line *)

Definition printable (c : Z) : Prop := 32 <= c < 127.

(** The text before and after the cursor. *)
Record rep (l r : list Z) (ed : cli_ed_t) : Prop := {
  rep_buf : ∃ junk, ed_buf ed = l ++ r ++ 0 :: junk;
  rep_size : length (ed_buf ed) = 80%nat;
  rep_pos : ed_pos ed = Z.of_nat (length l);
  rep_len : ed_len ed = Z.of_nat (length l) + Z.of_nat (length r);
  rep_chars : Forall printable (l ++ r) }.

Fixpoint drop_while (p : Z → bool) (l : list Z) : list Z :=
  match l with [] => [] | x :: l' => if p x then drop_while p l' else l end.
Definition blank (c : Z) : bool := c =? 32.
Definition word_char (c : Z) : bool := negb (c =? 32).

(** What is left of a text without its last word, without its first word. *)
Definition before_word (l : list Z) : list Z := rev (drop_while word_char (drop_while blank (rev l))).
Definition after_word (r : list Z) : list Z := drop_while blank (drop_while word_char r).

Inductive key :=
| KNone | KInsert (c : Z) | KLeft | KRight | KHome | KEnd | KDelete | KBackspace
| KKillEnd | KKillLine | KKillWord | KWordLeft | KWordRight | KEof | KEvent (ev : cli_ed_event_t).

Definition apply_key (k : key) (l r : list Z) : cli_ed_event_t * (list Z * list Z) :=
  match k with
  | KNone => (CLI_ED_NONE, (l, r))
  | KInsert c => (CLI_ED_NONE, if (length l + length r <? 79)%nat then (l ++ [c], r) else (l, r))
  | KLeft => (CLI_ED_NONE, (removelast l, match l with [] => r | _ => List.last l 0 :: r end))
  | KRight => (CLI_ED_NONE, match r with [] => (l, r) | x :: r => (l ++ [x], r) end)
  | KHome => (CLI_ED_NONE, ([], l ++ r))
  | KEnd => (CLI_ED_NONE, (l ++ r, []))
  | KDelete => (CLI_ED_NONE, (l, tail r))
  | KBackspace => (CLI_ED_NONE, (removelast l, r))
  | KKillEnd => (CLI_ED_NONE, (l, []))
  | KKillLine => (CLI_ED_NONE, ([], []))
  | KKillWord => (CLI_ED_NONE, (before_word l, r))
  | KWordLeft => (CLI_ED_NONE, (before_word l, drop (length (before_word l)) l ++ r))
  | KWordRight => (CLI_ED_NONE, (l ++ take (length r - length (after_word r)) r, after_word r))
  | KEof => match l ++ r with [] => (CLI_ED_EOF, (l, r)) | _ => (CLI_ED_NONE, (l, tail r)) end
  | KEvent ev => (ev, (l, r))
  end.

(** The keys behind the characters: the state of the escape sequence and what comes out. *)
Definition csi_key (p1 p2 c : Z) : key :=
  if c =? 65 then KEvent CLI_ED_HIST_UP else if c =? 66 then KEvent CLI_ED_HIST_DOWN
  else if c =? 67 then (if p2 =? 5 then KWordRight else KRight)
  else if c =? 68 then (if p2 =? 5 then KWordLeft else KLeft)
  else if c =? 72 then KHome else if c =? 70 then KEnd
  else if c =? 126 then (if p1 =? 3 then KDelete else KNone)
  else KNone.
Definition plain_key (c : Z) : key :=
  if c =? 1 then KHome else if c =? 2 then KLeft else if c =? 3 then KEvent CLI_ED_CANCEL
  else if c =? 4 then KEof else if c =? 5 then KEnd else if c =? 6 then KRight
  else if c =? 9 then KEvent CLI_ED_TAB else if ((c =? 10) || (c =? 13))%bool then KEvent CLI_ED_ENTER
  else if c =? 11 then KKillEnd else if c =? 12 then KEvent CLI_ED_CLEAR else if c =? 21 then KKillLine
  else if c =? 23 then KKillWord else if ((c =? 127) || (c =? 8))%bool then KBackspace
  else if c =? 63 then KEvent CLI_ED_HELP
  else if ((32 <=? c) && (c <? 127))%bool then KInsert c else KNone.
Definition decode (st : esc * Z * Z) (c : Z) : (esc * Z * Z) * key :=
  let '(s, p1, p2) := st in
  match s with
  | CLI_ESC_ESC =>
      if c =? 91 then ((CLI_ESC_BRACKET, 0, 0), KNone)
      else ((CLI_ESC_NONE, p1, p2), if c =? 98 then KWordLeft else if c =? 102 then KWordRight else KNone)
  | CLI_ESC_BRACKET =>
      if digit c then ((CLI_ESC_PARAM1, c - 48, p2), KNone) else ((CLI_ESC_NONE, p1, p2), csi_key p1 p2 c)
  | CLI_ESC_PARAM1 =>
      if digit c then ((CLI_ESC_PARAM1, u8 (p1 * 10 + (c - 48)), p2), KNone)
      else if c =? 59 then ((CLI_ESC_SEMI, p1, p2), KNone) else ((CLI_ESC_NONE, p1, p2), csi_key p1 p2 c)
  | CLI_ESC_SEMI =>
      if digit c then ((CLI_ESC_PARAM2, p1, c - 48), KNone) else ((CLI_ESC_NONE, p1, p2), KNone)
  | CLI_ESC_PARAM2 =>
      if digit c then ((CLI_ESC_PARAM2, p1, u8 (p2 * 10 + (c - 48))), KNone)
      else ((CLI_ESC_NONE, p1, p2), csi_key p1 p2 c)
  | CLI_ESC_NONE => if c =? 27 then ((CLI_ESC_ESC, p1, p2), KNone) else ((CLI_ESC_NONE, p1, p2), plain_key c)
  end.
Definition esc_of (ed : cli_ed_t) : esc * Z * Z := (esc_state ed, esc_param1 ed, esc_param2 ed).

(** *** Moving bytes *)

Lemma cut_at {A} (l : list A) n : (n <= length l)%nat → ∃ t u, l = t ++ u ∧ length t = n.
Proof. intros. exists (take n l), (drop n l). rewrite take_drop, length_take. split; [done|lia]. Qed.

Lemma char_at_mid l x r off : off = Z.of_nat (length l) → char_at (l ++ x :: r) off = Ret x.
Proof. intros ->. unfold char_at. by rewrite (rd_at l [x] r). Qed.

Lemma drop_while_suffix p l : ∃ w, l = w ++ drop_while p l.
Proof.
  induction l as [|x l [w IH]]; [by exists []|]. cbn. case_match; [|by exists []].
  exists (x :: w). cbn. by rewrite <- IH.
Qed.
Lemma after_word_suffix r : ∃ w, r = w ++ after_word r.
Proof.
  destruct (drop_while_suffix word_char r) as [w1 E1], (drop_while_suffix blank (drop_while word_char r)) as [w2 E2].
  exists (w1 ++ w2). unfold after_word. by rewrite <- app_assoc, <- E2.
Qed.
Lemma before_word_prefix l : ∃ w, l = before_word l ++ w.
Proof.
  destruct (drop_while_suffix blank (rev l)) as [w1 E1].
  destruct (drop_while_suffix word_char (drop_while blank (rev l))) as [w2 E2].
  exists (rev (w1 ++ w2)). unfold before_word. rewrite <- rev_app_distr, <- app_assoc, <- E2, <- E1. symmetry. apply rev_involutive.
Qed.

Lemma skip_left_ok bl post : ∀ fuel l, (length l < fuel)%nat →
  skip_left fuel (l ++ post) bl (Z.of_nat (length l)) =
    Ret (Z.of_nat (length (rev (drop_while (λ c, Bool.eqb (c =? 32) bl) (rev l))))).
Proof.
  intros fuel l. revert fuel post. induction l as [|x l IH] using rev_ind; intros fuel post Hf;
    (destruct fuel as [|fuel]; [lia|]); cbn [skip_left]; [done|].
  rewrite length_app in *. cbn [length] in *. rewrite (proj2 (Z.ltb_lt _ _)) by lia. cbn [negb].
  rewrite <- app_assoc. cbn [app]. rewrite char_at_mid by lia. cbn [mbind res_bind].
  rewrite rev_app_distr. cbn [rev app drop_while]. destruct (Bool.eqb (x =? 32) bl).
  - replace (Z.of_nat (length l + 1) - 1) with (Z.of_nat (length l)) by lia. apply IH. lia.
  - rewrite length_rev. cbn [length]. rewrite length_rev. do 2 f_equal. lia.
Qed.

Lemma skip_right_ok bl post : ∀ r pre fuel, (length r < fuel)%nat →
  skip_right fuel (pre ++ r ++ post) (Z.of_nat (length pre) + Z.of_nat (length r)) bl (Z.of_nat (length pre)) =
    Ret (Z.of_nat (length pre) + Z.of_nat (length r) - Z.of_nat (length (drop_while (λ c, Bool.eqb (c =? 32) bl) r))).
Proof.
  induction r as [|x r IH]; intros pre fuel Hf; (destruct fuel as [|fuel]; [lia|]); cbn [skip_right drop_while length].
  - rewrite (proj2 (Z.ltb_ge _ _)) by lia. cbn. f_equal. lia.
  - rewrite (proj2 (Z.ltb_lt _ _)) by lia. cbn [negb app]. rewrite char_at_mid by done. cbn [mbind res_bind].
    destruct (Bool.eqb (x =? 32) bl); [|f_equal; cbn [length]; lia].
    specialize (IH (pre ++ [x]) fuel ltac:(cbn in Hf; lia)). rewrite length_app in IH. cbn [length] in IH.
    rewrite <- app_assoc in IH. cbn [app] in IH.
    replace (Z.of_nat (length pre) + Z.of_nat (S (length r))) with (Z.of_nat (length pre + 1) + Z.of_nat (length r)) by lia.
    replace (Z.of_nat (length pre) + 1) with (Z.of_nat (length pre + 1)) by lia. exact IH.
Qed.

(** *** The operations on the buffer *)

Lemma rep_bounds l r ed : rep l r ed → (length l + length r < 80)%nat.
Proof. intros [(junk & Eb) Hs _ _ _]. rewrite Eb, !length_app in Hs. cbn in Hs. lia. Qed.

Lemma rep_set_esc l r ed s p1 p2 : rep l r ed → rep l r (set_esc s p1 p2 ed).
Proof. intros [? ? ? ? ?]. by split. Qed.

Lemma rep_init : rep [] [] cli_ed_init.
Proof. split; try done. by exists (replicate 79 0). Qed.

(** The cursor alone moves. *)
Lemma rep_move l r l' r' ed : rep l r ed → l ++ r = l' ++ r' → rep l' r' (set_pos (Z.of_nat (length l')) ed).
Proof.
  intros [(junk & Eb) Hs Hp Hl Hc] E. pose proof (f_equal length E) as El. rewrite !length_app in El.
  split; cbn; [|done|done|lia|by rewrite <- E]. exists junk. by rewrite Eb, !app_assoc, E.
Qed.

Lemma rep_line l r ed buf l' r' : rep l r ed → (∃ junk, buf = l' ++ r' ++ 0 :: junk) → length buf = 80%nat →
  Forall printable (l' ++ r') →
  rep l' r' (set_line buf (Z.of_nat (length l')) (Z.of_nat (length l') + Z.of_nat (length r')) ed).
Proof. intros _ Hb Hs Hc. by split. Qed.

Lemma put_char_ok c l r ed : rep l r ed → printable c → ∃ ed', put_char c ed = Ret ed' ∧ esc_of ed' = esc_of ed ∧
  if (length l + length r <? 79)%nat then rep (l ++ [c]) r ed' else ed' = ed.
Proof.
  intros Hr Hc. pose proof Hr as [(junk & Eb) Hs Hp Hl Hch]. unfold put_char, CLI_LINE_BUF_SIZE. rewrite Hl, Hp.
  destruct (Nat.ltb_spec (length l + length r) 79).
  2: { rewrite (proj2 (Z.leb_le _ _)) by lia. by exists ed. }
  rewrite (proj2 (Z.leb_gt _ _)) by lia. rewrite Eb, !length_app in Hs. cbn in Hs.
  destruct junk as [|y junk]; [cbn in Hs; lia|]. cbn in Hs.
  destruct (r ++ [0]) as [|h t] eqn:Et; [by destruct r|].
  assert (length t = length r) as Lt by (apply (f_equal length) in Et; rewrite length_app in Et; cbn in Et; lia).
  assert (ed_buf ed = (l ++ [h]) ++ t ++ y :: junk) as Eb2.
  { rewrite Eb, <- app_assoc. cbn [app]. f_equal. change (h :: t ++ y :: junk) with ((h :: t) ++ y :: junk).
    by rewrite <- Et, <- app_assoc. }
  unfold memmove. replace (Z.of_nat (length l) + Z.of_nat (length r) - Z.of_nat (length l)) with (Z.of_nat (length r)) by lia.
  rewrite Eb, (rd_at l r) by done. cbn [mbind res_bind]. rewrite <- Eb, Eb2.
  rewrite (wr_at (l ++ [h]) t r (y :: junk)) by (rewrite ?length_app; cbn; lia). cbn [mbind res_bind].
  rewrite <- app_assoc, (wr_at l [h] [c]) by done. cbn [mbind res_bind].
  replace (l ++ [c] ++ r ++ y :: junk) with ((l ++ [c] ++ r) ++ [y] ++ junk) by (by rewrite <- !app_assoc).
  rewrite (wr_at _ [y] [0]) by (rewrite ?length_app; cbn; lia). cbn [mbind res_bind].
  eexists. split; [done|]. split; [done|].
  replace (Z.of_nat (length l) + 1) with (Z.of_nat (length (l ++ [c]))) by (rewrite length_app; cbn; lia).
  replace (Z.of_nat (length l) + Z.of_nat (length r) + 1) with (Z.of_nat (length (l ++ [c])) + Z.of_nat (length r))
    by (rewrite length_app; cbn; lia).
  apply (rep_line l r).
  - done.
  - exists junk. by rewrite <- !app_assoc.
  - rewrite !length_app in *. cbn in *. lia.
  - rewrite <- app_assoc. apply Forall_app in Hch as [H1 H2]. apply Forall_app. split; [done|]. by apply Forall_cons_2.
Qed.

Lemma delete_ok l x r ed : rep l (x :: r) ed → ∃ ed', delete_char_at (Z.of_nat (length l)) ed = Ret ed' ∧
  esc_of ed' = esc_of ed ∧ ed_pos ed' = ed_pos ed ∧ (∀ p, rep l r (set_pos p ed') ↔ p = Z.of_nat (length l)).
Proof.
  intros Hr. pose proof Hr as [(junk & Eb) Hs Hp Hl Hch]. unfold delete_char_at. rewrite Hl. cbn [length].
  rewrite (proj2 (Z.leb_gt _ _)) by lia. unfold memmove.
  replace (Z.of_nat (length l) + Z.of_nat (S (length r)) - Z.of_nat (length l) - 1) with (Z.of_nat (length r)) by lia.
  replace (ed_buf ed) with ((l ++ [x]) ++ r ++ 0 :: junk) by (by rewrite Eb, <- app_assoc).
  rewrite rd_at by (rewrite length_app; cbn; lia). cbn [mbind res_bind].
  destruct (cut_at (x :: r) (length r)) as (t & u & Et & Lt); [cbn; lia|].
  assert (length u = 1%nat) as Lu by (apply (f_equal length) in Et; rewrite length_app in Et; cbn in Et; lia).
  destruct u as [|h [|]]; try done.
  replace ((l ++ [x]) ++ r ++ 0 :: junk) with (l ++ t ++ [h] ++ 0 :: junk)
    by (rewrite <- app_assoc; cbn [app]; f_equal; change (x :: r ++ 0 :: junk) with ((x :: r) ++ 0 :: junk);
        by rewrite Et, <- app_assoc).
  rewrite wr_at by done. cbn [mbind res_bind].
  replace (l ++ r ++ [h] ++ 0 :: junk) with ((l ++ r) ++ [h] ++ 0 :: junk) by (by rewrite <- app_assoc).
  rewrite (wr_at _ [h] [0]) by (rewrite ?length_app; cbn; lia). cbn [mbind res_bind].
  eexists. split; [done|]. split; [done|]. split; [done|]. intros p. split; [by intros [_ _ ? _ _]|]. intros ->.
  rewrite Eb, !length_app in Hs. cbn in Hs.
  split; cbn; [exists (0 :: junk); by rewrite <- app_assoc|rewrite !length_app; cbn; lia|done|lia|].
  apply Forall_app in Hch as [H1 [_ H2]%Forall_cons_1]. by apply Forall_app.
Qed.

Lemma clear_ok l r ed : rep l r ed → ∃ ed', cli_ed_clear ed = Ret ed' ∧ esc_of ed' = esc_of ed ∧ rep [] [] ed'.
Proof.
  intros Hr. pose proof Hr as [(junk & Eb) Hs Hp Hl Hch]. unfold cli_ed_clear.
  destruct (ed_buf ed) as [|y b] eqn:E; [done|]. rewrite (wr_at [] [y] [0] b) by done. cbn [mbind res_bind].
  eexists. split; [done|]. split; [done|]. apply (rep_line l r); [done|by exists b|cbn in Hs |- *; lia|done].
Qed.

Lemma set_ok text l r ed : rep l r ed → match text with Some t => Forall printable t | None => True end →
  ∃ ed', cli_ed_set text ed = Ret ed' ∧ esc_of ed' = esc_of ed ∧
    rep (match text with Some t => take 79 t | None => [] end) [] ed'.
Proof.
  intros Hr Ht. destruct text as [t|]; [|by apply (clear_ok l r)]. pose proof Hr as [_ Hs _ _ _].
  unfold cli_ed_set, CLI_LINE_BUF_SIZE. set (tlen := if _ <=? _ then _ else _).
  assert (tlen = Z.of_nat (length (take 79 t)) ∧ take (Z.to_nat tlen) t = take 79 t ∧ (length (take 79 t) <= 79)%nat)
    as (El & -> & Hle).
  { rewrite length_take. unfold tlen. case_match; bool_to_prop; [split_and!; try done; lia|].
    split_and!; [lia| |lia]. rewrite !take_ge by lia. done. }
  rewrite El. destruct (cut_at (ed_buf ed) (length (take 79 t))) as (b & u & Eb & Lb); [lia|]. rewrite Eb in Hs |- *.
  rewrite length_app in Hs. destruct u as [|y u]; [cbn in Hs; lia|].
  rewrite (wr_at [] b (take 79 t) (y :: u)) by done. cbn [mbind res_bind app].
  rewrite (wr_at (take 79 t) [y] [0] u) by done. cbn [mbind res_bind].
  eexists. split; [done|]. split; [done|].
  pose proof (rep_line l r ed (take 79 t ++ [0] ++ u) (take 79 t) [] Hr) as H. rewrite Z.add_0_r in H. apply H.
  - by exists u.
  - rewrite !length_app in *. cbn in *. lia.
  - rewrite app_nil_r. by apply Forall_take.
Qed.

Lemma kill_end_ok l r ed : rep l r ed → ∃ buf, wr (ed_buf ed) (ed_pos ed) [0] = Ret buf ∧
  rep l [] (set_line buf (ed_pos ed) (ed_pos ed) ed).
Proof.
  intros Hr. pose proof Hr as [(junk & Eb) Hs Hp Hl Hch]. rewrite Eb, Hp.
  destruct (r ++ 0 :: junk) as [|y u] eqn:Eu; [by destruct r|]. rewrite (wr_at l [y] [0] u) by done.
  eexists. split; [done|]. pose proof (rep_line l r ed (l ++ [0] ++ u) l [] Hr) as H. rewrite Z.add_0_r in H. apply H.
  - by exists u.
  - rewrite Eb, ?Eu in Hs. rewrite !length_app in *. cbn in *. lia.
  - rewrite app_nil_r. by apply Forall_app in Hch as [? _].
Qed.

Lemma skip_word_left l r ed : rep l r ed →
  (pos ← skip_left word_fuel (ed_buf ed) true (ed_pos ed); skip_left word_fuel (ed_buf ed) false pos) =
    Ret (Z.of_nat (length (before_word l))).
Proof.
  intros Hr. pose proof Hr as [(junk & Eb) Hs Hp Hl Hch]. pose proof (rep_bounds _ _ _ Hr). rewrite Eb, Hp.
  rewrite skip_left_ok by (unfold word_fuel; lia). cbn [mbind res_bind].
  assert (∀ k, drop_while (λ c, Bool.eqb (c =? 32) true) k = drop_while blank k) as D1.
  { induction k as [|x k IH]; [done|]. cbn. unfold blank. rewrite IH. by destruct (x =? 32). }
  assert (∀ k, drop_while (λ c, Bool.eqb (c =? 32) false) k = drop_while word_char k) as D2.
  { induction k as [|x k IH]; [done|]. cbn. unfold word_char. rewrite IH. by destruct (x =? 32). }
  rewrite D1. destruct (drop_while_suffix blank (rev l)) as [w Ew]. set (l1 := rev (drop_while blank (rev l))).
  assert (l = l1 ++ rev w) as El by (unfold l1; rewrite <- rev_app_distr, <- Ew; symmetry; apply rev_involutive).
  rewrite El at 1. rewrite <- app_assoc, skip_left_ok.
  - rewrite D2. unfold before_word, l1. by rewrite rev_involutive.
  - rewrite El, length_app in H. unfold word_fuel. lia.
Qed.

Lemma skip_word_right l r ed : rep l r ed →
  (pos ← skip_right word_fuel (ed_buf ed) (ed_len ed) false (ed_pos ed);
   skip_right word_fuel (ed_buf ed) (ed_len ed) true pos) =
    Ret (Z.of_nat (length l) + Z.of_nat (length r) - Z.of_nat (length (after_word r))).
Proof.
  intros Hr. pose proof Hr as [(junk & Eb) Hs Hp Hl Hch]. pose proof (rep_bounds _ _ _ Hr). rewrite Eb, Hp, Hl.
  rewrite skip_right_ok by (unfold word_fuel; lia). cbn [mbind res_bind].
  assert (∀ k, drop_while (λ c, Bool.eqb (c =? 32) true) k = drop_while blank k) as D1.
  { induction k as [|x k IH]; [done|]. cbn. unfold blank. rewrite IH. by destruct (x =? 32). }
  assert (∀ k, drop_while (λ c, Bool.eqb (c =? 32) false) k = drop_while word_char k) as D2.
  { induction k as [|x k IH]; [done|]. cbn. unfold word_char. rewrite IH. by destruct (x =? 32). }
  rewrite D2. destruct (drop_while_suffix word_char r) as [w Ew]. set (r1 := drop_while word_char r) in *.
  assert (length r = length w + length r1)%nat as Lr by (rewrite <- length_app; by f_equal).
  replace (l ++ r ++ 0 :: junk) with ((l ++ w) ++ r1 ++ 0 :: junk) by (rewrite Ew; by rewrite <- !app_assoc).
  replace (Z.of_nat (length l) + Z.of_nat (length r) - Z.of_nat (length r1)) with (Z.of_nat (length (l ++ w)))
    by (rewrite length_app; lia).
  replace (Z.of_nat (length l) + Z.of_nat (length r)) with (Z.of_nat (length (l ++ w)) + Z.of_nat (length r1))
    by (rewrite length_app; lia).
  rewrite skip_right_ok by (unfold word_fuel; lia). rewrite D1. done.
Qed.

Lemma kill_word_ok l r ed : rep l r ed → ∃ ed', kill_word_back ed = Ret ed' ∧ esc_of ed' = esc_of ed ∧
  rep (before_word l) r ed'.
Proof.
  intros Hr. pose proof (skip_word_left l r ed Hr) as Hsk. pose proof Hr as [(junk & Eb) Hs Hp Hl Hch].
  unfold kill_word_back. case_match eqn:E0; bool_to_prop.
  { exists ed. rewrite Hp in E0. destruct l; [|cbn in E0; lia]. done. }
  apply res_bind_ret in Hsk as (p1 & -> & E1). cbn [mbind res_bind]. rewrite E1. cbn [mbind res_bind].
  destruct (before_word_prefix l) as [w Ew]. set (l' := before_word l) in *.
  assert (length l = length l' + length w)%nat as Ll by (rewrite <- length_app; by f_equal).
  unfold memmove. rewrite Hp, Hl.
  replace (Z.of_nat (length l) + Z.of_nat (length r) - Z.of_nat (length l)) with (Z.of_nat (length r)) by lia.
  rewrite Eb, rd_at by done. cbn [mbind res_bind].
  destruct (cut_at (w ++ r) (length r)) as (t & u & Et & Lt); [rewrite length_app; lia|].
  assert (length u = length w) as Lu by (apply (f_equal length) in Et; rewrite !length_app in Et; lia).
  replace (l ++ r ++ 0 :: junk) with (l' ++ t ++ u ++ 0 :: junk)
    by (rewrite (app_assoc t), <- Et, <- app_assoc, app_assoc; f_equal; by symmetry).
  rewrite wr_at by done. cbn [mbind res_bind].
  destruct (u ++ 0 :: junk) as [|h u'] eqn:Eu; [by destruct u|].
  replace (l' ++ r ++ h :: u') with ((l' ++ r) ++ [h] ++ u') by (by rewrite <- app_assoc).
  rewrite (wr_at _ [h] [0]) by (rewrite ?length_app; cbn; lia). cbn [mbind res_bind].
  eexists. split; [done|]. split; [done|].
  replace (Z.of_nat (length l) + Z.of_nat (length r) - (Z.of_nat (length l) - Z.of_nat (length l')))
    with (Z.of_nat (length l') + Z.of_nat (length r)) by lia.
  apply (rep_line l r); [done|exists u'; by rewrite <- app_assoc|..].
  - rewrite Eb, !length_app in Hs. cbn in Hs. apply (f_equal length) in Eu. rewrite length_app in Eu. cbn in Eu.
    rewrite !length_app. cbn. lia.
  - apply Forall_app in Hch as [H1 H2]. rewrite Ew in H1. apply Forall_app in H1 as [H1 _]. by apply Forall_app.
Qed.

(** *** Every key *)

(** A call ends with an event, the state of the escape sequence and a line. *)
Definition lands (m : res (cli_ed_event_t * cli_ed_t)) (e : esc * Z * Z)
    (o : cli_ed_event_t * (list Z * list Z)) : Prop :=
  ∃ ed', m = Ret (o.1, ed') ∧ esc_of ed' = e ∧ rep o.2.1 o.2.2 ed'.

Lemma lands_none m e l r : (∃ ed', m = Ret ed' ∧ esc_of ed' = e ∧ rep l r ed') → lands (none m) e (CLI_ED_NONE, (l, r)).
Proof. intros (ed' & -> & ? & ?). by exists ed'. Qed.

Section Keys.
Context (l r : list Z) (ed : cli_ed_t) (Hr : rep l r ed).

Lemma lands_event ev : lands (Ret (ev, ed)) (esc_of ed) (apply_key (KEvent ev) l r).
Proof. by exists ed. Qed.
Lemma lands_stay : lands (none (Ret ed)) (esc_of ed) (apply_key KNone l r).
Proof. apply lands_none. by exists ed. Qed.
Lemma lands_home : lands (none (Ret (set_pos 0 ed))) (esc_of ed) (apply_key KHome l r).
Proof. apply lands_none. eexists. split; [done|]. split; [done|]. by apply (rep_move l r []). Qed.
Lemma lands_end : lands (none (Ret (set_pos (ed_len ed) ed))) (esc_of ed) (apply_key KEnd l r).
Proof.
  apply lands_none. eexists. split; [done|]. split; [done|]. rewrite (rep_len _ _ _ Hr).
  replace (Z.of_nat (length l) + Z.of_nat (length r)) with (Z.of_nat (length (l ++ r))) by (rewrite length_app; lia).
  apply (rep_move l r); [done|by rewrite app_nil_r].
Qed.
Lemma lands_left : lands (none (Ret (move_left ed))) (esc_of ed) (apply_key KLeft l r).
Proof.
  apply lands_none. unfold move_left. rewrite (rep_pos _ _ _ Hr).
  destruct l as [|x l' _] eqn:El using rev_ind; [by exists ed|]. rewrite length_app. cbn [length].
  rewrite (proj2 (Z.ltb_lt _ _)), removelast_last by lia.
  eexists. split; [done|]. split; [done|]. replace (Z.of_nat (length l' + 1) - 1) with (Z.of_nat (length l')) by lia.
  assert (match l' ++ [x] with [] => r | _ => List.last (l' ++ [x]) 0 :: r end = x :: r) as ->
    by (rewrite List.last_last; by destruct l').
  apply (rep_move (l' ++ [x]) r); [done|by rewrite <- app_assoc].
Qed.
Lemma lands_right : lands (none (Ret (move_right ed))) (esc_of ed) (apply_key KRight l r).
Proof.
  unfold apply_key. unfold move_right. rewrite (rep_pos _ _ _ Hr), (rep_len _ _ _ Hr).
  destruct r as [|x r'].
  { rewrite (proj2 (Z.ltb_ge _ _)) by (cbn; lia). apply lands_none. by exists ed. }
  cbn [length]. rewrite (proj2 (Z.ltb_lt _ _)) by lia. apply lands_none. eexists. split; [done|]. split; [done|].
  replace (Z.of_nat (length l) + 1) with (Z.of_nat (length (l ++ [x]))) by (rewrite length_app; cbn; lia).
  apply (rep_move l (x :: r')); [done|by rewrite <- app_assoc].
Qed.
Lemma lands_delete : lands (none (delete_char_at (ed_pos ed) ed)) (esc_of ed) (apply_key KDelete l r).
Proof.
  apply lands_none. destruct r as [|x r'].
  - unfold delete_char_at. rewrite (rep_pos _ _ _ Hr), (rep_len _ _ _ Hr). cbn [length].
    rewrite (proj2 (Z.leb_le _ _)) by lia. by exists ed.
  - destruct (delete_ok l x r' ed Hr) as (ed' & E & He & Hp & H). rewrite (rep_pos _ _ _ Hr), E. exists ed'.
    split; [done|]. split; [done|]. rewrite (rep_pos _ _ _ Hr) in Hp.
    pose proof (proj2 (H (ed_pos ed')) Hp) as H2. by destruct ed'.
Qed.
Lemma lands_backspace : lands (none (backspace ed)) (esc_of ed) (apply_key KBackspace l r).
Proof.
  apply lands_none. unfold backspace. rewrite (rep_pos _ _ _ Hr).
  destruct l as [|x l' _] eqn:El using rev_ind; [by exists ed|]. rewrite length_app. cbn [length].
  rewrite (proj2 (Z.ltb_lt _ _)), removelast_last by lia.
  replace (Z.of_nat (length l' + 1) - 1) with (Z.of_nat (length l')) by lia.
  destruct (delete_ok l' x r (set_pos (Z.of_nat (length l')) ed)) as (ed' & E & He & Hp & H).
  { apply (rep_move (l' ++ [x]) r); [done|by rewrite <- app_assoc]. }
  rewrite E. exists ed'. split; [done|]. split; [done|]. pose proof (proj2 (H (ed_pos ed')) Hp) as H2. by destruct ed'.
Qed.
Lemma lands_kill_end : lands (none (buf ← wr (ed_buf ed) (ed_pos ed) [0]; Ret (set_line buf (ed_pos ed) (ed_pos ed) ed)))
  (esc_of ed) (apply_key KKillEnd l r).
Proof. apply lands_none. destruct (kill_end_ok l r ed Hr) as (buf & -> & H). eexists. by split. Qed.
Lemma lands_kill_line : lands (none (cli_ed_clear ed)) (esc_of ed) (apply_key KKillLine l r).
Proof. apply lands_none. exact (clear_ok l r ed Hr). Qed.
Lemma lands_kill_word : lands (none (kill_word_back ed)) (esc_of ed) (apply_key KKillWord l r).
Proof. apply lands_none. exact (kill_word_ok l r ed Hr). Qed.
Lemma lands_word_left : lands (none (word_backward ed)) (esc_of ed) (apply_key KWordLeft l r).
Proof.
  apply lands_none. pose proof (skip_word_left l r ed Hr) as H. unfold word_backward.
  apply res_bind_ret in H as (p1 & -> & E1). cbn [mbind res_bind]. rewrite E1. cbn [mbind res_bind].
  eexists. split; [done|]. split; [done|]. destruct (before_word_prefix l) as [w Ew].
  apply (rep_move l r); [done|]. rewrite app_assoc. f_equal. clear E1. revert Ew. generalize (before_word l).
  intros b Ew. by rewrite Ew, drop_app_length.
Qed.
Lemma lands_word_right : lands (none (word_forward ed)) (esc_of ed) (apply_key KWordRight l r).
Proof.
  apply lands_none. pose proof (skip_word_right l r ed Hr) as H. unfold word_forward.
  apply res_bind_ret in H as (p1 & -> & E1). cbn [mbind res_bind]. rewrite E1. cbn [mbind res_bind].
  eexists. split; [done|]. split; [done|]. destruct (after_word_suffix r) as [w Ew].
  assert (length r = length w + length (after_word r))%nat as L by (rewrite <- length_app; by f_equal).
  assert (take (length r - length (after_word r)) r = w) as ->.
  { replace (length r - length (after_word r))%nat with (length w) by lia. clear -Ew. revert Ew. generalize (after_word r).
    intros s ->. by rewrite take_app_length. }
  replace (Z.of_nat (length l) + Z.of_nat (length r) - Z.of_nat (length (after_word r)))
    with (Z.of_nat (length (l ++ w))) by (rewrite length_app; lia).
  apply (rep_move l r); [done|]. by rewrite <- app_assoc, <- Ew.
Qed.
Lemma lands_insert c : printable c → lands (none (put_char c ed)) (esc_of ed) (apply_key (KInsert c) l r).
Proof.
  intros Hc. destruct (put_char_ok c l r ed Hr Hc) as (ed' & E & He & H). cbn [apply_key].
  destruct (_ <? _)%nat; apply lands_none; exists ed'; [done|by subst].
Qed.
Lemma lands_eof : lands (if ed_len ed =? 0 then Ret (CLI_ED_EOF, ed) else none (delete_char_at (ed_pos ed) ed))
  (esc_of ed) (apply_key KEof l r).
Proof.
  cbn [apply_key]. rewrite (rep_len _ _ _ Hr). destruct (l ++ r) eqn:E.
  - apply app_nil in E as [-> ->]. by exists ed.
  - rewrite (proj2 (Z.eqb_neq _ _)) by (apply (f_equal length) in E; rewrite length_app in E; cbn in E; lia).
    exact lands_delete.
Qed.

Lemma lands_csi p1 p2 c : esc_param1 ed = p1 → esc_param2 ed = p2 →
  lands (handle_csi_final c ed) (esc_of ed) (apply_key (csi_key p1 p2 c) l r).
Proof.
  intros <- <-. unfold handle_csi_final, csi_key.
  repeat (match goal with |- context [if ?b then _ else _] => destruct b end);
    first [apply lands_event|apply lands_word_right|apply lands_right|apply lands_word_left|apply lands_left
          |apply lands_home|apply lands_end|apply lands_delete|apply lands_stay].
Qed.

Lemma lands_plain c : c ≠ 27 → lands (normal_input c ed) (esc_of ed) (apply_key (plain_key c) l r).
Proof.
  intros Hc. unfold normal_input, plain_key. rewrite (proj2 (Z.eqb_neq _ _)) by done.
  repeat match goal with |- lands (if c =? ?n then _ else _) _ _ => destruct (c =? n)
    | |- lands (if (_ || _)%bool then _ else _) _ _ => destruct (_ || _)%bool end;
    try first [apply lands_event|apply lands_right|apply lands_left|apply lands_home|apply lands_end
          |apply lands_kill_end|apply lands_kill_line|apply lands_kill_word|apply lands_backspace|apply lands_eof].
  destruct (_ && _)%bool eqn:E; bool_to_prop; [|apply lands_stay]. apply lands_insert. unfold printable. lia.
Qed.
End Keys.

Lemma input_ok c l r ed : rep l r ed →
  lands (cli_ed_input c ed) (decode (esc_of ed) c).1 (apply_key (decode (esc_of ed) c).2 l r).
Proof.
  intros Hr. assert (∀ s p1 p2, rep l r (set_esc s p1 p2 ed)) as Hs by (intros; by apply rep_set_esc).
  unfold cli_ed_input, decode. unfold esc_of at 1 2. destruct (esc_state ed) eqn:Es.
  - destruct (c =? 27) eqn:E; bool_to_prop.
    + subst c. exact (lands_stay _ _ _ (Hs CLI_ESC_ESC _ _)).
    + pose proof (lands_plain l r ed Hr c E) as H. unfold esc_of in H. by rewrite Es in H.
  - destruct (c =? 91); [apply (lands_stay _ _ _ (Hs _ _ _))|]. destruct (c =? 98); [apply (lands_word_left _ _ _ (Hs _ _ _))|].
    destruct (c =? 102); [apply (lands_word_right _ _ _ (Hs _ _ _))|apply (lands_stay _ _ _ (Hs _ _ _))].
  - destruct (digit c); [apply (lands_stay _ _ _ (Hs _ _ _))|by apply (lands_csi _ _ _ (Hs _ _ _))].
  - destruct (digit c); [apply (lands_stay _ _ _ (Hs _ _ _))|].
    destruct (c =? 59); [apply (lands_stay _ _ _ (Hs _ _ _))|by apply (lands_csi _ _ _ (Hs _ _ _))].
  - destruct (digit c); apply (lands_stay _ _ _ (Hs _ _ _)).
  - destruct (digit c); [apply (lands_stay _ _ _ (Hs _ _ _))|by apply (lands_csi _ _ _ (Hs _ _ _))].
Qed.

(** ** The history *)

(** The ring holds the newest eight of the lines, newest first. *)
Record recent (ls : list (list Z)) (h : history) : Prop := {
  rc_size : length (history_lines h) = 8%nat;
  rc_count : history_count h = Z.of_nat (length ls);
  rc_wpos : history_wpos h = Z.of_nat (length ls) mod 8;
  rc_lines i l : ls !! i = Some l → (i < 8)%nat →
    history_lines h !! Z.to_nat ((Z.of_nat (length ls) - 1 - Z.of_nat i) mod 8) = Some (Some l) }.

Definition add_line (line : list Z) (ls : list (list Z)) : list (list Z) :=
  if bool_decide (head ls = Some line) then ls else line :: ls.

Lemma recent0 : recent [] history0.
Proof. by split. Qed.

Lemma ring_index n k : (Z.of_nat n mod 8 - 1 - Z.of_nat k + HISTORY_SIZE) mod HISTORY_SIZE =
  (Z.of_nat n - 1 - Z.of_nat k) mod 8.
Proof. unfold HISTORY_SIZE. dlia. Qed.

Lemma line_at_ok ls h i l : recent ls h → ls !! i = Some l → (i < 8)%nat →
  line_at h ((history_wpos h - 1 - Z.of_nat i + HISTORY_SIZE) mod HISTORY_SIZE) = Ret (Some l).
Proof.
  intros Hr Hi H8. rewrite (rc_wpos _ _ Hr), ring_index. unfold line_at.
  rewrite (proj2 (Z.ltb_ge _ _)) by (apply Z.mod_pos_bound; lia). by rewrite (rc_lines _ _ Hr _ _ Hi H8).
Qed.

Lemma history_add_ok line ls h mem : recent ls h → Forall (eq true) mem → Z.of_nat (length ls) < 2147483647 →
  ∃ h' mem', history_add line h mem = Ret (h', mem') ∧ recent (add_line line ls) h' ∧ Forall (eq true) mem'.
Proof.
  intros Hr Hm Hlt. unfold history_add, add_line. rewrite (rc_count _ _ Hr).
  assert ((if 0 <? Z.of_nat (length ls) then
            l ← line_at h ((history_wpos h - 1 + HISTORY_SIZE) mod HISTORY_SIZE);
            match l with Some l => Ret (bool_decide (line = l)) | None => Fault OutOfBounds end
          else Ret false) = Ret (bool_decide (head ls = Some line))) as ->.
  { destruct ls as [|l ls]; [done|]. rewrite (proj2 (Z.ltb_lt _ _)) by (cbn; lia).
    pose proof (line_at_ok _ _ 0 l Hr eq_refl ltac:(lia)) as E. rewrite Z.sub_0_r in E. rewrite E. cbn [mbind res_bind head].
    f_equal. apply bool_decide_ext. naive_solver. }
  cbn [mbind res_bind]. case_bool_decide as Hh; [by exists h, mem|].
  assert (∃ mem', strdup line mem = (Some line, mem') ∧ Forall (eq true) mem') as (mem' & -> & Hm').
  { destruct mem as [|b mem]; [by exists []|]. apply Forall_cons_1 in Hm as [<- Hm]. by exists mem. }
  eexists _, mem'. split; [done|]. split; [|done]. destruct Hr as [Hs Hc Hw Hl].
  pose proof (Z.mod_pos_bound (Z.of_nat (length ls)) 8 ltac:(lia)).
  split; cbn [history_lines history_count history_wpos length].
  - by rewrite length_insert.
  - rewrite s32_id by lia. lia.
  - rewrite Hw. unfold HISTORY_SIZE. dlia.
  - intros i l Hi H8. destruct i as [|i].
    + injection Hi as ->. rewrite Hw. replace (Z.of_nat (S (length ls)) - 1 - Z.of_nat 0) with (Z.of_nat (length ls)) by lia.
      apply list_lookup_insert_eq. lia.
    + cbn in Hi. replace (Z.of_nat (S (length ls)) - 1 - Z.of_nat (S i)) with (Z.of_nat (length ls) - 1 - Z.of_nat i) by lia.
      rewrite list_lookup_insert_ne; [by apply Hl; [|lia]|]. rewrite Hw.
      pose proof (Z.mod_pos_bound (Z.of_nat (length ls) - 1 - Z.of_nat i) 8 ltac:(lia)).
      intros E%Z2Nat.inj; [|lia|lia]. assert (i < 7)%nat by lia. dlia.
Qed.

Lemma history_get_ok offset ls h mem : recent ls h → -1 <= offset →
  ∃ r mem', history_get offset h mem = Ret (r, mem') ∧ (∀ l, r = Some l → l ∈ ls ∧ 0 <= offset < 8) ∧
    (Forall (eq true) mem → Forall (eq true) mem' ∧ r = (if 0 <=? offset then take 8 ls !! Z.to_nat offset else None)).
Proof.
  intros Hr Ho. unfold history_get. rewrite (rc_count _ _ Hr). unfold HISTORY_SIZE at 1 2.
  set (avail := if _ <? _ then _ else _). assert (avail = Z.min (Z.of_nat (length ls)) 8) as ->.
  { unfold avail. case_match; bool_to_prop; lia. }
  destruct (0 <=? offset) eqn:E0; bool_to_prop.
  2: { exists None, mem. by cbn. }
  destruct (offset <? _) eqn:E1; bool_to_prop; cbn [andb].
  2: { exists None, mem. split; [done|]. split; [done|]. intros ?. split; [done|].
    symmetry. apply lookup_ge_None. rewrite length_take. lia. }
  destruct (lookup_lt_is_Some_2 ls (Z.to_nat offset)) as [l Hl]; [lia|].
  pose proof (line_at_ok _ _ _ l Hr Hl ltac:(lia)) as E. rewrite Z2Nat.id in E by lia. rewrite E. cbn [mbind res_bind].
  destruct (strdup l mem) as [r mem'] eqn:Es. exists r, mem'. split; [done|]. split.
  - intros l' ->. assert (l' = l) as -> by (destruct mem as [|[|] mem]; cbn in Es; naive_solver).
    split; [by apply list_elem_of_lookup_2 in Hl|lia].
  - intros Hm. assert (r = Some l ∧ Forall (eq true) mem') as [-> ?].
    { destruct mem as [|b mem]; cbn in Es; [by simplify_eq|]. apply Forall_cons_1 in Hm as [<- Hm]. by simplify_eq. }
    split; [done|]. rewrite lookup_take_lt by lia. by rewrite Hl.
Qed.

(** ** Output *)

#[local] Abbreviation out := (stream_fmt list_write).

Lemma emits_out (m : emit (list Z) Z) o : emits out m o → ∀ st, m st = Ret (Z.of_nat (length o), st ++ o).
Proof. intros H st. by apply H. Qed.

Lemma fmtv_out ds fmt args (st : list Z) : fmt = concat (dir_text <$> ds) → args = concat (dir_args <$> ds) →
  Forall dir_ok ds → fmtv out false fmt args st =
    Ret (Z.of_nat (length (concat (dir_out <$> ds))), st ++ concat (dir_out <$> ds)).
Proof.
  intros -> -> Hds. pose proof (fmt_loop_sends out ds (S (length (concat (dir_text <$> ds)))) [] [] 0 Hds
    (Nat.lt_succ_diag_r _)) as H. rewrite app_nil_r in H. by apply H.
Qed.

(** The side conditions of directives without strings. *)
Ltac directives := repeat first [apply Forall_nil_2|apply Forall_cons_2|split|done|progress cbn|lia].

(** Text the terminal takes as it is. *)
Definition plain (s : list Z) : Prop := Forall printable s ∧ Z.of_nat (length s) < 32768.

Lemma printable_cstr s : Forall printable s → cstr s.
Proof. apply Forall_impl. unfold printable, is_char. lia. Qed.
Lemma str_conv_ok s junk : plain s → conv_ok None (VStr (s ++ 0 :: junk) s).
Proof. intros [Hp Hl]. split; [lia|]. split; [by apply printable_cstr|by exists junk]. Qed.

(** One conversion whose width or precision may come from the arguments. *)
Lemma conv_step spec c rest ap ap1 ap2 fp t o a o2 f pend total :
  parse_spec false (spec ++ c :: rest) ap = Ret (fp, false, c :: rest, ap1) → 0 < c →
  sends out (convert out false c fp false ap1) (t, ap2) o →
  sends out (fmt_loop out false f rest rest ap2 (total + Z.of_nat (length pend) + t)) a o2 →
  sends out (fmt_loop out false (S f) (pend ++ 37 :: spec ++ c :: rest) (37 :: spec ++ c :: rest) ap total)
    a (pend ++ o ++ o2).
Proof.
  intros Hp Hc Hcv Hf. cbn [fmt_loop deref]. change (37 =? 0) with false. change (37 =? 37) with true.
  cbn [negb list.tail].
  eapply (sends_bind _ _ _ (Z.of_nat (length pend)) _ pend).
  { assert (length (pend ++ 37%Z :: spec ++ c :: rest) - length (spec ++ c :: rest) - 1 = length pend)%nat as ->
      by (rewrite !length_app; cbn [length]; rewrite !length_app; cbn; lia).
    rewrite take_app_length. destruct pend; [apply sends_ret|]. cbn [length Nat.eqb]. apply sends_cb. }
  eapply (sends_bind _ _ _ _ _ []); [by apply sends_lift|]. cbn [deref]. rewrite (proj2 (Z.eqb_neq _ _)) by lia.
  eapply sends_bind; [exact Hcv|]. exact Hf.
Qed.

Lemma text_step s f pend rest ap total a o : Forall (λ c, 0 < c < 256 ∧ c ≠ 37) s →
  sends out (fmt_loop out false f ((pend ++ s) ++ rest) rest ap total) a o →
  sends out (fmt_loop out false (length s + f) (pend ++ s ++ rest) (s ++ rest) ap total) a o.
Proof. intros Hs H. by rewrite fmt_loop_text. Qed.

Lemma end_step pend f ap total : sends out (fmt_loop out false (S f) pend [] ap total) (total + Z.of_nat (length pend)) pend.
Proof.
  cbn [fmt_loop deref Z.eqb]. rewrite Nat.sub_0_r, firstn_all. destruct pend as [|x pend].
  - cbn. rewrite Z.add_0_r. apply sends_ret.
  - cbn [length Nat.eqb]. eapply sends_eq; [eapply sends_bind; [apply sends_cb|apply sends_ret]|done|apply app_nil_r].
Qed.

Lemma conv_str_sends mem fp ap o : (decimals fp = INT16_MIN ∨ 0 <= decimals fp) →
  emits out (emit_str out (Some mem) fp) o →
  sends out (convert out false 115 fp false (AStr (Some mem) :: ap)) (Z.of_nat (length o), ap) o.
Proof.
  intros Hd He. unfold convert. change (115 =? 37) with false. change (115 =? 99) with false. change (115 =? 115) with true.
  cbv iota. rewrite <- (app_nil_l o). eapply sends_bind; [by apply sends_lift|]. cbv beta iota.
  assert ((negb (decimals fp =? INT16_MIN) && (decimals fp <? 0))%bool = false) as ->.
  { destruct (decimals fp =? INT16_MIN) eqn:E; [done|]. bool_to_prop. cbn. apply Z.ltb_ge. destruct Hd; [done|lia]. }
  rewrite <- (app_nil_r o). eapply sends_bind; [exact He|]. rewrite app_nil_r. apply sends_ret.
Qed.

(** A string cut to [n] bytes, the rest of a name behind it. *)
Lemma cut_emits suffix n w left : 0 < n <= Z.of_nat (length suffix) → Z.of_nat (length suffix) < 32768 → -1 <= w < 32768 →
  let fp := FmtParam w n false left false false false in
  emits out (emit_str out (Some (suffix ++ [0])) fp) (str_text fp (take (Z.to_nat n) suffix)).
Proof.
  intros Hn Hs Hw fp. apply emit_str_emits; [split; cbn; lia| |rewrite length_take; lia].
  cbn [decimals fp]. unfold INT16_MIN. rewrite (proj2 (Z.eqb_neq _ _)) by lia. split; [lia|].
  rewrite rd_ok by (rewrite ?length_app; cbn; lia). change (drop (Z.to_nat 0) (suffix ++ [0])) with (suffix ++ [0]).
  by rewrite take_app_le by lia.
Qed.
Lemma str_emits s : plain s →
  emits out (emit_str out (Some (s ++ [0])) (FmtParam (-1) INT16_MIN false false false false false)) s.
Proof.
  intros [Hp Hl]. pose proof (emit_str_emits out (s ++ [0]) (FmtParam (-1) INT16_MIN false false false false false) s) as H.
  unfold str_text, padded in H. cbn [la width] in H. replace (Z.to_nat (-1 - Z.of_nat (length s))) with 0%nat in H by lia.
  apply H; [split; cbn; unfold INT16_MIN; lia| |lia]. cbn [decimals]. rewrite Z.eqb_refl.
  split; [by apply (strlen_obj s []), printable_cstr|by exists [0]].
Qed.

(** The two formats of the list of matches. *)
Lemma seg_line_sends suffix n : 0 < n <= Z.of_nat (length suffix) → plain suffix →
  ∃ k, sends out (fmtv out false (lit "  %.*s" ++ [10]) [AInt n; AStr (cobj suffix)]) k
    ([32; 32] ++ str_text (FmtParam (-1) n false false false false false) (take (Z.to_nat n) suffix) ++ [10]).
Proof.
  intros Hn [Hs Hl]. eexists. unfold fmtv.
  change (S (length (lit "  %.*s" ++ [10]))) with (length [32%Z; 32%Z] + 6)%nat.
  change (lit "  %.*s" ++ [10]) with ([] ++ [32; 32] ++ 37 :: [46; 42] ++ 115 :: [10]) at 1.
  change (lit "  %.*s" ++ [10]) with ([32; 32] ++ 37 :: [46; 42] ++ 115 :: [10]).
  apply text_step; [by repeat (apply Forall_cons_2; [lia|]); apply Forall_nil_2|]. cbn [app].
  eapply (conv_step [46; 42] 115 [10] _ [AStr (cobj suffix)] [] (FmtParam (-1) n false false false false false) _ _ _ _ 5 [32; 32]).
  - change (parse_spec false ([46; 42] ++ [115; 10]) [AInt n; AStr (cobj suffix)]) with
      (Ret (FmtParam (-1) (s16 n) false false false false false, false, [115; 10], [AStr (cobj suffix)])).
    by rewrite s16_id by lia.
  - lia.
  - apply conv_str_sends; [right; cbn; lia|]. apply cut_emits; lia.
  - apply (text_step [10] 4 [] [] _ _ _ [10]); [by apply Forall_singleton|]. apply (end_step [10] 3).
Qed.

Lemma brief_line_sends suffix n brief : 0 < n <= Z.of_nat (length suffix) → plain suffix → plain brief →
  ∃ k, sends out (fmtv out false (lit "  %-16.*s %s" ++ [10]) [AInt n; AStr (cobj suffix); AStr (cobj brief)]) k
    ([32; 32] ++ str_text (FmtParam 16 n false true false false false) (take (Z.to_nat n) suffix) ++ [32] ++ brief ++ [10]).
Proof.
  intros Hn [Hs Hl] Hb. eexists. unfold fmtv.
  change (S (length (lit "  %-16.*s %s" ++ [10]))) with (length [32%Z; 32%Z] + 12)%nat.
  change (lit "  %-16.*s %s" ++ [10]) with ([] ++ [32; 32] ++ 37 :: [45; 49; 54; 46; 42] ++ 115 :: [32; 37; 115; 10]) at 1.
  change (lit "  %-16.*s %s" ++ [10]) with ([32; 32] ++ 37 :: [45; 49; 54; 46; 42] ++ 115 :: [32; 37; 115; 10]).
  apply text_step; [by repeat (apply Forall_cons_2; [lia|]); apply Forall_nil_2|]. cbn [app].
  eapply (conv_step [45; 49; 54; 46; 42] 115 [32; 37; 115; 10] _ [AStr (cobj suffix); AStr (cobj brief)] [AStr (cobj brief)]
    (FmtParam 16 n false true false false false) _ _ _ _ 11 [32; 32]).
  - change (parse_spec false ([45; 49; 54; 46; 42] ++ [115; 32; 37; 115; 10]) [AInt n; AStr (cobj suffix); AStr (cobj brief)]) with
      (Ret (FmtParam 16 (s16 n) false true false false false, false, [115; 32; 37; 115; 10], [AStr (cobj suffix); AStr (cobj brief)])).
    by rewrite s16_id by lia.
  - lia.
  - apply conv_str_sends; [right; cbn; lia|]. apply cut_emits; lia.
  - apply (text_step [32] 10 [] [37; 115; 10]); [by apply Forall_singleton|].
    eapply (conv_step [] 115 [10] _ [AStr (cobj brief)] [] (FmtParam (-1) INT16_MIN false false false false false) _ brief _ _ 9 [32]).
    + done.
    + lia.
    + apply conv_str_sends; [by left|by apply str_emits].
    + apply (text_step [10] 8 [] [] _ _ _ [10]); [by apply Forall_singleton|]. apply (end_step [10] 7).
Qed.

Section Printf.
Context {W : Type}.
#[local] Abbreviation cli := (cli (W := W)).

Lemma printf_ok ds fmt args (c : cli) : fmt = concat (dir_text <$> ds) → args = concat (dir_args <$> ds) →
  Forall dir_ok ds → cli_printf fmt args c =
    Ret (Z.of_nat (length (concat (dir_out <$> ds))), (c.1 ++ concat (dir_out <$> ds), c.2)).
Proof. intros Hf Ha Hd. unfold cli_printf. by rewrite (fmtv_out ds _ _ _ Hf Ha Hd). Qed.

Lemma puts_ok s (c : cli) : Forall (λ c, 0 < c < 256 ∧ c ≠ 37) s → cli_puts s c = Ret (c.1 ++ s, c.2).
Proof.
  intros Hs. unfold cli_puts. rewrite (printf_ok [DText s]); [|cbn; by rewrite app_nil_r|done|by apply Forall_singleton].
  cbn. by rewrite app_nil_r.
Qed.

Lemma print_char_ok x (c : cli) : is_byte x → cli_printf (lit "%c") [AInt x] c = Ret (1, (c.1 ++ [x], c.2)).
Proof.
  intros Hx. rewrite (printf_ok [DConv FlagNone None None (VChar x)]); [|done|done|by apply Forall_singleton].
  cbn. by rewrite u8_id.
Qed.

Lemma print_str_ok pre s junk post (c : cli) : plain s → Forall (λ c, 0 < c < 256 ∧ c ≠ 37) pre →
  Forall (λ c, 0 < c < 256 ∧ c ≠ 37) post →
  cli_printf (pre ++ lit "%s" ++ post) [AStr (Some (s ++ 0 :: junk))] c =
    Ret (Z.of_nat (length (pre ++ s ++ post)), (c.1 ++ pre ++ s ++ post, c.2)).
Proof.
  intros Hs H1 H2. rewrite (printf_ok [DText pre; DConv FlagNone None None (VStr (s ++ 0 :: junk) s); DText post]).
  - cbn [dir_out fmap list_fmap concat]. rewrite app_nil_r. unfold str_text, padded. cbn [la width dir_param default].
    replace (Z.to_nat (-1 - Z.of_nat (length s))) with 0%nat by lia. done.
  - cbn. by rewrite app_nil_r.
  - done.
  - repeat apply Forall_cons_2; [done| |done|apply Forall_nil_2]. split_and!; [done|done|by apply str_conv_ok].
Qed.

End Printf.

(** ** The terminal *)

(** A terminal of [cols] columns: the row the cursor is in, the cursor, which is behind the
    row's end when the row is full, and the sequence that is being received. *)
Inductive tstate := TGround | TEsc | TCsi (n : Z).
Record screen := Screen { t_line : list Z; t_col : nat; t_state : tstate }.

Section Terminal.
Context (cols : nat).

(** A character behind a full row goes to the next one. *)
Definition put (c : Z) (sc : screen) : screen :=
  if (cols <=? t_col sc)%nat then Screen [c] 1 TGround
  else
    let l := t_line sc ++ replicate (t_col sc - length (t_line sc)) 32 in
    Screen (take (t_col sc) l ++ [c] ++ drop (S (t_col sc)) l) (S (t_col sc)) TGround.

(** Carriage return, new line, backspace, and of the control sequences those the shell
    sends: 2K, 2J, H and G. *)
Definition feed (sc : screen) (c : Z) : screen :=
  match t_state sc with
  | TGround =>
      if c =? 27 then Screen (t_line sc) (t_col sc) TEsc
      else if c =? 13 then Screen (t_line sc) 0 TGround
      else if c =? 10 then Screen [] (t_col sc) TGround
      else if c =? 8 then Screen (t_line sc) (t_col sc - 1) TGround
      else if ((32 <=? c) && (c <? 127))%bool then put c sc
      else sc
  | TEsc => Screen (t_line sc) (t_col sc) (if c =? 91 then TCsi 0 else TGround)
  | TCsi n =>
      if digit c then Screen (t_line sc) (t_col sc) (TCsi (n * 10 + (c - 48)))
      else if c =? 71 then Screen (t_line sc) (Nat.min (Z.to_nat (n - 1)) (cols - 1)) TGround
      else if c =? 72 then Screen (t_line sc) 0 TGround
      else if ((n =? 2) && ((c =? 75) || (c =? 74)))%bool then Screen [] (t_col sc) TGround
      else Screen (t_line sc) (t_col sc) TGround
  end.
Definition feed_all (sc : screen) (o : list Z) : screen := foldl feed sc o.
End Terminal.

(** The prompt and the line, nothing but blanks behind it, the cursor in its place. *)
Definition shows (p l r : list Z) (sc : screen) : Prop :=
  t_state sc = TGround ∧ t_col sc = (length p + length l)%nat ∧
  ∃ k, t_line sc = p ++ l ++ r ++ replicate k 32.

(** Output that leaves no sequence open. *)
Definition calm (o : list Z) : Prop := ∀ cols sc, t_state sc = TGround → t_state (feed_all cols sc o) = TGround.

Lemma feed_all_app cols sc a b : feed_all cols sc (a ++ b) = feed_all cols (feed_all cols sc a) b.
Proof. apply foldl_app. Qed.
Lemma calm_app a b : calm a → calm b → calm (a ++ b).
Proof. intros Ha Hb cols sc Hs. rewrite feed_all_app. apply Hb. by apply Ha. Qed.
Lemma calm_nil : calm [].
Proof. by intros cols sc. Qed.
Lemma calm_chars o : Forall (λ c, c ≠ 27) o → calm o.
Proof.
  induction o as [|c o IH]; [by intros _ ??|]. intros [Hc Ho]%Forall_cons_1 cols sc Hs. cbn. apply IH; [done|].
  unfold feed. rewrite Hs, (proj2 (Z.eqb_neq _ _)) by done. repeat (case_match; [done|]).
  case_match; [|done]. unfold put. by case_match.
Qed.
Lemma calm_printable o : Forall printable o → calm o.
Proof. intros H. apply calm_chars. revert H. apply Forall_impl. unfold printable. lia. Qed.

(** Text where the cursor is: it takes the place of what was there. *)
Lemma feed_text cols s : ∀ pre rest sc, Forall printable s → t_state sc = TGround → t_line sc = pre ++ rest →
  t_col sc = length pre → (length pre + length s <= cols)%nat →
  feed_all cols sc s = Screen (pre ++ s ++ drop (length s) rest) (length pre + length s) TGround.
Proof.
  induction s as [|c s IH]; intros pre rest sc Hs Ht Hl Hc Hw.
  { destruct sc as [line col st]. cbn in *. subst. cbn. f_equal. lia. }
  apply Forall_cons_1 in Hs as [Hp Hs]. cbn [feed_all foldl]. unfold printable in Hp.
  assert (feed cols sc c = put cols c sc) as ->.
  { unfold feed. rewrite Ht, !(proj2 (Z.eqb_neq _ _)) by lia.
    by rewrite (proj2 (Z.leb_le _ _)), (proj2 (Z.ltb_lt _ _)) by lia. }
  fold (feed_all cols (put cols c sc) s).
  assert (t_line (put cols c sc) = (pre ++ [c]) ++ drop 1 rest) as Hl'.
  { unfold put. cbn [length] in Hw. rewrite (proj2 (Nat.leb_gt _ _)) by lia. cbn [t_line]. rewrite Hl, Hc. destruct rest as [|y rest].
    - rewrite app_nil_r, Nat.sub_diag. cbn [replicate]. rewrite app_nil_r, firstn_all.
      rewrite drop_ge by lia. cbn. by rewrite app_nil_r.
    - rewrite length_app. cbn [length]. replace (length pre - (length pre + S (length rest)))%nat with 0%nat by lia.
      cbn [replicate]. rewrite app_nil_r, take_app_length. rewrite <- app_assoc. do 2 f_equal.
      replace (S (length pre)) with (length (pre ++ [y])) by (rewrite length_app; cbn; lia).
      replace (pre ++ y :: rest) with ((pre ++ [y]) ++ rest) by (by rewrite <- app_assoc).
      by rewrite drop_app_length. }
  rewrite (IH (pre ++ [c]) (drop 1 rest) (put cols c sc)); try done.
  - rewrite <- app_assoc, drop_drop, length_app. cbn. f_equal. lia.
  - unfold put. by case_match.
  - unfold put. cbn [length] in Hw. rewrite (proj2 (Nat.leb_gt _ _)) by lia. cbn. rewrite Hc, length_app. cbn. lia.
  - rewrite length_app. cbn in *. lia.
Qed.

Lemma feed_digits cols ds : ∀ n line col, Forall is_digit ds →
  feed_all cols (Screen line col (TCsi n)) ds = Screen line col (TCsi (foldl (λ r c, r * 10 + (c - 48)) n ds)).
Proof.
  induction ds as [|d ds IH]; intros n line col Hd; [done|]. apply Forall_cons_1 in Hd as [Hd Hds].
  cbn [feed_all foldl]. fold (feed_all cols (feed cols (Screen line col (TCsi n)) d) ds).
  unfold feed at 1, digit. cbn [t_state t_line t_col]. unfold is_digit in Hd.
  rewrite !(proj2 (Z.leb_le _ _)) by lia. cbn [andb]. by apply IH.
Qed.

(** The whole line again. *)
Definition line_out (p t : list Z) (col : Z) : list Z := s_clear_line ++ p ++ t ++ [27; 91] ++ dec_str col ++ [71].

Lemma line_shown cols p l r sc : Forall printable p → Forall printable (l ++ r) → t_state sc = TGround →
  (length p + length (l ++ r) < cols)%nat → Z.of_nat (length p) + Z.of_nat (length l) < 10 ^ 9 →
  shows p l r (feed_all cols sc (line_out p (l ++ r) (Z.of_nat (length p) + Z.of_nat (length l) + 1))).
Proof.
  intros Hp Hlr Hs Hw Hlen. unfold line_out. rewrite feed_all_app. rewrite length_app in Hw.
  assert (feed_all cols sc s_clear_line = Screen [] 0 TGround) as ->.
  { destruct sc as [line col st]. cbn in Hs. subst. done. }
  rewrite feed_all_app, (feed_text cols p [] []) by (done || (cbn; lia)). rewrite feed_all_app.
  rewrite (feed_text cols (l ++ r) p []) by (try done; rewrite ?length_app; cbn; rewrite ?drop_nil, ?app_nil_r; done || lia). rewrite !drop_nil, app_nil_r.
  rewrite feed_all_app. cbn [app length]. 
  change (feed_all cols (Screen (p ++ l ++ r) (length p + length (l ++ r)) TGround) [27; 91]) with
    (Screen (p ++ l ++ r) (length p + length (l ++ r)) (TCsi 0)).
  rewrite feed_all_app, feed_digits by (apply dec_str_digits; lia).
  fold (dec_value (dec_str (Z.of_nat (length p) + Z.of_nat (length l) + 1))). rewrite dec_str_value by lia.
  set (n := _ + 1). set (col := (_ + length (l ++ r))%nat).
  change (feed_all cols (Screen (p ++ l ++ r) col (TCsi n)) [71]) with (Screen (p ++ l ++ r) (Nat.min (Z.to_nat (n - 1)) (cols - 1)) TGround).
  split; [done|]. cbn [t_col t_line]. split; [unfold n; lia|]. exists 0%nat. cbn. by rewrite app_nil_r.
Qed.

(** A character at the end of the line, and the last one taken away. *)
Lemma char_shown cols p l c sc : printable c → (length p + length l < cols)%nat → shows p l [] sc → shows p (l ++ [c]) [] (feed_all cols sc [c]).
Proof.
  intros Hc Hw (Ht & Hcol & k & Hl). rewrite (feed_text cols [c] (p ++ l) (replicate k 32)).
  - cbn [app length]. split; [done|]. cbn [t_col t_line]. rewrite !length_app. cbn. split; [lia|].
    exists (k - 1)%nat. rewrite drop_replicate, <- !app_assoc. done.
  - by apply Forall_singleton.
  - done.
  - rewrite Hl. cbn. by rewrite <- app_assoc.
  - by rewrite Hcol, length_app.
  - rewrite length_app. cbn. lia.
Qed.
Lemma rubout_shown cols p l c sc : (length p + length l < cols)%nat → shows p (l ++ [c]) [] sc → shows p l [] (feed_all cols sc s_rubout).
Proof.
  intros Hw (Ht & Hcol & k & Hl). unfold s_rubout. change [8; 32; 8] with ([8] ++ [32] ++ [8]). rewrite feed_all_app.
  rewrite length_app in Hcol. cbn in Hcol.
  assert (feed_all cols sc [8] = Screen (t_line sc) (length (p ++ l)) TGround) as ->.
  { cbn. unfold feed. rewrite Ht. cbn. f_equal. rewrite length_app. lia. }
  rewrite feed_all_app, (feed_text cols [32] (p ++ l) (c :: replicate k 32)).
  - set (line := _ ++ _). change (feed_all cols (Screen line (length (p ++ l) + length [32]) TGround) [8]) with
      (Screen line (length (p ++ l) + length [32] - 1) TGround).
    split; [done|]. cbn [t_col t_line]. rewrite length_app. split; [cbn; lia|]. exists (S k). unfold line. cbn.
    by rewrite <- app_assoc.
  - apply Forall_singleton. unfold printable. lia.
  - done.
  - cbn [t_line]. rewrite Hl. by rewrite <- !app_assoc.
  - done.
  - rewrite length_app. cbn. lia.
Qed.

(** ** The words of a line *)

Definition separator (c : Z) : bool := ((0 <? c) && (c <? 33))%bool.
Definition token_char (c : Z) : bool := 32 <? c.

(** The last of [room] words is the rest of the line. *)
Fixpoint words (room : nat) (s : list Z) : list (list Z) :=
  match drop_while separator s, room with
  | [], _ | _, O => []
  | t, S O => [t]
  | t, S room =>
      let rest := drop_while token_char t in
      take (length t - length rest) t :: words room (tail rest)
  end.

Lemma str_at_ok s junk : cstr s → str_at (s ++ 0 :: junk) = Ret s.
Proof.
  induction 1 as [|c s Hc _ IH]; [done|]. cbn. rewrite (proj2 (Z.eqb_neq _ _)), IH by (unfold is_char in Hc; lia). done.
Qed.

Lemma skip_blanks_ok junk : ∀ s fuel pre, (length s < fuel)%nat →
  skip_blanks fuel (pre ++ s ++ 0 :: junk) (Z.of_nat (length pre)) =
    Ret (Z.of_nat (length pre) + Z.of_nat (length s) - Z.of_nat (length (drop_while separator s))).
Proof.
  induction s as [|x s IH]; intros fuel pre Hf; (destruct fuel as [|fuel]; [lia|]); cbn [skip_blanks drop_while app].
  - rewrite char_at_mid by done. cbn. f_equal. lia.
  - rewrite char_at_mid by done. cbn [mbind res_bind]. unfold separator at 1. case_match eqn:E; [|f_equal; cbn [length]; lia].
    specialize (IH fuel (pre ++ [x]) ltac:(cbn in Hf; lia)). rewrite length_app in IH. cbn [length] in IH |- *.
    rewrite <- app_assoc in IH. cbn [app] in IH.
    replace (Z.of_nat (length pre) + 1) with (Z.of_nat (length pre + 1)) by lia. rewrite IH. f_equal. lia.
Qed.
Lemma skip_token_ok junk : ∀ s fuel pre, (length s < fuel)%nat →
  skip_token fuel (pre ++ s ++ 0 :: junk) (Z.of_nat (length pre)) =
    Ret (Z.of_nat (length pre) + Z.of_nat (length s) - Z.of_nat (length (drop_while token_char s))).
Proof.
  induction s as [|x s IH]; intros fuel pre Hf; (destruct fuel as [|fuel]; [lia|]); cbn [skip_token drop_while app].
  - rewrite char_at_mid by done. cbn. f_equal. lia.
  - rewrite char_at_mid by done. cbn [mbind res_bind]. unfold token_char at 1. case_match eqn:E; [|f_equal; cbn [length]; lia].
    specialize (IH fuel (pre ++ [x]) ltac:(cbn in Hf; lia)). rewrite length_app in IH. cbn [length] in IH |- *.
    rewrite <- app_assoc in IH. cbn [app] in IH.
    replace (Z.of_nat (length pre) + 1) with (Z.of_nat (length pre + 1)) by lia. rewrite IH. f_equal. lia.
Qed.

Lemma tokenize_ok room junk : ∀ s pre, cstr s → (0 < room)%nat →
  ∃ s' vec, tokenize room (pre ++ s ++ 0 :: junk) (Z.of_nat (length pre)) = Ret (pre ++ s' ++ 0 :: junk, vec) ∧
    token_strings (pre ++ s' ++ 0 :: junk) vec = Ret (words room s).
Proof.
  induction room as [|room IH]; intros s pre Hs Hroom; [lia|]. cbn [tokenize words].
  rewrite skip_blanks_ok by (rewrite !length_app; lia). cbn [mbind res_bind].
  destruct (drop_while_suffix separator s) as [w Ew]. remember (drop_while separator s) as t eqn:Dt. clear Dt.
  assert (length s = length w + length t)%nat as Ls by (rewrite <- length_app; by f_equal).
  assert (pre ++ s ++ 0 :: junk = (pre ++ w) ++ t ++ 0 :: junk) as Eb
    by (rewrite <- app_assoc, (app_assoc w), <- Ew; done).
  set (i := _ - _). assert (i = Z.of_nat (length (pre ++ w))) as Ei by (unfold i; rewrite length_app; lia).
  assert (∀ tok b, cstr tok → str_at (drop (Z.to_nat i) ((pre ++ w) ++ tok ++ 0 :: b)) = Ret tok) as Hstr.
  { intros tok b Ht. rewrite Ei, Nat2Z.id, drop_app_length. by apply str_at_ok. }
  destruct t as [|c t0].
  { rewrite Eb. cbn [app]. rewrite char_at_mid by done. cbn [mbind res_bind Z.eqb]. exists s, []. rewrite Eb. by destruct room. }
  rewrite Ew in Hs. apply Forall_app in Hs as [_ Hs]. pose proof Hs as [Hc _]%Forall_cons_1. unfold is_char in Hc.
  rewrite Eb. change ((c :: t0) ++ 0 :: junk) with (c :: t0 ++ 0 :: junk). rewrite char_at_mid by done.
  cbn [mbind res_bind]. rewrite (proj2 (Z.eqb_neq _ _)) by lia.
  change (c :: t0 ++ 0 :: junk) with ((c :: t0) ++ 0 :: junk). cbn [words]. remember (c :: t0) as t eqn:Et. clear Et.
  destruct room as [|room].
  - exists s, [i]. rewrite Eb. split; [done|]. cbn [token_strings]. by rewrite Hstr.
  - rewrite Ei, skip_token_ok by (rewrite !length_app; lia). cbn [mbind res_bind].
    destruct (drop_while_suffix token_char t) as [tok Etok]. remember (drop_while token_char t) as rest eqn:Dr. clear Dr.
    assert (length t = length tok + length rest)%nat as Lt by (rewrite <- length_app; by f_equal).
    assert (take (length t - length rest) t = tok) as ->.
    { replace (length t - length rest)%nat with (length tok) by lia. clear -Etok. subst t. by rewrite take_app_length. }
    rewrite Etok in Hs. apply Forall_app in Hs as [Htok Hrest].
    replace (Z.of_nat (length (pre ++ w)) + Z.of_nat (length t) - Z.of_nat (length rest))
      with (Z.of_nat (length ((pre ++ w) ++ tok))) by (rewrite length_app; lia).
    assert ((pre ++ w) ++ t ++ 0 :: junk = ((pre ++ w) ++ tok) ++ rest ++ 0 :: junk) as Eb2
      by (rewrite Etok, <- !app_assoc; done).
    rewrite Eb2. destruct rest as [|d rest'].
    + cbn [app]. rewrite char_at_mid by done. cbn [mbind res_bind Z.eqb].
      exists s, [i]. rewrite Eb, Eb2, Ei. split; [done|]. cbn [token_strings]. rewrite <- Ei.
      replace (((pre ++ w) ++ tok) ++ [] ++ 0 :: junk) with ((pre ++ w) ++ tok ++ 0 :: junk) by (rewrite <- !app_assoc; done).
      rewrite Hstr by done.
      cbn. by destruct room.
    + apply Forall_cons_1 in Hrest as [Hd Hrest']. unfold is_char in Hd. cbn [app].
      rewrite char_at_mid by done. cbn [mbind res_bind]. rewrite (proj2 (Z.eqb_neq _ _)) by lia.
      change (d :: rest' ++ 0 :: junk) with ([d] ++ rest' ++ 0 :: junk). rewrite (wr_at _ [d] [0]) by done. cbn [mbind res_bind].
      destruct (IH rest' (((pre ++ w) ++ tok) ++ [0]) Hrest' ltac:(lia)) as (s2 & vec & E & Hv).
      replace (Z.of_nat (length ((pre ++ w) ++ tok)) + 1) with (Z.of_nat (length (((pre ++ w) ++ tok) ++ [0])))
        by (rewrite (length_app _ [0]); cbn; lia).
      replace (((pre ++ w) ++ tok) ++ [0] ++ rest' ++ 0 :: junk) with ((((pre ++ w) ++ tok) ++ [0]) ++ rest' ++ 0 :: junk)
        by (by rewrite <- app_assoc).
      rewrite E. cbn [mbind res_bind]. exists (w ++ tok ++ [0] ++ s2), (i :: vec).
      assert (pre ++ (w ++ tok ++ [0] ++ s2) ++ 0 :: junk = (((pre ++ w) ++ tok) ++ [0]) ++ s2 ++ 0 :: junk) as Eb3
        by (by rewrite <- !app_assoc).
      rewrite Eb3, Ei. split; [done|]. cbn [token_strings]. rewrite Hv.
      rewrite <- Ei. replace ((((pre ++ w) ++ tok) ++ [0]) ++ s2 ++ 0 :: junk) with ((pre ++ w) ++ tok ++ 0 :: s2 ++ 0 :: junk)
        by (by rewrite <- !app_assoc).
      by rewrite Hstr.
Qed.

Lemma get_argv_ok s junk : cstr s → get_argv (s ++ 0 :: junk) = Ret (words CLI_MAX_ARGC s).
Proof.
  intros Hs. unfold get_argv. destruct (tokenize_ok CLI_MAX_ARGC junk s [] Hs) as (s' & vec & E & Hv); [unfold CLI_MAX_ARGC; lia|].
  cbn [app length] in *. change (Z.of_nat 0) with 0 in E. rewrite E. exact Hv.
Qed.

(** ** What the shell writes *)

Section Loop.
Context {W : Type} (cmds : list (cli_cmd (W := W))) (hostname : list Z) (error_to_string : Z → list Z) (promptchar : Z) (cols : nat).
#[local] Abbreviation cli := (cli (W := W)).

(** Names and help are text, and a command returns and leaves no sequence open. *)
Record cmd_ok (p : cli_cmd (W := W)) : Prop := {
  ck_name : plain (cc_cmd p);
  ck_synopsis : match cc_synopsis p with Some s => plain s | None => True end;
  ck_brief : match cc_brief p with Some s => plain s | None => True end;
  ck_runs argv (c : cli) : ∃ r o w, cc_dispatch p argv c = Ret (r, (c.1 ++ o, w)) ∧ calm o }.
Context (Hcmds : Forall cmd_ok cmds) (Hhost : plain hostname) (Herr : ∀ e, plain (error_to_string e)).
Context (Hprompt : printable promptchar).

Definition prompt : list Z := hostname ++ [promptchar; 32].

Lemma prompt_printable : Forall printable prompt.
Proof. apply Forall_app. split; [apply Hhost|]. repeat apply Forall_cons_2; [done|unfold printable; lia|apply Forall_nil_2]. Qed.

Lemma plain_text s : Forall printable s → ¬ In 37 s → Forall (λ c, 0 < c < 256 ∧ c ≠ 37) s.
Proof.
  intros Hs H37. apply Forall_forall. intros x Hx. rewrite Forall_forall in Hs. specialize (Hs x Hx). unfold printable in Hs.
  split; [lia|]. intros ->. apply H37. by apply list_elem_of_In.
Qed.

Lemma redraw_ok l r ed (c : cli) : rep l r ed →
  redraw_line hostname promptchar ed c =
    Ret (c.1 ++ line_out prompt (l ++ r) (Z.of_nat (length prompt) + Z.of_nat (length l) + 1), c.2).
Proof.
  intros Hr. pose proof Hr as [(junk & Eb) Hs Hp Hl Hch]. pose proof (rep_bounds _ _ _ Hr) as Hlr.
  pose proof Hhost as [Hh1 Hh2]. unfold redraw_line, cli_prompt.
  rewrite puts_ok by (repeat (apply Forall_cons_2; [lia|]); apply Forall_nil_2). cbn [mbind res_bind].
  match goal with |- context [match hostname with [] => ?a | _ :: _ => ?b end] =>
    replace (match hostname with [] => a | _ :: _ => b end) with
      (Ret (Z.of_nat (length hostname), ((c.1 ++ s_clear_line) ++ hostname, c.2)) : res (Z * cli)) end.
  2: { destruct hostname as [|x h]; [by rewrite app_nil_r|].
    pose proof (print_str_ok [] (x :: h) [] [] (c.1 ++ s_clear_line, c.2) Hhost (Forall_nil_2 _) (Forall_nil_2 _)) as E.
    cbn [app] in E. rewrite !app_nil_r in E. symmetry. exact E. }
  cbn [mbind res_bind].
  rewrite (printf_ok [DConv FlagNone None None (VChar promptchar); DText [32]]); [|done|done|by directives].
  cbn [mbind res_bind]. cbn [fst snd].
  assert (concat (dir_out <$> [DConv FlagNone None None (VChar promptchar); DText [32]]) = [promptchar; 32]) as ->.
  { cbn. rewrite u8_id; [done|]. unfold printable, is_byte in *. lia. }
  rewrite Eb, app_assoc. pose proof (print_str_ok [] (l ++ r) junk [] ((((c.1 ++ s_clear_line) ++ hostname) ++ [promptchar; 32]), c.2)) as E.
  cbn [app fst snd] in E. rewrite !app_nil_r in E.
  rewrite E; [|split; [done|rewrite length_app; lia]|apply Forall_nil_2|apply Forall_nil_2]. cbn [mbind res_bind].
  set (col := s32 _). assert (col = Z.of_nat (length prompt) + Z.of_nat (length l) + 1) as ->.
  { unfold col. rewrite Hp. unfold prompt. rewrite length_app. cbn [length]. rewrite s32_id; lia. }
  assert (0 <= Z.of_nat (length prompt) + Z.of_nat (length l) + 1 < 2 ^ 31) as Hcol
    by (unfold prompt; rewrite length_app; cbn [length]; lia).
  rewrite (printf_ok [DText [27; 91]; DConv FlagNone None None (VDec32 (Z.of_nat (length prompt) + Z.of_nat (length l) + 1)); DText [71]]).
  - cbn [mbind res_bind fst snd]. do 2 f_equal. unfold line_out, prompt. rewrite <- !app_assoc. do 5 f_equal.
    cbn [dir_out fmap list_fmap concat]. rewrite app_nil_r. unfold signed_text, int_text, padded.
    rewrite (proj2 (Z.ltb_ge _ _)) by lia. cbn [la lz width dir_param default app].
    replace (Z.to_nat (-1 - Z.of_nat _)) with 0%nat by lia. done.
  - done.
  - done.
  - directives.
Qed.

(** Calls that print. *)
Definition calls (m : cli → res cli) : Prop := ∀ c, ∃ o w, m c = Ret (c.1 ++ o, w) ∧ calm o.

Lemma calls_ret : calls (λ c, Ret c).
Proof. intros c. exists [], c.2. rewrite app_nil_r. split; [by destruct c|apply calm_nil]. Qed.
Lemma calls_bind (m k : cli → res cli) : calls m → calls k → calls (λ c, c ← m c; k c).
Proof.
  intros Hm Hk c. destruct (Hm c) as (o1 & w1 & -> & H1). cbn [mbind res_bind].
  destruct (Hk (c.1 ++ o1, w1)) as (o2 & w2 & -> & H2). exists (o1 ++ o2), w2. cbn [fst]. rewrite app_assoc.
  split; [done|]. by apply calm_app.
Qed.
Lemma puts_calls s : Forall (λ c, 0 < c < 256 ∧ c ≠ 37) s → calm s → calls (cli_puts s).
Proof. intros Hs Hc c. exists s, c.2. by rewrite puts_ok. Qed.
Lemma print_str_calls pre s post : plain s → Forall (λ c, 0 < c < 256 ∧ c ≠ 37) pre →
  Forall (λ c, 0 < c < 256 ∧ c ≠ 37) post → calm pre → calm post →
  calls (λ c, '(_, c) ← cli_printf (pre ++ lit "%s" ++ post) [AStr (cobj s)] c; Ret c).
Proof.
  intros Hs H1 H2 C1 C2 c. unfold cobj. rewrite print_str_ok by done. cbn [mbind res_bind].
  eexists _, _. split; [done|]. apply calm_app; [done|]. apply calm_app; [apply calm_printable, Hs|done].
Qed.

Lemma print_cmd_name_calls cmd : Forall printable cmd → calls (print_cmd_name cmd).
Proof.
  induction cmd as [|x cmd IH]; intros Hp; [apply calls_ret|]. apply Forall_cons_1 in Hp as [Hx Hp]. intros c.
  cbn [print_cmd_name]. unfold printable in Hx. rewrite print_char_ok by (unfold is_byte; case_match; lia).
  cbn [mbind res_bind]. destruct (IH Hp (c.1 ++ [if x =? 95 then 32 else x], c.2)) as (o & w & -> & Ho).
  cbn [fst]. rewrite <- app_assoc. eexists _, w. split; [done|]. apply calm_app; [|done]. apply calm_chars, Forall_singleton.
  case_match; lia.
Qed.

Lemma newline_calm : calm [10].
Proof. apply calm_chars, Forall_singleton. lia. Qed.
Lemma newline_text : Forall (λ c, 0 < c < 256 ∧ c ≠ 37) [10].
Proof. apply Forall_singleton. lia. Qed.

(** Literals of the program: no sequences, no directives. *)
Definition literal (s : list Z) : bool := forallb (λ c, (0 <? c) && (c <? 256) && negb (c =? 37) && negb (c =? 27))%bool s.
Lemma literal_ok s : literal s = true → Forall (λ c, 0 < c < 256 ∧ c ≠ 37) s ∧ calm s.
Proof.
  intros H. unfold literal in H. rewrite forallb_forall in H.
  assert (∀ x, x ∈ s → 0 < x < 256 ∧ x ≠ 37 ∧ x ≠ 27) as Hs.
  { intros x Hx. apply list_elem_of_In in Hx. specialize (H x Hx). bool_to_prop. lia. }
  split; [|apply calm_chars]; apply Forall_forall; intros x Hx%list_elem_of_In; specialize (Hs x Hx); lia.
Qed.

Lemma print_help_calls p : cmd_ok p → calls (print_help p).
Proof.
  intros [[Hn _] Hs Hb _]. unfold print_help.
  destruct (cc_synopsis p) as [syn|]; [|destruct (cc_brief p) as [brief|]; [|apply calls_ret]].
  - apply calls_bind; [by apply print_cmd_name_calls|].
    destruct (literal_ok [32] eq_refl). apply (print_str_calls [32] syn [10]); auto using newline_text, newline_calm.
  - apply calls_bind; [by apply print_cmd_name_calls|].
    destruct (literal_ok [32; 45; 32] eq_refl). apply (print_str_calls [32; 45; 32] brief [10]); auto using newline_text, newline_calm.
Qed.

(** *** Commands *)

Lemma find_exact_some q argv (p : cli_cmd (W := W)) : find_exact q argv = Some p → p ∈ q ∧ match_argv true (cc_cmd p) argv = Some [].
Proof.
  induction q as [|x q IH]; [done|]. cbn. intros H.
  destruct (match_argv true (cc_cmd x) argv) as [[|]|] eqn:E; [|apply IH in H as [? ?]; split; [by right|done]..].
  injection H as ->. split; [left|done].
Qed.
Lemma find_join_some n : ∀ join argv p a, find_join cmds n join argv = Some (p, a) → p ∈ cmds.
Proof.
  induction n as [|n IH]; intros join argv p a H; [done|]. cbn in H.
  destruct (find_exact cmds (take join argv)) as [q|] eqn:E; [|by eapply IH]. injection H as -> _.
  by apply find_exact_some in E as [? _].
Qed.

Lemma dispatch_calls s junk : cstr s → calls (dispatch_command cmds error_to_string (s ++ 0 :: junk)).
Proof.
  intros Hs c. unfold dispatch_command. rewrite get_argv_ok by done. cbn [mbind res_bind].
  destruct (words CLI_MAX_ARGC s) as [|t ts] eqn:Ew; [apply calls_ret|]. rewrite <- Ew.
  destruct (find_command cmds (words CLI_MAX_ARGC s)) as [[p argv]|] eqn:Ef.
  - apply find_join_some in Ef. pose proof (proj1 (Forall_forall _ _) Hcmds p (proj1 (list_elem_of_In _ _) Ef)) as Hp.
    destruct (ck_runs _ Hp argv c) as (r & o & w & -> & Ho). cbn [mbind res_bind].
    destruct (r =? 0); [by exists o, w|].
    assert (∀ m, calls m → ∃ o' w', m (c.1 ++ o, w) = Ret (c.1 ++ o', w') ∧ calm o') as Hm.
    { intros m Hm. destruct (Hm (c.1 ++ o, w)) as (o2 & w2 & -> & H2). cbn [fst]. rewrite <- app_assoc.
      eexists _, _. split; [done|]. by apply calm_app. }
    destruct (literal_ok (lit "! Error: ") eq_refl) as [L1 L2].
    pose proof (print_str_calls (lit "! Error: ") (error_to_string r) [10] (Herr r) L1 newline_text L2 newline_calm) as He.
    pose proof (ck_synopsis _ Hp) as Hsyn. destruct (cc_synopsis p) as [syn|]; [|by apply (Hm _ He)].
    destruct (r =? ERR_INVALID_ARGS); [|by apply (Hm _ He)].
    apply (Hm (λ c, c ← cli_puts (lit "Usage: ") c; c ← print_cmd_name (cc_cmd p) c;
                    '(_, c) ← cli_printf (lit " %s" ++ [10]) [AStr (cobj syn)] c; Ret c)).
    destruct (literal_ok (lit "Usage: ") eq_refl) as [U1 U2]. apply calls_bind; [by apply puts_calls|].
    apply calls_bind; [apply print_cmd_name_calls, Hp|].
    destruct (literal_ok [32] eq_refl). apply (print_str_calls [32] syn [10]); auto using newline_text, newline_calm.
  - destruct (group_prefix _ _).
    + destruct (literal_ok (lit "Incomplete command. Press ? for options." ++ [10]) eq_refl). by apply puts_calls.
    + destruct (literal_ok (lit "Unknown command" ++ [10]) eq_refl). by apply puts_calls.
Qed.

(** *** Completion *)

Definition norm (s : list Z) : list Z := (λ b, if b =? 32 then 95 else b) <$> s.
Definition matches (line : list Z) (p : cli_cmd (W := W)) : Prop := norm line `prefix_of` cc_cmd p.

Lemma prefix_match_ok line : ∀ cmd, Forall printable line →
  ∃ b, prefix_match cmd line = Ret b ∧ (b = true ↔ norm line `prefix_of` cmd).
Proof.
  induction line as [|b line IH]; intros cmd Hl.
  { exists true. split; [by destruct cmd|]. split; [|done]. intros _. apply prefix_nil. }
  apply Forall_cons_1 in Hl as [Hb Hl]. unfold printable in Hb. cbn [prefix_match norm fmap list_fmap].
  set (bc := if b =? 32 then 95 else b). assert (bc ≠ 0) by (unfold bc; case_match; lia).
  destruct cmd as [|x cmd].
  - rewrite (proj2 (Z.eqb_neq bc 0)) by done. exists false. split; [done|]. split; [done|]. by intros ?%prefix_nil_not.
  - destruct (x =? bc) eqn:E; bool_to_prop.
    + destruct (IH cmd Hl) as (r & -> & Hr). exists r. split; [done|]. rewrite Hr. subst x. split; [apply prefix_cons|apply prefix_cons_inv_2].
    + exists false. split; [done|]. split; [done|]. intros ?%prefix_cons_inv_1. by subst.
Qed.
Lemma prefix_match_dec p line : Forall printable line →
  {prefix_match (cc_cmd p) line = Ret true ∧ matches line p} + {prefix_match (cc_cmd p) line = Ret false ∧ ¬ matches line p}.
Proof.
  intros Hl. destruct (prefix_match (cc_cmd p) line) as [[|]|] eqn:E; [left|right|exfalso];
    destruct (prefix_match_ok line (cc_cmd p) Hl) as (b & E2 & Hb); rewrite E in E2; [injection E2 as <-..|done].
  - split; [done|]. by apply Hb.
  - split; [done|]. intros H. by apply Hb in H.
Qed.

Lemma common_loop_ok n : ∀ p f i, let j := common_loop n p f i in
  i <= j <= i + Z.of_nat n ∧ (∀ k, i <= k < j → cmd_at p k = cmd_at f k) ∧
  (j = i + Z.of_nat n ∨ cmd_at p j ≠ cmd_at f j).
Proof.
  induction n as [|n IH]; intros p f i; cbn [common_loop]; [split_and!; [lia|lia|intros; lia|left; lia]|].
  destruct (cmd_at p i =? cmd_at f i) eqn:E; bool_to_prop; [|split_and!; [lia|lia|intros; lia|by right]].
  destruct (IH p f (i + 1)) as (H1 & H2 & H3). cbv zeta. split; [lia|]. split; [|destruct H3; [left; lia|by right]].
  intros k Hk. destruct (decide (k = i)) as [->|]; [done|]. apply H2. lia.
Qed.

Lemma cmd_at_prefix s cmd k : s `prefix_of` cmd → 0 <= k < Z.of_nat (length s) → cmd_at cmd k = cmd_at s k.
Proof.
  intros [t ->] Hk. unfold cmd_at. rewrite drop_app_le by lia. 
  destruct (drop (Z.to_nat k) s) eqn:E; [|done]. apply (f_equal length) in E. rewrite length_drop in E. cbn in E. lia.
Qed.

#[export] Instance matches_decision line p : Decision (matches line p).
Proof. unfold matches. apply _. Defined.

(** The first of the matches, and how far all agree with it. *)
Definition agreed (line : list Z) (ms : list (cli_cmd (W := W))) (first : option cli_cmd) (common n : Z) : Prop :=
  n = Z.of_nat (length ms) ∧ Forall (matches line) ms ∧
  match first with
  | None => ms = []
  | Some f => head ms = Some f ∧ Z.of_nat (length line) <= common <= Z.of_nat (length (cc_cmd f)) ∧
      (∀ m k, m ∈ ms → 0 <= k < common → cmd_at (cc_cmd m) k = cmd_at (cc_cmd f) k) ∧
      (common = Z.of_nat (length (cc_cmd f)) ∨ ∃ m, m ∈ ms ∧ cmd_at (cc_cmd m) common ≠ cmd_at (cc_cmd f) common)
  end.

Lemma norm_length line : length (norm line) = length line.
Proof. apply length_fmap. Qed.
Lemma matches_length line p : matches line p → (length line <= length (cc_cmd p))%nat.
Proof. intros H%prefix_length. by rewrite norm_length in H. Qed.

Lemma count_matches_ok line q : ∀ ms first common n, Forall printable line → agreed line ms first common n →
  ∃ first' common' n', count_matches q line first common n = Ret (first', common', n') ∧
    agreed line (ms ++ filter (matches line) q) first' common' n'.
Proof.
  induction q as [|p q IH]; intros ms first common n Hl Ha; cbn [count_matches].
  { exists first, common, n. split; [done|]. by rewrite app_nil_r. }
  rewrite filter_cons. destruct (prefix_match_dec p line Hl) as [[-> Hm]|[-> Hm]]; cbn [mbind res_bind].
  2: { rewrite decide_False by done. by apply IH. }
  rewrite decide_True by done. replace (ms ++ p :: filter (matches line) q) with ((ms ++ [p]) ++ filter (matches line) q)
    by (by rewrite <- app_assoc).
  destruct Ha as (-> & Hms & Hf). pose proof (matches_length _ _ Hm) as Lp.
  assert (Forall (matches line) (ms ++ [p])) as Hms' by (apply Forall_app; split; [done|by apply Forall_singleton]).
  destruct first as [f|].
  - destruct Hf as (Hh & Hc & Hag & Hmax). destruct (common_loop_ok (Z.to_nat (common - Z.of_nat (length line))) (cc_cmd p) (cc_cmd f)
      (Z.of_nat (length line))) as (H1 & H2 & H3). set (j := common_loop _ _ _ _) in *. apply IH; [done|].
    assert (matches line f) as Hmf by (destruct ms as [|x ms]; [done|]; injection Hh as ->; by apply Forall_cons_1 in Hms as [? _]).
    split; [rewrite length_app; cbn; lia|]. split; [done|]. split; [by destruct ms|]. split; [lia|]. split.
    + intros m k [Hin|Hin]%elem_of_app Hk; [apply Hag; [done|lia]|]. apply list_elem_of_singleton in Hin as ->.
      destruct (decide (k < Z.of_nat (length line))); [|apply H2; lia].
      by rewrite (cmd_at_prefix (norm line) (cc_cmd p)), (cmd_at_prefix (norm line) (cc_cmd f)) by (try done; rewrite norm_length; lia).
    + destruct H3 as [H3|H3]; [|right; exists p; split; [apply elem_of_app; right; by apply list_elem_of_singleton|done]].
      assert (j = common) as -> by lia. destruct Hmax as [?|(m & Hin & ?)]; [by left|]. right. exists m. split; [|done].
      apply elem_of_app. by left.
  - subst ms. apply IH; [done|]. split; [done|]. split; [done|]. split; [done|]. split; [lia|]. split; [|by left].
    intros m k Hin Hk. by apply list_elem_of_singleton in Hin as ->.
Qed.

(** The characters from [i] on, as they are inserted. *)
Definition shown_char (c : Z) : Z := if c =? 95 then 32 else c.
Definition extension (f : list Z) (i n : nat) : list Z := shown_char <$> take n (drop i f).

Lemma extension_printable f i n : Forall printable f → Forall printable (extension f i n).
Proof.
  intros Hf. apply Forall_fmap.
  assert (Forall printable (take n (drop i f))) as H by (by apply Forall_take, Forall_drop).
  revert H. apply Forall_impl. intros x. unfold printable, shown_char. cbn. case_match; lia.
Qed.

Lemma insert_one x l r ed : rep l r ed → printable x → ∃ ed', cli_ed_insert [x] ed = Ret ed' ∧ esc_of ed' = esc_of ed ∧
  rep (if (length l + length r <? 79)%nat then l ++ [x] else l) r ed'.
Proof.
  intros Hr Hx. cbn [cli_ed_insert]. rewrite (rep_len _ _ _ Hr). unfold CLI_LINE_BUF_SIZE.
  destruct (Nat.ltb_spec (length l + length r) 79).
  - rewrite (proj2 (Z.leb_gt _ _)) by lia. destruct (put_char_ok x l r ed Hr Hx) as (ed' & -> & He & H2).
    rewrite (proj2 (Nat.ltb_lt _ _)) in H2 by done. by exists ed'.
  - rewrite (proj2 (Z.leb_le _ _)) by lia. by exists ed.
Qed.

Lemma insert_common_ok n : ∀ f i l r ed, rep l r ed → Forall printable f → (i + n <= length f)%nat →
  ∃ ed', insert_common n f (Z.of_nat i) ed = Ret ed' ∧ esc_of ed' = esc_of ed ∧
    rep (l ++ take (79 - (length l + length r)) (extension f i n)) r ed'.
Proof.
  induction n as [|n IH]; intros f i l r ed Hr Hf Hin; cbn [insert_common].
  { exists ed. split; [done|]. split; [done|]. unfold extension. cbn.
    by rewrite firstn_nil, app_nil_r. }
  destruct (drop i f) as [|x t] eqn:Ed; [apply (f_equal length) in Ed; rewrite length_drop in Ed; cbn in Ed; lia|].
  assert (cmd_at f (Z.of_nat i) = x) as -> by (unfold cmd_at; by rewrite Nat2Z.id, Ed).
  assert (printable (shown_char x)) as Hx.
  { assert (Forall printable (drop i f)) as H by by apply Forall_drop. rewrite Ed in H. apply Forall_cons_1 in H as [H _].
    unfold shown_char, printable in *. case_match; lia. }
  fold (shown_char x). destruct (insert_one _ l r ed Hr Hx) as (ed1 & -> & He1 & Hr1). cbn [mbind res_bind].
  replace (Z.of_nat i + 1) with (Z.of_nat (S i)) by lia.
  destruct (IH f (S i) _ r ed1 Hr1 Hf ltac:(lia)) as (ed2 & -> & He2 & Hr2). exists ed2. split; [done|]. split; [congruence|].
  assert (extension f i (S n) = shown_char x :: extension f (S i) n) as ->.
  { unfold extension. rewrite Ed. cbn. do 2 f_equal. replace (S i) with (i + 1)%nat by lia. by rewrite <- drop_drop, Ed. }
  destruct (Nat.ltb_spec (length l + length r) 79).
  - replace (79 - (length l + length r))%nat with (S (79 - (length (l ++ [shown_char x]) + length r))) by (rewrite length_app; cbn; lia).
    cbn [take]. by rewrite <- app_assoc in Hr2.
  - by replace (79 - (length l + length r))%nat with 0%nat in * by lia.
Qed.

Lemma segment_le s : (length (segment s) <= length s)%nat.
Proof. induction s as [|c s IH]; [done|]. cbn. case_match; cbn; lia. Qed.

Lemma seg_text_calm w n left s : Forall printable s → calm (str_text (FmtParam w n false left false false false) s).
Proof.
  intros Hs. apply calm_printable. unfold str_text, padded. cbn [la width].
  assert (∀ k, Forall printable (replicate k 32)) as Hr by (intros k; apply Forall_replicate; unfold printable; lia).
  destruct left; apply Forall_app; split; auto.
Qed.

(** What the list of matches says of a command: the word it can go on with where the last
    word of the line starts, and its help when this word is its last. *)
Definition next_word (start : nat) (p : cli_cmd (W := W)) : list Z := segment (drop start (cc_cmd p)).
Definition entry (start : nat) (p : cli_cmd (W := W)) : list Z :=
  let w := next_word start p in
  [32; 32] ++ w ++
  match cc_brief p with
  | Some brief =>
      if (length w =? length (drop start (cc_cmd p)))%nat
      then replicate (16 - length w) 32 ++ [32] ++ brief else []
  | None => []
  end ++ [10].

(** One command for each word, of those next to each other. *)
Fixpoint distinct (start : nat) (prev : list Z) (ps : list (cli_cmd (W := W))) : list (cli_cmd (W := W)) :=
  match ps with
  | [] => []
  | p :: ps =>
      let w := next_word start p in
      if (bool_decide (w = []) || bool_decide (w = prev))%bool then distinct start prev ps
      else p :: distinct start w ps
  end.
Definition listing (start : nat) (ps : list (cli_cmd (W := W))) : list Z :=
  concat (entry start <$> distinct start [] ps).

Lemma distinct_covers start ps : ∀ prev p, p ∈ ps → next_word start p ≠ [] →
  next_word start p = prev ∨ ∃ q, q ∈ distinct start prev ps ∧ next_word start q = next_word start p.
Proof.
  induction ps as [|x ps IH]; intros prev p Hin Hw; [by apply elem_of_nil in Hin|]. cbn [distinct].
  apply elem_of_cons in Hin as [->|Hin].
  - rewrite (bool_decide_false (_ = [])) by done. cbn [orb]. case_bool_decide; [by left|].
    right. exists x. split; [left|done].
  - destruct (_ || _)%bool eqn:E; [by apply IH|]. right.
    destruct (IH (next_word start x) p Hin Hw) as [H|(q & Hq & Eq)].
    + exists x. split; [left|done].
    + exists q. split; [by right|done].
Qed.

Lemma segment_take s : take (length (segment s)) s = segment s.
Proof. induction s as [|c s IH]; [done|]. cbn. case_match; [done|]. cbn. by f_equal. Qed.

Lemma entry_calm start p : cmd_ok p → calm (entry start p).
Proof.
  intros Hp. pose proof (ck_name _ Hp) as [Hn _]. pose proof (ck_brief _ Hp) as Hb. unfold entry, next_word.
  assert (∀ k, calm (replicate k 32)) as Hrep by (intros k; apply calm_chars, Forall_replicate; lia).
  apply calm_app; [by apply literal_ok|]. apply calm_app.
  { apply calm_printable. rewrite <- segment_take. by apply Forall_take, Forall_drop. }
  apply calm_app; [|apply newline_calm]. destruct (cc_brief p) as [brief|]; [|apply calm_nil].
  destruct (_ =? _)%nat; [|apply calm_nil]. repeat apply calm_app; [done|by apply literal_ok|apply calm_printable, Hb].
Qed.

(** The code prints just this list. *)
Lemma list_loop_ok line start q : ∀ prev (c : cli), Forall printable line → Forall cmd_ok q →
  list_loop q line (Z.of_nat start) prev c =
    Ret (c.1 ++ concat (entry start <$> distinct start prev (filter (matches line) q)), c.2).
Proof.
  induction q as [|p q IH]; intros prev c Hl Hq; [cbn; rewrite app_nil_r; by destruct c|].
  apply Forall_cons_1 in Hq as [Hp Hq]. cbn [list_loop].
  destruct (prefix_match_dec p line Hl) as [[-> Hm]|[-> Hm]]; cbn [mbind res_bind negb].
  2: { rewrite filter_cons_False by done. by apply IH. }
  rewrite filter_cons_True by done. cbn [distinct]. rewrite Nat2Z.id. cbv zeta.
  set (suffix := drop start (cc_cmd p)). set (seg := segment suffix). change (next_word start p) with seg.
  destruct (Z.of_nat (length seg) =? 0) eqn:E0; bool_to_prop.
  { rewrite (bool_decide_true (seg = [])) by (destruct seg; [done|cbn in E0; lia]). by apply IH. }
  rewrite (bool_decide_false (seg = [])) by (intros E; rewrite E in E0; done). cbn [orb].
  case_bool_decide as Ep; [by apply IH|].
  cbn [fmap list_fmap concat]. fold (fmap (M := list) (entry start)).
  pose proof (ck_name _ Hp) as [Hn1 Hn2]. pose proof (segment_le suffix) as Hle. fold seg in Hle.
  assert (plain suffix) as Hsuf by (split; [by apply Forall_drop|unfold suffix; rewrite length_drop; lia]).
  assert (take (Z.to_nat (Z.of_nat (length seg))) suffix = seg) as Et by (rewrite Nat2Z.id; apply segment_take).
  assert (∀ (fmt : list Z) args k o, sends out (fmtv out false fmt args) k o → o = entry start p →
    ('(_, c) ← cli_printf fmt args c; list_loop q line (Z.of_nat start) seg c) =
      Ret (c.1 ++ entry start p ++ concat (entry start <$> distinct start seg (filter (matches line) q)), c.2)) as Hgo.
  { intros fmt args k o Hs ->. unfold cli_printf. rewrite (Hs c.1 I). cbn [mbind res_bind].
    rewrite IH by done. cbn [fst snd]. change (absorb c.1 (entry start p)) with (c.1 ++ entry start p).
    by rewrite <- app_assoc. }
  destruct (seg_line_sends suffix (Z.of_nat (length seg))) as (k & Hk); [lia|done|]. rewrite Et in Hk.
  assert (str_text (FmtParam (-1) (Z.of_nat (length seg)) false false false false false) seg = seg) as Es.
  { unfold str_text, padded. cbn [la width]. replace (Z.to_nat (-1 - Z.of_nat (length seg))) with 0%nat by lia. done. }
  rewrite Es in Hk. change (cc_brief p) with (cc_brief p) in *.
  assert (∀ x, x = match cc_brief p with
      | Some brief => if (length seg =? length suffix)%nat then replicate (16 - length seg) 32 ++ [32] ++ brief else []
      | None => [] end → entry start p = [32; 32] ++ seg ++ x ++ [10]) as Hentry by (by intros x ->).
  pose proof (ck_brief _ Hp) as Hb. destruct (cc_brief p) as [brief|] eqn:Ebr.
  2: { eapply Hgo; [exact Hk|]. by rewrite (Hentry [] eq_refl). }
  destruct (Nat.eqb _ _) eqn:El.
  2: { eapply Hgo; [exact Hk|]. by rewrite (Hentry [] eq_refl). }
  destruct (brief_line_sends suffix (Z.of_nat (length seg)) brief) as (k2 & Hk2); [lia|done|done|]. rewrite Et in Hk2.
  eapply Hgo; [exact Hk2|]. rewrite (Hentry _ eq_refl). unfold str_text, padded. cbn [la width].
  replace (Z.to_nat (16 - Z.of_nat (length seg))) with (16 - length seg)%nat by lia. by rewrite <- !app_assoc.
Qed.

Lemma list_loop_calls line start q : ∀ prev, Forall printable line → Forall cmd_ok q →
  calls (list_loop q line (Z.of_nat start) prev).
Proof.
  intros prev Hl Hq c. rewrite list_loop_ok by done. eexists _, c.2. split; [done|].
  assert (∀ ps pv, Forall cmd_ok ps → calm (concat (entry start <$> distinct start pv ps))) as H.
  { induction ps as [|p ps IH]; intros pv Hps; [apply calm_nil|]. apply Forall_cons_1 in Hps as [Hp Hps]. cbn [distinct].
    destruct (_ || _)%bool; [by apply IH|]. cbn [fmap list_fmap concat]. apply calm_app; [by apply entry_calm|by apply IH]. }
  apply H. apply Forall_forall. intros p Hin%list_elem_of_In%list_elem_of_filter. destruct Hin as [_ Hin].
  exact (proj1 (Forall_forall _ _) Hq p (proj1 (list_elem_of_In _ _) Hin)).
Qed.

(** Where the last word of a line starts. *)
Definition word_start (line : list Z) : nat := length (rev (drop_while word_char (rev line))).

Lemma skip_left_word line junk : Forall printable line → (length line < 80)%nat →
  skip_left word_fuel (line ++ junk) false (Z.of_nat (length line)) = Ret (Z.of_nat (word_start line)).
Proof.
  intros Hl Hlen. by rewrite skip_left_ok by (unfold word_fuel; lia).
Qed.

Lemma exact_help_ok line (q : list (cli_cmd (W := W))) : Forall printable line → ∃ p, exact_help q line = Ret p ∧ (∀ x, p = Some x → x ∈ q).
Proof.
  intros Hl. induction q as [|p q (x & E & Hx)]; [by exists None|]. cbn [exact_help].
  assert (∀ y, x = Some y → y ∈ p :: q) as Hx' by (intros y Hy; right; by apply Hx).
  destruct (Nat.eqb _ _); [|by exists x]. destruct (prefix_match_dec p line Hl) as [[-> Hm]|[-> Hm]]; cbn [mbind res_bind].
  - exists (Some p). split; [done|]. intros y [= <-]. left.
  - by exists x.
Qed.

Lemma trimmed_help_calls b line : Forall printable line → calls (trimmed_help cmds b line).
Proof.
  intros Hl c. unfold trimmed_help. destruct (_ && _)%bool; [|apply calls_ret].
  destruct (exact_help_ok (take (length line - 1) line) cmds) as (p & -> & Hp); [by apply Forall_take|].
  cbn [mbind res_bind]. destruct p as [p|]; [|apply calls_ret].
  apply calls_bind; [apply puts_calls; [apply newline_text|apply newline_calm]|].
  apply print_help_calls. exact (proj1 (Forall_forall _ _) Hcmds p (proj1 (list_elem_of_In _ _) (Hp p eq_refl))).
Qed.

Lemma list_matches_calls b f n l r ed : rep l r ed → cmd_ok f → calls (list_matches cmds b f n ed (l ++ r)).
Proof.
  intros Hr Hf. pose proof Hr as [(junk & Eb) _ _ Hlen Hch]. unfold list_matches.
  apply calls_bind; [apply puts_calls; [apply newline_text|apply newline_calm]|]. intros c.
  destruct (_ && _)%bool; [by apply print_help_calls|]. rewrite Hlen, Eb, app_assoc.
  replace (Z.of_nat (length l) + Z.of_nat (length r)) with (Z.of_nat (length (l ++ r))) by (rewrite length_app; lia).
  pose proof (rep_bounds _ _ _ Hr). rewrite skip_left_word by (rewrite ?length_app; done || lia). cbn [mbind res_bind].
  by apply list_loop_calls.
Qed.

(** On a tabulator, all of the matches. *)
Lemma list_matches_ok f n l r ed (c : cli) : rep l r ed →
  list_matches cmds false f n ed (l ++ r) c =
    Ret (c.1 ++ [10] ++ listing (word_start (l ++ r)) (filter (matches (l ++ r)) cmds), c.2).
Proof.
  intros Hr. pose proof Hr as [(junk & Eb) _ _ Hlen Hch]. unfold list_matches.
  rewrite puts_ok by apply newline_text. cbn [mbind res_bind andb]. rewrite Hlen, Eb, app_assoc.
  replace (Z.of_nat (length l) + Z.of_nat (length r)) with (Z.of_nat (length (l ++ r))) by (rewrite length_app; lia).
  pose proof (rep_bounds _ _ _ Hr). rewrite skip_left_word by (rewrite ?length_app; done || lia). cbn [mbind res_bind].
  rewrite list_loop_ok by done. cbn [fst snd]. by rewrite <- app_assoc.
Qed.

Lemma completion_ok b l r ed (c : cli) : rep l r ed →
  ∃ ed' o w, do_completion cmds b ed c = Ret (ed', (c.1 ++ o, w)) ∧ calm o ∧ esc_of ed' = esc_of ed ∧
    match head (filter (matches (l ++ r)) cmds) with
    | None => ed' = ed
    | Some f => ∃ common : nat,
        agreed (l ++ r) (filter (matches (l ++ r)) cmds) (Some f) (Z.of_nat common) (Z.of_nat (length (filter (matches (l ++ r)) cmds))) ∧
        if (b || Nat.eqb common (length (l ++ r)))%bool
        then ed' = ed ∧ (b = false → o = [10] ++ listing (word_start (l ++ r)) (filter (matches (l ++ r)) cmds))
        else o = [] ∧ ∃ sp, (sp = [] ∨ sp = [32]) ∧
          rep (l ++ take (79 - length (l ++ r)) (extension (cc_cmd f) (length (l ++ r)) (common - length (l ++ r))) ++ sp) r ed'
    end.
Proof.
  intros Hr. pose proof Hr as [(junk & Eb) _ _ Hlen Hch]. unfold do_completion.
  assert (rd (ed_buf ed) 0 (ed_len ed) = Ret (l ++ r)) as ->.
  { rewrite Eb, app_assoc, Hlen. replace (Z.of_nat (length l) + Z.of_nat (length r)) with (Z.of_nat (length (l ++ r)))
      by (rewrite length_app; lia). by apply (rd_at [] (l ++ r)). }
  cbn [mbind res_bind].
  destruct (count_matches_ok (l ++ r) cmds [] None 0 0 Hch) as (first & common & n & -> & Ha); [done|].
  cbn [mbind res_bind app] in *. set (ms := filter (matches (l ++ r)) cmds) in *.
  pose proof Ha as (-> & Hms & Hf). destruct first as [f|].
  2: { rewrite Hf. cbn [head]. destruct (trimmed_help_calls b (l ++ r) Hch c) as (o & w & -> & Ho). by exists ed, o, w. }
  destruct Hf as (Hh & Hc & Hag & Hmax). rewrite Hh.
  assert (cmd_ok f) as Hfok.
  { assert (f ∈ cmds) as Hin. { destruct ms as [|x ms'] eqn:E; [done|]. injection Hh as ->.
      assert (f ∈ ms) as H by (rewrite E; left). by apply list_elem_of_filter in H as [_ ?]. }
    exact (proj1 (Forall_forall _ _) Hcmds f (proj1 (list_elem_of_In _ _) Hin)). }
  assert (Z.of_nat (length (l ++ r)) = ed_len ed) as El by (rewrite Hlen, length_app; lia).
  replace common with (Z.of_nat (Z.to_nat common)) in Ha |- * by lia. set (cm := Z.to_nat common) in *.
  rewrite <- El. destruct b; cbn [negb andb orb].
  { destruct (list_matches_calls true f (Z.of_nat (length ms)) l r ed Hr Hfok c) as (o & w & -> & Ho).
    exists ed, o, w. split; [done|]. split; [done|]. split; [done|]. by exists cm. }
  destruct (Z.ltb_spec (Z.of_nat (length (l ++ r))) (Z.of_nat cm)).
  2: { destruct (list_matches_calls false f (Z.of_nat (length ms)) l r ed Hr Hfok c) as (o & w & E & Ho).
    rewrite E. exists ed, o, w. split; [done|]. split; [done|]. split; [done|]. exists cm. split; [done|].
    rewrite (proj2 (Nat.eqb_eq _ _)) by lia. split; [done|]. intros _.
    rewrite (list_matches_ok f _ l r ed c Hr) in E. injection E as E _. symmetry. by apply app_inv_head in E. }
  replace (Z.to_nat (Z.of_nat cm - Z.of_nat (length (l ++ r)))) with (cm - length (l ++ r))%nat by lia.
  destruct (insert_common_ok (cm - length (l ++ r)) (cc_cmd f) (length (l ++ r)) l r ed Hr) as (ed1 & -> & He1 & Hr1);
    [apply Hfok|lia|]. cbn [mbind res_bind]. rewrite <- (length_app l r) in Hr1.
  set (t := take _ _) in Hr1.
  assert (∃ ed2 sp, (if (((Z.of_nat (length ms) =? 1) && (cmd_at (cc_cmd f) (Z.of_nat cm) =? 0)) || (cmd_at (cc_cmd f) (Z.of_nat cm) =? 95))%bool
              then cli_ed_insert [32] ed1 else Ret ed1) = Ret ed2 ∧ esc_of ed2 = esc_of ed1 ∧ (sp = [] ∨ sp = [32]) ∧
     rep (l ++ t ++ sp) r ed2) as (ed2 & sp & -> & He2 & Hsp & Hr2).
  { destruct (_ || _)%bool; [|exists ed1, []; rewrite app_nil_r; auto].
    destruct (insert_one 32 _ _ _ Hr1) as (ed2 & -> & He2 & Hr2); [unfold printable; lia|].
    destruct (Nat.ltb _ _); [exists ed2, [32]; rewrite app_assoc|exists ed2, []; rewrite app_nil_r]; auto. }
  cbn [mbind res_bind]. exists ed2, [], c.2. rewrite app_nil_r. split; [by destruct c|]. split; [apply calm_nil|].
  split; [congruence|]. exists cm. split; [done|]. rewrite (proj2 (Nat.eqb_neq _ _)) by lia. split; [done|]. by exists sp.
Qed.

(** *** A round of the loop *)

Lemma decode_insert st c x : (decode st c).2 = KInsert x → printable x.
Proof.
  assert (∀ p1 p2, csi_key p1 p2 c ≠ KInsert x) as Hcsi by (intros p1 p2; unfold csi_key; repeat case_match; discriminate).
  destruct st as [[s p1] p2]. unfold decode. destruct s; repeat (case_match; cbn; try done); try (by intros ?%Hcsi).
  cbn. unfold plain_key. repeat (destruct (_ =? _); cbn [orb]; [done|]).
  destruct (_ && _)%bool eqn:E; [|done]. intros [= <-]. bool_to_prop. unfold printable. lia.
Qed.

(** What a key does to the line: it moves the cursor, inserts, or takes text away. *)
Lemma key_edit k l r l' r' : apply_key k l r = (CLI_ED_NONE, (l', r')) →
  l' ++ r' = l ++ r ∨ (∃ c, k = KInsert c ∧ l' = l ++ [c] ∧ r' = r) ∨
  (∃ w v, l = l' ++ w ∧ r = v ++ r') ∨ (∃ v, l ++ r = l' ++ v ∧ r' = [] ∧ l' = []).
Proof.
  assert (∀ r : list Z, ∃ v, r = v ++ tail r) as Htl by (intros [|x t]; [by exists []|by exists [x]]).
  intros H. destruct k; cbn [apply_key] in H; try (injection H as <- <-).
  - by left.
  - destruct (_ <? _)%nat; injection H as <- <-; [right; left; eauto|by left].
  - left. destruct l as [|x l0 _] using rev_ind; [done|]. rewrite removelast_last.
    assert (match l0 ++ [x] with [] => r | _ => List.last (l0 ++ [x]) 0 :: r end = x :: r) as ->
      by (rewrite List.last_last; by destruct l0).
    by rewrite <- app_assoc.
  - destruct r; injection H as <- <-; left; [done|by rewrite <- app_assoc].
  - by left.
  - left. by rewrite app_nil_r.
  - right; right; left. destruct (Htl r) as [v Hv]. exists [], v. by rewrite app_nil_r.
  - right; right; left. destruct l as [|x l0 _] using rev_ind; [by exists [], []|]. rewrite removelast_last. by exists [x], [].
  - right; right; left. exists [], r. by rewrite !app_nil_r.
  - right; right; right. by exists (l ++ r).
  - right; right; left. destruct (before_word_prefix l) as [w Ew]. by exists w, [].
  - left. destruct (before_word_prefix l) as [w Ew]. rewrite app_assoc. f_equal. revert Ew. generalize (before_word l).
    intros b Ew. by rewrite Ew, drop_app_length.
  - left. destruct (after_word_suffix r) as [w Ew]. rewrite <- app_assoc. f_equal. revert Ew. generalize (after_word r).
    intros b ->. rewrite length_app. replace (length w + length b - length b)%nat with (length w) by lia. by rewrite take_app_length.
  - destruct (l ++ r) eqn:E; [done|]. injection H as <- <-. rewrite <- E.
    right; right; left. destruct (Htl r) as [v Hv]. exists [], v. by rewrite app_nil_r.
  - injection H as _ <- <-. by left.
Qed.

Definition sc0 : screen := Screen [] 0 TGround.
Definition display (c : cli) : screen := feed_all cols sc0 c.1.

Context (Hcols : (length prompt + 80 <= cols)%nat).

Lemma redraw_shows l r ed (c : cli) : rep l r ed → t_state (display c) = TGround →
  ∃ c', redraw_line hostname promptchar ed c = Ret c' ∧ shows prompt l r (display c').
Proof.
  intros Hr Ht. rewrite (redraw_ok l r ed c Hr). eexists. split; [done|]. unfold display. cbn [fst]. rewrite feed_all_app.
  pose proof (rep_bounds _ _ _ Hr). apply line_shown; [apply prompt_printable|apply (rep_chars _ _ _ Hr)|done|rewrite length_app; lia|].
  destruct Hhost. unfold prompt. rewrite length_app. cbn [length]. lia.
Qed.

Lemma calm_display (c : cli) o w : t_state (display c) = TGround → calm o → t_state (display (c.1 ++ o, w)) = TGround.
Proof. intros Ht Ho. unfold display. cbn [fst]. rewrite feed_all_app. by apply Ho. Qed.

Lemma none_shows k l r l' r' ed (c : cli) : apply_key k l r = (CLI_ED_NONE, (l', r')) →
  (∀ x, k = KInsert x → printable x) → rep l' r' ed → shows prompt l r (display c) →
  ∃ c', loop_none hostname promptchar (Z.of_nat (length l)) (Z.of_nat (length l) + Z.of_nat (length r)) ed c = Ret c' ∧
    shows prompt l' r' (display c').
Proof.
  intros Hk Hins Hr Hsh. pose proof (key_edit _ _ _ _ _ Hk) as Hed. unfold loop_none. rewrite (rep_pos _ _ _ Hr), (rep_len _ _ _ Hr).
  pose proof Hsh as (Ht & _).
  destruct ((_ =? _) && (_ =? _))%bool eqn:E1.
  { bool_to_prop. exists c. split; [done|]. assert (l' = l ∧ r' = r) as [-> ->]; [|done].
    destruct Hed as [Hed|[(x & _ & -> & ->)|[(w & v & -> & ->)|(v & Hv & -> & ->)]]].
    - apply app_inj_1 in Hed; [naive_solver|lia].
    - rewrite length_app in *. cbn in *. lia.
    - rewrite !length_app in *. destruct w, v; cbn in *; try lia. by rewrite app_nil_r.
    - destruct l, r; cbn in *; try lia. done. }
  clear E1. destruct (_ && _ && _)%bool eqn:E2.
  { bool_to_prop. assert (r' = [] ∧ r = []) as [-> ->] by (destruct r', r; cbn in *; (lia || done)).
    assert (∃ x, printable x ∧ l' = l ++ [x]) as (x & Hx & ->).
    { destruct Hed as [Hed|[(x & Hkx & -> & _)|[(w & v & -> & _)|(v & Hv & _ & ->)]]].
      - rewrite !app_nil_r in Hed. subst. lia.
      - exists x. split; [by apply Hins|done].
      - rewrite length_app in *. lia.
      - cbn in *. lia. }
    pose proof Hr as [(junk & Eb) _ _ _ _]. rewrite Eb, <- app_assoc. cbn [app].
    rewrite char_at_mid by (rewrite length_app; cbn; lia). cbn [mbind res_bind].
    rewrite print_char_ok by (unfold printable, is_byte in *; lia). cbn [mbind res_bind]. eexists. split; [done|].
    unfold display. cbn [fst]. rewrite feed_all_app. pose proof (rep_bounds _ _ _ Hr) as Hb. rewrite length_app in Hb.
    apply char_shown; [done|lia|done]. }
  clear E2. destruct (_ && _ && _)%bool eqn:E3.
  { bool_to_prop. assert (r' = [] ∧ r = []) as [-> ->] by (destruct r', r; cbn in *; (lia || done)).
    assert (∃ x, l = l' ++ [x]) as (x & ->).
    { destruct Hed as [Hed|[(x & Hkx & -> & _)|[(w & v & -> & _)|(v & Hv & _ & ->)]]].
      - rewrite !app_nil_r in Hed. subst. lia.
      - rewrite length_app in *. cbn in *. lia.
      - rewrite length_app in *. destruct w as [|x [|]]; cbn in *; try lia. by exists x.
      - destruct l as [|x [|]]; cbn in *; try lia. by exists x. }
    rewrite puts_ok by (apply literal_ok; reflexivity). eexists. split; [done|].
    unfold display. cbn [fst]. rewrite feed_all_app. pose proof (rep_bounds _ _ _ Hr).
    eapply rubout_shown; [lia|done]. }
  by apply redraw_shows.
Qed.

(** What the person at the terminal sees: the line with its cursor, the lines entered
    before, newest first, how far back the history was followed, and the line that was
    left for it. *)
Record session := Session {
  se_esc : esc * Z * Z;
  se_left : list Z;
  se_right : list Z;
  se_lines : list (list Z);
  se_offset : Z;
  se_saved : option (list Z) }.

Definition enter_line (line : list Z) (ls : list (list Z)) : list (list Z) :=
  match line with [] => ls | _ => add_line line ls end.

(** One of the newest eight lines. *)
Definition recall (offset : Z) (ls : list (list Z)) : option (list Z) :=
  if 0 <=? offset then take 8 ls !! Z.to_nat offset else None.
Definition to_line (t : option (list Z)) : list Z := take 79 (default [] t).

(** The next session; [ext] is what completion inserts. *)
Definition edit (ext : list Z) (c : Z) (a : session) : session :=
  let '(st, k) := decode (se_esc a) c in
  let '(l, r, ls, off, sv) := (se_left a, se_right a, se_lines a, se_offset a, se_saved a) in
  let '(ev, (l', r')) := apply_key k l r in
  match ev with
  | CLI_ED_ENTER => Session st [] [] (enter_line (l ++ r) ls) (-1) None
  | CLI_ED_CANCEL => Session st [] [] ls (-1) None
  | CLI_ED_TAB => Session st (l ++ ext) r ls off sv
  | CLI_ED_HIST_UP =>
      match recall (off + 1) ls with
      | Some t => Session st (to_line (Some t)) [] ls (off + 1) (if off =? -1 then Some (l ++ r) else sv)
      | None => Session st l r ls off sv
      end
  | CLI_ED_HIST_DOWN =>
      if 0 <? off then Session st (to_line (recall (off - 1) ls)) [] ls (off - 1) sv
      else if off =? 0 then Session st (to_line sv) [] ls (-1) None
      else Session st l r ls off sv
  | _ => Session st l' r' ls off sv
  end.
Definition session0 : session := Session (CLI_ESC_NONE, 0, 0) [] [] [] (-1) None.

(** The state between two characters. *)
Record good (a : session) (s : shell (W := W)) : Prop := {
  gd_ed : rep (se_left a) (se_right a) (sh_ed s);
  gd_esc : esc_of (sh_ed s) = se_esc a;
  gd_history : recent (se_lines a) (sh_history s);
  gd_lines : Forall (Forall printable) (se_lines a);
  gd_offset : sh_offset s = se_offset a ∧ -1 <= se_offset a;
  gd_saved : sh_saved s = se_saved a ∧ match se_saved a with Some t => Forall printable t | None => True end;
  gd_mem : Forall (eq true) (sh_mem s);
  gd_screen : shows prompt (se_left a) (se_right a) (display (sh_cli s)) }.

Lemma add_line_length line ls : (length (add_line line ls) <= S (length ls))%nat.
Proof. unfold add_line. case_match; cbn; lia. Qed.

Lemma edit_length ext c a : (length (se_lines (edit ext c a)) <= S (length (se_lines a)))%nat.
Proof.
  unfold edit. destruct (decode _ _) as [st k]. destruct (apply_key _ _ _) as [ev [l' r']].
  destruct ev; cbn; repeat case_match; cbn; try lia. unfold enter_line. case_match; [lia|apply add_line_length].
Qed.

Lemma fresh_ok l r ed h ls mem (c : cli) : rep l r ed → recent ls h → Forall (Forall printable) ls → Forall (eq true) mem →
  t_state (display c) = TGround →
  ∃ s, fresh_line hostname promptchar ed h mem c = Ret s ∧ good (Session (esc_of ed) [] [] ls (-1) None) s.
Proof.
  intros Hr Hh Hls Hm Ht. unfold fresh_line. destruct (clear_ok l r ed Hr) as (ed' & -> & He & Hr'). cbn [mbind res_bind].
  destruct (redraw_shows [] [] ed' c Hr' Ht) as (c' & -> & Hs). cbn [mbind res_bind]. eexists. split; [done|].
  by split.
Qed.

Lemma crlf_calm (c : cli) : t_state (display c) = TGround →
  cli_puts s_crlf c = Ret (c.1 ++ s_crlf, c.2) ∧ t_state (display (c.1 ++ s_crlf, c.2)) = TGround.
Proof. intros Ht. destruct (literal_ok s_crlf eq_refl) as [H1 H2]. split; [by apply puts_ok|by apply calm_display]. Qed.

(** The session goes on at [a] after an event, and the editor has already taken its
    character. *)
Ltac fields := cbn [se_esc se_left se_right se_lines se_offset se_saved
  sh_ed sh_history sh_offset sh_saved sh_mem sh_cli] in *.

Lemma enter_ok a s : good a s → Z.of_nat (length (se_lines a)) < 2147483647 →
  ∃ s', loop_enter cmds hostname error_to_string promptchar s = Ret s' ∧
    good (Session (se_esc a) [] [] (enter_line (se_left a ++ se_right a) (se_lines a)) (-1) None) s'.
Proof.
  destruct a as [st l r ls off sv].
  intros [Hr He Hh Hls _ _ Hm (Ht & _)] Hlen. fields. subst st. unfold loop_enter. destruct (crlf_calm _ Ht) as [-> Ht1].
  cbn [mbind res_bind]. pose proof Hr as [(junk & Eb) _ _ _ Hch]. pose proof Eb as Eb'. rewrite app_assoc in Eb'.
  destruct (l ++ r) as [|x t] eqn:El.
  - rewrite Eb', (char_at_mid [] 0) by done. cbn [mbind res_bind Z.eqb enter_line]. by apply (fresh_ok l r).
  - pose proof Hch as [Hx _]%Forall_cons_1. unfold printable in Hx.
    pose proof (char_at_mid [] x (t ++ 0 :: junk) 0 eq_refl) as E0. cbn [app] in E0.
    rewrite Eb'. cbn [app]. rewrite E0. cbn [mbind res_bind]. rewrite (proj2 (Z.eqb_neq _ _)) by lia.
    change (x :: t ++ 0 :: junk) with ((x :: t) ++ 0 :: junk). rewrite str_at_ok by by apply printable_cstr.
    cbn [mbind res_bind]. destruct (history_add_ok (x :: t) ls _ _ Hh Hm Hlen) as (h' & mem' & -> & Hh' & Hm').
    cbn [mbind res_bind]. destruct (dispatch_calls (x :: t) junk (printable_cstr _ Hch) ((sh_cli s).1 ++ s_crlf, (sh_cli s).2))
      as (o & w & -> & Ho). cbn [mbind res_bind fst].
    apply (fresh_ok l r); try done.
    + unfold enter_line, add_line. case_match; [done|by apply Forall_cons_2].
    + apply (calm_display ((sh_cli s).1 ++ s_crlf, (sh_cli s).2)); done.
Qed.

Definition up (a : session) : session :=
  let '(Session st l r ls off sv) := a in
  match recall (off + 1) ls with
  | Some t => Session st (to_line (Some t)) [] ls (off + 1) (if off =? -1 then Some (l ++ r) else sv)
  | None => a
  end.
Definition down (a : session) : session :=
  let '(Session st l r ls off sv) := a in
  if 0 <? off then Session st (to_line (recall (off - 1) ls)) [] ls (off - 1) sv
  else if off =? 0 then Session st (to_line sv) [] ls (-1) None
  else a.

Lemma recall_printable off ls t : Forall (Forall printable) ls → recall off ls = Some t → Forall printable t.
Proof.
  unfold recall. intros Hls H. destruct (0 <=? off); [|done]. apply list_elem_of_lookup_2 in H.
  apply (proj1 (Forall_forall _ _) Hls). apply list_elem_of_In.
  rewrite <- (take_drop 8 ls). apply elem_of_app. by left.
Qed.

Lemma hist_up_ok a s : good a s → ∃ s', loop_hist_up hostname promptchar s = Ret s' ∧ good (up a) s'.
Proof.
  destruct a as [st l r ls off sv].
  intros [Hr He Hh Hls [Ho Ho1] [Hsv Hsvp] Hm Hsh]. fields. pose proof Hsh as (Ht & _). unfold loop_hist_up, up. rewrite Ho.
  destruct (history_get_ok (off + 1) ls _ (sh_mem s) Hh ltac:(lia)) as (str & mem & -> & Hstr & Hmem).
  cbn [mbind res_bind]. destruct (Hmem Hm) as [Hm1 Estr]. fold (recall (off + 1) ls) in Estr.
  destruct (recall (off + 1) ls) as [t|] eqn:Er; subst str.
  - pose proof (recall_printable _ _ _ Hls Er) as Hp.
    pose proof Hr as [(junk & Eb) _ _ _ Hch]. rewrite Eb, app_assoc, str_at_ok by by apply printable_cstr. cbn [mbind res_bind].
    assert (∃ mem', (if off =? -1 then strdup (l ++ r) mem else (sh_saved s, mem)) =
      (if off =? -1 then Some (l ++ r) else sv, mem') ∧ Forall (eq true) mem') as (mem' & -> & Hm').
    { rewrite Hsv. destruct (off =? -1); [|by exists mem]. destruct mem as [|b mem]; [by exists []|].
      apply Forall_cons_1 in Hm1 as [<- Hm1]. by exists mem. }
    destruct (set_ok (Some t) l r _ Hr Hp) as (ed' & -> & He' & Hr'). cbn [mbind res_bind sh_ed sh_cli].
    destruct (redraw_shows _ _ ed' (sh_cli s) Hr' Ht) as (c' & -> & Hs). cbn [mbind res_bind]. eexists. split; [done|].
    split; fields; try done; [congruence|split; lia|]. split; [done|]. by destruct (off =? -1).
  - cbn [mbind res_bind sh_ed sh_cli]. destruct (redraw_shows _ _ _ (sh_cli s) Hr Ht) as (c' & -> & Hs). cbn [mbind res_bind].
    eexists. split; [done|]. by split.
Qed.

Lemma hist_down_ok a s : good a s → ∃ s', loop_hist_down hostname promptchar s = Ret s' ∧ good (down a) s'.
Proof.
  destruct a as [st l r ls off sv].
  intros [Hr He Hh Hls [Ho Ho1] [Hsv Hsvp] Hm Hsh]. fields. pose proof Hsh as (Ht & _). unfold loop_hist_down, down. rewrite Ho.
  assert (∀ t off1 sv1 s1, cli_ed_set t (sh_ed s) = Ret (sh_ed s1) → match t with Some t => Forall printable t | None => True end →
    sh_history s1 = sh_history s → sh_offset s1 = off1 → -1 <= off1 → sh_saved s1 = sv1 →
    match sv1 with Some t => Forall printable t | None => True end →
    Forall (eq true) (sh_mem s1) → sh_cli s1 = sh_cli s →
    ∃ s', (c ← redraw_line hostname promptchar (sh_ed s1) (sh_cli s1);
      Ret (Shell (sh_ed s1) (sh_history s1) (sh_offset s1) (sh_saved s1) (sh_mem s1) c)) = Ret s' ∧
      good (Session st (to_line t) [] ls off1 sv1) s') as Hend.
  { intros t off1 sv1 s1 E Ht1 Hh1 <- Ho2 <- Hsv1 Hm1 Hc1. destruct (set_ok t l r _ Hr Ht1) as (ed' & E2 & He' & Hr'). rewrite E in E2.
    injection E2 as <-. rewrite Hc1. assert (to_line t = match t with Some t => take 79 t | None => [] end) as Et by by destruct t.
    rewrite <- Et in Hr'. destruct (redraw_shows _ _ _ (sh_cli s) Hr' Ht) as (c' & -> & Hs). cbn [mbind res_bind].
    eexists. split; [done|]. split; fields; rewrite ?Hh1; try done. congruence. }
  destruct (0 <? off) eqn:E0; bool_to_prop; [|destruct (off =? 0) eqn:E1; bool_to_prop].
  - destruct (history_get_ok (off - 1) ls _ (sh_mem s) Hh ltac:(lia)) as (str & mem & -> & Hstr & Hmem).
    cbn [mbind res_bind]. destruct (Hmem Hm) as [Hm1 Estr]. fold (recall (off - 1) ls) in Estr. subst str.
    assert (match recall (off - 1) ls with Some t => Forall printable t | None => True end) as Hp.
    { destruct (recall (off - 1) ls) eqn:Er; [by eapply recall_printable|done]. }
    destruct (set_ok _ l r _ Hr Hp) as (ed' & E & _ & Hr'). rewrite E. cbn [mbind res_bind].
    apply (Hend _ (off - 1) sv (Shell ed' (sh_history s) (off - 1) (sh_saved s) mem (sh_cli s))); cbn [sh_ed sh_history sh_offset sh_saved sh_mem sh_cli]; try done; lia.
  - rewrite Hsv. destruct (set_ok sv l r _ Hr Hsvp) as (ed' & E & _ & Hr'). rewrite E. cbn [mbind res_bind].
    apply (Hend sv (-1) None (Shell ed' (sh_history s) (-1) None (sh_mem s) (sh_cli s))); cbn; try done; lia.
  - cbn [mbind res_bind]. destruct (redraw_shows _ _ _ (sh_cli s) Hr Ht) as (c' & -> & Hs). cbn [mbind res_bind].
    eexists. split; [done|]. by split.
Qed.

#[local] Instance event_dec : EqDecision cli_ed_event_t.
Proof. solve_decision. Defined.

(** The event a character makes. *)
Definition event (a : session) (ch : Z) : cli_ed_event_t :=
  (apply_key (decode (se_esc a) ch).2 (se_left a) (se_right a)).1.

Lemma round_ok a s ch : good a s → Z.of_nat (length (se_lines a)) < 2147483647 →
  ∃ s' ext, cli_round cmds hostname error_to_string promptchar ch s =
      Ret (negb (bool_decide (event a ch = CLI_ED_EOF)), s') ∧
    (event a ch ≠ CLI_ED_EOF → good (edit ext ch a) s').
Proof.
  intros Hg Hlen. pose proof Hg as [Hr He Hh Hls [Ho Ho1] [Hsv Hsvp] Hm Hsh]. destruct a as [st l r ls off sv]. fields.
  pose proof Hsh as (Ht & _). unfold event, edit. cbn [se_esc se_left se_right se_lines se_offset se_saved].
  destruct (input_ok ch l r _ Hr) as (ed' & E & He' & Hr'). rewrite He in E, He', Hr'. unfold cli_round.
  rewrite E. cbn [mbind res_bind]. destruct (decode st ch) as [st' k] eqn:Ed. cbn [fst snd] in *.
  destruct (apply_key k l r) as [ev [l' r']] eqn:Ek. cbn [fst snd] in *.
  assert (ev ≠ CLI_ED_NONE → l' = l ∧ r' = r) as Hkeep.
  { intros Hev. destruct k; cbn [apply_key] in Ek; try (by injection Ek as <- <- <-); try (by destruct r; injection Ek as <- <- <-).
    - injection Ek as <- _. done.
    - destruct (l ++ r); [by injection Ek as <- <- <-|by injection Ek as <- _]. }
  assert (ev ≠ CLI_ED_NONE → good (Session st' l r ls off sv)
    (Shell ed' (sh_history s) (sh_offset s) (sh_saved s) (sh_mem s) (sh_cli s))) as Hg'.
  { intros Hev. destruct (Hkeep Hev) as [-> ->]. by split. }
  assert (∀ ed2 l2 r2 c, rep l2 r2 ed2 → esc_of ed2 = st' → t_state (display c) = TGround →
     ∃ s', (c ← redraw_line hostname promptchar ed2 c;
     Ret (true, Shell ed2 (sh_history s) (sh_offset s) (sh_saved s) (sh_mem s) c)) = Ret (true, s') ∧
       good (Session st' l2 r2 ls off sv) s') as Hredraw.
  { intros ed2 l2 r2 c Hrc Hec Htc. destruct (redraw_shows _ _ _ c Hrc Htc) as (c' & -> & Hs). cbn [mbind res_bind].
    eexists. split; [done|]. by split. }
  assert (∀ b, ev ≠ CLI_ED_NONE → ∃ s' ext, ('(ed, c) ← do_completion cmds b ed' (sh_cli s);
      c ← redraw_line hostname promptchar ed c;
      Ret (true, Shell ed (sh_history s) (sh_offset s) (sh_saved s) (sh_mem s) c)) = Ret (true, s') ∧
      (b = true → ext = []) ∧ good (Session st' (l ++ ext) r ls off sv) s') as Hcomp.
  { intros b Hev. destruct (Hkeep Hev) as [-> ->].
    destruct (completion_ok b l r ed' (sh_cli s) Hr') as (ed2 & o & w & -> & Hco & He2 & Hed). cbn [mbind res_bind].
    assert (∃ ext, rep (l ++ ext) r ed2 ∧ (b = true → ext = [])) as (ext & Hr2 & Hb).
    { destruct (head _) as [f|]; [|subst; exists []; by rewrite app_nil_r]. destruct Hed as (cm & _ & Hed).
      destruct (_ || _)%bool eqn:Eb; [destruct Hed as [-> _]; exists []; by rewrite app_nil_r|].
      destruct Hed as (_ & sp & _ & Hed). eexists. split; [exact Hed|]. intros ->. done. }
    destruct (Hredraw ed2 (l ++ ext) r ((sh_cli s).1 ++ o, w) Hr2) as (s' & -> & Hs); [congruence|by apply calm_display|].
    by exists s', ext. }
  destruct ev; cbn [sh_history sh_offset sh_saved sh_mem sh_cli].
  - rewrite bool_decide_false by done.
    destruct (none_shows k l r l' r' ed' (sh_cli s) Ek) as (c' & E2 & Hs); [|done|done|].
    { intros x Hx. apply (decode_insert st ch). by rewrite Ed. }
    rewrite (rep_pos _ _ _ Hr), (rep_len _ _ _ Hr), E2. cbn [mbind res_bind negb].
    eexists _, []. split; [done|]. intros _. by split.
  - rewrite bool_decide_false by done. destruct (enter_ok _ _ (Hg' ltac:(done)) Hlen) as (s' & -> & Hs).
    by exists s', [].
  - rewrite bool_decide_false by done. destruct (Hcomp false) as (s' & ext & -> & _ & Hs); [done|]. by exists s', ext.
  - rewrite bool_decide_false by done. destruct (Hcomp true) as (s' & ext & -> & Hb & Hs); [done|].
    rewrite (Hb eq_refl), app_nil_r in Hs. destruct (Hkeep ltac:(done)) as [-> ->]. by exists s', [].
  - rewrite bool_decide_false by done. destruct (hist_up_ok _ _ (Hg' ltac:(done))) as (s' & -> & Hs). by exists s', [].
  - rewrite bool_decide_false by done. destruct (hist_down_ok _ _ (Hg' ltac:(done))) as (s' & -> & Hs). by exists s', [].
  - rewrite bool_decide_false by done.
    assert (Forall (λ c, 0 < c < 256 ∧ c ≠ 37) s_clear_screen) as Hcs by (repeat (apply Forall_cons_2; [lia|]); apply Forall_nil_2).
    rewrite (puts_ok _ _ Hcs). cbn [mbind res_bind].
    destruct (Hredraw ed' l' r' ((sh_cli s).1 ++ s_clear_screen, (sh_cli s).2) Hr' He') as (s' & -> & Hs).
    { apply calm_display; [done|]. intros cls sc Hsc. destruct sc as [line col sst]. cbn in Hsc. by subst. }
    by exists s', [].
  - rewrite bool_decide_false by done. destruct (crlf_calm _ Ht) as [-> Ht1]. cbn [mbind res_bind].
    destruct (fresh_ok l' r' ed' (sh_history s) ls (sh_mem s) _ Hr' Hh Hls Hm Ht1) as (s' & -> & Hs). cbn [mbind res_bind].
    rewrite He' in Hs. by exists s', [].
  - rewrite bool_decide_true by done. destruct (crlf_calm _ Ht) as [-> Ht1]. cbn [mbind res_bind negb]. by eexists _, [].
Qed.

(** All characters: each with what completion may insert at it. *)
Definition edits (cs : list (list Z * Z)) (a : session) : session := foldl (λ a x, edit x.1 x.2 a) a cs.

Lemma rounds_ok input : ∀ a s, good a s → Z.of_nat (length (se_lines a)) + Z.of_nat (length input) < 2147483648 →
  ∃ more s' cs rest, cli_rounds cmds hostname error_to_string promptchar input s = Ret (more, s') ∧
    input = (snd <$> cs) ++ rest ∧
    (if (more : bool) then rest = [] ∧ good (edits cs a) s'
     else ∃ ch rest', rest = ch :: rest' ∧ event (edits cs a) ch = CLI_ED_EOF).
Proof.
  induction input as [|ch input IH]; intros a s Hg Hlen; cbn [cli_rounds].
  { by exists true, s, [], []. }
  cbn [length] in Hlen.
  destruct (round_ok a s ch Hg ltac:(lia)) as (s1 & ext & -> & H1). cbn [mbind res_bind].
  case_bool_decide as Ee; cbn [negb].
  { exists false, s1, [], (ch :: input). split_and!; [done|done|]. by exists ch, input. }
  pose proof (edit_length ext ch a).
  destruct (IH (edit ext ch a) s1 (H1 Ee) ltac:(lia)) as (more & s' & cs & rest & E & -> & Hd).
  exists more, s', ((ext, ch) :: cs), rest. by rewrite E.
Qed.
End Loop.

(** ** Names *)

Section Names.
Context {W : Type} (cmds : list (cli_cmd (W := W))).

(** The name the words make. *)
Definition name_of (argv : list (list Z)) : list Z :=
  match argv with [] => [] | t :: argv => t ++ concat ((λ t, 95 :: t) <$> argv) end.

Lemma match_str_ok t : ∀ p rest, match_str p t = Some rest ↔ p = t ++ rest.
Proof.
  induction t as [|c t IH]; intros p rest; cbn [match_str].
  { split; [by intros [= ->]|by intros ->]. }
  destruct p as [|x p]; [by split|]. destruct (Z.eqb_spec x c) as [->|Hx].
  - rewrite IH. cbn. split; [by intros ->|by intros [= ->]].
  - split; [done|]. by intros [= ? _].
Qed.
Lemma match_argv_more argv : ∀ p rest, match_argv false p argv = Some rest ↔ p = concat ((λ t, 95 :: t) <$> argv) ++ rest.
Proof.
  induction argv as [|t argv IH]; intros p rest; cbn [match_argv fmap list_fmap concat].
  { split; [by intros [= ->]|by intros ->]. }
  destruct (match_str p [95]) as [p1|] eqn:E1.
  - apply match_str_ok in E1 as ->. destruct (match_str p1 t) as [p2|] eqn:E2.
    + apply match_str_ok in E2 as ->. rewrite IH. cbn. rewrite <- app_assoc. split; [by intros ->|].
      intros [= H]. by apply app_inv_head in H.
    + split; [done|]. cbn. intros [= ->]. rewrite <- app_assoc in E2.
      assert (match_str (t ++ concat ((λ t, 95 :: t) <$> argv) ++ rest) t = Some (concat ((λ t, 95 :: t) <$> argv) ++ rest))
        as E3 by by apply match_str_ok. congruence.
  - split; [done|]. intros ->. cbn in E1. done.
Qed.
Lemma match_argv_ok argv p rest : argv ≠ [] → match_argv true p argv = Some rest ↔ p = name_of argv ++ rest.
Proof.
  destruct argv as [|t argv]; [done|]. intros _. cbn [match_argv name_of].
  destruct (match_str p t) as [p2|] eqn:E2.
  - apply match_str_ok in E2 as ->. rewrite match_argv_more, <- app_assoc. split; [by intros ->|]. by intros H%app_inv_head.
  - split; [done|]. intros ->. rewrite <- app_assoc in E2.
    assert (match_str (t ++ concat ((λ t, 95 :: t) <$> argv) ++ rest) t = Some (concat ((λ t, 95 :: t) <$> argv) ++ rest))
      as E3 by by apply match_str_ok. congruence.
Qed.

Lemma find_exact_ok q argv : argv ≠ [] → 
  match find_exact q argv with
  | Some p => ∃ before after, q = before ++ p :: after ∧ cc_cmd p = name_of argv ∧ Forall (λ x, cc_cmd x ≠ name_of argv) before
  | None => Forall (λ x : cli_cmd (W := W), cc_cmd x ≠ name_of argv) q
  end.
Proof.
  intros Ha. induction q as [|x q IH]; [apply Forall_nil_2|]. cbn [find_exact].
  assert (match_argv true (cc_cmd x) argv = Some [] ↔ cc_cmd x = name_of argv) as Hx
    by (rewrite match_argv_ok by done; by rewrite app_nil_r).
  destruct (match_argv true (cc_cmd x) argv) as [[|]|] eqn:E.
  - exists [], q. split; [done|]. split; [by apply Hx|apply Forall_nil_2].
  - assert (cc_cmd x ≠ name_of argv) by (intros H; by apply Hx in H).
    destruct (find_exact q argv) as [p|]; [|by apply Forall_cons_2].
    destruct IH as (b & a & -> & ? & ?). exists (x :: b), a. split; [done|]. split; [done|]. by apply Forall_cons_2.
  - assert (cc_cmd x ≠ name_of argv) by (intros H; by apply Hx in H).
    destruct (find_exact q argv) as [p|]; [|by apply Forall_cons_2].
    destruct IH as (b & a & -> & ? & ?). exists (x :: b), a. split; [done|]. split; [done|]. by apply Forall_cons_2.
Qed.

(** The shortest name that is a command. *)
Definition runs (argv : list (list Z)) (n : nat) (p : cli_cmd (W := W)) : Prop :=
  (1 <= n <= length argv)%nat ∧ cc_cmd p = name_of (take n argv) ∧
  (∀ m q, (1 <= m < n)%nat → q ∈ cmds → cc_cmd q ≠ name_of (take m argv)) ∧
  ∃ before after, cmds = before ++ p :: after ∧ Forall (λ q, cc_cmd q ≠ name_of (take n argv)) before.

Lemma find_join_ok k : ∀ join argv, (1 <= join)%nat → (join + k = S (length argv))%nat →
  (∀ m q, (1 <= m < join)%nat → q ∈ cmds → cc_cmd q ≠ name_of (take m argv)) →
  match find_join cmds k join argv with
  | Some (p, a) => ∃ n, runs argv n p ∧ a = cc_cmd p :: drop n argv
  | None => ∀ n q, (1 <= n <= length argv)%nat → q ∈ cmds → cc_cmd q ≠ name_of (take n argv)
  end.
Proof.
  induction k as [|k IH]; intros join argv Hj Hk Hno; cbn [find_join].
  { intros n q Hn. apply Hno. lia. }
  assert (take join argv ≠ []) as Hne by (destruct join, argv; cbn in *; (lia || done)).
  pose proof (find_exact_ok cmds (take join argv) Hne) as Hf. destruct (find_exact cmds (take join argv)) as [p|].
  - exists join. split; [|done]. destruct Hf as (b & a & E & Hp & Hb). split_and!; [lia|lia|done|done|by exists b, a].
  - apply IH; [lia|lia|]. intros m q Hm Hq. destruct (decide (m = join)) as [->|]; [|apply Hno; [lia|done]].
    exact (proj1 (Forall_forall _ _) Hf q (proj1 (list_elem_of_In _ _) Hq)).
Qed.

Lemma group_prefix_ok q argv : argv ≠ [] →
  group_prefix q argv = true ↔ ∃ p : cli_cmd (W := W), p ∈ q ∧ name_of argv ++ [95] `prefix_of` cc_cmd p.
Proof.
  intros Ha. induction q as [|x q IH]; cbn [group_prefix].
  { split; [done|]. intros (p & Hp & _). by apply elem_of_nil in Hp. }
  assert (∀ rest, match_argv true (cc_cmd x) argv = Some rest ↔ cc_cmd x = name_of argv ++ rest) as Hx
    by (intros; by apply match_argv_ok).
  assert ((∃ rest, match_argv true (cc_cmd x) argv = Some (95 :: rest)) ↔ name_of argv ++ [95] `prefix_of` cc_cmd x) as Hx2.
  { split; [intros [rest E%Hx]; exists rest; by rewrite E, <- app_assoc|].
    intros [rest E]. exists rest. apply Hx. by rewrite E, <- app_assoc. }
  assert (¬ (∃ rest, match_argv true (cc_cmd x) argv = Some (95 :: rest)) →
    group_prefix q argv = true ↔ ∃ p, p ∈ x :: q ∧ name_of argv ++ [95] `prefix_of` cc_cmd p) as Hskip.
  { intros Hn. rewrite IH. split; intros (p & Hp & Hpre); [exists p; split; [by right|done]|].
    apply elem_of_cons in Hp as [->|Hp]; [by apply Hx2 in Hpre|by exists p]. }
  destruct (match_argv true (cc_cmd x) argv) as [[|c rest]|] eqn:E; [apply Hskip; naive_solver| |apply Hskip; naive_solver].
  destruct (c =? 95) eqn:E5; bool_to_prop; [|apply Hskip; naive_solver]. subst c.
  split; [|done]. intros _. exists x. split; [left|]. apply Hx2. by exists rest.
Qed.

Lemma cmd_at_cons x s k : 0 <= k → cmd_at (x :: s) (k + 1) = cmd_at s k.
Proof. intros. unfold cmd_at. by replace (Z.to_nat (k + 1)) with (S (Z.to_nat k)) by lia. Qed.

Lemma agree_prefix f : ∀ n m, Forall printable f → (n <= length f)%nat →
  (∀ k, 0 <= k < Z.of_nat n → cmd_at m k = cmd_at f k) → take n f `prefix_of` m.
Proof.
  induction f as [|x f IH]; intros n m Hf Hn Hag; [destruct n; [apply prefix_nil|cbn in Hn; lia]|].
  destruct n as [|n]; [apply prefix_nil|]. apply Forall_cons_1 in Hf as [Hx Hf]. unfold printable in Hx.
  destruct m as [|y m].
  { specialize (Hag 0 ltac:(lia)). change (0 = x) in Hag. lia. }
  pose proof (Hag 0 ltac:(lia)) as H0. change (y = x) in H0. subst y. cbn [take]. apply prefix_cons, IH; [done|cbn in Hn; lia|].
  intros k Hk. specialize (Hag (k + 1) ltac:(lia)). by rewrite !cmd_at_cons in Hag by lia.
Qed.

Lemma norm_extension f i n : Forall (λ c, c ≠ 32) f → norm (extension f i n) = take n (drop i f).
Proof.
  intros Hf. unfold norm, extension. rewrite <- list_fmap_compose. etrans; [|apply list_fmap_id].
  apply list_fmap_ext. intros k x Hx. cbn. unfold shown_char.
  assert (x ≠ 32).
  { assert (Forall (λ c, c ≠ 32) (take n (drop i f))) as H by (by apply Forall_take, Forall_drop).
    apply (proj1 (Forall_forall _ _) H x), list_elem_of_In. by eapply list_elem_of_lookup_2. }
  destruct (x =? 95) eqn:E; bool_to_prop; [by subst|]. by rewrite (proj2 (Z.eqb_neq _ _)).
Qed.

Lemma norm_app a b : norm (a ++ b) = norm a ++ norm b.
Proof. apply fmap_app. Qed.

(** The line with its extension has the same matches, and no longer line has. *)
Lemma longest_common line f common : Forall printable line →
  Forall (λ p, Forall printable (cc_cmd p) ∧ Forall (λ c, c ≠ 32) (cc_cmd p)) cmds →
  agreed line (filter (matches line) cmds) (Some f) (Z.of_nat common) (Z.of_nat (length (filter (matches line) cmds))) →
  let line' := line ++ extension (cc_cmd f) (length line) (common - length line) in
  (∀ p, p ∈ cmds → matches line p ↔ matches line' p) ∧
  (∀ x, printable x → ∃ p, p ∈ cmds ∧ matches line p ∧ ¬ matches (line' ++ [x]) p).
Proof.
  intros Hline Hnames (_ & Hms & Hh & Hc & Hag & Hmax) line'. set (ms := filter (matches line) cmds) in *.
  assert (∀ p, p ∈ ms ↔ matches line p ∧ p ∈ cmds) as Hin by (intros; apply list_elem_of_filter).
  assert (f ∈ ms) as Hf by (destruct ms as [|y ms']; [done|]; injection Hh as ->; left).
  assert (∀ p, p ∈ cmds → Forall printable (cc_cmd p) ∧ Forall (λ c, c ≠ 32) (cc_cmd p)) as Hok.
  { intros p Hp. exact (proj1 (Forall_forall _ _) Hnames p (proj1 (list_elem_of_In _ _) Hp)). }
  destruct (Hok f) as [Hfp Hfb]; [by apply Hin|].
  assert (norm line' = take common (cc_cmd f)) as En.
  { unfold line'. rewrite norm_app, norm_extension by done. apply Hin in Hf as [[t Ht] _]. rewrite Ht.
    rewrite <- (norm_length line), drop_app_length. rewrite take_app, (take_ge (norm line)) by (rewrite norm_length; lia). done. }
  assert (length line' = common) as Ll.
  { rewrite <- norm_length, En, length_take. lia. }
  split.
  - intros p Hp. split.
    + intros Hm. unfold matches. rewrite En. apply agree_prefix; [done|lia|]. intros k Hk. apply Hag; [|done]. by apply Hin.
    + intros [t Ht]. unfold line' in Ht. rewrite norm_app in Ht. eexists. by rewrite <- app_assoc in Ht.
  - intros x Hx. unfold printable in Hx. set (nx := if x =? 32 then 95 else x).
    assert (nx ≠ 0) by (unfold nx; case_match; lia).
    assert (∀ p : cli_cmd (W := W), matches (line' ++ [x]) p → cmd_at (cc_cmd p) (Z.of_nat common) = nx) as Hcx.
    { intros p Hm. unfold matches in Hm. rewrite (cmd_at_prefix (norm (line' ++ [x])) (cc_cmd p)) by
        (rewrite ?norm_length, ?length_app; cbn [length]; (done || lia)).
      rewrite norm_app. unfold cmd_at. rewrite Nat2Z.id, <- Ll, <- (norm_length line'), drop_app_length. done. }
    assert (∃ p, p ∈ ms ∧ cmd_at (cc_cmd p) (Z.of_nat common) ≠ nx) as (p & Hp & Hne).
    { destruct Hmax as [Hfull|(m & Hm & Hd)].
      - exists f. split; [done|]. unfold cmd_at. rewrite Hfull, Nat2Z.id, drop_ge by lia. done.
      - destruct (decide (cmd_at (cc_cmd m) (Z.of_nat common) = nx)); [exists f; split; [done|congruence]|by exists m]. }
    exists p. apply Hin in Hp as [? ?]. split; [done|]. split; [done|]. intros Hm. by apply Hcx in Hm.
Qed.
End Names.

(** ** Runs *)

Fixpoint ed_inputs (cs : list Z) (ed : cli_ed_t) : res (list cli_ed_event_t * cli_ed_t) :=
  match cs with
  | [] => Ret ([], ed)
  | c :: cs => '(ev, ed) ← cli_ed_input c ed; '(evs, ed) ← ed_inputs cs ed; Ret (ev :: evs, ed)
  end.

(** The same characters as keys on a text with a cursor. *)
Fixpoint keys (cs : list Z) (st : esc * Z * Z) (l r : list Z) : list cli_ed_event_t * ((esc * Z * Z) * (list Z * list Z)) :=
  match cs with
  | [] => ([], (st, (l, r)))
  | c :: cs =>
      let '(st, k) := decode st c in
      let '(ev, (l, r)) := apply_key k l r in
      let '(evs, o) := keys cs st l r in (ev :: evs, o)
  end.

(** ** Theorems *)

(** C27: the shell on any input.  With commands that return, texts that are printable and
    memory for the lines of the history, no character, in whatever order with whatever
    escape sequences, lets the shell read or write outside of its buffers or the history;
    it takes all of the input, or ends at an end of file on an empty line.  What it does is
    what [edit] says of a line with a cursor: ENTER puts the line before the lines entered
    so far (not an empty one, nor the newest again), the history keys bring back the newest
    eight of them and the line that was left, completion inserts some text.  While the
    shell goes on, the buffer holds that line, of at most 79 printable characters, the ring
    holds the newest of those lines, and a terminal wide enough for the prompt and a full
    line that was fed the output shows the prompt and exactly this line, the cursor at its
    place: the shortcuts for a character at the end and for a backspace leave the same
    picture as a redraw. *)
Theorem shell_shows_line {W} (cmds : list (cli_cmd (W := W))) hostname error_to_string promptchar cols input (w : W) :
  Forall cmd_ok cmds → plain hostname → (∀ e, plain (error_to_string e)) → printable promptchar →
  (length (prompt hostname promptchar) + 80 <= cols)%nat → Z.of_nat (length input) < 2147483648 →
  ∃ more s cs rest, cli_loop cmds hostname error_to_string promptchar input history0 [] ([], w) = Ret (more, s) ∧
    input = (snd <$> cs) ++ rest ∧
    let a := edits cs session0 in
    if (more : bool) then rest = [] ∧ rep (se_left a) (se_right a) (sh_ed s) ∧ recent (se_lines a) (sh_history s) ∧
      shows (prompt hostname promptchar) (se_left a) (se_right a) (display cols (sh_cli s))
    else ∃ ch rest', rest = ch :: rest' ∧ event a ch = CLI_ED_EOF.
Proof.
  intros Hcmds Hhost Herr Hprompt Hcols Hlen. unfold cli_loop.
  destruct (redraw_shows hostname promptchar cols Hhost Hprompt Hcols [] [] cli_ed_init ([], w) rep_init eq_refl) as (c & -> & Hs).
  cbn [mbind res_bind].
  destruct (rounds_ok cmds hostname error_to_string promptchar cols Hcmds Hhost Herr Hprompt Hcols input session0
    (Shell cli_ed_init history0 (-1) None [] c)) as (more & s & cs & rest & -> & Ei & Hd); [|done|].
  { split; cbn; first [done|apply rep_init|apply recent0|apply Forall_nil_2|by split]. }
  exists more, s, cs, rest. split; [done|]. split; [done|]. destruct more; [|done].
  destruct Hd as [-> [Hr _ Hh _ _ _ _ Hsc]]. by split_and!.
Qed.

(** C28: the line editor is a text with a cursor.  Whatever characters come, the code on
    its buffer of 80 bytes returns the same events and ends with the same line and cursor
    as the keys on the two lists [apply_key] describes: insertion up to 79 characters,
    moves by characters and words, the ways to delete, the events. *)
Theorem editor_refines cs l r ed : rep l r ed →
  let '(evs, (st, (l', r'))) := keys cs (esc_of ed) l r in
  ∃ ed', ed_inputs cs ed = Ret (evs, ed') ∧ esc_of ed' = st ∧ rep l' r' ed'.
Proof.
  revert l r ed. induction cs as [|c cs IH]; intros l r ed Hr; cbn [keys ed_inputs]; [by exists ed|].
  pose proof (input_ok c l r ed Hr) as (ed1 & E & He & Hr1). destruct (decode (esc_of ed) c) as [st k]. cbn [fst snd] in *.
  destruct (apply_key k l r) as [ev [l1 r1]]. cbn [fst snd] in *. specialize (IH l1 r1 ed1 Hr1). rewrite He in IH.
  destruct (keys cs st l1 r1) as [evs [st' [l' r']]]. destruct IH as (ed' & E2 & He2 & Hr2).
  exists ed'. rewrite E. cbn [mbind res_bind]. rewrite E2. done.
Qed.

(** C29: completion of a line with the cursor at its end: the line grows by the longest
    text that keeps all commands it could become (a blank stands for an underscore), and
    a blank behind it at most, and nothing is printed.  If there is nothing to add, the
    line stays and the output is the list of the commands it could become: on a line of
    its own the word each can go on with, once for commands next to each other in the
    table, with the help of a command that ends there; every such word is in the list.
    Nothing longer would keep them all. *)
Theorem completion_longest {W} (cmds : list (cli_cmd (W := W))) l ed (c : cli (W := W)) :
  Forall cmd_ok cmds → Forall (λ p, Forall (λ c, c ≠ 32) (cc_cmd p) ∧ (length (cc_cmd p) <= 79)%nat) cmds →
  rep l [] ed → (∃ p, p ∈ cmds ∧ matches l p) →
  ∃ ed' o w ext sp, do_completion cmds false ed c = Ret (ed', (c.1 ++ o, w)) ∧ rep (l ++ ext ++ sp) [] ed' ∧
    (sp = [] ∨ sp = [32] ∧ ext ≠ []) ∧
    (let start := word_start l in let shown := distinct start [] (filter (matches l) cmds) in
     o = (if decide (ext = []) then [10] ++ concat (entry start <$> shown) else []) ∧
     ∀ p, p ∈ cmds → matches l p → next_word start p ≠ [] →
       ∃ q, q ∈ shown ∧ next_word start q = next_word start p) ∧
    (∀ p, p ∈ cmds → matches l p ↔ matches (l ++ ext) p) ∧
    (∀ x, printable x → ∃ p, p ∈ cmds ∧ matches l p ∧ ¬ matches (l ++ ext ++ [x]) p).
Proof.
  intros Hcmds Hnames Hr (p & Hp & Hm). destruct (completion_ok cmds Hcmds false l [] ed c Hr) as (ed' & o & w & E & _ & _ & H).
  rewrite app_nil_r in H. pose proof (rep_chars _ _ _ Hr) as Hl. rewrite app_nil_r in Hl.
  assert (Forall (λ p : cli_cmd (W := W), Forall printable (cc_cmd p) ∧ Forall (λ c, c ≠ 32) (cc_cmd p)) cmds) as Hn2.
  { apply Forall_forall. intros q Hq. split; [apply (proj1 (Forall_forall _ _) Hcmds q Hq)|apply (proj1 (Forall_forall _ _) Hnames q Hq)]. }
  assert (p ∈ filter (matches l) cmds) as Hin by by apply list_elem_of_filter.
  assert (∀ q, q ∈ cmds → matches l q → next_word (word_start l) q ≠ [] →
    ∃ q', q' ∈ distinct (word_start l) [] (filter (matches l) cmds) ∧
      next_word (word_start l) q' = next_word (word_start l) q) as Hcov.
  { intros q Hq Hmq Hw. destruct (distinct_covers (word_start l) (filter (matches l) cmds) [] q) as [?|?]; try done.
    by apply list_elem_of_filter. }
  destruct (filter (matches l) cmds) as [|f ms] eqn:Ef; [by apply elem_of_nil in Hin|]. cbn [head] in H. rewrite <- Ef in *.
  destruct H as (cm & Ha & H). pose proof (longest_common cmds l f cm Hl Hn2 Ha) as Hlc. cbv zeta in Hlc.
  exists ed', o, w. rewrite E. cbn [orb] in H. destruct (Nat.eqb_spec cm (length l)) as [->|Hne].
  - destruct H as [-> Ho]. specialize (Ho eq_refl). exists [], []. rewrite Nat.sub_diag in Hlc. change (extension (cc_cmd f) (length l) 0) with (@nil Z) in Hlc.
    rewrite app_nil_r in Hlc. destruct Hlc as [_ Hmax]. split; [done|]. split; [by rewrite app_nil_r|]. split; [by left|].
    split; [by split|]. split; [intros; by rewrite app_nil_r|]. intros x Hx. destruct (Hmax x Hx) as (q & ? & ? & ?). by exists q.
  - destruct H as (-> & sp & Hsp & Hr').
    assert (f ∈ filter (matches l) cmds) as [_ Hfin]%list_elem_of_filter by (rewrite Ef; left).
    pose proof (proj1 (Forall_forall _ _) Hnames f (proj1 (list_elem_of_In _ _) Hfin)) as [_ H79].
    destruct Ha as (_ & _ & _ & Hc & _). set (ext := extension (cc_cmd f) (length l) (cm - length l)) in *.
    assert (length ext = (cm - length l)%nat) as Lext by (unfold ext, extension; rewrite length_fmap, length_take, length_drop; lia).
    rewrite (take_ge ext) in Hr' by lia. exists ext, sp. split; [done|]. split; [done|].
    assert (ext ≠ []) by (intros E0; rewrite E0 in Lext; cbn in Lext; lia).
    split; [naive_solver|]. split; [cbv zeta; by rewrite decide_False|]. destruct Hlc as [H1 H2]. split; [exact H1|].
    intros x Hx. destruct (H2 x Hx) as (q & ? & ? & H3). exists q. by rewrite <- app_assoc in H3.
Qed.

(** A line runs a command.  The words of the line, at most ten, the last with all that
    follows it, are joined one by one with underscores until they name a command: the
    first such command of the table runs with the words behind its name as arguments, and
    the result is its own.  If no number of words names one, the result tells whether the
    words are the start of a longer name. *)
Theorem dispatch_runs {W} (cmds : list (cli_cmd (W := W))) s junk (c : cli (W := W)) :
  cstr s → words CLI_MAX_ARGC s ≠ [] →
  let argv := words CLI_MAX_ARGC s in
  (∃ n p, runs cmds argv n p ∧ cli_dispatch cmds (s ++ 0 :: junk) c = cc_dispatch p (cc_cmd p :: drop n argv) c) ∨
  (∀ n q, (1 <= n <= length argv)%nat → q ∈ cmds → cc_cmd q ≠ name_of (take n argv)) ∧
    ∃ err, cli_dispatch cmds (s ++ 0 :: junk) c = Ret (err, c) ∧
      (err = ERR_INVALID_ARGS ∧ (∃ p, p ∈ cmds ∧ name_of argv ++ [95] `prefix_of` cc_cmd p) ∨
       err = ERR_NOT_FOUND ∧ ¬ (∃ p, p ∈ cmds ∧ name_of argv ++ [95] `prefix_of` cc_cmd p)).
Proof.
  intros Hs Hne argv. unfold cli_dispatch. rewrite get_argv_ok by done. cbn [mbind res_bind]. fold argv in Hne |- *.
  pose proof (find_join_ok cmds (length argv) 1 argv ltac:(lia) ltac:(lia) ltac:(lia)) as H. fold (find_command cmds argv) in H.
  pose proof (group_prefix_ok cmds argv Hne) as Hg.
  destruct argv as [|t ts] eqn:Ea; [done|]. rewrite <- Ea in *. destruct (find_command cmds argv) as [[p a]|].
  - left. destruct H as (n & Hn & ->). exists n, p. by split.
  - right. split; [exact H|]. eexists. split; [done|]. destruct (group_prefix cmds argv).
    + left. split; [done|]. by apply Hg.
    + right. split; [done|]. intros Hx. by apply Hg in Hx.
Qed.

(** ** A shell to run *)

Module ShellWit.
(** A command that prints its arguments. *)
Definition echo (name : String.string) (r : Z) : cli_cmd (W := list (list (list Z))) :=
  CliCmd (lit name) (λ argv c, Ret (r, (c.1 ++ lit "ok" ++ [10], c.2 ++ [argv])))
    (Some (lit "<bus>")) (Some (lit "A command")).
Definition cmds : list (cli_cmd (W := list (list (list Z)))) :=
  [echo "net_ipv4_show" 0; echo "net_ipv4_status" (-23); echo "ps" 0].
Definition host : list Z := lit "mios".
Definition err (e : Z) : list Z := lit "ERROR".
(** [ne], completion, [sh], completion, enter; the line back from the history, a word
    killed, one character typed in its middle. *)
Definition input : list Z := lit "ne" ++ [9] ++ lit "sh" ++ [9; 127; 127; 13; 27; 91; 65; 23] ++ lit "x" ++ [27; 91; 68; 98; 8].

Lemma plain_check s : forallb (λ c, (32 <=? c) && (c <? 127))%bool s = true → Z.of_nat (length s) < 32768 → plain s.
Proof.
  intros H Hl. split; [|done]. apply Forall_forall. intros x Hx. rewrite forallb_forall in H. specialize (H x Hx).
  unfold printable. bool_to_prop. lia.
Qed.
Lemma echo_ok name r : forallb (λ c, (32 <=? c) && (c <? 127))%bool (lit name) = true → Z.of_nat (length (lit name)) < 32768 →
  cmd_ok (echo name r).
Proof.
  intros H1 H2. split; cbn; [by apply plain_check|by apply plain_check..|].
  intros argv c. eexists _, _, _. split; [done|]. by apply literal_ok.
Qed.
Lemma cmds_ok : Forall cmd_ok cmds.
Proof. repeat (apply Forall_cons_2; [by apply echo_ok|]). apply Forall_nil_2. Qed.
Definition ran : res (bool * shell) := cli_loop cmds host err 62 input history0 [] ([], []).
End ShellWit.

Lemma shell_shows_line_witness :
  ∃ more s cs rest, cli_loop ShellWit.cmds ShellWit.host ShellWit.err 62 ShellWit.input history0 [] ([], []) = Ret (more, s) ∧
    ShellWit.input = (snd <$> cs) ++ rest ∧
    let a := edits cs session0 in
    if (more : bool) then rest = [] ∧ rep (se_left a) (se_right a) (sh_ed s) ∧ recent (se_lines a) (sh_history s) ∧
      shows (prompt ShellWit.host 62) (se_left a) (se_right a) (display 100 (sh_cli s))
    else ∃ ch rest', rest = ch :: rest' ∧ event a ch = CLI_ED_EOF.
Proof.
  apply (shell_shows_line ShellWit.cmds ShellWit.host ShellWit.err 62 100 ShellWit.input []);
    [apply ShellWit.cmds_ok|by apply ShellWit.plain_check|intros e; by apply ShellWit.plain_check|unfold printable; lia
    |apply Nat.leb_le; vm_compute; reflexivity|vm_compute; reflexivity].
Defined.

Lemma editor_refines_witness :
  rep [] [] cli_ed_init ∧
  let '(evs, (st, (l', r'))) := keys (lit "ab" ++ [27; 91; 68] ++ lit "c") (esc_of cli_ed_init) [] [] in
  ∃ ed', ed_inputs (lit "ab" ++ [27; 91; 68] ++ lit "c") cli_ed_init = Ret (evs, ed') ∧ esc_of ed' = st ∧ rep l' r' ed'.
Proof. split; [apply rep_init|]. exact (editor_refines (lit "ab" ++ [27; 91; 68] ++ lit "c") [] [] cli_ed_init rep_init). Defined.

Definition typed : cli_ed_t := match ed_inputs (lit "net") cli_ed_init with Ret (_, ed) => ed | _ => cli_ed_init end.
Definition typed_s : cli_ed_t :=
  match ed_inputs (lit "net ipv4 s") cli_ed_init with Ret (_, ed) => ed | _ => cli_ed_init end.
Lemma completion_longest_witness :
  ∃ ed' o w ext sp, do_completion ShellWit.cmds false typed_s ([], []) = Ret (ed', ([] ++ o, w)) ∧ rep (lit "net ipv4 s" ++ ext ++ sp) [] ed' ∧
    (sp = [] ∨ sp = [32] ∧ ext ≠ []) ∧
    (let start := word_start (lit "net ipv4 s") in let shown := distinct start [] (filter (matches (lit "net ipv4 s")) ShellWit.cmds) in
     o = (if decide (ext = []) then [10] ++ concat (entry start <$> shown) else []) ∧
     ∀ p, p ∈ ShellWit.cmds → matches (lit "net ipv4 s") p → next_word start p ≠ [] →
       ∃ q, q ∈ shown ∧ next_word start q = next_word start p) ∧
    (∀ p, p ∈ ShellWit.cmds → matches (lit "net ipv4 s") p ↔ matches (lit "net ipv4 s" ++ ext) p) ∧
    (∀ x, printable x → ∃ p, p ∈ ShellWit.cmds ∧ matches (lit "net ipv4 s") p ∧ ¬ matches (lit "net ipv4 s" ++ ext ++ [x]) p).
Proof.
  apply (completion_longest ShellWit.cmds (lit "net ipv4 s") typed_s ([], [])).
  - apply ShellWit.cmds_ok.
  - repeat (apply Forall_cons_2; [split; [|apply Nat.leb_le; vm_compute; reflexivity];
      repeat (apply Forall_cons_2; [discriminate|]); apply Forall_nil_2|]). apply Forall_nil_2.
  - split; [exists (replicate 69 0); vm_compute; reflexivity|vm_compute; reflexivity..|].
    repeat (apply Forall_cons_2; [vm_compute; split; (discriminate || reflexivity)|]). apply Forall_nil_2.
  - exists (ShellWit.echo "net_ipv4_show" 0). split; [left|]. exists (lit "how"). vm_compute. reflexivity.
Defined.

Lemma dispatch_runs_witness :
  let argv := words CLI_MAX_ARGC (lit "net ipv4 show 7") in
  (∃ n p, runs ShellWit.cmds argv n p ∧
    cli_dispatch ShellWit.cmds (lit "net ipv4 show 7" ++ 0 :: []) ([], []) = cc_dispatch p (cc_cmd p :: drop n argv) ([], [])) ∨
  (∀ n q, (1 <= n <= length argv)%nat → q ∈ ShellWit.cmds → cc_cmd q ≠ name_of (take n argv)) ∧
    ∃ err, cli_dispatch ShellWit.cmds (lit "net ipv4 show 7" ++ 0 :: []) ([], []) = Ret (err, ([], [])) ∧
      (err = ERR_INVALID_ARGS ∧ (∃ p, p ∈ ShellWit.cmds ∧ name_of argv ++ [95] `prefix_of` cc_cmd p) ∨
       err = ERR_NOT_FOUND ∧ ¬ (∃ p, p ∈ ShellWit.cmds ∧ name_of argv ++ [95] `prefix_of` cc_cmd p)).
Proof.
  apply (dispatch_runs ShellWit.cmds (lit "net ipv4 show 7") [] ([], [])); [|vm_compute; discriminate].
  repeat (apply Forall_cons_2; [vm_compute; split; reflexivity|]). apply Forall_nil_2.
Defined.

(** ** What can go wrong *)

(** Completion compares the whole line and inserts at the cursor: with the cursor at the
    start of [net], what completes the line comes before it. *)
Theorem completion_at_cursor :
  match cli_ed_input 1 typed with
  | Ret (_, ed) =>
      match do_completion ShellWit.cmds false ed ([], []) with
      | Ret (ed', _) => take 11 (ed_buf ed') = lit " ipv4 snet" ++ [0]
      | Fault _ => False
      end
  | Fault _ => False
  end.
Proof. vm_compute. reflexivity. Qed.

(** When there is no memory for a line of the history its place holds a null pointer, and
    the next line is compared with it. *)
Theorem history_null_entry line1 line2 :
  ('(h, _) ← history_add line1 history0 [false]; history_add line2 h []) = Fault OutOfBounds.
Proof. reflexivity. Qed.
