(* ===== verification/Timer.v ===== *)
(** * Timer: the sorted timer queue ([src/kernel/timer.c])

    A timer is armed when its [t_expire] is non-zero, and armed timers sit on
    one queue sorted by expiry.  The state is the queue (a list of timer
    identities) with the [t_expire] field of every timer; a timer that was never
    touched has 0 there.  Callbacks run with the whole kernel state at hand and
    may arm and disarm timers themselves, so [timer_dispatch] takes the callback
    as an argument over an arbitrary environment and threads both states. *)

From stdpp Require Import base list numbers gmap sorting.
From Stdlib Require Import ZArith Lia.
From S2P Require Import Prelude.

Open Scope Z_scope.

(** ** State *)

Record timers := mk_timers {
  tl : list nat;           (* the queue, first to expire at the head *)
  exp_map : gmap nat Z;    (* t_expire; absent means 0 *)
}.

Definition t_expire (s : timers) (t : nat) : Z := default 0 (exp_map s !! t).
Definition set_expire (m : gmap nat Z) (t : nat) (e : Z) : gmap nat Z := <[t := e]> m.

(** ** Operations *)

(** [timer_cmp(a, b)]: [a->t_expire > b->t_expire]. *)
Definition timer_cmp (ex : nat → Z) (a b : nat) : Z := b2z (ex b <? ex a).

(** [LIST_REMOVE] *)
Definition unlink (t : nat) (l : list nat) : list nat := filter (λ x, x ≠ t) l.

Definition timer_arm_on_queue (s : timers) (t : nat) (expire : Z) : timers :=
  let q := if t_expire s t =? 0 then tl s else unlink t (tl s) in
  let m := set_expire (exp_map s) t expire in
  mk_timers (list_insert_sorted (timer_cmp (λ x, default 0 (m !! x))) t q) m.

(** Returns 1 when the timer was not armed. *)
Definition timer_disarm (s : timers) (t : nat) : timers * Z :=
  if t_expire s t =? 0 then (s, 1)
  else (mk_timers (unlink t (tl s)) (set_expire (exp_map s) t 0), 0).

Section Dispatch.
Context {E : Type} (t_cb : nat → Z → E * timers → E * timers).

(** The loop of [timer_dispatch], with the timers fired so far as a trace.
    Running out of fuel is [None]. *)
Fixpoint timer_dispatch (fuel : nat) (now : Z) (st : E * timers)
    : option (E * timers * list (nat * Z)) :=
  match fuel with
  | O => None
  | S f =>
      match tl (snd st) with
      | [] => Some (st, [])
      | t :: rest =>
          let expire := t_expire (snd st) t in
          if now <? expire then Some (st, [])
          else
            let s' := mk_timers rest (set_expire (exp_map (snd st)) t 0) in
            '(r, tr) ← timer_dispatch f now (t_cb t expire (fst st, s'));
            Some (r, (t, expire) :: tr)
      end
  end.
End Dispatch.

(** ** Invariant *)

Definition wf (s : timers) : Prop :=
  NoDup (tl s) ∧ (∀ t, t ∈ tl s ↔ t_expire s t ≠ 0) ∧ (∀ t, 0 <= t_expire s t) ∧
  StronglySorted (λ a b, t_expire s a <= t_expire s b) (tl s).

Definition due (now : Z) (s : timers) (t : nat) : Prop := t ∈ tl s ∧ t_expire s t <= now.

(** ** Lemmas *)

Lemma t_expire_set m q t e x :
  t_expire (mk_timers q (set_expire m t e)) x = if decide (x = t) then e else default 0 (m !! x).
Proof.
  unfold t_expire, set_expire. simpl. case_decide as H.
  - subst. by rewrite lookup_insert_eq.
  - by rewrite lookup_insert_ne.
Qed.

Lemma elem_unlink t x l : x ∈ unlink t l ↔ x ∈ l ∧ x ≠ t.
Proof. unfold unlink. rewrite list_elem_of_filter. tauto. Qed.

Lemma sorted_ext (f g : nat → Z) l :
  (∀ x, x ∈ l → f x = g x) →
  StronglySorted (λ a b, f a <= f b) l → StronglySorted (λ a b, g a <= g b) l.
Proof.
  intros Hfg. induction 1 as [|x l Hl IH Hx]; constructor.
  - apply IH. intros y Hy. apply Hfg. by right.
  - rewrite Forall_forall in *. intros y Hy. rewrite <- !Hfg by (by constructor).
    by apply Hx.
Qed.

Lemma sorted_filter {A} (R : relation A) (P : A → Prop) `{∀ x, Decision (P x)} l :
  StronglySorted R l → StronglySorted R (filter P l).
Proof.
  induction 1 as [|x l Hl IH Hx]; [constructor|].
  rewrite filter_cons. case_decide; [|done]. constructor; [done|].
  rewrite Forall_forall in *. intros y [_ Hy]%list_elem_of_filter. by apply Hx.
Qed.

(** Arming keeps the queue well-formed and moves only the armed timer. *)
Lemma arm_wf s t e :
  wf s → 0 < e →
  let s' := timer_arm_on_queue s t e in
  wf s' ∧ t_expire s' t = e ∧ (∀ x, x ≠ t → t_expire s' x = t_expire s x).
Proof.
  intros (Hnd & Hin & Hnn & Hso) He s'.
  set (q := if t_expire s t =? 0 then tl s else unlink t (tl s)).
  assert (Hq : ∀ x, x ∈ q ↔ x ∈ tl s ∧ x ≠ t).
  { intros x. unfold q. destruct (Z.eqb_spec (t_expire s t) 0) as [E|E].
    - split; [|tauto]. intros Hx. split; [done|]. intros ->. by apply Hin in Hx.
    - apply elem_unlink. }
  assert (Hqnd : NoDup q) by (unfold q; case_match; [done|by apply NoDup_filter]).
  assert (Hqso : StronglySorted (λ a b, t_expire s a <= t_expire s b) q)
    by (unfold q; case_match; [done|by apply sorted_filter]).
  assert (Hex : ∀ x, t_expire s' x = if decide (x = t) then e else t_expire s x)
    by (intros x; apply t_expire_set).
  assert (Hp : tl s' ≡ₚ t :: q) by apply list_insert_sorted_perm.
  split; [split_and!|].
  - rewrite Hp. constructor; [|done]. rewrite Hq. tauto.
  - intros x. rewrite Hp, elem_of_cons, Hq, Hex, Hin. case_decide; naive_solver lia.
  - intros x. rewrite Hex. case_decide; [lia|apply Hnn].
  - apply list_insert_sorted_sorted.
    + intros a b c. simpl. lia.
    + intros a b. unfold timer_cmp, b2z. case_match; bool_to_prop; [lia|]. intros _. done.
    + intros a b. unfold timer_cmp, b2z. case_match; bool_to_prop; [|lia]. intros _.
      fold (t_expire s' a) (t_expire s' b) in *. unfold s', t_expire, timer_arm_on_queue. simpl. lia.
    + eapply sorted_ext; [|exact Hqso]. intros x [_ Hx]%Hq. by rewrite Hex, decide_False.
  - split; [by rewrite Hex, decide_True|]. intros x Hx. by rewrite Hex, decide_False.
Qed.

Lemma drop_head_wf s t rest :
  wf s → tl s = t :: rest → wf (mk_timers rest (set_expire (exp_map s) t 0)).
Proof.
  intros (Hnd & Hin & Hnn & Hso) Htl. rewrite Htl in *.
  apply NoDup_cons in Hnd as [Hni Hnd]. apply StronglySorted_inv in Hso as [Hso _].
  split_and!; simpl.
  - done.
  - intros x. rewrite t_expire_set. specialize (Hin x). rewrite elem_of_cons in Hin.
    fold (t_expire s x). case_decide; naive_solver.
  - intros x. rewrite t_expire_set. case_decide; [done|apply Hnn].
  - eapply sorted_ext; [|exact Hso]. intros x Hx. rewrite t_expire_set.
    rewrite decide_False; [done|]. by intros ->.
Qed.

Lemma disarm_wf s t :
  wf s → wf (fst (timer_disarm s t)) ∧ t_expire (fst (timer_disarm s t)) t = 0 ∧
  (∀ x, x ≠ t → t_expire (fst (timer_disarm s t)) x = t_expire s x).
Proof.
  intros Hwf. pose proof Hwf as (Hnd & Hin & Hnn & Hso). unfold timer_disarm.
  destruct (Z.eqb_spec (t_expire s t) 0) as [E|E]; simpl; [done|].
  split; [split_and!; simpl|].
  - by apply NoDup_filter.
  - intros x. rewrite elem_unlink, t_expire_set, Hin. fold (t_expire s x).
    case_decide; naive_solver.
  - intros x. rewrite t_expire_set. case_decide; [done|apply Hnn].
  - eapply sorted_ext; [|by apply sorted_filter]. intros x [_ Hx]%elem_unlink.
    by rewrite t_expire_set, decide_False.
  - split; [by rewrite t_expire_set, decide_True|]. intros x Hx.
    by rewrite t_expire_set, decide_False.
Qed.

(** ** Dispatch *)

Definition due_list (now : Z) (s : timers) : list nat := filter (λ t, t_expire s t <= now) (tl s).

Lemma elem_due_list now s t : t ∈ due_list now s ↔ due now s t.
Proof. unfold due_list, due. rewrite list_elem_of_filter. tauto. Qed.

(** What a callback may do to the timers while [timer_dispatch(tl, now)] runs:
    it keeps the queue well-formed and arms timers only beyond [now]; it is free
    to disarm any. *)
Definition cb_ok {E} (now : Z) (t_cb : nat → Z → E * timers → E * timers) : Prop :=
  ∀ t e env s, wf s →
    wf (snd (t_cb t e (env, s))) ∧
    ∀ x, due now (snd (t_cb t e (env, s))) x →
      due now s x ∧ t_expire (snd (t_cb t e (env, s))) x = t_expire s x.

(** ... and a callback that leaves the due timers armed. *)
Definition cb_keeps {E} (now : Z) (t_cb : nat → Z → E * timers → E * timers) : Prop :=
  ∀ t e env s x, due now s x → due now (snd (t_cb t e (env, s))) x.

(** After the head is taken off, exactly the other due timers are due. *)
Lemma due_drop_head now s t rest x :
  wf s → tl s = t :: rest →
  let s1 := mk_timers rest (set_expire (exp_map s) t 0) in
  (due now s1 x → due now s x ∧ x ≠ t ∧ t_expire s1 x = t_expire s x) ∧
  (due now s x → x ≠ t → due now s1 x).
Proof.
  intros (Hnd & _) Htl s1. unfold due. rewrite Htl in *. apply NoDup_cons in Hnd as [Hni _].
  unfold s1. rewrite t_expire_set. simpl. rewrite elem_of_cons. fold (t_expire s x).
  split; [|case_decide; naive_solver].
  intros [Hx He]. assert (x ≠ t) by (by intros ->). rewrite decide_False in He |- * by done. auto.
Qed.

Lemma due_list_shrinks now s t rest s2 :
  wf s → tl s = t :: rest → t_expire s t <= now → wf s2 →
  (∀ x, due now s2 x → due now (mk_timers rest (set_expire (exp_map s) t 0)) x) →
  (length (due_list now s2) < length (due_list now s))%nat.
Proof.
  intros Hwf Htl Ht (Hnd2 & _) Hsub.
  assert (t :: due_list now s2 ⊆+ due_list now s) as Hle%submseteq_length; [|simpl in Hle; lia].
  apply NoDup_submseteq.
  - constructor; [|by apply NoDup_filter]. rewrite elem_due_list. intros H%Hsub.
    destruct (due_drop_head now s t rest t Hwf Htl) as [H1 _].
    by destruct (H1 H) as (_ & ? & _).
  - intros x. rewrite elem_of_cons, !elem_due_list. intros [->|H%Hsub].
    + unfold due. rewrite Htl. split; [by left|done].
    + destruct (due_drop_head now s t rest x Hwf Htl) as [H1 _]. by destruct (H1 H).
Qed.

Lemma head_is_first now s t rest x :
  wf s → tl s = t :: rest → due now s x → t_expire s t <= t_expire s x.
Proof.
  intros (_ & _ & _ & Hso) Htl [Hx _]. rewrite Htl in *.
  apply StronglySorted_inv in Hso as [_ Hall]. rewrite Forall_forall in Hall.
  apply elem_of_cons in Hx as [->|Hx]; [lia|by apply Hall].
Qed.

Lemma dispatch_loop {E} (t_cb : nat → Z → E * timers → E * timers) now :
  cb_ok now t_cb → ∀ fuel env s,
  wf s → (length (due_list now s) < fuel)%nat →
  ∃ env' s' tr,
    timer_dispatch t_cb fuel now (env, s) = Some (env', s', tr) ∧
    wf s' ∧ (∀ t, ¬ due now s' t) ∧
    NoDup (tr.*1) ∧ StronglySorted Z.le (tr.*2) ∧
    Forall (λ '(t, e), due now s t ∧ e = t_expire s t) tr ∧
    (cb_keeps now t_cb → ∀ t, due now s t → t ∈ tr.*1).
Proof.
  intros Hcb. induction fuel as [|fuel IH]; intros env s Hwf Hf; [lia|]. simpl.
  destruct (tl s) as [|t rest] eqn:Htl.
  { exists env, s, []. split_and!; try done; try constructor.
    - intros t [H _]. rewrite Htl in H. by apply elem_of_nil in H.
    - intros _ t [H _]. rewrite Htl in H. by apply elem_of_nil in H. }
  destruct (now <? t_expire s t) eqn:Hnow; bool_to_prop.
  { assert (∀ x, ¬ due now s x) as Hno.
    { intros x Hx. pose proof (head_is_first now s t rest x Hwf Htl Hx). unfold due in Hx. lia. }
    exists env, s, []. split_and!; try done; try constructor. intros _ x Hx. by destruct (Hno x). }
  set (s1 := mk_timers rest (set_expire (exp_map s) t 0)).
  assert (wf s1) as Hwf1 by (by apply drop_head_wf).
  destruct (Hcb t (t_expire s t) env s1 Hwf1) as [Hwf2 Hsub].
  destruct (t_cb t (t_expire s t) (env, s1)) as [env2 s2] eqn:Ecb. simpl in Hwf2, Hsub.
  assert (Hdh := λ x, due_drop_head now s t rest x Hwf Htl). cbv zeta in Hdh. fold s1 in Hdh.
  destruct (IH env2 s2 Hwf2) as (env' & s' & tr & -> & Hwf' & Hno & Hnd & Hso & Hall & Hkeep).
  { assert (length (due_list now s2) < length (due_list now s))%nat; [|lia].
    apply (due_list_shrinks now s t rest); try done. intros x Hx. by apply Hsub. }
  assert (Hdue2 : ∀ x, due now s2 x → due now s x ∧ x ≠ t ∧ t_expire s2 x = t_expire s x).
  { intros x [H1 H2]%Hsub. apply Hdh in H1 as (? & ? & ?). split_and!; [done..|]. congruence. }
  exists env', s', ((t, t_expire s t) :: tr). simpl. split_and!; try done.
  - constructor; [|done]. intros ([x e] & -> & Hx)%list_elem_of_fmap.
    rewrite Forall_forall in Hall. apply Hall in Hx as [Hx _]. by apply Hdue2 in Hx as (_ & ? & _).
  - constructor; [done|]. rewrite Forall_forall. intros z ([x e] & -> & Hx)%list_elem_of_fmap.
    rewrite Forall_forall in Hall. apply Hall in Hx as [Hx ->]. simpl.
    apply Hdue2 in Hx as (Hx & _ & ->). by eapply head_is_first.
  - constructor.
    + split; [|done]. split; [rewrite Htl; by left|lia].
    + rewrite Forall_forall in Hall |- *. intros [x e] Hx. apply Hall in Hx as [Hx ->].
      apply Hdue2 in Hx as (? & _ & ?). done.
  - intros Hk x Hx. rewrite elem_of_cons. destruct (decide (x = t)) as [->|Hne]; [by left|right].
    apply Hkeep; [done|]. pose proof (Hk t (t_expire s t) env s1 x) as H.
    rewrite Ecb in H. apply H. by apply Hdh.
Qed.

(** ** Properties *)

(** Arming and disarming keep the timer queue sorted by expiry, free of
    duplicates and in agreement with the [t_expire] fields; they change only the
    timer they are called on, and [timer_disarm] reports 1 exactly when it was
    not armed. *)
Theorem timer_queue_invariant s t e :
  wf s → 0 < e →
  (wf (timer_arm_on_queue s t e) ∧ t_expire (timer_arm_on_queue s t e) t = e ∧
   ∀ x, x ≠ t → t_expire (timer_arm_on_queue s t e) x = t_expire s x) ∧
  (wf (fst (timer_disarm s t)) ∧ t_expire (fst (timer_disarm s t)) t = 0 ∧
   (∀ x, x ≠ t → t_expire (fst (timer_disarm s t)) x = t_expire s x) ∧
   snd (timer_disarm s t) = b2z (bool_decide (t ∉ tl s))).
Proof.
  intros Hwf He. split; [by apply arm_wf|]. pose proof Hwf as (_ & Hin & _).
  destruct (disarm_wf s t Hwf) as (? & ? & ?). split_and!; try done.
  unfold timer_disarm. destruct (Z.eqb_spec (t_expire s t) 0) as [E|E]; simpl.
  - rewrite bool_decide_true; [done|]. rewrite Hin. tauto.
  - rewrite bool_decide_false; [done|]. rewrite Hin. tauto.
Qed.

Lemma wf_empty : wf (mk_timers [] ∅).
Proof.
  split_and!; simpl; [constructor| | |constructor]; intros t; unfold t_expire; simpl;
    rewrite lookup_empty; simpl; [|lia].
  split; [by intros ?%elem_of_nil|done].
Qed.

Example timer_queue_invariant_witness :
  wf (timer_arm_on_queue (timer_arm_on_queue (mk_timers [] ∅) 1 50) 2 20) ∧
  tl (timer_arm_on_queue (timer_arm_on_queue (mk_timers [] ∅) 1 50) 2 20) = [2; 1]%nat.
Proof.
  split; [|vm_compute; reflexivity].
  apply timer_queue_invariant; [|lia]. apply timer_queue_invariant; [apply wf_empty|lia].
Defined.

(** C21: [timer_dispatch] terminates when callbacks re-arm only into the future,
    whatever else they do to the timers; it leaves no due timer, fires timers
    that were due only, each once, with the expiry it was armed for and in order
    of expiry; and it fires all of them when callbacks disarm none. *)
Theorem timer_dispatch_correct {E} (t_cb : nat → Z → E * timers → E * timers) now env s :
  cb_ok now t_cb → wf s →
  ∃ env' s' tr,
    timer_dispatch t_cb (S (length (tl s))) now (env, s) = Some (env', s', tr) ∧
    wf s' ∧ (∀ t, ¬ due now s' t) ∧
    NoDup (tr.*1) ∧ StronglySorted Z.le (tr.*2) ∧
    Forall (λ '(t, e), due now s t ∧ e = t_expire s t) tr ∧
    (cb_keeps now t_cb → ∀ t, due now s t → t ∈ tr.*1).
Proof.
  intros Hcb Hwf. apply dispatch_loop; [done..|]. unfold due_list.
  pose proof (length_filter (λ t, t_expire s t <= now) (tl s)). lia.
Qed.

(** A periodic timer (number 1) re-armed one period ahead by its callback. *)
Example timer_dispatch_correct_witness :
  let cb := λ (t : nat) (e : Z) (st : list nat * timers),
    (t :: fst st, if decide (t = 1%nat) then timer_arm_on_queue (snd st) 1 1100 else snd st) in
  let s := timer_arm_on_queue (timer_arm_on_queue (mk_timers [] ∅) 1 50) 2 20 in
  ∃ env' s' tr, timer_dispatch cb (S (length (tl s))) 100 ([], s) = Some (env', s', tr) ∧
    wf s' ∧ tr = [(2%nat, 20); (1%nat, 50)] ∧ tl s' = [1%nat].
Proof.
  cbv zeta.
  edestruct (timer_dispatch_correct (λ (t : nat) (e : Z) (st : list nat * timers),
    (t :: fst st, if decide (t = 1%nat) then timer_arm_on_queue (snd st) 1 1100 else snd st)) 100 []
    (timer_arm_on_queue (timer_arm_on_queue (mk_timers [] ∅) 1 50) 2 20))
    as (env' & s' & tr & Hd & Hwf & _).
  - intros t e env s Hwf. simpl. case_decide; [|split; [done|tauto]].
    destruct (arm_wf s 1%nat 1100 Hwf) as (Hw & He & Hx); [lia|]. split; [done|].
    intros x [Hin Hle]. destruct (decide (x = 1%nat)) as [->|Hne]; [lia|].
    rewrite Hx in Hle by done. split; [|by apply Hx]. split; [|done].
    destruct Hw as (_ & Hw & _). destruct Hwf as (_ & Hw0 & _).
    apply Hw0. apply Hw in Hin. by rewrite Hx in Hin by done.
  - apply arm_wf; [apply arm_wf; [apply wf_empty|lia]|lia].
  - exists env', s', tr. split; [done|]. split; [done|].
    vm_compute in Hd. injection Hd as _ <- <-. done.
Defined.
