(* ===== verification/Heap.v ===== *)
(** * Heap: the memory allocator ([src/lib/libc/heap_simple.c])

    A heap is a region tiled by blocks, each with an 8-byte header holding the
    address of the next block, the address of the previous one (shifted right
    once) and a free bit; a sentinel that is never free ends the chain.  The
    model is the 32-bit build ([sizeof(heap_block_t) = 8],
    [sizeof(heap_header_t) = 16]): addresses and sizes are [unsigned long]
    values with their wrap-around, and the fit test compares them as signed
    words.  The state is the map from addresses to headers; reading a header
    where there is none is a fault.

    The abstract view of one heap is the list of its blocks, (address, free).
    [heap_repr] relates the two, and the allocator is proved to implement
    first-fit allocation and coalescing release on that list. *)

From stdpp Require Import base list numbers gmap sorting.
From Stdlib Require Import ZArith Lia.
From S2P Require Import Prelude.

Open Scope Z_scope.

(** ** Headers *)

Record heap_block := mk_hb {
  hb_next : Z;
  hb_prev : Z;     (* the 31-bit field: previous address >> 1 *)
  hb_free : bool;
}.

Abbreviation heap := (gmap Z heap_block).

(** [sizeof(heap_block_t)] and [ALIGN(a, b)] on [unsigned long]. *)
Definition HBSIZE : Z := 8.
Definition ALIGN (a b : Z) : Z := Z.land (u32 (a + b - 1)) (not32 (u32 (b - 1))).

Definition get (h : heap) (a : Z) : res heap_block :=
  match h !! a with Some b => Ret b | None => Fault OutOfBounds end.

(** Stores to one field; a header that does not exist yet has arbitrary other
    fields, here zero. *)
Definition blank : heap_block := mk_hb 0 0 false.
Definition hdr (h : heap) (a : Z) : heap_block := default blank (h !! a).
Definition set_next (h : heap) (a v : Z) : heap :=
  <[a := mk_hb v (hb_prev (hdr h a)) (hb_free (hdr h a))]> h.
Definition hb_set_prev (h : heap) (a v : Z) : heap :=
  <[a := mk_hb (hb_next (hdr h a)) (Z.shiftr v 1) (hb_free (hdr h a))]> h.
Definition set_free (h : heap) (a : Z) (f : bool) : heap :=
  <[a := mk_hb (hb_next (hdr h a)) (hb_prev (hdr h a)) f]> h.
Definition hb_get_prev (b : heap_block) : Z := Z.shiftl (hb_prev b) 1.

(** ** Operations *)

(** [heap_alloc], the part that carves the block found at [hb]: the header
    writes, and in [heap_carve] the assertion in front of them. *)
Definition carve_links (h : heap) (hb : Z) (b : heap_block) (aligned_addr size : Z) : heap :=
  let addr := u32 (hb + HBSIZE) in
  let end_ := u32 (aligned_addr + size) in
  let align_gap := u32 (aligned_addr - addr) in
  let '(h, hb) :=
    if align_gap =? 0 then (h, hb)
    else
      let n := hb_next b in
      let p := hb_get_prev b in
      let split := hb in
      let hb := u32 (aligned_addr - HBSIZE) in
      let h := set_free h split true in
      let h := if p =? 0 then h else set_next h p split in
      let h := hb_set_prev h split p in
      let h := set_next h split hb in
      let h := hb_set_prev h hb split in
      let h := set_next h hb n in
      (hb_set_prev h n hb, hb) in
  let h := set_free h hb false in
  let n := hb_next (hdr h hb) in
  let tail_gap := u32 (n - end_) in
  if HBSIZE <? tail_gap then
    let split := u32 (aligned_addr + size) in
    let h := set_free h split true in
    let h := set_next h hb split in
    let h := set_next h split n in
    let h := hb_set_prev h split hb in
    hb_set_prev h n split
  else h.

Definition heap_carve (h : heap) (hb : Z) (b : heap_block) (aligned_addr size : Z) : res heap :=
  let align_gap := u32 (aligned_addr - u32 (hb + HBSIZE)) in
  if negb (align_gap =? 0) && (align_gap <? HBSIZE) then Fault Assert
  else Ret (carve_links h hb b aligned_addr size).

(** The first-fit walk; [size] and [align] are already rounded. *)
Fixpoint alloc_loop (fuel : nat) (h : heap) (hb size align : Z) : res (option Z * heap) :=
  match fuel with
  | O => Fault NoFuel
  | S f =>
      b ← get h hb;
      if hb_next b =? 0 then Ret (None, h)
      else if negb (hb_free b) then alloc_loop f h (hb_next b) size align
      else
        let addr := u32 (hb + HBSIZE) in
        let aligned_addr := ALIGN addr align in
        let end_ := u32 (aligned_addr + size) in
        if s32 (hb_next b) <? s32 end_ then alloc_loop f h (hb_next b) size align
        else
          h ← heap_carve h hb b aligned_addr size;
          Ret (Some aligned_addr, h)
  end.

Definition heap_alloc (fuel : nat) (h : heap) (hb size align : Z) : res (option Z * heap) :=
  let align := if align <? HBSIZE then HBSIZE else align in
  let size := ALIGN size HBSIZE in
  alloc_loop fuel h hb size align.

Definition heap_merge_next (h : heap) (hb : Z) : res heap :=
  b ← get h hb;
  next ← get h (hb_next b);
  if negb (hb_free next) then Ret h
  else
    let h := set_next h hb (hb_next next) in
    Ret (hb_set_prev h (hb_next next) hb).

Definition heap_free (h : heap) (ptr : Z) : res heap :=
  if ptr =? 0 then Ret h
  else
    let hb := u32 (ptr - HBSIZE) in
    b ← get h hb;
    if hb_free b then Fault Assert
    else
      let h := set_free h hb true in
      h ← heap_merge_next h hb;
      b ← get h hb;
      let p := hb_get_prev b in
      if p =? 0 then Ret h
      else
        pb ← get h p;
        if hb_free pb then heap_merge_next h p else Ret h.

(** [verify_heap]: the walk that panics on adjacent free blocks or a broken
    back link, and asserts that the sentinel is not free. *)
Fixpoint verify_loop (fuel : nat) (h : heap) (prev hb : Z) : res unit :=
  match fuel with
  | O => Fault NoFuel
  | S f =>
      b ← get h hb;
      if hb_next b =? 0 then
        if negb (hb_get_prev b =? prev) then Fault Panic
        else if hb_free b then Fault Assert else Ret tt
      else
        nb ← get h (hb_next b);
        if (hb_free b && hb_free nb)%bool then Fault Panic
        else if negb (hb_get_prev b =? prev) then Fault Panic
        else verify_loop f h hb (hb_next b)
  end.
Definition verify_heap (fuel : nat) (h : heap) (hb : Z) : res unit := verify_loop fuel h 0 hb.

(** ** The heaps of the system *)

Record heap_header := mk_hh {
  hh_blocks : Z;
  hh_type : Z;
  hh_prio : Z;
}.

Definition heap_cmp (a b : heap_header) : Z := b2z (hh_prio b <? hh_prio a).

Record heap_state := mk_heaps {
  heaps : list heap_header;
  blocks : heap;
}.

(** [heap_add_mem]; [start] is the resolved start address. *)
Definition heap_add_mem (st : heap_state) (start end_ type prio : Z) : heap_state :=
  let hb := ALIGN (u32 (start + 16)) HBSIZE in
  let sentinel := ALIGN (u32 (end_ - HBSIZE)) HBSIZE in
  let h := blocks st in
  let h := set_free (hb_set_prev (set_next h hb sentinel) hb 0) hb true in
  let h := set_free (hb_set_prev (set_next h sentinel 0) sentinel hb) sentinel false in
  mk_heaps (list_insert_sorted heap_cmp (mk_hh hb type prio) (heaps st)) h.

Definition MEM_MAY_FAIL : Z := 2147483648.
Definition MEM_CLEAR : Z := 1073741824.

(** The [LIST_FOREACH] of [malloc0]. *)
Fixpoint malloc_loop (fuel : nat) (hs : list heap_header) (h : heap) (size align type : Z)
    : res (option Z * heap) :=
  match hs with
  | [] => Ret (None, h)
  | hh :: hs =>
      let heap_type := Z.land type 65535 in
      if hh_blocks hh =? 0 then malloc_loop fuel hs h size align type
      else if (negb (heap_type =? 0) && negb (Z.land type (hh_type hh) =? heap_type))%bool
      then malloc_loop fuel hs h size align type
      else
        '(x, h) ← heap_alloc fuel h (hh_blocks hh) size align;
        match x with
        | Some p => Ret (Some p, h)
        | None => malloc_loop fuel hs h size align type
        end
  end.

(** [malloc0]: the pointer, the range to be cleared ([memset(x, 0, size)]) and
    the new state. *)
Definition malloc0 (fuel : nat) (st : heap_state) (size align type : Z)
    : res (option Z * option (Z * Z) * heap_state) :=
  '(x, h) ← malloc_loop fuel (heaps st) (blocks st) size align type;
  match x with
  | Some p =>
      let clear := if Z.land type MEM_CLEAR =? 0 then None else Some (p, size) in
      Ret (Some p, clear, mk_heaps (heaps st) h)
  | None =>
      if Z.land type MEM_MAY_FAIL =? 0 then Fault Panic
      else Ret (None, None, mk_heaps (heaps st) h)
  end.

Definition malloc (fuel : nat) (st : heap_state) (size : Z) := malloc0 fuel st size 0 0.
Definition calloc (fuel : nat) (st : heap_state) (nmemb size : Z) :=
  malloc0 fuel st (u32 (size * nmemb)) 0 MEM_CLEAR.
Definition memalign (fuel : nat) (st : heap_state) (size alignment : Z) :=
  malloc0 fuel st size alignment 0.
Definition xalloc (fuel : nat) (st : heap_state) (size alignment type : Z) :=
  malloc0 fuel st size alignment type.
Definition free (st : heap_state) (ptr : Z) : res heap_state :=
  h ← heap_free (blocks st) ptr; Ret (mk_heaps (heaps st) h).
(** [free_try] gives up when the heap mutex is held. *)
Definition free_try (mutex_held : bool) (st : heap_state) (ptr : Z) : res (Z * heap_state) :=
  if mutex_held then Ret (1, st) else st ← free st ptr; Ret (0, st).

(** ** Abstract heaps *)

Abbreviation block_list := (list (Z * bool)).

Definition hd_addr (l : block_list) (nxt : Z) : Z :=
  match l with [] => nxt | (a, _) :: _ => a end.
Definition last_addr (prev : Z) (l : block_list) : Z :=
  match last l with None => prev | Some (a, _) => a end.

(** First-fit allocation on the list: [s] is the sentinel address. *)
Definition carve (a p size nxt : Z) : block_list :=
  (if p =? a + 8 then [] else [(a, true)]) ++ [(p - 8, false)] ++
  (if 8 <? nxt - (p + size) then [(p + size, true)] else []).

Definition align_up (a k : Z) : Z := (a + 2 ^ k - 1) / 2 ^ k * 2 ^ k.

Fixpoint list_alloc (l : block_list) (s size k : Z) : option (Z * block_list) :=
  match l with
  | [] => None
  | (a, f) :: l' =>
      let nxt := hd_addr l' s in
      let p := align_up (a + 8) k in
      if (f && (p + size <=? nxt))%bool then Some (p, carve a p size nxt ++ l')
      else (λ '(p, r), (p, (a, f) :: r)) <$> list_alloc l' s size k
  end.

(** Release on the list: neighbours that are free are absorbed. *)
Definition free_before (l : block_list) : bool :=
  match last l with Some (_, f) => f | None => false end.
Definition absorb (l : block_list) : block_list :=
  match l with (_, true) :: l' => l' | _ => l end.
Definition list_release (l1 : block_list) (a : Z) (l2 : block_list) : block_list :=
  (if free_before l1 then l1 else l1 ++ [(a, true)]) ++ absorb l2.

(** ** Representation *)

Fixpoint seg (h : heap) (prev : Z) (l : block_list) (nxt : Z) : Prop :=
  match l with
  | [] => True
  | (a, f) :: l' =>
      h !! a = Some (mk_hb (hd_addr l' nxt) (Z.shiftr prev 1) f) ∧ seg h a l' nxt
  end.

Fixpoint no_adjacent_free (l : block_list) : Prop :=
  match l with
  | (_, f1) :: ((_, f2) :: _) as l' => ¬ (f1 = true ∧ f2 = true) ∧ no_adjacent_free l'
  | _ => True
  end.

Definition addrs_ok (l : list Z) : Prop :=
  StronglySorted Z.lt l ∧ Forall (λ a, 0 < a ∧ a mod 8 = 0 ∧ a < 2147483640) l.

Definition heap_repr (h : heap) (bl : block_list) (s : Z) : Prop :=
  seg h 0 (bl ++ [(s, false)]) 0 ∧ addrs_ok ((bl ++ [(s, false)]).*1) ∧
  no_adjacent_free bl.

(** *** Segments *)

Lemma get_ok h a b : h !! a = Some b → get h a = Ret b.
Proof. unfold get. by intros ->. Qed.

Lemma hd_addr_app l1 l2 nxt : hd_addr (l1 ++ l2) nxt = hd_addr l1 (hd_addr l2 nxt).
Proof. by destruct l1 as [|[]]. Qed.

Lemma last_addr_cons prev a f l : last_addr prev ((a, f) :: l) = last_addr a l.
Proof.
  unfold last_addr. destruct l as [|x l]; [done|]. rewrite last_cons_cons.
  destruct (last (x :: l)) eqn:E; [done|]. by apply last_None in E.
Qed.

Lemma last_addr_snoc prev l a f : last_addr prev (l ++ [(a, f)]) = a.
Proof. unfold last_addr. by rewrite last_snoc. Qed.

Lemma seg_app h prev l1 l2 nxt :
  seg h prev (l1 ++ l2) nxt ↔ seg h prev l1 (hd_addr l2 nxt) ∧ seg h (last_addr prev l1) l2 nxt.
Proof.
  revert prev. induction l1 as [|[a f] l1 IH]; intros prev; simpl.
  - unfold last_addr. simpl. tauto.
  - rewrite IH, hd_addr_app, last_addr_cons. tauto.
Qed.

Lemma seg_frame h h' prev l nxt :
  (∀ x, x ∈ l.*1 → h' !! x = h !! x) → seg h prev l nxt → seg h' prev l nxt.
Proof.
  revert prev. induction l as [|[a f] l IH]; intros prev Hx; simpl; [done|].
  intros [Ha Hl]. split.
  - rewrite Hx; [done|]. by left.
  - apply IH; [|done]. intros x Hin. apply Hx. by right.
Qed.

(** Redirecting the end of a segment is a change to its last header only. *)
Lemma seg_lookup h prev l1 a f l2 nxt :
  seg h prev (l1 ++ (a, f) :: l2) nxt →
  h !! a = Some (mk_hb (hd_addr l2 nxt) (Z.shiftr (last_addr prev l1) 1) f).
Proof. rewrite seg_app. simpl. tauto. Qed.

Lemma seg_lookup_snd h prev l1 x n f l2 nxt :
  seg h prev (l1 ++ x :: (n, f) :: l2) nxt →
  h !! n = Some (mk_hb (hd_addr l2 nxt) (Z.shiftr (fst x) 1) f).
Proof. destruct x. rewrite seg_app. simpl. tauto. Qed.

(** *** Addresses *)

Lemma addrs_ok_app l1 l2 :
  addrs_ok (l1 ++ l2) →
  addrs_ok l1 ∧ addrs_ok l2 ∧ ∀ x y, x ∈ l1 → y ∈ l2 → x < y.
Proof.
  intros [Hs Hf]. apply Forall_app in Hf as [Hf1 Hf2].
  revert Hf1. induction l1 as [|a l1 IH]; intros Hf1.
  - split; [split; constructor|]. split; [done|]. intros x y Hx. by apply not_elem_of_nil in Hx.
  - simpl in Hs. apply StronglySorted_inv in Hs as [Hs Ha]. apply Forall_cons_1 in Hf1 as [Hfa Hf1].
    destruct (IH Hs Hf1) as ([Hs1 _] & Hok2 & Hlt). apply Forall_app in Ha as [Ha1 Ha2].
    split_and!; [split; by constructor|done|].
    intros x y [->|Hx]%elem_of_cons Hy; [|by apply Hlt]. rewrite Forall_forall in Ha2. by apply Ha2.
Qed.

Lemma addrs_ok_join l1 l2 :
  addrs_ok l1 → addrs_ok l2 → (∀ x y, x ∈ l1 → y ∈ l2 → x < y) → addrs_ok (l1 ++ l2).
Proof.
  intros [Hs1 Hf1] [Hs2 Hf2] Hlt. split; [|by apply Forall_app].
  induction Hs1 as [|a l1 Hs1 IH Ha]; simpl; [done|].
  apply Forall_cons_1 in Hf1 as [_ Hf1]. constructor.
  - apply IH; [done|]. intros x y Hx Hy. apply Hlt; [by right|done].
  - apply Forall_app. split; [done|]. rewrite Forall_forall. intros y Hy. apply Hlt; [by left|done].
Qed.

Lemma prev_roundtrip z : z mod 8 = 0 → Z.shiftl (Z.shiftr z 1) 1 = z.
Proof.
  intros Hz. rewrite Z.shiftl_mul_pow2, Z.shiftr_div_pow2 by lia. change (2 ^ 1) with 2. dlia.
Qed.

Lemma ALIGN_spec a k :
  0 <= a → 0 <= k <= 31 → a + 2 ^ k <= 4294967296 → ALIGN a (2 ^ k) = align_up a k.
Proof.
  intros Ha Hk Hb. unfold ALIGN, align_up.
  assert (0 < 2 ^ k) by (apply Z.pow_pos_nonneg; lia).
  assert (2 ^ k <= 2 ^ 31) by (apply Z.pow_le_mono_r; lia). change (2 ^ 31) with 2147483648 in *.
  rewrite !u32_id by (unfold is_u32; lia).
  assert (∀ x, 0 <= x < 4294967296 → Z.land x (not32 (2 ^ k - 1)) = x / 2 ^ k * 2 ^ k) as Hl.
  { intros x Hx. rewrite <- Z.shiftr_div_pow2, <- Z.shiftl_mul_pow2 by lia.
    rewrite <- Z.ldiff_ones_r by lia. apply Z.bits_inj'; intros i Hi.
    rewrite Z.land_spec, Z.ldiff_spec. unfold not32. rewrite Z.lxor_spec.
    rewrite Z.ones_equiv, <- Z.sub_1_r.
    destruct (decide (i < 32)) as [Hlt|Hge].
    - change 4294967295 with (Z.ones 32). rewrite (Z.ones_spec_low 32 i) by lia.
      by rewrite xorb_true_r.
    - rewrite <- (Z.mod_small x (2 ^ 32)) by lia. by rewrite Z.mod_pow2_bits_high by lia. }
  by rewrite Hl by lia.
Qed.

Lemma align_up_spec a k :
  0 <= k → a <= align_up a k < a + 2 ^ k ∧ align_up a k mod 2 ^ k = 0.
Proof.
  intros Hk. unfold align_up. assert (0 < 2 ^ k) by (apply Z.pow_pos_nonneg; lia).
  split; [|by apply Z.mod_mul; lia].
  pose proof (Z.div_mod (a + 2 ^ k - 1) (2 ^ k)).
  pose proof (Z.mod_pos_bound (a + 2 ^ k - 1) (2 ^ k)). lia.
Qed.

(** *** Splitting and joining blocks

    The two pointer rewrites of the allocator, on any heap that agrees with the
    old one elsewhere. *)

Section Rewrite.
Context (h h' : heap) (prev : Z) (l1 : block_list).

Lemma seg_split a f fa b fb n fn rest nxt :
  seg h prev (l1 ++ (a, f) :: (n, fn) :: rest) nxt →
  addrs_ok ((l1 ++ (a, f) :: (n, fn) :: rest).*1) →
  a < b < n →
  h' !! a = Some (mk_hb b (Z.shiftr (last_addr prev l1) 1) fa) →
  h' !! b = Some (mk_hb n (Z.shiftr a 1) fb) →
  h' !! n = Some (mk_hb (hd_addr rest nxt) (Z.shiftr b 1) fn) →
  (∀ x, x < a ∨ n < x → h' !! x = h !! x) →
  seg h' prev (l1 ++ (a, fa) :: (b, fb) :: (n, fn) :: rest) nxt.
Proof.
  rewrite fmap_app. intros Hs (Hok1 & Hok2 & Hlt)%addrs_ok_app Hb Ha' Hb' Hn' Hfr.
  rewrite seg_app in *. simpl in *. destruct Hs as (Hs1 & _ & _ & Hs2).
  split; [|split_and!; try done].
  - eapply seg_frame; [|exact Hs1]. intros x Hx. apply Hfr. left. apply Hlt; [done|by left].
  - eapply seg_frame; [|exact Hs2]. intros x Hx. apply Hfr. right.
    destruct Hok2 as [Hso _]. apply StronglySorted_inv in Hso as [Hso _].
    apply StronglySorted_inv in Hso as [_ Hall]. rewrite Forall_forall in Hall. by apply Hall.
Qed.

Lemma seg_join a f fa b fb n fn rest nxt :
  seg h prev (l1 ++ (a, f) :: (b, fb) :: (n, fn) :: rest) nxt →
  addrs_ok ((l1 ++ (a, f) :: (b, fb) :: (n, fn) :: rest).*1) →
  h' !! a = Some (mk_hb n (Z.shiftr (last_addr prev l1) 1) fa) →
  h' !! n = Some (mk_hb (hd_addr rest nxt) (Z.shiftr a 1) fn) →
  (∀ x, x < a ∨ n < x → h' !! x = h !! x) →
  seg h' prev (l1 ++ (a, fa) :: (n, fn) :: rest) nxt.
Proof.
  rewrite fmap_app. intros Hs (Hok1 & Hok2 & Hlt)%addrs_ok_app Ha' Hn' Hfr.
  rewrite seg_app in *. simpl in *. destruct Hs as (Hs1 & _ & _ & _ & Hs2).
  split; [|split_and!; try done].
  - eapply seg_frame; [|exact Hs1]. intros x Hx. apply Hfr. left. apply Hlt; [done|by left].
  - eapply seg_frame; [|exact Hs2]. intros x Hx. apply Hfr. right.
    destruct Hok2 as [Hso _]. apply StronglySorted_inv in Hso as [Hso _].
    apply StronglySorted_inv in Hso as [Hso _].
    apply StronglySorted_inv in Hso as [_ Hall]. rewrite Forall_forall in Hall. by apply Hall.
Qed.

Lemma seg_mark a f fa rest nxt :
  seg h prev (l1 ++ (a, f) :: rest) nxt →
  addrs_ok ((l1 ++ (a, f) :: rest).*1) →
  h' !! a = Some (mk_hb (hd_addr rest nxt) (Z.shiftr (last_addr prev l1) 1) fa) →
  (∀ x, x ≠ a → h' !! x = h !! x) →
  seg h' prev (l1 ++ (a, fa) :: rest) nxt.
Proof.
  rewrite fmap_app. intros Hs (Hok1 & Hok2 & Hlt)%addrs_ok_app Ha' Hfr.
  rewrite seg_app in *. simpl in *. destruct Hs as (Hs1 & _ & Hs2).
  split; [|split_and!; try done].
  - eapply seg_frame; [|exact Hs1]. intros x Hx. apply Hfr.
    assert (x < a); [|lia]. apply Hlt; [done|by left].
  - eapply seg_frame; [|exact Hs2]. intros x Hx. apply Hfr.
    destruct Hok2 as [Hso _]. apply StronglySorted_inv in Hso as [_ Hall].
    rewrite Forall_forall in Hall. specialize (Hall x Hx). lia.
Qed.
End Rewrite.

(** Evaluates a lookup through a sequence of field stores. *)
Ltac heap_simp :=
  unfold set_next, hb_set_prev, set_free, hdr;
  rewrite ?lookup_insert;
  repeat (case_decide; try lia; simpl; rewrite ?lookup_insert);
  simplify_eq/=; try done.

Lemma addrs_insert l1 a b n rest :
  addrs_ok (l1 ++ a :: n :: rest) → a < b < n → b mod 8 = 0 →
  addrs_ok (l1 ++ a :: b :: n :: rest).
Proof.
  intros (Hok1 & [Hs2 Hf2] & Hlt)%addrs_ok_app Hb Hm. apply addrs_ok_join; [done| |].
  - apply StronglySorted_inv in Hs2 as [Hs2 Ha]. apply Forall_cons_1 in Hf2 as [Hfa Hf2].
    pose proof Hs2 as Hs3. apply StronglySorted_inv in Hs3 as [_ Hn].
    pose proof Hf2 as Hf3. apply Forall_cons_1 in Hf3 as [Hfn _].
    split.
    + constructor; [constructor; [done|]|constructor; [lia|done]].
      constructor; [lia|]. eapply Forall_impl; [exact Hn|]. simpl. intros; lia.
    + constructor; [done|]. constructor; [|done]. lia.
  - intros x y Hx Hy. assert (x < a) by (apply Hlt; [done|by left]).
    apply elem_of_cons in Hy as [->|Hy]; [done|]. apply elem_of_cons in Hy as [->|Hy]; [lia|].
    apply Hlt; [done|]. by right.
Qed.

Lemma no_adjacent_free_app l1 l2 :
  no_adjacent_free (l1 ++ l2) ↔
    no_adjacent_free l1 ∧ no_adjacent_free l2 ∧
    ¬ (free_before l1 = true ∧ ∃ a l2', l2 = (a, true) :: l2').
Proof.
  induction l1 as [|[a f] l1 IH]; [simpl; naive_solver|].
  destruct l1 as [|[b g] l1].
  - simpl. destruct l2 as [|[c k] l2]; [naive_solver|]. unfold free_before. simpl.
    destruct f, k; naive_solver.
  - change ((a, f) :: (b, g) :: l1) with ([(a, f)] ++ (b, g) :: l1).
    assert (free_before ([(a, f)] ++ (b, g) :: l1) = free_before ((b, g) :: l1)) as -> by done.
    cbn [app]. cbn [app] in IH. cbn [no_adjacent_free]. rewrite IH. tauto.
Qed.

(** What the representation says about one block. *)
Lemma repr_block h l1 a f l2 s :
  heap_repr h (l1 ++ (a, f) :: l2) s →
  h !! a = Some (mk_hb (hd_addr l2 s) (Z.shiftr (last_addr 0 l1) 1) f) ∧
  0 < a ∧ a mod 8 = 0 ∧ a + 8 <= hd_addr l2 s < 2147483640 ∧ hd_addr l2 s mod 8 = 0.
Proof.
  intros (Hs & Hok & _). rewrite <- app_assoc in Hs, Hok. simpl in Hs, Hok.
  apply seg_lookup in Hs. rewrite hd_addr_app in Hs. simpl in Hs. split; [done|].
  rewrite fmap_app in Hok. apply addrs_ok_app in Hok as (_ & [Hso Hf] & _).
  simpl in Hso, Hf. apply Forall_cons_1 in Hf as [Ha Hf].
  apply StronglySorted_inv in Hso as [_ Hlt].
  destruct l2 as [|[n fn] l2]; simpl in *; apply Forall_cons_1 in Hf as [Hn _];
    apply Forall_cons_1 in Hlt as [Hlt _]; split_and!; try lia; try tauto; dlia.
Qed.

Lemma last_addr_ok l1 rest :
  addrs_ok ((l1 ++ rest).*1) → last_addr 0 l1 mod 8 = 0 ∧ 0 <= last_addr 0 l1.
Proof.
  rewrite fmap_app. intros ([_ Hf] & _ & _)%addrs_ok_app.
  induction l1 as [|[b g] l1 _] using rev_ind; [done|].
  rewrite last_addr_snoc. rewrite fmap_app in Hf. apply Forall_app in Hf as [_ Hf].
  apply Forall_cons_1 in Hf as [Hf _]. simpl in Hf. lia.
Qed.

(** Writing the same successor again changes nothing. *)
Lemma set_next_id h l1 a f rest :
  seg h 0 (l1 ++ (a, f) :: rest) 0 → l1 ≠ [] → set_next h (last_addr 0 l1) a = h.
Proof.
  induction l1 as [|[b g] l1 _] using rev_ind; [done|]. intros Hs _.
  rewrite <- app_assoc in Hs. simpl in Hs. apply seg_lookup in Hs. simpl in Hs.
  rewrite last_addr_snoc. unfold set_next, hdr. rewrite Hs. simpl. by apply insert_id.
Qed.

(** The assertion never fires: block addresses and alignments are multiples of
    the header's size. *)
Lemma heap_carve_passes h hb b p size :
  0 <= hb → p < 2 ^ 32 → hb + HBSIZE <= p → hb mod HBSIZE = 0 → p mod HBSIZE = 0 →
  heap_carve h hb b p size = Ret (carve_links h hb b p size).
Proof.
  unfold HBSIZE. intros Hh Hp Hle Hm Hpm. unfold heap_carve, HBSIZE.
  rewrite (u32_id (hb + 8)), (u32_id (p - _)) by (unfold is_u32; lia).
  destruct (negb _ && _) eqn:E; [|done]. exfalso.
  apply andb_prop in E as [E1 E2]. apply negb_true_iff in E1. bool_to_prop. dlia.
Qed.

(** The two halves of [carve_links] and the chains they produce. *)
Section Carve.
Context (h : heap) (l1 rest : block_list) (a n : Z) (fn : bool).
Hypothesis Hok : addrs_ok ((l1 ++ (a, true) :: (n, fn) :: rest).*1).

Let p0 : Z := last_addr 0 l1.

Lemma carve_front_seg g :
  seg h 0 (l1 ++ (a, true) :: (n, fn) :: rest) 0 → a < g < n →
  let h1 := set_free h a true in
  let h1 := if p0 =? 0 then h1 else set_next h1 p0 a in
  let h1 := hb_set_prev h1 a p0 in
  let h1 := set_next h1 a g in
  let h1 := hb_set_prev h1 g a in
  let h1 := set_next h1 g n in
  let h1 := hb_set_prev h1 n g in
  seg (set_free h1 g false) 0 (l1 ++ (a, true) :: (g, false) :: (n, fn) :: rest) 0.
Proof using Hok.
  intros Hs Hg. pose proof (seg_lookup _ _ _ _ _ _ _ Hs) as Ha. simpl in Ha.
  pose proof (seg_lookup_snd _ _ _ _ _ _ _ _ Hs) as Hn. simpl in Hn.
  assert (set_free h a true = h) as E1.
  { unfold set_free, hdr. rewrite Ha. simpl. by apply insert_id. }
  assert ((if p0 =? 0 then set_free h a true else set_next (set_free h a true) p0 a) = h) as E2.
  { rewrite E1. destruct (p0 =? 0) eqn:E; [done|]. apply Z.eqb_neq in E.
    eapply set_next_id; [exact Hs|]. by intros ->. }
  cbv zeta. rewrite E2. eapply seg_split; [exact Hs|exact Hok|exact Hg|..].
  - heap_simp. by rewrite Ha.
  - heap_simp.
  - heap_simp. by rewrite Hn.
  - intros x Hx. heap_simp.
Qed.

Lemma carve_tail_seg t :
  seg h 0 (l1 ++ (a, false) :: (n, fn) :: rest) 0 → a < t < n →
  let h1 := set_free h t true in
  let h1 := set_next h1 a t in
  let h1 := set_next h1 t n in
  let h1 := hb_set_prev h1 t a in
  seg (hb_set_prev h1 n t) 0 (l1 ++ (a, false) :: (t, true) :: (n, fn) :: rest) 0.
Proof using Hok.
  intros Hs Ht. pose proof (seg_lookup _ _ _ _ _ _ _ Hs) as Ha. simpl in Ha.
  pose proof (seg_lookup_snd _ _ _ _ _ _ _ _ Hs) as Hn. simpl in Hn.
  cbv zeta. eapply seg_split; [exact Hs| |exact Ht|..].
  - rewrite fmap_app in *. exact Hok.
  - heap_simp. by rewrite Ha.
  - heap_simp.
  - heap_simp. by rewrite Hn.
  - intros x Hx. heap_simp.
Qed.

Lemma carve_mark_seg :
  seg h 0 (l1 ++ (a, true) :: (n, fn) :: rest) 0 →
  seg (set_free h a false) 0 (l1 ++ (a, false) :: (n, fn) :: rest) 0.
Proof using Hok.
  intros Hs. pose proof (seg_lookup _ _ _ _ _ _ _ Hs) as Ha. simpl in Ha.
  eapply seg_mark; [exact Hs|exact Hok|..].
  - heap_simp. by rewrite Ha.
  - intros x Hx. heap_simp.
Qed.
End Carve.

Lemma carve_links_seg h l1 a n fn rest p size :
  seg h 0 (l1 ++ (a, true) :: (n, fn) :: rest) 0 →
  addrs_ok ((l1 ++ (a, true) :: (n, fn) :: rest).*1) →
  a + 8 <= p → p mod 8 = 0 → size mod 8 = 0 → 0 <= size → p + size <= n →
  seg (carve_links h a (mk_hb n (Z.shiftr (last_addr 0 l1) 1) true) p size) 0
    (l1 ++ carve a p size n ++ (n, fn) :: rest) 0 ∧
  addrs_ok ((l1 ++ carve a p size n ++ (n, fn) :: rest).*1).
Proof.
  intros Hs Hok Hap Hp Hsz Hsz0 Hpn.
  pose proof (last_addr_ok _ _ Hok) as [Hm Hl].
  assert (0 < a ∧ a mod 8 = 0 ∧ n < 2147483640 ∧ n mod 8 = 0) as (Ha & Ham & Hn & Hnm).
  { rewrite fmap_app in Hok. apply addrs_ok_app in Hok as (_ & [_ Hf] & _).
    apply Forall_cons_1 in Hf as [? Hf]. apply Forall_cons_1 in Hf as [? _]. simpl in *. tauto. }
  unfold carve_links, carve, HBSIZE. cbv zeta. cbn [hb_next].
  unfold hb_get_prev. cbn [hb_prev]. rewrite prev_roundtrip by done.
  rewrite !(u32_id (_ + _)), !(u32_id (p - _)) by (unfold is_u32; lia).
  replace (p - (a + 8) =? 0) with (p =? a + 8) by (apply Bool.eq_iff_eq_true; rewrite !Z.eqb_eq; lia).
  destruct (p =? a + 8) eqn:Ep; bool_to_prop.
  - subst p. replace (a + 8 - 8) with a by lia.
    pose proof (carve_mark_seg _ _ _ _ _ _ Hok Hs) as Hs'.
    pose proof (seg_lookup _ _ _ _ _ _ _ Hs') as Ha'. simpl in Ha'.
    replace (hb_next (hdr (set_free h a false) a)) with n by (unfold hdr; by rewrite Ha').
    rewrite (u32_id (n - _)) by (unfold is_u32; lia).
    destruct (8 <? n - (a + 8 + size)) eqn:Et; bool_to_prop; cbn [app].
    + split; [apply carve_tail_seg; [by rewrite fmap_app in *|done|lia]|].
      rewrite fmap_app in *. apply addrs_insert; simpl; [done|lia|dlia].
    + split; [done|]. by rewrite fmap_app in *.
  - assert (a < p - 8 < n) as Hg by dlia.
    pose proof (carve_front_seg _ _ _ _ _ _ Hok (p - 8) Hs Hg) as Hs'. cbv zeta in Hs'.
    match type of Hs' with seg ?x _ _ _ => set (h1 := x) in * end.
    assert (addrs_ok ((l1 ++ (a, true) :: (p - 8, true) :: (n, fn) :: rest).*1)) as Hok'.
    { rewrite fmap_app in *. apply addrs_insert; simpl; [done|lia|dlia]. }
    change (l1 ++ (a, true) :: ?l) with (l1 ++ [(a, true)] ++ l) in Hs', Hok'.
    rewrite app_assoc in Hs', Hok'.
    pose proof (seg_lookup _ _ _ _ _ _ _ Hs') as Ha'. simpl in Ha'.
    replace (hb_next (hdr h1 (p - 8))) with n by (unfold hdr; by rewrite Ha').
    rewrite (u32_id (n - _)) by (unfold is_u32; lia).
    rewrite <- !app_assoc, !(app_assoc l1 [_] (_ ++ _)).
    destruct (8 <? n - (p + size)) eqn:Et; bool_to_prop; cbn [app].
    + split; [apply (carve_tail_seg h1); [done|done|lia]|].
      rewrite fmap_app in *. apply addrs_insert; simpl; [done|lia|dlia].
    + split; [done|]. by rewrite fmap_app in *.
Qed.

(** *** First-fit allocation *)

(** What first fit means: the block taken is the first free one in which the
    aligned range fits, and the rest of the list is unchanged. *)
Definition fits (a nxt size k : Z) (f : bool) : Prop :=
  f = true ∧ align_up (a + 8) k + size <= nxt.

Fixpoint none_fits (l : block_list) (nxt size k : Z) : Prop :=
  match l with
  | [] => True
  | (a, f) :: l' => ¬ fits a (hd_addr l' nxt) size k f ∧ none_fits l' nxt size k
  end.

Lemma list_alloc_some l s size k p l' :
  list_alloc l s size k = Some (p, l') →
  ∃ l1 a l2, l = l1 ++ (a, true) :: l2 ∧ none_fits l1 a size k ∧
    p = align_up (a + 8) k ∧ p + size <= hd_addr l2 s ∧
    l' = l1 ++ carve a p size (hd_addr l2 s) ++ l2.
Proof.
  revert l'. induction l as [|[a f] l IH]; intros l'; cbn [list_alloc]; [done|].
  destruct (f && _)%bool eqn:E.
  - intros [= <- <-]. bool_to_prop. subst f. by exists [], a, l.
  - destruct (list_alloc l s size k) as [[q r]|] eqn:El; [|done]. intros [= -> <-].
    destruct (IH r eq_refl) as (l1 & b & l2 & -> & Hn & -> & Hf & ->).
    exists ((a, f) :: l1), b, l2. split_and!; try done. split; [|done].
    rewrite hd_addr_app in E. simpl in E. unfold fits. intros [-> Hle].
    bool_to_prop. destruct E as [|E]; [done|]. apply Z.leb_gt in E. lia.
Qed.

Lemma list_alloc_none l s size k :
  list_alloc l s size k = None ↔ none_fits l s size k.
Proof.
  induction l as [|[a f] l IH]; cbn [list_alloc none_fits]; [done|].
  unfold fits. destruct f; cbn [andb].
  - destruct (_ <=? _) eqn:E; bool_to_prop.
    + split; [done|]. intros [Hn _]. exfalso. by apply Hn.
    + rewrite fmap_None, IH. split; [|tauto]. intros. split; [lia|done].
  - rewrite fmap_None, IH. naive_solver.
Qed.

Lemma free_before_app_cons l1 x l2 : free_before (l1 ++ x :: l2) = free_before (x :: l2).
Proof. unfold free_before. by rewrite last_app_cons. Qed.

Lemma carve_no_adjacent l1 a p size nxt l2 :
  no_adjacent_free (l1 ++ (a, true) :: l2) →
  no_adjacent_free (l1 ++ carve a p size nxt ++ l2).
Proof.
  change ((a, true) :: l2) with ([(a, true)] ++ l2). rewrite app_assoc, no_adjacent_free_app.
  intros (H1 & H2 & H3). rewrite no_adjacent_free_app in H1. destruct H1 as (H1 & _ & H1').
  unfold carve. rewrite !no_adjacent_free_app.
  assert (free_before (l1 ++ [(a, true)]) = true) as Hb by by rewrite free_before_app_cons.
  rewrite Hb in H3. clear Hb. unfold free_before at 1 3.
  destruct (p =? a + 8), (8 <? nxt - (p + size)); simpl; naive_solver.
Qed.

Lemma carve_links_repr h l1 a l2 s p size :
  heap_repr h (l1 ++ (a, true) :: l2) s →
  a + 8 <= p → p mod 8 = 0 → size mod 8 = 0 → 0 <= size → p + size <= hd_addr l2 s →
  heap_repr (carve_links h a (mk_hb (hd_addr l2 s) (Z.shiftr (last_addr 0 l1) 1) true) p size)
    (l1 ++ carve a p size (hd_addr l2 s) ++ l2) s.
Proof.
  intros (Hs & Hok & Hna) Hap Hp Hsz Hsz0 Hpn.
  assert (∃ n fn rest, l2 ++ [(s, false)] = (n, fn) :: rest ∧ hd_addr l2 s = n) as (n & fn & rest & E & En).
  { destruct l2 as [|[n fn] l2]; simpl; eauto. }
  rewrite <- app_assoc in Hs, Hok. simpl in Hs, Hok. rewrite E in Hs, Hok. rewrite En in *.
  destruct (carve_links_seg _ _ _ _ _ _ p size Hs Hok) as [Hs' Hok']; try done.
  split_and!; [| |by apply carve_no_adjacent]; rewrite <- !app_assoc, E; done.
Qed.


Lemma align_up_mod8 a k : 3 <= k → align_up a k mod 8 = 0.
Proof.
  intros Hk. unfold align_up. replace k with (k - 3 + 3) at 3 by lia.
  rewrite Z.pow_add_r by lia. change (2 ^ 3) with 8. rewrite Z.mul_assoc. by apply Z.mod_mul.
Qed.

Lemma repr_next_le h l1 l2 s : heap_repr h (l1 ++ l2) s → hd_addr (tail l2) s <= s.
Proof.
  intros (_ & Hok & _). rewrite <- app_assoc, fmap_app in Hok.
  apply addrs_ok_app in Hok as (_ & [Hso _] & _).
  destruct l2 as [|[a f] [|[n fn] l2]]; simpl in *; [lia|lia|].
  apply StronglySorted_inv in Hso as [Hso _].
  apply StronglySorted_inv in Hso as [_ Hall]. rewrite Forall_forall in Hall.
  apply Z.lt_le_incl, Hall. rewrite fmap_app. apply elem_of_app. right. by left.
Qed.

(** *** Frames

    Allocation in one heap leaves the headers of every other heap alone. *)

Lemma set_next_ne h a v x : a ≠ x → set_next h a v !! x = h !! x.
Proof. intros. by apply lookup_insert_ne. Qed.
Lemma set_prev_ne h a v x : a ≠ x → hb_set_prev h a v !! x = h !! x.
Proof. intros. by apply lookup_insert_ne. Qed.
Lemma set_free_ne h a v x : a ≠ x → set_free h a v !! x = h !! x.
Proof. intros. by apply lookup_insert_ne. Qed.
Ltac heap_frame :=
  repeat first [rewrite set_next_ne by lia | rewrite set_prev_ne by lia | rewrite set_free_ne by lia];
  try done.

Lemma front_next X g n :
  n ≠ g → hb_next (hdr (set_free (hb_set_prev (set_next X g n) n g) g false) g) = n.
Proof. intros. heap_simp. Qed.

Lemma carve_links_frame h l1 a l2 s p size x :
  heap_repr h (l1 ++ (a, true) :: l2) s →
  a + 8 <= p → p mod 8 = 0 → 0 <= size → p + size <= hd_addr l2 s →
  x < hd_addr (l1 ++ (a, true) :: l2) s ∨ s < x →
  carve_links h a (mk_hb (hd_addr l2 s) (Z.shiftr (last_addr 0 l1) 1) true) p size !! x = h !! x.
Proof.
  intros Hr Hap Hp Hsz Hpn Hx.
  pose proof (repr_block _ _ _ _ _ _ Hr) as (Ha & Hpos & Ham & Hlt & Hnm).
  pose proof (repr_next_le _ _ _ _ Hr) as Hns. simpl in Hns.
  assert (a ≤ s ∧ hd_addr (l1 ++ (a, true) :: l2) s ≤ a ∧ last_addr 0 l1 mod 8 = 0 ∧
    (last_addr 0 l1 ≠ 0 → hd_addr (l1 ++ (a, true) :: l2) s <= last_addr 0 l1 <= a))
    as (Has & Hha & Hm & Hl).
  { destruct Hr as (_ & Hok & _). rewrite <- app_assoc in Hok.
    pose proof (last_addr_ok _ _ Hok) as [Hm _].
    rewrite fmap_app in Hok. apply addrs_ok_app in Hok as ([Hso _] & _ & Hlt').
    split; [lia|]. rewrite hd_addr_app. simpl.
    destruct l1 as [|[b g] l1]; simpl in *; [by split_and!; unfold last_addr; simpl; try lia|].
    rewrite last_addr_cons in *.
    assert (b < a) by (apply Hlt'; by left).
    split_and!; [lia|done|]. intros _. unfold last_addr.
    destruct (last l1) as [[c gc]|] eqn:E; [|lia].
    apply last_Some in E as [l' ->]. apply StronglySorted_inv in Hso as [_ Hall].
    rewrite Forall_forall in Hall.
    assert (c ∈ (l' ++ [(c, gc)]).*1) as Hc by (rewrite fmap_app; set_solver).
    specialize (Hall c Hc). simpl in Hall. assert (c < a); [|lia].
    apply Hlt'; [by right|by left]. }
  unfold carve_links, HBSIZE. cbv zeta. cbn [hb_next].
  unfold hb_get_prev. cbn [hb_prev]. rewrite prev_roundtrip by done.
  rewrite !(u32_id (_ + _)), !(u32_id (p - _)) by (unfold is_u32; lia).
  destruct (p - (a + 8) =? 0) eqn:E1; [|destruct (last_addr 0 l1 =? 0) eqn:E2]; bool_to_prop.
  - assert (hb_next (hdr (set_free h a false) a) = hd_addr l2 s) as ->.
    { heap_simp. by rewrite Ha. }
    destruct (_ <? _); heap_frame.
  - rewrite front_next by lia.
    destruct (_ <? _); heap_frame.
  - rewrite front_next by lia.
    specialize (Hl E2). destruct (_ <? _); heap_frame.
Qed.

Lemma alloc_loop_refines k size s h l1 l2 fuel :
  3 <= k <= 31 → 0 <= size → size mod 8 = 0 → s + 2 ^ k + size < 2147483648 →
  heap_repr h (l1 ++ l2) s → (length l2 < fuel)%nat →
  match list_alloc l2 s size k with
  | None => alloc_loop fuel h (hd_addr l2 s) size (2 ^ k) = Ret (None, h)
  | Some (p, l2') => ∃ h', alloc_loop fuel h (hd_addr l2 s) size (2 ^ k) = Ret (Some p, h') ∧
      heap_repr h' (l1 ++ l2') s ∧
      ∀ x, x < hd_addr (l1 ++ l2) s ∨ s < x → h' !! x = h !! x
  end.
Proof.
  intros Hk Hsz Hsz8 Hb. revert l1 fuel. induction l2 as [|[a f] l2 IH]; intros l1 fuel Hr Hf;
    (destruct fuel as [|fuel]; [simpl in Hf; lia|]).
  - cbn [hd_addr list_alloc alloc_loop]. rewrite app_nil_r in Hr. destruct Hr as (Hs & _ & _).
    apply seg_lookup in Hs. unfold get. rewrite Hs. done.
  - pose proof (repr_block _ _ _ _ _ _ Hr) as (Ha & Hpos & Ham & Hlt & Hnm).
    pose proof (repr_next_le _ _ _ _ Hr) as Hns. simpl in Hns.
    cbn [hd_addr list_alloc alloc_loop]. unfold get. rewrite Ha. cbn [mbind res_bind hb_next hb_free].
    rewrite (proj2 (Z.eqb_neq (hd_addr l2 s) 0)) by lia.
    specialize (IH (l1 ++ [(a, f)]) fuel). rewrite <- app_assoc in IH. specialize (IH Hr).
    simpl in Hf. specialize (IH ltac:(lia)).
    assert (match (λ '(p, r), (p, (a, f) :: r)) <$> list_alloc l2 s size k with
            | None => alloc_loop fuel h (hd_addr l2 s) size (2 ^ k) = Ret (None, h)
            | Some (p, l2') => ∃ h', alloc_loop fuel h (hd_addr l2 s) size (2 ^ k) = Ret (Some p, h') ∧
                heap_repr h' (l1 ++ l2') s ∧
                ∀ x, x < hd_addr (l1 ++ (a, f) :: l2) s ∨ s < x → h' !! x = h !! x end) as IH'.
    { destruct (list_alloc l2 s size k) as [[q r]|]; [|done].
      destruct IH as (h' & ? & Hr' & Hfr). exists h'. rewrite <- app_assoc in Hr'. done. }
    destruct f; cbn [negb andb]; [|exact IH'].
    pose proof (align_up_spec (a + 8) k ltac:(lia)) as [Hal _].
    unfold HBSIZE. rewrite (u32_id (a + 8)) by (unfold is_u32; lia).
    rewrite ALIGN_spec by lia. rewrite (u32_id (_ + size)) by (unfold is_u32; lia).
    rewrite !s32_id by lia. rewrite Z.ltb_antisym.
    destruct (_ <=? _) eqn:E; cbn [negb]; [|exact IH']. bool_to_prop.
    assert (align_up (a + 8) k mod 8 = 0) by (apply align_up_mod8; lia).
    rewrite heap_carve_passes by (unfold HBSIZE; try done; lia). cbn [mbind res_bind].
    eexists. split; [reflexivity|]. split; [apply carve_links_repr; try done; lia|].
    intros x Hx. apply carve_links_frame; try done; lia.
Qed.

(** *** Release *)

Lemma addrs_remove l1 a b rest :
  addrs_ok (l1 ++ a :: b :: rest) → addrs_ok (l1 ++ a :: rest).
Proof.
  intros (Hok1 & [Hs2 Hf2] & Hlt)%addrs_ok_app. apply addrs_ok_join; [done| |].
  - apply StronglySorted_inv in Hs2 as [Hs2 Ha]. apply Forall_cons_1 in Hf2 as [Hfa Hf2].
    apply StronglySorted_inv in Hs2 as [Hs2 _]. apply Forall_cons_1 in Hf2 as [_ Hf2].
    apply Forall_cons_1 in Ha as [_ Ha]. split; by constructor.
  - intros x y Hx Hy. apply Hlt; [done|]. set_solver.
Qed.

Lemma heap_merge_next_seg h l1 a f l2 s :
  seg h 0 (l1 ++ (a, f) :: l2 ++ [(s, false)]) 0 →
  addrs_ok ((l1 ++ (a, f) :: l2 ++ [(s, false)]).*1) →
  ∃ h', heap_merge_next h a = Ret h' ∧
    seg h' 0 (l1 ++ (a, f) :: absorb l2 ++ [(s, false)]) 0 ∧
    addrs_ok ((l1 ++ (a, f) :: absorb l2 ++ [(s, false)]).*1).
Proof.
  intros Hs Hok. pose proof (seg_lookup _ _ _ _ _ _ _ Hs) as Ha.
  unfold heap_merge_next, get. rewrite Ha. cbn [mbind res_bind hb_next].
  destruct l2 as [|[n [|]] l2]; cbn [absorb].
  - simpl in *. rewrite (seg_lookup_snd _ _ _ _ _ _ _ _ Hs). by exists h.
  - simpl in Hs, Hok. simpl hd_addr. rewrite (seg_lookup_snd _ _ _ _ _ _ _ _ Hs).
    cbn [mbind res_bind hb_free negb hb_next].
    assert (∃ m fm rest, l2 ++ [(s, false)] = (m, fm) :: rest) as (m & fm & rest & E).
    { destruct l2 as [|[m fm] l2]; simpl; eauto. }
    rewrite E in *. eexists. split; [reflexivity|].
    assert (addrs_ok ((l1 ++ (a, f) :: (m, fm) :: rest).*1)) as Hok'.
    { rewrite fmap_app in *. eapply (addrs_remove _ _ n). exact Hok. }
    split; [|done].
    assert (a < m) as Ham.
    { rewrite fmap_app in Hok'. apply addrs_ok_app in Hok' as (_ & [Hso _] & _).
      apply StronglySorted_inv in Hso as [_ Hlt]. by apply Forall_cons_1 in Hlt as [? _]. }
    pose proof Hs as Hm. change (l1 ++ (a, f) :: ?l) with (l1 ++ [(a, f)] ++ l) in Hm. rewrite app_assoc in Hm. apply seg_lookup_snd in Hm.
    simpl hd_addr.
    eapply seg_join; [exact Hs|exact Hok|..].
    + heap_simp. by rewrite Ha.
    + heap_simp. by rewrite Hm.
    + intros x Hx. heap_simp.
  - simpl in *. rewrite (seg_lookup_snd _ _ _ _ _ _ _ _ Hs). by exists h.
Qed.

Lemma release_no_adjacent l1 a l2 :
  no_adjacent_free (l1 ++ (a, false) :: l2) → no_adjacent_free (list_release l1 a l2).
Proof.
  unfold list_release. change ((a, false) :: l2) with ([(a, false)] ++ l2).
  rewrite !no_adjacent_free_app. intros (H1 & (_ & H2 & _) & _).
  assert (no_adjacent_free (absorb l2) ∧ ¬ ∃ b l', absorb l2 = (b, true) :: l') as [H3 H4].
  { destruct l2 as [|[b [|]] l2]; simpl; [naive_solver| |naive_solver].
    destruct l2 as [|[c [|]] l2]; simpl in *; naive_solver. }
  destruct (free_before l1) eqn:E; [naive_solver|].
  rewrite no_adjacent_free_app, E. simpl. split_and!; try done; try tauto. by intros [??].
Qed.

Lemma heap_free_refines h l1 a l2 s :
  heap_repr h (l1 ++ (a, false) :: l2) s →
  ∃ h', heap_free h (a + 8) = Ret h' ∧ heap_repr h' (list_release l1 a l2) s.
Proof.
  intros Hr. pose proof (repr_block _ _ _ _ _ _ Hr) as (Ha & Hpos & Ham & Hlt & _).
  destruct Hr as (Hs & Hok & Hna).
  rewrite <- app_assoc in Hs, Hok. cbn [app] in Hs, Hok.
  pose proof (last_addr_ok _ _ Hok) as [Hlm Hl0].
  unfold heap_free. rewrite (proj2 (Z.eqb_neq (a + 8) 0)) by lia.
  unfold HBSIZE. rewrite u32_id by (unfold is_u32; lia). replace (a + 8 - 8) with a by lia.
  rewrite (get_ok _ _ _ Ha). cbn [mbind res_bind hb_free].
  assert (seg (set_free h a true) 0 (l1 ++ (a, true) :: l2 ++ [(s, false)]) 0) as Hs1.
  { eapply seg_mark; [exact Hs|exact Hok|..].
    - rewrite hd_addr_app. simpl. heap_simp. by rewrite Ha.
    - intros x Hx. heap_simp. }
  assert (addrs_ok ((l1 ++ (a, true) :: l2 ++ [(s, false)]).*1)) as Hok1
    by by rewrite fmap_app in *.
  destruct (heap_merge_next_seg _ _ _ _ _ _ Hs1 Hok1) as (h2 & -> & Hs2 & Hok2).
  cbn [mbind res_bind]. pose proof (seg_lookup _ _ _ _ _ _ _ Hs2) as Ha2.
  rewrite (get_ok _ _ _ Ha2). cbn [mbind res_bind]. unfold hb_get_prev. cbn [hb_prev].
  rewrite prev_roundtrip by done.
  apply release_no_adjacent in Hna. unfold list_release in *. unfold heap_repr.
  destruct l1 as [|[b fb] l1 _] using rev_ind.
  { exists h2. cbn [free_before last app] in *. done. }
  rewrite last_addr_snoc in *. unfold free_before in *. rewrite last_snoc in *.
  rewrite <- !app_assoc in Hs2, Hok2. cbn [app] in Hs2, Hok2.
  assert (0 < b) as Hb.
  { rewrite fmap_app in Hok2. apply addrs_ok_app in Hok2 as (_ & [_ Hf] & _).
    apply Forall_cons_1 in Hf as [Hf _]. simpl in Hf. lia. }
  rewrite (proj2 (Z.eqb_neq b 0)) by lia. 
  rewrite (get_ok _ _ _ (seg_lookup _ _ _ _ _ _ _ Hs2)). cbn [mbind res_bind hb_free].
  destruct fb; rewrite <- !app_assoc; cbn [app].
  - destruct (heap_merge_next_seg h2 l1 b true ((a, true) :: absorb l2) s Hs2 Hok2)
      as (h3 & -> & Hs3 & Hok3).
    exists h3. rewrite <- app_assoc in Hna. done.
  - exists h2. rewrite <- !app_assoc in Hna. done.
Qed.

Lemma verify_loop_ok h s l1 l2 fuel :
  heap_repr h (l1 ++ l2) s → (length l2 < fuel)%nat →
  verify_loop fuel h (last_addr 0 l1) (hd_addr l2 s) = Ret tt.
Proof.
  revert l1 fuel. induction l2 as [|[a f] l2 IH]; intros l1 fuel Hr Hf;
    (destruct fuel as [|fuel]; [simpl in Hf; lia|]).
  - cbn [hd_addr verify_loop]. rewrite app_nil_r in Hr. destruct Hr as (Hs & Hok & _).
    pose proof (last_addr_ok _ _ Hok) as [Hlm _].
    apply seg_lookup in Hs. unfold get. rewrite Hs. cbn. unfold hb_get_prev. cbn [hb_prev].
    by rewrite prev_roundtrip, Z.eqb_refl.
  - pose proof (repr_block _ _ _ _ _ _ Hr) as (Ha & Hpos & Ham & Hlt & Hnm).
    assert (last_addr 0 l1 mod 8 = 0) as Hlm.
    { destruct Hr as (_ & Hok & _). rewrite <- app_assoc in Hok. by apply last_addr_ok in Hok as [? _]. }
    cbn [hd_addr verify_loop]. rewrite (get_ok _ _ _ Ha). cbn [mbind res_bind hb_next hb_free].
    rewrite (proj2 (Z.eqb_neq (hd_addr l2 s) 0)) by lia.
    specialize (IH (l1 ++ [(a, f)]) fuel). rewrite <- app_assoc in IH. specialize (IH Hr).
    rewrite last_addr_snoc in IH. simpl in Hf.
    assert (∃ nb, h !! hd_addr l2 s = Some nb ∧ (f && hb_free nb)%bool = false) as (nb & Hnb & Hff).
    { destruct Hr as (Hs & _ & Hna). rewrite <- app_assoc in Hs. simpl in Hs.
      destruct l2 as [|[n fn] l2]; simpl in Hs; apply seg_lookup_snd in Hs; eexists;
        (split; [exact Hs|]); simpl; [apply andb_false_r|].
      rewrite no_adjacent_free_app in Hna. simpl in Hna. destruct f, fn; naive_solver. }
    rewrite (get_ok _ _ _ Hnb). cbn [mbind res_bind]. rewrite Hff.
    unfold hb_get_prev. cbn [hb_prev]. rewrite prev_roundtrip, Z.eqb_refl by done.
    simpl negb. cbv iota. apply IH. lia.
Qed.

(** *** The allocator interface *)

(** The alignment [heap_alloc] works with, as a power of two. *)
Definition align_ok (align k : Z) : Prop :=
  (0 <= align < 8 ∧ k = 3) ∨ (3 <= k <= 31 ∧ align = 2 ^ k).
Definition round8 (size : Z) : Z := align_up size 3.

Lemma round8_spec size : size <= round8 size < size + 8 ∧ round8 size mod 8 = 0.
Proof. apply (align_up_spec size 3). lia. Qed.

Lemma heap_alloc_refines h bl s size align k fuel :
  heap_repr h bl s → align_ok align k → 0 <= size →
  s + 2 ^ k + round8 size < 2147483648 → (length bl < fuel)%nat →
  match list_alloc bl s (round8 size) k with
  | None => heap_alloc fuel h (hd_addr bl s) size align = Ret (None, h)
  | Some (p, bl') => ∃ h', heap_alloc fuel h (hd_addr bl s) size align = Ret (Some p, h') ∧
      heap_repr h' bl' s ∧ ∀ x, x < hd_addr bl s ∨ s < x → h' !! x = h !! x
  end.
Proof.
  intros Hr Hal Hsz Hb Hf. pose proof (round8_spec size) as [Hr1 Hr2].
  assert (0 < s) as Hs.
  { destruct Hr as (_ & [_ Hok] & _). rewrite fmap_app in Hok. apply Forall_app in Hok as [_ Hok].
    apply Forall_cons_1 in Hok as [Hok _]. simpl in Hok. lia. }
  assert (3 <= k <= 31) as Hk by (destruct Hal; lia).
  assert (0 < 2 ^ k) by (apply Z.pow_pos_nonneg; lia).
  assert (2 ^ 3 <= 2 ^ k) by (apply Z.pow_le_mono_r; lia). change (2 ^ 3) with 8 in *.
  unfold heap_alloc. assert (ALIGN size HBSIZE = round8 size) as ->.
  { unfold HBSIZE. change 8 with (2 ^ 3) at 1. apply ALIGN_spec; lia. }
  assert ((if align <? HBSIZE then HBSIZE else align) = 2 ^ k) as ->.
  { unfold HBSIZE. destruct Hal as [[Hal ->]|[_ ->]].
    - by rewrite (proj2 (Z.ltb_lt _ _)) by lia.
    - by rewrite (proj2 (Z.ltb_ge _ _)) by lia. }
  apply (alloc_loop_refines k (round8 size) s h [] bl fuel); try done; lia.
Qed.

(** C6: [heap_alloc] is first fit on the block list: either no free block can
    hold the aligned, rounded-up range and the heap is unchanged, or the first
    one that can is carved at the first aligned address behind its header, every
    other block keeps its place and state, the heap stays well formed and no
    header outside the heap is touched; the assertion on the alignment gap holds.
    The size is bounded: the end of the heap plus the alignment plus the rounded
    size lies below 2^31 (a larger request wraps around, see
    [malloc_huge_size]). *)
Theorem heap_alloc_first_fit h bl s size align k fuel :
  heap_repr h bl s → align_ok align k → 0 <= size →
  s + 2 ^ k + round8 size < 2147483648 → (length bl < fuel)%nat →
  (none_fits bl s (round8 size) k ∧
     heap_alloc fuel h (hd_addr bl s) size align = Ret (None, h)) ∨
  (∃ l1 a l2 h', let p := align_up (a + 8) k in
     bl = l1 ++ (a, true) :: l2 ∧ none_fits l1 a (round8 size) k ∧
     heap_alloc fuel h (hd_addr bl s) size align = Ret (Some p, h') ∧
     p mod 2 ^ k = 0 ∧ a + 8 <= p ∧ p + size <= hd_addr l2 s ∧
     heap_repr h' (l1 ++ carve a p (round8 size) (hd_addr l2 s) ++ l2) s ∧
     ∀ x, x < hd_addr bl s ∨ s < x → h' !! x = h !! x).
Proof.
  intros Hr Hal Hsz Hb Hf. pose proof (round8_spec size) as [Hr1 _].
  pose proof (heap_alloc_refines _ _ _ _ _ _ _ Hr Hal Hsz Hb Hf) as H.
  destruct (list_alloc bl s (round8 size) k) as [[p bl']|] eqn:E.
  - right. destruct H as (h' & He & Hr' & Hfr).
    apply list_alloc_some in E as (l1 & a & l2 & -> & Hn & -> & Hle & ->).
    exists l1, a, l2, h'. assert (0 <= k) as Hk by (destruct Hal; lia).
    pose proof (align_up_spec (a + 8) k Hk) as [Hb1 Hb2].
    split_and!; try done; lia.
  - left. split; [by apply list_alloc_none|done].
Qed.

Lemma list_release_alloc l1 a l2 p size nxt :
  no_adjacent_free (l1 ++ (a, true) :: l2) → p = a + 8 ∨ p ≠ a + 8 →
  ∃ b1 b2, l1 ++ carve a p size nxt ++ l2 = (l1 ++ b1) ++ (p - 8, false) :: b2 ++ l2 ∧
    list_release (l1 ++ b1) (p - 8) (b2 ++ l2) = l1 ++ (a, true) :: l2.
Proof.
  intros Hna Hp. change ((a, true) :: l2) with ([(a, true)] ++ l2) in Hna.
  rewrite !no_adjacent_free_app in Hna. destruct Hna as (_ & (_ & _ & Hn2) & Hn1).
  assert (absorb l2 = l2) as E2.
  { destruct l2 as [|[c [|]] l2]; [done| |done]. exfalso. apply Hn2. split; [done|]. eauto. }
  assert (free_before l1 = false) as E1.
  { destruct (free_before l1); [|done]. exfalso. apply Hn1. split; [done|]. simpl. eauto. }
  unfold carve, list_release.
  exists (if p =? a + 8 then [] else [(a, true)]),
         (if 8 <? nxt - (p + size) then [(p + size, true)] else []).
  split; [by rewrite <- !app_assoc|].
  assert (absorb ((if 8 <? nxt - (p + size) then [(p + size, true)] else []) ++ l2) = l2) as ->
    by by destruct (_ <? _).
  destruct (p =? a + 8) eqn:E; bool_to_prop.
  - rewrite app_nil_r, E1. subst p. replace (a + 8 - 8) with a by lia. by rewrite <- app_assoc.
  - rewrite free_before_app_cons. change (free_before [(a, true)]) with true. cbv iota. by rewrite <- app_assoc.
Qed.

(** Releasing what was just allocated gives back exactly the block list from
    before: whatever was split off in front of and behind the range is merged
    again. *)
Theorem heap_alloc_free_restores h bl s size align k fuel p h' :
  heap_repr h bl s → align_ok align k → 0 <= size →
  s + 2 ^ k + round8 size < 2147483648 → (length bl < fuel)%nat →
  heap_alloc fuel h (hd_addr bl s) size align = Ret (Some p, h') →
  ∃ h'', heap_free h' p = Ret h'' ∧ heap_repr h'' bl s ∧
    verify_heap fuel h'' (hd_addr bl s) = Ret tt.
Proof.
  intros Hr Hal Hsz Hb Hf He.
  pose proof (heap_alloc_refines _ _ _ _ _ _ _ Hr Hal Hsz Hb Hf) as H.
  destruct (list_alloc bl s (round8 size) k) as [[p' bl']|] eqn:E; [|congruence].
  destruct H as (h1 & He' & Hr' & _). rewrite He in He'. simplify_eq.
  apply list_alloc_some in E as (l1 & a & l2 & -> & Hn & Hp & Hle & ->).
  destruct (list_release_alloc l1 a l2 p' (round8 size) (hd_addr l2 s)) as (b1 & b2 & Eq & Er).
  { apply Hr. } { lia. }
  rewrite Eq in Hr'. destruct (heap_free_refines _ _ _ _ _ Hr') as (h2 & Hf2 & Hr2).
  replace (p' - 8 + 8) with p' in Hf2 by lia. rewrite Er in Hr2.
  exists h2. split_and!; try done. by apply (verify_loop_ok _ _ []).
Qed.

(** C7: [heap_free] of an allocated block releases it and absorbs the free
    neighbours on both sides, leaving a heap with no two adjacent free blocks on
    which the allocator's own consistency check passes; freeing a block that is
    free already stops at the assertion. *)
Theorem heap_free_coalesces h l1 a f l2 s fuel :
  heap_repr h (l1 ++ (a, f) :: l2) s → (length (l1 ++ (a, f) :: l2) < fuel)%nat →
  if f then heap_free h (a + 8) = Fault Assert
  else ∃ h', heap_free h (a + 8) = Ret h' ∧ heap_repr h' (list_release l1 a l2) s ∧
    verify_heap fuel h' (hd_addr (list_release l1 a l2) s) = Ret tt.
Proof.
  intros Hr Hf. destruct f.
  - pose proof (repr_block _ _ _ _ _ _ Hr) as (Ha & Hpos & Ham & Hlt & _).
    unfold heap_free, HBSIZE. rewrite (proj2 (Z.eqb_neq (a + 8) 0)) by lia.
    rewrite u32_id by (unfold is_u32; lia). replace (a + 8 - 8) with a by lia.
    by rewrite (get_ok _ _ _ Ha).
  - destruct (heap_free_refines _ _ _ _ _ Hr) as (h' & Hh & Hr'). exists h'. split_and!; try done.
    apply (verify_loop_ok _ _ []); [done|].
    assert (length (list_release l1 a l2) <= length (l1 ++ (a, false) :: l2))%nat; [|lia].
    unfold list_release. rewrite !length_app. assert (length (absorb l2) <= length l2)%nat
      by (destruct l2 as [|[? []]]; simpl; lia).
    destruct (free_before l1); rewrite ?length_app; simpl; lia.
Qed.

(** *** The system's heaps

    Each heap header is paired with the abstract contents of its region; the
    regions do not overlap and the list is in priority order. *)

Abbreviation region := (block_list * Z)%type.
Definition first_addr (r : region) : Z := hd_addr r.1 r.2.
Definition disj (x y : heap_header * region) : Prop :=
  x.2.2 < first_addr y.2 ∨ y.2.2 < first_addr x.2.
Definition region_ok (h : heap) (x : heap_header * region) : Prop :=
  hh_blocks x.1 = first_addr x.2 ∧ heap_repr h x.2.1 x.2.2.
Definition by_prio (x y : heap_header * region) : Prop := hh_prio x.1 <= hh_prio y.1.

Record heaps_repr (st : heap_state) (sys : list (heap_header * region)) : Prop := {
  hr_heaps : heaps st = sys.*1;
  hr_ok : Forall (region_ok (blocks st)) sys;
  hr_disj : ForallOrdPairs disj sys;
  hr_prio : StronglySorted by_prio sys;
}.

Lemma repr_addr_range h bl s x :
  heap_repr h bl s → x ∈ (bl ++ [(s, false)]).*1 → hd_addr bl s <= x <= s.
Proof.
  intros (_ & [Hso _] & _) Hx. split.
  - destruct bl as [|[a f] bl]; simpl in *.
    + apply list_elem_of_singleton in Hx. lia.
    + apply StronglySorted_inv in Hso as [_ Hall]. rewrite Forall_forall in Hall.
      apply elem_of_cons in Hx as [->|Hx]; [lia|]. specialize (Hall x Hx). lia.
  - induction bl as [|[a f] bl IH]; simpl in *.
    + apply list_elem_of_singleton in Hx. lia.
    + apply StronglySorted_inv in Hso as [Hso Hall]. rewrite Forall_forall in Hall.
      apply elem_of_cons in Hx as [->|Hx]; [|by apply IH].
      apply Z.lt_le_incl, Hall. rewrite fmap_app. set_solver.
Qed.

Lemma region_frame h h' x :
  (∀ a, first_addr x.2 <= a <= x.2.2 → h' !! a = h !! a) → region_ok h x → region_ok h' x.
Proof.
  intros Hfr [Hb Hr]. split; [done|]. pose proof Hr as (Hs & Hok & Hna). split_and!; try done.
  eapply seg_frame; [|exact Hs]. intros a Ha. apply Hfr. by apply (repr_addr_range h).
Qed.

(** [malloc0] on the abstract heaps: the first one of a fitting type that can
    satisfy the request. *)
Definition type_ok (hh : heap_header) (type : Z) : bool :=
  let heap_type := Z.land type 65535 in
  ((heap_type =? 0) || (Z.land type (hh_type hh) =? heap_type))%bool.

Fixpoint sys_alloc (sys : list (heap_header * region)) (size k type : Z)
    : option (Z * list (heap_header * region)) :=
  match sys with
  | [] => None
  | (hh, (bl, s)) :: rest =>
      match (if type_ok hh type then list_alloc bl s size k else None) with
      | Some (p, bl') => Some (p, (hh, (bl', s)) :: rest)
      | None => (λ '(p, r), (p, (hh, (bl, s)) :: r)) <$> sys_alloc rest size k type
      end
  end.

Lemma hd_addr_alloc bl s size k p bl' :
  list_alloc bl s size k = Some (p, bl') → hd_addr bl' s = hd_addr bl s.
Proof.
  intros (l1 & a & l2 & -> & _ & _ & _ & ->)%list_alloc_some.
  rewrite !hd_addr_app. simpl. unfold carve. f_equal.
  destruct (p =? a + 8) eqn:E; [|done]. simpl. bool_to_prop. lia.
Qed.

(** One allocation in some heap of the system: the headers and extents stay,
    the new contents are represented, nothing outside the regions changes. *)
Record sys_step (h h' : heap) (sys sys' : list (heap_header * region)) : Prop := {
  st_same : Forall2 (λ x y, x.1 = y.1 ∧ x.2.2 = y.2.2 ∧ first_addr x.2 = first_addr y.2) sys sys';
  st_ok : Forall (region_ok h') sys';
  st_frame : ∀ a, Forall (λ x, ¬ (first_addr x.2 <= a <= x.2.2)) sys → h' !! a = h !! a;
}.

Lemma sys_step_heaps h h' sys sys' : sys_step h h' sys sys' → sys'.*1 = sys.*1.
Proof.
  intros [H _ _]. induction H as [|x y l l' (E & _ & _) _ IH]; [done|].
  change (y.1 :: l'.*1 = x.1 :: l.*1). congruence.
Qed.

Lemma sys_step_disj h h' sys sys' :
  sys_step h h' sys sys' → ForallOrdPairs disj sys → ForallOrdPairs disj sys'.
Proof.
  intros [H _ _]. induction H as [|x y l l' (_ & E1 & E2) Hl IH]; [constructor|].
  inversion 1 as [|?? Hd1 Hd]; subst. constructor; [|by apply IH]. clear -E1 E2 Hl Hd1.
  induction Hl as [|u v l l' (_ & F1 & F2) _ IH]; [constructor|].
  apply Forall_cons_1 in Hd1 as [Hx Hd1]. constructor; [|by apply IH].
  unfold disj in *. rewrite <- E1, <- E2, <- F1, <- F2. done.
Qed.

Lemma sys_step_tail h h' x sys sys' :
  sys_step h h' sys sys' → Forall (disj x) sys → region_ok h x →
  sys_step h h' (x :: sys) (x :: sys').
Proof.
  intros [H1 H2 H3] Hd Hx. split.
  - by constructor.
  - constructor; [|done]. apply (region_frame h); [|done]. intros a Ha. apply H3.
    eapply Forall_impl; [exact Hd|]. intros y [Hy|Hy]; lia.
  - intros a Ha. apply H3. by apply Forall_cons_1 in Ha as [_ ?].
Qed.

Lemma sys_step_head h h' hh bl bl' s sys :
  Forall (disj (hh, (bl, s))) sys → Forall (region_ok h) sys →
  hd_addr bl' s = hd_addr bl s → region_ok h' (hh, (bl', s)) →
  (∀ x, x < hd_addr bl s ∨ s < x → h' !! x = h !! x) →
  sys_step h h' ((hh, (bl, s)) :: sys) ((hh, (bl', s)) :: sys).
Proof.
  intros Hd Hok Hhd Hr Hfr. split.
  - constructor; [unfold first_addr; simpl; by rewrite Hhd|].
    apply Forall2_same_length_lookup. split; [done|]. by intros i x y -> [= ->].
  - constructor; [done|].
    rewrite Forall_forall in *. intros x Hx. apply (region_frame h); [|by apply Hok].
    intros a Ha'. apply Hfr. specialize (Hd x Hx). unfold disj, first_addr in *. simpl in *. lia.
  - intros a Ha'. apply Forall_cons_1 in Ha' as [Ha' _]. apply Hfr. unfold first_addr in Ha'.
    simpl in Ha'. lia.
Qed.

Lemma malloc_loop_refines h size align type k fuel sys :
  align_ok align k → 0 <= size →
  Forall (λ x, x.2.2 + 2 ^ k + round8 size < 2147483648 ∧ (length x.2.1 < fuel)%nat) sys →
  Forall (region_ok h) sys → ForallOrdPairs disj sys →
  match sys_alloc sys (round8 size) k type with
  | None => malloc_loop fuel sys.*1 h size align type = Ret (None, h)
  | Some (p, sys') => ∃ h', malloc_loop fuel sys.*1 h size align type = Ret (Some p, h') ∧
      sys_step h h' sys sys'
  end.
Proof.
  intros Hal Hsz. induction sys as [|[hh [bl s]] sys IH]; intros Hb Hok Hd; [done|].
  apply Forall_cons_1 in Hb as [[Hb Hf] Hbs]. apply Forall_cons_1 in Hok as [Ho Hoks].
  inversion Hd as [|?? Hd1 Hds]; subst. specialize (IH Hbs Hoks Hds).
  pose proof Ho as [Ho1 Ho2]. simpl in Hb, Hf, Ho1, Ho2.
  pose proof (heap_alloc_refines _ _ _ _ _ _ fuel Ho2 Hal Hsz Hb Hf) as Ha.
  cbn [sys_alloc fmap list_fmap malloc_loop fst]. rewrite Ho1.
  change (first_addr (bl, s)) with (hd_addr bl s).
  assert (0 < hd_addr bl s) as Hpos.
  { destruct Ho2 as (_ & [_ Hpos] & _). destruct bl as [|[a f] bl]; simpl in Hpos;
      apply Forall_cons_1 in Hpos as [Hpos _]; simpl; lia. }
  rewrite (proj2 (Z.eqb_neq (hd_addr bl s) 0)) by lia.
  rewrite <- negb_orb. fold (type_ok hh type).
  assert (match (λ '(p, r), (p, (hh, (bl, s)) :: r)) <$> sys_alloc sys (round8 size) k type with
    | None => malloc_loop fuel sys.*1 h size align type = Ret (None, h)
    | Some (p, sys') => ∃ h', malloc_loop fuel sys.*1 h size align type = Ret (Some p, h') ∧
        sys_step h h' ((hh, (bl, s)) :: sys) sys'
    end) as IH'.
  { destruct (sys_alloc sys _ k type) as [[p r]|]; cbn [fmap option_fmap option_map]; [|done].
    destruct IH as (h' & He & H1). exists h'. split; [done|]. by apply sys_step_tail. }
  destruct (type_ok hh type); cbn [negb]; [|exact IH'].
  destruct (list_alloc bl s (round8 size) k) as [[p bl']|] eqn:El.
  - destruct Ha as (h' & -> & Hr' & Hfr). cbn [mbind res_bind]. exists h'. split; [done|].
    pose proof (hd_addr_alloc _ _ _ _ _ _ El) as Hhd. apply sys_step_head; try done.
    split; [|done]. unfold first_addr in *. simpl in *. lia.
  - rewrite Ha. cbn [mbind res_bind]. exact IH'.
Qed.

(** [malloc0] (and with it [malloc], [calloc], [memalign] and [xalloc])
    takes the block from the first heap in priority order whose type matches and
    that can hold the request, leaves all heaps well formed, asks for clearing
    exactly when [MEM_CLEAR] is given, and when no heap can serve the request
    returns NULL under [MEM_MAY_FAIL] and panics otherwise. *)
Theorem malloc0_correct st sys size align type k fuel :
  heaps_repr st sys → align_ok align k → 0 <= size →
  Forall (λ x, x.2.2 + 2 ^ k + round8 size < 2147483648 ∧ (length x.2.1 < fuel)%nat) sys →
  match sys_alloc sys (round8 size) k type with
  | Some (p, sys') => ∃ st', heaps_repr st' sys' ∧
      malloc0 fuel st size align type =
        Ret (Some p, if Z.land type MEM_CLEAR =? 0 then None else Some (p, size), st')
  | None => malloc0 fuel st size align type =
      if Z.land type MEM_MAY_FAIL =? 0 then Fault Panic else Ret (None, None, st)
  end.
Proof.
  intros [Hh Hok Hd Hp] Hal Hsz Hb.
  pose proof (malloc_loop_refines (blocks st) size align type k fuel sys Hal Hsz Hb Hok Hd) as H.
  unfold malloc0. rewrite Hh. destruct (sys_alloc _ _ _ _) as [[p sys']|].
  - destruct H as (h' & -> & Hstep). cbn [mbind res_bind].
    exists (mk_heaps sys.*1 h'). split; [|done].
    pose proof (sys_step_heaps _ _ _ _ Hstep) as E. split; cbn [heaps blocks].
    + done.
    + apply Hstep.
    + by eapply sys_step_disj.
    + clear -E Hp. revert sys' E. induction Hp as [|x l Hl IH Hx]; intros [|y l'] E; try done; [constructor|].
      change (y.1 :: l'.*1 = x.1 :: l.*1) in E. injection E as E1 E2. constructor; [by apply IH|].
      clear -Hx E1 E2. revert l' E2. induction Hx as [|z l Hz _ IH]; intros [|w l'] E2; try done.
      change (w.1 :: l'.*1 = z.1 :: l.*1) in E2. injection E2 as E3 E4. constructor; [|by apply IH].
      unfold by_prio in *. by rewrite E1, E3.
  - rewrite H. cbn [mbind res_bind]. destruct (_ =? 0); [done|]. destruct st. simpl in *. by rewrite <- Hh.
Qed.

(** The new heap of [heap_add_mem], as a block list: one free block. *)
Lemma heap_add_mem_repr h hb s :
  0 < hb → hb mod 8 = 0 → hb < s → s mod 8 = 0 → s < 2147483640 →
  heap_repr (set_free (hb_set_prev (set_next
      (set_free (hb_set_prev (set_next h hb s) hb 0) hb true) s 0) s hb) s false) [(hb, true)] s.
Proof.
  intros. split_and!; simpl.
  - split_and!; [heap_simp|heap_simp|done].
  - split; repeat constructor; done || lia.
  - done.
Qed.

Lemma disj_perm sys sys' :
  sys ≡ₚ sys' → ForallOrdPairs disj sys → ForallOrdPairs disj sys'.
Proof.
  induction 1 as [|x l l' HP IH|x y l|]; intros Hd.
  - done.
  - inversion Hd; subst. constructor; [by rewrite <- HP|by apply IH].
  - inversion Hd as [|?? H1 H2]; subst. inversion H2 as [|?? H3 H4]; subst.
    apply Forall_cons_1 in H1 as [H1 H1']. constructor; [constructor; [|done]|by constructor].
    unfold disj in *. lia.
  - eauto.
Qed.

(** Registering a memory range makes it one free block ended by the
    sentinel, files the heap in priority order and leaves the heaps already
    known well formed. *)
Theorem heap_add_mem_correct st sys start end_ type prio :
  heaps_repr st sys → 0 <= start → round8 (start + 16) < end_ - 8 → end_ mod 8 = 0 →
  end_ <= 2147483640 →
  Forall (λ y, y.2.2 < start ∨ end_ <= first_addr y.2) sys →
  let hb := round8 (start + 16) in
  heaps_repr (heap_add_mem st start end_ type prio)
    (list_insert_sorted (λ x y, heap_cmp x.1 y.1)
       (mk_hh hb type prio, ([(hb, true)], end_ - 8)) sys).
Proof.
  intros [Hh Hok Hd Hp] Hs Hlt Hem Hel Hdis hb. pose proof (round8_spec (start + 16)) as [Hr1 Hr2].
  assert (ALIGN (u32 (start + 16)) HBSIZE = hb) as E1.
  { rewrite u32_id by (unfold is_u32; lia). apply (ALIGN_spec _ 3); simpl; lia. }
  assert (ALIGN (u32 (end_ - HBSIZE)) HBSIZE = end_ - 8) as E2.
  { unfold HBSIZE. rewrite u32_id by (unfold is_u32; lia).
    rewrite (ALIGN_spec _ 3) by (simpl; lia). unfold align_up. change (2 ^ 3) with 8. dlia. }
  unfold heap_add_mem. rewrite E1, E2. fold hb in Hr1, Hr2, Hlt.
  pose proof (heap_add_mem_repr (blocks st) hb (end_ - 8) ltac:(lia) Hr2 ltac:(lia) ltac:(dlia) ltac:(lia)) as Hr.
  set (h' := set_free _ _ false) in *. split; cbn [heaps blocks].
  - rewrite Hh. symmetry. apply (list_insert_sorted_fmap fst heap_cmp).
  - rewrite list_insert_sorted_perm. constructor; [done|].
    rewrite Forall_forall in *. intros y Hy. apply (region_frame (blocks st)); [|by apply Hok].
    intros a Ha. specialize (Hdis y Hy). unfold h'. heap_frame.
  - eapply disj_perm; [symmetry; apply list_insert_sorted_perm|]. constructor; [|done].
    eapply Forall_impl; [exact Hdis|]. intros y Hy. unfold disj, first_addr in *. simpl. lia.
  - apply (list_insert_sorted_sorted (λ x y, heap_cmp x.1 y.1)); [..|done].
    + intros x y z. unfold by_prio. lia.
    + intros x y. unfold heap_cmp, by_prio, b2z. case_match; bool_to_prop; lia.
    + intros x y. unfold heap_cmp, by_prio, b2z. case_match; bool_to_prop; lia.
Qed.

(** A request near the top of the address space is not refused: on a 64 kB
    heap at 0x20000000, [malloc(0x60000000)] returns a pointer and writes the
    header of the rest of the block outside the heap, because the end address is
    compared as a signed word; and [malloc(0xfffffffd)] returns a block of no
    bytes, because rounding the size up to a multiple of 8 wraps to 0. *)
Theorem malloc_huge_size :
  let st := heap_add_mem (mk_heaps [] ∅) 536870912 536936448 0 0 in
  (∃ st', malloc 4 st 1610612736 = Ret (Some 536870936, None, st') ∧
     blocks st' !! 2147483672 = Some (mk_hb 536936440 268435464 true)) ∧
  (∃ st', malloc 4 st 4294967293 = Ret (Some 536870936, None, st') ∧
     blocks st' !! 536870936 = Some (mk_hb 536936440 268435464 true)).
Proof. cbv zeta. split; eexists; split; vm_compute; reflexivity. Qed.

(** ** Concrete heaps *)

(** A 4 kB heap before and after one allocation. *)
Definition example_state : heap_state := heap_add_mem (mk_heaps [] ∅) 4096 8192 0 0.
Definition example_used : heap :=
  match malloc 4 example_state 100 with Ret (_, _, st) => blocks st | Fault _ => ∅ end.

Lemma example_repr : heap_repr (blocks example_state) [(4112, true)] 8184.
Proof.
  split_and!; [split_and!; [vm_compute; reflexivity..|done]| |done].
  split; repeat constructor; done.
Qed.

Lemma example_used_repr : heap_repr example_used [(4112, false); (4224, true)] 8184.
Proof.
  split_and!; [split_and!; [vm_compute; reflexivity..|done]| |].
  - split; repeat constructor; done.
  - split; [by intros []|done].
Qed.

Lemma example_heaps : heaps_repr example_state [(mk_hh 4112 0 0, ([(4112, true)], 8184))].
Proof.
  split.
  - reflexivity.
  - constructor; [|constructor]. split; [reflexivity|apply example_repr].
  - repeat constructor.
  - repeat constructor.
Qed.

Lemma heap_alloc_first_fit_witness :
  none_fits [(4112, true)] 8184 104 5 ∧
    heap_alloc 2 (blocks example_state) 4112 100 32 = Ret (None, blocks example_state) ∨
  (∃ l1 a l2 h', let p := align_up (a + 8) 5 in
     [(4112, true)] = l1 ++ (a, true) :: l2 ∧ none_fits l1 a 104 5 ∧
     heap_alloc 2 (blocks example_state) 4112 100 32 = Ret (Some p, h') ∧
     p mod 2 ^ 5 = 0 ∧ a + 8 <= p ∧ p + 100 <= hd_addr l2 8184 ∧
     heap_repr h' (l1 ++ carve a p 104 (hd_addr l2 8184) ++ l2) 8184 ∧
     ∀ x, x < 4112 ∨ 8184 < x → h' !! x = blocks example_state !! x).
Proof.
  apply (heap_alloc_first_fit (blocks example_state) [(4112, true)] 8184 100 32 5 2 example_repr);
    [right; by split|lia|vm_compute; reflexivity|simpl; lia].
Defined.

Lemma heap_alloc_free_restores_witness :
  ∃ h'', heap_free example_used 4120 = Ret h'' ∧ heap_repr h'' [(4112, true)] 8184 ∧
    verify_heap 4 h'' 4112 = Ret tt.
Proof.
  apply (heap_alloc_free_restores (blocks example_state) [(4112, true)] 8184 100 0 3 4 4120
    example_used example_repr);
    [left; lia|lia|vm_compute; reflexivity|simpl; lia|vm_compute; reflexivity].
Defined.

Lemma heap_free_coalesces_witness :
  ∃ h', heap_free example_used 4120 = Ret h' ∧ heap_repr h' [(4112, true)] 8184 ∧
    verify_heap 3 h' 4112 = Ret tt.
Proof.
  apply (heap_free_coalesces example_used [] 4112 false [(4224, true)] 8184 3 example_used_repr).
  simpl. lia.
Defined.

Lemma malloc0_correct_witness :
  ∃ st', heaps_repr st' [(mk_hh 4112 0 0, ([(4112, false); (4224, true)], 8184))] ∧
    malloc0 2 example_state 100 0 MEM_CLEAR = Ret (Some 4120, Some (4120, 100), st').
Proof.
  apply (malloc0_correct example_state [(mk_hh 4112 0 0, ([(4112, true)], 8184))] 100 0 MEM_CLEAR 3 2
    example_heaps); [left; lia|lia|].
  constructor; [|constructor]. split; [vm_compute; reflexivity|simpl; lia].
Defined.

Lemma heap_add_mem_correct_witness :
  heaps_repr (heap_add_mem example_state 16384 20480 2 5)
    [(mk_hh 4112 0 0, ([(4112, true)], 8184)); (mk_hh 16400 2 5, ([(16400, true)], 20472))].
Proof.
  apply (heap_add_mem_correct example_state [(mk_hh 4112 0 0, ([(4112, true)], 8184))] 16384 20480 2 5
    example_heaps); [lia|vm_compute; reflexivity|reflexivity|lia|].
  constructor; [|constructor]. left. vm_compute. reflexivity.
Defined.
