(* ===== verification/Pmem.v ===== *)
(** * Pmem: the map of physical memory

    [src/util/pmem.c]: an array of segments, sorted by address, each with a type; a range
    is given a type by cutting and merging segments, memory is allocated by looking for
    a segment of a type.  And [tegra_init_pmem] of [t234ccplex.c], which makes the map of a
    Tegra board from the parameters of its boot loader.

    [chain] says that the segments follow one another without a gap; on that the map is a
    function [type_at] from addresses to types, and setting a range changes exactly it. *)

From Stdlib Require Import ZArith Lia.
From stdpp Require Import base list numbers sets.
From S2P Require Import Prelude.

Open Scope Z_scope.

Record pmem_segment_t := mk_seg { paddr : Z; size : Z; type : Z }.
#[export] Instance pmem_segment_eq_dec : EqDecision pmem_segment_t.
Proof. solve_decision. Defined.

(** The memory of the array is all of [segments], its length the capacity. *)
Record pmem_t := mk_pmem { segments : list pmem_segment_t; count : Z; minimum_alignment : Z }.
Definition capacity (p : pmem_t) : Z := Z.of_nat (length (segments p)).
Definition set_segments v p := mk_pmem v (count p) (minimum_alignment p).
Definition set_count v p := mk_pmem (segments p) v (minimum_alignment p).

Definition set_paddr v s := mk_seg v (size s) (type s).
Definition set_size v s := mk_seg (paddr s) v (type s).
Definition set_type v s := mk_seg (paddr s) (size s) v.

Definition not64 (z : Z) : Z := Z.lxor z 0xFFFFFFFFFFFFFFFF.
Definition ALIGN (x y : Z) : Z := Z.land (u64 (x + y - 1)) (not64 (u64 (y - 1))).

Definition seg_at (i : Z) (p : pmem_t) : res pmem_segment_t := arr_get (segments p) i.
Definition update (i : Z) (f : pmem_segment_t → pmem_segment_t) (p : pmem_t) : res pmem_t :=
  s ← seg_at i p; l ← arr_put (segments p) i (f s); Ret (set_segments l p).
(** [memmove(segments + dst, segments + src, n * sizeof(pmem_segment_t))] *)
Definition move (dst src n : Z) (p : pmem_t) : res pmem_t :=
  l ← arr_move (segments p) dst src n; Ret (set_segments l p).

Section Pmem.
(** The contents of fresh memory for so many segments; [malloc] panics without memory. *)
Context (malloc : Z → option (list pmem_segment_t)).

Definition pmem_resize (req : Z) (p : pmem_t) : res pmem_t :=
  if req <=? capacity p then Ret p
  else
    match malloc (Z.max req (16 + capacity p * 2)) with
    | None => Fault Panic
    | Some fresh => Ret (set_segments (segments p ++ drop (length (segments p)) fresh) p)
    end.

Definition pmem_insert (pos : Z) (p : pmem_t) : res pmem_t :=
  p ← pmem_resize (count p + 1) p;
  p ← (if count p - pos =? 0 then Ret p else move (pos + 1) pos (count p - pos) p);
  Ret (set_count (count p + 1) p).

Definition pmem_erase (pos : Z) (p : pmem_t) : res pmem_t :=
  p ← (if pos =? count p - 1 then Ret p else move pos (pos + 1) (count p - pos) p);
  Ret (set_count (count p - 1) p).

Definition merge_prev (pos : Z) (p : pmem_t) : res (Z * pmem_t) :=
  if 0 <? pos then
    a ← seg_at pos p; b ← seg_at (pos - 1) p;
    if type a =? type b then
      p ← update (pos - 1) (λ s, set_size (u64 (size s + size a)) s) p;
      p ← pmem_erase pos p;
      Ret (pos - 1, p)
    else Ret (pos, p)
  else Ret (pos, p).

Definition merge_next (pos : Z) (p : pmem_t) : res pmem_t :=
  if pos <? count p - 1 then
    a ← seg_at pos p; b ← seg_at (pos + 1) p;
    if type a =? type b then
      p ← update pos (λ s, set_size (u64 (size s + size b)) s) p;
      pmem_erase (pos + 1) p
    else Ret p
  else Ret p.

Definition pmem_merge (pos : Z) (p : pmem_t) : res pmem_t :=
  '(pos, p) ← merge_prev pos p; merge_next pos p.

(** Where the new segment goes: before the first with a higher address. *)
Fixpoint add_loop (n : nat) (i : Z) (pa : Z) (p : pmem_t) : res Z :=
  match n with
  | O => Ret (count p)
  | S n => s ← seg_at i p; if pa <? paddr s then Ret i else add_loop n (i + 1) pa p
  end.

Definition pmem_add (pa sz ty : Z) (p : pmem_t) : res pmem_t :=
  let pa := ALIGN pa (minimum_alignment p) in
  let sz := ALIGN sz (minimum_alignment p) in
  pos ← add_loop (Z.to_nat (count p)) 0 pa p;
  p ← pmem_insert pos p;
  p ← update pos (λ _, mk_seg pa sz ty) p;
  pmem_merge pos p.

(** The range lies in segment [i]. *)
Definition set_in (i pa sz ty : Z) (p : pmem_t) : res (Z * pmem_t) :=
  s ← seg_at i p;
  if ((pa =? paddr s) && (sz =? size s))%bool then
    if type s =? ty then Ret (0, p)
    else p ← update i (set_type ty) p; p ← pmem_merge i p; Ret (0, p)
  else if pa =? paddr s then
    p ← update i (λ s, set_paddr (u64 (paddr s + sz)) s) p;
    p ← update i (λ s, set_size (u64 (size s - sz)) s) p;
    p ← pmem_insert i p;
    p ← update i (λ _, mk_seg pa sz ty) p;
    p ← pmem_merge i p; Ret (0, p)
  else if u64 (pa + sz) =? u64 (paddr s + size s) then
    p ← update i (λ s, set_size (u64 (size s - sz)) s) p;
    p ← pmem_insert (i + 1) p;
    p ← update (i + 1) (λ _, mk_seg pa sz ty) p;
    p ← pmem_merge (i + 1) p; Ret (0, p)
  else
    p ← pmem_insert (i + 1) p;
    p ← update (i + 1) (λ _, mk_seg pa sz ty) p;
    p ← pmem_insert (i + 2) p;
    s ← seg_at i p;
    p ← update (i + 2) (λ _, mk_seg (u64 (pa + sz)) (u64 (size s - sz - (pa - paddr s))) (type s)) p;
    p ← update i (λ s, set_size (u64 (pa - paddr s)) s) p;
    p ← pmem_merge (i + 1) p; Ret (0, p).

(** [split] is what is done, given the end of the segment the range starts in, when
    [allow_split] is set. *)
Fixpoint set_loop (n : nat) (i pa sz ty : Z) (split : option (Z → pmem_t → res (Z * pmem_t))) (p : pmem_t)
    : res (Z * pmem_t) :=
  match n with
  | O => Ret (-1, p)
  | S n =>
      s ← seg_at i p;
      if ((paddr s <=? pa) && (u64 (pa + sz) <=? u64 (paddr s + size s)))%bool then set_in i pa sz ty p
      else
        match split with
        | Some f =>
            if ((paddr s <=? pa) && (pa <? u64 (paddr s + size s)))%bool then f (u64 (paddr s + size s)) p
            else set_loop n (i + 1) pa sz ty split p
        | None => set_loop n (i + 1) pa sz ty split p
        end
  end.

Definition pmem_set_whole (pa sz ty : Z) (p : pmem_t) : res (Z * pmem_t) :=
  set_loop (Z.to_nat (count p)) 0 (ALIGN pa (minimum_alignment p)) (ALIGN sz (minimum_alignment p)) ty None p.

Definition pmem_set (pa sz ty : Z) (allow_split : bool) (p : pmem_t) : res (Z * pmem_t) :=
  if allow_split then
    let pa := ALIGN pa (minimum_alignment p) in
    let sz := ALIGN sz (minimum_alignment p) in
    set_loop (Z.to_nat (count p)) 0 pa sz ty
      (Some (λ split p,
        '(r, p) ← pmem_set_whole pa (u64 (split - pa)) ty p;
        if negb (r =? 0) then Ret (-1, p)
        else pmem_set_whole split (u64 (sz - (split - pa))) ty p)) p
  else pmem_set_whole pa sz ty p.

(** [for(ssize_t i = n - 1; i >= 0; i--)] *)
Fixpoint alloc_loop (n : nat) (sz from_type as_type align : Z) (p : pmem_t) : res (Z * pmem_t) :=
  match n with
  | O => Ret (0, p)
  | S n =>
      s ← seg_at (Z.of_nat n) p;
      if negb (type s =? from_type) then alloc_loop n sz from_type as_type align p
      else if size s <? sz then alloc_loop n sz from_type as_type align p
      else
        let pa := Z.land (u64 (paddr s + (size s - sz))) (not64 align) in
        '(r, p) ← pmem_set pa sz as_type false p;
        if negb (r =? 0) then alloc_loop n sz from_type as_type align p else Ret (pa, p)
  end.

Definition pmem_alloc (sz from_type as_type align : Z) (p : pmem_t) : res (Z * pmem_t) :=
  if ((count p =? 0) || (align =? 0))%bool then Ret (0, p)
  else alloc_loop (Z.to_nat (count p)) sz from_type as_type align p.

(** ** The map of a Tegra board *)

Definition T234_PMEM_CONVENTIONAL : Z := 1.
Definition T234_PMEM_CACHE_COHERENT : Z := 2.
Definition T234_PMEM_BOOT_SERVICES : Z := 3.
Definition T234_PMEM_UNUSABLE : Z := 5.
Definition T234_PMEM_INACCESSIBLE : Z := 7.

Definition CARVEOUT_UEFI : Z := 47.
Definition CARVEOUT_RCM_BLOB : Z := 46.
Definition CARVEOUT_VM_ENCRYPT : Z := 38.
Definition CARVEOUT_CCPLEX_INTERWORLD_SHMEM : Z := 28.

(** What the boot loader says: the memory, and an area for each number of [carveout_info]. *)
Record carveout := mk_carveout { cv_base : Z; cv_size : Z }.
Record cpubl_params := mk_cbp { sdram_base : Z; sdram_size : Z; carveout_info : list carveout }.

Definition carveout_type (i : Z) : Z :=
  if ((i =? CARVEOUT_UEFI) || (i =? CARVEOUT_RCM_BLOB))%bool then T234_PMEM_BOOT_SERVICES
  else if i =? CARVEOUT_CCPLEX_INTERWORLD_SHMEM then T234_PMEM_UNUSABLE
  else T234_PMEM_INACCESSIBLE.

Fixpoint carveout_loop (i : Z) (l : list carveout) (p : pmem_t) : res pmem_t :=
  match l with
  | [] => Ret p
  | c :: l =>
      p ← (if ((cv_size c =? 0) || (i =? CARVEOUT_VM_ENCRYPT))%bool then Ret p
           else '(_, p) ← pmem_set (cv_base c) (cv_size c) (carveout_type i) true p; Ret p);
      carveout_loop (i + 1) l p
  end.

Definition tegra_init_pmem (cbp : cpubl_params) : res pmem_t :=
  let p := mk_pmem [] 0 4096 in
  p ← pmem_add (sdram_base cbp) (sdram_size cbp) T234_PMEM_CONVENTIONAL p;
  '(_, p) ← pmem_set (sdram_base cbp) (1024 * 1024 * 1024) T234_PMEM_CACHE_COHERENT false p;
  carveout_loop 0 (carveout_info cbp) p.

End Pmem.

(** ** Alignment *)

Lemma land_not64 y k : 0 <= y < 2 ^ 64 → 0 <= k → Z.land y (not64 (2 ^ k - 1)) = y / 2 ^ k * 2 ^ k.
Proof.
  intros Hy Hk. rewrite <- (Z.shiftr_div_pow2 y k), <- (Z.shiftl_mul_pow2 _ k) by done. rewrite <- Z.ldiff_ones_r by done.
  replace (2 ^ k - 1) with (Z.ones k) by (rewrite Z.ones_equiv; lia). unfold not64. change 0xFFFFFFFFFFFFFFFF with (Z.ones 64).
  apply Z.bits_inj'; intros i Hi. rewrite Z.land_spec, Z.ldiff_spec, Z.lxor_spec, (Z.testbit_ones_nonneg 64) by lia.
  destruct (Z.ltb_spec i 64); [by rewrite xorb_true_r|].
  rewrite <- (Z.mod_small y (2 ^ 64)), Z.mod_pow2_bits_high by lia. done.
Qed.

(** ** The map as a function *)

(** Segments from [b] to [e], one behind the other, their sizes multiples of [al]. *)
Fixpoint chain (al b : Z) (l : list pmem_segment_t) (e : Z) : Prop :=
  match l with
  | [] => b = e
  | s :: l => paddr s = b ∧ 0 < size s ∧ (al | size s) ∧ chain al (b + size s) l e
  end.

Definition inside (a : Z) (s : pmem_segment_t) : bool := ((paddr s <=? a) && (a <? paddr s + size s))%bool.
Fixpoint type_at (l : list pmem_segment_t) (a : Z) : option Z :=
  match l with
  | [] => None
  | s :: l => if inside a s then Some (type s) else type_at l a
  end.

(** No two neighbours have the same type. *)
Fixpoint merged (l : list pmem_segment_t) : Prop :=
  match l with
  | [] => True
  | x :: l => match l with y :: _ => type x ≠ type y | [] => True end ∧ merged l
  end.

Definition in_range (a pa sz : Z) : bool := ((pa <=? a) && (a <? pa + sz))%bool.

(** The segments [l] with [rest] the unused part of the array. *)
Definition pmap (al : Z) (l rest : list pmem_segment_t) : pmem_t := mk_pmem (l ++ rest) (Z.of_nat (length l)) al.

(** A result as described, or a read past the end of the array, which takes [Q]; never a
    write there. *)
Definition outcome {A} (m : res A) (P : A → Prop) (Q : Prop) : Prop :=
  match m with Ret a => P a | Fault f => f = OverRead ∧ Q end.

Lemma outcome_bind {A B} (m : res A) (k : A → res B) P R Q :
  outcome m P Q → (∀ a, P a → outcome (k a) R Q) → outcome (m ≫= k) R Q.
Proof. destruct m; cbn; auto. Qed.

Lemma outcome_impl {A} (m : res A) (P P' : A → Prop) (Q Q' : Prop) :
  outcome m P Q → (∀ a, P a → P' a) → (Q → Q') → outcome m P' Q'.
Proof. destruct m; cbn; naive_solver. Qed.

(** *** Chains *)

Lemma chain_app al b l1 l2 e : chain al b (l1 ++ l2) e ↔ ∃ m, chain al b l1 m ∧ chain al m l2 e.
Proof.
  revert b. induction l1 as [|s l1 IH]; intros b; cbn.
  - split; [intros H; by exists b|intros (m & -> & H); done].
  - rewrite IH. naive_solver.
Qed.

Lemma chain_le al b l e : chain al b l e → b <= e.
Proof. revert b. induction l as [|s l IH]; intros b; cbn; [lia|]. intros (_ & ? & _ & H). apply IH in H. lia. Qed.

Lemma chain_bounds al b l e s : chain al b l e → s ∈ l → b <= paddr s ∧ 0 < size s ∧ paddr s + size s <= e.
Proof.
  revert b. induction l as [|x l IH]; intros b H Hs; [by apply not_elem_of_nil in Hs|].
  cbn in H. destruct H as (? & ? & _ & H). apply elem_of_cons in Hs as [->|Hs].
  - apply chain_le in H. lia.
  - destruct (IH _ H Hs). lia.
Qed.

Lemma type_at_outside al b l e a : chain al b l e → ¬ b <= a < e → type_at l a = None.
Proof.
  revert b. induction l as [|s l IH]; intros b H Ha; [done|]. cbn in *. destruct H as (E & ? & _ & H).
  pose proof (chain_le _ _ _ _ H). unfold inside. rewrite (IH _ H) by lia.
  destruct (paddr s <=? a) eqn:?, (a <? paddr s + size s) eqn:?; bool_to_prop; cbn; try done; lia.
Qed.

Lemma type_at_app al b l1 m l2 e a :
  chain al b l1 m → chain al m l2 e → type_at (l1 ++ l2) a = if a <? m then type_at l1 a else type_at l2 a.
Proof.
  revert b. induction l1 as [|s l1 IH]; intros b; cbn.
  - intros -> H. destruct (a <? m) eqn:E; [|done]. bool_to_prop. apply (type_at_outside _ _ _ _ _ H). lia.
  - intros (E & Hs & _ & H) H2. pose proof (chain_le _ _ _ _ H). rewrite (IH _ H H2). unfold inside.
    destruct (paddr s <=? a) eqn:?, (a <? paddr s + size s) eqn:?, (a <? m) eqn:?; bool_to_prop; cbn; done || lia.
Qed.

(** A segment is replaced by a chain over the same addresses. *)
Lemma chain_replace al b l1 s m l2 e :
  chain al b (l1 ++ s :: l2) e → chain al (paddr s) m (paddr s + size s) →
  chain al b (l1 ++ m ++ l2) e ∧
  (∀ a, type_at (l1 ++ m ++ l2) a = if inside a s then type_at m a else type_at (l1 ++ s :: l2) a).
Proof.
  intros H Hm. apply chain_app in H as (x & H1 & H2). pose proof H2 as H2'. cbn in H2'. destruct H2' as (E & Hs & Hd & H3).
  subst x. assert (chain al (paddr s) (m ++ l2) e) as H4 by (apply chain_app; by exists (paddr s + size s)).
  split; [apply chain_app; by exists (paddr s)|]. intros a.
  rewrite (type_at_app _ _ _ _ _ _ a H1 H4), (type_at_app _ _ _ _ _ _ a H1 H2), (type_at_app _ _ _ _ _ _ a Hm H3).
  cbn. unfold inside. pose proof (chain_le _ _ _ _ H1).
  destruct (paddr s <=? a) eqn:?, (a <? paddr s + size s) eqn:?, (a <? paddr s) eqn:?; bool_to_prop; cbn; done || lia.
Qed.

(** *** Neighbours *)

Lemma merged_cons2 x y l : merged (x :: y :: l) ↔ type x ≠ type y ∧ merged (y :: l).
Proof. done. Qed.

Lemma merged_app l1 x l2 : merged (l1 ++ x :: l2) ↔ merged (l1 ++ [x]) ∧ merged (x :: l2).
Proof.
  induction l1 as [|y l1 IH]; cbn [app]; [cbn; tauto|].
  destruct l1 as [|z l1]; cbn [app] in *; [cbn; tauto|]. rewrite !merged_cons2, IH. tauto.
Qed.

(** Only the types matter. *)
Lemma merged_types l l' : type <$> l = type <$> l' → merged l → merged l'.
Proof.
  revert l'. induction l as [|x l IH]; intros [|x' l'] E; try done. injection E as E1 E2. cbn. intros [H1 H2].
  split; [|by apply IH]. destruct l, l'; try done. injection E2 as E2 _. congruence.
Qed.

Lemma merged_prefix l1 l2 : merged (l1 ++ l2) → merged l1.
Proof.
  destruct l2 as [|x l2]; [by rewrite app_nil_r|]. rewrite merged_app. intros [H _]. revert H.
  induction l1 as [|y l1 IH]; [done|]. destruct l1; cbn [app]; [cbn; tauto|]. rewrite !merged_cons2. cbn [app] in IH. tauto.
Qed.

(** ** The array *)

Section Correct.
Context (malloc : Z → option (list pmem_segment_t)) (al : Z).
Hypothesis malloc_ok : ∀ n, 0 <= n → ∃ l, malloc n = Some l ∧ Z.of_nat (length l) = n.
Hypothesis al_pow : ∃ k, 0 <= k <= 62 ∧ al = 2 ^ k.

Lemma seg_at_ok l1 s l2 rest i : i = Z.of_nat (length l1) → seg_at i (pmap al (l1 ++ s :: l2) rest) = Ret s.
Proof. intros. unfold seg_at, pmap. cbn. rewrite <- app_assoc. by apply arr_get_at. Qed.

Lemma update_ok l1 s l2 rest i f :
  i = Z.of_nat (length l1) → update i f (pmap al (l1 ++ s :: l2) rest) = Ret (pmap al (l1 ++ f s :: l2) rest).
Proof.
  intros E. unfold update. rewrite seg_at_ok by done. cbn. rewrite <- app_assoc. cbn. rewrite arr_put_at by done. cbn.
  unfold set_segments, pmap. cbn. rewrite <- app_assoc, !length_app. done.
Qed.

Lemma mk_pmem_eq l l' c c' a : l = l' → c = c' → mk_pmem l c a = mk_pmem l' c' a.
Proof. by intros -> ->. Qed.

(** The free part of the array after an insertion. *)
Definition taken (rest rest' : list pmem_segment_t) : Prop :=
  (rest = [] ∧ (15 <= length rest')%nat) ∨ length rest = S (length rest').

Lemma insert_ok l1 l2 rest i :
  i = Z.of_nat (length l1) →
  ∃ s rest', pmem_insert malloc i (pmap al (l1 ++ l2) rest) = Ret (pmap al (l1 ++ s :: l2) rest') ∧ taken rest rest'.
Proof.
  intros Ei. unfold pmem_insert.
  assert (∃ s r, pmem_resize malloc (count (pmap al (l1 ++ l2) rest) + 1) (pmap al (l1 ++ l2) rest) =
    Ret (pmap al (l1 ++ l2) (s :: r)) ∧ taken rest r) as (y & r & E & Hr).
  { unfold pmem_resize, capacity, pmap. cbn -[Z.max Z.mul]. rewrite !length_app. destruct rest as [|y r]; cbn [length].
    - rewrite (proj2 (Z.leb_gt _ _)) by lia. set (n := Z.max _ _). destruct (malloc_ok n) as (fresh & E & Hn); [lia|]. rewrite E.
      rewrite app_nil_r. destruct (drop (length (l1 ++ l2)) fresh) as [|y r] eqn:Ed.
      { apply (f_equal length) in Ed. rewrite length_drop, length_app in Ed. cbn in Ed. lia. }
      exists y, r. rewrite length_app in Ed. rewrite Nat.add_0_r, Ed. split; [done|]. left. split; [done|]. rewrite <- length_app in Ed.
      apply (f_equal length) in Ed. rewrite length_drop, length_app in Ed. cbn in Ed. lia.
    - rewrite (proj2 (Z.leb_le _ _)) by lia. exists y, r. split; [done|]. right. cbn. lia. }
  rewrite E. cbn [mbind res_bind]. exists (match l2 with [] => y | x :: _ => x end), r. split; [|done].
  unfold pmap. cbn [count]. rewrite length_app. destruct l2 as [|x l2]; cbn [length].
  - rewrite (proj2 (Z.eqb_eq _ _)) by lia. cbn. unfold set_count. cbn. rewrite length_app, app_nil_r, <- app_assoc. cbn.
    do 2 f_equal. lia.
  - rewrite (proj2 (Z.eqb_neq _ _)) by lia. unfold move, arr_move. cbn [segments].
    rewrite !length_app. cbn [length]. rewrite !(proj2 (Z.leb_le _ _)) by lia. cbn [andb negb mbind res_bind].
    unfold set_count, set_segments. cbn [segments count minimum_alignment]. f_equal.
    apply mk_pmem_eq; [|rewrite ?length_app; cbn [length]; lia].
    rewrite <- !app_assoc. cbn [app]. subst i.
    transitivity ((l1 ++ [x]) ++ (x :: l2) ++ r); [|by rewrite <- app_assoc]. f_equal; [|f_equal].
    + replace (Z.to_nat _) with (length (l1 ++ [x])) by (rewrite length_app; cbn; lia).
      by rewrite (cons_middle x l1 (l2 ++ y :: r)), (app_assoc l1 [x]), take_app_length.
    + rewrite Nat2Z.id, drop_app_length. replace (Z.to_nat _) with (length (x :: l2)) by (cbn; lia).
      by rewrite app_comm_cons, take_app_length.
    + replace (Z.to_nat _) with (length (l1 ++ x :: l2 ++ [y])) by (rewrite length_app; cbn; rewrite length_app; cbn; lia).
      replace (l1 ++ x :: l2 ++ y :: r) with ((l1 ++ x :: l2 ++ [y]) ++ r) by (by rewrite <- app_assoc, <- app_comm_cons, <- app_assoc).
      apply drop_app_length.
Qed.

Lemma erase_seg_ok l1 s l2 rest i :
  i = Z.of_nat (length l1) →
  outcome (pmem_erase i (pmap al (l1 ++ s :: l2) rest))
    (λ p, ∃ rest', p = pmap al (l1 ++ l2) rest' ∧ length rest' = S (length rest)) (rest = []).
Proof.
  intros Ei. unfold pmem_erase, pmap. cbn [count]. rewrite length_app. cbn [length].
  destruct (i =? _) eqn:E; bool_to_prop.
  - assert (l2 = []) as -> by (destruct l2; [done|cbn in E; lia]). cbn. exists (s :: rest). split; [|done].
    unfold set_count. cbn. rewrite <- app_assoc, !app_nil_r. cbn. f_equal. lia.
  - unfold move, arr_move. cbn [segments]. rewrite !length_app. cbn [length].
    destruct rest as [|y rest]; cbn [length].
    { rewrite (proj2 (Z.leb_gt (i + 1 + _) _)), !(proj2 (Z.leb_le _ _)) by lia. done. }
    rewrite !(proj2 (Z.leb_le _ _)) by lia. cbn [andb negb mbind res_bind outcome].
    exists (y :: y :: rest). split; [|cbn; lia]. unfold set_count, set_segments. cbn [segments count minimum_alignment].
    apply mk_pmem_eq; [|rewrite ?length_app; lia]. rewrite <- !app_assoc. cbn [app]. subst i.
    transitivity (l1 ++ (l2 ++ [y]) ++ y :: rest); [|by rewrite <- app_assoc]. f_equal; [|f_equal].
    + by rewrite Nat2Z.id, take_app_length.
    + replace (Z.to_nat (Z.of_nat (length l1) + 1)) with (length (l1 ++ [s])) by (rewrite length_app; cbn; lia).
      rewrite (cons_middle s l1 (l2 ++ y :: rest)), (app_assoc l1 [s]), drop_app_length.
      replace (Z.to_nat _) with (length (l2 ++ [y])) by (rewrite length_app; cbn; lia).
      by rewrite (cons_middle y l2 rest), (app_assoc l2 [y]), take_app_length.
    + replace (Z.to_nat _) with (length (l1 ++ s :: l2)) by (rewrite length_app; cbn; lia).
      by rewrite app_comm_cons, app_assoc, drop_app_length.
Qed.

(** A copy that only reads behind the array is one that closes a gap, in a full array: an
    insertion makes room before it opens one. *)
Lemma overread_erase i p : 0 <= i < count p → count p <= capacity p →
  pmem_insert malloc i p ≠ Fault OverRead ∧
  (pmem_erase i p = Fault OverRead ↔ i ≠ count p - 1 ∧ count p = capacity p).
Proof.
  intros Hi Hc. split.
  - unfold pmem_insert. destruct (pmem_resize malloc (count p + 1) p) as [q|f] eqn:E; cbn [mbind res_bind].
    + assert (count q = count p) as Eq.
      { unfold pmem_resize in E. case_match; [by injection E as <-|]. destruct (malloc _); [by injection E as <-|done]. }
      destruct (_ =? 0); [done|]. unfold move, arr_move. rewrite Eq.
      destruct (negb _) eqn:En; [done|]. apply negb_false_iff in En. rewrite !andb_true_iff in En. bool_to_prop.
      rewrite (proj2 (Z.leb_le (i + _) _)) by lia. done.
    + unfold pmem_resize in E. case_match; [done|]. destruct (malloc _); [done|]. by injection E as <-.
  - unfold pmem_erase. destruct (i =? count p - 1) eqn:E; bool_to_prop; [split; [done|lia]|].
    unfold move, arr_move. fold (capacity p). rewrite !(proj2 (Z.leb_le _ _)) by lia. cbn [andb negb].
    destruct (_ <=? _) eqn:E2; bool_to_prop; cbn; split; (done || lia || tauto).
Qed.

(** *** Merging *)

Lemma merge_two b l1 x y l2 e :
  chain al b (l1 ++ x :: y :: l2) e → type x = type y →
  let z := mk_seg (paddr x) (size x + size y) (type x) in
  chain al b (l1 ++ z :: l2) e ∧ ∀ a, type_at (l1 ++ z :: l2) a = type_at (l1 ++ x :: y :: l2) a.
Proof.
  intros H Et z. apply chain_app in H as (m & H1 & H2). pose proof H2 as H2'. cbn in H2'.
  destruct H2' as (Ex & Hx & Dx & Ey & Hy & Dy & H3).
  assert (chain al m (z :: l2) e) as Hz.
  { cbn. split_and!; [done|lia|by apply Z.divide_add_r|by rewrite Z.add_assoc]. }
  split; [apply chain_app; by exists m|]. intros a.
  rewrite (type_at_app _ _ _ _ _ _ a H1 H2), (type_at_app _ _ _ _ _ _ a H1 Hz). cbn. unfold inside. cbn. rewrite Ex, Ey, <- Et.
  destruct (a <? m) eqn:?; [done|]. bool_to_prop.
  destruct (m <=? a) eqn:?, (a <? m + size x) eqn:?, (m + size x <=? a) eqn:?, (a <? m + size x + size y) eqn:?,
    (a <? m + (size x + size y)) eqn:?; bool_to_prop; cbn; done || lia.
Qed.

(** The map is the same, in as many slots. *)
Definition same_map (b e : Z) (l rest l' rest' : list pmem_segment_t) : Prop :=
  chain al b l' e ∧ (∀ a, type_at l' a = type_at l a) ∧
  (length l' + length rest' = length l + length rest)%nat ∧ (length rest <= length rest')%nat.

Lemma u64_sum b l e x y : chain al b l e → 0 <= b → e < 2 ^ 63 → x ∈ l → y ∈ l → u64 (size x + size y) = size x + size y.
Proof.
  intros H Hb He Hx Hy. pose proof (chain_bounds _ _ _ _ _ H Hx). pose proof (chain_bounds _ _ _ _ _ H Hy).
  apply Z.mod_small. lia.
Qed.

Lemma merge_prev_ok b e l1 x l2 rest i :
  chain al b (l1 ++ x :: l2) e → 0 <= b → e < 2 ^ 63 → merged l1 → i = Z.of_nat (length l1) →
  outcome (merge_prev i (pmap al (l1 ++ x :: l2) rest))
    (λ '(i', p), ∃ l1' x' rest', p = pmap al (l1' ++ x' :: l2) rest' ∧ i' = Z.of_nat (length l1') ∧
      merged (l1' ++ [x']) ∧ same_map b e (l1 ++ x :: l2) rest (l1' ++ x' :: l2) rest') (rest = []).
Proof.
  intros H Hb He Hm Ei. unfold merge_prev. destruct l1 as [|y l0 _] using rev_ind.
  { cbn in Ei. subst i. cbn [Z.ltb Z.compare outcome]. exists [], x, rest. done. }
  rewrite length_app in Ei. cbn in Ei. rewrite (proj2 (Z.ltb_lt _ _)) by lia.
  rewrite (seg_at_ok _ _ _ _ i) by (rewrite length_app; cbn; lia). cbn [mbind res_bind].
  rewrite <- app_assoc in H |- *. cbn [app] in H |- *. rewrite seg_at_ok by lia. cbn [mbind res_bind].
  destruct (type x =? type y) eqn:Et; bool_to_prop.
  - rewrite update_ok by lia. cbn [mbind res_bind]. unfold set_size at 1.
    rewrite (u64_sum _ _ _ _ _ H Hb He) by set_solver.
    eapply outcome_bind.
    { rewrite (cons_middle _ l0), app_assoc. apply erase_seg_ok. rewrite length_app. cbn. lia. }
    intros p (rest' & -> & Hl). cbn [outcome]. rewrite <- app_assoc.
    eexists l0, _, rest'. split; [done|]. split; [lia|].
    destruct (merge_two b l0 y x l2 e H) as [H1 H2]; [done|].
    split; [|split_and!; [done|done|rewrite !length_app in *; cbn in *; lia|lia]].
    eapply merged_types; [|exact Hm]. by rewrite !fmap_app.
  - cbn [outcome]. exists (l0 ++ [y]), x, rest. rewrite <- app_assoc. split; [done|]. split; [rewrite length_app; cbn; lia|].
    split; [|done]. rewrite <- app_assoc. cbn. apply merged_app. split; [done|]. cbn. by split.
Qed.

Lemma merge_next_ok b e l1 x l2 rest i :
  chain al b (l1 ++ x :: l2) e → 0 <= b → e < 2 ^ 63 → merged (l1 ++ [x]) → merged l2 → i = Z.of_nat (length l1) →
  outcome (merge_next i (pmap al (l1 ++ x :: l2) rest))
    (λ p, ∃ l' rest', p = pmap al l' rest' ∧ merged l' ∧ same_map b e (l1 ++ x :: l2) rest l' rest') (rest = []).
Proof.
  intros H Hb He Hm Hm2 Ei. unfold merge_next. cbn [count pmap]. rewrite length_app. cbn [length].
  destruct l2 as [|z l2]; cbn [length].
  { rewrite (proj2 (Z.ltb_ge _ _)) by lia. exists (l1 ++ [x]), rest. done. }
  rewrite (proj2 (Z.ltb_lt _ _)) by lia. rewrite (seg_at_ok _ _ _ _ i) by done. cbn [mbind res_bind].
  rewrite (cons_middle x l1), (app_assoc l1 [x]), seg_at_ok by (rewrite length_app; cbn; lia). cbn [mbind res_bind].
  rewrite <- app_assoc. cbn [app]. destruct (type x =? type z) eqn:Et; bool_to_prop.
  - rewrite update_ok by lia. cbn [mbind res_bind]. unfold set_size at 1.
    rewrite (u64_sum _ _ _ _ _ H Hb He) by set_solver.
    eapply outcome_impl.
    { rewrite (cons_middle _ l1), app_assoc. apply erase_seg_ok. rewrite length_app. cbn. lia. }
    2: done. intros p (rest' & -> & Hl). rewrite <- app_assoc.
    eexists _, rest'. split; [done|]. cbn [app].
    destruct (merge_two b l1 x z l2 e H) as [H1 H2]; [done|].
    split; [|split_and!; [done|done|rewrite !length_app in *; cbn in *; lia|lia]].
    apply merged_app. split; [eapply merged_types; [|exact Hm]; by rewrite !fmap_app|].
    eapply merged_types; [|exact Hm2]. cbn. by rewrite Et.
  - cbn [outcome]. exists (l1 ++ x :: z :: l2), rest. split; [done|]. split; [|done]. apply merged_app. split; [done|]. by split.
Qed.

Lemma merge_ok b e l1 x l2 rest i :
  chain al b (l1 ++ x :: l2) e → 0 <= b → e < 2 ^ 63 → merged l1 → merged l2 → i = Z.of_nat (length l1) →
  outcome (pmem_merge i (pmap al (l1 ++ x :: l2) rest))
    (λ p, ∃ l' rest', p = pmap al l' rest' ∧ merged l' ∧ same_map b e (l1 ++ x :: l2) rest l' rest') (rest = []).
Proof.
  intros H Hb He Hm1 Hm2 Ei. unfold pmem_merge. pose proof (merge_prev_ok b e l1 x l2 rest i H Hb He Hm1 Ei) as Hp.
  destruct (merge_prev _ _) as [[i' p]|f]; cbn in *; [|done].
  destruct Hp as (l1' & x' & rest1 & -> & Ei' & Hm & Hc & Ht & Hl & Hr).
  eapply outcome_impl; [by apply (merge_next_ok b e)| |].
  - intros p (l' & rest' & -> & Hm' & Hc' & Ht' & Hl' & Hr'). exists l', rest'. split; [done|]. split; [done|].
    split_and!; [done|intros a; by rewrite Ht', Ht|lia|lia].
  - intros ->. cbn in Hr. destruct rest; [done|cbn in Hr; lia].
Qed.
(** *** Cutting a segment *)

Lemma u64_small z : 0 <= z < 2 ^ 64 → u64 z = z.
Proof. apply Z.mod_small. Qed.

Lemma type_at_in b l1 s l2 e a : chain al b (l1 ++ s :: l2) e → inside a s = true → type_at (l1 ++ s :: l2) a = Some (type s).
Proof.
  intros H Ha. apply chain_app in H as (m & H1 & H2). rewrite (type_at_app _ _ _ _ _ _ a H1 H2). cbn. rewrite Ha.
  destruct H2 as (E & _). unfold inside in Ha. destruct (a <? m) eqn:?; [|done]. bool_to_prop. lia.
Qed.

(** What is left of a segment in front of and behind a range in it. *)
Definition before (s : pmem_segment_t) (pa : Z) : list pmem_segment_t :=
  if pa =? paddr s then [] else [mk_seg (paddr s) (pa - paddr s) (type s)].
Definition behind (s : pmem_segment_t) (pa sz : Z) : list pmem_segment_t :=
  if pa + sz =? paddr s + size s then [] else [mk_seg (pa + sz) (paddr s + size s - (pa + sz)) (type s)].

Lemma cut_chain s pa sz ty :
  paddr s <= pa → 0 < sz → pa + sz <= paddr s + size s → (al | paddr s) → (al | size s) → (al | pa) → (al | sz) →
  chain al (paddr s) (before s pa ++ mk_seg pa sz ty :: behind s pa sz) (paddr s + size s).
Proof.
  intros H1 H2 H3 D1 D2 D3 D4. unfold before, behind.
  assert (al | pa - paddr s) by by apply Z.divide_sub_r.
  assert (al | paddr s + size s - (pa + sz)) by (apply Z.divide_sub_r; by apply Z.divide_add_r).
  destruct (pa =? paddr s) eqn:?, (pa + sz =? paddr s + size s) eqn:?; bool_to_prop; cbn; split_and!; done || lia.
Qed.

Lemma cut_type s pa sz ty a :
  paddr s <= pa → 0 < sz → pa + sz <= paddr s + size s → inside a s = true →
  type_at (before s pa ++ mk_seg pa sz ty :: behind s pa sz) a = if in_range a pa sz then Some ty else Some (type s).
Proof.
  unfold before, behind, inside, in_range. intros H1 H2 H3 Ha. bool_to_prop.
  destruct (pa =? paddr s) eqn:?, (pa + sz =? paddr s + size s) eqn:?; bool_to_prop; cbn; unfold inside; cbn;
    repeat match goal with
    | |- context [?x <=? ?y] => destruct (Z.leb_spec x y)
    | |- context [?x <? ?y] => destruct (Z.ltb_spec x y)
    end; cbn; done || lia.
Qed.

(** [l'] is [l] with the range given the type; room for three segments is enough. *)
Definition marked (b e : Z) (l rest : list pmem_segment_t) (pa sz ty : Z) (l' rest' : list pmem_segment_t) : Prop :=
  chain al b l' e ∧ merged l' ∧ (∀ a, type_at l' a = if in_range a pa sz then Some ty else type_at l a) ∧
  ((3 <= length rest)%nat → (length l' + length rest' = length l + length rest)%nat ∧ (length l' <= length l + 2)%nat).

Section Cut.
Context (b e : Z) (l1 : list pmem_segment_t) (s : pmem_segment_t) (l2 rest : list pmem_segment_t) (pa sz ty : Z).
Hypothesis Hc : chain al b (l1 ++ s :: l2) e.
Hypothesis Hb : 0 <= b.
Hypothesis He : e < 2 ^ 63.
Hypothesis Hm : merged (l1 ++ s :: l2).
Hypothesis Db : (al | b).
Hypothesis Dpa : (al | pa).
Hypothesis Dsz : (al | sz).
Hypothesis H1 : paddr s <= pa.
Hypothesis H2 : 0 < sz.
Hypothesis H3 : pa + sz <= paddr s + size s.

Lemma chain_divide b' l m : (al | b') → chain al b' l m → (al | m).
Proof.
  revert b'. induction l as [|x l IH]; intros b'; cbn; [by intros ? <-|].
  intros ? (_ & _ & ? & H). eapply IH; [|exact H]. by apply Z.divide_add_r.
Qed.

Lemma seg_bounds : b <= paddr s ∧ 0 < size s ∧ paddr s + size s <= e.
Proof. apply (chain_bounds _ _ _ _ s Hc). set_solver. Qed.

Lemma seg_divide : (al | paddr s) ∧ (al | size s).
Proof.
  pose proof Hc as H. apply chain_app in H as (m & HA & HB). cbn in HB. destruct HB as (-> & _ & ? & _).
  split; [|done]. by apply (chain_divide b l1).
Qed.

Lemma merge_cut rest1 i :
  i = Z.of_nat (length (l1 ++ before s pa)) →
  ((3 <= length rest)%nat → (length rest1 + length (before s pa) + length (behind s pa sz) = length rest)%nat) →
  ((3 <= length rest)%nat → rest1 ≠ []) →
  outcome (p ← pmem_merge i (pmap al ((l1 ++ before s pa) ++ mk_seg pa sz ty :: behind s pa sz ++ l2) rest1); Ret (0, p))
    (λ '(r, p), r = 0 ∧ ∃ l' rest', p = pmap al l' rest' ∧ marked b e (l1 ++ s :: l2) rest pa sz ty l' rest') (length rest < 3)%nat.
Proof.
  intros Ei Hl Hr. destruct seg_bounds as (? & ? & ?). destruct seg_divide as [Da Ds].
  set (X := mk_seg pa sz ty).
  destruct (chain_replace al b l1 s (before s pa ++ X :: behind s pa sz) l2 e Hc) as [Hc' Ht'].
  { by apply cut_chain. }
  replace (l1 ++ (before s pa ++ X :: behind s pa sz) ++ l2) with ((l1 ++ before s pa) ++ X :: behind s pa sz ++ l2) in Hc', Ht'
    by (by rewrite <- !app_assoc).
  apply merged_app in Hm as [Hm1 Hm2].
  eapply outcome_bind.
  - eapply outcome_impl; [apply (merge_ok b e); [done..| | |done]|intros ? HP; exact HP|].
    + unfold before. case_match; [by rewrite app_nil_r; apply merged_prefix in Hm1|].
      eapply merged_types; [|exact Hm1]. by rewrite !fmap_app.
    + unfold behind. case_match; [by destruct l2; [|apply Hm2]|].
      eapply merged_types; [|exact Hm2]. done.
    + intros ->. destruct (decide (3 <= length rest)%nat); [|lia]. by destruct Hr.
  - intros p (l' & rest' & -> & Hm' & Hc2 & Ht & Hlen & Hrr). cbn. split; [done|]. exists l', rest'. split; [done|].
    split_and!; [done|done| |].
    + intros a. rewrite Ht, Ht'. destruct (inside a s) eqn:Ea.
      * unfold X. rewrite cut_type by done. case_match; [done|]. by rewrite (type_at_in _ _ _ _ _ _ Hc Ea).
      * unfold in_range, inside in *. destruct ((pa <=? a) && (a <? pa + sz))%bool eqn:?; [|done]. bool_to_prop. lia.
    + intros Hroom. specialize (Hl Hroom). rewrite !length_app in Hlen. cbn in Hlen. rewrite !length_app in *. cbn in *.
      assert (length (before s pa) <= 1)%nat by (unfold before; destruct (_ =? _); cbn; lia).
      assert (length (behind s pa sz) <= 1)%nat by (unfold behind; destruct (_ =? _); cbn; lia). lia.
Qed.

Lemma set_in_ok i :
  i = Z.of_nat (length l1) →
  outcome (set_in malloc i pa sz ty (pmap al (l1 ++ s :: l2) rest))
    (λ '(r, p), r = 0 ∧ ∃ l' rest', p = pmap al l' rest' ∧ marked b e (l1 ++ s :: l2) rest pa sz ty l' rest') (length rest < 3)%nat.
Proof.
  intros Ei. destruct seg_bounds as (? & ? & ?). unfold set_in. rewrite (seg_at_ok _ _ _ _ i) by done. cbn [mbind res_bind].
  pose proof (λ r, merge_cut r i) as Hcut0. pose proof (λ r, merge_cut r (i + 1)) as Hcut1. unfold before, behind in Hcut0, Hcut1.
  rewrite !u64_small by lia.
  destruct (pa =? paddr s) eqn:Ea; bool_to_prop; cbn [andb].
  - rewrite app_nil_r in Hcut0. destruct (sz =? size s) eqn:Es; bool_to_prop.
    + rewrite (proj2 (Z.eqb_eq (pa + sz) _)) in Hcut0 by lia. destruct (type s =? ty) eqn:Et; bool_to_prop.
      * cbn. split; [done|]. exists (l1 ++ s :: l2), rest. split; [done|]. split_and!; [done|done| |lia].
        intros a. destruct (in_range a pa sz) eqn:Er; [|done]. rewrite (type_at_in _ _ _ _ _ _ Hc); [by rewrite Et|].
        unfold in_range, inside in *. by rewrite <- Ea, <- Es.
      * rewrite update_ok by done. cbn [mbind res_bind]. unfold set_type. rewrite <- Ea, <- Es.
        apply Hcut0; [done|cbn; lia|by destruct rest; cbn; [lia|]].
    + rewrite (proj2 (Z.eqb_neq (pa + sz) _)) in Hcut0 by lia.
      rewrite update_ok by done. cbn [mbind res_bind]. rewrite update_ok by done. cbn [mbind res_bind].
      unfold set_paddr, set_size. cbn [paddr size type].
      destruct (insert_ok l1 (mk_seg (u64 (paddr s + sz)) (u64 (size s - sz)) (type s) :: l2) rest i Ei) as (y & r & E & Hr).
      rewrite E. cbn [mbind res_bind]. rewrite update_ok by done. cbn [mbind res_bind]. rewrite !u64_small by lia.
      replace (size s - sz) with (paddr s + size s - (pa + sz)) by lia. replace (paddr s + sz) with (pa + sz) by lia.
      apply (Hcut0 r); [done|cbn; destruct Hr as [[-> _]|Hr]; cbn; lia|].
      destruct Hr as [[-> _]|Hr]; cbn; [lia|]. intros ? ->. cbn in Hr. lia.
  - destruct (pa + sz =? paddr s + size s) eqn:Es; bool_to_prop.
    + rewrite update_ok by done. cbn [mbind res_bind]. unfold set_size. rewrite u64_small by lia.
      rewrite cons_middle, app_assoc.
      destruct (insert_ok (l1 ++ [mk_seg (paddr s) (size s - sz) (type s)]) l2 rest (i + 1)) as (y & r & E & Hr);
        [rewrite length_app; cbn; lia|].
      rewrite E. cbn [mbind res_bind]. rewrite update_ok by (rewrite length_app; cbn; lia). cbn [mbind res_bind].
      replace (size s - sz) with (pa - paddr s) by lia.
      apply (Hcut1 r); [rewrite length_app; cbn; lia|cbn; destruct Hr as [[-> _]|Hr]; cbn; lia|].
      destruct Hr as [[-> _]|Hr]; cbn; [lia|]. intros ? ->. cbn in Hr. lia.
    + rewrite cons_middle, app_assoc.
      destruct (insert_ok (l1 ++ [s]) l2 rest (i + 1)) as (y & r & E & Hr); [rewrite length_app; cbn; lia|].
      rewrite E. cbn [mbind res_bind]. rewrite update_ok by (rewrite length_app; cbn; lia). cbn [mbind res_bind].
      rewrite cons_middle, app_assoc.
      destruct (insert_ok ((l1 ++ [s]) ++ [mk_seg pa sz ty]) l2 r (i + 2)) as (y2 & r2 & E2 & Hr2); [rewrite !length_app; cbn; lia|].
      rewrite E2. cbn [mbind res_bind]. rewrite <- !app_assoc. cbn [app]. rewrite (seg_at_ok _ _ _ _ i) by done. cbn [mbind res_bind].
      rewrite (cons_middle s), (cons_middle (mk_seg pa sz ty)), !app_assoc.
      rewrite update_ok by (rewrite !length_app; cbn; lia). cbn [mbind res_bind]. rewrite <- !app_assoc. cbn [app].
      rewrite update_ok by done. cbn [mbind res_bind]. unfold set_size. rewrite !u64_small by lia.
      replace (size s - sz - (pa - paddr s)) with (paddr s + size s - (pa + sz)) by lia.
      rewrite cons_middle, app_assoc.
      apply (Hcut1 r2); [rewrite length_app; cbn; lia|cbn; destruct Hr as [[-> _]|Hr], Hr2 as [[-> _]|Hr2]; cbn in *; lia|].
      destruct Hr as [[-> _]|Hr]; cbn; [lia|]. intros ? ->. destruct Hr2 as [[-> ?]|Hr2]; cbn in *; lia.
Qed.
End Cut.

(** *** Looking for the segment *)

Definition contains (s : pmem_segment_t) (pa sz : Z) : Prop := paddr s <= pa ∧ pa + sz <= paddr s + size s.
Definition starts_in (s : pmem_segment_t) (pa : Z) : Prop := paddr s <= pa < paddr s + size s.

Lemma set_loop_ok b e l l1 l2 rest pa sz ty split n i :
  chain al b l e → 0 <= b → e < 2 ^ 63 → 0 <= pa → 0 < sz → pa + sz < 2 ^ 63 →
  l = l1 ++ l2 → i = Z.of_nat (length l1) → n = length l2 →
  (set_loop malloc n i pa sz ty split (pmap al l rest) = Ret (-1, pmap al l rest) ∧
     ∀ s, s ∈ l2 → ¬ contains s pa sz ∧ (split = None ∨ ¬ starts_in s pa)) ∨
  ∃ m1 s m2, l = m1 ++ s :: m2 ∧
    ((contains s pa sz ∧ set_loop malloc n i pa sz ty split (pmap al l rest) = set_in malloc (Z.of_nat (length m1)) pa sz ty (pmap al l rest)) ∨
     ∃ f, split = Some f ∧ ¬ contains s pa sz ∧ starts_in s pa ∧
       set_loop malloc n i pa sz ty split (pmap al l rest) = f (paddr s + size s) (pmap al l rest)).
Proof.
  intros Hc Hb He Hpa Hsz Hsum. revert l1 n i. induction l2 as [|s l2 IH]; intros l1 n i -> -> ->.
  { left. split; [done|]. intros s Hs. by apply not_elem_of_nil in Hs. }
  cbn [set_loop length]. rewrite seg_at_ok by done. cbn [mbind res_bind].
  destruct (chain_bounds _ _ _ _ s Hc) as (? & ? & ?); [set_solver|]. rewrite !u64_small by lia.
  destruct ((paddr s <=? pa) && (pa + sz <=? paddr s + size s))%bool eqn:E1.
  { right. exists l1, s, l2. split; [done|]. left. split; [|done]. unfold contains. by bool_to_prop. }
  assert (¬ contains s pa sz) as Hns.
  { unfold contains. intros [? ?]. rewrite !(proj2 (Z.leb_le _ _)) in E1 by lia. done. }
  assert (l1 ++ s :: l2 = (l1 ++ [s]) ++ l2) as El by (by rewrite <- app_assoc).
  assert (Z.of_nat (length l1) + 1 = Z.of_nat (length (l1 ++ [s]))) as Ei by (rewrite length_app; cbn; lia).
  specialize (IH (l1 ++ [s]) (length l2) _ El eq_refl eq_refl). rewrite Ei.
  assert ((split = None ∨ ¬ starts_in s pa) →
    set_loop malloc (length l2) (Z.of_nat (length (l1 ++ [s]))) pa sz ty split (pmap al (l1 ++ s :: l2) rest) =
      Ret (-1, pmap al (l1 ++ s :: l2) rest) ∧ (∀ x, x ∈ l2 → ¬ contains x pa sz ∧ (split = None ∨ ¬ starts_in x pa)) →
    set_loop malloc (length l2) (Z.of_nat (length (l1 ++ [s]))) pa sz ty split (pmap al (l1 ++ s :: l2) rest) =
      Ret (-1, pmap al (l1 ++ s :: l2) rest) ∧ (∀ x, x ∈ s :: l2 → ¬ contains x pa sz ∧ (split = None ∨ ¬ starts_in x pa))) as Hcons.
  { intros Hs [E Hx0]. split; [done|]. intros x Hx. apply elem_of_cons in Hx as [->|Hx]; auto. }
  destruct split as [f|].
  - destruct ((paddr s <=? pa) && (pa <? paddr s + size s))%bool eqn:E2.
    + right. exists l1, s, l2. split; [done|]. right. exists f. unfold starts_in. bool_to_prop. split_and!; done || lia.
    + destruct IH as [IH|IH]; [left|by right]. apply Hcons; [|done]. right. unfold starts_in. intros [? ?].
      rewrite (proj2 (Z.leb_le _ _)), (proj2 (Z.ltb_lt _ _)) in E2 by lia. done.
  - destruct IH as [IH|IH]; [left|by right]. apply Hcons; auto.
Qed.

(** A range of one type lies in one segment. *)
Lemma one_segment b l e pa sz t :
  chain al b l e → merged l → 0 < sz → (∀ a, in_range a pa sz = true → type_at l a = Some t) → ∃ s, s ∈ l ∧ contains s pa sz.
Proof.
  intros Hc Hm Hsz. revert b Hc. induction l as [|s l IH]; intros b Hc Ht.
  - specialize (Ht pa). unfold in_range in Ht. rewrite (proj2 (Z.leb_le _ _)), (proj2 (Z.ltb_lt _ _)) in Ht by lia. by specialize (Ht eq_refl).
  - pose proof Hc as Hc0. cbn in Hc. destruct Hc as (Es & Hs & _ & Hc). destruct Hm as [Hh Hm].
    assert (b <= pa) as Hbpa.
    { destruct (decide (b <= pa)); [done|]. assert (type_at (s :: l) pa = None) as E by (apply (type_at_outside _ _ _ _ _ Hc0); lia).
      rewrite Ht in E; [done|]. unfold in_range. by rewrite (proj2 (Z.leb_le _ _)), (proj2 (Z.ltb_lt _ _)) by lia. }
    assert (∀ a, b + size s <= a → type_at (s :: l) a = type_at l a) as Hskip.
    { intros a Ha. cbn. unfold inside. rewrite Es, (proj2 (Z.ltb_ge _ _)) by lia. by rewrite andb_false_r. }
    destruct (decide (b + size s <= pa)) as [Hge|Hlt].
    + destruct (IH Hm _ Hc) as (x & Hx & Hin); [|exists x; set_solver].
      intros a Ha. rewrite <- Hskip; [by apply Ht|]. unfold in_range in Ha. bool_to_prop. lia.
    + destruct (decide (pa + sz <= b + size s)) as [|Hend]; [exists s; unfold contains; split; [set_solver|lia]|]. exfalso.
      assert (type s = t) as Ety.
      { specialize (Ht pa). cbn in Ht. unfold in_range, inside in Ht. rewrite Es in Ht.
        rewrite !(proj2 (Z.leb_le _ _)), !(proj2 (Z.ltb_lt _ _)) in Ht by lia. by injection (Ht eq_refl). }
      specialize (Ht (b + size s)). rewrite Hskip in Ht by lia. unfold in_range in Ht.
      rewrite !(proj2 (Z.leb_le _ _)), !(proj2 (Z.ltb_lt _ _)) in Ht by lia. specialize (Ht eq_refl).
      destruct l as [|y l]; [done|]. cbn in Hc. destruct Hc as (Ey & Hy & _). cbn in Ht. unfold inside in Ht. rewrite Ey in Ht.
      rewrite (proj2 (Z.leb_le _ _)), (proj2 (Z.ltb_lt _ _)) in Ht by lia. cbn in Ht. injection Ht as Ht. congruence.
Qed.

(** *** Setting a range *)

Lemma ALIGN_id x : 0 <= x < 2 ^ 63 → (al | x) → ALIGN x al = x.
Proof.
  intros Hx [q ->]. destruct al_pow as (k & Hk & ->). assert (0 < 2 ^ k) by (apply Z.pow_pos_nonneg; lia).
  assert (2 ^ k <= 2 ^ 62) by (apply Z.pow_le_mono_r; lia). unfold ALIGN. rewrite !u64_small, land_not64 by lia.
  replace (q * 2 ^ k + 2 ^ k - 1) with ((2 ^ k - 1) + q * 2 ^ k) by lia. rewrite Z.div_add, Z.div_small by lia. lia.
Qed.

Definition const (l : list pmem_segment_t) (pa sz t : Z) : Prop := ∀ a, in_range a pa sz = true → type_at l a = Some t.

Record good (b e : Z) (l : list pmem_segment_t) : Prop := {
  g_chain : chain al b l e; g_merged : merged l; g_b : 0 <= b; g_e : e < 2 ^ 63; g_al : (al | b) }.

Definition ranged (pa sz : Z) : Prop := 0 <= pa ∧ 0 < sz ∧ pa + sz < 2 ^ 63 ∧ (al | pa) ∧ (al | sz).

Lemma whole_ok b e l rest pa sz ty :
  good b e l → ranged pa sz →
  outcome (pmem_set_whole malloc pa sz ty (pmap al l rest))
    (λ '(r, p), ∃ l' rest', p = pmap al l' rest' ∧
      (r = 0 ∧ marked b e l rest pa sz ty l' rest' ∨ r = -1 ∧ l' = l ∧ rest' = rest ∧ ∀ s, s ∈ l → ¬ contains s pa sz))
    (length rest < 3)%nat.
Proof.
  intros [Hc Hm Hb He Hal] (Hpa & Hsz & Hsum & D1 & D2). unfold pmem_set_whole. cbn [count pmap minimum_alignment].
  rewrite !ALIGN_id by (done || lia).
  destruct (set_loop_ok b e l [] l rest pa sz ty None (Z.to_nat (Z.of_nat (length l))) 0) as [[E H]|(m1 & s & m2 & -> & [[Hin E]|(f & [=] & _)])];
    [done..|by rewrite Nat2Z.id| |].
  - unfold pmap in E |- *. rewrite E. cbn. exists l, rest. split; [done|]. right. split_and!; try done. intros s Hs. by apply H.
  - unfold pmap in E |- *. rewrite E. eapply outcome_impl; [apply (set_in_ok b e); done || apply Hin| |done].
    intros [r p] (-> & l' & rest' & -> & H). exists l', rest'. split; [done|]. by left.
Qed.

Lemma marked_good b e l rest pa sz ty l' rest' : good b e l → marked b e l rest pa sz ty l' rest' → good b e l'.
Proof. intros [] (? & ? & _). by constructor. Qed.

Lemma one_inside b e l s s' a : chain al b l e → s ∈ l → s' ∈ l → inside a s = true → inside a s' = true → paddr s + size s = paddr s' + size s'.
Proof.
  revert b. induction l as [|x l IH]; intros b Hc Hs Hs' Ha Ha'; [by apply not_elem_of_nil in Hs|].
  cbn in Hc. destruct Hc as (Ex & Hx & _ & Hc). unfold inside in Ha, Ha'. bool_to_prop.
  apply elem_of_cons in Hs as [->|Hs], Hs' as [->|Hs']; [done| | |].
  - pose proof (chain_bounds _ _ _ _ _ Hc Hs'). lia.
  - pose proof (chain_bounds _ _ _ _ _ Hc Hs). lia.
  - apply (IH _ Hc Hs Hs'); unfold inside; by rewrite !(proj2 (Z.leb_le _ _)), !(proj2 (Z.ltb_lt _ _)) by lia.
Qed.

Lemma contains_const b e l pa sz t s :
  good b e l → 0 < sz → const l pa sz t → s ∈ l → starts_in s pa → contains s pa sz.
Proof.
  intros [Hc Hm _ _ _] Hsz Ht Hs Hst. destruct (one_segment b l e pa sz t Hc Hm Hsz Ht) as (s' & Hs' & Hin).
  assert (paddr s + size s = paddr s' + size s') as E.
  { apply (one_inside b e l s s' pa Hc Hs Hs'); unfold inside, starts_in, contains in *;
      by rewrite (proj2 (Z.leb_le _ _)), (proj2 (Z.ltb_lt _ _)) by lia. }
  unfold contains, starts_in in *. lia.
Qed.

(** What was given the type is the range, or a part of it from its start. *)
Definition set_part (b e : Z) (l rest : list pmem_segment_t) (pa sz ty : Z) (r done : Z) (l' rest' : list pmem_segment_t) : Prop :=
  good b e l' ∧ pa <= done <= pa + sz ∧ (r = 0 → done = pa + sz) ∧
  (∀ a, type_at l' a = if in_range a pa (done - pa) then Some ty else type_at l a) ∧
  ((5 <= length rest)%nat → (length l' + length rest' = length l + length rest)%nat ∧ (length l' <= length l + 4)%nat).

Lemma in_range_none a pa : in_range a pa 0 = false.
Proof. unfold in_range. destruct (pa <=? a) eqn:?, (a <? pa + 0) eqn:?; bool_to_prop; done || lia. Qed.

Lemma marked_part b e l rest pa sz ty l' rest' :
  good b e l → 0 < sz → marked b e l rest pa sz ty l' rest' → set_part b e l rest pa sz ty 0 (pa + sz) l' rest'.
Proof.
  intros Hg Hsz H. split; [by eapply marked_good|]. destruct H as (_ & _ & Ht & Hl). split_and!; [lia|lia|done| |].
  - intros a. rewrite Ht. by replace (pa + sz - pa) with sz by lia.
  - intros. destruct Hl; lia.
Qed.

Lemma set_part_none b e l rest pa sz ty : good b e l → 0 < sz → set_part b e l rest pa sz ty (-1) pa l rest.
Proof.
  intros Hg Hsz. split; [done|]. split_and!; [lia|lia|done| |lia]. intros a. by rewrite Z.sub_diag, in_range_none.
Qed.

(** [two_types]: the range consists of two parts of one type each. *)
Definition two_types (l : list pmem_segment_t) (pa sz : Z) : Prop :=
  ∃ m t1 t2, pa <= m <= pa + sz ∧ const l pa (m - pa) t1 ∧ const l m (pa + sz - m) t2.

Lemma set_split_ok b e l rest pa sz ty :
  good b e l → ranged pa sz →
  outcome (pmem_set malloc pa sz ty true (pmap al l rest))
    (λ '(r, p), ∃ done l' rest', p = pmap al l' rest' ∧ set_part b e l rest pa sz ty r done l' rest' ∧ (two_types l pa sz → r = 0))
    (length rest < 5)%nat.
Proof.
  intros Hg Hr. pose proof Hg as [Hc Hm Hb He Hal]. pose proof Hr as (Hpa & Hsz & Hsum & D1 & D2). unfold pmem_set.
  cbn [minimum_alignment pmap count]. rewrite !ALIGN_id by (done || lia). rewrite Nat2Z.id.
  set (f := λ split p, _).
  destruct (set_loop_ok b e l [] l rest pa sz ty (Some f) (length l) 0) as [[E H]|(m1 & s & m2 & El & [[Hin E]|(f' & [= <-] & Hnc & Hst & E)])];
    [done..| | |].
  - unfold pmap in E |- *. rewrite E. cbn. exists pa, l, rest. split; [done|]. split; [by apply set_part_none|].
    intros (m & t1 & t2 & Hmr & H1 & H2). exfalso.
    assert (∃ t, type_at l pa = Some t) as [t Et].
    { destruct (decide (m = pa)) as [->|].
      - exists t2. apply H2. unfold in_range. by rewrite (proj2 (Z.leb_le _ _)), (proj2 (Z.ltb_lt _ _)) by lia.
      - exists t1. apply H1. unfold in_range. by rewrite (proj2 (Z.leb_le _ _)), (proj2 (Z.ltb_lt _ _)) by lia. }
    destruct (one_segment b l e pa 1 t Hc Hm) as (s & Hs & Hsin); [lia| |].
    { intros a Ha. unfold in_range in Ha. bool_to_prop. by replace a with pa by lia. }
    destruct (H s Hs) as [_ [?|Hn]]; [done|]. apply Hn. unfold contains, starts_in in *. lia.
  - unfold pmap in E |- *. rewrite E. subst l. eapply outcome_impl; [apply (set_in_ok b e); done || apply Hin| |lia].
    intros [r p] (-> & l' & rest' & -> & H). exists (pa + sz), l', rest'. split; [done|]. split; [by apply marked_part|done].
  - unfold pmap in E |- *. rewrite E. subst f. cbv beta. fold (pmap al l rest).
    assert (s ∈ l) as Hs by (subst l; set_solver). destruct (chain_bounds _ _ _ _ _ Hc Hs) as (? & ? & ?).
    assert ((al | paddr s + size s)) as Dm.
    { subst l. destruct (seg_divide b e m1 s m2 Hc Hal). by apply Z.divide_add_r. }
    set (m := paddr s + size s) in *. unfold starts_in in Hst.
    assert (m < pa + sz) as Hmlt.
    { destruct (decide (m < pa + sz)); [done|]. destruct Hnc. unfold contains. fold m. lia. }
    rewrite !u64_small by lia.
    eapply outcome_bind; [eapply outcome_impl; [apply (whole_ok b e l rest); [done|]|intros ? HP; exact HP|lia]|].
    { split_and!; try lia; [done|by apply Z.divide_sub_r]. }
    intros [r p] (l1 & rest1 & -> & [(-> & Hk1)|(-> & -> & -> & Hno)]).
    2: { exfalso. apply (Hno s Hs). unfold contains. fold m. lia. }
    cbn [Z.eqb negb]. pose proof (marked_good _ _ _ _ _ _ _ _ _ Hg Hk1) as Hg1. destruct Hk1 as (_ & _ & Ht1 & Hl1).
    eapply outcome_impl; [apply (whole_ok b e l1 rest1); [done|]| |].
    { split_and!; try lia; [done|by apply Z.divide_sub_r; [|by apply Z.divide_sub_r]]. }
    2: { intros Hlt. destruct (decide (3 <= length rest)%nat) as [H3|]; [destruct (Hl1 H3); lia|lia]. }
    intros [r p] (l2 & rest2 & -> & [(-> & Hk2)|(-> & -> & -> & Hno)]).
    + exists (pa + sz), l2, rest2. split; [done|]. split; [|done]. pose proof (marked_good _ _ _ _ _ _ _ _ _ Hg1 Hk2) as Hg2.
      destruct Hk2 as (_ & _ & Ht2 & Hl2). split; [done|]. split_and!; [lia|lia|done| |].
      * intros a. rewrite Ht2, Ht1. unfold in_range.
        repeat match goal with
        | |- context [?x <=? ?y] => destruct (Z.leb_spec x y)
        | |- context [?x <? ?y] => destruct (Z.ltb_spec x y)
        end; cbn; done || lia.
      * intros H5. destruct Hl1; [lia|]. destruct Hl2; lia.
    + exists m, l1, rest1. split; [done|]. split.
      * split; [done|]. split_and!; [lia|lia|done|done|]. intros. destruct Hl1; lia.
      * intros (x & t1 & t2 & Hx & C1 & C2). exfalso.
        assert (x <= m) as Hxm.
        { destruct (decide (x <= pa)); [lia|]. pose proof (contains_const b e l pa (x - pa) t1 s Hg) as Hcc. unfold contains in Hcc. fold m in Hcc.
          destruct Hcc; [lia|done|done|done|lia]. }
        destruct (one_segment b l1 e m (pa + sz - m) t2) as (y & Hy & Hin); [apply Hg1|apply Hg1|lia| |].
        { intros a Ha. rewrite Ht1. unfold in_range in Ha |- *. bool_to_prop. rewrite (proj2 (Z.ltb_ge a _)), andb_false_r by lia.
          apply C2. unfold in_range. by rewrite (proj2 (Z.leb_le _ _)), (proj2 (Z.ltb_lt _ _)) by lia. }
        apply (Hno y Hy). by replace (sz - (m - pa)) with (pa + sz - m) by lia.
Qed.
End Correct.

(** ** The map of a board *)

Section Tegra.
Context (malloc : Z → option (list pmem_segment_t)).
Hypothesis malloc_ok : ∀ n, 0 <= n → ∃ l, malloc n = Some l ∧ Z.of_nat (length l) = n.

Lemma page_pow : ∃ k, 0 <= k <= 62 ∧ 4096 = 2 ^ k.
Proof. by exists 12. Qed.

Definition active (i : Z) (c : carveout) : bool := negb ((cv_size c =? 0) || (i =? CARVEOUT_VM_ENCRYPT))%bool.

(** The type of the carveout an address is in. *)
Fixpoint carved (i : Z) (l : list carveout) (a : Z) : option Z :=
  match l with
  | [] => None
  | c :: l => if (active i c && in_range a (cv_base c) (cv_size c))%bool then Some (carveout_type i) else carved (i + 1) l a
  end.
Fixpoint n_active (i : Z) (l : list carveout) : nat :=
  match l with [] => O | c :: l => ((if active i c then 1 else 0) + n_active (i + 1) l)%nat end.

(** The carveouts in use lie in the memory, start and end on pages and do not overlap. *)
Fixpoint carveouts_ok (b e i : Z) (l : list carveout) : Prop :=
  match l with
  | [] => True
  | c :: l =>
      (active i c = true → ranged 4096 (cv_base c) (cv_size c) ∧ b <= cv_base c ∧ cv_base c + cv_size c <= e ∧
         ∀ a, in_range a (cv_base c) (cv_size c) = true → carved (i + 1) l a = None) ∧
      carveouts_ok b e (i + 1) l
  end.

Lemma carveout_loop_ok b e g cvs i l rest :
  good 4096 b e l → b <= g <= e → carveouts_ok b e i cvs →
  (∀ a t, carved i cvs a = Some t → type_at l a = Some (if a <? g then T234_PMEM_CACHE_COHERENT else T234_PMEM_CONVENTIONAL)) →
  outcome (carveout_loop malloc i cvs (pmap 4096 l rest))
    (λ p, ∃ l' rest', p = pmap 4096 l' rest' ∧ good 4096 b e l' ∧
      ∀ a, type_at l' a = match carved i cvs a with Some t => Some t | None => type_at l a end)
    (length rest < 4 * n_active i cvs + 1)%nat.
Proof.
  revert i l rest. induction cvs as [|c cvs IH]; intros i l rest Hg Hbg Hok Ht; cbn [carveout_loop].
  { exists l, rest. done. }
  cbn [carveouts_ok] in Hok. destruct Hok as [Hc Hok]. cbn [carved n_active] in *. unfold active in *.
  destruct ((cv_size c =? 0) || (i =? CARVEOUT_VM_ENCRYPT))%bool; cbn [negb andb] in *; cbn [mbind res_bind].
  { eapply outcome_impl; [by apply IH|done|lia]. }
  destruct (Hc eq_refl) as (Hr & Hb1 & Hb2 & Hdis). pose proof Hr as (? & ? & ? & _).
  assert (∀ a, in_range a (cv_base c) (cv_size c) = true →
    type_at l a = Some (if a <? g then T234_PMEM_CACHE_COHERENT else T234_PMEM_CONVENTIONAL)) as Htc.
  { intros a Ha. apply (Ht a (carveout_type i)). by rewrite Ha. }
  assert (two_types l (cv_base c) (cv_size c)) as Htwo.
  { exists (Z.max (cv_base c) (Z.min g (cv_base c + cv_size c))), T234_PMEM_CACHE_COHERENT, T234_PMEM_CONVENTIONAL.
    split; [lia|]. split; intros a Ha; unfold in_range in Ha; bool_to_prop; rewrite Htc;
      try (unfold in_range; by rewrite (proj2 (Z.leb_le _ _)), (proj2 (Z.ltb_lt _ _)) by lia); destruct (Z.ltb_spec a g); done || lia. }
  pose proof (set_split_ok malloc 4096 malloc_ok page_pow b e l rest _ _ (carveout_type i) Hg Hr) as Hset.
  destruct (pmem_set _ _ _ _ _ _) as [[r p]|f]; cbn [mbind res_bind outcome] in *; [|destruct Hset; split; [done|lia]].
  destruct Hset as (done & l1 & rest1 & -> & (Hg1 & _ & Hd & Ht1 & Hl1) & Hsucc).
  rewrite (Hd (Hsucc Htwo)) in Ht1. replace (cv_base c + cv_size c - cv_base c) with (cv_size c) in Ht1 by lia.
  eapply outcome_impl; [apply (IH (i + 1) l1 rest1); [done..|]| |].
  - intros a t Hat. rewrite Ht1. destruct (in_range a _ _) eqn:Er; [by rewrite Hdis in Hat|]. apply (Ht a t). by rewrite Er.
  - intros p (l' & rest' & -> & Hg' & Ht'). exists l', rest'. split; [done|]. split; [done|]. intros a. rewrite Ht', Ht1.
    destruct (in_range a _ _) eqn:Er; [by rewrite Hdis|done].
  - intros Hlt. destruct (decide (5 <= length rest)%nat) as [H5|]; [destruct (Hl1 H5)|]; lia.
Qed.

(** The type of an address after start-up, from what the boot loader says. *)
Definition board_type (cbp : cpubl_params) (a : Z) : option Z :=
  match carved 0 (carveout_info cbp) a with
  | Some t => Some t
  | None =>
      if in_range a (sdram_base cbp) (2 ^ 30) then Some T234_PMEM_CACHE_COHERENT
      else if in_range a (sdram_base cbp) (sdram_size cbp) then Some T234_PMEM_CONVENTIONAL
      else None
  end.

Record cbp_ok (cbp : cpubl_params) : Prop := {
  cbp_range : ranged 4096 (sdram_base cbp) (sdram_size cbp);
  cbp_gb : 2 ^ 30 <= sdram_size cbp;
  cbp_carveouts : carveouts_ok (sdram_base cbp) (sdram_base cbp + sdram_size cbp) 0 (carveout_info cbp) }.

Lemma carved_range b e cvs i a t : carveouts_ok b e i cvs → carved i cvs a = Some t → b <= a < e.
Proof.
  revert i. induction cvs as [|c cvs IH]; intros i; cbn; [done|]. intros [Hc Hok].
  destruct (active i c); cbn; [|by apply IH]. destruct (Hc eq_refl) as (_ & ? & ? & _).
  destruct (in_range a _ _) eqn:E; [|by apply IH]. unfold in_range in E. bool_to_prop. intros _. lia.
Qed.

Lemma add_first b sz ty :
  ranged 4096 b sz → ∃ rest, pmem_add malloc b sz ty (mk_pmem [] 0 4096) = Ret (pmap 4096 [mk_seg b sz ty] rest) ∧ (15 <= length rest)%nat.
Proof.
  intros (? & ? & ? & D1 & D2). unfold pmem_add. cbn [minimum_alignment].
  rewrite !(ALIGN_id 4096 page_pow) by (done || lia). change (add_loop (Z.to_nat (count (mk_pmem [] 0 4096))) 0 b (mk_pmem [] 0 4096)) with (Ret 0 : res Z).
  cbn [mbind res_bind].
  destruct (insert_ok malloc 4096 malloc_ok [] [] [] 0) as (s & r & E & Hr); [done|]. change (pmap 4096 ([] ++ []) []) with (mk_pmem [] 0 4096) in E.
  rewrite E. cbn [mbind res_bind]. rewrite (update_ok 4096 []) by done. cbn [mbind res_bind].
  exists r. split; [done|]. destruct Hr as [[_ ?]|Hr]; [done|]. cbn in Hr. lia.
Qed.

(** C32: the memory map of a Tegra board.  For any memory of at least a gigabyte and any
    carveouts on pages, in the memory, that do not overlap, [tegra_init_pmem] makes a map
    without gaps, neighbours of different types, in which each address has the type of the
    carveout it is in, or else that of the first gigabyte or the rest: cutting, merging
    and the split of a carveout that lies across the gigabyte line change nothing but the
    carveouts, and nothing is written outside the array, however often it grows.  The only
    other outcome is [OverRead], the copy from behind a full array, which only
    [pmem_erase] makes ([overread_erase]), and with at most three carveouts there is none. *)
Theorem tegra_map cbp :
  cbp_ok cbp →
  outcome (tegra_init_pmem malloc cbp)
    (λ p, ∃ l rest, p = pmap 4096 l rest ∧ good 4096 (sdram_base cbp) (sdram_base cbp + sdram_size cbp) l ∧
       ∀ a, type_at l a = board_type cbp a) (3 < n_active 0 (carveout_info cbp))%nat.
Proof.
  intros [Hr Hgb Hok]. pose proof Hr as (? & ? & ? & D1 & D2). unfold tegra_init_pmem.
  set (b := sdram_base cbp) in *. set (sz := sdram_size cbp) in *.
  destruct (add_first b sz T234_PMEM_CONVENTIONAL Hr) as (rest & E & Hrest). rewrite E. cbn [mbind res_bind].
  set (l0 := [mk_seg b sz T234_PMEM_CONVENTIONAL]).
  assert (∀ a, type_at l0 a = if in_range a b sz then Some T234_PMEM_CONVENTIONAL else None) as Ht0 by done.
  assert (good 4096 b (b + sz) l0) as Hg0 by (constructor; done || lia || (cbn; split_and!; done || lia)).
  assert (ranged 4096 b (1024 * 1024 * 1024)) as Hrg by (split_and!; done || lia || by exists 262144).
  pose proof (whole_ok malloc 4096 malloc_ok page_pow b (b + sz) l0 rest b _ T234_PMEM_CACHE_COHERENT Hg0 Hrg) as Hw.
  unfold pmem_set at 1. destruct (pmem_set_whole _ _ _ _ _) as [[r p]|f]; cbn [outcome mbind res_bind] in *; [|destruct Hw; lia].
  destruct Hw as (l1 & rest1 & -> & [(_ & Hk)|(_ & _ & _ & Hno)]).
  2: { exfalso. apply (Hno (mk_seg b sz T234_PMEM_CONVENTIONAL)); [set_solver|]. unfold contains. cbn. lia. }
  pose proof (marked_good _ _ _ _ _ _ _ _ _ _ Hg0 Hk) as Hg1. destruct Hk as (_ & _ & Ht1 & Hl1).
  change (1024 * 1024 * 1024) with (2 ^ 30) in *.
  eapply outcome_impl; [apply (carveout_loop_ok b (b + sz) (b + 2 ^ 30)); [done|lia|done|]| |].
  - intros a t Ha. pose proof (carved_range _ _ _ _ _ _ Hok Ha). rewrite Ht1, Ht0. unfold in_range.
    rewrite !(proj2 (Z.leb_le b a)), (proj2 (Z.ltb_lt a (b + sz))) by lia. by destruct (a <? b + 2 ^ 30).
  - intros p (l & r' & -> & Hg & Ht). exists l, r'. split; [done|]. split; [done|]. intros a. rewrite Ht, Ht1, Ht0. done.
  - intros Hlt. destruct Hl1; [lia|]. cbn in *. lia.
Qed.
End Tegra.

Module PmemWit.
Definition malloc (n : Z) : option (list pmem_segment_t) := Some (replicate (Z.to_nat n) (mk_seg 0 0 0)).
(** Two gigabytes with a firmware area across the gigabyte line and a shared page. *)
Definition cbp : cpubl_params :=
  mk_cbp 0x80000000 0x80000000
    (mk_carveout 0xBFFF0000 0x20000 :: replicate 27 (mk_carveout 0 0) ++ [mk_carveout 0xE0000000 0x1000]).
Lemma cbp_valid : cbp_ok cbp.
Proof.
  constructor.
  - split_and!; try (cbn; lia); [by exists 524288|by exists 524288].
  - cbn. lia.
  - cbn [cbp carveout_info sdram_base sdram_size]. cbn [carveouts_ok replicate app]. split.
    { intros _. cbn [cv_base cv_size]. split_and!; [split_and!; try lia; [by exists 786416|by exists 32]|lia|lia|].
      intros a Ha. unfold in_range in Ha. bool_to_prop. cbn. unfold in_range. cbn. by rewrite (proj2 (Z.leb_gt _ _)) by lia. }
    do 27 (split; [intros [=]|]). split; [|done]. intros _. cbn [cv_base cv_size].
    split_and!; [split_and!; try lia; [by exists 917504|by exists 1]|lia|lia|done].
Qed.
End PmemWit.

Lemma tegra_map_witness :
  cbp_ok PmemWit.cbp ∧
  outcome (tegra_init_pmem PmemWit.malloc PmemWit.cbp)
    (λ p, ∃ l rest, p = pmap 4096 l rest ∧ good 4096 0x80000000 0x100000000 l ∧
       ∀ a, type_at l a = board_type PmemWit.cbp a) False ∧
  board_type PmemWit.cbp 0xC0000000 = Some T234_PMEM_INACCESSIBLE.
Proof.
  split; [apply PmemWit.cbp_valid|]. split; [|vm_compute; reflexivity].
  eapply outcome_impl; [apply tegra_map; [|apply PmemWit.cbp_valid]|done|].
  - intros n Hn. eexists. split; [done|]. rewrite length_replicate. lia.
  - vm_compute. lia.
Defined.

(** ** What can go wrong *)

Module PmemLimits.
(** Sixteen pages of two types in an array for sixteen segments. *)
Definition full : pmem_t :=
  mk_pmem ((λ i, mk_seg (0x1000 * i) 0x1000 (i mod 2)) <$> seqZ 0 16) 16 4096.
(** A page of memory behind a firmware area. *)
Definition island : pmem_t :=
  mk_pmem [mk_seg 0x10000 0x1000 T234_PMEM_INACCESSIBLE; mk_seg 0x11000 0x1000 T234_PMEM_CONVENTIONAL;
           mk_seg 0x12000 0x1000 T234_PMEM_UNUSABLE] 3 4096.
Definition island_rooms : pmem_t := set_segments (segments island ++ replicate 5 (mk_seg 0 0 0)) island.
End PmemLimits.

(** Merging two segments of a full array reads the place behind its end. *)
Theorem pmem_erase_overread : pmem_set PmemWit.malloc 0 0x1000 1 false PmemLimits.full = Fault OverRead.
Proof. vm_compute. reflexivity. Qed.

(** An address is aligned by clearing the bit of the alignment: the only free page is at an
    odd page number, and the allocation takes and returns the firmware page before it. *)
Theorem pmem_alloc_wrong_segment :
  match pmem_alloc PmemWit.malloc 0x1000 T234_PMEM_CONVENTIONAL T234_PMEM_BOOT_SERVICES 4096 PmemLimits.island_rooms with
  | Ret (pa, p) =>
      pa = 0x10000 ∧ type_at (segments PmemLimits.island) pa = Some T234_PMEM_INACCESSIBLE ∧
      type_at (take 3 (segments p)) pa = Some T234_PMEM_BOOT_SERVICES ∧
      type_at (take 3 (segments p)) 0x11000 = Some T234_PMEM_CONVENTIONAL
  | Fault _ => False
  end.
Proof. vm_compute. repeat split. Qed.

(** Two areas of the same type that are not neighbours become one, in the wrong place. *)
Theorem pmem_add_gap :
  ('p ← pmem_add PmemWit.malloc 0x1000 0x1000 1 (mk_pmem [] 0 4096); pmem_add PmemWit.malloc 0x100000 0x1000 1 p) ≫=
    (λ p, Ret (take (Z.to_nat (count p)) (segments p))) = Ret [mk_seg 0x1000 0x2000 1].
Proof. vm_compute. reflexivity. Qed.

(** A carveout that covers another one is not marked beyond it, and the error is ignored. *)
Theorem carveout_lost :
  match tegra_init_pmem PmemWit.malloc
          (mk_cbp 0x80000000 0x80000000 [mk_carveout 0xE0001000 0x1000; mk_carveout 0xE0000000 0x3000]) with
  | Ret p =>
      let l := take (Z.to_nat (count p)) (segments p) in
      type_at l 0xE0000000 = Some T234_PMEM_INACCESSIBLE ∧ type_at l 0xE0002000 = Some T234_PMEM_CONVENTIONAL
  | Fault _ => False
  end.
Proof. vm_compute. repeat split. Qed.
