(* ===== verification/Pagetable.v ===== *)
(** * Pagetable: the identity map of the boot core, refined in place

    [src/cpu/aarch64/pagetable.c]: one table of 512 descriptors for the 1 GB regions (set
    up in [entry.S]), a pool of 64 tables that hold either the 2 MB entries of a region or
    the 4 KB entries of a 2 MB block, and the calls that map and unmap ranges; and the use
    the Tegra boot code makes of them ([t234ccplex.c]).

    A table is named by its index in the pool; [va_to_pa], an instruction of the processor,
    gives the physical address of a table of the pool.  [walk] is the translation of the
    processor as the comments of the source describe the descriptors; [view] is what it
    will be once [pt_apply] has installed the tables. *)

From Stdlib Require Import ZArith Lia.
From stdpp Require Import base list numbers.
From S2P Require Import Prelude Pmem.

Open Scope Z_scope.

(** ** Descriptors *)

Definition PT_VALID : Z := 1.
Definition PT_TABLE : Z := 2.
Definition PT_ATTR (i : Z) : Z := Z.shiftl (Z.land i 7) 2.
Definition PT_NS : Z := Z.shiftl 1 5.
Definition PT_AP_RW : Z := Z.shiftl 0 6.
Definition PT_SH_ISH : Z := Z.shiftl 3 8.
Definition PT_AF : Z := Z.shiftl 1 10.
Definition PT_PXN : Z := Z.shiftl 1 53.
Definition PT_UXN : Z := Z.shiftl 1 54.
Definition PT_BLOCK_COMMON : Z :=
  Z.lor (Z.lor (Z.lor (Z.lor PT_VALID PT_NS) PT_AP_RW) PT_SH_ISH) PT_AF.

Definition MB2 : Z := Z.shiftl 2 20.
Definition MB2_MASK : Z := MB2 - 1.
Definition KB4 : Z := Z.shiftl 1 12.
Definition KB4_MASK : Z := KB4 - 1.
Definition L2_BLOCK_PA_MASK : Z := 0x000FFFFFFFE00000.
Definition TABLE_PA_MASK : Z := 0x000FFFFFFFFFF000.

Inductive pt_mem_type_t := PT_DEVICE_NGNRNE | PT_NORMAL_WB | PT_NORMAL_NC.
Definition mem_type (t : pt_mem_type_t) : Z :=
  match t with PT_DEVICE_NGNRNE => 0 | PT_NORMAL_WB => 1 | PT_NORMAL_NC => 2 end.

Definition make_block (pa : Z) (type : pt_mem_type_t) : Z :=
  Z.lor (Z.lor pa PT_BLOCK_COMMON) (PT_ATTR (mem_type type)).
Definition make_page (pa : Z) (type : pt_mem_type_t) : Z := Z.lor (make_block pa type) PT_TABLE.

(** ** State *)

Definition MAX_TABLES : Z := 64.

Record pt_state := mk_pt {
  table_pool : list (list Z);
  table_pas : list Z;
  table_pool_used : Z;
  gb_to_l2 : list Z;
  initialized : bool;
  ttbr0 : list Z }.

Definition set_pool v s := mk_pt v (table_pas s) (table_pool_used s) (gb_to_l2 s) (initialized s) (ttbr0 s).
Definition set_ttbr0 v s := mk_pt (table_pool s) (table_pas s) (table_pool_used s) (gb_to_l2 s) (initialized s) v.
Definition set_gb_to_l2 v s := mk_pt (table_pool s) (table_pas s) (table_pool_used s) v (initialized s) (ttbr0 s).

Definition entry (i j : Z) (s : pt_state) : res Z := t ← arr_get (table_pool s) i; arr_get t j.
Definition set_entry (i j v : Z) (s : pt_state) : res pt_state :=
  t ← arr_get (table_pool s) i; t ← arr_put t j v; p ← arr_put (table_pool s) i t; Ret (set_pool p s).

(** ** The operations *)

Section Pagetable.
Context (va_to_pa : Z → Z).

Definition init_once (s : pt_state) : pt_state :=
  if initialized s then s
  else mk_pt (table_pool s) (table_pas s) 0 (replicate 512 (-1)) true (ttbr0 s).

Definition alloc_table (s : pt_state) : res (Z * pt_state) :=
  if MAX_TABLES <=? table_pool_used s then Fault Panic
  else
    let idx := table_pool_used s in
    pas ← arr_put (table_pas s) idx (va_to_pa idx);
    Ret (idx, mk_pt (table_pool s) pas (idx + 1) (gb_to_l2 s) (initialized s) (ttbr0 s)).

Fixpoint idx_loop (n : nat) (i : Z) (pa : Z) (s : pt_state) : res Z :=
  match n with
  | O => Fault Panic
  | S n => a ← arr_get (table_pas s) i; if a =? pa then Ret i else idx_loop n (i + 1) pa s
  end.
Definition table_idx_by_pa (pa : Z) (s : pt_state) : res Z := idx_loop (Z.to_nat (table_pool_used s)) 0 pa s.

Definition promote_l2 (gb : Z) (s : pt_state) : res (Z * pt_state) :=
  cur ← arr_get (gb_to_l2 s) gb;
  if 0 <=? cur then Ret (cur, s)
  else
    '(idx, s) ← alloc_table s;
    g ← arr_put (gb_to_l2 s) gb idx;
    let s := set_gb_to_l2 g s in
    l1 ← arr_get (ttbr0 s) gb;
    s ← (if Z.land l1 3 =? 1 then
           let attrs := Z.lor (Z.land l1 0xFFF) (Z.land l1 0xFFFF000000000000) in
           let base_pa := u64 (Z.shiftl gb 30) in
           for_up 512 0 (λ j, set_entry idx j (Z.lor (u64 (base_pa + Z.shiftl j 21)) attrs)) s
         else for_up 512 0 (λ j, set_entry idx j 0) s);
    Ret (idx, s).

(** [None] is the null pointer. *)
Definition promote_l3 (gb l2_idx : Z) (s : pt_state) : res (option Z * pt_state) :=
  '(l2, s) ← promote_l2 gb s;
  e ← entry l2 l2_idx s;
  if Z.land e 1 =? 0 then Ret (None, s)
  else if Z.land e 3 =? 3 then idx ← table_idx_by_pa (Z.land e TABLE_PA_MASK) s; Ret (Some idx, s)
  else
    '(idx, s) ← alloc_table s;
    let attrs := Z.lor (Z.lor (Z.land e 0xFFF) (Z.land e 0xFFFF000000000000)) PT_TABLE in
    let base_pa := Z.land e L2_BLOCK_PA_MASK in
    s ← for_up 512 0 (λ j, set_entry idx j (Z.lor (u64 (base_pa + Z.shiftl j 12)) attrs)) s;
    pa ← arr_get (table_pas s) idx;
    s ← set_entry l2 l2_idx (Z.lor (Z.lor pa PT_VALID) PT_TABLE) s;
    Ret (Some idx, s).

Definition write_l2_block (unmap : bool) (type : pt_mem_type_t) (pa : Z) (s : pt_state) : res pt_state :=
  let gb := s32 (Z.shiftr pa 30) in
  let l2_idx := Z.land (Z.shiftr pa 21) 0x1FF in
  '(l2, s) ← promote_l2 gb s;
  e ← entry l2 l2_idx s;
  if Z.land e 3 =? 3 then
    l3 ← table_idx_by_pa (Z.land e TABLE_PA_MASK) s;
    for_up 512 0 (λ j, set_entry l3 j (if unmap then 0 else make_page (u64 (pa + Z.shiftl j 12)) type)) s
  else set_entry l2 l2_idx (if unmap then 0 else make_block pa type) s.

Definition write_l3_page (unmap : bool) (type : pt_mem_type_t) (pa : Z) (s : pt_state) : res pt_state :=
  let gb := s32 (Z.shiftr pa 30) in
  let l2_idx := Z.land (Z.shiftr pa 21) 0x1FF in
  let l3_idx := Z.land (Z.shiftr pa 12) 0x1FF in
  '(l3, s) ← promote_l3 gb l2_idx s;
  match l3 with
  | None => Ret s
  | Some l3 => set_entry l3 l3_idx (if unmap then 0 else make_page pa type) s
  end.

(** [for(uint64_t pa = from; pa < end; pa += step)] *)
Fixpoint range_loop (fuel : nat) (pa end_ step : Z) (f : Z → pt_state → res pt_state) (s : pt_state) : res pt_state :=
  match fuel with
  | O => Fault NoFuel
  | S fuel => if pa <? end_ then s ← f pa s; range_loop fuel (u64 (pa + step)) end_ step f s else Ret s
  end.

Definition modify_range (va size : Z) (unmap : bool) (type : pt_mem_type_t) (s : pt_state) : res pt_state :=
  let s := init_once s in
  if size =? 0 then Ret s
  else if (negb (Z.land va KB4_MASK =? 0) || negb (Z.land size KB4_MASK =? 0))%bool then Fault Panic
  else
    let end_ := u64 (va + size) in
    let v2_start := Z.land (u64 (va + MB2_MASK)) (not64 MB2_MASK) in
    let v2_end := Z.land end_ (not64 MB2_MASK) in
    let fuel := S (Z.to_nat (Z.shiftr size 12)) in
    if v2_end <=? v2_start then range_loop fuel va end_ KB4 (write_l3_page unmap type) s
    else
      s ← range_loop fuel va v2_start KB4 (write_l3_page unmap type) s;
      s ← range_loop fuel v2_start v2_end MB2 (write_l2_block unmap type) s;
      range_loop fuel v2_end end_ KB4 (write_l3_page unmap type) s.

Definition pt_set (va size : Z) (type : pt_mem_type_t) : pt_state → res pt_state := modify_range va size false type.
Definition pt_unmap (va size : Z) : pt_state → res pt_state := modify_range va size true PT_DEVICE_NGNRNE.

(** Every valid entry of a table of 2 MB entries, and of the tables behind them. *)
Definition set_gb_entry (base_pa l2 : Z) (type : pt_mem_type_t) (j : Z) (s : pt_state) : res pt_state :=
  e ← entry l2 j s;
  if Z.land e 3 =? 3 then
    l3 ← table_idx_by_pa (Z.land e TABLE_PA_MASK) s;
    for_up 512 0 (λ k s,
      e ← entry l3 k s;
      if Z.land e PT_VALID =? 0 then Ret s
      else set_entry l3 k (make_page (u64 (base_pa + Z.shiftl j 21 + Z.shiftl k 12)) type) s) s
  else if Z.land e PT_VALID =? 0 then Ret s
  else set_entry l2 j (make_block (u64 (base_pa + Z.shiftl j 21)) type) s.

Definition pt_set_gb (gb : Z) (type : pt_mem_type_t) (s : pt_state) : res pt_state :=
  let s := init_once s in
  if ((gb <? 0) || (512 <=? gb))%bool then Ret s
  else
    l2 ← arr_get (gb_to_l2 s) gb;
    if 0 <=? l2 then for_up 512 0 (set_gb_entry (u64 (Z.shiftl gb 30)) l2 type) s
    else t ← arr_put (ttbr0 s) gb (make_block (u64 (Z.shiftl gb 30)) type); Ret (set_ttbr0 t s).

Definition unmap_gb_entry (l2 : Z) (j : Z) (s : pt_state) : res pt_state :=
  e ← entry l2 j s;
  if Z.land e 3 =? 3 then
    l3 ← table_idx_by_pa (Z.land e TABLE_PA_MASK) s;
    for_up 512 0 (λ k, set_entry l3 k 0) s
  else set_entry l2 j 0 s.

Definition pt_unmap_gb (gb : Z) (s : pt_state) : res pt_state :=
  let s := init_once s in
  if ((gb <? 0) || (512 <=? gb))%bool then Ret s
  else
    l2 ← arr_get (gb_to_l2 s) gb;
    if 0 <=? l2 then for_up 512 0 (unmap_gb_entry l2) s
    else t ← arr_put (ttbr0 s) gb 0; Ret (set_ttbr0 t s).

Definition apply_gb (gb : Z) (s : pt_state) : res pt_state :=
  l2 ← arr_get (gb_to_l2 s) gb;
  if l2 <? 0 then Ret s
  else
    pa ← arr_get (table_pas s) l2;
    t ← arr_put (ttbr0 s) gb (Z.lor (Z.lor pa PT_VALID) PT_TABLE); Ret (set_ttbr0 t s).
Definition pt_apply (s : pt_state) : res pt_state := for_up 512 0 apply_gb s.

(** ** The boot code of Tegra *)

(** The segments of the memory map that must not be touched, then the memory types. *)
Fixpoint unmap_segments (segs : list pmem_segment_t) (s : pt_state) : res pt_state :=
  match segs with
  | [] => Ret s
  | g :: segs =>
      s ← (if type g =? T234_PMEM_INACCESSIBLE then pt_unmap (paddr g) (size g) s else Ret s);
      unmap_segments segs s
  end.

Definition map_memory (p : pmem_t) (sdram_end : Z) (s : pt_state) : res pt_state :=
  s ← pt_unmap 0 (2 * 1024 * 1024) s;
  s ← unmap_segments (take (Z.to_nat (count p)) (segments p)) s;
  s ← pt_apply s;
  s ← pt_set_gb 2 PT_NORMAL_NC s;
  s ← for_up 509 3 (λ gb s, if sdram_end <=? u64 (Z.shiftl gb 30) then pt_unmap_gb gb s else pt_set_gb gb PT_NORMAL_WB s) s;
  pt_apply s.

Definition board_init_early (malloc : Z → option (list pmem_segment_t)) (cbp : cpubl_params) (s : pt_state) : res (pmem_t * pt_state) :=
  p ← tegra_init_pmem malloc cbp;
  s ← map_memory p (u64 (sdram_base cbp + sdram_size cbp)) s;
  Ret (p, s).

End Pagetable.

(** The tables before the first call, over the root of [entry.S]: device memory, the
    first two gigabytes never executed. *)
Definition entry_l1 (gb : Z) : Z :=
  Z.lor (Z.lor (gb * 2 ^ 30) 0x721) (if gb <? 2 then Z.lor PT_PXN PT_UXN else 0).
Definition boot_state : pt_state :=
  mk_pt (replicate 64 (replicate 512 0)) (replicate 64 0) 0 (replicate 512 0) false
    (entry_l1 <$> seqZ 0 512).
