(* ===== verification/PagetableSpec.v ===== *)
(** * PagetableSpec: what the processor sees

    [walk] is the translation through the tables as the comments of [pagetable.c] describe
    the descriptors, [view] the attributes of each page once [pt_apply] has installed the
    tables.  [wf] ties tables to regions and blocks: the owner of each table of the pool,
    and entries that map every address to itself.  Each call is a function on [view]. *)

From Stdlib Require Import ZArith Lia.
From stdpp Require Import base list numbers.
From S2P Require Import Prelude Pmem Pagetable.

Open Scope Z_scope.

(** ** Bits *)

(** Where an output address is, and the bits of a descriptor that are not address. *)
Definition OUT : Z := 0x0000FFFFFFFFF000.
Definition ATTRS : Z := 0xFFF0000000000FFF.

Definition is_addr (a : Z) : Prop := Z.land a OUT = a.
Definition is_attrs (x : Z) : Prop := Z.land x ATTRS = x.

(** What the code copies from a descriptor. *)
Definition CLONE : Z := 0xFFFF000000000FFF.

(** The attributes proper: without the bit that tells the kind of descriptor. *)
Definition attrs (e : Z) : Z := Z.land e 0xFFFF000000000FFD.

Lemma land_sub a m m' : Z.land a m = a → Z.land a m' = Z.land a (Z.land m m').
Proof. intros H. rewrite <- H at 1. by rewrite <- Z.land_assoc. Qed.

Lemma addr_land a m : is_addr a → Z.land OUT m = 0 → Z.land a m = 0.
Proof. intros H E. by rewrite (land_sub a OUT m), E, Z.land_0_r. Qed.

Lemma lor_land a x m : is_addr a → Z.land OUT m = 0 → Z.land (Z.lor a x) m = Z.land x m.
Proof. intros H E. by rewrite Z.land_lor_distr_l, addr_land. Qed.

Lemma lor_addr a x m : is_addr a → is_attrs x → Z.land ATTRS m = 0 → Z.land (Z.lor a x) m = Z.land a m.
Proof. intros Ha Hx E. by rewrite Z.land_lor_distr_l, (land_sub x ATTRS m Hx), E, Z.land_0_r, Z.lor_0_r. Qed.

Lemma addr_page q : 0 <= q < 2 ^ 36 → is_addr (q * 4096).
Proof.
  intros Hq. unfold is_addr. change OUT with (Z.shiftl (Z.ones 36) 12). change 4096 with (2 ^ 12).
  rewrite <- Z.shiftl_mul_pow2, <- Z.shiftl_land, Z.land_ones, Z.mod_small by lia. done.
Qed.

Lemma addr_mul a : 0 <= a < 2 ^ 48 → (4096 | a) → is_addr a.
Proof. intros Ha [q ->]. apply addr_page. lia. Qed.

Lemma attrs_sub x m : is_attrs x → Z.land ATTRS m = ATTRS → Z.land x m = x.
Proof. intros H E. by rewrite (land_sub x ATTRS m H), E. Qed.

(** ** Access to the tables *)

Definition at_ (l : list Z) (i : Z) : Z := nth (Z.to_nat i) l 0.
Definition E (s : pt_state) (i j : Z) : Z := at_ (nth (Z.to_nat i) (table_pool s) []) j.

Lemma arr_get_nth {A} (d : A) l i : 0 <= i < Z.of_nat (length l) → arr_get l i = Ret (nth (Z.to_nat i) l d).
Proof.
  intros Hi. apply arr_get_lookup; [lia|]. destruct (lookup_lt_is_Some_2 l (Z.to_nat i)) as [x Hx]; [lia|].
  rewrite Hx. f_equal. symmetry. by apply nth_lookup_Some.
Qed.

Lemma nth_insert {A} (d : A) l i j x :
  (i < length l)%nat → nth j (<[i := x]> l) d = if decide (i = j) then x else nth j l d.
Proof.
  intros Hi. rewrite !nth_lookup. destruct (decide (i = j)) as [<-|]; [by rewrite list_lookup_insert_eq|by rewrite list_lookup_insert_ne].
Qed.

Lemma arr_put_nth {A} (l : list A) i x : 0 <= i < Z.of_nat (length l) → arr_put l i x = Ret (<[Z.to_nat i := x]> l).
Proof.
  intros Hi. unfold arr_put. destruct l as [|d l]; [cbn in Hi; lia|]. by rewrite (arr_get_nth d).
Qed.

Record lengths (s : pt_state) : Prop := {
  len_pool : length (table_pool s) = 64%nat;
  len_table : ∀ i, 0 <= i < 64 → length (nth (Z.to_nat i) (table_pool s) []) = 512%nat;
  len_pas : length (table_pas s) = 64%nat;
  len_gb : length (gb_to_l2 s) = 512%nat;
  len_l1 : length (ttbr0 s) = 512%nat }.

Lemma entry_ok s i j : lengths s → 0 <= i < 64 → 0 <= j < 512 → entry i j s = Ret (E s i j).
Proof.
  intros Hl Hi Hj. unfold entry. rewrite (arr_get_nth []) by (rewrite (len_pool s Hl); lia). cbn [mbind res_bind].
  rewrite (arr_get_nth 0) by (rewrite (len_table s Hl) by lia; lia). done.
Qed.

(** [s'] is [s] with other entries in the pool. *)
Record same_tables (s s' : pt_state) : Prop := {
  st_len : lengths s'; st_pas : table_pas s' = table_pas s; st_used : table_pool_used s' = table_pool_used s;
  st_gb : gb_to_l2 s' = gb_to_l2 s; st_init : initialized s' = initialized s; st_l1 : ttbr0 s' = ttbr0 s }.

#[export] Instance same_tables_trans : Transitive same_tables.
Proof. intros s1 s2 s3 [] []. constructor; congruence. Qed.

Lemma same_tables_refl s : lengths s → same_tables s s.
Proof. by constructor. Qed.

Lemma set_entry_ok s i j v :
  lengths s → 0 <= i < 64 → 0 <= j < 512 →
  ∃ s', set_entry i j v s = Ret s' ∧ same_tables s s' ∧
    ∀ i' j', 0 <= i' → 0 <= j' → E s' i' j' = if ((i' =? i) && (j' =? j))%bool then v else E s i' j'.
Proof.
  intros Hl Hi Hj. unfold set_entry. rewrite (arr_get_nth []) by (rewrite (len_pool s Hl); lia). cbn [mbind res_bind].
  pose proof (len_table s Hl i Hi) as Ht. rewrite arr_put_nth by lia. cbn [mbind res_bind].
  rewrite arr_put_nth by (rewrite (len_pool s Hl); lia). cbn [mbind res_bind]. eexists. split; [done|].
  split.
  - constructor; try done. destruct Hl as [H1 H2 ? ? ?]. constructor; cbn; try done; [by rewrite length_insert|].
    intros i' Hi'. rewrite nth_insert by (rewrite H1; lia). destruct (decide _); [by rewrite length_insert|auto].
  - intros i' j' Hi' Hj'. unfold E, at_. cbn. rewrite nth_insert by (rewrite (len_pool s Hl); lia).
    destruct (decide _) as [Ei|Ei].
    + rewrite nth_insert by lia. assert (i' = i) as -> by lia. rewrite Z.eqb_refl. cbn.
      destruct (decide _) as [Ej|Ej], (Z.eqb_spec j' j); done || lia.
    + destruct (Z.eqb_spec i' i); [lia|done].
Qed.

(** A table is filled. *)
Lemma fill_table_ok s i f :
  lengths s → 0 <= i < 64 →
  ∃ s', for_up 512 0 (λ j, set_entry i j (f j)) s = Ret s' ∧ same_tables s s' ∧
    ∀ i' j', 0 <= i' → 0 <= j' < 512 → E s' i' j' = if i' =? i then f j' else E s i' j'.
Proof.
  intros Hl Hi.
  destruct (for_up_ind (λ n s', same_tables s s' ∧
    ∀ i' j', 0 <= i' → 0 <= j' < 512 → E s' i' j' = if ((i' =? i) && (j' <? n))%bool then f j' else E s i' j')
    (λ j, set_entry i j (f j)) 512 0 s) as (s' & E1 & H1 & H2).
  - split; [by apply same_tables_refl|]. intros i' j' ? ?. rewrite (proj2 (Z.ltb_ge _ _)), andb_false_r by lia. done.
  - intros j a Hj [Ha1 Ha2]. destruct (set_entry_ok a i j (f j)) as (a' & E1 & Ha' & HE); [apply Ha1|done|lia|].
    exists a'. split; [done|]. split; [by etransitivity|]. intros i' j' Hi' Hj'. rewrite HE, Ha2 by lia.
    destruct (Z.eqb_spec i' i), (Z.eqb_spec j' j), (Z.ltb_spec j' j), (Z.ltb_spec j' (j + 1)); cbn; try done; try lia. by subst.
  - exists s'. split; [done|]. split; [done|]. intros i' j' ? ?. rewrite H2, (proj2 (Z.ltb_lt _ _)), andb_true_r by lia. done.
Qed.

(** ** The tables and their owners *)

Definition gbi (s : pt_state) (g : Z) : Z := at_ (gb_to_l2 s) g.
Definition split (s : pt_state) (g : Z) : bool := 0 <=? gbi s g.

(** An entry that is invalid, or maps its address to itself; [ty] 1 is a block, 3 a page. *)
Definition leaf (ty a e : Z) : Prop := Z.land e 1 = 0 ∨ ∃ x, is_attrs x ∧ Z.land x 3 = ty ∧ e = Z.lor a x.

Definition addr2 (g j : Z) : Z := g * 2 ^ 30 + j * 2 ^ 21.
Definition addr3 (g j k : Z) : Z := addr2 g j + k * 2 ^ 12.

Lemma addr2_addr g j : 0 <= g < 512 → 0 <= j < 512 → is_addr (addr2 g j).
Proof. intros. apply addr_mul; unfold addr2; [lia|]. exists (g * 2 ^ 18 + j * 2 ^ 9). lia. Qed.
Lemma addr3_addr g j k : 0 <= g < 512 → 0 <= j < 512 → 0 <= k < 512 → is_addr (addr3 g j k).
Proof. intros. apply addr_mul; unfold addr3, addr2; [lia|]. exists (g * 2 ^ 18 + j * 2 ^ 9 + k). lia. Qed.

Inductive owner := OwnL2 (g : Z) | OwnL3 (g j : Z).

Section Tables.
Context (va_to_pa : Z → Z).
Hypothesis pa_addr : ∀ i, 0 <= i < 64 → is_addr (va_to_pa i).
Hypothesis pa_inj : ∀ i k, 0 <= i < 64 → 0 <= k < 64 → va_to_pa i = va_to_pa k → i = k.

Definition link (k : Z) : Z := Z.lor (va_to_pa k) 3.

(** The table a descriptor points to. *)
Definition table_at (pa : Z) : Z :=
  match find (λ i, va_to_pa i =? pa) (seqZ 0 64) with Some i => i | None => 0 end.
Definition tidx (e : Z) : Z := table_at (Z.land e OUT).

Definition l3_ok (own : Z → owner) (s : pt_state) (g j e k : Z) : Prop :=
  0 <= k < table_pool_used s ∧ own k = OwnL3 g j ∧ e = link k ∧ ∀ m, 0 <= m < 512 → leaf 3 (addr3 g j m) (E s k m).
Definition l2_ok (own : Z → owner) (s : pt_state) (g j e : Z) : Prop :=
  leaf 1 (addr2 g j) e ∨ ∃ k, l3_ok own s g j e k.

Record wf (own : Z → owner) (s : pt_state) : Prop := {
  wf_len : lengths s;
  wf_init : initialized s = true;
  wf_used : 0 <= table_pool_used s <= 64;
  wf_pas : ∀ i, 0 <= i < table_pool_used s → at_ (table_pas s) i = va_to_pa i;
  wf_gb : ∀ g, 0 <= g < 512 →
    (gbi s g = -1 ∧ leaf 1 (g * 2 ^ 30) (at_ (ttbr0 s) g)) ∨ (0 <= gbi s g < table_pool_used s ∧ own (gbi s g) = OwnL2 g);
  wf_l2 : ∀ g j, 0 <= g < 512 → 0 <= j < 512 → split s g = true → l2_ok own s g j (E s (gbi s g) j) }.

(** The descriptor of a 2 MB block [b], and of a page [p]. *)
Definition l2e (s : pt_state) (b : Z) : Z :=
  if split s (b / 512) then E s (gbi s (b / 512)) (b mod 512) else at_ (ttbr0 s) (b / 512).
Definition desc (s : pt_state) (p : Z) : Z :=
  let e := l2e s (p / 512) in if Z.land e 3 =? 3 then E s (tidx e) (p mod 512) else e.
Definition sees (d : Z) : option Z := if Z.land d 1 =? 0 then None else Some (attrs d).
Definition view (s : pt_state) (p : Z) : option Z := sees (desc s p).

(** Blocks without a translation, and blocks that are neither that nor a table. *)
Definition hole (s : pt_state) (b : Z) : bool := Z.land (l2e s b) 1 =? 0.
Definition blk (s : pt_state) (b : Z) : bool := Z.land (l2e s b) 3 =? 1.

(** *** Descriptors *)

Lemma land_1_3 e : Z.land e 1 = 0 → Z.land e 3 ≠ 3 ∧ Z.land e 3 ≠ 1.
Proof.
  intros H. assert (Z.land (Z.land e 3) 1 = 0) as H1 by (by rewrite <- Z.land_assoc).
  split; intros H2; rewrite H2 in H1; done.
Qed.

Lemma land_3_1 e : Z.land e 3 = 3 ∨ Z.land e 3 = 1 → Z.land e 1 = 1.
Proof. intros H. replace (Z.land e 1) with (Z.land (Z.land e 3) 1) by (by rewrite <- Z.land_assoc). by destruct H as [->| ->]. Qed.

Lemma leaf_lor a x ty : is_addr a → is_attrs x → Z.land x 3 = ty →
  Z.land (Z.lor a x) 3 = ty ∧ attrs (Z.lor a x) = attrs x ∧ Z.land (Z.lor a x) CLONE = x ∧ Z.land (Z.lor a x) OUT = a.
Proof.
  intros Ha Hx Hty. unfold attrs. rewrite !(lor_land a x) by done. rewrite (lor_addr a x OUT) by done. by rewrite (attrs_sub x CLONE).
Qed.

Lemma leaf1_not3 a e : is_addr a → leaf 1 a e → Z.land e 3 ≠ 3.
Proof.
  intros Ha [H|(x & Hx & H3 & ->)]; [by apply land_1_3|]. destruct (leaf_lor a x 1 Ha Hx H3) as [-> _]. done.
Qed.

Lemma link_ok k : 0 <= k < 64 → Z.land (link k) 3 = 3 ∧ Z.land (link k) 1 = 1 ∧ Z.land (link k) TABLE_PA_MASK = va_to_pa k ∧ tidx (link k) = k.
Proof.
  intros Hk. pose proof (pa_addr k Hk) as Ha. unfold link, tidx.
  rewrite !(lor_land _ _ 3), !(lor_land _ _ 1) by done.
  rewrite !Z.land_lor_distr_l. change (Z.land 3 TABLE_PA_MASK) with 0. change (Z.land 3 OUT) with 0. rewrite !Z.lor_0_r.
  rewrite (land_sub _ OUT TABLE_PA_MASK Ha). change (Z.land OUT TABLE_PA_MASK) with OUT. rewrite Ha. split_and!; try done.
  unfold table_at. destruct (find _ _) as [i|] eqn:Ef.
  - apply find_some in Ef as [Hi Hp]. apply list_elem_of_In, elem_of_seqZ in Hi. bool_to_prop. apply pa_inj; [lia|done|done].
  - assert (k ∈ seqZ 0 64) as Hin by (apply elem_of_seqZ; lia). apply list_elem_of_In in Hin.
    pose proof (find_none _ _ Ef k Hin) as Hn. cbn in Hn. bool_to_prop. done.
Qed.

Lemma table_idx_ok own s k : wf own s → 0 <= k < table_pool_used s → table_idx_by_pa (va_to_pa k) s = Ret k.
Proof.
  intros Hwf Hk. unfold table_idx_by_pa. pose proof (wf_used _ _ Hwf) as Hu.
  assert (∀ n i, 0 <= i <= k → i + Z.of_nat n = table_pool_used s → idx_loop n i (va_to_pa k) s = Ret k) as H.
  { induction n as [|n IH]; intros i Hi Hn; [lia|]. cbn [idx_loop].
    rewrite (arr_get_nth 0) by (rewrite (len_pas s (wf_len _ _ Hwf)); lia). cbn [mbind res_bind].
    fold (at_ (table_pas s) i). rewrite (wf_pas _ _ Hwf) by lia. destruct (Z.eqb_spec (va_to_pa i) (va_to_pa k)) as [Ek|Ek].
    - f_equal. apply pa_inj; lia || done.
    - apply IH; [|lia]. destruct (decide (i = k)); [by subst|lia]. }
  apply H; lia.
Qed.

(** *** Blocks and pages *)

Lemma block_bounds b : 0 <= b < 2 ^ 18 → 0 <= b / 512 < 512 ∧ 0 <= b mod 512 < 512.
Proof. intros. dlia. Qed.

Lemma page_bounds p : 0 <= p < 2 ^ 27 → 0 <= p / 512 < 2 ^ 18 ∧ 0 <= p mod 512 < 512.
Proof. intros. dlia. Qed.

Lemma block_cases own s b :
  wf own s → 0 <= b < 2 ^ 18 →
  Z.land (l2e s b) 3 ≠ 3 ∨
  ∃ k, split s (b / 512) = true ∧ l3_ok own s (b / 512) (b mod 512) (l2e s b) k ∧ tidx (l2e s b) = k.
Proof.
  intros Hwf Hb. destruct (block_bounds b Hb) as [Hg Hj]. unfold l2e. destruct (split s (b / 512)) eqn:Es.
  - destruct (wf_l2 _ _ Hwf _ _ Hg Hj Es) as [H|(k & H)].
    + left. apply (leaf1_not3 (addr2 (b / 512) (b mod 512))); [by apply addr2_addr|done].
    + right. exists k. split; [done|]. split; [done|]. destruct H as (Hk & _ & -> & _). apply link_ok.
      pose proof (wf_used _ _ Hwf). lia.
  - left. destruct (wf_gb _ _ Hwf _ Hg) as [[_ H]|[H _]]; [|unfold split in Es; bool_to_prop; lia].
    apply (leaf1_not3 (b / 512 * 2 ^ 30)); [|done]. apply addr_mul; [lia|]. exists (b / 512 * 2 ^ 18). lia.
Qed.

(** Nothing changes for a page whose block entry and table stay. *)
Lemma view_frame own s s' p :
  wf own s → 0 <= p < 2 ^ 27 → l2e s' (p / 512) = l2e s (p / 512) →
  (∀ k, split s (p / 512 / 512) = true → own k = OwnL3 (p / 512 / 512) ((p / 512) mod 512) → 0 <= k < table_pool_used s →
    E s' k (p mod 512) = E s k (p mod 512)) →
  view s' p = view s p.
Proof.
  intros Hwf Hp He HE. unfold view, desc. rewrite He. destruct (Z.eqb_spec (Z.land (l2e s (p / 512)) 3) 3) as [H3|]; [|done].
  destruct (block_cases own s (p / 512) Hwf) as [?|(k & Hs & (Hk & Ho & _) & ->)]; [apply page_bounds, Hp|done|].
  by rewrite HE.
Qed.

Lemma l3_frame own own' s s' g j e k :
  (∀ i, 0 <= i < table_pool_used s → own' i = own i) →
  (∀ i m, 0 <= i < table_pool_used s → own i = OwnL3 g j → 0 <= m < 512 → E s' i m = E s i m) →
  table_pool_used s <= table_pool_used s' → l3_ok own s g j e k → l3_ok own' s' g j e k.
Proof.
  intros Ho HE Hu (Hk & Hok & -> & Hl). split; [lia|]. split; [by rewrite Ho|]. split; [done|].
  intros m Hm. rewrite HE by done. by apply Hl.
Qed.

Lemma alloc_table_ok own s :
  wf own s → table_pool_used s < 64 →
  let u := table_pool_used s in
  alloc_table va_to_pa s =
    Ret (u, mk_pt (table_pool s) (<[Z.to_nat u := va_to_pa u]> (table_pas s)) (u + 1) (gb_to_l2 s) (initialized s) (ttbr0 s)).
Proof.
  intros Hwf Hu u. pose proof (wf_used _ _ Hwf). unfold alloc_table, MAX_TABLES. rewrite (proj2 (Z.leb_gt _ _)) by lia.
  rewrite arr_put_nth by (rewrite (len_pas s (wf_len _ _ Hwf)); lia). done.
Qed.

(** What a split of region [g] leaves as it was. *)
Record split_ok (s s' : pt_state) (g : Z) : Prop := {
  sp_view : ∀ p, 0 <= p < 2 ^ 27 → view s' p = view s p;
  sp_hole : ∀ b, 0 <= b < 2 ^ 18 → hole s' b = hole s b;
  sp_blk : ∀ b, 0 <= b < 2 ^ 18 → blk s' b = blk s b;
  sp_split : ∀ g', 0 <= g' < 512 → split s' g' = (split s g' || (g' =? g))%bool;
  sp_used : table_pool_used s' = table_pool_used s + (if split s g then 0 else 1) }.

Lemma split_ok_refl s g : split s g = true → split_ok s s g.
Proof.
  intros H. constructor; try done; [|by rewrite H, Z.add_0_r]. intros g' _. destruct (Z.eqb_spec g' g) as [->|]; [by rewrite H|by rewrite orb_false_r].
Qed.

Lemma sees_clone a a' x : is_addr a → is_addr a' → is_attrs x → sees (Z.lor a' x) = sees (Z.lor a x).
Proof. intros. unfold sees, attrs. by rewrite !(lor_land a), !(lor_land a'). Qed.

Definition clone (l1 g j : Z) : Z :=
  if Z.land l1 3 =? 1 then Z.lor (addr2 g j) (Z.land l1 CLONE) else 0.

(** The entries of a new table say what the entry of the region said. *)
Lemma clone_ok l1 g j :
  0 <= g < 512 → 0 <= j < 512 → leaf 1 (g * 2 ^ 30) l1 →
  leaf 1 (addr2 g j) (clone l1 g j) ∧ sees (clone l1 g j) = sees l1 ∧
  (Z.land (clone l1 g j) 1 =? 0) = (Z.land l1 1 =? 0) ∧ (Z.land (clone l1 g j) 3 =? 1) = (Z.land l1 3 =? 1).
Proof.
  intros Hg Hj [H|(x & Hx & H3 & ->)]; unfold clone.
  - destruct (land_1_3 _ H) as [_ H1]. rewrite (proj2 (Z.eqb_neq _ _) H1). unfold sees. rewrite H. split_and!; try done. by left.
  - assert (is_addr (g * 2 ^ 30)) as Ha by (apply addr_mul; [lia|]; exists (g * 2 ^ 18); lia).
    destruct (leaf_lor _ x 1 Ha Hx H3) as (E3 & _ & EA & _). rewrite E3, EA. cbn.
    pose proof (addr2_addr g j Hg Hj) as Ha'. destruct (leaf_lor _ x 1 Ha' Hx H3) as (E3' & _). rewrite E3'.
    split; [right; by exists x|]. split; [by apply sees_clone|]. by rewrite !(lor_land _ x 1).
Qed.

Lemma promote_l2_ok own s g :
  wf own s → 0 <= g < 512 → split s g = true ∨ table_pool_used s < 64 →
  ∃ s' own', promote_l2 va_to_pa g s = Ret (gbi s' g, s') ∧ wf own' s' ∧ split_ok s s' g.
Proof.
  intros Hwf Hg Hroom. pose proof (wf_len _ _ Hwf) as Hlen. unfold promote_l2.
  rewrite (arr_get_nth 0) by (rewrite (len_gb s Hlen); lia). cbn [mbind res_bind]. fold (at_ (gb_to_l2 s) g). fold (gbi s g). fold (split s g).
  destruct (split s g) eqn:Es.
  { exists s, own. split; [done|]. split; [done|by apply split_ok_refl]. }
  destruct Hroom as [|Hroom]; [done|]. rewrite (alloc_table_ok own s Hwf Hroom). cbn [mbind res_bind gb_to_l2].
  rewrite arr_put_nth by (rewrite (len_gb s Hlen); lia). cbn [mbind res_bind].
  set (u := table_pool_used s). set (s1 := set_gb_to_l2 _ _).
  assert (lengths s1) as Hlen1 by (destruct Hlen; constructor; cbn; try done; by rewrite length_insert).
  rewrite (arr_get_nth 0) by (rewrite (len_l1 s1 Hlen1); lia). cbn [mbind res_bind].
  change (nth (Z.to_nat g) (ttbr0 s1) 0) with (at_ (ttbr0 s) g). set (l1 := at_ (ttbr0 s) g).
  pose proof (wf_used _ _ Hwf) as Hu. destruct (wf_gb _ _ Hwf g Hg) as [[Eg Hl1]|[H _]]; [|unfold split in Es; bool_to_prop; lia].
  fold l1 in Hl1.
  assert (∃ s', (if Z.land l1 3 =? 1 then
      for_up 512 0 (λ j, set_entry u j (Z.lor (u64 (u64 (Z.shiftl g 30) + Z.shiftl j 21)) (Z.lor (Z.land l1 0xFFF) (Z.land l1 0xFFFF000000000000)))) s1
      else for_up 512 0 (λ j, set_entry u j 0) s1) = Ret s' ∧ same_tables s1 s' ∧
    ∀ i' j', 0 <= i' → 0 <= j' < 512 → E s' i' j' = if i' =? u then clone l1 g j' else E s i' j') as (s' & Ef & Hst & HE).
  { unfold clone. rewrite <- Z.land_lor_distr_r. change (Z.lor 0xFFF 0xFFFF000000000000) with CLONE. destruct (Z.land l1 3 =? 1).
    - destruct (fill_table_ok s1 u (λ j, Z.lor (u64 (u64 (Z.shiftl g 30) + Z.shiftl j 21)) (Z.land l1 CLONE))) as (s' & Ef & Hst & HE);
        [done|lia|]. exists s'. split; [done|]. split; [done|]. intros i' j' Hi' Hj'. rewrite HE by done.
      destruct (i' =? u); [|done]. rewrite !Z.shiftl_mul_pow2 by lia. rewrite !u64_small; [done|lia|rewrite u64_small; lia].
    - destruct (fill_table_ok s1 u (λ j, 0)) as (s' & Ef & Hst & HE); [done|lia|]. by exists s'. }
  rewrite Ef. cbn [mbind res_bind]. destruct Hst as [Hlen' Hpas' Hused' Hgb' Hinit' Hl1'].
  assert (table_pool_used s' = u + 1) as Hu' by (by rewrite Hused').
  assert (∀ g', 0 <= g' < 512 → gbi s' g' = if g' =? g then u else gbi s g') as Hgbi.
  { intros g' Hg'. unfold gbi, at_. rewrite Hgb'. cbn. rewrite nth_insert by (rewrite (len_gb s Hlen); lia).
    destruct (decide _), (Z.eqb_spec g' g); done || lia. }
  assert (∀ g', 0 <= g' < 512 → split s' g' = (split s g' || (g' =? g))%bool) as Hsplit.
  { intros g' Hg'. unfold split. rewrite Hgbi by done. destruct (g' =? g); [|by rewrite orb_false_r].
    rewrite (proj2 (Z.leb_le 0 u)) by lia. by rewrite orb_true_r. }
  set (own' := λ i, if i =? u then OwnL2 g else own i).
  assert (∀ i, 0 <= i < u → own' i = own i) as Hown by (intros i Hi; unfold own'; by rewrite (proj2 (Z.eqb_neq _ _)) by lia).
  assert (∀ i m, 0 <= i < u → 0 <= m < 512 → E s' i m = E s i m) as HEold.
  { intros i m Hi Hm. rewrite HE by lia. by rewrite (proj2 (Z.eqb_neq _ _)) by lia. }
  assert (∀ b, 0 <= b < 2 ^ 18 → b / 512 ≠ g → l2e s' b = l2e s b) as Hother.
  { intros b Hb Hne. destruct (block_bounds b Hb). unfold l2e. rewrite Hsplit, Hgbi, (proj2 (Z.eqb_neq _ _)), orb_false_r, Hl1' by done.
    destruct (split s (b / 512)) eqn:Es'; [|done]. destruct (wf_gb _ _ Hwf (b / 512)) as [[H' _]|[H' _]]; [done| |by apply HEold].
    unfold split in Es'. rewrite H' in Es'. done. }
  assert (∀ b, 0 <= b < 2 ^ 18 → b / 512 = g → l2e s b = l1 ∧ l2e s' b = clone l1 g (b mod 512)) as Hown2.
  { intros b Hb <-. destruct (block_bounds b Hb). unfold l2e. rewrite Hsplit, Hgbi, Z.eqb_refl, orb_true_r, Es by done.
    split; [done|]. rewrite HE, Z.eqb_refl by lia. done. }
  exists s', own'. split; [f_equal; f_equal; by rewrite Hgbi, Z.eqb_refl|]. split.
  - constructor; [done|by rewrite Hinit'; apply (wf_init _ _ Hwf)|lia| | |].
    + intros i Hi. unfold at_. rewrite Hpas'. cbn. rewrite nth_insert by (rewrite (len_pas s Hlen); lia).
      destruct (decide _); [f_equal; lia|]. apply (wf_pas _ _ Hwf). lia.
    + intros g' Hg'. rewrite Hgbi, Hu' by done. destruct (Z.eqb_spec g' g) as [->|Hne].
      { right. split; [lia|]. unfold own'. by rewrite Z.eqb_refl. }
      destruct (wf_gb _ _ Hwf g' Hg') as [[E1 H]|[E1 H]]; [left|right]; [by rewrite Hl1'|]. split; [lia|]. by rewrite Hown.
    + intros g' j Hg' Hj Hs'. rewrite Hgbi by done. rewrite Hsplit in Hs' by done. destruct (Z.eqb_spec g' g) as [->|Hne].
      { left. rewrite HE, Z.eqb_refl by lia. apply clone_ok; done. }
      rewrite orb_false_r in Hs'. destruct (wf_gb _ _ Hwf g' Hg') as [[H' _]|[H' _]]; [unfold split in Hs'; rewrite H' in Hs'; done|].
      rewrite HEold by done. destruct (wf_l2 _ _ Hwf g' j Hg' Hj Hs') as [H|[k H]]; [by left|right; exists k].
      eapply l3_frame; [exact Hown| |lia|exact H]. intros; by apply HEold.
  - constructor; [| | |done|by rewrite Es].
    + intros p Hp. destruct (page_bounds p Hp) as [Hb _]. destruct (decide (p / 512 / 512 = g)) as [Hpg|Hne].
      * destruct (Hown2 _ Hb Hpg) as [E1 E2]. destruct (block_bounds _ Hb) as [_ Hj]. destruct (clone_ok l1 g ((p / 512) mod 512) Hg Hj Hl1) as (Hleaf & Hs & _).
        unfold view, desc. rewrite E1, E2.
        assert (Z.land l1 3 ≠ 3) as Hn3 by (apply (leaf1_not3 (g * 2 ^ 30)); [apply addr_mul; [lia|]; exists (g * 2 ^ 18); lia|done]).
        rewrite (proj2 (Z.eqb_neq _ _) Hn3). pose proof (leaf1_not3 _ _ (addr2_addr g _ Hg Hj) Hleaf) as Hc3. by rewrite (proj2 (Z.eqb_neq _ _) Hc3).
      * apply (view_frame own); [done|done|by apply Hother|]. intros k _ _ Hk. apply HEold; [done|]. apply page_bounds, Hp.
    + intros b Hb. unfold hole. destruct (decide (b / 512 = g)) as [Hpg|Hne]; [|by rewrite Hother].
      destruct (Hown2 _ Hb Hpg) as [-> ->]. destruct (block_bounds _ Hb) as [_ Hj]. by apply clone_ok.
    + intros b Hb. unfold blk. destruct (decide (b / 512 = g)) as [Hpg|Hne]; [|by rewrite Hother].
      destruct (Hown2 _ Hb Hpg) as [-> ->]. destruct (block_bounds _ Hb) as [_ Hj]. by apply clone_ok.
Qed.

(** *** Writing entries *)

Lemma gbi_owner own s g : wf own s → 0 <= g < 512 → split s g = true → 0 <= gbi s g < table_pool_used s ∧ own (gbi s g) = OwnL2 g.
Proof.
  intros Hwf Hg Hs. destruct (wf_gb _ _ Hwf g Hg) as [[H _]|H]; [|done]. unfold split in Hs. rewrite H in Hs. done.
Qed.

Lemma same_gbi s s' g : same_tables s s' → gbi s' g = gbi s g ∧ split s' g = split s g.
Proof. intros H. unfold split, gbi. by rewrite (st_gb _ _ H). Qed.

(** Other entries in the table of a block. *)
Lemma l3_write own s s' g j k :
  wf own s → 0 <= g < 512 → 0 <= j < 512 → split s g = true → 0 <= k < table_pool_used s → own k = OwnL3 g j → E s (gbi s g) j = link k →
  same_tables s s' → (∀ i m, 0 <= i → 0 <= m < 512 → i ≠ k → E s' i m = E s i m) →
  (∀ m, 0 <= m < 512 → leaf 3 (addr3 g j m) (E s' k m)) →
  wf own s' ∧ (∀ b, 0 <= b < 2 ^ 18 → l2e s' b = l2e s b) ∧
  (∀ p, 0 <= p < 2 ^ 27 → view s' p = if p / 512 =? g * 512 + j then sees (E s' k (p mod 512)) else view s p).
Proof.
  intros Hwf Hg Hj Hs Hk Ho He Hst HE Hleaf. pose proof (wf_used _ _ Hwf) as Hu. pose proof (st_used _ _ Hst) as Hu'.
  assert (∀ g' j', 0 <= g' < 512 → 0 <= j' < 512 → split s g' = true → E s' (gbi s g') j' = E s (gbi s g') j') as HE2.
  { intros g' j' Hg' Hj' Hs'. destruct (gbi_owner own s g' Hwf Hg' Hs') as [Hi Ho']. apply HE; [lia|done|]. intros Ek. rewrite Ek in Ho'. congruence. }
  assert (∀ b, 0 <= b < 2 ^ 18 → l2e s' b = l2e s b) as Hl2.
  { intros b Hb. destruct (block_bounds b Hb). unfold l2e. destruct (same_gbi s s' (b / 512) Hst) as [-> ->]. rewrite (st_l1 _ _ Hst).
    destruct (split s (b / 512)) eqn:Es; [|done]. by apply HE2. }
  split; [|split; [done|]].
  - constructor; [apply Hst|by rewrite (st_init _ _ Hst); apply (wf_init _ _ Hwf)|lia| | |].
    + intros i Hi. rewrite (st_pas _ _ Hst). apply (wf_pas _ _ Hwf). lia.
    + intros g' Hg'. destruct (same_gbi s s' g' Hst) as [-> _]. rewrite (st_l1 _ _ Hst), Hu'. by apply (wf_gb _ _ Hwf).
    + intros g' j' Hg' Hj' Hs'. destruct (same_gbi s s' g' Hst) as [Eg Es]. rewrite Eg. rewrite Es in Hs'. rewrite HE2 by done.
      destruct (wf_l2 _ _ Hwf g' j' Hg' Hj' Hs') as [H|[k' H]]; [by left|right; exists k'].
      destruct H as (Hk' & Ho' & -> & Hl'). split; [lia|]. split; [done|]. split; [done|]. intros m Hm.
      destruct (decide (k' = k)) as [->|]; [|rewrite HE by (lia || done); by apply Hl'].
      rewrite Ho in Ho'. injection Ho' as <- <-. by apply Hleaf.
  - intros p Hp. destruct (page_bounds p Hp) as [Hb Hm]. destruct (block_bounds _ Hb) as [Hbg Hbj].
    destruct (Z.eqb_spec (p / 512) (g * 512 + j)) as [Epb|Hne].
    + unfold view, desc. rewrite Hl2 by done. unfold l2e. rewrite Epb.
      replace ((g * 512 + j) / 512) with g by dlia. replace ((g * 512 + j) mod 512) with j by dlia.
      rewrite Hs, He. destruct (link_ok k) as (-> & _ & _ & ->); [lia|]. done.
    + apply (view_frame own); [done|done|by apply Hl2|]. intros i Hsp Hoi Hi. apply HE; [lia|done|]. intros ->.
      rewrite Ho in Hoi. injection Hoi as -> ->. dlia.
Qed.

(** Another entry for a block that has no table. *)
Lemma l2_write own s s' g j v :
  wf own s → 0 <= g < 512 → 0 <= j < 512 → split s g = true → Z.land (E s (gbi s g) j) 3 ≠ 3 → leaf 1 (addr2 g j) v →
  same_tables s s' → (∀ i m, 0 <= i → 0 <= m → E s' i m = if ((i =? gbi s g) && (m =? j))%bool then v else E s i m) →
  wf own s' ∧ (∀ b, 0 <= b < 2 ^ 18 → l2e s' b = if b =? g * 512 + j then v else l2e s b) ∧
  (∀ p, 0 <= p < 2 ^ 27 → view s' p = if p / 512 =? g * 512 + j then sees v else view s p).
Proof.
  intros Hwf Hg Hj Hs H3 Hv Hst HE. pose proof (wf_used _ _ Hwf) as Hu. pose proof (st_used _ _ Hst) as Hu'.
  destruct (gbi_owner own s g Hwf Hg Hs) as [Hig Hog].
  assert (∀ g' j', 0 <= g' < 512 → 0 <= j' < 512 → split s g' = true →
    E s' (gbi s g') j' = if ((g' =? g) && (j' =? j))%bool then v else E s (gbi s g') j') as HE2.
  { intros g' j' Hg' Hj' Hs'. destruct (gbi_owner own s g' Hwf Hg' Hs') as [Hi Ho']. rewrite HE by lia.
    destruct (Z.eqb_spec g' g) as [->|Hne]; [by rewrite Z.eqb_refl|]. destruct (Z.eqb_spec (gbi s g') (gbi s g)); [congruence|done]. }
  assert (∀ i m, 0 <= i < table_pool_used s → (∀ g', own i ≠ OwnL2 g') → 0 <= m < 512 → E s' i m = E s i m) as HE3.
  { intros i m Hi Ho Hm. rewrite HE by lia. destruct (Z.eqb_spec i (gbi s g)) as [->|]; [by destruct (Ho g)|done]. }
  assert (∀ b, 0 <= b < 2 ^ 18 → l2e s' b = if b =? g * 512 + j then v else l2e s b) as Hl2.
  { intros b Hb. destruct (block_bounds b Hb). unfold l2e. destruct (same_gbi s s' (b / 512) Hst) as [-> ->]. rewrite (st_l1 _ _ Hst).
    destruct (split s (b / 512)) eqn:Es.
    - rewrite HE2 by done. destruct (Z.eqb_spec (b / 512) g), (Z.eqb_spec (b mod 512) j), (Z.eqb_spec b (g * 512 + j)); cbn; done || dlia.
    - destruct (Z.eqb_spec b (g * 512 + j)) as [->|]; [|done]. replace ((g * 512 + j) / 512) with g in Es by dlia. congruence. }
  split; [|split; [done|]].
  - constructor; [apply Hst|by rewrite (st_init _ _ Hst); apply (wf_init _ _ Hwf)|lia| | |].
    + intros i Hi. rewrite (st_pas _ _ Hst). apply (wf_pas _ _ Hwf). lia.
    + intros g' Hg'. destruct (same_gbi s s' g' Hst) as [-> _]. rewrite (st_l1 _ _ Hst), Hu'. by apply (wf_gb _ _ Hwf).
    + intros g' j' Hg' Hj' Hs'. destruct (same_gbi s s' g' Hst) as [Eg Es]. rewrite Eg. rewrite Es in Hs'. rewrite HE2 by done.
      destruct ((g' =? g) && (j' =? j))%bool eqn:Ec; [bool_to_prop; subst; by left|].
      destruct (wf_l2 _ _ Hwf g' j' Hg' Hj' Hs') as [H|[k H]]; [by left|right; exists k].
      apply (l3_frame own own s s'); [done| |by rewrite Hu'|exact H]. intros i m Hi Hoi Hm. apply HE3; [done| |done]. intros ?. by rewrite Hoi.
  - intros p Hp. destruct (page_bounds p Hp) as [Hb Hm]. specialize (Hl2 _ Hb). destruct (Z.eqb_spec (p / 512) (g * 512 + j)) as [Epb|Hne].
    + unfold view, desc. rewrite Hl2. pose proof (leaf1_not3 _ _ (addr2_addr g j Hg Hj) Hv) as Hv3. by rewrite (proj2 (Z.eqb_neq _ _) Hv3).
    + apply (view_frame own); [done..|]. intros i _ Hoi Hi. apply HE3; [done| |apply Hm]. intros ?. by rewrite Hoi.
Qed.

(** *** Splitting a block *)

Lemma page_clone a a' x :
  is_addr a → is_addr a' → is_attrs x → Z.land x 3 = 1 →
  is_attrs (Z.lor x 2) ∧ Z.land (Z.lor x 2) 3 = 3 ∧ sees (Z.lor a' (Z.lor x 2)) = sees (Z.lor a x).
Proof.
  intros Ha Ha' Hx H3. split_and!.
  - unfold is_attrs. rewrite Z.land_lor_distr_l, Hx. done.
  - rewrite Z.land_lor_distr_l, H3. done.
  - unfold sees, attrs. rewrite !(lor_land a), !(lor_land a') by done. by rewrite !(Z.land_lor_distr_l x 2), !Z.lor_0_r.
Qed.

(** The new table [u] and the entry that points to it. *)
Lemma l3_new own s s' g j x :
  let u := table_pool_used s in
  wf own s → 0 <= g < 512 → 0 <= j < 512 → split s g = true → u < 64 →
  is_attrs x → Z.land x 3 = 1 → E s (gbi s g) j = Z.lor (addr2 g j) x →
  lengths s' → initialized s' = initialized s → table_pool_used s' = u + 1 → gb_to_l2 s' = gb_to_l2 s → ttbr0 s' = ttbr0 s →
  table_pas s' = <[Z.to_nat u := va_to_pa u]> (table_pas s) →
  (∀ i m, 0 <= i → 0 <= m < 512 → E s' i m =
     if ((i =? gbi s g) && (m =? j))%bool then link u else if i =? u then Z.lor (addr3 g j m) (Z.lor x 2) else E s i m) →
  let own' := λ i, if i =? u then OwnL3 g j else own i in
  wf own' s' ∧ own' u = OwnL3 g j ∧
  (∀ p, 0 <= p < 2 ^ 27 → view s' p = view s p) ∧
  (∀ b, 0 <= b < 2 ^ 18 → l2e s' b = if b =? g * 512 + j then link u else l2e s b).
Proof.
  intros u Hwf Hg Hj Hs Hroom Hx H3 He Hlen' Hinit' Hu' Hgb' Hl1' Hpas' HE own'.
  pose proof (wf_used _ _ Hwf) as Hu. pose proof (wf_len _ _ Hwf) as Hlen.
  destruct (gbi_owner own s g Hwf Hg Hs) as [Hig Hog]. fold u in Hig.
  assert (∀ g', gbi s' g' = gbi s g' ∧ split s' g' = split s g') as Hgbi by (intros; unfold split, gbi; by rewrite Hgb').
  assert (∀ i, 0 <= i < u → own' i = own i) as Hown by (intros i Hi; unfold own'; by rewrite (proj2 (Z.eqb_neq _ _)) by lia).
  assert (own' u = OwnL3 g j) as Hou by (unfold own'; by rewrite Z.eqb_refl).
  assert (∀ g' j', 0 <= g' < 512 → 0 <= j' < 512 → split s g' = true →
    E s' (gbi s g') j' = if ((g' =? g) && (j' =? j))%bool then link u else E s (gbi s g') j') as HE2.
  { intros g' j' Hg' Hj' Hs'. destruct (gbi_owner own s g' Hwf Hg' Hs') as [Hi Ho']. fold u in Hi. rewrite HE by lia.
    rewrite (proj2 (Z.eqb_neq _ u)) by lia.
    destruct (Z.eqb_spec g' g) as [->|Hne]; [by rewrite Z.eqb_refl|]. destruct (Z.eqb_spec (gbi s g') (gbi s g)); [congruence|done]. }
  assert (∀ i m, 0 <= i < u → (∀ g', own i ≠ OwnL2 g') → 0 <= m < 512 → E s' i m = E s i m) as HE3.
  { intros i m Hi Ho Hm. rewrite HE by lia. rewrite (proj2 (Z.eqb_neq _ u)) by lia.
    destruct (Z.eqb_spec i (gbi s g)) as [->|]; [by destruct (Ho g)|done]. }
  assert (∀ m, 0 <= m < 512 → E s' u m = Z.lor (addr3 g j m) (Z.lor x 2)) as HEu.
  { intros m Hm. rewrite HE, Z.eqb_refl by lia. by rewrite (proj2 (Z.eqb_neq u _)) by lia. }
  pose proof (addr2_addr g j Hg Hj) as Ha.
  assert (∀ b, 0 <= b < 2 ^ 18 → l2e s' b = if b =? g * 512 + j then link u else l2e s b) as Hl2.
  { intros b Hb. destruct (block_bounds b Hb). unfold l2e. destruct (Hgbi (b / 512)) as [-> ->]. rewrite Hl1'.
    destruct (split s (b / 512)) eqn:Es.
    - rewrite HE2 by done. destruct (Z.eqb_spec (b / 512) g), (Z.eqb_spec (b mod 512) j), (Z.eqb_spec b (g * 512 + j)); cbn; done || dlia.
    - destruct (Z.eqb_spec b (g * 512 + j)) as [->|]; [|done]. replace ((g * 512 + j) / 512) with g in Es by dlia. congruence. }
  split; [|split; [done|split; [|done]]].
  - constructor; [done|by rewrite Hinit'; apply (wf_init _ _ Hwf)|lia| | |].
    + intros i Hi. unfold at_. rewrite Hpas'. rewrite nth_insert by (rewrite (len_pas s Hlen); lia).
      destruct (decide _); [f_equal; lia|]. apply (wf_pas _ _ Hwf). lia.
    + intros g' Hg'. destruct (Hgbi g') as [-> _]. rewrite Hl1', Hu'.
      destruct (wf_gb _ _ Hwf g' Hg') as [H|[H Ho]]; [by left|right]. split; [lia|by rewrite Hown].
    + intros g' j' Hg' Hj' Hs'. destruct (Hgbi g') as [Eg Es]. rewrite Eg. rewrite Es in Hs'. rewrite HE2 by done.
      destruct ((g' =? g) && (j' =? j))%bool eqn:Ec.
      * bool_to_prop. subst. right. exists u. split; [lia|]. split; [done|]. split; [done|]. intros m Hm. rewrite HEu by done.
        right. destruct (page_clone (addr2 g j) (addr3 g j m) x) as (? & ? & _); [done|by apply addr3_addr|done|done|]. by exists (Z.lor x 2).
      * destruct (wf_l2 _ _ Hwf g' j' Hg' Hj' Hs') as [H|[k H]]; [by left|right; exists k].
        apply (l3_frame own own' s s'); [done| |lia|exact H]. intros i m Hi Hoi Hm. apply HE3; [done| |done]. intros ?. by rewrite Hoi.
  - intros p Hp. destruct (page_bounds p Hp) as [Hb Hm]. pose proof (Hl2 _ Hb) as Hl2p. destruct (Z.eqb_spec (p / 512) (g * 512 + j)) as [Epb|Hne].
    + unfold view, desc. rewrite Hl2p. destruct (link_ok u) as (-> & _ & _ & ->); [lia|]. cbn. rewrite HEu by done.
      unfold l2e. rewrite Epb. replace ((g * 512 + j) / 512) with g by dlia. replace ((g * 512 + j) mod 512) with j by dlia.
      rewrite Hs, He. destruct (leaf_lor _ x 1 Ha Hx H3) as (-> & _). cbn.
      apply page_clone; [done|by apply addr3_addr|done|done].
    + apply (view_frame own); [done..|]. intros i _ Hoi Hi. apply HE3; [done| |apply Hm]. intros ?. by rewrite Hoi.
Qed.

Record l3_split (s s' : pt_state) (g j : Z) : Prop := {
  ls_view : ∀ p, 0 <= p < 2 ^ 27 → view s' p = view s p;
  ls_hole : ∀ b, 0 <= b < 2 ^ 18 → hole s' b = hole s b;
  ls_blk : ∀ b, 0 <= b < 2 ^ 18 → blk s' b = if b =? g * 512 + j then false else blk s b;
  ls_split : ∀ g', 0 <= g' < 512 → split s' g' = (split s g' || (g' =? g))%bool;
  ls_used : table_pool_used s' = table_pool_used s + (if split s g then 0 else 1) + (if blk s (g * 512 + j) then 1 else 0) }.

Lemma split_block own s g j :
  wf own s → 0 <= g < 512 → 0 <= j < 512 → split s g = true → l2e s (g * 512 + j) = E s (gbi s g) j.
Proof.
  intros. unfold l2e. replace ((g * 512 + j) / 512) with g by dlia. replace ((g * 512 + j) mod 512) with j by dlia. by case_match.
Qed.

(** The split of a region, when the block needs no table of its own. *)
Lemma l3_split_keep s s' g j : 0 <= g < 512 → 0 <= j < 512 → split_ok s s' g → blk s (g * 512 + j) = false → l3_split s s' g j.
Proof.
  intros Hg Hj [Hv Hh Hb Hs Hu] E1. constructor; [done|done| |done|rewrite Hu, E1; lia].
  intros b Hb'. rewrite Hb by done. destruct (Z.eqb_spec b (g * 512 + j)) as [->|]; done.
Qed.

Lemma promote_l3_ok own s g j :
  wf own s → 0 <= g < 512 → 0 <= j < 512 →
  table_pool_used s + (if split s g then 0 else 1) + (if blk s (g * 512 + j) then 1 else 0) <= 64 →
  ∃ o s' own', promote_l3 va_to_pa g j s = Ret (o, s') ∧ wf own' s' ∧ l3_split s s' g j ∧
    match o with
    | None => hole s (g * 512 + j) = true
    | Some k => hole s (g * 512 + j) = false ∧ 0 <= k < table_pool_used s' ∧ own' k = OwnL3 g j ∧ E s' (gbi s' g) j = link k
    end.
Proof.
  intros Hwf Hg Hj Hroom. unfold promote_l3.
  destruct (promote_l2_ok own s g Hwf Hg) as (s1 & own1 & E1 & Hwf1 & Hsp); [destruct (split s g), (blk s _); auto; right; lia|].
  rewrite E1. cbn [mbind res_bind]. pose proof (sp_used _ _ _ Hsp) as Hu1. pose proof (wf_used _ _ Hwf1) as Hur.
  assert (split s1 g = true) as Hs1 by (rewrite (sp_split _ _ _ Hsp), Z.eqb_refl, orb_true_r by done; done).
  destruct (gbi_owner own1 s1 g Hwf1 Hg Hs1) as [Hi1 Ho1]. pose proof (wf_len _ _ Hwf1) as Hlen1.
  rewrite entry_ok by (done || lia). cbn [mbind res_bind]. set (e := E s1 (gbi s1 g) j).
  assert (0 <= g * 512 + j < 2 ^ 18) as Hb by lia.
  pose proof (sp_hole _ _ _ Hsp _ Hb) as Hh. pose proof (sp_blk _ _ _ Hsp _ Hb) as Hk.
  unfold hole in Hh at 1. unfold blk in Hk at 1. rewrite (split_block own1) in Hh, Hk by done. fold e in Hh, Hk.
  destruct (Z.eqb_spec (Z.land e 1) 0) as [H0|H0].
  { destruct (land_1_3 e H0) as [_ Hn]. rewrite (proj2 (Z.eqb_neq _ _) Hn) in Hk.
    exists None, s1, own1. split; [done|]. split; [done|]. split; [by apply l3_split_keep|done]. }
  destruct (wf_l2 _ _ Hwf1 g j Hg Hj Hs1) as [Hleaf|(k & Hk3 & Hok & Ek & Hl3)].
  - pose proof (addr2_addr g j Hg Hj) as Ha. fold e in Hleaf. pose proof (leaf1_not3 _ _ Ha Hleaf) as Hn3. rewrite (proj2 (Z.eqb_neq _ _) Hn3).
    destruct Hleaf as [?|(x & Hx & Hx3 & Ee)]; [done|]. destruct (leaf_lor _ x 1 Ha Hx Hx3) as (E3 & _ & Ecl & _). rewrite <- Ee in E3, Ecl.
    rewrite E3 in Hk. cbn in Hk. assert (table_pool_used s1 < 64) as Hroom1 by (rewrite <- Hk in Hroom; lia).
    rewrite (alloc_table_ok own1 s1 Hwf1 Hroom1). cbn [mbind res_bind].
    set (u := table_pool_used s1) in *. set (s2 := mk_pt _ _ _ _ _ _).
    assert (lengths s2) as Hlen2 by (destruct Hlen1; constructor; cbn; try done; by rewrite length_insert).
    rewrite <- Z.land_lor_distr_r. change (Z.lor 0xFFF 0xFFFF000000000000) with CLONE. rewrite Ecl.
    assert (Z.land e L2_BLOCK_PA_MASK = addr2 g j) as Epa.
    { rewrite Ee, lor_addr by done. unfold addr2. unfold L2_BLOCK_PA_MASK. change 0x000FFFFFFFE00000 with (Z.shiftl (Z.ones 31) 21).
      replace (g * 2 ^ 30 + j * 2 ^ 21) with (Z.shiftl (g * 512 + j) 21) by (rewrite Z.shiftl_mul_pow2; lia).
      rewrite <- Z.shiftl_land, Z.land_ones, Z.mod_small by lia. done. }
    rewrite Epa.
    destruct (fill_table_ok s2 u (λ m, Z.lor (u64 (addr2 g j + Z.shiftl m 12)) (Z.lor x PT_TABLE))) as (s3 & E3' & Hst3 & HE3); [done|lia|].
    rewrite E3'. cbn [mbind res_bind]. pose proof (st_len _ _ Hst3) as Hlen3.
    rewrite (arr_get_nth 0) by (rewrite (len_pas s3 Hlen3); lia). cbn [mbind res_bind]. rewrite (st_pas _ _ Hst3). cbn [table_pas s2].
    rewrite nth_insert, decide_True by (done || rewrite (len_pas s1 Hlen1); lia). rewrite <- Z.lor_assoc. change (Z.lor PT_VALID PT_TABLE) with 3. fold (link u).
    destruct (set_entry_ok s3 (gbi s1 g) j (link u)) as (s4 & E4 & Hst4 & HE4); [done|lia|done|]. rewrite E4. cbn [mbind res_bind].
    destruct (l3_new own1 s1 s4 g j x Hwf1 Hg Hj Hs1 Hroom1 Hx Hx3 Ee) as (Hwf4 & Hou & Hv4 & Hl4);
      [apply Hst4|by rewrite (st_init _ _ Hst4), (st_init _ _ Hst3)|by rewrite (st_used _ _ Hst4), (st_used _ _ Hst3)|
       by rewrite (st_gb _ _ Hst4), (st_gb _ _ Hst3)|by rewrite (st_l1 _ _ Hst4), (st_l1 _ _ Hst3)|by rewrite (st_pas _ _ Hst4), (st_pas _ _ Hst3)| |].
    { intros i m Hi Hm. rewrite HE4 by lia. destruct (_ && _)%bool; [done|]. rewrite HE3 by lia. fold u. destruct (i =? u); [|done].
      rewrite Z.shiftl_mul_pow2 by lia. unfold addr3, PT_TABLE. rewrite u64_small; [done|]. unfold addr2. lia. }
    assert (∀ g', gbi s4 g' = gbi s1 g' ∧ split s4 g' = split s1 g') as Hgb4.
    { intros g'. unfold split, gbi. by rewrite (st_gb _ _ Hst4), (st_gb _ _ Hst3). }
    assert (table_pool_used s4 = u + 1) as Hu4 by (by rewrite (st_used _ _ Hst4), (st_used _ _ Hst3)).
    destruct (link_ok u) as (L3 & L1 & _); [lia|]. fold u in Hl4, Hou, Hwf4.
    exists (Some u), s4. eexists. split; [done|]. split; [exact Hwf4|]. split; [|split_and!].
    + constructor.
      * intros p Hp. rewrite Hv4 by done. by apply Hsp.
      * intros b' Hb'. unfold hole at 1. rewrite Hl4 by done. destruct (Z.eqb_spec b' (g * 512 + j)) as [->|]; [|by apply Hsp].
        rewrite <- Hh, L1. done.
      * intros b' Hb'. unfold blk at 1. rewrite Hl4 by done. destruct (Z.eqb_spec b' (g * 512 + j)) as [->|]; [by rewrite L3|by apply Hsp].
      * intros g' Hg'. destruct (Hgb4 g') as [_ ->]. by apply Hsp.
      * rewrite Hu4, <- Hk. lia.
    + by rewrite <- Hh.
    + lia.
    + lia.
    + done.
    + destruct (Hgb4 g) as [-> _]. rewrite HE4, !Z.eqb_refl by lia. done.
  - fold e in Ek. destruct (link_ok k) as (L3 & L1 & LT & _); [lia|]. rewrite Ek, L3. cbn. rewrite LT.
    rewrite (table_idx_ok own1) by done. cbn [mbind res_bind]. rewrite Ek, L3 in Hk.
    exists (Some k), s1, own1. split; [done|]. split; [done|]. split; [by apply l3_split_keep|]. split_and!; [done|lia|lia|done|done].
Qed.

(** *** One page, one block *)

Definition mattr (t : pt_mem_type_t) : Z := Z.lor PT_BLOCK_COMMON (PT_ATTR (mem_type t)).
(** What a page is to be: unmapped, or mapped with the attributes of a memory type. *)
Definition target (unmap : bool) (t : pt_mem_type_t) : option Z := if unmap then None else Some (attrs (mattr t)).

Lemma mattr_ok t : is_attrs (mattr t) ∧ Z.land (mattr t) 3 = 1 ∧ Z.land (mattr t) 1 = 1.
Proof. by destruct t. Qed.

Lemma block_value a (unmap : bool) t :
  is_addr a → let v := if unmap then 0 else make_block a t in leaf 1 a v ∧ sees v = target unmap t.
Proof.
  intros Ha v. subst v. destruct unmap; [split; [by left|done]|]. unfold make_block. rewrite <- Z.lor_assoc. fold (mattr t).
  destruct (mattr_ok t) as (Hx & H3 & H1). split; [right; by exists (mattr t)|].
  unfold sees, target, attrs. rewrite !(lor_land a) by done. by rewrite H1.
Qed.

Lemma page_value a (unmap : bool) t :
  is_addr a → let v := if unmap then 0 else make_page a t in leaf 3 a v ∧ sees v = target unmap t.
Proof.
  intros Ha v. subst v. destruct unmap; [split; [by left|done]|]. unfold make_page, make_block, PT_TABLE. rewrite <- !Z.lor_assoc.
  rewrite (Z.lor_assoc PT_BLOCK_COMMON). fold (mattr t). destruct (mattr_ok t) as (Hx & H3 & H1).
  destruct (page_clone a a (mattr t) Ha Ha Hx H3) as (Hx2 & H32 & Hs). split; [right; by exists (Z.lor (mattr t) 2)|].
  rewrite Hs. unfold sees, target, attrs. rewrite !(lor_land a) by done. by rewrite H1.
Qed.

Lemma view_l3 own s g j k q :
  wf own s → 0 <= g < 512 → 0 <= j < 512 → split s g = true → 0 <= k < 64 → E s (gbi s g) j = link k → q / 512 = g * 512 + j →
  view s q = sees (E s k (q mod 512)).
Proof.
  intros Hwf Hg Hj Hs Hk He Hq. unfold view, desc. rewrite Hq, (split_block own), He by done. destruct (link_ok k Hk) as (-> & _ & _ & ->). done.
Qed.

Lemma pa_parts p : 0 <= p < 2 ^ 27 →
  s32 (Z.shiftr (p * 4096) 30) = p / 512 / 512 ∧ Z.land (Z.shiftr (p * 4096) 21) 0x1FF = (p / 512) mod 512 ∧
  Z.land (Z.shiftr (p * 4096) 12) 0x1FF = p mod 512.
Proof.
  intros Hp. rewrite !Z.shiftr_div_pow2 by lia. change 0x1FF with (Z.ones 9). rewrite !Z.land_ones by lia.
  change (2 ^ 30) with (4096 * 262144). change (2 ^ 21) with (4096 * 512). change (2 ^ 12) with 4096. change (2 ^ 9) with 512.
  rewrite s32_id by dlia. split_and!; dlia.
Qed.

(** What a call does to the blocks and regions it does not change, and to the pool. *)
Record page_step (s s' : pt_state) (b : Z) : Prop := {
  ps_hole : ∀ b', 0 <= b' < 2 ^ 18 → hole s' b' = hole s b';
  ps_blk : ∀ b', 0 <= b' < 2 ^ 18 → blk s' b' = if b' =? b then false else blk s b';
  ps_split : ∀ g', 0 <= g' < 512 → split s' g' = (split s g' || (g' =? b / 512))%bool;
  ps_used : table_pool_used s' = table_pool_used s + (if split s (b / 512) then 0 else 1) + (if blk s b then 1 else 0) }.

Lemma write_l3_page_ok own s unmap t p :
  let b := p / 512 in
  wf own s → 0 <= p < 2 ^ 27 →
  table_pool_used s + (if split s (b / 512) then 0 else 1) + (if blk s b then 1 else 0) <= 64 →
  ∃ s' own', write_l3_page va_to_pa unmap t (p * 4096) s = Ret s' ∧ wf own' s' ∧ page_step s s' b ∧
    ∀ q, 0 <= q < 2 ^ 27 → view s' q = if (q =? p) && negb (hole s b) then target unmap t else view s q.
Proof.
  intros b Hwf Hp Hroom. destruct (page_bounds p Hp) as [Hb Hk]. destruct (block_bounds b Hb) as [Hg Hj].
  unfold write_l3_page. destruct (pa_parts p Hp) as (-> & -> & ->). fold b.
  set (g := b / 512) in *. set (j := b mod 512) in *. assert (b = g * 512 + j) as Eb by (subst g j; dlia).
  rewrite Eb in Hroom. destruct (promote_l3_ok own s g j Hwf Hg Hj Hroom) as (o & s1 & own1 & E1 & Hwf1 & [Hv Hh Hbk Hs Hu] & Ho).
  rewrite <- Eb in Hbk, Hu, Ho. rewrite E1. cbn [mbind res_bind]. destruct o as [k|].
  - destruct Ho as (Hhole & Hku & Hok & Hek). pose proof (wf_used _ _ Hwf1). pose proof (wf_len _ _ Hwf1) as Hlen1.
    assert (split s1 g = true) as Hs1 by (rewrite Hs, Z.eqb_refl, orb_true_r by done; done).
    destruct (set_entry_ok s1 k (p mod 512) (if unmap then 0 else make_page (p * 4096) t)) as (s2 & E2 & Hst & HE); [done|lia|done|].
    rewrite E2. exists s2, own1. split; [done|].
    assert (p * 4096 = addr3 g j (p mod 512)) as Epa by (unfold addr3, addr2; subst g j b; dlia).
    destruct (page_value (p * 4096) unmap t) as [Hpl Hps]; [rewrite Epa; by apply addr3_addr|].
    destruct (l3_write own1 s1 s2 g j k) as (Hwf2 & Hl2 & Hv2); [done..| | |].
    { intros i m Hi Hm Hne. rewrite HE by lia. by rewrite (proj2 (Z.eqb_neq i k)) by lia. }
    { intros m Hm. rewrite HE, Z.eqb_refl by lia. destruct (Z.eqb_spec m (p mod 512)) as [->|]; cbn; [by rewrite <- Epa|].
      destruct (wf_l2 _ _ Hwf1 g j Hg Hj Hs1) as [Hl|(k' & Hk' & Ho' & Ek' & Hl')].
      - exfalso. apply (leaf1_not3 _ _ (addr2_addr g j Hg Hj) Hl). rewrite Hek. apply link_ok. lia.
      - rewrite Hek in Ek'. assert (k = k') as ->; [|by apply Hl'].
        destruct (link_ok k) as (_ & _ & _ & <-); [lia|]. rewrite Ek'. apply link_ok. lia. }
    split; [done|]. split.
    + constructor; [| | |by rewrite (st_used _ _ Hst)].
      * intros b' Hb'. unfold hole at 1. rewrite Hl2 by done. by apply Hh.
      * intros b' Hb'. unfold blk at 1. rewrite Hl2 by done. by apply Hbk.
      * intros g' Hg'. destruct (same_gbi s1 s2 g' Hst) as [_ ->]. by apply Hs.
    + intros q Hq. rewrite Hv2, Hhole, andb_true_r by done. destruct (Z.eqb_spec (q / 512) (g * 512 + j)) as [Eq|Hne].
      * rewrite HE, Z.eqb_refl by (try lia; apply page_bounds, Hq). cbn [andb].
        destruct (Z.eqb_spec q p) as [->|Hqp]; [by rewrite Z.eqb_refl|].
        rewrite (proj2 (Z.eqb_neq (q mod 512) (p mod 512))) by (subst b; dlia).
        rewrite <- Hv by done. symmetry. apply (view_l3 own1 s1 g j); done || lia.
      * rewrite (proj2 (Z.eqb_neq q p)) by (intros ->; apply Hne; subst b; lia). by apply Hv.
  - exists s1, own1. split; [done|]. split; [done|]. split; [by constructor|]. intros q Hq. rewrite Ho, andb_false_r. by apply Hv.
Qed.

Record block_step (s s' : pt_state) (b : Z) : Prop := {
  bs_hole : ∀ b', 0 <= b' < 2 ^ 18 → b' ≠ b → hole s' b' = hole s b';
  bs_blk : ∀ b', 0 <= b' < 2 ^ 18 → b' ≠ b → blk s' b' = blk s b';
  bs_split : ∀ g', 0 <= g' < 512 → split s' g' = (split s g' || (g' =? b / 512))%bool;
  bs_used : table_pool_used s' = table_pool_used s + (if split s (b / 512) then 0 else 1) }.

Lemma write_l2_block_ok own s unmap t b :
  wf own s → 0 <= b < 2 ^ 18 → table_pool_used s + (if split s (b / 512) then 0 else 1) <= 64 →
  ∃ s' own', write_l2_block va_to_pa unmap t (b * 512 * 4096) s = Ret s' ∧ wf own' s' ∧ block_step s s' b ∧
    ∀ q, 0 <= q < 2 ^ 27 → view s' q = if q / 512 =? b then target unmap t else view s q.
Proof.
  intros Hwf Hb Hroom. destruct (block_bounds b Hb) as [Hg Hj]. unfold write_l2_block.
  destruct (pa_parts (b * 512)) as (-> & -> & _); [lia|]. replace (b * 512 / 512) with b by dlia.
  set (g := b / 512) in *. set (j := b mod 512) in *. assert (b = g * 512 + j) as Eb by (subst g j; dlia).
  destruct (promote_l2_ok own s g Hwf Hg) as (s1 & own1 & E1 & Hwf1 & [Hv Hh Hbk Hs Hu]); [destruct (split s g); auto; right; lia|].
  rewrite E1. cbn [mbind res_bind]. pose proof (wf_used _ _ Hwf1) as Hur. pose proof (wf_len _ _ Hwf1) as Hlen1.
  assert (split s1 g = true) as Hs1 by (rewrite Hs, Z.eqb_refl, orb_true_r by done; done).
  destruct (gbi_owner own1 s1 g Hwf1 Hg Hs1) as [Hi1 Ho1].
  rewrite entry_ok by (done || lia). cbn [mbind res_bind].
  assert (b * 512 * 4096 = addr2 g j) as Epa by (unfold addr2; lia). rewrite Epa.
  destruct (wf_l2 _ _ Hwf1 g j Hg Hj Hs1) as [Hleaf|(k & Hk3 & Hok & Ek & Hl3)].
  - pose proof (addr2_addr g j Hg Hj) as Ha. pose proof (leaf1_not3 _ _ Ha Hleaf) as Hn3. rewrite (proj2 (Z.eqb_neq _ _) Hn3).
    destruct (block_value (addr2 g j) unmap t Ha) as [Hvl Hvs].
    destruct (set_entry_ok s1 (gbi s1 g) j (if unmap then 0 else make_block (addr2 g j) t)) as (s2 & E2 & Hst & HE); [done|lia|done|].
    rewrite E2. exists s2, own1. split; [done|].
    destruct (l2_write own1 s1 s2 g j _ Hwf1 Hg Hj Hs1 Hn3 Hvl Hst HE) as (Hwf2 & Hl2 & Hv2). rewrite <- Eb in Hl2, Hv2.
    split; [done|]. split.
    + constructor; [| | |by rewrite (st_used _ _ Hst)].
      * intros b' Hb' Hne. unfold hole at 1. rewrite Hl2, (proj2 (Z.eqb_neq _ _) Hne) by done. by apply Hh.
      * intros b' Hb' Hne. unfold blk at 1. rewrite Hl2, (proj2 (Z.eqb_neq _ _) Hne) by done. by apply Hbk.
      * intros g' Hg'. destruct (same_gbi s1 s2 g' Hst) as [_ ->]. by apply Hs.
    + intros q Hq. rewrite Hv2 by done. destruct (q / 512 =? b); [done|by apply Hv].
  - destruct (link_ok k) as (L3 & L1 & LT & _); [lia|]. rewrite Ek, L3. cbn [Z.eqb]. rewrite LT.
    rewrite (table_idx_ok own1) by done. change (3 =? 3) with true. cbn [mbind res_bind].
    destruct (fill_table_ok s1 k (λ m, if unmap then 0 else make_page (u64 (addr2 g j + Z.shiftl m 12)) t)) as (s2 & E2 & Hst & HE); [done|lia|].
    rewrite E2. exists s2, own1. split; [done|].
    assert (∀ m, 0 <= m < 512 → leaf 3 (addr3 g j m) (E s2 k m) ∧ sees (E s2 k m) = target unmap t) as Hpage.
    { intros m Hm. rewrite HE, Z.eqb_refl by lia. rewrite Z.shiftl_mul_pow2 by lia. rewrite u64_small by (unfold addr2; lia).
      by apply page_value, addr3_addr. }
    destruct (l3_write own1 s1 s2 g j k) as (Hwf2 & Hl2 & Hv2); [done..| | |].
    { intros i m Hi Hm Hne. rewrite HE by lia. by rewrite (proj2 (Z.eqb_neq i k)) by lia. }
    { intros m Hm. by apply Hpage. }
    rewrite <- Eb in Hv2. split; [done|]. split.
    + constructor; [| | |by rewrite (st_used _ _ Hst)].
      * intros b' Hb' Hne. unfold hole at 1. rewrite Hl2 by done. by apply Hh.
      * intros b' Hb' Hne. unfold blk at 1. rewrite Hl2 by done. by apply Hbk.
      * intros g' Hg'. destruct (same_gbi s1 s2 g' Hst) as [_ ->]. by apply Hs.
    + intros q Hq. rewrite Hv2 by done. destruct (q / 512 =? b); [|by apply Hv]. apply Hpage. apply page_bounds, Hq.
Qed.

(** *** The pool is large enough *)

Fixpoint cnt (f : Z → bool) (l : list Z) : Z := match l with [] => 0 | x :: l => b2z (f x) + cnt f l end.

Lemma cnt_bounds f l : 0 <= cnt f l <= Z.of_nat (length l).
Proof. induction l as [|x l IH]; cbn; [lia|]. destruct (f x); cbn; lia. Qed.

Lemma cnt_le f f' l : (∀ x, x ∈ l → f' x = true → f x = true) → cnt f' l <= cnt f l.
Proof.
  induction l as [|x l IH]; intros H; cbn; [lia|]. assert (cnt f' l <= cnt f l) by (apply IH; intros; apply H; [by right|done]).
  assert (b2z (f' x) <= b2z (f x)); [|lia]. destruct (f' x) eqn:Ex; [rewrite (H x); [done|by left|done]|]. by destruct (f x).
Qed.

Lemma cnt_less f f' l x :
  (∀ x, x ∈ l → f' x = true → f x = true) → x ∈ l → f' x = false → cnt f' l + b2z (f x) <= cnt f l.
Proof.
  induction l as [|y l IH]; intros H Hx Ef; [by apply not_elem_of_nil in Hx|]. cbn.
  assert (∀ x, x ∈ l → f' x = true → f x = true) as Hl by (intros; apply H; [by right|done]).
  apply elem_of_cons in Hx as [->|Hx].
  - rewrite Ef. pose proof (cnt_le f f' l Hl). cbn. lia.
  - specialize (IH Hl Hx Ef). assert (b2z (f' y) <= b2z (f y)); [|lia].
    destruct (f' y) eqn:Ey; [rewrite (H y); [done|by left|done]|]. by destruct (f y).
Qed.

(** What may still be taken from the pool: a table for each of the regions [gs] that is not
    split, and one for each of the blocks [bs] that can be. *)
Definition unsplit (s : pt_state) (g : Z) : bool := negb (split s g).
Definition need (gs bs : list Z) (s : pt_state) : Z := table_pool_used s + cnt (unsplit s) gs + cnt (blk s) bs.

Definition within (gs bs : list Z) : Prop := (∀ g, g ∈ gs → 0 <= g < 512) ∧ (∀ b, b ∈ bs → 0 <= b < 2 ^ 18).

Lemma unsplit_less s s' gs g :
  (∀ g, g ∈ gs → 0 <= g < 512) → (∀ g', 0 <= g' < 512 → split s' g' = (split s g' || (g' =? g))%bool) → g ∈ gs →
  cnt (unsplit s') gs + (if split s g then 0 else 1) <= cnt (unsplit s) gs.
Proof.
  intros Hw Hs Hg. replace (if split s g then 0 else 1) with (b2z (unsplit s g)) by (unfold unsplit; by destruct (split s g)).
  apply cnt_less; [|done|].
  - intros g' Hg'. unfold unsplit. rewrite Hs by auto. destruct (split s g'); [done|]. done.
  - unfold unsplit. rewrite Hs, Z.eqb_refl, orb_true_r by auto. done.
Qed.

Lemma need_page gs bs s s' b : within gs bs → page_step s s' b → b ∈ bs → b / 512 ∈ gs → need gs bs s' <= need gs bs s.
Proof.
  intros [Hgs Hbs] [_ Hblk Hs Hu] Hb Hg. unfold need. rewrite Hu.
  pose proof (unsplit_less s s' gs (b / 512) Hgs Hs Hg).
  assert (cnt (blk s') bs + (if blk s b then 1 else 0) <= cnt (blk s) bs); [|lia].
  apply cnt_less; [|done|by rewrite Hblk, Z.eqb_refl by auto].
  intros b' Hb'. rewrite Hblk by auto. by destruct (b' =? b).
Qed.

Lemma need_block gs bs s s' b : within gs bs → block_step s s' b → b ∉ bs → b / 512 ∈ gs → need gs bs s' <= need gs bs s.
Proof.
  intros [Hgs Hbs] [_ Hblk Hs Hu] Hb Hg. unfold need. rewrite Hu.
  pose proof (unsplit_less s s' gs (b / 512) Hgs Hs Hg).
  assert (cnt (blk s') bs <= cnt (blk s) bs); [|lia]. apply cnt_le. intros b' Hb'. rewrite Hblk; [done|auto|by intros ->].
Qed.

Lemma need_room gs bs s b : need gs bs s <= 64 → b / 512 ∈ gs →
  table_pool_used s + (if split s (b / 512) then 0 else 1) + (if bool_decide (b ∈ bs) then if blk s b then 1 else 0 else 0) <= 64.
Proof.
  intros H Hg. unfold need in H.
  assert ((if split s (b / 512) then 0 else 1) <= cnt (unsplit s) gs).
  { pose proof (cnt_less (unsplit s) (λ g, unsplit s g && negb (g =? b / 512))%bool gs (b / 512)) as Hc.
    pose proof (cnt_bounds (λ g, unsplit s g && negb (g =? b / 512))%bool gs). unfold unsplit in Hc at 3.
    replace (if split s (b / 512) then 0 else 1) with (b2z (negb (split s (b / 512)))) by (by destruct (split s _)).
    enough (cnt (λ g, unsplit s g && negb (g =? b / 512))%bool gs + b2z (negb (split s (b / 512))) <= cnt (unsplit s) gs) by lia.
    apply Hc; [|done|by rewrite Z.eqb_refl, andb_false_r]. intros x _ Hx. by apply andb_true_iff in Hx as [? _]. }
  assert ((if bool_decide (b ∈ bs) then if blk s b then 1 else 0 else 0) <= cnt (blk s) bs); [|lia].
  case_bool_decide as Hb; [|apply cnt_bounds].
  pose proof (cnt_less (blk s) (λ x, blk s x && negb (x =? b))%bool bs b) as Hc.
  pose proof (cnt_bounds (λ x, blk s x && negb (x =? b))%bool bs).
  enough (cnt (λ x, blk s x && negb (x =? b))%bool bs + b2z (blk s b) <= cnt (blk s) bs) by (destruct (blk s b); cbn in *; lia).
  apply Hc; [|done|by rewrite Z.eqb_refl, andb_false_r]. intros x _ Hx. by apply andb_true_iff in Hx as [? _].
Qed.

(** *** Ranges *)

Lemma range_loop_ind (P : Z → pt_state → Prop) f n lo hi step s :
  0 < step → 0 <= lo <= hi → (hi + 1) * step < 2 ^ 64 → (Z.to_nat (hi - lo) < n)%nat → P lo s →
  (∀ x s, lo <= x < hi → P x s → ∃ s', f (x * step) s = Ret s' ∧ P (x + 1) s') →
  ∃ s', range_loop n (lo * step) (hi * step) step f s = Ret s' ∧ P hi s'.
Proof.
  intros Hstep. revert lo s. induction n as [|n IH]; intros lo s Hlo Hhi Hn HP Hf; [lia|]. cbn [range_loop].
  destruct (decide (lo = hi)) as [->|].
  { rewrite Z.ltb_irrefl. by exists s. }
  rewrite (proj2 (Z.ltb_lt _ _)) by nia. destruct (Hf lo s) as (s1 & E1 & H1); [lia|done|]. rewrite E1. cbn [mbind res_bind].
  rewrite u64_small by nia. replace (lo * step + step) with ((lo + 1) * step) by lia.
  apply IH; [lia|done|lia|done|]. intros x s' Hx. apply Hf. lia.
Qed.

(** From one state to a later one: no table is given back, and the pool is large enough. *)
Record later (gs bs : list Z) (s s' : pt_state) : Prop := {
  lt_wf : ∃ own, wf own s';
  lt_split : ∀ g, 0 <= g < 512 → split s g = true → split s' g = true;
  lt_need : need gs bs s' <= need gs bs s }.

Lemma later_trans gs bs s1 s2 s3 : later gs bs s1 s2 → later gs bs s2 s3 → later gs bs s1 s3.
Proof. intros [] []. constructor; [done|auto|lia]. Qed.

Lemma pages_loop own gs bs unmap t lo hi n s :
  wf own s → within gs bs → 0 <= lo <= hi → hi <= 2 ^ 27 → (∀ q, lo <= q < hi → q / 512 ∈ bs ∧ q / 512 / 512 ∈ gs) → need gs bs s <= 64 →
  (Z.to_nat (hi - lo) < n)%nat →
  ∃ s', range_loop n (lo * 4096) (hi * 4096) KB4 (write_l3_page va_to_pa unmap t) s = Ret s' ∧ later gs bs s s' ∧
    (∀ b, 0 <= b < 2 ^ 18 → hole s' b = hole s b) ∧
    (∀ q, lo <= q < hi → split s' (q / 512 / 512) = true) ∧
    ∀ q, 0 <= q < 2 ^ 27 → view s' q = if ((lo <=? q) && (q <? hi) && negb (hole s (q / 512)))%bool then target unmap t else view s q.
Proof.
  intros Hwf Hw Hlo Hhi Hin Hneed Hn. change KB4 with 4096.
  apply (range_loop_ind (λ x s', later gs bs s s' ∧ (∀ b, 0 <= b < 2 ^ 18 → hole s' b = hole s b) ∧
    (∀ q, lo <= q < x → split s' (q / 512 / 512) = true) ∧
    ∀ q, 0 <= q < 2 ^ 27 → view s' q = if ((lo <=? q) && (q <? x) && negb (hole s (q / 512)))%bool then target unmap t else view s q));
    [lia|lia|lia|done| |].
  - split; [constructor; [by exists own|auto|lia]|]. split; [done|]. split; [lia|]. intros q Hq.
    assert ((lo <=? q) && (q <? lo) = false)%bool as -> by (destruct (Z.leb_spec lo q), (Z.ltb_spec q lo); done || lia). done.
  - intros x s1 Hx (Hl & Hh & Hs & Hv). destruct (lt_wf _ _ _ _ Hl) as [own1 Hwf1]. destruct (Hin x Hx) as [Hxb Hxg].
    pose proof (lt_need _ _ _ _ Hl). pose proof (need_room gs bs s1 (x / 512)) as Hroom. rewrite bool_decide_true in Hroom by done.
    destruct (page_bounds x) as [Hb _]; [lia|]. destruct (block_bounds _ Hb) as [Hg _].
    destruct (write_l3_page_ok own1 s1 unmap t x Hwf1) as (s2 & own2 & E2 & Hwf2 & Hp & Hv2); [lia|apply Hroom; [lia|done]|].
    exists s2. split; [done|]. split; [eapply later_trans; [exact Hl|]|split; [|split]].
    + constructor; [by exists own2| |by eapply need_page]. intros g' Hg' Hs'. rewrite (ps_split _ _ _ Hp), Hs' by done. done.
    + intros b Hb'. rewrite (ps_hole _ _ _ Hp) by done. by apply Hh.
    + intros q Hq. destruct (page_bounds q) as [Hqb _]; [lia|]. destruct (block_bounds _ Hqb) as [Hqg _].
      rewrite (ps_split _ _ _ Hp) by done. destruct (decide (q = x)) as [->|]; [by rewrite Z.eqb_refl, orb_true_r|]. rewrite Hs by lia. done.
    + intros q Hq. rewrite Hv2, Hh, Hv by done. destruct (Z.eqb_spec q x) as [->|].
      * rewrite Z.ltb_irrefl, (proj2 (Z.leb_le _ _)), (proj2 (Z.ltb_lt _ _)) by lia. cbn. by destruct (hole s _).
      * cbn. replace (q <? x + 1) with (q <? x); [done|]. destruct (Z.ltb_spec q x), (Z.ltb_spec q (x + 1)); done || lia.
Qed.

Lemma blocks_loop own gs bs unmap t lo hi n s :
  wf own s → within gs bs → 0 <= lo <= hi → hi <= 2 ^ 18 → (∀ b, lo <= b < hi → (b ∉ bs) ∧ (b / 512 ∈ gs)) → need gs bs s <= 64 →
  (Z.to_nat (hi - lo) < n)%nat →
  ∃ s', range_loop n (lo * MB2) (hi * MB2) MB2 (write_l2_block va_to_pa unmap t) s = Ret s' ∧ later gs bs s s' ∧
    (∀ b, 0 <= b < 2 ^ 18 → ¬ (lo <= b < hi) → hole s' b = hole s b) ∧
    (∀ b, lo <= b < hi → split s' (b / 512) = true) ∧
    ∀ q, 0 <= q < 2 ^ 27 → view s' q = if ((lo <=? q / 512) && (q / 512 <? hi))%bool then target unmap t else view s q.
Proof.
  intros Hwf Hw Hlo Hhi Hin Hneed Hn.
  apply (range_loop_ind (λ x s', later gs bs s s' ∧ (∀ b, 0 <= b < 2 ^ 18 → ¬ (lo <= b < x) → hole s' b = hole s b) ∧
    (∀ b, lo <= b < x → split s' (b / 512) = true) ∧
    ∀ q, 0 <= q < 2 ^ 27 → view s' q = if ((lo <=? q / 512) && (q / 512 <? x))%bool then target unmap t else view s q));
    [done|lia|change MB2 with 2097152; lia|done| |].
  - split; [constructor; [by exists own|auto|lia]|]. split; [done|]. split; [lia|]. intros q Hq.
    assert ((lo <=? q / 512) && (q / 512 <? lo) = false)%bool as -> by (destruct (Z.leb_spec lo (q / 512)), (Z.ltb_spec (q / 512) lo); done || lia). done.
  - intros x s1 Hx (Hl & Hh & Hs & Hv). destruct (lt_wf _ _ _ _ Hl) as [own1 Hwf1]. destruct (Hin x Hx) as [Hxb Hxg].
    pose proof (lt_need _ _ _ _ Hl). pose proof (need_room gs bs s1 x) as Hroom. rewrite bool_decide_false in Hroom by done.
    destruct (block_bounds x) as [Hg _]; [lia|].
    replace (x * MB2) with (x * 512 * 4096) by (change MB2 with 2097152; lia).
    destruct (write_l2_block_ok own1 s1 unmap t x Hwf1) as (s2 & own2 & E2 & Hwf2 & Hp & Hv2); [lia|rewrite Z.add_0_r in Hroom; apply Hroom; [lia|done]|].
    exists s2. split; [done|]. split; [eapply later_trans; [exact Hl|]|split; [|split]].
    + constructor; [by exists own2| |by eapply need_block]. intros g' Hg' Hs'. rewrite (bs_split _ _ _ Hp), Hs' by done. done.
    + intros b Hb' Hne. rewrite (bs_hole _ _ _ Hp) by (done || lia). apply Hh; [done|lia].
    + intros b Hb. destruct (block_bounds b) as [Hbg _]; [lia|].
      rewrite (bs_split _ _ _ Hp) by done. destruct (decide (b = x)) as [->|]; [by rewrite Z.eqb_refl, orb_true_r|]. rewrite Hs by lia. done.
    + intros q Hq. rewrite Hv2, Hv by done. destruct (Z.eqb_spec (q / 512) x) as [->|].
      * rewrite (proj2 (Z.leb_le _ _)), (proj2 (Z.ltb_lt _ _)) by lia. done.
      * replace (q / 512 <? x + 1) with (q / 512 <? x); [done|]. destruct (Z.ltb_spec (q / 512) x), (Z.ltb_spec (q / 512) (x + 1)); done || lia.
Qed.

(** The regions a range of pages touches, and the blocks it touches in part. *)
Definition regions (a n : Z) : list Z := seqZ (a / 2 ^ 18) ((a + n - 1) / 2 ^ 18 - a / 2 ^ 18 + 1).
Definition edges (a n : Z) : list Z :=
  (if a mod 512 =? 0 then [] else [a / 512]) ++ (if (a + n) mod 512 =? 0 then [] else [(a + n) / 512]).

(** Block [b] lies in the range as a whole. *)
Definition whole (a n b : Z) : bool := ((a <=? b * 512) && (b * 512 + 512 <=? a + n))%bool.

Lemma elem_of_edges a n b : b ∈ edges a n ↔ (a mod 512 ≠ 0 ∧ b = a / 512) ∨ ((a + n) mod 512 ≠ 0 ∧ b = (a + n) / 512).
Proof.
  unfold edges. rewrite elem_of_app. destruct (Z.eqb_spec (a mod 512) 0), (Z.eqb_spec ((a + n) mod 512) 0);
    rewrite ?list_elem_of_singleton, ?elem_of_nil; tauto.
Qed.

Lemma elem_of_regions a n g : g ∈ regions a n ↔ a / 2 ^ 18 <= g <= (a + n - 1) / 2 ^ 18.
Proof. unfold regions. rewrite elem_of_seqZ. lia. Qed.

Lemma regions_within a n : 0 <= a → 0 < n → a + n <= 2 ^ 27 → within (regions a n) (edges a n).
Proof.
  intros. split.
  - intros g Hg. apply elem_of_regions in Hg. change (2 ^ 18) with 262144 in Hg. dlia.
  - intros b Hb. apply elem_of_edges in Hb. dlia.
Qed.

Lemma need_init a n s : table_pool_used s <= need (regions a n) (edges a n) s.
Proof. unfold need. pose proof (cnt_bounds (unsplit s) (regions a n)). pose proof (cnt_bounds (blk s) (edges a n)). lia. Qed.

Lemma need_start a n s : 0 < n → 0 <= a →
  need (regions a n) (edges a n) s <= table_pool_used s + ((a + n - 1) / 2 ^ 18 - a / 2 ^ 18 + 1) + 2.
Proof.
  intros Hn Ha. unfold need. pose proof (cnt_bounds (unsplit s) (regions a n)) as H1. pose proof (cnt_bounds (blk s) (edges a n)) as H2.
  unfold regions in H1. rewrite length_seqZ in H1. fold (regions a n) in H1.
  assert (length (edges a n) <= 2)%nat by (unfold edges; destruct (_ =? 0), (_ =? 0); cbn; lia).
  assert (0 <= (a + n - 1) / 2 ^ 18 - a / 2 ^ 18 + 1) by (change (2 ^ 18) with 262144; dlia).
  rewrite Z2Nat.id in H1 by done. lia.
Qed.

Lemma masks x : 0 <= x < 2 ^ 64 → Z.land x (not64 MB2_MASK) = x / MB2 * MB2.
Proof. intros. change MB2_MASK with (2 ^ 21 - 1). by rewrite land_not64. Qed.

Lemma modify_range_ok own s unmap t a n :
  wf own s → 0 <= a → 0 < n → a + n <= 2 ^ 27 → need (regions a n) (edges a n) s <= 64 →
  ∃ s', modify_range va_to_pa (a * 4096) (n * 4096) unmap t s = Ret s' ∧ later (regions a n) (edges a n) s s' ∧
    (∀ q, a <= q < a + n → split s' (q / 512 / 512) = true) ∧
    ∀ q, 0 <= q < 2 ^ 27 → view s' q =
      if ((a <=? q) && (q <? a + n) && (whole a n (q / 512) || negb (hole s (q / 512))))%bool then target unmap t else view s q.
Proof.
  intros Hwf Ha Hn Hsum Hneed. pose proof (regions_within a n Ha Hn Hsum) as Hw. unfold modify_range, init_once.
  rewrite (wf_init _ _ Hwf). rewrite (proj2 (Z.eqb_neq _ _)) by lia.
  assert (∀ x, Z.land (x * 4096) KB4_MASK = 0) as Hal.
  { intros x. change KB4_MASK with (Z.ones 12). rewrite Z.land_ones by lia. change (2 ^ 12) with 4096. apply Z_mod_mult. }
  rewrite !Hal. cbn [Z.eqb negb orb]. change (0 =? 0) with true. cbn [negb orb].
  rewrite Z.shiftr_div_pow2 by lia. change (2 ^ 12) with 4096. rewrite Z.div_mul by lia.
  rewrite (u64_small (a * 4096 + n * 4096)), (u64_small (a * 4096 + MB2_MASK)) by (change MB2_MASK with 2097151; lia).
  rewrite !masks by (change MB2_MASK with 2097151; lia).
  set (lo := (a + 511) / 512). set (hi := (a + n) / 512).
  replace ((a * 4096 + MB2_MASK) / MB2) with lo by (change MB2_MASK with 2097151; change MB2 with 2097152; subst lo; dlia).
  replace ((a * 4096 + n * 4096) / MB2) with hi by (change MB2 with 2097152; subst hi; dlia).
  replace (a * 4096 + n * 4096) with ((a + n) * 4096) by lia.
  assert (∀ q, a <= q < a + n → q / 512 / 512 ∈ regions a n) as Hreg.
  { intros q Hq. apply elem_of_regions. change (2 ^ 18) with (512 * 512). rewrite <- !Z.div_div by lia.
    split; apply Z.div_le_mono; try lia; apply Z.div_le_mono; lia. }
  destruct (Z.leb_spec (hi * MB2) (lo * MB2)) as [Hle|Hlt]; change MB2 with 2097152 in *.
  - assert (∀ q, a <= q < a + n → q / 512 ∈ edges a n) as Hedge by (intros q Hq; apply elem_of_edges; subst lo hi; dlia).
    destruct (pages_loop own (regions a n) (edges a n) unmap t a (a + n) (S (Z.to_nat n)) s) as (s' & E' & Hl & _ & Hs & Hv);
      [done|done|lia|lia|auto|done|lia|].
    exists s'. split; [done|]. split; [done|]. split; [done|]. intros q Hq. rewrite Hv by done.
    destruct (Z.leb_spec a q), (Z.ltb_spec q (a + n)); cbn; try done.
    assert (whole a n (q / 512) = false) as ->; [|done]. unfold whole.
    destruct (Z.leb_spec a (q / 512 * 512)), (Z.leb_spec (q / 512 * 512 + 512) (a + n)); cbn; try done. subst lo hi. dlia.
  - assert (lo < hi) as Hlh by lia.
    replace (lo * 2097152) with (lo * 512 * 4096) by lia. replace (hi * 2097152) with (hi * 512 * 4096) by lia.
    assert (a <= lo * 512) by (subst lo; dlia). assert (hi * 512 <= a + n) by (subst hi; dlia).
    destruct (pages_loop own (regions a n) (edges a n) unmap t a (lo * 512) (S (Z.to_nat n)) s) as (s1 & E1 & Hl1 & Hh1 & Hs1 & Hv1);
      [done|done|lia|lia| |done|lia|].
    { intros q Hq. split; [|apply Hreg; lia]. apply elem_of_edges. subst lo. dlia. }
    rewrite E1. cbn [mbind res_bind]. destruct (lt_wf _ _ _ _ Hl1) as [own1 Hwf1]. pose proof (lt_need _ _ _ _ Hl1).
    destruct (blocks_loop own1 (regions a n) (edges a n) unmap t lo hi (S (Z.to_nat n)) s1) as (s2 & E2 & Hl2 & Hh2 & Hs2 & Hv2);
      [done|done|subst lo; dlia|subst hi; dlia| |lia|subst lo hi; dlia|].
    { intros b Hb. split; [rewrite elem_of_edges; subst lo hi; dlia|].
      replace (b / 512) with (b * 512 / 512 / 512) by (by rewrite Z.div_mul). apply Hreg. lia. }
    change MB2 with 2097152 in E2. replace (lo * 2097152) with (lo * 512 * 4096) in E2 by lia. replace (hi * 2097152) with (hi * 512 * 4096) in E2 by lia.
    rewrite E2. cbn [mbind res_bind]. destruct (lt_wf _ _ _ _ Hl2) as [own2 Hwf2]. pose proof (lt_need _ _ _ _ Hl2).
    destruct (pages_loop own2 (regions a n) (edges a n) unmap t (hi * 512) (a + n) (S (Z.to_nat n)) s2) as (s3 & E3 & Hl3 & Hh3 & Hs3 & Hv3);
      [done|done|lia|lia| |lia|lia|].
    { intros q Hq. split; [|apply Hreg; lia]. apply elem_of_edges. subst hi. dlia. }
    exists s3. split; [done|]. split; [by do 2 (eapply later_trans; [eassumption|])|]. split.
    + intros q Hq. assert (0 <= q / 512 / 512 < 512) as Hg by dlia.
      destruct (decide (q < lo * 512)); [apply (lt_split _ _ _ _ Hl3), (lt_split _ _ _ _ Hl2), Hs1; done || lia|].
      destruct (decide (q < hi * 512)); [apply (lt_split _ _ _ _ Hl3), Hs2; [done|dlia]|apply Hs3; lia].
    + intros q Hq. destruct (page_bounds q Hq) as [Hb _]. rewrite Hv3, Hv2, Hv1 by done.
      assert (whole a n (q / 512) = ((lo <=? q / 512) && (q / 512 <? hi))%bool) as Ew.
      { unfold whole. subst lo hi. destruct (Z.leb_spec a (q / 512 * 512)), (Z.leb_spec (q / 512 * 512 + 512) (a + n)),
          (Z.leb_spec ((a + 511) / 512) (q / 512)), (Z.ltb_spec (q / 512) ((a + n) / 512)); cbn; done || dlia. }
      rewrite Ew.
      destruct (Z.leb_spec lo (q / 512)), (Z.ltb_spec (q / 512) hi); cbn [andb orb].
      * rewrite (proj2 (Z.leb_gt (hi * 512) q)), (proj2 (Z.leb_le a q)), (proj2 (Z.ltb_lt q (a + n))) by dlia. done.
      * rewrite Hh2, Hh1 by (done || lia). rewrite (proj2 (Z.leb_le (hi * 512) q)), (proj2 (Z.leb_le a q)), (proj2 (Z.ltb_ge q (lo * 512))) by dlia.
        rewrite andb_false_r. cbn. done.
      * rewrite (proj2 (Z.leb_gt (hi * 512) q)), (proj2 (Z.ltb_lt q (lo * 512))), (proj2 (Z.ltb_lt q (a + n))) by dlia.
        rewrite andb_true_r. done.
      * lia.
Qed.

(** *** Whole regions *)

Lemma view_leaf own s g j q :
  wf own s → 0 <= g < 512 → 0 <= j < 512 → split s g = true → Z.land (E s (gbi s g) j) 3 ≠ 3 → q / 512 = g * 512 + j →
  view s q = sees (E s (gbi s g) j).
Proof.
  intros Hwf Hg Hj Hs H3 Hq. unfold view, desc. rewrite Hq, (split_block own) by done. by rewrite (proj2 (Z.eqb_neq _ _) H3).
Qed.

(** The work on one entry of a region, [U] what it does to each page below it. *)
Definition entry_step (own : Z → owner) (g i : Z) (U : option Z → option Z) (f : Z → pt_state → res pt_state) : Prop :=
  ∀ j s, 0 <= j < 512 → wf own s → split s g = true → gbi s g = i →
    ∃ s', f j s = Ret s' ∧ wf own s' ∧ same_tables s s' ∧
      ∀ q, 0 <= q < 2 ^ 27 → view s' q = if q / 512 =? g * 512 + j then U (view s q) else view s q.

Lemma gb_loop own s g U f :
  wf own s → 0 <= g < 512 → split s g = true → entry_step own g (gbi s g) U f →
  ∃ s', for_up 512 0 f s = Ret s' ∧ wf own s' ∧ same_tables s s' ∧
    ∀ q, 0 <= q < 2 ^ 27 → view s' q = if q / 512 / 512 =? g then U (view s q) else view s q.
Proof.
  intros Hwf Hg Hs Hf.
  destruct (for_up_ind (λ j s', wf own s' ∧ same_tables s s' ∧
    ∀ q, 0 <= q < 2 ^ 27 → view s' q = if ((q / 512 / 512 =? g) && (q / 512 <? g * 512 + j))%bool then U (view s q) else view s q) f 512 0 s)
    as (s' & E1 & Hwf' & Hst & Hv).
  - split; [done|]. split; [apply same_tables_refl, (wf_len _ _ Hwf)|]. intros q Hq.
    destruct (Z.eqb_spec (q / 512 / 512) g), (Z.ltb_spec (q / 512) (g * 512 + 0)); cbn; try done. dlia.
  - intros j a Hj (Hwfa & Hsta & Hva). destruct (Hf j a) as (a' & E1 & Hwf' & Hst' & Hv'); [lia|done|by destruct (same_gbi s a g Hsta) as [_ ->]|by destruct (same_gbi s a g Hsta) as [-> _]|].
    exists a'. split; [done|]. split; [done|]. split; [by etransitivity|]. intros q Hq. rewrite Hv', Hva by done.
    destruct (Z.eqb_spec (q / 512) (g * 512 + j)), (Z.eqb_spec (q / 512 / 512) g), (Z.ltb_spec (q / 512) (g * 512 + j)),
      (Z.ltb_spec (q / 512) (g * 512 + (j + 1))); cbn; done || dlia.
  - exists s'. split; [done|]. split; [done|]. split; [done|]. intros q Hq. rewrite Hv by done.
    destruct (Z.eqb_spec (q / 512 / 512) g), (Z.ltb_spec (q / 512) (g * 512 + (0 + Z.of_nat 512))); cbn; try done. dlia.
Qed.

(** A table below is rewritten entry by entry. *)
Lemma table_step own s s' g j k (U : option Z → option Z) :
  wf own s → 0 <= g < 512 → 0 <= j < 512 → split s g = true → l3_ok own s g j (E s (gbi s g) j) k → same_tables s s' →
  (∀ i m, 0 <= i → 0 <= m < 512 → i ≠ k → E s' i m = E s i m) →
  (∀ m, 0 <= m < 512 → leaf 3 (addr3 g j m) (E s' k m) ∧ sees (E s' k m) = U (sees (E s k m))) →
  wf own s' ∧ ∀ q, 0 <= q < 2 ^ 27 → view s' q = if q / 512 =? g * 512 + j then U (view s q) else view s q.
Proof.
  intros Hwf Hg Hj Hs (Hk & Ho & Ek & _) Hst HE HU. pose proof (wf_used _ _ Hwf).
  destruct (l3_write own s s' g j k) as (Hwf' & _ & Hv); [done..|intros; by apply HU|]. split; [done|].
  intros q Hq. rewrite Hv by done. destruct (Z.eqb_spec (q / 512) (g * 512 + j)) as [Eq|]; [|done].
  rewrite (view_l3 own s g j k q) by (done || lia). apply HU, page_bounds, Hq.
Qed.

Lemma leaf_step own s g j v (U : option Z → option Z) :
  wf own s → 0 <= g < 512 → 0 <= j < 512 → split s g = true → Z.land (E s (gbi s g) j) 3 ≠ 3 →
  leaf 1 (addr2 g j) v → sees v = U (sees (E s (gbi s g) j)) →
  ∃ s', set_entry (gbi s g) j v s = Ret s' ∧ wf own s' ∧ same_tables s s' ∧
    ∀ q, 0 <= q < 2 ^ 27 → view s' q = if q / 512 =? g * 512 + j then U (view s q) else view s q.
Proof.
  intros Hwf Hg Hj Hs H3 Hv HU. pose proof (wf_len _ _ Hwf) as Hlen. pose proof (wf_used _ _ Hwf). destruct (gbi_owner own s g Hwf Hg Hs).
  destruct (set_entry_ok s (gbi s g) j v) as (s' & E1 & Hst & HE); [done|lia|done|].
  destruct (l2_write own s s' g j v Hwf Hg Hj Hs H3 Hv Hst HE) as (Hwf' & _ & Hview).
  exists s'. split; [done|]. split; [done|]. split; [done|]. intros q Hq. rewrite Hview by done.
  destruct (Z.eqb_spec (q / 512) (g * 512 + j)) as [Eq|]; [|done]. by rewrite (view_leaf own s g j q).
Qed.

Definition retype (t : pt_mem_type_t) (o : option Z) : option Z := match o with None => None | Some _ => target false t end.

Lemma retype_sees t e : retype t (sees e) = if Z.land e 1 =? 0 then None else target false t.
Proof. unfold sees. by destruct (_ =? 0). Qed.

(** A table whose valid entries are rewritten. *)
Lemma rewrite_ok s k f :
  lengths s → 0 <= k < 64 →
  ∃ s', for_up 512 0 (λ m s, e ← entry k m s; if Z.land e PT_VALID =? 0 then Ret s else set_entry k m (f m) s) s = Ret s' ∧
    same_tables s s' ∧
    ∀ i m, 0 <= i → 0 <= m < 512 → E s' i m = if ((i =? k) && negb (Z.land (E s k m) 1 =? 0))%bool then f m else E s i m.
Proof.
  intros Hl Hk.
  destruct (for_up_ind (λ n s', same_tables s s' ∧ ∀ i m, 0 <= i → 0 <= m < 512 →
    E s' i m = if ((i =? k) && (m <? n) && negb (Z.land (E s k m) 1 =? 0))%bool then f m else E s i m)
    (λ m s, e ← entry k m s; if Z.land e PT_VALID =? 0 then Ret s else set_entry k m (f m) s) 512 0 s) as (s' & E1 & H1 & H2).
  - split; [by apply same_tables_refl|]. intros i m ? ?. rewrite (proj2 (Z.ltb_ge _ _)), andb_false_r by lia. done.
  - intros j a Hj [Ha1 Ha2]. pose proof (st_len _ _ Ha1) as Hla. rewrite entry_ok by (done || lia). cbn [mbind res_bind].
    rewrite Ha2 by lia. rewrite Z.ltb_irrefl, andb_false_r. cbn [andb]. unfold PT_VALID. destruct (Z.eqb_spec (Z.land (E s k j) 1) 0) as [H0|H0].
    + exists a. split; [done|]. split; [done|]. intros i m Hi Hm. rewrite Ha2 by done.
      destruct (Z.eqb_spec i k), (Z.ltb_spec m j), (Z.ltb_spec m (j + 1)); cbn; try done; [lia|].
      assert (m = j) as -> by lia. by rewrite H0.
    + destruct (set_entry_ok a k j (f j)) as (a' & E1 & Ha' & HE); [done|done|lia|].
      exists a'. split; [done|]. split; [by etransitivity|]. intros i m Hi Hm. rewrite HE, Ha2 by lia.
      destruct (Z.eqb_spec i k), (Z.eqb_spec m j), (Z.ltb_spec m j), (Z.ltb_spec m (j + 1)); cbn; try done; try lia.
      subst m. by rewrite (proj2 (Z.eqb_neq _ _) H0).
  - exists s'. split; [done|]. split; [done|]. intros i m ? ?. rewrite H2, (proj2 (Z.ltb_lt _ _)), andb_true_r by lia. done.
Qed.

Lemma set_gb_entry_ok own g i t :
  0 <= g < 512 → entry_step own g i (retype t) (set_gb_entry (u64 (Z.shiftl g 30)) i t).
Proof.
  intros Hg j s Hj Hwf Hs <-. destruct (gbi_owner own s g Hwf Hg Hs) as [Hi _]. pose proof (wf_used _ _ Hwf) as Hu.
  pose proof (wf_len _ _ Hwf) as Hlen. unfold set_gb_entry. rewrite entry_ok by (done || lia). cbn [mbind res_bind].
  assert (u64 (u64 (Z.shiftl g 30) + Z.shiftl j 21) = addr2 g j) as Ea.
  { rewrite !Z.shiftl_mul_pow2 by lia. unfold addr2. rewrite !u64_small; rewrite ?u64_small; lia. }
  pose proof (addr2_addr g j Hg Hj) as Ha.
  destruct (wf_l2 _ _ Hwf g j Hg Hj Hs) as [Hleaf|(k & Hk)].
  - pose proof (leaf1_not3 _ _ Ha Hleaf) as Hn3. rewrite (proj2 (Z.eqb_neq _ _) Hn3). unfold PT_VALID.
    destruct (Z.eqb_spec (Z.land (E s (gbi s g) j) 1) 0) as [H0|H0].
    + exists s. split; [done|]. split; [done|]. split; [by apply same_tables_refl|]. intros q Hq.
      destruct (Z.eqb_spec (q / 512) (g * 512 + j)); [|done]. rewrite (view_leaf own s g j q) by done. unfold sees. by rewrite H0.
    + rewrite Ea. destruct (block_value (addr2 g j) false t Ha) as [Hv Hsv].
      apply (leaf_step own s g j (make_block (addr2 g j) t) (retype t)); try done. rewrite Hsv, retype_sees. by rewrite (proj2 (Z.eqb_neq _ _) H0).
  - pose proof Hk as (Hku & _ & Ek & Hl3). destruct (link_ok k) as (L3 & _ & LT & _); [lia|]. rewrite Ek, L3. change (3 =? 3) with true.
    rewrite LT, (table_idx_ok own) by done. cbn [mbind res_bind].
    destruct (rewrite_ok s k (λ m, make_page (u64 (u64 (Z.shiftl g 30) + Z.shiftl j 21 + Z.shiftl m 12)) t)) as (s' & E1 & Hst & HE); [done|lia|].
    rewrite E1. exists s'. split; [done|].
    assert (∀ m, 0 <= m < 512 → u64 (u64 (Z.shiftl g 30) + Z.shiftl j 21 + Z.shiftl m 12) = addr3 g j m) as Ea3.
    { intros m Hm. rewrite !Z.shiftl_mul_pow2 by lia. unfold addr3, addr2. rewrite !u64_small; rewrite ?u64_small; lia. }
    destruct (table_step own s s' g j k (retype t)) as [Hwf' Hv]; try done.
    { intros i m Hi' Hm Hne. rewrite HE by done. by rewrite (proj2 (Z.eqb_neq i k) Hne). }
    intros m Hm. rewrite HE, Z.eqb_refl, Ea3, retype_sees by lia. cbn [andb].
    destruct (Z.eqb_spec (Z.land (E s k m) 1) 0) as [H0|H0]; cbn [negb].
    + split; [by apply Hl3|]. unfold sees. by rewrite H0.
    + destruct (page_value (addr3 g j m) false t) as [Hp Hsp]; [by apply addr3_addr|]. done.
Qed.

Lemma unmap_gb_entry_ok own g i :
  0 <= g < 512 → entry_step own g i (λ _, None) (unmap_gb_entry i).
Proof.
  intros Hg j s Hj Hwf Hs <-. destruct (gbi_owner own s g Hwf Hg Hs) as [Hi _]. pose proof (wf_used _ _ Hwf) as Hu.
  pose proof (wf_len _ _ Hwf) as Hlen. unfold unmap_gb_entry. rewrite entry_ok by (done || lia). cbn [mbind res_bind].
  destruct (wf_l2 _ _ Hwf g j Hg Hj Hs) as [Hleaf|(k & Hk)].
  - pose proof (leaf1_not3 _ _ (addr2_addr g j Hg Hj) Hleaf) as Hn3. rewrite (proj2 (Z.eqb_neq _ _) Hn3).
    apply (leaf_step own s g j 0 (λ _, None)); try done. by left.
  - pose proof Hk as (Hku & _ & Ek & Hl3). destruct (link_ok k) as (L3 & _ & LT & _); [lia|]. rewrite Ek, L3. change (3 =? 3) with true.
    rewrite LT, (table_idx_ok own) by done. cbn [mbind res_bind].
    destruct (fill_table_ok s k (λ _, 0)) as (s' & E1 & Hst & HE); [done|lia|].
    rewrite E1. exists s'. split; [done|].
    destruct (table_step own s s' g j k (λ _, None)) as [Hwf' Hv]; try done.
    { intros i m Hi' Hm Hne. rewrite HE by done. by rewrite (proj2 (Z.eqb_neq i k) Hne). }
    intros m Hm. rewrite HE, Z.eqb_refl by lia. split; [by left|done].
Qed.

(** The entry of a region that is not split. *)
Lemma l1_write own s g v :
  wf own s → 0 <= g < 512 → split s g = false → leaf 1 (g * 2 ^ 30) v →
  ∃ s', (t ← arr_put (ttbr0 s) g v; Ret (set_ttbr0 t s)) = Ret s' ∧ wf own s' ∧ (∀ g', split s' g' = split s g') ∧
    table_pool_used s' = table_pool_used s ∧
    ∀ q, 0 <= q < 2 ^ 27 → view s' q = if q / 512 / 512 =? g then sees v else view s q.
Proof.
  intros Hwf Hg Hs Hv. pose proof (wf_len _ _ Hwf) as Hlen. rewrite arr_put_nth by (rewrite (len_l1 s Hlen); lia). cbn [mbind res_bind].
  set (s' := set_ttbr0 _ s). exists s'. split; [done|].
  assert (∀ g', 0 <= g' < 512 → at_ (ttbr0 s') g' = if g' =? g then v else at_ (ttbr0 s) g') as Hat.
  { intros g' Hg'. unfold at_, s', set_ttbr0. cbn [ttbr0]. rewrite nth_insert by (rewrite (len_l1 s Hlen); lia).
    destruct (decide _), (Z.eqb_spec g' g); done || lia. }
  split; [|split; [done|split; [done|]]].
  - destruct Hwf as [[] Hi Hu Hp Hgb Hl2]. constructor; try done.
    + constructor; try done. subst s'. cbn. by rewrite length_insert.
    + intros g' Hg'. rewrite Hat by done. change (gbi s' g') with (gbi s g').
      destruct (Hgb g' Hg') as [[H1 H2]|H]; [left; split; [done|]|by right]. destruct (Z.eqb_spec g' g) as [->|]; done.
  - intros q Hq. destruct (page_bounds q Hq) as [Hb _]. destruct (block_bounds _ Hb) as [Hqg _].
    unfold view, desc, l2e. change (split s') with (split s). change (gbi s') with (gbi s). change (E s') with (E s). rewrite Hat by done.
    destruct (Z.eqb_spec (q / 512 / 512) g) as [->|]; [|done]. rewrite Hs.
    assert (Z.land v 3 ≠ 3) as Hn3 by (apply (leaf1_not3 (g * 2 ^ 30)); [apply addr_mul; [lia|]; exists (g * 2 ^ 18); lia|done]).
    by rewrite (proj2 (Z.eqb_neq _ _) Hn3).
Qed.

Lemma pt_set_gb_ok own s g t :
  wf own s → 0 <= g < 512 →
  ∃ s', pt_set_gb g t s = Ret s' ∧ wf own s' ∧ (∀ g', split s' g' = split s g') ∧ table_pool_used s' = table_pool_used s ∧
    ∀ q, 0 <= q < 2 ^ 27 → view s' q =
      if q / 512 / 512 =? g then (if split s g then retype t (view s q) else target false t) else view s q.
Proof.
  intros Hwf Hg. unfold pt_set_gb, init_once. rewrite (wf_init _ _ Hwf), (proj2 (Z.ltb_ge g 0)), (proj2 (Z.leb_gt 512 g)) by lia. cbn [orb].
  rewrite (arr_get_nth 0) by (rewrite (len_gb s (wf_len _ _ Hwf)); lia). cbn [mbind res_bind]. fold (at_ (gb_to_l2 s) g). fold (gbi s g). fold (split s g).
  destruct (split s g) eqn:Es.
  - destruct (gb_loop own s g (retype t) (set_gb_entry (u64 (Z.shiftl g 30)) (gbi s g) t) Hwf Hg Es) as (s' & E1 & Hwf' & Hst & Hv);
      [by apply set_gb_entry_ok|].
    exists s'. split; [done|]. split; [done|]. split; [intros g'; apply (same_gbi _ _ _ Hst)|]. split; [apply Hst|]. intros q Hq. by rewrite Hv.
  - assert (is_addr (g * 2 ^ 30)) as Ha by (apply addr_mul; [lia|]; exists (g * 2 ^ 18); lia).
    rewrite Z.shiftl_mul_pow2, u64_small by lia. destruct (block_value (g * 2 ^ 30) false t Ha) as [Hv Hsv].
    destruct (l1_write own s g (make_block (g * 2 ^ 30) t) Hwf Hg Es Hv) as (s' & E1 & Hwf' & Hs & Hu & Hview).
    exists s'. split; [done|]. split; [done|]. split; [done|]. split; [done|]. intros q Hq. rewrite Hview by done. by rewrite Hsv.
Qed.

Lemma pt_unmap_gb_ok own s g :
  wf own s → 0 <= g < 512 →
  ∃ s', pt_unmap_gb g s = Ret s' ∧ wf own s' ∧ (∀ g', split s' g' = split s g') ∧ table_pool_used s' = table_pool_used s ∧
    ∀ q, 0 <= q < 2 ^ 27 → view s' q = if q / 512 / 512 =? g then None else view s q.
Proof.
  intros Hwf Hg. unfold pt_unmap_gb, init_once. rewrite (wf_init _ _ Hwf), (proj2 (Z.ltb_ge g 0)), (proj2 (Z.leb_gt 512 g)) by lia. cbn [orb].
  rewrite (arr_get_nth 0) by (rewrite (len_gb s (wf_len _ _ Hwf)); lia). cbn [mbind res_bind]. fold (at_ (gb_to_l2 s) g). fold (gbi s g). fold (split s g).
  destruct (split s g) eqn:Es.
  - destruct (gb_loop own s g (λ _, None) (unmap_gb_entry (gbi s g)) Hwf Hg Es) as (s' & E1 & Hwf' & Hst & Hv); [by apply unmap_gb_entry_ok|].
    exists s'. split; [done|]. split; [done|]. split; [intros g'; apply (same_gbi _ _ _ Hst)|]. split; [apply Hst|]. done.
  - destruct (l1_write own s g 0 Hwf Hg Es) as (s' & E1 & Hwf' & Hs & Hu & Hview); [by left|]. by exists s'.
Qed.

(** ** Installing the tables, and what the processor sees *)

(** The entries of the split regions point to their tables. *)
Definition installed (s : pt_state) : Prop := ∀ g, 0 <= g < 512 → split s g = true → at_ (ttbr0 s) g = link (gbi s g).

Lemma pt_apply_ok own s :
  wf own s →
  ∃ s', pt_apply s = Ret s' ∧ wf own s' ∧ installed s' ∧ (∀ g, split s' g = split s g) ∧ table_pool_used s' = table_pool_used s ∧
    ∀ q, 0 <= q < 2 ^ 27 → view s' q = view s q.
Proof.
  intros Hwf. pose proof (wf_len _ _ Hwf) as Hlen. unfold pt_apply.
  destruct (for_up_ind (λ j s', s' = set_ttbr0 (ttbr0 s') s ∧ length (ttbr0 s') = 512%nat ∧
    ∀ g, 0 <= g < 512 → at_ (ttbr0 s') g = if ((g <? j) && split s g)%bool then link (gbi s g) else at_ (ttbr0 s) g) apply_gb 512 0 s)
    as (s' & E1 & Es & Hl & Hat).
  - split; [by destruct s|]. split; [apply Hlen|]. intros g Hg. by rewrite (proj2 (Z.ltb_ge g 0)) by lia.
  - intros j a Hj (Ea & Hla & Hata). unfold apply_gb.
    assert (gb_to_l2 a = gb_to_l2 s ∧ table_pas a = table_pas s) as [-> ->] by (rewrite Ea; done).
    rewrite (arr_get_nth 0) by (rewrite (len_gb s Hlen); lia). cbn [mbind res_bind]. fold (at_ (gb_to_l2 s) j). fold (gbi s j).
    destruct (Z.ltb_spec (gbi s j) 0) as [Hn|Hn].
    + exists a. split; [done|]. split; [done|]. split; [done|]. intros g Hg. rewrite Hata by done.
      destruct (Z.ltb_spec g j), (Z.ltb_spec g (j + 1)); cbn; try done; [lia|].
      assert (g = j) as -> by lia. unfold split. by rewrite (proj2 (Z.leb_gt _ _)).
    + assert (split s j = true) as Hs by (unfold split; by apply Z.leb_le). destruct (gbi_owner own s j Hwf) as [Hi _]; [lia|done|].
      pose proof (wf_used _ _ Hwf). rewrite (arr_get_nth 0) by (rewrite (len_pas s Hlen); lia). cbn [mbind res_bind].
      fold (at_ (table_pas s) (gbi s j)). rewrite (wf_pas _ _ Hwf) by done. rewrite <- Z.lor_assoc. change (Z.lor PT_VALID PT_TABLE) with 3.
      fold (link (gbi s j)). rewrite arr_put_nth by lia. cbn [mbind res_bind]. eexists. split; [done|].
      split; [by rewrite Ea|]. split; [cbn; by rewrite length_insert|]. intros g Hg. unfold at_. cbn [set_ttbr0 ttbr0]. rewrite nth_insert by lia.
      fold (at_ (ttbr0 a) g). rewrite Hata by done.
      destruct (decide _), (Z.ltb_spec g j), (Z.ltb_spec g (j + 1)); cbn; try done; try lia. assert (g = j) as -> by lia. by rewrite Hs.
  - exists s'. split; [done|].
    assert (∀ g, 0 <= g < 512 → at_ (ttbr0 s') g = if split s g then link (gbi s g) else at_ (ttbr0 s) g) as Hat'.
    { intros g Hg. by rewrite Hat, (proj2 (Z.ltb_lt _ _)) by lia. }
    assert (gb_to_l2 s' = gb_to_l2 s ∧ table_pas s' = table_pas s ∧ table_pool s' = table_pool s ∧ initialized s' = initialized s ∧
      table_pool_used s' = table_pool_used s) as (Egb & Epas & Epool & Einit & Eu) by (rewrite Es; done).
    assert (∀ g, gbi s' g = gbi s g ∧ split s' g = split s g) as Hgb by (intros; unfold split, gbi; by rewrite Egb).
    assert (∀ i j, E s' i j = E s i j) as HE by (intros; unfold E; by rewrite Epool).
    split; [|split; [|split; [intros g; apply Hgb|split; [done|]]]].
    + destruct Hwf as [[] Hi Hu Hp Hgb0 Hl2]. constructor; rewrite ?Epas, ?Einit, ?Eu; try done.
      * constructor; rewrite ?Epas, ?Epool, ?Egb; done.
      * intros g Hg. destruct (Hgb g) as [-> _]. destruct (Hgb0 g Hg) as [[H1 H2]|H]; [left|by right]. split; [done|].
        rewrite Hat' by done. unfold split. by rewrite H1.
      * intros g j Hg Hj. destruct (Hgb g) as [-> ->]. intros Hs. destruct (Hl2 g j Hg Hj Hs) as [H|[k H]]; rewrite HE; [by left|right; exists k].
        destruct H as (? & ? & ? & ?). split; [by rewrite Eu|]. split; [done|]. split; [done|]. intros m. rewrite HE. auto.
    + intros g Hg. destruct (Hgb g) as [-> ->]. intros Hs. by rewrite Hat', Hs.
    + intros q Hq. destruct (page_bounds q Hq) as [Hb Hm]. destruct (block_bounds _ Hb) as [Hg _].
      apply (view_frame own); [done|done| |intros; apply HE]. unfold l2e. destruct (Hgb (q / 512 / 512)) as [-> ->]. rewrite HE, Hat' by done.
      by destruct (split s _).
Qed.

(** The translation of an address below 512 GB: where it goes and with which attributes. *)
Definition walk (s : pt_state) (va : Z) : option (Z * Z) :=
  let l1 := at_ (ttbr0 s) (va / 2 ^ 30) in
  if Z.land l1 1 =? 0 then None
  else if Z.land l1 3 =? 1 then Some (Z.land l1 0x0000FFFFC0000000 + va mod 2 ^ 30, attrs l1)
  else
    let l2 := E s (tidx l1) ((va / 2 ^ 21) mod 512) in
    if Z.land l2 1 =? 0 then None
    else if Z.land l2 3 =? 1 then Some (Z.land l2 0x0000FFFFFFE00000 + va mod 2 ^ 21, attrs l2)
    else
      let l3 := E s (tidx l2) ((va / 2 ^ 12) mod 512) in
      if Z.land l3 3 =? 3 then Some (Z.land l3 OUT + va mod 2 ^ 12, attrs l3) else None.

Lemma shift_mask q n k : 0 <= q < 2 ^ n → 0 <= n → 0 <= k → Z.land (q * 2 ^ k) (Z.shiftl (Z.ones n) k) = q * 2 ^ k.
Proof. intros. rewrite <- Z.shiftl_mul_pow2, <- Z.shiftl_land, Z.land_ones, Z.mod_small by done. done. Qed.

Lemma walk_view own s va :
  wf own s → installed s → 0 <= va < 2 ^ 39 → walk s va = (λ a, (va, a)) <$> view s (va / 4096).
Proof.
  intros Hwf Hin Hva. set (p := va / 4096). assert (0 <= p < 2 ^ 27) as Hp by (subst p; dlia).
  destruct (page_bounds p Hp) as [Hb Hk]. destruct (block_bounds _ Hb) as [Hg Hj].
  set (g := p / 512 / 512) in *. set (j := (p / 512) mod 512) in *. set (k := p mod 512) in *.
  assert (va / 2 ^ 30 = g) as Eg by (change (2 ^ 30) with (4096 * 262144); subst g p; dlia).
  assert ((va / 2 ^ 21) mod 512 = j) as Ej by (change (2 ^ 21) with (4096 * 512); subst j p; dlia).
  assert ((va / 2 ^ 12) mod 512 = k) as Ek by done.
  unfold walk. rewrite Eg, Ej, Ek. unfold view, desc, l2e. fold g j k.
  destruct (split s g) eqn:Es.
  - rewrite Hin by done. destruct (gbi_owner own s g Hwf Hg Es) as [Hi _]. pose proof (wf_used _ _ Hwf).
    destruct (link_ok (gbi s g)) as (L3 & L1 & _ & LT); [lia|]. rewrite L1, L3, LT. change (1 =? 0) with false. change (3 =? 1) with false. cbv iota zeta.
    destruct (wf_l2 _ _ Hwf g j Hg Hj Es) as [Hl|(i & Hiu & _ & Ei & Hl)].
    + pose proof (addr2_addr g j Hg Hj) as Ha. pose proof (leaf1_not3 _ _ Ha Hl) as Hn3. rewrite (proj2 (Z.eqb_neq _ _) Hn3). unfold sees.
      destruct Hl as [H0|(x & Hx & Hx3 & ->)]; [by rewrite H0|]. destruct (leaf_lor _ x 1 Ha Hx Hx3) as (E3 & EA & _). rewrite E3.
      rewrite (land_3_1 _ (or_intror E3)). cbn. rewrite EA, lor_addr by done.
      change 0x0000FFFFFFE00000 with (Z.shiftl (Z.ones 27) 21). unfold addr2.
      replace (g * 2 ^ 30 + j * 2 ^ 21) with ((g * 512 + j) * 2 ^ 21) by lia. rewrite shift_mask by lia.
      do 2 f_equal. change (2 ^ 21) with (4096 * 512). subst g j p. dlia.
    + rewrite Ei. destruct (link_ok i) as (L3' & L1' & _ & LT'); [lia|]. rewrite L1', L3', LT'. cbn.
      pose proof (addr3_addr g j k Hg Hj Hk) as Ha. unfold sees. destruct (Hl k Hk) as [H0|(x & Hx & Hx3 & ->)].
      { destruct (land_1_3 _ H0) as [Hn _]. by rewrite H0, (proj2 (Z.eqb_neq _ _) Hn). }
      destruct (leaf_lor _ x 3 Ha Hx Hx3) as (E3 & EA & _ & EO). rewrite E3, (land_3_1 _ (or_introl E3)). cbn. rewrite EA, EO.
      do 2 f_equal. unfold addr3, addr2. subst g j k p. dlia.
  - destruct (wf_gb _ _ Hwf g Hg) as [[_ Hl]|[H _]]; [|unfold split in Es; bool_to_prop; lia].
    assert (is_addr (g * 2 ^ 30)) as Ha by (apply addr_mul; [lia|]; exists (g * 2 ^ 18); lia).
    pose proof (leaf1_not3 _ _ Ha Hl) as Hn3. rewrite (proj2 (Z.eqb_neq _ _) Hn3). unfold sees.
    destruct Hl as [H0|(x & Hx & Hx3 & ->)]; [by rewrite H0|]. destruct (leaf_lor _ x 1 Ha Hx Hx3) as (E3 & EA & _). rewrite E3.
    rewrite (land_3_1 _ (or_intror E3)). cbn. rewrite EA, lor_addr by done.
    change 0x0000FFFFC0000000 with (Z.shiftl (Z.ones 18) 30). rewrite shift_mask by lia. do 2 f_equal. rewrite <- Eg. dlia.
Qed.

(** *** Unmapping *)

Lemma hole_none s q : hole s (q / 512) = true → view s q = None.
Proof.
  unfold hole, view, desc, sees. intros H. apply Z.eqb_eq in H. destruct (land_1_3 _ H) as [Hn _].
  by rewrite (proj2 (Z.eqb_neq _ _) Hn), H.
Qed.

(** Tables a range may need: one for each region, and one for each end. *)
Definition range_cost (a n : Z) : Z := (a + n - 1) / 2 ^ 18 - a / 2 ^ 18 + 3.

Lemma pt_unmap_ok own s a n :
  wf own s → 0 <= a → 0 < n → a + n <= 2 ^ 27 → table_pool_used s + range_cost a n <= 64 →
  ∃ s' own', pt_unmap va_to_pa (a * 4096) (n * 4096) s = Ret s' ∧ wf own' s' ∧
    table_pool_used s' <= table_pool_used s + range_cost a n ∧
    (∀ g, 0 <= g < 512 → split s g = true → split s' g = true) ∧ (∀ q, a <= q < a + n → split s' (q / 512 / 512) = true) ∧
    ∀ q, 0 <= q < 2 ^ 27 → view s' q = if in_range q a n then None else view s q.
Proof.
  intros Hwf Ha Hn Hsum Hroom. pose proof (need_start a n s Hn Ha) as Hneed. unfold range_cost in *.
  destruct (modify_range_ok own s true PT_DEVICE_NGNRNE a n Hwf Ha Hn Hsum) as (s' & E1 & [[own' Hwf'] Hs Hl] & Hsp & Hv); [lia|].
  pose proof (need_init a n s'). exists s', own'. split; [done|]. split; [done|]. split; [lia|]. split; [done|]. split; [done|].
  intros q Hq. rewrite Hv by done. unfold in_range. destruct ((a <=? q) && (q <? a + n))%bool; [|done]. cbn [andb].
  destruct (hole s (q / 512)) eqn:Eh; [|by rewrite orb_true_r]. rewrite orb_false_r, (hole_none s q Eh). by destruct (whole _ _ _).
Qed.

(** *** The boot code *)

(** The segments [l] that are unmapped, in pages. *)
Definition off_limits (l : list pmem_segment_t) : list pmem_segment_t := filter (λ g, type g = T234_PMEM_INACCESSIBLE) l.
Fixpoint total_cost (l : list pmem_segment_t) : Z :=
  match l with [] => 0 | g :: l => range_cost (paddr g / 4096) (size g / 4096) + total_cost l end.
Definition segment_ok (g : pmem_segment_t) : Prop :=
  0 <= paddr g ∧ 0 < size g ∧ paddr g + size g <= 2 ^ 39 ∧ (4096 | paddr g) ∧ (4096 | size g).
Definition page_in (g : pmem_segment_t) (q : Z) : bool := in_range q (paddr g / 4096) (size g / 4096).

Lemma unmap_segments_ok l : Forall segment_ok l → ∀ own s,
  wf own s → table_pool_used s + total_cost (off_limits l) <= 64 →
  ∃ s' own', unmap_segments va_to_pa l s = Ret s' ∧ wf own' s' ∧
    (∀ g, 0 <= g < 512 → split s g = true → split s' g = true) ∧
    (∀ q, 0 <= q < 2 ^ 27 → existsb (λ g, page_in g q) (off_limits l) = true → split s' (q / 512 / 512) = true) ∧
    ∀ q, 0 <= q < 2 ^ 27 → view s' q = if existsb (λ g, page_in g q) (off_limits l) then None else view s q.
Proof.
  induction 1 as [|g l Hg Hl IH]; intros own s Hwf Hcost; cbn [unmap_segments].
  { exists s, own. done. }
  unfold off_limits in *. rewrite filter_cons in *. destruct (Z.eqb_spec (type g) T234_PMEM_INACCESSIBLE) as [Et|Et].
  - rewrite decide_True in * by done. cbn [total_cost existsb] in *. destruct Hg as (H0 & H1 & H2 & [a Ea] & [n En]).
    rewrite Ea, En in *. rewrite !Z.div_mul in Hcost by done.
    assert (0 <= total_cost (filter (λ g, type g = T234_PMEM_INACCESSIBLE) l)) as Hpos.
    { clear -Hl. assert (Forall segment_ok (filter (λ g, type g = T234_PMEM_INACCESSIBLE) l)) as H by (apply list.Forall_forall; intros x Hx; apply list_elem_of_filter in Hx as [_ Hx]; by apply (proj1 (list.Forall_forall _ _) Hl)).
      induction H as [|x l' (? & ? & _ & [? Hx] & [? Hy]) _ IH]; cbn; [done|]. rewrite Hx, Hy, !Z.div_mul by done. unfold range_cost.
      change (2 ^ 18) with 262144. dlia. }
    destruct (pt_unmap_ok own s a n Hwf) as (s1 & own1 & E1 & Hwf1 & Hu1 & Hs1 & Hsp1 & Hv1); [lia..|].
    rewrite E1. cbn [mbind res_bind]. destruct (IH own1 s1 Hwf1) as (s2 & own2 & E2 & Hwf2 & Hs2 & Hsp2 & Hv2); [lia|].
    exists s2, own2. split; [done|]. split; [done|]. split; [auto|]. unfold page_in at 1 3. rewrite Ea, En, !Z.div_mul by done. split.
    + intros q Hq. destruct (in_range q a n) eqn:Er; cbn [orb]; [|by apply Hsp2]. intros _.
      apply Hs2; [apply block_bounds, page_bounds, Hq|]. apply Hsp1. unfold in_range in Er. bool_to_prop. lia.
    + intros q Hq. rewrite Hv2, Hv1 by done. by destruct (in_range q a n), (existsb _ _).
  - rewrite decide_False in * by done. cbn [mbind res_bind]. by apply (IH own).
Qed.

Definition device : Z := attrs 0x721.
Definition device_xn : Z := attrs (Z.lor 0x721 (Z.lor PT_PXN PT_UXN)).
Definition boot_view (q : Z) : option Z := Some (if q / 512 / 512 <? 2 then device_xn else device).

Lemma boot_tables_ok : wf (λ _, OwnL2 0) (init_once boot_state) ∧
  (∀ g, 0 <= g < 512 → split (init_once boot_state) g = false) ∧
  ∀ q, 0 <= q < 2 ^ 27 → view (init_once boot_state) q = boot_view q.
Proof.
  assert (∀ g, 0 <= g < 512 → at_ (ttbr0 boot_state) g = entry_l1 g) as Hat.
  { intros g Hg. unfold at_, boot_state. cbn [ttbr0]. rewrite nth_lookup, list_lookup_fmap, lookup_seqZ_lt by lia. cbn. f_equal. lia. }
  assert (∀ g, 0 <= g < 512 → gbi (init_once boot_state) g = -1) as Hgb.
  { intros g Hg. unfold gbi, at_. cbn [init_once boot_state initialized gb_to_l2]. rewrite nth_lookup, lookup_replicate_2 by lia. done. }
  assert (∀ g, 0 <= g < 512 → split (init_once boot_state) g = false) as Hsp by (intros g Hg; unfold split; by rewrite Hgb).
  assert (∀ g, 0 <= g < 512 → ∃ x, entry_l1 g = Z.lor (g * 2 ^ 30) x ∧ is_attrs x ∧ Z.land x 3 = 1 ∧ attrs x = if g <? 2 then device_xn else device) as Hx.
  { intros g Hg. unfold entry_l1. rewrite <- Z.lor_assoc. eexists. split; [done|]. by destruct (g <? 2). }
  split; [|split; [done|]].
  - constructor; try done.
    + constructor; try apply length_replicate.
      * intros i Hi. cbn [init_once boot_state initialized table_pool]. rewrite nth_lookup, lookup_replicate_2 by lia. apply length_replicate.
      * cbn [init_once boot_state initialized ttbr0]. by rewrite length_fmap, length_seqZ.
    + intros i Hi. cbn in Hi. lia.
    + intros g Hg. left. split; [by apply Hgb|]. change (ttbr0 (init_once boot_state)) with (ttbr0 boot_state). rewrite Hat by done.
      destruct (Hx g Hg) as (x & -> & ? & ? & _). right. by exists x.
    + intros g j Hg _ Hs. rewrite Hsp in Hs by done. done.
  - intros q Hq. destruct (page_bounds q Hq) as [Hb _]. destruct (block_bounds _ Hb) as [Hg _].
    unfold view, desc, l2e. rewrite Hsp by done. change (ttbr0 (init_once boot_state)) with (ttbr0 boot_state). rewrite Hat by done.
    destruct (Hx _ Hg) as (x & -> & Hax & H3 & EA). assert (is_addr (q / 512 / 512 * 2 ^ 30)) as Ha by (apply addr_mul; [lia|]; exists (q / 512 / 512 * 2 ^ 18); lia).
    destruct (leaf_lor _ x 1 Ha Hax H3) as (E3 & EA2 & _). rewrite E3. change (1 =? 3) with false. cbv iota. unfold sees.
    rewrite (land_3_1 _ (or_intror E3)), EA2, EA. done.
Qed.

(** The loop over the regions from the fourth on. *)
Lemma types_loop own s sdram_end :
  wf own s →
  ∃ s', for_up 509 3 (λ gb s, if sdram_end <=? u64 (Z.shiftl gb 30) then pt_unmap_gb gb s else pt_set_gb gb PT_NORMAL_WB s) s = Ret s' ∧
    wf own s' ∧
    ∀ q, 0 <= q < 2 ^ 27 → view s' q =
      if q / 512 / 512 <? 3 then view s q else if sdram_end <=? q / 512 / 512 * 2 ^ 30 then None
      else if split s (q / 512 / 512) then retype PT_NORMAL_WB (view s q) else target false PT_NORMAL_WB.
Proof.
  intros Hwf.
  destruct (for_up_ind (λ n s', wf own s' ∧ (∀ g, split s' g = split s g) ∧ ∀ q, 0 <= q < 2 ^ 27 → view s' q =
      if ((q / 512 / 512 <? 3) || (n <=? q / 512 / 512))%bool then view s q else if sdram_end <=? q / 512 / 512 * 2 ^ 30 then None
      else if split s (q / 512 / 512) then retype PT_NORMAL_WB (view s q) else target false PT_NORMAL_WB)
    (λ gb s, if sdram_end <=? u64 (Z.shiftl gb 30) then pt_unmap_gb gb s else pt_set_gb gb PT_NORMAL_WB s) 509 3 s) as (s' & E1 & Hwf' & _ & Hv).
  - split; [done|]. split; [done|]. intros q Hq. destruct (Z.ltb_spec (q / 512 / 512) 3), (Z.leb_spec 3 (q / 512 / 512)); cbn; done || lia.
  - intros g a Hg (Hwfa & Hsa & Hva). rewrite Z.shiftl_mul_pow2, u64_small by lia.
    assert (∀ a' (U : Z → option Z), (∀ q, 0 <= q < 2 ^ 27 → view a' q = if q / 512 / 512 =? g then U q else view a q) →
      (∀ q, 0 <= q < 2 ^ 27 → q / 512 / 512 = g → U q = if sdram_end <=? g * 2 ^ 30 then None
        else if split s g then retype PT_NORMAL_WB (view s q) else target false PT_NORMAL_WB) →
      ∀ q, 0 <= q < 2 ^ 27 → view a' q =
        if ((q / 512 / 512 <? 3) || (g + 1 <=? q / 512 / 512))%bool then view s q else if sdram_end <=? q / 512 / 512 * 2 ^ 30 then None
        else if split s (q / 512 / 512) then retype PT_NORMAL_WB (view s q) else target false PT_NORMAL_WB) as Hfin.
    { intros a' U Ha' HU q Hq. rewrite Ha' by done. destruct (Z.eqb_spec (q / 512 / 512) g) as [Eq|Hne].
      - rewrite HU, Eq, (proj2 (Z.ltb_ge g 3)), (proj2 (Z.leb_gt (g + 1) g)) by (done || lia). done.
      - rewrite Hva by done. destruct (Z.ltb_spec (q / 512 / 512) 3), (Z.leb_spec g (q / 512 / 512)), (Z.leb_spec (g + 1) (q / 512 / 512)); cbn; done || lia. }
    assert (∀ q, 0 <= q < 2 ^ 27 → q / 512 / 512 = g → view a q = view s q) as Hsame.
    { intros q Hq Eq. rewrite Hva, Eq, (proj2 (Z.leb_le g g)), orb_true_r by (done || lia). done. }
    destruct (sdram_end <=? g * 2 ^ 30) eqn:Ee.
    + destruct (pt_unmap_gb_ok own a g Hwfa) as (a' & E1 & Hwf' & Hs' & _ & Hv'); [lia|]. exists a'. split; [done|]. split; [done|].
      split; [intros; by rewrite Hs'|]. by apply (Hfin a' (λ _, None)).
    + destruct (pt_set_gb_ok own a g PT_NORMAL_WB Hwfa) as (a' & E1 & Hwf' & Hs' & _ & Hv'); [lia|]. exists a'. split; [done|]. split; [done|].
      split; [intros; by rewrite Hs'|]. apply (Hfin a' _ Hv'). intros q Hq Eq. by rewrite Hsa, Hsame.
  - exists s'. split; [done|]. split; [done|]. intros q Hq. rewrite Hv by done.
    assert ((3 + Z.of_nat 509 <=? q / 512 / 512) = false) as ->; [|by rewrite orb_false_r].
    destruct (page_bounds q Hq) as [Hb _]. destruct (block_bounds _ Hb) as [Hg _]. apply Z.leb_gt. lia.
Qed.

Lemma page_inside s a : (4096 | paddr s) → (4096 | size s) → page_in s (a / 4096) = inside a s.
Proof.
  intros [x Ex] [y Ey]. unfold page_in, in_range, inside. rewrite Ex, Ey, !Z.div_mul by done.
  destruct (Z.leb_spec x (a / 4096)), (Z.leb_spec (x * 4096) a), (Z.ltb_spec (a / 4096) (x + y)), (Z.ltb_spec a (x * 4096 + y * 4096)); cbn; done || dlia.
Qed.

Lemma off_limits_type b l e a :
  (4096 | b) → chain 4096 b l e →
  existsb (λ g, page_in g (a / 4096)) (off_limits l) = bool_decide (type_at l a = Some T234_PMEM_INACCESSIBLE).
Proof.
  revert b. induction l as [|s l IH]; intros b Hb Hc; [done|]. cbn [chain] in Hc. destruct Hc as (Es & Hs & Ds & Hc).
  assert (4096 | b + size s) as Hb' by (by apply Z.divide_add_r). specialize (IH _ Hb' Hc).
  unfold off_limits in *. rewrite filter_cons. cbn [type_at].
  assert (inside a s = true → type_at l a = None) as Hrest.
  { intros Ha. apply (type_at_outside _ _ _ _ _ Hc). unfold inside in Ha. bool_to_prop. lia. }
  destruct (inside a s) eqn:Ea.
  - rewrite Hrest in IH by done. rewrite bool_decide_false in IH by done.
    destruct (decide (type s = T234_PMEM_INACCESSIBLE)) as [Et|Et]; cbn [existsb].
    + rewrite page_inside, Ea by (by rewrite ?Es). rewrite bool_decide_true by (by rewrite Et). done.
    + rewrite IH, bool_decide_false by congruence. done.
  - destruct (decide (type s = T234_PMEM_INACCESSIBLE)) as [Et|Et]; cbn [existsb]; [|done].
    rewrite page_inside, Ea by (by rewrite ?Es). done.
Qed.

Lemma chain_segments b l e : (4096 | b) → 0 <= b → e <= 2 ^ 39 → chain 4096 b l e → Forall segment_ok l.
Proof.
  intros Hd Hb He Hc. apply list.Forall_forall. intros s Hs. destruct (chain_bounds _ _ _ _ _ Hc Hs) as (? & ? & ?).
  apply list_elem_of_split in Hs as (l1 & l2 & ->). apply chain_app in Hc as (m & Hc1 & Hc2). cbn in Hc2. destruct Hc2 as (Em & _ & ? & _).
  assert (4096 | paddr s) by (rewrite Em; by apply (chain_divide 4096 b l1)). split_and!; done || lia.
Qed.

(** The attributes of an address after start-up, given the type of each address. *)
Definition board_sees (ty : Z → option Z) (sdram_end va : Z) : option Z :=
  if va <? 2 ^ 21 then None
  else if bool_decide (ty va = Some T234_PMEM_INACCESSIBLE) then None
  else if va / 2 ^ 30 <? 2 then Some device_xn
  else if va / 2 ^ 30 =? 2 then target false PT_NORMAL_NC
  else if sdram_end <=? va / 2 ^ 30 * 2 ^ 30 then None
  else target false PT_NORMAL_WB.

Lemma pt_unmap_init a n s : pt_unmap va_to_pa a n (init_once s) = pt_unmap va_to_pa a n s.
Proof.
  unfold pt_unmap, modify_range. replace (init_once (init_once s)) with (init_once s); [done|].
  unfold init_once. by destruct (initialized s) eqn:E0; cbn; rewrite ?E0.
Qed.

Lemma map_memory_ok b l e rest sdram_end :
  (4096 | b) → 0 <= b → e <= 2 ^ 39 → chain 4096 b l e → 3 + total_cost (off_limits l) <= 64 →
  ∃ s, map_memory va_to_pa (pmap 4096 l rest) sdram_end boot_state = Ret s ∧
    ∀ va, 0 <= va < 2 ^ 39 → walk s va = (λ a, (va, a)) <$> board_sees (type_at l) sdram_end va.
Proof.
  intros Hd Hb He Hc Hcost. unfold map_memory. cbn [count segments pmap]. rewrite Nat2Z.id, take_app_length.
  destruct boot_tables_ok as (Hwf0 & Hsp0 & Hv0). rewrite <- pt_unmap_init. change (2 * 1024 * 1024) with (512 * 4096).
  assert (table_pool_used (init_once boot_state) = 0) as Hu0 by done.
  generalize dependent (init_once boot_state). intros s0 Hwf0 Hsp0 Hv0 Hu0.
  destruct (pt_unmap_ok _ s0 0 512 Hwf0) as (s1 & own1 & E1 & Hwf1 & Hu1 & Hs1 & Hsp1 & Hv1); [lia|lia|lia|by rewrite Hu0|].
  rewrite Hu0 in Hu1. change (0 + range_cost 0 512) with 3 in Hu1. rewrite Z.mul_0_l in E1.
  rewrite E1. cbn [mbind res_bind].
  destruct (unmap_segments_ok l (chain_segments b l e Hd Hb He Hc) own1 s1 Hwf1) as (s2 & own2 & E2 & Hwf2 & Hs2 & Hsp2 & Hv2); [lia|].
  rewrite E2. cbn [mbind res_bind].
  destruct (pt_apply_ok own2 s2 Hwf2) as (s3 & E3 & Hwf3 & _ & Hs3 & _ & Hv3). rewrite E3. cbn [mbind res_bind].
  destruct (pt_set_gb_ok own2 s3 2 PT_NORMAL_NC Hwf3) as (s4 & E4 & Hwf4 & Hs4 & _ & Hv4); [lia|]. rewrite E4. cbn [mbind res_bind].
  destruct (types_loop own2 s4 sdram_end Hwf4) as (s5 & E5 & Hwf5 & Hv5). rewrite E5. cbn [mbind res_bind].
  destruct (pt_apply_ok own2 s5 Hwf5) as (s6 & E6 & Hwf6 & Hin6 & _ & _ & Hv6). exists s6. split; [done|].
  intros va Hva. rewrite (walk_view own2) by done. f_equal. set (q := va / 4096). assert (0 <= q < 2 ^ 27) as Hq by (subst q; dlia).
  rewrite Hv6, Hv5 by done. destruct (page_bounds q Hq) as [Hqb _]. destruct (block_bounds _ Hqb) as [Hqg _].
  assert (va / 2 ^ 30 = q / 512 / 512) as Eg by (change (2 ^ 30) with (4096 * 262144); subst q; dlia).
  assert ((va <? 2 ^ 21) = in_range q 0 512) as El.
  { unfold in_range. subst q. destruct (Z.ltb_spec va (2 ^ 21)), (Z.leb_spec 0 (va / 4096)), (Z.ltb_spec (va / 4096) (0 + 512)); cbn; done || dlia. }
  unfold board_sees. rewrite Eg, El. pose proof (off_limits_type b l e va Hd Hc) as Hoff. fold q in Hoff. rewrite <- Hoff.
  specialize (Hv2 q Hq). rewrite Hv1, Hv0 in Hv2 by done. set (off := existsb _ _) in *.
  assert (split s2 (q / 512 / 512) = false → in_range q 0 512 = false ∧ off = false) as Hns.
  { intros Hs. split.
    - destruct (in_range q 0 512) eqn:Er; [|done]. rewrite Hs2 in Hs; [done|done|]. apply Hsp1. unfold in_range in Er. bool_to_prop. lia.
    - destruct off eqn:Eo; [|done]. rewrite Hsp2 in Hs; done. }
  rewrite Hs4, Hs3. rewrite Hv4, Hv3, Hs3, Hv2 by done.
  set (g := q / 512 / 512) in *. unfold boot_view. fold g.
  assert (g = 2 → split s2 2 = split s2 g) as Hg2 by (by intros ->).
  destruct (Z.ltb_spec g 3), (Z.eqb_spec g 2), (Z.ltb_spec g 2); try lia; rewrite ?Hg2 by done;
    destruct (in_range q 0 512) eqn:Er, off eqn:Eo, (split s2 g) eqn:Es; try (destruct Hns; done); try done;
    cbn [retype]; destruct (sdram_end <=? g * 2 ^ 30); done.
Qed.

Lemma board_init_steps malloc cbp p s0 s :
  tegra_init_pmem malloc cbp = Ret p → map_memory va_to_pa p (u64 (sdram_base cbp + sdram_size cbp)) s0 = Ret s →
  board_init_early va_to_pa malloc cbp s0 = Ret (p, s).
Proof. intros Ep Es. unfold board_init_early. rewrite Ep. cbn [mbind res_bind]. by rewrite Es. Qed.

(** C30: the map the processor has after start-up.  The boot loader's parameters are
    [cbp_ok] (memory of at least 1 GB below 512 GB, carve-outs that are whole pages within
    it and do not overlap), [tegra_init_pmem] has made the map of memory from them (C32
    says when it does), and the pool has as many tables as the unmapped ranges can need.
    Then [board_init_early] ends without a panic, and every address below 512 GB that is
    translated goes to itself; no address that the boot loader gave to other hardware is
    translated, nor are the first 2 MB or the regions behind the memory, and all others
    have the memory type chosen for them: the types set after the unmapping bring nothing
    back.  A carve-out outside these bounds can stay mapped ([carveout_lost]). *)
Theorem boot_map malloc cbp p :
  (∀ n, 0 <= n → ∃ l, malloc n = Some l ∧ Z.of_nat (length l) = n) →
  cbp_ok cbp → sdram_base cbp + sdram_size cbp <= 2 ^ 39 →
  tegra_init_pmem malloc cbp = Ret p →
  3 + total_cost (off_limits (take (Z.to_nat (count p)) (segments p))) <= 64 →
  ∃ s, board_init_early va_to_pa malloc cbp boot_state = Ret (p, s) ∧
    ∀ va, 0 <= va < 2 ^ 39 →
      walk s va = (λ a, (va, a)) <$> board_sees (board_type cbp) (sdram_base cbp + sdram_size cbp) va.
Proof.
  intros Hm Hcbp He Ep Hcost. pose proof (tegra_map malloc Hm cbp Hcbp) as Ht. rewrite Ep in Ht. cbn [outcome] in Ht.
  destruct Ht as (l & rest & -> & [Hc _ Hb _ Hd] & Ht). destruct (cbp_range cbp Hcbp) as (? & ? & _).
  cbn [count segments pmap] in Hcost. rewrite Nat2Z.id, take_app_length in Hcost.
  destruct (map_memory_ok _ l _ rest (sdram_base cbp + sdram_size cbp) Hd Hb He Hc Hcost) as (s & E1 & Hw).
  exists s. split; [apply board_init_steps; [exact Ep|by rewrite u64_small by lia]|].
  intros va Hva. rewrite Hw by done. unfold board_sees. by rewrite Ht.
Qed.

(** C31: mapping and unmapping a range.  From any well-formed tables with room in the pool
    for a table per region touched and two more, [pt_set] and [pt_unmap] of a range of
    pages below 512 GB return, and once [pt_apply] has run, the processor translates the
    pages of the range as asked and every other page as it would have before, splitting
    regions and blocks where the range ends in them.  A page [pt_set] gets in a block that
    was unmapped as a whole, and that the range covers only in part, stays unmapped. *)
Theorem pt_range own s (unmap : bool) t a n :
  wf own s → 0 <= a → 0 < n → a + n <= 2 ^ 27 → table_pool_used s + range_cost a n <= 64 →
  ∃ s1 s2 own2,
    (if unmap then pt_unmap va_to_pa (a * 4096) (n * 4096) s else pt_set va_to_pa (a * 4096) (n * 4096) t s) = Ret s1 ∧
    pt_apply s1 = Ret s2 ∧ wf own2 s2 ∧ table_pool_used s2 <= table_pool_used s + range_cost a n ∧
    ∀ va, 0 <= va < 2 ^ 39 →
      let q := va / 4096 in
      walk s2 va = (λ x, (va, x)) <$>
        (if (in_range q a n && (unmap || whole a n (q / 512) || negb (hole s (q / 512))))%bool then target unmap t else view s q).
Proof.
  intros Hwf Ha Hn Hsum Hroom. pose proof (need_start a n s Hn Ha) as Hneed. unfold range_cost in *.
  destruct (modify_range_ok own s unmap (if unmap then PT_DEVICE_NGNRNE else t) a n Hwf Ha Hn Hsum) as (s1 & E1 & [[own1 Hwf1] _ Hl] & _ & Hv); [lia|].
  destruct (pt_apply_ok own1 s1 Hwf1) as (s2 & E2 & Hwf2 & Hin & _ & Hu2 & Hv2). pose proof (need_init a n s1).
  exists s1, s2, own1. split; [by destruct unmap|]. split; [done|]. split; [done|]. split; [lia|]. intros va Hva. set (q := va / 4096).
  rewrite (walk_view own1) by done. fold q. assert (0 <= q < 2 ^ 27) as Hq by (subst q; dlia). rewrite Hv2, Hv by done. f_equal.
  unfold in_range. destruct ((a <=? q) && (q <? a + n))%bool; [|done]. cbn [andb]. destruct unmap; [|done]. cbn [orb].
  destruct (hole s (q / 512)) eqn:Eh; [|by rewrite orb_true_r]. rewrite orb_false_r, (hole_none s q Eh). by destruct (whole _ _ _).
Qed.
End Tables.

(** ** Instances *)

Module PtWit.
(** The pool at 2 GB, a page for each table. *)
Definition pa (i : Z) : Z := 0x80000000 + i * 4096.
Lemma pa_addr i : 0 <= i < 64 → is_addr (pa i).
Proof. intros. unfold pa. apply addr_mul; [lia|]. exists (524288 + i). lia. Qed.
Lemma pa_inj i k : 0 <= i < 64 → 0 <= k < 64 → pa i = pa k → i = k.
Proof. unfold pa. lia. Qed.
Definition p : pmem_t :=
  match tegra_init_pmem PmemWit.malloc PmemWit.cbp with Ret p => p | Fault _ => mk_pmem [] 0 4096 end.
End PtWit.

Lemma boot_map_witness :
  ∃ s, board_init_early PtWit.pa PmemWit.malloc PmemWit.cbp boot_state = Ret (PtWit.p, s) ∧
    walk PtWit.pa s 0xC0000123 = None ∧ walk PtWit.pa s 0xD0000000 = Some (0xD0000000, attrs (mattr PT_NORMAL_WB)).
Proof.
  destruct (boot_map PtWit.pa PtWit.pa_addr PtWit.pa_inj PmemWit.malloc PmemWit.cbp PtWit.p) as (s & E1 & Hw).
  - intros n Hn. eexists. split; [done|]. rewrite length_replicate. lia.
  - apply PmemWit.cbp_valid.
  - vm_compute. discriminate.
  - vm_compute. reflexivity.
  - vm_compute. discriminate.
  - exists s. split; [exact E1|]. rewrite !Hw by lia. split; vm_compute; reflexivity.
Defined.

Lemma pt_range_witness :
  ∃ s1 s2, pt_unmap PtWit.pa (511 * 4096) (2 * 4096) (init_once boot_state) = Ret s1 ∧ pt_apply s1 = Ret s2 ∧
    walk PtWit.pa s2 (512 * 4096) = None ∧ walk PtWit.pa s2 (513 * 4096) = Some (513 * 4096, device_xn).
Proof.
  destruct (boot_tables_ok PtWit.pa) as (Hwf & _ & Hv).
  destruct (pt_range PtWit.pa PtWit.pa_addr PtWit.pa_inj (λ _, OwnL2 0) (init_once boot_state) true PT_DEVICE_NGNRNE 511 2 Hwf)
    as (s1 & s2 & _ & E1 & E2 & _ & _ & Hw); [lia|lia|lia|vm_compute; discriminate|].
  exists s1, s2. split; [exact E1|]. split; [exact E2|]. split.
  - rewrite Hw by lia. reflexivity.
  - rewrite Hw by lia. cbv zeta. change (in_range (513 * 4096 / 4096) 511 2) with false. cbn [andb]. rewrite Hv by (split; vm_compute; [discriminate|reflexivity]). reflexivity.
Defined.

(** ** What can go wrong *)

(** Before the first call that changes the map the table of regions holds zeros, and
    [pt_apply] makes every region a table at address 0. *)
Theorem pt_apply_uninitialised :
  match pt_apply boot_state with Ret s => forallb (λ e, e =? 3) (ttbr0 s) = true | Fault _ => False end.
Proof. vm_compute. reflexivity. Qed.

(** A page in a block that is unmapped as a whole cannot be mapped: [pt_set] returns and
    nothing has changed. *)
Theorem pt_set_page_in_hole :
  match (s ← pt_unmap PtWit.pa 0 0x200000 boot_state; s ← pt_set PtWit.pa 0x1000 0x1000 PT_NORMAL_WB s; pt_apply s) with
  | Ret s => walk PtWit.pa s 0x1000 = None
  | Fault _ => False
  end.
Proof. vm_compute. reflexivity. Qed.

(** The new entry of a region allows execution, whatever the old one did. *)
Theorem pt_set_gb_executable gb t :
  0 <= gb < 512 → Z.land (make_block (u64 (Z.shiftl gb 30)) t) (Z.lor PT_PXN PT_UXN) = 0.
Proof.
  intros Hg. rewrite Z.shiftl_mul_pow2, u64_small by lia. unfold make_block. rewrite <- Z.lor_assoc. fold (mattr t).
  rewrite lor_land; [by destruct t| |done]. apply addr_mul; [lia|]. exists (gb * 2 ^ 18). lia.
Qed.

Lemma pt_set_gb_executable_witness : Z.land (make_block (u64 (Z.shiftl 2 30)) PT_NORMAL_NC) (Z.lor PT_PXN PT_UXN) = 0.
Proof. apply pt_set_gb_executable. lia. Defined.
