(* ===== verification/Pbuf.v ===== *)
(** * Pbuf: network packet buffers ([src/net/pbuf.c], [include/net/pbuf.h])

    A packet is a chain of [pbuf_t] headers, each owning one fixed-size data
    buffer; the first header carries the length of the whole packet.  Headers
    and data buffers come from two pools.  A chain is modelled as the list of
    its headers (the [pb_next] links), each with the address and contents of the
    data buffer it owns; the pools are the free lists with their counters.  The
    16-bit header fields wrap as in the code, and copies are checked against the
    buffer they touch.  A get that has to wait for a buffer is [Blocked].

    The theorems say what each operation does to the packet's contents
    ([payload]), that packets stay well formed, and that every header and every
    buffer is at all times either in a chain or in its pool, exactly once. *)

From Stdlib Require Import ZArith Lia.
From stdpp Require Import base list numbers gmap.
From S2P Require Import Prelude.

Open Scope Z_scope.

Definition PBUF_DATA_SIZE : Z := 512.
Definition PBUF_SOP : Z := 1.
Definition PBUF_EOP : Z := 2.

(** ** Data *)

Record pool (A : Type) := mk_pool {
  pp_items : list A;
  pp_avail : Z;
  pp_total : Z;
  pp_wakeups : Z;    (* task_wakeup/net_buffers_available calls so far *)
}.
Arguments mk_pool {A} _ _ _ _.
Arguments pp_items {A} _.
Arguments pp_avail {A} _.
Arguments pp_total {A} _.
Arguments pp_wakeups {A} _.

(** A data buffer: its address and contents. *)
Record dbuf := mk_dbuf { db_addr : Z; db_mem : list Z }.

Record netmem := mk_netmem {
  pbufs : pool Z;
  pbuf_datas : pool dbuf;
}.

Record pbuf := mk_pbuf {
  pb_addr : Z;
  pb_flags : Z;
  pb_credits : Z;
  pb_pktlen : Z;
  pb_offset : Z;
  pb_buflen : Z;
  pb_data : dbuf;
}.

Definition has_flag (pb : pbuf) (f : Z) : bool := negb (Z.land (pb_flags pb) f =? 0).
Definition set_flags (pb : pbuf) (f : Z) : pbuf :=
  mk_pbuf (pb_addr pb) f (pb_credits pb) (pb_pktlen pb) (pb_offset pb) (pb_buflen pb) (pb_data pb).
Definition set_credits (pb : pbuf) (c : Z) : pbuf :=
  mk_pbuf (pb_addr pb) (pb_flags pb) c (pb_pktlen pb) (pb_offset pb) (pb_buflen pb) (pb_data pb).
Definition set_pktlen (pb : pbuf) (n : Z) : pbuf :=
  mk_pbuf (pb_addr pb) (pb_flags pb) (pb_credits pb) n (pb_offset pb) (pb_buflen pb) (pb_data pb).
Definition set_win (pb : pbuf) (off len : Z) : pbuf :=
  mk_pbuf (pb_addr pb) (pb_flags pb) (pb_credits pb) (pb_pktlen pb) off len (pb_data pb).
Definition set_mem (pb : pbuf) (m : list Z) : pbuf :=
  mk_pbuf (pb_addr pb) (pb_flags pb) (pb_credits pb) (pb_pktlen pb) (pb_offset pb) (pb_buflen pb)
    (mk_dbuf (db_addr (pb_data pb)) m).

(** [pb_flags &= ~f] and [pb_flags |= f] on the 8-bit field. *)
Definition clear_flag (pb : pbuf) (f : Z) : pbuf := set_flags pb (Z.ldiff (pb_flags pb) f).
Definition or_flag (pb : pbuf) (f : Z) : pbuf := set_flags pb (Z.lor (pb_flags pb) f).

Definition on_head (f : pbuf → pbuf) (c : list pbuf) : list pbuf :=
  match c with [] => [] | pb :: c => f pb :: c end.
Fixpoint on_last (f : pbuf → pbuf) (c : list pbuf) : list pbuf :=
  match c with [] => [] | [pb] => [f pb] | pb :: c => pb :: on_last f c end.

(** ** Pools *)

Section Pool.
Context {A : Type} (addr : A → Z).

Definition pbuf_pool_put (pp : pool A) (item : A) : res (pool A) :=
  if negb (Z.land (addr item) 3 =? 0) then Fault Assert
  else Ret (mk_pool (item :: pp_items pp) (pp_avail pp + 1) (pp_total pp)
              (pp_wakeups pp + if pp_avail pp =? 0 then 1 else 0)).

Definition pool_pop (pp : pool A) : res (A * pool A) :=
  match pp_items pp with
  | [] => Fault OutOfBounds
  | pi :: items => Ret (pi, mk_pool items (pp_avail pp - 1) (pp_total pp) (pp_wakeups pp))
  end.

Definition pbuf_pool_get (pp : pool A) (wait : bool) : res (option A * pool A) :=
  if negb wait then
    if pp_avail pp <? 2 then Ret (None, pp)
    else '(pi, pp) ← pool_pop pp; Ret (Some pi, pp)
  else if pp_avail pp =? 0 then Fault Blocked
  else '(pi, pp) ← pool_pop pp; Ret (Some pi, pp).

(** [make] is the zeroed item at an address. *)
Fixpoint pool_add_loop (fuel : nat) (make : Z → A) (pp : pool A) (start end_ item_size count : Z)
    : res (Z * pool A) :=
  match fuel with
  | O => Fault NoFuel
  | S f =>
      if start + item_size <=? end_ then
        pp ← pbuf_pool_put pp (make start);
        pool_add_loop f make pp (start + item_size) end_ item_size (count + 1)
      else Ret (count, mk_pool (pp_items pp) (pp_avail pp) (pp_total pp + count) (pp_wakeups pp))
  end.
Definition pbuf_pool_add (fuel : nat) (make : Z → A) (pp : pool A) (start end_ item_size : Z)
    : res (Z * pool A) :=
  pool_add_loop fuel make pp start end_ item_size 0.
End Pool.

Definition pbuf_data_put (nm : netmem) (d : dbuf) : res netmem :=
  pp ← pbuf_pool_put db_addr (pbuf_datas nm) d; Ret (mk_netmem (pbufs nm) pp).
Definition pbuf_put (nm : netmem) (pb : Z) : res netmem :=
  pp ← pbuf_pool_put (λ a, a) (pbufs nm) pb; Ret (mk_netmem pp (pbuf_datas nm)).
Definition pbuf_data_get0 (nm : netmem) (wait : bool) : res (option dbuf * netmem) :=
  '(d, pp) ← pbuf_pool_get (pbuf_datas nm) wait; Ret (d, mk_netmem (pbufs nm) pp).
Definition pbuf_get0 (nm : netmem) (wait : bool) : res (option Z * netmem) :=
  '(a, pp) ← pbuf_pool_get (pbufs nm) wait; Ret (a, mk_netmem pp (pbuf_datas nm)).

(** [xalloc] is the allocator, its result passed in. *)
Definition SIZEOF_PBUF : Z := 16.
Definition pbuf_alloc (fuel : nat) (nm : netmem) (xalloc : Z → Z) (count : Z) : res netmem :=
  let start := xalloc (count * SIZEOF_PBUF) in
  '(_, pp) ← pbuf_pool_add (λ a, a) fuel (λ a, a) (pbufs nm) start
     (start + count * SIZEOF_PBUF) SIZEOF_PBUF;
  Ret (mk_netmem pp (pbuf_datas nm)).

Definition zero_dbuf (a : Z) : dbuf := mk_dbuf a (replicate (Z.to_nat PBUF_DATA_SIZE) 0).

Definition pbuf_data_add (fuel : nat) (nm : netmem) (xalloc : Z → Z) (start end_ : Z) : res netmem :=
  if ((end_ =? 0) && negb (pp_avail (pbuf_datas nm) =? 0))%bool then Ret nm
  else
    let size := PBUF_DATA_SIZE * 8 in
    let start' := if end_ =? 0 then xalloc size else start in
    let end' := if end_ =? 0 then start' + size else end_ in
    '(count, pp) ← pbuf_pool_add db_addr fuel zero_dbuf (pbuf_datas nm) start' end' PBUF_DATA_SIZE;
    pbuf_alloc fuel (mk_netmem (pbufs nm) pp) xalloc count.

(** ** Packets *)

Definition put_both (nm : netmem) (pb : pbuf) : res netmem :=
  nm ← pbuf_data_put nm (pb_data pb); pbuf_put nm (pb_addr pb).

Fixpoint pbuf_free_irq_blocked (nm : netmem) (c : list pbuf) : res netmem :=
  match c with
  | [] => Ret nm
  | pb :: next => nm ← put_both nm pb; pbuf_free_irq_blocked nm next
  end.
Definition pbuf_free := pbuf_free_irq_blocked.

(** A header and a data buffer, or neither; [init] fills the header in. *)
Definition get_both (nm : netmem) (wait : bool) (init : Z → dbuf → pbuf)
    : res (option pbuf * netmem) :=
  '(a, nm) ← pbuf_get0 nm wait;
  match a with
  | None => Ret (None, nm)
  | Some a =>
      '(d, nm) ← pbuf_data_get0 nm wait;
      match d with
      | None => nm ← pbuf_put nm a; Ret (None, nm)
      | Some d => Ret (Some (init a d), nm)
      end
  end.

Definition pbuf_make_irq_blocked0 (nm : netmem) (offset : Z) (wait : bool) :=
  get_both nm wait (λ a d, mk_pbuf a (Z.lor PBUF_SOP PBUF_EOP) 0 0 (u16 offset) 0 d).
Definition pbuf_make0 := pbuf_make_irq_blocked0.

(** [pbuf_splice]: the first packet of a queue; what is left in the queue. *)
Fixpoint until_eop (q : list pbuf) : option (list pbuf * list pbuf) :=
  match q with
  | [] => None
  | pb :: q =>
      if has_flag pb PBUF_EOP then Some ([pb], q)
      else (λ '(p, r), (pb :: p, r)) <$> until_eop q
  end.
Definition pbuf_splice (q : list pbuf) : list pbuf * list pbuf :=
  match until_eop q with Some (p, r) => (p, r) | None => (q, q) end.
Definition pbuf_free_queue_irq_blocked := pbuf_free_irq_blocked.

(** The header updates when [n] bytes leave the front of a buffer. *)
Definition shrink (pb : pbuf) (n : Z) : pbuf :=
  set_win pb (u16 (pb_offset pb + n)) (u16 (pb_buflen pb - n)).
Definition advance (pb : pbuf) (n : Z) : pbuf :=
  set_pktlen (shrink pb n) (u16 (pb_pktlen pb - n)).

(** [pbuf_read]: the bytes copied to [ptr], the chain left. *)
Fixpoint read_loop (fuel : nat) (nm : netmem) (c : list pbuf) (out : list Z) (len : Z)
    : res (list Z * list pbuf * netmem) :=
  match fuel with
  | O => Fault NoFuel
  | S f =>
      if len =? 0 then Ret (out, c, nm)
      else match c with
      | [] => Fault OutOfBounds
      | pb :: next =>
          let to_copy := Z.min len (pb_buflen pb) in
          bs ← rd (db_mem (pb_data pb)) (pb_offset pb) to_copy;
          let pb := advance pb to_copy in
          if pb_buflen pb =? 0 then
            let next := on_head (λ n, set_pktlen n (pb_pktlen pb)) next in
            nm ← put_both nm pb;
            read_loop f nm next (out ++ bs) (len - to_copy)
          else read_loop f nm (pb :: next) (out ++ bs) (len - to_copy)
      end
  end.
Definition pbuf_read (fuel : nat) (nm : netmem) (c : list pbuf) (len : Z) :=
  match c with
  | [] => Fault OutOfBounds
  | pb :: _ => if pb_pktlen pb <? len then Fault Assert else read_loop fuel nm c [] len
  end.

(** The write side of a socket: [pushpull_t]. *)
Record pushpull := mk_pushpull { max_fragment_size : Z; preferred_offset : Z }.

(** [pbuf_write], one iteration: make room if the last buffer is full ... *)
Definition write_room (nm : netmem) (c : list pbuf) (pp : pushpull) (wait : bool)
    : res (option (list pbuf) * netmem) :=
  match last c with
  | None => Fault OutOfBounds
  | Some pb =>
      if max_fragment_size pp <=? pb_buflen pb then
        let c := on_last (λ pb, clear_flag pb PBUF_EOP) c in
        '(n, nm) ← get_both nm wait (λ a d, mk_pbuf a PBUF_EOP 0 0 (preferred_offset pp) 0 d);
        match n with
        | None => nm ← pbuf_free nm c; Ret (None, nm)
        | Some n => Ret (Some (c ++ [n]), nm)
        end
      else Ret (Some c, nm)
  end.
(** ... and copy what fits (the difference is converted to [size_t]). *)
Definition write_chunk (c : list pbuf) (pp : pushpull) (data : list Z) : res (list pbuf * list Z) :=
  match last c with
  | None => Fault OutOfBounds
  | Some pb =>
      let to_copy := Z.min (Z.of_nat (length data))
                       (u32 (max_fragment_size pp - pb_buflen pb - pb_offset pb)) in
      m ← wr (db_mem (pb_data pb)) (pb_offset pb + pb_buflen pb) (take (Z.to_nat to_copy) data);
      let c := on_head (λ h, set_pktlen h (u16 (pb_pktlen h + to_copy))) c in
      let c := on_last (λ pb, set_mem (set_win pb (pb_offset pb) (u16 (pb_buflen pb + to_copy))) m) c in
      Ret (c, drop (Z.to_nat to_copy) data)
  end.
Fixpoint write_loop (fuel : nat) (nm : netmem) (c : list pbuf) (data : list Z) (pp : pushpull)
    (wait : bool) : res (list pbuf * netmem) :=
  match fuel with
  | O => Fault NoFuel
  | S f =>
      match data with
      | [] => Ret (c, nm)
      | _ =>
          '(c, nm) ← write_room nm c pp wait;
          match c with
          | None => Ret ([], nm)
          | Some c =>
              '(c, data) ← write_chunk c pp data;
              write_loop f nm c data pp wait
          end
      end
  end.
Definition pbuf_write (fuel : nat) (nm : netmem) (head : list pbuf) (data : list Z) (pp : pushpull)
    (wait : bool) : res (list pbuf * netmem) :=
  match head with [] => Ret ([], nm) | _ => write_loop fuel nm head data pp wait end.

Fixpoint drop_loop (fuel : nat) (nm : netmem) (c : list pbuf) (bytes : Z) (free_when_empty : bool)
    : res (list pbuf * netmem) :=
  match fuel with
  | O => Fault NoFuel
  | S f =>
      match c with
      | [] => Fault OutOfBounds
      | pb :: next =>
          if pb_pktlen pb <? bytes then Fault Panic
          else
            let chunk := Z.min bytes (pb_buflen pb) in
            let pb := advance pb chunk in
            if negb (pb_buflen pb =? 0) then Ret (pb :: next, nm)
            else match next with
            | [] =>
                if negb free_when_empty then Ret ([pb], nm)
                else nm ← put_both nm pb; Ret ([], nm)
            | n :: rest =>
                let n := set_pktlen n (pb_pktlen pb) in
                let n := or_flag n (Z.land (pb_flags pb) PBUF_SOP) in
                nm ← put_both nm pb;
                drop_loop f nm (n :: rest) (bytes - chunk) free_when_empty
            end
      end
  end.
Definition pbuf_drop (fuel : nat) (nm : netmem) (c : list pbuf) (bytes : Z) (free_when_empty : bool) :=
  match c with [] => Ret ([], nm) | _ => drop_loop fuel nm c bytes free_when_empty end.

Fixpoint pbuf_trim (fuel : nat) (nm : netmem) (c : list pbuf) (bytes : Z)
    : res (list pbuf * netmem) :=
  match fuel with
  | O => Fault NoFuel
  | S f =>
      if bytes =? 0 then Ret (c, nm)
      else match last c with
      | None => Fault OutOfBounds
      | Some tail =>
          let k := Z.min (pb_buflen tail) bytes in
          let c := on_head (λ h, set_pktlen h (u16 (pb_pktlen h - k))) c in
          let c := on_last (λ t, set_win t (pb_offset t) (u16 (pb_buflen t - k))) c in
          let bytes := bytes - k in
          match last c with
          | None => Fault OutOfBounds
          | Some tail =>
              if ((pb_buflen tail =? 0) && negb (length c =? 1)%nat)%bool then
                let c := on_last (λ p, or_flag p (Z.land (pb_flags tail) PBUF_EOP)) (removelast c) in
                nm ← put_both nm tail;
                pbuf_trim f nm c bytes
              else pbuf_trim f nm c bytes
          end
      end
  end.

Definition pbuf_prepend (nm : netmem) (c : list pbuf) (bytes : Z) (wait : bool) (extra_offset : Z)
    : res (list pbuf * netmem) :=
  match c with
  | [] => Fault OutOfBounds
  | pb :: next =>
      if bytes + extra_offset <=? pb_offset pb then
        let pb := set_win pb (u16 (pb_offset pb - bytes)) (u16 (pb_buflen pb + bytes)) in
        Ret (set_pktlen pb (u16 (pb_pktlen pb + bytes)) :: next, nm)
      else
        '(pre, nm) ← pbuf_make0 nm extra_offset wait;
        match pre with
        | None => nm ← pbuf_free nm c; Ret ([], nm)
        | Some pre =>
            let pre := set_flags pre PBUF_SOP in
            let pre := set_pktlen pre (u16 (pb_pktlen pb + bytes)) in
            let pre := set_win pre (pb_offset pre) (u16 bytes) in
            Ret (pre :: set_pktlen (clear_flag pb PBUF_SOP) 0 :: next, nm)
        end
  end.

(** [pbuf_append]: the chain and where in the last buffer the new bytes start. *)
Definition pbuf_append (c : list pbuf) (bytes : Z) : res (list pbuf * Z) :=
  let c := on_head (λ h, set_pktlen h (u16 (pb_pktlen h + bytes))) c in
  match last c with
  | None => Fault OutOfBounds
  | Some pb =>
      if PBUF_DATA_SIZE <? pb_offset pb + pb_buflen pb + bytes then Fault Assert
      else Ret (on_last (λ pb, set_win pb (pb_offset pb) (u16 (pb_buflen pb + bytes))) c,
                pb_offset pb + pb_buflen pb)
  end.

Fixpoint pullup_loop (fuel : nat) (nm : netmem) (pb : pbuf) (next : list pbuf) (bytes : Z)
    : res (Z * list pbuf * netmem) :=
  match fuel with
  | O => Fault NoFuel
  | S f =>
      if bytes =? 0 then Ret (0, pb :: next, nm)
      else match next with
      | [] => Ret (bytes, [pb], nm)
      | n :: rest =>
          let to_copy := Z.min bytes (pb_buflen n) in
          bs ← rd (db_mem (pb_data n)) (pb_offset n) to_copy;
          m ← wr (db_mem (pb_data pb)) (pb_offset pb + pb_buflen pb) bs;
          let pb := set_mem (set_win pb (pb_offset pb) (u16 (pb_buflen pb + to_copy))) m in
          let n := shrink n to_copy in
          if pb_buflen n =? 0 then
            let pb := or_flag pb (Z.land (pb_flags n) PBUF_EOP) in
            let pb := set_credits pb (u8 (pb_credits pb + pb_credits n)) in
            nm ← put_both nm n;
            pullup_loop f nm pb rest (bytes - to_copy)
          else pullup_loop f nm pb (n :: rest) (bytes - to_copy)
      end
  end.
Definition pbuf_pullup (fuel : nat) (nm : netmem) (c : list pbuf) (bytes : Z)
    : res (Z * list pbuf * netmem) :=
  match c with
  | [] => Fault OutOfBounds
  | pb :: next =>
      if bytes <=? pb_buflen pb then Ret (0, c, nm)
      else
        pb ← (if PBUF_DATA_SIZE <? bytes + pb_offset pb then
                if PBUF_DATA_SIZE <? bytes then Fault Assert
                else
                  bs ← rd (db_mem (pb_data pb)) (pb_offset pb) (pb_buflen pb);
                  m ← wr (db_mem (pb_data pb)) 0 bs;
                  Ret (set_mem (set_win pb 0 (pb_buflen pb)) m)
              else Ret pb);
        pullup_loop fuel nm pb next (bytes - pb_buflen pb)
  end.

(** [pbuf_read_at] and [pbuf_memcmp_at]: find the buffer holding [offset] ... *)
Fixpoint seek (c : list pbuf) (offset : Z) : option (list pbuf * Z) :=
  match c with
  | [] => None
  | pb :: next =>
      if pb_buflen pb <=? offset then seek next (offset - pb_buflen pb) else Some (c, offset)
  end.
(** ... and copy from there on. *)
Fixpoint gather (c : list pbuf) (offset len : Z) (out : list Z) : res (Z * list Z) :=
  if len =? 0 then Ret (0, out)
  else match c with
  | [] => Ret (-1, out)
  | pb :: next =>
      let to_copy := Z.min len (pb_buflen pb) in
      bs ← rd (db_mem (pb_data pb)) (pb_offset pb + offset) to_copy;
      gather next 0 (len - to_copy) (out ++ bs)
  end.
Definition pbuf_read_at (c : list pbuf) (offset len : Z) : res (Z * list Z) :=
  match seek c offset with None => Ret (-1, []) | Some (c, offset) => gather c offset len [] end.

Section Memcmp.
Context (memcmp : list Z → list Z → nat → Z).
Fixpoint compare_from (c : list pbuf) (data : list Z) (offset len : Z) : res Z :=
  if len =? 0 then Ret 0
  else match c with
  | [] => Ret (-1)
  | pb :: next =>
      let to_cmp := Z.min len (pb_buflen pb) in
      bs ← rd (db_mem (pb_data pb)) (pb_offset pb + offset) to_cmp;
      let n := memcmp data bs (Z.to_nat to_cmp) in
      if negb (n =? 0) then Ret n
      else compare_from next (drop (Z.to_nat to_cmp) data) 0 (len - to_cmp)
  end.
Definition pbuf_memcmp_at (c : list pbuf) (data : list Z) (offset len : Z) : res Z :=
  if len =? 0 then Ret 0
  else match seek c offset with None => Ret (-1) | Some (c, offset) => compare_from c data offset len end.
End Memcmp.

Definition pbuf_reset (nm : netmem) (c : list pbuf) (header_size len : Z) : res (list pbuf * netmem) :=
  match c with
  | [] => Fault OutOfBounds
  | pb :: next =>
      if pb_buflen pb <? len then Fault Assert
      else
        nm ← pbuf_free nm next;
        let pb := set_credits (set_flags pb (Z.lor PBUF_SOP PBUF_EOP)) 0 in
        Ret ([set_pktlen (set_win pb (u16 header_size) (u16 len)) (u16 len)], nm)
  end.

(** [pbuf_copy0] and [pbuf_copy_pkt] leave [pb_credits] as it is in the header
    taken from the pool: [stale] is that value. *)
Section Copy.
Context (stale : Z → Z).

Definition copy1 (nm : netmem) (src : pbuf) (wait : bool) : res (option pbuf * netmem) :=
  '(dst, nm) ← get_both nm wait (λ a d,
     mk_pbuf a (pb_flags src) (stale a) (pb_pktlen src) (pb_offset src) (pb_buflen src) d);
  match dst with
  | None => Ret (None, nm)
  | Some dst =>
      bs ← rd (db_mem (pb_data src)) (pb_offset src) (pb_buflen src);
      m ← wr (db_mem (pb_data dst)) (pb_offset dst) bs;
      Ret (Some (set_mem dst m), nm)
  end.
Definition pbuf_copy0 (nm : netmem) (src : list pbuf) (wait : bool) : res (option pbuf * netmem) :=
  match src with [] => Fault OutOfBounds | pb :: _ => copy1 nm pb wait end.

Fixpoint copy_loop (nm : netmem) (src : list pbuf) (wait : bool) (r : list pbuf)
    : res (list pbuf * netmem) :=
  match src with
  | [] => Ret (r, nm)
  | pb :: src =>
      '(dst, nm) ← copy1 nm pb wait;
      match dst with
      | None => nm ← pbuf_free_irq_blocked nm r; Ret ([], nm)
      | Some dst =>
          match src with
          | n :: _ => if has_flag n PBUF_SOP then Ret (r ++ [dst], nm)
                      else copy_loop nm src wait (r ++ [dst])
          | [] => Ret (r ++ [dst], nm)
          end
      end
  end.
Definition pbuf_copy_pkt (nm : netmem) (src : list pbuf) (wait : bool) := copy_loop nm src wait [].
End Copy.

(** ** Well-formed packets *)

Definition window (pb : pbuf) : list Z :=
  take (Z.to_nat (pb_buflen pb)) (drop (Z.to_nat (pb_offset pb)) (db_mem (pb_data pb))).
Definition payload (c : list pbuf) : list Z := c ≫= window.

Record pb_ok (pb : pbuf) : Prop := {
  ok_mem : length (db_mem (pb_data pb)) = Z.to_nat PBUF_DATA_SIZE;
  ok_off : 0 <= pb_offset pb;
  ok_len : 0 <= pb_buflen pb;
  ok_fit : pb_offset pb + pb_buflen pb <= PBUF_DATA_SIZE;
  ok_addr : Z.land (pb_addr pb) 3 = 0;
  ok_daddr : Z.land (db_addr (pb_data pb)) 3 = 0;
}.

Fixpoint chain_len (c : list pbuf) : Z :=
  match c with [] => 0 | pb :: c => pb_buflen pb + chain_len c end.

(** A packet: every buffer is sound and the first header has the total. *)
Definition packet (c : list pbuf) : Prop :=
  Forall pb_ok c ∧ chain_len c < 65536 ∧
  match c with [] => True | pb :: _ => pb_pktlen pb = chain_len c end.

(** The last buffer, and only that one, ends the packet. *)
Fixpoint eop_last (c : list pbuf) : Prop :=
  match c with
  | [] => True
  | [pb] => has_flag pb PBUF_EOP = true
  | pb :: c => has_flag pb PBUF_EOP = false ∧ eop_last c
  end.

Definition pool_ok {A} (addr : A → Z) (pp : pool A) : Prop :=
  pp_avail pp = Z.of_nat (length (pp_items pp)) ∧
  Forall (λ x, Z.land (addr x) 3 = 0) (pp_items pp).
Definition nm_ok (nm : netmem) : Prop :=
  pool_ok (λ a, a) (pbufs nm) ∧ pool_ok db_addr (pbuf_datas nm) ∧
  Forall (λ d, length (db_mem d) = Z.to_nat PBUF_DATA_SIZE) (pp_items (pbuf_datas nm)).

(** All headers and all data buffers, wherever they are. *)
Definition headers (nm : netmem) (c : list pbuf) : list Z := pp_items (pbufs nm) ++ (pb_addr <$> c).
Definition buffers (nm : netmem) (c : list pbuf) : list Z :=
  (db_addr <$> pp_items (pbuf_datas nm)) ++ ((db_addr ∘ pb_data) <$> c).
Definition conserved (nm : netmem) (c : list pbuf) (nm' : netmem) (c' : list pbuf) : Prop :=
  headers nm c ≡ₚ headers nm' c' ∧ buffers nm c ≡ₚ buffers nm' c'.

(** ** Lemmas *)

Lemma window_length pb : pb_ok pb → length (window pb) = Z.to_nat (pb_buflen pb).
Proof.
  intros [Hm Ho Hl Hf _ _]. unfold window. rewrite length_take, length_drop, Hm. lia.
Qed.

(** Reading and removing from the front of a window. *)
Lemma rd_window pb n :
  pb_ok pb → 0 <= n <= pb_buflen pb →
  rd (db_mem (pb_data pb)) (pb_offset pb) n = Ret (take (Z.to_nat n) (window pb)).
Proof.
  intros [Hm Ho Hl Hf _ _] Hn. rewrite rd_ok by lia. unfold window. rewrite take_take.
  by rewrite Nat.min_l by lia.
Qed.

Lemma shrink_ok pb n :
  pb_ok pb → 0 <= n <= pb_buflen pb →
  pb_ok (shrink pb n) ∧ pb_buflen (shrink pb n) = pb_buflen pb - n ∧
  window (shrink pb n) = drop (Z.to_nat n) (window pb).
Proof.
  intros [Hm Ho Hl Hf Ha Hd] Hn. unfold shrink, PBUF_DATA_SIZE in *.
  rewrite !u16_id by lia. split_and!.
  - split; simpl; unfold PBUF_DATA_SIZE; try done; lia.
  - done.
  - unfold window. simpl. rewrite skipn_firstn_comm, drop_drop. f_equal; [lia|]. f_equal. lia.
Qed.

Lemma set_pktlen_ok pb n : pb_ok pb → pb_ok (set_pktlen pb n).
Proof. by intros []. Qed.
Lemma set_flags_ok pb n : pb_ok pb → pb_ok (set_flags pb n).
Proof. by intros []. Qed.
#[export] Hint Resolve set_pktlen_ok set_flags_ok : mios.

Lemma payload_cons pb c : payload (pb :: c) = window pb ++ payload c.
Proof. done. Qed.
Lemma payload_app c1 c2 : payload (c1 ++ c2) = payload c1 ++ payload c2.
Proof. unfold payload. apply bind_app. Qed.

Lemma chain_len_nonneg c : Forall pb_ok c → 0 <= chain_len c.
Proof. induction 1 as [|pb c [] _ IH]; simpl; lia. Qed.

Lemma payload_length c : Forall pb_ok c → Z.of_nat (length (payload c)) = chain_len c.
Proof.
  induction 1 as [|pb c Hpb _ IH]; [done|]. rewrite payload_cons, length_app, window_length by done.
  destruct Hpb. simpl. lia.
Qed.

(** *** Pools and conservation *)

Section Conserved.
Lemma conserved_refl nm c : conserved nm c nm c.
Proof. done. Qed.

Lemma conserved_trans nm1 c1 nm2 c2 nm3 c3 :
  conserved nm1 c1 nm2 c2 → conserved nm2 c2 nm3 c3 → conserved nm1 c1 nm3 c3.
Proof. intros [??] [??]. split; etransitivity; eauto. Qed.

(** What is conserved on part of a chain is conserved with the rest added. *)
Lemma conserved_app nm c nm' c' k :
  conserved nm c nm' c' → conserved nm (c ++ k) nm' (c' ++ k).
Proof.
  unfold conserved, headers, buffers. rewrite !fmap_app, !app_assoc.
  intros [H1 H2]. by rewrite H1, H2.
Qed.

Lemma conserved_perm nm c c' nm' k k' :
  c ≡ₚ c' → k ≡ₚ k' → conserved nm c nm' k → conserved nm c' nm' k'.
Proof. intros H1 H2 [H3 H4]. unfold conserved, headers, buffers in *. by rewrite <- H1, <- H2. Qed.
End Conserved.

Lemma put_both_ok nm pb :
  nm_ok nm → pb_ok pb →
  ∃ nm', put_both nm pb = Ret nm' ∧ nm_ok nm' ∧ conserved nm [pb] nm' [].
Proof.
  intros ((Ha1 & Ha2) & (Hd1 & Hd2) & Hm) Hok. destruct Hok as [Hmem _ _ _ Hadr Hdadr].
  unfold put_both, pbuf_data_put, pbuf_put, pbuf_pool_put.
  rewrite Hdadr, Hadr. cbn [Z.eqb negb mbind res_bind pbufs pbuf_datas]. eexists. split; [done|].
  split; [split; [|split]|].
  - split; cbn [pp_items pp_avail pbufs length]; [lia|by constructor].
  - split; cbn [pp_items pp_avail pbuf_datas length]; [lia|by constructor].
  - by constructor.
  - split; unfold headers, buffers; simpl; rewrite app_nil_r.
    + symmetry. apply Permutation_cons_append.
    + symmetry. apply Permutation_cons_append.
Qed.

Lemma pbuf_free_ok nm c :
  nm_ok nm → Forall pb_ok c →
  ∃ nm', pbuf_free nm c = Ret nm' ∧ nm_ok nm' ∧ conserved nm c nm' [].
Proof.
  intros Hnm Hc. revert nm Hnm. induction Hc as [|pb c Hpb Hc IH]; intros nm Hnm.
  - by exists nm.
  - destruct (put_both_ok nm pb Hnm Hpb) as (nm1 & E1 & Hnm1 & Hc1).
    destruct (IH nm1 Hnm1) as (nm2 & E2 & Hnm2 & Hc2). exists nm2. unfold pbuf_free in *.
    cbn [pbuf_free_irq_blocked]. rewrite E1. cbn [mbind res_bind]. split_and!; try done.
    eapply conserved_trans; [|exact Hc2]. apply (conserved_app _ _ _ _ c) in Hc1. done.
Qed.

(** Getting a header with its buffer: it works and takes both from the pools, or
    fails with nothing taken, or (only when asked to) waits. *)
Lemma pool_get_cases {A} (addr : A → Z) (pp : pool A) wait :
  pool_ok addr pp →
  (wait = true ∧ pbuf_pool_get pp wait = Fault Blocked) ∨
  (wait = false ∧ pbuf_pool_get pp wait = Ret (None, pp)) ∨
  (∃ x items, pp_items pp = x :: items ∧
     pbuf_pool_get pp wait =
       Ret (Some x, mk_pool items (pp_avail pp - 1) (pp_total pp) (pp_wakeups pp))).
Proof.
  intros [Hav _]. unfold pbuf_pool_get, pool_pop. destruct wait; cbn [negb].
  - destruct (pp_avail pp =? 0) eqn:E; bool_to_prop; [by left|]. right. right.
    destruct (pp_items pp) as [|x items]; [simpl in Hav; lia|]. by exists x, items.
  - destruct (pp_avail pp <? 2) eqn:E; bool_to_prop; [right; by left|]. right. right.
    destruct (pp_items pp) as [|x items]; [simpl in Hav; lia|]. by exists x, items.
Qed.

Lemma pool_put_pop {A} (addr : A → Z) (pp : pool A) x items :
  pool_ok addr pp → pp_items pp = x :: items →
  pool_ok addr (mk_pool items (pp_avail pp - 1) (pp_total pp) (pp_wakeups pp)) ∧
  Z.land (addr x) 3 = 0.
Proof.
  intros [Hav Hal] E. rewrite E in *. apply Forall_cons_1 in Hal as [Hx Hal].
  split; [|done]. split; cbn [pp_items pp_avail length] in *; [lia|done].
Qed.

Lemma get_both_cases nm wait init :
  nm_ok nm →
  (wait = true ∧ get_both nm wait init = Fault Blocked) ∨
  (∃ nm', wait = false ∧ get_both nm wait init = Ret (None, nm') ∧ nm_ok nm' ∧
     conserved nm [] nm' []) ∨
  (∃ a d nm', get_both nm wait init = Ret (Some (init a d), nm') ∧ nm_ok nm' ∧
     Z.land a 3 = 0 ∧ Z.land (db_addr d) 3 = 0 ∧ length (db_mem d) = Z.to_nat PBUF_DATA_SIZE ∧
     headers nm [] ≡ₚ a :: headers nm' [] ∧ buffers nm [] ≡ₚ db_addr d :: buffers nm' []).
Proof.
  intros (Hp & Hd & Hm). unfold get_both, pbuf_get0.
  destruct (pool_get_cases _ _ wait Hp) as [[-> E]|[[-> E]|(a & items & Ea & E)]];
    rewrite E; cbn [mbind res_bind].
  - by left.
  - right. left. exists nm. by destruct nm.
  - destruct (pool_put_pop _ _ _ _ Hp Ea) as [Hp' Haa].
    unfold pbuf_data_get0. cbn [pbuf_datas].
    destruct (pool_get_cases _ _ wait Hd) as [[-> E2]|[[-> E2]|(d & ditems & Ed & E2)]];
      rewrite E2; cbn [mbind res_bind].
    + by left.
    + right. left. unfold pbuf_put, pbuf_pool_put. cbn [pbufs]. rewrite Haa. cbn.
      eexists. split; [done|]. split; [done|]. split.
      * destruct Hp' as [Hv Hl]. cbn [pp_items pp_avail] in Hv, Hl. split; [|done].
        split; cbn [pp_items pp_avail pbufs length]; [lia|by constructor].
      * unfold conserved, headers, buffers. simpl. by rewrite Ea.
    + destruct (pool_put_pop _ _ _ _ Hd Ed) as [Hd' Hda]. rewrite Ed in Hm.
      apply Forall_cons_1 in Hm as [Hmd Hm]. right. right. eexists a, d, _.
      split; [done|]. split; [done|]. split_and!; try done.
      * unfold headers. simpl. by rewrite Ea.
      * unfold buffers. simpl. by rewrite Ed.
Qed.

(** *** Reading and dropping from the front *)

Lemma packet_tail pb c n :
  packet (pb :: c) → n = chain_len c → packet (on_head (λ x, set_pktlen x n) c).
Proof.
  intros (Hok & Hl & Hp) ->. apply Forall_cons_1 in Hok as [Hpb Hok].
  destruct Hpb. simpl in Hl. destruct c as [|x c]; [done|]. simpl.
  apply Forall_cons_1 in Hok as [Hx Hok]. split_and!; [constructor; auto with mios| |done].
  simpl in *. lia.
Qed.

Lemma on_head_payload n c : payload (on_head (λ x, set_pktlen x n) c) = payload c.
Proof. by destruct c. Qed.
Lemma on_head_conserved nm n c : conserved nm c nm (on_head (λ x, set_pktlen x n) c).
Proof. by destruct c. Qed.
Lemma on_head_len n c : chain_len (on_head (λ x, set_pktlen x n) c) = chain_len c.
Proof. by destruct c. Qed.

Lemma eop_last_cons pb c : eop_last (pb :: c) → c ≠ [] → eop_last c.
Proof. destruct c; simpl; [done|]. by intros [_ ?]. Qed.
Lemma eop_last_on_head n c : eop_last c → eop_last (on_head (λ x, set_pktlen x n) c).
Proof. by destruct c as [|? []]. Qed.

Lemma conserved_put nm pb c nm1 :
  conserved nm [pb] nm1 [] → conserved nm (pb :: c) nm1 c.
Proof. intros H. by apply (conserved_app _ _ _ _ c) in H. Qed.

Lemma take_app_add {A} (l1 l2 : list A) n :
  (length l1 <= n)%nat → take n (l1 ++ l2) = l1 ++ take (n - length l1) l2.
Proof. intros. rewrite take_app. by rewrite take_ge by lia. Qed.
Lemma drop_app_add {A} (l1 l2 : list A) n :
  (length l1 <= n)%nat → drop n (l1 ++ l2) = drop (n - length l1) l2.
Proof. intros. rewrite drop_app. by rewrite drop_ge by lia. Qed.

Lemma advance_ok pb c n :
  packet (pb :: c) → 0 <= n <= pb_buflen pb →
  pb_ok (advance pb n) ∧ pb_buflen (advance pb n) = pb_buflen pb - n ∧
  window (advance pb n) = drop (Z.to_nat n) (window pb) ∧
  pb_pktlen (advance pb n) = pb_buflen pb - n + chain_len c ∧
  packet (advance pb n :: c).
Proof.
  intros (Hok & Hl & Hp) Hn. apply Forall_cons_1 in Hok as [Hpb Hok].
  pose proof (chain_len_nonneg _ Hok) as Hnn. simpl in Hp, Hl.
  destruct (shrink_ok pb n Hpb Hn) as (Hs1 & Hs2 & Hs3). unfold advance.
  rewrite u16_id by lia. cbn [set_pktlen pb_pktlen pb_buflen]. split_and!; try done.
  - by apply set_pktlen_ok.
  - lia.
  - split; [constructor; [by apply set_pktlen_ok|done]|]. simpl in *. lia.
Qed.

Lemma read_loop_ok c nm out len fuel :
  nm_ok nm → packet c → 0 <= len <= chain_len c → (length c < fuel)%nat →
  ∃ c' nm', read_loop fuel nm c out len = Ret (out ++ take (Z.to_nat len) (payload c), c', nm') ∧
    payload c' = drop (Z.to_nat len) (payload c) ∧ packet c' ∧ nm_ok nm' ∧
    conserved nm c nm' c' ∧ (eop_last c → eop_last c').
Proof.
  revert c nm out len. induction fuel as [|fuel IH]; intros c nm out len Hnm Hc Hlen Hf; [lia|].
  cbn [read_loop]. destruct (len =? 0) eqn:El; bool_to_prop.
  { subst len. exists c, nm. by rewrite app_nil_r. }
  destruct c as [|pb next]; [simpl in Hlen; lia|].
  pose proof Hc as (Hok & Hl & Hp). apply Forall_cons_1 in Hok as [Hpb Hok].
  pose proof (chain_len_nonneg _ Hok) as Hnn. pose proof Hpb as [Hm Ho Hbl Hft Had Hda].
  unfold PBUF_DATA_SIZE in *. simpl in Hp, Hl, Hlen, Hf.
  set (n := Z.min len (pb_buflen pb)).
  rewrite rd_window by (done || lia). cbn [mbind res_bind].
  destruct (advance_ok pb next n Hc ltac:(lia)) as (Hs1 & Hs2 & Hs3 & Hs4 & Hs5).
  rewrite Hs2. destruct (pb_buflen pb - n =? 0) eqn:E; bool_to_prop.
  - destruct (put_both_ok nm (advance pb n) Hnm Hs1) as (nm1 & -> & Hnm1 & Hc1). cbn [mbind res_bind].
    destruct (IH (on_head (λ x, set_pktlen x (pb_pktlen (advance pb n))) next) nm1
      (out ++ take (Z.to_nat n) (window pb)) (len - n)) as (c' & nm' & -> & Hp' & Hc' & Hnm' & Hcons & He).
    + done.
    + eapply packet_tail; [exact Hc|]. lia.
    + rewrite on_head_len. lia.
    + destruct next; simpl in *; lia.
    + exists c', nm'. rewrite on_head_payload in *. rewrite payload_cons.
      pose proof (window_length pb Hpb) as Hwl.
      rewrite take_app_add, drop_app_add by lia. rewrite take_ge by lia.
      replace (Z.to_nat len - length (window pb))%nat with (Z.to_nat (len - n)) by lia.
      split_and!; try done.
      * by rewrite <- app_assoc.
      * eapply conserved_trans; [apply conserved_put; exact Hc1|].
        eapply conserved_trans; [apply on_head_conserved|exact Hcons].
      * intros He0. destruct next as [|y next]; [by apply He|]. apply He, eop_last_on_head.
        by eapply eop_last_cons.
  - assert (len <= pb_buflen pb) by lia. assert (n = len) as -> by lia. destruct fuel as [|fuel]; [lia|]. cbn [read_loop].
    replace (len - len) with 0 by lia. cbn [Z.eqb]. eexists _, nm. split.
    { rewrite payload_cons, take_app_le; [done|]. rewrite window_length by done. lia. }
    rewrite !payload_cons, drop_app_le by (rewrite window_length by done; lia).
    rewrite <- Hs3. split_and!; try done.
Qed.

(** Flag algebra: SOP and EOP are different bits. *)
Lemma flag_or_other a b f g : Z.land g f = 0 → Z.land (Z.lor a (Z.land b g)) f = Z.land a f.
Proof.
  intros H. by rewrite Z.land_lor_distr_l, <- Z.land_assoc, H, Z.land_0_r, Z.lor_0_r.
Qed.
Lemma has_flag_or_other pb x f g :
  Z.land g f = 0 → has_flag (or_flag pb (Z.land x g)) f = has_flag pb f.
Proof. intros. unfold has_flag, or_flag. simpl. by rewrite flag_or_other. Qed.
Lemma has_flag_inherit pb q f : has_flag q f = true → has_flag (or_flag pb (Z.land (pb_flags q) f)) f = true.
Proof.
  unfold has_flag, or_flag. simpl. rewrite !negb_true_iff, !Z.eqb_neq.
  intros H E. apply H. rewrite Z.land_lor_distr_l, <- Z.land_assoc, Z.land_diag in E.
  by apply Z.lor_eq_0_iff in E as [_ ?].
Qed.
Lemma has_flag_clear_other pb f g : Z.land g f = 0 → has_flag (clear_flag pb g) f = has_flag pb f.
Proof.
  intros H. unfold has_flag, clear_flag. simpl. f_equal. f_equal.
  apply Z.bits_inj'; intros i Hi. rewrite !Z.land_spec, Z.ldiff_spec.
  apply (f_equal (λ z, Z.testbit z i)) in H. rewrite Z.land_spec, Z.bits_0 in H.
  destruct (Z.testbit (pb_flags pb) i), (Z.testbit g i), (Z.testbit f i); done.
Qed.
Lemma has_flag_clear pb f : has_flag (clear_flag pb f) f = false.
Proof.
  unfold has_flag, clear_flag. simpl. rewrite negb_false_iff, Z.eqb_eq.
  apply Z.bits_inj'; intros i Hi. rewrite Z.land_spec, Z.ldiff_spec, Z.bits_0.
  by destruct (Z.testbit (pb_flags pb) i), (Z.testbit f i).
Qed.

Lemma has_flag_or_same pb q n :
  has_flag (set_credits (or_flag pb (Z.land (pb_flags q) PBUF_EOP)) n) PBUF_EOP =
  (has_flag pb PBUF_EOP || has_flag q PBUF_EOP)%bool.
Proof.
  unfold has_flag, or_flag. simpl. rewrite Z.land_lor_distr_l, <- Z.land_assoc, Z.land_diag.
  rewrite <- negb_andb. f_equal. apply Bool.eq_iff_eq_true. rewrite andb_true_iff, !Z.eqb_eq.
  apply Z.lor_eq_0_iff.
Qed.

Definition starts (c : list pbuf) : Prop :=
  match c with [] => True | pb :: _ => has_flag pb PBUF_SOP = true end.

Lemma drop_loop_ok c nm bytes fwe fuel :
  nm_ok nm → packet c → c ≠ [] → 0 <= bytes <= chain_len c → (length c <= fuel)%nat →
  ∃ c' nm', drop_loop fuel nm c bytes fwe = Ret (c', nm') ∧
    payload c' = drop (Z.to_nat bytes) (payload c) ∧ packet c' ∧ nm_ok nm' ∧
    conserved nm c nm' c' ∧ (eop_last c → eop_last c') ∧ (starts c → starts c') ∧
    (c' = [] ↔ fwe = true ∧ bytes = chain_len c).
Proof.
  revert c nm bytes. induction fuel as [|fuel IH]; intros c nm bytes Hnm Hc Hne Hb Hf;
    (destruct c as [|pb next]; [done|]); [simpl in Hf; lia|].
  pose proof Hc as (Hok & Hl & Hp). apply Forall_cons_1 in Hok as [Hpb Hok].
  pose proof (chain_len_nonneg _ Hok) as Hnn. pose proof Hpb as [Hm Ho Hbl Hft Had Hda].
  simpl in Hp, Hl, Hb, Hf. cbn [drop_loop]. rewrite (proj2 (Z.ltb_ge _ _)) by lia.
  set (n := Z.min bytes (pb_buflen pb)).
  destruct (advance_ok pb next n Hc ltac:(lia)) as (Hs1 & Hs2 & Hs3 & Hs4 & Hs5).
  pose proof (window_length pb Hpb) as Hwl. rewrite Hs2.
  destruct (pb_buflen pb - n =? 0) eqn:E; bool_to_prop; cbn [negb].
  2: { assert (n = bytes) as En by lia. rewrite En in *. eexists _, nm. split; [done|].
       rewrite !payload_cons, drop_app_le, <- Hs3 by lia. simpl chain_len.
       split_and!; try done. split; [done|]. intros [_ ?]. lia. }
  destruct next as [|x next].
  - destruct fwe; cbn [negb].
    + destruct (put_both_ok nm (advance pb n) Hnm Hs1) as (nm1 & -> & Hnm1 & Hc1). cbn [mbind res_bind].
      eexists [], nm1. simpl in *. split; [done|]. rewrite app_nil_r. rewrite drop_ge by lia.
      split_and!; try done. split; [intros _; split; [done|lia]|done].
    + eexists _, nm. split; [done|]. simpl in *. rewrite !app_nil_r, Hs3.
      replace (Z.to_nat n) with (Z.to_nat bytes) by lia. split_and!; try done. by split; [|intros []].
  - destruct (put_both_ok nm (advance pb n) Hnm Hs1) as (nm1 & -> & Hnm1 & Hc1). cbn [mbind res_bind].
    pose proof (packet_tail _ _ (pb_pktlen (advance pb n)) Hc ltac:(lia)) as Ht. simpl in Ht.
    set (y := or_flag _ _). change (set_pktlen x _) with (set_pktlen x (pb_pktlen (advance pb n))) in y.
    assert (packet (y :: next)) as Hy.
    { destruct Ht as (Ht1 & Ht2 & Ht3). apply Forall_cons_1 in Ht1 as [Ht0 Ht1].
      split; [constructor; [by apply set_flags_ok|done]|done]. }
    destruct (IH (y :: next) nm1 (bytes - n)) as (c' & nm' & -> & Hp' & Hc' & Hnm' & Hcons & He & Hst & Hem).
    + done.
    + done.
    + done.
    + simpl in *. lia.
    + simpl in *. lia.
    + exists c', nm'. split; [done|]. rewrite payload_cons, drop_app_add by lia.
      replace (Z.to_nat bytes - length (window pb))%nat with (Z.to_nat (bytes - n)) by lia.
      split_and!; try done.
      * eapply conserved_trans; [apply conserved_put; exact Hc1|]. exact Hcons.
      * intros [_ He0]. apply He.
        assert (has_flag y PBUF_EOP = has_flag x PBUF_EOP) as Hey
          by (unfold y; by rewrite has_flag_or_other).
        destruct next; cbn [eop_last] in *; by rewrite Hey.
      * intros Hst0. apply Hst. by apply has_flag_inherit.
      * rewrite Hem. simpl in *. split; intros [? ?]; split; try done; lia.
Qed.

(** *** Working at the end of a chain *)

Lemma on_last_snoc f c pb : on_last f (c ++ [pb]) = c ++ [f pb].
Proof.
  induction c as [|x c IH]; [done|]. simpl. rewrite IH. by destruct c.
Qed.
Lemma chain_len_app c1 c2 : chain_len (c1 ++ c2) = chain_len c1 + chain_len c2.
Proof. induction c1 as [|x c1 IH]; simpl; [done|]. rewrite IH. lia. Qed.

Lemma on_head_snoc n c pb :
  ∃ c' k, on_head (λ h, set_pktlen h (n h)) (c ++ [pb]) = c' ++ [set_pktlen pb k] ∧
    payload c' = payload c ∧ chain_len c' = chain_len c ∧ (Forall pb_ok c → Forall pb_ok c') ∧
    pb_addr <$> c' = pb_addr <$> c ∧ (db_addr ∘ pb_data) <$> c' = (db_addr ∘ pb_data) <$> c ∧
    pb_flags <$> c' = pb_flags <$> c ∧ (c = [] ↔ c' = []).
Proof.
  destruct c as [|h c].
  - exists [], (n pb). simpl. by split_and!.
  - exists (set_pktlen h (n h) :: c), (pb_pktlen pb). simpl. split_and!; try done.
    + by destruct pb.
    + intros [? ?]%Forall_cons_1. constructor; auto with mios.
Qed.

(** Whether a chain ends properly depends on its flags only. *)
Lemma has_flag_eq x y f : pb_flags x = pb_flags y → has_flag x f = has_flag y f.
Proof. unfold has_flag. by intros ->. Qed.
Lemma eop_last_flags c c' : pb_flags <$> c = pb_flags <$> c' → eop_last c → eop_last c'.
Proof.
  revert c'. induction c as [|x c IH]; intros [|y c'] E; try done.
  rewrite !fmap_cons in E. injection E as E1 E2.
  destruct c as [|x2 c], c' as [|y2 c']; try done; simpl.
  - by rewrite (has_flag_eq _ _ PBUF_EOP E1).
  - intros [H1 H2]. rewrite <- (has_flag_eq _ _ PBUF_EOP E1). split; [done|]. by apply (IH (y2 :: c')).
Qed.
Lemma starts_flags c c' : pb_flags <$> c = pb_flags <$> c' → starts c → starts c'.
Proof.
  destruct c as [|x c], c' as [|y c']; try done. rewrite !fmap_cons. intros [= E _]. simpl.
  by rewrite (has_flag_eq _ _ PBUF_SOP E).
Qed.
Lemma eop_last_snoc c pb :
  eop_last (c ++ [pb]) ↔ Forall (λ x, has_flag x PBUF_EOP = false) c ∧ has_flag pb PBUF_EOP = true.
Proof.
  induction c as [|x c IH].
  - simpl. naive_solver.
  - cbn [app]. assert (eop_last (x :: c ++ [pb]) ↔ has_flag x PBUF_EOP = false ∧ eop_last (c ++ [pb])) as ->.
    { by destruct c. }
    rewrite IH, Forall_cons. tauto.
Qed.

(** Two chains with the same headers and buffers in the same order. *)
Definition same_ids (c c' : list pbuf) : Prop :=
  pb_addr <$> c = pb_addr <$> c' ∧ (db_addr ∘ pb_data) <$> c = (db_addr ∘ pb_data) <$> c'.
Lemma conserved_same nm c c' : same_ids c c' → conserved nm c nm c'.
Proof. intros [E1 E2]. unfold conserved, headers, buffers. by rewrite E1, E2. Qed.

(** The packet when its total and the end of its last buffer change together. *)
Lemma packet_update_last f n c pb pb' :
  packet (c ++ [pb]) → pb_ok pb' → (∀ k, f (set_pktlen pb k) = set_pktlen pb' k) →
  let c2 := on_head (λ h, set_pktlen h (u16 (pb_pktlen h + n))) (c ++ [pb]) in
  pb_buflen pb' = pb_buflen pb + n → chain_len (c ++ [pb]) + n < 65536 →
  0 <= chain_len (c ++ [pb]) + n →
  ∃ k, let c' := on_last f c2 in
  packet c' ∧ payload c' = payload c ++ window pb' ∧ chain_len c' = chain_len (c ++ [pb]) + n ∧
  last c' = Some (set_pktlen pb' k) ∧
  (pb_addr pb' = pb_addr pb → db_addr (pb_data pb') = db_addr (pb_data pb) → same_ids (c ++ [pb]) c') ∧
  (pb_flags pb' = pb_flags pb → pb_flags <$> (c ++ [pb]) = pb_flags <$> c').
Proof.
  intros (Hok & Hl & Hp) Hpb' Hfk c2 Hbl Hlt Hge. apply Forall_app in Hok as [Hok1 Hok2].
  pose proof (on_head_snoc (λ h, u16 (pb_pktlen h + n)) c pb) as (c1 & k & E & H1 & H2 & H3 & H4 & H5 & H6 & H7).
  exists k. subst c2. cbv zeta. rewrite E. rewrite on_last_snoc, Hfk.
  rewrite chain_len_app in *. simpl in Hl, Hlt, Hge. split_and!.
  - split_and!.
    + apply Forall_app. split; [by apply H3|]. constructor; [by apply set_pktlen_ok|done].
    + rewrite chain_len_app. simpl. lia.
    + rewrite chain_len_app. simpl. destruct c as [|h c].
      * assert (c1 = []) as -> by by apply H7. simpl in *. injection E as E.
        rewrite Hp in E. rewrite u16_id in E by lia. lia.
      * destruct c1 as [|h1 c1]; [by pose proof (proj2 H7 eq_refl)|]. simpl in E. injection E as E _. subst h1.
        simpl in Hp, H2, Hl, Hlt, Hge. simpl. rewrite Hp. rewrite u16_id by lia. lia.
  - rewrite payload_app, H1. by rewrite payload_cons, app_nil_r.
  - rewrite !chain_len_app. simpl. lia.
  - by rewrite last_snoc.
  - intros Ea Ed. split; rewrite !fmap_app; [by rewrite H4; simpl; rewrite Ea|].
    rewrite H5. simpl. by rewrite Ed.
  - intros Ef. rewrite !fmap_app, H6. simpl. by rewrite Ef.
Qed.

(** *** Writing *)

(** What an operation that needs a new buffer does when it cannot have one: with
    [wait] it sleeps, otherwise it gives the whole packet back to the pools. *)
Definition no_buffer (nm : netmem) (c : list pbuf) (wait : bool) (r : res (list pbuf * netmem)) : Prop :=
  (wait = true ∧ r = Fault Blocked) ∨
  (wait = false ∧ ∃ nm', r = Ret ([], nm') ∧ nm_ok nm' ∧ conserved nm c nm' []).

Lemma window_wr pb m bs :
  pb_ok pb → pb_offset pb + pb_buflen pb + Z.of_nat (length bs) <= PBUF_DATA_SIZE →
  wr (db_mem (pb_data pb)) (pb_offset pb + pb_buflen pb) bs = Ret m →
  let pb' := set_mem (set_win pb (pb_offset pb) (pb_buflen pb + Z.of_nat (length bs))) m in
  pb_ok pb' ∧ window pb' = window pb ++ bs.
Proof.
  intros [Hm Ho Hl Hf Ha Hd] Hfit. rewrite wr_ok by (unfold PBUF_DATA_SIZE in *; lia).
  intros [= <-] pb'. unfold PBUF_DATA_SIZE in *. split.
  - split; simpl; unfold PBUF_DATA_SIZE; try done; [|lia..].
    rewrite !length_app, length_take, length_drop, Hm. lia.
  - unfold window, pb'. simpl. rewrite drop_app_le by (rewrite length_take; lia).
    rewrite skipn_firstn_comm. rewrite take_app_add by (rewrite length_take, length_drop; lia).
    rewrite length_take, length_drop, Hm. rewrite Nat.min_l by lia.
    replace (Z.to_nat (pb_offset pb + pb_buflen pb) - Z.to_nat (pb_offset pb))%nat
      with (Z.to_nat (pb_buflen pb)) by lia.
    f_equal. rewrite take_app_le by lia. apply take_ge. lia.
Qed.

Lemma write_chunk_ok c pb pp data :
  let n := Z.min (Z.of_nat (length data)) (max_fragment_size pp - pb_buflen pb - pb_offset pb) in
  packet (c ++ [pb]) → max_fragment_size pp <= PBUF_DATA_SIZE →
  pb_offset pb + pb_buflen pb <= max_fragment_size pp →
  chain_len (c ++ [pb]) + Z.of_nat (length data) < 65536 →
  ∃ c' pb' , write_chunk (c ++ [pb]) pp data = Ret (c' ++ [pb'], drop (Z.to_nat n) data) ∧
    packet (c' ++ [pb']) ∧ payload (c' ++ [pb']) = payload (c ++ [pb]) ++ take (Z.to_nat n) data ∧
    pb_offset pb' = pb_offset pb ∧ pb_buflen pb' = pb_buflen pb + n ∧
    same_ids (c ++ [pb]) (c' ++ [pb']) ∧ pb_flags <$> (c ++ [pb]) = pb_flags <$> (c' ++ [pb']).
Proof.
  intros n Hc Hmax Hfit Hlen. pose proof Hc as (Hok & Hl & Hp). apply Forall_app in Hok as [Hokc Hpb].
  pose proof (chain_len_nonneg _ Hokc) as Hnn.
  apply Forall_cons_1 in Hpb as [Hpb _]. pose proof Hpb as [Hm Ho Hbl Hft _ _]. unfold PBUF_DATA_SIZE in *.
  unfold write_chunk. rewrite last_snoc. rewrite u32_id by (unfold is_u32; lia). fold n.
  assert (Z.of_nat (length (take (Z.to_nat n) data)) = n) as Hn by (rewrite length_take; lia).
  destruct (wr (db_mem (pb_data pb)) (pb_offset pb + pb_buflen pb) (take (Z.to_nat n) data))
    as [m|] eqn:Ew; [|rewrite wr_ok in Ew by lia; done].
  cbn [mbind res_bind].
  pose proof (window_wr pb m (take (Z.to_nat n) data) Hpb) as [Hok' Hw']; [unfold PBUF_DATA_SIZE; lia|done|].
  rewrite Hn in Hok', Hw'. set (pb' := set_mem _ m) in Hok', Hw'.
  rewrite !chain_len_app in *. simpl in Hlen.
  destruct (packet_update_last
    (λ t, set_mem (set_win t (pb_offset t) (u16 (pb_buflen t + n))) m) n c pb pb' Hc Hok')
    as (k & Hc' & Hpl & Hcl & Hlast & Hid & Hfl).
  { intros k. unfold pb', set_mem, set_win, set_pktlen. cbn. by rewrite u16_id by lia. }
  { done. } { rewrite chain_len_app. simpl. lia. } { rewrite chain_len_app. simpl in *. lia. }
  apply last_Some in Hlast as [c'' E]. cbv zeta in *. rewrite E in *. exists c'', (set_pktlen pb' k).
  split_and!; try done.
  - rewrite Hpl, Hw', payload_app, payload_cons, app_nil_r. by rewrite app_assoc.
  - by apply Hid.
  - by apply Hfl.
Qed.

Lemma same_ids_refl c : same_ids c c.
Proof. done. Qed.

Lemma write_room_ok nm c pb pp wait :
  nm_ok nm → packet (c ++ [pb]) → preferred_offset pp = 0 → 0 < max_fragment_size pp →
  pb_buflen pb <= max_fragment_size pp →
  (wait = true ∧ write_room nm (c ++ [pb]) pp wait = Fault Blocked) ∨
  (wait = false ∧ ∃ nm', write_room nm (c ++ [pb]) pp wait = Ret (None, nm') ∧ nm_ok nm' ∧
     conserved nm (c ++ [pb]) nm' []) ∨
  (∃ c' pb' nm', write_room nm (c ++ [pb]) pp wait = Ret (Some (c' ++ [pb']), nm') ∧ nm_ok nm' ∧
     conserved nm (c ++ [pb]) nm' (c' ++ [pb']) ∧ packet (c' ++ [pb']) ∧
     payload (c' ++ [pb']) = payload (c ++ [pb]) ∧ pb_buflen pb' < max_fragment_size pp ∧
     (pb' = pb ∨ pb_offset pb' = 0) ∧
     (eop_last (c ++ [pb]) → eop_last (c' ++ [pb'])) ∧ (starts (c ++ [pb]) → starts (c' ++ [pb']))).
Proof.
  intros Hnm Hc Hpo Hmax Hle. unfold write_room. rewrite last_snoc.
  destruct (max_fragment_size pp <=? pb_buflen pb) eqn:E; bool_to_prop.
  2: { right. right. exists c, pb, nm. split_and!; try done. by left. }
  rewrite on_last_snoc. pose proof Hc as (Hok & Hl & Hp). apply Forall_app in Hok as [Hok1 Hok2].
  apply Forall_cons_1 in Hok2 as [Hpb _]. set (pbc := clear_flag pb PBUF_EOP).
  assert (Forall pb_ok (c ++ [pbc])) as Hokc.
  { apply Forall_app. split; [done|]. constructor; [by apply set_flags_ok|done]. }
  assert (same_ids (c ++ [pb]) (c ++ [pbc])) as Hid by (split; by rewrite !fmap_app).
  destruct (get_both_cases nm wait (λ a d, mk_pbuf a PBUF_EOP 0 0 (preferred_offset pp) 0 d) Hnm)
    as [[-> ->]|[(nm' & -> & -> & Hnm' & Hcv)|(a & d & nm' & -> & Hnm' & Ha & Hd & Hm & Hh & Hb)]];
    cbn [mbind res_bind].
  - by left.
  - right. left. split; [done|]. destruct (pbuf_free_ok nm' _ Hnm' Hokc) as (nm2 & -> & Hnm2 & Hcv2).
    cbn [mbind res_bind]. exists nm2. split_and!; try done.
    eapply conserved_trans; [apply conserved_same, Hid|]. eapply conserved_trans; [|exact Hcv2].
    by apply (conserved_app _ [] _ [] (c ++ [pbc])).
  - right. right. set (x := mk_pbuf a PBUF_EOP 0 0 (preferred_offset pp) 0 d).
    exists (c ++ [pbc]), x, nm'. rewrite <- !app_assoc. cbn [app].
    assert (pb_ok x) as Hx.
    { split; simpl; unfold PBUF_DATA_SIZE in *; try done; rewrite ?Hpo; lia. }
    split_and!; try done.
    + destruct Hid as [Hi1 Hi2]. unfold conserved, headers, buffers in *. simpl in Hh, Hb.
      change [pbc; x] with ([pbc] ++ [x]). rewrite (app_assoc c), !(fmap_app _ (c ++ [pbc])).
      rewrite <- Hi1, <- Hi2. rewrite !app_nil_r in *. rewrite Hh, Hb. simpl.
      split; (etransitivity; [apply Permutation_cons_append|]); by rewrite <- app_assoc.
    + split_and!.
      * change [pbc; x] with ([pbc] ++ [x]). rewrite app_assoc. apply Forall_app. split; [done|].
        by constructor.
      * rewrite chain_len_app in *. simpl in *. lia.
      * destruct c as [|h c]; simpl in *; [lia|]. rewrite chain_len_app in *. simpl in *. lia.
    + rewrite !payload_app, !payload_cons. assert (window x = []) as -> by done. done.
    + by right.
    + change [pbc; x] with ([pbc] ++ [x]). rewrite app_assoc, !eop_last_snoc.
      intros [H1 H2]. split; [|done]. apply Forall_app. split; [done|].
      constructor; [apply has_flag_clear|done].
    + destruct c; [|done]. simpl. unfold pbc. by rewrite has_flag_clear_other.
Qed.

(** A packet whose last buffer can take more. *)
Definition writable (pp : pushpull) (c : list pbuf) : Prop :=
  ∃ c0 pb, c = c0 ++ [pb] ∧ pb_offset pb = 0 ∧ pb_buflen pb <= max_fragment_size pp.

Lemma write_loop_ok fuel nm c pb data pp wait :
  nm_ok nm → packet (c ++ [pb]) → preferred_offset pp = 0 →
  0 < max_fragment_size pp <= PBUF_DATA_SIZE → pb_offset pb = 0 →
  pb_buflen pb <= max_fragment_size pp →
  chain_len (c ++ [pb]) + Z.of_nat (length data) < 65536 → (length data < fuel)%nat →
  no_buffer nm (c ++ [pb]) wait (write_loop fuel nm (c ++ [pb]) data pp wait) ∨
  ∃ c' nm', write_loop fuel nm (c ++ [pb]) data pp wait = Ret (c', nm') ∧ c' ≠ [] ∧
    payload c' = payload (c ++ [pb]) ++ data ∧ packet c' ∧ nm_ok nm' ∧
    conserved nm (c ++ [pb]) nm' c' ∧
    (eop_last (c ++ [pb]) → eop_last c') ∧ (starts (c ++ [pb]) → starts c') ∧ writable pp c'.
Proof.
  intros Hnm Hc Hpo Hmax Hoff Hle Hlen Hf. revert nm c pb data Hnm Hc Hoff Hle Hlen Hf.
  induction fuel as [|fuel IH]; intros nm c pb data Hnm Hc Hoff Hle Hlen Hf; [lia|].
  cbn [write_loop]. destruct data as [|b data].
  { right. exists (c ++ [pb]), nm. rewrite app_nil_r. split_and!; try done; [by destruct c|]. by exists c, pb. }
  set (bs := b :: data) in *.
  destruct (write_room_ok nm c pb pp wait Hnm Hc Hpo ltac:(lia) Hle)
    as [[-> ->]|[(-> & nm' & -> & Hnm' & Hcv)|(c1 & pb1 & nm1 & -> & Hnm1 & Hcv1 & Hc1 & Hp1 & Hlt1 & Ho1 & He1 & Hs1)]];
    cbn [mbind res_bind].
  { left. left. done. }
  { left. right. split; [done|]. by exists nm'. }
  assert (pb_offset pb1 = 0) as Hoff1 by (destruct Ho1 as [->|]; done).
  assert (chain_len (c1 ++ [pb1]) = chain_len (c ++ [pb])) as Hcl.
  { rewrite <- !payload_length by (apply Hc || apply Hc1). by rewrite Hp1. }
  destruct (write_chunk_ok c1 pb1 pp bs Hc1) as (c2 & pb2 & -> & Hc2 & Hp2 & Hof2 & Hbl2 & Hid2 & Hfl2);
    [lia|lia|lia|].
  cbn [mbind res_bind]. set (n := Z.min _ _) in *.
  assert (1 <= n <= Z.of_nat (length bs)) as Hn by (unfold bs in *; simpl length in *; lia).
  destruct (IH nm1 c2 pb2 (drop (Z.to_nat n) bs)) as [Hnb|(c' & nm' & -> & Hne & Hp' & Hc' & Hnm' & Hcv' & He' & Hs' & Hw')].
  - done.
  - done.
  - lia.
  - lia.
  - rewrite <- payload_length by apply Hc2. rewrite Hp2, length_app, length_take, length_drop, Hp1.
    rewrite <- payload_length in Hlen by apply Hc. lia.
  - rewrite length_drop. simpl in Hf. unfold bs in *. simpl length in *. lia.
  - left. assert (conserved nm (c ++ [pb]) nm1 (c2 ++ [pb2])) as Hcc.
    { eapply conserved_trans; [exact Hcv1|]. by apply conserved_same. }
    destruct Hnb as [?|(-> & nm' & ? & ? & ?)]; [by left|]. right. split; [done|].
    exists nm'. split_and!; try done. by eapply conserved_trans.
  - right. exists c', nm'. split_and!; try done.
    + rewrite Hp', Hp2, Hp1, <- app_assoc. by rewrite take_drop.
    + eapply conserved_trans; [exact Hcv1|]. eapply conserved_trans; [by apply conserved_same|done].
    + intros He. apply He'. eapply eop_last_flags; [exact Hfl2|]. by apply He1.
    + intros Hs. apply Hs'. eapply starts_flags; [exact Hfl2|]. by apply Hs1.
Qed.

(** *** Trimming *)

Lemma cut_ok pb k :
  pb_ok pb → 0 <= k <= pb_buflen pb →
  let pb' := set_win pb (pb_offset pb) (pb_buflen pb - k) in
  pb_ok pb' ∧ window pb' = take (Z.to_nat (pb_buflen pb - k)) (window pb).
Proof.
  intros [Hm Ho Hl Hf Ha Hd] Hk pb'. split.
  - split; simpl; try done; lia.
  - unfold window. simpl. rewrite take_take. by rewrite Nat.min_l by lia.
Qed.

(** A last buffer that has become empty is unlinked and its end mark kept. *)
Lemma unlink_last_ok nm c pb t :
  nm_ok nm → packet ((c ++ [pb]) ++ [t]) → pb_buflen t = 0 →
  let c' := c ++ [or_flag pb (Z.land (pb_flags t) PBUF_EOP)] in
  packet c' ∧ payload c' = payload ((c ++ [pb]) ++ [t]) ∧ chain_len c' = chain_len ((c ++ [pb]) ++ [t]) ∧
  (eop_last ((c ++ [pb]) ++ [t]) → eop_last c') ∧ (starts ((c ++ [pb]) ++ [t]) → starts c') ∧
  ∃ nm', put_both nm t = Ret nm' ∧ nm_ok nm' ∧ conserved nm ((c ++ [pb]) ++ [t]) nm' c'.
Proof.
  intros Hnm (Hok & Hl & Hp) Ht c'. apply Forall_app in Hok as [Hok Hokt].
  apply Forall_cons_1 in Hokt as [Hokt _]. apply Forall_app in Hok as [Hok1 Hok2].
  apply Forall_cons_1 in Hok2 as [Hok2 _].
  assert (chain_len c' = chain_len ((c ++ [pb]) ++ [t])) as Hcl.
  { unfold c'. rewrite !chain_len_app. simpl. lia. }
  split_and!.
  - split_and!.
    + apply Forall_app. split; [done|]. constructor; [by apply set_flags_ok|done].
    + lia.
    + rewrite Hcl. unfold c'. destruct c; done.
  - unfold c'. rewrite !payload_app, !payload_cons.
    assert (window t = []) as -> by (unfold window; by rewrite Ht).
    by rewrite !app_nil_r.
  - done.
  - unfold c'. rewrite !eop_last_snoc. intros [H1 H2]. apply Forall_app in H1 as [H1 _].
    split; [done|]. by apply has_flag_inherit.
  - destruct c; [|done]. unfold c'. simpl. by rewrite has_flag_or_other.
  - destruct (put_both_ok nm t Hnm Hokt) as (nm' & E & Hnm' & Hcv). exists nm'. split_and!; try done.
    apply (conserved_trans _ _ nm' (c ++ [pb])).
    + eapply (conserved_perm _ (t :: c ++ [pb])); [apply Permutation_cons_append|done|].
      by apply conserved_put.
    + apply conserved_same. unfold c'. split; by rewrite !fmap_app.
Qed.

Lemma pbuf_trim_ok fuel nm c bytes :
  nm_ok nm → packet c → c ≠ [] → 0 <= bytes <= chain_len c → (length c < fuel)%nat →
  ∃ c' nm', pbuf_trim fuel nm c bytes = Ret (c', nm') ∧ c' ≠ [] ∧
    payload c' = take (Z.to_nat (chain_len c - bytes)) (payload c) ∧ packet c' ∧ nm_ok nm' ∧
    conserved nm c nm' c' ∧ (eop_last c → eop_last c') ∧ (starts c → starts c').
Proof.
  revert nm c bytes. induction fuel as [|fuel IH]; intros nm c bytes Hnm Hc Hne Hb Hf; [lia|].
  cbn [pbuf_trim]. destruct (bytes =? 0) eqn:E0; bool_to_prop.
  { subst bytes. exists c, nm. split_and!; try done. rewrite take_ge; [done|].
    rewrite <- payload_length by apply Hc. lia. }
  destruct c as [|t c _] using rev_ind; [done|]. clear Hne. rewrite last_snoc.
  set (k := Z.min (pb_buflen t) bytes).
  pose proof Hc as (Hok & Hl & Hp). apply Forall_app in Hok as [Hok1 Hok2].
  apply Forall_cons_1 in Hok2 as [Hokt _]. pose proof Hokt as [Hm Ho Hbl Hft _ _].
  pose proof (chain_len_nonneg _ Hok1) as Hnn. rewrite chain_len_app in Hl, Hb. simpl in Hl, Hb.
  unfold PBUF_DATA_SIZE in *.
  destruct (cut_ok t k Hokt ltac:(lia)) as [Hcut Hcw]. set (t' := set_win t _ _) in Hcut, Hcw.
  destruct (packet_update_last (λ t, set_win t (pb_offset t) (u16 (pb_buflen t - k))) (- k) c t t' Hc Hcut)
    as (q & Hc' & Hpl & Hcl & Hlast & Hid & Hfl).
  { intros q. unfold t', set_win, set_pktlen. cbn. by rewrite u16_id by lia. }
  { done. } { rewrite chain_len_app. simpl. lia. } { rewrite chain_len_app. simpl. lia. }
  cbv zeta in *. change (?a + - k) with (a - k) in *.
  set (c2 := on_last _ _) in *. specialize (Hid eq_refl eq_refl). specialize (Hfl eq_refl).
  pose proof Hlast as [c1 E2]%last_Some. rewrite Hlast.
  assert (payload c2 = take (Z.to_nat (chain_len c2)) (payload (c ++ [t]))) as Hpl2.
  { rewrite Hpl, Hcl, Hcw, payload_app, payload_cons, app_nil_r.
    rewrite take_app_add by (rewrite chain_len_app; simpl; pose proof (payload_length c Hok1); lia).
    f_equal. f_equal. rewrite chain_len_app. simpl. pose proof (payload_length c Hok1). lia. }
  assert (chain_len c2 - (bytes - k) = chain_len (c ++ [t]) - bytes) as Hrest by lia.
  assert (length c2 = length (c ++ [t])) as Hlen2.
  { pose proof (f_equal length Hfl) as Hlf. rewrite !length_fmap in Hlf. done. }
  rewrite chain_len_app in Hcl. simpl in Hcl.
  destruct ((pb_buflen (set_pktlen t' q) =? 0) && negb (length c2 =? 1)%nat)%bool eqn:Eu.
  - apply andb_true_iff in Eu as [Eu1 Eu2]. apply Z.eqb_eq in Eu1.
    apply negb_true_iff, Nat.eqb_neq in Eu2. rewrite E2 in *. rewrite removelast_last.
    destruct c1 as [|p c1 _] using rev_ind; [done|]. rewrite on_last_snoc.
    destruct (unlink_last_ok nm c1 p _ Hnm Hc' Eu1) as (Hu1 & Hu2 & Hu3 & Hu4 & Hu5 & nm1 & -> & Hnm1 & Hcv1).
    cbn [mbind res_bind].
    destruct (IH nm1 _ (bytes - k) Hnm1 Hu1) as (c' & nm' & -> & Hne' & Hp' & Hpk' & Hnm' & Hcv' & He' & Hs').
    + by destruct c1.
    + rewrite Hu3. lia.
    + rewrite !length_app in *. simpl in *. lia.
    + exists c', nm'. split_and!; try done.
      * rewrite Hp', Hu3, Hrest, Hu2, Hpl2, take_take. f_equal. lia.
      * eapply conserved_trans; [by apply conserved_same|]. by eapply conserved_trans.
      * intros He. apply He', Hu4. by eapply eop_last_flags.
      * intros Hs. apply Hs', Hu5. by eapply starts_flags.
  - assert (bytes - k = 0) as Hz.
    { apply andb_false_iff in Eu as [Eu|Eu].
      - apply Z.eqb_neq in Eu. simpl in Eu. lia.
      - apply negb_false_iff, Nat.eqb_eq in Eu. rewrite Hlen2, length_app in Eu. simpl in Eu.
        destruct c; simpl in *; lia. }
    rewrite Hz. destruct fuel as [|fuel]; [rewrite length_app in Hf; simpl in Hf; lia|].
    cbn [pbuf_trim Z.eqb]. exists c2, nm. split_and!; try done.
    + rewrite E2. by destruct c1.
    + rewrite Hpl2. f_equal. lia.
    + by apply conserved_same.
    + by apply eop_last_flags.
    + by apply starts_flags.
Qed.

(** *** Growing at the front *)

Lemma conserved_get nm nm' c x :
  headers nm [] ≡ₚ pb_addr x :: headers nm' [] →
  buffers nm [] ≡ₚ db_addr (pb_data x) :: buffers nm' [] →
  conserved nm c nm' (x :: c).
Proof.
  unfold conserved, headers, buffers. rewrite !fmap_nil, !app_nil_r. intros -> ->. cbn [fmap list_fmap].
  split; apply Permutation_middle.
Qed.

Lemma pbuf_prepend_ok nm c bytes wait extra :
  nm_ok nm → packet c → c ≠ [] → 0 <= bytes → 0 <= extra → bytes + extra <= PBUF_DATA_SIZE →
  chain_len c + bytes < 65536 →
  no_buffer nm c wait (pbuf_prepend nm c bytes wait extra) ∨
  ∃ pb c' nm' hole, pbuf_prepend nm c bytes wait extra = Ret (pb :: c', nm') ∧
    length hole = Z.to_nat bytes ∧ payload (pb :: c') = hole ++ payload c ∧ take (length hole) (window pb) = hole ∧
    extra <= pb_offset pb ∧ packet (pb :: c') ∧ nm_ok nm' ∧ conserved nm c nm' (pb :: c') ∧
    (eop_last c → eop_last (pb :: c')) ∧ (starts c → has_flag pb PBUF_SOP = true).
Proof.
  intros Hnm Hc Hne Hb Hx Hfit Hlen. destruct c as [|pb c]; [done|].
  pose proof Hc as (Hok & Hl & Hp). apply Forall_cons_1 in Hok as [Hpb Hok].
  pose proof (chain_len_nonneg _ Hok) as Hnn. pose proof Hpb as [Hm Ho Hbl Hft Had Hda].
  unfold PBUF_DATA_SIZE in *. cbn [chain_len] in Hp, Hl, Hlen. unfold pbuf_prepend.
  destruct (bytes + extra <=? pb_offset pb) eqn:E; bool_to_prop.
  - right. rewrite !u16_id by lia. set (pb' := set_pktlen _ _).
    exists pb', c, nm, (take (Z.to_nat bytes) (drop (Z.to_nat (pb_offset pb - bytes)) (db_mem (pb_data pb)))).
    assert (window pb' = take (Z.to_nat bytes) (drop (Z.to_nat (pb_offset pb - bytes)) (db_mem (pb_data pb)))
      ++ window pb) as Hw.
    { unfold window, pb'. cbn -[Z.to_nat]. rewrite Z2Nat.inj_add, Nat.add_comm by lia.
      rewrite <- take_take_drop, drop_drop. do 3 f_equal. lia. }
    assert (length (take (Z.to_nat bytes) (drop (Z.to_nat (pb_offset pb - bytes)) (db_mem (pb_data pb))))
      = Z.to_nat bytes) as Hlh by (rewrite length_take, length_drop, Hm; lia).
    split; [done|]. split; [done|]. split; [by rewrite !payload_cons, Hw, <- app_assoc|].
    split; [by rewrite Hw, Hlh, take_app_length' by done|]. split; [simpl; lia|].
    split_and!; try done.
    split; [constructor; [|done]|unfold pb'; simpl; rewrite u16_id by lia; lia].
    split; cbn; unfold PBUF_DATA_SIZE; try done; lia.
  - destruct (get_both_cases nm wait (λ a d, mk_pbuf a (Z.lor PBUF_SOP PBUF_EOP) 0 0 (u16 extra) 0 d) Hnm)
      as [[-> E1]|[(nm' & -> & E1 & Hnm' & Hcv)|(a & d & nm' & E1 & Hnm' & Ha & Hd & Hmd & Hh & Hbf)]];
      unfold pbuf_make0, pbuf_make_irq_blocked0; rewrite E1; cbn [mbind res_bind].
    + left. by left.
    + left. right. split; [done|]. destruct (pbuf_free_ok nm' (pb :: c) Hnm') as (nm2 & -> & Hnm2 & Hcv2).
      { by constructor. } exists nm2. split_and!; try done. eapply conserved_trans; [|exact Hcv2].
      by apply (conserved_app _ [] _ [] (pb :: c)).
    + right. rewrite !(u16_id extra), !(u16_id bytes), (u16_id (_ + _)) by lia.
      set (pre := set_win _ _ _). set (pb' := set_pktlen _ 0).
      exists pre, (pb' :: c), nm', (window pre). split; [done|].
      assert (pb_ok pre) as Hpre by (split; cbn; unfold PBUF_DATA_SIZE; try done; lia).
      assert (pb_ok pb') as Hpb' by (by apply set_pktlen_ok, set_flags_ok).
      split; [by rewrite window_length|]. split; [done|]. split; [by rewrite firstn_all|].
      split; [simpl; lia|]. split.
      { split; [constructor; [done|by constructor]|]. cbn [chain_len]. cbn [set_win set_pktlen pb_buflen pb_pktlen pre pb'].
        simpl. lia. }
      split; [done|]. split; [by apply (conserved_get nm nm' (pb' :: c) pre)|]. split; [|done].
      intros He. split; [done|]. destruct c; cbn [eop_last] in *;
        by rewrite (has_flag_eq pb' (clear_flag pb PBUF_SOP)), has_flag_clear_other by done.
Qed.

(** *** Pulling data together *)

Lemma pullup_step pb n rest k m :
  packet (pb :: n :: rest) → 0 <= k <= pb_buflen n →
  pb_offset pb + pb_buflen pb + k <= PBUF_DATA_SIZE →
  wr (db_mem (pb_data pb)) (pb_offset pb + pb_buflen pb) (take (Z.to_nat k) (window n)) = Ret m →
  let pb' := set_mem (set_win pb (pb_offset pb) (u16 (pb_buflen pb + k))) m in
  packet (pb' :: shrink n k :: rest) ∧ window pb' = window pb ++ take (Z.to_nat k) (window n) ∧
  window (shrink n k) = drop (Z.to_nat k) (window n) ∧ pb_buflen pb' = pb_buflen pb + k ∧
  pb_buflen (shrink n k) = pb_buflen n - k.
Proof.
  intros (Hok & Hl & Hp) Hk Hfit Hw pb'. apply Forall_cons_1 in Hok as [Hpb Hok].
  apply Forall_cons_1 in Hok as [Hn Hok]. pose proof Hpb as [Hm Ho Hbl Hft Had Hda].
  unfold PBUF_DATA_SIZE in *.
  destruct (shrink_ok n k Hn Hk) as (Hs1 & Hs2 & Hs3).
  assert (Z.of_nat (length (take (Z.to_nat k) (window n))) = k) as Hlk.
  { rewrite length_take, window_length by done. lia. }
  destruct (window_wr pb m (take (Z.to_nat k) (window n)) Hpb ltac:(unfold PBUF_DATA_SIZE; lia) Hw) as [Hpb' Hw'].
  rewrite Hlk in Hpb', Hw'. unfold pb'. rewrite u16_id by lia. split_and!; try done.
  cbn [chain_len] in Hp, Hl.
  split; [constructor; [done|by constructor]|].
  cbn [chain_len]. rewrite Hs2. cbn. lia.
Qed.

Lemma pullup_loop_ok fuel nm pb next bytes :
  nm_ok nm → packet (pb :: next) → 0 <= bytes →
  pb_offset pb + pb_buflen pb + bytes <= PBUF_DATA_SIZE → (length next < fuel)%nat →
  ∃ pb' next' nm',
    pullup_loop fuel nm pb next bytes = Ret (Z.max 0 (bytes - chain_len next), pb' :: next', nm') ∧
    payload (pb' :: next') = payload (pb :: next) ∧ packet (pb' :: next') ∧ nm_ok nm' ∧
    pb_buflen pb' = pb_buflen pb + Z.min bytes (chain_len next) ∧
    conserved nm (pb :: next) nm' (pb' :: next') ∧
    (eop_last (pb :: next) → eop_last (pb' :: next')) ∧ (starts (pb :: next) → starts (pb' :: next')).
Proof.
  revert nm pb next bytes. induction fuel as [|fuel IH]; intros nm pb next bytes Hnm Hc Hb Hfit Hf; [lia|].
  pose proof Hc as (Hok & Hl & Hp). apply Forall_cons_1 in Hok as [Hpb Hok].
  pose proof (chain_len_nonneg _ Hok) as Hnn.
  cbn [pullup_loop]. destruct (bytes =? 0) eqn:E0; bool_to_prop.
  { subst bytes. exists pb, next, nm. split_and!; try done; [|lia]. do 3 f_equal. lia. }
  destruct next as [|n rest].
  { exists pb, [], nm. split_and!; try done; [|simpl; lia]. do 3 f_equal. simpl. lia. }
  apply Forall_cons_1 in Hok as [Hn Hok]. pose proof Hn as [_ _ Hnl _ _ _].
  pose proof (chain_len_nonneg _ Hok) as Hnn'. pose proof Hpb as [Hm Ho Hbl Hft Had Hda].
  set (k := Z.min bytes (pb_buflen n)). cbn [chain_len] in *.
  rewrite rd_window by (done || lia). cbn [mbind res_bind].
  destruct (wr (db_mem (pb_data pb)) (pb_offset pb + pb_buflen pb) (take (Z.to_nat k) (window n)))
    as [m|] eqn:Ew.
  2: { rewrite wr_ok in Ew; [done|lia|]. unfold PBUF_DATA_SIZE in *.
       rewrite length_take, window_length, Hm by done. lia. }
  cbn [mbind res_bind].
  destruct (pullup_step pb n rest k m Hc ltac:(lia) ltac:(lia) Ew) as (Hc1 & Hw1 & Hw2 & Hl1 & Hl2).
  set (pb1 := set_mem _ m) in *. rewrite Hl2.
  assert (payload (pb1 :: shrink n k :: rest) = payload (pb :: n :: rest)) as Hpay.
  { rewrite !payload_cons, Hw1, Hw2, <- app_assoc. f_equal. by rewrite app_assoc, take_drop. }
  destruct (pb_buflen n - k =? 0) eqn:E1; bool_to_prop.
  - set (pb2 := set_credits _ _). change (or_flag _ _) with (or_flag pb1 (Z.land (pb_flags n) PBUF_EOP)) in pb2.
    pose proof Hc1 as (Hok1 & Hll1 & Hp1). apply Forall_cons_1 in Hok1 as [Hpb1 Hok1].
    apply Forall_cons_1 in Hok1 as [Hns Hok1].
    destruct (put_both_ok nm (shrink n k) Hnm Hns) as (nm1 & -> & Hnm1 & Hcv1). cbn [mbind res_bind].
    assert (pb_ok pb2) as Hpb2 by (destruct Hpb1; by split).
    cbn [chain_len] in Hll1, Hp1.
    destruct (IH nm1 pb2 rest (bytes - k)) as (pb' & next' & nm' & E & Hpay' & Hc' & Hnm' & Hbl' & Hcv' & He' & Hs').
    + done.
    + split; [by constructor|]. cbn [chain_len]. change (pb_buflen pb2) with (pb_buflen pb1).
      change (pb_pktlen pb2) with (pb_pktlen pb1). lia.
    + lia.
    + change (pb_buflen pb2) with (pb_buflen pb1). change (pb_offset pb2) with (pb_offset pb). lia.
    + simpl in Hf. lia.
    + exists pb', next', nm'. split_and!; try done.
      * change (set_credits _ _) with pb2 in E. rewrite E. do 3 f_equal. lia.
      * rewrite Hpay', <- Hpay, !payload_cons. change (window pb2) with (window pb1).
        assert (window (shrink n k) = []) as ->; [|done].
        rewrite Hw2. apply drop_ge. rewrite window_length by done. lia.
      * change (pb_buflen pb2) with (pb_buflen pb1) in Hbl'. lia.
      * apply (conserved_trans _ _ nm (pb2 :: shrink n k :: rest)); [by apply conserved_same|].
        eapply conserved_trans; [|exact Hcv']. apply (conserved_app _ _ _ _ (pb2 :: rest)) in Hcv1.
        eapply conserved_perm; [|reflexivity|exact Hcv1]. apply perm_swap.
      * intros He. apply He'.
        assert (has_flag pb2 PBUF_EOP = (has_flag pb PBUF_EOP || has_flag n PBUF_EOP)%bool) as Hf2.
        { exact (has_flag_or_same pb1 n _). }
        destruct rest; cbn [eop_last] in *; rewrite Hf2; destruct He as [-> He]; [by rewrite He|].
        destruct He as [-> He]. done.
      * intros Hst. apply Hs'. cbn [starts] in *.
        rewrite <- Hst. apply (has_flag_or_other pb1 (pb_flags n) PBUF_SOP PBUF_EOP). done.
  - assert (k = bytes) as Hk by lia. destruct fuel as [|fuel]; [simpl in Hf; lia|].
    replace (bytes - k) with 0 by lia. cbn [pullup_loop Z.eqb].
    exists pb1, (shrink n k :: rest), nm. split_and!; try done.
    + do 3 f_equal. lia.
    + lia.
Qed.

(** *** Copying *)

Lemma window_full dst bs m :
  wr (db_mem (pb_data dst)) (pb_offset dst) bs = Ret m → pb_ok dst →
  Z.of_nat (length bs) = pb_buflen dst → pb_ok (set_mem dst m) ∧ window (set_mem dst m) = bs.
Proof.
  intros Hw [Hm Ho Hl Hf Ha Hd] Hlen. unfold PBUF_DATA_SIZE in *. rewrite wr_ok in Hw by lia.
  injection Hw as <-. split.
  - split; simpl; unfold PBUF_DATA_SIZE; try done; try lia.
    rewrite !length_app, length_take, length_drop, Hm. lia.
  - unfold window. simpl. rewrite drop_app_add by (rewrite length_take; lia).
    rewrite length_take, Hm, Nat.min_l by lia. rewrite Nat.sub_diag, drop_0.
    rewrite take_app_le by lia. apply take_ge. lia.
Qed.

Lemma copy1_cases stale nm src wait :
  nm_ok nm → pb_ok src →
  (wait = true ∧ copy1 stale nm src wait = Fault Blocked) ∨
  (∃ nm', wait = false ∧ copy1 stale nm src wait = Ret (None, nm') ∧ nm_ok nm' ∧ conserved nm [] nm' []) ∨
  (∃ dst nm', copy1 stale nm src wait = Ret (Some dst, nm') ∧ nm_ok nm' ∧ pb_ok dst ∧
     window dst = window src ∧ pb_flags dst = pb_flags src ∧ pb_pktlen dst = pb_pktlen src ∧
     conserved nm [] nm' [dst]).
Proof.
  intros Hnm Hs. pose proof Hs as [Hm Ho Hl Hf _ _]. unfold copy1.
  set (init := λ a d, mk_pbuf a _ _ _ _ _ d).
  destruct (get_both_cases nm wait init Hnm)
    as [[-> ->]|[(nm' & -> & -> & Hnm' & Hcv)|(a & d & nm' & -> & Hnm' & Ha & Hd & Hmd & Hh & Hb)]];
    cbn [mbind res_bind]; [by left|right; left; by exists nm'|]. right. right.
  rewrite rd_window by (done || lia). cbn [mbind res_bind].
  rewrite take_ge by (rewrite window_length by done; lia).
  assert (pb_ok (init a d)) as Hd0 by (by split).
  destruct (wr (db_mem (pb_data (init a d))) (pb_offset (init a d)) (window src)) as [m|] eqn:Ew.
  2: { rewrite wr_ok in Ew; [done|simpl; lia|]. simpl. rewrite window_length, Hmd by done.
       unfold PBUF_DATA_SIZE in *. lia. }
  cbn [mbind res_bind].
  destruct (window_full (init a d) (window src) m Ew Hd0) as [Hok Hw].
  { simpl. rewrite window_length by done. lia. }
  exists (set_mem (init a d) m), nm'. split_and!; try done. by apply (conserved_get nm nm' []).
Qed.

Lemma copy_loop_ok stale nm src wait r :
  nm_ok nm → Forall pb_ok src → Forall pb_ok r →
  Forall (λ x, has_flag x PBUF_SOP = false) (tail src) →
  no_buffer nm r wait (copy_loop stale nm src wait r) ∨
  ∃ c' nm', copy_loop stale nm src wait r = Ret (r ++ c', nm') ∧ nm_ok nm' ∧ Forall pb_ok c' ∧
    payload c' = payload src ∧ pb_flags <$> c' = pb_flags <$> src ∧
    pb_pktlen <$> c' = pb_pktlen <$> src ∧ conserved nm r nm' (r ++ c').
Proof.
  revert nm r. induction src as [|pb src IH]; intros nm r Hnm Hs Hr Hsop.
  { right. exists [], nm. simpl. rewrite app_nil_r. by split_and!. }
  apply Forall_cons_1 in Hs as [Hpb Hs]. cbn [copy_loop tail] in *.
  destruct (copy1_cases stale nm pb wait Hnm Hpb)
    as [[-> ->]|[(nm' & -> & -> & Hnm' & Hcv)|(d & nm' & -> & Hnm' & Hd & Hw & Hfl & Hpl & Hcv)]];
    cbn [mbind res_bind].
  - left. by left.
  - left. right. split; [done|]. destruct (pbuf_free_ok nm' r Hnm' Hr) as (nm2 & E & Hnm2 & Hcv2).
    unfold pbuf_free in E. rewrite E. cbn [mbind res_bind]. exists nm2. split_and!; try done.
    eapply conserved_trans; [|exact Hcv2]. by apply (conserved_app _ [] _ [] r).
  - assert (conserved nm r nm' (r ++ [d])) as Hcr.
    { apply (conserved_app _ _ _ _ r) in Hcv. eapply conserved_perm; [reflexivity| |exact Hcv].
      apply Permutation_app_comm. }
    destruct src as [|n src].
    + right. exists [d], nm'. split_and!; try done.
      * by constructor.
      * rewrite !payload_cons. by rewrite Hw.
      * simpl. by rewrite Hfl.
      * simpl. by rewrite Hpl.
    + apply Forall_cons_1 in Hsop as [-> Hsop].
      destruct (IH nm' (r ++ [d])) as [Hnb|(c' & nm2 & -> & Hnm2 & Hc' & Hp' & Hf' & Hl' & Hcv')]; try done.
      * apply Forall_app. split; [done|]. by constructor.
      * left. destruct Hnb as [?|(-> & nm2 & ? & ? & ?)]; [by left|]. right. split; [done|].
        exists nm2. split_and!; try done. by eapply conserved_trans.
      * right. exists (d :: c'), nm2. rewrite <- app_assoc in Hcv'. cbn [app] in Hcv'.
        split_and!; try done.
        -- by rewrite <- app_assoc.
        -- by constructor.
        -- rewrite !payload_cons in *. by rewrite Hw, Hp'.
        -- rewrite !fmap_cons in *. by rewrite Hfl, Hf'.
        -- rewrite !fmap_cons in *. by rewrite Hpl, Hl'.
        -- by eapply conserved_trans.
Qed.

Lemma pbuf_pullup_ok fuel nm pb c bytes :
  nm_ok nm → packet (pb :: c) → 0 <= bytes <= PBUF_DATA_SIZE → (length c < fuel)%nat →
  ∃ pb' c' nm', pbuf_pullup fuel nm (pb :: c) bytes =
      Ret (Z.max 0 (bytes - chain_len (pb :: c)), pb' :: c', nm') ∧
    payload (pb' :: c') = payload (pb :: c) ∧ packet (pb' :: c') ∧ nm_ok nm' ∧
    Z.min bytes (chain_len (pb :: c)) <= pb_buflen pb' ∧ conserved nm (pb :: c) nm' (pb' :: c') ∧
    (eop_last (pb :: c) → eop_last (pb' :: c')) ∧ (starts (pb :: c) → starts (pb' :: c')).
Proof.
  intros Hnm Hc Hb Hf. pose proof Hc as (Hok & Hl & Hp). apply Forall_cons_1 in Hok as [Hpb Hok].
  pose proof (chain_len_nonneg _ Hok) as Hnn. pose proof Hpb as [Hm Ho Hbl Hft Had Hda].
  unfold pbuf_pullup. cbn [chain_len]. destruct (bytes <=? pb_buflen pb) eqn:E; bool_to_prop.
  { exists pb, c, nm. split_and!; try done; [do 3 f_equal; lia|lia]. }
  assert (∃ pb1, (if PBUF_DATA_SIZE <? bytes + pb_offset pb then
      if PBUF_DATA_SIZE <? bytes then Fault Assert
      else bs ← rd (db_mem (pb_data pb)) (pb_offset pb) (pb_buflen pb);
           m ← wr (db_mem (pb_data pb)) 0 bs; Ret (set_mem (set_win pb 0 (pb_buflen pb)) m)
    else Ret pb) = Ret pb1 ∧ pb_ok pb1 ∧ window pb1 = window pb ∧ pb_buflen pb1 = pb_buflen pb ∧
    pb_pktlen pb1 = pb_pktlen pb ∧ pb_flags pb1 = pb_flags pb ∧ same_ids [pb] [pb1] ∧
    pb_offset pb1 + bytes <= PBUF_DATA_SIZE) as (pb1 & -> & Hpb1 & Hw1 & Hl1 & Hp1 & Hf1 & Hid1 & Hfit).
  { destruct (_ <? bytes + _) eqn:E1; bool_to_prop; [|exists pb; split_and!; try done; lia].
    rewrite (proj2 (Z.ltb_ge _ bytes)) by lia. rewrite rd_window by (done || lia). cbn [mbind res_bind].
    rewrite take_ge by (rewrite window_length by done; lia).
    destruct (wr (db_mem (pb_data pb)) 0 (window pb)) as [m|] eqn:Ew.
    2: { rewrite wr_ok in Ew; [done|lia|]. rewrite window_length, Hm by done. lia. }
    cbn [mbind res_bind]. eexists. split; [done|].
    destruct (window_full (set_win pb 0 (pb_buflen pb)) (window pb) m Ew) as [Hk Hw].
    - split; cbn; try done; lia.
    - cbn. rewrite window_length by done. lia.
    - split_and!; try done. cbn. lia. }
  cbn [mbind res_bind]. cbn [chain_len] in Hp, Hl.
  destruct (pullup_loop_ok fuel nm pb1 c (bytes - pb_buflen pb1) Hnm) as
    (pb' & c' & nm' & -> & Hpay & Hc' & Hnm' & Hbl' & Hcv & He & Hs).
  - split; [by constructor|]. cbn [chain_len]. lia.
  - lia.
  - lia.
  - done.
  - exists pb', c', nm'. split_and!; try done.
    + do 3 f_equal. lia.
    + rewrite Hpay, !payload_cons. by rewrite Hw1.
    + lia.
    + eapply conserved_trans; [|exact Hcv]. apply conserved_same.
      destruct Hid1 as [[= E1] [= E2]]. split; rewrite !fmap_cons; cbn; by rewrite ?E1, ?E2.
    + intros He0. apply He. eapply eop_last_flags; [|exact He0]. rewrite !fmap_cons. by rewrite Hf1.
    + intros Hs0. apply Hs. cbn [starts] in *. by rewrite (has_flag_eq _ pb).
Qed.

(** ** Properties *)

(** [pbuf_read] copies out the first [len] bytes of the packet and leaves
    the rest of it as a well-formed packet; every buffer it emptied is back in
    the pools, and none is lost or duplicated. *)
Theorem pbuf_read_correct fuel nm c len :
  nm_ok nm → packet c → c ≠ [] → 0 <= len <= chain_len c → (length c < fuel)%nat →
  ∃ c' nm', pbuf_read fuel nm c len = Ret (take (Z.to_nat len) (payload c), c', nm') ∧
    payload c' = drop (Z.to_nat len) (payload c) ∧ packet c' ∧ nm_ok nm' ∧
    conserved nm c nm' c' ∧ (eop_last c → eop_last c').
Proof.
  intros Hnm Hc Hne Hlen Hf. unfold pbuf_read. destruct c as [|pb c]; [done|].
  rewrite (proj2 (Z.ltb_ge _ _)) by (rewrite (proj2 (proj2 Hc)); lia).
  by apply (read_loop_ok (pb :: c) nm [] len fuel).
Qed.

(** [pbuf_write] appends the data to the packet, fragment by fragment, when
    buffers start at offset 0: the result is a well-formed packet with its end
    mark on the last buffer; when no buffer can be had, the whole packet goes
    back to the pools (or the caller sleeps, if it asked to). *)
Theorem pbuf_write_correct fuel nm c pb data pp wait :
  nm_ok nm → packet (c ++ [pb]) → preferred_offset pp = 0 →
  0 < max_fragment_size pp <= PBUF_DATA_SIZE → pb_offset pb = 0 →
  pb_buflen pb <= max_fragment_size pp →
  chain_len (c ++ [pb]) + Z.of_nat (length data) < 65536 → (length data < fuel)%nat →
  no_buffer nm (c ++ [pb]) wait (pbuf_write fuel nm (c ++ [pb]) data pp wait) ∨
  ∃ c' nm', pbuf_write fuel nm (c ++ [pb]) data pp wait = Ret (c', nm') ∧ c' ≠ [] ∧
    payload c' = payload (c ++ [pb]) ++ data ∧ packet c' ∧ nm_ok nm' ∧
    conserved nm (c ++ [pb]) nm' c' ∧
    (eop_last (c ++ [pb]) → eop_last c') ∧ (starts (c ++ [pb]) → starts c').
Proof.
  intros. assert (∃ x l, c ++ [pb] = x :: l) as (x & l & E) by (destruct c; simpl; eauto).
  assert (pbuf_write fuel nm (c ++ [pb]) data pp wait = write_loop fuel nm (c ++ [pb]) data pp wait) as ->
    by by rewrite E.
  destruct (write_loop_ok fuel nm c pb data pp wait) as [?|(c' & nm' & ?)]; [done..|by left|].
  right. exists c', nm'. tauto.
Qed.

(** Several writes in a row are one write of everything, as long as buffers last. *)
Lemma pbuf_write_writable fuel nm c data pp wait :
  nm_ok nm → packet c → writable pp c → preferred_offset pp = 0 →
  0 < max_fragment_size pp <= PBUF_DATA_SIZE →
  chain_len c + Z.of_nat (length data) < 65536 → (length data < fuel)%nat →
  no_buffer nm c wait (pbuf_write fuel nm c data pp wait) ∨
  ∃ c' nm', pbuf_write fuel nm c data pp wait = Ret (c', nm') ∧ c' ≠ [] ∧
    payload c' = payload c ++ data ∧ packet c' ∧ nm_ok nm' ∧ conserved nm c nm' c' ∧
    (eop_last c → eop_last c') ∧ (starts c → starts c') ∧ writable pp c'.
Proof.
  intros Hnm Hp (c0 & pb & -> & Ho & Hb) Hpo Hmax Hl Hf.
  assert (∃ x l, c0 ++ [pb] = x :: l) as (x & l & E) by (destruct c0; simpl; eauto).
  assert (pbuf_write fuel nm (c0 ++ [pb]) data pp wait = write_loop fuel nm (c0 ++ [pb]) data pp wait) as ->
    by by rewrite E.
  by apply write_loop_ok.
Qed.

Lemma write_loop_stuck fuel nm c pb data pp wait :
  packet (c ++ [pb]) → max_fragment_size pp <= PBUF_DATA_SIZE → 0 < pb_offset pb →
  pb_offset pb + pb_buflen pb = max_fragment_size pp → data ≠ [] →
  chain_len (c ++ [pb]) + Z.of_nat (length data) < 65536 →
  write_loop fuel nm (c ++ [pb]) data pp wait = Fault NoFuel.
Proof.
  intros Hc Hmax Ho Hfull Hne Hlen. revert c pb Hc Ho Hfull Hlen.
  induction fuel as [|fuel IH]; intros c pb Hc Ho Hfull Hlen; [done|]. cbn [write_loop].
  destruct data as [|b data]; [done|].
  assert (write_room nm (c ++ [pb]) pp wait = Ret (Some (c ++ [pb]), nm)) as ->.
  { unfold write_room. rewrite last_snoc. by rewrite (proj2 (Z.leb_gt _ _)) by lia. }
  cbn [mbind res_bind].
  destruct (write_chunk_ok c pb pp (b :: data) Hc Hmax) as (c' & pb' & -> & Hc' & Hp' & Ho' & Hb' & _ & _);
    [lia|done|]. cbn [mbind res_bind].
  assert (Z.min (Z.of_nat (length (b :: data))) (max_fragment_size pp - pb_buflen pb - pb_offset pb) = 0)
    as E by (simpl length; lia).
  rewrite E in *. rewrite drop_0. apply IH; [done|lia|lia|].
  rewrite <- payload_length in * by (apply Hc || apply Hc'). rewrite Hp', take_0, app_nil_r. done.
Qed.

(** With a non-zero preferred offset (as L2CAP channels have), a write of
    more than fits in the first buffer never finishes: the buffer is filled up to
    offset + length = maximum, but the test for a full buffer looks at the length
    alone, so no new buffer is taken and zero bytes are copied forever. *)
Theorem pbuf_write_offset_hangs fuel nm pb data pp wait :
  packet [pb] → pb_buflen pb = 0 → pb_offset pb = preferred_offset pp →
  0 < preferred_offset pp < max_fragment_size pp → max_fragment_size pp <= PBUF_DATA_SIZE →
  max_fragment_size pp - preferred_offset pp < Z.of_nat (length data) < 65536 →
  pbuf_write fuel nm [pb] data pp wait = Fault NoFuel.
Proof.
  intros Hc Hb Ho Hpo Hmax Hlen. unfold pbuf_write. destruct fuel as [|fuel]; [done|]. cbn [write_loop].
  destruct data as [|b data]; [simpl in Hlen; lia|].
  assert (write_room nm [pb] pp wait = Ret (Some [pb], nm)) as ->.
  { unfold write_room. cbn [last]. by rewrite (proj2 (Z.leb_gt _ _)) by lia. }
  cbn [mbind res_bind].
  destruct (write_chunk_ok [] pb pp (b :: data) Hc Hmax) as (c' & pb' & E & Hc' & Hp' & Ho' & Hb' & _ & _);
    [lia|cbn [app chain_len]; lia|]. cbn [app] in E. rewrite E. cbn [mbind res_bind].
  set (n := Z.min _ _) in *. assert (n = max_fragment_size pp - preferred_offset pp) as En by lia.
  apply write_loop_stuck; [done|done|lia|lia| |].
  - intros Hd. apply (f_equal length) in Hd. rewrite length_drop in Hd. simpl length in *. lia.
  - rewrite <- payload_length by apply Hc'. rewrite Hp', length_app, length_take, length_drop.
    pose proof (payload_length _ (proj1 Hc)) as Hpl. cbn [app chain_len] in *. lia.
Qed.

(** [pbuf_drop] removes bytes from the front: the rest is a well-formed
    packet that still starts with the start mark, buffers that became empty are
    back in the pools, the packet is gone altogether exactly when everything was
    dropped and [free_when_empty] is set, and dropping more than there is
    panics. *)
Theorem pbuf_drop_correct fuel nm c bytes fwe :
  nm_ok nm → packet c → c ≠ [] → 0 <= bytes → (length c < fuel)%nat →
  (chain_len c < bytes ∧ pbuf_drop fuel nm c bytes fwe = Fault Panic) ∨
  ∃ c' nm', pbuf_drop fuel nm c bytes fwe = Ret (c', nm') ∧
    payload c' = drop (Z.to_nat bytes) (payload c) ∧ packet c' ∧ nm_ok nm' ∧
    conserved nm c nm' c' ∧ (eop_last c → eop_last c') ∧ (starts c → starts c') ∧
    (c' = [] ↔ fwe = true ∧ bytes = chain_len c).
Proof.
  intros Hnm Hc Hne Hb Hf. destruct (decide (chain_len c < bytes)) as [Hgt|Hle].
  - left. split; [done|]. destruct c as [|pb c]; [done|]. destruct fuel as [|fuel]; [lia|].
    cbn [pbuf_drop drop_loop]. by rewrite (proj2 (Z.ltb_lt _ _)) by (rewrite (proj2 (proj2 Hc)); lia).
  - right. destruct c as [|pb c]; [done|]. apply drop_loop_ok; try done; lia.
Qed.

(** [pbuf_trim] removes bytes from the end: what is left is the front of the
    packet, well formed, with the end mark on the new last buffer and the emptied
    buffers back in the pools. *)
Theorem pbuf_trim_correct fuel nm c bytes :
  nm_ok nm → packet c → c ≠ [] → 0 <= bytes <= chain_len c → (length c < fuel)%nat →
  ∃ c' nm', pbuf_trim fuel nm c bytes = Ret (c', nm') ∧ c' ≠ [] ∧
    payload c' = take (Z.to_nat (chain_len c - bytes)) (payload c) ∧ packet c' ∧ nm_ok nm' ∧
    conserved nm c nm' c' ∧ (eop_last c → eop_last c') ∧ (starts c → starts c').
Proof. apply pbuf_trim_ok. Qed.

(** [pbuf_prepend] makes room for a header of [bytes] bytes at the front of
    the first buffer, with [extra_offset] bytes free before it, in place when the
    buffer has the room and in a new first buffer otherwise; the data that was
    there follows unchanged. *)
Theorem pbuf_prepend_correct nm c bytes wait extra :
  nm_ok nm → packet c → c ≠ [] → 0 <= bytes → 0 <= extra → bytes + extra <= PBUF_DATA_SIZE →
  chain_len c + bytes < 65536 →
  no_buffer nm c wait (pbuf_prepend nm c bytes wait extra) ∨
  ∃ pb c' nm' hole, pbuf_prepend nm c bytes wait extra = Ret (pb :: c', nm') ∧
    length hole = Z.to_nat bytes ∧ payload (pb :: c') = hole ++ payload c ∧ take (length hole) (window pb) = hole ∧
    extra <= pb_offset pb ∧ packet (pb :: c') ∧ nm_ok nm' ∧ conserved nm c nm' (pb :: c') ∧
    (eop_last c → eop_last (pb :: c')) ∧ (starts c → has_flag pb PBUF_SOP = true).
Proof. apply pbuf_prepend_ok. Qed.

(** After [pbuf_pullup] the packet holds the same bytes, and its first
    buffer holds at least [bytes] of them contiguously; when the packet is
    shorter, the number of missing bytes is returned. *)
Theorem pbuf_pullup_correct fuel nm pb c bytes :
  nm_ok nm → packet (pb :: c) → 0 <= bytes <= PBUF_DATA_SIZE → (length c < fuel)%nat →
  ∃ pb' c' nm', pbuf_pullup fuel nm (pb :: c) bytes =
      Ret (Z.max 0 (bytes - chain_len (pb :: c)), pb' :: c', nm') ∧
    payload (pb' :: c') = payload (pb :: c) ∧ packet (pb' :: c') ∧ nm_ok nm' ∧
    Z.min bytes (chain_len (pb :: c)) <= pb_buflen pb' ∧ conserved nm (pb :: c) nm' (pb' :: c') ∧
    (eop_last (pb :: c) → eop_last (pb' :: c')) ∧ (starts (pb :: c) → starts (pb' :: c')).
Proof. apply pbuf_pullup_ok. Qed.

(** [pbuf_copy_pkt] makes a packet of its own buffers with the same bytes,
    lengths and flags, or takes nothing. *)
Theorem pbuf_copy_pkt_correct stale nm c wait :
  nm_ok nm → packet c → Forall (λ x, has_flag x PBUF_SOP = false) (tail c) →
  no_buffer nm [] wait (pbuf_copy_pkt stale nm c wait) ∨
  ∃ c' nm', pbuf_copy_pkt stale nm c wait = Ret (c', nm') ∧ nm_ok nm' ∧ packet c' ∧
    payload c' = payload c ∧ pb_flags <$> c' = pb_flags <$> c ∧ conserved nm [] nm' c'.
Proof.
  intros Hnm (Hok & Hl & Hp) Hsop. unfold pbuf_copy_pkt.
  destruct (copy_loop_ok stale nm c wait [] Hnm Hok (Forall_nil_2 _) Hsop)
    as [?|(c' & nm' & -> & Hnm' & Hc' & Hpay & Hfl & Hpl & Hcv)]; [by left|].
  right. exists c', nm'.
  assert (chain_len c' = chain_len c) as Hcl by (rewrite <- !payload_length by done; by rewrite Hpay).
  split_and!; try done. split; [done|]. rewrite Hcl. split; [done|].
  destruct c as [|x c], c' as [|y c']; try done. rewrite !fmap_cons in Hpl. by injection Hpl as -> _.
Qed.

Lemma seek_ok c1 pb c2 offset :
  Forall pb_ok c1 → chain_len c1 <= offset < chain_len c1 + pb_buflen pb →
  seek (c1 ++ pb :: c2) offset = Some (pb :: c2, offset - chain_len c1).
Proof.
  intros Hok. revert offset. induction Hok as [|x c1 Hx Hok IH]; intros offset Ho; cbn [chain_len] in Ho; simpl.
  - rewrite (proj2 (Z.leb_gt _ _)) by lia. do 2 f_equal. lia.
  - pose proof (chain_len_nonneg _ Hok). destruct Hx. rewrite (proj2 (Z.leb_le _ _)) by lia.
    rewrite IH by lia. do 2 f_equal. lia.
Qed.

(** [pbuf_read_at] returns the bytes at an offset when the range lies in one
    buffer of the chain.  When it does not, the part taken from the first buffer
    is computed without subtracting the offset within that buffer, so the copy
    runs past its data: reading 4 bytes at offset 2 of a packet of two 4-byte
    buffers gives two bytes that are not in the packet. *)
Theorem pbuf_read_at_correct :
  (∀ c1 pb c2 offset len, Forall pb_ok (c1 ++ pb :: c2) → 0 < len →
     chain_len c1 <= offset → offset + len <= chain_len c1 + pb_buflen pb →
     pbuf_read_at (c1 ++ pb :: c2) offset len =
       Ret (0, take (Z.to_nat len) (drop (Z.to_nat offset) (payload (c1 ++ pb :: c2))))) ∧
  (let b1 := mk_pbuf 4 PBUF_SOP 0 8 0 4 (mk_dbuf 8 ([1; 2; 3; 4] ++ replicate 508 0)) in
   let b2 := mk_pbuf 12 PBUF_EOP 0 0 0 4 (mk_dbuf 16 ([5; 6; 7; 8] ++ replicate 508 0)) in
   payload [b1; b2] = [1; 2; 3; 4; 5; 6; 7; 8] ∧ pbuf_read_at [b1; b2] 2 4 = Ret (0, [3; 4; 0; 0])).
Proof.
  split; [|split; vm_compute; reflexivity].
  intros c1 pb c2 offset len Hok Hl Ho1 Ho2. apply Forall_app in Hok as [Hok1 Hok2].
  apply Forall_cons_1 in Hok2 as [Hpb Hok2]. pose proof Hpb as [Hm Ho Hbl Hft _ _].
  unfold pbuf_read_at. rewrite seek_ok by (done || lia). cbn [gather].
  rewrite (proj2 (Z.eqb_neq len 0)), Z.min_l by lia. rewrite rd_ok by (unfold PBUF_DATA_SIZE in *; lia).
  cbn [mbind res_bind app]. rewrite Z.sub_diag. destruct c2; cbn [gather Z.eqb].
  all: do 2 f_equal; rewrite payload_app, drop_app_add by (pose proof (payload_length _ Hok1); lia);
    rewrite payload_cons; unfold window; pose proof (payload_length _ Hok1);
    rewrite drop_app_le, skipn_firstn_comm, drop_drop by (rewrite length_take, length_drop, Hm;
      unfold PBUF_DATA_SIZE in *; lia);
    rewrite take_app_le, take_take by (rewrite length_take, length_drop, Hm;
      unfold PBUF_DATA_SIZE in *; lia);
    rewrite Nat.min_l by lia; do 2 f_equal; lia.
Qed.

(** ** Concrete packets *)

Definition empty_pool {A} : pool A := mk_pool [] 0 0 0.
Definition example_nm : netmem :=
  match pbuf_data_add 10 (mk_netmem empty_pool empty_pool) (λ _, 4096) 65536 67584 with
  | Ret nm => nm
  | Fault _ => mk_netmem empty_pool empty_pool
  end.
Definition example_buf (a flags pktlen off : Z) (data : list Z) : pbuf :=
  mk_pbuf a flags 0 pktlen off (Z.of_nat (length data))
    (mk_dbuf (a + 8192) (replicate (Z.to_nat off) 0 ++ data ++
       replicate (512 - Z.to_nat off - length data) 0)).
Definition example_pkt : list pbuf :=
  [example_buf 64 PBUF_SOP 7 8 [1; 2; 3]; example_buf 80 PBUF_EOP 0 0 [4; 5; 6; 7]].

Ltac eval_packet :=
  repeat match goal with
  | |- _ ∧ _ => split
  | |- Forall _ _ => constructor
  | |- pb_ok _ => split
  end; vm_compute; (reflexivity || done || (intros; discriminate)).

Lemma example_nm_ok : nm_ok example_nm.
Proof. unfold nm_ok, pool_ok, example_nm. vm_compute pbuf_data_add. cbv iota beta. eval_packet. Qed.
Lemma example_pkt_ok : packet example_pkt.
Proof. unfold packet, example_pkt. eval_packet. Qed.
Lemma example_single_ok : packet [example_buf 64 3 3 0 [1; 2; 3]].
Proof. unfold packet. eval_packet. Qed.

Lemma pbuf_read_correct_witness :
  ∃ c' nm', pbuf_read 3 example_nm example_pkt 5 = Ret ([1; 2; 3; 4; 5], c', nm') ∧
    payload c' = [6; 7] ∧ packet c' ∧ nm_ok nm' ∧ conserved example_nm example_pkt nm' c' ∧
    (eop_last example_pkt → eop_last c').
Proof.
  apply (pbuf_read_correct 3 example_nm example_pkt 5 example_nm_ok example_pkt_ok);
    [done|vm_compute; by split|simpl; lia].
Defined.

Lemma pbuf_write_correct_witness :
  let pb := example_buf 64 3 3 0 [1; 2; 3] in
  let pp := mk_pushpull 4 0 in
  no_buffer example_nm [pb] false (pbuf_write 9 example_nm [pb] [4; 5; 6] pp false) ∨
  ∃ c' nm', pbuf_write 9 example_nm [pb] [4; 5; 6] pp false = Ret (c', nm') ∧ c' ≠ [] ∧
    payload c' = [1; 2; 3; 4; 5; 6] ∧ packet c' ∧ nm_ok nm' ∧ conserved example_nm [pb] nm' c' ∧
    (eop_last [pb] → eop_last c') ∧ (starts [pb] → starts c').
Proof.
  apply (pbuf_write_correct 9 example_nm [] (example_buf 64 3 3 0 [1; 2; 3]) [4; 5; 6] (mk_pushpull 4 0) false
    example_nm_ok example_single_ok); vm_compute; try (split; reflexivity || discriminate);
    try reflexivity; try discriminate; lia.
Defined.

Lemma pbuf_write_offset_hangs_witness :
  pbuf_write 1000 example_nm [example_buf 64 3 0 12 []] (replicate 10 7) (mk_pushpull 16 12) true
    = Fault NoFuel.
Proof.
  apply (pbuf_write_offset_hangs 1000 example_nm (example_buf 64 3 0 12 []) (replicate 10 7)
    (mk_pushpull 16 12) true); [unfold packet; eval_packet|reflexivity|reflexivity|simpl; lia|
    vm_compute; discriminate|simpl; lia].
Defined.

Lemma pbuf_drop_correct_witness :
  (chain_len example_pkt < 3 ∧ pbuf_drop 3 example_nm example_pkt 3 true = Fault Panic) ∨
  ∃ c' nm', pbuf_drop 3 example_nm example_pkt 3 true = Ret (c', nm') ∧
    payload c' = [4; 5; 6; 7] ∧ packet c' ∧ nm_ok nm' ∧ conserved example_nm example_pkt nm' c' ∧
    (eop_last example_pkt → eop_last c') ∧ (starts example_pkt → starts c') ∧
    (c' = [] ↔ true = true ∧ 3 = chain_len example_pkt).
Proof.
  apply (pbuf_drop_correct 3 example_nm example_pkt 3 true example_nm_ok example_pkt_ok);
    [done|lia|simpl; lia].
Defined.

Lemma pbuf_trim_correct_witness :
  ∃ c' nm', pbuf_trim 3 example_nm example_pkt 5 = Ret (c', nm') ∧ c' ≠ [] ∧
    payload c' = [1; 2] ∧ packet c' ∧ nm_ok nm' ∧ conserved example_nm example_pkt nm' c' ∧
    (eop_last example_pkt → eop_last c') ∧ (starts example_pkt → starts c').
Proof.
  apply (pbuf_trim_correct 3 example_nm example_pkt 5 example_nm_ok example_pkt_ok);
    [done|vm_compute; by split|simpl; lia].
Defined.

Lemma pbuf_prepend_correct_witness :
  no_buffer example_nm example_pkt false (pbuf_prepend example_nm example_pkt 10 false 4) ∨
  ∃ pb c' nm' hole, pbuf_prepend example_nm example_pkt 10 false 4 = Ret (pb :: c', nm') ∧
    length hole = 10%nat ∧ payload (pb :: c') = hole ++ payload example_pkt ∧
    take (length hole) (window pb) = hole ∧ 4 <= pb_offset pb ∧ packet (pb :: c') ∧ nm_ok nm' ∧
    conserved example_nm example_pkt nm' (pb :: c') ∧
    (eop_last example_pkt → eop_last (pb :: c')) ∧ (starts example_pkt → has_flag pb PBUF_SOP = true).
Proof.
  apply (pbuf_prepend_correct example_nm example_pkt 10 false 4 example_nm_ok example_pkt_ok);
    [done|lia|lia|vm_compute; discriminate|vm_compute; reflexivity].
Defined.

Lemma pbuf_pullup_correct_witness :
  ∃ pb' c' nm', pbuf_pullup 2 example_nm example_pkt 6 = Ret (0, pb' :: c', nm') ∧
    payload (pb' :: c') = [1; 2; 3; 4; 5; 6; 7] ∧ packet (pb' :: c') ∧ nm_ok nm' ∧
    6 <= pb_buflen pb' ∧ conserved example_nm example_pkt nm' (pb' :: c') ∧
    (eop_last example_pkt → eop_last (pb' :: c')) ∧ (starts example_pkt → starts (pb' :: c')).
Proof.
  apply (pbuf_pullup_correct 2 example_nm (example_buf 64 PBUF_SOP 7 8 [1; 2; 3])
    [example_buf 80 PBUF_EOP 0 0 [4; 5; 6; 7]] 6 example_nm_ok example_pkt_ok);
    [vm_compute; split; discriminate|simpl; lia].
Defined.

Lemma pbuf_copy_pkt_correct_witness :
  no_buffer example_nm [] false (pbuf_copy_pkt (λ _, 0) example_nm example_pkt false) ∨
  ∃ c' nm', pbuf_copy_pkt (λ _, 0) example_nm example_pkt false = Ret (c', nm') ∧ nm_ok nm' ∧ packet c' ∧
    payload c' = payload example_pkt ∧ pb_flags <$> c' = pb_flags <$> example_pkt ∧
    conserved example_nm [] nm' c'.
Proof.
  apply (pbuf_copy_pkt_correct (λ _, 0) example_nm example_pkt false example_nm_ok example_pkt_ok).
  constructor; [vm_compute; reflexivity|constructor].
Defined.
