(* ===== verification/Eventlog.v ===== *)
(** * Eventlog: the system event log ([src/kernel/eventlog.c], [mios/eventlog.h],
    [mios/eventlog_follower.h])

    The log is a byte ring of [EVENTLOG_SIZE] bytes, a power of two, addressed by
    16-bit indices that run past its end.  A record is its length, a byte with level
    and length of the time stamp, the message, and the time since the record before
    it.  Records are written in place behind [head]; what is in the way is erased from
    [tail], oldest first.  Readers are followers, each with an index of its own, which
    the erasure pushes along and counts.

    [evlog] is the fifo; [enc] is a record as bytes, and [log_ok ef es] says that the
    ring holds the records [es].  [log_step] is the interleaving of writers and a
    reader.  Formatting is [Stdio]'s engine with [evl_fmt_cb] as its callback, the
    network service builds its packets with [Pbuf]. *)

From Stdlib Require Import ZArith Lia.
From stdpp Require Import base list numbers strings relations.
From S2P Require Import Prelude Stdio Datetime Pbuf.

Open Scope Z_scope.

Definition LOG_ERR : Z := 3.
Definition LOG_INFO : Z := 6.
Definition LOG_DEBUG : Z := 7.
Definition ERR_NO_MEMORY : Z := -29.

(** [evlog_follower_t]; [f_id] stands for its address, the call of its callback is an
    entry of [ev_calls]. *)
Record follower := Follower { f_id : nat; f_ptr : Z; f_drops : Z }.

(** [evlog_fifo_t]; [ev_mutex]: some thread holds the mutex. *)
Record evlog := Evlog {
  ts_tail : Z;
  ts_head : Z;
  ev_mutex : bool;
  followers : list follower;
  ev_head : Z;
  ev_tail : Z;
  seq_tail : Z;
  ev_data : list Z;
  ev_calls : list nat }.

Definition set_data (d : list Z) (ef : evlog) : evlog :=
  Evlog (ts_tail ef) (ts_head ef) (ev_mutex ef) (followers ef) (ev_head ef) (ev_tail ef)
    (seq_tail ef) d (ev_calls ef).
Definition set_followers (fs : list follower) (ef : evlog) : evlog :=
  Evlog (ts_tail ef) (ts_head ef) (ev_mutex ef) fs (ev_head ef) (ev_tail ef) (seq_tail ef)
    (ev_data ef) (ev_calls ef).
Definition set_times (t h : Z) (ef : evlog) : evlog :=
  Evlog t h (ev_mutex ef) (followers ef) (ev_head ef) (ev_tail ef) (seq_tail ef) (ev_data ef)
    (ev_calls ef).
Definition set_mutex (b : bool) (ef : evlog) : evlog :=
  Evlog (ts_tail ef) (ts_head ef) b (followers ef) (ev_head ef) (ev_tail ef) (seq_tail ef)
    (ev_data ef) (ev_calls ef).

(** [mutex_lock] on a mutex that is held puts the caller to sleep. *)
Definition mutex_lock (ef : evlog) : res evlog :=
  if ev_mutex ef then Fault Blocked else Ret (set_mutex true ef).
Definition mutex_unlock (ef : evlog) : evlog := set_mutex false ef.

Section Log.
(** [EVENTLOG_SIZE] is [2 ^ bits]. *)
Context (bits : Z).
Definition EVENTLOG_SIZE : Z := 2 ^ bits.
Definition EVENTLOG_MASK : Z := EVENTLOG_SIZE - 1.

Definition ix (x : Z) : nat := Z.to_nat (Z.land x EVENTLOG_MASK).
(** [ef->data[x & EVENTLOG_MASK]], read and written. *)
Definition rb (d : list Z) (x : Z) : Z := default 0 (d !! ix x).
Definition wb (x v : Z) (d : list Z) : list Z := <[ix x := u8 v]> d.

Definition evl_used (ef : evlog) : Z := u16 (ev_head ef - ev_tail ef).
Definition evl_avail (ef : evlog) : Z := u32 (EVENTLOG_SIZE - evl_used ef).

(** The loop of [evfifo_read_delta_ts], from [i = n - 1] down. *)
Fixpoint delta_loop (d : list Z) (ptr : Z) (n : nat) (r : Z) : Z :=
  match n with
  | O => r
  | S i => delta_loop d ptr i (Z.lor (s64 (Z.shiftl r 8)) (rb d (ptr + Z.of_nat i)))
  end.
Definition evfifo_read_delta_ts (d : list Z) (ptr : Z) : Z :=
  let len := rb d ptr in
  let tlen := Z.land (Z.shiftr (rb d (ptr + 1)) 3) 7 in
  let ptr := u16 (ptr + (len - tlen)) in
  delta_loop d ptr (Z.to_nat tlen) 0.

Definition drop_follower (tail len : Z) (f : follower) : follower :=
  if f_ptr f =? tail then Follower (f_id f) (u16 (f_ptr f + len)) (u16 (f_drops f + 1)) else f.

Definition evl_erase_tail (ef : evlog) : evlog :=
  if ev_head ef =? ev_tail ef then ef
  else
    let ts := s64 (ts_tail ef + evfifo_read_delta_ts (ev_data ef) (ev_tail ef)) in
    let len := rb (ev_data ef) (ev_tail ef) in
    Evlog ts (ts_head ef) (ev_mutex ef) (drop_follower (ev_tail ef) len <$> followers ef)
      (ev_head ef) (u16 (ev_tail ef + len)) (u32 (seq_tail ef + 1)) (ev_data ef) (ev_calls ef).

Fixpoint ensure_loop (fuel : nat) (size : Z) (ef : evlog) : res evlog :=
  match fuel with
  | O => Fault NoFuel
  | S f => if evl_avail ef <? size then ensure_loop f size (evl_erase_tail ef) else Ret ef
  end.
(** [evl_ensure]: a record has at least one byte, so that many rounds are enough. *)
Definition evl_ensure (size : Z) (ef : evlog) : res evlog :=
  ensure_loop (S (Z.to_nat EVENTLOG_SIZE)) size ef.

Definition max_entry_size : Z := Z.min (Z.quot EVENTLOG_SIZE 4) 192.

(** [for(i = 0; i < to_copy; i++) data[(x + i) & MASK] = s[i]] *)
Fixpoint wbs (x : Z) (s : list Z) (d : list Z) : list Z :=
  match s with
  | [] => d
  | c :: s => wbs (x + 1) s (wb x c d)
  end.

(** [MIN] compares as [size_t]. *)
Definition evl_fmt_cb : fmtcb evlog := λ s ef,
  let head := ev_head ef in
  let curlen := rb (ev_data ef) head in
  let to_copy := s32 (Z.min (Z.of_nat (length s)) (u32 (max_entry_size - curlen))) in
  ef ← evl_ensure (curlen + to_copy) ef;
  let d := wbs (head + curlen) (take (Z.to_nat to_copy) s) (ev_data ef) in
  Ret (to_copy, set_data (wb head (curlen + to_copy) d) ef).

(** The bytes of the time stamp: [while(dts)] counts them, the copy loop stores them
    low byte first.  A positive 64-bit value has eight at most. *)
Fixpoint ts_bytes_n (n : nat) (dts : Z) : list Z :=
  match n with
  | O => []
  | S n => if dts =? 0 then [] else u8 dts :: ts_bytes_n n (Z.shiftr dts 8)
  end.
Definition ts_bytes (dts : Z) : list Z := ts_bytes_n 8 dts.

Definition evlog_msg_done (level now : Z) (ef : evlog) : res evlog :=
  let head := ev_head ef in
  let msg_len := rb (ev_data ef) head in
  let delta_ts := s64 (now - ts_head ef) in
  let delta_ts := if delta_ts <? 0 then 0 else delta_ts in
  let ts_len := Z.of_nat (length (ts_bytes delta_ts)) in
  ef ← evl_ensure (msg_len + ts_len) ef;
  let d := wbs (head + msg_len) (ts_bytes delta_ts) (ev_data ef) in
  let d := wb head (msg_len + ts_len) d in
  let d := wb (head + 1) (Z.lor level (Z.shiftl ts_len 3)) d in
  Ret (mutex_unlock
        (Evlog (ts_tail ef) now (ev_mutex ef) (followers ef)
           (u16 (ev_head ef + (msg_len + ts_len))) (ev_tail ef) (seq_tail ef) d
           (ev_calls ef ++ (f_id <$> followers ef)))).

(** What [evlog] and [evlog_stream_begin] share: lock, make room for the two bytes in
    front, and start a record. *)
Definition begin_record (now : Z) (ef : evlog) : res evlog :=
  ef ← mutex_lock ef;
  ef ← evl_ensure 2 ef;
  let ef := if ev_head ef =? ev_tail ef then set_times now now ef else ef in
  Ret (set_data (wb (ev_head ef) 2 (ev_data ef)) ef).

(** The copy of a message that the calling thread's stream gets, and its newline. *)
Definition evlog_echo {St} (write : list Z → emit St Z) (fmt : list Z) (ap : list arg)
    : emit St unit :=
  _ ← vstprintf write false (Some fmt) ap;
  _ ← write [10];
  mret tt.

(** [evlog] behind the echo. *)
Definition evlog_record (now level : Z) (fmt : list Z) (ap : list arg) (ef : evlog) : res evlog :=
  ef ← begin_record now ef;
  '(_, ef) ← fmtv evl_fmt_cb false fmt ap ef;
  evlog_msg_done level now ef.

(** [evlog] by a thread with stream [write], or without one. *)
Definition evlog_call {St} (write : option (list Z → emit St Z)) (now level : Z) (fmt : list Z)
    (ap : list arg) (st : St) (ef : evlog) : res (St * evlog) :=
  st ← match write with
       | Some w => '(_, st) ← evlog_echo w fmt ap st; Ret st
       | None => Ret st
       end;
  ef ← evlog_record now level fmt ap ef;
  Ret (st, ef).

(** The stream that writes into the log. *)
Definition stream_to_log_write (buf : list Z) : emit evlog Z := λ ef,
  '(_, ef) ← evl_fmt_cb buf ef;
  Ret (Z.of_nat (length buf), ef).
Definition evlog_stream_begin (now : Z) (ef : evlog) : res evlog := begin_record now ef.
Definition evlog_stream_end (level now : Z) (ef : evlog) : res evlog := evlog_msg_done level now ef.

(** ** Followers *)

Definition find_follower (id : nat) (ef : evlog) : option follower :=
  list_find (λ f, f_id f = id) (followers ef) ≫= λ p, Some p.2.
Definition insert_follower (id : nat) (drops : Z) (ef : evlog) : evlog :=
  set_followers (Follower id (ev_tail ef) drops :: followers ef) ef.
Definition remove_follower (id : nat) (ef : evlog) : evlog :=
  set_followers (filter (λ f, f_id f ≠ id) (followers ef)) ef.
Definition move_follower (id : nat) (ptr : Z) (ef : evlog) : evlog :=
  set_followers ((λ f, if decide (f_id f = id) then Follower id ptr (f_drops f) else f)
                   <$> followers ef) ef.

(** The caller's structure comes with its [drops]. *)
Definition evfifo_follower_register (id : nat) (drops : Z) (ef : evlog) : res evlog :=
  ef ← mutex_lock ef;
  Ret (mutex_unlock (insert_follower id drops ef)).
Definition evfifo_follower_unregister (id : nat) (ef : evlog) : res evlog :=
  ef ← mutex_lock ef;
  Ret (mutex_unlock (remove_follower id ef)).

(** The fields of a record that every reader computes. *)
Definition rec_len (d : list Z) (ptr : Z) : Z := rb d ptr.
Definition rec_level (d : list Z) (ptr : Z) : Z := Z.land (rb d (ptr + 1)) 7.
Definition rec_msglen (d : list Z) (ptr : Z) : Z :=
  u16 (rb d ptr - 2 - Z.land (Z.shiftr (rb d (ptr + 1)) 3) 7).
Definition rec_start (ptr : Z) : Z := Z.land (ptr + 2) EVENTLOG_MASK.

(** The copy of [n] bytes from [start], in one piece or two. *)
Definition copy_out (d : list Z) (start n : Z) : res (list Z) :=
  let end_ := Z.land (start + n) EVENTLOG_MASK in
  if start <=? end_ then rd d start n
  else
    a ← rd d start (EVENTLOG_SIZE - start);
    b ← rd d 0 end_;
    Ret (a ++ b).

(** [stream_log]: a pass of the loop with the mutex held, up to where it is given up or
    the loop ends.  [LLine]: the record to print; [LWait]: sleep until a record arrives;
    [LEnd]: all is shown; [LNoMem]: no memory for the copy. *)
Inductive log_out :=
| LLine (ts level : Z) (msg : list Z)
| LEnd
| LWait
| LNoMem.

Definition stream_log_begin (id : nat) (drops : Z) (ef : evlog) : res (Z * evlog) :=
  ef ← mutex_lock ef;
  Ret (ts_tail ef, insert_follower id drops ef).

Definition stream_log_pass (id : nat) (follow alloc : bool) (ts : Z) (ef : evlog)
    : res (log_out * Z * evlog) :=
  match find_follower id ef with
  | None => Fault OutOfBounds
  | Some f =>
      let ptr := f_ptr f in
      let d := ev_data ef in
      if ptr =? ev_head ef then
        Ret (if follow then (LWait, ts, mutex_unlock ef) else (LEnd, ts, ef))
      else
        let ts := s64 (ts + evfifo_read_delta_ts d ptr) in
        if negb alloc then Ret (LNoMem, ts, ef)
        else
          msg ← copy_out d (rec_start ptr) (rec_msglen d ptr);
          let ef := move_follower id (u16 (ptr + rec_len d ptr)) ef in
          Ret (LLine ts (rec_level d ptr) msg, ts, mutex_unlock ef)
  end.

(** Behind the loop: the follower leaves the list. *)
Definition stream_log_end (id : nat) (ef : evlog) : evlog := mutex_unlock (remove_follower id ef).

Definition level2str : list (list Z) :=
  lit <$> ["EMERG "; "ALERT "; "CRIT  "; "ERROR "; "WARN  "; "NOTICE"; "INFO  "; "DEBUG "]%string.
Definition level_str (level : Z) : list Z := default [] (level2str !! Z.to_nat level).

(** Arguments of the date, and of the time since the event. *)
Definition date_fmt : list Z := lit "%04d-%02d-%02d %02d:%02d:%02d.%03d".
Definition date_args (w : wallclock) (tz_offset ts : Z) : list arg :=
  let ts := s64 (ts + utc_offset w) in
  let secs := s32 (Z.quot ts 1000000) in
  let usecs := s32 (Z.rem ts 1000000) in
  let dt := datetime_from_unixtime (u32 (secs + tz_offset)) in
  AInt <$> [year dt; mon dt; mday dt; hour dt; Datetime.min dt; sec dt; Z.quot usecs 1000].
Definition zone_fmt (tz_offset : Z) : list Z :=
  if tz_offset =? 0 then lit "Z" else lit " +%02d:%02d".
Definition zone_args (tz_offset : Z) : list arg :=
  if tz_offset =? 0 then []
  else let tzm := Z.quot tz_offset 60 in AInt <$> [Z.quot tzm 60; Z.rem tzm 60].

Section Print.
Context {St : Type} (write : list Z → emit St Z).

Definition print_timestamp_to_stream (w : wallclock) (tz_offset now ts : Z) : emit St unit :=
  match source w with
  | _ :: _ =>
      _ ← vstprintf write false (Some date_fmt) (date_args w tz_offset ts);
      _ ← vstprintf write false (Some (zone_fmt tz_offset)) (zone_args tz_offset);
      mret tt
  | [] =>
      let ms_ago := s32 (Z.quot (s64 (now - ts)) 1000) in
      _ ← vstprintf write false (Some (lit "%5d.%03d"))
            [AInt (- Z.quot ms_ago 1000); AInt (Z.rem ms_ago 1000)];
      mret tt
  end.

(** What [stream_log] writes for a record. *)
Definition print_line (w : wallclock) (tz_offset now ts level : Z) (msg : list Z) : emit St unit :=
  _ ← print_timestamp_to_stream w tz_offset now ts;
  _ ← vstprintf write false (Some (lit " %s : ")) [AStr (Some (level_str level ++ [0]))];
  _ ← write msg;
  _ ← write [10];
  mret tt.
End Print.

(** [stream_log] without [follow] and with nobody else at work between its passes: the
    lines it fetches. *)
Fixpoint stream_log_run (fuel : nat) (id : nat) (ts : Z) (ef : evlog)
    : res (list (Z * Z * list Z) * evlog) :=
  match fuel with
  | O => Fault NoFuel
  | S f =>
      '(o, ts, ef) ← stream_log_pass id false true ts ef;
      match o with
      | LLine t level msg =>
          ef ← mutex_lock ef;
          '(ls, ef) ← stream_log_run f id ts ef;
          Ret ((t, level, msg) :: ls, ef)
      | _ => Ret ([], stream_log_end id ef)
      end
  end.
Definition stream_log (fuel : nat) (id : nat) (ef : evlog) : res (list (Z * Z * list Z) * evlog) :=
  '(ts, ef) ← stream_log_begin id 0 ef;
  stream_log_run fuel id ts ef.

(** ** The network service *)

(** [evlog_svc_follower_t] without its follower, which is the one with this id. *)
Record evlog_svc := EvlogSvc { esf_id : nat; esf_ts : Z; esf_p : pushpull }.

Definition svc_hdr (disc : bool) (level tslen : Z) : Z :=
  Z.lor (Z.lor (if disc then 64 else 0) level) (Z.shiftl tslen 3).

Definition pbuf_writes (fuel : nat) (nm : netmem) (c : list pbuf) (pieces : list (list Z))
    (pp : pushpull) : res (list pbuf * netmem) :=
  foldl (λ m s, '(c, nm) ← m; pbuf_write fuel nm c s pp false) (Ret (c, nm)) pieces.

(** The message in one piece or two, as [copy_out] has it. *)
Definition msg_pieces (d : list Z) (start n : Z) : res (list (list Z)) :=
  let end_ := Z.land (start + n) EVENTLOG_MASK in
  if start <=? end_ then a ← rd d start n; Ret [a]
  else
    a ← rd d start (EVENTLOG_SIZE - start);
    b ← rd d 0 end_;
    Ret [a; b].

(** A packet with these pieces in it, [[]] when there is no buffer. *)
Definition make_packet (fuel : nat) (nm : netmem) (pp : pushpull) (pieces : res (list (list Z)))
    : res (list pbuf * netmem) :=
  '(pb, nm) ← pbuf_make0 nm (preferred_offset pp) false;
  match pb with
  | None => Ret ([], nm)
  | Some pb => ps ← pieces; pbuf_writes fuel nm [pb] ps pp
  end.

(** [evlog_svc_pull]: the packet, [[]] for none. *)
Definition evlog_svc_pull (fuel : nat) (clock : Z) (esf : evlog_svc) (ef : evlog) (nm : netmem)
    : res (list pbuf * evlog_svc * evlog * netmem) :=
  ef ← mutex_lock ef;
  match find_follower (esf_id esf) ef with
  | None => Fault OutOfBounds
  | Some f =>
      let ptr := f_ptr f in
      let d := ev_data ef in
      if ptr =? ev_head ef then Ret ([], esf, mutex_unlock ef, nm)
      else
        let disc := ptr =? ev_tail ef in
        let ts := u64 ((if disc then ts_tail ef else esf_ts esf) + evfifo_read_delta_ts d ptr) in
        let ms_ago := u64 (clock - ts) / 1000 in
        let tsbuf := ts_bytes ms_ago in
        let hdr := u8 (svc_hdr disc (rec_level d ptr) (Z.of_nat (length tsbuf))) in
        '(c, nm) ← make_packet fuel nm (esf_p esf)
          (msg ← msg_pieces d (rec_start ptr) (rec_msglen d ptr);
           Ret ([[hdr]] ++ (if negb (Z.land hdr 64 =? 0) then [le32 (seq_tail ef)] else []) ++
                [tsbuf] ++ msg));
        match c with
        | [] => Ret ([], esf, mutex_unlock ef, nm)
        | _ =>
            Ret (c, EvlogSvc (esf_id esf) ts (esf_p esf),
                 mutex_unlock (move_follower (esf_id esf) (u16 (ptr + rec_len d ptr)) ef), nm)
        end
  end.

(** [evlog_svc_open] with the address the allocator returned, if any, and
    [evlog_svc_close], whose call of [net->event] is an event of the channel. *)
Definition evlog_svc_open (alloc : option nat) (p : pushpull) (ef : evlog)
    : res (Z * option evlog_svc * evlog) :=
  match alloc with
  | None => Ret (ERR_NO_MEMORY, None, ef)
  | Some id =>
      ef ← evfifo_follower_register id 0 ef;
      Ret (0, Some (EvlogSvc id 0 p), ef)
  end.
Definition evlog_svc_close (esf : evlog_svc) (ef : evlog) : res evlog :=
  evfifo_follower_unregister (esf_id esf) ef.

(** ** The log file *)

(** [snprintf] into [linebuf + off], at most [n] bytes declared. *)
Definition snprintf_at (buf : list Z) (off n : Z) (fmt : list Z) (ap : list arg)
    : res (Z * list Z) :=
  '(r, s) ← vsnprintf false (drop (Z.to_nat off) buf) n fmt ap;
  Ret (r, take (Z.to_nat off) buf ++ s).

Definition print_timestamp_to_buf (w : wallclock) (tz_offset : Z) (buf : list Z) (buflen ts : Z)
    : res (Z * list Z) :=
  match source w with
  | _ :: _ =>
      '(used, buf) ← snprintf_at buf 0 buflen date_fmt (date_args w tz_offset ts);
      if buflen <=? used then Ret (used, buf)
      else
        '(n, buf) ← snprintf_at buf used (buflen - used) (zone_fmt tz_offset) (zone_args tz_offset);
        Ret (used + n, buf)
  | [] => snprintf_at buf 0 buflen (lit "%d") [AInt (s32 (Z.quot ts 1000))]
  end.

(** [sizeof(linebuf)] *)
Definition LINEBUF : Z := 128.

(** The line for a record, without its newline: how much of [linebuf] is used, and
    [linebuf]. *)
Definition file_line (w : wallclock) (tz_offset : Z) (d linebuf : list Z) (ptr ts : Z)
    : res (Z * list Z) :=
  '(buflen, linebuf) ← print_timestamp_to_buf w tz_offset linebuf LINEBUF ts;
  '(buflen, linebuf) ←
    (if buflen <? LINEBUF then
       '(n, linebuf) ← snprintf_at linebuf buflen (LINEBUF - buflen) (9 :: lit "%s" ++ [9])
         [AStr (Some (level_str (rec_level d ptr) ++ [0]))];
       Ret (buflen + n, linebuf)
     else Ret (buflen, linebuf));
  let msglen := u16 (Z.min (rec_msglen d ptr) (u32 (LINEBUF - buflen - 1))) in
  msg ← copy_out d (rec_start ptr) msglen;
  linebuf ← wr linebuf buflen msg;
  Ret (buflen + msglen, linebuf).

(** [eventlog_to_fs_thread]: the calls of the file system, what the thread keeps
    between passes, and a pass of its loop.  The mutex is held at the start; [open_err]
    is what [fs_open] returns, [fsize] what [fs_size] returns. *)
Inductive fs_call :=
| FsOpen
| FsWrite (data : list Z)
| FsClose
| FsRename.

Record fslog := Fslog {
  fl_open : bool;
  fl_deadline : Z;
  fl_ts : Z;
  fl_buf : list Z }.

Inductive fs_out :=
| FWait (deadline : option Z)
| FSkip
| FWrote (rotated : bool)
| FExit (err : Z).

Definition to_fs_pass (id : nat) (w : wallclock) (tz_offset max_size open_err fsize clock : Z)
    (fl : fslog) (ef : evlog) : res (fs_out * list fs_call * fslog * evlog) :=
  match find_follower id ef with
  | None => Fault OutOfBounds
  | Some f =>
      let ptr := f_ptr f in
      let d := ev_data ef in
      if ptr =? ev_head ef then
        let dl := if (negb (fl_deadline fl =? 0) && fl_open fl)%bool then Some (fl_deadline fl)
                  else None in
        Ret (FWait dl, [], fl, mutex_unlock ef)
      else if rec_level d ptr =? LOG_DEBUG then
        Ret (FSkip, [], fl, move_follower id (u16 (ptr + rec_len d ptr)) ef)
      else
        let ts := s64 (fl_ts fl + evfifo_read_delta_ts d ptr) in
        '(buflen, linebuf) ← file_line w tz_offset d (fl_buf fl) ptr ts;
        let ef := mutex_unlock (move_follower id (u16 (ptr + rec_len d ptr)) ef) in
        linebuf ← wr linebuf buflen [10];
        line ← rd linebuf 0 (buflen + 1);
        let opens := if fl_open fl then [] else [FsOpen] in
        if (negb (fl_open fl) && negb (open_err =? 0))%bool then
          Ret (FExit open_err, opens, Fslog false (fl_deadline fl) ts linebuf, ef)
        else
          let deadline := if fl_deadline fl =? 0 then s64 (clock + 1000000) else fl_deadline fl in
          if max_size <? fsize then
            Ret (FWrote true, opens ++ [FsWrite line; FsClose; FsRename],
                 Fslog false deadline ts linebuf, ef)
          else Ret (FWrote false, opens ++ [FsWrite line], Fslog true deadline ts linebuf, ef)
  end.
(** The end of a wait: on time-out the file is synced and the deadline cleared. *)
Definition to_fs_woken (timeout : bool) (fl : fslog) : fslog :=
  if timeout then Fslog (fl_open fl) 0 (fl_ts fl) (fl_buf fl) else fl.

End Log.

(** ** The receiving end: [host/dsig/vllp_logstream.c] *)

(** The time stamp: each byte is shifted as [int] and widened.  A shift by 32 or more is
    undefined. *)
Fixpoint tsdelta_loop (n : nat) (i : Z) (data : list Z) (tsdelta : Z) : res (option (Z * list Z)) :=
  match n with
  | O => Ret (Some (tsdelta, data))
  | S n =>
      match data with
      | [] => Ret None
      | b :: data =>
          if 32 <=? i * 8 then Fault OutOfBounds
          else tsdelta_loop n (i + 1) data (s64 (Z.lor tsdelta (s32 (Z.shiftl b (i * 8)))))
      end
  end.

(** [vllp_log_rx] on [vl->seq]: the new one, and the call of the callback: level,
    sequence, age in milliseconds, message. *)
Definition vllp_log_rx (seq : Z) (data : list Z) : res (Z * option (Z * Z * Z * list Z)) :=
  match data with
  | [] => Ret (seq, None)
  | h :: u8s =>
      let level := Z.land h 7 in
      let discontinuity := Z.land h 64 in
      let tsdeltasize := Z.land (Z.shiftr h 3) 7 in
      let '(short, seq, u8s) :=
        if discontinuity =? 0 then (false, seq, u8s)
        else match u8s with
        | a :: b :: c :: d :: rest => (false, rd_le32 a b c d, rest)
        | _ => (true, seq, u8s)
        end in
      if short : bool then Ret (seq, None)
      else
        let seq := u32 (seq + 1) in
        r ← tsdelta_loop (Z.to_nat tsdeltasize) 0 u8s 0;
        match r with
        | None => Ret (seq, None)
        | Some (tsdelta, msg) => Ret (seq, Some (level, seq, tsdelta, msg))
        end
  end.

(** * Records and their representation in the ring *)

(** A record; [e_delta] is the time since the record before it. *)
Record entry := Entry { e_level : Z; e_msg : list Z; e_delta : Z }.

Definition enc (e : entry) : list Z :=
  let t := ts_bytes (e_delta e) in
  let len := 2 + Z.of_nat (length (e_msg e)) + Z.of_nat (length t) in
  [len; Z.lor (e_level e) (Z.shiftl (Z.of_nat (length t)) 3)] ++ e_msg e ++ t.
Definition enc_all (es : list entry) : list Z := es ≫= enc.
Definition esize (es : list entry) : Z := Z.of_nat (length (enc_all es)).
(** Sum of the time differences. *)
Definition span (es : list entry) : Z := foldr Z.add 0 (e_delta <$> es).

(** The value of the bytes of a time stamp. *)
Fixpoint le_val (l : list Z) : Z := match l with [] => 0 | b :: l => b + 256 * le_val l end.

Lemma le_val_bound l : bytes l → 0 <= le_val l < 256 ^ Z.of_nat (length l).
Proof.
  induction 1 as [|b l Hb Hl IH]; cbn [le_val length]; [lia|].
  rewrite Nat2Z.inj_succ, Z.pow_succ_r by lia. unfold is_byte in Hb. lia.
Qed.

Lemma ts_bytes_n_spec n : ∀ x, 0 <= x < 256 ^ Z.of_nat n →
  le_val (ts_bytes_n n x) = x ∧ bytes (ts_bytes_n n x).
Proof.
  induction n as [|n IH]; intros x Hx; cbn [ts_bytes_n].
  - cbn [Z.of_nat] in Hx. split; [cbn; lia|constructor].
  - destruct (Z.eqb_spec x 0) as [->|Hne]; [split; [done|constructor]|].
    rewrite Nat2Z.inj_succ, Z.pow_succ_r in Hx by lia.
    rewrite Z.shiftr_div_pow2 by lia. change (2 ^ 8) with 256.
    destruct (IH (x / 256)) as [E Hb].
    { split; [apply Z.div_pos; lia|apply Z.div_lt_upper_bound; lia]. }
    cbn [le_val]. rewrite E. split; [unfold u8; dlia|constructor; [apply u8_byte|done]].
Qed.

Lemma ts_bytes_n_length n m : ∀ x, 0 <= x < 256 ^ Z.of_nat m → (length (ts_bytes_n n x) <= m)%nat.
Proof.
  revert m. induction n as [|n IH]; intros m x Hx; cbn [ts_bytes_n length]; [lia|].
  destruct (Z.eqb_spec x 0) as [->|Hne]; [cbn; lia|]. destruct m as [|m]; [cbn in Hx; lia|].
  rewrite Nat2Z.inj_succ, Z.pow_succ_r in Hx by lia. cbn [length].
  specialize (IH m (Z.shiftr x 8)). rewrite Z.shiftr_div_pow2 in * by lia. change (2 ^ 8) with 256 in *.
  apply le_n_S, IH. split; [apply Z.div_pos; lia|apply Z.div_lt_upper_bound; lia].
Qed.

Definition MAX_DELTA : Z := 2 ^ 56.

Lemma ts_bytes_spec x : 0 <= x < MAX_DELTA →
  le_val (ts_bytes x) = x ∧ bytes (ts_bytes x) ∧ (length (ts_bytes x) <= 7)%nat.
Proof.
  unfold MAX_DELTA. intros Hx. destruct (ts_bytes_n_spec 8 x) as [E Hb]; [cbn in *; lia|].
  split_and!; [done|done|]. apply (ts_bytes_n_length 8 7). cbn in *. lia.
Qed.

(** The two halves of the flag byte. *)
Lemma flags_split level t : 0 <= level < 8 → 0 <= t < 8 →
  Z.land (Z.lor level (Z.shiftl t 3)) 7 = level ∧
  Z.land (Z.shiftr (Z.lor level (Z.shiftl t 3)) 3) 7 = t ∧
  is_byte (Z.lor level (Z.shiftl t 3)).
Proof.
  intros Hl Ht. rewrite Z.lor_comm, shiftl_lor by lia. change 7 with (2 ^ 3 - 1).
  rewrite !land_ones_mod, Z.shiftr_div_pow2 by lia. change (2 ^ 3) with 8. unfold is_byte.
  split_and!; dlia.
Qed.

Section Ring.
Context (bits : Z) (Hbits : 8 <= bits <= 15).
Local Abbreviation SIZE := (EVENTLOG_SIZE bits).
Local Abbreviation ix := (ix bits).
Local Abbreviation rb := (rb bits).
Local Abbreviation wb := (wb bits).
Local Abbreviation wbs := (wbs bits).

Lemma size_bounds : 256 <= SIZE <= 32768.
Proof using Hbits.
  unfold EVENTLOG_SIZE. split; [change 256 with (2 ^ 8)|change 32768 with (2 ^ 15)];
    apply Z.pow_le_mono_r; lia.
Qed.

Lemma size_u16 : 65536 = SIZE * 2 ^ (16 - bits).
Proof using Hbits. unfold EVENTLOG_SIZE. rewrite <- Z.pow_add_r by lia. by replace (bits + (16 - bits)) with 16 by lia. Qed.

Lemma mask_mod x : Z.land x (EVENTLOG_MASK bits) = x mod SIZE.
Proof using Hbits. unfold EVENTLOG_MASK, EVENTLOG_SIZE. apply land_ones_mod. lia. Qed.

Lemma ix_mod x : ix x = Z.to_nat (x mod SIZE).
Proof using Hbits. unfold ix. by rewrite mask_mod. Qed.

Lemma u16_mod_size x : u16 x mod SIZE = x mod SIZE.
Proof using Hbits.
  unfold u16. rewrite size_u16. symmetry. pose proof size_bounds.
  assert (0 < 2 ^ (16 - bits)) by (apply Z.pow_pos_nonneg; lia).
  rewrite Z.rem_mul_r by lia. rewrite Z.mul_comm, Z.mod_add by lia. by rewrite Z.mod_mod by lia.
Qed.

Lemma ix_u16 x y : ix (u16 x + y) = ix (x + y).
Proof using Hbits.
  rewrite !ix_mod. pose proof size_bounds. rewrite Z.add_mod, u16_mod_size, <- Z.add_mod by lia. done.
Qed.

Lemma ix_lt x : (ix x < Z.to_nat SIZE)%nat.
Proof using Hbits. rewrite ix_mod. pose proof size_bounds. pose proof (Z.mod_pos_bound x SIZE). lia. Qed.

Lemma ix_inj x y : x - SIZE < y < x + SIZE → ix x = ix y → x = y.
Proof using Hbits.
  rewrite !ix_mod. intros H E. pose proof size_bounds.
  pose proof (Z.mod_pos_bound x SIZE). pose proof (Z.mod_pos_bound y SIZE).
  assert (x mod SIZE = y mod SIZE) by lia.
  pose proof (Z.div_mod x SIZE ltac:(lia)) as Ex. pose proof (Z.div_mod y SIZE ltac:(lia)) as Ey.
  assert (x / SIZE = y / SIZE); [|congruence].
  destruct (Z.lt_total (x / SIZE) (y / SIZE)) as [?|[?|?]]; [nia|done|nia].
Qed.

Lemma rb_u16 d x y : rb d (u16 x + y) = rb d (x + y).
Proof using Hbits. unfold Eventlog.rb. by rewrite ix_u16. Qed.

Lemma rb_u16_0 d x : rb d (u16 x) = rb d x.
Proof using Hbits. rewrite <- (Z.add_0_r (u16 x)), rb_u16. by rewrite Z.add_0_r. Qed.

Lemma rb_wb_same d x v : length d = Z.to_nat SIZE → rb (wb x v d) x = u8 v.
Proof using Hbits.
  intros H. unfold Eventlog.rb, Eventlog.wb. rewrite list_lookup_insert_eq; [done|].
  rewrite H. apply ix_lt.
Qed.

Lemma rb_wb_other d x y v : x - SIZE < y < x + SIZE → x ≠ y → rb (wb x v d) y = rb d y.
Proof using Hbits.
  intros H Hne. unfold Eventlog.rb, Eventlog.wb. rewrite list_lookup_insert_ne; [done|].
  intros E. by apply Hne, ix_inj.
Qed.

Lemma wb_length x v d : length (wb x v d) = length d.
Proof. apply length_insert. Qed.
Lemma wbs_length s : ∀ x d, length (wbs x s d) = length d.
Proof. induction s as [|c s IH]; intros x d; cbn [Eventlog.wbs]; [done|]. by rewrite IH, wb_length. Qed.

(** [n] bytes of the ring from [off] on. *)
Definition ring (d : list Z) (off : Z) (n : nat) : list Z := (λ i, rb d (off + Z.of_nat i)) <$> seq 0 n.

Lemma ring_length d off n : length (ring d off n) = n.
Proof. unfold ring. by rewrite length_fmap, length_seq. Qed.

Lemma ring_ext d d' off off' n :
  (∀ i, 0 <= i < Z.of_nat n → rb d (off + i) = rb d' (off' + i)) → ring d off n = ring d' off' n.
Proof. intros H. apply list_fmap_ext. intros i j Hj. apply lookup_seq in Hj as [-> ?]. apply H. lia. Qed.

Lemma ring_u16 d x y n : ring d (u16 x + y) n = ring d (x + y) n.
Proof using Hbits. apply ring_ext. intros i _. rewrite <- !Z.add_assoc. apply rb_u16. Qed.

Lemma ring_app d off n m : ring d off (n + m) = ring d off n ++ ring d (off + Z.of_nat n) m.
Proof.
  unfold ring. rewrite seq_app, fmap_app. f_equal. rewrite Nat.add_0_l.
  rewrite <- (Nat.add_0_r n) at 1. rewrite <- fmap_add_seq, <- list_fmap_compose.
  apply list_fmap_ext. intros i j _. unfold compose. f_equal. lia.
Qed.

Lemma ring_S d off n : ring d off (S n) = rb d off :: ring d (off + 1) n.
Proof. change (S n) with (1 + n)%nat. rewrite ring_app. cbn [ring seq fmap list_fmap app]. by rewrite Z.add_0_r. Qed.

Lemma ring_split d off a b : ring d off (length (a ++ b)) = a ++ b ↔
  ring d off (length a) = a ∧ ring d (off + Z.of_nat (length a)) (length b) = b.
Proof.
  rewrite length_app, ring_app. split.
  - intros E. apply app_inj_1 in E; [done|apply ring_length].
  - intros [-> ->]. done.
Qed.

(** Stores outside a window leave it alone. *)
Lemma ring_wb_other d x v off n :
  x - SIZE < off → off + Z.of_nat n <= x ∨ x < off → off + Z.of_nat n <= x + SIZE →
  ring (wb x v d) off n = ring d off n.
Proof using Hbits. intros. apply ring_ext. intros i Hi. apply rb_wb_other; lia. Qed.

Lemma ring_wbs_other s : ∀ d x off n,
  x + Z.of_nat (length s) <= off + SIZE → off + Z.of_nat n <= x →
  ring (wbs x s d) off n = ring d off n.
Proof using Hbits.
  induction s as [|c s IH]; intros d x off n H1 H2; cbn [Eventlog.wbs]; [done|]. cbn [length] in H1.
  rewrite IH by lia. destruct n; [done|]. apply ring_wb_other; lia.
Qed.

Lemma ring_wbs_same s : ∀ d x,
  length d = Z.to_nat SIZE → Z.of_nat (length s) <= SIZE →
  ring (wbs x s d) x (length s) = u8 <$> s.
Proof using Hbits.
  induction s as [|c s IH]; intros d x Hd Hs; [done|]. cbn [Eventlog.wbs length] in *.
  rewrite ring_S, IH by (rewrite ?wb_length; lia || done). rewrite fmap_cons.
  f_equal. assert (ring (wbs (x + 1) s (wb x c d)) x 1 = ring (wb x c d) x 1) as E
    by (apply ring_wbs_other; lia).
  cbn in E. injection E as E. rewrite Z.add_0_r in E. by rewrite E, rb_wb_same.
Qed.

Lemma wb_u16 x y v d : wb (u16 x + y) v d = wb (x + y) v d.
Proof using Hbits. unfold Eventlog.wb. by rewrite ix_u16. Qed.
Lemma wbs_u16 s : ∀ x y d, wbs (u16 x + y) s d = wbs (x + y) s d.
Proof using Hbits.
  induction s as [|c s IH]; intros x y d; cbn [Eventlog.wbs]; [done|].
  by rewrite <- !Z.add_assoc, IH, wb_u16.
Qed.

Lemma wbs_app a : ∀ b x d, wbs x (a ++ b) d = wbs (x + Z.of_nat (length a)) b (wbs x a d).
Proof.
  induction a as [|c a IH]; intros b x d; cbn [Eventlog.wbs app length]; [by rewrite Z.add_0_r|].
  rewrite IH. f_equal. lia.
Qed.

Lemma wb_wb x v v' d : wb x v (wb x v' d) = wb x v d.
Proof. apply list_insert_insert_eq. Qed.

Lemma wbs_wb_comm s : ∀ x v y d, x < y → y + Z.of_nat (length s) <= x + SIZE →
  wbs y s (wb x v d) = wb x v (wbs y s d).
Proof using Hbits.
  induction s as [|c s IH]; intros x v y d H1 H2; cbn [Eventlog.wbs length] in *; [done|].
  rewrite <- IH by lia. f_equal. apply list_insert_insert_ne. intros E%ix_inj; lia.
Qed.

Lemma wb_id x v d : length d = Z.to_nat SIZE → rb d x = u8 v → wb x v d = d.
Proof using Hbits.
  intros Hd E. unfold Eventlog.wb, Eventlog.rb in *. apply list_insert_id.
  destruct (lookup_lt_is_Some_2 d (ix x)) as [w Hw]; [rewrite Hd; apply ix_lt|].
  rewrite Hw in *. cbn in E. by subst.
Qed.

(** ** Reading a record *)

Lemma le_val_snoc l b : le_val (l ++ [b]) = le_val l + 256 ^ Z.of_nat (length l) * b.
Proof.
  induction l as [|a l IH]; cbn [le_val app length]; [lia|].
  rewrite IH, Nat2Z.inj_succ, Z.pow_succ_r by lia. ring.
Qed.

Lemma delta_loop_spec d ptr n : ∀ r, bytes (ring d ptr n) → (n <= 7)%nat →
  0 <= r → (r + 1) * 256 ^ Z.of_nat n <= 2 ^ 62 →
  delta_loop bits d ptr n r = r * 256 ^ Z.of_nat n + le_val (ring d ptr n).
Proof.
  induction n as [|n IH]; intros r Hb Hn Hr Hlt; cbn [delta_loop]; [cbn; lia|].
  rewrite <- Nat.add_1_r, ring_app in *. apply Forall_app in Hb as [Hb Hb1].
  cbn [ring seq fmap list_fmap] in Hb1 |- *. rewrite Z.add_0_r in *. apply Forall_inv in Hb1.
  unfold is_byte in Hb1. rewrite Nat2Z.inj_add, Z.pow_add_r in * by lia. change (256 ^ Z.of_nat 1) with 256 in *.
  assert (0 < 256 ^ Z.of_nat n) by (apply Z.pow_pos_nonneg; lia).
  rewrite Z.shiftl_mul_pow2, s64_id by (try lia; change (2 ^ 8) with 256; change (2 ^ 62) with 4611686018427387904 in *; nia).
  rewrite <- Z.shiftl_mul_pow2, shiftl_lor by lia. change (2 ^ 8) with 256.
  rewrite IH by (try lia; try done; change (2 ^ 62) with 4611686018427387904 in *; nia).
  rewrite le_val_snoc, ring_length. ring.
Qed.

Record entry_ok (e : entry) : Prop := {
  ok_level : 0 <= e_level e < 8;
  ok_msg : bytes (e_msg e);
  ok_size : 2 + Z.of_nat (length (e_msg e)) <= max_entry_size bits;
  ok_delta : 0 <= e_delta e < MAX_DELTA }.

Lemma max_entry_bounds : 64 <= max_entry_size bits <= 192 ∧ max_entry_size bits + 8 <= SIZE.
Proof using Hbits.
  unfold max_entry_size. pose proof size_bounds. rewrite Z.quot_div_nonneg by lia. split; dlia.
Qed.

Lemma enc_length e : entry_ok e →
  Z.of_nat (length (enc e)) = 2 + Z.of_nat (length (e_msg e)) + Z.of_nat (length (ts_bytes (e_delta e)))
  ∧ 2 <= Z.of_nat (length (enc e)) < 200.
Proof using Hbits.
  intros [_ _ Hs Hd]. destruct (ts_bytes_spec _ Hd) as (_ & _ & Ht). pose proof max_entry_bounds.
  unfold enc. rewrite !length_app. cbn [length]. lia.
Qed.

Lemma enc_bytes e : entry_ok e → bytes (enc e).
Proof using Hbits.
  intros He. destruct (enc_length e He) as [El Hl]. destruct He as [Hv Hm Hs Hd].
  destruct (ts_bytes_spec _ Hd) as (_ & Hb & Ht). unfold enc.
  repeat apply Forall_cons_2; [| |by apply Forall_app].
  - unfold is_byte. lia.
  - apply flags_split; lia.
Qed.

(** A record at [ptr], read field by field. *)
Lemma record_fields d ptr e :
  entry_ok e → ring d ptr (length (enc e)) = enc e →
  rec_len bits d ptr = Z.of_nat (length (enc e)) ∧
  rec_level bits d ptr = e_level e ∧
  rec_msglen bits d ptr = Z.of_nat (length (e_msg e)) ∧
  evfifo_read_delta_ts bits d ptr = e_delta e ∧
  ring d (ptr + 2) (length (e_msg e)) = e_msg e.
Proof using Hbits.
  intros He Hr. destruct (enc_length e He) as [El Hl]. pose proof (enc_bytes e He) as Hb.
  destruct He as [Hv Hm Hs Hd]. destruct (ts_bytes_spec _ Hd) as (Ev & Hbt & Ht).
  destruct (flags_split (e_level e) (Z.of_nat (length (ts_bytes (e_delta e)))) ltac:(lia) ltac:(lia))
    as (F1 & F2 & _).
  unfold enc in Hr. rewrite ring_split in Hr. destruct Hr as [H2 Hr].
  rewrite ring_split in Hr. destruct Hr as [Hrm Hrt]. cbn [length] in *.
  change (Z.of_nat 2) with 2 in *. rewrite !ring_S in H2. cbn [ring seq fmap list_fmap] in H2.
  injection H2 as E0 E1. unfold rec_len, rec_level, rec_msglen, evfifo_read_delta_ts.
  rewrite E0, E1, F1, F2. split_and!; [lia|done| |  |done].
  - rewrite u16_id; lia.
  - rewrite <- (Z.add_0_r (u16 _)). rewrite Nat2Z.id.
    assert (ring d (u16 (ptr + (2 + Z.of_nat (length (e_msg e)) + Z.of_nat (length (ts_bytes (e_delta e)))
      - Z.of_nat (length (ts_bytes (e_delta e))))) + 0) (length (ts_bytes (e_delta e)))
      = ts_bytes (e_delta e)) as Er.
    { rewrite ring_u16. etransitivity; [|exact Hrt]. f_equal. lia. }
    rewrite delta_loop_spec; rewrite ?Er; [|done|done|lia|].
    + rewrite Ev. lia.
    + rewrite Z.add_0_l, Z.mul_1_l. change (2 ^ 62) with 4611686018427387904.
      transitivity (256 ^ 7); [apply Z.pow_le_mono_r; lia|]. by vm_compute.
Qed.

(** The copy in one or two pieces is the window. *)
Lemma ring_rd d off n : length d = Z.to_nat SIZE → 0 <= off → off + Z.of_nat n <= SIZE →
  ring d off n = take n (drop (Z.to_nat off) d).
Proof using Hbits.
  intros Hd Ho Hn. apply list_eq. intros i. unfold ring. rewrite list_lookup_fmap.
  destruct (decide (i < n)%nat) as [Hi|Hi].
  - rewrite lookup_seq_lt, lookup_take_lt, lookup_drop by done. cbn.
    unfold Eventlog.rb. rewrite ix_mod, Z.mod_small by lia.
    replace (Z.to_nat (off + Z.of_nat i)) with (Z.to_nat off + i)%nat by lia.
    destruct (d !! (Z.to_nat off + i)%nat) eqn:E; [done|]. apply lookup_ge_None in E. lia.
  - rewrite lookup_seq_ge, lookup_take_ge by lia. done.
Qed.

Lemma copy_out_ring d ptr n :
  length d = Z.to_nat SIZE → 0 <= n < SIZE →
  copy_out bits d (rec_start bits ptr) n = Ret (ring d (ptr + 2) (Z.to_nat n)) ∧
  (ps ← msg_pieces bits d (rec_start bits ptr) n; Ret (concat ps)) = Ret (ring d (ptr + 2) (Z.to_nat n)).
Proof using Hbits.
  intros Hd Hn. unfold copy_out, msg_pieces, rec_start. rewrite !mask_mod. pose proof size_bounds.
  set (s := (ptr + 2) mod SIZE). assert (0 <= s < SIZE) as Hs by (apply Z.mod_pos_bound; lia).
  assert (ring d (ptr + 2) (Z.to_nat n) = ring d s (Z.to_nat n)) as ->.
  { apply ring_ext. intros i _. unfold Eventlog.rb. rewrite !ix_mod. unfold s.
    by rewrite Zplus_mod_idemp_l. }
  destruct (decide (s + n < SIZE)) as [Hlt|Hge].
  - rewrite (Z.mod_small (s + n)), (proj2 (Z.leb_le _ _)) by lia.
    rewrite rd_ok, ring_rd by lia. cbn. by rewrite app_nil_r.
  - assert ((s + n) mod SIZE = s + n - SIZE) as ->.
    { symmetry. apply (Z.mod_unique _ _ 1); lia. }
    rewrite (proj2 (Z.leb_gt _ _)), !rd_ok by lia. cbn.
    rewrite <- (ring_rd d s (Z.to_nat (SIZE - s))) by lia.
    rewrite <- (ring_rd d 0 (Z.to_nat (s + n - SIZE))) by lia.
    replace (Z.to_nat n) with (Z.to_nat (SIZE - s) + Z.to_nat (s + n - SIZE))%nat by lia.
    rewrite app_nil_r, ring_app.
    assert (ring d (s + Z.of_nat (Z.to_nat (SIZE - s))) (Z.to_nat (s + n - SIZE))
      = ring d 0 (Z.to_nat (s + n - SIZE))) as ->; [|done].
    apply ring_ext. intros i _. unfold Eventlog.rb. rewrite !ix_mod.
    replace (s + Z.of_nat (Z.to_nat (SIZE - s)) + i) with (i + 1 * SIZE) by lia.
    by rewrite Z.mod_add by lia.
Qed.

(** ** The invariant *)

(** Follower [f] is in front of record [j]. *)
Definition fol_at (tail : Z) (es : list entry) (f : follower) (j : nat) : Prop :=
  (j <= length es)%nat ∧ f_ptr f = u16 (tail + esize (take j es)) ∧ 0 <= f_drops f < 65536.

(** The ring of [ef] holds the records [es] and behind them the bytes [p] of a record
    under construction. *)
Record log_ok (ef : evlog) (es : list entry) (p : list Z) : Prop := {
  lo_data : length (ev_data ef) = Z.to_nat SIZE;
  lo_tail : 0 <= ev_tail ef < 65536;
  lo_head : ev_head ef = u16 (ev_tail ef + esize es);
  lo_ring : ring (ev_data ef) (ev_tail ef) (length (enc_all es ++ p)) = enc_all es ++ p;
  lo_fits : esize es + Z.of_nat (length p) <= SIZE;
  lo_entries : Forall entry_ok es;
  lo_times : 0 <= ts_tail ef ∧ ts_head ef = ts_tail ef + span es ∧ ts_head ef < 2 ^ 62;
  lo_seq : is_u32 (seq_tail ef);
  lo_fols : ∀ f, f ∈ followers ef → ∃ j, fol_at (ev_tail ef) es f j }.

Lemma esize_cons e es : esize (e :: es) = Z.of_nat (length (enc e)) + esize es.
Proof. unfold esize, enc_all. cbn [mbind list_bind]. rewrite length_app. lia. Qed.
Lemma esize_app a b : esize (a ++ b) = esize a + esize b.
Proof. unfold esize, enc_all. rewrite bind_app, length_app. lia. Qed.
Lemma esize_nonneg es : 0 <= esize es.
Proof. unfold esize. lia. Qed.
Lemma esize_take_le j es : esize (take j es) <= esize es.
Proof. rewrite <- (take_drop j es) at 2. rewrite esize_app. pose proof (esize_nonneg (drop j es)). lia. Qed.
Lemma esize_pos es : Forall entry_ok es → es ≠ [] → 2 <= esize es.
Proof using Hbits.
  destruct 1 as [|e es He _]; [done|]. intros _. rewrite esize_cons.
  pose proof (enc_length e He). pose proof (esize_nonneg es). lia.
Qed.

Lemma span_nonneg es : Forall entry_ok es → 0 <= span es.
Proof. induction 1 as [|e es He _ IH]; [done|]. unfold span in *. cbn. pose proof (ok_delta e He). lia. Qed.

Lemma used_spec ef es p : log_ok ef es p → evl_used ef = esize es ∧ evl_avail bits ef = SIZE - esize es.
Proof using Hbits.
  intros H. pose proof (lo_fits _ _ _ H). pose proof size_bounds. pose proof (esize_nonneg es).
  assert (evl_used ef = esize es) as E.
  { unfold evl_used. rewrite (lo_head _ _ _ H). unfold u16. rewrite Zminus_mod_idemp_l.
    rewrite Z.add_simpl_l. apply Z.mod_small. lia. }
  split; [done|]. unfold evl_avail. rewrite E. apply u32_id. unfold is_u32. lia.
Qed.

Lemma head_ne_tail ef es p : log_ok ef es p → (ev_head ef = ev_tail ef ↔ es = []).
Proof using Hbits.
  intros H. pose proof (lo_fits _ _ _ H). pose proof size_bounds. pose proof (lo_tail _ _ _ H).
  split.
  - intros E. destruct (decide (es = [])) as [|Hne]; [done|].
    pose proof (esize_pos es (lo_entries _ _ _ H) Hne). destruct (used_spec _ _ _ H) as [Eu _].
    unfold evl_used in Eu. rewrite E, Z.sub_diag in Eu. unfold u16 in Eu. rewrite Z.mod_0_l in Eu; lia.
  - intros ->. rewrite (lo_head _ _ _ H). unfold esize. cbn. rewrite Z.add_0_r. by apply u16_id.
Qed.

Lemma tail_record ef e es p : log_ok ef (e :: es) p →
  ring (ev_data ef) (ev_tail ef) (length (enc e)) = enc e ∧
  ring (ev_data ef) (ev_tail ef + Z.of_nat (length (enc e))) (length (enc_all es ++ p)) = enc_all es ++ p.
Proof.
  intros H. pose proof (lo_ring _ _ _ H) as E. unfold enc_all in E. cbn [mbind list_bind] in E.
  rewrite <- app_assoc in E. by apply ring_split in E.
Qed.

(** What erasing the first record does to a follower: it stays in front of the record it
    had in front, or drops that one. *)
Lemma drop_follower_ok tail e es f j :
  Forall entry_ok (e :: es) → esize (e :: es) <= SIZE → 0 <= tail < 65536 →
  fol_at tail (e :: es) f j →
  let f' := drop_follower tail (Z.of_nat (length (enc e))) f in
  fol_at (u16 (tail + Z.of_nat (length (enc e)))) es f' (j - 1) ∧
  f_drops f' = u16 (f_drops f + Z.of_nat (1 - j)).
Proof using Hbits.
  intros Hes Hfit Ht (Hj & Hp & Hd). pose proof size_bounds. apply Forall_cons in Hes as [He Hes].
  pose proof (enc_length e He) as [_ Hl]. rewrite esize_cons in Hfit. unfold drop_follower.
  destruct j as [|j].
  - change (esize (take 0 (e :: es))) with 0 in Hp. rewrite Z.add_0_r, u16_id in Hp by lia.
    rewrite Hp, Z.eqb_refl. split; [|done]. split; [cbn; lia|]. cbn [Nat.sub f_ptr f_drops].
    change (esize (take 0 es)) with 0. rewrite Z.add_0_r. unfold u16. split; [by rewrite Z.mod_mod|].
    apply Z.mod_pos_bound. lia.
  - cbn [take] in Hp. rewrite esize_cons in Hp. pose proof (esize_nonneg (take j es)).
    pose proof (esize_take_le j es).
    destruct (Z.eqb_spec (f_ptr f) tail) as [E|E].
    + exfalso. rewrite E in Hp. unfold u16 in Hp. dlia.
    + replace (S j - 1)%nat with j by lia. split.
      * split; [cbn in *; lia|]. split; [|done]. rewrite Hp.
        unfold u16. rewrite Zplus_mod_idemp_l. f_equal. lia.
      * cbn [Nat.sub]. rewrite Z.add_0_r. symmetry. by apply u16_id.
Qed.

Lemma erase_ok ef e es p : log_ok ef (e :: es) p →
  log_ok (evl_erase_tail bits ef) es p ∧
  ev_head (evl_erase_tail bits ef) = ev_head ef ∧ ev_data (evl_erase_tail bits ef) = ev_data ef ∧
  ev_mutex (evl_erase_tail bits ef) = ev_mutex ef ∧ ev_calls (evl_erase_tail bits ef) = ev_calls ef ∧
  ts_head (evl_erase_tail bits ef) = ts_head ef ∧
  ts_tail (evl_erase_tail bits ef) = ts_tail ef + e_delta e ∧
  seq_tail (evl_erase_tail bits ef) = u32 (seq_tail ef + 1) ∧
  followers (evl_erase_tail bits ef) =
    drop_follower (ev_tail ef) (Z.of_nat (length (enc e))) <$> followers ef.
Proof using Hbits.
  intros H. pose proof (lo_entries _ _ _ H) as Hes. pose proof (lo_tail _ _ _ H) as Ht.
  pose proof (lo_fits _ _ _ H) as Hfit. rewrite esize_cons in Hfit.
  apply Forall_cons in Hes as [He Hes]. destruct (tail_record _ _ _ _ H) as [Hr1 Hr2].
  destruct (record_fields _ _ e He Hr1) as (El & _ & _ & Ed & _). unfold rec_len in El.
  destruct (lo_times _ _ _ H) as (T1 & T2 & T3). pose proof (span_nonneg es Hes).
  change (span (e :: es)) with (e_delta e + span es) in T2. pose proof (ok_delta e He).
  change (2 ^ 62) with 4611686018427387904 in *. unfold evl_erase_tail.
  destruct (Z.eqb_spec (ev_head ef) (ev_tail ef)) as [E|E]; [by apply (head_ne_tail _ _ _ H) in E|].
  rewrite Ed, El, s64_id by lia.
  split; [|by cbn]. split; cbn [ts_tail ts_head followers ev_head ev_tail ev_data].
  - by apply (lo_data _ _ _ H).
  - apply Z.mod_pos_bound. lia.
  - rewrite (lo_head _ _ _ H), esize_cons. unfold u16. rewrite Zplus_mod_idemp_l. f_equal. lia.
  - rewrite <- (Z.add_0_r (u16 _)), ring_u16, Z.add_0_r. exact Hr2.
  - pose proof (enc_length e He). lia.
  - done.
  - lia.
  - apply u32_range.
  - intros f' (f & -> & Hf)%list_elem_of_fmap.
    destruct (lo_fols _ _ _ H f Hf) as [j Hj].
    exists (j - 1)%nat. apply (drop_follower_ok _ e es f j); [by constructor| |done|done].
    rewrite esize_cons. lia.
Qed.

Definition erase_n (n : nat) (ef : evlog) : evlog := Nat.iter n (evl_erase_tail bits) ef.

(** Follower by follower: identity, position and count of lost records when the first
    [n] records of [es] are gone and [es'] is left. *)
Definition fols_moved (n : nat) (es es' : list entry) (ef ef' : evlog) : Prop :=
  Forall2 (λ f f', f_id f' = f_id f ∧ ∀ j, fol_at (ev_tail ef) es f j →
      fol_at (ev_tail ef') es' f' (j - n) ∧
      f_drops f' = u16 (f_drops f + Z.of_nat (n - j)))
    (followers ef) (followers ef').

(** What erasing [n] records does not touch. *)
Definition same_front (ef ef' : evlog) : Prop :=
  ev_head ef' = ev_head ef ∧ ev_data ef' = ev_data ef ∧ ev_mutex ef' = ev_mutex ef ∧
  ev_calls ef' = ev_calls ef ∧ ts_head ef' = ts_head ef.

Lemma erase_n_ok n : ∀ ef es p, log_ok ef es p → (n <= length es)%nat →
  let ef' := erase_n n ef in
  log_ok ef' (drop n es) p ∧ same_front ef ef' ∧ ts_tail ef' = ts_tail ef + span (take n es) ∧
  seq_tail ef' = u32 (seq_tail ef + Z.of_nat n) ∧ fols_moved n es (drop n es) ef ef'.
Proof using Hbits.
  induction n as [|n IH]; intros ef es p H Hn; unfold erase_n.
  - cbn [Nat.iter]. rewrite drop_0. split_and!; try done.
    + rewrite take_0. change (span []) with 0. cbn in *. lia.
    + rewrite Z.add_0_r. symmetry. apply u32_id, (lo_seq _ _ _ H).
    + apply Forall_Forall2_diag, Forall_forall. intros f Hf. split; [done|]. intros j Hj.
      rewrite Nat.sub_0_r. split; [done|]. cbn [Nat.sub]. rewrite Z.add_0_r.
      symmetry. apply u16_id. apply Hj.
  - destruct es as [|e es]; [cbn in Hn; lia|]. cbn in Hn. rewrite Nat.iter_succ_r.
    destruct (erase_ok _ _ _ _ H) as (H1 & E1 & E2 & E3 & E4 & E5 & E6 & E7 & E8).
    destruct (IH _ es p H1 ltac:(lia)) as (I1 & (F1 & F2 & F3 & F4 & F5) & I2 & I3 & I4).
    fold (erase_n n (evl_erase_tail bits ef)) in *. set (ef' := erase_n n _) in *.
    cbn [drop take]. split_and!; [done|split_and!; congruence| | |].
    + rewrite I2, E6. unfold span. cbn. lia.
    + rewrite I3, E7. unfold u32.
      rewrite Zplus_mod_idemp_l. f_equal. lia.
    + unfold fols_moved in *. rewrite E8, Forall2_fmap_l in I4.
      eapply Forall2_impl; [exact I4|]. intros f f' [Hid Hf]. split.
      { rewrite Hid. unfold drop_follower. by case_match. }
      intros j Hj. destruct (drop_follower_ok (ev_tail ef) e es f j (lo_entries _ _ _ H)) as [G1 G2];
        [pose proof (lo_fits _ _ _ H); lia|apply (lo_tail _ _ _ H)|done|].
      assert (ev_tail (evl_erase_tail bits ef) = u16 (ev_tail ef + Z.of_nat (length (enc e)))) as Et.
      { unfold evl_erase_tail. destruct (Z.eqb_spec (ev_head ef) (ev_tail ef)) as [E|E].
        - by apply (head_ne_tail _ _ _ H) in E.
        - cbn. destruct (tail_record _ _ _ _ H) as [Hr1 _].
          pose proof (Forall_inv (lo_entries _ _ _ H)) as He.
          destruct (record_fields _ _ e He Hr1) as (El & _). unfold rec_len in El. by rewrite El. }
      rewrite Et in Hf. destruct (Hf _ G1) as [K1 K2].
      replace (j - S n)%nat with (j - 1 - n)%nat by lia. split; [done|].
      rewrite K2, G2. unfold u16. rewrite Zplus_mod_idemp_l. f_equal. lia.
Qed.

(** How many of the oldest records have to go for [size] bytes to fit. *)
Fixpoint need (size : Z) (es : list entry) : nat :=
  match es with
  | [] => 0
  | _ :: rest => if esize es + size <=? SIZE then 0 else S (need size rest)
  end.

Lemma need_le size es : (need size es <= length es)%nat.
Proof. induction es as [|e es IH]; cbn [need length]; [lia|]. case_match; lia. Qed.

Lemma need_fits size es : size <= SIZE → esize (drop (need size es) es) + size <= SIZE.
Proof.
  intros Hs. induction es as [|e es IH]; cbn [need]; [unfold esize; cbn; lia|].
  case_match; bool_to_prop; [by rewrite drop_0|done].
Qed.

Lemma need_least size es n : esize (drop n es) + size <= SIZE → (need size es <= n)%nat.
Proof.
  revert n. induction es as [|e es IH]; intros n Hn; cbn [need]; [lia|].
  destruct n as [|n]; [rewrite drop_0 in Hn; by rewrite (proj2 (Z.leb_le _ _))|].
  case_match; [lia|]. apply le_n_S, IH, Hn.
Qed.

Lemma need_zero size es : esize es + size <= SIZE → need size es = 0%nat.
Proof. intros H. apply Nat.le_0_r, need_least. by rewrite drop_0. Qed.

(** Making room twice is making room for the larger size. *)
Lemma need_mono s1 s2 es : s1 <= s2 → s2 <= SIZE →
  (need s1 es + need s2 (drop (need s1 es) es))%nat = need s2 es.
Proof.
  intros H1 H2. apply Nat.le_antisymm.
  - assert (need s1 es <= need s2 es)%nat as Hle.
    { apply need_least. pose proof (need_fits s2 es H2). lia. }
    assert (need s2 (drop (need s1 es) es) <= need s2 es - need s1 es)%nat; [|lia].
    apply need_least. rewrite drop_drop. replace (need s1 es + (need s2 es - need s1 es))%nat
      with (need s2 es) by lia. by apply need_fits.
  - apply need_least. rewrite <- drop_drop. by apply need_fits.
Qed.

Lemma ensure_loop_ok size fuel : ∀ ef es p,
  log_ok ef es p → size <= SIZE → (length es < fuel)%nat →
  ensure_loop bits fuel size ef = Ret (erase_n (need size es) ef).
Proof using Hbits.
  induction fuel as [|fuel IH]; intros ef es p H Hs Hf; [lia|]. cbn [ensure_loop].
  destruct (used_spec _ _ _ H) as [_ ->]. destruct es as [|e es]; cbn [need].
  - change (esize []) with 0. by rewrite (proj2 (Z.ltb_ge _ _)) by lia.
  - destruct (Z.ltb_spec (SIZE - esize (e :: es)) size).
    + rewrite (proj2 (Z.leb_gt _ _)) by lia. unfold erase_n. rewrite Nat.iter_succ_r.
      destruct (erase_ok _ _ _ _ H) as [H1 _]. apply (IH _ es p H1 Hs). cbn in Hf. lia.
    + by rewrite (proj2 (Z.leb_le _ _)) by lia.
Qed.

Lemma entries_count es : Forall entry_ok es → Z.of_nat (length es) <= esize es.
Proof using Hbits.
  induction 1 as [|e es He _ IH]; [done|]. rewrite esize_cons. pose proof (enc_length e He).
  cbn [length]. lia.
Qed.

Lemma ensure_ok size ef es p : log_ok ef es p → size <= SIZE →
  evl_ensure bits size ef = Ret (erase_n (need size es) ef).
Proof using Hbits.
  intros H Hs. eapply ensure_loop_ok; [exact H|done|].
  pose proof (entries_count es (lo_entries _ _ _ H)). pose proof (lo_fits _ _ _ H).
  pose proof size_bounds. lia.
Qed.

(** ** Writing a record *)

Lemma ring_byte ef es p i b : log_ok ef es p → p !! i = Some b → rb (ev_data ef) (ev_head ef + Z.of_nat i) = b.
Proof using Hbits.
  intros H Hi. pose proof (lo_ring _ _ _ H) as E. apply ring_split in E as [_ E].
  rewrite (lo_head _ _ _ H), rb_u16. apply (f_equal (.!! i)) in E.
  unfold ring in E. rewrite list_lookup_fmap, lookup_seq_lt, Hi in E by (by eapply lookup_lt_Some).
  cbn in E. by injection E.
Qed.

Lemma append_ok ef es p t : log_ok ef es p →
  esize es + Z.of_nat (length p) + Z.of_nat (length t) <= SIZE →
  log_ok (set_data (wbs (ev_head ef + Z.of_nat (length p)) t (ev_data ef)) ef) es (p ++ (u8 <$> t)).
Proof using Hbits.
  intros H Hfit. pose proof (esize_nonneg es). destruct H as [H1 H2 H3 H4 H5 H6 H7 H8 H9].
  split; cbn [ev_data ev_tail ev_head ts_tail ts_head followers set_data]; try done.
  - by rewrite wbs_length.
  - rewrite H3, wbs_u16, app_assoc. apply ring_split. unfold esize in *. split.
    + rewrite ring_wbs_other; [done|lia|]. rewrite length_app. lia.
    + rewrite length_fmap, <- (ring_wbs_same t (ev_data ef)
        (ev_tail ef + Z.of_nat (length (enc_all es)) + Z.of_nat (length p))) by lia.
      f_equal. rewrite length_app. lia.
  - rewrite length_app, length_fmap. lia.
Qed.

Lemma patch_ok ef es p i v : log_ok ef es p → (i < length p)%nat →
  log_ok (set_data (wb (ev_head ef + Z.of_nat i) v (ev_data ef)) ef) es (<[i := u8 v]> p).
Proof using Hbits.
  intros H Hi. destruct H as [H1 H2 H3 H4 H5 H6 H7 H8 H9]. pose proof (esize_nonneg es). pose proof size_bounds.
  split; cbn [ev_data ev_tail ev_head ts_tail ts_head followers set_data]; try done.
  - by rewrite wb_length.
  - rewrite H3, wb_u16. apply ring_split in H4 as [H4 H4']. apply ring_split. unfold esize in *.
    rewrite length_insert. split.
    + rewrite ring_wb_other; [done|lia..].
    + apply list_eq. intros j. unfold ring. rewrite list_lookup_fmap.
      destruct (decide (j < length p)%nat) as [Hj|Hj].
      * rewrite lookup_seq_lt by done. cbn [fmap option_fmap option_map Nat.add].
        destruct (decide (i = j)) as [->|Hne].
        -- rewrite list_lookup_insert_eq by done. by rewrite rb_wb_same.
        -- rewrite list_lookup_insert_ne by done. rewrite rb_wb_other by lia.
           apply (f_equal (.!! j)) in H4'. unfold ring in H4'.
           by rewrite list_lookup_fmap, lookup_seq_lt in H4' by done.
      * rewrite lookup_seq_ge by lia. symmetry. apply lookup_ge_None. rewrite length_insert. lia.
  - by rewrite length_insert.
Qed.

(** [erase_n] does not look behind [head]. *)
Lemma erase_set_data n : ∀ ef es p d p', log_ok ef es p → log_ok (set_data d ef) es p' →
  (n <= length es)%nat → erase_n n (set_data d ef) = set_data d (erase_n n ef).
Proof using Hbits.
  induction n as [|n IH]; intros ef es p d p' H H' Hn; [done|]. unfold erase_n.
  destruct es as [|e es]; [cbn in Hn; lia|]. rewrite !Nat.iter_succ_r.
  assert (evl_erase_tail bits (set_data d ef) = set_data d (evl_erase_tail bits ef)) as E.
  { pose proof (Forall_inv (lo_entries _ _ _ H)) as He.
    destruct (record_fields _ _ e He (proj1 (tail_record _ _ _ _ H))) as (E1 & _ & _ & E2 & _).
    destruct (record_fields _ _ e He (proj1 (tail_record _ _ _ _ H'))) as (E3 & _ & _ & E4 & _).
    unfold rec_len in *. unfold evl_erase_tail. cbn [ev_data ev_tail ev_head ts_tail ts_head followers set_data
      ev_mutex seq_tail ev_calls] in *. rewrite E1, E2, E3, E4. by case_match. }
  rewrite E. cbn in Hn. apply (IH _ es p d p'); [apply (erase_ok _ _ _ _ H)| |lia].
  rewrite <- E. apply (erase_ok _ _ _ _ H').
Qed.

(** A record under construction: its length, a byte not yet written, its text so far. *)
Definition building (ef : evlog) (es : list entry) (c1 : Z) (msg : list Z) : Prop :=
  log_ok ef es ([2 + Z.of_nat (length msg); c1] ++ msg) ∧
  2 + Z.of_nat (length msg) <= max_entry_size bits.

Lemma set_data_twice d d' ef : set_data d (set_data d' ef) = set_data d ef.
Proof. done. Qed.

(** How much of a text still fits. *)
Definition room (msg : list Z) : nat := Z.to_nat (max_entry_size bits - 2 - Z.of_nat (length msg)).

Definition fmt_result (ef : evlog) (es : list entry) (msg s : list Z) : evlog :=
  let t := take (room msg) s in
  let c := 2 + Z.of_nat (length msg) in
  let n := need (c + Z.of_nat (length t)) es in
  set_data (wb (ev_head ef) (c + Z.of_nat (length t)) (wbs (ev_head ef + c) t (ev_data ef)))
    (erase_n n ef).

Lemma fmt_cb_ok ef es c1 msg s : building ef es c1 msg →
  let t := take (room msg) s in
  evl_fmt_cb bits s ef = Ret (Z.of_nat (length t), fmt_result ef es msg s) ∧
  building (fmt_result ef es msg s) (drop (need (2 + Z.of_nat (length msg) + Z.of_nat (length t)) es) es)
    c1 (msg ++ (u8 <$> t)).
Proof using Hbits.
  intros [H Hm] t. pose proof max_entry_bounds as [Hmax Hmax'].
  assert (Z.of_nat (length t) = Z.min (Z.of_nat (length s)) (max_entry_size bits - 2 - Z.of_nat (length msg))) as Et.
  { unfold t, room. rewrite length_take. lia. }
  pose proof (ring_byte _ _ _ 0 _ H eq_refl) as Ec. rewrite Z.add_0_r in Ec.
  set (c := 2 + Z.of_nat (length msg)) in *.
  destruct (erase_n_ok (need (c + Z.of_nat (length t)) es) _ _ _ H (need_le _ _))
    as (G1 & (F1 & F2 & _) & _).
  pose proof (need_fits (c + Z.of_nat (length t)) es ltac:(lia)) as Gf.
  set (ef1 := erase_n _ ef) in *. set (es1 := drop _ es) in *. split.
  - unfold evl_fmt_cb. rewrite Ec, u32_id by (unfold is_u32; lia).
    rewrite s32_id by lia. replace (Z.min (Z.of_nat (length s)) (max_entry_size bits - c)) with (Z.of_nat (length t)) by lia.
    rewrite (ensure_ok _ _ _ _ H) by lia. cbn [mbind res_bind]. fold ef1. rewrite F2.
    assert (take (Z.to_nat (Z.of_nat (length t))) s = t) as ->; [|done].
    rewrite Nat2Z.id. unfold t at 1. rewrite length_take. unfold t.
    destruct (Nat.min_spec (room msg) (length s)) as [[? ->]|[? ->]]; [done|]. by rewrite !take_ge by lia.
  - unfold building, fmt_result. fold c t ef1. rewrite <- F1, <- F2.
    assert (length ([c; c1] ++ msg) = Z.to_nat c) as Elen.
    { rewrite length_app. cbn [length]. unfold c. lia. }
    pose proof (append_ok ef1 es1 _ t G1 ltac:(rewrite Elen; lia)) as A. rewrite Elen in A.
    rewrite Z2Nat.id in A by lia.
    pose proof (patch_ok _ _ _ 0 (c + Z.of_nat (length t)) A ltac:(cbn; lia)) as B.
    change (Z.of_nat 0) with 0 in B. rewrite Z.add_0_r in B.
    cbn [app insert list_insert] in B. rewrite u8_id in B by (unfold is_byte; lia).
    cbn [set_data ev_head ev_data] in B. rewrite length_app, length_fmap. split; [|lia].
    cbn [app]. replace (2 + Z.of_nat (length msg + length t)) with (c + Z.of_nat (length t)) by lia.
    exact B.
Qed.

(** ** The callback as a sink *)

Definition cb_full : fmtcb evlog := λ s ef,
  match evl_fmt_cb bits s ef with
  | Ret (_, ef') => Ret (Z.of_nat (length s), ef')
  | Fault f => Fault f
  end.
Definition evl_absorb (ef : evlog) (s : list Z) : evlog :=
  match evl_fmt_cb bits s ef with Ret (_, ef') => ef' | Fault _ => ef end.

Lemma evl_absorb_eq ef es c1 msg s : building ef es c1 msg → evl_absorb ef s = fmt_result ef es msg s.
Proof using Hbits. intros H. unfold evl_absorb. by destruct (fmt_cb_ok _ _ _ _ s H) as [-> _]. Qed.

Lemma fmt_result_nil ef es c1 msg : building ef es c1 msg → fmt_result ef es msg [] = ef.
Proof using Hbits.
  intros [H Hm]. pose proof max_entry_bounds. unfold fmt_result. rewrite take_nil. cbn [length Eventlog.wbs Z.of_nat].
  rewrite Z.add_0_r. pose proof (lo_fits _ _ _ H) as Hf. rewrite length_app in Hf. cbn [length] in Hf.
  rewrite need_zero by lia. cbn [erase_n Nat.iter].
  pose proof (ring_byte _ _ _ 0 _ H eq_refl) as Ec. rewrite Z.add_0_r in Ec.
  rewrite wb_id; [by destruct ef|apply (lo_data _ _ _ H)|].
  rewrite Ec. symmetry. apply u8_id. unfold is_byte. lia.
Qed.

Lemma take_room msg a b :
  take (room msg) (a ++ b) =
  take (room msg) a ++ take (room (msg ++ (u8 <$> take (room msg) a))) b.
Proof.
  rewrite take_app. f_equal. f_equal. unfold room. rewrite length_app, length_fmap, length_take. lia.
Qed.

Lemma fmt_result_app ef es c1 msg a b : building ef es c1 msg →
  let t := take (room msg) a in
  fmt_result (fmt_result ef es msg a) (drop (need (2 + Z.of_nat (length msg) + Z.of_nat (length t)) es) es)
    (msg ++ (u8 <$> t)) b = fmt_result ef es msg (a ++ b).
Proof using Hbits.
  intros Hb t. destruct (fmt_cb_ok _ _ _ _ a Hb) as [_ Hb1]. destruct Hb as [H Hm].
  pose proof max_entry_bounds as Hmax. fold t in Hb1.
  symmetry. unfold fmt_result at 1. symmetry. unfold fmt_result at 1.
  set (c := 2 + Z.of_nat (length msg)) in *. set (n1 := need (c + Z.of_nat (length t)) es) in *.
  assert (Z.of_nat (length t) <= max_entry_size bits - c) as Ht by (unfold t, room; rewrite length_take; lia).
  set (t2 := take (room (msg ++ (u8 <$> t))) b).
  assert (2 + Z.of_nat (length (msg ++ (u8 <$> t))) = c + Z.of_nat (length t)) as Ec.
  { rewrite length_app, length_fmap. lia. }
  assert (Z.of_nat (length t2) <= max_entry_size bits - c - Z.of_nat (length t)) as Ht2.
  { unfold t2, room. rewrite length_take. lia. }
  rewrite Ec. rewrite (take_room msg a b). fold t t2 c. rewrite length_app.
  replace (c + Z.of_nat (length t + length t2)) with (c + Z.of_nat (length t) + Z.of_nat (length t2)) by lia.
  assert (need (c + Z.of_nat (length t) + Z.of_nat (length t2)) es =
    (need (c + Z.of_nat (length t) + Z.of_nat (length t2)) (drop n1 es) + n1)%nat) as En.
  { rewrite <- (need_mono (c + Z.of_nat (length t)) (c + Z.of_nat (length t) + Z.of_nat (length t2)) es)
      by lia. fold n1. lia. }
  rewrite En. clear En. set (n2 := need _ (drop n1 es)).
  destruct (erase_n_ok n1 _ _ _ H (need_le _ _)) as (G1 & (F1 & F2 & _) & _).
  unfold building in Hb1. destruct Hb1 as [Hb1 _]. unfold fmt_result in Hb1 |- *. fold t c n1 in Hb1 |- *.
  rewrite (erase_set_data n2 _ (drop n1 es) _ _ _ G1 Hb1) by apply need_le.
  unfold erase_n. rewrite Nat.iter_add. fold (erase_n n1 ef). fold (erase_n n2 (erase_n n1 ef)).
  rewrite set_data_twice. cbn [set_data ev_head ev_data]. rewrite F1. f_equal.
  rewrite wbs_wb_comm, wb_wb, wbs_app by lia. do 2 f_equal. lia.
Qed.

#[export] Program Instance evl_sink : FmtSink cb_full :=
  {| sink_ok := λ ef, ∃ es c1 msg, building ef es c1 msg; absorb := evl_absorb |}.
Next Obligation.
  intros ef s (es & c1 & msg & H). unfold cb_full, evl_absorb.
  by destruct (fmt_cb_ok _ _ _ _ s H) as [-> _].
Qed.
Next Obligation.
  intros ef s (es & c1 & msg & H). rewrite (evl_absorb_eq _ _ _ _ _ H).
  destruct (fmt_cb_ok _ _ _ _ s H) as [_ H']. eauto.
Qed.
Next Obligation.
  intros ef (es & c1 & msg & H). rewrite (evl_absorb_eq _ _ _ _ _ H). by eapply fmt_result_nil.
Qed.
Next Obligation.
  intros ef a b (es & c1 & msg & H). destruct (fmt_cb_ok _ _ _ _ a H) as [_ H'].
  rewrite !(evl_absorb_eq _ _ _ _ _ H), (evl_absorb_eq _ _ _ _ _ H'). by eapply fmt_result_app.
Qed.

Lemma cb_full_sim s : sim any (evl_fmt_cb bits s) (cb_full s).
Proof. intros ef. unfold cb_full. by destruct (evl_fmt_cb bits s ef) as [[??]|]. Qed.

(** Formatting adds the text to the record. *)
Lemma fmtv_record ef es c1 msg ds ap :
  building ef es c1 msg → Forall dir_ok ds →
  ∃ n, fmtv (evl_fmt_cb bits) false (concat (dir_text <$> ds)) (concat (dir_args <$> ds) ++ ap) ef
    = Ret (n, fmt_result ef es msg (concat (dir_out <$> ds))).
Proof using Hbits.
  intros H Hds. pose proof (fmt_loop_sends cb_full ds (S (length (concat (dir_text <$> ds)))) [] ap 0 Hds
    (Nat.lt_succ_diag_r _)) as Hs.
  specialize (Hs ef (ex_intro _ es (ex_intro _ c1 (ex_intro _ msg H)))). cbn [absorb evl_sink] in Hs.
  pose proof (fmtv_sim _ _ cb_full_sim false (concat (dir_text <$> ds)) (concat (dir_args <$> ds) ++ ap) ef) as Hm.
  change (fmtv cb_full false (concat (dir_text <$> ds)) (concat (dir_args <$> ds) ++ ap) ef = Ret
    (Z.of_nat (length (concat (dir_out <$> ds))), evl_absorb ef (concat (dir_out <$> ds)))) in Hs.
  rewrite Hs in Hm. destruct (fmtv (evl_fmt_cb bits) _ _ _ ef) as [[n ef']|]; [|done].
  destruct Hm as [_ ->]. exists n. by rewrite (evl_absorb_eq _ _ _ _ _ H).
Qed.

(** ** A record from begin to end *)

Lemma fols_moved_trans n m es es1 es2 ef ef1 ef2 :
  fols_moved n es es1 ef ef1 → fols_moved m es1 es2 ef1 ef2 → fols_moved (n + m) es es2 ef ef2.
Proof.
  intros H1 H2. eapply Forall2_trans; [|exact H1|exact H2].
  intros f f1 f2 [I1 G1] [I2 G2]. split; [congruence|]. intros j Hj.
  destruct (G1 j Hj) as [K1 K2]. destruct (G2 _ K1) as [K3 K4].
  replace (j - (n + m))%nat with (j - n - m)%nat by lia. split; [done|].
  rewrite K4, K2. unfold u16. rewrite Zplus_mod_idemp_l. f_equal. lia.
Qed.

Lemma fols_stay es k ef ef' :
  followers ef' = followers ef → ev_tail ef' = ev_tail ef → fols_moved 0 es (es ++ k) ef ef'.
Proof.
  intros E1 E2. unfold fols_moved. rewrite E1, E2. apply Forall_Forall2_diag, Forall_forall.
  intros f _. split; [done|]. intros j (Hj & Hp & Hd). rewrite Nat.sub_0_r. split.
  - split; [rewrite length_app; lia|]. by rewrite take_app_le.
  - cbn [Nat.sub]. rewrite Z.add_0_r. symmetry. by apply u16_id.
Qed.

(** Absolute times of the records. *)
Fixpoint stamps (t : Z) (es : list entry) : list (Z * Z * list Z) :=
  match es with
  | [] => []
  | e :: es => (t + e_delta e, e_level e, e_msg e) :: stamps (t + e_delta e) es
  end.
Definition view (ef : evlog) (es : list entry) : list (Z * Z * list Z) := stamps (ts_tail ef) es.

Lemma stamps_drop n : ∀ t es, drop n (stamps t es) = stamps (t + span (take n es)) (drop n es).
Proof.
  induction n as [|n IH]; intros t es; [rewrite take_0, !drop_0; change (span []) with 0; by rewrite Z.add_0_r|].
  destruct es as [|e es]; [done|]. cbn [stamps drop take]. rewrite IH.
  change (span (e :: take n es)) with (e_delta e + span (take n es)). f_equal. lia.
Qed.

Lemma stamps_snoc t es e : stamps t (es ++ [e]) =
  stamps t es ++ [(t + span es + e_delta e, e_level e, e_msg e)].
Proof.
  revert t. induction es as [|a es IH]; intros t; cbn [stamps app].
  - change (span []) with 0. by rewrite Z.add_0_r.
  - rewrite IH. change (span (a :: es)) with (e_delta a + span es). by rewrite !Z.add_assoc.
Qed.

Lemma span_app a b : span (a ++ b) = span a + span b.
Proof.
  unfold span. rewrite fmap_app. induction (e_delta <$> a) as [|x l IH]; cbn; [lia|]. lia.
Qed.

(** What happened to readers, numbering and times when [n] records went. *)
Record passed (n : nat) (es : list entry) (ef ef' : evlog) : Prop := {
  pa_fols : fols_moved n es (drop n es) ef ef';
  pa_seq : seq_tail ef' = u32 (seq_tail ef + Z.of_nat n);
  pa_view : view ef' (drop n es) = drop n (view ef es);
  pa_calls : ev_calls ef' = ev_calls ef }.

Lemma passed_erase n ef es p : log_ok ef es p → (n <= length es)%nat → passed n es ef (erase_n n ef).
Proof using Hbits.
  intros H Hn. destruct (erase_n_ok n _ _ _ H Hn) as (G1 & (F1 & F2 & F3 & F4 & F5) & Et & Es & Hm).
  split; [done|done| |done]. unfold view. by rewrite stamps_drop, Et.
Qed.

Lemma passed_trans n m es ef ef1 ef2 :
  passed n es ef ef1 → passed m (drop n es) ef1 ef2 → passed (n + m) es ef ef2.
Proof.
  intros [A1 A2 A3 A4] [B1 B2 B3 B4]. rewrite drop_drop in *. split; [..|congruence].
  - by eapply fols_moved_trans.
  - rewrite B2, A2. unfold u32. rewrite Zplus_mod_idemp_l. f_equal. lia.
  - by rewrite B3, A3, drop_drop.
Qed.

Lemma passed_data n es ef ef' d : passed n es ef ef' → passed n es ef (set_data d ef').
Proof. by intros [A1 A2 A3 A4]. Qed.

(** A clock that has not gone back behind the newest record. *)
Definition clock_ok (now : Z) (ef : evlog) (es : list entry) : Prop :=
  ts_head ef <= now < 2 ^ 62 ∧ (es = [] ∨ now < ts_head ef + MAX_DELTA).

Lemma set_mutex_ok b ef es p : log_ok ef es p → log_ok (set_mutex b ef) es p.
Proof. by intros []. Qed.

Lemma times_ok ef p now : log_ok ef [] p → 0 <= now < 2 ^ 62 → log_ok (set_times now now ef) [] p.
Proof. intros [] ?. split; try done. cbn. change (span []) with 0. lia. Qed.

Lemma begin_ok now ef es : log_ok ef es [] → ev_mutex ef = false → clock_ok now ef es →
  ∃ ef' c1, begin_record bits now ef = Ret ef' ∧ building ef' (drop (need 2 es) es) c1 [] ∧
    ev_mutex ef' = true ∧ ts_head ef <= ts_head ef' <= now ∧ now < ts_head ef' + MAX_DELTA ∧
    passed (need 2 es) es ef ef'.
Proof using Hbits.
  intros H Hmx [Hnow Hclk]. pose proof max_entry_bounds as Hmax. unfold begin_record, mutex_lock.
  rewrite Hmx. cbn [mbind res_bind]. apply (set_mutex_ok true) in H.
  rewrite (ensure_ok 2 _ _ _ H) by lia. cbn [mbind res_bind].
  destruct (erase_n_ok (need 2 es) _ _ _ H (need_le _ _)) as (G1 & (F1 & F2 & F3 & F4 & F5) & _).
  pose proof (passed_erase (need 2 es) _ _ _ H (need_le _ _)) as Hp.
  pose proof (need_fits 2 es ltac:(lia)) as Hf.
  set (ef1 := erase_n _ _) in *. set (es1 := drop (need 2 es) es) in *.
  (* the two bytes: what the ring holds behind [head], the first replaced *)
  set (ef2 := if ev_head ef1 =? ev_tail ef1 then set_times now now ef1 else ef1).
  assert (0 <= ts_head ef) as H0.
  { destruct (lo_times _ _ _ H) as (? & ? & _). pose proof (span_nonneg es (lo_entries _ _ _ H)). cbn in *. lia. }
  assert (log_ok ef2 es1 [] ∧ (ts_head ef <= ts_head ef2 <= now ∧ now < ts_head ef2 + MAX_DELTA) ∧
          ev_mutex ef2 = true ∧ passed (need 2 es) es ef ef2) as (G2 & Ht & Hm2 & Hp2).
  { unfold ef2. destruct (Z.eqb_spec (ev_head ef1) (ev_tail ef1)) as [E|E].
    - apply (head_ne_tail _ _ _ G1) in E. rewrite E in *. split; [apply times_ok; [done|lia]|].
      split; [cbn; unfold MAX_DELTA; lia|]. split; [cbn; by rewrite F3|].
      destruct Hp as [A1 A2 A3 A4]. fold es1 in A1, A3. rewrite E in A1, A3.
      split; fold es1; rewrite ?E; done.
    - assert (es1 ≠ []) as Hne by (intros ?; by apply E, (head_ne_tail _ _ _ G1)).
      split; [done|]. split; [|split; [by rewrite F3|by destruct Hp; split]].
      destruct Hclk as [->|]; [|rewrite F5; cbn; lia]. exfalso. apply Hne. unfold es1. by rewrite drop_nil. }
  set (c1 := rb (ev_data ef2) (ev_head ef2 + 1)).
  assert (log_ok ef2 es1 [rb (ev_data ef2) (ev_head ef2); c1]) as G3.
  { destruct G2 as [H1 H2 H3 H4 H5 H6 H7 H8 H9]. split; try done.
    - rewrite app_nil_r in H4. apply ring_split. split; [done|]. cbn [length]. rewrite !ring_S.
      unfold c1. rewrite H3, rb_u16, rb_u16_0. done. }
  eexists _, c1. split; [reflexivity|]. fold ef2. split_and!.
  - pose proof (patch_ok _ _ _ 0 2 G3 ltac:(cbn; lia)) as B. change (Z.of_nat 0) with 0 in B.
    rewrite Z.add_0_r in B. split; [exact B|]. cbn [length]. lia.
  - exact Hm2.
  - apply Ht.
  - apply Ht.
  - apply Ht.
  - by apply passed_data.
Qed.

Lemma enc_all_snoc es e : enc_all (es ++ [e]) = enc_all es ++ enc e.
Proof. unfold enc_all. rewrite bind_app. cbn. by rewrite app_nil_r. Qed.

(** The finished record: its bytes are those of [e]. *)
Lemma msg_done_ok ef es c1 msg level now :
  building ef es c1 msg → bytes msg → 0 <= level < 8 → now < 2 ^ 62 →
  ts_head ef <= now < ts_head ef + MAX_DELTA →
  let e := Entry level msg (now - ts_head ef) in
  let n := need (Z.of_nat (length (enc e))) es in
  ∃ ef', evlog_msg_done bits level now ef = Ret ef' ∧ log_ok ef' (drop n es ++ [e]) [] ∧ entry_ok e ∧
    fols_moved n es (drop n es ++ [e]) ef ef' ∧ seq_tail ef' = u32 (seq_tail ef + Z.of_nat n) ∧
    view ef' (drop n es ++ [e]) = drop n (view ef es) ++ [(now, level, msg)] ∧
    ts_head ef' = now ∧ ev_mutex ef' = false ∧
    ev_calls ef' = ev_calls ef ++ (f_id <$> followers ef').
Proof using Hbits.
  intros [H Hm] Hb Hl Hnow Hclk e n. pose proof max_entry_bounds as Hmax.
  assert (entry_ok e) as He by (split; cbn; lia || done).
  destruct (enc_length e He) as [El Hle]. cbn [e e_msg e_delta] in El.
  destruct (ts_bytes_spec (now - ts_head ef) ltac:(lia)) as (_ & Htb & Htl).
  set (tb := ts_bytes (now - ts_head ef)) in *. set (c := 2 + Z.of_nat (length msg)) in *.
  pose proof (ring_byte _ _ _ 0 _ H eq_refl) as Ec. rewrite Z.add_0_r in Ec.
  destruct (lo_times _ _ _ H) as (T1 & T2 & T3). pose proof (span_nonneg es (lo_entries _ _ _ H)).
  unfold evlog_msg_done. rewrite Ec, s64_id by (change (2 ^ 62) with 4611686018427387904 in *; lia).
  rewrite (proj2 (Z.ltb_ge _ _)) by lia. fold tb. rewrite <- El.
  rewrite (ensure_ok _ _ _ _ H) by lia. cbn [mbind res_bind]. fold n.
  destruct (erase_n_ok n _ _ _ H (need_le _ _)) as (G1 & (F1 & F2 & F3 & F4 & F5) & Et & Es & Hfm).
  pose proof (need_fits (Z.of_nat (length (enc e))) es ltac:(lia)) as Gf. fold n in Gf.
  set (ef1 := erase_n n ef) in *. set (es1 := drop n es) in *. rewrite <- F1.
  assert (length ([c; c1] ++ msg) = Z.to_nat c) as Elen.
  { rewrite length_app. cbn [length]. unfold c. lia. }
  pose proof (append_ok ef1 es1 _ tb G1 ltac:(rewrite Elen; lia)) as A. rewrite Elen, Z2Nat.id in A by lia.
  pose proof (patch_ok _ _ _ 0 (Z.of_nat (length (enc e))) A ltac:(cbn; lia)) as B.
  change (Z.of_nat 0) with 0 in B. rewrite Z.add_0_r in B.
  pose proof (patch_ok _ _ _ 1 (Z.lor level (Z.shiftl (Z.of_nat (length tb)) 3)) B ltac:(cbn; lia)) as C.
  destruct (flags_split level (Z.of_nat (length tb)) Hl ltac:(lia)) as (_ & _ & Hfb).
  change (Z.of_nat 1) with 1 in C.
  cbn [app insert list_insert set_data ev_head ev_data] in C. rewrite !u8_id in C by (done || unfold is_byte; lia).
  assert (u8 <$> tb = tb) as Eu.
  { clearbody tb. clear -Htb. induction Htb as [|b l Hb _ IH]; [done|]. rewrite fmap_cons, IH. by rewrite u8_id. }
  rewrite Eu in C.
  assert (Z.of_nat (length (enc e)) :: Z.lor level (Z.shiftl (Z.of_nat (length tb)) 3) :: msg ++ tb = enc e) as Een.
  { unfold enc at 2. cbn [e e_msg e_delta e_level app]. rewrite El. done. }
  rewrite Een in C. set (d := wb (ev_head ef1 + 1) _ _) in *.
  change (log_ok (set_data d ef1) es1 (enc e)) in C.
  eexists. split; [reflexivity|].
  assert (span (es1 ++ [e]) = span es1 + (now - ts_head ef)) as Esp.
  { rewrite span_app. unfold span at 2. cbn. lia. }
  destruct (lo_times _ _ _ G1) as (S1 & S2 & S3).
  pose proof (span_nonneg es1 (lo_entries _ _ _ G1)). split_and!; [|done|..].
  - destruct C as [Q1 Q2 Q3 Q4 Q5 Q6 Q7 Q8 Q9]. cbn [set_data ev_tail ev_head ev_data] in *.
    split; cbn [mutex_unlock set_mutex ev_tail ev_head ev_data ts_tail ts_head seq_tail followers]; try done.
    + rewrite Q3. unfold u16, esize. rewrite enc_all_snoc, length_app, Zplus_mod_idemp_l. f_equal. lia.
    + by rewrite enc_all_snoc, app_nil_r.
    + unfold esize. rewrite enc_all_snoc, length_app. unfold esize in Q5. cbn [length]. lia.
    + apply Forall_app. split; [done|]. by constructor.
    + rewrite Esp. lia.
    + intros f Hf. destruct (Q9 f Hf) as (j & Hj & Hp & Hd). exists j. split; [rewrite length_app; lia|].
      by rewrite take_app_le.
  - replace n with (n + 0)%nat by lia. eapply fols_moved_trans; [exact Hfm|]. by apply fols_stay.
  - exact Es.
  - unfold view. rewrite stamps_snoc, stamps_drop. fold es1. rewrite <- Et. cbn [ts_tail mutex_unlock set_mutex].
    f_equal. cbn [e e_delta e_level e_msg]. rewrite <- F5, S2. do 3 f_equal. lia.
  - done.
  - done.
  - cbn. by rewrite F4.
Qed.

(** The text of a record: what fits, as bytes. *)
Definition record_text (out : list Z) : list Z := u8 <$> take (Z.to_nat (max_entry_size bits - 2)) out.

Lemma room_nil : room [] = Z.to_nat (max_entry_size bits - 2).
Proof. unfold room. cbn [length]. f_equal. lia. Qed.

Lemma bytes_u8 (l : list Z) : bytes (u8 <$> l).
Proof. apply Forall_fmap, Forall_true. intros. apply u8_byte. Qed.

(** What a finished record did to the log: [n] records went, [e] came. *)
Definition recorded (now level : Z) (text : list Z) (es : list entry) (ef : evlog) (e : entry)
    (ef' : evlog) : Prop :=
  let n := need (Z.of_nat (length (enc e))) es in
  log_ok ef' (drop n es ++ [e]) [] ∧ entry_ok e ∧
  view ef' (drop n es ++ [e]) = drop n (view ef es) ++ [(now, level, text)] ∧
  seq_tail ef' = u32 (seq_tail ef + Z.of_nat n) ∧
  fols_moved n es (drop n es ++ [e]) ef ef' ∧
  ts_head ef' = now ∧ ts_head ef <= now - e_delta e ∧ ev_mutex ef' = false ∧
  ev_calls ef' = ev_calls ef ++ (f_id <$> followers ef').

(** From a state behind [begin_record] to the end of the record. *)
Lemma finish_ok ef es k ef1 c1 text level now :
  passed k es ef ef1 → building ef1 (drop k es) c1 text → (k <= need (2 + Z.of_nat (length text)) es)%nat →
  bytes text → 0 <= level < 8 → now < 2 ^ 62 → ts_head ef <= ts_head ef1 <= now →
  now < ts_head ef1 + MAX_DELTA →
  ∃ e ef', evlog_msg_done bits level now ef1 = Ret ef' ∧ recorded now level text es ef e ef'.
Proof using Hbits.
  intros Hp Hb Hk Hbt Hl Hnow Hge Hclk.
  destruct (msg_done_ok _ _ _ _ level now Hb Hbt Hl Hnow ltac:(lia)) as (ef' & E & Hlog & He & Hf & Hs & Hv & Ht & Hm & Hc).
  set (e := Entry level text (now - ts_head ef1)) in *. exists e, ef'. split; [done|].
  set (sz := Z.of_nat (length (enc e))) in *.
  destruct (enc_length e He) as [El Hlen]. pose proof size_bounds.
  assert (need sz es = (k + need sz (drop k es))%nat) as En.
  { apply Nat.le_antisymm.
    - apply need_least. rewrite <- drop_drop. apply need_fits. unfold sz. lia.
    - assert (k <= need sz es)%nat as Hle.
      { etransitivity; [exact Hk|]. apply need_least. pose proof (need_fits sz es ltac:(unfold sz; lia)).
        cbn [e e_msg] in El. unfold sz in *. lia. }
      assert (need sz (drop k es) <= need sz es - k)%nat; [|lia]. apply need_least. rewrite drop_drop.
      replace (k + (need sz es - k))%nat with (need sz es) by lia. apply need_fits. unfold sz. lia. }
  unfold recorded. fold sz. rewrite En. destruct Hp as [P1 P2 P3 P4]. rewrite <- drop_drop.
  split_and!; try done.
  - by rewrite Hv, P3, drop_drop.
  - rewrite Hs, P2. unfold u32. rewrite Zplus_mod_idemp_l. f_equal. lia.
  - by eapply fols_moved_trans.
  - cbn [e e_delta]. lia.
  - by rewrite Hc, P4.
Qed.

(** ** Readers *)

Lemma stamps_length t es : length (stamps t es) = length es.
Proof. revert t. induction es as [|e es IH]; intros t; cbn; [done|]. by rewrite IH. Qed.

Lemma stamps_lookup t es j e : es !! j = Some e →
  stamps t es !! j = Some (t + span (take j es) + e_delta e, e_level e, e_msg e).
Proof.
  revert t j. induction es as [|a es IH]; intros t j Hj; [done|]. destruct j as [|j]; cbn in *.
  - injection Hj as ->. change (span []) with 0. by rewrite Z.add_0_r.
  - rewrite (IH _ _ Hj). change (span (a :: take j es)) with (e_delta a + span (take j es)).
    by rewrite !Z.add_assoc.
Qed.

(** A follower is at the head when it has seen every record. *)
Lemma fol_at_head ef es p f j : log_ok ef es p → fol_at (ev_tail ef) es f j →
  (f_ptr f = ev_head ef ↔ j = length es).
Proof using Hbits.
  intros H (Hj & -> & _). rewrite (lo_head _ _ _ H). pose proof (lo_fits _ _ _ H) as Hf. pose proof size_bounds.
  split; [|intros ->; by rewrite firstn_all].
  intros E. destruct (decide (j = length es)) as [|Hne]; [done|].
  assert (esize es = esize (take j es) + esize (drop j es)) as Es by (by rewrite <- esize_app, take_drop).
  assert (2 <= esize (drop j es)).
  { apply esize_pos; [apply Forall_drop, (lo_entries _ _ _ H)|]. intros E0%(f_equal length).
    rewrite length_drop in E0. cbn in E0. lia. }
  pose proof (esize_nonneg (take j es)). unfold u16 in E. rewrite Es in E, Hf. dlia.
Qed.

(** A follower is at the tail when nothing before it is left. *)
Lemma fol_at_tail ef es p f j : log_ok ef es p → fol_at (ev_tail ef) es f j →
  (f_ptr f = ev_tail ef ↔ j = 0%nat).
Proof using Hbits.
  intros H (Hj & -> & _). pose proof (lo_fits _ _ _ H) as Hf. pose proof size_bounds.
  pose proof (lo_tail _ _ _ H). pose proof (esize_take_le j es). split.
  - intros E. destruct j as [|j]; [done|].
    assert (2 <= esize (take (S j) es)).
    { apply esize_pos; [apply Forall_take, (lo_entries _ _ _ H)|]. destruct es; [cbn in Hj; lia|done]. }
    unfold u16 in E. dlia.
  - intros ->. rewrite take_0. change (esize []) with 0. rewrite Z.add_0_r. by apply u16_id.
Qed.

(** The record a follower is in front of. *)
Lemma fol_record ef es p f j e : log_ok ef es p → fol_at (ev_tail ef) es f j → es !! j = Some e →
  entry_ok e ∧ ring (ev_data ef) (f_ptr f) (length (enc e)) = enc e ∧
  u16 (f_ptr f + Z.of_nat (length (enc e))) = u16 (ev_tail ef + esize (take (S j) es)).
Proof using Hbits.
  intros H (Hj & Hp & _) He. pose proof (lo_ring _ _ _ H) as E.
  assert (es = take j es ++ e :: drop (S j) es) as Es by (symmetry; by apply take_drop_middle).
  split; [by eapply Forall_lookup_1; [apply (lo_entries _ _ _ H)|]|]. split.
  - rewrite Es in E. unfold enc_all in E. rewrite bind_app, <- app_assoc in E.
    apply ring_split in E as [_ E]. cbn [mbind list_bind] in E. rewrite <- app_assoc in E.
    apply ring_split in E as [E _]. rewrite Hp, <- (Z.add_0_r (u16 _)), ring_u16, Z.add_0_r. exact E.
  - rewrite Hp, (take_S_r es j e He), esize_app. unfold esize at 3. unfold enc_all. cbn.
    rewrite app_nil_r. unfold u16. rewrite Zplus_mod_idemp_l. f_equal. lia.
Qed.

(** Moving the one follower with this id. *)
Lemma find_follower_elem id ef f : find_follower id ef = Some f → f ∈ followers ef ∧ f_id f = id.
Proof.
  unfold find_follower. destruct (list_find _ _) as [[i x]|] eqn:E; [|done]. cbn. intros [= ->].
  apply list_find_Some in E as (E1 & E2 & _). split; [by eapply list_elem_of_lookup_2|done].
Qed.

Lemma move_ok id ptr ef es p f j : log_ok ef es p → find_follower id ef = Some f →
  NoDup (f_id <$> followers ef) → fol_at (ev_tail ef) es (Follower id ptr (f_drops f)) j →
  log_ok (move_follower id ptr ef) es p ∧
  find_follower id (move_follower id ptr ef) = Some (Follower id ptr (f_drops f)) ∧
  f_id <$> followers (move_follower id ptr ef) = f_id <$> followers ef.
Proof.
  intros H Hf Hnd Hj. unfold find_follower in *.
  destruct (list_find _ _) as [[i x]|] eqn:E; [|done]. cbn in Hf. injection Hf as ->.
  apply list_find_Some in E as (E1 & E2 & E3). split_and!.
  - destruct H as [H1 H2 H3 H4 H5 H6 H7 H8 H9]. split; try done. cbn [move_follower followers set_followers ev_tail].
    intros g (g0 & -> & Hg)%list_elem_of_fmap. destruct (decide (f_id g0 = id)) as [Eid|Eid]; [|by apply H9].
    apply list_elem_of_lookup_1 in Hg as [k Hk].
    assert (k = i) as ->.
    { apply (NoDup_lookup _ k i id Hnd); rewrite list_lookup_fmap; [rewrite Hk|rewrite E1]; cbn; by rewrite ?Eid, ?E2. }
    rewrite E1 in Hk. injection Hk as ->. by exists j.
  - cbn [move_follower followers set_followers]. 
    set (g := λ f0, if decide (f_id f0 = id) then Follower id ptr (f_drops f0) else f0).
    assert (list_find (λ f0, f_id f0 = id) (g <$> followers ef) = Some (i, g f)) as ->.
    { apply list_find_Some. split_and!.
      - by rewrite list_lookup_fmap, E1.
      - unfold g. by case_decide.
      - intros k y Hk Hlt. rewrite list_lookup_fmap in Hk. destruct (followers ef !! k) as [z|] eqn:Ez; [|done].
        cbn in Hk. injection Hk as <-. pose proof (E3 k z Ez Hlt). unfold g. by case_decide. }
    cbn. unfold g. by case_decide.
  - cbn [move_follower followers set_followers]. rewrite <- list_fmap_compose. apply list_fmap_ext.
    intros k y _. unfold compose. by case_decide.
Qed.

(** A pass of the reader in front of record [j]. *)
Lemma pass_ok id ef es f j ts follow :
  log_ok ef es [] → find_follower id ef = Some f → fol_at (ev_tail ef) es f j →
  NoDup (f_id <$> followers ef) → 0 <= ts → ts + span (drop j es) < 2 ^ 62 →
  match es !! j with
  | None => stream_log_pass bits id follow true ts ef =
      Ret (if follow then (LWait, ts, mutex_unlock ef) else (LEnd, ts, ef))
  | Some e =>
      ∃ ef', stream_log_pass bits id follow true ts ef =
        Ret (LLine (ts + e_delta e) (e_level e) (e_msg e), ts + e_delta e, mutex_unlock ef') ∧
      log_ok ef' es [] ∧ ev_tail ef' = ev_tail ef ∧ ts_tail ef' = ts_tail ef ∧ seq_tail ef' = seq_tail ef ∧
      (∃ f', find_follower id ef' = Some f' ∧ fol_at (ev_tail ef') es f' (S j) ∧ f_drops f' = f_drops f) ∧
      f_id <$> followers ef' = f_id <$> followers ef
  end.
Proof using Hbits.
  intros H Hf Hj Hnd Hts Hmax. unfold stream_log_pass. rewrite Hf.
  destruct (es !! j) as [e|] eqn:Ee.
  - destruct (fol_record _ _ _ _ _ _ H Hj Ee) as (He & Hr & Hn).
    destruct (record_fields _ _ e He Hr) as (R1 & R2 & R3 & R4 & R5).
    assert (j < length es)%nat as Hlt by (by eapply lookup_lt_Some).
    destruct (Z.eqb_spec (f_ptr f) (ev_head ef)) as [E|_].
    { apply (fol_at_head _ _ _ _ _ H Hj) in E. lia. }
    rewrite R4, R1, R2, R3. pose proof (ok_delta e He). pose proof max_entry_bounds. pose proof (ok_size e He).
    rewrite (drop_S es e j Ee) in Hmax. change (span (e :: drop (S j) es)) with (e_delta e + span (drop (S j) es)) in Hmax.
    pose proof (span_nonneg (drop (S j) es) (Forall_drop _ _ _ (lo_entries _ _ _ H))).
    rewrite s64_id by (change (2 ^ 62) with 4611686018427387904 in *; lia). cbn [negb].
    rewrite (proj1 (copy_out_ring (ev_data ef) (f_ptr f) (Z.of_nat (length (e_msg e))) (lo_data _ _ _ H) ltac:(lia))), Nat2Z.id, R5. cbn [mbind res_bind].
    set (ptr' := u16 (f_ptr f + Z.of_nat (length (enc e)))).
    assert (fol_at (ev_tail ef) es (Follower id ptr' (f_drops f)) (S j)) as Hj'.
    { split; [lia|]. cbn. split; [exact Hn|apply Hj]. }
    destruct (move_ok id ptr' ef es [] f (S j) H Hf Hnd Hj') as (M1 & M2 & M3).
    exists (move_follower id ptr' ef). split_and!; try done. by eexists.
  - apply lookup_ge_None in Ee. pose proof (proj1 Hj).
    rewrite (proj2 (Z.eqb_eq _ _)) by (apply (fol_at_head _ _ _ _ _ H Hj); lia).
    by destruct follow.
Qed.

(** A record is logged whole and in its place: [evlog] formats the message, gives up as
    few of the oldest records as make room for it (their number moves the sequence number
    and every reader that had not got that far, counting what it lost), keeps the other
    records with their times, and adds the message, cut to the maximum, with the current
    time. *)
Theorem evlog_correct ef es now level ds :
  log_ok ef es [] → ev_mutex ef = false → clock_ok now ef es → 0 <= level < 8 → Forall dir_ok ds →
  ∃ e ef',
    evlog_record bits now level (concat (dir_text <$> ds)) (concat (dir_args <$> ds)) ef = Ret ef' ∧
    recorded now level (record_text (concat (dir_out <$> ds))) es ef e ef'.
Proof using Hbits.
  intros H Hm Hclk Hl Hds. destruct (begin_ok now ef es H Hm Hclk) as (ef1 & c1 & E1 & B1 & _ & Ht & Hlt & Hp).
  unfold evlog_record. rewrite E1. cbn [mbind res_bind].
  destruct (fmtv_record ef1 _ c1 [] ds [] B1 Hds) as [k E2]. rewrite app_nil_r in E2. rewrite E2. cbn [mbind res_bind].
  set (out := concat (dir_out <$> ds)) in *. destruct (fmt_cb_ok _ _ _ _ out B1) as [_ B2].
  set (t := take (room []) out) in *. cbn [app length] in B2. rewrite Z.add_0_r in B2.
  set (es1 := drop (need 2 es) es) in *. set (n2 := need (2 + Z.of_nat (length t)) es1) in *.
  assert (u8 <$> t = record_text out) as Et by (unfold t; by rewrite room_nil).
  assert (passed n2 es1 ef1 (fmt_result ef1 es1 [] out)) as Hp2.
  { unfold fmt_result. fold t. cbn [length]. rewrite Z.add_0_r. apply passed_data.
    eapply passed_erase; [apply B1|apply need_le]. }
  pose proof max_entry_bounds. destruct B2 as [B2 B2']. rewrite Et in *.
  assert (length (record_text out) = length t) as Elen by (rewrite <- Et; by rewrite length_fmap).
  eapply (finish_ok ef es (need 2 es + n2) _ c1 (record_text out) level now).
  - by eapply passed_trans.
  - rewrite <- drop_drop. by split.
  - rewrite Elen. unfold n2, es1. rewrite need_mono; lia.
  - apply bytes_u8.
  - done.
  - apply Hclk.
  - destruct (erase_n_ok n2 ef1 es1 _ (proj1 B1) (need_le _ _)) as (_ & (_ & _ & _ & _ & F5) & _).
    unfold fmt_result. fold t. cbn [length]. rewrite Z.add_0_r. fold n2. cbn [set_data ts_head]. rewrite F5. lia.
  - destruct (erase_n_ok n2 ef1 es1 _ (proj1 B1) (need_le _ _)) as (_ & (_ & _ & _ & _ & F5) & _).
    unfold fmt_result. fold t. cbn [length]. rewrite Z.add_0_r. fold n2. cbn [set_data ts_head]. rewrite F5. lia.
Qed.

(** ** Writers and a reader *)






Lemma find_follower_ext id ef ef' : followers ef' = followers ef → find_follower id ef' = find_follower id ef.
Proof. unfold find_follower. by intros ->. Qed.







(** ** The log command *)

Lemma remove_ok id ef es p : log_ok ef es p → log_ok (remove_follower id ef) es p.
Proof.
  intros [H1 H2 H3 H4 H5 H6 H7 H8 H9]. split; try done. cbn. intros g [_ Hg]%list_elem_of_filter. by apply H9.
Qed.

Lemma run_ok id fuel : ∀ ef es f j ts,
  log_ok ef es [] → find_follower id ef = Some f → fol_at (ev_tail ef) es f j →
  NoDup (f_id <$> followers ef) → ts = ts_tail ef + span (take j es) →
  (length es - j < fuel)%nat →
  ∃ ef', stream_log_run bits fuel id ts ef = Ret (drop j (view ef es), ef') ∧
    log_ok ef' es [] ∧ ev_mutex ef' = false ∧ f_id <$> followers ef' = filter (λ x, x ≠ id) (f_id <$> followers ef).
Proof using Hbits.
  induction fuel as [|fuel IH]; intros ef es f j ts H Hf Hj Hnd Hts Hfuel; [lia|]. cbn [stream_log_run].
  destruct (lo_times _ _ _ H) as (T1 & T2 & T3). pose proof (proj1 Hj) as Hjl.
  pose proof (span_nonneg (take j es) (Forall_take _ _ _ (lo_entries _ _ _ H))).
  assert (span es = span (take j es) + span (drop j es)) as Esp by (by rewrite <- span_app, take_drop).
  pose proof (pass_ok id ef es f j ts false H Hf Hj Hnd ltac:(lia) ltac:(lia)) as P.
  destruct (es !! j) as [e|] eqn:Ee.
  - destruct P as (ef1 & -> & L1 & Et & Ett & Esq & (f' & Hf' & Hj' & _) & Eids). cbn [mbind res_bind].
    unfold mutex_lock. cbn [mutex_unlock set_mutex ev_mutex res_bind mbind].
    assert (j < length es)%nat by (by eapply lookup_lt_Some).
    destruct (IH (set_mutex true (mutex_unlock ef1)) es f' (S j) (ts + e_delta e))
      as (ef2 & E2 & L2 & M2 & I2).
    + by apply set_mutex_ok, set_mutex_ok.
    + exact Hf'.
    + exact Hj'.
    + cbn. by rewrite Eids.
    + cbn. rewrite Ett, (take_S_r _ _ _ Ee), span_app. unfold span at 2. cbn. lia.
    + lia.
    + rewrite E2. exists ef2. split_and!; try done.
      * cbn [mbind res_bind]. do 2 f_equal. unfold view.
        rewrite (drop_S _ _ j (stamps_lookup (ts_tail ef) es j e Ee)), Hts. f_equal.
        cbn. by rewrite Ett.
      * rewrite I2. cbn. by rewrite Eids.
  - rewrite P. cbn [mbind res_bind]. apply lookup_ge_None in Ee.
    exists (stream_log_end id ef). split_and!; [|by apply set_mutex_ok, remove_ok|done|].
    + unfold view. rewrite drop_ge; [done|]. rewrite stamps_length. lia.
    + cbn. clear. induction (followers ef) as [|g l IH]; [done|]. rewrite fmap_cons, !filter_cons.
      case_decide; [by rewrite fmap_cons, IH|done].
Qed.

(** ** The service *)

Lemma pbuf_writes_ok fuel pp pieces : ∀ nm c,
  nm_ok nm → packet c → writable pp c → preferred_offset pp = 0 →
  0 < max_fragment_size pp <= PBUF_DATA_SIZE →
  chain_len c + Z.of_nat (length (concat pieces)) < 65536 → (length (concat pieces) < fuel)%nat →
  (∃ nm', pbuf_writes fuel nm c pieces pp = Ret ([], nm') ∧ nm_ok nm' ∧ conserved nm c nm' []) ∨
  ∃ c' nm', pbuf_writes fuel nm c pieces pp = Ret (c', nm') ∧ c' ≠ [] ∧
    payload c' = payload c ++ concat pieces ∧ packet c' ∧ nm_ok nm' ∧ conserved nm c nm' c' ∧
    (eop_last c → eop_last c').
Proof.
  unfold pbuf_writes.
  assert (∀ ps nm, foldl (λ m s, '(c, nm) ← m; pbuf_write fuel nm c s pp false) (Ret ([], nm)) ps = Ret ([], nm)) as Hnil.
  { intros ps. induction ps as [|x ps IH]; intros nm; [done|]. cbn. apply IH. }
  induction pieces as [|s pieces IH]; intros nm c Hnm Hp Hw Hpo Hmx Hl Hf; cbn [foldl].
  - right. exists c, nm. cbn. rewrite app_nil_r. split_and!; try done.
    destruct Hw as (c0 & pb & -> & _). by destruct c0.
  - cbn [concat] in *. rewrite length_app in *.
    destruct (pbuf_write_writable fuel nm c s pp false Hnm Hp Hw Hpo Hmx ltac:(lia) ltac:(lia))
      as [[[? _]|(_ & nm' & E & Hnm' & Hcv)]|(c' & nm' & E & Hne & Hpl & Hp' & Hnm' & Hcv & He & Hs & Hw')]; [done|..].
    + left. exists nm'. cbn [mbind res_bind]. rewrite E, Hnil. done.
    + cbn [mbind res_bind]. rewrite E.
      destruct (IH nm' c' Hnm' Hp' Hw' Hpo Hmx) as [(nm2 & E2 & N2 & C2)|(c2 & nm2 & E2 & Ne2 & P2 & K2 & N2 & C2 & Eo2)].
      * rewrite <- payload_length in Hl |- * by apply Hp || apply Hp'. rewrite Hpl, length_app. lia.
      * lia.
      * left. exists nm2. split_and!; try done. by eapply conserved_trans.
      * right. exists c2, nm2. split_and!; try done.
        -- by rewrite P2, Hpl, app_assoc.
        -- by eapply conserved_trans.
        -- tauto.
Qed.

(** The packet for a record. *)
Definition svc_packet (disc : bool) (seq level ms_ago : Z) (msg : list Z) : list Z :=
  [svc_hdr disc level (Z.of_nat (length (ts_bytes ms_ago)))] ++ (if disc then le32 seq else []) ++
  ts_bytes ms_ago ++ msg.

Lemma svc_hdr_spec disc level t : 0 <= level < 8 → 0 <= t < 8 →
  let h := svc_hdr disc level t in
  u8 h = h ∧ Z.land h 7 = level ∧ Z.land (Z.shiftr h 3) 7 = t ∧ (Z.land h 64 =? 0) = negb disc.
Proof.
  intros Hl Ht.
  assert (forallb (λ l, forallb (λ t, let h := svc_hdr disc l t in
    (u8 h =? h) && (Z.land h 7 =? l) && (Z.land (Z.shiftr h 3) 7 =? t) &&
    Bool.eqb (Z.land h 64 =? 0) (negb disc))%bool (seqZ 0 8)) (seqZ 0 8) = true) as E.
  { by destruct disc; vm_compute. }
  rewrite forallb_forall in E. specialize (E level ltac:(apply list_elem_of_In, elem_of_seqZ; lia)).
  rewrite forallb_forall in E. specialize (E t ltac:(apply list_elem_of_In, elem_of_seqZ; lia)).
  cbv zeta in E. apply andb_true_iff in E as [E E4]. apply eqb_prop in E4. bool_to_prop. done.
Qed.

(** The state of the service between two pulls: its time stamp is that of the record it
    sent last, unless what it is in front of is the oldest. *)
Definition svc_ok (esf : evlog_svc) (ef : evlog) (es : list entry) (f : follower) (j : nat) : Prop :=
  find_follower (esf_id esf) ef = Some f ∧ fol_at (ev_tail ef) es f j ∧
  NoDup (f_id <$> followers ef) ∧ (j = 0%nat ∨ esf_ts esf = ts_tail ef + span (take j es)).

Lemma make_packet_ok fuel nm pp pieces :
  nm_ok nm → preferred_offset pp = 0 → 0 < max_fragment_size pp <= PBUF_DATA_SIZE →
  (length (concat pieces) < fuel)%nat → Z.of_nat (length (concat pieces)) < 65536 →
  (∃ nm', make_packet fuel nm pp (Ret pieces) = Ret ([], nm') ∧ nm_ok nm' ∧ conserved nm [] nm' []) ∨
  ∃ c nm', make_packet fuel nm pp (Ret pieces) = Ret (c, nm') ∧ c ≠ [] ∧
    payload c = concat pieces ∧ packet c ∧ eop_last c ∧ nm_ok nm' ∧ conserved nm [] nm' c.
Proof.
  intros Hnm Hpo Hmx Hf Hl. unfold make_packet, pbuf_make0, pbuf_make_irq_blocked0. rewrite Hpo.
  destruct (get_both_cases nm false (λ a d, mk_pbuf a (Z.lor PBUF_SOP PBUF_EOP) 0 0 (u16 0) 0 d) Hnm)
    as [[? _]|[(nm1 & _ & E1 & N1 & C1)|(a & d & nm1 & E1 & N1 & A1 & A2 & A3 & P1 & P2)]]; [done|..];
    rewrite E1; cbn [mbind res_bind].
  { left. by exists nm1. }
  set (pb := mk_pbuf a _ 0 0 _ 0 d).
  assert (conserved nm [] nm1 [pb]) as C0.
  { split; [rewrite P1|rewrite P2]; unfold headers, buffers; cbn; rewrite app_nil_r;
      by rewrite Permutation_app_comm. }
  assert (packet [pb]) as Hpk.
  { split_and!; [|cbn; lia|done]. constructor; [|constructor]. by split; cbn. }
  destruct (pbuf_writes_ok fuel pp pieces nm1 [pb] N1 Hpk)
    as [(nm2 & E2 & N2 & C2)|(c & nm2 & E2 & Ne2 & Pl2 & K2 & N2 & C2 & Eo2)]; try done.
  { exists [], pb. split_and!; [done|by cbn|cbn; lia]. }
  - left. exists nm2. split_and!; try done. by eapply conserved_trans.
  - right. exists c, nm2. split_and!; try done; [by apply Eo2|by eapply conserved_trans].
Qed.

(** What the service computes about the record it is in front of. *)
Lemma svc_record esf ef es f j e clock :
  log_ok ef es [] → svc_ok esf ef es f j → es !! j = Some e →
  ts_head ef <= clock < 2 ^ 62 → clock - (ts_tail ef + span (take (S j) es)) < 1000 * MAX_DELTA →
  let T := ts_tail ef + span (take (S j) es) in
  (f_ptr f =? ev_head ef) = false ∧ (f_ptr f =? ev_tail ef) = bool_decide (j = 0%nat) ∧
  u64 ((if bool_decide (j = 0%nat) then ts_tail ef else esf_ts esf) + e_delta e) = T ∧
  u64 (clock - T) = clock - T ∧ (length (ts_bytes ((clock - T) / 1000)) <= 7)%nat.
Proof using Hbits.
  intros H (Hf & Hj & Hnd & Hts) Ee Hclk Hdl T.
  assert (j < length es)%nat as Hlt by (by eapply lookup_lt_Some).
  destruct (lo_times _ _ _ H) as (T1 & T2 & T3).
  pose proof (ok_delta e (Forall_lookup_1 _ _ _ _ (lo_entries _ _ _ H) Ee)) as Hde.
  assert (span (take (S j) es) = span (take j es) + e_delta e) as Esp.
  { rewrite (take_S_r _ _ _ Ee), span_app. unfold span at 2. cbn. lia. }
  assert (span es = span (take (S j) es) + span (drop (S j) es)) as Esp2 by (by rewrite <- span_app, take_drop).
  pose proof (span_nonneg (take j es) (Forall_take _ _ _ (lo_entries _ _ _ H))).
  pose proof (span_nonneg (drop (S j) es) (Forall_drop _ _ _ (lo_entries _ _ _ H))).
  change (2 ^ 62) with 4611686018427387904 in *.
  assert (0 <= T <= clock) as HT by (unfold T in *; lia).
  assert ((if bool_decide (j = 0%nat) then ts_tail ef else esf_ts esf) + e_delta e = T) as ->.
  { unfold T. rewrite Esp. case_bool_decide; [subst j|]; [|destruct Hts; [done|lia]].
    rewrite take_0. change (span []) with 0. lia. }
  split_and!.
  - apply Z.eqb_neq. intros E%(fol_at_head _ _ _ _ _ H Hj). lia.
  - pose proof (fol_at_tail _ _ _ _ _ H Hj) as Htl.
    destruct (Z.eqb_spec (f_ptr f) (ev_tail ef)) as [E|E]; symmetry;
      [apply bool_decide_eq_true|apply bool_decide_eq_false]; tauto.
  - apply Z.mod_small. lia.
  - apply Z.mod_small. lia.
  - apply ts_bytes_spec. fold T in Hdl. unfold MAX_DELTA in *.
    split; [apply Z.div_pos; lia|apply Z.div_lt_upper_bound; lia].
Qed.

Lemma svc_pull_ok fuel clock esf ef es f j e nm :
  log_ok ef es [] → ev_mutex ef = false → svc_ok esf ef es f j → es !! j = Some e →
  ts_head ef <= clock < 2 ^ 62 → clock - (ts_tail ef + span (take (S j) es)) < 1000 * MAX_DELTA →
  nm_ok nm → preferred_offset (esf_p esf) = 0 →
  0 < max_fragment_size (esf_p esf) <= PBUF_DATA_SIZE → (300 <= fuel)%nat →
  (∃ nm', evlog_svc_pull bits fuel clock esf ef nm = Ret ([], esf, set_mutex false ef, nm') ∧
     nm_ok nm' ∧ conserved nm [] nm' []) ∨
  ∃ c esf' ef' nm', evlog_svc_pull bits fuel clock esf ef nm = Ret (c, esf', ef', nm') ∧
    payload c = svc_packet (bool_decide (j = 0%nat)) (seq_tail ef) (e_level e)
      ((clock - (ts_tail ef + span (take (S j) es))) / 1000) (e_msg e) ∧
    packet c ∧ eop_last c ∧ nm_ok nm' ∧ conserved nm [] nm' c ∧
    log_ok ef' es [] ∧ ev_mutex ef' = false ∧ ts_tail ef' = ts_tail ef ∧ seq_tail ef' = seq_tail ef ∧
    ∃ f', f_drops f' = f_drops f ∧ svc_ok esf' ef' es f' (S j).
Proof using Hbits.
  intros H Hm Hsvc Ee Hclk Hdl Hnm Hpo Hmx Hfuel.
  destruct (svc_record _ _ _ _ _ _ _ H Hsvc Ee Hclk Hdl) as (S1 & S2 & S3 & S4 & S5).
  destruct Hsvc as (Hf & Hj & Hnd & Hts). unfold evlog_svc_pull, mutex_lock. rewrite Hm. cbn [mbind res_bind].
  pose proof (set_mutex_ok true _ _ _ H) as H1.
  change (find_follower (esf_id esf) (set_mutex true ef)) with (find_follower (esf_id esf) ef).
  rewrite Hf. destruct (fol_record _ _ _ _ _ _ H Hj Ee) as (He & Hr & Hn).
  destruct (record_fields _ _ e He Hr) as (R1 & R2 & R3 & R4 & R5).
  cbn [set_mutex ev_head ev_data ev_tail ts_tail seq_tail]. rewrite S1, S2, R4, R2, R3, S3, S4.
  set (ms := _ / 1000) in *. set (disc := bool_decide _) in *.
  destruct (svc_hdr_spec disc (e_level e) (Z.of_nat (length (ts_bytes ms))) (ok_level e He) ltac:(lia))
    as (U1 & U2 & U3 & U4). rewrite U1, U4, negb_involutive.
  pose proof max_entry_bounds. pose proof (ok_size e He). pose proof size_bounds.
  destruct (copy_out_ring (ev_data ef) (f_ptr f) (Z.of_nat (length (e_msg e))) (lo_data _ _ _ H) ltac:(lia)) as [_ Emsg].
  rewrite Nat2Z.id, R5 in Emsg.
  destruct (msg_pieces bits (ev_data ef) (rec_start bits (f_ptr f)) (Z.of_nat (length (e_msg e)))) as [ps|]; [|done].
  cbn [mbind res_bind] in Emsg |- *. injection Emsg as Emsg.
  set (pieces := _ ++ _ ++ _ ++ ps).
  assert (concat pieces = svc_packet disc (seq_tail ef) (e_level e) ms (e_msg e)) as Epc.
  { unfold pieces, svc_packet. rewrite !concat_app, Emsg. by destruct disc; cbn; rewrite ?app_nil_r. }
  assert (length (concat pieces) < 300)%nat as Hlen.
  { rewrite Epc. unfold svc_packet. rewrite !length_app. destruct disc; cbn [length le32]; lia. }
  destruct (make_packet_ok fuel nm (esf_p esf) pieces Hnm Hpo Hmx ltac:(lia) ltac:(lia))
    as [(nm2 & -> & N2 & C2)|(c & nm2 & -> & Ne2 & Pl2 & K2 & Eo2 & N2 & C2)]; cbn [mbind res_bind];
    [left; by exists nm2|]. right. destruct c as [|pb' c']; [done|]. rewrite R1.
  set (ptr' := u16 (f_ptr f + Z.of_nat (length (enc e)))).
  assert (j < length es)%nat as Hlt by (by eapply lookup_lt_Some).
  assert (fol_at (ev_tail ef) es (Follower (esf_id esf) ptr' (f_drops f)) (S j)) as Hj'.
  { split; [lia|]. cbn. split; [exact Hn|apply Hj]. }
  destruct (move_ok (esf_id esf) ptr' (set_mutex true ef) es [] f (S j) H1 Hf Hnd Hj') as (M1 & M2 & M3).
  eexists _, _, _, _. split; [reflexivity|]. split_and!; try done; [by rewrite Pl2, Epc|by apply set_mutex_ok|].
  eexists. split; [|split_and!; [exact M2|exact Hj'| |by right]]; [done|]. cbn in *. by rewrite M3.
Qed.

(** ** The receiver *)

Lemma ts_bytes_n_le n : ∀ k x, 0 <= x < 256 ^ Z.of_nat k → (length (ts_bytes_n n x) <= k)%nat.
Proof. intros k x. apply ts_bytes_n_length. Qed.

Lemma lor_add acc b i : 0 <= i → 0 <= acc < 2 ^ i → Z.lor acc (b * 2 ^ i) = acc + b * 2 ^ i.
Proof.
  intros Hi Ha. rewrite (Z.add_comm acc), <- shiftl_lor by lia. by rewrite Z.lor_comm, Z.shiftl_mul_pow2 by lia.
Qed.

Lemma tsdelta_loop_ok l : ∀ i acc msg, bytes l → 0 <= i → i + Z.of_nat (length l) <= 4 →
  0 <= acc < 2 ^ (8 * i) → acc + le_val l * 2 ^ (8 * i) < 2 ^ 31 →
  tsdelta_loop (length l) i (l ++ msg) acc = Ret (Some (acc + le_val l * 2 ^ (8 * i), msg)).
Proof.
  induction l as [|b l IH]; intros i acc msg Hb Hi Hl Ha Hv; cbn [tsdelta_loop length app le_val] in *.
  - do 3 f_equal. lia.
  - apply Forall_cons in Hb as [Hb Hbl]. pose proof (le_val_bound l Hbl). unfold is_byte in Hb.
    rewrite (proj2 (Z.leb_gt _ _)) by lia. rewrite Z.shiftl_mul_pow2 by lia. rewrite (Z.mul_comm i 8).
    assert (0 < 2 ^ (8 * i)) by (apply Z.pow_pos_nonneg; lia).
    assert (2 ^ (8 * (i + 1)) = 256 * 2 ^ (8 * i)) as E8.
    { replace (8 * (i + 1)) with (8 + 8 * i) by lia. by rewrite Z.pow_add_r by lia. }
    change (2 ^ 31) with 2147483648 in *.
    rewrite s32_id by nia. rewrite lor_add, s64_id by (lia || nia).
    rewrite IH; [|done|lia|lia|rewrite E8; nia|rewrite E8; nia]. do 3 f_equal. rewrite E8. nia.
Qed.

(** A packet of the service, received. *)
Lemma vllp_log_rx_ok (disc : bool) seq seq' level ms (msg : list Z) :
  0 <= level < 8 → is_u32 seq' → 0 <= ms < 2 ^ 31 →
  let n := u32 ((if disc then seq' else seq) + 1) in
  vllp_log_rx seq (svc_packet disc seq' level ms msg) = Ret (n, Some (level, n, ms, msg)).
Proof.
  intros Hl Hs Hms n. destruct (ts_bytes_spec ms) as (Ev & Hb & _); [unfold MAX_DELTA; lia|].
  pose proof (ts_bytes_n_le 8 4 ms ltac:(cbn in *; lia)) as Hlen. fold (ts_bytes ms) in Hlen.
  destruct (svc_hdr_spec disc level (Z.of_nat (length (ts_bytes ms))) Hl ltac:(lia)) as (_ & U2 & U3 & U4).
  unfold vllp_log_rx, svc_packet. cbn [app]. rewrite U2, U3, U4, Nat2Z.id.
  assert (∀ m : list Z, tsdelta_loop (length (ts_bytes ms)) 0 (ts_bytes ms ++ m) 0 = Ret (Some (ms, m))) as Et.
  { intros m. rewrite tsdelta_loop_ok; [|done|lia|lia|cbn; lia|cbn in *; lia]. rewrite Ev. cbn. do 3 f_equal. lia. }
  destruct disc; cbn [negb app le32].
  - rewrite rd_le32_le32 by done. rewrite Et. done.
  - rewrite Et. done.
Qed.

(** ** Properties *)


(** The log command without [follow], undisturbed, shows the whole log: every record,
    oldest first, with the time it was logged, its level and its text. *)
Theorem stream_log_shows_all ef es id fuel :
  log_ok ef es [] → ev_mutex ef = false → NoDup (f_id <$> followers ef) →
  id ∉ (f_id <$> followers ef) → (length es < fuel)%nat →
  ∃ ef', stream_log bits fuel id ef = Ret (view ef es, ef') ∧ log_ok ef' es [] ∧
    ev_mutex ef' = false ∧ f_id <$> followers ef' = f_id <$> followers ef.
Proof using Hbits.
  intros H Hm Hnd Hid Hf. unfold stream_log, stream_log_begin, mutex_lock. rewrite Hm. cbn [mbind res_bind].
  set (ef1 := insert_follower id 0 (set_mutex true ef)).
  assert (fol_at (ev_tail ef) es (Follower id (ev_tail ef) 0) 0) as Hj.
  { pose proof (lo_tail _ _ _ H). split; [lia|]. cbn. change (esize []) with 0. rewrite Z.add_0_r.
    split; [by rewrite u16_id|lia]. }
  destruct (run_ok id fuel ef1 es (Follower id (ev_tail ef) 0) 0 (ts_tail ef)) as (ef' & E & L & M & I).
  - destruct H as [H1 H2 H3 H4 H5 H6 H7 H8 H9]. split; try done. cbn.
    intros g [->|Hg]%elem_of_cons; [by exists 0%nat|by apply H9].
  - unfold find_follower. cbn. by rewrite decide_True.
  - exact Hj.
  - cbn. by apply NoDup_cons.
  - rewrite take_0. change (span []) with 0. cbn. lia.
  - lia.
  - exists ef'. rewrite drop_0 in E. split_and!; try done. rewrite I.
    change (f_id <$> followers ef1) with (id :: (f_id <$> followers ef)).
    rewrite filter_cons, decide_False by tauto. clear -Hid. induction (f_id <$> followers ef) as [|x l IH]; [done|].
    rewrite filter_cons, decide_True by set_solver. f_equal. apply IH. set_solver.
Qed.

(** The log service and its client agree: the packet made for a record, received by
    [vllp_log_rx], gives the level, the text and the age of that record, and the sequence
    number that is its place in the whole history; when there is no buffer the record is
    kept for the next pull. *)
Theorem evlog_service_roundtrip fuel clock esf ef es f j e nm seq :
  log_ok ef es [] → ev_mutex ef = false → svc_ok esf ef es f j → es !! j = Some e →
  ts_head ef <= clock < 2 ^ 62 →
  let age := (clock - (ts_tail ef + span (take (S j) es))) / 1000 in
  age < 2 ^ 31 → (j ≠ 0%nat → seq = u32 (seq_tail ef + Z.of_nat j)) →
  nm_ok nm → preferred_offset (esf_p esf) = 0 →
  0 < max_fragment_size (esf_p esf) <= PBUF_DATA_SIZE → (300 <= fuel)%nat →
  (∃ nm', evlog_svc_pull bits fuel clock esf ef nm = Ret ([], esf, set_mutex false ef, nm') ∧
     nm_ok nm' ∧ conserved nm [] nm' []) ∨
  ∃ c esf' ef' nm', evlog_svc_pull bits fuel clock esf ef nm = Ret (c, esf', ef', nm') ∧
    packet c ∧ eop_last c ∧ nm_ok nm' ∧ conserved nm [] nm' c ∧
    log_ok ef' es [] ∧ ev_mutex ef' = false ∧ (∃ f', svc_ok esf' ef' es f' (S j)) ∧
    let n := u32 (seq_tail ef + Z.of_nat (S j)) in
    vllp_log_rx seq (payload c) = Ret (n, Some (e_level e, n, age, e_msg e)).
Proof using Hbits.
  intros H Hm Hsvc Ee Hclk age Hage Hseq Hnm Hpo Hmx Hfuel.
  pose proof (ok_level e (Forall_lookup_1 _ _ _ _ (lo_entries _ _ _ H) Ee)) as Hl.
  assert (0 <= age) as Hage0.
  { apply Z.div_pos; [|lia]. destruct (lo_times _ _ _ H) as (T1 & T2 & T3).
    assert (span es = span (take (S j) es) + span (drop (S j) es)) as Esp by (by rewrite <- span_app, take_drop).
    pose proof (span_nonneg (drop (S j) es) (Forall_drop _ _ _ (lo_entries _ _ _ H))). lia. }
  assert (clock - (ts_tail ef + span (take (S j) es)) < 1000 * MAX_DELTA) as Hdl.
  { unfold MAX_DELTA. change (2 ^ 31) with 2147483648 in *. change (2 ^ 56) with 72057594037927936.
    unfold age in Hage. dlia. }
  destruct (svc_pull_ok fuel clock esf ef es f j e nm H Hm Hsvc Ee Hclk Hdl Hnm Hpo Hmx Hfuel)
    as [Hno|(c & esf' & ef' & nm' & E & Epl & K & Eo & N & C & L & M & T & Sq & f' & _ & Sv)]; [by left|].
  right. exists c, esf', ef', nm'. split_and!; try done; [by exists f'|]. cbv zeta. rewrite Epl.
  rewrite vllp_log_rx_ok by (done || apply (lo_seq _ _ _ H)). fold age.
  assert (u32 ((if bool_decide (j = 0%nat) then seq_tail ef else seq) + 1) = u32 (seq_tail ef + Z.of_nat (S j))) as ->; [|done].
  case_bool_decide as Hj0; [by subst j|]. rewrite (Hseq Hj0). unfold u32. rewrite Zplus_mod_idemp_l. f_equal. lia.
Qed.
End Ring.

(** A message also goes to the stream of the thread that logs it, as one line, whole. *)
Theorem evlog_echo_line {St} (write : list Z → emit St Z) `{!StreamSink write} ds st :
  Forall dir_ok ds → str_ok st →
  evlog_echo write (concat (dir_text <$> ds)) (concat (dir_args <$> ds)) st =
  Ret (tt, str_absorb st (concat (dir_out <$> ds) ++ [10])).
Proof.
  intros Hds Hst. unfold evlog_echo, vstprintf.
  pose proof (fmt_loop_sends (stream_fmt write) ds (S (length (concat (dir_text <$> ds)))) [] [] 0 Hds
    (Nat.lt_succ_diag_r _) st Hst) as E. rewrite app_nil_r in E. cbn [app] in E.
  unfold fmtv, mbind, emit_bind in *. rewrite E. cbn [absorb stream_fmt_sink].
  destruct (str_writes (str_absorb st (concat (dir_out <$> ds))) [10]) as [k Ek];
    [by apply str_absorb_ok|]. rewrite Ek. unfold mret, emit_ret. by rewrite str_absorb_app.
Qed.

(** ** Behaviour the code does not mean to have *)

(** A record of level DEBUG is passed over by the log file without its time: the time
    stamp kept for the file stands still, so every later line is dated too early by the
    time that the record covers. *)
Theorem file_log_skips_time bits id w tz maxsz operr fsize clock fl ef es f j e :
  8 <= bits <= 15 → log_ok bits ef es [] → find_follower id ef = Some f →
  fol_at (ev_tail ef) es f j → es !! j = Some e → e_level e = LOG_DEBUG →
  ∃ ef', to_fs_pass bits id w tz maxsz operr fsize clock fl ef = Ret (FSkip, [], fl, ef') ∧
    ∃ f', f' ∈ followers ef' ∧ fol_at (ev_tail ef') es f' (S j).
Proof.
  intros Hb H Hf Hj Ee Hd. destruct (fol_record bits Hb _ _ _ _ _ _ H Hj Ee) as (He & Hr & Hn).
  destruct (record_fields bits Hb _ _ e He Hr) as (R1 & R2 & _).
  assert (j < length es)%nat as Hlt by (by eapply lookup_lt_Some).
  unfold to_fs_pass. rewrite Hf. destruct (Z.eqb_spec (f_ptr f) (ev_head ef)) as [E|_].
  { apply (fol_at_head bits Hb _ _ _ _ _ H Hj) in E. lia. }
  rewrite R1, R2, Hd, Z.eqb_refl. eexists. split; [reflexivity|].
  destruct (find_follower_elem id ef f Hf) as [Hin Hid]. eexists. split.
  - cbn. apply list_elem_of_fmap. exists f. split; [|exact Hin]. by rewrite decide_True.
  - split; [lia|]. cbn. split; [exact Hn|apply Hj].
Qed.

(** ** Runs *)

(** A log of 256 bytes with a reader, and two records in it. *)
Definition ex_empty : evlog := Evlog 0 0 false [Follower 7 65500 0] 65500 65500 0 (replicate 256 0) [].

Definition ret_or {A} (x : A) (r : res A) : A := match r with Ret a => a | Fault _ => x end.
Definition ex_two : evlog := Eval vm_compute in
  ret_or ex_empty
    (ef ← evlog_record 8 1000 6 (lit "link up") [] ex_empty;
     evlog_record 8 71000 3 (lit "lost %d") [AInt 42] ef).
Definition ex_entries : list entry := [Entry 6 (lit "link up") 0; Entry 3 (lit "lost 42") 70000].
Definition ex_text : list directive := [DText (lit "v="); DConv FlagNone None None (VDec32 17)].

Lemma ex_text_ok : Forall dir_ok ex_text.
Proof.
  unfold ex_text. repeat apply Forall_cons_2; [..|apply Forall_nil_2]; cbn [dir_ok conv_ok];
    split_and?; first [done | lia | apply text_ok; reflexivity].
Qed.

Lemma ex_entry_ok e : e ∈ ex_entries → entry_ok 8 e.
Proof.
  assert (forallb (λ e, (0 <=? e_level e) && (e_level e <? 8) && forallb (λ b, (0 <=? b) && (b <? 256)) (e_msg e) &&
    (2 + Z.of_nat (length (e_msg e)) <=? max_entry_size 8) && (0 <=? e_delta e) && (e_delta e <? MAX_DELTA))%bool
    ex_entries = true) as E by (by vm_compute).
  intros He. rewrite forallb_forall in E. specialize (E e (proj1 (list_elem_of_In _ _) He)). bool_to_prop.
  split; try done. apply Forall_forall. intros b Hb.
  match goal with H : forallb _ (e_msg e) = true |- _ => rewrite forallb_forall in H;
    specialize (H b (proj1 (list_elem_of_In _ _) Hb)) end.
  bool_to_prop. by split.
Qed.

Ltac computed := vm_compute; reflexivity.

Lemma ex_two_ok : log_ok 8 ex_two ex_entries [].
Proof.
  split.
  - computed.
  - cbn. lia.
  - computed.
  - computed.
  - vm_compute. discriminate.
  - apply Forall_forall. exact ex_entry_ok.
  - split_and!; [vm_compute; discriminate|computed..].
  - split; [vm_compute; discriminate|computed].
  - intros f ->%list_elem_of_singleton. exists 0%nat. split; [cbn; lia|]. split; [computed|cbn; lia].
Qed.



Definition ex_nm : netmem := example_nm.
Definition ex_svc : evlog_svc := EvlogSvc 7 0 (mk_pushpull 128 0).

Lemma ex_svc_ok : svc_ok ex_svc ex_two ex_entries (Follower 7 65500 0) 0.
Proof.
  split_and!; [computed| |apply NoDup_singleton|by left].
  split; [cbn; lia|]. split; [computed|cbn; lia].
Qed.

Lemma ex_clock now : 71000 <= now < 1000000 → clock_ok now ex_two ex_entries.
Proof. intros. unfold clock_ok, MAX_DELTA. cbn. split; [lia|]. right. lia. Qed.

Lemma evlog_correct_witness :
  71000 <= 80000 ∧ ∃ e ef',
    evlog_record 8 80000 4 (lit "v=%d") [AInt 17] ex_two = Ret ef' ∧
    recorded 8 80000 4 (lit "v=17") ex_entries ex_two e ef'.
Proof.
  split; [lia|].
  exact (evlog_correct 8 ltac:(lia) ex_two ex_entries 80000 4 ex_text ex_two_ok eq_refl
    (ex_clock 80000 ltac:(lia)) ltac:(lia) ex_text_ok).
Defined.






Lemma stream_log_shows_all_witness :
  ∃ ef', stream_log 8 3 9 ex_two = Ret ([(1000, 6, lit "link up"); (71000, 3, lit "lost 42")], ef') ∧
    log_ok 8 ef' ex_entries [] ∧ ev_mutex ef' = false ∧ f_id <$> followers ef' = [7%nat].
Proof.
  apply (stream_log_shows_all 8 ltac:(lia) ex_two ex_entries 9 3 ex_two_ok eq_refl).
  - apply NoDup_singleton.
  - cbn. set_solver.
  - cbn. lia.
Defined.

Lemma evlog_service_roundtrip_witness :
  (∃ nm', evlog_svc_pull 8 300 1001000 ex_svc ex_two ex_nm = Ret ([], ex_svc, set_mutex false ex_two, nm') ∧
     nm_ok nm' ∧ conserved ex_nm [] nm' []) ∨
  ∃ c esf' ef' nm', evlog_svc_pull 8 300 1001000 ex_svc ex_two ex_nm = Ret (c, esf', ef', nm') ∧
    packet c ∧ eop_last c ∧ nm_ok nm' ∧ conserved ex_nm [] nm' c ∧
    log_ok 8 ef' ex_entries [] ∧ ev_mutex ef' = false ∧ (∃ f', svc_ok esf' ef' ex_entries f' 1) ∧
    let n := u32 (seq_tail ex_two + Z.of_nat 1) in
    vllp_log_rx 55 (payload c) = Ret (n, Some (6, n, 1000, lit "link up")).
Proof.
  apply (evlog_service_roundtrip 8 ltac:(lia) 300 1001000 ex_svc ex_two ex_entries (Follower 7 65500 0) 0
    (Entry 6 (lit "link up") 0) ex_nm 55 ex_two_ok eq_refl ex_svc_ok eq_refl).
  - cbn. lia.
  - by vm_compute.
  - done.
  - exact example_nm_ok.
  - done.
  - cbn. unfold PBUF_DATA_SIZE. lia.
  - lia.
Defined.

Lemma evlog_echo_line_witness :
  evlog_echo (λ s st, Ret (0, st ++ s)) (lit "v=%d") [AInt 17] [] = Ret (tt, lit "v=17" ++ [10]).
Proof.
  pose (S := {| str_ok := λ _, True; str_absorb := λ st s, st ++ s;
    str_writes := λ st s _, ex_intro _ 0 eq_refl; str_absorb_ok := λ _ _ _, I;
    str_absorb_nil := λ st _, app_nil_r st; str_absorb_app := λ st a b _, eq_sym (app_assoc st a b) |}
    : StreamSink (λ s st, Ret (0, st ++ s))).
  exact (evlog_echo_line (λ s st, Ret (0, st ++ s)) (StreamSink0 := S) ex_text [] ex_text_ok I).
Defined.

Definition ex_debug : evlog := Eval vm_compute in
  ret_or ex_empty (evlog_record 8 1000 7 (lit "tick") [] ex_empty).

Lemma ex_debug_ok : log_ok 8 ex_debug [Entry 7 (lit "tick") 0] [].
Proof.
  split.
  - computed.
  - cbn. lia.
  - computed.
  - computed.
  - vm_compute. discriminate.
  - constructor; [|constructor]. split; cbn; unfold MAX_DELTA; try lia.
    + repeat constructor; unfold is_byte; lia.
    + vm_compute. discriminate.
  - split_and!; [vm_compute; discriminate|computed..].
  - split; [vm_compute; discriminate|computed].
  - intros f ->%list_elem_of_singleton. exists 0%nat. split; [cbn; lia|]. split; [computed|cbn; lia].
Qed.

Lemma file_log_skips_time_witness :
  ∃ ef', to_fs_pass 8 7 (mk_wallclock 0 []) 0 100000 0 0 5000 (Fslog true 0 400 []) ex_debug =
      Ret (FSkip, [], Fslog true 0 400 [], ef') ∧
    ∃ f', f' ∈ followers ef' ∧ fol_at (ev_tail ef') [Entry 7 (lit "tick") 0] f' 1.
Proof.
  apply (file_log_skips_time 8 7 (mk_wallclock 0 []) 0 100000 0 0 5000 (Fslog true 0 400 []) ex_debug
    [Entry 7 (lit "tick") 0] (Follower 7 65500 0) 0 (Entry 7 (lit "tick") 0)).
  - lia.
  - exact ex_debug_ok.
  - computed.
  - split; [cbn; lia|]. split; [computed|cbn; lia].
  - reflexivity.
  - reflexivity.
Defined.

(** The log after five more records of 62 bytes, one a second. *)
Definition ex_flood : evlog := Eval vm_compute in
  ret_or ex_two (foldl (λ m t, ef ← m; evlog_record 8 (t * 1000000) 6 (lit "%60d") [AInt t] ef)
    (Ret ex_two) [1; 2; 3; 4; 5]).

(** A reader that does not keep up loses records, and dates what it shows next from the
    record it had reached: the record of second 3 is shown with the time 1.001 s, while
    a reader that starts now gets it right. *)
Theorem stream_log_time_lags :
  (ef ← mutex_lock ex_flood;
   '(o, _, _) ← stream_log_pass 8 7 false true (ts_tail ex_two) ef; Ret o) =
    Ret (LLine 1001000 6 (replicate 59 32 ++ [51])) ∧
  ('(l, _) ← stream_log 8 9 9 ex_flood; Ret (head l)) =
    Ret (Some (3000000, 6, replicate 59 32 ++ [51])).
Proof. split; computed. Qed.

(** [evlog] reads the clock before it waits for the mutex.  When another thread gets in
    between, the later record has the earlier time: its difference is stored as 0 but
    its time becomes the reference, and every later record is shown too late: the one
    logged at 4000 as logged at 6000. *)
Theorem evlog_clock_back_shifts_times :
  (ef ← evlog_record 8 5000 6 (lit "a") [] ex_empty;
   ef ← evlog_record 8 3000 6 (lit "b") [] ef;
   ef ← evlog_record 8 4000 6 (lit "c") [] ef;
   '(l, _) ← stream_log 8 9 9 ef; Ret l) =
  Ret [(5000, 6, lit "a"); (5000, 6, lit "b"); (6000, 6, lit "c")].
Proof. computed. Qed.

(** The client shifts the bytes of the age as [int]: a record 2^31 ms old (25 days) is
    reported with a negative age, and from 2^32 ms on the shift is undefined. *)
Theorem vllp_log_age_overflows :
  vllp_log_rx 0 (svc_packet true 0 6 2147483648 (lit "x")) = Ret (1, Some (6, 1, -2147483648, lit "x")) ∧
  vllp_log_rx 0 (svc_packet true 0 6 4294967296 (lit "x")) = Fault OutOfBounds.
Proof. split; computed. Qed.
