(* ===== verification/Block.v ===== *)
(** * Block: block devices ([src/util/block.c], [src/util/block_stream.c])

    The interface [block_iface_t] of [include/mios/block.h] is a record of operations over
    the state [W] of the hardware below.  Here are the three devices that are built on
    another one (a partition, a verifier, a subdivision into smaller blocks) and the
    stream that fills a device from its start.  What a device promises is the class
    [BlockDev]; the stacked devices are instances of it, so that what is proved for a
    device holds for every stack of them.

    A device is seen as one string of bytes, its [content].  An erase makes bytes 255; a
    write over erased bytes stores the data, over others what the medium makes of it
    ([prog], for NOR flash the bitwise and).  [size_t] has [size_bits] bits. *)

From Stdlib Require Import ZArith Lia.
From stdpp Require Import base list numbers.
From S2P Require Import Prelude.

Open Scope Z_scope.

(** ** The interface *)

Inductive block_ctrl_op :=
| BLOCK_LOCK
| BLOCK_UNLOCK
| BLOCK_SYNC
| BLOCK_SUSPEND
| BLOCK_SHUTDOWN.

Definition ERR_NOSPC : Z := -22.
Definition ERR_INVALID_LENGTH : Z := -24.
Definition ERR_NO_MEMORY : Z := -29.

(** An operation gives an error code; [read] also gives what it stored in the caller's
    buffer. *)
Record block_iface (W : Type) := BlockIface {
  num_blocks : Z;
  block_size : Z;
  erase : Z → Z → W → res (Z * W);
  write : Z → Z → list Z → W → res (Z * W);
  read : Z → Z → Z → W → res (Z * list Z * W);
  ctrl : block_ctrl_op → W → res (Z * W) }.
Arguments BlockIface {W} _ _ _ _ _ _.
Arguments num_blocks {W} _.
Arguments block_size {W} _.
Arguments erase {W} _ _ _ _.
Arguments write {W} _ _ _ _ _.
Arguments read {W} _ _ _ _ _.
Arguments ctrl {W} _ _ _.

Section Devices.
Context {W : Type} (size_bits : Z) (xalloc : Z → W → bool * W).

Definition size_t (z : Z) : Z := z mod 2 ^ size_bits.

(** ** Partitions *)

Definition partition_erase (parent : block_iface W) (offset n : Z) (block count : Z) (w : W)
    : res (Z * W) :=
  if n <? size_t (block + count) then Ret (ERR_NOSPC, w)
  else erase parent (size_t (block + offset)) count w.

Definition partition_write (parent : block_iface W) (poffset n bs : Z) (block offset : Z)
    (data : list Z) (w : W) : res (Z * W) :=
  if n <=? block then Ret (ERR_NOSPC, w)
  else if bs <? size_t (offset + Z.of_nat (length data)) then Ret (ERR_INVALID_LENGTH, w)
  else write parent (size_t (block + poffset)) offset data w.

Definition partition_read (parent : block_iface W) (poffset : Z) (block offset len : Z) (w : W)
    : res (Z * list Z * W) :=
  read parent (size_t (block + poffset)) offset len w.

Definition partition_ctrl (parent : block_iface W) (op : block_ctrl_op) (w : W) : res (Z * W) :=
  ctrl parent op w.

(** The variants that hold the lock of the parent meanwhile. *)
Definition partition_lock_erase (parent : block_iface W) (offset n : Z) (block count : Z) (w : W)
    : res (Z * W) :=
  '(_, w) ← ctrl parent BLOCK_LOCK w;
  '(err, w) ← partition_erase parent offset n block count w;
  '(_, w) ← ctrl parent BLOCK_UNLOCK w;
  Ret (err, w).

Definition partition_lock_write (parent : block_iface W) (poffset n bs : Z) (block offset : Z)
    (data : list Z) (w : W) : res (Z * W) :=
  '(_, w) ← ctrl parent BLOCK_LOCK w;
  '(err, w) ← partition_write parent poffset n bs block offset data w;
  '(_, w) ← ctrl parent BLOCK_UNLOCK w;
  Ret (err, w).

Definition partition_lock_read (parent : block_iface W) (poffset : Z) (block offset len : Z) (w : W)
    : res (Z * list Z * W) :=
  '(_, w) ← ctrl parent BLOCK_LOCK w;
  '(err, data, w) ← partition_read parent poffset block offset len w;
  '(_, w) ← ctrl parent BLOCK_UNLOCK w;
  Ret (err, data, w).

Definition partition_lock_ctrl (parent : block_iface W) (op : block_ctrl_op) (w : W) : res (Z * W) :=
  match op with
  | BLOCK_LOCK | BLOCK_UNLOCK => Ret (0, w)
  | _ =>
      '(_, w) ← ctrl parent BLOCK_LOCK w;
      '(err, w) ← partition_ctrl parent op w;
      '(_, w) ← ctrl parent BLOCK_UNLOCK w;
      Ret (err, w)
  end.

Definition block_create_partition (parent : block_iface W) (block_offset n : Z) (autolock : bool)
    : block_iface W :=
  let bs := block_size parent in
  if autolock then
    BlockIface n bs (partition_lock_erase parent block_offset n)
      (partition_lock_write parent block_offset n bs)
      (partition_lock_read parent block_offset) (partition_lock_ctrl parent)
  else
    BlockIface n bs (partition_erase parent block_offset n)
      (partition_write parent block_offset n bs)
      (partition_read parent block_offset) (partition_ctrl parent).

(** ** The verifier

    The hex dumps it prints are left out. *)

Definition verifier_erase (parent : block_iface W) (block count : Z) (w : W) : res (Z * W) :=
  erase parent block count w.

Definition verifier_write (parent : block_iface W) (panic_on_err : bool) (block offset : Z)
    (data : list Z) (w : W) : res (Z * W) :=
  '(err, w) ← write parent block offset data w;
  if negb (err =? 0) then if panic_on_err then Fault Panic else Ret (err, w)
  else
    let '(mem, w) := xalloc (Z.of_nat (length data)) w in
    if negb mem then if panic_on_err then Fault Panic else Ret (ERR_NO_MEMORY, w)
    else
      '(err, copy, w) ← read parent block offset (Z.of_nat (length data)) w;
      if negb (err =? 0) then if panic_on_err then Fault Panic else Ret (err, w)
      else if decide (copy = data) then Ret (0, w)
      else if panic_on_err then Fault Panic else Ret (err, w).

Definition verifier_read (parent : block_iface W) (panic_on_err : bool) (block offset len : Z) (w : W)
    : res (Z * list Z * W) :=
  '(err, data, w) ← read parent block offset len w;
  if negb (err =? 0) then if panic_on_err then Fault Panic else Ret (err, data, w)
  else
    let '(mem, w) := xalloc len w in
    if negb mem then if panic_on_err then Fault Panic else Ret (ERR_NO_MEMORY, data, w)
    else
      '(err, copy, w) ← read parent block offset len w;
      if negb (err =? 0) then if panic_on_err then Fault Panic else Ret (err, data, w)
      else if decide (copy = data) then Ret (0, data, w)
      else if panic_on_err then Fault Panic else Ret (err, data, w).

Definition verifier_ctrl (parent : block_iface W) (op : block_ctrl_op) (w : W) : res (Z * W) :=
  ctrl parent op w.

Definition block_create_verifier (parent : block_iface W) (panic_on_err : bool) : block_iface W :=
  BlockIface (num_blocks parent) (block_size parent) (verifier_erase parent)
    (verifier_write parent panic_on_err) (verifier_read parent panic_on_err) (verifier_ctrl parent).

(** ** Subdivisions *)

Definition sub_mask (shift : Z) : Z := Z.shiftl 1 shift - 1.

Definition sub_block_offset (shift bs block : Z) : Z := size_t (Z.land (sub_mask shift) block * bs).

(** A block of the parent of which a part is erased: read, erase, write back.  The buffer
    is not checked: a failed allocation is read into. *)
Definition erase_part (parent : block_iface W) (shift bs : Z) (block chunk : Z) (w : W) : res (Z * W) :=
  let pbs := block_size parent in
  let '(mem, w) := xalloc pbs w in
  if negb mem then Fault OutOfBounds else
  '(err, buf, w) ← read parent (Z.shiftr block shift) 0 pbs w;
  if negb (err =? 0) then Ret (err, w) else
  '(err, w) ← erase parent (Z.shiftr block shift) 1 w;
  let offset := Z.land block (sub_mask shift) in
  buf ← wr buf (offset * bs) (replicate (Z.to_nat (chunk * bs)) 255);
  if negb (err =? 0) then Ret (err, w)
  else write parent (Z.shiftr block shift) 0 buf w.

Fixpoint erase_loop (fuel : nat) (parent : block_iface W) (shift bs : Z) (block count : Z) (w : W)
    : res (Z * W) :=
  match fuel with
  | O => Fault NoFuel
  | S fuel =>
      let mask := sub_mask shift in
      if count =? 0 then Ret (0, w)
      else if ((Z.land block mask =? 0) && (mask <? count))%bool then
        let chunk := Z.ldiff count mask in
        '(err, w) ← erase parent (Z.shiftr block shift) (Z.shiftr count shift) w;
        if negb (err =? 0) then Ret (err, w)
        else erase_loop fuel parent shift bs (size_t (block + chunk)) (count - chunk) w
      else
        let chunk := Z.min count (Z.shiftl 1 shift - Z.land block mask) in
        '(err, w) ← erase_part parent shift bs block chunk w;
        if negb (err =? 0) then Ret (err, w)
        else erase_loop fuel parent shift bs (size_t (block + chunk)) (count - chunk) w
  end.

Definition subdivision_erase (parent : block_iface W) (shift bs : Z) (block count : Z) (w : W)
    : res (Z * W) :=
  erase_loop (S (Z.to_nat count)) parent shift bs block count w.

Definition subdivision_read (parent : block_iface W) (shift bs : Z) (block offset len : Z) (w : W)
    : res (Z * list Z * W) :=
  read parent (Z.shiftr block shift) (size_t (offset + sub_block_offset shift bs block)) len w.

Definition subdivision_write (parent : block_iface W) (shift bs : Z) (block offset : Z)
    (data : list Z) (w : W) : res (Z * W) :=
  write parent (Z.shiftr block shift) (size_t (offset + sub_block_offset shift bs block)) data w.

Definition subdivision_ctrl (parent : block_iface W) (op : block_ctrl_op) (w : W) : res (Z * W) :=
  ctrl parent op w.

Definition block_create_subdivision (parent : block_iface W) (shift : Z) : block_iface W :=
  let bs := Z.shiftr (block_size parent) shift in
  BlockIface (size_t (Z.shiftl (num_blocks parent) shift)) bs (subdivision_erase parent shift bs)
    (subdivision_write parent shift bs) (subdivision_read parent shift bs) (subdivision_ctrl parent).

(** ** The write stream *)

Record block_write_stream := BlockWriteStream {
  bws_block : Z;
  bws_offset : Z;
  total_written : Z }.

Fixpoint bws_loop (fuel : nat) (bi : block_iface W) (size : Z) (src : list Z)
    (b : block_write_stream) (w : W) : res (Z * block_write_stream * W) :=
  match fuel with
  | O => Fault NoFuel
  | S fuel =>
      match src with
      | [] => Ret (size, b, w)
      | _ =>
          '(err, w) ← (if bws_offset b =? 0 then erase bi (bws_block b) 1 w else Ret (0, w));
          if negb (err =? 0) then Ret (err, b, w) else
          let chunk := Z.min (size_t (block_size bi - bws_offset b)) (Z.of_nat (length src)) in
          '(err, w) ← write bi (bws_block b) (bws_offset b) (take (Z.to_nat chunk) src) w;
          if negb (err =? 0) then Ret (err, b, w) else
          let offset := size_t (bws_offset b + chunk) in
          let total := size_t (total_written b + chunk) in
          let b := if block_size bi <=? offset
                   then BlockWriteStream (size_t (bws_block b + 1)) 0 total
                   else BlockWriteStream (bws_block b) offset total in
          bws_loop fuel bi size (drop (Z.to_nat chunk) src) b w
      end
  end.

(** [None] is the null buffer, which asks for a flush. *)
Definition bws_write (bi : block_iface W) (buf : option (list Z)) (b : block_write_stream) (w : W)
    : res (Z * block_write_stream * W) :=
  match buf with
  | None => '(_, w) ← ctrl bi BLOCK_SYNC w; Ret (0, b, w)
  | Some data => bws_loop (S (length data)) bi (Z.of_nat (length data)) data b w
  end.

Definition block_write_stream_create : block_write_stream := BlockWriteStream 0 0 0.

End Devices.

(** ** What a device promises *)

Definition sub (m : list Z) (a n : Z) : list Z := take (Z.to_nat n) (drop (Z.to_nat a) m).
Definition erased (n : Z) : list Z := replicate (Z.to_nat n) 255.

Definition in_range {W} (bi : block_iface W) (block off n : Z) : Prop :=
  0 <= block < num_blocks bi ∧ 0 <= off ∧ 0 <= n ∧ off + n <= block_size bi.

(** Every operation inside the device returns, with an error or having done its work.
    [ok] are the states in which the device may be called. *)
Class BlockDev {W} (ok : W → Prop) (content : W → list Z) (prog : Z → Z → Z) (bi : block_iface W)
    : Prop := {
  bd_size : 0 < block_size bi ∧ 0 <= num_blocks bi;
  bd_content w : ok w →
    Z.of_nat (length (content w)) = num_blocks bi * block_size bi ∧ bytes (content w);
  bd_prog b : is_byte b → prog 255 b = b;
  bd_read block off n w : ok w → in_range bi block off n →
    ∃ e d w', read bi block off n w = Ret (e, d, w') ∧ ok w' ∧ content w' = content w ∧ e <= 0 ∧
      (e = 0 → d = sub (content w) (block * block_size bi + off) n);
  bd_write block off d w : ok w → in_range bi block off (Z.of_nat (length d)) → bytes d →
    ∃ e w', write bi block off d w = Ret (e, w') ∧ ok w' ∧ e <= 0 ∧
      (e = 0 → let a := block * block_size bi + off in
        wr (content w) a (zip_with prog (sub (content w) a (Z.of_nat (length d))) d) = Ret (content w'));
  bd_erase block count w : ok w → 0 <= block → 0 <= count → block + count <= num_blocks bi →
    ∃ e w', erase bi block count w = Ret (e, w') ∧ ok w' ∧ e <= 0 ∧
      (e = 0 → wr (content w) (block * block_size bi) (erased (count * block_size bi)) = Ret (content w'));
  bd_ctrl op w : ok w → op ≠ BLOCK_LOCK → op ≠ BLOCK_UNLOCK →
    ∃ e w', ctrl bi op w = Ret (e, w') ∧ ok w' ∧ content w' = content w ∧ e <= 0 }.

(** The lock takes the device from [ok] to [held] and back. *)
Class BlockLock {W} (ok held : W → Prop) (content : W → list Z) (bi : block_iface W) : Prop := {
  bl_lock w : ok w → ∃ e w', ctrl bi BLOCK_LOCK w = Ret (e, w') ∧ held w' ∧ content w' = content w;
  bl_unlock w : held w → ∃ e w', ctrl bi BLOCK_UNLOCK w = Ret (e, w') ∧ ok w' ∧ content w' = content w }.

(** What an operation leaves alone, whether it succeeds or not. *)
Definition same_outside (a b : Z) (m m' : list Z) : Prop :=
  length m' = length m ∧ ∀ i : nat, (Z.of_nat i < a ∨ b <= Z.of_nat i) → m' !! i = m !! i.

Class BlockFrame {W} (ok : W → Prop) (content : W → list Z) (bi : block_iface W) : Prop := {
  bf_write block off d w e w' : ok w → in_range bi block off (Z.of_nat (length d)) →
    write bi block off d w = Ret (e, w') →
    same_outside (block * block_size bi) ((block + 1) * block_size bi) (content w) (content w');
  bf_erase block count w e w' : ok w → 0 <= block → 0 <= count → block + count <= num_blocks bi →
    erase bi block count w = Ret (e, w') →
    same_outside (block * block_size bi) ((block + count) * block_size bi) (content w) (content w') }.

(** ** Windows of a string of bytes *)

Lemma wr_mid p q r x s : 0 <= x → x + Z.of_nat (length s) <= Z.of_nat (length q) →
  ∃ q', wr q x s = Ret q' ∧ length q' = length q ∧
    wr (p ++ q ++ r) (Z.of_nat (length p) + x) s = Ret (p ++ q' ++ r).
Proof.
  intros Hx Hs. eexists. split; [apply wr_ok; lia|]. split.
  { rewrite !length_app, length_take, length_drop. lia. }
  rewrite wr_ok by (rewrite ?length_app; lia). f_equal.
  replace (Z.to_nat (Z.of_nat (length p) + x)) with (length p + Z.to_nat x)%nat by lia.
  rewrite take_app_add, take_app_le by lia. rewrite <- !app_assoc. do 3 f_equal.
  replace (length p + Z.to_nat x + length s)%nat with (length p + (Z.to_nat x + length s))%nat by lia.
  rewrite drop_app_add, drop_app_le by lia. done.
Qed.

Lemma sub_mid p q r x n : 0 <= x → 0 <= n → x + n <= Z.of_nat (length q) →
  sub (p ++ q ++ r) (Z.of_nat (length p) + x) n = sub q x n.
Proof.
  intros Hx Hn H. unfold sub.
  replace (Z.to_nat (Z.of_nat (length p) + x)) with (length p + Z.to_nat x)%nat by lia.
  rewrite drop_app_add, drop_app_le, take_app_le by (rewrite ?length_drop; lia). done.
Qed.

Lemma sub_length m a n : 0 <= a → 0 <= n → a + n <= Z.of_nat (length m) → length (sub m a n) = Z.to_nat n.
Proof. intros. unfold sub. rewrite length_take, length_drop. lia. Qed.

(** A string around one of its windows. *)
Lemma window m a n : 0 <= a → 0 <= n → a + n <= Z.of_nat (length m) →
  ∃ p q r, m = p ++ q ++ r ∧ Z.of_nat (length p) = a ∧ Z.of_nat (length q) = n ∧ sub m a n = q.
Proof.
  intros Ha Hn H. exists (take (Z.to_nat a) m), (sub m a n), (drop (Z.to_nat a + Z.to_nat n) m).
  rewrite sub_length, length_take by lia. split_and!; [|lia..|done].
  unfold sub. rewrite <- drop_drop, !take_drop. done.
Qed.

Lemma sub_all q : sub q 0 (Z.of_nat (length q)) = q.
Proof. unfold sub. rewrite Nat2Z.id. cbn. by rewrite firstn_all. Qed.

Lemma sub_app_mid p q r : sub (p ++ q ++ r) (Z.of_nat (length p)) (Z.of_nat (length q)) = q.
Proof.
  rewrite <- (Z.add_0_r (Z.of_nat (length p))), sub_mid by lia. apply sub_all.
Qed.

(** A write inside a window is a write of the window. *)
Lemma wr_window m m' a n x s : 0 <= a → 0 <= n → a + n <= Z.of_nat (length m) →
  0 <= x → x + Z.of_nat (length s) <= n →
  wr m (a + x) s = Ret m' → wr (sub m a n) x s = Ret (sub m' a n).
Proof.
  intros Ha Hn Hm Hx Hs. destruct (window m a n) as (p & q & r & -> & <- & <- & ->); [lia..|].
  destruct (wr_mid p q r x s) as (q' & -> & Hq & ->); [lia..|]. intros [= <-].
  by rewrite <- Hq, sub_app_mid.
Qed.

Lemma sub_window m a n x k : 0 <= a → 0 <= n → a + n <= Z.of_nat (length m) →
  0 <= x → 0 <= k → x + k <= n → sub m (a + x) k = sub (sub m a n) x k.
Proof.
  intros Ha Hn Hm Hx Hk Hs. destruct (window m a n) as (p & q & r & -> & <- & <- & ->); [lia..|].
  by rewrite sub_mid by lia.
Qed.

(** Two writes side by side are one. *)
Lemma wr_adjacent m m1 m2 a s t : wr m a s = Ret m1 → wr m1 (a + Z.of_nat (length s)) t = Ret m2 →
  wr m a (s ++ t) = Ret m2.
Proof.
  intros H1 H2. pose proof (wr_length _ _ _ _ H1) as L1.
  unfold wr in H1. destruct (_ && _)%bool eqn:E1 in H1; [|done]. bool_to_prop. simplify_eq.
  unfold wr in H2. destruct (_ && _)%bool eqn:E2 in H2; [|done]. bool_to_prop. simplify_eq.
  rewrite L1 in *. rewrite wr_ok by (rewrite ?length_app; lia). f_equal.
  set (p := take (Z.to_nat a) m ++ s).
  assert (length p = Z.to_nat (a + Z.of_nat (length s))) as Lp
    by (unfold p; rewrite length_app, length_take; lia).
  rewrite (app_assoc (take _ _) s). fold p.
  rewrite <- Lp at 1. rewrite take_app_length. unfold p at 1. rewrite <- !app_assoc. do 3 f_equal.
  rewrite <- Lp, drop_app_add, drop_drop. f_equal. rewrite length_app. lia.
Qed.

(** ** Partitions are devices *)

Section Partition.
Context {W : Type} (size_bits : Z) (content : W → list Z) (prog : Z → Z → Z) (parent : block_iface W).
Context (off n : Z).

(** The partition lies on its parent, whose size [size_t] can count. *)
Definition fits : Prop :=
  0 <= off ∧ 0 <= n ∧ off + n <= num_blocks parent ∧
  num_blocks parent < 2 ^ size_bits ∧ block_size parent < 2 ^ size_bits.

Definition part_content (w : W) : list Z :=
  sub (content w) (off * block_size parent) (n * block_size parent).

Lemma size_t_id z : 0 <= z < 2 ^ size_bits → size_t size_bits z = z.
Proof. intros. unfold size_t. by rewrite Z.mod_small. Qed.

Context (Hfit : fits).

Section Ok.
Context (ok : W → Prop) {HD : BlockDev ok content prog parent}.

Lemma part_bounds w : ok w →
  0 <= off * block_size parent ∧ 0 <= n * block_size parent ∧
  off * block_size parent + n * block_size parent <= Z.of_nat (length (content w)).
Proof.
  intros Hw. destruct (bd_content w Hw) as [-> _], Hfit as (?&?&?&?), (bd_size (bi:=parent)); nia.
Qed.

Lemma part_content_ok w : ok w →
  Z.of_nat (length (part_content w)) = n * block_size parent ∧ bytes (part_content w).
Proof.
  intros Hw. destruct (part_bounds w Hw) as (?&?&?), (bd_content w Hw) as [_ HB].
  unfold part_content. rewrite sub_length by lia. split; [lia|].
  by apply Forall_take, Forall_drop.
Qed.

(** An address of the partition is the address of the parent, shifted. *)
Lemma part_addr block o : (block + off) * block_size parent + o =
  off * block_size parent + (block * block_size parent + o).
Proof. ring. Qed.

Lemma part_erase block count w : ok w → 0 <= block → 0 <= count → block + count <= n →
  ∃ e w', partition_erase size_bits parent off n block count w = Ret (e, w') ∧ ok w' ∧ e <= 0 ∧
    (e = 0 → wr (part_content w) (block * block_size parent) (erased (count * block_size parent)) =
      Ret (part_content w')).
Proof.
  intros Hw Hb Hc Hn. destruct Hfit as (?&?&?&?&?), (bd_size (bi:=parent)), (part_bounds w Hw) as (?&?&?).
  unfold partition_erase. rewrite size_t_id by lia. rewrite (proj2 (Z.ltb_ge _ _)) by lia.
  rewrite size_t_id by lia.
  destruct (bd_erase (block + off) count w) as (e & w' & -> & Hw' & He & Hc'); [done|lia..|].
  exists e, w'. split_and!; [done..|]. intros Hz. specialize (Hc' Hz).
  unfold part_content. apply wr_window; [lia..|nia| |].
  - unfold erased. rewrite length_replicate. nia.
  - rewrite <- Hc'. f_equal. ring.
Qed.

Lemma part_range block o k : 0 <= block < n → 0 <= o → 0 <= k → o + k <= block_size parent →
  0 <= block * block_size parent + o ∧ block * block_size parent + o + k <= n * block_size parent.
Proof. intros. nia. Qed.

Lemma part_write block o d w : ok w → 0 <= block < n → 0 <= o →
  o + Z.of_nat (length d) <= block_size parent → bytes d →
  ∃ e w', partition_write size_bits parent off n (block_size parent) block o d w = Ret (e, w') ∧
    ok w' ∧ e <= 0 ∧ (e = 0 → let a := block * block_size parent + o in
      wr (part_content w) a (zip_with prog (sub (part_content w) a (Z.of_nat (length d))) d) =
        Ret (part_content w')).
Proof.
  intros Hw Hb Ho Hl Hd. destruct Hfit as (?&?&?&?&?), (bd_size (bi:=parent)), (part_bounds w Hw) as (?&?&?).
  destruct (part_range block o (Z.of_nat (length d))) as [Ha1 Ha2]; [lia..|].
  unfold partition_write. rewrite (proj2 (Z.leb_gt _ _)), size_t_id by lia.
  rewrite (proj2 (Z.ltb_ge _ _)), size_t_id by lia.
  destruct (bd_write (block + off) o d w) as (e & w' & -> & Hw' & He & Hc');
    [done|unfold in_range; lia|done|].
  exists e, w'. split_and!; [done..|]. intros Hz. specialize (Hc' Hz). cbv zeta in *.
  unfold part_content. rewrite part_addr in Hc'.
  rewrite (sub_window _ (off * block_size parent) (n * block_size parent)) in Hc' by lia.
  apply wr_window; [lia..| |done].
  rewrite length_zip_with, sub_length; rewrite ?sub_length by lia; lia.
Qed.

Lemma part_read block o k w : ok w → 0 <= block < n → 0 <= o → 0 <= k → o + k <= block_size parent →
  ∃ e d w', partition_read size_bits parent off block o k w = Ret (e, d, w') ∧ ok w' ∧
    content w' = content w ∧ e <= 0 ∧
    (e = 0 → d = sub (part_content w) (block * block_size parent + o) k).
Proof.
  intros Hw Hb Ho Hk Hl. destruct Hfit as (?&?&?&?&?), (bd_size (bi:=parent)), (part_bounds w Hw) as (?&?&?).
  destruct (part_range block o k) as [Ha1 Ha2]; [lia..|].
  unfold partition_read. rewrite size_t_id by lia.
  destruct (bd_read (block + off) o k w) as (e & d & w' & -> & Hw' & Hc & He & Hd);
    [done|unfold in_range; lia|].
  exists e, d, w'. split_and!; [done..|]. intros Hz. rewrite (Hd Hz), part_addr.
  apply sub_window; lia.
Qed.

Lemma part_content_same w w' : content w' = content w → part_content w' = part_content w.
Proof. unfold part_content. by intros ->. Qed.

#[export] Instance partition_dev :
  BlockDev ok part_content prog (block_create_partition size_bits parent off n false).
Proof.
  destruct (bd_size (bi:=parent)), Hfit as (?&?&?&?&?). split; cbn.
  - lia.
  - apply part_content_ok.
  - apply bd_prog.
  - intros block o k w Hw (?&?&?&?).
    destruct (part_read block o k w) as (e & d & w' & ?&?&?&?&?); [done|cbn in *; lia..|].
    eauto 10 using part_content_same.
  - intros block o d w Hw (?&?&?&?) Hd. apply part_write; cbn in *; (done || lia).
  - intros. by apply part_erase.
  - intros op w Hw Hl Hu. destruct (bd_ctrl op w) as (e & w' & ?&?&?&?); [done..|].
    unfold partition_ctrl. eauto 10 using part_content_same.
Qed.
End Ok.

(** With the lock: the calls of the parent are made while it is held. *)
Section Locked.
Context (ok held : W → Prop) {HD : BlockDev held content prog parent} {HL : BlockLock ok held content parent}.

Lemma locked_call {A} (op : W → res (A * W)) (P : A → list Z → list Z → Prop) :
  (∀ w, held w → ∃ a w', op w = Ret (a, w') ∧ held w' ∧ P a (content w) (content w')) →
  ∀ w, ok w → ∃ a w',
    ('(_, w) ← ctrl parent BLOCK_LOCK w; '(a, w) ← op w; '(_, w) ← ctrl parent BLOCK_UNLOCK w; Ret (a, w)) =
      Ret (a, w') ∧ ok w' ∧ P a (content w) (content w').
Proof.
  intros H w Hw. destruct (bl_lock w Hw) as (e1 & w1 & -> & H1 & C1). cbn.
  destruct (H w1 H1) as (a & w2 & -> & H2 & HP). cbn.
  destruct (bl_unlock w2 H2) as (e3 & w3 & -> & H3 & C3). cbn.
  exists a, w3. rewrite C3, <- C1. eauto.
Qed.

Lemma ok_content w : ok w →
  Z.of_nat (length (part_content w)) = n * block_size parent ∧ bytes (part_content w).
Proof.
  intros Hw. destruct (bl_lock w Hw) as (e1 & w1 & _ & H1 & C1).
  rewrite <- (part_content_same _ _ C1). by apply (part_content_ok held).
Qed.

#[export] Instance partition_lock_dev :
  BlockDev ok part_content prog (block_create_partition size_bits parent off n true).
Proof.
  destruct (bd_size (bi:=parent)), Hfit as (?&?&?&?&?). split; cbn.
  - lia.
  - apply ok_content.
  - apply bd_prog.
  - intros block o k w Hw (?&?&?&?). cbn in *.
    destruct (locked_call (λ w, '(e, d, w) ← partition_read size_bits parent off block o k w; Ret ((e, d), w))
      (λ a m m', m' = m ∧ a.1 <= 0 ∧ (a.1 = 0 → a.2 = sub (sub m (off * block_size parent)
        (n * block_size parent)) (block * block_size parent + o) k))) with (w := w)
      as ([e d] & w' & E & Hw' & C & ? & ?); [|done|].
    + intros w1 Hh. destruct (part_read held block o k w1) as (e & d & w' & -> & ?&?&?&?); [done|lia..|].
      exists (e, d), w'. split_and!; done.
    + exists e, d, w'. split_and!; [|done|by apply part_content_same|done..].
      rewrite <- E. unfold partition_lock_read. destruct (ctrl parent BLOCK_LOCK w) as [[? ?]|]; [|done]. cbn.
      by destruct (partition_read _ _ _ _ _ _ _) as [[[? ?] ?]|].
  - intros block o d w Hw (?&?&?&?) Hd. cbn in *.
    apply (locked_call (partition_write size_bits parent off n (block_size parent) block o d)
      (λ e m m', e <= 0 ∧ (e = 0 → let a := block * block_size parent + o in
        let v := λ m, sub m (off * block_size parent) (n * block_size parent) in
        wr (v m) a (zip_with prog (sub (v m) a (Z.of_nat (length d))) d) = Ret (v m')))); [|done].
    intros w1 Hh. by apply part_write.
  - intros block count w Hw ? ? ?.
    apply (locked_call (partition_erase size_bits parent off n block count)
      (λ e m m', e <= 0 ∧ (e = 0 →
        let v := λ m, sub m (off * block_size parent) (n * block_size parent) in
        wr (v m) (block * block_size parent) (erased (count * block_size parent)) = Ret (v m')))); [|done].
    intros w1 Hh. by apply part_erase.
  - intros op w Hw Hl Hu.
    destruct (locked_call (ctrl parent op) (λ e m m', m' = m ∧ e <= 0)) with (w := w)
      as (e & w' & E & ? & C & ?); [|done|].
    + intros w1 Hh. destruct (bd_ctrl op w1) as (e & w' & ?&?&?&?); eauto 10.
    + exists e, w'. split_and!; [|done|by apply part_content_same|done].
      rewrite <- E. by destruct op.
Qed.
End Locked.

(** ** Partitions keep to themselves *)

Section Isolated.
Context (ok : W → Prop) {HD : BlockDev ok content prog parent} {HF : BlockFrame ok content parent}.

(** A write or an erase of a partition, whatever its arguments and its outcome, changes
    nothing of the parent outside the partition, as long as the sums it checks do not
    wrap around. *)
Lemma partition_isolated w :
  ok w →
  (∀ block o d e w', 0 <= block → 0 <= o → o + Z.of_nat (length d) < 2 ^ size_bits →
     partition_write size_bits parent off n (block_size parent) block o d w = Ret (e, w') →
     same_outside (off * block_size parent) ((off + n) * block_size parent) (content w) (content w')) ∧
  (∀ block count e w', 0 <= block → 0 <= count → block + count < 2 ^ size_bits →
     partition_erase size_bits parent off n block count w = Ret (e, w') →
     same_outside (off * block_size parent) ((off + n) * block_size parent) (content w) (content w')).
Proof.
  intros Hw. destruct (bd_size (bi:=parent)), Hfit as (?&?&?&?&?). split.
  - intros block o d e w' Hb Ho Hl. unfold partition_write. rewrite (size_t_id (o + _)) by lia.
    case_match; bool_to_prop; [by intros [= <- <-]|]. case_match; bool_to_prop; [by intros [= <- <-]|].
    rewrite size_t_id by lia. intros E.
    eapply bf_write in E as [L S]; [|done|unfold in_range; lia].
    split; [done|]. intros i Hi. apply S. nia.
  - intros block count e w' Hb Hc Hs. unfold partition_erase. rewrite (size_t_id (block + _)) by lia.
    case_match; bool_to_prop; [by intros [= <- <-]|]. rewrite size_t_id by lia. intros E.
    eapply bf_erase in E as [L S]; [|done|lia..]. split; [done|]. intros i Hi. apply S. nia.
Qed.
End Isolated.
End Partition.

(** ** The verifier *)

Section Verifier.
Context {W : Type} (xalloc : Z → W → bool * W) (content : W → list Z) (prog : Z → Z → Z).
Context (parent : block_iface W) (ok : W → Prop).

(** The allocator leaves the device alone. *)
Definition alloc_apart : Prop :=
  ∀ k w, ok w → ok (xalloc k w).2 ∧ content (xalloc k w).2 = content w.

Lemma verifier_read_ok {HD : BlockDev ok content prog parent} block o k w :
  alloc_apart → ok w → in_range parent block o k →
  ∃ e d w', verifier_read xalloc parent false block o k w = Ret (e, d, w') ∧ ok w' ∧
    content w' = content w ∧ e <= 0 ∧ (e = 0 → d = sub (content w) (block * block_size parent + o) k).
Proof.
  intros Ha Hw Hr. unfold verifier_read.
  destruct (bd_read block o k w Hw Hr) as (e & d & w1 & -> & H1 & C1 & He & Hd). cbn.
  case_match eqn:E0; bool_to_prop; [by exists e, d, w1|]. subst e.
  destruct (Ha k w1 H1) as [H2 C2]. destruct (xalloc k w1) as [b w2]. cbn in *.
  destruct b; cbn; [|by eexists _, _, w2; rewrite C2, C1].
  destruct (bd_read block o k w2 H2 Hr) as (e & d2 & w3 & -> & H3 & C3 & He2 & Hd2). cbn.
  assert (content w3 = content w) as C by by rewrite C3, C2.
  case_match; bool_to_prop; [by exists e, d, w3; split_and!; auto|]. subst e.
  case_match; exists 0, d, w3; split_and!; auto.
Qed.

Lemma verifier_write_ok {HD : BlockDev ok content prog parent} block o d w :
  alloc_apart → ok w → in_range parent block o (Z.of_nat (length d)) → bytes d →
  ∃ e w', verifier_write xalloc parent false block o d w = Ret (e, w') ∧ ok w' ∧ e <= 0 ∧
    (e = 0 → let a := block * block_size parent + o in
      wr (content w) a (zip_with prog (sub (content w) a (Z.of_nat (length d))) d) = Ret (content w')).
Proof.
  intros Ha Hw Hr Hd. unfold verifier_write.
  destruct (bd_write block o d w Hw Hr Hd) as (e & w1 & -> & H1 & He & Hc). cbn.
  case_match eqn:E0; bool_to_prop; [by exists e, w1|]. subst e. specialize (Hc eq_refl).
  destruct (Ha (Z.of_nat (length d)) w1 H1) as [H2 C2]. destruct (xalloc _ w1) as [b w2]. cbn in *.
  destruct b; cbn; [|by exists ERR_NO_MEMORY, w2].
  destruct (bd_read block o (Z.of_nat (length d)) w2 H2 Hr) as (e & d2 & w3 & -> & H3 & C3 & He2 & _). cbn.
  case_match; bool_to_prop; [by exists e, w3|]. subst e.
  case_match; exists 0, w3; rewrite C3, C2; done.
Qed.

#[export] Instance verifier_dev `{!BlockDev ok content prog parent} :
  alloc_apart → BlockDev ok content prog (block_create_verifier xalloc parent false).
Proof.
  intros Ha. split; cbn.
  - apply (bd_size (bi:=parent)).
  - apply bd_content.
  - apply bd_prog.
  - intros block o k w Hw Hr. by apply verifier_read_ok.
  - intros block o d w Hw Hr Hd. by apply verifier_write_ok.
  - intros block count w. apply bd_erase.
  - intros op w. apply bd_ctrl.
Qed.

(** Told to panic, the verifier finds out about any device: a write that returns has been
    read back, byte for byte. *)
Lemma verifier_detects block o d w e w' :
  verifier_write xalloc parent true block o d w = Ret (e, w') →
  e = 0 ∧ ∃ w1, write parent block o d w = Ret (0, w1) ∧
    read parent block o (Z.of_nat (length d)) (xalloc (Z.of_nat (length d)) w1).2 = Ret (0, d, w').
Proof.
  unfold verifier_write. destruct (write parent block o d w) as [[e1 w1]|]; [|done]. cbn.
  case_match; bool_to_prop; [done|]. subst e1. destruct (xalloc _ w1) as [b w2] eqn:EX.
  destruct b; cbn; [|done].
  destruct (read parent block o _ w2) as [[[e2 d2] w3]|] eqn:ER; [|done]. cbn.
  case_match; bool_to_prop; [done|]. subst e2. case_match; [|done]. subst d2. intros [= <- <-].
  split; [done|]. exists w1. by rewrite EX.
Qed.
End Verifier.

(** ** Subdivisions are devices *)

Section Subdivision.
Context {W : Type} (size_bits : Z) (xalloc : Z → W → bool * W) (content : W → list Z) (prog : Z → Z → Z).
Context (parent : block_iface W) (ok : W → Prop) {HD : BlockDev ok content prog parent} (shift : Z).

(** The blocks divide evenly and their number and size can be counted. *)
Definition divides : Prop :=
  0 <= shift <= 30 ∧ block_size parent mod 2 ^ shift = 0 ∧
  num_blocks parent * 2 ^ shift < 2 ^ size_bits ∧ block_size parent < 2 ^ size_bits.

(** There is memory for a block of the parent. *)
Definition alloc_ok : Prop :=
  ∀ k w, ok w → (xalloc k w).1 = true ∧ ok (xalloc k w).2 ∧ content (xalloc k w).2 = content w.

Context (Hdiv : divides).
Definition sbs : Z := Z.shiftr (block_size parent) shift.

Lemma sbs_spec : block_size parent = 2 ^ shift * sbs ∧ 0 < sbs ∧ 0 < 2 ^ shift.
Proof.
  destruct Hdiv as (?&Hm&?), (bd_size (bi:=parent)). unfold sbs. rewrite Z.shiftr_div_pow2 by lia.
  assert (0 < 2 ^ shift) by (apply Z.pow_pos_nonneg; lia).
  apply Z.div_exact in Hm; [|lia]. split; [done|]. split; [|done]. nia.
Qed.

Lemma sub_mask_spec : sub_mask shift = 2 ^ shift - 1.
Proof. unfold sub_mask. destruct Hdiv. by rewrite Z.shiftl_1_l. Qed.

Lemma land_mask b : Z.land b (sub_mask shift) = b mod 2 ^ shift.
Proof. rewrite sub_mask_spec. apply land_ones_mod. destruct Hdiv; lia. Qed.

Lemma shiftr_spec b : Z.shiftr b shift = b / 2 ^ shift.
Proof. apply Z.shiftr_div_pow2. destruct Hdiv; lia. Qed.

(** Where a small block lies on the parent. *)
Lemma sub_addr block o : block / 2 ^ shift * block_size parent + (o + block mod 2 ^ shift * sbs) = block * sbs + o.
Proof.
  destruct sbs_spec as (-> & ? & ?). pose proof (Z.div_mod block (2 ^ shift)). nia.
Qed.

Lemma sub_range block o k : 0 <= block < num_blocks parent * 2 ^ shift → 0 <= o → 0 <= k → o + k <= sbs →
  in_range parent (block / 2 ^ shift) (o + block mod 2 ^ shift * sbs) k ∧
  size_t size_bits (o + sub_block_offset size_bits shift sbs block) = o + block mod 2 ^ shift * sbs.
Proof.
  intros Hb Ho Hk Hl. destruct sbs_spec as (Hs & ? & ?), Hdiv as (?&?&?&?).
  pose proof (Z.mod_pos_bound block (2 ^ shift)).
  assert (o + block mod 2 ^ shift * sbs + k <= block_size parent) by nia.
  split.
  - unfold in_range. split_and!; [apply Z.div_pos; lia|apply Z.div_lt_upper_bound; lia|nia|lia|lia].
  - unfold sub_block_offset. rewrite Z.land_comm, land_mask.
    unfold size_t. rewrite Zplus_mod_idemp_r. apply Z.mod_small. nia.
Qed.

Lemma zip_prog_erased d : bytes d → zip_with prog (erased (Z.of_nat (length d))) d = d.
Proof.
  unfold erased. rewrite Nat2Z.id. induction 1 as [|b d Hb Hd IH]; [done|]. cbn. by rewrite bd_prog, IH.
Qed.

Lemma erased_length k : 0 <= k → Z.of_nat (length (erased k)) = k.
Proof. intros. unfold erased. rewrite length_replicate. lia. Qed.

Lemma erased_bytes k : bytes (erased k).
Proof. apply Forall_replicate. unfold is_byte. lia. Qed.

Lemma erased_app i j : 0 <= i → 0 <= j → erased i ++ erased j = erased (i + j).
Proof. intros. unfold erased. rewrite <- replicate_add. f_equal. lia. Qed.

Lemma wr_bytes m a s m' : wr m a s = Ret m' → bytes m → bytes s → bytes m'.
Proof.
  unfold wr. case_match; [|done]. intros [= <-] Hm Hs.
  apply Forall_app; split; [by apply Forall_take|]. apply Forall_app; split; [done|by apply Forall_drop].
Qed.

(** Reading a window, erasing it and writing it back with a part erased. *)
Lemma erase_window m m1 m2 a x k buf : 0 <= a → 0 <= x → 0 <= k → bytes m →
  let q := sub m a (block_size parent) in
  a + block_size parent <= Z.of_nat (length m) → x + k <= block_size parent →
  wr q x (erased k) = Ret buf →
  wr m a (erased (block_size parent)) = Ret m1 →
  wr m1 a (zip_with prog (sub m1 a (Z.of_nat (length buf))) buf) = Ret m2 →
  wr m (a + x) (erased k) = Ret m2.
Proof.
  intros Ha Hx Hk HB q Hm Hxk. subst q. destruct (bd_size (bi:=parent)).
  destruct (window m a (block_size parent)) as (p & q & r & -> & <- & Hq & ->); [lia..|].
  intros Eb. pose proof (wr_length _ _ _ _ Eb) as Lb.
  assert (bytes buf) as HBb.
  { eapply wr_bytes; [done| |apply erased_bytes]. by apply Forall_app in HB as [_ [HB _]%Forall_app]. }
  pose proof (erased_length (block_size parent) ltac:(lia)) as Le.
  rewrite wr_at by lia. intros [= <-].
  assert (sub (p ++ erased (block_size parent) ++ r) (Z.of_nat (length p)) (Z.of_nat (length buf)) =
    erased (Z.of_nat (length buf))) as ->.
  { rewrite Lb, Hq. rewrite <- Le at 2. apply sub_app_mid. }
  rewrite zip_prog_erased by done. rewrite wr_at by lia. intros [= <-].
  destruct (wr_mid p q r x (erased k)) as (q' & E' & _ & ->); [done|rewrite erased_length; lia|].
  congruence.
Qed.

Lemma erase_part_ok block chunk w : alloc_ok → ok w →
  0 <= block < num_blocks parent * 2 ^ shift → 0 < chunk <= 2 ^ shift - block mod 2 ^ shift →
  ∃ e w', erase_part xalloc parent shift sbs block chunk w = Ret (e, w') ∧ ok w' ∧ e <= 0 ∧
    (e = 0 → wr (content w) (block * sbs) (erased (chunk * sbs)) = Ret (content w')).
Proof.
  intros HA Hw Hb Hc. destruct sbs_spec as (Hs & Hs0 & Hp), Hdiv as (?&?&?&?), (bd_size (bi:=parent)).
  pose proof (Z.mod_pos_bound block (2 ^ shift)) as Hmod.
  assert (0 <= block / 2 ^ shift < num_blocks parent) as Hbp
    by (split; [apply Z.div_pos; lia|apply Z.div_lt_upper_bound; lia]).
  unfold erase_part. destruct (HA (block_size parent) w Hw) as (Hm & K2 & C2).
  destruct (xalloc (block_size parent) w) as [b w1]. cbn in Hm, K2, C2. subst b. cbn [negb].
  rewrite shiftr_spec, land_mask.
  destruct (bd_read (block / 2 ^ shift) 0 (block_size parent) w1) as (e & q & w2 & -> & K3 & C3 & He & Hq);
    [done|unfold in_range; lia|]. cbn.
  case_match eqn:E0; bool_to_prop; [by exists e, w2|]. subst e. specialize (Hq eq_refl).
  destruct (bd_erase (block / 2 ^ shift) 1 w2) as (e1 & w3 & -> & K4 & He1 & Hc1); [done|lia..|]. cbn.
  destruct (bd_content w1 K2) as [Hlen HB]. rewrite Z.add_0_r in Hq. rewrite Z.mul_1_l in Hc1.
  assert (block / 2 ^ shift * block_size parent + block_size parent <= Z.of_nat (length (content w1))) by nia.
  assert (block mod 2 ^ shift * sbs + chunk * sbs <= block_size parent) as Hin by nia.
  assert (length q = Z.to_nat (block_size parent)) as Lq by (subst q; apply sub_length; nia).
  rewrite wr_ok by (rewrite ?length_replicate; nia). cbn.
  case_match; bool_to_prop; [by exists e1, w3|]. subst e1. specialize (Hc1 eq_refl).
  set (buf := take _ q ++ _). assert (wr q (block mod 2 ^ shift * sbs) (erased (chunk * sbs)) = Ret buf) as Eb
    by (apply wr_ok; unfold erased; rewrite ?length_replicate; nia).
  pose proof (wr_length _ _ _ _ Eb) as Lb.
  assert (bytes q) as HBq by (subst q; by apply Forall_take, Forall_drop).
  destruct (bd_write (block / 2 ^ shift) 0 buf w3) as (e & w4 & -> & H5' & He4 & Hc4); [done| | |].
  { unfold in_range. lia. }
  { eapply wr_bytes; [exact Eb|done|apply erased_bytes]. }
  exists e, w4. split_and!; [done..|]. intros Hz. specialize (Hc4 Hz). cbv zeta in Hc4.
  rewrite Z.add_0_r in Hc4. rewrite <- C2.
  replace (block * sbs) with (block / 2 ^ shift * block_size parent + block mod 2 ^ shift * sbs)
    by (rewrite <- (Z.add_0_r (block * sbs)), <- sub_addr; ring).
  eapply erase_window; [nia|nia|nia|done|done|lia| |rewrite <- C3; exact Hc1|exact Hc4].
  by rewrite <- Hq.
Qed.

Lemma ldiff_mask c : Z.ldiff c (sub_mask shift) = 2 ^ shift * (c / 2 ^ shift).
Proof.
  rewrite sub_mask_spec. destruct Hdiv as [? _].
  replace (2 ^ shift - 1) with (Z.ones shift) by (rewrite Z.ones_equiv; lia).
  rewrite Z.ldiff_ones_r by lia. rewrite Z.shiftr_div_pow2, Z.shiftl_mul_pow2 by lia. ring.
Qed.

(** One round erases [chunk] blocks and the rest follows. *)
Lemma erase_round m m1 m2 block chunk count : 0 <= chunk → 0 <= count - chunk →
  wr m (block * sbs) (erased (chunk * sbs)) = Ret m1 →
  wr m1 ((block + chunk) * sbs) (erased ((count - chunk) * sbs)) = Ret m2 →
  wr m (block * sbs) (erased (count * sbs)) = Ret m2.
Proof.
  intros Hc Hr E1 E2. destruct sbs_spec as (_ & ? & _).
  replace (count * sbs) with (chunk * sbs + (count - chunk) * sbs) by ring.
  rewrite <- erased_app by nia. eapply wr_adjacent; [exact E1|].
  rewrite erased_length by nia. rewrite <- E2. f_equal. ring.
Qed.

Lemma wr_nil m a : 0 <= a <= Z.of_nat (length m) → wr m a [] = Ret m.
Proof.
  intros. rewrite wr_ok by (cbn; lia). cbn. by rewrite Nat.add_0_r, take_drop.
Qed.

Lemma erase_loop_ok fuel : ∀ block count w, alloc_ok → ok w → 0 <= block → 0 <= count < Z.of_nat fuel →
  block + count <= num_blocks parent * 2 ^ shift →
  ∃ e w', erase_loop size_bits xalloc fuel parent shift sbs block count w = Ret (e, w') ∧ ok w' ∧ e <= 0 ∧
    (e = 0 → wr (content w) (block * sbs) (erased (count * sbs)) = Ret (content w')).
Proof.
  induction fuel as [|fuel IH]; intros block count w HA Hw Hb Hc Hn; [lia|].
  destruct sbs_spec as (Hs & Hs0 & Hp), Hdiv as (?&?&?&?), (bd_size (bi:=parent)), (bd_content w Hw) as [Hl HB].
  pose proof (Z.mod_pos_bound block (2 ^ shift)) as Hmod. cbn [erase_loop].
  case_match eqn:E0; bool_to_prop.
  { exists 0, w. split_and!; [done..|]. intros _. subst count. cbn. apply wr_nil. nia. }
  rewrite land_mask, sub_mask_spec, shiftr_spec.
  assert (∀ chunk w1, 0 < chunk <= count → ok w1 →
    wr (content w) (block * sbs) (erased (chunk * sbs)) = Ret (content w1) →
    ∃ e w', erase_loop size_bits xalloc fuel parent shift sbs (size_t size_bits (block + chunk))
        (count - chunk) w1 = Ret (e, w') ∧ ok w' ∧ e <= 0 ∧
      (e = 0 → wr (content w) (block * sbs) (erased (count * sbs)) = Ret (content w'))) as Hnext.
  { intros chunk w1 Hch Hw1 E1. unfold size_t. rewrite Z.mod_small by lia.
    destruct (IH (block + chunk) (count - chunk) w1) as (e & w' & -> & ? & ? & E2); [done|done|lia..|].
    exists e, w'. split_and!; [done..|]. intros Hz. eapply erase_round; [| |exact E1|by apply E2]; lia. }
  case_match eqn:E1; bool_to_prop.
  - rewrite (shiftr_spec count), <- sub_mask_spec, ldiff_mask.
    pose proof (Z.mul_div_le count (2 ^ shift) Hp) as Hle.
    assert (1 <= count / 2 ^ shift) by (apply Z.div_le_lower_bound; lia).
    destruct (bd_erase (block / 2 ^ shift) (count / 2 ^ shift) w) as (e & w1 & -> & Hw1 & He & Hc1);
      [done|apply Z.div_pos; lia|lia| |].
    { pose proof (Z.div_mod block (2 ^ shift)). nia. }
    cbn. case_match; bool_to_prop; [by exists e, w1|]. subst e.
    apply Hnext; [nia|done|]. rewrite <- (Hc1 eq_refl).
    pose proof (sub_addr block 0) as Ea. f_equal; [nia|]. f_equal. rewrite Hs. ring.
  - rewrite Z.shiftl_1_l. set (chunk := Z.min _ _). assert (0 < chunk <= count) by (unfold chunk; lia).
    destruct (erase_part_ok block chunk w) as (e & w1 & -> & Hw1 & He & Hc1); [done|done|lia|lia|].
    cbn. case_match; bool_to_prop; [by exists e, w1|]. subst e. apply Hnext; auto.
Qed.

#[export] Instance subdivision_dev :
  alloc_ok → BlockDev ok content prog (block_create_subdivision size_bits xalloc parent shift).
Proof.
  intros HA. destruct sbs_spec as (Hs & Hs0 & Hp), Hdiv as (?&?&?&?), (bd_size (bi:=parent)).
  assert (size_t size_bits (Z.shiftl (num_blocks parent) shift) = num_blocks parent * 2 ^ shift) as Hn
    by (unfold size_t; rewrite Z.shiftl_mul_pow2, Z.mod_small by lia; done).
  split; cbn; rewrite ?Hn; fold sbs.
  - nia.
  - intros w Hw. destruct (bd_content w Hw) as [-> HB]. split; [rewrite Hs; ring|done].
  - apply bd_prog.
  - intros block o k w Hw (Hb&?&?&?). cbn in *. rewrite Hn in Hb.
    destruct (sub_range block o k) as [Hr Es]; [done..|].
    unfold subdivision_read. rewrite Es, shiftr_spec.
    destruct (bd_read _ _ _ w Hw Hr) as (e & d & w' & -> & ?&?&?&Hd). rewrite sub_addr in Hd. eauto 10.
  - intros block o d w Hw (Hb&?&?&?) HB. cbn in *. rewrite Hn in Hb.
    destruct (sub_range block o (Z.of_nat (length d))) as [Hr Es]; [done..|].
    unfold subdivision_write. rewrite Es, shiftr_spec.
    destruct (bd_write _ _ _ w Hw Hr HB) as (e & w' & -> & ?&?&Hd). rewrite sub_addr in Hd. eauto 10.
  - intros block count w Hw ? ? ?. apply (erase_loop_ok (S (Z.to_nat count))); (done || lia).
  - intros op w. apply bd_ctrl.
Qed.
End Subdivision.

(** ** The stream fills the device *)

Section Stream.
Context {W : Type} (size_bits : Z) (content : W → list Z) (prog : Z → Z → Z).
Context (bi : block_iface W) (ok : W → Prop) {HD : BlockDev ok content prog bi}.
Context (Hcount : num_blocks bi * block_size bi < 2 ^ size_bits).

(** Where the stream stands after [data] over a device that held [m0]: the rest of the block
    it is in is erased, the blocks after it are as they were. *)
Definition tail_pad (n : Z) : Z := (- n) mod block_size bi.
Definition streamed (m0 data m : list Z) : Prop :=
  let n := Z.of_nat (length data) in
  m = data ++ erased (tail_pad n) ++ drop (Z.to_nat (n + tail_pad n)) m0.

Record stream_at (m0 data : list Z) (b : block_write_stream) (w : W) : Prop := {
  sa_ok : ok w;
  sa_len : Z.of_nat (length m0) = num_blocks bi * block_size bi;
  sa_room : Z.of_nat (length data) <= num_blocks bi * block_size bi;
  sa_block : bws_block b = Z.of_nat (length data) / block_size bi;
  sa_offset : bws_offset b = Z.of_nat (length data) mod block_size bi;
  sa_total : total_written b = Z.of_nat (length data);
  sa_content : streamed m0 data (content w) }.

Lemma tail_pad_spec n r k : 0 <= r < block_size bi → n + r = block_size bi * k → tail_pad n = r.
Proof.
  intros Hr E. unfold tail_pad. replace (- n) with (r + (- k) * block_size bi) by lia.
  rewrite Z.mod_add by lia. by apply Z.mod_small.
Qed.

Lemma sub_mid_app data e r k : 0 <= k <= Z.of_nat (length e) →
  sub (data ++ e ++ r) (Z.of_nat (length data)) k = take (Z.to_nat k) e.
Proof.
  intros Hk. rewrite <- (Z.add_0_r (Z.of_nat (length data))), sub_mid by lia. done.
Qed.

(** The block the stream is in, ready to be written: erased from the position on. *)
Definition ready (m0 data m : list Z) : Prop :=
  let n := Z.of_nat (length data) in let room := block_size bi - n mod block_size bi in
  m = data ++ erased room ++ drop (Z.to_nat (n + room)) m0.

Lemma bws_ready m0 data b w : stream_at m0 data b w →
  Z.of_nat (length data) < num_blocks bi * block_size bi →
  ∃ e w', (if bws_offset b =? 0 then erase bi (bws_block b) 1 w else Ret (0, w)) = Ret (e, w') ∧ ok w' ∧
    e <= 0 ∧ (e = 0 → ready m0 data (content w')).
Proof.
  intros [Hw Hl _ Eb Eo _ Hc] Hn. destruct (bd_size (bi:=bi)) as [Hbs _]. unfold ready, streamed in *.
  set (n := Z.of_nat (length data)) in *. rewrite Eb, Eo.
  pose proof (Z.div_mod n (block_size bi) ltac:(lia)) as Edm. pose proof (Z.mod_pos_bound n (block_size bi) Hbs) as Hm.
  case_match eqn:E0; bool_to_prop.
  - assert (n / block_size bi < num_blocks bi) by (apply Z.div_lt_upper_bound; lia).
    assert (0 <= n / block_size bi) by (apply Z.div_pos; lia).
    destruct (bd_erase (n / block_size bi) 1 w) as (e & w' & -> & ? & ? & Hc'); [done|lia..|].
    exists e, w'. split_and!; [done..|]. intros Hz. specialize (Hc' Hz). rewrite E0, Z.sub_0_r, Z.mul_1_l in *.
    rewrite (tail_pad_spec n 0 (n / block_size bi)) in Hc by lia.
    change (erased 0) with (@nil Z) in Hc. rewrite Z.add_0_r in Hc. cbn [app] in Hc.
    destruct (window m0 n (block_size bi)) as (p & q & r & -> & Hp & Hq & _); [lia|lia| |].
    { rewrite Hl. nia. }
    rewrite <- Hp in Hc. rewrite Nat2Z.id, drop_app_length in Hc.
    rewrite Hc, wr_at in Hc' by (pose proof (erased_length (block_size bi) ltac:(lia)); lia).
    injection Hc' as <-. do 2 f_equal. rewrite app_assoc, <- Hp, <- Hq.
    by rewrite <- Nat2Z.inj_add, Nat2Z.id, <- length_app, drop_app_length.
  - exists 0, w. split_and!; [done|done|lia|]. intros _. rewrite Hc at 1.
    by rewrite (tail_pad_spec n (block_size bi - n mod block_size bi) (n / block_size bi + 1)) by lia.
Qed.

Lemma ready_written m0 data d m m' : ready m0 data m → bytes d →
  let n := Z.of_nat (length data) in
  0 < Z.of_nat (length d) <= block_size bi - n mod block_size bi →
  wr m n (zip_with prog (sub m n (Z.of_nat (length d))) d) = Ret m' →
  streamed m0 (data ++ d) m'.
Proof.
  intros Hr HB n Hd. destruct (bd_size (bi:=bi)) as [Hbs _].
  pose proof (Z.mod_pos_bound n (block_size bi) Hbs) as Hm.
  pose proof (Z.div_mod n (block_size bi) ltac:(lia)) as Edm.
  unfold ready in Hr. fold n in Hr. set (room := block_size bi - n mod block_size bi) in *. subst m.
  assert (sub (data ++ erased room ++ drop (Z.to_nat (n + room)) m0) n (Z.of_nat (length d)) =
    erased (Z.of_nat (length d))) as ->.
  { rewrite sub_mid_app by (rewrite erased_length; lia). unfold erased.
    rewrite take_replicate. f_equal. lia. }
  rewrite (zip_prog_erased content prog bi ok) by done.
  replace room with (Z.of_nat (length d) + (room - Z.of_nat (length d))) at 1 by lia.
  rewrite <- erased_app, <- app_assoc by lia.
  rewrite wr_at; [|done|pose proof (erased_length (Z.of_nat (length d)) ltac:(lia)); lia]. intros [= <-].
  unfold streamed. rewrite length_app, Nat2Z.inj_add. fold n.
  rewrite (tail_pad_spec _ (room - Z.of_nat (length d)) (n / block_size bi + 1)); [|lia|lia].
  rewrite <- app_assoc. do 4 f_equal. lia.
Qed.

Lemma div_mod_pos n q r : 0 <= r < block_size bi → n = block_size bi * q + r →
  q = n / block_size bi ∧ r = n mod block_size bi.
Proof.
  intros Hr E. split; [by apply (Z.div_unique _ _ _ r); [left|]|by apply (Z.mod_unique _ _ q); [left|]].
Qed.

(** The position after a chunk that ends in the block. *)
Lemma bws_moved m0 data d b w0 w : stream_at m0 data b w0 → ok w →
  let n := Z.of_nat (length data) in let k := Z.of_nat (length d) in
  0 < k <= block_size bi - n mod block_size bi → n + k <= num_blocks bi * block_size bi →
  streamed m0 (data ++ d) (content w) →
  let offset := size_t size_bits (bws_offset b + k) in
  let total := size_t size_bits (total_written b + k) in
  stream_at m0 (data ++ d)
    (if block_size bi <=? offset then BlockWriteStream (size_t size_bits (bws_block b + 1)) 0 total
     else BlockWriteStream (bws_block b) offset total) w.
Proof.
  intros [_ Hl _ Eb Eo Et _] Hw n k Hk Hn Hs. destruct (bd_size (bi:=bi)) as [Hbs Hnb].
  pose proof (Z.mod_pos_bound n (block_size bi) Hbs) as Hm.
  pose proof (Z.div_mod n (block_size bi) ltac:(lia)) as Edm.
  fold n in Eb, Eo, Et. rewrite Eb, Eo, Et.
  assert (0 <= n / block_size bi) by (apply Z.div_pos; lia).
  assert (n / block_size bi < num_blocks bi) by (apply Z.div_lt_upper_bound; lia).
  assert (block_size bi <= num_blocks bi * block_size bi) by nia.
  assert (num_blocks bi <= num_blocks bi * block_size bi) by nia.
  rewrite !(size_t_id size_bits) by lia. cbv zeta.
  assert (Z.of_nat (length (data ++ d)) = n + k) as El by (rewrite length_app; lia).
  destruct (block_size bi <=? n mod block_size bi + k) eqn:E; bool_to_prop.
  - destruct (div_mod_pos (n + k) (n / block_size bi + 1) 0) as [Ed Er]; [lia|lia|].
    split; cbn; rewrite ?El; (done || lia).
  - destruct (div_mod_pos (n + k) (n / block_size bi) (n mod block_size bi + k)) as [Ed Er]; [lia|lia|].
    split; cbn; rewrite ?El; (done || lia).
Qed.

Lemma bws_loop_ok m0 size fuel : ∀ src data b w, stream_at m0 data b w → bytes src → 0 <= size →
  Z.of_nat (length data) + Z.of_nat (length src) <= num_blocks bi * block_size bi →
  (length src < fuel)%nat →
  ∃ r b' w', bws_loop size_bits fuel bi size src b w = Ret (r, b', w') ∧ ok w' ∧
    (0 <= r → r = size ∧ stream_at m0 (data ++ src) b' w').
Proof.
  induction fuel as [|fuel IH]; intros src data b w Hat HB Hsz Hn Hf; [lia|]. cbn [bws_loop].
  destruct src as [|x src']; [exists size, b, w; rewrite app_nil_r; by split_and!; [|apply Hat|]|].
  set (src := x :: src') in *. assert (0 < length src)%nat by (cbn; lia).
  destruct (bd_size (bi:=bi)) as [Hbs Hnb].
  destruct (bws_ready m0 data b w Hat) as (e & w1 & -> & Hw1 & He & Hr); [lia|]. cbn [mbind res_bind].
  case_match; bool_to_prop; [exists e, b, w1; split_and!; [done|done|lia]|]. subst e. specialize (Hr eq_refl).
  pose proof (sa_block _ _ _ _ Hat) as Eb. pose proof (sa_offset _ _ _ _ Hat) as Eo.
  set (n := Z.of_nat (length data)) in *.
  pose proof (Z.mod_pos_bound n (block_size bi) Hbs) as Hm.
  pose proof (Z.div_mod n (block_size bi) ltac:(lia)) as Edm.
  assert (0 <= n / block_size bi) by (apply Z.div_pos; lia).
  assert (n / block_size bi < num_blocks bi) by (apply Z.div_lt_upper_bound; lia).
  assert (block_size bi <= num_blocks bi * block_size bi) by nia.
  rewrite (size_t_id size_bits (block_size bi - _)) by lia.
  set (chunk := Z.min _ _). assert (0 < chunk <= Z.of_nat (length src)) as Hch by (unfold chunk; lia).
  set (d := take (Z.to_nat chunk) src).
  assert (Z.of_nat (length d) = chunk) as Ld by (unfold d; rewrite length_take; lia).
  destruct (bd_write (bws_block b) (bws_offset b) d w1) as (e & w2 & -> & Hw2 & He2 & Hc);
    [done|unfold in_range, chunk in *; lia|by apply Forall_take|]. cbn [mbind res_bind].
  case_match; bool_to_prop; [exists e, b, w2; split_and!; [done|done|lia]|]. subst e. specialize (Hc eq_refl).
  cbv zeta in Hc. replace (bws_block b * block_size bi + bws_offset b) with n in Hc by lia.
  apply (ready_written m0 data d) in Hc; [|done|by apply Forall_take|fold n; unfold chunk in *; lia].
  rewrite <- Ld. destruct (IH (drop (Z.to_nat (Z.of_nat (length d))) src) (data ++ d)
    (if block_size bi <=? size_t size_bits (bws_offset b + Z.of_nat (length d))
     then BlockWriteStream (size_t size_bits (bws_block b + 1)) 0 (size_t size_bits (total_written b + Z.of_nat (length d)))
     else BlockWriteStream (bws_block b) (size_t size_bits (bws_offset b + Z.of_nat (length d)))
       (size_t size_bits (total_written b + Z.of_nat (length d)))) w2)
    as (r & b' & w' & -> & Hw' & Hres).
  - eapply bws_moved; [exact Hat|done|fold n; unfold chunk in *; lia|fold n; lia|done].
  - by apply Forall_drop.
  - done.
  - rewrite length_app, length_drop. lia.
  - rewrite length_drop. lia.
  - exists r, b', w'. split_and!; [done..|]. intros Hr0. destruct (Hres Hr0) as [-> Hat'].
    split; [done|]. rewrite <- app_assoc in Hat'. unfold d in Hat' at 1.
    by rewrite Ld, take_drop in Hat'.
Qed.

(** The stream at its start. *)
Lemma bws_start w : ok w → stream_at (content w) [] block_write_stream_create w.
Proof.
  intros Hw. destruct (bd_content w Hw) as [Hl _], (bd_size (bi:=bi)).
  split; cbn; (done || nia).
Qed.

Lemma bws_write_ok m0 data d b w : stream_at m0 data b w → bytes d →
  Z.of_nat (length data) + Z.of_nat (length d) <= num_blocks bi * block_size bi →
  ∃ r b' w', bws_write size_bits bi (Some d) b w = Ret (r, b', w') ∧ ok w' ∧
    (0 <= r → r = Z.of_nat (length d) ∧ stream_at m0 (data ++ d) b' w').
Proof. intros. apply bws_loop_ok; (done || lia). Qed.

(** Writes of several pieces; the first error ends them. *)
Fixpoint bws_writes (ds : list (list Z)) (b : block_write_stream) (w : W)
    : res (Z * block_write_stream * W) :=
  match ds with
  | [] => Ret (0, b, w)
  | d :: ds =>
      '(r, b, w) ← bws_write size_bits bi (Some d) b w;
      if r <? 0 then Ret (r, b, w) else bws_writes ds b w
  end.

Lemma bws_writes_ok m0 ds : ∀ data b w, stream_at m0 data b w → Forall bytes ds →
  Z.of_nat (length data) + Z.of_nat (length (concat ds)) <= num_blocks bi * block_size bi →
  ∃ r b' w', bws_writes ds b w = Ret (r, b', w') ∧ ok w' ∧
    (0 <= r → stream_at m0 (data ++ concat ds) b' w').
Proof.
  induction ds as [|d ds IH]; intros data b w Hat HB Hn; cbn [bws_writes].
  { exists 0, b, w. cbn. rewrite app_nil_r. split_and!; [done|apply Hat|done]. }
  apply Forall_cons_1 in HB as [HBd HB]. cbn [concat] in Hn. rewrite length_app in Hn.
  destruct (bws_write_ok m0 data d b w) as (r & b1 & w1 & -> & Hw1 & Hr); [done|done|lia|]. cbn [mbind res_bind].
  case_match; bool_to_prop; [exists r, b1, w1; split_and!; [done|done|lia]|].
  destruct (Hr ltac:(lia)) as [_ Hat1].
  destruct (IH (data ++ d) b1 w1) as (r2 & b2 & w2 & -> & Hw2 & Hr2); [done|done|rewrite length_app; lia|].
  exists r2, b2, w2. split_and!; [done..|]. cbn [concat]. by rewrite app_assoc.
Qed.
End Stream.

(** ** A concrete device: NOR flash with a lock *)

Record flash := Flash { fl_data : list Z; fl_locked : bool }.

Definition flash_dev (nb bs : Z) : block_iface flash :=
  let inside block off n := ((0 <=? block) && (block <? nb) && (0 <=? off) && (off + n <=? bs))%bool in
  BlockIface nb bs
    (λ block count f,
       if ((0 <=? block) && (0 <=? count) && (block + count <=? nb))%bool then
         m ← wr (fl_data f) (block * bs) (erased (count * bs)); Ret (0, Flash m (fl_locked f))
       else Ret (ERR_NOSPC, f))
    (λ block off d f,
       if inside block off (Z.of_nat (length d)) then
         m ← wr (fl_data f) (block * bs + off)
               (zip_with Z.land (sub (fl_data f) (block * bs + off) (Z.of_nat (length d))) d);
         Ret (0, Flash m (fl_locked f))
       else Ret (ERR_NOSPC, f))
    (λ block off n f,
       if (inside block off n && (0 <=? n))%bool then
         d ← rd (fl_data f) (block * bs + off) n; Ret (0, d, f)
       else Ret (ERR_NOSPC, [], f))
    (λ op f,
       match op with
       | BLOCK_LOCK => if fl_locked f then Fault Blocked else Ret (0, Flash (fl_data f) true)
       | BLOCK_UNLOCK => Ret (0, Flash (fl_data f) false)
       | _ => Ret (0, f)
       end).

Section Flash.
Context (nb bs : Z) (Hbs : 0 < bs) (Hnb : 0 <= nb) (lk : bool).
Definition flash_ok (f : flash) : Prop :=
  fl_locked f = lk ∧ Z.of_nat (length (fl_data f)) = nb * bs ∧ bytes (fl_data f).

Lemma land_bytes d d' : bytes d → bytes d' → bytes (zip_with Z.land d d').
Proof.
  intros H. revert d'. induction H as [|x d Hx Hd IH]; intros [|y d'] H'; [constructor..|].
  apply Forall_cons_1 in H' as [Hy H']. cbn. constructor; [|by apply IH].
  unfold is_byte in *. split; [apply Z.land_nonneg; lia|].
  destruct (Z.eq_dec (Z.land x y) 0) as [->|Hnz]; [lia|].
  assert (0 <= Z.land x y) by (apply Z.land_nonneg; lia).
  change 256 with (2 ^ 8). apply Z.log2_lt_pow2; [lia|].
  pose proof (Z.log2_land x y ltac:(lia) ltac:(lia)).
  assert (Z.log2 x <= 7) by (apply Z.log2_le_mono with (b := 255); lia). lia.
Qed.

#[export] Instance flash_is_dev : BlockDev flash_ok fl_data Z.land (flash_dev nb bs).
Proof.
  split; cbn.
  - done.
  - by intros w (_ & ? & ?).
  - intros b Hb. change 255 with (Z.ones 8). rewrite Z.land_comm, Z.land_ones by lia.
    apply Z.mod_small. exact Hb.
  - intros block off n w Hw (?&?&?&?). cbn in *. destruct Hw as (Hlk & Hl & HB).
    rewrite !(proj2 (Z.leb_le _ _)), (proj2 (Z.ltb_lt _ _)) by lia. cbn.
    rewrite rd_ok by nia. cbn. eexists _, _, _. split_and!; try done.
  - intros block off d w Hw (?&?&?&?) HBd. cbn in *. pose proof Hw as (Hlk & Hl & HB).
    rewrite !(proj2 (Z.leb_le _ _)), (proj2 (Z.ltb_lt _ _)) by lia. cbn [andb].
    destruct (wr _ _ _) as [m|f] eqn:E.
    + eexists 0, _. split_and!; [done| |done|done]. split_and!; cbn; [done| |].
      * by rewrite (wr_length _ _ _ _ E).
      * eapply wr_bytes; [exact E|done|]. apply land_bytes; [|done]. by apply Forall_take, Forall_drop.
    + rewrite wr_ok in E; [done|nia|]. rewrite length_zip_with, sub_length by nia. nia.
  - intros block count w Hw ? ? ?. pose proof Hw as (Hlk & Hl & HB).
    rewrite !(proj2 (Z.leb_le _ _)) by lia. cbn [andb].
    destruct (wr _ _ _) as [m|f] eqn:E.
    + eexists 0, _. split_and!; [done| |done|done]. split_and!; cbn; [done| |].
      * by rewrite (wr_length _ _ _ _ E).
      * eapply wr_bytes; [exact E|done|apply erased_bytes].
    + rewrite wr_ok in E; [done|nia|]. rewrite erased_length by nia. nia.
  - intros op w Hw ? ?. exists 0, w. by destruct op.
Qed.
End Flash.

#[export] Instance flash_lock nb bs : BlockLock (flash_ok nb bs false) (flash_ok nb bs true) fl_data (flash_dev nb bs).
Proof.
  split; intros w (Hlk & ? & ?); cbn; rewrite ?Hlk; by eexists 0, _.
Qed.

Lemma wr_same_outside m a s m' b : wr m a s = Ret m' → a + Z.of_nat (length s) <= b → same_outside a b m m'.
Proof.
  intros E Hb. split; [by eapply wr_length|]. intros i Hi. unfold wr in E. case_match; [|done]. bool_to_prop.
  injection E as <-. destruct Hi as [Hi|Hi].
  - rewrite lookup_app_l by (rewrite length_take; lia). apply lookup_take_lt. lia.
  - rewrite lookup_app_r, lookup_app_r; rewrite ?length_take; [|lia..].
    rewrite lookup_drop. f_equal. lia.
Qed.

#[export] Instance flash_frame nb bs lk : 0 < bs → BlockFrame (flash_ok nb bs lk) fl_data (flash_dev nb bs).
Proof.
  intros Hbs. split; cbn.
  - intros block off d w e w' Hw (?&?&?&?). cbn in *.
    case_match; [|by intros [= <- <-]]. destruct (wr _ _ _) as [m|] eqn:E; [|done]. intros [= <- <-]. cbn.
    apply (wr_same_outside _ _ _ _ ((block + 1) * bs)) in E as [L S].
    + split; [exact L|]. intros i Hi. apply S. lia.
    + rewrite length_zip_with. lia.
  - intros block count w e w' Hw ? ? ?.
    case_match; [|by intros [= <- <-]]. destruct (wr _ _ _) as [m|] eqn:E; [|done]. intros [= <- <-]. cbn.
    eapply wr_same_outside; [exact E|]. rewrite erased_length by nia. nia.
Qed.

(** ** What runs on a partition stays on it *)

Lemma same_outside_refl a b m : same_outside a b m m.
Proof. done. Qed.
Lemma same_outside_trans a b m1 m2 m3 : same_outside a b m1 m2 → same_outside a b m2 m3 → same_outside a b m1 m3.
Proof. intros [L1 S1] [L2 S2]. split; [congruence|]. intros i Hi. by rewrite S2, S1. Qed.

Section Confined.
Context {W : Type} (size_bits : Z) (content : W → list Z) (prog : Z → Z → Z) (parent : block_iface W).
Context (off n : Z) (Hfit : fits size_bits parent off n).
Context (ok : W → Prop) {HD : BlockDev ok content prog parent} {HF : BlockFrame ok content parent}.

Definition confined (m0 : list Z) (w : W) : Prop :=
  ok w ∧ same_outside (off * block_size parent) ((off + n) * block_size parent) m0 (content w).

#[export] Instance partition_confined m0 :
  BlockDev (confined m0) (part_content content parent off n) prog
    (block_create_partition size_bits parent off n false).
Proof.
  pose proof (partition_dev size_bits content prog parent off n Hfit ok) as HP.
  destruct Hfit as (?&?&?&?&?).
  split.
  - apply bd_size.
  - intros w [Hw _]. by apply (bd_content (BlockDev := HP)).
  - apply bd_prog.
  - intros block o k w [Hw Hs] Hr. destruct Hr as (?&?&?&?). cbn in *.
    destruct (part_read size_bits content prog parent off n Hfit ok block o k w)
      as (e & d & w' & ?&?&C&?&?); [done|lia..|].
    exists e, d, w'. split_and!; [done|split; [done|by rewrite C]|by apply part_content_same|done..].
  - intros block o d w [Hw Hs] Hr HB.
    destruct (bd_write (BlockDev := HP) block o d w Hw Hr HB) as (e & w' & E & ?&?&?).
    exists e, w'. split_and!; [done|split; [done|]|done..]. destruct Hr as (?&?&?&?). cbn in *.
    eapply same_outside_trans; [exact Hs|].
    eapply (proj1 (partition_isolated size_bits content prog parent off n Hfit ok w Hw)); [| | |exact E]; lia.
  - intros block count w [Hw Hs] ? ? Hc.
    destruct (bd_erase (BlockDev := HP) block count w Hw) as (e & w' & E & ?&?&?); [done..|].
    exists e, w'. split_and!; [done|split; [done|]|done..]. cbn in *.
    eapply same_outside_trans; [exact Hs|].
    eapply (proj2 (partition_isolated size_bits content prog parent off n Hfit ok w Hw)); [| | |exact E]; lia.
  - intros op w [Hw Hs] ? ?. destruct (bd_ctrl (bi:=parent) op w) as (e & w' & ?&?&C&?); [done..|].
    exists e, w'. split_and!; [done|split; [done|by rewrite C]|by apply part_content_same|done..].
Qed.
End Confined.

(** ** Theorems *)

(** A file written through a stack of devices is stored, and nothing else is touched:
    bytes written in any pieces to a stream on a subdivision of a partition either end
    with the error of the device, or are what the partition then begins with; the rest of
    the block they end in is erased and the blocks behind are as before.  Whatever the
    outcome, the parent is unchanged outside the partition. *)
Theorem block_stream_stored {W} size_bits xalloc (content : W → list Z) prog parent off n shift ok
    (ds : list (list Z)) w :
  BlockDev ok content prog parent → BlockFrame ok content parent →
  fits size_bits parent off n → divides size_bits (block_create_partition size_bits parent off n false) shift →
  n * block_size parent < 2 ^ size_bits →
  alloc_ok xalloc content ok → ok w → Forall bytes ds →
  Z.of_nat (length (concat ds)) <= n * block_size parent →
  let dev := block_create_subdivision size_bits xalloc
    (block_create_partition size_bits parent off n false) shift in
  let part := part_content content parent off n in
  ∃ r b w', bws_writes size_bits dev ds block_write_stream_create w = Ret (r, b, w') ∧
    same_outside (off * block_size parent) ((off + n) * block_size parent) (content w) (content w') ∧
    (0 <= r → let pad := (- Z.of_nat (length (concat ds))) mod block_size dev in
      part w' = concat ds ++ erased pad ++
        drop (Z.to_nat (Z.of_nat (length (concat ds)) + pad)) (part w)).
Proof.
  intros HD HF Hfit Hdiv Hsz HA Hw HB Hn dev part.
  pose proof (partition_confined size_bits content prog parent off n Hfit ok (content w)) as HP.
  assert (alloc_ok xalloc part (confined content parent off n ok (content w))) as HA'.
  { intros k w1 [H1 S1]. destruct (HA k w1 H1) as (? & ? & C). split_and!; [done|split; [done|by rewrite C]|].
    unfold part, part_content. by rewrite C. }
  pose proof (subdivision_dev size_bits xalloc part prog _ _ shift Hdiv HA') as HS. fold dev in HS.
  assert (num_blocks dev * block_size dev = n * block_size parent) as En.
  { assert (confined content parent off n ok (content w) w) as Hc by by split.
    destruct (bd_content (BlockDev := HP) w Hc) as [E1 _], (bd_content (BlockDev := HS) w Hc) as [E2 _].
    fold (part w) in E1. cbn [block_create_partition num_blocks block_size] in E1. congruence. }
  destruct (bws_writes_ok size_bits part prog dev _ ltac:(lia) (part w) ds [] block_write_stream_create w)
    as (r & b & w' & E & [Hw' Hs] & Hr).
  - eapply (bws_start size_bits part prog dev _); by split.
  - done.
  - rewrite En. cbn [length]. lia.
  - exists r, b, w'. split_and!; [done..|]. intros Hr0. by destruct (Hr Hr0).
Qed.

(** Two writes into the middle of a NOR flash of 8 blocks of 8 bytes: a partition of 4
    blocks, subdivided into blocks of 4 bytes. *)
Definition ex_flash : flash := Flash (replicate 64 7) false.
Definition ex_alloc (_ : Z) (f : flash) : bool * flash := (true, f).
Definition ex_ds : list (list Z) := [[1; 2; 3]; [4; 5; 6]].

Lemma block_stream_stored_witness :
  let dev := block_create_subdivision 32 ex_alloc (block_create_partition 32 (flash_dev 8 8) 2 4 false) 1 in
  (∃ r b w', bws_writes 32 dev ex_ds block_write_stream_create ex_flash = Ret (r, b, w') ∧
    same_outside 16 48 (replicate 64 7) (fl_data w') ∧
    (0 <= r → let pad := (- Z.of_nat (length (concat ex_ds))) mod block_size dev in
      part_content fl_data (flash_dev 8 8) 2 4 w' = concat ex_ds ++ erased pad ++
        drop (Z.to_nat (Z.of_nat (length (concat ex_ds)) + pad))
          (part_content fl_data (flash_dev 8 8) 2 4 ex_flash))) ∧
  (∃ b w', bws_writes 32 dev ex_ds block_write_stream_create ex_flash = Ret (0, b, w') ∧
    fl_data w' = replicate 16 7 ++ [1; 2; 3; 4; 5; 6; 255; 255] ++ replicate 40 7).
Proof.
  split.
  - apply (block_stream_stored 32 ex_alloc fl_data Z.land (flash_dev 8 8) 2 4 1 (flash_ok 8 8 false) ex_ds ex_flash).
    + by apply flash_is_dev.
    + by apply flash_frame.
    + unfold fits. cbn. lia.
    + by vm_compute.
    + done.
    + by intros k w Hw.
    + split_and!; [done..|]. cbn. repeat constructor; lia.
    + repeat constructor; lia.
    + cbn. lia.
  - eexists _, _. vm_compute. split; reflexivity.
Defined.

(** With the panic flag the verifier finds out about any device, whatever it promises:
    a write that returns was accepted by the device and read back from it, byte for byte. *)
Theorem verifier_write_verified {W} xalloc (parent : block_iface W) block o d w e w' :
  verifier_write xalloc parent true block o d w = Ret (e, w') →
  e = 0 ∧ ∃ w1, write parent block o d w = Ret (0, w1) ∧
    read parent block o (Z.of_nat (length d)) (xalloc (Z.of_nat (length d)) w1).2 = Ret (0, d, w').
Proof. apply verifier_detects. Qed.

(** Without the flag it does not tell: the error it returns on a mismatch is the 0 of the
    read.  Here a write over bytes that were not erased stores 7 and 9 combined. *)
Theorem verifier_hides_mismatch :
  verifier_write ex_alloc (flash_dev 8 8) false 0 0 [9] ex_flash =
    Ret (0, Flash (1 :: replicate 63 7) false).
Proof. vm_compute. reflexivity. Qed.

(** A read of a partition is not checked: block 4 of a partition of 4 blocks is the next
    partition's first. *)
Theorem partition_read_beyond :
  read (block_create_partition 32 (flash_dev 8 8) 2 4 false) 4 0 2 (Flash (replicate 48 7 ++ replicate 16 8) false) =
    Ret (0, [8; 8], Flash (replicate 48 7 ++ replicate 16 8) false).
Proof. vm_compute. reflexivity. Qed.

(** The sum that checks an erase wraps around: two blocks from the last block number on
    pass, and the block in front of the partition is erased. *)
Theorem partition_erase_wraps :
  erase (block_create_partition 32 (flash_dev 8 8) 2 4 false) 4294967295 2 ex_flash =
    Ret (0, Flash (replicate 8 7 ++ replicate 16 255 ++ replicate 40 7) false).
Proof. vm_compute. reflexivity. Qed.

(** A subdivision erases a part of a block through a buffer it does not check. *)
Theorem subdivision_erase_unchecked_buffer :
  erase (block_create_subdivision 32 (λ _ f, (false, f)) (flash_dev 8 8) 1) 1 1 ex_flash = Fault OutOfBounds.
Proof. vm_compute. reflexivity. Qed.

Lemma verifier_write_verified_witness :
  let w := Flash (replicate 8 255) false in let w' := Flash (3 :: replicate 7 255) false in
  verifier_write ex_alloc (flash_dev 1 8) true 0 0 [3] w = Ret (0, w') ∧
  (0 = 0 ∧ ∃ w1, write (flash_dev 1 8) 0 0 [3] w = Ret (0, w1) ∧
    read (flash_dev 1 8) 0 0 (Z.of_nat (length [3])) (ex_alloc (Z.of_nat (length [3])) w1).2 = Ret (0, [3], w')).
Proof.
  split; [vm_compute; reflexivity|].
  apply (verifier_write_verified ex_alloc (flash_dev 1 8) 0 0 [3]). vm_compute. reflexivity.
Defined.
