(* ===== verification/Ota.v ===== *)
(** * Ota: over-the-air upgrade ([src/net/service/svc_ota.c], [host/dsig/vllp_ota.c],
      [src/util/bin_to_ota.c])

    A new image comes to the upgrade partition on one of two ways: the service "ota"
    takes it from the client of [vllp_ota.c] over a channel, in messages, and the stream
    [bin_to_ota] takes it from a writer on the device.  Both store the image behind a
    header that the boot loader looks for, with the checksum of the image.

    The service is a thread and the callbacks of the channel.  The thread is a pass that
    runs from one wait to the next ([ota_pc] is where it waits, with its local variables);
    the callbacks run between passes.  [pbuf.c] is the model of [Pbuf], the partition any
    device of [Block].  The calls of [net->event] are kept in a list; log lines and the
    progress hook are left out. *)

From Stdlib Require Import ZArith Lia.
From stdpp Require Import base list numbers gmap.
From S2P Require Import Prelude Crc Pbuf Block.

Open Scope Z_scope.

Definition PUSHPULL_EVENT_CLOSE : Z := 1.
Definition PUSHPULL_EVENT_PUSH : Z := 2.
Definition PUSHPULL_EVENT_PULL : Z := 4.
Definition ERR_NOT_READY : Z := -6.
Definition ERR_NO_BUFFER : Z := -7.
Definition ERR_CHECKSUM_ERROR : Z := -18.
Definition ERR_NOT_CONNECTED : Z := -33.
Definition ERR_BAD_PKT_SIZE : Z := -34.

(** ** The header of an image *)

Record otahdr := OtaHdr { oh_size : Z; oh_image_crc : Z; oh_header_crc : Z }.

Definition OTA1 : list Z := [79; 84; 65; 49].

(** The first twelve bytes, and all sixteen. *)
Definition otahdr_front (size image_crc : Z) : list Z := OTA1 ++ le32 size ++ le32 image_crc.
Definition otahdr_bytes (h : otahdr) : list Z :=
  otahdr_front (oh_size h) (oh_image_crc h) ++ le32 (oh_header_crc h).
Definition make_otahdr (size image_crc : Z) : otahdr :=
  OtaHdr size image_crc (not32 (crc32 0 (otahdr_front size image_crc))).

(** ** The service *)

(** The local variables of [ota_perform] in its loop. *)
Record xfer := Xfer {
  x_pb : list pbuf;
  x_total : Z;
  x_crc : Z;
  x_erased : Z;
  x_acc : Z;
  x_cur : Z }.

(** Where the thread waits: for the first packet, for more packets, for the final status
    to be pulled; or it has exited, or the system reboots. *)
Inductive ota_pc :=
| OtaInit
| OtaXfer (x : xfer)
| OtaStatus
| OtaExited
| OtaRebooted.

Record svc_ota := SvcOta {
  sa_sock : pushpull;
  sa_info : list pbuf;
  sa_blocksize : Z;
  sa_shutdown : bool;
  sa_rebooting : bool;
  sa_skipped_kbytes : Z;
  sa_thread : option ota_pc;
  sa_rxbuf : list pbuf;
  sa_otahdr : otahdr;
  sa_platform_upgrade : bool;
  sa_events : list Z }.

Definition set_info (x : list pbuf) (s : svc_ota) : svc_ota :=
  SvcOta (sa_sock s) x (sa_blocksize s) (sa_shutdown s) (sa_rebooting s) (sa_skipped_kbytes s)
    (sa_thread s) (sa_rxbuf s) (sa_otahdr s) (sa_platform_upgrade s) (sa_events s).
Definition set_thread (x : option ota_pc) (s : svc_ota) : svc_ota :=
  SvcOta (sa_sock s) (sa_info s) (sa_blocksize s) (sa_shutdown s) (sa_rebooting s)
    (sa_skipped_kbytes s) x (sa_rxbuf s) (sa_otahdr s) (sa_platform_upgrade s) (sa_events s).
Definition set_rxbuf (x : list pbuf) (s : svc_ota) : svc_ota :=
  SvcOta (sa_sock s) (sa_info s) (sa_blocksize s) (sa_shutdown s) (sa_rebooting s)
    (sa_skipped_kbytes s) (sa_thread s) x (sa_otahdr s) (sa_platform_upgrade s) (sa_events s).
Definition set_otahdr (x : otahdr) (s : svc_ota) : svc_ota :=
  SvcOta (sa_sock s) (sa_info s) (sa_blocksize s) (sa_shutdown s) (sa_rebooting s)
    (sa_skipped_kbytes s) (sa_thread s) (sa_rxbuf s) x (sa_platform_upgrade s) (sa_events s).
Definition set_shutdown (s : svc_ota) : svc_ota :=
  SvcOta (sa_sock s) (sa_info s) (sa_blocksize s) true (sa_rebooting s) (sa_skipped_kbytes s)
    (sa_thread s) (sa_rxbuf s) (sa_otahdr s) (sa_platform_upgrade s) (sa_events s).
Definition set_rebooting (s : svc_ota) : svc_ota :=
  SvcOta (sa_sock s) (sa_info s) (sa_blocksize s) (sa_shutdown s) true (sa_skipped_kbytes s)
    (sa_thread s) (sa_rxbuf s) (sa_otahdr s) (sa_platform_upgrade s) (sa_events s).
Definition net_event (e : Z) (s : svc_ota) : svc_ota :=
  SvcOta (sa_sock s) (sa_info s) (sa_blocksize s) (sa_shutdown s) (sa_rebooting s)
    (sa_skipped_kbytes s) (sa_thread s) (sa_rxbuf s) (sa_otahdr s) (sa_platform_upgrade s)
    (sa_events s ++ [e]).

Definition fuel_for (c : list pbuf) : nat := S (length c).

Definition pktlen (c : list pbuf) : Z := match c with [] => 0 | pb :: _ => pb_pktlen pb end.

(** [None]: the thread waits. *)
Definition ota_get_next_pkt (s : svc_ota) : option (list pbuf * svc_ota) :=
  match sa_rxbuf s with
  | [] => if sa_shutdown s then Some ([], net_event PUSHPULL_EVENT_PUSH s) else None
  | pb => Some (pb, net_event PUSHPULL_EVENT_PUSH (set_rxbuf [] s))
  end.

Definition ota_send_final_status (s : svc_ota) (status : Z) (nm : netmem) : res (svc_ota * netmem) :=
  '(reply, nm) ← pbuf_make0 nm 0 true;
  match reply with
  | None => Ret (s, nm)
  | Some pb =>
      '(c, nm) ← pbuf_write 2 nm [pb] [u8 status] (sa_sock s) true;
      Ret (net_event PUSHPULL_EVENT_PULL (set_info c s), nm)
  end.

Section Perform.
Context {W : Type} (bi : block_iface W).

(** The loop over one packet: each round stores what is left of it up to the end of the
    sector, reads it back into the buffer and sums it.  An error frees the packet. *)
Fixpoint chunk_loop (fuel : nat) (skipped_kbytes : Z) (x : xfer) (nm : netmem) (w : W)
    : res (Z * xfer * netmem * W) :=
  match fuel with
  | O => Fault NoFuel
  | S f =>
      match x_pb x with
      | [] => Ret (0, x, nm, w)
      | pb :: next =>
          let byte_offset := u32 (skipped_kbytes * 1024 + x_cur x) in
          let sector := Z.shiftr byte_offset 12 in
          let sector_offset := Z.land byte_offset 4095 in
          '(err, w) ← (if x_erased x <? sector then erase bi sector 1 w else Ret (0, w));
          if negb (err =? 0) then nm ← pbuf_free nm (pb :: next); Ret (err, x, nm, w) else
          let erased := if x_erased x <? sector then sector else x_erased x in
          let chunk_size := Z.min (pb_pktlen pb) (4096 - sector_offset) in
          buf ← rd (db_mem (pb_data pb)) (pb_offset pb) chunk_size;
          '(err, w) ← write bi sector sector_offset buf w;
          if negb (err =? 0) then nm ← pbuf_free nm (pb :: next); Ret (err, x, nm, w) else
          '(err, buf, w) ← read bi sector sector_offset chunk_size w;
          if negb (err =? 0) then nm ← pbuf_free nm (pb :: next); Ret (err, x, nm, w) else
          m ← wr (db_mem (pb_data pb)) (pb_offset pb) buf;
          '(c, nm) ← pbuf_drop (fuel_for (pb :: next)) nm (set_mem pb m :: next) chunk_size true;
          chunk_loop f skipped_kbytes
            (Xfer c (x_total x) (x_crc x) erased (crc32 (x_acc x) buf) (u32 (x_cur x + chunk_size))) nm w
      end
  end.

(** How a pass of [ota_perform] ends: in the wait for a packet, with an error, or with all
    bytes stored. *)
Inductive perform_out :=
| PWait (x : xfer)
| PErr (e : Z)
| PStored (x : xfer).

Fixpoint xfer_loop (fuel : nat) (s : svc_ota) (x : xfer) (nm : netmem) (w : W)
    : res (perform_out * svc_ota * netmem * W) :=
  match fuel with
  | O => Fault NoFuel
  | S f =>
      if x_total x <=? x_cur x then Ret (PStored x, s, nm, w)
      else
        let run s x :=
          '(err, x, nm, w) ← chunk_loop (S (S (Z.to_nat (pktlen (x_pb x))))) (sa_skipped_kbytes s) x nm w;
          if negb (err =? 0) then Ret (PErr err, s, nm, w) else xfer_loop f s x nm w in
        match x_pb x with
        | _ :: _ => run s x
        | [] =>
            match ota_get_next_pkt s with
            | None => Ret (PWait x, s, nm, w)
            | Some ([], s) => Ret (PErr ERR_NOT_CONNECTED, s, nm, w)
            | Some (pb, s) => run s (Xfer pb (x_total x) (x_crc x) (x_erased x) (x_acc x) (x_cur x))
            end
        end
  end.

(** A packet at hand, one from the queue, and the wait. *)
Definition xfer_fuel : nat := 4.

Definition rd32 (m : list Z) (off : Z) : res Z :=
  bs ← rd m off 4;
  match bs with [a; b; c; d] => Ret (rd_le32 a b c d) | _ => Fault OutOfBounds end.

(** From the first packet to the loop.  An error of the erase leaves the packet behind. *)
Definition perform_start (s : svc_ota) (pb : pbuf) (next : list pbuf) (nm : netmem) (w : W)
    : res (perform_out * svc_ota * netmem * W) :=
  if pb_pktlen pb <? 8 then
    nm ← pbuf_free nm (pb :: next); Ret (PErr ERR_BAD_PKT_SIZE, s, nm, w)
  else
    num_blocks ← rd32 (db_mem (pb_data pb)) (pb_offset pb);
    crc ← rd32 (db_mem (pb_data pb)) (pb_offset pb + 4);
    '(c, nm) ← pbuf_drop (fuel_for (pb :: next)) nm (pb :: next) 8 true;
    let total_bytes := u32 (s32 num_blocks * sa_blocksize s) in
    '(err, w) ← erase bi 0 1 w;
    if negb (err =? 0) then Ret (PErr err, s, nm, w)
    else xfer_loop xfer_fuel s (Xfer c total_bytes crc 0 0 0) nm w.

(** The checks and the header once everything is stored; the thread then waits for the
    status to go out. *)
Definition perform_commit (s : svc_ota) (x : xfer) (nm : netmem) (w : W)
    : res (Z * svc_ota * netmem * W) :=
  let crc_acc := not32 (x_acc x) in
  if negb (x_crc x =? crc_acc) then Ret (ERR_CHECKSUM_ERROR, s, nm, w)
  else
    let s := set_otahdr (make_otahdr (x_total x) (x_crc x)) s in
    '(err, w) ← write bi 0 0 (otahdr_bytes (sa_otahdr s)) w;
    if negb (err =? 0) then Ret (err, s, nm, w)
    else
      '(_, w) ← ctrl bi BLOCK_SUSPEND w;
      '(s, nm) ← ota_send_final_status s 0 nm;
      Ret (0, set_thread (Some OtaStatus) (set_rebooting s), nm, w).

(** [ota_thread] after [ota_perform] gave up. *)
Definition ota_cancelled (s : svc_ota) (err : Z) (nm : netmem) : res (svc_ota * netmem) :=
  '(s, nm) ← ota_send_final_status s (- err) nm;
  Ret (set_thread (Some OtaExited) (net_event PUSHPULL_EVENT_CLOSE s), nm).

Definition after_perform (r : perform_out * svc_ota * netmem * W) : res (svc_ota * netmem * W) :=
  let '(o, s, nm, w) := r in
  match o with
  | PWait x => Ret (set_thread (Some (OtaXfer x)) s, nm, w)
  | PErr err => '(s, nm) ← ota_cancelled s err nm; Ret (s, nm, w)
  | PStored x =>
      '(err, s, nm, w) ← perform_commit s x nm w;
      if negb (err =? 0) then '(s, nm) ← ota_cancelled s err nm; Ret (s, nm, w)
      else Ret (s, nm, w)
  end.

(** One pass of the thread.  [timeout] is whether the deadline for the status has passed. *)
Definition ota_thread (timeout : bool) (s : svc_ota) (nm : netmem) (w : W)
    : res (svc_ota * netmem * W) :=
  match sa_thread s with
  | Some OtaInit =>
      match ota_get_next_pkt s with
      | None => Ret (s, nm, w)
      | Some ([], s) => after_perform (PErr ERR_NOT_CONNECTED, s, nm, w)
      | Some (pb :: next, s) => r ← perform_start s pb next nm w; after_perform r
      end
  | Some (OtaXfer x) => r ← xfer_loop xfer_fuel s x nm w; after_perform r
  | Some OtaStatus =>
      match sa_info s with
      | _ :: _ =>
          if timeout then Ret (set_thread (Some OtaRebooted) (net_event PUSHPULL_EVENT_CLOSE s), nm, w)
          else Ret (s, nm, w)
      | [] => Ret (set_thread (Some OtaRebooted) (net_event PUSHPULL_EVENT_CLOSE s), nm, w)
      end
  | _ => Ret (s, nm, w)
  end.
End Perform.

(** ** The callbacks of the channel *)

Definition ota_pull (s : svc_ota) : list pbuf * svc_ota := (sa_info s, set_info [] s).

(** [Upgrade]: the platform takes over and does not come back. *)
Inductive push_out :=
| Pushed (s : svc_ota) (nm : netmem)
| Upgrade (flow_header : Z) (pb : list pbuf).

(** [flow_header] is what [get_flow_header] gives, if the channel has it, [created]
    whether the thread could be made. *)
Definition ota_push (flow_header : option Z) (created : bool) (s : svc_ota) (pb : list pbuf)
    (nm : netmem) : res push_out :=
  match sa_thread s, (sa_platform_upgrade s && (8 <=? pktlen pb))%bool, flow_header with
  | None, true, Some fh => Ret (Upgrade fh pb)
  | t, _, _ =>
      let s := match t with
               | None => if created then set_thread (Some OtaInit) s else s
               | Some _ => s
               end in
      match sa_rxbuf s, pb with
      | [], _ => Ret (Pushed (set_rxbuf pb s) nm)
      | _, [] => Fault OutOfBounds
      | c, h :: _ =>
          '(c, dst) ← pbuf_append c (pb_pktlen h);
          src ← rd (db_mem (pb_data h)) (pb_offset h) (pb_pktlen h);
          match last c with
          | None => Fault OutOfBounds
          | Some l =>
              m ← wr (db_mem (pb_data l)) dst src;
              nm ← pbuf_free nm pb;
              Ret (Pushed (set_rxbuf (on_last (λ l, set_mem l m) c) s) nm)
          end
      end
  end.

Definition ota_may_push (s : svc_ota) : bool :=
  match sa_rxbuf s with
  | [] => true
  | pb :: _ => negb (PBUF_DATA_SIZE <=? pb_offset pb + pb_buflen pb + sa_blocksize s)
  end.

(** [ota_close] up to the join: whether it has to wait for the thread. *)
Definition ota_close (s : svc_ota) : bool * svc_ota :=
  let s := set_shutdown s in
  if sa_rebooting s then (false, s)
  else match sa_thread s with
       | Some _ => (true, s)
       | None => (true, net_event PUSHPULL_EVENT_CLOSE s)
       end.

(** The rest of it: [None] while the thread runs. *)
Definition ota_close_joined (s : svc_ota) (nm : netmem) : res (option netmem) :=
  match sa_thread s with
  | None | Some OtaExited => nm ← pbuf_free nm (sa_info s); Ret (Some nm)
  | Some _ => Ret None
  end.

(** [busy] is [ota_busy], [alloc] the outcome of [xalloc]. *)
Definition ota_open_with_args (busy alloc : bool) (build_id appname : list Z) (pp : pushpull)
    (xfer_skip_kb writeout_skip_kb blocksize : Z) (platform_upgrade : bool) (nm : netmem)
    : res ((Z + svc_ota) * netmem) :=
  if busy then Ret (inl ERR_NOT_READY, nm)
  else if negb alloc then Ret (inl ERR_NO_MEMORY, nm)
  else
    let bs := u8 (Z.min (if blocksize =? 0 then max_fragment_size pp else blocksize) 128) in
    '(pb, nm) ← pbuf_make0 nm 0 false;
    match pb with
    | None => Ret (inl ERR_NO_BUFFER, nm)
    | Some pb =>
        '(c, nm) ← pbuf_write 5 nm [pb] [0; 114; bs; u8 xfer_skip_kb] pp false;
        '(c, nm) ← pbuf_write (S (length build_id)) nm c build_id pp false;
        '(c, nm) ← pbuf_write (S (length appname)) nm c appname pp false;
        match c with
        | [] => Ret (inl ERR_NO_BUFFER, nm)
        | _ => Ret (inr (SvcOta pp c bs false false (u8 writeout_skip_kb) None [] (OtaHdr 0 0 0)
                           platform_upgrade []), nm)
        end
    end.

(** ** The client *)

Record mios_image := MiosImage {
  mi_image : list Z;
  mi_buildid : list Z;
  mi_appname : list Z }.

(** The messages a transfer can end with; the null pointer is [None]. *)
Inductive ota_msg :=
| StrError (e : Z)
| ClosedPrematurely
| RunningInfoTooShort
| UnsupportedProtocol
| ImageError
| MismatchingAppname
| FinalStatusSize.

Definition VLLP_ERR_NOT_READY : Z := -6.

Definition ota_blocks (image : list Z) (blocksize : Z) : list (list Z) :=
  (λ i, take (Z.to_nat blocksize) (drop (Z.to_nat (i * blocksize)) image)) <$>
    seqZ 0 (Z.of_nat (length image) / blocksize).

(** What it sends, what it says, and whether the target reboots.  [read1] and [read2] are
    the results of [vllp_channel_read] with the buffer, [load] is
    [mios_image_from_elf_file]. *)
Definition vllp_do_ota (read1 : Z * option (list Z)) (load : Z → Z → option mios_image)
    (read2 : Z * option (list Z)) : res (list (list Z) * option ota_msg * bool) :=
  let '(result, buf) := read1 in
  if result =? VLLP_ERR_NOT_READY then Ret ([], None, false)
  else if negb (result =? 0) then Ret ([], Some (StrError result), false)
  else match buf with
  | None => Ret ([], Some ClosedPrematurely, false)
  | Some hdr =>
      if (length hdr <? 4 + 20 + 1)%nat then Ret ([], Some RunningInfoTooShort, false)
      else if negb ((default 0 (hdr !! 0%nat) =? 0) && (default 0 (hdr !! 1%nat) =? 114))
        then Ret ([], Some UnsupportedProtocol, false)
      else
        let blocksize := default 0 (hdr !! 2%nat) in
        let xferskip := default 0 (hdr !! 3%nat) * 1024 in
        match load xferskip blocksize with
        | None => Ret ([], Some ImageError, false)
        | Some mi =>
            if negb (bool_decide (mi_appname mi = mi_appname mi)) then Ret ([], Some MismatchingAppname, false)
            else if bool_decide (take 20 (drop 4 hdr) = mi_buildid mi) then Ret ([], None, false)
            else if blocksize =? 0 then Fault Panic
            else
              let num_blocks := Z.of_nat (length (mi_image mi)) / blocksize in
              let imghdr := le32 num_blocks ++
                le32 (not32 (crc32 0 (take (Z.to_nat (num_blocks * blocksize)) (mi_image mi)))) in
              let sends := imghdr :: ota_blocks (mi_image mi) blocksize in
              let '(result, buf) := read2 in
              if negb (result =? 0) then Ret (sends, Some (StrError result), false)
              else match buf with
              | None => Ret (sends, Some ClosedPrematurely, false)
              | Some [fin] =>
                  if fin =? 0 then Ret (sends, None, true) else Ret (sends, Some (StrError (- fin)), false)
              | Some _ => Ret (sends, Some FinalStatusSize, false)
              end
        end
  end.

(** [created] is whether the channel could be made: it is not checked.  The last component
    is the [wait] argument of [vllp_channel_close]. *)
Definition vllp_ota (created : bool) (read1 : Z * option (list Z)) (load : Z → Z → option mios_image)
    (read2 : Z * option (list Z)) : res (list (list Z) * option ota_msg * bool) :=
  if negb created then Fault OutOfBounds
  else
    '(sends, errstr, rebooting) ← vllp_do_ota read1 load read2;
    Ret (sends, errstr, negb rebooting).

(** ** The stream *)

(** [bto_crc] is [hdr.image_crc], [bto_size] is [hdr.size]. *)
Record bin_to_ota_t := BinToOta {
  bto_block : Z;
  bto_offset : Z;
  bto_size : Z;
  bto_crc : Z }.

Section BinToOta.
Context {W : Type} (output : block_iface W).

Fixpoint bto_loop (fuel : nat) (olen : Z) (data : list Z) (b : bin_to_ota_t) (w : W)
    : res (Z * bin_to_ota_t * W) :=
  match fuel with
  | O => Fault NoFuel
  | S f =>
      match data with
      | [] => Ret (olen, b, w)
      | _ =>
          '(err, w) ← (if bto_offset b =? 0 then erase output (bto_block b) 1 w else Ret (0, w));
          if negb (err =? 0) then Ret (err, b, w) else
          let chunk := Z.min (Z.of_nat (length data)) (u32 (block_size output - bto_offset b)) in
          let d := take (Z.to_nat chunk) data in
          '(written, w) ← write output (bto_block b) (bto_offset b) d w;
          if written <? 0 then Ret (written, b, w) else
          let crc := crc32 (bto_crc b) d in
          let size := u32 (bto_size b + chunk) in
          let offset := u32 (bto_offset b + chunk) in
          let b := if offset =? block_size output then BinToOta (u32 (bto_block b + 1)) 0 size crc
                   else BinToOta (bto_block b) offset size crc in
          bto_loop f olen (drop (Z.to_nat chunk) data) b w
      end
  end.

(** [None] is the null pointer: flush. *)
Definition bto_write (data : option (list Z)) (b : bin_to_ota_t) (w : W) : res (Z * bin_to_ota_t * W) :=
  match data with
  | None =>
      if bto_size b =? 0 then Ret (0, b, w)
      else
        let b := BinToOta (bto_block b) (bto_offset b) (bto_size b) (not32 (bto_crc b)) in
        '(err, w) ← erase output 0 1 w;
        if negb (err =? 0) then Ret (err, b, w) else
        '(err, w) ← write output 0 0 (otahdr_bytes (make_otahdr (bto_size b) (bto_crc b))) w;
        if negb (err =? 0) then Ret (err, b, w) else
        '(_, w) ← ctrl output BLOCK_SUSPEND w;
        Ret (0, b, w)
  | Some data => bto_loop (S (length data)) (Z.of_nat (length data)) data b w
  end.

(** [alloc]: there is a partition, and memory for the stream. *)
Definition bin_to_ota (alloc : bool) (block_offset : Z) : option bin_to_ota_t :=
  if alloc then Some (BinToOta (u32 block_offset) 0 0 0) else None.
End BinToOta.
