(* ===== verification/OtaSpec.v ===== *)
(** * OtaSpec: what an upgrade leaves on the partition

    The lemmas follow the image while it is stored piece by piece ([filled]); the service
    and the stream share them.  [OtaRun] is the interleaving of the service's thread with
    the callbacks of its channel. *)

From Stdlib Require Import ZArith Lia.
From stdpp Require Import base list numbers gmap.
From S2P Require Import Prelude Crc Pbuf Block Ota.

Open Scope Z_scope.

(** ** Parts of the content *)

Lemma sub_split m a n k : 0 <= a → 0 <= n → 0 <= k → sub m a (n + k) = sub m a n ++ sub m (a + n) k.
Proof.
  intros. unfold sub. rewrite !Z2Nat.inj_add by lia. rewrite <- drop_drop.
  by rewrite <- take_take_drop.
Qed.

Lemma sub_outside b e m m' a n : same_outside b e m m' → 0 <= a → 0 <= n →
  a + n <= b ∨ e <= a → sub m' a n = sub m a n.
Proof.
  intros [L H] Ha Hn Hd. unfold sub. apply list_eq. intros i.
  destruct (decide (i < Z.to_nat n)%nat).
  - rewrite !lookup_take_lt, !lookup_drop by lia. apply H. lia.
  - rewrite !lookup_take_ge by lia. done.
Qed.

Lemma sub_wr_same m x s m' : wr m x s = Ret m' → sub m' x (Z.of_nat (length s)) = s.
Proof.
  unfold wr. case_match; [|done]. bool_to_prop. intros [= <-]. unfold sub. rewrite Nat2Z.id.
  rewrite drop_app_le by (rewrite length_take; lia).
  rewrite (drop_ge (take _ _)) by (rewrite length_take; lia). cbn [app].
  by rewrite take_app_length.
Qed.

Lemma sub_wr_apart m x s m' a n : wr m x s = Ret m' → 0 <= a → 0 <= n →
  a + n <= x ∨ x + Z.of_nat (length s) <= a → sub m' a n = sub m a n.
Proof.
  intros E. eapply sub_outside, wr_same_outside; [done|]. lia.
Qed.

Lemma erased_sub n k : 0 <= k <= n → take (Z.to_nat k) (erased n) = erased k.
Proof. intros. unfold erased. rewrite take_replicate. f_equal. lia. Qed.

Lemma sub_prefix m a n k : 0 <= k <= n → sub m a k = take (Z.to_nat k) (sub m a n).
Proof. intros. unfold sub. rewrite take_take. f_equal. lia. Qed.

Lemma sub_suffix m a n k : 0 <= a → 0 <= k <= n → sub m (a + k) (n - k) = drop (Z.to_nat k) (sub m a n).
Proof.
  intros. unfold sub. rewrite skipn_firstn_comm, drop_drop. f_equal; [lia|]. f_equal. lia.
Qed.

Lemma erased_drop n k : 0 <= k <= n → drop (Z.to_nat k) (erased n) = erased (n - k).
Proof. intros. unfold erased. rewrite drop_replicate. f_equal. lia. Qed.

(** ** Filling blocks in order *)

Section Fill.
Context {W : Type} (content : W → list Z) (prog : Z → Z → Z) (bi : block_iface W).
Context (ok : W → Prop) {HD : BlockDev ok content prog bi}.
Context (b0 : Z) (Hb0 : 0 <= b0).
Abbreviation bs := (block_size bi).

(** [D] is stored from block [b0] on, the rest of the block it ends in is erased. *)
Definition filled (D m : list Z) : Prop :=
  let n := Z.of_nat (length D) in
  sub m (b0 * bs) n = D ∧ sub m (b0 * bs + n) ((- n) mod bs) = erased ((- n) mod bs).

(** The same with the next bytes ready to be written. *)
Definition opened (D m : list Z) : Prop :=
  let n := Z.of_nat (length D) in
  sub m (b0 * bs) n = D ∧ sub m (b0 * bs + n) (bs - n mod bs) = erased (bs - n mod bs).

(** The block the next byte goes to, and where in it. *)
Definition fill_block (D : list Z) : Z := b0 + Z.of_nat (length D) / bs.
Definition fill_offset (D : list Z) : Z := Z.of_nat (length D) mod bs.

Lemma fill_pos D : 0 <= fill_offset D < bs ∧ b0 <= fill_block D ∧
  fill_block D * bs + fill_offset D = b0 * bs + Z.of_nat (length D).
Proof.
  destruct (bd_size (bi:=bi)) as [H _]. unfold fill_block, fill_offset.
  pose proof (Z.mod_pos_bound (Z.of_nat (length D)) bs H).
  pose proof (Z.div_mod (Z.of_nat (length D)) bs ltac:(lia)).
  pose proof (Z.div_pos (Z.of_nat (length D)) bs ltac:(lia) H). nia.
Qed.

Lemma neg_mod n : 0 <= n → (- n) mod bs = (bs - n mod bs) mod bs.
Proof.
  intros. destruct (bd_size (bi:=bi)) as [Hbs _]. rewrite Zminus_mod, Z_mod_same_full, Z.mod_mod by lia.
  by rewrite <- Z.sub_0_l, Zminus_mod, Z.mod_0_l by lia.
Qed.

Lemma filled_nil m : filled [] m.
Proof. unfold filled. cbn. by rewrite Z.mod_0_l by (destruct (bd_size (bi:=bi)); lia). Qed.

Lemma filled_opened D m : filled D m → fill_offset D ≠ 0 → opened D m.
Proof.
  intros [H1 H2] Hn. destruct (fill_pos D) as (? & _ & _). split; [done|].
  unfold fill_offset in *. rewrite neg_mod, Z.mod_small in H2 by lia. done.
Qed.

Lemma filled_erase D w : ok w → filled D (content w) → fill_offset D = 0 → fill_block D < num_blocks bi →
  ∃ e w', erase bi (fill_block D) 1 w = Ret (e, w') ∧ ok w' ∧ e <= 0 ∧ (e = 0 → opened D (content w')).
Proof.
  intros Hw [H1 H2] Ho Hb. destruct (fill_pos D) as (? & ? & Hp).
  destruct (bd_size (bi:=bi)) as [Hbs _].
  destruct (bd_erase (fill_block D) 1 w) as (e & w' & E & Hw' & He & Hc); [done|lia..|].
  exists e, w'. split_and!; [done..|]. intros Hz. specialize (Hc Hz).
  assert (Z.of_nat (length (erased (1 * bs))) = bs) as Le by (unfold erased; rewrite length_replicate; lia).
  unfold fill_offset in *. unfold opened. rewrite Ho, Z.sub_0_r. split.
  - rewrite <- H1 at 2. eapply sub_wr_apart; [exact Hc|nia|lia|lia].
  - apply sub_wr_same in Hc. rewrite Le in Hc. rewrite Z.mul_1_l in Hc.
    rewrite <- Hc. f_equal. lia.
Qed.

Lemma opened_write D d w : ok w → opened D (content w) → bytes d → fill_block D < num_blocks bi →
  Z.of_nat (length d) <= bs - fill_offset D →
  ∃ e w', write bi (fill_block D) (fill_offset D) d w = Ret (e, w') ∧ ok w' ∧ e <= 0 ∧
    (e = 0 → let n := Z.of_nat (length (D ++ d)) in let left := bs - fill_offset D - Z.of_nat (length d) in
       sub (content w') (b0 * bs) n = D ++ d ∧ sub (content w') (b0 * bs + n) left = erased left).
Proof.
  intros Hw [H1 H2] HB Hb Hd. destruct (fill_pos D) as (? & ? & Hp), (bd_size (bi:=bi)) as [Hbs _].
  destruct (bd_write (fill_block D) (fill_offset D) d w) as (e & w' & E & Hw' & He & Hc);
    [done|unfold in_range; lia|done|].
  exists e, w'. split_and!; [done..|]. intros Hz. specialize (Hc Hz). cbv zeta in Hc. rewrite Hp in Hc.
  cbv zeta. rewrite length_app, Nat2Z.inj_add.
  set (n := Z.of_nat (length D)) in *. set (k := Z.of_nat (length d)) in *.
  change (n mod bs) with (fill_offset D) in H2. set (room := bs - fill_offset D) in *.
  rewrite (sub_prefix _ _ room), H2, erased_sub in Hc by lia.
  unfold k in Hc at 1. rewrite (zip_prog_erased content prog bi ok) in Hc by done.
  assert (sub (content w') (b0 * bs) n = D) as K1
    by (rewrite <- H1; eapply sub_wr_apart; [exact Hc|nia|lia|lia]).
  pose proof (sub_wr_same _ _ _ _ Hc) as K2. fold k in K2. split.
  { rewrite sub_split by nia. by rewrite K1, K2. }
  erewrite sub_wr_apart; [|exact Hc|nia|lia|fold k; lia].
  rewrite Z.add_assoc, sub_suffix by nia. rewrite H2. apply erased_drop. lia.
Qed.

(** After the bytes: the block goes on, or is full. *)
Lemma fill_next D d : Z.of_nat (length d) <= bs - fill_offset D →
  (Z.of_nat (length d) < bs - fill_offset D ∧ fill_block (D ++ d) = fill_block D ∧
     fill_offset (D ++ d) = fill_offset D + Z.of_nat (length d)) ∨
  (Z.of_nat (length d) = bs - fill_offset D ∧ fill_block (D ++ d) = fill_block D + 1 ∧
     fill_offset (D ++ d) = 0).
Proof.
  intros Hd. destruct (fill_pos D) as (? & ? & Hp), (fill_pos (D ++ d)) as (Ho & ? & Hp').
  rewrite length_app, Nat2Z.inj_add in Hp'. destruct (decide (Z.of_nat (length d) = bs - fill_offset D)).
  - right. assert (fill_block (D ++ d) = fill_block D + 1) by nia. nia.
  - left. assert (fill_block (D ++ d) = fill_block D) by nia. nia.
Qed.

Lemma opened_more D d m : let n := Z.of_nat (length (D ++ d)) in
  let left := bs - fill_offset D - Z.of_nat (length d) in 0 < left →
  sub m (b0 * bs) n = D ++ d → sub m (b0 * bs + n) left = erased left → opened (D ++ d) m.
Proof.
  intros n left Hl H1 H2. destruct (fill_next D d) as [(_ & _ & E)|Hr]; [unfold left in *; lia| |destruct Hr as [Hr _]; unfold left in *; lia].
  split; [done|]. fold n. change (n mod bs) with (fill_offset (D ++ d)). rewrite E.
  replace (bs - (fill_offset D + Z.of_nat (length d))) with left by (unfold left; lia). done.
Qed.

Lemma filled_more D d m : Z.of_nat (length d) <= bs - fill_offset D →
  let n := Z.of_nat (length (D ++ d)) in let left := bs - fill_offset D - Z.of_nat (length d) in
  sub m (b0 * bs) n = D ++ d → sub m (b0 * bs + n) left = erased left → filled (D ++ d) m.
Proof.
  intros Hd n left H1 H2. split; [done|]. fold n. rewrite neg_mod by lia.
  change (n mod bs) with (fill_offset (D ++ d)). destruct (bd_size (bi:=bi)) as [Hbs _].
  destruct (fill_next D d Hd) as [(Hlt & _ & E)|(Heq & _ & ->)].
  - destruct (fill_pos (D ++ d)) as (Ho & _ & _). destruct (decide (fill_offset (D ++ d) = 0)) as [->|Hz].
    { by rewrite Z.sub_0_r, Z_mod_same_full. }
    rewrite Z.mod_small by lia. rewrite E.
    replace (bs - (fill_offset D + Z.of_nat (length d))) with left by (unfold left; lia). done.
  - by rewrite Z.sub_0_r, Z_mod_same_full.
Qed.

(** The bytes are in the image, also when they are read back. *)
Lemma sub_image D d m : sub m (b0 * bs) (Z.of_nat (length (D ++ d))) = D ++ d →
  sub m (fill_block D * bs + fill_offset D) (Z.of_nat (length d)) = d.
Proof.
  intros E. destruct (fill_pos D) as (_ & _ & ->), (bd_size (bi:=bi)) as [? _].
  rewrite length_app, Nat2Z.inj_add, sub_split in E by nia.
  pose proof (f_equal length E) as El. rewrite !length_app in El. unfold sub in El. rewrite !length_take in El.
  apply app_inj_1 in E as [_ E]; [done|]. unfold sub. rewrite length_take. lia.
Qed.
End Fill.

(** ** Packets in one buffer *)

Definition single (c : list pbuf) : Prop :=
  packet c ∧ (length c <= 1)%nat ∧ bytes (payload c).

Lemma single_nil : single [].
Proof. split_and!; [by split_and!; cbn|cbn; lia|done]. Qed.
#[local] Hint Resolve single_nil : core.

Lemma single_cons pb c : single (pb :: c) → c = [] ∧ packet [pb] ∧ bytes (Pbuf.window pb) ∧
  pb_pktlen pb = pb_buflen pb ∧ Z.of_nat (length (Pbuf.window pb)) = pb_buflen pb ∧ 0 <= pb_buflen pb ∧ pb_ok pb.
Proof.
  intros (Hp & Hl & HB). destruct c; [|cbn in Hl; lia]. rewrite payload_cons, app_nil_r in HB.
  pose proof Hp as (Hok & _ & E). apply Forall_cons_1 in Hok as [Hok _]. cbn in E.
  rewrite window_length by done. pose proof (ok_len _ Hok). split_and!; (done || lia).
Qed.

Lemma drop_single nm pb k : nm_ok nm → packet [pb] → 0 <= k <= pb_buflen pb → bytes (Pbuf.window pb) →
  ∃ c' nm', pbuf_drop 2 nm [pb] k true = Ret (c', nm') ∧ nm_ok nm' ∧ single c' ∧
    payload c' = drop (Z.to_nat k) (Pbuf.window pb) ∧ (c' = [] ↔ k = pb_buflen pb).
Proof.
  intros Hnm Hpk Hk HB.
  destruct (pbuf_drop_correct 2 nm [pb] k true) as [[Hlt _]|(c' & nm' & E & Hp & Hc & Hnm' & _ & _ & _ & He)];
    [done|done|done|lia|simpl; lia|simpl in Hlt; lia|].
  exists c', nm'. rewrite payload_cons, app_nil_r in Hp. split_and!; [done|done| |done|].
  - split_and!; [done| |rewrite Hp; by apply Forall_drop].
    revert E. cbn. case_match; [done|]. case_match; [intros [= <- _]; cbn; lia|].
    destruct (put_both _ _); [|done]. intros [= <- _]. cbn. lia.
  - rewrite He. cbn. rewrite Z.add_0_r. naive_solver.
Qed.

Lemma wr_back m off n : 0 <= off → 0 <= n → off + n <= Z.of_nat (length m) →
  wr m off (take (Z.to_nat n) (drop (Z.to_nat off) m)) = Ret m.
Proof.
  intros. rewrite wr_ok; rewrite ?length_take, ?length_drop; [|lia..]. f_equal.
  rewrite Nat.min_l by lia. by rewrite <- drop_drop, !take_drop.
Qed.

Lemma set_mem_id pb : set_mem pb (db_mem (pb_data pb)) = pb.
Proof. by destruct pb as [? ? ? ? ? ? []]. Qed.

Definition sock_ok (pp : pushpull) : Prop :=
  preferred_offset pp = 0 ∧ 0 < max_fragment_size pp <= PBUF_DATA_SIZE.

Lemma make0_ok nm wait : nm_ok nm →
  (wait = true ∧ pbuf_make0 nm 0 wait = Fault Blocked) ∨
  (wait = false ∧ ∃ nm', pbuf_make0 nm 0 wait = Ret (None, nm') ∧ nm_ok nm') ∨
  (∃ pb nm', pbuf_make0 nm 0 wait = Ret (Some pb, nm') ∧ nm_ok nm' ∧ packet [pb] ∧
     pb_offset pb = 0 ∧ pb_buflen pb = 0 ∧ Pbuf.window pb = []).
Proof.
  intros Hnm. unfold pbuf_make0, pbuf_make_irq_blocked0.
  destruct (get_both_cases nm wait (λ a d, mk_pbuf a (Z.lor PBUF_SOP PBUF_EOP) 0 0 (u16 0) 0 d) Hnm)
    as [[-> E]|[(nm' & -> & E & Hnm' & _)|(a & d & nm' & E & Hnm' & Ha & Hd & Hm & _)]].
  - by left.
  - right. left. eauto.
  - right. right. eexists _, nm'. split_and!; [exact E|done| |done|done|done].
    split_and!; [|cbn; lia|done]. apply Forall_singleton. by split; cbn.
Qed.

(** The status goes out in a packet of one byte, once there is a buffer for it. *)
Lemma final_status_ok s status nm : nm_ok nm → sock_ok (sa_sock s) →
  ota_send_final_status s status nm = Fault Blocked ∨
  ∃ c nm', ota_send_final_status s status nm = Ret (net_event PUSHPULL_EVENT_PULL (set_info c s), nm') ∧
    nm_ok nm' ∧ payload c = [u8 status].
Proof.
  intros Hnm [Hpo Hmf]. unfold ota_send_final_status.
  destruct (make0_ok nm true Hnm) as [[_ ->]|[[? _]|(pb & nm1 & -> & Hnm1 & Hpk & Ho & Hbl & Hw)]];
    [by left|done|]. cbn [mbind res_bind].
  destruct (pbuf_write_correct 2 nm1 [] pb [u8 status] (sa_sock s) true)
    as [[[_ E]|[? _]]|(c & nm2 & E & _ & Hp & _ & Hnm2 & _)];
    [done|done|done|lia|lia|lia|cbn; lia|cbn; lia| |done|]; cbn [app] in E; rewrite E; [by left|].
  right. exists c, nm2. split_and!; [done|done|]. by rewrite Hp, app_nil_l, payload_cons, Hw.
Qed.

(** Two packets in one buffer. *)
Lemma append_single pb h nm : single [pb] → single [h] → nm_ok nm →
  pb_offset pb + pb_buflen pb + pb_pktlen h <= PBUF_DATA_SIZE →
  ∃ c dst src l m nm', pbuf_append [pb] (pb_pktlen h) = Ret (c, dst) ∧
    rd (db_mem (pb_data h)) (pb_offset h) (pb_pktlen h) = Ret src ∧ last c = Some l ∧
    wr (db_mem (pb_data l)) dst src = Ret m ∧ pbuf_free nm [h] = Ret nm' ∧ nm_ok nm' ∧
    single (on_last (λ l, set_mem l m) c) ∧
    payload (on_last (λ l, set_mem l m) c) = Pbuf.window pb ++ Pbuf.window h ∧
    pktlen (on_last (λ l, set_mem l m) c) = pb_pktlen pb + pb_pktlen h.
Proof.
  intros Hs Hh Hnm Hfit. destruct (single_cons _ _ Hs) as (_ & Hpk & HB & Epl & Hwl & Hge & Hok).
  destruct (single_cons _ _ Hh) as (_ & Hpkh & HBh & Eplh & Hwlh & Hgeh & Hokh).
  destruct (pbuf_free_ok nm [h] Hnm (proj1 Hpkh)) as (nm' & Ef & Hnm' & _).
  unfold pbuf_append. cbn [on_head last set_pktlen pb_offset pb_buflen].
  rewrite (proj2 (Z.ltb_ge _ _)) by lia.
  destruct (wr (db_mem (pb_data pb)) (pb_offset pb + pb_buflen pb) (Pbuf.window h)) as [m|] eqn:Ew.
  2: { destruct Hok. rewrite wr_ok in Ew by (unfold PBUF_DATA_SIZE in *; lia). done. }
  destruct (window_wr pb m (Pbuf.window h) Hok) as [Hok' Hw']; [lia|done|].
  rewrite Hwlh in Hok', Hw'. set (pb' := set_mem _ m) in Hok', Hw'.
  assert (on_last (λ l, set_mem l m) (on_last (λ p, set_win p (pb_offset p) (u16 (pb_buflen p + pb_pktlen h)))
    [set_pktlen pb (u16 (pb_pktlen pb + pb_pktlen h))]) = [set_pktlen pb' (pb_pktlen pb + pb_pktlen h)]) as El.
  { cbn. rewrite !u16_id by (destruct Hok; unfold PBUF_DATA_SIZE in *; lia). by rewrite Eplh. }
  eexists _, _, (Pbuf.window h), _, m, nm'. split_and!; [done| |done|exact Ew|exact Ef|done|..]; rewrite ?El.
  - rewrite Eplh, rd_window by (done || lia). f_equal. apply take_ge. lia.
  - assert (payload [set_pktlen pb' (pb_pktlen pb + pb_pktlen h)] = Pbuf.window pb ++ Pbuf.window h) as Ep
      by by rewrite payload_cons, app_nil_r.
    split_and!; [|cbn; lia|rewrite Ep; by apply Forall_app].
    split_and!; [|cbn; destruct Hok; unfold PBUF_DATA_SIZE in *; lia|cbn; lia].
    apply Forall_singleton. by apply set_pktlen_ok.
  - by rewrite payload_cons, app_nil_r.
  - done.
Qed.

Lemma le32_rd_le32 a b c d : is_byte a → is_byte b → is_byte c → is_byte d →
  le32 (rd_le32 a b c d) = [a; b; c; d] ∧ is_u32 (rd_le32 a b c d).
Proof.
  unfold is_byte, is_u32, le32, rd_le32, u8. intros. rewrite !Z.shiftr_div_pow2 by lia.
  change (2 ^ 8) with 256. change (2 ^ 16) with 65536. change (2 ^ 24) with 16777216.
  split; [|lia]. repeat f_equal; dlia.
Qed.

(** The two words at the start of a packet. *)
Lemma first_words pb : pb_ok pb → bytes (Pbuf.window pb) → 8 <= pb_buflen pb →
  ∃ nb crc, is_u32 nb ∧ is_u32 crc ∧ rd32 (db_mem (pb_data pb)) (pb_offset pb) = Ret nb ∧
    rd32 (db_mem (pb_data pb)) (pb_offset pb + 4) = Ret crc ∧
    Pbuf.window pb = le32 nb ++ le32 crc ++ drop 8 (Pbuf.window pb).
Proof.
  intros Hok HB Hl. pose proof (window_length pb Hok) as Hwl.
  assert (∀ n, (n + 4 <= 8)%nat → rd (db_mem (pb_data pb)) (pb_offset pb + Z.of_nat n) 4 =
    Ret (take 4 (drop n (Pbuf.window pb)))) as Hrd.
  { intros n Hn. destruct Hok as [Hm ? ? ? _ _]. unfold PBUF_DATA_SIZE in *. rewrite rd_ok by lia.
    f_equal. unfold Pbuf.window. rewrite skipn_firstn_comm, drop_drop, take_take.
    change (Z.to_nat 4) with 4%nat. f_equal; [lia|]. f_equal. lia. }
  destruct (Pbuf.window pb) as [|a [|b [|c [|d [|e [|f [|g [|h q]]]]]]]] eqn:Ew; cbn in Hwl; try lia.
  repeat match goal with H : bytes (_ :: _) |- _ => apply Forall_cons_1 in H as [? H] end.
  destruct (le32_rd_le32 a b c d) as [E1 R1]; [done..|]. destruct (le32_rd_le32 e f g h) as [E2 R2]; [done..|].
  exists (rd_le32 a b c d), (rd_le32 e f g h). unfold rd32. rewrite E1, E2.
  pose proof (Hrd 0%nat ltac:(lia)) as R3. pose proof (Hrd 4%nat ltac:(lia)) as R4.
  change (Z.of_nat 0) with 0 in R3. change (Z.of_nat 4) with 4 in R4. rewrite Z.add_0_r in R3.
  by rewrite R3, R4.
Qed.

(** ** The service *)

(** A block that is not there cannot be erased. *)
Class EraseGuard {W} (ok : W → Prop) (bi : block_iface W) : Prop :=
  erase_guard block w : ok w → num_blocks bi <= block → ∃ e, erase bi block 1 w = Ret (e, w) ∧ e < 0.

(** Nothing goes wrong inside the device. *)
Definition reliable {W} (ok : W → Prop) (bi : block_iface W) : Prop :=
  (∀ block w e w', ok w → 0 <= block < num_blocks bi → erase bi block 1 w = Ret (e, w') → e = 0) ∧
  (∀ block off d w e w', ok w → in_range bi block off (Z.of_nat (length d)) →
     write bi block off d w = Ret (e, w') → e = 0) ∧
  (∀ block off n w e d w', ok w → in_range bi block off n → read bi block off n w = Ret (e, d, w') → e = 0).

Section Service.
Context {W : Type} (content : W → list Z) (prog : Z → Z → Z) (bi : block_iface W) (ok : W → Prop).
Context {HD : BlockDev ok content prog bi} {HF : BlockFrame ok content bi} {HG : EraseGuard ok bi}.

(** The sectors of the code are the blocks of the device, the image starts behind the
    first of them. *)
Context (skip_kb : Z).
Definition layout : Prop :=
  block_size bi = 4096 ∧ 0 < num_blocks bi ∧ num_blocks bi * 4096 < 2 ^ 32 ∧
  4 <= skip_kb < 256 ∧ skip_kb mod 4 = 0.
Context (HL : layout).
Definition first_block : Z := skip_kb / 4.

Lemma layout_spec : block_size bi = 4096 ∧ 0 < num_blocks bi < 1048576 ∧ skip_kb * 1024 = first_block * 4096 ∧
  1 <= first_block < 64.
Proof. destruct HL as (?&?&?&?&?). unfold first_block. split_and!; dlia. Qed.

Definition head_erased (w : W) : Prop := sub (content w) 0 4096 = erased 4096.

Record xfer_at (D : list Z) (x : xfer) (w : W) : Prop := {
  xa_ok : ok w;
  xa_bytes : bytes D;
  xa_head : head_erased w;
  xa_cur : x_cur x = Z.of_nat (length D);
  xa_acc : x_acc x = crc32 0 D;
  xa_room : D = [] ∨ first_block * 4096 + Z.of_nat (length D) <= num_blocks bi * 4096;
  xa_fill : (x_erased x < fill_block bi first_block D ∧ fill_offset bi D = 0 ∧ filled bi first_block D (content w)) ∨
            (x_erased x = fill_block bi first_block D ∧ x_erased x < num_blocks bi ∧
             opened bi first_block D (content w)) }.

(** The sector and the offset of the code are the place where the image goes on. *)
Lemma sector_of D x w : xfer_at D x w →
  Z.shiftr (u32 (skip_kb * 1024 + x_cur x)) 12 = fill_block bi first_block D ∧
  Z.land (u32 (skip_kb * 1024 + x_cur x)) 4095 = fill_offset bi D.
Proof.
  intros [_ _ _ -> _ Hr _]. destruct layout_spec as (Hbs & Hn & -> & Hf).
  assert (0 <= first_block * 4096 + Z.of_nat (length D) < 4294967296) by (destruct Hr as [->|]; cbn; lia).
  rewrite u32_id by (unfold is_u32; lia). unfold fill_block, fill_offset. rewrite Hbs.
  rewrite Z.shiftr_div_pow2 by lia. change 4095 with (2 ^ 12 - 1). rewrite land_ones_mod by lia.
  change (2 ^ 12) with 4096. split; dlia.
Qed.

(** Whatever comes of it, an operation on another block keeps the first one. *)
Lemma head_write block off d w e w' : ok w → 1 <= block → in_range bi block off (Z.of_nat (length d)) →
  write bi block off d w = Ret (e, w') → head_erased w → head_erased w'.
Proof.
  intros Hw Hb Hr E. destruct layout_spec as (Hbs & _). unfold head_erased. intros <-.
  eapply bf_write in E; [|done..]. eapply sub_outside; [exact E|lia|lia|]. nia.
Qed.
Lemma head_erase block w e w' : ok w → 1 <= block < num_blocks bi →
  erase bi block 1 w = Ret (e, w') → head_erased w → head_erased w'.
Proof.
  intros Hw Hb E. destruct layout_spec as (Hbs & _). unfold head_erased. intros <-.
  eapply bf_erase in E; [|done|lia..]. eapply sub_outside; [exact E|lia|lia|]. nia.
Qed.

Abbreviation fb := (fill_block bi first_block).
Abbreviation fo := (fill_offset bi).

(** The erase before the bytes, where it is due. *)
Lemma round_erase D x w : xfer_at D x w →
  ∃ e w1, (if x_erased x <? fb D then erase bi (fb D) 1 w else Ret (0, w)) = Ret (e, w1) ∧
    ok w1 ∧ head_erased w1 ∧ e <= 0 ∧ (e = 0 → opened bi first_block D (content w1) ∧ fb D < num_blocks bi) ∧
    (reliable ok bi → fb D < num_blocks bi → e = 0).
Proof.
  intros [Hw HB Hh _ _ _ Hf]. destruct layout_spec as (Hbs & Hn & _ & H1).
  destruct (fill_pos content prog bi ok first_block D) as (_ & Hb & _).
  destruct Hf as [(Hlt & Ho & Hfl)|(He & Hlt & Hop)].
  2: { rewrite (proj2 (Z.ltb_ge _ _)) by lia. exists 0, w. split_and!; try done. intros _. split; [done|lia]. }
  rewrite (proj2 (Z.ltb_lt _ _)) by lia. destruct (decide (fb D < num_blocks bi)) as [Hin|Hout].
  - destruct (filled_erase content prog bi ok first_block ltac:(lia) D w) as (e & w1 & E & Hw1 & He & Hop); [done..|].
    exists e, w1. split_and!; [done|done| |done|auto|].
    + eapply head_erase; [exact Hw| |exact E|exact Hh]. lia.
    + intros (HR & _) _. eapply HR; [exact Hw| |exact E]. lia.
  - destruct (erase_guard (bi:=bi) (fb D) w) as (e & E & He); [done|lia|].
    exists e, w. split_and!; (done || lia).
Qed.

(** The bytes themselves, written and read back. *)
Lemma round_store D d w : ok w → head_erased w → bytes d → opened bi first_block D (content w) →
  fb D < num_blocks bi → Z.of_nat (length d) <= 4096 - fo D →
  ∃ e w1, write bi (fb D) (fo D) d w = Ret (e, w1) ∧ ok w1 ∧ head_erased w1 ∧ e <= 0 ∧
    (reliable ok bi → e = 0) ∧
    (e = 0 → ∃ e' buf w2, read bi (fb D) (fo D) (Z.of_nat (length d)) w1 = Ret (e', buf, w2) ∧
      ok w2 ∧ head_erased w2 ∧ e' <= 0 ∧ (reliable ok bi → e' = 0) ∧
      (e' = 0 → buf = d ∧
        let n := Z.of_nat (length (D ++ d)) in let left := 4096 - fo D - Z.of_nat (length d) in
        sub (content w2) (first_block * 4096) n = D ++ d ∧
        sub (content w2) (first_block * 4096 + n) left = erased left)).
Proof.
  intros Hw Hh HB Hop Hb Hd. destruct layout_spec as (Hbs & Hn & _ & H1).
  destruct (fill_pos content prog bi ok first_block D) as (Ho & Hb1 & _).
  destruct (opened_write content prog bi ok first_block ltac:(lia) D d w) as (e & w1 & E & Hw1 & He & Hc);
    [done|done|done|done|lia|].
  assert (in_range bi (fb D) (fo D) (Z.of_nat (length d))) as Hr by (unfold in_range; lia).
  exists e, w1. split_and!; [done|done| |done| |].
  { eapply head_write; [exact Hw| |exact Hr|exact E|exact Hh]. lia. }
  { intros (_ & HR & _). exact (HR _ _ _ _ _ _ Hw Hr E). }
  intros Hz. specialize (Hc Hz). cbv zeta in Hc. destruct Hc as [C1 C2].
  destruct (bd_read (fb D) (fo D) (Z.of_nat (length d)) w1 Hw1 Hr) as (e' & buf & w2 & Er & Hw2 & Hc2 & He' & Hbuf).
  exists e', buf, w2. split_and!; [done|done| |done| |].
  { unfold head_erased. rewrite Hc2. eapply head_write; [exact Hw| |exact Hr|exact E|exact Hh]. lia. }
  { intros (_ & _ & HR). exact (HR _ _ _ _ _ _ _ Hw1 Hr Er). }
  intros Hz'. specialize (Hbuf Hz'). split.
  - rewrite Hbuf. by apply (sub_image content prog bi ok first_block ltac:(lia)).
  - cbv zeta. rewrite Hc2, <- Hbs. done.
Qed.

(** The bytes belong to the image and the position has moved. *)
Lemma round_next D d x c w : xfer_at D x w → fb D < num_blocks bi →
  Z.of_nat (length d) <= 4096 - fo D → bytes d → ∀ w', ok w' → head_erased w' →
  (let n := Z.of_nat (length (D ++ d)) in let left := 4096 - fo D - Z.of_nat (length d) in
   sub (content w') (first_block * 4096) n = D ++ d ∧
   sub (content w') (first_block * 4096 + n) left = erased left) →
  xfer_at (D ++ d) (Xfer c (x_total x) (x_crc x) (fb D) (crc32 (x_acc x) d)
    (u32 (x_cur x + Z.of_nat (length d)))) w'.
Proof.
  intros Hx Hb Hd HB w' Hw' Hh Hc. destruct layout_spec as (Hbs & Hn & _ & H1). cbv zeta in Hc.
  destruct (fill_pos content prog bi ok first_block D) as (Ho & Hb1 & Hp).
  pose proof (fill_next content prog bi ok first_block D d ltac:(lia)) as Hnx.
  assert (first_block * 4096 + Z.of_nat (length (D ++ d)) <= num_blocks bi * 4096) as Hroom.
  { rewrite length_app. rewrite Hbs in Hp. nia. }
  destruct Hx as [Hw HBD _ Hcur Hacc _ _]. split; cbn; try done.
  - by apply Forall_app.
  - rewrite Hcur, u32_id; rewrite length_app in *; [lia|]. unfold is_u32. lia.
  - by rewrite Hacc, crc32_app.
  - by right.
  - rewrite <- Hbs in Hc. destruct Hnx as [(Hlt & Eb & _)|(Heq & Eb & Eo)].
    + right. split_and!; [done|done|].
      eapply opened_more; [exact HD|lia|apply Hc..].
    + left. split_and!; [lia|done|]. split; [apply Hc|].
      assert ((- Z.of_nat (length (D ++ d))) mod block_size bi = 0) as ->; [|done].
      rewrite (neg_mod content prog bi ok) by lia. unfold fill_offset in Eo. rewrite Eo, Z.sub_0_r.
      apply Z_mod_same_full.
Qed.

Definition chunks_done (D : list Z) (x : xfer) (r : res (Z * xfer * netmem * W)) : Prop :=
  ∃ e x' nm' w', r = Ret (e, x', nm', w') ∧ nm_ok nm' ∧ ok w' ∧ head_erased w' ∧ e <= 0 ∧
    (e = 0 → x_pb x' = [] ∧ x_total x' = x_total x ∧ x_crc x' = x_crc x ∧
       xfer_at (D ++ payload (x_pb x)) x' w') ∧
    (reliable ok bi → (x_pb x = [] ∨ payload (x_pb x) ≠ []) →
       first_block * 4096 + Z.of_nat (length (D ++ payload (x_pb x))) <= num_blocks bi * 4096 → e = 0).

(** A packet that is given up. *)
Lemma chunks_failed D x nm w e : nm_ok nm → packet (x_pb x) → ok w → head_erased w → e <= 0 → e ≠ 0 →
  (reliable ok bi → (x_pb x = [] ∨ payload (x_pb x) ≠ []) →
     first_block * 4096 + Z.of_nat (length (D ++ payload (x_pb x))) <= num_blocks bi * 4096 → e = 0) →
  chunks_done D x (nm ← pbuf_free nm (x_pb x); Ret (e, x, nm, w)).
Proof.
  intros Hnm (Hok & _) Hw Hh He Hne HR. destruct (pbuf_free_ok nm _ Hnm Hok) as (nm' & -> & Hnm' & _).
  exists e, x, nm', w. split_and!; done.
Qed.

Lemma fits_block D p : p ≠ [] → first_block * 4096 + Z.of_nat (length (D ++ p)) <= num_blocks bi * 4096 →
  fb D < num_blocks bi.
Proof.
  intros Hp Hf. destruct layout_spec as (Hbs & Hn & _ & H1).
  destruct (fill_pos content prog bi ok first_block D) as (Ho & _ & E). rewrite Hbs in E.
  rewrite length_app in Hf. assert (0 < length p)%nat by (destruct p; cbn; [done|lia]). nia.
Qed.

Definition chunk_fuel (c : list pbuf) : nat :=
  match c with [] => 0 | pb :: _ => S (Z.to_nat (pb_pktlen pb)) end.

Lemma chunk_loop_ok fuel : ∀ D x nm w, xfer_at D x w → nm_ok nm → single (x_pb x) →
  (chunk_fuel (x_pb x) < fuel)%nat → chunks_done D x (chunk_loop bi fuel skip_kb x nm w).
Proof.
  induction fuel as [|fuel IH]; intros D x nm w Hx Hnm Hs Hf; [lia|]. cbn [chunk_loop].
  destruct (x_pb x) as [|pb c] eqn:Epb.
  { exists 0, x, nm, w. rewrite Epb, app_nil_r. split_and!; try done; apply Hx. }
  destruct (single_cons _ _ Hs) as (-> & Hpk & HB & Epl & Hwl & Hge & Hok). cbn in Hf.
  assert (payload (x_pb x) = Pbuf.window pb) as Epay by by rewrite Epb, payload_cons, app_nil_r.
  destruct layout_spec as (Hbs & Hn & _ & H1), (sector_of _ _ _ Hx) as [-> ->].
  destruct (fill_pos content prog bi ok first_block D) as (Ho & Hb1 & Hp). rewrite Hbs in Ho.
  destruct (round_erase D x w Hx) as (e & w1 & -> & Hw1 & Hh1 & He & Hop & HR1). cbn [mbind res_bind].
  case_match eqn:E0; bool_to_prop.
  { rewrite <- Epb. apply chunks_failed; rewrite ?Epb; try done. intros HR [|Hne] Hfit; [done|]. apply HR1; [done|].
    by eapply fits_block. }
  destruct (Hop E0) as [Hopen Hblk].
  rewrite Epl. set (k := Z.min (pb_buflen pb) (4096 - fo D)).
  rewrite rd_window by (done || lia). cbn [mbind res_bind].
  set (d := take (Z.to_nat k) (Pbuf.window pb)).
  assert (Z.of_nat (length d) = k) as Ld by (unfold d; rewrite length_take; lia).
  assert (bytes d) as HBd by by apply Forall_take.
  destruct (round_store D d w1) as (e1 & w2 & -> & Hw2 & Hh2 & He1 & HR2 & Hst); [done|done|done|done|lia|lia|].
  cbn [mbind res_bind].
  case_match eqn:E1; bool_to_prop.
  { rewrite <- Epb. apply chunks_failed; rewrite ?Epb; try done. auto. }
  destruct (Hst E1) as (e2 & buf & w3 & Er & Hw3 & Hh3 & He2 & HR3 & Hc). rewrite Ld in Er. rewrite Er.
  cbn [mbind res_bind].
  case_match eqn:E2; bool_to_prop.
  { rewrite <- Epb. apply chunks_failed; rewrite ?Epb; try done. auto. }
  destruct (Hc E2) as [-> Hcont].
  assert (wr (db_mem (pb_data pb)) (pb_offset pb) d = Ret (db_mem (pb_data pb))) as ->.
  { destruct Hok as [Hm ? ? ? _ _]. unfold d, Pbuf.window, PBUF_DATA_SIZE in *.
    rewrite take_take, Nat.min_l by lia. apply wr_back; lia. }
  cbn [mbind res_bind]. rewrite set_mem_id.
  destruct (drop_single nm pb k) as (c' & nm' & Ed & Hnm' & Hs' & Hpay & Hnil); [done|done|lia|done|].
  change (fuel_for [pb]) with 2%nat. rewrite Ed. cbn [mbind res_bind].
  assert ((if x_erased x <? fb D then fb D else x_erased x) = fb D) as ->.
  { destruct (xa_fill _ _ _ Hx) as [(Hlt & _)|(-> & _)]; [by rewrite (proj2 (Z.ltb_lt _ _))|by case_match]. }
  pose proof (round_next D d x c' w Hx Hblk ltac:(lia) HBd w3 Hw3 Hh3 Hcont) as Hx'. rewrite Ld in Hx'.
  destruct (IH _ _ nm' w3 Hx') as (e3 & x' & nm2 & w4 & -> & Hnm2 & Hw4 & Hh4 & He4 & Hdone & HR4); [done|done| |].
  { cbn. destruct c' as [|pb' c'']; cbn; [lia|]. destruct (single_cons _ _ Hs') as (-> & _ & _ & -> & Hwl' & _).
    rewrite payload_cons, app_nil_r in Hpay. rewrite <- Hwl', Hpay, length_drop.
    assert (k ≠ pb_buflen pb) by (intros Hk; by apply Hnil in Hk). lia. }
  cbn [x_pb x_total x_crc] in *.
  assert ((D ++ d) ++ payload c' = D ++ payload (x_pb x)) as Eall
    by (rewrite Epay, Hpay, <- app_assoc; unfold d; by rewrite take_drop).
  rewrite Eall in *. exists e3, x', nm2, w4. split_and!; [done..|].
  intros HR _ Hfit. apply HR4; [done| |done]. destruct (decide (c' = [])) as [|Hne]; [by left|right].
  rewrite Hpay. intros Hd%(f_equal length). rewrite length_drop in Hd. cbn in Hd.
  apply Hne, Hnil. lia.
Qed.

(** What the thread does not touch while it takes packets. *)
Definition quiet (s s' : svc_ota) : Prop :=
  sa_sock s' = sa_sock s ∧ sa_blocksize s' = sa_blocksize s ∧ sa_shutdown s' = sa_shutdown s ∧
  sa_skipped_kbytes s' = sa_skipped_kbytes s ∧ sa_platform_upgrade s' = sa_platform_upgrade s.

(** A packet is there with data, or not at all. *)
Definition filled_pkt (c : list pbuf) : Prop := c = [] ∨ payload c ≠ [].

Definition keeps (x x' : xfer) : Prop := x_total x' = x_total x ∧ x_crc x' = x_crc x.

(** The bytes that have come in are [all]: a wait has stored them, an end stored as many
    as were asked for. *)
Definition xfer_done (all : list Z) (s : svc_ota) (x : xfer) (good : Prop)
    (r : res (perform_out * svc_ota * netmem * W)) : Prop :=
  ∃ o s' nm' w', r = Ret (o, s', nm', w') ∧ nm_ok nm' ∧ ok w' ∧ quiet s s' ∧ single (sa_rxbuf s') ∧
    filled_pkt (sa_rxbuf s') ∧
    match o with
    | PWait x' => x_pb x' = [] ∧ sa_rxbuf s' = [] ∧ keeps x x' ∧ xfer_at all x' w' ∧ x_cur x' < x_total x
    | PErr e => e < 0 ∧ ¬ good
    | PStored x' => keeps x x' ∧ x_total x <= x_cur x' ∧ ∃ D rest, all = D ++ rest ∧ xfer_at D x' w'
    end.

Definition smooth (s : svc_ota) (all : list Z) : Prop :=
  reliable ok bi ∧ sa_shutdown s = false ∧
  first_block * 4096 + Z.of_nat (length all) <= num_blocks bi * 4096.

Lemma xfer_loop_ok fuel : ∀ D s x nm w, xfer_at D x w → nm_ok nm → single (x_pb x) → filled_pkt (x_pb x) →
  single (sa_rxbuf s) → filled_pkt (sa_rxbuf s) → sa_skipped_kbytes s = skip_kb →
  (length (x_pb x) + length (sa_rxbuf s) < fuel)%nat →
  let all := D ++ payload (x_pb x) ++ payload (sa_rxbuf s) in
  xfer_done all s x (smooth s all) (xfer_loop bi fuel s x nm w).
Proof.
  induction fuel as [|fuel IH]; intros D s x nm w Hx Hnm Hs Hfp Hr Hfr Hk Hf all; [lia|]. cbn [xfer_loop].
  case_match eqn:Et; bool_to_prop.
  { exists (PStored x), s, nm, w. split_and!; try done; [apply Hx|]. by exists D, (payload (x_pb x) ++ payload (sa_rxbuf s)). }
  (* one packet, then the loop again *)
  assert (∀ s1 x1, xfer_at D x1 w → keeps x x1 → single (x_pb x1) → filled_pkt (x_pb x1) → single (sa_rxbuf s1) →
    filled_pkt (sa_rxbuf s1) → quiet s s1 → x_pb x1 ≠ [] → (length (sa_rxbuf s1) < fuel)%nat →
    D ++ payload (x_pb x1) ++ payload (sa_rxbuf s1) = all →
    xfer_done all s x (smooth s all)
      ('(err, x, nm, w) ← chunk_loop bi (S (S (Z.to_nat (pktlen (x_pb x1))))) (sa_skipped_kbytes s1) x1 nm w;
       if negb (err =? 0) then Ret (PErr err, s1, nm, w) else xfer_loop bi fuel s1 x nm w)) as Hrun.
  { intros s1 x1 Hx1 Hkeep Hs1 Hfp1 Hr1 Hfr1 Hq Hne Hl Eall.
    assert (sa_skipped_kbytes s1 = skip_kb) as Hk1 by (destruct Hq as (_&_&_&->&_); done). rewrite Hk1.
    destruct (chunk_loop_ok (S (S (Z.to_nat (pktlen (x_pb x1))))) D x1 nm w Hx1 Hnm Hs1)
      as (e & x2 & nm2 & w2 & -> & Hnm2 & Hw2 & Hh2 & He & Hd & HR).
    { destruct (x_pb x1); cbn; lia. }
    cbn [mbind res_bind]. case_match eqn:E0; bool_to_prop.
    - exists (PErr e), s1, nm2, w2. split_and!; try done; [lia|].
      intros (Hrel & _ & Hfit). apply E0, HR; [done|done|].
      rewrite <- Eall, !length_app in Hfit. rewrite length_app. lia.
    - destruct (Hd E0) as (Hpb & Et2 & Ec2 & Hx2).
      destruct (IH _ s1 x2 nm2 w2 Hx2 Hnm2) as (o & s' & nm' & w' & E & Hnm' & Hw' & Hq' & Hr' & Hfr' & Ho).
      { by rewrite Hpb. } { by left. } { done. } { done. } { done. }
      { rewrite Hpb. cbn. lia. }
      rewrite Hpb in Ho. change (payload []) with (@nil Z) in Ho. rewrite app_nil_l, <- app_assoc, Eall in Ho.
      assert (smooth s1 all ↔ smooth s all) as Hsm by (unfold smooth; destruct Hq as (_&_&->&_); done).
      exists o, s', nm', w'. split_and!; try done.
      { destruct Hq as (?&?&?&?&?), Hq' as (?&?&?&?&?). unfold quiet. split_and!; congruence. }
      destruct Hkeep as [K1 K2]. destruct o as [x'|e'|x']; unfold keeps in *; rewrite ?Et2, ?Ec2, ?K1, ?K2, ?Hsm in Ho; exact Ho. }
  destruct (x_pb x) as [|pb c] eqn:Epb.
  2: { specialize (Hrun s x). rewrite Epb in Hrun. apply Hrun; try assumption; [done|done|done|cbn in Hf; lia|done]. }
  unfold ota_get_next_pkt. destruct (sa_rxbuf s) as [|pb c] eqn:Erx.
  - assert (all = D) as -> by (unfold all; cbn; apply app_nil_r). destruct (sa_shutdown s) eqn:Esh.
    + eexists _, _, nm, w. split_and!; [done|done|apply Hx|done|..]; cbn; rewrite ?Erx; try done.
      split; [done|]. intros (_ & Hsh & _). congruence.
    + exists (PWait x), s, nm, w. rewrite Erx. split_and!; try done. apply Hx.
  - apply (Hrun (net_event PUSHPULL_EVENT_PUSH (set_rxbuf [] s))
      (Xfer (pb :: c) (x_total x) (x_crc x) (x_erased x) (x_acc x) (x_cur x)));
      cbn [x_pb sa_rxbuf net_event set_rxbuf]; try assumption; try done.
    + destruct Hx. by split.
    + cbn in *. lia.
    + unfold all. cbn. by rewrite app_nil_r.
Qed.

(** The upgrade is complete: what came in is the header of the transfer and the image, the
    image is on the partition and has the checksum, and the header says so. *)
Definition committed (blocksize : Z) (S : list Z) (w : W) : Prop :=
  ∃ nb crc D rest, is_u32 nb ∧ is_u32 crc ∧ S = le32 nb ++ le32 crc ++ D ++ rest ∧
    let total := u32 (s32 nb * blocksize) in
    total <= Z.of_nat (length D) ∧ crc = not32 (crc32 0 D) ∧
    sub (content w) 0 16 = otahdr_bytes (make_otahdr total crc) ∧
    sub (content w) (skip_kb * 1024) (Z.of_nat (length D)) = D.

Lemma otahdr_length h : length (otahdr_bytes h) = 16%nat.
Proof. done. Qed.

Lemma otahdr_byte h : bytes (otahdr_bytes h).
Proof.
  unfold otahdr_bytes, otahdr_front. repeat apply Forall_app_2; eauto with mios.
  unfold OTA1. repeat constructor; unfold is_byte; lia.
Qed.

Lemma image_stored D x w : xfer_at D x w → sub (content w) (skip_kb * 1024) (Z.of_nat (length D)) = D.
Proof.
  intros [_ _ _ _ _ _ Hf]. destruct layout_spec as (Hbs & _ & -> & _). rewrite <- Hbs.
  destruct Hf as [(_ & _ & [? _])|(_ & _ & [? _])]; done.
Qed.

(** The header goes over the erased start and leaves the image alone. *)
Lemma commit_write D x w h : xfer_at D x w →
  ∃ e w', write bi 0 0 (otahdr_bytes h) w = Ret (e, w') ∧ ok w' ∧ e <= 0 ∧ (reliable ok bi → e = 0) ∧
    (e = 0 → sub (content w') 0 16 = otahdr_bytes h ∧
       sub (content w') (skip_kb * 1024) (Z.of_nat (length D)) = D).
Proof.
  intros Hx. pose proof (image_stored _ _ _ Hx) as Himg. destruct Hx as [Hw _ Hh _ _ _ _].
  destruct layout_spec as (Hbs & Hn & Es & H1).
  assert (in_range bi 0 0 (Z.of_nat (length (otahdr_bytes h)))) as Hr
    by (rewrite otahdr_length; unfold in_range; lia).
  destruct (bd_write 0 0 (otahdr_bytes h) w Hw Hr (otahdr_byte h)) as (e & w' & E & Hw' & He & Hc).
  exists e, w'. split_and!; [done..| |].
  { intros (_ & HR & _). exact (HR _ _ _ _ _ _ Hw Hr E). }
  intros Hz. specialize (Hc Hz). cbv zeta in Hc. rewrite Z.mul_0_l, Z.add_0_l in Hc.
  unfold head_erased in Hh. rewrite (sub_prefix _ _ 4096), Hh, erased_sub in Hc by (rewrite otahdr_length; lia).
  rewrite (zip_prog_erased content prog bi ok) in Hc by apply otahdr_byte. split.
  - exact (sub_wr_same _ _ _ _ Hc).
  - rewrite <- Himg at 2. eapply sub_wr_apart; [exact Hc|lia|lia|right; rewrite otahdr_length; lia].
Qed.

Lemma commit_ok D s x nm w : xfer_at D x w → nm_ok nm → sock_ok (sa_sock s) →
  perform_commit bi s x nm w = Fault Blocked ∨
  ∃ e s' nm' w', perform_commit bi s x nm w = Ret (e, s', nm', w') ∧ nm_ok nm' ∧ ok w' ∧ quiet s s' ∧
    sa_rxbuf s' = sa_rxbuf s ∧ e <= 0 ∧ (reliable ok bi → x_crc x = not32 (x_acc x) → e = 0) ∧
    (e = 0 → sa_thread s' = Some OtaStatus ∧ payload (sa_info s') = [0] ∧ x_crc x = not32 (crc32 0 D) ∧
       sub (content w') 0 16 = otahdr_bytes (make_otahdr (x_total x) (x_crc x)) ∧
       sub (content w') (skip_kb * 1024) (Z.of_nat (length D)) = D).
Proof.
  intros Hx Hnm Hsk. unfold perform_commit. case_match eqn:Ec; bool_to_prop.
  { right. eexists _, s, nm, w. split_and!; try done; apply Hx. }
  set (h := make_otahdr _ _). destruct (commit_write D x w h Hx) as (e & w1 & Ew & Hw1 & He & HR & Hc).
  cbn [sa_otahdr set_otahdr]. rewrite Ew. cbn [mbind res_bind]. case_match eqn:E0; bool_to_prop.
  { right. eexists _, _, nm, w1. split_and!; try done. intros Hr. by apply HR in Hr. }
  destruct (Hc E0) as [C1 C2].
  destruct (bd_ctrl BLOCK_SUSPEND w1) as (e2 & w2 & -> & Hw2 & C & _); [done..|]. cbn [mbind res_bind].
  destruct (final_status_ok (set_otahdr h s) 0 nm Hnm Hsk) as [->|(c & nm' & -> & Hnm' & Hp)]; [by left|].
  cbn [mbind res_bind]. right. eexists 0, _, nm', w2. split_and!; try done.
  intros _. rewrite C, Ec, (xa_acc _ _ _ Hx) in *. done.
Qed.

(** *** The invariant of the service

    [S] are the bytes pushed so far. *)

Definition ota_inv (S : list Z) (s : svc_ota) (nm : netmem) (w : W) : Prop :=
  nm_ok nm ∧ ok w ∧ single (sa_rxbuf s) ∧ filled_pkt (sa_rxbuf s) ∧ sock_ok (sa_sock s) ∧
  sa_skipped_kbytes s = skip_kb ∧ 0 < sa_blocksize s <= 128 ∧ sa_platform_upgrade s = false ∧
  match sa_thread s with
  | None | Some OtaInit => S = payload (sa_rxbuf s)
  | Some (OtaXfer x) => x_pb x = [] ∧ ∃ nb D,
      S = le32 nb ++ le32 (x_crc x) ++ D ++ payload (sa_rxbuf s) ∧ is_u32 nb ∧ is_u32 (x_crc x) ∧
      x_total x = u32 (s32 nb * sa_blocksize s) ∧ Z.of_nat (length D) < x_total x ∧ xfer_at D x w
  | Some OtaStatus | Some OtaRebooted => committed (sa_blocksize s) S w
  | Some OtaExited => True
  end.

(** The transfer as the client makes it: a header, and that many blocks of an image that
    fits; the header does not come in pieces. *)
Definition transfer (nb : Z) (I : list Z) : list Z := le32 nb ++ le32 (not32 (crc32 0 I)) ++ I.
Definition sound (S : list Z) (s : svc_ota) : Prop :=
  reliable ok bi ∧ sa_shutdown s = false ∧ (S = [] ∨ (8 <= length S)%nat) ∧
  ∃ nb I, 0 <= nb < 2 ^ 31 ∧ bytes I ∧ Z.of_nat (length I) = nb * sa_blocksize s ∧
    S `prefix_of` transfer nb I ∧ skip_kb * 1024 + Z.of_nat (length I) <= num_blocks bi * 4096.

Lemma le32_app_inj x y p q : is_u32 x → is_u32 y → le32 x ++ p `prefix_of` le32 y ++ q → x = y ∧ p `prefix_of` q.
Proof.
  intros Hx Hy [k E]. rewrite <- app_assoc in E. apply app_inj_1 in E as [E ->]; [|done].
  split; [by apply le32_inj|by eexists].
Qed.

Lemma sound_image S s nb crc all : sound S s → S = le32 nb ++ le32 crc ++ all → is_u32 nb → is_u32 crc →
  ∃ I, crc = not32 (crc32 0 I) ∧ all `prefix_of` I ∧ u32 (s32 nb * sa_blocksize s) = Z.of_nat (length I) ∧
    smooth s all.
Proof.
  intros (HR & Hsh & _ & nb' & I & Hnb & HB & Hl & Hp & Hfit) -> Hu1 Hu2. destruct layout_spec as (_ & Hn & Es & H1).
  unfold transfer in Hp. apply le32_app_inj in Hp as [<- Hp]; [|done|unfold is_u32; lia].
  apply le32_app_inj in Hp as [-> Hp]; [|done|].
  2: { apply not32_u32, crc32_u32; [unfold is_u32; lia|done]. }
  exists I. pose proof (prefix_length _ _ Hp). split_and!; [done|done| |].
  - rewrite s32_id by lia. rewrite <- Hl. apply u32_id. unfold is_u32. lia.
  - unfold smooth. split_and!; [done..|]. lia.
Qed.

(** A thread that waits has taken what there was; it does not vanish. *)
Definition drained (s s' : svc_ota) : Prop :=
  match sa_thread s' with
  | Some OtaInit | Some (OtaXfer _) => sa_rxbuf s' = []
  | None => sa_thread s = None
  | _ => True
  end.

(** The thread says something only when it ends: until then what the channel pulls is
    left alone, and at a commit it is the status 0. *)
Definition working (s : svc_ota) : Prop :=
  match sa_thread s with Some OtaInit | Some (OtaXfer _) => True | _ => False end.
Definition told_ok (s s' : svc_ota) : Prop :=
  match sa_thread s' with
  | Some OtaExited => True
  | Some OtaStatus => working s ∧ payload (sa_info s') = [0] ∨ sa_thread s = Some OtaStatus ∧ sa_info s' = sa_info s
  | Some OtaRebooted => (sa_thread s = Some OtaStatus ∨ sa_thread s = Some OtaRebooted) ∧ sa_info s' = sa_info s
  | _ => (sa_thread s = None ∨ working s) ∧ sa_info s' = sa_info s
  end.

Lemma xfer_loop_info fuel : ∀ s x nm w o s' nm' w',
  xfer_loop bi fuel s x nm w = Ret (o, s', nm', w') → sa_info s' = sa_info s.
Proof.
  induction fuel as [|fuel IH]; intros s x nm w o s' nm' w'; [done|]. cbn [xfer_loop]. cbv zeta.
  case_match; [by intros [= _ <- _ _]|].
  assert (∀ s1 x1, sa_info s1 = sa_info s →
    ('(err, x, nm, w) ← chunk_loop bi (S (S (Z.to_nat (pktlen (x_pb x1))))) (sa_skipped_kbytes s1) x1 nm w;
     if negb (err =? 0) then Ret (PErr err, s1, nm, w) else xfer_loop bi fuel s1 x nm w) = Ret (o, s', nm', w') →
    sa_info s' = sa_info s) as Hrun.
  { intros s1 x1 <- Hx. apply res_bind_ret in Hx as ([[[err x2] nm2] w2] & _ & Hx).
    case_match; [by injection Hx as _ <- _ _|by eapply IH]. }
  destruct (x_pb x) eqn:Ex.
  - unfold ota_get_next_pkt. destruct (sa_rxbuf s) as [|pb c] eqn:Er.
    + destruct (sa_shutdown s); by intros [= _ <- _ _].
    + by apply Hrun.
  - rewrite <- Ex. by apply Hrun.
Qed.

Definition pass_ok (S : list Z) (s : svc_ota) (r : res (svc_ota * netmem * W)) : Prop :=
  r = Fault Blocked ∨
  ∃ s' nm' w', r = Ret (s', nm', w') ∧ ota_inv S s' nm' w' ∧ quiet s s' ∧ drained s s' ∧ told_ok s s' ∧
    (sound S s → sa_thread s ≠ Some OtaExited → sa_thread s' ≠ Some OtaExited).

Lemma cancelled_ok S s nm w e : nm_ok nm → ok w → single (sa_rxbuf s) → filled_pkt (sa_rxbuf s) →
  sock_ok (sa_sock s) → sa_skipped_kbytes s = skip_kb → 0 < sa_blocksize s <= 128 →
  sa_platform_upgrade s = false → (sound S s → False) →
  pass_ok S s ('(s, nm) ← ota_cancelled s e nm; Ret (s, nm, w)).
Proof.
  intros Hnm Hw Hr Hfr Hsk Hkb Hbs Hup Hno. unfold ota_cancelled.
  destruct (final_status_ok s (- e) nm Hnm Hsk) as [->|(c & nm' & -> & Hnm' & _)]; [by left|].
  right. eexists _, nm', w. split_and!; try done.
Qed.

Lemma cancelled_exits s0 s nm (w : W) e s2 nm2 w2 :
  ('(s, nm) ← ota_cancelled s e nm; Ret (s, nm, w)) = Ret (s2, nm2, w2) → drained s0 s2 ∧ told_ok s0 s2.
Proof.
  unfold ota_cancelled. destruct (ota_send_final_status s (- e) nm) as [[s1 nm1]|]; [|done].
  by intros [= <- _ _].
Qed.

(** The end of a pass, whatever came of the transfer. *)
Lemma after_ok S s nb crc all x r : S = le32 nb ++ le32 crc ++ all → is_u32 nb → is_u32 crc →
  x_crc x = crc → x_total x = u32 (s32 nb * sa_blocksize s) → working s →
  (∀ o s' nm' w', r = Ret (o, s', nm', w') → sa_info s' = sa_info s) →
  sock_ok (sa_sock s) → sa_skipped_kbytes s = skip_kb → 0 < sa_blocksize s <= 128 →
  sa_platform_upgrade s = false →
  xfer_done all s x (smooth s all) r → pass_ok S s (r ≫= after_perform bi).
Proof.
  intros ES Hu1 Hu2 Ec Et Hwk Hinfo Hsk Hkb Hbs Hup (o & s' & nm' & w' & -> & Hnm & Hw & Hq & Hr & Hfr & Ho).
  specialize (Hinfo _ _ _ _ eq_refl). assert (sa_thread s ≠ Some OtaExited) as Hth.
  { intros E. unfold working in Hwk. by rewrite E in Hwk. }
  pose proof Hq as (Q1 & Q2 & Q3 & Q4 & Q5). cbn [mbind res_bind after_perform].
  assert (sock_ok (sa_sock s')) by by rewrite Q1.
  assert (sound S s' ↔ sound S s) as Hss by (unfold sound; by rewrite Q2, Q3).
  destruct o as [x'|e|x'].
  - destruct Ho as (Hpb & Erx & [K1 K2] & Hx & Hlt).
    assert (ota_inv S (set_thread (Some (OtaXfer x')) s') nm' w') as Hinv.
    { unfold ota_inv. cbn. rewrite Q2, Q4, Q5. split_and!; [done..|lia|lia|done|done|].
      exists nb, all. rewrite Erx, app_nil_r, K1, K2, Ec. split_and!; try done.
      rewrite <- (xa_cur _ _ _ Hx). lia. }
    right. eexists _, nm', w'. split; [done|]. split; [exact Hinv|]. split_and!; try done.
    unfold told_ok. cbn. split; [by right|done].
  - destruct Ho as [He Hno].
    destruct (cancelled_ok S s' nm' w' e) as [->|(s2 & nm2 & w2 & E & Hinv & Hq2 & _ & _ & Hex)]; try (done || congruence).
    { rewrite Hss. intros Hso. destruct (sound_image S s nb crc all Hso ES Hu1 Hu2) as (I & _ & _ & _ & Hsm). done. }
    + by left.
    + rewrite E. right. exists s2, nm2, w2. split_and!; try done.
      * unfold quiet in *. destruct Hq2 as (?&?&?&?&?). split_and!; congruence.
      * by eapply cancelled_exits.
      * by eapply cancelled_exits.
      * intros Hso. destruct (sound_image S s nb crc all Hso ES Hu1 Hu2) as (I & _ & _ & _ & Hsm). done.
  - destruct Ho as ([K1 K2] & Hge & D & rest & -> & Hx).
    destruct (commit_ok D s' x' nm' w' Hx Hnm) as [->|(e & s2 & nm2 & w2 & -> & Hnm2 & Hw2 & Hq2 & Erx & He & HR & Hc)];
      [done|by left|]. cbn [mbind res_bind].
    assert (quiet s s2) as Hq12.
    { unfold quiet in *. destruct Hq2 as (?&?&?&?&?). split_and!; congruence. }
    pose proof Hq12 as (P1 & P2 & P3 & P4 & P5).
    assert (sound S s → e = 0) as Hsnd.
    { intros Hso. destruct (sound_image S s nb crc _ Hso ES Hu1 Hu2) as (I & Ecrc & Hp & Etot & _).
      apply HR; [apply Hso|]. rewrite K2, Ec, Ecrc, (xa_acc _ _ _ Hx). do 2 f_equal.
      pose proof (xa_cur _ _ _ Hx) as Hcur. destruct Hp as [k ->]. rewrite !length_app in Etot.
      assert (length rest = 0 ∧ length k = 0)%nat as [Hl1 Hl2] by lia.
      apply nil_length_inv in Hl1 as ->, Hl2 as ->. by rewrite !app_nil_r. }
    case_match eqn:E0; bool_to_prop.
    + destruct (cancelled_ok S s2 nm2 w2 e) as [->|(s3 & nm3 & w3 & E & Hinv & Hq3 & _ & _ & Hex)];
        try (done || congruence).
      { unfold sound. rewrite P2, P3. intros Hso. by apply Hsnd in Hso. }
      * by left.
      * rewrite E. right. exists s3, nm3, w3. split_and!; try done.
        -- unfold quiet in *. destruct Hq3 as (?&?&?&?&?). split_and!; congruence.
        -- by eapply cancelled_exits.
        -- by eapply cancelled_exits.
        -- intros Hso. by apply Hsnd in Hso.
    + destruct (Hc E0) as (Eth & Htold & C1 & C2 & C3). right.
      assert (ota_inv S s2 nm2 w2) as Hinv.
      { unfold ota_inv. rewrite Erx, P1, P2, P4, P5, Eth. split_and!; [done..|lia|lia|done|].
        rewrite K2, Ec in C1. rewrite K1, K2, Et, Ec in C2. pose proof (xa_cur _ _ _ Hx).
        exists nb, crc, D, rest. cbv zeta. split_and!; [done|done|done|lia|done..]. }
      exists s2, nm2, w2. split; [done|]. split; [exact Hinv|]. split; [done|].
      unfold drained, told_ok. rewrite Eth. split; [done|]. split; [by left|done].
Qed.

Lemma pass_ok_quiet S s s1 r : quiet s s1 → sa_thread s1 = sa_thread s → sa_info s1 = sa_info s →
  pass_ok S s1 r → pass_ok S s r.
Proof.
  intros (Q1&Q2&Q3&Q4&Q5) Et Ei [->|(s' & nm' & w' & -> & Hinv & (R1&R2&R3&R4&R5) & Hdr & Htold & Hex)]; [by left|right].
  exists s', nm', w'. split; [done|]. split; [done|]. split; [split_and!; congruence|].
  split; [unfold drained in *; by rewrite <- Et|].
  split; [unfold told_ok, working in *; by rewrite <- Et, <- Ei|]. rewrite <- Et. intros Hs. apply Hex. unfold sound in *. by rewrite Q2, Q3.
Qed.

(** The first packet. *)
Lemma start_ok s pb c nm w : nm_ok nm → ok w → single (pb :: c) → filled_pkt (pb :: c) → sa_rxbuf s = [] →
  sock_ok (sa_sock s) → sa_skipped_kbytes s = skip_kb → 0 < sa_blocksize s <= 128 →
  sa_platform_upgrade s = false → sa_thread s = Some OtaInit →
  pass_ok (payload (pb :: c)) s (perform_start bi s pb c nm w ≫= after_perform bi).
Proof.
  intros Hnm Hw Hs Hfp Erx Hsk Hkb Hbs Hup Eth.
  destruct (single_cons _ _ Hs) as (-> & Hpk & HB & Epl & Hwl & Hge & Hok).
  assert (single (sa_rxbuf s) ∧ filled_pkt (sa_rxbuf s)) as [Hr Hfr] by (rewrite Erx; split; [done|by left]).
  rewrite payload_cons, app_nil_r. unfold perform_start. case_match eqn:E8; bool_to_prop.
  { destruct (pbuf_free_ok nm [pb] Hnm (proj1 Hpk)) as (nm1 & -> & Hnm1 & _). cbn [mbind res_bind after_perform].
    apply cancelled_ok; try done. intros (_ & _ & [H0|H0] & _); [|lia].
    destruct Hfp as [|Hne]; [done|]. by rewrite payload_cons, app_nil_r in Hne. }
  destruct (first_words pb Hok HB ltac:(lia)) as (nb & crc & Hu1 & Hu2 & -> & -> & Ew). cbn [mbind res_bind].
  destruct (drop_single nm pb 8) as (c' & nm1 & Ed & Hnm1 & Hs' & Hpay & Hnil); [done|done|lia|done|].
  change (fuel_for [pb]) with 2%nat. rewrite Ed. cbn [mbind res_bind].
  destruct layout_spec as (Hb4 & Hn & Es & H1).
  destruct (bd_erase 0 1 w) as (e & w1 & Ee & Hw1 & He & Hc); [done|lia..|]. rewrite Ee. cbn [mbind res_bind].
  change (Z.to_nat 8) with 8%nat in Hpay. rewrite <- Hpay in Ew. case_match eqn:E0; bool_to_prop.
  { cbn [mbind res_bind after_perform]. apply cancelled_ok; try done. intros ((HR & _) & _).
    apply E0. eapply HR; [exact Hw| |exact Ee]. lia. }
  specialize (Hc E0). rewrite Hb4 in Hc. rewrite Z.mul_0_l, Z.mul_1_l in Hc.
  set (x := Xfer c' _ crc 0 0 0).
  assert (xfer_at [] x w1) as Hx.
  { split; cbn; try done.
    - exact (sub_wr_same _ _ _ _ Hc).
    - by left.
    - left. unfold fill_block, fill_offset. cbn. rewrite Z.div_0_l, Z.mod_0_l by lia.
      split_and!; [lia|done|]. by apply (filled_nil content prog bi ok). }
  apply (after_ok _ s nb crc (payload c') x); try done; [unfold working; by rewrite Eth|by apply xfer_loop_info|].
  pose proof (xfer_loop_ok xfer_fuel [] s x nm1 w1 Hx Hnm1 Hs') as Hl. rewrite Erx in Hl.
  change (payload []) with (@nil Z) in Hl. cbn [x_pb x app] in Hl. rewrite app_nil_r in Hl.
  apply Hl; try done.
  - destruct (decide (c' = [])) as [|Hne]; [by left|right]. rewrite Hpay. intros Hd%(f_equal length).
    rewrite length_drop in Hd. cbn in Hd. apply Hne, Hnil. lia.
  - by left.
  - destruct Hs' as (_ & ? & _). unfold xfer_fuel. cbn. lia.
Qed.

Lemma thread_ok t S s nm w : ota_inv S s nm w → pass_ok S s (ota_thread bi t s nm w).
Proof.
  intros Hinv. pose proof Hinv as (Hnm & Hw & Hr & Hfr & Hsk & Hkb & Hbs & Hup & Hth). unfold ota_thread.
  assert (told_ok s s) as Hself.
  { unfold told_ok, working. destruct (sa_thread s) as [[]|]; auto. }
  assert (drained s s → pass_ok S s (Ret (s, nm, w))) as Hidle by (right; exists s, nm, w; by split_and!).
  unfold drained in Hidle.
  destruct (sa_thread s) as [[|x| | |]|] eqn:Eth; try (by apply Hidle).
  - unfold ota_get_next_pkt. destruct (sa_rxbuf s) as [|pb c] eqn:Erx.
    + destruct (sa_shutdown s) eqn:Esh; [|by apply Hidle].
      apply (pass_ok_quiet S s (net_event PUSHPULL_EVENT_PUSH s)); [done|by cbn|done|].
      apply cancelled_ok; try done; cbn; rewrite ?Erx; try done.
      intros (_ & Hsh & _). cbn in Hsh. congruence.
    + apply (pass_ok_quiet S s (net_event PUSHPULL_EVENT_PUSH (set_rxbuf [] s))); [done|by cbn|done|].
      rewrite Hth. by apply start_ok.
  - destruct Hth as (Hpb & nb & D & ES & Hu1 & Hu2 & Et & Hlt & Hx).
    apply (after_ok S s nb (x_crc x) (D ++ payload (sa_rxbuf s)) x); try done;
      [unfold working; by rewrite Eth|by apply xfer_loop_info|].
    pose proof (xfer_loop_ok xfer_fuel D s x nm w Hx Hnm) as Hl. rewrite Hpb in Hl.
    change (payload []) with (@nil Z) in Hl. cbn [app] in Hl. apply Hl; try done; [by left|].
    destruct Hr as (_ & ? & _). unfold xfer_fuel. cbn. lia.
  - assert (pass_ok S s (Ret (set_thread (Some OtaRebooted) (net_event PUSHPULL_EVENT_CLOSE s), nm, w))).
    { right. eexists _, nm, w. split; [done|]. split; [unfold ota_inv; cbn; split_and!; done || lia|].
      split_and!; try done. unfold told_ok. cbn. rewrite Eth. auto. }
    destruct (sa_info s) as [|i c]; [|destruct t]; auto.
Qed.

(** A message is taken when there was room for a block; the thread has it next. *)
Lemma push_ok fh created S s pb nm w : ota_inv S s nm w → ota_may_push s = true → single pb →
  0 < pktlen pb <= sa_blocksize s →
  ∃ s' nm', ota_push fh created s pb nm = Ret (Pushed s' nm') ∧ ota_inv (S ++ payload pb) s' nm' w ∧
    quiet s s' ∧ (sa_thread s ≠ Some OtaExited → sa_thread s' ≠ Some OtaExited).
Proof.
  intros (Hnm & Hw & Hr & Hfr & Hsk & Hkb & Hbs & Hup & Hth) Hmay Hpb Hlen.
  destruct pb as [|h c]; [cbn in Hlen; lia|].
  destruct (single_cons _ _ Hpb) as (-> & Hpk & HB & Epl & Hwl & Hge & Hok). cbn in Hlen.
  assert (payload [h] ≠ []) as Hne.
  { rewrite payload_cons, app_nil_r. intros E. rewrite E in Hwl. cbn in Hwl. lia. }
  set (s1 := match sa_thread s with None => if created then set_thread (Some OtaInit) s else s | Some _ => s end).
  assert (quiet s s1 ∧ sa_rxbuf s1 = sa_rxbuf s ∧ (sa_thread s ≠ Some OtaExited → sa_thread s1 ≠ Some OtaExited))
    as (Hq & Erx1 & Hex) by (unfold s1; destruct (sa_thread s) as [[]|] eqn:Eth; [..|destruct created]; cbn; rewrite ?Eth; done).
  (* what the queue holds decides the rest *)
  assert (∀ c nm', nm_ok nm' → single c → payload c = payload (sa_rxbuf s) ++ payload [h] →
    ota_inv (S ++ payload [h]) (set_rxbuf c s1) nm' w) as Hinv.
  { intros c nm' Hnm' Hc Ec. unfold ota_inv. destruct Hq as (Q1&Q2&Q3&Q4&Q5).
    cbn [sa_rxbuf set_rxbuf sa_sock sa_skipped_kbytes sa_blocksize sa_platform_upgrade sa_thread]. rewrite Q1, Q2, Q4, Q5.
    split_and!; try (done || lia).
    { right. rewrite Ec. intros [_ ?]%app_nil. done. }
    unfold s1. destruct (sa_thread s) as [[|x| | |]|] eqn:Eth; cbn; rewrite ?Eth.
    - by rewrite Ec, Hth.
    - destruct Hth as (Hp & nb & D & -> & ?). split; [done|]. exists nb, D. split; [|done].
      rewrite Ec, <- !app_assoc. done.
    - destruct Hth as (nb & crc & D & rest & ? & ? & -> & ?). exists nb, crc, D, (rest ++ payload [h]).
      by rewrite <- !app_assoc.
    - done.
    - destruct Hth as (nb & crc & D & rest & ? & ? & -> & ?). exists nb, crc, D, (rest ++ payload [h]).
      by rewrite <- !app_assoc.
    - destruct created; cbn; rewrite ?Eth; by rewrite Ec, Hth. }
  assert (ota_push fh created s [h] nm =
    match sa_rxbuf s1 with
    | [] => Ret (Pushed (set_rxbuf [h] s1) nm)
    | c =>
        '(c, dst) ← pbuf_append c (pb_pktlen h);
        src ← rd (db_mem (pb_data h)) (pb_offset h) (pb_pktlen h);
        match last c with
        | None => Fault OutOfBounds
        | Some l =>
            m ← wr (db_mem (pb_data l)) dst src;
            nm ← pbuf_free nm [h];
            Ret (Pushed (set_rxbuf (on_last (λ l, set_mem l m) c) s1) nm)
        end
    end) as ->.
  { unfold ota_push. rewrite Hup. cbn [andb]. unfold s1. by destruct (sa_thread s), (sa_rxbuf _). }
  rewrite Erx1. destruct (sa_rxbuf s) as [|q c] eqn:Erx.
  - exists (set_rxbuf [h] s1), nm. split; [done|]. split; [by apply Hinv|]. by destruct Hq.
  - destruct (single_cons _ _ Hr) as (-> & _). unfold ota_may_push in Hmay. rewrite Erx in Hmay. bool_to_prop.
    destruct (append_single q h nm Hr Hpb Hnm) as (c' & dst & src & l & m & nm' & -> & -> & El & Ew & Ef & Hnm' & Hs & Hp & _); [lia|].
    cbn [mbind res_bind]. rewrite El, Ew. cbn [mbind res_bind]. rewrite Ef. cbn [mbind res_bind].
    eexists _, nm'. split; [done|]. split; [|by destruct Hq].
    apply Hinv; [done|done|]. by rewrite Hp, !payload_cons, !app_nil_r.
Qed.

(** *** Runs

    The thread, the callbacks and the other users of the buffers, in any order.  The
    channel pushes when the service has room, messages that are no longer than a block.
    A run is labelled with the messages. *)

Definition message (c : list pbuf) : list (list Z) := match c with [] => [] | _ => [payload c] end.

(** An action, with the messages pushed and those pulled. *)
Inductive ota_act : svc_ota * netmem * W → list (list Z) → list (list Z) → svc_ota * netmem * W → Prop :=
| step_push fh created s pb nm w s' nm' :
    ota_may_push s = true → single pb → 0 < pktlen pb <= sa_blocksize s →
    ota_push fh created s pb nm = Ret (Pushed s' nm') →
    ota_act (s, nm, w) [payload pb] [] (s', nm', w)
| step_pull s nm w : ota_act (s, nm, w) [] (message (ota_pull s).1) ((ota_pull s).2, nm, w)
| step_thread t s nm w s' nm' w' :
    ota_thread bi t s nm w = Ret (s', nm', w') → ota_act (s, nm, w) [] [] (s', nm', w')
| step_close s nm w : ota_act (s, nm, w) [] [] ((ota_close s).2, nm, w)
| step_others s nm w nm' : nm_ok nm' → ota_act (s, nm, w) [] [] (s, nm', w).

Definition ota_step (st : svc_ota * netmem * W) (m : list (list Z)) (st' : svc_ota * netmem * W) : Prop :=
  ∃ told, ota_act st m told st'.

Inductive ota_run (st : svc_ota * netmem * W) : list (list Z) → svc_ota * netmem * W → Prop :=
| run_start : ota_run st [] st
| run_step ms st1 m st2 : ota_run st ms st1 → ota_step st1 m st2 → ota_run st (ms ++ m) st2.

(** A run labelled with the messages pushed and those pulled. *)
Inductive ota_talk (st : svc_ota * netmem * W) : list (list Z) → list (list Z) → svc_ota * netmem * W → Prop :=
| talk_start : ota_talk st [] [] st
| talk_step ms told st1 m out st2 : ota_talk st ms told st1 → ota_act st1 m out st2 →
    ota_talk st (ms ++ m) (told ++ out) st2.

Lemma talk_run st ms told st' : ota_talk st ms told st' → ota_run st ms st'.
Proof. induction 1; [constructor|]. eapply run_step; [done|by eexists]. Qed.

(** A service as it is opened. *)
Definition ota_fresh (s : svc_ota) : Prop :=
  sa_thread s = None ∧ sa_rxbuf s = [] ∧ sa_shutdown s = false ∧ sa_platform_upgrade s = false ∧
  sock_ok (sa_sock s) ∧ sa_skipped_kbytes s = skip_kb ∧ 0 < sa_blocksize s <= 128.

Definition sys_inv (S : list Z) (st : svc_ota * netmem * W) : Prop := let '(s, nm, w) := st in ota_inv S s nm w.

Lemma step_inv S st m st' : sys_inv S st → ota_step st m st' →
  sys_inv (S ++ concat m) st' ∧ sa_blocksize st'.1.1 = sa_blocksize st.1.1 ∧
  (sa_shutdown st'.1.1 = false → sa_shutdown st.1.1 = false) ∧
  (sound S st.1.1 → sa_thread st.1.1 ≠ Some OtaExited → sa_thread st'.1.1 ≠ Some OtaExited).
Proof.
  intros Hinv [out Hst]. destruct Hst as [fh created s pb nm w s' nm' Hmay Hpb Hlen E|s nm w|t s nm w s' nm' w' E|s nm w|s nm w nm' Hnm'];
    cbn [concat sys_inv fst snd] in *; rewrite ?app_nil_r.
  - destruct (push_ok fh created S s pb nm w Hinv Hmay Hpb Hlen) as (s1 & nm1 & E1 & Hi & (_&Hb&Hs&_) & Hex).
    rewrite E in E1. injection E1 as <- <-. split_and!; [done|done|by rewrite Hs|auto].
  - destruct s. by split_and!.
  - destruct (thread_ok t S s nm w Hinv) as [E1|(s1 & nm1 & w1 & E1 & Hi & (_&Hb&Hs&_) & _ & _ & Hex)];
      rewrite E in E1; [done|]. injection E1 as <- <- <-. split_and!; [done|done|by rewrite Hs|auto].
  - unfold ota_close. cbn. split_and!; repeat case_match; cbn in *; try done;
      destruct s; cbn in *; simplify_eq; try done.
  - split_and!; try done. by destruct Hinv as (_ & ?).
Qed.

Lemma ota_run_inv st ms st' : sys_inv [] st → ota_run st ms st' → sys_inv (concat ms) st'.
Proof.
  intros H0. induction 1 as [|ms st1 m st2 _ IH Hst]; [done|]. rewrite concat_app.
  by eapply step_inv.
Qed.

Lemma fresh_inv s nm w : ota_fresh s → nm_ok nm → ok w → sys_inv [] (s, nm, w).
Proof.
  intros (Et & Er & _ & Hup & Hsk & Hkb & Hbs) Hnm Hw. cbn. unfold ota_inv. rewrite Et, Er.
  split_and!; try (done || lia). by left.
Qed.

(** What has been pulled, and what will be: nothing before the end, one status then. *)
Definition talk_inv (told : list (list Z)) (s : svc_ota) : Prop :=
  match sa_thread s with
  | Some OtaExited => True
  | Some OtaStatus | Some OtaRebooted => told ++ message (sa_info s) = [[0]]
  | _ => told = [] ∧ sa_info s = []
  end.

Lemma message_one c x : x ≠ [] → payload c = x → message c = [x].
Proof. intros Hx <-. by destruct c. Qed.

Lemma told_thread told s s' : told_ok s s' → talk_inv told s → talk_inv told s'.
Proof.
  unfold told_ok, talk_inv, working. intros Ht Hi.
  destruct (sa_thread s') as [[|x'| | |]|], (sa_thread s) as [[|x| | |]|]; try done;
    repeat match goal with
    | H : _ ∨ _ |- _ => destruct H
    | H : _ ∧ _ |- _ => destruct H
    end; subst; try done; try congruence.
  all: first [by apply message_one | split; congruence].
Qed.

Lemma push_info fh created s pb nm s' nm' : ota_push fh created s pb nm = Ret (Pushed s' nm') →
  sa_info s' = sa_info s ∧
  (sa_thread s' = sa_thread s ∨ sa_thread s = None ∧ sa_thread s' = Some OtaInit).
Proof.
  unfold ota_push.
  set (s1 := match sa_thread s with None => if created then set_thread (Some OtaInit) s else s | Some _ => s end).
  assert (sa_info s1 = sa_info s ∧ (sa_thread s1 = sa_thread s ∨ sa_thread s = None ∧ sa_thread s1 = Some OtaInit))
    as Hs1 by (unfold s1; destruct (sa_thread s) as [[]|] eqn:E; [..|destruct created]; cbn; rewrite ?E; auto).
  assert ((match sa_rxbuf s1, pb with
      | [], _ => Ret (Pushed (set_rxbuf pb s1) nm)
      | _, [] => Fault OutOfBounds
      | c, h :: _ =>
          '(c, dst) ← pbuf_append c (pb_pktlen h);
          src ← rd (db_mem (pb_data h)) (pb_offset h) (pb_pktlen h);
          match last c with
          | None => Fault OutOfBounds
          | Some l =>
              m ← wr (db_mem (pb_data l)) dst src;
              nm ← pbuf_free nm pb;
              Ret (Pushed (set_rxbuf (on_last (λ l, set_mem l m) c) s1) nm)
          end
      end) = Ret (Pushed s' nm') → sa_info s' = sa_info s ∧
    (sa_thread s' = sa_thread s ∨ sa_thread s = None ∧ sa_thread s' = Some OtaInit)) as Hr.
  { destruct (sa_rxbuf s1) as [|q c]; [intros [= <- _]; exact Hs1|]. destruct pb as [|h t]; [done|].
    intros Hx. apply res_bind_ret in Hx as ([c' dst] & _ & Hx). apply res_bind_ret in Hx as (src & _ & Hx).
    destruct (last c'); [|done]. apply res_bind_ret in Hx as (m & _ & Hx). apply res_bind_ret in Hx as (nm2 & _ & Hx).
    injection Hx as <- _. exact Hs1. }
  unfold s1 in Hr. destruct (sa_thread s) as [pc|] eqn:E; [exact Hr|].
  destruct (_ && _)%bool; [|exact Hr]. destruct fh; [done|exact Hr].
Qed.

Lemma act_talk S told st m out st' : sys_inv S st → talk_inv told st.1.1 → ota_act st m out st' →
  talk_inv (told ++ out) st'.1.1.
Proof.
  intros Hinv Ht Hst. destruct Hst as [fh created s pb nm w s' nm' Hmay Hpb Hlen E|s nm w|t s nm w s' nm' w' E|s nm w|s nm w nm' Hnm'];
    cbn [sys_inv fst snd] in *; rewrite ?app_nil_r.
  - destruct (push_info _ _ _ _ _ _ _ E) as [Ei [Et|[Et Et']]]; unfold talk_inv in *; rewrite ?Ei, ?Et, ?Et' in *; done.
  - unfold talk_inv, ota_pull in *. cbn. destruct (sa_thread s) as [[]|]; try done;
      try (destruct Ht as [-> ->]; done); by rewrite <- app_assoc, app_nil_r.
  - destruct (thread_ok t S s nm w Hinv) as [E1|(s1 & nm1 & w1 & E1 & _ & _ & _ & Hto & _)]; rewrite E in E1; [done|].
    injection E1 as <- <- <-. by eapply told_thread.
  - assert (sa_thread (ota_close s).2 = sa_thread s ∧ sa_info (ota_close s).2 = sa_info s) as [Et Ei].
    { unfold ota_close. cbn. repeat case_match; done. }
    unfold talk_inv in *. by rewrite Et, Ei.
  - done.
Qed.

Lemma talk_ok st ms told st' : sys_inv [] st → talk_inv [] st.1.1 → ota_talk st ms told st' →
  sys_inv (concat ms) st' ∧ talk_inv told st'.1.1.
Proof.
  intros H0 Ht0. induction 1 as [|ms told st1 m out st2 _ [IH1 IH2] Hst]; [done|]. split.
  - rewrite concat_app. eapply step_inv; [exact IH1|by eexists].
  - by eapply act_talk.
Qed.

(** *** A transfer without errors *)

Section Transfer.
Context (nb blocksize : Z) (I : list Z) (L : list (list Z)).
Context (Hrel : reliable ok bi) (Hnb : 0 <= nb < 2 ^ 31) (HB : bytes I).
Context (Hlen : Z.of_nat (length I) = nb * blocksize).
Context (Hfit : skip_kb * 1024 + Z.of_nat (length I) <= num_blocks bi * 4096).
Context (HL0 : match L with [] => False | m :: _ => length m = 8%nat end) (HLc : concat L = transfer nb I).

Lemma prefix_sound ms s : ms `prefix_of` L → sa_blocksize s = blocksize → sa_shutdown s = false → sound (concat ms) s.
Proof.
  intros [k ->] Ebs Hsh. split_and!; [done|done| |exists nb, I; split_and!; try done; try lia].
  - destruct ms as [|m ms]; [by left|right]. cbn in *. rewrite length_app. lia.
  - rewrite <- HLc, concat_app. by eexists.
Qed.

Lemma run_alive st ms st' : sys_inv [] st → sa_thread st.1.1 ≠ Some OtaExited → sa_blocksize st.1.1 = blocksize →
  ota_run st ms st' → sa_shutdown st'.1.1 = false → ms `prefix_of` L →
  sa_thread st'.1.1 ≠ Some OtaExited ∧ sa_blocksize st'.1.1 = blocksize.
Proof.
  intros H0 Ht0 Hb0. induction 1 as [|ms st1 m st2 Hr IH Hst]; intros Hsh Hp; [done|].
  pose proof (ota_run_inv _ _ _ H0 Hr) as Hi. destruct (step_inv _ _ _ _ Hi Hst) as (_ & Eb & Hs & Hex).
  destruct IH as [IH1 IH2]; [auto|by etrans; [apply prefix_app_r|]|]. split; [|congruence].
  apply Hex; [|done]. apply prefix_sound; [by etrans; [apply prefix_app_r|]|done|auto].
Qed.

(** All messages are in: the next pass of the thread ends the upgrade, if there is a
    buffer for the status. *)
Lemma transfer_ends st st' t : sys_inv [] st → sa_thread st.1.1 = None → sa_blocksize st.1.1 = blocksize →
  ota_run st L st' → sa_shutdown st'.1.1 = false → sa_thread st'.1.1 ≠ None →
  let '(s, nm, w) := st' in
  ota_thread bi t s nm w = Fault Blocked ∨
  ∃ s' nm' w', ota_thread bi t s nm w = Ret (s', nm', w') ∧ told_ok s s' ∧
    (sa_thread s' = Some OtaStatus ∨ sa_thread s' = Some OtaRebooted) ∧
    sub (content w') 0 16 = otahdr_bytes (make_otahdr (Z.of_nat (length I)) (not32 (crc32 0 I))) ∧
    sub (content w') (skip_kb * 1024) (Z.of_nat (length I)) = I.
Proof.
  intros H0 Et0 Eb0 Hr Hsh Hth. pose proof (ota_run_inv _ _ _ H0 Hr) as Hi.
  destruct (run_alive st L st') as [Hne Eb]; [done|by rewrite Et0|done..|]. destruct st' as [[s nm] w]. cbn [fst sys_inv] in *.
  pose proof (prefix_sound L s ltac:(done) Eb Hsh) as Hso.
  destruct (thread_ok t _ s nm w Hi) as [->|(s' & nm' & w' & -> & Hi' & Hq & Hdr & Hto & Hex)]; [by left|right].
  exists s', nm', w'. split; [done|]. split; [done|]. specialize (Hex Hso Hne). rewrite HLc in *.
  destruct Hi' as (_ & _ & _ & _ & _ & _ & _ & _ & Hth'). unfold drained in Hdr.
  assert (is_u32 nb) as Hu by (unfold is_u32; lia).
  assert (is_u32 (not32 (crc32 0 I))) as Huc by (apply not32_u32, crc32_u32; [unfold is_u32; lia|done]).
  assert (u32 (s32 nb * blocksize) = Z.of_nat (length I)) as Etot.
  { destruct layout_spec as (_ & ? & ? & ?). rewrite s32_id by lia. rewrite <- Hlen. apply u32_id. unfold is_u32. lia. }
  assert (committed (sa_blocksize s') (transfer nb I) w' →
    sub (content w') 0 16 = otahdr_bytes (make_otahdr (Z.of_nat (length I)) (not32 (crc32 0 I))) ∧
    sub (content w') (skip_kb * 1024) (Z.of_nat (length I)) = I) as Hfin.
  { destruct Hq as (_ & -> & _). rewrite Eb. intros (nb' & crc & D & rest & Hu1 & Hu2 & E & Hc). cbv zeta in Hc.
    destruct Hc as (Hle & Ecrc & C1 & C2). unfold transfer in E.
    apply app_inj_1 in E as [<-%le32_inj E]; [|done..]. apply app_inj_1 in E as [<-%le32_inj E]; [|done..].
    rewrite Etot in *. apply (f_equal length) in E as El. rewrite length_app in El.
    assert (length rest = 0%nat) as Hr0 by lia. apply nil_length_inv in Hr0 as ->. rewrite app_nil_r in E. by subst D. }
  destruct (sa_thread s') as [[|x| | |]|] eqn:Eth'; try (split; [by auto|by apply Hfin]); try done.
  - rewrite Hdr in Hth'. done.
  - destruct Hth' as (_ & nb' & D & E & Hu1 & Hu2 & Et & Hlt & _). rewrite Hdr, app_nil_r in E. unfold transfer in E.
    apply app_inj_1 in E as [<-%le32_inj E]; [|done..]. apply app_inj_1 in E as [_ <-]; [|done].
    destruct Hq as (_ & Eb' & _). rewrite Eb', Eb, Etot in Et. lia.
Qed.
End Transfer.
End Service.

(** ** Opening, and what the client makes of it *)

Lemma open_ok busy alloc build_id appname pp xfer_skip skip_kb blocksize nm s nm' :
  nm_ok nm → sock_ok pp → 0 <= blocksize → 0 <= skip_kb < 256 → Z.of_nat (length build_id + length appname) < 60000 →
  ota_open_with_args busy alloc build_id appname pp xfer_skip skip_kb blocksize false nm = Ret (inr s, nm') →
  ota_fresh skip_kb s ∧ nm_ok nm' ∧
  sa_blocksize s = Z.min (if blocksize =? 0 then max_fragment_size pp else blocksize) 128 ∧
  payload (sa_info s) = [0; 114; sa_blocksize s; u8 xfer_skip] ++ build_id ++ appname.
Proof.
  intros Hnm [Hpo Hmf] Hb Hk Hl. unfold ota_open_with_args. destruct busy; [done|]. destruct alloc; [|done]. cbn [negb].
  set (bs := Z.min _ 128). assert (0 < bs <= 128) as Hbs.
  { unfold bs. case_match eqn:E; bool_to_prop; lia. }
  assert (u8 bs = bs) as Eb by (apply u8_id; unfold is_byte; lia). rewrite Eb.
  destruct (make0_ok nm false Hnm) as [[? _]|[(_ & nm1 & -> & _)|(pb & nm1 & -> & Hnm1 & Hpk & Ho & Hbl & Hw)]];
    [done|done|]. cbn [mbind res_bind].
  assert (payload [pb] = []) as Hp0 by by rewrite payload_cons, Hw.
  (* three writes in a row *)
  assert (∀ c d nm, nm_ok nm → packet c → c = [] ∨ writable pp c → chain_len c + Z.of_nat (length d) < 65536 →
    ∃ c' nm', pbuf_write (S (length d)) nm c d pp false = Ret (c', nm') ∧ nm_ok nm' ∧ packet c' ∧
      (c' = [] ∨ writable pp c' ∧ c ≠ [] ∧ payload c' = payload c ++ d)) as Hwrite.
  { intros c d nm2 Hn Hc [->|Hwr] Hd; [by exists [], nm2; auto|].
    destruct (pbuf_write_writable (S (length d)) nm2 c d pp false)
      as [[[? _]|(_ & nm3 & E & ? & _)]|(c' & nm3 & E & ? & Hp & Hpk' & ? & _ & _ & _ & Hwr')];
      [done..|lia|done|exists [], nm3; split_and!; auto; by split_and!|].
    exists c', nm3. split_and!; try done. right. split_and!; try done.
    destruct Hwr as (? & ? & -> & _). by destruct x. }
  destruct (Hwrite [pb] [0; 114; bs; u8 xfer_skip] nm1 Hnm1 Hpk) as (c1 & nm2 & E1 & Hn2 & Hc1 & Hd1).
  { right. exists [], pb. split_and!; [done|done|lia]. } { cbn. lia. }
  cbn [length] in E1. rewrite E1. cbn [mbind res_bind].
  destruct (Hwrite c1 build_id nm2 Hn2 Hc1) as (c2 & nm3 & E2 & Hn3 & Hc2 & Hd2).
  { destruct Hd1 as [->|(? & _)]; auto. }
  { destruct Hd1 as [->|(_ & _ & Hp)]; [cbn; lia|]. rewrite <- payload_length by apply Hc1.
    rewrite Hp, Hp0. cbn. lia. }
  rewrite E2. cbn [mbind res_bind].
  destruct (Hwrite c2 appname nm3 Hn3 Hc2) as (c3 & nm4 & E3 & Hn4 & Hc3 & Hd3).
  { destruct Hd2 as [->|(? & _)]; auto. }
  { destruct Hd2 as [->|(_ & Hne & Hp)]; [cbn; lia|]. destruct Hd1 as [->|(_ & _ & Hp1)]; [done|].
    rewrite <- payload_length by apply Hc2. rewrite Hp, Hp1, Hp0, !length_app. cbn. lia. }
  rewrite E3. cbn [mbind res_bind]. destruct c3 as [|q c3]; [done|]. intros [= <- <-].
  destruct Hd3 as [|(_ & Hne2 & Hp3)]; [done|]. destruct Hd2 as [->|(_ & Hne1 & Hp2)]; [done|].
  destruct Hd1 as [->|(_ & _ & Hp1)]; [done|]. cbn [sa_info sa_blocksize].
  split_and!; [|done|done|].
  - unfold ota_fresh. cbn [sa_thread sa_rxbuf sa_shutdown sa_platform_upgrade sa_sock sa_skipped_kbytes sa_blocksize].
    split_and!; [done..|apply u8_id; unfold is_byte; lia|lia|lia].
  - by rewrite Hp3, Hp2, Hp1, Hp0, <- app_assoc.
Qed.

Lemma blocks_concat bs (l : list Z) : 0 < bs → ∀ n a, 0 <= a →
  concat ((λ i, take (Z.to_nat bs) (drop (Z.to_nat (i * bs)) l)) <$> seqZ a (Z.of_nat n)) =
  take (Z.to_nat (Z.of_nat n * bs)) (drop (Z.to_nat (a * bs)) l).
Proof.
  intros Hbs. induction n as [|n IH]; intros a Ha; [done|].
  rewrite seqZ_cons, fmap_cons by lia. cbn [concat].
  replace (Z.pred (Z.of_nat (S n))) with (Z.of_nat n) by lia. rewrite IH by lia.
  replace (Z.to_nat (Z.of_nat (S n) * bs)) with (Z.to_nat bs + Z.to_nat (Z.of_nat n * bs))%nat by lia.
  rewrite <- take_take_drop, drop_drop. do 3 f_equal. lia.
Qed.

Lemma ota_blocks_concat bs l nb : 0 < bs → Z.of_nat (length l) = nb * bs → concat (ota_blocks l bs) = l.
Proof.
  intros Hbs Hl. unfold ota_blocks. rewrite Hl, Z.div_mul by lia.
  assert (0 <= nb) by nia. rewrite <- (Z2Nat.id nb) by lia. rewrite blocks_concat by lia.
  rewrite Z2Nat.id, <- Hl, Nat2Z.id by lia. cbn. apply firstn_all.
Qed.

(** What the client sends when it has an image the target does not run yet. *)
Lemma client_sends bs skip build_id appname mi nb load : is_byte bs → 0 < bs → length build_id = 20%nat → appname ≠ [] →
  load (skip * 1024) bs = Some mi → build_id ≠ mi_buildid mi → Z.of_nat (length (mi_image mi)) = nb * bs →
  let sends := (le32 nb ++ le32 (not32 (crc32 0 (mi_image mi)))) :: ota_blocks (mi_image mi) bs in
  let info := [0; 114; bs; skip] ++ build_id ++ appname in
  (∀ read2, ∃ e b, vllp_do_ota (0, Some info) load read2 = Ret (sends, e, b)) ∧
  vllp_do_ota (0, Some info) load (0, Some [0]) = Ret (sends, None, true).
Proof.
  intros Hb Hbs Hlb Hap Hld Hid Hl. assert (1 <= length appname)%nat by (destruct appname; cbn; [done|lia]).
  set (hdr := [0; 114; bs; skip] ++ build_id ++ appname).
  assert (25 <= length hdr)%nat as Hh by (unfold hdr; rewrite !length_app; cbn; lia).
  assert (take 20 (drop 4 hdr) = build_id) as Ei.
  { change (drop 4 hdr) with (build_id ++ appname). rewrite <- Hlb. apply take_app_length. }
  assert (hdr !! 0%nat = Some 0 ∧ hdr !! 1%nat = Some 114 ∧ hdr !! 2%nat = Some bs ∧ hdr !! 3%nat = Some skip)
    as (E0 & E1 & E2 & E3) by done.
  clearbody hdr. unfold vllp_do_ota. cbn [Z.eqb negb VLLP_ERR_NOT_READY].
  rewrite (proj2 (Nat.ltb_ge _ _)) by lia. rewrite E0, E1, E2, E3. cbn [default from_option id].
  change (negb ((0 =? 0) && (114 =? 114))) with false. cbn iota. rewrite Hld, Ei.
  rewrite bool_decide_eq_true_2 by done. cbn [negb]. rewrite bool_decide_eq_false_2 by done.
  rewrite (proj2 (Z.eqb_neq _ _)) by lia. cbn iota zeta. rewrite Hl, Z.div_mul, <- Hl, Nat2Z.id by lia.
  rewrite firstn_all. split; [|done].
  intros [r [[|fin [|]]|]]; repeat case_match; by eexists _, _.
Qed.

(** ** The stream *)

Section Stream.
Context {W : Type} (content : W → list Z) (prog : Z → Z → Z) (bi : block_iface W) (ok : W → Prop).
Context {HD : BlockDev ok content prog bi} (b0 : Z).
Context (Hb0 : 1 <= b0) (Hbs : 16 <= block_size bi) (Hsz : num_blocks bi * block_size bi < 2 ^ 32).

Definition fits (n : Z) : Prop := b0 * block_size bi + n <= num_blocks bi * block_size bi.

Record bto_at (D : list Z) (b : bin_to_ota_t) (w : W) : Prop := {
  ba_ok : ok w;
  ba_bytes : bytes D;
  ba_fits : fits (Z.of_nat (length D));
  ba_block : bto_block b = fill_block bi b0 D;
  ba_offset : bto_offset b = fill_offset bi D;
  ba_size : bto_size b = Z.of_nat (length D);
  ba_crc : bto_crc b = crc32 0 D;
  ba_filled : filled bi b0 D (content w) }.

Lemma bto_loop_ok olen fuel : ∀ data D b w, bto_at D b w → bytes data → (length data < fuel)%nat → 0 <= olen →
  fits (Z.of_nat (length D) + Z.of_nat (length data)) →
  ∃ r b' w', bto_loop bi fuel olen data b w = Ret (r, b', w') ∧ ok w' ∧
    (0 <= r → r = olen ∧ bto_at (D ++ data) b' w').
Proof.
  induction fuel as [|fuel IH]; intros data D b w Hat HB Hf Hol Hfit; [lia|]. cbn [bto_loop].
  destruct data as [|x data']; [exists olen, b, w; rewrite app_nil_r; split_and!; [done|apply Hat|done]|].
  set (data := x :: data') in *. assert (0 < length data)%nat by (cbn; lia).
  pose proof Hat as [Hw HBD _ Ebl Eo Es Ec Hfl].
  destruct (fill_pos content prog bi ok b0 D) as (Ho & Hb1 & Hp).
  assert (fill_block bi b0 D < num_blocks bi) as Hblk by (unfold fits in Hfit; nia).
  assert (block_size bi < 2 ^ 32) as Hb32 by nia.
  assert (∃ e w1, (if bto_offset b =? 0 then erase bi (bto_block b) 1 w else Ret (0, w)) = Ret (e, w1) ∧ ok w1 ∧
    e <= 0 ∧ (e = 0 → opened bi b0 D (content w1))) as (e & w1 & -> & Hw1 & He & Hop).
  { rewrite Eo, Ebl. case_match eqn:E; bool_to_prop.
    - apply (filled_erase content prog bi ok); try done. lia.
    - exists 0, w. split_and!; try done. intros _. by apply (filled_opened content prog bi ok). }
  cbn [mbind res_bind]. case_match eqn:E0; bool_to_prop; [exists e, b, w1; split_and!; [done|done|lia]|].
  specialize (Hop E0). rewrite (u32_id (block_size bi - _)) by (unfold is_u32; lia).
  set (chunk := Z.min _ _). set (d := take _ data).
  assert (Z.of_nat (length d) = chunk ∧ 0 < chunk <= block_size bi - fill_offset bi D) as [Ld Hch]
    by (unfold d; rewrite length_take; unfold chunk; lia).
  assert (bytes d) as HBd by by apply Forall_take.
  destruct (opened_write content prog bi ok b0 ltac:(lia) D d w1) as (e2 & w2 & Ew & Hw2 & He2 & Hc);
    [done|done|done|done|lia|]. rewrite Ebl, Eo, Ew. cbn [mbind res_bind].
  case_match eqn:E2; bool_to_prop; [exists e2, b, w2; split_and!; [done|done|lia]|].
  assert (e2 = 0) as Hz by lia. destruct (Hc Hz) as [C1 C2].
  assert (Z.of_nat (length D) + chunk <= num_blocks bi * block_size bi) as Hroom by (unfold fits in Hfit; nia).
  assert (fits (Z.of_nat (length (D ++ d)))) as Hfd
    by (rewrite length_app, Nat2Z.inj_add, Ld; unfold fits in *; unfold chunk in *; lia).
  assert (num_blocks bi < 2 ^ 32) by nia.
  rewrite Es, !u32_id by (unfold is_u32; lia).
  set (b' := if _ =? _ then _ else _).
  assert (bto_at (D ++ d) b' w2) as Hat'.
  { pose proof (fill_next content prog bi ok b0 D d ltac:(lia)) as Hn. unfold b'.
    split; [done|by apply Forall_app|done|..].
    - destruct Hn as [(Hlt & -> & _)|(Heq & -> & _)]; case_match eqn:E3; bool_to_prop; cbn; lia.
    - destruct Hn as [(Hlt & _ & ->)|(Heq & _ & ->)]; case_match eqn:E3; bool_to_prop; cbn; lia.
    - rewrite length_app. case_match; cbn; lia.
    - rewrite crc32_app, <- Ec. by case_match.
    - apply (filled_more content prog bi ok); [lia|exact C1|exact C2]. }
  destruct (IH (drop (Z.to_nat chunk) data) (D ++ d) b' w2) as (r & b2 & w3 & E & Hw3 & Hr);
    [done|by apply Forall_drop|rewrite length_drop; lia|done| |].
  { rewrite length_app, length_drop. unfold fits in *. unfold chunk in *. lia. }
  exists r, b2, w3. split_and!; [exact E|done|]. intros Hr0. destruct (Hr Hr0) as [-> Hat2]. split; [done|].
  rewrite <- app_assoc in Hat2. unfold d in Hat2. by rewrite take_drop in Hat2.
Qed.

(** Writes of several pieces and the flush; the first error ends them. *)
Fixpoint bto_writes (ds : list (list Z)) (b : bin_to_ota_t) (w : W) : res (Z * bin_to_ota_t * W) :=
  match ds with
  | [] => bto_write bi None b w
  | d :: ds =>
      '(r, b, w) ← bto_write bi (Some d) b w;
      if r <? 0 then Ret (r, b, w) else bto_writes ds b w
  end.

Lemma bto_flush_ok D b w : bto_at D b w → D ≠ [] → ∃ r b' w', bto_write bi None b w = Ret (r, b', w') ∧ ok w' ∧
  r <= 0 ∧ (0 <= r → sub (content w') 0 16 =
      otahdr_bytes (make_otahdr (Z.of_nat (length D)) (not32 (crc32 0 D))) ∧
    sub (content w') (b0 * block_size bi) (Z.of_nat (length D)) = D).
Proof.
  intros [Hw HB Hfit _ _ Es Ec [Hfl _]] Hne. unfold bto_write. cbn [bto_size bto_crc].
  assert (0 < length D)%nat by (destruct D; cbn; [done|lia]).
  rewrite (proj2 (Z.eqb_neq _ _)), Es, Ec by lia. unfold fits in Hfit.
  destruct (bd_erase 0 1 w) as (e & w1 & -> & Hw1 & He & Hc); [done|lia|lia|nia|]. cbn [mbind res_bind].
  case_match eqn:E0; bool_to_prop; [eexists e, _, w1; split_and!; [done|done|lia|lia]|]. specialize (Hc E0).
  rewrite Z.mul_0_l, Z.mul_1_l in Hc. set (h := make_otahdr _ _).
  assert (Z.of_nat (length (erased (block_size bi))) = block_size bi) as Le by (apply erased_length; lia).
  pose proof (sub_wr_same _ _ _ _ Hc) as C1. rewrite Le in C1.
  assert (sub (content w1) (b0 * block_size bi) (Z.of_nat (length D)) = D) as C2
    by (rewrite <- Hfl at 2; eapply sub_wr_apart; [exact Hc|nia|lia|nia]).
  destruct (bd_write 0 0 (otahdr_bytes h) w1) as (e2 & w2 & -> & Hw2 & He2 & Hc2);
    [done|unfold in_range; rewrite otahdr_length; nia|apply otahdr_byte|]. cbn [mbind res_bind].
  case_match eqn:E2; bool_to_prop; [eexists e2, _, w2; split_and!; [done|done|lia|lia]|]. specialize (Hc2 E2).
  cbv zeta in Hc2. rewrite Z.mul_0_l, Z.add_0_l in Hc2.
  rewrite (sub_prefix _ _ (block_size bi)), C1, erased_sub in Hc2 by (rewrite otahdr_length; lia).
  rewrite (zip_prog_erased content prog bi ok) in Hc2 by apply otahdr_byte.
  destruct (bd_ctrl BLOCK_SUSPEND w2) as (e3 & w3 & -> & Hw3 & C & _); [done..|]. cbn [mbind res_bind].
  eexists 0, _, w3. split_and!; [done|done|done|]. intros _. rewrite C. split.
  - exact (sub_wr_same _ _ _ _ Hc2).
  - rewrite <- C2 at 2. eapply sub_wr_apart; [exact Hc2|nia|lia|right; rewrite otahdr_length; nia].
Qed.

Lemma bto_writes_ok ds : ∀ D b w, bto_at D b w → Forall bytes ds → D ++ concat ds ≠ [] →
  fits (Z.of_nat (length (D ++ concat ds))) →
  ∃ r b' w', bto_writes ds b w = Ret (r, b', w') ∧ ok w' ∧
    (0 <= r → let I := D ++ concat ds in
      sub (content w') 0 16 = otahdr_bytes (make_otahdr (Z.of_nat (length I)) (not32 (crc32 0 I))) ∧
      sub (content w') (b0 * block_size bi) (Z.of_nat (length I)) = I).
Proof.
  induction ds as [|d ds IH]; intros D b w Hat HB Hne Hfit; cbn [bto_writes concat] in *.
  { rewrite app_nil_r in *. destruct (bto_flush_ok D b w) as (r & b' & w' & ? & ? & _ & ?); eauto 10. }
  apply Forall_cons_1 in HB as [HBd HB]. rewrite !length_app in Hfit.
  destruct (bto_loop_ok (Z.of_nat (length d)) (S (length d)) d D b w)
    as (r & b1 & w1 & E & Hw1 & Hr); [done|done|lia|lia|unfold fits in *; lia|].
  unfold bto_write at 1. rewrite E. cbn [mbind res_bind].
  case_match eqn:E0; bool_to_prop; [exists r, b1, w1; split_and!; [done|done|lia]|].
  destruct (Hr E0) as [_ Hat1]. rewrite app_assoc in Hne |- *.
  apply IH; try done. rewrite !length_app. unfold fits in *. lia.
Qed.
End Stream.

(** ** Theorems *)

(** C23: the upgrade service, with its thread, the callbacks of its channel and the other
    users of the packet buffers in any order, over any device that keeps its promises but
    may fail at any call: no pass of the thread and no push for which there was room faults
    (a pass can only wait for a packet buffer); while the image comes in the first sector,
    where the boot loader looks for the header, is erased; and when the service ends in the
    reboot, the bytes pushed were a transfer header and an image at least as long as it
    says with the checksum it says, the image is on the partition, and so is a header with
    its length and checksum. *)
Theorem ota_commit_safe {W} (content : W → list Z) prog (bi : block_iface W) (ok : W → Prop)
    `{!BlockDev ok content prog bi, !BlockFrame ok content bi, !EraseGuard ok bi}
    skip_kb s0 nm0 w0 ms s nm w :
  layout bi skip_kb → ota_fresh skip_kb s0 → nm_ok nm0 → ok w0 →
  ota_run bi (s0, nm0, w0) ms (s, nm, w) →
  (∀ t, ota_thread bi t s nm w = Fault Blocked ∨ ∃ r, ota_thread bi t s nm w = Ret r) ∧
  (∀ fh created pb, ota_may_push s = true → single pb → 0 < pktlen pb <= sa_blocksize s →
     ∃ s' nm', ota_push fh created s pb nm = Ret (Pushed s' nm')) ∧
  match sa_thread s with
  | Some (OtaXfer _) => sub (content w) 0 4096 = erased 4096
  | Some OtaStatus | Some OtaRebooted => committed content skip_kb (sa_blocksize s) (concat ms) w
  | _ => True
  end.
Proof.
  intros HL Hf Hnm Hw Hrun.
  pose proof (ota_run_inv content prog bi ok skip_kb HL _ _ _ (fresh_inv content bi ok skip_kb s0 nm0 w0 Hf Hnm Hw) Hrun) as Hi.
  split_and!.
  - intros t. destruct (thread_ok content prog bi ok skip_kb HL t _ s nm w Hi) as [->|(? & ? & ? & -> & _)]; eauto.
  - intros fh created pb Hmay Hpb Hlen.
    destruct (push_ok content bi ok skip_kb fh created _ s pb nm w Hi Hmay Hpb Hlen) as (s' & nm' & -> & _). eauto.
  - destruct Hi as (_ & _ & _ & _ & _ & _ & _ & _ & Hth). destruct (sa_thread s) as [[]|]; try done.
    destruct Hth as (_ & nb & D & _ & _ & _ & _ & _ & Hx). apply Hx.
Qed.

(** C24: an upgrade from one end to the other.  When the service opens, a client that reads
    what it says first and has an image with another build id sends a list of messages,
    whatever it will read afterwards.  If the service gets these, its thread and the
    callbacks running in any order, over a device that does not fail and has room for the
    image, then the next pass of the thread (unless it waits for a packet buffer) ends in
    the reboot, and the partition holds exactly the image and a header with its length and
    checksum.  All that the service has given and will give to the channel after its first
    message is one status, and the client that reads it reports success and keeps the
    channel for the target's reboot. *)
Theorem ota_upgrade_roundtrip {W} (content : W → list Z) prog (bi : block_iface W) (ok : W → Prop)
    `{!BlockDev ok content prog bi, !BlockFrame ok content bi, !EraseGuard ok bi}
    build_id appname pp xfer_skip skip_kb nm0 s0 nm1 w0 load mi nb :
  layout bi skip_kb → reliable ok bi → nm_ok nm0 → ok w0 → sock_ok pp →
  length build_id = 20%nat → 0 < Z.of_nat (length appname) < 50000 → is_byte xfer_skip →
  ota_open_with_args false true build_id appname pp xfer_skip skip_kb 0 false nm0 = Ret (inr s0, nm1) →
  load (xfer_skip * 1024) (sa_blocksize s0) = Some mi → build_id ≠ mi_buildid mi → bytes (mi_image mi) →
  Z.of_nat (length (mi_image mi)) = nb * sa_blocksize s0 → nb < 2 ^ 31 →
  skip_kb * 1024 + Z.of_nat (length (mi_image mi)) <= num_blocks bi * 4096 →
  let '(first, s1) := ota_pull s0 in
  ∃ sends, (∀ read2, ∃ e b, vllp_ota true (0, Some (payload first)) load read2 = Ret (sends, e, b)) ∧
    ∀ t told s nm w, ota_talk bi (s1, nm1, w0) sends told (s, nm, w) → sa_shutdown s = false → sa_thread s ≠ None →
      ota_thread bi t s nm w = Fault Blocked ∨
      ∃ s' nm' w', ota_thread bi t s nm w = Ret (s', nm', w') ∧
        (sa_thread s' = Some OtaStatus ∨ sa_thread s' = Some OtaRebooted) ∧
        (let I := mi_image mi in
         sub (content w') 0 16 = otahdr_bytes (make_otahdr (Z.of_nat (length I)) (not32 (crc32 0 I))) ∧
         sub (content w') (skip_kb * 1024) (Z.of_nat (length I)) = I) ∧
        ∃ status, told ++ message (ota_pull s').1 = [status] ∧
          vllp_ota true (0, Some (payload first)) load (0, Some status) = Ret (sends, None, false).
Proof.
  intros HL HR Hnm Hw Hsk Hlb Hla Hxs Hop Hld Hid HB Hl Hnb Hfit. pose proof HL as (_ & _ & _ & Hk & _).
  destruct (open_ok false true build_id appname pp xfer_skip skip_kb 0 nm0 s0 nm1) as (Hf & Hnm1 & _ & Hinfo);
    [done|done|lia|lia|lia|done|].
  pose proof Hf as (Hth0 & _ & _ & _ & _ & _ & Hbs).
  assert (appname ≠ []) as Hap by (intros ->; cbn in Hla; lia).
  cbn [ota_pull]. rewrite Hinfo. rewrite (u8_id xfer_skip) by done.
  destruct (client_sends (sa_blocksize s0) xfer_skip build_id appname mi nb load) as [Hany Hok];
    [unfold is_byte; lia|lia|done..|].
  cbn [app] in *. eexists. split.
  { intros read2. destruct (Hany read2) as (e & b & E). exists e, (negb b). unfold vllp_ota. cbn [negb]. by rewrite E. }
  intros t told s nm w Htalk Hsh Hth. assert (0 <= nb) by nia. pose proof (talk_run _ _ _ _ _ Htalk) as Hrun.
  set (s1 := set_info [] s0) in *.
  assert (sys_inv content bi ok skip_kb [] (s1, nm1, w0)) as Hi0 by (by apply fresh_inv; [destruct Hf|..]).
  destruct (talk_ok content prog bi ok skip_kb HL _ _ _ _ Hi0 ltac:(unfold talk_inv; cbn; by rewrite Hth0) Htalk)
    as [_ Hti]. cbn [fst] in Hti.
  pose proof (transfer_ends content prog bi ok skip_kb HL nb (sa_blocksize s0) (mi_image mi)
    ((le32 nb ++ le32 (not32 (crc32 0 (mi_image mi)))) :: ota_blocks (mi_image mi) (sa_blocksize s0))
    HR ltac:(lia) HB Hl Hfit eq_refl) as Hend.
  specialize (Hend ltac:(cbn [concat]; rewrite (ota_blocks_concat _ _ nb) by (done || lia);
    unfold transfer; by rewrite <- app_assoc) (s1, nm1, w0) (s, nm, w) t Hi0 Hth0 eq_refl Hrun Hsh Hth).
  cbn beta iota in Hend. destruct Hend as [->|(s' & nm' & w' & -> & Hto & Hd & Hp)]; [by left|right].
  exists s', nm', w'. split; [done|]. split; [done|]. split; [done|]. exists [0]. split.
  - pose proof (told_thread _ _ _ Hto Hti) as Ht'. unfold talk_inv in Ht'. destruct Hd as [E|E]; by rewrite E in Ht'.
  - unfold vllp_ota. cbn [negb]. by rewrite Hok.
Qed.

(** The stream that fills the upgrade partition on the device: an image written in
    pieces of any size from block [block_offset] on, and flushed, over a device that may
    fail at any call.  Every call returns; if none fails, the partition holds exactly the
    image, and in its first block a header with its length and checksum, the same header
    the upgrade service writes for that image. *)
Theorem bin_to_ota_stored {W} (content : W → list Z) prog (bi : block_iface W) (ok : W → Prop)
    `{!BlockDev ok content prog bi} block_offset b ds w :
  1 <= block_offset → 16 <= block_size bi → num_blocks bi * block_size bi < 2 ^ 32 → ok w →
  Forall bytes ds → concat ds ≠ [] →
  block_offset * block_size bi + Z.of_nat (length (concat ds)) <= num_blocks bi * block_size bi →
  bin_to_ota true block_offset = Some b →
  ∃ r b' w', bto_writes bi ds b w = Ret (r, b', w') ∧ ok w' ∧
    (0 <= r → let I := concat ds in
      sub (content w') 0 16 = otahdr_bytes (make_otahdr (Z.of_nat (length I)) (not32 (crc32 0 I))) ∧
      sub (content w') (block_offset * block_size bi) (Z.of_nat (length I)) = I).
Proof.
  intros Hb Hbs Hsz Hw HB Hne Hfit [= <-]. apply (bto_writes_ok content prog bi ok block_offset) with (D := []); try done.
  split; cbn; try done; [unfold fits; lia|].
  unfold fill_block. cbn. rewrite Z.div_0_l, Z.add_0_r by lia. apply u32_id. unfold is_u32. nia.
Qed.

(** ** A flash to run on *)

#[export] Instance flash_erase_guard nb bs lk : EraseGuard (flash_ok nb bs lk) (flash_dev nb bs).
Proof.
  intros block w _ Hb. cbn in *. exists ERR_NOSPC. split; [|done].
  by rewrite (proj2 (Z.leb_gt (block + 1) nb)), !andb_false_r by lia.
Qed.

Lemma flash_reliable nb bs lk : 0 < bs → reliable (flash_ok nb bs lk) (flash_dev nb bs).
Proof.
  intros Hbs. split_and!; cbn.
  - intros block w e w' _ Hb. rewrite !(proj2 (Z.leb_le _ _)) by lia. cbn.
    destruct (wr _ _ _); [|done]. by intros [= <- _].
  - intros block off d w e w' _ (?&?&?&?). cbn in *.
    rewrite !(proj2 (Z.leb_le _ _)), (proj2 (Z.ltb_lt _ _)) by lia. cbn.
    destruct (wr _ _ _); [|done]. by intros [= <- _].
  - intros block off n w e d w' _ (?&?&?&?). cbn in *.
    rewrite !(proj2 (Z.leb_le _ _)), (proj2 (Z.ltb_lt _ _)) by lia. cbn.
    destruct (rd _ _ _); [|done]. by intros [= <- _].
Qed.

(** Runs can be computed: [Some pb] is a push, [None] a pass of the thread. *)
Section Exec.
Context {W : Type} (bi : block_iface W).

Fixpoint ota_exec (ops : list (option (list pbuf))) (st : svc_ota * netmem * W) : res (svc_ota * netmem * W) :=
  match ops with
  | [] => Ret st
  | op :: ops =>
      let '(s, nm, w) := st in
      st ← match op with
           | None => ota_thread bi false s nm w
           | Some pb =>
               if (ota_may_push s && (0 <? pktlen pb) && (pktlen pb <=? sa_blocksize s))%bool then
                 r ← ota_push None true s pb nm;
                 match r with Pushed s nm => Ret (s, nm, w) | Upgrade _ _ => Fault Assert end
               else Fault Assert
           end;
      ota_exec ops st
  end.

Lemma exec_talk st0 ops : ∀ ms st st', ota_talk bi st0 ms [] st → Forall single (omap id ops) →
  ota_exec ops st = Ret st' → ota_talk bi st0 (ms ++ (payload <$> omap id ops)) [] st'.
Proof.
  induction ops as [|[pb|] ops IH]; intros ms [[s nm] w] st' Hr Hs; cbn.
  - intros [= <-]. by rewrite app_nil_r.
  - case_match eqn:E; [|done]. bool_to_prop. destruct (ota_push None true s pb nm) as [[s1 nm1|]|] eqn:Ep; [|done..].
    cbn in *. apply Forall_cons_1 in Hs as [Hpb Hs]. intros Hx.
    rewrite cons_middle, app_assoc. eapply IH; [|done|exact Hx].
    change (@nil (list Z)) with (@nil (list Z) ++ []).
    eapply talk_step; [exact Hr|]. econstructor; [done|done|lia|exact Ep].
  - destruct (ota_thread bi false s nm w) as [[[s1 nm1] w1]|] eqn:Et; [|done]. intros Hx.
    eapply IH; [|done|exact Hx]. rewrite <- (app_nil_r ms).
    change (@nil (list Z)) with (@nil (list Z) ++ []) at 2. eapply talk_step; [exact Hr|]. by econstructor.
Qed.
End Exec.

Module OtaWit.
Definition dev : block_iface flash := flash_dev 3 4096.
Definition flash0 : flash := Flash (replicate (Z.to_nat 12288) 0) false.
Definition build_id : list Z := replicate 20 7.
Definition appname : list Z := [97; 112; 112].
Definition pp : pushpull := mk_pushpull 64 0.
Definition image : list Z := (λ i, Z.of_nat i mod 256) <$> seq 0 192.
Definition mi : mios_image := MiosImage image (replicate 20 8) appname.
Definition opened := ota_open_with_args false true build_id appname pp 128 4 0 false example_nm.
Definition s0 : svc_ota := match opened with Ret (inr s, _) => s | _ => SvcOta pp [] 0 false false 0 None [] (OtaHdr 0 0 0) false [] end.
Definition nm0 : netmem := match opened with Ret (_, nm) => nm | _ => example_nm end.
Definition sends : list (list Z) := (le32 3 ++ le32 (not32 (crc32 0 image))) :: ota_blocks image 64.
Definition packets : list (list pbuf) :=
  imap (λ i m, [example_buf (1024 + 64 * Z.of_nat i) 3 (Z.of_nat (length m)) 0 m]) sends.
Definition schedule : list (option (list pbuf)) :=
  match packets with
  | a :: b :: rest => Some a :: Some b :: None :: (Some <$> rest)
  | _ => []
  end.
Definition final (ops : list (option (list pbuf))) : svc_ota * netmem * flash :=
  match ota_exec dev ops (s0, nm0, flash0) with Ret st => st | Fault _ => (s0, nm0, flash0) end.

Definition single_b (c : list pbuf) : bool :=
  match c with
  | [pb] =>
      bool_decide (length (db_mem (pb_data pb)) = 512%nat) && (0 <=? pb_offset pb) && (0 <=? pb_buflen pb) &&
      (pb_offset pb + pb_buflen pb <=? 512) && (Z.land (pb_addr pb) 3 =? 0) && (Z.land (db_addr (pb_data pb)) 3 =? 0) &&
      (pb_pktlen pb =? pb_buflen pb) && forallb (λ b, (0 <=? b) && (b <? 256)) (Pbuf.window pb)
  | _ => false
  end.

Lemma byte_list l : forallb (λ b, (0 <=? b) && (b <? 256)) l = true → bytes l.
Proof.
  rewrite forallb_forall. intros H. apply Forall_forall. intros b Hb%list_elem_of_In. specialize (H b Hb).
  bool_to_prop. by split.
Qed.

Lemma single_check c : single_b c = true → single c.
Proof.
  destruct c as [|pb [|]]; [done| |done]. cbn. intros H. bool_to_prop. rewrite bool_decide_eq_true in *.
  split_and!; [|cbn; lia|rewrite payload_cons, app_nil_r; by apply byte_list].
  split_and!; [|cbn; lia|cbn; lia]. apply Forall_singleton. by split.
Qed.

Lemma schedule_single : Forall single (omap id (schedule ++ [None])).
Proof.
  apply (Forall_impl (λ c, single_b c = true)); [|apply single_check].
  apply Forall_forall. intros c Hc%list_elem_of_In. revert c Hc. apply forallb_forall. vm_compute. reflexivity.
Qed.

Lemma dev_ok : flash_ok 3 4096 false flash0.
Proof. split_and!; [done|vm_compute; reflexivity|apply byte_list; vm_compute; reflexivity]. Qed.
#[global] Instance dev_is_dev : BlockDev (flash_ok 3 4096 false) fl_data Z.land dev.
Proof. apply flash_is_dev; lia. Qed.
#[global] Instance dev_frame : BlockFrame (flash_ok 3 4096 false) fl_data dev.
Proof. by apply flash_frame. Qed.
#[global] Instance dev_guard : EraseGuard (flash_ok 3 4096 false) dev.
Proof. apply flash_erase_guard. Qed.
Lemma dev_layout : layout dev 4.
Proof. split_and!; vm_compute; (reflexivity || done). Qed.
Lemma s0_fresh : ota_fresh 4 s0.
Proof. split_and!; vm_compute; (reflexivity || done). Qed.
Lemma nm0_ok : nm_ok nm0.
Proof. unfold nm_ok, pool_ok. eval_packet. Qed.

Lemma all_stored : ota_exec dev (schedule ++ [None]) (s0, nm0, flash0) =
  Ret (final (schedule ++ [None])).
Proof. vm_compute. reflexivity. Qed.

(** The client has read the first message. *)
Definition s1 : svc_ota := (ota_pull s0).2.
Definition sent : svc_ota * netmem * flash :=
  match ota_exec dev schedule (s1, nm0, flash0) with Ret st => st | Fault _ => (s1, nm0, flash0) end.
Lemma all_sent : ota_exec dev schedule (s1, nm0, flash0) = Ret sent.
Proof. vm_compute. reflexivity. Qed.
Lemma sent_payload : payload <$> omap id schedule = sends.
Proof. vm_compute. reflexivity. Qed.
End OtaWit.

Lemma ota_commit_safe_witness :
  let '(s, nm, w) := OtaWit.final (OtaWit.schedule ++ [None]) in
  sa_thread s = Some OtaStatus ∧ committed fl_data 4 64 (concat OtaWit.sends) w.
Proof.
  destruct (OtaWit.final (OtaWit.schedule ++ [None])) as [[s nm] w] eqn:E.
  assert (sa_thread s = Some OtaStatus ∧ sa_blocksize s = 64) as [Et Eb].
  { change s with (s, nm, w).1.1. rewrite <- E. split; vm_compute; reflexivity. }
  split; [done|].
  pose proof (talk_run _ _ _ _ _ (exec_talk OtaWit.dev (OtaWit.s0, OtaWit.nm0, OtaWit.flash0) (OtaWit.schedule ++ [None]) [] _ _
    (talk_start _ _) OtaWit.schedule_single OtaWit.all_stored)) as Hrun.
  rewrite E in Hrun.
  destruct (ota_commit_safe fl_data Z.land OtaWit.dev (flash_ok 3 4096 false) 4 OtaWit.s0 OtaWit.nm0 OtaWit.flash0 _ s nm w
    OtaWit.dev_layout OtaWit.s0_fresh OtaWit.nm0_ok OtaWit.dev_ok Hrun) as (_ & _ & H).
  rewrite Et, Eb in H. cbn [app] in H.
  replace (payload <$> omap id (OtaWit.schedule ++ [None])) with OtaWit.sends in H by (vm_compute; reflexivity).
  exact H.
Defined.

Lemma ota_upgrade_roundtrip_witness :
  let '(s, nm, w) := OtaWit.sent in
  ota_thread OtaWit.dev false s nm w = Fault Blocked ∨
  ∃ s' nm' w', ota_thread OtaWit.dev false s nm w = Ret (s', nm', w') ∧
    (sa_thread s' = Some OtaStatus ∨ sa_thread s' = Some OtaRebooted) ∧
    (sub (fl_data w') 0 16 = otahdr_bytes (make_otahdr 192 (not32 (crc32 0 OtaWit.image))) ∧
     sub (fl_data w') 4096 192 = OtaWit.image) ∧
    ∃ status, [] ++ message (ota_pull s').1 = [status] ∧
      vllp_ota true (0, Some (payload (ota_pull OtaWit.s0).1)) (λ _ _, Some OtaWit.mi) (0, Some status) =
        Ret (OtaWit.sends, None, false).
Proof.
  destruct OtaWit.sent as [[s nm] w] eqn:E.
  assert (Forall single (omap id OtaWit.schedule)) as Hs.
  { pose proof OtaWit.schedule_single as H. rewrite omap_app in H. by apply Forall_app in H as [H _]. }
  pose proof (exec_talk OtaWit.dev (OtaWit.s1, OtaWit.nm0, OtaWit.flash0) OtaWit.schedule [] _ _
    (talk_start _ _) Hs OtaWit.all_sent) as Hrun.
  rewrite E, OtaWit.sent_payload in Hrun.
  destruct (ota_upgrade_roundtrip fl_data Z.land OtaWit.dev (flash_ok 3 4096 false) OtaWit.build_id OtaWit.appname
    OtaWit.pp 128 4 example_nm OtaWit.s0 OtaWit.nm0 OtaWit.flash0 (λ _ _, Some OtaWit.mi) OtaWit.mi 3)
    as (sends & Esend & H).
  - apply OtaWit.dev_layout.
  - apply flash_reliable. lia.
  - apply example_nm_ok.
  - apply OtaWit.dev_ok.
  - split_and!; vm_compute; (reflexivity || done).
  - reflexivity.
  - split; vm_compute; reflexivity.
  - unfold is_byte. lia.
  - vm_compute. reflexivity.
  - reflexivity.
  - vm_compute. discriminate.
  - apply OtaWit.byte_list. vm_compute. reflexivity.
  - vm_compute. reflexivity.
  - lia.
  - vm_compute. discriminate.
  - assert (sends = OtaWit.sends) as ->.
    { destruct (Esend (0, None)) as (e & b & Es). revert Es. vm_compute. intros [= <- _ _]. reflexivity. }
    assert (sa_shutdown s = false ∧ sa_thread s ≠ None) as [Hsh Hth].
    { change s with (s, nm, w).1.1. rewrite <- E. split; vm_compute; [reflexivity|discriminate]. }
    exact (H false [] s nm w Hrun Hsh Hth).
Defined.

Lemma bin_to_ota_stored_witness :
  ∃ r b' w', bto_writes OtaWit.dev [take 100 OtaWit.image; drop 100 OtaWit.image] (BinToOta 1 0 0 0) OtaWit.flash0 =
      Ret (r, b', w') ∧ flash_ok 3 4096 false w' ∧
    (0 <= r → sub (fl_data w') 0 16 = otahdr_bytes (make_otahdr 192 (not32 (crc32 0 OtaWit.image))) ∧
      sub (fl_data w') 4096 192 = OtaWit.image).
Proof.
  apply (bin_to_ota_stored fl_data Z.land OtaWit.dev (flash_ok 3 4096 false) 1 (BinToOta 1 0 0 0)
    [take 100 OtaWit.image; drop 100 OtaWit.image] OtaWit.flash0); try (vm_compute; (reflexivity || discriminate)).
  - apply OtaWit.dev_ok.
  - apply Forall_cons_2, Forall_singleton; apply OtaWit.byte_list; vm_compute; reflexivity.
Defined.

(** ** What can go wrong *)

(** The room the service promises is that of one block, but the length of a message is not
    checked: a longer one, while another waits, stops the device. *)
Theorem ota_long_message_asserts : ∃ s pb nm, ota_may_push s = true ∧ single pb ∧ single (sa_rxbuf s) ∧
  sa_blocksize s = 64 ∧ ota_push None true s pb nm = Fault Assert.
Proof.
  exists (set_rxbuf [example_buf 64 3 300 0 (replicate 300 1)] OtaWit.s0), [example_buf 128 3 300 0 (replicate 300 2)],
    example_nm.
  split_and!; try (vm_compute; reflexivity); apply OtaWit.single_check; vm_compute; reflexivity.
Qed.

(** A device that cannot erase its first sector. *)
Definition broken : block_iface flash :=
  BlockIface 3 4096 (λ _ _ w, Ret (-27, w)) (write OtaWit.dev) (read OtaWit.dev) (ctrl OtaWit.dev).

(** When the first erase fails, what is left of the first packet is not freed: its
    buffer is neither in the pool nor in the service afterwards. *)
Theorem ota_erase_error_leaks :
  ∃ s pb nm, sa_rxbuf s = [pb] ∧ single [pb] ∧
    match ota_thread broken false s nm OtaWit.flash0 with
    | Ret (s', nm', _) => sa_thread s' = Some OtaExited ∧ sa_rxbuf s' = [] ∧
        (pb_addr pb ∉ headers nm' (sa_info s'))
    | Fault _ => False
    end.
Proof.
  exists (set_thread (Some OtaInit) (set_rxbuf [example_buf 1024 3 12 0 (replicate 12 1)] OtaWit.s0)),
    (example_buf 1024 3 12 0 (replicate 12 1)), OtaWit.nm0.
  split_and!; [done|apply OtaWit.single_check; vm_compute; reflexivity|].
  vm_compute. split_and!; [done|done|]. intros H. repeat (apply elem_of_cons in H as [H|H]; [discriminate|]).
  by apply elem_of_nil in H.
Qed.

(** Each flush of the stream turns the checksum around: the header of the second one has
    the wrong checksum. *)
Theorem bto_second_flush :
  match '(_, b, w) ← bto_writes OtaWit.dev [OtaWit.image] (BinToOta 1 0 0 0) OtaWit.flash0;
        bto_write OtaWit.dev None b w with
  | Ret (r, _, w) => r = 0 ∧ sub (fl_data w) 0 16 = otahdr_bytes (make_otahdr 192 (crc32 0 OtaWit.image))
  | Fault _ => False
  end.
Proof. vm_compute. split; reflexivity. Qed.

(** The client compares the name of the new application with itself: that the target runs
    another one is never noticed. *)
Theorem ota_appname_unchecked (info : list Z) load read2 sends wait :
  vllp_ota true (0, Some info) load read2 ≠ Ret (sends, Some MismatchingAppname, wait).
Proof.
  unfold vllp_ota, vllp_do_ota. cbn [Z.eqb negb VLLP_ERR_NOT_READY]. case_match; [done|]. case_match; [done|].
  destruct (load _ _) as [mi|]; [|done]. rewrite bool_decide_eq_true_2 by done. cbn [negb].
  destruct read2 as [r [[|fin [|]]|]]; repeat case_match; try done; naive_solver.
Qed.
