(* ===== verification/Elf.v ===== *)
(** * Elf: images from ELF files ([src/util/elf_to_bin.c], [host/mios_image.c])

    Two programs make the flat image of an ELF file.  On the device [elf_to_bin] is a
    stream that takes the file in pieces and writes the image to another stream, with 0xff
    between the segments; it keeps the header and the program header table and cannot go
    back in the file.  On the host [mios_image_from_elf_mem] has the whole file in memory
    and copies the segments to their places.

    Pointers into the file are offsets into a list of bytes; a read outside of it is a
    fault.  The code for 32-bit and for 64-bit files is the same but for the offsets and
    the width of the fields ([elf_layout]) and for [vtop64]. *)

From Stdlib Require Import ZArith Lia.
From stdpp Require Import base list numbers.
From S2P Require Import Prelude.

Open Scope Z_scope.

Definition ERR_NO_MEMORY : Z := -29.
Definition ERR_MALFORMED : Z := -19.

Definition rd16 (m : list Z) (off : Z) : res Z :=
  bs ← rd m off 2;
  match bs with [a; b] => Ret (a + 256 * b) | _ => Fault OutOfBounds end.
Definition rd32 (m : list Z) (off : Z) : res Z :=
  bs ← rd m off 4;
  match bs with [a; b; c; d] => Ret (rd_le32 a b c d) | _ => Fault OutOfBounds end.
Definition rd64 (m : list Z) (off : Z) : res Z :=
  lo ← rd32 m off; hi ← rd32 m (off + 4); Ret (lo + 4294967296 * hi).

(** ** The stream *)

Definition SIZEOF_ELF32HDR : Z := 52.

Record elf_to_bin_t := ElfToBin {
  etb_pht : option (list Z);
  etb_ipos : Z;
  etb_paddr : Z;
  etb_paddr_end : Z;
  etb_segment_offset : Z;
  etb_segment : Z;
  etb_hdr : list Z }.

Definition set_pht (x : option (list Z)) (e : elf_to_bin_t) : elf_to_bin_t :=
  ElfToBin x (etb_ipos e) (etb_paddr e) (etb_paddr_end e) (etb_segment_offset e) (etb_segment e) (etb_hdr e).
Definition set_ipos (x : Z) (e : elf_to_bin_t) : elf_to_bin_t :=
  ElfToBin (etb_pht e) x (etb_paddr e) (etb_paddr_end e) (etb_segment_offset e) (etb_segment e) (etb_hdr e).
Definition set_paddr (x : Z) (e : elf_to_bin_t) : elf_to_bin_t :=
  ElfToBin (etb_pht e) (etb_ipos e) x (etb_paddr_end e) (etb_segment_offset e) (etb_segment e) (etb_hdr e).
Definition set_segment_offset (x : Z) (e : elf_to_bin_t) : elf_to_bin_t :=
  ElfToBin (etb_pht e) (etb_ipos e) (etb_paddr e) (etb_paddr_end e) x (etb_segment e) (etb_hdr e).
Definition set_segment (x : Z) (e : elf_to_bin_t) : elf_to_bin_t :=
  ElfToBin (etb_pht e) (etb_ipos e) (etb_paddr e) (etb_paddr_end e) (etb_segment_offset e) x (etb_hdr e).
Definition set_hdr (x : list Z) (e : elf_to_bin_t) : elf_to_bin_t :=
  ElfToBin (etb_pht e) (etb_ipos e) (etb_paddr e) (etb_paddr_end e) (etb_segment_offset e) (etb_segment e) x.

(** A field of the current segment's program header. *)
Definition current_segment (e : elf_to_bin_t) (field : Z) : res Z :=
  match etb_pht e with
  | None => Fault OutOfBounds
  | Some pht =>
      entry_size ← rd16 (etb_hdr e) 42;
      rd32 pht (etb_segment e * entry_size + field)
  end.
Definition p_type : Z := 0.
Definition p_offset : Z := 4.
Definition p_paddr : Z := 12.
Definition p_filesz : Z := 16.

Fixpoint skip_loop (fuel : nat) (e : elf_to_bin_t) : res (Z * elf_to_bin_t) :=
  match fuel with
  | O => Fault NoFuel
  | S fuel =>
      entries ← rd16 (etb_hdr e) 44;
      if etb_segment e =? entries then Ret (0, e)
      else
        type ← current_segment e p_type;
        filesz ← current_segment e p_filesz;
        paddr ← current_segment e p_paddr;
        if (negb (type =? 1) || (filesz =? 0) || (etb_paddr_end e <=? paddr))%bool
        then skip_loop fuel (set_segment (etb_segment e + 1) e)
        else
          offset ← current_segment e p_offset;
          if offset <? etb_ipos e then Ret (ERR_MALFORMED, e) else Ret (1, e)
  end.

(** The table has at most 65535 entries. *)
Definition skip_segments (e : elf_to_bin_t) : res (Z * elf_to_bin_t) := skip_loop (Z.to_nat 65537) e.

Section Stream.
(** The output stream; [None] is the null pointer.  [xalloc] is whether memory for the
    program header table is there. *)
Context {Out : Type} (stream_write : option (list Z) → Out → res (Z * Out)) (xalloc : bool).

Fixpoint pad_loop (fuel : nat) (pad : Z) (o : Out) : res (Z * Out) :=
  match fuel with
  | O => Fault NoFuel
  | S fuel =>
      if pad =? 0 then Ret (1, o)
      else
        let chunk := Z.min pad 16 in
        '(r, o) ← stream_write (Some (replicate (Z.to_nat chunk) 255)) o;
        if r <? 1 then Ret (r, o) else pad_loop fuel (pad - chunk) o
  end.
Definition etb_output_pad (pad : Z) (o : Out) : res (Z * Out) := pad_loop (S (Z.to_nat pad)) pad o.

(** The gap before [paddr], if there is one. *)
Definition output_gap (e : elf_to_bin_t) (paddr : Z) (o : Out) : res (Z * elf_to_bin_t * Out) :=
  if etb_paddr e <? paddr then
    let pad := paddr - etb_paddr e in
    '(r, o) ← etb_output_pad pad o;
    Ret (r, set_paddr (etb_paddr e + pad) e, o)
  else Ret (1, e, o).

Definition etb_output (e : elf_to_bin_t) (paddr : Z) (data : list Z) (o : Out) : res (Z * elf_to_bin_t * Out) :=
  '(r, e, o) ← output_gap e paddr o;
  if r <? 1 then Ret (r, e, o)
  else if u32 (paddr + Z.of_nat (length data)) <=? etb_paddr e then Ret (1, e, o)
  else
    let skip := etb_paddr e - paddr in
    let data := drop (Z.to_nat skip) data in
    let e := set_paddr (u32 (etb_paddr e + Z.of_nat (length data))) e in
    '(r, o) ← stream_write (Some data) o;
    Ret (if r <? 1 then r else 1, e, o).

(** The three parts of the file: header, program header table, segments.  The result is
    how much was taken, or an error, or 0 at the end. *)
Definition consume_header (e : elf_to_bin_t) (data : list Z) (o : Out) : res (Z * elf_to_bin_t * Out) :=
  let chunk := Z.min (Z.of_nat (length data)) (SIZEOF_ELF32HDR - etb_ipos e) in
  hdr ← wr (etb_hdr e) (etb_ipos e) (take (Z.to_nat chunk) data);
  let e := set_hdr hdr e in
  if etb_ipos e + chunk =? SIZEOF_ELF32HDR then
    magic ← rd32 hdr 0;
    type ← rd16 hdr 16;
    instruction_set ← rd16 hdr 18;
    if (negb (magic =? 1179403647) || negb (type =? 2) || negb (instruction_set =? 40))%bool
    then Ret (ERR_MALFORMED, e, o)
    else Ret (chunk, e, o)
  else Ret (chunk, e, o).

Definition consume_pht (e : elf_to_bin_t) (pht_start pht_end : Z) (data : list Z) (o : Out)
    : res (Z * elf_to_bin_t * Out) :=
  let chunk := Z.min (Z.of_nat (length data)) (pht_end - etb_ipos e) in
  match (match etb_pht e with
         | Some pht => Some pht
         | None => if xalloc then Some (replicate (Z.to_nat (pht_end - pht_start)) 0) else None
         end) with
  | None => Ret (ERR_NO_MEMORY, e, o)
  | Some pht =>
      pht ← wr pht (etb_ipos e - pht_start) (take (Z.to_nat chunk) data);
      let e := set_pht (Some pht) e in
      if etb_ipos e + chunk =? pht_end then
        '(r, e) ← skip_segments e;
        if r <? 1 then Ret (r, e, o) else Ret (chunk, e, o)
      else Ret (chunk, e, o)
  end.

Definition consume_segment (e : elf_to_bin_t) (data : list Z) (o : Out) : res (Z * elf_to_bin_t * Out) :=
  offset ← current_segment e p_offset;
  if etb_ipos e <? offset then Ret (Z.min (Z.of_nat (length data)) (offset - etb_ipos e), e, o)
  else
    let e := if etb_ipos e =? offset then set_segment_offset 0 e else e in
    filesz ← current_segment e p_filesz;
    paddr ← current_segment e p_paddr;
    let segment_end := u32 (offset + filesz) in
    let chunk := Z.min (Z.of_nat (length data)) (u32 (segment_end - etb_ipos e)) in
    '(r, e, o) ← etb_output e (u32 (paddr + etb_segment_offset e)) (take (Z.to_nat chunk) data) o;
    if r <? 1 then Ret (r, e, o)
    else
      '(r, e) ← (if u32 (etb_ipos e + chunk) =? segment_end
                 then skip_segments (set_segment (etb_segment e + 1) e)
                 else Ret (1, e));
      if r <? 1 then Ret (r, e, o)
      else Ret (chunk, set_segment_offset (u32 (etb_segment_offset e + chunk)) e, o).

Definition etb_consume_partial (e : elf_to_bin_t) (data : list Z) (o : Out) : res (Z * elf_to_bin_t * Out) :=
  if etb_ipos e <? SIZEOF_ELF32HDR then consume_header e data o
  else
    pht_start ← rd32 (etb_hdr e) 28;
    if etb_ipos e <? pht_start then Ret (Z.min (Z.of_nat (length data)) (pht_start - etb_ipos e), e, o)
    else
      entry_size ← rd16 (etb_hdr e) 42;
      entries ← rd16 (etb_hdr e) 44;
      let pht_end := u32 (pht_start + entry_size * entries) in
      if etb_ipos e <? pht_end then consume_pht e pht_start pht_end data o
      else consume_segment e data o.

Fixpoint etb_push (fuel : nat) (e : elf_to_bin_t) (data : list Z) (o : Out) : res (Z * elf_to_bin_t * Out) :=
  match fuel with
  | O => Fault NoFuel
  | S fuel =>
      match data with
      | [] => Ret (1, e, o)
      | _ =>
          '(r, e, o) ← etb_consume_partial e data o;
          if r <? 1 then Ret (r, e, o)
          else etb_push fuel (set_ipos (u32 (etb_ipos e + r)) e) (drop (Z.to_nat r) data) o
      end
  end.

Definition etb_write (e : elf_to_bin_t) (data : option (list Z)) (o : Out) : res (Z * elf_to_bin_t * Out) :=
  match data with
  | None => Ret (0, e, o)
  | Some data =>
      '(n, e, o) ← etb_push (S (length data)) e data o;
      if n =? 0 then '(r, o) ← stream_write None o; Ret (r, e, o)
      else Ret (if n =? 1 then Z.of_nat (length data) else n, e, o)
  end.
End Stream.

(** [alloc]: there is an output, and memory for the stream. *)
Definition elf_to_bin (alloc : bool) (paddr_start paddr_end : Z) : option elf_to_bin_t :=
  if alloc then Some (ElfToBin None 0 paddr_start paddr_end 0 0 (replicate (Z.to_nat SIZEOF_ELF32HDR) 0))
  else None.

(** ** The image on the host *)

(** Where the fields are: the headers of the file, the entries of the two tables. *)
Record elf_layout := ElfLayout {
  l_word : Z;
  eh_phoff : Z; eh_shoff : Z; eh_phentsize : Z; eh_phnum : Z; eh_shentsize : Z; eh_shnum : Z; eh_shstrndx : Z;
  ph_offset : Z; ph_vaddr : Z; ph_paddr : Z; ph_filesz : Z;
  sh_name : Z; sh_addr : Z; sh_offset : Z }.

Definition elf32 : elf_layout := ElfLayout 32 28 32 42 44 46 48 50 4 8 12 16 0 12 16.
Definition elf64 : elf_layout := ElfLayout 64 32 40 54 56 58 60 62 8 16 24 32 0 16 24.

Record mios_image := MiosImage {
  mi_load_addr : Z;
  mi_image : list Z;
  mi_buildid : list Z;
  mi_buildid_paddr : Z;
  mi_mios_version : list Z;
  mi_app_version : list Z;
  mi_appname : option Z;      (* offset into the image *)
  mi_cmdline_addr : Z;
  mi_cmdline_size : Z }.

Inductive image_error := SkipTooLarge | SkipIntoText | BadMagic | NotElf32Or64.

(** The string at an offset. *)
Fixpoint cstring (fuel : nat) (m : list Z) (off : Z) : res (list Z) :=
  match fuel with
  | O => Fault NoFuel
  | S fuel =>
      c ← rd m off 1;
      match c with
      | [0] => Ret []
      | [c] => s ← cstring fuel m (off + 1); Ret (c :: s)
      | _ => Fault OutOfBounds
      end
  end.

Definition s_text : list Z := [46; 116; 101; 120; 116].
Definition s_isr_vector : list Z := [46; 105; 115; 114; 95; 118; 101; 99; 116; 111; 114].
Definition s_build_id : list Z := [46; 98; 117; 105; 108; 100; 95; 105; 100].
Definition s_miosversion : list Z := [46; 109; 105; 111; 115; 118; 101; 114; 115; 105; 111; 110].
Definition s_appversion : list Z := [46; 97; 112; 112; 118; 101; 114; 115; 105; 111; 110].
Definition s_appname : list Z := [46; 97; 112; 112; 110; 97; 109; 101].
Definition s_cmdline_info : list Z := [46; 99; 109; 100; 108; 105; 110; 101; 95; 105; 110; 102; 111].

Section Image.
Context (l : elf_layout) (elf : list Z).

Definition word (off : Z) : res Z := if l_word l =? 32 then rd32 elf off else rd64 elf off.
Definition wrap (z : Z) : Z := z mod 2 ^ l_word l.

(** A field of entry [i] of the program header table, of the section header table. *)
Definition phdr (i field : Z) : res Z :=
  off ← word (eh_phoff l); size ← rd16 elf (eh_phentsize l); word (off + i * size + field).
Definition shdr (i field : Z) : res Z :=
  off ← word (eh_shoff l); size ← rd16 elf (eh_shentsize l); word (off + i * size + field).
Definition shdr_name (i : Z) : res Z :=
  off ← word (eh_shoff l); size ← rd16 elf (eh_shentsize l); rd32 elf (off + i * size + sh_name l).

Definition get_shstrtab : res Z :=
  i ← rd16 elf (eh_shstrndx l); shdr i (sh_offset l).
Definition section_name (shstrtab i : Z) : res (list Z) :=
  name ← shdr_name i; cstring (S (length elf)) elf (shstrtab + name).

(** The lowest and the highest address; [n] entries are left. *)
Fixpoint bounds_loop (n : nat) (i : Z) (image_begin image_end : Z) : res (Z * Z) :=
  match n with
  | O => Ret (image_begin, image_end)
  | S n =>
      filesz ← phdr i (ph_filesz l);
      if filesz =? 0 then bounds_loop n (i + 1) image_begin image_end
      else
        paddr ← phdr i (ph_paddr l);
        bounds_loop n (i + 1) (Z.min paddr image_begin) (Z.max (wrap (paddr + filesz)) image_end)
  end.

(** Whether the skipped bytes reach into the program. *)
Fixpoint text_loop (n : nat) (i shstrtab image_begin : Z) : res bool :=
  match n with
  | O => Ret false
  | S n =>
      nam ← section_name shstrtab i;
      inside ← (if (bool_decide (nam = s_text) || bool_decide (nam = s_isr_vector))%bool
                then addr ← shdr i (sh_addr l); Ret (addr <? image_begin)
                else Ret false);
      if (inside : bool) then Ret true else text_loop n (i + 1) shstrtab image_begin
  end.

Fixpoint copy_loop (n : nat) (i image_begin : Z) (image : list Z) : res (list Z) :=
  match n with
  | O => Ret image
  | S n =>
      paddr ← phdr i (ph_paddr l);
      filesz ← phdr i (ph_filesz l);
      if ((paddr <? image_begin) || (wrap (paddr + filesz) <? image_begin))%bool
      then copy_loop n (i + 1) image_begin image
      else
        image ← (if filesz =? 0 then Ret image
                 else
                   offset ← phdr i (ph_offset l);
                   data ← rd elf offset filesz;
                   wr image (paddr - image_begin) data);
        copy_loop n (i + 1) image_begin image
  end.

(** The physical address of a virtual one, or 0. *)
Fixpoint vtop_loop (n : nat) (i addr : Z) : res Z :=
  match n with
  | O => Ret 0
  | S n =>
      filesz ← phdr i (ph_filesz l);
      if filesz =? 0 then vtop_loop n (i + 1) addr
      else
        vaddr ← phdr i (ph_vaddr l);
        if ((vaddr <=? addr) && (addr <? wrap (vaddr + filesz)))%bool
        then paddr ← phdr i (ph_paddr l); Ret (wrap (addr - vaddr + paddr))
        else vtop_loop n (i + 1) addr
  end.
Definition vtop64 (addr : Z) : res Z :=
  n ← rd16 elf (eh_phnum l); vtop_loop (Z.to_nat n) 0 addr.

(** The address of a section as the image has it: for 32 bits it is taken as it is. *)
Definition section_paddr (addr : Z) : res (option Z) :=
  if l_word l =? 32 then Ret (Some addr)
  else paddr ← vtop64 addr; Ret (if paddr =? 0 then None else Some paddr).

Definition take_section (nam : list Z) (i : Z) (mi : mios_image) : res mios_image :=
  let '(MiosImage la im bid bp mv av an ca cs) := mi in
  if bool_decide (nam = s_build_id) then
    offset ← shdr i (sh_offset l);
    addr ← shdr i (sh_addr l);
    buildid ← rd elf (offset + 16) 20;
    paddr ← section_paddr addr;
    Ret (MiosImage la im buildid (match paddr with Some p => wrap (p + 16) | None => bp end) mv av an ca cs)
  else if bool_decide (nam = s_miosversion) then
    offset ← shdr i (sh_offset l);
    v ← rd elf offset 21; Ret (MiosImage la im bid bp v av an ca cs)
  else if bool_decide (nam = s_appversion) then
    offset ← shdr i (sh_offset l);
    v ← rd elf offset 21; Ret (MiosImage la im bid bp mv v an ca cs)
  else if bool_decide (nam = s_appname) then
    addr ← shdr i (sh_addr l);
    paddr ← section_paddr addr;
    Ret (MiosImage la im bid bp mv av (match paddr with Some p => Some (p - la) | None => an end) ca cs)
  else if bool_decide (nam = s_cmdline_info) then
    offset ← shdr i (sh_offset l);
    a ← rd32 elf offset; s ← rd32 elf (offset + 4); Ret (MiosImage la im bid bp mv av an a s)
  else Ret mi.

Fixpoint info_loop (n : nat) (i shstrtab : Z) (mi : mios_image) : res mios_image :=
  match n with
  | O => Ret mi
  | S n =>
      nam ← section_name shstrtab i;
      mi ← take_section nam i mi;
      info_loop n (i + 1) shstrtab mi
  end.

Definition image_from_elf (skip_bytes alignment : Z) : res (image_error + mios_image) :=
  shstrtab ← get_shstrtab;
  phnum ← rd16 elf (eh_phnum l);
  shnum ← rd16 elf (eh_shnum l);
  '(image_begin, image_end) ← bounds_loop (Z.to_nat phnum) 0 (2 ^ l_word l - 1) 0;
  let image_begin := wrap (image_begin + skip_bytes) in
  if image_end <? image_begin then Ret (inl SkipTooLarge)
  else
    text ← text_loop (Z.to_nat shnum) 0 shstrtab image_begin;
    if (text : bool) then Ret (inl SkipIntoText)
    else
      let alignment := if alignment =? 0 then 64 else alignment in
      let image_size := (image_end - image_begin + alignment - 1) / alignment * alignment in
      image ← copy_loop (Z.to_nat phnum) 0 image_begin (replicate (Z.to_nat image_size) 255);
      mi ← info_loop (Z.to_nat shnum) 0 shstrtab
             (MiosImage image_begin image (replicate 20 0) 0 (replicate 21 0) (replicate 21 0) None 0 0);
      Ret (inr mi).
End Image.

Definition mios_image_from_elf_mem32 := image_from_elf elf32.
Definition mios_image_from_elf_mem64 := image_from_elf elf64.

Definition mios_image_from_elf_mem (elf : list Z) (skip_bytes alignment : Z) : res (image_error + mios_image) :=
  magic ← rd32 elf 0;
  if negb (magic =? 1179403647) then Ret (inl BadMagic)
  else
    bits ← rd elf 4 1;
    match bits with
    | [1] => mios_image_from_elf_mem32 elf skip_bytes alignment
    | [2] => mios_image_from_elf_mem64 elf skip_bytes alignment
    | _ => Ret (inl NotElf32Or64)
    end.
