(* ===== verification/ElfSpec.v ===== *)
(** * ElfSpec: the image of an ELF file

    [flat] is the image: the loadable segments in the order of the file, each from where
    the one before it ended, the gaps 0xff.  The stream makes it from any pieces of the
    file, and the host has the same bytes in its image. *)

From Stdlib Require Import ZArith Lia.
From stdpp Require Import base list numbers gmap.
From S2P Require Import Prelude Crc Pbuf Block Ota OtaSpec Elf.

Open Scope Z_scope.

(** ** Reading parts of a file *)

Lemma rd_sub m a n off k : 0 <= a → 0 <= off → 0 <= k → off + k <= n → a + n <= Z.of_nat (length m) →
  rd (sub m a n) off k = rd m (a + off) k.
Proof.
  intros. pose proof (sub_length m a n ltac:(lia) ltac:(lia) ltac:(lia)). rewrite !rd_ok by lia. f_equal.
  unfold sub. rewrite skipn_firstn_comm, drop_drop, take_take. f_equal; [lia|]. f_equal. lia.
Qed.

Lemma rd_ret m off k : 0 <= off → 0 <= k → off + k <= Z.of_nat (length m) → rd m off k = Ret (sub m off k).
Proof. intros. by rewrite rd_ok. Qed.

Lemma rd_oob m off k : Z.of_nat (length m) < off + k → rd m off k = Fault OutOfBounds.
Proof.
  intros H. unfold rd. destruct (_ && _)%bool eqn:E; [|done]. rewrite !andb_true_iff in E. bool_to_prop. lia.
Qed.

Lemma rd32_sub m a n off : 0 <= a → 0 <= off → off + 4 <= n → a + n <= Z.of_nat (length m) →
  Elf.rd32 (sub m a n) off = Elf.rd32 m (a + off).
Proof. intros. unfold Elf.rd32. rewrite rd_sub; [done|lia..]. Qed.
Lemma rd16_sub m a n off : 0 <= a → 0 <= off → off + 2 <= n → a + n <= Z.of_nat (length m) →
  rd16 (sub m a n) off = rd16 m (a + off).
Proof. intros. unfold rd16. rewrite rd_sub; [done|lia..]. Qed.

(** ** The image *)

Record segment := Segment { sg_type : Z; sg_offset : Z; sg_paddr : Z; sg_filesz : Z }.

(** What has been written, and up to which address; then some bytes for an address. *)
Definition emit (st : Z * list Z) (paddr : Z) (d : list Z) : Z * list Z :=
  match d with
  | [] => st
  | _ =>
      let pa := Z.max st.1 paddr in
      let out := st.2 ++ replicate (Z.to_nat (paddr - st.1)) 255 in
      if paddr + Z.of_nat (length d) <=? pa then (pa, out)
      else (paddr + Z.of_nat (length d), out ++ drop (Z.to_nat (pa - paddr)) d)
  end.

Definition seg_data (F : list Z) (sg : segment) : list Z := sub F (sg_offset sg) (sg_filesz sg).
Definition flat_from (F : list Z) (st : Z * list Z) (segs : list segment) : Z * list Z :=
  foldl (λ st sg, emit st (sg_paddr sg) (seg_data F sg)) st segs.
Definition flat (F : list Z) (start : Z) (segs : list segment) : list Z := (flat_from F (start, []) segs).2.

(** The equation where there are bytes. *)
Lemma emit_eq st p d : d ≠ [] → emit st p d =
  let pa := Z.max st.1 p in let out := st.2 ++ replicate (Z.to_nat (p - st.1)) 255 in
  if p + Z.of_nat (length d) <=? pa then (pa, out)
  else (p + Z.of_nat (length d), out ++ drop (Z.to_nat (pa - p)) d).
Proof. by destruct d. Qed.

(** Bytes for an address can come in pieces. *)
Lemma emit_app st p d1 d2 : emit (emit st p d1) (p + Z.of_nat (length d1)) d2 = emit st p (d1 ++ d2).
Proof.
  destruct st as [pa out], d1 as [|x d1']; [cbn; by rewrite Z.add_0_r|].
  destruct d2 as [|y d2']; [cbn [emit]; by rewrite app_nil_r|].
  set (d1 := x :: d1'). set (d2 := y :: d2'). assert (0 < length d1 ∧ 0 < length d2)%nat as [L1 L2] by (cbn; lia).
  rewrite (emit_eq _ _ (d1 ++ d2)), (emit_eq _ _ d1), (emit_eq _ _ d2) by done.
  cbv zeta. cbn [fst snd]. rewrite length_app, Nat2Z.inj_add.
  destruct (p + Z.of_nat (length d1) <=? Z.max pa p) eqn:E1; bool_to_prop; cbn [fst snd].
  - replace (Z.max (Z.max pa p) (p + Z.of_nat (length d1))) with (Z.max pa p) by lia.
    replace (Z.to_nat (p + Z.of_nat (length d1) - Z.max pa p)) with 0%nat by lia. cbn [replicate]. rewrite app_nil_r.
    rewrite <- Z.add_assoc. case_match; [done|]. f_equal. f_equal.
    rewrite drop_app_ge by lia. f_equal. lia.
  - replace (Z.max (p + Z.of_nat (length d1)) (p + Z.of_nat (length d1))) with (p + Z.of_nat (length d1)) by lia.
    rewrite Z.sub_diag. cbn [replicate Z.to_nat]. rewrite app_nil_r, <- Z.add_assoc.
    rewrite !(proj2 (Z.leb_gt _ _)) by lia. f_equal. rewrite drop_app_le by lia.
    change (drop 0 d2) with d2. by rewrite <- app_assoc.
Qed.

(** A well-formed file for the stream: an ARM executable whose loadable segments follow
    each other behind the program header table. *)
Section File.
Context (F : list Z) (phoff entsize : Z) (segs : list segment) (paddr_end : Z).

Definition loadable (sg : segment) : bool :=
  ((sg_type sg =? 1) && negb (sg_filesz sg =? 0) && (sg_paddr sg <? paddr_end))%bool.
Definition loads : list segment := filter (λ sg, loadable sg = true) segs.
Definition pht_size : Z := entsize * Z.of_nat (length segs).

(** Segments in order from a position of the file on. *)
Fixpoint ordered (pos : Z) (l : list segment) : Prop :=
  match l with
  | [] => pos <= Z.of_nat (length F)
  | sg :: l => pos <= sg_offset sg ∧ 0 < sg_filesz sg ∧ 0 <= sg_paddr sg ∧ sg_paddr sg + sg_filesz sg < 2 ^ 32 ∧
      ordered (sg_offset sg + sg_filesz sg) l
  end.

Record elf_file : Prop := {
  ef_len : Z.of_nat (length F) < 2 ^ 32;
  ef_magic : Elf.rd32 F 0 = Ret 1179403647;
  ef_type : rd16 F 16 = Ret 2;
  ef_machine : rd16 F 18 = Ret 40;
  ef_phoff : Elf.rd32 F 28 = Ret phoff;
  ef_entsize : rd16 F 42 = Ret entsize;
  ef_entries : rd16 F 44 = Ret (Z.of_nat (length segs));
  ef_few : Z.of_nat (length segs) < 65536;
  ef_start : 52 <= phoff;
  ef_entry : 20 <= entsize;
  ef_table : phoff + pht_size <= Z.of_nat (length F);
  ef_segs i sg : segs !! i = Some sg →
    let p := phoff + Z.of_nat i * entsize in
    Elf.rd32 F p = Ret (sg_type sg) ∧ Elf.rd32 F (p + 4) = Ret (sg_offset sg) ∧
    Elf.rd32 F (p + 12) = Ret (sg_paddr sg) ∧ Elf.rd32 F (p + 16) = Ret (sg_filesz sg);
  ef_loads : loads ≠ [];
  ef_order : ordered (phoff + pht_size) loads }.
Context (HF : elf_file).

(** The stream once it has the header and the table. *)
Record ready (e : elf_to_bin_t) : Prop := {
  rdy_hdr : etb_hdr e = sub F 0 52;
  rdy_pht : etb_pht e = Some (sub F phoff pht_size);
  rdy_end : etb_paddr_end e = paddr_end }.

Lemma file_long : 52 <= Z.of_nat (length F) ∧ 0 < pht_size.
Proof.
  destruct HF as [_ _ _ _ _ _ _ _ ? ? ? _ Hl _]. assert (0 < length segs)%nat.
  { unfold loads in Hl. destruct (length segs) eqn:E; [|lia]. apply nil_length_inv in E. by rewrite E in Hl. }
  unfold pht_size in *. split; nia.
Qed.

Lemma ready_entries e : ready e → rd16 (etb_hdr e) 44 = Ret (Z.of_nat (length segs)).
Proof. intros [-> _ _]. destruct file_long. rewrite rd16_sub by lia. apply HF. Qed.

Lemma ready_segment e i sg : ready e → etb_segment e = Z.of_nat i → segs !! i = Some sg →
  current_segment e p_type = Ret (sg_type sg) ∧ current_segment e p_offset = Ret (sg_offset sg) ∧
  current_segment e p_paddr = Ret (sg_paddr sg) ∧ current_segment e p_filesz = Ret (sg_filesz sg).
Proof.
  intros [Eh Ep _] Ei Hi. destruct file_long, HF as [_ _ _ _ _ He _ _ ? ? ? Hs _ _]. unfold current_segment. rewrite Ep, Eh.
  rewrite rd16_sub by lia. rewrite Z.add_0_l, He. cbn [mbind res_bind]. rewrite Ei.
  assert (i < length segs)%nat by (by apply lookup_lt_Some in Hi).
  assert (Z.of_nat i * entsize + 20 <= pht_size) by (unfold pht_size; nia).
  destruct (Hs i sg Hi) as (T1 & T2 & T3 & T4). unfold p_type, p_offset, p_paddr, p_filesz.
  assert (0 <= Z.of_nat i * entsize) by nia. rewrite !rd32_sub by lia. rewrite !Z.add_assoc, Z.add_0_r. done.
Qed.

(** The next loadable segment, if there is one. *)
Lemma skip_loop_ok q : ∀ fuel e pre, ready e → segs = pre ++ q → etb_segment e = Z.of_nat (length pre) →
  (length q < fuel)%nat →
  match filter (λ sg, loadable sg = true) q with
  | [] => skip_loop fuel e = Ret (0, set_segment (Z.of_nat (length segs)) e)
  | sg :: rest => etb_ipos e <= sg_offset sg →
      ∃ pre' post, segs = pre' ++ sg :: post ∧ filter (λ sg, loadable sg = true) post = rest ∧
        skip_loop fuel e = Ret (1, set_segment (Z.of_nat (length pre')) e)
  end.
Proof.
  induction q as [|sg q IH]; intros fuel e pre He Es Ei Hf; (destruct fuel as [|fuel]; [cbn in Hf; lia|]); cbn [skip_loop].
  - rewrite (ready_entries e He). cbn. rewrite app_nil_r in Es. subst pre. rewrite Ei, Z.eqb_refl.
    rewrite <- Ei. by destruct e.
  - rewrite (ready_entries e He). cbn [mbind res_bind].
    rewrite (proj2 (Z.eqb_neq _ _)) by (rewrite Ei, Es, length_app; cbn; lia).
    destruct (ready_segment e (length pre) sg He Ei) as (-> & -> & -> & ->); [by rewrite Es, list_lookup_middle|].
    cbn [mbind res_bind]. rewrite (rdy_end _ He).
    assert ((negb (sg_type sg =? 1) || (sg_filesz sg =? 0) || (paddr_end <=? sg_paddr sg))%bool = negb (loadable sg)) as ->.
    { unfold loadable. rewrite !negb_andb, negb_involutive, Z.leb_antisym. by destruct (_ <? _), (_ =? 0), (_ =? 1). }
    rewrite filter_cons. destruct (decide (loadable sg = true)) as [El|El].
    + rewrite El. cbn [negb]. intros Hle. exists pre, q. rewrite (proj2 (Z.ltb_ge _ _)) by lia.
      split_and!; [done|done|]. rewrite <- Ei. by destruct e.
    + destruct (loadable sg); [done|]. cbn [negb].
      specialize (IH fuel (set_segment (etb_segment e + 1) e) (pre ++ [sg])). 
      assert (ready (set_segment (etb_segment e + 1) e)) as He' by (destruct He; by split).
      specialize (IH He' ltac:(by rewrite <- app_assoc) ltac:(cbn; rewrite length_app; cbn; lia) ltac:(cbn in Hf; lia)).
      destruct (filter _ q); [exact IH|]. cbn [etb_ipos set_segment] in IH. exact IH.
Qed.

(** ** The stream makes the image *)

Section Output.
Context {Out : Type} (stream_write : option (list Z) → Out → res (Z * Out)).
Context (holds : list Z → Out → Prop) (room start : Z).
Context (HB : bytes F) (Hstart : 0 <= start).

(** The output takes bytes as long as there is room, or fails. *)
Definition sink : Prop :=
  ∀ D d o, holds D o → d ≠ [] → bytes d → Z.of_nat (length D) + Z.of_nat (length d) <= room →
  ∃ r o', stream_write (Some d) o = Ret (r, o') ∧ (r < 0 ∨ 1 <= r ∧ holds (D ++ d) o').
Context (HS : sink).

Lemma pad_loop_ok fuel : ∀ pad D o, holds D o → 0 <= pad → (Z.to_nat pad < fuel)%nat →
  Z.of_nat (length D) + pad <= room →
  ∃ r o', pad_loop stream_write fuel pad o = Ret (r, o') ∧
    (r < 0 ∨ r = 1 ∧ holds (D ++ replicate (Z.to_nat pad) 255) o').
Proof.
  induction fuel as [|fuel IH]; intros pad D o Ho Hp Hf Hr; [lia|]. cbn [pad_loop].
  case_match eqn:E; bool_to_prop.
  { exists 1, o. split; [done|]. right. subst pad. cbn. by rewrite app_nil_r. }
  set (c := Z.min pad 16). assert (0 < c <= pad) by (unfold c; lia).
  destruct (HS D (replicate (Z.to_nat c) 255) o) as (r & o1 & -> & Hc); [done|..].
  { destruct (Z.to_nat c) eqn:Ec; [lia|done]. }
  { apply Forall_replicate. unfold is_byte. lia. } { rewrite length_replicate. lia. }
  cbn [mbind res_bind]. destruct Hc as [Hlt|[Hge Ho1]].
  { rewrite (proj2 (Z.ltb_lt _ _)) by lia. exists r, o1. auto. }
  rewrite (proj2 (Z.ltb_ge _ _)) by lia.
  destruct (IH (pad - c) _ o1 Ho1) as (r2 & o2 & -> & H2); [lia|lia|rewrite length_app, length_replicate; lia|].
  exists r2, o2. split; [done|]. rewrite <- app_assoc, <- replicate_add in H2.
  replace (Z.to_nat c + Z.to_nat (pad - c))%nat with (Z.to_nat pad) in H2 by lia. done.
Qed.

Lemma emit_length st p d : (length st.2 <= length (emit st p d).2)%nat.
Proof. unfold emit. destruct d; [done|]. case_match; cbn; rewrite ?length_app; lia. Qed.

Lemma output_ok e p d o st : etb_paddr e = st.1 → holds st.2 o → d ≠ [] → bytes d → 0 <= st.1 → 0 <= p →
  p + Z.of_nat (length d) < 2 ^ 32 → Z.of_nat (length (emit st p d).2) <= room →
  ∃ r e' o', etb_output stream_write e p d o = Ret (r, e', o') ∧
    (r < 0 ∨ r = 1 ∧ e' = set_paddr (emit st p d).1 e ∧ holds (emit st p d).2 o').
Proof.
  intros Epa Ho Hd HBd H0 Hp Hlt Hroom. destruct st as [pa out]. cbn [fst snd] in *.
  assert (0 < length d)%nat by (destruct d; cbn; [done|lia]).
  assert (emit (pa, out) p d = let m := Z.max pa p in let out := out ++ replicate (Z.to_nat (p - pa)) 255 in
    if p + Z.of_nat (length d) <=? m then (m, out)
    else (p + Z.of_nat (length d), out ++ drop (Z.to_nat (m - p)) d)) as Hem by by destruct d.
  cbv zeta in Hem. unfold etb_output. rewrite u32_id by (unfold is_u32; lia).
  assert (∃ r e1 o1, output_gap stream_write e p o = Ret (r, e1, o1) ∧
    (r < 0 ∨ r = 1 ∧ e1 = set_paddr (Z.max pa p) e ∧ holds (out ++ replicate (Z.to_nat (p - pa)) 255) o1))
    as (r & e1 & o1 & -> & Hc).
  { unfold output_gap. rewrite Epa. destruct (pa <? p) eqn:E; bool_to_prop; cbv zeta.
    - unfold etb_output_pad. destruct (pad_loop_ok (S (Z.to_nat (p - pa))) (p - pa) out o) as (r & o1 & -> & Hc);
        [done|lia|lia| |].
      { rewrite Hem in Hroom. revert Hroom. case_match; cbn; rewrite ?length_app, length_replicate; lia. }
      cbn. eexists _, _, _. split; [done|]. destruct Hc as [?|[-> Ho1]]; [by left|right].
      split_and!; [done| |done]. f_equal. lia.
    - exists 1, e, o. split; [done|]. right. replace (Z.to_nat (p - pa)) with 0%nat by lia.
      cbn. rewrite app_nil_r. split_and!; [done| |done]. replace (Z.max pa p) with (etb_paddr e) by lia. by destruct e. }
  cbn [mbind res_bind]. destruct Hc as [Hr|(-> & -> & Ho1)].
  { rewrite (proj2 (Z.ltb_lt _ _)) by lia. exists r, e1, o1. auto. }
  change (1 <? 1) with false. cbn iota. cbn [etb_paddr set_paddr]. rewrite Hem in *. clear Hem.
  case_match eqn:E2; bool_to_prop.
  { exists 1. eexists _, o1. split; [done|]. right. done. }
  cbn [fst snd] in *.
  assert (Z.of_nat (length (drop (Z.to_nat (Z.max pa p - p)) d)) = p + Z.of_nat (length d) - Z.max pa p) as Ld
    by (rewrite length_drop; lia).
  destruct (HS _ (drop (Z.to_nat (Z.max pa p - p)) d) o1 Ho1) as (r & o2 & -> & Hc).
  { intros E. rewrite E in Ld. cbn in Ld. lia. } { by apply Forall_drop. } { rewrite length_app in Hroom. lia. }
  cbn [mbind res_bind]. rewrite Ld.
  replace (Z.max pa p + (p + Z.of_nat (length d) - Z.max pa p)) with (p + Z.of_nat (length d)) by lia.
  rewrite u32_id by (unfold is_u32; lia). destruct Hc as [Hr|[Hge Ho2]].
  - rewrite (proj2 (Z.ltb_lt _ _)) by lia. exists r. eexists _, o2. split; [done|]. by left.
  - rewrite (proj2 (Z.ltb_ge _ _)) by lia. exists 1. eexists _, o2. split; [done|]. right. done.
Qed.

Lemma emit_pos st p d : 0 <= st.1 → 0 <= (emit st p d).1.
Proof. unfold emit. destruct d; [done|]. case_match; cbn in *; bool_to_prop; lia. Qed.
Lemma flat_from_pos l : ∀ st, 0 <= st.1 → 0 <= (flat_from F st l).1.
Proof. induction l as [|sg l IH]; intros st H; cbn; [done|]. by apply IH, emit_pos. Qed.
Lemma flat_from_length l : ∀ st, (length st.2 <= length (flat_from F st l).2)%nat.
Proof.
  induction l as [|sg l IH]; intros st; cbn; [done|]. etrans; [|apply IH]. apply emit_length.
Qed.

Lemma ordered_mid l1 sg l2 : ∀ pos, ordered pos (l1 ++ sg :: l2) →
  pos <= sg_offset sg ∧ 0 < sg_filesz sg ∧ 0 <= sg_paddr sg ∧ sg_paddr sg + sg_filesz sg < 2 ^ 32 ∧
  ordered (sg_offset sg + sg_filesz sg) l2.
Proof.
  induction l1 as [|x l1 IH]; intros pos; [done|]. cbn. intros (H1 & H2 & _ & _ & H3%IH). destruct H3 as (H3 & ?). split; [lia|done].
Qed.
Lemma ordered_le l : ∀ pos, ordered pos l → pos <= Z.of_nat (length F).
Proof. induction l as [|sg l IH]; intros pos; [done|]. cbn. intros (? & ? & _ & _ & ?%IH). lia. Qed.

Context (Hroom : Z.of_nat (length (flat F start loads)) <= room).

(** What has been written when [c] bytes of a segment have been taken. *)
Definition written (done_ : list segment) (sg : segment) (c : Z) : Z * list Z :=
  emit (flat_from F (start, []) done_) (sg_paddr sg) (sub F (sg_offset sg) c).

Lemma written_more done_ sg c n : 0 <= c → 0 <= n → 0 <= sg_offset sg → sg_offset sg + c <= Z.of_nat (length F) →
  emit (written done_ sg c) (sg_paddr sg + c) (sub F (sg_offset sg + c) n) = written done_ sg (c + n).
Proof.
  intros. unfold written. rewrite sub_split by lia. rewrite <- emit_app. rewrite sub_length by lia.
  by rewrite Z2Nat.id by lia.
Qed.

Lemma written_room done_ sg rest c : loads = done_ ++ sg :: rest → 0 <= sg_offset sg →
  sg_offset sg + c <= Z.of_nat (length F) → 0 <= c <= sg_filesz sg →
  Z.of_nat (length (written done_ sg c).2) <= room.
Proof.
  intros El Ho Hf Hc. etrans; [|exact Hroom]. unfold flat. rewrite El. unfold flat_from. rewrite foldl_app. cbn.
  fold (flat_from F (start, []) done_). apply inj_le. etrans; [|apply flat_from_length]. unfold seg_data.
  change (emit (flat_from F (start, []) done_) (sg_paddr sg) (sub F (sg_offset sg) (sg_filesz sg)))
    with (written done_ sg (sg_filesz sg)).
  replace (sg_filesz sg) with (c + (sg_filesz sg - c)) by lia.
  rewrite <- written_more by lia. apply emit_length.
Qed.

(** Among the segments, at position [pos] of the file. *)
Definition at_seg (pos : Z) (e : elf_to_bin_t) (o : Out) : Prop :=
  ready e ∧ etb_ipos e = pos ∧ phoff + pht_size <= pos ∧
  ∃ done_ sg rest pre post, loads = done_ ++ sg :: rest ∧ segs = pre ++ sg :: post ∧
    filter (λ sg, loadable sg = true) post = rest ∧ etb_segment e = Z.of_nat (length pre) ∧
    pos < sg_offset sg + sg_filesz sg ∧ (sg_offset sg < pos → etb_segment_offset e = pos - sg_offset sg) ∧
    let st := written done_ sg (Z.max 0 (pos - sg_offset sg)) in etb_paddr e = st.1 ∧ holds st.2 o.

(** The end of the table: the current segment is the one behind the last. *)
Definition ended (e : elf_to_bin_t) : Prop :=
  ready e ∧ etb_segment e = Z.of_nat (length segs) ∧ phoff + pht_size <= etb_ipos e.

(** How a step ends: with an error of the output, with everything written, or further on. *)
Definition consumed (pos n : Z) (at_ : Z → elf_to_bin_t → Out → Prop) (x : res (Z * elf_to_bin_t * Out)) : Prop :=
  ∃ r e o, x = Ret (r, e, o) ∧ (r < 0 ∨ r = 0 ∧ holds (flat F start loads) o ∧ ended e ∨
    1 <= r <= n ∧ at_ (pos + r) (set_ipos (u32 (etb_ipos e + r)) e) o).

Lemma ready_same e e' : etb_hdr e' = etb_hdr e → etb_pht e' = etb_pht e → etb_paddr_end e' = etb_paddr_end e →
  ready e → ready e'.
Proof. intros E1 E2 E3 [H1 H2 H3]. split; congruence. Qed.

(** Behind a segment: the next one, or the end. *)
Lemma next_segment e o done_ sg rest pre post pos : ready e → phoff + pht_size <= etb_ipos e <= pos →
  loads = done_ ++ sg :: rest → segs = pre ++ sg :: post → filter (λ sg, loadable sg = true) post = rest →
  etb_segment e = Z.of_nat (length pre) → pos = sg_offset sg + sg_filesz sg →
  (let st := written done_ sg (sg_filesz sg) in etb_paddr e = st.1 ∧ holds st.2 o) →
  ∃ r e', skip_segments (set_segment (etb_segment e + 1) e) = Ret (r, e') ∧ etb_ipos e' = etb_ipos e ∧
    (r = 0 ∧ holds (flat F start loads) o ∧ ended e' ∨
     r = 1 ∧ ∀ so, at_seg pos (set_ipos pos (set_segment_offset so e')) o).
Proof.
  intros He [Hi0 Hi] El Es Ep Ei Epos Hst. assert (phoff + pht_size <= pos) by lia. destruct HF as [_ _ _ _ _ _ _ Hfew _ _ _ _ _ Hord].
  rewrite El in Hord. apply ordered_mid in Hord as (_ & _ & _ & _ & Hrest).
  set (e1 := set_segment (etb_segment e + 1) e).
  assert (ready e1) as He1 by by apply (ready_same e).
  pose proof (skip_loop_ok post (Z.to_nat 65537) e1 (pre ++ [sg]) He1) as Hsk. fold (skip_segments e1) in Hsk. rewrite Ep in Hsk.
  assert (segs = (pre ++ [sg]) ++ post) as Es' by by rewrite <- app_assoc.
  specialize (Hsk Es'). cbn [e1 set_segment etb_segment] in Hsk. fold e1 in Hsk.
  specialize (Hsk ltac:(rewrite length_app; cbn; lia) ltac:(rewrite Es, length_app in Hfew; cbn in Hfew; lia)).
  destruct rest as [|sg2 rest].
  - exists 0. eexists. split; [exact Hsk|]. split; [done|]. left. split; [done|].
    split; [|by split; [apply (ready_same e)|]].
    unfold flat. rewrite El. unfold flat_from. rewrite foldl_app. cbn. apply Hst.
  - cbn in Hrest. destruct Hrest as (Ho2 & Hf2 & _ & _ & _).
    destruct Hsk as (pre2 & post2 & E2 & Ep2 & Esk); [cbn; lia|].
    exists 1. eexists. split; [exact Esk|]. split; [done|]. right. split; [done|]. intros so.
    split; [by apply (ready_same e)|]. split; [done|]. split; [lia|].
    exists (done_ ++ [sg]), sg2, rest, pre2, post2. split_and!; try done; [by rewrite El, <- app_assoc|lia|lia|..].
    all: replace (Z.max 0 (pos - sg_offset sg2)) with 0 by lia; unfold written; cbn [sub Z.to_nat take emit];
      unfold flat_from; rewrite foldl_app; apply Hst.
Qed.

Lemma consume_segment_ok pos n e o : at_seg pos e o → 0 < n → pos + n <= Z.of_nat (length F) →
  consumed pos n at_seg (consume_segment stream_write e (sub F pos n) o).
Proof.
  intros (He & Ei & Hpos & done_ & sg & rest & pre & post & El & Es & Ep & Esg & Hlt & Hso & Hst) Hn Hle.
  pose proof (ef_len HF) as Hlen. pose proof (ef_order HF) as Hord. pose proof file_long as [_ Hps].
  pose proof (ef_start HF) as Hph. rewrite El in Hord.
  apply ordered_mid in Hord as (Hoff & Hfs & Hpa & Hpf & Hrest). apply ordered_le in Hrest as Hend.
  destruct (ready_segment e (length pre) sg He Esg) as (_ & Eo & Epa & Efs); [by rewrite Es, list_lookup_middle|].
  assert (length (sub F pos n) = Z.to_nat n) as Ln by (apply sub_length; lia).
  unfold consume_segment. rewrite Eo. cbn [mbind res_bind]. rewrite Ei, Ln, Z2Nat.id by lia.
  destruct (pos <? sg_offset sg) eqn:E; bool_to_prop.
  { set (r := Z.min n _). assert (1 <= r <= n ∧ r <= sg_offset sg - pos) as [Hr1 Hr2] by (unfold r; lia). clearbody r.
    exists r, e, o. split; [done|]. right. right. split; [lia|]. rewrite Ei, u32_id by (unfold is_u32; lia).
    split; [by apply (ready_same e)|]. split; [done|]. split; [lia|].
    exists done_, sg, rest, pre, post. split_and!; try done; [lia|lia|..].
    all: replace (Z.max 0 (pos + r - sg_offset sg)) with (Z.max 0 (pos - sg_offset sg)) by lia; apply Hst. }
  set (e1 := if _ =? _ then _ else e).
  assert (ready e1 ∧ etb_segment e1 = etb_segment e ∧ etb_ipos e1 = pos ∧ etb_paddr e1 = etb_paddr e ∧
    etb_segment_offset e1 = pos - sg_offset sg) as (He1 & Esg1 & Ei1 & Epa1 & Eso1).
  { unfold e1. case_match eqn:E1; bool_to_prop; cbn.
    - split_and!; try done; [by apply (ready_same e)|lia].
    - split_and!; try done. apply Hso. lia. }
  destruct (ready_segment e1 (length pre) sg He1) as (_ & _ & -> & ->); [by rewrite Esg1|by rewrite Es, list_lookup_middle|].
  cbn [mbind res_bind]. rewrite Ei1, Eso1. rewrite (u32_id (sg_offset sg + sg_filesz sg)) by (unfold is_u32; lia).
  rewrite (u32_id (sg_offset sg + sg_filesz sg - pos)) by (unfold is_u32; lia).
  rewrite (u32_id (sg_paddr sg + (pos - sg_offset sg))) by (unfold is_u32; lia).
  set (chunk := Z.min n _). assert (0 < chunk <= n ∧ chunk <= sg_offset sg + sg_filesz sg - pos) as [Hch Hch2]
    by (unfold chunk; lia).
  rewrite <- (sub_prefix F pos n chunk) by lia.
  set (c := pos - sg_offset sg) in *. cbv zeta in Hst. rewrite Z.max_r in Hst by lia. destruct Hst as [Hpd Hho].
  assert (length (sub F pos chunk) = Z.to_nat chunk) as Lc by (apply sub_length; lia).
  pose proof (written_more done_ sg c chunk ltac:(lia) ltac:(lia) ltac:(lia) ltac:(lia)) as Hwm.
  replace (sg_offset sg + c) with pos in Hwm by lia.
  destruct (output_ok e1 (sg_paddr sg + c) (sub F pos chunk) o (written done_ sg c)) as (r & e2 & o2 & -> & Hout).
  { congruence. } { done. } { intros E1. rewrite E1 in Lc. cbn in Lc. lia. }
  { unfold sub. by apply Forall_take, Forall_drop. }
  { apply emit_pos, flat_from_pos. done. } { lia. } { rewrite Lc. lia. }
  { rewrite Hwm. apply (written_room done_ sg rest); (done || lia). }
  rewrite Hwm in Hout. cbn [mbind res_bind]. destruct Hout as [Hr|(-> & -> & Ho2)].
  { rewrite (proj2 (Z.ltb_lt _ _)) by lia. exists r, e2, o2. auto. }
  change (1 <? 1) with false. cbn iota. cbn [etb_ipos set_paddr etb_segment]. rewrite Ei1, u32_id by (unfold is_u32; lia).
  destruct (pos + chunk =? sg_offset sg + sg_filesz sg) eqn:E2; bool_to_prop.
  - destruct (next_segment (set_paddr (written done_ sg (c + chunk)).1 e1) o2 done_ sg rest pre post (pos + chunk))
      as (r & e3 & Esk & Ei3 & Hsk); try done.
    { by apply (ready_same e1). } { cbn. lia. } { cbn. congruence. }
    { replace (sg_filesz sg) with (c + chunk) by lia. done. }
    cbn [etb_segment set_paddr] in Esk. rewrite Esk. cbn [mbind res_bind].
    destruct Hsk as [[-> Hfl]|[-> Hat]].
    + exists 0, e3, o2. split; [done|]. auto.
    + exists chunk. eexists _, o2. split; [done|]. right. right. split; [lia|].
      cbn [etb_ipos set_segment_offset]. rewrite Ei3. cbn [etb_ipos set_paddr]. rewrite Ei1, u32_id by (unfold is_u32; lia).
      apply Hat.
  - cbn [mbind res_bind]. change (1 <? 1) with false. cbn iota.
    exists chunk. eexists _, o2. split; [done|]. right. right. split; [lia|].
    cbn [etb_ipos set_segment_offset set_paddr etb_segment_offset]. rewrite Ei1, u32_id by (unfold is_u32; lia).
    split; [by apply (ready_same e1)|]. split; [done|]. split; [lia|].
    exists done_, sg, rest, pre, post. split_and!; try done; [cbn; congruence|lia| |..].
    + intros _. cbn. rewrite Eso1, u32_id by (unfold is_u32; lia). lia.
    + rewrite Z.max_r by lia. replace (pos + chunk - sg_offset sg) with (c + chunk) by lia. done.
Qed.

(** Before the segments: what has come of the header and of the table is in place. *)
Definition at_front (pos : Z) (e : elf_to_bin_t) (o : Out) : Prop :=
  0 <= pos < phoff + pht_size ∧ etb_ipos e = pos ∧ etb_segment e = 0 ∧ etb_paddr e = start ∧
  etb_paddr_end e = paddr_end ∧ holds [] o ∧ length (etb_hdr e) = 52%nat ∧
  sub (etb_hdr e) 0 (Z.min pos 52) = sub F 0 (Z.min pos 52) ∧
  match etb_pht e with
  | None => pos <= phoff
  | Some t => phoff < pos ∧ Z.of_nat (length t) = pht_size ∧ sub t 0 (pos - phoff) = sub F phoff (pos - phoff)
  end.

Definition at_pos (pos : Z) (e : elf_to_bin_t) (o : Out) : Prop := at_front pos e o ∨ at_seg pos e o.

(** Bytes of the file at the place where they belong. *)
Lemma wr_file m a pos n : 0 <= a → 0 <= pos → 0 < n → pos + n <= Z.of_nat (length m) → a + pos + n <= Z.of_nat (length F) →
  sub m 0 pos = sub F a pos →
  ∃ m', wr m pos (sub F (a + pos) n) = Ret m' ∧ length m' = length m ∧ sub m' 0 (pos + n) = sub F a (pos + n).
Proof.
  intros Ha Hp Hn Hm Hf Hs. assert (length (sub F (a + pos) n) = Z.to_nat n) as Ln by (apply sub_length; lia).
  destruct (wr m pos (sub F (a + pos) n)) as [m'|] eqn:E; [|rewrite wr_ok in E by lia; done].
  exists m'. split; [done|]. split; [by eapply wr_length|].
  rewrite !sub_split by lia. f_equal.
  - rewrite <- Hs. eapply sub_wr_apart; [exact E|lia..].
  - apply sub_wr_same in E. rewrite Ln, Z2Nat.id in E by lia. done.
Qed.

Lemma sub_whole (m : list Z) n : Z.of_nat (length m) = n → sub m 0 n = m.
Proof. intros <-. apply sub_all. Qed.

Lemma elf_hdr_fields (h : list Z) : h = sub F 0 52 → Elf.rd32 h 0 = Ret 1179403647 ∧ rd16 h 16 = Ret 2 ∧ rd16 h 18 = Ret 40 ∧
  Elf.rd32 h 28 = Ret phoff ∧ rd16 h 42 = Ret entsize ∧ rd16 h 44 = Ret (Z.of_nat (length segs)).
Proof.
  intros ->. destruct file_long, HF. rewrite !rd32_sub, !rd16_sub by lia. rewrite !Z.add_0_l. split_and!; assumption.
Qed.

Lemma consume_header_ok pos n e o : at_front pos e o → pos < 52 → 0 < n → pos + n <= Z.of_nat (length F) →
  consumed pos n at_pos (consume_header e (sub F pos n) o).
Proof.
  intros (Hpos & Ei & Esg & Epa & Eend & Ho & Hl & Hs & Hpht) H52 Hn Hle. pose proof file_long as [Hfl Hps].
  pose proof (ef_start HF) as Hst. pose proof (ef_len HF) as Hlen.
  assert (length (sub F pos n) = Z.to_nat n) as Ln by (apply sub_length; lia).
  unfold consume_header, SIZEOF_ELF32HDR. rewrite Ei, Ln, Z2Nat.id by lia.
  set (c := Z.min n _). assert (0 < c <= n ∧ c <= 52 - pos) as [Hc1 Hc2] by (unfold c; lia).
  rewrite <- (sub_prefix F pos n c) by lia. rewrite Z.min_l in Hs by lia.
  destruct (wr_file (etb_hdr e) 0 pos c) as (h & Ew & Lh & Hh); [lia..|done|]. rewrite Z.add_0_l in Ew. rewrite Ew.
  cbn [mbind res_bind]. cbn [etb_ipos set_hdr]. rewrite Ei.
  assert (at_pos (pos + c) (set_ipos (pos + c) (set_hdr h e)) o) as Hat.
  { left. unfold at_front. cbn. rewrite Z.min_l by lia. split_and!; try done; try lia.
    revert Hpht. destruct (etb_pht e); [intros (? & _); exfalso|]; lia. }
  assert (consumed pos n at_pos (Ret (c, set_hdr h e, o))) as Hdone.
  { exists c, (set_hdr h e), o. split; [done|]. right. right. split; [lia|]. cbn [etb_ipos set_hdr].
    rewrite Ei, u32_id by (unfold is_u32; lia). done. }
  destruct (pos + c =? 52) eqn:E; bool_to_prop; [|done].
  destruct (elf_hdr_fields h) as (-> & -> & -> & _); [|done].
  rewrite E in Hh. rewrite sub_whole in Hh by lia. done.
Qed.

Lemma consume_pht_ok pos n e o : at_front pos e o → phoff <= pos → 0 < n → pos + n <= Z.of_nat (length F) →
  consumed pos n at_pos (consume_pht true e phoff (phoff + pht_size) (sub F pos n) o).
Proof.
  intros (Hpos & Ei & Esg & Epa & Eend & Ho & Hl & Hs & Hpht) Hph Hn Hle. pose proof file_long as [Hfl Hps].
  pose proof (ef_start HF) as Hst. pose proof (ef_len HF) as Hlen. pose proof (ef_table HF) as Htab.
  assert (length (sub F pos n) = Z.to_nat n) as Ln by (apply sub_length; lia).
  unfold consume_pht. rewrite Ei, Ln, Z2Nat.id by lia.
  set (c := Z.min n _). assert (0 < c <= n ∧ c <= phoff + pht_size - pos) as [Hc1 Hc2] by (unfold c; lia).
  rewrite <- (sub_prefix F pos n c) by lia. rewrite Z.min_r in Hs by lia.
  rewrite (sub_whole (etb_hdr e)) in Hs by lia.
  assert (∃ t, (match etb_pht e with
         | Some pht => Some pht
         | None => Some (replicate (Z.to_nat (phoff + pht_size - phoff)) 0)
         end) = Some t ∧ Z.of_nat (length t) = pht_size ∧ sub t 0 (pos - phoff) = sub F phoff (pos - phoff))
    as (t & -> & Lt & Ht).
  { destruct (etb_pht e) as [t|]; [exists t; by destruct Hpht as (_ & ? & ?)|].
    eexists. split; [done|]. rewrite length_replicate. split; [lia|]. replace (pos - phoff) with 0 by lia. done. }
  destruct (wr_file t phoff (pos - phoff) c) as (t' & Ew & Lt' & Ht'); [lia..|done|].
  replace (phoff + (pos - phoff)) with pos in Ew by lia. rewrite Ew. cbn [mbind res_bind]. cbn [etb_ipos set_pht]. rewrite Ei.
  set (e1 := set_pht (Some t') e). destruct (pos + c =? phoff + pht_size) eqn:E; bool_to_prop.
  - assert (ready e1) as He1.
    { split; cbn; [done| |done]. f_equal. replace (pos - phoff + c) with pht_size in Ht' by lia.
      by rewrite sub_whole in Ht' by lia. }
    pose proof (skip_loop_ok segs (Z.to_nat 65537) e1 [] He1 eq_refl Esg) as Hsk.
    fold loads in Hsk. pose proof (ef_few HF). pose proof (ef_loads HF) as Hne. pose proof (ef_order HF) as Hord.
    specialize (Hsk ltac:(lia)). destruct loads as [|sg rest] eqn:El; [done|]. cbn in Hord.
    destruct Hsk as (pre & post & Es & Ep & Esk); [cbn; lia|].
    unfold skip_segments. rewrite Esk. cbn [mbind res_bind]. change (1 <? 1) with false. cbn iota.
    exists c. eexists _, o. split; [done|]. right. right. split; [lia|]. cbn [etb_ipos set_segment set_pht e1].
    rewrite Ei, u32_id by (unfold is_u32; lia). right. split; [by apply (ready_same e1)|]. split; [done|]. split; [lia|].
    exists [], sg, rest, pre, post. split_and!; try done; [lia|lia|..].
    all: rewrite Z.max_l by lia; done.
  - exists c, e1, o. split; [done|]. right. right. split; [lia|]. cbn [etb_ipos set_pht e1].
    rewrite Ei, u32_id by (unfold is_u32; lia). left. unfold at_front. cbn. rewrite Z.min_r by lia.
    rewrite (sub_whole (etb_hdr e)) by lia. split_and!; try done; try lia.
    replace (pos + c - phoff) with (pos - phoff + c) by lia. done.
Qed.

Lemma consume_ok pos n e o : at_pos pos e o → 0 < n → pos + n <= Z.of_nat (length F) →
  consumed pos n at_pos (etb_consume_partial stream_write true e (sub F pos n) o).
Proof.
  intros [Hfr|Hsg] Hn Hle; unfold etb_consume_partial, SIZEOF_ELF32HDR; pose proof file_long as [Hfl Hps];
    pose proof (ef_len HF); pose proof (ef_table HF); pose proof (ef_start HF).
  - pose proof Hfr as (Hpos & Ei & Esg & Epa & Eend & Ho & Hl & Hs & Hpht). rewrite Ei.
    destruct (pos <? 52) eqn:E; bool_to_prop; [by apply consume_header_ok|].
    rewrite Z.min_r, (sub_whole (etb_hdr e)) in Hs by lia. destruct (elf_hdr_fields (etb_hdr e) Hs) as (_ & _ & _ & -> & -> & ->).
    cbn [mbind res_bind]. destruct (pos <? phoff) eqn:E2; bool_to_prop.
    + assert (length (sub F pos n) = Z.to_nat n) as -> by (apply sub_length; lia). rewrite Z2Nat.id by lia.
      set (c := Z.min n _). assert (1 <= c <= n ∧ c <= phoff - pos) as [Hc1 Hc2] by (unfold c; lia).
      exists c, e, o. split; [done|]. right. right. split; [lia|]. rewrite Ei, u32_id by (unfold is_u32; lia).
      left. unfold at_front. cbn. rewrite Z.min_r, (sub_whole (etb_hdr e)) by lia. split_and!; try done; try lia.
      revert Hpht. destruct (etb_pht e); [intros (? & _); exfalso|]; lia.
    + fold pht_size. rewrite u32_id by (unfold is_u32; lia). rewrite (proj2 (Z.ltb_lt _ _)) by lia.
      by apply consume_pht_ok.
  - pose proof Hsg as (He & Ei & Hpos & _). rewrite Ei. rewrite (proj2 (Z.ltb_ge _ _)) by lia.
    destruct (elf_hdr_fields (etb_hdr e) (rdy_hdr _ He)) as (_ & _ & _ & -> & -> & ->). cbn [mbind res_bind].
    rewrite (proj2 (Z.ltb_ge _ _)) by lia. fold pht_size. rewrite u32_id by (unfold is_u32; lia).
    rewrite (proj2 (Z.ltb_ge _ _)) by lia.
    destruct (consume_segment_ok pos n e o Hsg Hn Hle) as (r & e' & o' & E & Hc). exists r, e', o'. split; [done|].
    destruct Hc as [?|[?|[? ?]]]; [by left|by right; left|right; right]. split; [done|by right].
Qed.

Lemma etb_push_ok fuel : ∀ pos n e o, at_pos pos e o → 0 <= n < Z.of_nat fuel → pos + n <= Z.of_nat (length F) →
  ∃ r e' o', etb_push stream_write true fuel e (sub F pos n) o = Ret (r, e', o') ∧
    (r < 0 ∨ r = 0 ∧ holds (flat F start loads) o' ∧ ended e' ∨ r = 1 ∧ at_pos (pos + n) e' o').
Proof.
  induction fuel as [|fuel IH]; intros pos n e o Hat Hn Hle; [lia|]. cbn [etb_push].
  assert (0 <= pos) as Hp0 by (destruct Hat as [(? & _)|(_ & _ & ? & _)]; [lia|destruct file_long; pose proof (ef_start HF); lia]).
  assert (length (sub F pos n) = Z.to_nat n) as Ln by (apply sub_length; lia).
  destruct (sub F pos n) as [|x l] eqn:Ed.
  { exists 1, e, o. split; [done|]. right. right. cbn in Ln. by replace (pos + n) with pos by lia. }
  assert (0 < n) by (cbn in Ln; lia). rewrite <- Ed.
  destruct (consume_ok pos n e o Hat) as (r & e1 & o1 & -> & Hc); [lia|lia|]. cbn [mbind res_bind].
  destruct Hc as [Hr|[[-> Hfl]|[Hr Hat1]]].
  - rewrite (proj2 (Z.ltb_lt _ _)) by lia. exists r, e1, o1. auto.
  - exists 0, e1, o1. auto.
  - rewrite (proj2 (Z.ltb_ge _ _)) by lia. rewrite <- sub_suffix by lia.
    destruct (IH (pos + r) (n - r) _ o1 Hat1) as (r2 & e2 & o2 & -> & H2); [lia|lia|].
    exists r2, e2, o2. split; [done|]. by replace (pos + r + (n - r)) with (pos + n) in H2 by lia.
Qed.

(** The writer: it gives the stream pieces, one call for each; the results. *)
Fixpoint etb_writes (ds : list (list Z)) (e : elf_to_bin_t) (o : Out) : res (list Z * elf_to_bin_t * Out) :=
  match ds with
  | [] => Ret ([], e, o)
  | d :: ds =>
      '(r, e, o) ← etb_write stream_write true e (Some d) o;
      '(rs, e, o) ← etb_writes ds e o;
      Ret (r :: rs, e, o)
  end.

Definition taken (ds : list (list Z)) : list Z := (λ d, Z.of_nat (length d)) <$> ds.

(** A call behind the end looks up a segment behind the table. *)
Lemma write_ended e d o : ended e → d ≠ [] → etb_write stream_write true e (Some d) o = Fault OutOfBounds.
Proof.
  intros (He & Es & Hi) Hd. pose proof file_long as [Hfl Hps]. pose proof (ef_len HF). pose proof (ef_table HF).
  pose proof (ef_start HF). pose proof (ef_entry HF). cbn [etb_write etb_push]. destruct d as [|x d]; [done|].
  unfold etb_consume_partial, SIZEOF_ELF32HDR. rewrite (proj2 (Z.ltb_ge _ _)) by lia.
  destruct (elf_hdr_fields (etb_hdr e) (rdy_hdr _ He)) as (_ & _ & _ & E1 & E2 & E3). rewrite E1, E2, E3.
  cbn [mbind res_bind]. rewrite (proj2 (Z.ltb_ge _ phoff)) by lia. fold pht_size.
  rewrite u32_id by (unfold is_u32; lia). rewrite (proj2 (Z.ltb_ge _ _)) by lia.
  unfold consume_segment, current_segment. rewrite (rdy_pht _ He), E2. cbn [mbind res_bind]. rewrite Es.
  unfold Elf.rd32. rewrite rd_oob; [done|]. rewrite sub_length by lia. unfold pht_size, p_offset in *. lia.
Qed.

(** The flush at the end returns. *)
Definition flushes : Prop :=
  ∀ D o, holds D o → ∃ r o', stream_write None o = Ret (r, o') ∧ r < 1.
Context (HFl : flushes).

Lemma at_end e o : ¬ at_pos (Z.of_nat (length F)) e o.
Proof.
  intros [(? & _)|(_ & _ & _ & done_ & sg & rest & pre & post & El & _ & _ & _ & Hlt & _)].
  - pose proof (ef_table HF). lia.
  - pose proof (ef_order HF) as Hord. rewrite El in Hord.
    apply ordered_mid in Hord as (_ & _ & _ & _ & Hrest%ordered_le). lia.
Qed.

(** The calls up to the one that ends: each takes its piece, the last one reports an
    error or the end, with everything written. *)
Lemma etb_writes_ok ds : ∀ pos e o, at_pos pos e o → Forall (λ d, d ≠ []) ds → 0 <= pos →
  concat ds = sub F pos (Z.of_nat (length F) - pos) → pos <= Z.of_nat (length F) →
  ∃ done_ d rest r e' o', ds = done_ ++ d :: rest ∧
    etb_writes (done_ ++ [d]) e o = Ret (taken done_ ++ [r], e', o') ∧ r < 1 ∧
    (r < 0 ∨ (∃ o1, holds (flat F start loads) o1 ∧ stream_write None o1 = Ret (r, o')) ∧ ended e').
Proof.
  induction ds as [|d ds IH]; intros pos e o Hat Hds Hp0 Hc Hple; cbn [concat] in *.
  { exfalso. apply (f_equal length) in Hc. rewrite sub_length in Hc by lia. cbn in Hc.
    replace pos with (Z.of_nat (length F)) in Hat by lia. by apply at_end in Hat. }
  apply Forall_cons_1 in Hds as [Hd Hds].
  set (n := Z.of_nat (length d)). assert (0 < n) by (unfold n; destruct d; cbn; [done|lia]).
  assert (pos + n <= Z.of_nat (length F)) as Hle.
  { apply (f_equal length) in Hc. rewrite sub_length, length_app in Hc by lia. lia. }
  assert (d = sub F pos n ∧ concat ds = sub F (pos + n) (Z.of_nat (length F) - (pos + n))) as [Ed Hc'].
  { replace (Z.of_nat (length F) - pos) with (n + (Z.of_nat (length F) - (pos + n))) in Hc by lia.
    rewrite sub_split in Hc by lia. apply app_inj_1 in Hc; [done|]. rewrite sub_length by lia. lia. }
  destruct (etb_push_ok (S (length d)) pos n e o Hat) as (r & e1 & o1 & Ep & Hr); [lia|lia|]. rewrite <- Ed in Ep.
  assert (∀ r2 o2, (if r =? 0 then '(r, o) ← stream_write None o1; Ret (r, e1, o)
       else Ret (if r =? 1 then n else r, e1, o1)) = Ret (r2, e1, o2) →
    etb_write stream_write true e (Some d) o = Ret (r2, e1, o2)) as Hw.
  { intros r2 o2 <-. unfold etb_write. by rewrite Ep. }
  destruct Hr as [Hr|[(-> & Hfl & Hend)|[-> Hat1]]].
  - rewrite (proj2 (Z.eqb_neq r 0)), (proj2 (Z.eqb_neq r 1)) in Hw by lia.
    exists [], d, ds, r, e1, o1. cbn [app etb_writes taken fmap list_fmap]. rewrite (Hw _ _ eq_refl).
    split_and!; [done|done|lia|by left].
  - cbn [Z.eqb] in Hw. destruct (HFl _ _ Hfl) as (r & o2 & Ef & Hr). rewrite Ef in Hw. cbn [mbind res_bind] in Hw.
    exists [], d, ds, r, e1, o2. cbn [app etb_writes taken fmap list_fmap]. rewrite (Hw _ _ eq_refl).
    split_and!; [done|done|lia|]. right. split; [by exists o1|done].
  - specialize (Hw n o1 eq_refl).
    destruct (IH (pos + n) e1 o1) as (done_ & d' & rest & r & e' & o' & -> & Es & Hr & Hres); try done; [lia|].
    exists (d :: done_), d', rest, r, e', o'. cbn [app etb_writes]. rewrite Hw. cbn [mbind res_bind]. rewrite Es. done.
Qed.

Lemma elf_start o e : elf_to_bin true start paddr_end = Some e → holds [] o → at_pos 0 e o.
Proof.
  intros [= <-] Ho. left. pose proof file_long. pose proof (ef_start HF). split_and!; try done; cbn; lia.
Qed.
End Output.
End File.

(** ** The image of the host *)

Section Host.
Context (F : list Z) (phoff entsize : Z) (segs : list segment) (paddr_end : Z).
Context (HF : elf_file F phoff entsize segs paddr_end).
Abbreviation ld := (loads segs paddr_end).

(** Everything with bytes in the file is loaded, in the order of the addresses, and no
    segment lies across the start of the image. *)
Fixpoint ascending (start pa : Z) (l : list segment) : Prop :=
  match l with
  | [] => True
  | sg :: l => pa <= sg_paddr sg ∧ (sg_paddr sg + sg_filesz sg <= start ∨ start <= sg_paddr sg) ∧
      ascending start (sg_paddr sg + sg_filesz sg) l
  end.
Definition in_file (sg : segment) : Prop :=
  0 <= sg_offset sg ∧ sg_offset sg + sg_filesz sg <= Z.of_nat (length F) ∧ 0 < sg_filesz sg ∧ 0 <= sg_paddr sg ∧
  sg_paddr sg + sg_filesz sg < 2 ^ 32.
Definition all_loaded : Prop := Forall (λ sg, sg_filesz sg = 0 ∨ loadable paddr_end sg = true) segs.

Lemma phdr32 i sg : segs !! i = Some sg →
  phdr elf32 F (Z.of_nat i) (ph_filesz elf32) = Ret (sg_filesz sg) ∧
  phdr elf32 F (Z.of_nat i) (ph_paddr elf32) = Ret (sg_paddr sg) ∧
  phdr elf32 F (Z.of_nat i) (ph_offset elf32) = Ret (sg_offset sg).
Proof.
  intros Hi. destruct HF as [_ _ _ _ Hp He _ _ _ _ _ Hs _ _]. destruct (Hs i sg Hi) as (_ & T2 & T3 & T4).
  unfold phdr, word. cbn [l_word elf32 eh_phoff eh_phentsize ph_filesz ph_paddr ph_offset Z.eqb Pos.eqb].
  rewrite Hp, He. cbn [mbind res_bind]. done.
Qed.

(** The image as far as it is filled. *)
Definition host_at (start size : Z) (st : Z * list Z) (image : list Z) : Prop :=
  start <= st.1 ∧ Z.of_nat (length st.2) = st.1 - start ∧ st.1 - start <= size ∧
  image = st.2 ++ replicate (Z.to_nat (size - (st.1 - start))) 255.

Lemma host_store start size st image p d : host_at start size st image → 0 < Z.of_nat (length d) → st.1 <= p →
  p + Z.of_nat (length d) - start <= size →
  ∃ image', wr image (p - start) d = Ret image' ∧ host_at start size (emit st p d) image'.
Proof.
  intros (H1 & H2 & H3 & ->) Hd Hp Hs. destruct st as [pa out]. cbn [fst snd] in *.
  assert (emit (pa, out) p d = (p + Z.of_nat (length d), out ++ replicate (Z.to_nat (p - pa)) 255 ++ d)) as Ee.
  { rewrite emit_eq by (intros ->; cbn in Hd; lia). cbn [fst snd].
    rewrite (proj2 (Z.leb_gt _ _)) by lia. f_equal. replace (Z.to_nat (Z.max pa p - p)) with 0%nat by lia.
    by rewrite <- app_assoc. }
  rewrite Ee. set (tl := size - (p + Z.of_nat (length d) - start)).
  replace (Z.to_nat (size - (pa - start))) with (Z.to_nat (p - pa) + (length d + Z.to_nat tl))%nat by lia.
  rewrite !replicate_add, (app_assoc out). rewrite wr_at.
  - eexists. split; [done|]. split_and!; cbn [fst snd]; [lia|rewrite !length_app, length_replicate; lia|lia|].
    by rewrite <- !app_assoc.
  - rewrite length_app, length_replicate. lia.
  - by rewrite length_replicate.
Qed.

Lemma all_loaded_mid pre sg q : segs = pre ++ sg :: q → all_loaded → sg_filesz sg = 0 ∨ loadable paddr_end sg = true.
Proof. unfold all_loaded. intros -> [_ H]%Forall_app. by apply Forall_cons_1 in H as [? _]. Qed.

Lemma image_copy_ok start size q : ∀ pre st image, segs = pre ++ q → all_loaded →
  host_at start size st image → 0 <= start →
  Forall (λ sg, in_file sg ∧ sg_paddr sg + sg_filesz sg <= start + size)
    (filter (λ sg, loadable paddr_end sg = true) q) →
  (∃ pa, st.1 = Z.max start pa ∧ ascending start pa (filter (λ sg, loadable paddr_end sg = true) q)) →
  ∃ image', copy_loop elf32 F (length q) (Z.of_nat (length pre)) start image = Ret image' ∧
    host_at start size (flat_from F st (filter (λ sg, loadable paddr_end sg = true) q)) image'.
Proof.
  induction q as [|sg q IH]; intros pre st image Es Hall Hat Hs0 Hq Hasc; cbn [length copy_loop].
  { exists image. by split. }
  destruct (phdr32 (length pre) sg) as (Efs & Epa & Eo); [by rewrite Es, list_lookup_middle|].
  rewrite Epa, Efs. cbn [mbind res_bind]. rewrite filter_cons in Hq.
  replace (Z.of_nat (length pre) + 1) with (Z.of_nat (length (pre ++ [sg]))) by (rewrite length_app; cbn; lia).
  assert (sg_filesz sg = 0 ∨ loadable paddr_end sg = true) as Hld by (by apply (all_loaded_mid pre _ q)).
  assert (segs = (pre ++ [sg]) ++ q) as Es' by by rewrite <- app_assoc.
  destruct Hasc as (pa & Est & Hasc). rewrite filter_cons in Hasc |- *.
  destruct (decide (loadable paddr_end sg = true)) as [El|El].
  - apply Forall_cons_1 in Hq as [((Ho & Hof & Hfs & Hpa & H32) & Hfit) Hq]. destruct Hasc as (Hp & Hside & Hasc).
    assert (length (seg_data F sg) = Z.to_nat (sg_filesz sg)) as Ld by (apply sub_length; lia).
    assert (seg_data F sg ≠ []) as Hne by (intros E; rewrite E in Ld; cbn in Ld; lia).
    unfold wrap. cbn [l_word elf32]. rewrite (Z.mod_small (_ + _)) by lia.
    destruct Hside as [Hlow|Hhigh].
    + rewrite (proj2 (Z.ltb_lt (sg_paddr sg) start)) by lia. cbn [orb].
      cbn [flat_from foldl]. fold (flat_from F (emit st (sg_paddr sg) (seg_data F sg)) (filter (λ sg, loadable paddr_end sg = true) q)).
      destruct Hat as (H1 & H2 & H3 & H4).
      assert (emit st (sg_paddr sg) (seg_data F sg) = st) as ->.
      { rewrite emit_eq, Ld, Z2Nat.id by (lia || done). cbv zeta.
        replace (Z.max st.1 (sg_paddr sg)) with st.1 by lia. rewrite (proj2 (Z.leb_le _ _)) by lia.
        replace (Z.to_nat (sg_paddr sg - st.1)) with 0%nat by lia. cbn [replicate]. rewrite app_nil_r. by destruct st. }
      apply IH; try done. exists (sg_paddr sg + sg_filesz sg). split; [lia|done].
    + rewrite !(proj2 (Z.ltb_ge _ _)) by lia. cbn [orb]. rewrite (proj2 (Z.eqb_neq _ _)), Eo by lia. cbn [mbind res_bind].
      rewrite rd_ret by lia. cbn [mbind res_bind]. fold (seg_data F sg).
      destruct (host_store start size st image (sg_paddr sg) (seg_data F sg)) as (image1 & -> & Hat1); [done|lia|lia|lia|].
      cbn [mbind res_bind]. apply IH; try done. exists (sg_paddr sg + sg_filesz sg). split; [|done].
      rewrite emit_eq, Ld, Z2Nat.id by (lia || done). cbv zeta.
      rewrite (proj2 (Z.leb_gt _ _)) by lia. cbn. lia.
  - destruct Hld as [Hz|?]; [|done].
    assert (copy_loop elf32 F (length q) (Z.of_nat (length (pre ++ [sg]))) start image =
      if ((sg_paddr sg <? start) || (wrap elf32 (sg_paddr sg + sg_filesz sg) <? start))%bool
      then copy_loop elf32 F (length q) (Z.of_nat (length (pre ++ [sg]))) start image
      else image ← (if sg_filesz sg =? 0 then Ret image
                    else offset ← phdr elf32 F (Z.of_nat (length pre)) (ph_offset elf32);
                         data ← rd F offset (sg_filesz sg); wr image (sg_paddr sg - start) data);
           copy_loop elf32 F (length q) (Z.of_nat (length (pre ++ [sg]))) start image) as <-
      by (case_match; [done|]; by rewrite Hz).
    apply IH; try done. by exists pa.
Qed.

(** Where the image ends: the highest address of a segment. *)
Definition top (t : Z) (l : list segment) : Z := foldl (λ t sg, Z.max t (sg_paddr sg + sg_filesz sg)) t l.

Lemma top_max l : ∀ t u, top (Z.max t u) l = Z.max t (top u l).
Proof.
  induction l as [|sg l IH]; intros t u; [done|]. cbn. fold (top (Z.max (Z.max t u) (sg_paddr sg + sg_filesz sg)) l).
  rewrite <- Z.max_assoc. apply IH.
Qed.
Lemma top_above l : ∀ t, Forall (λ sg, sg_paddr sg + sg_filesz sg <= top t l) l ∧ t <= top t l.
Proof.
  induction l as [|sg l IH]; intros t; [split; [done|cbn; lia]|]. cbn.
  destruct (IH (Z.max t (sg_paddr sg + sg_filesz sg))) as [H1 H2]. unfold top in *. split; [|lia].
  apply Forall_cons_2; [lia|done].
Qed.

Lemma ordered_in_file l : ∀ pos, 0 <= pos → ordered F pos l → Forall in_file l.
Proof.
  induction l as [|sg l IH]; intros pos Hp Ho; [done|]. destruct Ho as (? & ? & ? & ? & Ho).
  pose proof (ordered_le F l _ Ho). apply Forall_cons_2; [unfold in_file; lia|]. by apply (IH (sg_offset sg + sg_filesz sg)); [lia|].
Qed.
Lemma loads_in_file : Forall in_file ld.
Proof.
  apply (ordered_in_file _ (phoff + pht_size entsize segs)); [|apply HF].
  pose proof (file_long F phoff entsize segs paddr_end HF). pose proof (ef_start _ _ _ _ _ HF). lia.
Qed.

Lemma flat_top l : ∀ st, Forall in_file l → (flat_from F st l).1 = top st.1 l.
Proof.
  induction l as [|sg l IH]; intros st Hl; [done|]. apply Forall_cons_1 in Hl as [(Ho & Hof & Hfs & _) Hl].
   assert (length (seg_data F sg) = Z.to_nat (sg_filesz sg)) as Ld by (apply sub_length; lia).
  change (flat_from F st (sg :: l)) with (flat_from F (emit st (sg_paddr sg) (seg_data F sg)) l).
  change (top st.1 (sg :: l)) with (top (Z.max st.1 (sg_paddr sg + sg_filesz sg)) l). rewrite (IH _ Hl). f_equal. rewrite emit_eq, Ld, Z2Nat.id by (try lia; intros E; rewrite E in Ld; cbn in Ld; lia).
  cbv zeta. case_match; bool_to_prop; cbn; lia.
Qed.

Lemma bounds_loop_ok q : ∀ pre b e, segs = pre ++ q → all_loaded → 
  Forall in_file (filter (λ sg, loadable paddr_end sg = true) q) →
  ∃ b', bounds_loop elf32 F (length q) (Z.of_nat (length pre)) b e =
    Ret (b', top e (filter (λ sg, loadable paddr_end sg = true) q)) ∧ (0 <= b → 0 <= b').
Proof.
  induction q as [|sg q IH]; intros pre b e Es Hall Hq; cbn [length bounds_loop].
  { by exists b. }
  destruct (phdr32 (length pre) sg) as (Efs & Epa & Eo); [by rewrite Es, list_lookup_middle|].
  rewrite Epa, Efs. cbn [mbind res_bind].
  replace (Z.of_nat (length pre) + 1) with (Z.of_nat (length (pre ++ [sg]))) by (rewrite length_app; cbn; lia).
  assert (sg_filesz sg = 0 ∨ loadable paddr_end sg = true) as Hld by (by apply (all_loaded_mid pre _ q)).
  assert (segs = (pre ++ [sg]) ++ q) as Es' by by rewrite <- app_assoc.
  rewrite filter_cons in Hq |- *. destruct (decide (loadable paddr_end sg = true)) as [El|El].
  - apply Forall_cons_1 in Hq as [(Ho & Hof & Hfs & Hpa & H32) Hq]. rewrite (proj2 (Z.eqb_neq _ _)) by lia.
    unfold wrap. cbn [l_word elf32]. rewrite (Z.mod_small (_ + _)) by lia.
    destruct (IH (pre ++ [sg]) (Z.min (sg_paddr sg) b) (Z.max (sg_paddr sg + sg_filesz sg) e)) as (b' & -> & Hb); try done.
    exists b'. split; [|lia]. cbn [top foldl]. by rewrite Z.max_comm.
  - destruct Hld as [->|?]; [|done]. by apply IH.
Qed.

(** The sections tell about the image, they do not change it. *)
Lemma take_section_keeps nam i mi mi' : take_section elf32 F nam i mi = Ret mi' →
  mi_image mi' = mi_image mi ∧ mi_load_addr mi' = mi_load_addr mi.
Proof.
  unfold take_section. destruct mi. intros H.
  repeat (case_match; [repeat (apply res_bind_ret in H as (? & _ & H)); injection H as <-; done|]).
  by injection H as <-.
Qed.

Lemma info_loop_keeps n : ∀ i s mi mi', info_loop elf32 F n i s mi = Ret mi' →
  mi_image mi' = mi_image mi ∧ mi_load_addr mi' = mi_load_addr mi.
Proof.
  induction n as [|n IH]; intros i s mi mi' H; cbn in H; [by injection H as <-|].
  apply res_bind_ret in H as (nam & _ & H). apply res_bind_ret in H as (mi1 & H1 & H).
  apply take_section_keeps in H1 as [<- <-]. eauto.
Qed.

Lemma image_flat skip align mi : image_from_elf elf32 F skip align = Ret (inr mi) → 0 <= align →
  all_loaded → ascending (mi_load_addr mi) 0 ld →
  ∃ pad, mi_image mi = flat F (mi_load_addr mi) ld ++ replicate (Z.to_nat pad) 255 ∧
    0 <= pad < (if align =? 0 then 64 else align) ∧
    Z.of_nat (length (mi_image mi)) mod (if align =? 0 then 64 else align) = 0.
Proof.
  intros H Hal Hall Hasc. unfold image_from_elf in H. apply res_bind_ret in H as (shstrtab & _ & H).
  cbn [eh_phnum elf32] in H. rewrite (ef_entries _ _ _ _ _ HF) in H. cbn [mbind res_bind] in H.
  apply res_bind_ret in H as (shnum & _ & H). rewrite Nat2Z.id in H.
  pose proof loads_in_file as Hin.
  destruct (bounds_loop_ok segs [] (2 ^ l_word elf32 - 1) 0) as (b & Eb & Hb); [done|done|done|].
  change (Z.of_nat (length (@nil segment))) with 0 in Eb. rewrite Eb in H. cbn [mbind res_bind] in H. fold ld in H.
  set (start := wrap elf32 (b + skip)) in *. assert (0 <= start) as Hs0 by (apply Z.mod_pos_bound; cbn; lia).
  destruct (top 0 ld <? start) eqn:Et; [done|]. bool_to_prop.
  apply res_bind_ret in H as (text & _ & H). destruct text; [done|].
  set (al := if align =? 0 then 64 else align) in *. assert (0 < al) by (unfold al; case_match; bool_to_prop; lia).
  set (size := _ / al * al) in H.
  assert (0 <= size - (top 0 ld - start) < al ∧ size mod al = 0) as [Hsz Hm].
  { unfold size. split; [|by apply Z.mod_mul; lia].
    pose proof (Z.div_mod (top 0 ld - start + al - 1) al ltac:(lia)).
    pose proof (Z.mod_pos_bound (top 0 ld - start + al - 1) al ltac:(lia)). lia. }
  apply res_bind_ret in H as (image & Ei & H). apply res_bind_ret in H as (mi' & Em & H). injection H as ->.
  apply info_loop_keeps in Em as [-> Ela]. cbn [mi_image mi_load_addr] in *. rewrite Ela in *.
  destruct (image_copy_ok start size segs [] (start, []) (replicate (Z.to_nat size) 255)) as (image' & Ei' & Hat);
    [done|done|..]; [split_and!; cbn; [lia|lia|lia|by rewrite Z.sub_diag, Z.sub_0_r]|done|..].
  { destruct (top_above ld 0) as [Hab _]. fold ld. apply Forall_and. split; [done|].
    eapply Forall_impl; [exact Hab|]. cbn. intros. lia. }
  { exists 0. split; [cbn; lia|done]. }
  change (Z.of_nat (length (@nil segment))) with 0 in Ei'. rewrite Ei in Ei'. injection Ei' as <-. fold ld in Hat.
  destruct Hat as (H1 & H2 & H3 & ->). rewrite (flat_top _ _ Hin) in *. cbn [fst] in *.
  assert (top start ld = top 0 ld) as Etop.
  { rewrite <- (Z.max_l start 0), top_max by lia. lia. }
  rewrite Etop in *. eexists (size - _). split; [done|]. split; [done|].
  rewrite length_app, length_replicate. etrans; [|exact Hm]. f_equal. lia.
Qed.
End Host.


(** ** The stream over the upgrade partition *)

Section Upgrade.
Context {W : Type} (content : W → list Z) (prog : Z → Z → Z) (bi : block_iface W) (ok : W → Prop).
Context {HD : BlockDev ok content prog bi} (b0 : Z).
Context (Hb0 : 1 <= b0) (Hbs : 16 <= block_size bi) (Hsz : num_blocks bi * block_size bi < 2 ^ 32).

Definition bto_stream (d : option (list Z)) (o : bin_to_ota_t * W) : res (Z * (bin_to_ota_t * W)) :=
  '(r, b, w) ← bto_write bi d o.1 o.2; Ret (r, (b, w)).
Definition bto_holds (D : list Z) (o : bin_to_ota_t * W) : Prop := bto_at content bi ok b0 D o.1 o.2.

Lemma bto_sink : sink bto_stream bto_holds (num_blocks bi * block_size bi - b0 * block_size bi).
Proof.
  intros D d [b w] Ho Hd HB Hroom. unfold bto_holds, bto_stream in *. cbn [fst snd bto_write] in *.
  destruct (bto_loop_ok content prog bi ok b0 Hb0 Hbs Hsz (Z.of_nat (length d)) (S (length d)) d D b w)
    as (r & b1 & w1 & -> & _ & Hr); [done|done|lia|lia|unfold fits; lia|]. cbn [mbind res_bind].
  exists r, (b1, w1). split; [done|]. destruct (decide (0 <= r)) as [H0|]; [|left; lia].
  destruct (Hr H0) as [-> ?]. right. split; [|done]. destruct d; [done|]. cbn. lia.
Qed.

Lemma bto_flushes : flushes bto_stream bto_holds.
Proof.
  intros D [b w] Ho. unfold bto_holds, bto_stream in *. cbn [fst snd] in *.
  destruct (decide (D = [])) as [->|Hne].
  - exists 0, (b, w). split; [|lia]. pose proof (ba_size _ _ _ _ _ _ _ Ho) as Es. cbn in Es. cbn [bto_write].
    by rewrite Es.
  - destruct (bto_flush_ok content prog bi ok b0 Hb0 Hbs Hsz D b w Ho Hne) as (r & b1 & w1 & -> & _ & Hr & _).
    exists r, (b1, w1). split; [done|lia].
Qed.
End Upgrade.

(** ** What the image is *)

(** The byte at the address [a]: of the segment that lies there, or 0xff. *)
Definition image_byte (F : list Z) (l : list segment) (a : Z) : Z :=
  match filter (λ sg, sg_paddr sg <= a < sg_paddr sg + sg_filesz sg) l with
  | sg :: _ => nth (Z.to_nat (sg_offset sg + (a - sg_paddr sg))) F 0
  | [] => 255
  end.

Lemma ascending_from start pa l : ascending start pa l → Forall (λ sg, 0 < sg_filesz sg) l →
  Forall (λ sg, pa <= sg_paddr sg) l.
Proof.
  intros H Hf. revert pa H. induction Hf as [|sg l Hsz Hf IH]; intros pa; [constructor|]. intros (H1 & _ & H2).
  constructor; [done|]. eapply Forall_impl; [by apply IH|]. cbn. lia.
Qed.

Lemma image_byte_gap F l a : Forall (λ sg, a < sg_paddr sg) l → image_byte F l a = 255.
Proof.
  intros H. unfold image_byte. destruct (filter _ l) as [|sg l'] eqn:E; [done|].
  assert (sg ∈ sg :: l') as Hin by by left. rewrite <- E in Hin. apply list_elem_of_filter in Hin as [Hr Hin].
  rewrite Forall_forall in H. specialize (H sg Hin). cbn in *. lia.
Qed.

(** Segments in the order of their addresses are at their addresses. *)
Lemma flat_bytes F start l : ∀ pa out,
  Forall (λ sg, 0 <= sg_offset sg ∧ sg_offset sg + sg_filesz sg <= Z.of_nat (length F) ∧ 0 < sg_filesz sg) l →
  ascending start pa l → start <= pa →
  let st := flat_from F (pa, out) l in
  pa <= st.1 ∧ st.2 = out ++ (image_byte F l <$> seqZ pa (st.1 - pa)).
Proof.
  induction l as [|sg l IH]; intros pa out Hl Hasc Hs; cbv zeta.
  { unfold flat_from. cbn [foldl fst snd]. split; [lia|]. rewrite Z.sub_diag. cbn. by rewrite app_nil_r. }
  apply Forall_cons_1 in Hl as [(Ho & Hf & Hsz) Hl]. destruct Hasc as (Hpa & _ & Hasc).
  assert (length (seg_data F sg) = Z.to_nat (sg_filesz sg)) as Ln by (apply sub_length; lia).
  assert (seg_data F sg ≠ []) as Hne by (intros E; rewrite E in Ln; cbn in Ln; lia).
  change (flat_from F (pa, out) (sg :: l)) with (flat_from F (emit (pa, out) (sg_paddr sg) (seg_data F sg)) l).
  rewrite emit_eq by done. cbv zeta. cbn [fst snd]. rewrite Ln, Z2Nat.id by lia. rewrite (Z.max_r pa) by lia.
  rewrite (proj2 (Z.leb_gt _ _)) by lia. rewrite Z.sub_diag. cbn [Z.to_nat drop].
  destruct (IH (sg_paddr sg + sg_filesz sg) ((out ++ replicate (Z.to_nat (sg_paddr sg - pa)) 255) ++ seg_data F sg))
    as [H1 H2]; [done|done|lia|].
  set (st := flat_from F _ l) in *. split; [lia|]. rewrite H2, <- !app_assoc. f_equal.
  assert (Forall (λ s, sg_paddr sg + sg_filesz sg <= sg_paddr s) l) as Hfar.
  { eapply ascending_from; [exact Hasc|]. eapply Forall_impl; [exact Hl|]. cbn. lia. }
  replace (st.1 - pa) with ((sg_paddr sg - pa) + (sg_filesz sg + (st.1 - (sg_paddr sg + sg_filesz sg)))) by lia.
  rewrite !seqZ_app by lia. rewrite !fmap_app. f_equal; [|f_equal].
  - apply list_eq_same_length with (Z.to_nat (sg_paddr sg - pa)); [by rewrite length_fmap, length_seqZ|by rewrite length_replicate|].
    intros i x y Hi Hx Hy. apply lookup_replicate in Hx as [-> _].
    apply list_lookup_fmap_Some in Hy as (a & -> & Ha). apply lookup_seqZ in Ha as [-> Ha].
    symmetry. apply image_byte_gap. constructor; [lia|]. eapply Forall_impl; [exact Hfar|]. cbn. lia.
  - apply list_eq_same_length with (Z.to_nat (sg_filesz sg)); [by rewrite length_fmap, length_seqZ|done|].
    intros i y x Hi Hy Hx. apply list_lookup_fmap_Some in Hx as (a & -> & Ha). apply lookup_seqZ in Ha as [-> Ha].
    unfold image_byte. rewrite filter_cons_True by lia.
    unfold seg_data, sub in Hy. rewrite lookup_take_lt, lookup_drop in Hy by lia.
    apply nth_lookup_Some with (d := 0) in Hy. rewrite <- Hy. f_equal. lia.
  - replace (pa + (sg_paddr sg - pa) + sg_filesz sg) with (sg_paddr sg + sg_filesz sg) by lia.
    apply list_fmap_ext. intros i a Ha. apply lookup_seqZ in Ha as [-> Ha].
    unfold image_byte. rewrite filter_cons_False by lia. done.
Qed.

Lemma flat_image F start l :
  Forall (λ sg, 0 <= sg_offset sg ∧ sg_offset sg + sg_filesz sg <= Z.of_nat (length F) ∧ 0 < sg_filesz sg) l →
  ascending start start l →
  flat F start l = image_byte F l <$> seqZ start (Z.of_nat (length (flat F start l))).
Proof.
  intros Hl Hasc. destruct (flat_bytes F start l start [] Hl Hasc ltac:(lia)) as [H1 H2]. unfold flat.
  rewrite H2 at 1. cbn [app]. do 2 f_equal. rewrite H2. cbn [app]. rewrite length_fmap, length_seqZ. lia.
Qed.

(** ** Theorems *)

(** C25: an ELF file becomes the image of an upgrade.  A well-formed ARM executable, its
    loadable segments behind each other in the file, comes in non-empty pieces of any size
    to [elf_to_bin] over [bin_to_ota] on a device that may fail at any call.  The calls
    return, each having taken its piece, up to one that reports an error of the device or
    the end; at the end the partition has [flat] of the segments behind [block_offset] and,
    in its first block, the header with the length and the checksum of exactly these bytes.
    When the segments are in the order of their addresses, from [paddr_start] on, [flat] has
    each of them at its address and 0xff between them (one that is not loses what lies
    below the address reached before).  The writer has to stop at the end: a further call
    reads behind the table of segments. *)
Theorem elf_upgrade_stored F phoff entsize segs paddr_start paddr_end
    {W} (content : W → list Z) prog (bi : block_iface W) (ok : W → Prop) `{!BlockDev ok content prog bi}
    block_offset b e ds w :
  elf_file F phoff entsize segs paddr_end → bytes F → 0 <= paddr_start →
  let I := flat F paddr_start (loads segs paddr_end) in
  1 <= block_offset → 16 <= block_size bi → num_blocks bi * block_size bi < 2 ^ 32 → ok w →
  I ≠ [] → block_offset * block_size bi + Z.of_nat (length I) <= num_blocks bi * block_size bi →
  bin_to_ota true block_offset = Some b → elf_to_bin true paddr_start paddr_end = Some e →
  Forall (λ d, d ≠ []) ds → concat ds = F →
  ∃ done_ d rest r e' b' w', ds = done_ ++ d :: rest ∧
    etb_writes (bto_stream bi) (done_ ++ [d]) e (b, w) = Ret (taken done_ ++ [r], e', (b', w')) ∧ r < 1 ∧
    (0 <= r →
      sub (content w') 0 16 = otahdr_bytes (make_otahdr (Z.of_nat (length I)) (not32 (crc32 0 I))) ∧
      sub (content w') (block_offset * block_size bi) (Z.of_nat (length I)) = I ∧
      (ascending paddr_start paddr_start (loads segs paddr_end) →
       I = image_byte F (loads segs paddr_end) <$> seqZ paddr_start (Z.of_nat (length I))) ∧
      ∀ d' w'', d' ≠ [] → etb_write (bto_stream bi) true e' (Some d') w'' = Fault OutOfBounds).
Proof.
  intros HF HB Hs I Hb Hbs Hsz Hw Hne Hfit [= <-] He Hds Hc.
  set (room := num_blocks bi * block_size bi - block_offset * block_size bi).
  assert (bto_holds content bi ok block_offset [] (BinToOta (u32 block_offset) 0 0 0, w)) as Ho.
  { assert (is_u32 block_offset) by (clear -Hb Hbs Hsz Hfit; unfold is_u32; split; [lia|nia]).
    split; cbn; try done; [unfold fits; lia|].
    unfold fill_block. cbn. rewrite Z.div_0_l, Z.add_0_r by lia. by apply u32_id. }
  assert (Z.of_nat (length (flat F paddr_start (loads segs paddr_end))) <= room) as Hroom by (unfold room; fold I; lia).
  destruct (etb_writes_ok F phoff entsize segs paddr_end HF (bto_stream bi) (bto_holds content bi ok block_offset)
    room paddr_start HB Hs (bto_sink content prog bi ok block_offset Hb Hbs Hsz) Hroom
    (bto_flushes content prog bi ok block_offset Hb Hbs Hsz) ds 0 e (BinToOta (u32 block_offset) 0 0 0, w))
    as (done_ & d & rest & r & e' & [b' w'] & -> & E & Hr1 & Hr); try done; try lia.
  { eapply elf_start; eauto. }
  { rewrite Hc, Z.sub_0_r. unfold sub. cbn [drop]. by rewrite Nat2Z.id, firstn_all. }
  exists done_, d, rest, r, e', b', w'. do 3 (split; [done|]). intros Hr0.
  destruct Hr as [?|[([b1 w1] & Hat & Ef) Hend]]; [lia|].
  unfold bto_stream in Ef. cbn [fst snd] in Ef.
  destruct (bto_flush_ok content prog bi ok block_offset Hb Hbs Hsz I b1 w1 Hat Hne) as (r2 & b2 & w2 & E2 & _ & _ & H2).
  rewrite E2 in Ef. cbn [mbind res_bind] in Ef. injection Ef as -> -> ->. destruct (H2 Hr0) as [H3 H4].
  split_and!; [done|done|..].
  - intros Hasc. apply flat_image; [|done]. eapply Forall_impl; [by eapply loads_in_file|].
    intros sg (? & ? & ? & _). done.
  - intros d' w'' Hd'. by eapply write_ended.
Qed.

(** C26: the two ways to the image of a 32-bit ELF file agree.  When the host makes an
    image of a well-formed file, in which everything with bytes is loaded in the order of
    the addresses and, after [skip] bytes were taken off the front, no segment lies across
    the start of the image (one that does is cut by the device and shifted by the host,
    see [elf_skip_differs]), the device makes the same bytes from any pieces of the file,
    written to any output, up to the call that reports the end; the host only adds 0xff up to the alignment, less than one unit
    of it. *)
Theorem elf_images_agree F phoff entsize segs paddr_end skip align mi
    {Out} (stream_write : option (list Z) → Out → res (Z * Out)) (holds : list Z → Out → Prop) room ds e o :
  elf_file F phoff entsize segs paddr_end → bytes F → rd F 4 1 = Ret [1] →
  mios_image_from_elf_mem F skip align = Ret (inr mi) → 0 < align → 0 <= mi_load_addr mi →
  all_loaded segs paddr_end → ascending (mi_load_addr mi) 0 (loads segs paddr_end) →
  sink stream_write holds room → flushes stream_write holds → Z.of_nat (length (mi_image mi)) <= room → holds [] o →
  elf_to_bin true (mi_load_addr mi) paddr_end = Some e → Forall (λ d, d ≠ []) ds → concat ds = F →
  ∃ done_ d rest r e' o', ds = done_ ++ d :: rest ∧
    etb_writes stream_write (done_ ++ [d]) e o = Ret (taken done_ ++ [r], e', o') ∧ r < 1 ∧
    (0 <= r → ∃ D pad o1, holds D o1 ∧ stream_write None o1 = Ret (r, o') ∧
      mi_image mi = D ++ replicate (Z.to_nat pad) 255 ∧ 0 <= pad < align ∧
      Z.of_nat (length (mi_image mi)) mod align = 0).
Proof.
  intros HF HB Hbits Hmi Hal Hla Hall Hasc HS HFl Hroom Ho He Hds Hc.
  assert (image_from_elf elf32 F skip align = Ret (inr mi)) as Hmi'.
  { revert Hmi. unfold mios_image_from_elf_mem. rewrite (ef_magic _ _ _ _ _ HF), Hbits. done. }
  destruct (image_flat F phoff entsize segs paddr_end HF skip align mi) as (pad & Ei & Hpad & Hm); [done|lia|done..|].
  rewrite (proj2 (Z.eqb_neq _ _)) in Hpad, Hm by lia.
  assert (Z.of_nat (length (flat F (mi_load_addr mi) (loads segs paddr_end))) <= room) as Hr2
    by (rewrite Ei, length_app in Hroom; lia).
  destruct (etb_writes_ok F phoff entsize segs paddr_end HF stream_write holds room (mi_load_addr mi) HB Hla HS Hr2 HFl
    ds 0 e o) as (done_ & d & rest & r & e' & o' & -> & E & Hr1 & Hr); try done; try lia.
  { eapply elf_start; eauto. }
  { rewrite Hc, Z.sub_0_r. unfold sub. cbn [drop]. by rewrite Nat2Z.id, firstn_all. }
  exists done_, d, rest, r, e', o'. do 3 (split; [done|]). intros Hr0.
  destruct Hr as [?|[(o1 & Hat & Ef) _]]; [lia|].
  exists (flat F (mi_load_addr mi) (loads segs paddr_end)), pad, o1. done.
Qed.

(** ** A file to run on *)

Module ElfWit.
Definition file : list Z :=
  [127; 69; 76; 70; 1; 1; 1; 0; 0; 0; 0; 0; 0; 0; 0; 0; 2; 0; 40; 0; 1; 0; 0; 0; 1; 16;
   0; 0; 52; 0; 0; 0; 200; 0; 0; 0; 0; 0; 0; 0; 52; 0; 32; 0; 3; 0; 40; 0; 3; 0; 2; 0;
   1; 0; 0; 0; 148; 0; 0; 0; 0; 16; 0; 0; 0; 16; 0; 0; 12; 0; 0; 0; 12; 0; 0; 0; 0; 0;
   0; 0; 0; 0; 0; 0; 1; 0; 0; 0; 164; 0; 0; 0; 20; 16; 0; 0; 20; 16; 0; 0; 8; 0; 0; 0;
   8; 0; 0; 0; 0; 0; 0; 0; 0; 0; 0; 0; 1; 0; 0; 0; 0; 0; 0; 0; 0; 0; 0; 32; 0; 0;
   0; 32; 0; 0; 0; 0; 0; 0; 0; 0; 0; 0; 0; 0; 0; 0; 0; 0; 1; 2; 3; 4; 5; 6; 7; 8;
   9; 10; 11; 12; 0; 0; 0; 0; 97; 112; 112; 0; 120; 121; 122; 119; 0; 46; 116; 101; 120; 116; 0; 46; 97; 112;
   112; 110; 97; 109; 101; 0; 46; 115; 104; 115; 116; 114; 116; 97; 98; 0; 0; 0; 1; 0; 0; 0; 1; 0; 0; 0;
   0; 0; 0; 0; 0; 16; 0; 0; 148; 0; 0; 0; 0; 0; 0; 0; 0; 0; 0; 0; 0; 0; 0; 0; 0; 0;
   0; 0; 0; 0; 0; 0; 7; 0; 0; 0; 1; 0; 0; 0; 0; 0; 0; 0; 20; 16; 0; 0; 164; 0; 0; 0;
   0; 0; 0; 0; 0; 0; 0; 0; 0; 0; 0; 0; 0; 0; 0; 0; 0; 0; 0; 0; 16; 0; 0; 0; 1; 0;
   0; 0; 0; 0; 0; 0; 0; 0; 0; 0; 172; 0; 0; 0; 0; 0; 0; 0; 0; 0; 0; 0; 0; 0; 0; 0;
   0; 0; 0; 0; 0; 0; 0; 0].
Definition segs : list segment :=
  [Segment 1 148 4096 12; Segment 1 164 4116 8; Segment 1 0 536870912 0].
Definition pieces : list (list Z) := [take 30 file; take 70 (drop 30 file); take 55 (drop 100 file); drop 155 file].
Definition mi : Elf.mios_image :=
  match mios_image_from_elf_mem file 0 16 with Ret (inr mi) => mi | _ => Elf.MiosImage 0 [] [] 0 [] [] None 0 0 end.
Definition etb : elf_to_bin_t := ElfToBin None 0 4096 536870912 0 0 (replicate 52 0).

(** The image: the first segment, a gap of eight bytes, the second one. *)
Definition image : list Z :=
  [1; 2; 3; 4; 5; 6; 7; 8; 9; 10; 11; 12] ++ replicate 8 255 ++ [97; 112; 112; 0; 120; 121; 122; 119].

(** An output that keeps what is written. *)
Definition collect (d : option (list Z)) (o : list Z) : res (Z * list Z) :=
  match d with Some d => Ret (Z.of_nat (length d), o ++ d) | None => Ret (0, o) end.

Lemma file_bytes : bytes file.
Proof. apply OtaWit.byte_list. vm_compute. reflexivity. Qed.

Lemma file_ok : elf_file file 52 32 segs 536870912.
Proof.
  split; try (vm_compute; (reflexivity || discriminate)).
  - intros i sg Hi. destruct i as [|[|[|i]]]; [..|by destruct i]; injection Hi as <-; vm_compute; split_and!; reflexivity.
  - vm_compute. split_and!; (discriminate || reflexivity).
Qed.

Lemma pieces_ok : Forall (λ d, d ≠ []) pieces ∧ concat pieces = file.
Proof. split; [|vm_compute; reflexivity]. repeat (apply Forall_cons_2; [discriminate|]). apply Forall_nil_2. Qed.

Lemma collect_sink : sink collect eq 32.
Proof.
  intros D d o <- Hd _ _. eexists _, _. split; [reflexivity|]. right. split; [|done]. destruct d; [done|]. cbn. lia.
Qed.
Lemma collect_flushes : flushes collect eq.
Proof. intros D o <-. eexists _, _. split; [reflexivity|lia]. Qed.
End ElfWit.

Lemma elf_upgrade_stored_witness :
  ∃ done_ d rest r e' b' w', ElfWit.pieces = done_ ++ d :: rest ∧
    etb_writes (bto_stream OtaWit.dev) (done_ ++ [d]) ElfWit.etb (BinToOta 1 0 0 0, OtaWit.flash0) =
      Ret (taken done_ ++ [r], e', (b', w')) ∧ r < 1 ∧
    (0 <= r → sub (fl_data w') 0 16 = otahdr_bytes (make_otahdr 28 (not32 (crc32 0 ElfWit.image))) ∧
      sub (fl_data w') 4096 28 = ElfWit.image ∧
      (ascending 4096 4096 (loads ElfWit.segs 536870912) →
       ElfWit.image = image_byte ElfWit.file (loads ElfWit.segs 536870912) <$> seqZ 4096 28) ∧
      ∀ d' w'', d' ≠ [] → etb_write (bto_stream OtaWit.dev) true e' (Some d') w'' = Fault OutOfBounds).
Proof.
  assert (flat ElfWit.file 4096 (loads ElfWit.segs 536870912) = ElfWit.image) as EI by (vm_compute; reflexivity).
  pose proof (elf_upgrade_stored ElfWit.file 52 32 ElfWit.segs 4096 536870912 fl_data Z.land OtaWit.dev
    (flash_ok 3 4096 false) 1 (BinToOta 1 0 0 0) ElfWit.etb ElfWit.pieces OtaWit.flash0 ElfWit.file_ok ElfWit.file_bytes)
    as H. cbv zeta in H. rewrite EI in H.
  apply H; try (vm_compute; (reflexivity || discriminate)); [apply OtaWit.dev_ok|apply ElfWit.pieces_ok..].
Defined.

Lemma elf_images_agree_witness :
  ∃ done_ d rest r e' o', ElfWit.pieces = done_ ++ d :: rest ∧
    etb_writes ElfWit.collect (done_ ++ [d]) ElfWit.etb [] = Ret (taken done_ ++ [r], e', o') ∧ r < 1 ∧
    (0 <= r → ∃ D pad o1, D = o1 ∧ ElfWit.collect None o1 = Ret (r, o') ∧
      mi_image ElfWit.mi = D ++ replicate (Z.to_nat pad) 255 ∧ 0 <= pad < 16 ∧
      Z.of_nat (length (mi_image ElfWit.mi)) mod 16 = 0).
Proof.
  refine (elf_images_agree ElfWit.file 52 32 ElfWit.segs 536870912 0 16 ElfWit.mi ElfWit.collect eq 32
    ElfWit.pieces ElfWit.etb [] ElfWit.file_ok ElfWit.file_bytes _ _ _ _ _ _ ElfWit.collect_sink ElfWit.collect_flushes
    _ eq_refl eq_refl (proj1 ElfWit.pieces_ok) (proj2 ElfWit.pieces_ok)).
  1,2: vm_compute; reflexivity.
  1,2: vm_compute; (reflexivity || discriminate).
  - repeat (apply Forall_cons_2; [vm_compute; auto|]). apply Forall_nil_2.
  - vm_compute. split_and!; auto; try discriminate; right; discriminate.
  - vm_compute. discriminate.
Defined.

(** ** What can go wrong *)

(** The stream says that it is done when the last segment is there, and most files go on
    behind it.  A writer that goes on too makes it look up a segment behind the table. *)
Theorem elf_write_after_end :
  match '(rs, e, o) ← etb_writes ElfWit.collect ElfWit.pieces ElfWit.etb [];
        Ret (rs, o, etb_write ElfWit.collect true e (Some [0]) o) with
  | Ret (rs, o, next) => rs = [30; 70; 55; 0] ∧ o = ElfWit.image ∧ next = Fault OutOfBounds
  | Fault _ => False
  end.
Proof. vm_compute. split_and!; reflexivity. Qed.

(** A file without program headers: the table is never allocated, and read. *)
Definition no_headers : list Z := take 44 ElfWit.file ++ [0; 0] ++ drop 46 ElfWit.file.
Theorem elf_no_headers_null : etb_write ElfWit.collect true ElfWit.etb (Some no_headers) [] = Fault OutOfBounds.
Proof. vm_compute. reflexivity. Qed.

(** Bytes skipped at the start: the host leaves out a segment that lies across the new
    start as a whole, the device writes the rest of it. *)
Definition no_text : list Z := take 177 ElfWit.file ++ [95] ++ drop 178 ElfWit.file.
Theorem elf_skip_differs :
  match mios_image_from_elf_mem no_text 4 16, etb_write ElfWit.collect true (set_paddr 4100 ElfWit.etb) (Some no_text) [] with
  | Ret (inr mi), Ret (_, _, o) => mi_load_addr mi = 4100 ∧
      take 24 (mi_image mi) = replicate 16 255 ++ drop 20 ElfWit.image ∧ o = drop 4 ElfWit.image
  | _, _ => False
  end.
Proof. vm_compute. split_and!; reflexivity. Qed.
