(* ===== verification/Smux.v ===== *)
(** * Smux: the serial multiplexer ([src/util/smux.c])

    Several byte streams over one: a delimiter followed by a channel number switches the
    channel, a delimiter followed by the reset token asks the other side to announce its
    channel again, and a delimiter in the data is to be sent twice.

    Streams are function pointers: a write to one is an output.  A read of the multiplexed
    stream is the list of the bytes it returned.  The sender's current channel is shared
    by both threads. *)

From Stdlib Require Import ZArith Lia.
From stdpp Require Import base list numbers.
From S2P Require Import Prelude.

Open Scope Z_scope.

(** ** Definitions *)

(** [smux_t]: the channel last announced ([-1] for none), the special bytes, the numbers
    of the channels. *)
Record smux := Smux {
  sm_current : Z;
  delimiter : Z;
  reset_token : Z;
  channelids : list Z }.

Definition set_current (c : Z) (s : smux) : smux :=
  Smux c (delimiter s) (reset_token s) (channelids s).

(** The loop of [smux_tx]: [u8] is what [u8] points to, up to [len].  After a delimiter the
    pointer moves on to it and the scan goes on behind it.  Each element of the result is
    a write to the multiplexed stream. *)
Fixpoint tx_loop (fuel : nat) (delim : Z) (u8 : list Z) (i : nat) : res (list (list Z)) :=
  match fuel with
  | O => Fault NoFuel
  | S fuel =>
      match u8 !! i with
      | None => Ret (if decide (i = 0%nat) then [] else [take i u8])
      | Some b =>
          if negb (b =? delim) then tx_loop fuel delim u8 (S i)
          else
            ws ← tx_loop fuel delim (drop i u8) 1;
            Ret ((if decide (i = 0%nat) then [] else [take i u8]) ++ [delim; delim] :: ws)
      end
  end.

Definition smux_tx (buf : list Z) (channel : Z) (s : smux) : res (list (list Z) * smux) :=
  let announce := negb (channel =? sm_current s) in
  let s := if announce then set_current channel s else s in
  ws ← tx_loop (S (length buf)) (delimiter s) buf 0;
  Ret ((if announce then [[delimiter s; channel]] else []) ++ ws, s).

Definition smux_tx_reset (s : smux) : list (list Z) := [[delimiter s; reset_token s]].

(** The stream of the first channel with the number, by its index. *)
Fixpoint find_from (i : nat) (ids : list Z) (id : Z) : option nat :=
  match ids with
  | [] => None
  | x :: ids => if x =? id then Some i else find_from (S i) ids id
  end.
Definition smux_find_channel (s : smux) (id : Z) : option nat := find_from 0 (channelids s) id.

(** What the receiving thread does to the world. *)
Inductive sm_out :=
| SWrite (channel : nat) (data : list Z)
| SMuxed (data : list Z).

(** What it keeps between reads. *)
Record rx_state := RxState { rx_channel : option nat; rx_esc : bool }.

(** The loop over one read: [buf] holds [r] bytes, byte [i] is looked at, the first [j] are
    the data gathered for the channel, moved down in the same buffer. *)
Fixpoint rx_loop (n : nat) (buf : list Z) (i j : nat) (st : rx_state) (s : smux)
    : res (list Z * nat * rx_state * smux * list sm_out) :=
  match n with
  | O => Ret (buf, j, st, s, [])
  | S n =>
      match buf !! i with
      | None => Fault OutOfBounds
      | Some b =>
          let store :=
            match rx_channel st with
            | None => rx_loop n buf (S i) j (RxState None false) s
            | Some _ => rx_loop n (<[j := b]> buf) (S i) (S j) (RxState (rx_channel st) false) s
            end in
          if rx_esc st then
            if negb (b =? delimiter s) then
              let '(flush, j) := match rx_channel st with
                | Some c => ([SWrite c (take j buf)], 0%nat)
                | None => ([], j)
                end in
              if b =? reset_token s then
                '(buf, j, st, s, o) ← rx_loop n buf (S i) j (RxState (rx_channel st) false) (set_current (-1) s);
                Ret (buf, j, st, s, flush ++ o)
              else
                let ch := smux_find_channel s b in
                let rst := match ch with None => SMuxed <$> smux_tx_reset s | Some _ => [] end in
                '(buf, j, st, s, o) ← rx_loop n buf (S i) j (RxState ch false) s;
                Ret (buf, j, st, s, flush ++ rst ++ o)
            else store
          else if b =? delimiter s then rx_loop n buf (S i) j (RxState (rx_channel st) true) s
          else store
      end
  end.

(** One read of [smux_rx_thread]. *)
Definition smux_rx (data : list Z) (st : rx_state) (s : smux) : res (rx_state * smux * list sm_out) :=
  '(buf, j, st, s, o) ← rx_loop (length data) data 0 0 st s;
  Ret (st, s, o ++ match rx_channel st with Some c => [SWrite c (take j buf)] | None => [] end).

(** Before its first read the thread sends a reset; it starts on the first channel. *)
Definition smux_rx_start : rx_state := RxState (Some 0%nat) false.

Definition smux_create (delim reset : Z) (ids : list Z) : smux := Smux (-1) delim reset ids.

(** ** The protocol, byte by byte *)

Inductive event :=
| Got (channel : nat) (b : Z)
| Unknown
| WasReset.

#[export] Instance event_eq_dec : EqDecision event.
Proof. solve_decision. Defined.

Definition rx_byte (s : smux) (st : rx_state) (b : Z) : rx_state * list event :=
  let data := (RxState (rx_channel st) false,
               match rx_channel st with Some c => [Got c b] | None => [] end) in
  if rx_esc st then
    if b =? delimiter s then data
    else if b =? reset_token s then (RxState (rx_channel st) false, [WasReset])
    else match smux_find_channel s b with
         | Some c => (RxState (Some c) false, [])
         | None => (RxState None false, [Unknown])
         end
  else if b =? delimiter s then (RxState (rx_channel st) true, [])
  else data.

Fixpoint rx_bytes (s : smux) (st : rx_state) (bs : list Z) : rx_state * list event :=
  match bs with
  | [] => (st, [])
  | b :: bs =>
      let '(st, e) := rx_byte s st b in
      let '(st, e') := rx_bytes s st bs in (st, e ++ e')
  end.

(** What the outputs of the thread mean.  The reset of the sender's channel shows in the
    state. *)
Definition meaning (o : sm_out) : list event :=
  match o with SWrite c d => Got c <$> d | SMuxed _ => [Unknown] end.

Definition seen (es : list event) : list event :=
  es ≫= λ e, match e with WasReset => [] | _ => [e] end.

Lemma rx_bytes_app s bs1 : ∀ st bs2,
  rx_bytes s st (bs1 ++ bs2) =
    let '(st1, e1) := rx_bytes s st bs1 in let '(st2, e2) := rx_bytes s st1 bs2 in (st2, e1 ++ e2).
Proof.
  induction bs1 as [|b bs1 IH]; intros st bs2; cbn; [by destruct (rx_bytes s st bs2)|].
  destruct (rx_byte s st b) as [st1 e1]. rewrite IH.
  destruct (rx_bytes s st1 bs1) as [st2 e2]. destruct (rx_bytes s st2 bs2) as [st3 e3].
  by rewrite app_assoc.
Qed.

(** The special bytes and the channels do not change. *)
Definition same_wire (s s' : smux) : Prop :=
  delimiter s' = delimiter s ∧ reset_token s' = reset_token s ∧ channelids s' = channelids s.

Lemma rx_byte_wire s s' st b : same_wire s s' → rx_byte s' st b = rx_byte s st b.
Proof. intros (Ed & Er & Ec). unfold rx_byte, smux_find_channel. by rewrite Ed, Er, Ec. Qed.

Lemma rx_bytes_wire s s' bs : same_wire s s' → ∀ st, rx_bytes s' st bs = rx_bytes s st bs.
Proof.
  intros Hs. induction bs as [|b bs IH]; intros st; [done|]. cbn. rewrite (rx_byte_wire s s') by done.
  destruct (rx_byte s st b) as [st1 e1]. by rewrite IH.
Qed.

(** Data gathered but not yet handed on. *)
Definition pend (ch : option nat) (d : list Z) : list event :=
  match ch with Some c => Got c <$> d | None => [] end.

Lemma seen_app e1 e2 : seen (e1 ++ e2) = seen e1 ++ seen e2.
Proof. apply bind_app. Qed.

(** The loop does what the bytes say: the outputs and the gathered data are the events. *)
Lemma rx_loop_spec n : ∀ buf i j st s,
  (j <= i)%nat → length buf = (i + n)%nat → (rx_channel st = None → j = 0%nat) →
  ∃ buf' j' s' o, let '(st', es) := rx_bytes s st (drop i buf) in
    rx_loop n buf i j st s = Ret (buf', j', st', s', o) ∧ same_wire s s' ∧
    sm_current s' = (if decide (WasReset ∈ es) then -1 else sm_current s) ∧
    pend (rx_channel st) (take j buf) ++ seen es = (o ≫= meaning) ++ pend (rx_channel st') (take j' buf').
Proof.
  induction n as [|n IH]; intros buf i j st s Hj Hl Hn.
  { rewrite drop_ge by lia. cbn. exists buf, j, s, []. split_and!; try done. by rewrite app_nil_r. }
  destruct (lookup_lt_is_Some_2 buf i) as [b Hb]; [lia|].
  rewrite (drop_S _ _ _ Hb). cbn [rx_bytes rx_loop]. rewrite Hb.
  destruct st as [ch esc]. cbn [rx_channel rx_esc] in *.
  assert (∃ buf' j' s' o, let '(st', es) := rx_bytes s (RxState ch false) (drop (S i) buf) in
    match ch with
    | None => rx_loop n buf (S i) j (RxState None false) s
    | Some _ => rx_loop n (<[j := b]> buf) (S i) (S j) (RxState ch false) s
    end = Ret (buf', j', st', s', o) ∧ same_wire s s' ∧
    sm_current s' = (if decide (WasReset ∈ match ch with Some c => [Got c b] | None => [] end ++ es)
      then -1 else sm_current s) ∧
    pend ch (take j buf) ++ seen (match ch with Some c => [Got c b] | None => [] end ++ es) =
      (o ≫= meaning) ++ pend (rx_channel st') (take j' buf')) as Hstore.
  { destruct ch as [c|].
    - destruct (IH (<[j := b]> buf) (S i) (S j) (RxState (Some c) false) s) as (buf' & j' & s' & o & H);
        [lia|rewrite length_insert; lia|done|].
      rewrite drop_insert_lt in H by lia. exists buf', j', s', o.
      destruct (rx_bytes s (RxState (Some c) false) (drop (S i) buf)) as [st' es].
      destruct H as (E & Hw & Hc & Hp). split_and!; [done..| |].
      + rewrite Hc. apply decide_ext. rewrite elem_of_app, list_elem_of_singleton. naive_solver.
      + rewrite <- Hp. cbn. rewrite (take_S_r _ _ b) by (apply list_lookup_insert_eq; lia).
        rewrite fmap_app, take_insert_ge by lia. by rewrite <- app_assoc.
    - destruct (IH buf (S i) j (RxState None false) s) as (buf' & j' & s' & o & H); [lia|lia|done|].
      exists buf', j', s', o. by destruct (rx_bytes s (RxState None false) (drop (S i) buf)) as [st' es]. }
  destruct esc.
  - cbn [rx_byte rx_esc rx_channel].
    destruct (b =? delimiter s) eqn:Ed; cbn [negb].
    + destruct Hstore as (buf' & j' & s' & o & H). exists buf', j', s', o.
      by destruct (rx_bytes s (RxState ch false) (drop (S i) buf)).
    + assert ((match ch with Some c => ([SWrite c (take j buf)], 0%nat) | None => ([], j) end) =
        (match ch with Some c => [SWrite c (take j buf)] | None => [] end, 0%nat)) as ->
        by (destruct ch; [done|by rewrite Hn]).
      set (flush := match ch with Some c => [SWrite c (take j buf)] | None => [] end).
      assert (pend ch (take j buf) = flush ≫= meaning) as -> by (destruct ch; cbn; by rewrite ?app_nil_r).
      assert (∀ ch', pend ch' (take 0 buf) = []) as Hnil by by intros [].
      destruct (b =? reset_token s).
      * destruct (IH buf (S i) 0%nat (RxState ch false) (set_current (-1) s)) as (buf' & j' & s' & o & H); [lia..|].
        rewrite (rx_bytes_wire s (set_current (-1) s)) in H by done.
        exists buf', j', s', (flush ++ o).
        destruct (rx_bytes s (RxState ch false) (drop (S i) buf)) as [st' es].
        destruct H as (E & Hw & Hc & Hp). rewrite E. split_and!; [done|done| |].
        -- transitivity (-1); [rewrite Hc; by case_decide|].
           by rewrite decide_True by (apply elem_of_app; left; constructor).
        -- rewrite bind_app, <- app_assoc, <- Hp. cbn [rx_channel]. by rewrite Hnil.
      * destruct (IH buf (S i) 0%nat (RxState (smux_find_channel s b) false) s) as (buf' & j' & s' & o & H); [lia..|].
        exists buf', j', s', (flush ++ match smux_find_channel s b with
          None => SMuxed <$> smux_tx_reset s | Some _ => [] end ++ o).
        destruct (smux_find_channel s b) as [c|]; cbn.
        -- destruct (rx_bytes s (RxState (Some c) false) (drop (S i) buf)) as [st' es].
           destruct H as (E & Hw & Hc & Hp). rewrite E. split_and!; [done..|].
           by rewrite bind_app, <- app_assoc, <- Hp.
        -- destruct (rx_bytes s (RxState None false) (drop (S i) buf)) as [st' es].
           destruct H as (E & Hw & Hc & Hp). rewrite E. split_and!; [done|done| |].
           ++ rewrite Hc. apply decide_ext. rewrite elem_of_cons. naive_solver.
           ++ rewrite bind_app, <- app_assoc. cbn. by rewrite <- Hp.
  - cbn [rx_byte rx_esc rx_channel]. destruct (b =? delimiter s).
    + destruct (IH buf (S i) j (RxState ch true) s) as (buf' & j' & s' & o & H); [lia|lia|done|].
      exists buf', j', s', o. by destruct (rx_bytes s (RxState ch true) (drop (S i) buf)).
    + destruct Hstore as (buf' & j' & s' & o & H). exists buf', j', s', o.
      by destruct (rx_bytes s (RxState ch false) (drop (S i) buf)).
Qed.

Lemma smux_rx_spec data st s :
  ∃ s' o, let '(st', es) := rx_bytes s st data in
    smux_rx data st s = Ret (st', s', o) ∧ same_wire s s' ∧
    sm_current s' = (if decide (WasReset ∈ es) then -1 else sm_current s) ∧ o ≫= meaning = seen es.
Proof.
  destruct (rx_loop_spec (length data) data 0 0 st s) as (buf & j & s' & o & H); [lia..|].
  rewrite drop_0 in H. unfold smux_rx. exists s', (o ++ match rx_channel (rx_bytes s st data).1 with
    Some c => [SWrite c (take j buf)] | None => [] end).
  destruct (rx_bytes s st data) as [st' es]. destruct H as (E & Hw & Hc & Hp). rewrite E.
  split_and!; [done..|]. rewrite bind_app. rewrite take_0 in Hp.
  replace (seen es) with (pend (rx_channel st) [] ++ seen es) by (by destruct (rx_channel st)).
  rewrite Hp. f_equal. cbn [fst]. destruct (rx_channel st'); cbn; by rewrite ?app_nil_r.
Qed.

(** Reads of any sizes: the stream of bytes counts. *)
Fixpoint smux_rx_all (reads : list (list Z)) (st : rx_state) (s : smux) : res (rx_state * smux * list sm_out) :=
  match reads with
  | [] => Ret (st, s, [])
  | d :: reads =>
      '(st, s, o) ← smux_rx d st s;
      '(st, s, o') ← smux_rx_all reads st s;
      Ret (st, s, o ++ o')
  end.

Lemma smux_rx_all_spec reads : ∀ st s,
  ∃ s' o, let '(st', es) := rx_bytes s st (concat reads) in
    smux_rx_all reads st s = Ret (st', s', o) ∧ same_wire s s' ∧
    sm_current s' = (if decide (WasReset ∈ es) then -1 else sm_current s) ∧ o ≫= meaning = seen es.
Proof.
  induction reads as [|d reads IH]; intros st s; [by exists s, []|]. cbn [concat smux_rx_all].
  rewrite rx_bytes_app. destruct (smux_rx_spec d st s) as (s1 & o1 & H1).
  destruct (rx_bytes s st d) as [st1 e1]. destruct H1 as (-> & W1 & C1 & O1). cbn.
  destruct (IH st1 s1) as (s2 & o2 & H2). rewrite (rx_bytes_wire s s1) in H2 by done.
  exists s2, (o1 ++ o2). destruct (rx_bytes s st1 (concat reads)) as [st2 e2].
  destruct H2 as (-> & W2 & C2 & O2). split_and!; [done| | |].
  - destruct W1 as (?&?&?), W2 as (?&?&?). split_and!; congruence.
  - rewrite C2, C1. repeat case_decide; rewrite elem_of_app in *; naive_solver.
  - by rewrite bind_app, seen_app, O1, O2.
Qed.

(** ** The sender *)

(** What a byte of data becomes on the wire. *)
Definition on_wire (delim b : Z) : list Z := if b =? delim then [delim; delim; delim] else [b].

Lemma tx_loop_spec delim fuel : ∀ u8 i, (i <= length u8 < i + fuel)%nat →
  ∃ ws, tx_loop fuel delim u8 i = Ret ws ∧ concat ws = take i u8 ++ (drop i u8 ≫= on_wire delim).
Proof.
  induction fuel as [|fuel IH]; intros u8 i Hi; [lia|]. cbn.
  assert (∀ k l, concat (if decide (k = 0%nat) then [] else [take k l]) = take k (l : list Z)) as Hc.
  { intros k l. case_decide; [by subst|]. cbn. by rewrite app_nil_r. }
  destruct (u8 !! i) as [b|] eqn:Hb.
  - pose proof (lookup_lt_Some _ _ _ Hb). rewrite (drop_S _ _ _ Hb). cbn [mbind list_bind].
    unfold on_wire at 1. destruct (b =? delim) eqn:Ed; bool_to_prop; cbn [negb].
    + subst b. destruct (IH (delim :: drop (S i) u8) 1%nat) as (ws & -> & E); [cbn; rewrite length_drop; lia|]. cbn.
      eexists. split; [done|]. rewrite concat_app, Hc. f_equal. cbn. do 2 f_equal. by rewrite E.
    + destruct (IH u8 (S i)) as (ws & -> & E); [lia|]. exists ws. split; [done|].
      rewrite E, (take_S_r _ _ _ Hb), <- app_assoc. done.
  - apply lookup_ge_None in Hb. eexists. split; [done|]. rewrite Hc, drop_ge by lia. by rewrite app_nil_r.
Qed.

Definition announce (s : smux) (channel : Z) : list Z :=
  if channel =? sm_current s then [] else [delimiter s; channel].

(** [smux_tx] ends, and this is what it sends. *)
Lemma smux_tx_wire buf channel s :
  ∃ ws, smux_tx buf channel s = Ret (ws, set_current channel s) ∧
    concat ws = announce s channel ++ (buf ≫= on_wire (delimiter s)).
Proof.
  unfold smux_tx, announce. destruct (tx_loop_spec (delimiter s) (S (length buf)) buf 0) as (ws & E & Ew); [lia|].
  destruct (channel =? sm_current s) eqn:Ec; bool_to_prop; cbn [negb delimiter set_current]; rewrite E; cbn.
  - exists ws. rewrite Ew. subst channel. by destruct s.
  - eexists. split; [done|]. cbn. by rewrite Ew.
Qed.

Lemma on_wire_plain delim buf : delim ∉ buf → buf ≫= on_wire delim = buf.
Proof.
  induction buf as [|b buf IH]; [done|]. intros [Hb H]%not_elem_of_cons. cbn. rewrite IH by done.
  unfold on_wire. by rewrite (proj2 (Z.eqb_neq _ _)).
Qed.

(** Several buffers, each with its channel. *)
Fixpoint smux_sends (l : list (Z * list Z)) (s : smux) : res (list Z * smux) :=
  match l with
  | [] => Ret ([], s)
  | (c, d) :: l =>
      '(ws, s) ← smux_tx d c s;
      '(w, s) ← smux_sends l s;
      Ret (concat ws ++ w, s)
  end.

(** ** From one side to the other *)

(** Plain data is data of the current channel. *)
Lemma rx_plain s c d : delimiter s ∉ d → rx_bytes s (RxState (Some c) false) d = (RxState (Some c) false, Got c <$> d).
Proof.
  induction d as [|b d IH]; [done|]. intros [Hb H]%not_elem_of_cons. cbn.
  rewrite (proj2 (Z.eqb_neq b (delimiter s))) by done. by rewrite IH.
Qed.

(** The announcement leads the receiver to the channel. *)
Lemma rx_announce s r c i ch : delimiter r = delimiter s → c ≠ delimiter r → c ≠ reset_token r →
  smux_find_channel r c = Some i → (sm_current s = -1 ∧ c ≠ -1 ∨ ch = smux_find_channel r (sm_current s)) →
  rx_bytes r (RxState ch false) (announce s c) = (RxState (Some i) false, []).
Proof.
  intros Ed Hd Hr Hf Hcur. unfold announce. destruct (c =? sm_current s) eqn:Ec; bool_to_prop; cbn.
  - destruct Hcur as [[? ?]| ->]; [lia|]. by rewrite <- Ec, Hf.
  - rewrite <- Ed, Z.eqb_refl. cbn. rewrite !(proj2 (Z.eqb_neq c _)) by done. by rewrite Hf.
Qed.

(** What may be sent: a number the receiver knows, data without the delimiter. *)
Record sendable (r : smux) (x : Z * list Z) : Prop := {
  se_channel : ∃ i, smux_find_channel r x.1 = Some i;
  se_number : x.1 ≠ delimiter r ∧ x.1 ≠ reset_token r ∧ x.1 ≠ -1;
  se_plain : delimiter r ∉ x.2 }.

Definition received (r : smux) (x : Z * list Z) : list event :=
  match smux_find_channel r x.1 with Some i => Got i <$> x.2 | None => [] end.

Lemma smux_sends_spec r l : ∀ s ch,
  delimiter r = delimiter s → Forall (sendable r) l →
  (sm_current s = -1 ∨ ch = smux_find_channel r (sm_current s)) →
  ∃ w s' ch', smux_sends l s = Ret (w, s') ∧
    rx_bytes r (RxState ch false) w = (RxState ch' false, l ≫= received r) ∧
    (sm_current s' = -1 ∨ ch' = smux_find_channel r (sm_current s')).
Proof.
  induction l as [|[c d] l IH]; intros s ch Ed Hl Hcur; [by exists [], s, ch|].
  apply Forall_cons_1 in Hl as [[[i Hi] (?&?&?) Hp] Hl]. cbn [fst snd] in *. cbn [smux_sends].
  destruct (smux_tx_wire d c s) as (ws & -> & Ew). cbn.
  destruct (IH (set_current c s) (Some i)) as (w & s' & ch' & -> & Er & Hc'); [done|done|right; done|]. cbn.
  exists (concat ws ++ w), s', ch'. split_and!; [done| |done].
  rewrite Ew, <- Ed, on_wire_plain by done.
  rewrite !rx_bytes_app, (rx_announce s r c i ch); [|done..|naive_solver].
  rewrite rx_plain by done. rewrite Er. unfold received at 2. cbn. by rewrite Hi.
Qed.

Lemma seen_received r l : seen (l ≫= received r) = l ≫= received r.
Proof.
  induction l as [|x l IH]; [done|]. cbn. rewrite seen_app, IH. f_equal.
  unfold received. destruct (smux_find_channel r x.1) as [i|]; [|done].
  induction x.2 as [|b d IHd]; [done|]. cbn. f_equal. exact IHd.
Qed.

(** The channels stay apart: buffers sent on any channels the receiver knows arrive,
    every byte on its channel and in the order sent, whatever pieces the stream between
    arrives in, provided that no data byte is the delimiter and that the sender's idea of
    the current channel is the receiver's or none.  That state is kept, so it holds from
    then on; no reset is called for. *)
Theorem smux_roundtrip s r l ch reads :
  delimiter r = delimiter s → Forall (sendable r) l →
  (sm_current s = -1 ∨ ch = smux_find_channel r (sm_current s)) →
  ∃ w s', smux_sends l s = Ret (w, s') ∧
    (concat reads = w → ∃ ch' r' o, smux_rx_all reads (RxState ch false) r = Ret (RxState ch' false, r', o) ∧
      o ≫= meaning = l ≫= received r ∧ sm_current r' = sm_current r ∧
      (sm_current s' = -1 ∨ ch' = smux_find_channel r (sm_current s'))).
Proof.
  intros Ed Hl Hcur. destruct (smux_sends_spec r l s ch) as (w & s' & ch' & E & Er & Hc'); [done..|].
  exists w, s'. split; [done|]. intros Ew.
  destruct (smux_rx_all_spec reads (RxState ch false) r) as (r' & o & H). rewrite Ew, Er in H.
  destruct H as (E2 & _ & Hcr & Ho). exists ch', r', o. rewrite Ho, seen_received. split_and!; [done..| |done].
  rewrite Hcr. case_decide as Hin; [|done]. exfalso.
  apply list_elem_of_bind in Hin as (x & Hx & _). unfold received in Hx.
  destruct (smux_find_channel r x.1); [|by inversion Hx]. by apply list_elem_of_fmap in Hx as (b & ? & _).
Qed.

(** A reset makes the sender announce its channel with the next buffer, so that a side that
    restarts is in step again. *)
Theorem smux_reset_resyncs st s :
  rx_esc st = false → delimiter s ≠ reset_token s →
  ∃ s' o, smux_rx (concat (smux_tx_reset s)) st s = Ret (st, s', o) ∧ sm_current s' = -1.
Proof.
  intros He Hne. destruct st as [ch esc]. cbn in He. subst esc.
  assert (rx_bytes s (RxState ch false) (concat (smux_tx_reset s)) = (RxState ch false, [WasReset])) as Er.
  { cbn. rewrite Z.eqb_refl. cbn. by rewrite (proj2 (Z.eqb_neq (reset_token s) _)), Z.eqb_refl by done. }
  destruct (smux_rx_spec (concat (smux_tx_reset s)) (RxState ch false) s) as (s' & o & H). rewrite Er in H.
  destruct H as (E & _ & Hc & _). exists s', o. split; [exact E|]. rewrite Hc.
  by rewrite decide_True by (apply elem_of_cons; by left).
Qed.

(** Two channels, 65 and 66; delimiter 16, reset token 255. *)
Definition ex_mux : smux := smux_create 16 255 [65; 66].
Definition ex_sends : list (Z * list Z) := [(65, [1; 2]); (66, [3]); (65, [4])].
Definition ex_reads : list (list Z) := [[16]; [65; 1]; [2; 16; 66; 3; 16; 65; 4]].

Lemma smux_roundtrip_witness :
  (∃ w s', smux_sends ex_sends ex_mux = Ret (w, s') ∧
    (concat ex_reads = w → ∃ ch' r' o,
      smux_rx_all ex_reads (RxState (Some 0%nat) false) ex_mux = Ret (RxState ch' false, r', o) ∧
      o ≫= meaning = ex_sends ≫= received ex_mux ∧ sm_current r' = sm_current ex_mux ∧
      (sm_current s' = -1 ∨ ch' = smux_find_channel ex_mux (sm_current s')))) ∧
  smux_sends ex_sends ex_mux = Ret (concat ex_reads, set_current 65 ex_mux) ∧
  ex_sends ≫= received ex_mux = [Got 0 1; Got 0 2; Got 1 3; Got 0 4].
Proof.
  split; [|vm_compute; split; reflexivity].
  apply (smux_roundtrip ex_mux ex_mux ex_sends (Some 0%nat) ex_reads).
  - reflexivity.
  - repeat (apply Forall_cons_2; [split; cbn; [by eexists|lia|apply (bool_decide_unpack _); exact I]|]).
    apply Forall_nil_2.
  - left. reflexivity.
Defined.

(** A data byte that is the delimiter goes out three times: the pointer is moved to it, not
    behind it, so it is sent once more in front of the rest.  The receiver takes the third
    for an escape and the next byte for a channel: of 1 16 2 3 on channel 65 it gets 1 and
    16, then leaves the channel and asks for a reset. *)
Theorem smux_delimiter_breaks_stream :
  smux_sends [(65, [1; 16; 2; 3])] ex_mux = Ret ([16; 65; 1; 16; 16; 16; 2; 3], set_current 65 ex_mux) ∧
  ('(st, _, o) ← smux_rx [16; 65; 1; 16; 16; 16; 2; 3] smux_rx_start ex_mux; Ret (st, o ≫= meaning)) =
    Ret (RxState None false, [Got 0 1; Got 0 16; Unknown]).
Proof. vm_compute. split; reflexivity. Qed.
