(* ===== verification/Sched.v ===== *)
(** * Sched: tasks, threads and synchronisation ([src/kernel/task.c])

    The scheduler of one CPU: a ready queue per priority with a bit mask of the
    non-empty ones, threads and run-to-completion tasks, wait lists ordered by
    priority, mutexes (a lock bit sharing a word with the list of waiters),
    condition variables, thread creation, exit and join, and multiplexed waits.

    Every definition is the code between an [irq_forbid] and the matching
    [irq_permit], that is, one step no other thread or interrupt interleaves
    with; a function that sleeps is the step up to the sleep, and the loop around
    [schedule()] is the thread being resumed.  [resched] records that [schedule()]
    has been called.  Assertions are compiled out in this file ([NDEBUG]).  The
    build modelled has no soft interrupts, FPU contexts or accounting. *)

From Stdlib Require Import ZArith Lia.
From stdpp Require Import base list numbers gmap sorting.
From S2P Require Import Prelude.

Open Scope Z_scope.

Inductive tstate :=
| TASK_STATE_NONE
| TASK_STATE_RUNNING
| TASK_STATE_READY
| TASK_STATE_SLEEPING
| TASK_STATE_ZOMBIE
| TASK_STATE_MUXED_SLEEP.

#[export] Instance tstate_eq_dec : EqDecision tstate.
Proof. solve_decision. Defined.

Definition TASK_THREAD : Z := 1.
Definition TASK_DETACHED : Z := 2.
Definition TASK_PRIO_MASK : Z := 31.

(** What a task runs: its own function, or the release of a dead thread. *)
Inductive runfn := RunNone | RunUser | RunExit2.

Record task := mk_task {
  t_flags : Z;
  t_prio : Z;
  t_state : tstate;
  t_index : Z;
  t_mux : nat;         (* the waitmux_t a MUXED task is part of *)
  t_run : runfn;
  t_refcount : Z;
}.

Record sched := mk_sched {
  tasks : gmap nat task;
  readyqueue : gmap Z (list nat);
  active_queues : Z;
  current : nat;
  idle : nat;
  waits : gmap nat (list nat);    (* task_waitable_t: its list *)
  lockbit : gmap nat bool;        (* mutex_t: bit 0 of the word it shares with waits *)
  wm_which : gmap nat Z;          (* waitmux_t: its wm_which; wm_waitable is waits *)
  allthreads : list nat;
  resched : bool;
}.

Definition null_task : task := mk_task 0 0 TASK_STATE_NONE 0 0 RunNone 0.
Definition get_task (s : sched) (t : nat) : task := default null_task (tasks s !! t).
Definition rq (s : sched) (p : Z) : list nat := default [] (readyqueue s !! p).
Definition wl (s : sched) (w : nat) : list nat := default [] (waits s !! w).

Definition with_tasks (s : sched) (m : gmap nat task) : sched :=
  mk_sched m (readyqueue s) (active_queues s) (current s) (idle s) (waits s) (lockbit s)
    (wm_which s) (allthreads s) (resched s).
Definition with_rq (s : sched) (q : gmap Z (list nat)) (a : Z) : sched :=
  mk_sched (tasks s) q a (current s) (idle s) (waits s) (lockbit s) (wm_which s) (allthreads s)
    (resched s).
Definition with_current (s : sched) (t : nat) : sched :=
  mk_sched (tasks s) (readyqueue s) (active_queues s) t (idle s) (waits s) (lockbit s) (wm_which s)
    (allthreads s) (resched s).
Definition with_waits (s : sched) (w : gmap nat (list nat)) : sched :=
  mk_sched (tasks s) (readyqueue s) (active_queues s) (current s) (idle s) w (lockbit s) (wm_which s)
    (allthreads s) (resched s).
Definition with_lock (s : sched) (m : nat) (b : bool) : sched :=
  mk_sched (tasks s) (readyqueue s) (active_queues s) (current s) (idle s) (waits s)
    (<[m := b]> (lockbit s)) (wm_which s) (allthreads s) (resched s).
Definition with_which (s : sched) (m : nat) (z : Z) : sched :=
  mk_sched (tasks s) (readyqueue s) (active_queues s) (current s) (idle s) (waits s) (lockbit s)
    (<[m := z]> (wm_which s)) (allthreads s) (resched s).
Definition with_threads (s : sched) (l : list nat) : sched :=
  mk_sched (tasks s) (readyqueue s) (active_queues s) (current s) (idle s) (waits s) (lockbit s)
    (wm_which s) l (resched s).
Definition schedule (s : sched) : sched :=
  mk_sched (tasks s) (readyqueue s) (active_queues s) (current s) (idle s) (waits s) (lockbit s)
    (wm_which s) (allthreads s) true.

Definition upd_task (s : sched) (t : nat) (f : task → task) : sched :=
  with_tasks s (<[t := f (get_task s t)]> (tasks s)).
Definition set_state (st : tstate) (x : task) : task :=
  mk_task (t_flags x) (t_prio x) st (t_index x) (t_mux x) (t_run x) (t_refcount x).
Definition set_refcount (n : Z) (x : task) : task :=
  mk_task (t_flags x) (t_prio x) (t_state x) (t_index x) (t_mux x) (t_run x) n.

(** ** Ready queues *)

Definition readyqueue_insert (s : sched) (t : nat) : sched :=
  let p := t_prio (get_task s t) in
  let s := with_rq s (<[p := rq s p ++ [t]]> (readyqueue s))
             (Z.lor (active_queues s) (u32 (Z.shiftl 1 p))) in
  upd_task s t (set_state TASK_STATE_READY).

(** The choice in [task_switch]: the idle thread, or the first task of the
    highest non-empty queue ([31 - clz] is the top bit). *)
Definition pick (s : sched) : res (nat * sched) :=
  if active_queues s =? 0 then Ret (idle s, s)
  else
    let which := Z.log2 (active_queues s) in
    match rq s which with
    | [] => Fault OutOfBounds
    | t :: rest =>
        let active := match rest with
                      | [] => Z.ldiff (active_queues s) (u32 (Z.shiftl 1 (t_prio (get_task s t))))
                      | _ => active_queues s
                      end in
        Ret (t, with_rq s (<[which := rest]> (readyqueue s)) active)
    end.

Section Switch.
(** What the function of a task does to the scheduler state. *)
Context (run : nat → sched → sched).

Fixpoint switch_loop (fuel : nat) (curthread : nat) (s : sched) : res sched :=
  match fuel with
  | O => Fault NoFuel
  | S f =>
      let s := if decide (t_state (get_task s curthread) = TASK_STATE_RUNNING)
               then readyqueue_insert s curthread else s in
      '(t, s) ← pick s;
      if negb (Z.land (t_flags (get_task s t)) TASK_THREAD =? 0)
      then Ret (with_current (upd_task s t (set_state TASK_STATE_RUNNING)) t)
      else switch_loop f curthread (run t (upd_task s t (set_state TASK_STATE_NONE)))
  end.
Definition task_switch (fuel : nat) (s : sched) : res sched := switch_loop fuel (current s) s.
End Switch.

Definition task_run (s : sched) (t : nat) : sched :=
  schedule (if decide (t_state (get_task s t) = TASK_STATE_NONE) then readyqueue_insert s t else s).

(** ** Wait lists *)

Definition task_prio_cmp (prio : nat → Z) (a b : nat) : Z := b2z (prio a <=? prio b).
Definition task_insert_wait_list (s : sched) (w : nat) (t : nat) : sched :=
  with_waits s (<[w := list_insert_sorted (task_prio_cmp (λ x, t_prio (get_task s x))) t (wl s w)]>
                  (waits s)).

(** [LIST_REMOVE(t, t_wait_link)]: from whichever list the task is on. *)
Definition unlink_wait (s : sched) (t : nat) : sched :=
  with_waits s ((λ l, filter (λ x, x ≠ t) l) <$> waits s).

(** A sleeping task is made runnable: on the ready queue, unless it is the
    thread that has not been switched away from yet. *)
Definition make_runnable (s : sched) (t : nat) : sched :=
  if decide (t = current s) then upd_task s t (set_state TASK_STATE_RUNNING)
  else readyqueue_insert s t.

Fixpoint task_wakeup_sched_locked (fuel : nat) (s : sched) (w : nat) (all : bool) : res sched :=
  match fuel with
  | O => Fault NoFuel
  | S f =>
      match wl s w with
      | [] => Ret s
      | t :: rest =>
          let s := with_waits s (<[w := rest]> (waits s)) in
          if decide (t_state (get_task s t) = TASK_STATE_MUXED_SLEEP) then
            let s := upd_task s t (set_state TASK_STATE_NONE) in
            let wm := t_mux (get_task s t) in
            s ← (if default (-1) (wm_which s !! wm) =? -1
                 then task_wakeup_sched_locked f (with_which s wm (t_index (get_task s t))) wm true
                 else Ret s);
            task_wakeup_sched_locked f s w all
          else
            let do_sched := (bool_decide (t = current s) ||
                             (t_prio (get_task s (current s)) <=? t_prio (get_task s t)))%bool in
            let s := make_runnable s t in
            let s := if do_sched then schedule s else s in
            if all then task_wakeup_sched_locked f s w all else Ret s
      end
  end.
Definition task_wakeup := task_wakeup_sched_locked.
Definition cond_signal (fuel : nat) (s : sched) (c : nat) := task_wakeup fuel s c false.
Definition cond_broadcast (fuel : nat) (s : sched) (c : nat) := task_wakeup fuel s c true.

(** [task_sleep_sched_locked] up to the first [schedule()]. *)
Definition task_sleep_sched_locked (s : sched) (w : nat) : sched :=
  let cur := current s in
  schedule (task_insert_wait_list (upd_task s cur (set_state TASK_STATE_SLEEPING)) w cur).

(** The timer callbacks of timed sleeps, with and without a wait list. *)
Definition task_sleep_abs_sched_locked_timeout (s : sched) (t : nat) : sched :=
  if decide (t_state (get_task s t) = TASK_STATE_SLEEPING)
  then schedule (make_runnable (unlink_wait s t) t)
  else s.
Definition thread_sleep_until (s : sched) : sched :=
  schedule (upd_task s (current s) (set_state TASK_STATE_SLEEPING)).
Definition task_sleep_until_timeout (s : sched) (t : nat) : sched := schedule (make_runnable s t).

(** ** Mutexes *)

Definition locked (s : sched) (m : nat) : bool := default false (lockbit s !! m).
(** The whole word: 0 exactly when unlocked with no waiter. *)
Definition lock_word_zero (s : sched) (m : nat) : bool :=
  (negb (locked s m) && bool_decide (wl s m = []))%bool.

(** One pass of the loop of [mutex_lock_sched_locked]: the result says whether
    the lock was taken; otherwise the thread sleeps and will pass again. *)
Definition mutex_lock_sched_locked (s : sched) (m : nat) : bool * sched :=
  if locked s m then
    let cur := current s in
    if decide (t_state (get_task s cur) = TASK_STATE_SLEEPING) then (false, schedule s)
    else (false, schedule (task_insert_wait_list
                             (upd_task s cur (set_state TASK_STATE_SLEEPING)) m cur))
  else (true, with_lock s m true).

Definition mutex_lock (s : sched) (m : nat) : bool * sched :=
  if lock_word_zero s m then (true, with_lock s m true) else mutex_lock_sched_locked s m.

Definition mutex_trylock_slow (s : sched) (m : nat) : Z * sched :=
  if locked s m then (1, s) else (0, with_lock s m true).
Definition mutex_trylock (s : sched) (m : nat) : Z * sched :=
  if lock_word_zero s m then (0, with_lock s m true) else mutex_trylock_slow s m.

Definition mutex_unlock_sched_locked (s : sched) (m : nat) : sched :=
  let s := with_lock s m false in
  match wl s m with
  | [] => s
  | t :: rest =>
      let s := with_waits s (<[m := rest]> (waits s)) in
      let prio_t := t_prio (get_task s t) in
      let s := readyqueue_insert s t in
      if t_prio (get_task s (current s)) <=? prio_t then schedule s else s
  end.
Definition mutex_unlock (s : sched) (m : nat) : sched :=
  if (locked s m && bool_decide (wl s m = []))%bool then with_lock s m false
  else mutex_unlock_sched_locked s m.

(** [cond_wait] up to the sleep; what follows is [mutex_lock_sched_locked]. *)
Definition cond_wait (s : sched) (c m : nat) : sched :=
  task_sleep_sched_locked (mutex_unlock_sched_locked s m) c.

(** ** Threads *)

Definition thread_retain (s : sched) (t : nat) : sched :=
  upd_task s t (λ x, set_refcount (u8 (t_refcount x + 1)) x).

Definition zombie_task (x : task) : task :=
  mk_task (Z.ldiff (t_flags x) TASK_THREAD) 1 (t_state x) (t_index x) (t_mux x) RunExit2
    (t_refcount x).
Definition thread_release (s : sched) (t : nat) : sched :=
  let s := upd_task s t (λ x, set_refcount (u8 (t_refcount x - 1)) x) in
  if t_refcount (get_task s t) =? 0
  then readyqueue_insert (upd_task s t zombie_task) t
  else s.

(** [thread_exit2]; [busy] is the result of [free_try] on the stack. *)
Definition thread_exit2 (busy : bool) (s : sched) (t : nat) : sched :=
  if busy then readyqueue_insert s t else s.

(** [thread_exit] up to its last [schedule()]; [join_wait] is the waitable
    joiners sleep on. *)
Definition thread_exit (fuel : nat) (join_wait : nat) (s : sched) : res sched :=
  let cur := current s in
  let s := with_threads s (filter (λ x, x ≠ cur) (allthreads s)) in
  s ← (if negb (Z.land (t_flags (get_task s cur)) TASK_DETACHED =? 0)
       then Ret (thread_release s cur)
       else task_wakeup fuel (upd_task s cur (set_state TASK_STATE_ZOMBIE)) join_wait true);
  Ret (schedule s).

(** One pass of [thread_join]: joined, or asleep to try again. *)
Definition thread_join (join_wait : nat) (s : sched) (t : nat) : bool * sched :=
  if decide (t_state (get_task s t) = TASK_STATE_ZOMBIE)
  then (true, thread_release s t)
  else (false, task_sleep_sched_locked s join_wait).

(** [thread_create_va]; [mem] is the address [xalloc] gives, if any. *)
Definition thread_create_va (s : sched) (mem : option nat) (flags prio : Z) : option nat * sched :=
  let prio := Z.land prio TASK_PRIO_MASK in
  let prio := if prio =? 0 then 1 else prio in
  match mem with
  | None => (None, s)
  | Some t =>
      let x := mk_task (u8 (Z.lor flags TASK_THREAD)) prio TASK_STATE_READY 0 0 RunNone 1 in
      let s := with_tasks s (<[t := x]> (tasks s)) in
      let s := with_rq s (<[prio := rq s prio ++ [t]]> (readyqueue s))
                 (Z.lor (active_queues s) (u32 (Z.shiftl 1 prio))) in
      (Some t, schedule (with_threads s (t :: allthreads s)))
  end.

(** [thread_get_next]: walks the thread list keeping a reference. *)
Fixpoint next_after (cur : nat) (l : list nat) : option nat :=
  match l with
  | [] => None
  | t :: l => if decide (t = cur) then head l else next_after cur l
  end.
Definition thread_get_next (s : sched) (cur : option nat) : option nat * sched :=
  let t := match cur with None => head (allthreads s) | Some c => next_after c (allthreads s) end in
  let s := match t with Some t => thread_retain s t | None => s end in
  (t, match cur with Some c => thread_release s c | None => s end).

Definition sched_cpu_init (s : sched) (i : nat) : sched :=
  let x := get_task s i in
  mk_sched (<[i := mk_task TASK_THREAD (t_prio x) (t_state x) (t_index x) (t_mux x) (t_run x) (t_refcount x)]>
              (tasks s)) ∅ 0 i i (waits s) (lockbit s) (wm_which s) (allthreads s) (resched s).

(** ** The scheduler invariant *)

Definition waiting (st : tstate) : Prop := st = TASK_STATE_SLEEPING ∨ st = TASK_STATE_MUXED_SLEEP.

Record wf (s : sched) : Prop := {
  wf_active : is_u32 (active_queues s);
  wf_bits : ∀ p, 0 <= p < 32 → Z.testbit (active_queues s) p = true ↔ rq s p ≠ [];
  wf_prio : ∀ t, 0 <= t_prio (get_task s t) < 32;
  wf_ready : ∀ p t, t ∈ rq s p ↔
    t_state (get_task s t) = TASK_STATE_READY ∧ t_prio (get_task s t) = p;
  wf_nodup : ∀ p, NoDup (rq s p);
  wf_wait : ∀ w t, t ∈ wl s w → waiting (t_state (get_task s t));
  wf_wait_nodup : ∀ w, NoDup (wl s w);
  wf_wait_one : ∀ w w' t, t ∈ wl s w → t ∈ wl s w' → w = w';
  wf_running : ∀ t, t_state (get_task s t) = TASK_STATE_RUNNING → t = current s;
  wf_idle : ∀ w, idle s ∉ wl s w;
  wf_idle_thread : Z.land (t_flags (get_task s (idle s))) TASK_THREAD ≠ 0;
}.

Definition off_lists (s : sched) (t : nat) : Prop := ∀ w, t ∉ wl s w.

(** *** How the accessors see the updates *)

Lemma get_task_upd s t f x :
  get_task (upd_task s t f) x = if decide (t = x) then f (get_task s t) else get_task s x.
Proof. unfold get_task, upd_task. simpl. rewrite lookup_insert. by case_decide. Qed.

Lemma rq_insert s p l a p' :
  rq (with_rq s (<[p := l]> (readyqueue s)) a) p' = if decide (p = p') then l else rq s p'.
Proof. unfold rq. simpl. rewrite lookup_insert. by case_decide. Qed.

Lemma wl_insert s w l w' :
  wl (with_waits s (<[w := l]> (waits s))) w' = if decide (w = w') then l else wl s w'.
Proof. unfold wl. simpl. rewrite lookup_insert. by case_decide. Qed.

Lemma wl_unlink s t w : wl (unlink_wait s t) w = filter (λ x, x ≠ t) (wl s w).
Proof. unfold wl, unlink_wait. simpl. rewrite lookup_fmap. by destruct (waits s !! w). Qed.

Lemma rq_upd s t f p : rq (upd_task s t f) p = rq s p.
Proof. done. Qed.
Lemma wl_upd s t f w : wl (upd_task s t f) w = wl s w.
Proof. done. Qed.

(** *** Bit masks *)

Lemma bit_u32 p : 0 <= p < 32 → u32 (Z.shiftl 1 p) = 2 ^ p.
Proof.
  intros. rewrite Z.shiftl_1_l. apply u32_id. split; [by apply Z.pow_nonneg|].
  change 4294967296 with (2 ^ 32). apply Z.pow_lt_mono_r; lia.
Qed.

Lemma testbit_lor_pow a p i :
  0 <= p → 0 <= i → Z.testbit (Z.lor a (2 ^ p)) i = (Z.testbit a i || bool_decide (p = i))%bool.
Proof.
  intros. rewrite Z.lor_spec, Z.pow2_bits_eqb by done. f_equal.
  case_bool_decide; [by apply Z.eqb_eq|by apply Z.eqb_neq].
Qed.

Lemma testbit_ldiff_pow a p i :
  0 <= p → 0 <= i → Z.testbit (Z.ldiff a (2 ^ p)) i = (Z.testbit a i && negb (bool_decide (p = i)))%bool.
Proof.
  intros. rewrite Z.ldiff_spec, Z.pow2_bits_eqb by done. do 2 f_equal.
  case_bool_decide; [by apply Z.eqb_eq|by apply Z.eqb_neq].
Qed.

Lemma is_u32_bits a : (0 <= a) → (∀ i, 32 <= i → Z.testbit a i = false) → is_u32 a.
Proof.
  intros Ha Hb. split; [done|]. destruct (Z.eq_dec a 0) as [->|Hne]; [lia|].
  assert (Z.log2 a < 32).
  { destruct (decide (Z.log2 a < 32)); [done|]. specialize (Hb (Z.log2 a) ltac:(lia)).
    by rewrite Z.bit_log2 in Hb by lia. }
  change 4294967296 with (2 ^ 32). by apply Z.log2_lt_pow2; lia.
Qed.

Lemma u32_high a i : is_u32 a → 32 <= i → Z.testbit a i = false.
Proof.
  intros [H1 H2] Hi. destruct (Z.eq_dec a 0) as [->|Hne]; [apply Z.bits_0|].
  apply Z.bits_above_log2; [done|]. assert (Z.log2 a < 32); [|lia].
  change 4294967296 with (2 ^ 32) in H2. by apply Z.log2_lt_pow2; lia.
Qed.

Lemma lor_pow_u32 a p : is_u32 a → 0 <= p < 32 → is_u32 (Z.lor a (2 ^ p)).
Proof.
  intros Ha Hp. apply is_u32_bits.
  - apply Z.lor_nonneg. split; [apply Ha|apply Z.pow_nonneg; lia].
  - intros i Hi. rewrite testbit_lor_pow, u32_high by (done || lia).
    by rewrite bool_decide_eq_false_2 by lia.
Qed.

Lemma ldiff_u32 a b : is_u32 a → is_u32 (Z.ldiff a b).
Proof.
  intros Ha. apply is_u32_bits.
  - apply Z.ldiff_nonneg. left. apply Ha.
  - intros i Hi. by rewrite Z.ldiff_spec, u32_high by done.
Qed.

(** *** Preservation by the building blocks *)

Lemma set_state_wf s t st :
  wf s → t_state (get_task s t) ≠ TASK_STATE_READY → st ≠ TASK_STATE_READY →
  (st = TASK_STATE_RUNNING → t = current s) → (waiting st ∨ off_lists s t) →
  wf (upd_task s t (set_state st)).
Proof.
  intros W Hnr Hst Hrun Hw.
  assert (∀ x, t_prio (get_task (upd_task s t (set_state st)) x) = t_prio (get_task s x)) as Hp.
  { intros x. rewrite get_task_upd. case_decide; [by subst|done]. }
  assert (∀ x, t_flags (get_task (upd_task s t (set_state st)) x) = t_flags (get_task s x)) as Hfl.
  { intros x. rewrite get_task_upd. case_decide; [by subst|done]. }
  assert (∀ x, t_state (get_task (upd_task s t (set_state st)) x) =
    if decide (t = x) then st else t_state (get_task s x)) as Hs.
  { intros x. rewrite get_task_upd. by case_decide. }
  destruct W. split; try done.
  - intros x. rewrite Hp. done.
  - intros p x. rewrite Hp, Hs, rq_upd, wf_ready0. case_decide; [subst|done]. naive_solver.
  - intros w x. rewrite wl_upd, Hs. intros Hx. case_decide; [subst|by eapply wf_wait0].
    destruct Hw as [?|Hoff]; [done|]. by destruct (Hoff w).
  - intros x. rewrite Hs. case_decide; [subst; intros E; by apply Hrun|apply wf_running0].
  - change (idle (upd_task s t (set_state st))) with (idle s). rewrite Hfl. done.
Qed.

Lemma readyqueue_insert_wf s t :
  wf s → t_state (get_task s t) ≠ TASK_STATE_READY → off_lists s t → wf (readyqueue_insert s t).
Proof.
  intros W Hnr Hoff. unfold readyqueue_insert. set (p := t_prio (get_task s t)).
  assert (0 <= p < 32) as Hp by apply W. rewrite bit_u32 by done.
  set (s1 := with_rq _ _ _).
  assert (∀ x, t_prio (get_task (upd_task s1 t (set_state TASK_STATE_READY)) x) = t_prio (get_task s x)) as Hpr.
  { intros x. rewrite get_task_upd. case_decide; [by subst|done]. }
  assert (∀ x, t_flags (get_task (upd_task s1 t (set_state TASK_STATE_READY)) x) = t_flags (get_task s x)) as Hfl.
  { intros x. rewrite get_task_upd. case_decide; [by subst|done]. }
  assert (∀ x, t_state (get_task (upd_task s1 t (set_state TASK_STATE_READY)) x) =
    if decide (t = x) then TASK_STATE_READY else t_state (get_task s x)) as Hs.
  { intros x. rewrite get_task_upd. by case_decide. }
  assert (∀ q, rq (upd_task s1 t (set_state TASK_STATE_READY)) q = if decide (p = q) then rq s p ++ [t] else rq s q) as Hrq.
  { intros q. rewrite rq_upd. apply rq_insert. }
  destruct W. split.
  - by apply lor_pow_u32.
  - intros q Hq. rewrite Hrq. cbn [active_queues upd_task with_tasks s1 with_rq].
    rewrite testbit_lor_pow by lia. rewrite orb_true_iff, wf_bits0, bool_decide_eq_true by done.
    case_decide; [subst; split; [intros _; by destruct (rq s _)|by right]|]. tauto.
  - intros x. rewrite Hpr. done.
  - intros q x. rewrite Hrq, Hpr, Hs. case_decide as E1; case_decide as E2; subst.
    + split; [done|]. intros _. apply elem_of_app. right. by apply list_elem_of_singleton.
    + rewrite elem_of_app, wf_ready0, list_elem_of_singleton. naive_solver.
    + rewrite wf_ready0. split; [naive_solver|]. intros [_ ?]. done.
    + apply wf_ready0.
  - intros q. rewrite Hrq. case_decide; [|done]. apply NoDup_app. split; [done|].
    split; [|apply NoDup_singleton]. intros x Hx ->%list_elem_of_singleton.
    apply wf_ready0 in Hx as [? _]. done.
  - intros w x Hx. rewrite Hs. case_decide; [subst; by destruct (Hoff w)|]. by eapply wf_wait0.
  - done.
  - done.
  - intros x. rewrite Hs. case_decide; [done|]. apply wf_running0.
  - done.
  - change (idle (upd_task s1 t (set_state TASK_STATE_READY))) with (idle s). rewrite Hfl. done.
Qed.

(** Changing only the wait lists: shrinking them, or adding a waiting task that
    is on none. *)
Lemma waits_shrink_wf s ws :
  wf s → (∀ w, default [] (ws !! w) `sublist_of` wl s w) → wf (with_waits s ws).
Proof.
  intros W Hsub. assert (∀ w t, t ∈ wl (with_waits s ws) w → t ∈ wl s w) as Hin.
  { intros w t Ht. eapply elem_of_submseteq; [exact Ht|]. apply sublist_submseteq, Hsub. }
  destruct W. split; try done.
  - intros w t Ht. eapply wf_wait0, Hin, Ht.
  - intros w. eapply sublist_NoDup; [|apply Hsub]. done.
  - intros w w' t H1 H2. eapply wf_wait_one0; by apply Hin.
  - intros w Hw. by eapply wf_idle0, Hin.
Qed.

Lemma insert_wait_wf s w t :
  wf s → off_lists s t → waiting (t_state (get_task s t)) → t ≠ idle s →
  wf (task_insert_wait_list s w t).
Proof.
  intros W Hoff Hwt Hid. unfold task_insert_wait_list.
  set (l := list_insert_sorted _ t (wl s w)).
  assert (l ≡ₚ t :: wl s w) as Hl by apply list_insert_sorted_perm.
  assert (∀ w' x, x ∈ wl (with_waits s (<[w := l]> (waits s))) w' → (x = t ∧ w' = w) ∨ x ∈ wl s w') as Hin.
  { intros w' x. rewrite wl_insert. case_decide; [subst|by right]. rewrite Hl.
    intros [->|?]%elem_of_cons; [by left|by right]. }
  destruct W. split; try done.
  - intros w' x [[-> ->]|Hx]%Hin; [done|]. by eapply wf_wait0.
  - intros w'. rewrite wl_insert. case_decide; [|done]. rewrite Hl. constructor; [|done]. apply Hoff.
  - intros w1 w2 x [[-> ->]|H1]%Hin [[H2 ->]|H2]%Hin; subst; try done.
    + by destruct (Hoff w2).
    + by destruct (Hoff w1).
    + by eapply wf_wait_one0.
  - intros w' [[? _]|?]%Hin; [done|]. by eapply wf_idle0.
Qed.

Lemma schedule_wf s : wf s → wf (schedule s).
Proof. by intros []. Qed.
Lemma with_lock_wf s m b : wf s → wf (with_lock s m b).
Proof. by intros []. Qed.
Lemma with_which_wf s m z : wf s → wf (with_which s m z).
Proof. by intros []. Qed.
Lemma with_threads_wf s l : wf s → wf (with_threads s l).
Proof. by intros []. Qed.
#[export] Hint Resolve schedule_wf with_lock_wf with_which_wf with_threads_wf : mios.

Lemma make_runnable_wf s t :
  wf s → t_state (get_task s t) ≠ TASK_STATE_READY → off_lists s t → wf (make_runnable s t).
Proof.
  intros W Hn Hoff. unfold make_runnable. case_decide.
  - apply set_state_wf; try done. by right.
  - by apply readyqueue_insert_wf.
Qed.

Lemma pop_wait_wf s w t rest :
  wf s → wl s w = t :: rest →
  wf (with_waits s (<[w := rest]> (waits s))) ∧
  off_lists (with_waits s (<[w := rest]> (waits s))) t ∧ waiting (t_state (get_task s t)).
Proof.
  intros W E. pose proof (wf_wait_nodup _ W w) as Hnd. rewrite E in Hnd.
  assert (t ∈ wl s w) as Ht by (rewrite E; by left). split; [|split].
  - apply waits_shrink_wf; [done|]. intros w'.
    change (default [] (<[w:=rest]> (waits s) !! w')) with (wl (with_waits s (<[w:=rest]> (waits s))) w').
    rewrite wl_insert. case_decide; [subst|done]. rewrite E. by apply sublist_cons.
  - intros w'. rewrite wl_insert. case_decide; [by apply NoDup_cons in Hnd as [? _]|].
    intros Hw'. by pose proof (wf_wait_one _ W _ _ _ Ht Hw').
  - by eapply wf_wait.
Qed.

Lemma waiting_not_ready st : waiting st → st ≠ TASK_STATE_READY.
Proof. by intros [-> | ->]. Qed.
#[export] Hint Resolve waiting_not_ready : mios.

Lemma task_wakeup_wf fuel s w all s' :
  wf s → task_wakeup_sched_locked fuel s w all = Ret s' → wf s'.
Proof.
  revert s w all s'. induction fuel as [|fuel IH]; intros s w all s' W; [done|].
  cbn [task_wakeup_sched_locked]. destruct (wl s w) as [|t rest] eqn:E; [by intros [= ->]|].
  destruct (pop_wait_wf _ _ _ _ W E) as (W1 & Hoff & Hwt).
  set (s1 := with_waits _ _) in *. change (get_task s t) with (get_task s1 t) in Hwt.
  case_decide as Em.
  - set (s2 := upd_task s1 t _).
    assert (wf s2) as W2 by (apply set_state_wf; [done|by apply waiting_not_ready|done|done|by right]).
    intros (s3 & H3 & H4)%res_bind_ret. eapply IH; [|exact H4].
    destruct (_ =? -1); [|by injection H3 as <-]. eapply IH; [|exact H3]. auto with mios.
  - assert (wf (make_runnable s1 t)) as W2 by (apply make_runnable_wf; auto with mios).
    assert (∀ b : bool, wf (if b then schedule (make_runnable s1 t) else make_runnable s1 t)) as W3
      by (intros []; auto with mios).
    destruct all; [|by intros [= <-]]. apply IH, W3.
Qed.

Lemma sleep_wf s w :
  wf s → t_state (get_task s (current s)) = TASK_STATE_RUNNING → current s ≠ idle s →
  wf (task_insert_wait_list (upd_task s (current s) (set_state TASK_STATE_SLEEPING)) w (current s)).
Proof.
  intros W Hr Hi.
  assert (off_lists s (current s)) as Hoff.
  { intros w' Hw'. pose proof (wf_wait _ W _ _ Hw') as [?|?]; congruence. }
  apply insert_wait_wf; [| |rewrite get_task_upd; case_decide; [by left|done]|done].
  - apply set_state_wf; try done; [congruence|]. left. by left.
  - intros w'. rewrite wl_upd. apply Hoff.
Qed.

(** *** Switching *)

(** [t] is the task the code has to run next: the first of the highest queue
    that is not empty. *)
Definition highest (s : sched) (t : nat) : Prop :=
  let p := t_prio (get_task s t) in
  head (rq s p) = Some t ∧ ∀ q, p < q → rq s q = [].

Lemma pick_spec s :
  wf s →
  (active_queues s = 0 ∧ (∀ p, rq s p = []) ∧ pick s = Ret (idle s, s)) ∨
  (∃ t rest p s', highest s t ∧ p = t_prio (get_task s t) ∧ rq s p = t :: rest ∧
     pick s = Ret (t, s') ∧ tasks s' = tasks s ∧ waits s' = waits s ∧ current s' = current s ∧
     idle s' = idle s ∧ is_u32 (active_queues s') ∧
     (∀ q, rq s' q = if decide (p = q) then rest else rq s q) ∧
     (∀ q, 0 <= q < 32 → Z.testbit (active_queues s') q = true ↔ rq s' q ≠ [])).
Proof.
  intros W. assert (∀ p, ¬ (0 <= p < 32) → rq s p = []) as Hout.
  { intros p Hp. destruct (rq s p) as [|t l] eqn:E; [done|].
    assert (t ∈ rq s p) as Ht by (rewrite E; by left).
    apply (wf_ready _ W) in Ht as [_ <-]. by pose proof (wf_prio _ W t). }
  unfold pick. destruct (active_queues s =? 0) eqn:E; bool_to_prop.
  - left. split_and!; try done. intros p. destruct (decide (0 <= p < 32)) as [Hp|Hp]; [|by apply Hout].
    pose proof (wf_bits _ W p Hp) as Hb. rewrite E, Z.bits_0 in Hb.
    destruct (rq s p); [done|]. assert (false = true) by (by apply Hb). done.
  - right. set (p := Z.log2 (active_queues s)). pose proof (wf_active _ W) as [Ha1 Ha2].
    assert (0 <= p < 32) as Hp.
    { split; [apply Z.log2_nonneg|]. change 4294967296 with (2 ^ 32) in Ha2.
      apply Z.log2_lt_pow2; lia. }
    assert (rq s p ≠ []) as Hne by (apply (wf_bits _ W p Hp), Z.bit_log2; lia).
    destruct (rq s p) as [|t rest] eqn:Er; [done|].
    assert (t_prio (get_task s t) = p) as Et.
    { assert (t ∈ rq s p) as Ht by (rewrite Er; by left). by apply (wf_ready _ W) in Ht as [_ ?]. }
    rewrite Et, bit_u32 by done. eexists t, rest, p, _. split_and!; try done.
    + unfold highest. rewrite Et, Er. split; [done|]. intros q Hq.
      destruct (decide (0 <= q < 32)) as [Hq2|Hq2]; [|by apply Hout].
      destruct (rq s q) as [|x l] eqn:Eq; [done|].
      assert (Z.testbit (active_queues s) q = true) as Hb by (apply (wf_bits _ W q Hq2); by rewrite Eq).
      rewrite Z.bits_above_log2 in Hb by (done || lia). done.
    + cbn [active_queues with_rq]. destruct rest; [apply ldiff_u32|]; apply W.
    + intros q. apply rq_insert.
    + intros q Hq. rewrite rq_insert. cbn [active_queues with_rq]. destruct rest as [|x rest].
      * rewrite testbit_ldiff_pow by lia. rewrite andb_true_iff, negb_true_iff, bool_decide_eq_false.
        rewrite (wf_bits _ W q Hq). case_decide; naive_solver.
      * rewrite (wf_bits _ W q Hq). case_decide; [|done]. subst q. by rewrite Er.
Qed.

Definition none_running (s : sched) : Prop := ∀ t, t_state (get_task s t) ≠ TASK_STATE_RUNNING.

Lemma with_current_id s c : c = current s → with_current s c = s.
Proof. intros ->. by destruct s. Qed.

(** Taking the picked task off its queue and giving it another state. *)
Lemma picked_wf s s' t rest p st cur :
  wf s → none_running s → p = t_prio (get_task s t) → rq s p = t :: rest →
  tasks s' = tasks s → waits s' = waits s → idle s' = idle s → is_u32 (active_queues s') →
  (∀ q, rq s' q = if decide (p = q) then rest else rq s q) →
  (∀ q, 0 <= q < 32 → Z.testbit (active_queues s') q = true ↔ rq s' q ≠ []) →
  st ≠ TASK_STATE_READY → ¬ waiting st → (st = TASK_STATE_RUNNING → cur = t) →
  wf (with_current (upd_task s' t (set_state st)) cur).
Proof.
  intros W Hnr Hp Hq Ht Hw Hi Ha Hrq Hb Hst Hnw Hcur. set (s2 := with_current _ _).
  assert (∀ x, get_task s2 x = if decide (t = x) then set_state st (get_task s t) else get_task s x) as Hg.
  { intros x. change (get_task s2 x) with (get_task (upd_task s' t (set_state st)) x).
    rewrite get_task_upd. unfold get_task. by rewrite Ht. }
  assert (∀ x, t_prio (get_task s2 x) = t_prio (get_task s x)) as Hpr.
  { intros x. rewrite Hg. case_decide; [by subst|done]. }
  assert (∀ w, wl s2 w = wl s w) as Hwl by (intros w; unfold wl; simpl; by rewrite Hw).
  assert (∀ q, rq s2 q = if decide (p = q) then rest else rq s q) as Hrq2 by (intros q; apply Hrq).
  assert (t ∈ rq s p) as Hin by (rewrite Hq; by left).
  apply (wf_ready _ W) in Hin as [Hready _].
  pose proof (wf_nodup _ W p) as Hnd. rewrite Hq in Hnd. apply NoDup_cons in Hnd as [Hnt Hnd].
  destruct W. split.
  - done.
  - exact Hb.
  - intros x. rewrite Hpr. done.
  - intros q x. rewrite Hrq2, Hpr, Hg. case_decide as E1; [subst q|]; (case_decide as E2; [subst x|]).
    + split; [done|]. by intros [? _].
    + pose proof (wf_ready0 p x) as Hx. rewrite Hq, elem_of_cons in Hx. naive_solver.
    + split; [|by intros [? _]]. intros Hx%wf_ready0. naive_solver.
    + apply wf_ready0.
  - intros q. rewrite Hrq2. case_decide; [done|]. done.
  - intros w x. rewrite Hwl, Hg. intros Hx. case_decide; [subst|by eapply wf_wait0].
    apply wf_wait0 in Hx. destruct Hx; congruence.
  - intros w. by rewrite Hwl.
  - intros w w' x. rewrite !Hwl. apply wf_wait_one0.
  - intros x. rewrite Hg. case_decide; simpl; [subst; intros E; symmetry; by apply Hcur|].
    intros E. by destruct (Hnr x).
  - intros w. rewrite Hwl. change (idle s2) with (idle s'). rewrite Hi. done.
  - change (idle s2) with (idle s'). rewrite Hi, Hg. case_decide; [by subst|done].
Qed.

(** [task_switch] puts a running thread back at the end of its queue first. *)
Definition requeued (s : sched) (cur : nat) : sched :=
  if decide (t_state (get_task s cur) = TASK_STATE_RUNNING) then readyqueue_insert s cur else s.

Lemma requeued_wf s : wf s → wf (requeued s (current s)) ∧ none_running (requeued s (current s)).
Proof.
  intros W. unfold requeued. case_decide as E.
  - assert (off_lists s (current s)) as Hoff.
    { intros w Hw. apply (wf_wait _ W) in Hw as [?|?]; congruence. }
    split; [apply readyqueue_insert_wf; [done|congruence|done]|].
    intros t. unfold readyqueue_insert. rewrite get_task_upd. case_decide; [done|].
    intros Hr. apply H. symmetry. by apply (wf_running _ W).
  - split; [done|]. intros t Hr. apply E. by rewrite <- (wf_running _ W t Hr).
Qed.

Lemma requeued_rq s cur p :
  rq (requeued s cur) p = rq s p ++
    if decide (t_state (get_task s cur) = TASK_STATE_RUNNING ∧ t_prio (get_task s cur) = p) then [cur] else [].
Proof.
  unfold requeued. case_decide as E1; case_decide as E2; try (naive_solver || by rewrite app_nil_r).
  - unfold readyqueue_insert. rewrite rq_upd, rq_insert. destruct E2 as [_ <-]. by rewrite decide_True.
  - unfold readyqueue_insert. rewrite rq_upd, rq_insert, decide_False by naive_solver. by rewrite app_nil_r.
Qed.

(** One round of [task_switch]. *)
Lemma switch_round run fuel s :
  wf s →
  let s1 := requeued s (current s) in
  ∃ t s2, (highest s1 t ∨ (t = idle s ∧ ∀ p, rq s1 p = [])) ∧ pick s1 = Ret (t, s2) ∧
    (Z.land (t_flags (get_task s t)) TASK_THREAD ≠ 0 →
       switch_loop run (S fuel) (current s) s =
         Ret (with_current (upd_task s2 t (set_state TASK_STATE_RUNNING)) t) ∧
       wf (with_current (upd_task s2 t (set_state TASK_STATE_RUNNING)) t)) ∧
    (Z.land (t_flags (get_task s t)) TASK_THREAD = 0 →
       switch_loop run (S fuel) (current s) s =
         switch_loop run fuel (current s) (run t (upd_task s2 t (set_state TASK_STATE_NONE))) ∧
       wf (upd_task s2 t (set_state TASK_STATE_NONE)) ∧
       current (upd_task s2 t (set_state TASK_STATE_NONE)) = current s).
Proof.
  intros W s1. destruct (requeued_wf s W) as [W1 Hnr]. fold s1 in W1, Hnr.
  assert (∀ x, t_flags (get_task s1 x) = t_flags (get_task s x)) as Hfl.
  { intros x. unfold s1, requeued. case_decide; [|done]. unfold readyqueue_insert.
    rewrite get_task_upd. case_decide; [by subst|done]. }
  assert (idle s1 = idle s ∧ current s1 = current s) as [Hid Hcu].
  { unfold s1, requeued. by case_decide. }
  cbn [switch_loop]. fold (requeued s (current s)). fold s1.
  destruct (pick_spec s1 W1) as [(Ha & Hemp & ->)|(t & rest & p & s2 & Hhi & Hp & Hq & -> & Ht & Hw & Hc & Hi & Hau & Hrq & Hb)].
  - exists (idle s1), s1. cbn [mbind res_bind]. rewrite <- (Hfl (idle s1)).
    assert (t_state (get_task s1 (idle s1)) ≠ TASK_STATE_READY) as Hnready.
    { intros E. pose proof (proj2 (wf_ready _ W1 (t_prio (get_task s1 (idle s1))) (idle s1)) (conj E eq_refl)) as Hin.
      rewrite Hemp in Hin. by apply not_elem_of_nil in Hin. }
    split; [right; by rewrite Hid|]. split; [done|]. split.
    + intros Hf. rewrite (proj2 (Z.eqb_neq _ _) Hf). split; [done|].
      assert (wf (upd_task (with_current s1 (idle s1)) (idle s1) (set_state TASK_STATE_RUNNING))) as Wx; [|done].
      apply set_state_wf; try done.
      * destruct W1; split; try done. intros x Hx. by destruct (Hnr x).
      * right. intros w. exact (wf_idle _ W1 w).
    + intros Hf. by destruct (wf_idle_thread _ W1).
  - exists t, s2. cbn [mbind res_bind]. split; [by left|]. split; [done|].
    assert (get_task s2 t = get_task s1 t) as -> by (unfold get_task; by rewrite Ht).
    rewrite <- (Hfl t). split; intros Hf.
    + rewrite (proj2 (Z.eqb_neq _ _) Hf). split; [done|].
      eapply picked_wf; try done. by intros [?|?].
    + rewrite (proj2 (Z.eqb_eq _ _) Hf). split; [done|]. split; [|simpl; congruence].
      rewrite <- (with_current_id (upd_task s2 t _) (current s2)) by done.
      eapply picked_wf; try done. by intros [?|?].
Qed.

Lemma mutex_unlock_slow_wf s m : wf s → wf (mutex_unlock_sched_locked s m).
Proof.
  intros W. unfold mutex_unlock_sched_locked. set (s1 := with_lock s m false).
  assert (wf s1) as W1 by (by apply with_lock_wf). destruct (wl s1 m) as [|t rest] eqn:E; [done|].
  destruct (pop_wait_wf _ _ _ _ W1 E) as (W2 & Hoff & Hwt).
  assert (wf (readyqueue_insert (with_waits s1 (<[m := rest]> (waits s1))) t)) as W3.
  { apply readyqueue_insert_wf; auto with mios. }
  destruct (_ <=? _); [by apply schedule_wf|done].
Qed.

(** The unlock of [cond_wait] does not change who is running. *)
Lemma mutex_unlock_slow_current s m :
  wf s → t_state (get_task s (current s)) = TASK_STATE_RUNNING →
  current (mutex_unlock_sched_locked s m) = current s ∧
  idle (mutex_unlock_sched_locked s m) = idle s ∧
  t_state (get_task (mutex_unlock_sched_locked s m) (current s)) = TASK_STATE_RUNNING.
Proof.
  intros W Hr. unfold mutex_unlock_sched_locked. change (wl (with_lock s m false) m) with (wl s m).
  destruct (wl s m) as [|t rest] eqn:E; [done|].
  assert (t ≠ current s) as Hne.
  { intros ->. assert (current s ∈ wl s m) as Hin by (rewrite E; by left).
    apply (wf_wait _ W) in Hin as [?|?]; congruence. }
  set (s1 := with_waits _ _).
  assert (t_state (get_task (readyqueue_insert s1 t) (current s)) = TASK_STATE_RUNNING) as Hs.
  { unfold readyqueue_insert. rewrite get_task_upd. by case_decide. }
  destruct (_ <=? _); done.
Qed.

Lemma thread_release_wf s t :
  wf s → t ≠ idle s →
  (u8 (t_refcount (get_task s t) - 1) = 0 → t_state (get_task s t) ≠ TASK_STATE_READY ∧ off_lists s t) →
  wf (thread_release s t).
Proof.
  intros W Hi Hz. unfold thread_release. set (s1 := upd_task s t _).
  assert (∀ f, (∀ x, t_state (f x) = t_state x) →
    (t_state (get_task s t) ≠ TASK_STATE_READY ∧ (∀ x, 0 <= t_prio (f x) < 32) ∨ ∀ x, t_prio (f x) = t_prio x) →
    wf (upd_task s t f)) as Hupd.
  { clear Hz. intros f Hf1 Hf2.
    assert (∀ x, t_state (get_task (upd_task s t f) x) = t_state (get_task s x)) as Hs.
    { intros x. rewrite get_task_upd. case_decide; [subst; apply Hf1|done]. }
    assert (∀ x, x ≠ t → get_task (upd_task s t f) x = get_task s x) as Hg.
    { intros x Hx. rewrite get_task_upd. by case_decide. }
    destruct W. split; try done.
    - intros x. rewrite get_task_upd. case_decide; [|done]. destruct Hf2 as [[_ Hf2]|Hf2]; [apply Hf2|by rewrite Hf2].
    - intros p x. rewrite Hs, rq_upd, wf_ready0. destruct (decide (x = t)) as [->|Hx]; [|by rewrite Hg].
      rewrite get_task_upd, decide_True by done. destruct Hf2 as [[? _]|Hf2]; [|by rewrite Hf2]. tauto.
    - intros w x Hx. rewrite Hs. by eapply wf_wait0.
    - intros x. rewrite Hs. apply wf_running0.
    - change (idle (upd_task s t f)) with (idle s). rewrite Hg by done. done. }
  assert (wf s1) as W1 by (apply Hupd; [done|by right]).
  destruct (_ =? 0) eqn:E0; bool_to_prop; [|done].
  assert (get_task s1 t = set_refcount (u8 (t_refcount (get_task s t) - 1)) (get_task s t)) as Hg1
    by (unfold s1; rewrite get_task_upd; by case_decide).
  rewrite Hg1 in E0. destruct (Hz E0) as [Hn Hoff].
  assert (upd_task s1 t zombie_task = upd_task s t (λ x, zombie_task (set_refcount (u8 (t_refcount x - 1)) x))) as ->.
  { unfold s1, upd_task. f_equal. simpl. unfold get_task at 1. simpl.
    rewrite lookup_insert_eq. simpl. by rewrite insert_insert_eq. }
  apply readyqueue_insert_wf.
  - apply Hupd; [done|]. left. split; [done|]. intros x. simpl. lia.
  - rewrite get_task_upd. by case_decide.
  - exact Hoff.
Qed.

Lemma thread_create_wf s t flags prio :
  wf s → tasks s !! t = None → off_lists s t → wf (thread_create_va s (Some t) flags prio).2.
Proof.
  intros W Hf Hoff. unfold thread_create_va. set (p := if _ =? 0 then 1 else _).
  assert (0 <= p < 32) as Hp.
  { unfold p. change TASK_PRIO_MASK with (2 ^ 5 - 1). rewrite land_ones_mod by lia. change (2 ^ 5) with 32.
    pose proof (Z.mod_pos_bound prio 32 ltac:(lia)). destruct (prio mod 32 =? 0) eqn:E0; lia. }
  set (x := mk_task _ _ _ _ _ _ _). set (s0 := with_tasks s (<[t := set_state TASK_STATE_NONE x]> (tasks s))).
  assert (get_task s t = null_task) as Hg by (unfold get_task; by rewrite Hf).
  assert (∀ y, get_task s0 y = if decide (t = y) then set_state TASK_STATE_NONE x else get_task s y) as Hg0.
  { intros y. unfold get_task, s0. simpl. rewrite lookup_insert. by case_decide. }
  assert (wf s0) as W0.
  { assert (t ≠ idle s) as Hi.
    { intros ->. apply (wf_idle_thread _ W). by rewrite Hg. }
    destruct W. split; try done.
    - intros y. rewrite Hg0. case_decide; [done|]. done.
    - intros q y. change (rq s0 q) with (rq s q). rewrite Hg0, wf_ready0. case_decide; [subst|done].
      rewrite Hg. simpl. naive_solver.
    - intros w y Hy. rewrite Hg0. case_decide; [subst; by destruct (Hoff w)|]. by eapply wf_wait0.
    - intros y. rewrite Hg0. case_decide; [done|]. apply wf_running0.
    - change (idle s0) with (idle s). rewrite Hg0. by case_decide. }
  assert (wf (readyqueue_insert s0 t)) as W1.
  { apply readyqueue_insert_wf; [done| |done]. rewrite Hg0. by case_decide. }
  assert (readyqueue_insert s0 t =
    with_rq (with_tasks s (<[t := x]> (tasks s))) (<[p := rq s p ++ [t]]> (readyqueue s))
      (Z.lor (active_queues s) (u32 (Z.shiftl 1 p)))) as E.
  { unfold readyqueue_insert. rewrite Hg0. case_decide; [|done]. simpl.
    unfold upd_task, with_rq, with_tasks. simpl. f_equal.
    unfold get_task. simpl. rewrite lookup_insert_eq. simpl. by rewrite insert_insert_eq. }
  rewrite E in W1. simpl. by apply schedule_wf, with_threads_wf.
Qed.

Lemma running_off_lists s t :
  wf s → t_state (get_task s t) = TASK_STATE_RUNNING → off_lists s t.
Proof. intros W Hr w Hw. apply (wf_wait _ W) in Hw as [?|?]; congruence. Qed.

(** ** What the operations leave alone

    The reference counts, the list of threads and the idle thread; a dead thread
    that waits to be joined stays one, and no other becomes one. *)

Definition keeps (s s' : sched) : Prop :=
  (∀ t, t_refcount (get_task s' t) = t_refcount (get_task s t)) ∧
  (∀ t, t ≠ idle s → t_state (get_task s t) = TASK_STATE_ZOMBIE → t_state (get_task s' t) = TASK_STATE_ZOMBIE) ∧
  (∀ t, t_state (get_task s' t) = TASK_STATE_ZOMBIE → t_state (get_task s t) = TASK_STATE_ZOMBIE) ∧
  (∀ t, is_Some (tasks s !! t) → is_Some (tasks s' !! t)) ∧
  allthreads s' = allthreads s ∧ idle s' = idle s.

Lemma keeps_refl s : keeps s s.
Proof. by split_and!. Qed.
Lemma keeps_trans s1 s2 s3 : keeps s1 s2 → keeps s2 s3 → keeps s1 s3.
Proof.
  intros (A1 & A2 & A0 & A3 & A4 & A5) (B1 & B2 & B0 & B3 & B4 & B5).
  split_and!; [intros t; by rewrite B1, A1| |intros t Ht; by apply A0, B0| |congruence|congruence].
  - intros t Hi Hz. apply B2; [congruence|by apply A2].
  - intros t Ht. by apply B3, A3.
Qed.
Lemma keeps_same s s' : tasks s' = tasks s → allthreads s' = allthreads s → idle s' = idle s → keeps s s'.
Proof. intros E1 E2 E3. unfold keeps, get_task. rewrite E1. by split_and!. Qed.

Lemma keeps_state s t st :
  t = idle s ∨ t_state (get_task s t) ≠ TASK_STATE_ZOMBIE → st ≠ TASK_STATE_ZOMBIE →
  keeps s (upd_task s t (set_state st)).
Proof.
  intros Ht Hst. split_and!; try done.
  - intros x. rewrite get_task_upd. by case_decide; subst.
  - intros x Hx Hz. rewrite get_task_upd. case_decide; [subst|done]. naive_solver.
  - intros x. rewrite get_task_upd. by case_decide.
  - intros x Hx. cbn. destruct (decide (t = x)) as [->|]; [by rewrite lookup_insert_eq|by rewrite lookup_insert_ne].
Qed.

Lemma keeps_insert s t :
  t = idle s ∨ t_state (get_task s t) ≠ TASK_STATE_ZOMBIE → keeps s (readyqueue_insert s t).
Proof.
  intros Ht. unfold readyqueue_insert. eapply keeps_trans; [|by apply keeps_state; [exact Ht|]]. by apply keeps_same.
Qed.

Lemma keeps_runnable s t : t_state (get_task s t) ≠ TASK_STATE_ZOMBIE → keeps s (make_runnable s t).
Proof. intros Ht. unfold make_runnable. case_decide; [apply keeps_state; [by right|done]|apply keeps_insert; by right]. Qed.

Lemma waiting_not_zombie st : waiting st → st ≠ TASK_STATE_ZOMBIE.
Proof. by intros [-> | ->]. Qed.

Lemma task_wakeup_keeps fuel s w all s' :
  wf s → task_wakeup_sched_locked fuel s w all = Ret s' → keeps s s'.
Proof.
  revert s w all s'. induction fuel as [|fuel IH]; intros s w all s' W; [done|].
  cbn [task_wakeup_sched_locked]. destruct (wl s w) as [|t rest] eqn:E; [intros [= ->]; apply keeps_refl|].
  destruct (pop_wait_wf _ _ _ _ W E) as (W1 & Hoff & Hwt).
  set (s1 := with_waits _ _) in *. change (get_task s t) with (get_task s1 t) in Hwt.
  assert (keeps s s1) as K1 by by apply keeps_same.
  case_decide as Em.
  - set (s2 := upd_task s1 t _).
    assert (wf s2) as W2 by (apply set_state_wf; [done|by apply waiting_not_ready|done|done|by right]).
    assert (keeps s1 s2) as K2 by (apply keeps_state; [right; by apply waiting_not_zombie|done]).
    intros (s3 & H3 & H4)%res_bind_ret.
    assert (wf s3 ∧ keeps s2 s3) as [W3 K3].
    { destruct (_ =? -1); [|injection H3 as <-; split; [done|apply keeps_refl]].
      split; [eapply task_wakeup_wf; [|exact H3]; auto with mios|].
      eapply keeps_trans; [|eapply IH; [|exact H3]; auto with mios]. by apply keeps_same. }
    eapply keeps_trans; [exact K1|]. eapply keeps_trans; [exact K2|].
    eapply keeps_trans; [exact K3|]. by eapply IH.
  - assert (wf (make_runnable s1 t)) as W2 by (apply make_runnable_wf; auto with mios).
    assert (keeps s (make_runnable s1 t)) as K2.
    { eapply keeps_trans; [exact K1|]. apply keeps_runnable. by apply waiting_not_zombie. }
    assert (∀ b : bool, let s2 := if b then schedule (make_runnable s1 t) else make_runnable s1 t in
      wf s2 ∧ keeps s s2) as K3.
    { intros []; (split; [auto with mios|]); [|done]. eapply keeps_trans; [exact K2|]. by apply keeps_same. }
    destruct (K3 ((bool_decide (t = current s1) || (t_prio (get_task s1 (current s1)) <=? t_prio (get_task s1 t)))%bool))
      as [W3 K4].
    destruct all; [|by intros [= <-]]. intros H. eapply keeps_trans; [exact K4|]. by eapply IH.
Qed.

Lemma sleep_keeps s w :
  t_state (get_task s (current s)) = TASK_STATE_RUNNING → keeps s (task_sleep_sched_locked s w).
Proof.
  intros Hr. unfold task_sleep_sched_locked.
  eapply keeps_trans; [|by apply keeps_same]. apply keeps_state; [right; congruence|done].
Qed.

Lemma mutex_unlock_slow_keeps s m : wf s → keeps s (mutex_unlock_sched_locked s m).
Proof.
  intros W. unfold mutex_unlock_sched_locked. set (s1 := with_lock s m false).
  destruct (wl s1 m) as [|t rest] eqn:E; [by apply keeps_same|].
  destruct (pop_wait_wf _ _ _ _ (with_lock_wf s m false W) E) as (_ & _ & Hwt).
  set (s2 := with_waits s1 _). assert (keeps s (readyqueue_insert s2 t)) as K.
  { eapply (keeps_trans _ s2); [by apply keeps_same|]. apply keeps_insert. right. by apply waiting_not_zombie. }
  destruct (_ <=? _); [|done]. eapply keeps_trans; [exact K|]. by apply keeps_same.
Qed.

(** ** The scheduler as a transition system *)

Section Steps.
Context (run : nat → sched → sched) (join_wait : nat).
(** Task functions are called with no thread running and leave a sound state. *)
Hypothesis run_wf : ∀ t s, wf s → wf (run t s) ∧ current (run t s) = current s ∧ keeps s (run t s).

(** Each constructor is one uninterruptible piece of the code, called the way
    its callers do. *)
Inductive sched_op : sched → sched → Prop :=
| step_switch fuel s s' : task_switch run fuel s = Ret s' → sched_op s s'
| step_task_run s t : off_lists s t → sched_op s (task_run s t)
| step_wakeup fuel s w all s' : task_wakeup fuel s w all = Ret s' → sched_op s s'
| step_sleep s w :
    t_state (get_task s (current s)) = TASK_STATE_RUNNING → current s ≠ idle s →
    sched_op s (task_sleep_sched_locked s w)
| step_sleep_until s :
    t_state (get_task s (current s)) = TASK_STATE_RUNNING → current s ≠ idle s →
    sched_op s (thread_sleep_until s)
| step_timeout s t : sched_op s (task_sleep_abs_sched_locked_timeout s t)
| step_until_timeout s t :
    t_state (get_task s t) = TASK_STATE_SLEEPING → off_lists s t →
    sched_op s (task_sleep_until_timeout s t)
| step_lock s m :
    t_state (get_task s (current s)) = TASK_STATE_RUNNING → current s ≠ idle s →
    sched_op s (mutex_lock s m).2
| step_trylock s m : sched_op s (mutex_trylock s m).2
| step_unlock s m : sched_op s (mutex_unlock s m)
| step_cond_wait s c m :
    t_state (get_task s (current s)) = TASK_STATE_RUNNING → current s ≠ idle s →
    sched_op s (cond_wait s c m).

Lemma switch_loop_wf fuel s s' :
  wf s → switch_loop run fuel (current s) s = Ret s' → wf s' ∧ keeps s s'.
Proof using run_wf.
  revert s. induction fuel as [|fuel IH]; intros s W; [done|].
  destruct (switch_round run fuel s W) as (t & s2 & Hpick & Ep & Hth & Hta).
  assert (keeps s (requeued s (current s))) as K1.
  { unfold requeued. case_decide; [|apply keeps_refl]. apply keeps_insert. right. congruence. }
  assert (∀ st, st ≠ TASK_STATE_ZOMBIE → keeps s (upd_task s2 t (set_state st))) as K2.
  { destruct (requeued_wf s W) as [W1 _]. intros st Hst. eapply keeps_trans; [exact K1|].
    set (s1 := requeued s (current s)) in *.
    destruct (pick_spec s1 W1) as [(Ha & _ & Ep2)|(t2 & rest & p & s3 & Hhi & Hp & Hq & Ep2 & Ht & _ & _ & Hi & _)];
      rewrite Ep in Ep2; injection Ep2 as -> ->.
    - apply keeps_state; [by left|done].
    - assert (allthreads s3 = allthreads s1) as Hal.
      { unfold pick in Ep. destruct (_ =? 0); [by injection Ep as <- <-|]. destruct (rq s1 _); [done|].
        by injection Ep as <- <-. }
      apply (keeps_trans _ s3); [by apply keeps_same|]. apply keeps_state; [right|done].
      unfold get_task. rewrite Ht. change (t_state (get_task s1 t2) ≠ TASK_STATE_ZOMBIE).
      assert (t2 ∈ rq s1 p) as [Hr _]%(wf_ready _ W1) by (rewrite Hq; by left). congruence. }
  destruct (Z.eq_dec (Z.land (t_flags (get_task s t)) TASK_THREAD) 0) as [E|E].
  - destruct (Hta E) as (-> & W2 & Hc). destruct (run_wf t _ W2) as (W3 & Hc3 & K3).
    rewrite <- Hc, <- Hc3. intros H. destruct (IH _ W3 H) as [W4 K4]. split; [done|].
    eapply keeps_trans; [by apply (K2 TASK_STATE_NONE)|]. by eapply keeps_trans.
  - destruct (Hth E) as [-> W2]. intros [= <-]. split; [done|].
    eapply keeps_trans; [by apply (K2 TASK_STATE_RUNNING)|]. by apply keeps_same.
Qed.

Lemma sched_op_wf s s' : wf s → sched_op s s' → wf s' ∧ keeps s s'.
Proof using run_wf.
  intros W H. destruct H as [fuel s s' H|s t Hoff|fuel s w all s' H|s w Hr Hi|s Hr Hi|s t|s t Hs Hoff|s m Hr Hi
    |s m|s m|s c m Hr Hi].
  - by eapply switch_loop_wf.
  - unfold task_run. case_decide as E; [|split; [by apply schedule_wf|by apply keeps_same]]. split.
    + apply schedule_wf, readyqueue_insert_wf; [done|congruence|done].
    + eapply keeps_trans; [|by apply keeps_same]. apply keeps_insert. right. congruence.
  - split; [by eapply task_wakeup_wf|by eapply task_wakeup_keeps].
  - split; [by apply schedule_wf, sleep_wf|by apply sleep_keeps].
  - split; [apply schedule_wf, set_state_wf; try done; [congruence|]; left; by left|].
    eapply keeps_trans; [|by apply keeps_same]. apply keeps_state; [right; congruence|done].
  - unfold task_sleep_abs_sched_locked_timeout. case_decide as E; [|by split; [|apply keeps_refl]].
    assert (t_state (get_task (unlink_wait s t) t) = TASK_STATE_SLEEPING) as E' by exact E. split.
    + apply schedule_wf, make_runnable_wf; [|congruence|].
      * apply waits_shrink_wf; [done|]. intros w.
        change (default [] _) with (wl (unlink_wait s t) w). rewrite wl_unlink. apply sublist_filter.
      * intros w. rewrite wl_unlink. rewrite list_elem_of_filter. naive_solver.
    + apply (keeps_trans _ (unlink_wait s t)); [by apply keeps_same|].
      eapply keeps_trans; [|by apply keeps_same]. apply keeps_runnable. congruence.
  - split; [apply schedule_wf, make_runnable_wf; [done|congruence|done]|].
    eapply keeps_trans; [|by apply keeps_same]. apply keeps_runnable. congruence.
  - unfold mutex_lock. destruct (lock_word_zero s m); [split; [by apply with_lock_wf|by apply keeps_same]|].
    unfold mutex_lock_sched_locked.
    destruct (locked s m); [|split; [by apply with_lock_wf|by apply keeps_same]].
    case_decide as E; [split; [by apply schedule_wf|by apply keeps_same]|].
    split; [by apply schedule_wf, sleep_wf|]. by apply sleep_keeps.
  - unfold mutex_trylock, mutex_trylock_slow.
    destruct (lock_word_zero s m); [split; [by apply with_lock_wf|by apply keeps_same]|].
    destruct (locked s m); [split; [done|apply keeps_refl]|split; [by apply with_lock_wf|by apply keeps_same]].
  - unfold mutex_unlock. destruct (_ && _)%bool; [split; [by apply with_lock_wf|by apply keeps_same]|].
    split; [by apply mutex_unlock_slow_wf|by apply mutex_unlock_slow_keeps].
  - destruct (mutex_unlock_slow_current s m W Hr) as (E1 & E2 & E3). unfold cond_wait. split.
    + apply schedule_wf, sleep_wf; [by apply mutex_unlock_slow_wf|by rewrite E1|by rewrite E1, E2].
    + eapply keeps_trans; [by apply mutex_unlock_slow_keeps|]. apply sleep_keeps. by rewrite E1.
Qed.

(** Giving up a reference touches that thread only. *)
Lemma thread_release_effect s t :
  let s' := thread_release s t in
  (∀ x, x ≠ t → get_task s' x = get_task s x) ∧
  t_refcount (get_task s' t) = u8 (t_refcount (get_task s t) - 1) ∧
  (u8 (t_refcount (get_task s t) - 1) ≠ 0 → t_state (get_task s' t) = t_state (get_task s t)) ∧
  (∀ x, is_Some (tasks s !! x) → is_Some (tasks s' !! x)) ∧
  allthreads s' = allthreads s ∧ idle s' = idle s ∧ current s' = current s.
Proof.
  unfold thread_release. set (s1 := upd_task s t _).
  assert (get_task s1 t = set_refcount (u8 (t_refcount (get_task s t) - 1)) (get_task s t)) as Hg1
    by (unfold s1; rewrite get_task_upd; by case_decide).
  assert (∀ x, x ≠ t → get_task s1 x = get_task s x) as Hg by (intros x Hx; unfold s1; rewrite get_task_upd; by case_decide).
  assert (∀ f s0 x, is_Some (tasks s0 !! x) → is_Some (tasks (upd_task s0 t f) !! x)) as Hd.
  { intros f s0 x Hx. cbn. destruct (decide (t = x)) as [->|]; [by rewrite lookup_insert_eq|by rewrite lookup_insert_ne]. }
  rewrite Hg1. cbn [t_refcount set_refcount]. destruct (_ =? 0) eqn:E0; bool_to_prop.
  - unfold readyqueue_insert. set (s2 := upd_task s1 t zombie_task).
    assert (∀ x, get_task s2 x = if decide (t = x) then zombie_task (get_task s1 t) else get_task s1 x) as Hg2
      by (intros x; apply get_task_upd).
    split_and!; try done.
    + intros x Hx. rewrite get_task_upd. rewrite decide_False by done.
      change (get_task (with_rq s2 _ _) x) with (get_task s2 x). rewrite Hg2, decide_False by done. by apply Hg.
    + rewrite get_task_upd, decide_True by done. change (get_task (with_rq s2 _ _) t) with (get_task s2 t).
      rewrite Hg2, decide_True, Hg1 by done. done.
    + intros x Hx. refine (Hd (set_state TASK_STATE_READY) (with_rq s2 _ _) x _).
      exact (Hd zombie_task s1 x (Hd _ s x Hx)).
  - split_and!; try done; [by rewrite Hg1|by rewrite Hg1|]. intros x Hx. by apply Hd.
Qed.

(** The references: [own t] while the thread has not been joined, or has not exited
    when it is detached; [refs t] is how many walks of the thread list hold it. *)
Record ksys := mk_ksys { ks : sched; own : gset nat; refs : nat → nat }.

Definition detached (s : sched) (t : nat) : bool := negb (Z.land (t_flags (get_task s t)) TASK_DETACHED =? 0).

(** The references after [thread_get_next]: one more on what it returns, one less on
    the thread it was given. *)
Definition refs_next (r : nat → nat) (cur t : option nat) (x : nat) : nat :=
  (r x + (if decide (t = Some x) then 1 else 0) - (if decide (cur = Some x) then 1 else 0))%nat.

(** The operations, with the creation, the end and the references of threads.  A
    thread exits once; it is joined once and not when it is detached (the assertion
    of [thread_join]); a walk goes on from the thread it holds; no thread is held by
    254 walks.  A detached thread does not exit while a walk holds it. *)
Inductive sched_step : ksys → ksys → Prop :=
| step_op k s' : sched_op (ks k) s' → sched_step k (mk_ksys s' (own k) (refs k))
| step_create k t flags prio :
    tasks (ks k) !! t = None → off_lists (ks k) t →
    sched_step k (mk_ksys (thread_create_va (ks k) (Some t) flags prio).2 ({[t]} ∪ own k) (refs k))
| step_exit k fuel s' :
    let cur := current (ks k) in
    t_state (get_task (ks k) cur) = TASK_STATE_RUNNING → cur ∈ own k →
    (detached (ks k) cur = true → refs k cur = 0%nat) →
    thread_exit fuel join_wait (ks k) = Ret s' →
    sched_step k (mk_ksys s' (if detached (ks k) cur then own k ∖ {[cur]} else own k) (refs k))
| step_join k t joined s' :
    t_state (get_task (ks k) (current (ks k))) = TASK_STATE_RUNNING → current (ks k) ≠ idle (ks k) →
    t ∈ own k → detached (ks k) t = false →
    thread_join join_wait (ks k) t = (joined, s') →
    sched_step k (mk_ksys s' (if joined : bool then own k ∖ {[t]} else own k) (refs k))
| step_next k cur t s' :
    (∀ c, cur = Some c → (0 < refs k c)%nat) → (∀ x, (refs k x < 254)%nat) →
    thread_get_next (ks k) cur = (t, s') →
    sched_step k (mk_ksys s' (own k) (refs_next (refs k) cur t)).

Definition held (k : ksys) (t : nat) : Z := b2z (bool_decide (t ∈ own k)) + Z.of_nat (refs k t).

Record refs_ok (k : ksys) : Prop := {
  ro_wf : wf (ks k);
  ro_count t : 0 < held k t → t_refcount (get_task (ks k) t) = held k t;
  ro_small t : (refs k t <= 254)%nat;
  ro_zombie t : t ∉ own k → (0 < refs k t)%nat → t_state (get_task (ks k) t) = TASK_STATE_ZOMBIE;
  ro_task t : 0 < held k t → t ≠ idle (ks k) ∧ is_Some (tasks (ks k) !! t);
  ro_all t : t ∈ allthreads (ks k) → t ∈ own k ∧ t_state (get_task (ks k) t) ≠ TASK_STATE_ZOMBIE;
}.

Lemma held_own k t : t ∈ own k → held k t = 1 + Z.of_nat (refs k t).
Proof. intros Ht. unfold held. by rewrite bool_decide_true. Qed.
Lemma held_not_own k t : t ∉ own k → held k t = Z.of_nat (refs k t).
Proof. intros Ht. unfold held. rewrite bool_decide_false by done. cbn. lia. Qed.

(** Operations that keep the references. *)
Lemma refs_ok_keeps k s' :
  refs_ok k → wf s' → keeps (ks k) s' → refs_ok (mk_ksys s' (own k) (refs k)).
Proof.
  intros [Hwf Hc Hs Hz Ht Ha] W (K1 & K2 & K0 & K3 & K4 & K5).
  split; cbn [ks own refs]; try done.
  - intros t Hh. rewrite K1. by apply Hc.
  - intros t Ho Hr. apply K2; [|by apply Hz]. apply Ht. rewrite held_not_own by done. lia.
  - intros t Hh. rewrite K5. destruct (Ht t Hh) as [? ?]. split; [done|by apply K3].
  - intros t. rewrite K4. intros Hin. destruct (Ha t Hin) as [? Hn]. split; [done|]. intros E. by apply Hn, K0.
Qed.

(** A reference is given up: the last one only of a thread that is dead, or exits. *)
Lemma refs_ok_release k t own' refs' :
  refs_ok k → 0 < held k t →
  (∀ x, x ≠ t → (x ∈ own' ↔ x ∈ own k) ∧ refs' x = refs k x) →
  held (mk_ksys (ks k) own' refs') t = held k t - 1 →
  (held k t = 1 → t_state (get_task (ks k) t) ≠ TASK_STATE_READY ∧ off_lists (ks k) t) →
  (t ∉ own' → (0 < refs' t)%nat → t_state (get_task (ks k) t) = TASK_STATE_ZOMBIE) →
  (refs' t <= 254)%nat → (t ∈ allthreads (ks k) → t ∈ own' ∧ held k t ≠ 1) →
  refs_ok (mk_ksys (thread_release (ks k) t) own' refs').
Proof.
  intros [Hwf Hc Hs Hz Ht Ha] Hpos Hx Hh Hlast Hzom Hsm Hall.
  destruct (thread_release_effect (ks k) t) as (E1 & E2 & E3 & E4 & E5 & E6 & _).
  assert (∀ x, x ≠ t → held (mk_ksys (ks k) own' refs') x = held k x) as Hhx.
  { intros x Hne. destruct (Hx x Hne) as [H1 H2]. unfold held. cbn [own refs]. rewrite H2.
    by rewrite (bool_decide_ext _ _ H1). }
  assert (0 < held k t <= 255) as Hb.
  { specialize (Hs t). unfold held in Hpos |- *. destruct (bool_decide (t ∈ own k)); cbn [b2z] in *; lia. }
  assert (u8 (t_refcount (get_task (ks k) t) - 1) = held k t - 1) as Hu.
  { rewrite (Hc t Hpos). apply u8_id. unfold is_byte. lia. }
  rewrite Hu in E2, E3. split; cbn [ks own refs].
  - apply thread_release_wf; [done|by apply Ht|]. rewrite Hu. intros E. apply Hlast. lia.
  - intros x. destruct (decide (x = t)) as [->|Hne].
    + intros _. rewrite E2. symmetry. exact Hh.
    + change (held (mk_ksys (thread_release (ks k) t) own' refs') x) with (held (mk_ksys (ks k) own' refs') x).
      rewrite Hhx, E1 by done. apply Hc.
  - intros x. destruct (decide (x = t)) as [->|Hne]; [done|]. by rewrite (proj2 (Hx x Hne)).
  - intros x Ho Hr. destruct (decide (x = t)) as [->|Hne].
    + rewrite E3; [by apply Hzom|]. rewrite <- Hh, held_not_own by done. cbn. lia.
    + destruct (Hx x Hne) as [H1 H2]. rewrite E1 by done. apply Hz; [by rewrite <- H1|lia].
  - intros x Hh'. rewrite E6. destruct (decide (x = t)) as [->|Hne].
    + destruct (Ht t Hpos) as [? ?]. split; [done|by apply E4].
    + change (0 < held (mk_ksys (ks k) own' refs') x) in Hh'. rewrite Hhx in Hh' by done.
      destruct (Ht x Hh') as [? ?]. split; [done|by apply E4].
  - intros x. rewrite E5. intros Hin. destruct (Ha x Hin) as [Ho Hn]. destruct (decide (x = t)) as [->|Hne].
    + destruct (Hall Hin) as [? ?]. split; [done|]. rewrite E3; [done|lia].
    + rewrite E1 by done. split; [by apply (Hx x Hne)|done].
Qed.

Lemma refs_ok_retain k t :
  refs_ok k → t ∈ own k → (refs k t < 254)%nat →
  refs_ok (mk_ksys (thread_retain (ks k) t) (own k) (λ x, if decide (x = t) then S (refs k x) else refs k x)).
Proof.
  intros Hok Ho Hlt. pose proof Hok as [Hwf Hc Hs Hz Ht Ha]. unfold thread_retain. set (s1 := upd_task _ _ _).
  assert (∀ x, get_task s1 x = if decide (t = x) then set_refcount (u8 (t_refcount (get_task (ks k) t) + 1)) (get_task (ks k) t)
    else get_task (ks k) x) as Hg
    by (intros x; exact (get_task_upd _ _ (λ x, set_refcount (u8 (t_refcount x + 1)) x) x)).
  assert (∀ x, t_state (get_task s1 x) = t_state (get_task (ks k) x) ∧ t_prio (get_task s1 x) = t_prio (get_task (ks k) x) ∧
    t_flags (get_task s1 x) = t_flags (get_task (ks k) x)) as Hst by (intros x; rewrite Hg; by case_decide; subst).
  assert (held k t = 1 + Z.of_nat (refs k t)) as Hh by by apply held_own.
  split; cbn [ks own refs].
  - destruct Hwf. split; try done.
    + intros x. by rewrite (proj1 (proj2 (Hst x))).
    + intros p x. change (rq s1 p) with (rq (ks k) p). destruct (Hst x) as (-> & -> & _). apply wf_ready0.
    + intros w x Hx. rewrite (proj1 (Hst x)). by eapply wf_wait0.
    + intros x. rewrite (proj1 (Hst x)). apply wf_running0.
    + change (idle s1) with (idle (ks k)). by rewrite (proj2 (proj2 (Hst (idle (ks k))))).
  - intros x. rewrite Hg. unfold held. cbn [own refs]. destruct (decide (x = t)) as [->|Hne].
    + intros _. rewrite decide_True by done. cbn [t_refcount set_refcount]. rewrite (Hc t) by lia.
      rewrite Hh, bool_decide_true by done. cbn [b2z]. rewrite u8_id; [lia|]. unfold is_byte. lia.
    + rewrite decide_False by done. apply Hc.
  - intros x. case_decide; [subst; lia|apply Hs].
  - intros x Hx. rewrite (proj1 (Hst x)). case_decide; [by subst|]. by apply Hz.
  - intros x Hx. assert (0 < held k x) as Hp.
    { destruct (decide (x = t)) as [->|Hne]; [lia|]. revert Hx. unfold held. cbn [own refs].
      by rewrite decide_False by done. }
    destruct (Ht x Hp) as [? ?]. split; [done|]. unfold s1, upd_task. cbn.
    destruct (decide (t = x)) as [->|]; [by rewrite lookup_insert_eq|by rewrite lookup_insert_ne].
  - intros x Hx. rewrite (proj1 (Hst x)). by apply Ha.
Qed.

Lemma refs_ok_ext s o r r' : (∀ x, r x = r' x) → refs_ok (mk_ksys s o r) → refs_ok (mk_ksys s o r').
Proof.
  intros E [H1 H2 H3 H4 H5 H6]. assert (∀ x, held (mk_ksys s o r') x = held (mk_ksys s o r) x) as Hh
    by (intros x; unfold held; cbn; by rewrite E).
  split; cbn in *; try done; intros x; rewrite ?Hh, <- ?E; auto.
Qed.

Lemma zombie_released s t :
  wf s → t_state (get_task s t) = TASK_STATE_ZOMBIE → t_state (get_task s t) ≠ TASK_STATE_READY ∧ off_lists s t.
Proof.
  intros W E. split; [congruence|]. intros w Hw. apply (wf_wait _ W) in Hw as [?|?]; congruence.
Qed.

Lemma refs_ok_exit k fuel s' :
  let cur := current (ks k) in
  refs_ok k → t_state (get_task (ks k) cur) = TASK_STATE_RUNNING → cur ∈ own k →
  (detached (ks k) cur = true → refs k cur = 0%nat) →
  thread_exit fuel join_wait (ks k) = Ret s' →
  refs_ok (mk_ksys s' (if detached (ks k) cur then own k ∖ {[cur]} else own k) (refs k)).
Proof.
  intros cur Hok Hr Ho Hd H. unfold thread_exit in H. fold cur in H. apply res_bind_ret in H as (s1 & H & [= <-]).
  set (s0 := with_threads (ks k) _) in *.
  assert (cur ∉ allthreads s0) as Hcur by (unfold s0; cbn; rewrite list_elem_of_filter; tauto).
  assert (refs_ok (mk_ksys s0 (own k) (refs k))) as Hok0.
  { destruct Hok as [Hwf Hc Hs Hz Ht Ha]. split; try done; [by apply with_threads_wf|].
    intros t Hin. unfold s0 in Hin. cbn in Hin. apply list_elem_of_filter in Hin as [_ Hin]. by apply Ha. }
  set (k0 := mk_ksys s0 (own k) (refs k)) in *. pose proof (ro_wf _ Hok0) as W0. cbn in W0.
  change (get_task s0 cur) with (get_task (ks k) cur) in H. fold (detached (ks k) cur) in H.
  assert (∀ own', refs_ok (mk_ksys s1 own' (refs k)) → refs_ok (mk_ksys (schedule s1) own' (refs k))) as Hsch.
  { intros own' Hx. by apply (refs_ok_keeps (mk_ksys s1 own' (refs k))); [|apply schedule_wf, (ro_wf _ Hx)|apply keeps_same]. }
  apply Hsch. destruct (detached (ks k) cur).
  - injection H as <-. specialize (Hd eq_refl).
    assert (held k0 cur = 1) as Hh by (rewrite held_own by done; cbn; rewrite Hd; lia).
    apply (refs_ok_release k0 cur); try done; cbn [ks own refs k0].
    + lia.
    + intros x Hx. split; [set_solver|done].
    + rewrite Hh, held_not_own by (cbn; set_solver). cbn. by rewrite Hd.
    + intros _. change (get_task s0 cur) with (get_task (ks k) cur). split; [congruence|].
      apply running_off_lists; [done|]. exact Hr.
    + lia.
    + lia.
  - set (s2 := upd_task s0 cur (set_state TASK_STATE_ZOMBIE)) in H.
    assert (∀ x, get_task s2 x = if decide (cur = x) then set_state TASK_STATE_ZOMBIE (get_task s0 cur) else get_task s0 x)
      as Hg by (intros x; apply get_task_upd).
    assert (wf s2) as W2.
    { apply set_state_wf; try done; [|right; by apply running_off_lists].
      change (get_task s0 cur) with (get_task (ks k) cur). congruence. }
    assert (refs_ok (mk_ksys s2 (own k) (refs k))) as Hok2.
    { destruct Hok0 as [_ Hc Hs Hz Ht Ha]. split; cbn [ks own refs]; try done.
      - intros x Hx. rewrite Hg. specialize (Hc x Hx). cbn in Hc. by case_decide; subst.
      - intros x Hx1 Hx2. rewrite Hg. case_decide; [done|]. by apply Hz.
      - intros x Hx. destruct (Ht x Hx) as [? ?]. split; [done|]. unfold s2, upd_task. cbn [tasks with_tasks].
        destruct (decide (cur = x)) as [->|]; [by rewrite lookup_insert_eq|by rewrite lookup_insert_ne].
      - intros x Hx. rewrite Hg. case_decide; [by subst|]. by apply Ha. }
    apply (refs_ok_keeps (mk_ksys s2 (own k) (refs k))); [done| |].
    + by eapply task_wakeup_wf; [|exact H].
    + by eapply task_wakeup_keeps; [|exact H].
Qed.

Lemma next_after_in c l x : next_after c l = Some x → x ∈ l.
Proof.
  induction l as [|y l IH]; [done|]. cbn. case_decide.
  - destruct l; [done|]. cbn. intros [= ->]. set_solver.
  - intros Hn. right. by apply IH.
Qed.

Lemma refs_ok_step k k' : refs_ok k → sched_step k k' → refs_ok k'.
Proof using run_wf.
  intros Hok Hst. pose proof Hok as [Hwf Hc Hs Hz Ht Ha].
  destruct Hst as [k s' Hop|k t flags prio Hf Hoff|k fuel s' cur Hr Ho Hd H|k t joined s' Hr Hi Ho Hnd H|k cur t s' Hcur Hlt H].
  - destruct (sched_op_wf _ _ Hwf Hop). by apply refs_ok_keeps.
  - assert (held k t = 0) as Hh.
    { destruct (decide (0 < held k t)) as [Hp|]; [destruct (Ht t Hp) as [_ [? ?]]; congruence|].
      unfold held in *. destruct (bool_decide _); cbn [b2z] in *; lia. }
    assert (t ∉ own k ∧ refs k t = 0%nat) as [Hno Hr0].
    { unfold held in Hh. case_bool_decide; cbn [b2z] in Hh; [lia|]. split; [done|lia]. }
    unfold thread_create_va. set (p := if _ =? 0 then 1 else _). set (x0 := mk_task _ _ _ _ _ _ _). cbn [snd].
    set (s' := schedule _).
    assert (∀ x, get_task s' x = if decide (t = x) then x0 else get_task (ks k) x) as Hg.
    { intros x. unfold get_task, s'. cbn. destruct (decide (t = x)) as [->|];
        [by rewrite lookup_insert_eq|by rewrite lookup_insert_ne]. }
    assert (∀ x, x ≠ t → held (mk_ksys s' ({[t]} ∪ own k) (refs k)) x = held k x) as Hhx.
    { intros x Hx. unfold held. cbn [own refs]. rewrite (bool_decide_ext (x ∈ {[t]} ∪ own k) (x ∈ own k)) by set_solver. done. }
    split; cbn [ks own refs].
    + exact (thread_create_wf (ks k) t flags prio Hwf Hf Hoff).
    + intros x. rewrite Hg. destruct (decide (x = t)) as [->|Hx].
      * intros _. rewrite decide_True by done. rewrite held_own by (cbn; set_solver). cbn [refs]. by rewrite Hr0.
      * rewrite decide_False, Hhx by done. apply Hc.
    + done.
    + intros x Hx1 Hx2. rewrite Hg, decide_False by set_solver. apply Hz; [set_solver|done].
    + intros x Hx. change (idle s') with (idle (ks k)). destruct (decide (x = t)) as [->|Hne].
      * split; [|cbn; by rewrite lookup_insert_eq].
        intros E. apply (wf_idle_thread _ Hwf). rewrite <- E. unfold get_task. by rewrite Hf.
      * rewrite Hhx in Hx by done. destruct (Ht x Hx). split; [done|]. cbn. by rewrite lookup_insert_ne.
    + intros x. change (allthreads s') with (t :: allthreads (ks k)). rewrite elem_of_cons, Hg.
      intros [->|Hx]; [rewrite decide_True by done; set_solver|]. destruct (Ha x Hx) as [? ?].
      split; [set_solver|]. by case_decide.
  - by eapply refs_ok_exit.
  - unfold thread_join in H. case_decide as E; injection H as <- <-.
    + assert (held k t = 1 + Z.of_nat (refs k t)) as Hh by by apply held_own.
      apply refs_ok_release; try done; [lia|set_solver| |intros _; by apply zombie_released|].
      * rewrite Hh, held_not_own by (cbn; set_solver). cbn. lia.
      * intros Hin. by destruct (Ha t Hin).
    + apply refs_ok_keeps; [done|by apply schedule_wf, sleep_wf|by apply sleep_keeps].
  - unfold thread_get_next in H. set (t0 := match cur with None => _ | _ => _ end) in H.
    assert (∀ x, t0 = Some x → x ∈ allthreads (ks k)) as Hin.
    { intros x. unfold t0. destruct cur as [c|].
      - apply next_after_in.
      - destruct (allthreads (ks k)); [done|]. cbn. intros [= ->]. set_solver. }
    set (r1 := λ x, (refs k x + (if decide (t0 = Some x) then 1 else 0))%nat).
    set (s1 := match t0 with Some t => thread_retain (ks k) t | None => ks k end) in H.
    assert (refs_ok (mk_ksys s1 (own k) r1)) as Hok1.
    { destruct t0 as [y|] eqn:Et; subst s1.
      - destruct (Ha y (Hin y eq_refl)) as [Hoy _]. eapply refs_ok_ext; [|by apply (refs_ok_retain k y)].
        intros x. unfold r1. cbn. destruct (decide (x = y)) as [->|];
          [rewrite decide_True by done; lia|rewrite decide_False by congruence; lia].
      - apply (refs_ok_ext _ _ (refs k)); [|by destruct k]. intros x. unfold r1. by rewrite decide_False, Nat.add_0_r. }
    injection H as <- <-. destruct cur as [c|].
    2: { eapply refs_ok_ext; [|exact Hok1]. intros x. unfold r1, refs_next. rewrite (decide_False (P := None = Some x)) by done. lia. }
    set (k1 := mk_ksys s1 (own k) r1) in *. specialize (Hcur c eq_refl).
    assert (0 < r1 c)%nat as Hr1 by (unfold r1; lia).
    assert (held k1 c = Z.of_nat (r1 c) + b2z (bool_decide (c ∈ own k))) as Hh by (unfold held; cbn; lia).
    assert (∀ x, refs_next (refs k) (Some c) t0 x = if decide (x = c) then (r1 x - 1)%nat else r1 x) as Hrn.
    { intros x. unfold refs_next, r1. destruct (decide (x = c)) as [->|];
        [by rewrite (decide_True (P := Some c = Some c))|rewrite (decide_False (P := Some c = Some x)) by congruence; lia]. }
    change (thread_release s1 c) with (thread_release (ks k1) c).
    assert (t_state (get_task (ks k1) c) = TASK_STATE_ZOMBIE ∨ c ∈ own k) as Hzo.
    { destruct (decide (c ∈ own k)); [by right|]. left. by apply (ro_zombie _ Hok1). }
    apply refs_ok_release; try done.
    + destruct (bool_decide _); cbn [b2z] in Hh; lia.
    + intros x Hx. split; [done|]. by rewrite Hrn, decide_False.
    + unfold held at 1. cbn [own refs]. rewrite Hrn, decide_True by done. lia.
    + intros E. destruct Hzo as [E2|Ho]; [by apply zombie_released, E2; apply (ro_wf _ Hok1)|].
      rewrite bool_decide_true in Hh by done. cbn [b2z] in Hh. lia.
    + intros Ho _. by destruct Hzo.
    + rewrite Hrn, decide_True by done. pose proof (ro_small _ Hok1 c) as Hsm. cbn in Hsm. lia.
    + intros Hi. destruct (ro_all _ Hok1 c Hi) as [Ho _]. cbn in Ho. split; [done|].
      rewrite bool_decide_true in Hh by done. cbn [b2z] in Hh. lia.
Qed.

End Steps.

(** ** Wakeups terminate *)

Definition entries (s : sched) : nat := map_fold (λ _ l n, (length l + n)%nat) 0%nat (waits s).

Lemma map_fold_len_insert (m : gmap nat (list nat)) w l :
  (map_fold (λ _ l n, length l + n) 0 (<[w := l]> m) =
   length l + map_fold (λ _ l n, length l + n) 0 (delete w m))%nat.
Proof.
  rewrite <- insert_delete_eq. apply (map_fold_insert_L (λ (_ : nat) (l : list nat) n, (length l + n)%nat) 0%nat w l (delete w m));
    [|by rewrite lookup_delete_eq].
  intros. lia.
Qed.

Lemma entries_pop s w t rest :
  wl s w = t :: rest → entries s = S (entries (with_waits s (<[w := rest]> (waits s)))).
Proof.
  intros E. unfold entries. simpl. rewrite map_fold_len_insert.
  unfold wl in E. destruct (waits s !! w) as [l|] eqn:Ew; [|done]. simpl in E. subst l.
  rewrite <- (insert_id _ _ _ Ew) at 1. rewrite map_fold_len_insert. done.
Qed.

Lemma make_runnable_waits s t : waits (make_runnable s t) = waits s.
Proof. unfold make_runnable. by case_decide. Qed.

Lemma task_wakeup_total fuel s w all :
  (entries s < fuel)%nat →
  ∃ s', task_wakeup_sched_locked fuel s w all = Ret s' ∧ (entries s' <= entries s)%nat.
Proof.
  revert s w all. induction fuel as [|fuel IH]; intros s w all Hf; [lia|].
  cbn [task_wakeup_sched_locked]. destruct (wl s w) as [|t rest] eqn:E; [by exists s|].
  pose proof (entries_pop _ _ _ _ E) as Hp. set (s1 := with_waits _ _) in *.
  case_decide as Em.
  - set (s2 := upd_task s1 t _). assert (entries s2 = entries s1) as E2 by done.
    assert (∃ s3, (if default (-1) (wm_which s2 !! t_mux (get_task s2 t)) =? -1
        then task_wakeup_sched_locked fuel (with_which s2 (t_mux (get_task s2 t)) (t_index (get_task s2 t)))
               (t_mux (get_task s2 t)) true else Ret s2) = Ret s3 ∧ (entries s3 <= entries s1)%nat)
      as (s3 & -> & H3).
    { destruct (_ =? -1); [|by exists s2].
      change (entries s1) with (entries (with_which s2 (t_mux (get_task s2 t)) (t_index (get_task s2 t)))).
      apply IH. change (entries (with_which _ _ _)) with (entries s1). lia. }
    cbn [mbind res_bind]. destruct (IH s3 w all ltac:(lia)) as (s4 & -> & H4). exists s4. split; [done|lia].
  - set (s2 := make_runnable s1 t).
    assert (∀ b : bool, entries (if b then schedule s2 else s2) = entries s1) as E2.
    { intros b. unfold entries, s2. destruct b; simpl; by rewrite make_runnable_waits. }
    destruct all.
    + match goal with |- context [task_wakeup_sched_locked fuel ?x w true] =>
        destruct (IH x w true) as (s4 & -> & H4) end.
      * rewrite E2. lia.
      * exists s4. rewrite E2 in H4. split; [done|lia].
    + eexists. split; [done|]. rewrite E2. lia.
Qed.

(** ** Waking and sleeping in order *)

Lemma make_runnable_facts s t :
  let s' := make_runnable s t in
  current s' = current s ∧ (∀ w, wl s' w = wl s w) ∧
  (∀ x, t_prio (get_task s' x) = t_prio (get_task s x)) ∧
  (∀ p, rq s' p = rq s p ++ if decide (t_prio (get_task s t) = p ∧ t ≠ current s) then [t] else []) ∧
  (∀ x, t_state (get_task s' x) =
     if decide (t = x) then if decide (t = current s) then TASK_STATE_RUNNING else TASK_STATE_READY
     else t_state (get_task s x)).
Proof.
  unfold make_runnable. destruct (decide (t = current s)) as [E|E]; cbv zeta.
  - split_and!; try done.
    + intros x. rewrite get_task_upd. case_decide; [by subst|done].
    + intros p. rewrite decide_False by naive_solver. by rewrite app_nil_r.
    + intros x. rewrite get_task_upd. by case_decide.
  - unfold readyqueue_insert. split_and!; try done.
    + intros x. rewrite get_task_upd. case_decide; [by subst|done].
    + intros p. rewrite rq_upd, rq_insert. case_decide as E1.
      * rewrite decide_True by done. by rewrite E1.
      * rewrite decide_False by naive_solver. by rewrite app_nil_r.
    + intros x. rewrite get_task_upd. by case_decide.
Qed.

Lemma filter_cons_if {A} (P : A → Prop) `{∀ x, Decision (P x)} x l :
  filter P (x :: l) = (if decide (P x) then [x] else []) ++ filter P l.
Proof. rewrite filter_cons. by case_decide. Qed.

Lemma wake_all s w l fuel :
  wl s w = l → NoDup l → Forall (λ t, t_state (get_task s t) = TASK_STATE_SLEEPING) l →
  (length l < fuel)%nat →
  ∃ s', task_wakeup_sched_locked fuel s w true = Ret s' ∧ wl s' w = [] ∧
    (∀ p, rq s' p = rq s p ++ filter (λ t, t_prio (get_task s t) = p ∧ t ≠ current s) l) ∧
    (∀ t, t_state (get_task s' t) =
       if decide (t ∈ l) then if decide (t = current s) then TASK_STATE_RUNNING else TASK_STATE_READY
       else t_state (get_task s t)).
Proof.
  revert s fuel. induction l as [|t l IH]; intros s fuel E Hnd Hsl Hf;
    (destruct fuel as [|fuel]; [simpl in Hf; lia|]); cbn [task_wakeup_sched_locked]; rewrite E.
  { exists s. split_and!; try done. intros p. by rewrite app_nil_r. }
  apply Forall_cons_1 in Hsl as [Ht Hsl]. apply NoDup_cons in Hnd as [Hnt Hnd].
  set (s1 := with_waits _ _). change (get_task s1 t) with (get_task s t). rewrite Ht.
  rewrite decide_False by done.
  destruct (make_runnable_facts s1 t) as (H1 & H2 & H3 & H4 & H5).
  match goal with |- context [task_wakeup_sched_locked fuel ?x w true] => set (s2 := x) end.
  assert (current s2 = current s ∧ (∀ w, wl s2 w = wl s1 w) ∧
    (∀ x, get_task s2 x = get_task (make_runnable s1 t) x) ∧
    (∀ p, rq s2 p = rq (make_runnable s1 t) p)) as (G1 & G2 & G3 & G4).
  { unfold s2. destruct (_ || _)%bool; done. }
  destruct (IH s2 fuel) as (s' & -> & K1 & K2 & K3).
  - rewrite G2. unfold s1. rewrite wl_insert. by rewrite decide_True by done.
  - done.
  - rewrite Forall_forall in *. intros x Hx. rewrite G3, H5.
    rewrite decide_False by (by intros ->). by apply Hsl.
  - simpl in Hf. lia.
  - exists s'. split_and!; try done.
    + intros p. rewrite K2, G4, H4, filter_cons_if, <- app_assoc.
      change (rq s1 p) with (rq s p). f_equal. f_equal.
      apply list_filter_iff. intros x. rewrite G3, H3, G1. done.
    + intros x. rewrite K3, G3, H5, G1. change (current s1) with (current s).
      change (get_task s1 x) with (get_task s x). destruct (decide (t = x)) as [->|Hne].
      * rewrite (decide_False (P := x ∈ l)) by done. rewrite (decide_True (P := x ∈ x :: l)) by by left.
        done.
      * destruct (decide (x ∈ l)); [by rewrite (decide_True (P := x ∈ t :: l)) by by right|].
        rewrite (decide_False (P := x ∈ t :: l)); [done|]. intros [?|?]%elem_of_cons; done.
Qed.

Lemma filter_none {A} (P : A → Prop) `{∀ x, Decision (P x)} l :
  Forall (λ x, ¬ P x) l → filter P l = [].
Proof.
  induction 1 as [|x l Hx _ IH]; [done|]. rewrite filter_cons_if, IH.
  by rewrite decide_False by done.
Qed.

(** *** Priority wait lists *)

Section WaitOrder.
Context (prio : nat → Z).
Let desc (a b : nat) : Prop := prio b <= prio a.

Lemma wait_insert_sorted t l :
  StronglySorted desc l → StronglySorted desc (list_insert_sorted (task_prio_cmp prio) t l).
Proof.
  apply list_insert_sorted_sorted.
  - intros a b c. unfold desc. lia.
  - intros a b. unfold task_prio_cmp, b2z, desc. case_match; bool_to_prop; lia.
  - intros a b. unfold task_prio_cmp, b2z, desc. case_match; bool_to_prop; lia.
Qed.

Lemma wait_insert_stable t l p :
  StronglySorted desc l →
  filter (λ x, prio x = p) (list_insert_sorted (task_prio_cmp prio) t l) =
  filter (λ x, prio x = p) (l ++ [t]).
Proof.
  induction 1 as [|y l Hl IH Hy]; [done|]. cbn [list_insert_sorted].
  destruct (task_prio_cmp prio t y <=? 0) eqn:E; bool_to_prop.
  - assert (prio y < prio t) as Hlt.
    { unfold task_prio_cmp, b2z in E. case_match; bool_to_prop; lia. }
    rewrite filter_cons_if, filter_app. destruct (decide (prio t = p)) as [Ht|Ht].
    + assert (filter (λ x, prio x = p) (y :: l) = []) as ->.
      { apply filter_none. constructor; [lia|].
        eapply Forall_impl; [exact Hy|]. unfold desc. intros x Hx. lia. }
      rewrite filter_cons_if. by rewrite decide_True by done.
    + rewrite (filter_cons_if _ t []). rewrite decide_False by done. by rewrite app_nil_r.
  - change ((y :: l) ++ [t]) with (y :: (l ++ [t])). rewrite !filter_cons_if. by rewrite IH.
Qed.
End WaitOrder.

Lemma sleepers_fold s w ts :
  wl (foldl (λ s t, task_insert_wait_list s w t) s ts) w =
  foldl (λ l t, list_insert_sorted (task_prio_cmp (λ x, t_prio (get_task s x))) t l) (wl s w) ts.
Proof.
  revert s. induction ts as [|t ts IH]; intros s; [done|]. simpl. rewrite IH.
  unfold task_insert_wait_list at 2. rewrite wl_insert. rewrite decide_True by done. done.
Qed.

(** ** Properties *)

(** C1: the scheduler stays sound.  From a sound state without threads, whatever
    sequence of operations runs (switching, task_run, wakeups, the sleeps, locks and
    waits of a running thread that is not the idle one, timeouts, and the creation, the
    exit, the join and the listing of threads with their reference counts): the mask of
    active queues says exactly which ready queues are non-empty, a task is on a ready
    queue exactly when its state is READY, once, and on the queue of its priority, a
    task on a wait list is asleep and on no other list, and only the current thread is
    RUNNING; and a count says how many hold a reference to the thread.  A thread is
    joined at most once, listings hold fewer than 254 references to a thread, and no
    detached thread exits while a listing holds a reference to it (see
    [detached_exit_with_reference]); the functions of tasks leave the state sound. *)
Theorem sched_invariant run join_wait s k :
  (∀ t s, wf s → wf (run t s) ∧ current (run t s) = current s ∧ keeps s (run t s)) →
  wf s → allthreads s = [] → rtc (sched_step run join_wait) (mk_ksys s ∅ (λ _, 0%nat)) k →
  wf (ks k) ∧
  (∀ t, 0 < held k t → t_refcount (get_task (ks k) t) = held k t) ∧
  (∀ t, t ∈ allthreads (ks k) → 0 < held k t).
Proof.
  intros Hrun W Hal H. assert (refs_ok (mk_ksys s ∅ (λ _, 0%nat))) as H0.
  { assert (∀ t, ¬ 0 < held (mk_ksys s ∅ (λ _, 0%nat)) t) as Hh
      by (intros t; rewrite held_not_own by (cbn; set_solver); cbn; lia).
    split.
    - done.
    - intros t Ht. by destruct (Hh t).
    - cbn. lia.
    - cbn. lia.
    - intros t Ht. by destruct (Hh t).
    - cbn. rewrite Hal. by intros t ?%elem_of_nil. }
  assert (refs_ok k) as Hk.
  { clear W Hal. induction H as [|k1 k2 k3 H12 _ IH]; [done|]. apply IH. by eapply refs_ok_step. }
  split_and!; [apply Hk|apply Hk|]. intros t Ht. destruct (ro_all _ Hk t Ht) as [Ho _].
  rewrite held_own by done. lia.
Qed.

(** C9: [task_switch] is priority scheduling with round robin.  [queued p] is the ready
    queue of a priority with the running thread behind all others of its priority.
    When all of these are empty the idle thread is taken; otherwise the first task of
    the highest that is not empty, and the other tasks keep their places.  A thread
    becomes the current one; a task that is not a thread is run to completion and the
    choice is made again. *)
Theorem task_switch_highest run fuel s :
  wf s →
  let cur := current s in
  let queued p := rq s p ++
    if decide (t_state (get_task s cur) = TASK_STATE_RUNNING ∧ t_prio (get_task s cur) = p) then [cur] else [] in
  ∃ t s2,
    ((t = idle s ∧ ∀ p, queued p = [] ∧ rq s2 p = []) ∨
     (∃ p rest, queued p = t :: rest ∧ (∀ q, p < q → queued q = []) ∧
        ∀ q, rq s2 q = if decide (q = p) then rest else queued q)) ∧
    (Z.land (t_flags (get_task s t)) TASK_THREAD ≠ 0 →
       ∃ s', task_switch run (S fuel) s = Ret s' ∧ wf s' ∧ current s' = t ∧
         t_state (get_task s' t) = TASK_STATE_RUNNING ∧ ∀ q, rq s' q = rq s2 q) ∧
    (Z.land (t_flags (get_task s t)) TASK_THREAD = 0 →
       task_switch run (S fuel) s =
         switch_loop run fuel cur (run t (upd_task s2 t (set_state TASK_STATE_NONE)))).
Proof.
  intros W cur queued. destruct (switch_round run fuel s W) as (t & s2 & H1 & H2 & H3 & H4).
  assert (∀ p, rq (requeued s cur) p = queued p) as Hq by (intros p; apply requeued_rq).
  exists t, s2. split_and!.
  - destruct (requeued_wf s W) as [W1 _].
    destruct (pick_spec _ W1) as [(_ & He & E)|(t2 & rest & p & s3 & Hhi & Hp & Er & E & _ & _ & _ & _ & _ & Hr & _)];
      rewrite H2 in E; injection E as -> ->; fold cur in He || fold cur in Hhi, Er, Hr.
    + left. split; [unfold requeued; by case_decide|]. intros p. by rewrite <- Hq, !He.
    + right. exists p, rest. split_and!; [by rewrite <- Hq| |].
      * intros q Hlt. rewrite <- Hq. apply Hhi. subst p; exact Hlt.
      * intros q. rewrite Hr, <- Hq. destruct (decide (p = q)) as [->|]; [by rewrite decide_True|by rewrite decide_False].
  - intros Hf. destruct (H3 Hf) as [E W']. eexists. split; [exact E|]. split_and!; try done.
    change (get_task (with_current ?x _) t) with (get_task x t). rewrite get_task_upd.
    by rewrite decide_True.
  - intros Hf. by destruct (H4 Hf) as [? _].
Qed.

(** A broadcast wakes everybody: [task_wakeup] with [all] returns after at
    most as many rounds as there are waiting entries, empties the wait list, and
    puts the sleepers at the end of their ready queues in the order they were
    waiting (the current thread, if it was about to sleep, just stays running). *)
Theorem task_wakeup_broadcast s w fuel :
  wf s → Forall (λ t, t_state (get_task s t) = TASK_STATE_SLEEPING) (wl s w) →
  (length (wl s w) < fuel)%nat →
  ∃ s', task_wakeup fuel s w true = Ret s' ∧ wf s' ∧ wl s' w = [] ∧
    (∀ p, rq s' p = rq s p ++ filter (λ t, t_prio (get_task s t) = p ∧ t ≠ current s) (wl s w)) ∧
    (∀ t, t ∈ wl s w → t_state (get_task s' t) =
       if decide (t = current s) then TASK_STATE_RUNNING else TASK_STATE_READY).
Proof.
  intros W Hsl Hf. destruct (wake_all s w (wl s w) fuel eq_refl (wf_wait_nodup _ W w) Hsl Hf)
    as (s' & E & H1 & H2 & H3).
  exists s'. split_and!; try done; [by eapply task_wakeup_wf|].
  intros t Ht. rewrite H3. by rewrite (decide_True (P := t ∈ wl s w)).
Qed.

(** [task_wakeup] always returns, multiplexed waits included: with fuel for
    the entries on all wait lists it finishes, and never adds one. *)
Theorem task_wakeup_terminates s w all fuel :
  (entries s < fuel)%nat →
  ∃ s', task_wakeup fuel s w all = Ret s' ∧ (entries s' <= entries s)%nat.
Proof. apply task_wakeup_total. Qed.

(** Threads that go to sleep on the same waitable are kept in order of
    priority, and in order of arrival within a priority, so that waking one wakes
    the most urgent and among those the longest waiting. *)
Theorem wait_list_priority_fifo s w ts :
  wl s w = [] →
  let l := wl (foldl (λ s t, task_insert_wait_list s w t) s ts) w in
  let prio := λ t, t_prio (get_task s t) in
  StronglySorted (λ a b, prio b <= prio a) l ∧
  ∀ p, filter (λ t, prio t = p) l = filter (λ t, prio t = p) ts.
Proof.
  intros E l prio. unfold l. rewrite sleepers_fold, E. fold prio. clear E l.
  induction ts as [|t ts [IH1 IH2]] using rev_ind; [split; [constructor|done]|].
  rewrite foldl_snoc. split.
  - by apply wait_insert_sorted.
  - intros p. rewrite wait_insert_stable by done. rewrite !filter_app. by rewrite IH2.
Qed.

(** *** Mutual exclusion

    A mutex observed from outside: which threads have been given the lock and not
    released it, and which are inside [mutex_lock], waiting for it.  Threads are
    switched by [task_switch]; what else happens does not touch this mutex nor the
    threads inside its [mutex_lock]. *)

Record mview := mk_mview { mv : sched; holders : list nat; trying : list nat }.

Definition is_thread (s : sched) (t : nat) : Prop := Z.land (t_flags (get_task s t)) TASK_THREAD ≠ 0.
Definition runnable (s : sched) (t : nat) : Prop :=
  is_thread s t ∧ (t_state (get_task s t) = TASK_STATE_READY ∨ t_state (get_task s t) = TASK_STATE_RUNNING).
Definition mutex_frame (m : nat) (s s' : sched) : Prop :=
  locked s' m = locked s m ∧ wl s' m = wl s m ∧
  ∀ t, (is_thread s t → is_thread s' t) ∧ (runnable s t → runnable s' t).
Definition cur_running (v : mview) : Prop :=
  let cur := current (mv v) in
  t_state (get_task (mv v) cur) = TASK_STATE_RUNNING ∧ cur ≠ idle (mv v) ∧ is_thread (mv v) cur.

Definition took (got : bool) (v : mview) (s' : sched) : mview :=
  let cur := current (mv v) in
  mk_mview s' (if got then cur :: holders v else holders v)
    (if got then filter (λ x, x ≠ cur) (trying v)
     else if decide (cur ∈ trying v) then trying v else cur :: trying v).

Inductive mutex_step (run : nat → sched → sched) (m : nat) : mview → mview → Prop :=
| ms_lock v got s' :
    cur_running v → current (mv v) ∉ trying v → mutex_lock (mv v) m = (got, s') →
    mutex_step run m v (took got v s')
| ms_retry v got s' :
    cur_running v → current (mv v) ∈ trying v → mutex_lock_sched_locked (mv v) m = (got, s') →
    mutex_step run m v (took got v s')
| ms_trylock v r s' :
    current (mv v) ∉ trying v → mutex_trylock (mv v) m = (r, s') →
    mutex_step run m v (mk_mview s' (if r =? 0 then current (mv v) :: holders v else holders v) (trying v))
| ms_unlock v :
    current (mv v) ∈ holders v →
    mutex_step run m v (mk_mview (mutex_unlock (mv v) m) (filter (λ x, x ≠ current (mv v)) (holders v)) (trying v))
| ms_cond_wait v c :
    current (mv v) ∈ holders v → cur_running v → c ≠ m →
    mutex_step run m v (mk_mview (cond_wait (mv v) c m) (filter (λ x, x ≠ current (mv v)) (holders v)) (trying v))
| ms_switch v fuel s' :
    task_switch run fuel (mv v) = Ret s' → mutex_step run m v (mk_mview s' (holders v) (trying v))
| ms_other v s' :
    wf s' → locked s' m = locked (mv v) m → wl s' m = wl (mv v) m →
    (∀ t, t ∈ trying v → (is_thread (mv v) t → is_thread s' t) ∧ (runnable (mv v) t → runnable s' t)) →
    mutex_step run m v (mk_mview s' (holders v) (trying v)).

(** One holder when locked and none otherwise; and nobody is forgotten: when the
    lock is free while threads wait, one that waited is off the wait list and can run. *)
Record mutex_ok (m : nat) (v : mview) : Prop := {
  mo_wf : wf (mv v);
  mo_held : if locked (mv v) m then ∃ t, holders v = [t] else holders v = [];
  mo_trying t : t ∈ wl (mv v) m → t ∈ trying v;
  mo_thread t : t ∈ trying v → is_thread (mv v) t;
  mo_woken : locked (mv v) m = false → wl (mv v) m ≠ [] →
    ∃ t, t ∈ trying v ∧ t ∉ wl (mv v) m ∧ runnable (mv v) t;
}.

Lemma locked_with_lock s m b : locked (with_lock s m b) m = b.
Proof. unfold locked. simpl. by rewrite lookup_insert_eq. Qed.

(** Only the states of tasks change, and never the kind. *)
Definition same_flags (s s' : sched) : Prop := ∀ t, t_flags (get_task s' t) = t_flags (get_task s t).

Lemma readyqueue_insert_flags s t : same_flags s (readyqueue_insert s t).
Proof. intros x. unfold readyqueue_insert. rewrite get_task_upd. by case_decide; subst. Qed.
Lemma sleep_flags s w : same_flags s (task_sleep_sched_locked s w).
Proof.
  intros x. unfold task_sleep_sched_locked. change (get_task (schedule (task_insert_wait_list ?s0 _ _)) x) with (get_task s0 x).
  rewrite get_task_upd. by case_decide; subst.
Qed.

Lemma mutex_unlock_slow_facts s m :
  wf s → let s1 := mutex_unlock_sched_locked s m in
  locked s1 m = false ∧ wl s1 m = drop 1 (wl s m) ∧ wf s1 ∧ same_flags s s1 ∧
  ∀ t, head (wl s m) = Some t → t_state (get_task s1 t) = TASK_STATE_READY.
Proof.
  intros W s1. pose proof (mutex_unlock_slow_wf s m W) as W1. fold s1 in W1.
  unfold s1, mutex_unlock_sched_locked in *. change (wl (with_lock s m false) m) with (wl s m) in *.
  destruct (wl s m) as [|x rest] eqn:El; [split_and!; try done; apply locked_with_lock|].
  set (s2 := with_waits _ _) in *.
  assert (locked (readyqueue_insert s2 x) m = false ∧ wl (readyqueue_insert s2 x) m = rest ∧
    same_flags s (readyqueue_insert s2 x) ∧ t_state (get_task (readyqueue_insert s2 x) x) = TASK_STATE_READY)
    as (H1 & H2 & H3 & H4).
  { split_and!; [apply locked_with_lock| |exact (readyqueue_insert_flags s2 x)|].
    - change (wl (readyqueue_insert s2 x) m) with (wl s2 m). unfold s2. by rewrite wl_insert, decide_True.
    - unfold readyqueue_insert. by rewrite get_task_upd, decide_True. }
  assert (∀ t, head (x :: rest) = Some t → t_state (get_task (readyqueue_insert s2 x) t) = TASK_STATE_READY) as H5
    by (by intros t [= <-]).
  cbn [drop]. rewrite drop_0. destruct (_ <=? _); by split_and!.
Qed.

Lemma mutex_unlock_facts s m :
  wf s → let s1 := mutex_unlock s m in
  locked s1 m = false ∧ wl s1 m = drop 1 (wl s m) ∧ wf s1 ∧ same_flags s s1 ∧
  ∀ t, head (wl s m) = Some t → t_state (get_task s1 t) = TASK_STATE_READY.
Proof.
  intros W. unfold mutex_unlock.
  destruct (locked s m && bool_decide (wl s m = []))%bool eqn:E; [|by apply mutex_unlock_slow_facts].
  apply andb_true_iff in E as [_ E%bool_decide_eq_true]. rewrite E. cbn zeta.
  split_and!; [apply locked_with_lock|exact E|by apply with_lock_wf|done|done].
Qed.

(** What is left after an unlock. *)
Lemma unlock_ok m v s' :
  mutex_ok m v → current (mv v) ∈ holders v →
  locked s' m = false → wl s' m = drop 1 (wl (mv v) m) → wf s' →
  same_flags (mv v) s' →
  (∀ t, head (wl (mv v) m) = Some t → t_state (get_task s' t) = TASK_STATE_READY) →
  mutex_ok m (mk_mview s' (filter (λ x, x ≠ current (mv v)) (holders v)) (trying v)).
Proof.
  intros [Hwf Hh Ht Hth Hw] Hin Hl Hwl W Hfl Hhd. split; cbn [mv holders trying].
  - done.
  - rewrite Hl. destruct (locked (mv v) m); [|by rewrite Hh in Hin; apply elem_of_nil in Hin].
    destruct Hh as [x Hx]. rewrite Hx in *. apply list_elem_of_singleton in Hin as ->.
    by rewrite filter_none by (constructor; [naive_solver|constructor]).
  - intros t Hin'. apply Ht. rewrite Hwl in Hin'. rewrite <- (take_drop 1 (wl (mv v) m)). apply elem_of_app. by right.
  - intros t Hin'. unfold is_thread. rewrite Hfl. by apply Hth.
  - intros _ Hne. rewrite Hwl in *. destruct (wl (mv v) m) as [|x rest] eqn:E; [done|].
    assert (x ∈ wl (mv v) m) as Hx by (rewrite E; by left).
    pose proof (wf_wait_nodup _ Hwf m) as Hnd. rewrite E in Hnd. apply NoDup_cons in Hnd as [Hnd _].
    exists x. cbn [drop]. split_and!; [apply Ht; by left|by rewrite drop_0|].
    split; [|left; by apply Hhd]. unfold is_thread. rewrite Hfl. apply Hth, Ht. by left.
Qed.

(** An attempt leaves the mutex locked, and one that fails leaves the thread inside. *)
Lemma attempt_ok m v got s' :
  mutex_ok m v → cur_running v → wf s' → locked s' m = true → same_flags (mv v) s' →
  got = negb (locked (mv v) m) →
  (∀ t, t ∈ wl s' m → t ∈ wl (mv v) m ∨ got = false ∧ t = current (mv v)) →
  mutex_ok m (took got v s').
Proof.
  intros [Hwf Hh Ht Hth Hw] (Hr & Hi & Hc) W Hl Hfl -> Hwl. unfold took. split; cbn [mv holders trying].
  - done.
  - rewrite Hl. destruct (locked (mv v) m); [done|]. cbn. rewrite Hh. by eexists.
  - intros t Hin. assert (current (mv v) ∉ wl (mv v) m) as Hoff.
    { intros Hx. apply (wf_wait _ Hwf) in Hx as [?|?]; congruence. }
    destruct (Hwl t Hin) as [Hx|[Hg ->]].
    + destruct (negb _); [apply list_elem_of_filter; split; [intros ->; done|by apply Ht]|].
      case_decide; [by apply Ht|right; by apply Ht].
    + rewrite Hg. case_decide; [done|by left].
  - intros t Hin. unfold is_thread. rewrite Hfl.
    destruct (negb _); [apply list_elem_of_filter in Hin as [_ Hin]; by apply Hth|].
    case_decide; [by apply Hth|]. apply elem_of_cons in Hin as [->|Hin]; [done|by apply Hth].
  - congruence.
Qed.

Lemma lock_slow_facts s m got s' :
  wf s → t_state (get_task s (current s)) = TASK_STATE_RUNNING → current s ≠ idle s →
  mutex_lock_sched_locked s m = (got, s') →
  wf s' ∧ locked s' m = true ∧ same_flags s s' ∧ got = negb (locked s m) ∧
  ∀ t, t ∈ wl s' m → t ∈ wl s m ∨ got = false ∧ t = current s.
Proof.
  intros W Hr Hi. unfold mutex_lock_sched_locked. destruct (locked s m) eqn:El.
  - rewrite decide_False by congruence. intros [= <- <-]. split_and!; try done.
    + by apply schedule_wf, sleep_wf.
    + apply (sleep_flags s m).
    + intros t. set (s1 := upd_task s _ _). change (wl (schedule ?x) m) with (wl x m).
      unfold task_insert_wait_list. rewrite wl_insert, decide_True by done.
      rewrite list_insert_sorted_perm, elem_of_cons. intros [->|Hin]; [by right|by left].
  - intros [= <- <-]. split_and!; try done; [by apply with_lock_wf|apply locked_with_lock|].
    intros t Ht. by left.
Qed.

Lemma mutex_lock_facts s m got s' :
  wf s → t_state (get_task s (current s)) = TASK_STATE_RUNNING → current s ≠ idle s →
  mutex_lock s m = (got, s') →
  wf s' ∧ locked s' m = true ∧ same_flags s s' ∧ got = negb (locked s m) ∧
  ∀ t, t ∈ wl s' m → t ∈ wl s m ∨ got = false ∧ t = current s.
Proof.
  intros W Hr Hi. unfold mutex_lock. destruct (lock_word_zero s m) eqn:Ez; [|by apply lock_slow_facts].
  apply andb_true_iff in Ez as [El _]. apply negb_true_iff in El. rewrite El. intros [= <- <-].
  split_and!; try done; [by apply with_lock_wf|apply locked_with_lock|]. intros t Ht. by left.
Qed.

(** [task_switch] touches no mutex, and who can run still can. *)
Lemma task_switch_frame run m fuel s s' :
  (∀ t s, wf s → wf (run t s) ∧ current (run t s) = current s ∧ mutex_frame m s (run t s)) →
  wf s → task_switch run fuel s = Ret s' → wf s' ∧ mutex_frame m s s'.
Proof.
  intros Hrun. unfold task_switch. revert s. induction fuel as [|fuel IH]; intros s W; [done|].
  destruct (switch_round run fuel s W) as (t & s2 & Hpick & Ep & Hth & Hta).
  destruct (requeued_wf s W) as [W1 Hnr]. set (s1 := requeued s (current s)) in *.
  assert (∀ x, t_flags (get_task s1 x) = t_flags (get_task s x)) as Hf1.
  { intros x. unfold s1, requeued. case_decide; [apply readyqueue_insert_flags|done]. }
  assert (mutex_frame m s s1) as F1.
  { split_and!; [unfold s1, requeued; by case_decide|unfold s1, requeued; by case_decide|].
    intros x. unfold runnable, is_thread. rewrite Hf1. split; [done|]. intros [Hx Hst]. split; [done|].
    unfold s1, requeued. case_decide; [|done]. unfold readyqueue_insert. rewrite get_task_upd.
    case_decide; [by left|done]. }
  assert (tasks s2 = tasks s1 ∧ waits s2 = waits s1 ∧ lockbit s2 = lockbit s1) as (T1 & T2 & T3).
  { unfold pick in Ep. destruct (_ =? 0); [by injection Ep as <- <-|]. destruct (rq s1 _); [done|].
    by injection Ep as <- <-. }
  assert (∀ st, mutex_frame m s1 (upd_task s2 t (set_state st)) ∨ is_thread s1 t ∧ st ≠ TASK_STATE_RUNNING) as F2.
  { intros st. assert (∀ x, get_task s2 x = get_task s1 x) as Hg by (intros x; unfold get_task; by rewrite T1).
    destruct (decide (st = TASK_STATE_RUNNING ∨ Z.land (t_flags (get_task s1 t)) TASK_THREAD = 0)) as [Hd|Hd];
      [left|right; unfold is_thread; tauto].
    split_and!; [unfold locked; cbn; by rewrite T3|unfold wl; cbn; by rewrite T2|].
    intros x. unfold runnable, is_thread. rewrite get_task_upd, !Hg. case_decide; [subst x|done].
    split; [done|]. intros [Hx _]. split; [done|]. cbn. destruct Hd as [->|Hd]; [by right|done]. }
  assert (∀ a b c, mutex_frame m a b → mutex_frame m b c → mutex_frame m a c) as Ftr.
  { intros a b c (A1 & A2 & A3) (B1 & B2 & B3). split_and!; [congruence|congruence|].
    intros x. destruct (A3 x), (B3 x). tauto. }
  destruct (Z.eq_dec (Z.land (t_flags (get_task s t)) TASK_THREAD) 0) as [E|E].
  - destruct (Hta E) as (-> & W2 & Hc). destruct (Hrun t _ W2) as (W3 & Hc3 & F3).
    rewrite <- Hc, <- Hc3. intros H. destruct (IH _ W3 H) as [W4 F4]. split; [done|].
    destruct (F2 TASK_STATE_NONE) as [F2'|[Hx _]]; [eauto|]. unfold is_thread in Hx. by rewrite Hf1 in Hx.
  - destruct (Hth E) as [-> W2]. intros [= <-]. split; [done|].
    destruct (F2 TASK_STATE_RUNNING) as [F2'|[_ ?]]; [|done]. by eapply Ftr.
Qed.

Lemma mutex_ok_step run m v v' :
  (∀ t s, wf s → wf (run t s) ∧ current (run t s) = current s ∧ mutex_frame m s (run t s)) →
  mutex_ok m v → mutex_step run m v v' → mutex_ok m v'.
Proof.
  intros Hrun Hok Hst. pose proof Hok as [Hwf Hh Ht Hth Hw].
  destruct Hst as [v got s' Hc _ E|v got s' Hc _ E|v r s' _ E|v Hin|v c Hin Hc Hcm|v fuel s' E|v s' W E1 E2 E3].
  - destruct (mutex_lock_facts _ _ _ _ Hwf (proj1 Hc) (proj1 (proj2 Hc)) E) as (W & Hl & Hfl & Hg & Hwl).
    by apply attempt_ok.
  - destruct (lock_slow_facts _ _ _ _ Hwf (proj1 Hc) (proj1 (proj2 Hc)) E) as (W & Hl & Hfl & Hg & Hwl).
    by apply attempt_ok.
  - unfold mutex_trylock, mutex_trylock_slow, lock_word_zero in E.
    destruct (locked (mv v) m) eqn:El; cbn [negb andb] in E.
    + injection E as <- <-. cbn. split; cbn; try done; by rewrite ?El.
    + assert (r = 0 ∧ s' = with_lock (mv v) m true) as [-> ->] by (by case_match; injection E as <- <-).
      cbn [Z.eqb]. split; cbn [mv holders trying]; try done.
      * by apply with_lock_wf.
      * rewrite locked_with_lock, Hh. by eexists.
      * rewrite locked_with_lock. done.
  - destruct (mutex_unlock_facts (mv v) m Hwf) as (S1 & S2 & S3 & S4 & S5). by apply unlock_ok.
  - destruct Hc as (Hr & Hi & _). set (s1 := mutex_unlock_sched_locked (mv v) m).
    assert (locked s1 m = false ∧ wl s1 m = drop 1 (wl (mv v) m) ∧ wf s1 ∧ same_flags (mv v) s1 ∧
      (∀ t, head (wl (mv v) m) = Some t → t_state (get_task s1 t) = TASK_STATE_READY)) as (S1 & S2 & S3 & S4 & S5)
      by by apply mutex_unlock_slow_facts.
    destruct (mutex_unlock_slow_current _ m Hwf Hr) as (C1 & C2 & C3). fold s1 in C1, C2, C3.
    unfold cond_wait. fold s1. apply unlock_ok; try done.
    + unfold task_sleep_sched_locked. set (s2 := upd_task s1 _ _). change (wl (schedule ?x) m) with (wl x m).
      unfold task_insert_wait_list. by rewrite wl_insert, decide_False by done.
    + apply schedule_wf, sleep_wf; [done|by rewrite C1|by rewrite C1, C2].
    + intros t. by rewrite (sleep_flags s1 c t).
    + intros t Hhd. unfold task_sleep_sched_locked.
      change (get_task (schedule (task_insert_wait_list ?s0 _ _)) t) with (get_task s0 t).
      rewrite get_task_upd, decide_False; [by apply S5|]. rewrite C1. intros <-.
      specialize (S5 _ Hhd). congruence.
  - destruct (task_switch_frame run m fuel _ _ Hrun Hwf E) as (W & F1 & F2 & F3).
    split; cbn [mv holders trying]; rewrite ?F1, ?F2; try done.
    + intros t Hin. apply (proj1 (F3 t)). by apply Hth.
    + intros Hl Hne. destruct (Hw Hl Hne) as (t & ? & ? & ?). exists t. split_and!; [done..|by apply (F3 t)].
  - split; cbn [mv holders trying]; rewrite ?E1, ?E2; try done.
    + intros t Hin. apply (proj1 (E3 t Hin)). by apply Hth.
    + intros Hl Hne. destruct (Hw Hl Hne) as (t & ? & ? & ?). exists t. split_and!; [done..|by apply (E3 t)].
Qed.

(** C18: a mutex excludes and loses no wakeup.  Starting from an unlocked mutex nobody
    waits for, whatever the interleaving of lock attempts, try-locks, unlocks and
    condition waits by the holder, switches, and operations that touch neither this mutex
    nor the threads inside its [mutex_lock]: at most one thread holds the lock, one does
    exactly when the lock bit is set, whoever is on the wait list is inside [mutex_lock],
    and when the lock is free while threads are on the wait list, another thread inside
    [mutex_lock] is off that list and READY or RUNNING, so that it will try again. *)
Theorem mutex_exclusion run m s v :
  (∀ t s, wf s → wf (run t s) ∧ current (run t s) = current s ∧ mutex_frame m s (run t s)) →
  wf s → locked s m = false → wl s m = [] →
  rtc (mutex_step run m) (mk_mview s [] []) v →
  (length (holders v) <= 1)%nat ∧ (holders v ≠ [] ↔ locked (mv v) m = true) ∧
  (∀ t, t ∈ wl (mv v) m → t ∈ trying v) ∧
  (locked (mv v) m = false → wl (mv v) m ≠ [] →
    ∃ t, t ∈ trying v ∧ t ∉ wl (mv v) m ∧
      (t_state (get_task (mv v) t) = TASK_STATE_READY ∨ t_state (get_task (mv v) t) = TASK_STATE_RUNNING)).
Proof.
  intros Hrun W Hl Hw Hr. assert (mutex_ok m (mk_mview s [] [])) as H0.
  { split; cbn; rewrite ?Hl, ?Hw; try done. by intros t ?%elem_of_nil. }
  assert (mutex_ok m v) as [_ Hh Ht _ Hwk].
  { clear Hl Hw W. induction Hr as [|x y z Hxy _ IH]; [done|]. apply IH. by eapply mutex_ok_step. }
  split_and!; [| |done|].
  - destruct (locked (mv v) m); [destruct Hh as [t ->]|rewrite Hh]; cbn; lia.
  - destruct (locked (mv v) m); [destruct Hh as [t ->]|rewrite Hh]; done.
  - intros H1 H2. destruct (Hwk H1 H2) as (t & ? & ? & _ & ?). by exists t.
Qed.

(** A detached thread that exits while somebody holds a reference to it (as
    the listing of threads does) is not taken off the processor: its reference
    count does not reach 0, so its state stays RUNNING, the next switch puts it
    back on its ready queue, and it runs on in the endless loop after its exit;
    when the reference is then given up, it is queued once more, so the same
    thread is on two ready queues. *)
Theorem detached_exit_with_reference :
  let th := mk_task 3 5 TASK_STATE_RUNNING 0 0 RunNone 1 in
  let idl := mk_task 1 0 TASK_STATE_NONE 0 0 RunNone 1 in
  let s0 := mk_sched {[0%nat := idl; 1%nat := th]} ∅ 0 1 0 ∅ ∅ ∅ [1%nat] false in
  let s1 := (thread_get_next s0 None).2 in
  ∃ s2 s3, thread_exit 5 9 s1 = Ret s2 ∧ allthreads s2 = [] ∧
    task_switch (λ _ s, s) 5 s2 = Ret s3 ∧
    current s3 = 1%nat ∧ t_state (get_task s3 1) = TASK_STATE_RUNNING ∧
    (let s4 := thread_release (readyqueue_insert s3 1) 1 in rq s4 5 = [1%nat] ∧ rq s4 1 = [1%nat]).
Proof. cbv zeta. eexists _, _. split; [vm_compute; reflexivity|]. split; [reflexivity|].
  split; [vm_compute; reflexivity|]. vm_compute. repeat split. Qed.

(** ** Concrete states *)

(** A CPU with its idle thread only. *)
Definition boot_state : sched :=
  sched_cpu_init (mk_sched {[0%nat := null_task]} ∅ 0 0 0 ∅ ∅ ∅ [] false) 0.

Lemma boot_wf : wf boot_state.
Proof.
  assert (∀ t, get_task boot_state t = null_task ∨ (t = 0%nat ∧ get_task boot_state t = mk_task 1 0 TASK_STATE_NONE 0 0 RunNone 0)) as Hg.
  { intros t. unfold get_task, boot_state, sched_cpu_init. simpl. rewrite lookup_insert.
    case_decide; [right; by subst|]. rewrite lookup_singleton_ne by done. by left. }
  assert (∀ p, rq boot_state p = []) as Hrq by done.
  assert (∀ w, wl boot_state w = []) as Hwl by done.
  split.
  - split; simpl; lia.
  - intros p _. rewrite Hrq. simpl. rewrite Z.bits_0. naive_solver.
  - intros t. destruct (Hg t) as [->|[_ ->]]; simpl; lia.
  - intros p t. rewrite Hrq, elem_of_nil. destruct (Hg t) as [->|[_ ->]]; naive_solver.
  - intros p. rewrite Hrq. constructor.
  - intros w t. rewrite Hwl. by intros ?%elem_of_nil.
  - intros w. rewrite Hwl. constructor.
  - intros w w' t. rewrite Hwl. by intros ?%elem_of_nil.
  - intros t. destruct (Hg t) as [->|[_ ->]]; done.
  - intros w. rewrite Hwl. apply not_elem_of_nil.
  - done.
Qed.

(** Two threads created, the more urgent one running and then about to sleep. *)
Definition two_threads : sched :=
  (thread_create_va (thread_create_va boot_state (Some 1%nat) 0 3).2 (Some 2%nat) 0 5).2.
Definition running_two : sched :=
  match task_switch (λ _ s, s) 3 two_threads with Ret s => s | Fault _ => two_threads end.
Definition sleeping_two : sched := task_sleep_sched_locked running_two 7.

Lemma off_all s t : waits s = ∅ → off_lists s t.
Proof. intros E w. unfold wl. rewrite E, lookup_empty. apply not_elem_of_nil. Qed.

Lemma two_threads_wf : wf two_threads.
Proof.
  apply thread_create_wf; [apply thread_create_wf; [apply boot_wf|..]|..];
    try (vm_compute; reflexivity); by apply off_all.
Qed.

Lemma id_run : ∀ (t : nat) s, wf s → wf s ∧ current s = current s ∧ keeps s s.
Proof. intros t s W. split_and!; [done|done|apply keeps_refl]. Qed.

Lemma running_two_wf : wf running_two.
Proof.
  apply (sched_op_wf (λ _ s, s) id_run two_threads); [apply two_threads_wf|].
  apply (step_switch _ 3). vm_compute. reflexivity.
Qed.

(** The two threads are created and listed: the walk holds the second one, then the
    first. *)
Definition listed : ksys :=
  let k := mk_ksys running_two ({[2%nat]} ∪ ({[1%nat]} ∪ ∅)) (λ _, 0%nat) in
  let k := mk_ksys (thread_get_next (ks k) None).2 (own k) (refs_next (refs k) None (Some 2%nat)) in
  mk_ksys (thread_get_next (ks k) (Some 2%nat)).2 (own k) (refs_next (refs k) (Some 2%nat) (Some 1%nat)).

Lemma listed_reached : rtc (sched_step (λ _ s, s) 9) (mk_ksys boot_state ∅ (λ _, 0%nat)) listed.
Proof.
  eapply rtc_l; [apply (step_create _ _ _ 1 0 3); [reflexivity|by apply off_all]|].
  eapply rtc_l; [apply (step_create _ _ _ 2 0 5); [reflexivity|by apply off_all]|].
  eapply rtc_l; [apply (step_op _ _ _ running_two), (step_switch _ 3); vm_compute; reflexivity|].
  eapply rtc_l; [apply (step_next _ _ _ None (Some 2%nat) (thread_get_next running_two None).2)|].
  - done.
  - cbn. lia.
  - vm_compute. reflexivity.
  - apply rtc_once, step_next.
    + intros c [= <-]. vm_compute. lia.
    + intros x. unfold refs_next. cbn. repeat case_decide; lia.
    + vm_compute. reflexivity.
Qed.

Lemma sched_invariant_witness :
  t_refcount (get_task (ks listed) 1) = 2 ∧
  wf (ks listed) ∧
  (∀ t, 0 < held listed t → t_refcount (get_task (ks listed) t) = held listed t) ∧
  (∀ t, t ∈ allthreads (ks listed) → 0 < held listed t).
Proof.
  split; [vm_compute; reflexivity|].
  apply (sched_invariant (λ _ s, s) 9 boot_state listed);
    [exact id_run|apply boot_wf|reflexivity|apply listed_reached].
Defined.

Lemma task_switch_highest_witness :
  let cur := current running_two in
  let queued p := rq running_two p ++
    if decide (t_state (get_task running_two cur) = TASK_STATE_RUNNING ∧ t_prio (get_task running_two cur) = p)
    then [cur] else [] in
  ∃ t s2,
    ((t = idle running_two ∧ ∀ p, queued p = [] ∧ rq s2 p = []) ∨
     (∃ p rest, queued p = t :: rest ∧ (∀ q, p < q → queued q = []) ∧
        ∀ q, rq s2 q = if decide (q = p) then rest else queued q)) ∧
    (Z.land (t_flags (get_task running_two t)) TASK_THREAD ≠ 0 →
       ∃ s', task_switch (λ _ s, s) 1 running_two = Ret s' ∧ wf s' ∧ current s' = t ∧
         t_state (get_task s' t) = TASK_STATE_RUNNING ∧ ∀ q, rq s' q = rq s2 q) ∧
    (Z.land (t_flags (get_task running_two t)) TASK_THREAD = 0 →
       task_switch (λ _ s, s) 1 running_two =
         switch_loop (λ _ s, s) 0 cur (upd_task s2 t (set_state TASK_STATE_NONE))).
Proof. apply (task_switch_highest (λ _ s, s) 0 running_two running_two_wf). Defined.

Lemma sleeping_two_wf : wf sleeping_two.
Proof.
  apply (sched_op_wf (λ _ s, s) id_run running_two); [apply running_two_wf|].
  apply step_sleep; vm_compute; congruence.
Qed.

Lemma task_wakeup_broadcast_witness :
  ∃ s', task_wakeup 2 sleeping_two 7 true = Ret s' ∧ wf s' ∧ wl s' 7 = [] ∧
    (∀ p, rq s' p = rq sleeping_two p ++
       filter (λ t, t_prio (get_task sleeping_two t) = p ∧ t ≠ current sleeping_two) (wl sleeping_two 7)) ∧
    (∀ t, t ∈ wl sleeping_two 7 → t_state (get_task s' t) =
       if decide (t = current sleeping_two) then TASK_STATE_RUNNING else TASK_STATE_READY).
Proof.
  apply (task_wakeup_broadcast sleeping_two 7 2 sleeping_two_wf).
  - assert (wl sleeping_two 7 = [2%nat]) as -> by (vm_compute; reflexivity).
    constructor; [vm_compute; reflexivity|constructor].
  - vm_compute. lia.
Defined.

Lemma task_wakeup_terminates_witness :
  ∃ s', task_wakeup 2 sleeping_two 7 false = Ret s' ∧ (entries s' <= entries sleeping_two)%nat.
Proof. apply (task_wakeup_terminates sleeping_two 7 false 2). vm_compute. lia. Defined.

Lemma wait_list_priority_fifo_witness :
  let l := wl (foldl (λ s t, task_insert_wait_list s 7 t) two_threads [1; 2]%nat) 7 in
  let prio := λ t, t_prio (get_task two_threads t) in
  StronglySorted (λ a b, prio b <= prio a) l ∧
  ∀ p, filter (λ t, prio t = p) l = filter (λ t, prio t = p) [1; 2]%nat.
Proof. apply (wait_list_priority_fifo two_threads 7 [1; 2]%nat). vm_compute. reflexivity. Defined.

(** Thread 2 takes the mutex and sleeps elsewhere; thread 1 tries and has to wait. *)
Definition mutex_taken : mview := mk_mview (mutex_lock running_two 4).2 [2%nat] [].
Definition mutex_asleep : mview := mk_mview (task_sleep_sched_locked (mv mutex_taken) 7) [2%nat] [].
Definition mutex_switched : mview :=
  mk_mview (match task_switch (λ _ s, s) 3 (mv mutex_asleep) with Ret s => s | Fault _ => mv mutex_asleep end)
    [2%nat] [].
Definition mutex_waited : mview := mk_mview (mutex_lock (mv mutex_switched) 4).2 [2%nat] [1%nat].

Lemma mutex_waited_reached : rtc (mutex_step (λ _ s, s) 4) (mk_mview running_two [] []) mutex_waited.
Proof.
  assert (wf (mv mutex_taken)) as W1.
  { apply (sched_op_wf (λ _ s, s) id_run running_two); [apply running_two_wf|].
    apply step_lock; vm_compute; congruence. }
  eapply (rtc_l _ _ mutex_taken).
  { apply (ms_lock _ 4 (mk_mview running_two [] []) true);
      [split_and!; vm_compute; congruence|by apply not_elem_of_nil|vm_compute; reflexivity]. }
  eapply (rtc_l _ _ mutex_asleep).
  { apply (ms_other _ 4 mutex_taken); [|vm_compute; reflexivity|vm_compute; reflexivity|by intros t ?%elem_of_nil].
    apply (sched_op_wf (λ _ s, s) id_run (mv mutex_taken)); [done|]. apply step_sleep; vm_compute; congruence. }
  eapply (rtc_l _ _ mutex_switched); [apply (ms_switch _ 4 mutex_asleep 3); vm_compute; reflexivity|].
  apply rtc_once, (ms_lock _ 4 mutex_switched false);
    [split_and!; vm_compute; congruence|by apply not_elem_of_nil|vm_compute; reflexivity].
Qed.

Lemma id_frame m : ∀ (t : nat) s, wf s → wf s ∧ current s = current s ∧ mutex_frame m s s.
Proof. by intros t s W. Qed.

Lemma mutex_exclusion_witness :
  wl (mv mutex_waited) 4 = [1%nat] ∧
  (length (holders mutex_waited) <= 1)%nat ∧ (holders mutex_waited ≠ [] ↔ locked (mv mutex_waited) 4 = true) ∧
  (∀ t, t ∈ wl (mv mutex_waited) 4 → t ∈ trying mutex_waited) ∧
  (locked (mv mutex_waited) 4 = false → wl (mv mutex_waited) 4 ≠ [] →
    ∃ t, t ∈ trying mutex_waited ∧ t ∉ wl (mv mutex_waited) 4 ∧
      (t_state (get_task (mv mutex_waited) t) = TASK_STATE_READY ∨
       t_state (get_task (mv mutex_waited) t) = TASK_STATE_RUNNING)).
Proof.
  split; [vm_compute; reflexivity|].
  apply (mutex_exclusion (λ _ s, s) 4 running_two);
    [exact (id_frame 4)|apply running_two_wf|vm_compute; reflexivity|vm_compute; reflexivity|apply mutex_waited_reached].
Defined.
