(* ===== verification/Fdt.v ===== *)
(** * Fdt: flattened device trees ([src/util/fdt.c])

    A device tree blob is a byte buffer: a header of big-endian words, a
    structure block of 32-bit tokens with node names and property values inline,
    and a block of property names.  References into the structure block are word
    offsets.  The model keeps the buffer as its bytes and the code's arithmetic
    on offsets; every access is checked against the buffer, so that reading past
    its end (as [strlen] on a name that is not terminated does) is a fault.

    The specification side is a tree of nodes with its encoding; the theorems say
    what the walks do on a blob that contains the encoding of a node, and that
    the walks end on any blob whatever. *)

From Stdlib Require Import ZArith Lia.
From stdpp Require Import base list numbers.
From S2P Require Import Prelude LibC.

Open Scope Z_scope.

Definition FDT_MAGIC : Z := 3490578157.
Definition FDT_LAST_COMPVER : Z := 16.
Definition FDT_BEGIN_NODE : Z := 1.
Definition FDT_END_NODE : Z := 2.
Definition FDT_PROP : Z := 3.
Definition FDT_NOP : Z := 4.
Definition FDT_END : Z := 9.
Definition HDRSIZE : Z := 40.

(** The buffer; its capacity is its length. *)
Abbreviation fdt := (list Z).
Definition capacity (f : fdt) : Z := Z.of_nat (length f).

(** ** Words *)

Definition from_be32 (l : list Z) : Z :=
  match l with
  | [a; b; c; d] => a * 16777216 + b * 65536 + c * 256 + d
  | _ => 0
  end.
Definition rd_be32 (f : fdt) (off : Z) : res Z := bs ← rd f off 4; Ret (from_be32 bs).
Definition wr_be32 (f : fdt) (off v : Z) : res fdt := wr f off (be32 v).

(** Header fields, by index. *)
Definition hdr (f : fdt) (i : Z) : res Z := rd_be32 f (4 * i).
Definition H_MAGIC : Z := 0.
Definition H_TOTALSIZE : Z := 1.
Definition H_OFF_STRUCT : Z := 2.
Definition H_OFF_STRINGS : Z := 3.
Definition H_OFF_RSVMAP : Z := 4.
Definition H_LAST_COMP : Z := 6.
Definition H_SIZE_STRINGS : Z := 8.
Definition H_SIZE_STRUCT : Z := 9.

(** The number of bytes before the first NUL, which must be in the buffer. *)
Fixpoint scan_nul (l : list Z) : option Z :=
  match l with
  | [] => None
  | c :: l => if c =? 0 then Some 0 else Z.succ <$> scan_nul l
  end.
Definition c_strlen (f : fdt) (off : Z) : res Z :=
  if (0 <=? off) then
    match scan_nul (drop (Z.to_nat off) f) with Some n => Ret n | None => Fault OutOfBounds end
  else Fault OutOfBounds.

(** ** Validation *)

Inductive fdt_error :=
| BufferTooSmall
| InvalidMagic
| UnsupportedVersion
| SizeLargerThanBuffer
| StructEndsAfterBuffer
| StringsEndAfterBuffer
| RsvmapInvalid
| StructInvalid
| StringsInvalid.

Definition fdt_validate (f : fdt) : res (option fdt_error) :=
  if capacity f <? HDRSIZE then Ret (Some BufferTooSmall)
  else
    magic ← hdr f H_MAGIC;
    last_comp ← hdr f H_LAST_COMP;
    totalsize ← hdr f H_TOTALSIZE;
    off_struct ← hdr f H_OFF_STRUCT;
    size_struct ← hdr f H_SIZE_STRUCT;
    off_strings ← hdr f H_OFF_STRINGS;
    size_strings ← hdr f H_SIZE_STRINGS;
    off_rsvmap ← hdr f H_OFF_RSVMAP;
    Ret (if negb (magic =? FDT_MAGIC) then Some InvalidMagic
         else if negb (last_comp =? FDT_LAST_COMPVER) then Some UnsupportedVersion
         else if capacity f <? totalsize then Some SizeLargerThanBuffer
         else if capacity f <? u32 (off_struct + size_struct) then Some StructEndsAfterBuffer
         else if capacity f <? u32 (off_strings + size_strings) then Some StringsEndAfterBuffer
         else if off_rsvmap <? HDRSIZE then Some RsvmapInvalid
         else if off_struct <? off_rsvmap then Some StructInvalid
         else if off_strings <? off_struct then Some StringsInvalid
         else None).

Definition fdt_get_totalsize (f : fdt) : res Z := hdr f H_TOTALSIZE.

(** ** Keys *)

Record fdtkey := mk_key { k_offset : Z; k_depth : Z }.
Definition fdt_key_encode (k : fdtkey) : Z := Z.lor (k_offset k) (u32 (Z.shiftl (k_depth k) 24)).
Definition fdt_key_decode (u : Z) : fdtkey := mk_key (Z.land u 16777215) (Z.shiftr u 24).

(** ** Walking *)

Definition fdt_rd32 (f : fdt) (offset : Z) : res Z :=
  let byte_offset := u32 (Z.shiftl offset 2) in
  off_struct ← hdr f H_OFF_STRUCT;
  size_struct ← hdr f H_SIZE_STRUCT;
  if ((byte_offset <? off_struct) || (u32 (off_struct + size_struct) <=? byte_offset))%bool
  then Ret 0
  else rd_be32 f byte_offset.

(** [fdt_cptr], as a byte offset. *)
Definition fdt_cptr (offset : Z) : Z := u32 (Z.shiftl offset 2).

(** [(namelen + 4) >> 2] and [(plen + 3) >> 2]: words taken by a name with its
    terminator, and by a property value. *)
Definition name_words (namelen : Z) : Z := Z.shiftr (u32 (namelen + 4)) 2.
Definition value_words (plen : Z) : Z := Z.shiftr (u32 (plen + 3)) 2.

(** [fdt_consume_u32] is a read and an increment; each use below writes both. *)
Fixpoint skip_node (fuel : nat) (f : fdt) (offset : Z) : res (Z * Z) :=
  match fuel with
  | O => Fault NoFuel
  | S fl =>
      tok ← fdt_rd32 f offset;
      let offset := u32 (offset + 1) in
      if tok =? FDT_NOP then skip_node fl f offset
      else if tok =? FDT_BEGIN_NODE then
        namelen ← c_strlen f (fdt_cptr offset);
        '(err, offset) ← skip_node fl f (u32 (offset + name_words namelen));
        if negb (err =? 0) then Ret (err, offset) else skip_node fl f offset
      else if tok =? FDT_END_NODE then Ret (0, offset)
      else if tok =? FDT_PROP then
        plen ← fdt_rd32 f offset;
        skip_node fl f (u32 (u32 (offset + 1) + (1 + value_words plen)))
      else Ret (-1, offset)
  end.

Definition skip_node_after_token (fuel : nat) (f : fdt) (offset : Z) : res (Z * Z) :=
  let offset := u32 (offset + 1) in
  namelen ← c_strlen f (fdt_cptr offset);
  skip_node fuel f (u32 (offset + name_words namelen)).

Definition skip_node_at_token (fuel : nat) (f : fdt) (offset : Z) : res (Z * Z) :=
  tok ← fdt_rd32 f offset;
  let offset := u32 (offset + 1) in
  if tok =? FDT_BEGIN_NODE then skip_node_after_token fuel f offset
  else if tok =? FDT_NOP then Ret (0, offset)
  else Ret (1, offset).

(** [fdt_find_begin_node]: the path component at this depth, if there is one. *)
Fixpoint path_at (srch : list Z) (depth : nat) : option (list Z) :=
  match depth with
  | O => Some srch
  | S d => match strchr srch 47 with None => None | Some s => path_at (tail s) d end
  end.

Definition fdt_find_begin_node (fuel : nat) (f : fdt) (srch : list Z) (key : fdtkey) (mtch : option Z)
    : res (Z * fdtkey * option Z) :=
  let name := fdt_cptr (k_offset key) in
  namelen ← c_strlen f name;
  match path_at srch (Z.to_nat (k_depth key)) with
  | None => Ret (-1, key, mtch)
  | Some srch =>
      let srchlen := Z.of_nat (strcspn srch [47]) in
      let wildcard_match := ((srchlen =? 1) && (deref srch =? 42))%bool in
      nm ← rd f name namelen;
      if (((namelen =? srchlen) && (memcmp srch nm (Z.to_nat namelen) =? 0)) || wildcard_match)%bool
      then
        let mtch := if wildcard_match then Some name else mtch in
        if deref (drop (Z.to_nat srchlen) srch) =? 0
        then Ret (1, mk_key (u32 (k_offset key - 1)) (k_depth key), mtch)
        else Ret (0, mk_key (u32 (k_offset key + name_words namelen)) (u32 (k_depth key + 1)), mtch)
      else
        '(r, offset) ← skip_node fuel f (u32 (k_offset key + name_words namelen));
        Ret (r, mk_key offset (k_depth key), mtch)
  end.

Fixpoint find_loop (fuel : nat) (f : fdt) (srch : list Z) (key : fdtkey) (mtch : option Z)
    : res (Z * option Z) :=
  match fuel with
  | O => Fault NoFuel
  | S fl =>
      tok ← fdt_rd32 f (k_offset key);
      let key := mk_key (u32 (k_offset key + 1)) (k_depth key) in
      if tok =? FDT_NOP then find_loop fl f srch key mtch
      else if tok =? FDT_BEGIN_NODE then
        '(r, key, mtch) ← fdt_find_begin_node fl f srch key mtch;
        if r =? 1 then Ret (fdt_key_encode key, mtch)
        else if r <? 0 then Ret (0, mtch)
        else find_loop fl f srch key mtch
      else if tok =? FDT_END_NODE then
        if k_depth key =? 0 then Ret (0, mtch)
        else find_loop fl f srch (mk_key (k_offset key) (k_depth key - 1)) mtch
      else if tok =? FDT_PROP then
        plen ← fdt_rd32 f (k_offset key);
        find_loop fl f srch
          (mk_key (u32 (u32 (k_offset key + 1) + (1 + value_words plen))) (k_depth key)) mtch
      else Ret (0, mtch)
  end.

Definition fdt_find_next_node (fuel : nat) (f : fdt) (keyx : Z) (srch : list Z) : res (Z * option Z) :=
  let key := fdt_key_decode keyx in
  off_struct ← hdr f H_OFF_STRUCT;
  if k_offset key =? 0 then find_loop fuel f srch (mk_key (Z.shiftr off_struct 2) (k_depth key)) None
  else
    '(err, offset) ← skip_node_at_token fuel f (k_offset key);
    if negb (err =? 0) then Ret (0, None)
    else find_loop fuel f srch (mk_key offset (k_depth key)) None.

(** ** Erasing *)

Fixpoint write_nops (f : fdt) (start : Z) (count : nat) : res fdt :=
  match count with
  | O => Ret f
  | S n => f ← wr_be32 f (4 * start) FDT_NOP; write_nops f (start + 1) n
  end.

Definition fdt_erase_node (fuel : nat) (f : fdt) (keyx : Z) : res fdt :=
  if keyx =? 0 then Ret f
  else
    let start := k_offset (fdt_key_decode keyx) in
    '(err, offset) ← skip_node_at_token fuel f start;
    if negb (err =? 0) then Ret f
    else write_nops f start (Z.to_nat (u32 (offset - start))).

(** ** Properties *)

(** [fdt_pname], its offset into the strings already read: where the name is. *)
Definition fdt_pname (f : fdt) (nameoff : Z) : res (option Z) :=
  off_strings ← hdr f H_OFF_STRINGS;
  size_strings ← hdr f H_SIZE_STRINGS;
  let offset := u32 (nameoff + off_strings) in
  if ((offset <? off_strings) || (u32 (off_strings + size_strings) <=? offset))%bool
  then Ret None else Ret (Some offset).

Definition skip_begin_node (f : fdt) (offset : Z) : res (option Z) :=
  tok ← fdt_rd32 f offset;
  if negb (tok =? FDT_BEGIN_NODE) then Ret None
  else
    let offset := u32 (offset + 1) in
    namelen ← c_strlen f (fdt_cptr offset);
    Ret (Some (u32 (offset + name_words namelen))).

(** [strcmp] of a name in the buffer with a NUL-terminated string. *)
Definition name_is (f : fdt) (off : Z) (name : list Z) : res bool :=
  n ← c_strlen f off;
  nm ← rd f off n;
  Ret (strcmp nm name =? 0).

(** The walk over the properties of a node: word offset of the property's length
    field, byte offset of its value, length. *)
Fixpoint prop_loop (fuel : nat) (f : fdt) (name : list Z) (offset : Z) : res (option (Z * Z * Z)) :=
  match fuel with
  | O => Fault NoFuel
  | S fl =>
      tok ← fdt_rd32 f offset;
      let offset := u32 (offset + 1) in
      if tok =? FDT_NOP then prop_loop fl f name offset
      else if tok =? FDT_BEGIN_NODE then
        '(err, offset) ← skip_node_after_token fl f offset;
        if negb (err =? 0) then Ret None else prop_loop fl f name offset
      else if tok =? FDT_PROP then
        let retval := offset in
        plen ← fdt_rd32 f offset;
        nameoff ← fdt_rd32 f (u32 (offset + 1));
        let offset := u32 (u32 (offset + 1) + 1) in
        pname ← fdt_pname f nameoff;
        m ← match pname with None => Ret false | Some p => name_is f p name end;
        if (m : bool) then Ret (Some (retval, u32 (Z.shiftl offset 2), plen))
        else prop_loop fl f name (u32 (offset + value_words plen))
      else Ret None
  end.
Definition fdt_find_property (fuel : nat) (f : fdt) (keyx : Z) (name : list Z)
    : res (option (Z * Z * Z)) :=
  s ← skip_begin_node f (k_offset (fdt_key_decode keyx));
  match s with None => Ret None | Some offset => prop_loop fuel f name offset end.
Definition fdt_get_property (fuel : nat) (f : fdt) (keyx : Z) (name : list Z) : res (option (Z * Z)) :=
  r ← fdt_find_property fuel f keyx name;
  Ret (match r with Some (retval, p, len) => if retval =? 0 then None else Some (p, len) | None => None end).

(** [malloc] is [fdt_malloc]: a new buffer of the given size, if there is one. *)
Section Insert.
Context (malloc : Z → option (list Z)).

Definition fdt_insert (f : fdt) (offset words strbytes : Z) : res (option fdt) :=
  let bytes_needed := u32 (words * 4) in
  totalsize ← hdr f H_TOTALSIZE;
  let tail_bytes := u32 (totalsize - u32 (offset * 4)) in
  moved ← (if capacity f <? u32 (u32 (totalsize + bytes_needed) + strbytes) then
             match malloc (u32 (capacity f + bytes_needed + strbytes + 1024)) with
             | None => Ret None
             | Some newbuf =>
                 front ← rd f 0 (u32 (offset * 4));
                 newbuf ← wr newbuf 0 front;
                 back ← rd f (u32 (totalsize - tail_bytes)) tail_bytes;
                 newbuf ← wr newbuf (u32 ((offset + words) * 4)) back;
                 Ret (Some newbuf)
             end
           else
             back ← rd f (u32 (offset * 4)) tail_bytes;
             f ← wr f (u32 ((offset + words) * 4)) back;
             Ret (Some f));
  match moved with
  | None => Ret None
  | Some f =>
      v ← hdr f H_OFF_STRINGS;
      f ← wr_be32 f (4 * H_OFF_STRINGS) (u32 (v + bytes_needed));
      f ← wr_be32 f (4 * H_TOTALSIZE) (u32 (totalsize + bytes_needed + strbytes));
      v ← hdr f H_SIZE_STRINGS;
      f ← wr_be32 f (4 * H_SIZE_STRINGS) (u32 (v + strbytes));
      v ← hdr f H_SIZE_STRUCT;
      f ← wr_be32 f (4 * H_SIZE_STRUCT) (u32 (v + bytes_needed));
      Ret (Some f)
  end.

Definition zeropad (data : list Z) : list Z :=
  data ++ replicate (Z.to_nat ((4 - Z.of_nat (length data) mod 4) mod 4)) 0.
Definition memcpy_and_zeropad (f : fdt) (dst : Z) (data : list Z) : res fdt :=
  f ← wr f dst data;
  let len := Z.of_nat (length data) in
  if Z.land len 3 =? 0 then Ret f
  else wr f (dst + len) (replicate (Z.to_nat (4 - Z.land len 3)) 0).

Fixpoint find_string_loop (fuel : nat) (f : fdt) (search : list Z) (strings totalsize offset : Z)
    : res Z :=
  match fuel with
  | O => Fault NoFuel
  | S fl =>
      if offset <? totalsize then
        len ← c_strlen f offset;
        str ← rd f offset len;
        if ((len =? Z.of_nat (length search)) && (memcmp str search (Z.to_nat len) =? 0))%bool
        then Ret (offset - strings)
        else find_string_loop fl f search strings totalsize (u32 (offset + (len + 1)))
      else Ret (-1)
  end.
Definition fdt_find_string (fuel : nat) (f : fdt) (search : list Z) : res Z :=
  strings ← hdr f H_OFF_STRINGS;
  totalsize ← hdr f H_TOTALSIZE;
  find_string_loop fuel f search strings totalsize strings.

(** [fdt_set_property]: 0 or -1, and the tree.  [data] is [None] for NULL. *)
Definition fdt_set_property (fuel : nat) (f : fdt) (keyx : Z) (name : list Z) (data : option (list Z))
    : res (Z * fdt) :=
  cur ← fdt_find_property fuel f keyx name;
  match cur, data with
  | Some (offset, curptr, curlen), None =>
      f ← write_nops f offset (Z.to_nat (2 + value_words curlen)); Ret (0, f)
  | Some (offset, curptr, curlen), Some data =>
      let len := Z.of_nat (length data) in
      let prev_words := value_words curlen in
      let new_words := value_words len in
      if len <=? curlen then
        f ← memcpy_and_zeropad f curptr data;
        f ← wr_be32 f (curptr - 8) len;
        f ← write_nops f (offset + 2 + new_words) (Z.to_nat (prev_words - new_words));
        Ret (0, f)
      else
        g ← fdt_insert f (offset + 2) (new_words - prev_words) 0;
        match g with
        | None => Ret (-1, f)
        | Some f =>
            let p := 4 * (offset + 2) in
            f ← wr_be32 f (p - 8) len;
            f ← memcpy_and_zeropad f p data;
            Ret (0, f)
        end
  | None, None => Ret (0, f)
  | None, Some data =>
      let len := Z.of_nat (length data) in
      s ← skip_begin_node f (k_offset (fdt_key_decode keyx));
      match s with
      | None => Ret (-1, f)
      | Some offset =>
          let namelen := Z.of_nat (length name) in
          nameindex ← fdt_find_string fuel f name;
          let new_words := value_words len in
          g ← fdt_insert f offset (new_words + 3) (if nameindex <? 0 then namelen + 1 else 0);
          match g with
          | None => Ret (-1, f)
          | Some f =>
              '(nameindex, f) ← (if nameindex <? 0 then
                  totalsize ← hdr f H_TOTALSIZE;
                  strings ← hdr f H_OFF_STRINGS;
                  let pos := u32 (totalsize - namelen - 1) in
                  f ← wr f pos (name ++ [0]);
                  Ret (u32 (pos - strings), f)
                else Ret (nameindex, f));
              let p := 4 * offset in
              f ← wr_be32 f p FDT_PROP;
              f ← wr_be32 f (p + 4) len;
              f ← wr_be32 f (p + 8) nameindex;
              f ← memcpy_and_zeropad f (p + 12) data;
              Ret (0, f)
          end
      end
  end.
End Insert.

(** ** Trees and their encoding *)

(** What the body of a node is made of. *)
Inductive item :=
| INop
| IProp (nameoff : Z) (val : list Z)
| INode (name : list Z) (body : list item).

Definition pad_name (n : list Z) : list Z :=
  n ++ replicate (4 * ((length n + 4) / 4) - length n) 0.

Fixpoint enc_item (i : item) : list Z :=
  match i with
  | INop => be32 FDT_NOP
  | IProp o v => be32 FDT_PROP ++ be32 (Z.of_nat (length v)) ++ be32 o ++ zeropad v
  | INode n b =>
      be32 FDT_BEGIN_NODE ++ pad_name n ++
      (fix go l := match l with [] => [] | x :: l => enc_item x ++ go l end) b ++ be32 FDT_END_NODE
  end.
Definition enc_items : list item → list Z := fix go l :=
  match l with [] => [] | x :: l => enc_item x ++ go l end.

Fixpoint tokens (i : item) : nat :=
  match i with
  | INop | IProp _ _ => 1%nat
  | INode _ b => (2 + (fix go l := match l with [] => 0 | x :: l => tokens x + go l end) b)%nat
  end.
Definition tokens_of : list item → nat := fix go l :=
  match l with [] => 0%nat | x :: l => (tokens x + go l)%nat end.

(** Names are C strings; the code keeps lengths and name offsets in 32 bits. *)
Fixpoint item_ok (i : item) : Prop :=
  match i with
  | INop => True
  | IProp o v => is_u32 o ∧ Z.of_nat (length v) + 3 < 4294967296
  | INode n b =>
      cstr n ∧ (fix go l := match l with [] => True | x :: l => item_ok x ∧ go l end) b
  end.
Definition items_ok : list item → Prop := fix go l :=
  match l with [] => True | x :: l => item_ok x ∧ go l end.

(** ** Lemmas *)

Lemma from_be32_be32 x : is_u32 x → from_be32 (be32 x) = x.
Proof.
  unfold is_u32, from_be32, be32, u8. rewrite !Z.shiftr_div_pow2 by lia.
  change (2 ^ 8) with 256. change (2 ^ 16) with 65536. change (2 ^ 24) with 16777216.
  intros. dlia.
Qed.

Lemma be32_length x : length (be32 x) = 4%nat.
Proof. done. Qed.

Lemma rd_be32_at pre x post off :
  off = Z.of_nat (length pre) → is_u32 x → rd_be32 (pre ++ be32 x ++ post) off = Ret x.
Proof.
  intros Hoff Hx. unfold rd_be32. change 4 with (Z.of_nat (length (be32 x))).
  rewrite rd_at by done. cbn [mbind res_bind]. by rewrite from_be32_be32.
Qed.

Lemma scan_nul_app n l : cstr n → scan_nul (n ++ 0 :: l) = Some (Z.of_nat (length n)).
Proof.
  induction 1 as [|c n Hc _ IH]; [done|]. cbn [app scan_nul length].
  rewrite (proj2 (Z.eqb_neq c 0)) by (unfold is_char in Hc; lia). rewrite IH. simpl. f_equal. lia.
Qed.

Lemma pad_name_split n : ∃ z, pad_name n = n ++ 0 :: z.
Proof.
  unfold pad_name. assert (4 * ((length n + 4) / 4) - length n ≠ 0)%nat as Hz.
  { pose proof (Nat.div_mod_eq (length n + 4) 4). pose proof (Nat.mod_upper_bound (length n + 4) 4). lia. }
  destruct (4 * ((length n + 4) / 4) - length n)%nat as [|k]; [done|]. by exists (replicate k 0).
Qed.

Lemma pad_name_length n : length (pad_name n) = (4 * ((length n + 4) / 4))%nat.
Proof.
  unfold pad_name. rewrite length_app, length_replicate.
  pose proof (Nat.div_mod_eq (length n + 4) 4). pose proof (Nat.mod_upper_bound (length n + 4) 4). lia.
Qed.

Lemma zeropad_length v : Z.of_nat (length (zeropad v)) = 4 * ((Z.of_nat (length v) + 3) / 4).
Proof. unfold zeropad. rewrite length_app, length_replicate. dlia. Qed.

Lemma value_words_spec v :
  Z.of_nat (length v) + 3 < 4294967296 →
  4 * value_words (Z.of_nat (length v)) = Z.of_nat (length (zeropad v)).
Proof.
  intros. unfold value_words. rewrite u32_id by (unfold is_u32; lia).
  rewrite Z.shiftr_div_pow2 by lia. by rewrite zeropad_length.
Qed.

Lemma name_words_spec n :
  Z.of_nat (length n) + 4 < 4294967296 →
  4 * name_words (Z.of_nat (length n)) = Z.of_nat (length (pad_name n)).
Proof.
  intros. unfold name_words. rewrite u32_id by (unfold is_u32; lia).
  rewrite Z.shiftr_div_pow2 by lia. rewrite pad_name_length.
  rewrite Nat2Z.inj_mul, Nat2Z.inj_div. change (2 ^ 2) with 4. lia.
Qed.

Lemma c_strlen_at pre n post off :
  off = Z.of_nat (length pre) → cstr n →
  c_strlen (pre ++ pad_name n ++ post) off = Ret (Z.of_nat (length n)).
Proof.
  intros -> Hn. unfold c_strlen. rewrite (proj2 (Z.leb_le 0 _)) by lia. rewrite Nat2Z.id, drop_app_length.
  destruct (pad_name_split n) as [z ->]. rewrite <- app_assoc. cbn [app]. by rewrite scan_nul_app.
Qed.

(** *** Positions inside the structure block *)

(** [bs], behind [pre], lies inside the structure block (at [os], of size [ss]). *)
Definition inside (os ss : Z) (pre bs : list Z) : Prop :=
  os <= Z.of_nat (length pre) ∧ Z.of_nat (length pre + length bs) <= u32 (os + ss).

Lemma inside_app os ss pre b1 b2 :
  inside os ss pre (b1 ++ b2) ↔ inside os ss pre b1 ∧ inside os ss (pre ++ b1) b2.
Proof. unfold inside. rewrite !length_app. lia. Qed.

(** Positions are lengths. *)
Ltac inside_from H := unfold inside in *; repeat rewrite length_app in H; repeat rewrite length_app; lia.

Section Walk.
Context (f : fdt) (os ss : Z).
Hypothesis Hos : hdr f H_OFF_STRUCT = Ret os.
Hypothesis Hss : hdr f H_SIZE_STRUCT = Ret ss.
Hypothesis Hcap : capacity f < 4294967296.

Lemma shiftl2 off : 0 <= off → 4 * off < 4294967296 → u32 (Z.shiftl off 2) = 4 * off.
Proof.
  intros. rewrite Z.shiftl_mul_pow2 by lia. change (2 ^ 2) with 4. rewrite u32_id; [lia|].
  unfold is_u32. lia.
Qed.

Lemma fdt_rd32_at pre x post off :
  f = pre ++ be32 x ++ post → 4 * off = Z.of_nat (length pre) → is_u32 x → inside os ss pre (be32 x) →
  fdt_rd32 f off = Ret x.
Proof using Hos Hss Hcap.
  intros Hf Hoff Hx [Hi1 Hi2]. unfold fdt_rd32. rewrite Hos, Hss. cbn [mbind res_bind].
  rewrite be32_length in Hi2.
  rewrite shiftl2 by (unfold capacity in Hcap; rewrite Hf, !length_app in Hcap; lia).
  rewrite (proj2 (Z.ltb_ge _ _)), (proj2 (Z.leb_gt _ _)) by lia. cbn [orb].
  rewrite Hf. by apply rd_be32_at.
Qed.

Lemma strlen_at pre n post off :
  f = pre ++ pad_name n ++ post → 4 * off = Z.of_nat (length pre) → cstr n →
  c_strlen f (fdt_cptr off) = Ret (Z.of_nat (length n)).
Proof using Hcap.
  intros Hf Hoff Hn. unfold fdt_cptr.
  rewrite shiftl2 by (unfold capacity in Hcap; rewrite Hf, !length_app in Hcap; lia).
  rewrite Hf. by apply c_strlen_at.
Qed.

Lemma off_next off pre (bs : list Z) post k :
  f = pre ++ bs ++ post → 4 * off = Z.of_nat (length pre) → 4 * k = Z.of_nat (length bs) →
  u32 (off + k) = off + k ∧ 4 * (off + k) = Z.of_nat (length (pre ++ bs)).
Proof using Hcap.
  intros Hf Hoff Hk. unfold capacity in Hcap. rewrite Hf, !length_app in Hcap. rewrite length_app.
  split; [apply u32_id; unfold is_u32; lia|lia].
Qed.

(** [skip_node], entered after the name of a node, ends just behind the node. *)
Lemma skip_items fuel l pre post off :
  f = pre ++ enc_items l ++ be32 FDT_END_NODE ++ post → 4 * off = Z.of_nat (length pre) →
  inside os ss pre (enc_items l ++ be32 FDT_END_NODE) → items_ok l → (tokens_of l < fuel)%nat →
  ∃ off', skip_node fuel f off = Ret (0, off') ∧
    4 * off' = Z.of_nat (length (pre ++ enc_items l ++ be32 FDT_END_NODE)).
Proof using Hos Hss Hcap.
  revert l pre post off. induction fuel as [|fuel IH]; intros l pre post off Hf Hoff Hin Hok Hfu; [lia|].
  cbn [skip_node]. destruct l as [|i l].
  - cbn [enc_items app] in *.
    rewrite (fdt_rd32_at pre FDT_END_NODE post off Hf Hoff); [|by split|done].
    cbn [mbind res_bind]. rewrite !(proj2 (Z.eqb_neq FDT_END_NODE _)) by done.
    rewrite Z.eqb_refl. destruct (off_next off pre _ post 1 Hf Hoff eq_refl) as [-> E].
    by exists (off + 1).
  - destruct Hok as [Hi Hok]. destruct i as [|o v|n b].
    + cbn [enc_items enc_item] in *. rewrite <- !app_assoc in Hf, Hin.
      pose proof (proj1 (inside_app _ _ _ _ _) Hin) as [Hin1 Hin2].
      rewrite (fdt_rd32_at pre FDT_NOP _ off Hf Hoff); [|by split|done].
      cbn [mbind res_bind]. rewrite Z.eqb_refl.
      destruct (off_next off pre _ _ 1 Hf Hoff eq_refl) as [-> E].
      destruct (IH l (pre ++ be32 FDT_NOP) post (off + 1)) as (off' & -> & E'); try done.
      * by rewrite <- app_assoc.
      * simpl in Hfu. lia.
      * exists off'. split; [done|]. by rewrite <- !app_assoc in *.
    + cbn [enc_items enc_item] in *. destruct Hi as [Ho Hv]. rewrite <- !app_assoc in Hf, Hin.
      pose proof (proj1 (inside_app _ _ _ _ _) Hin) as [Hin1 Hin2].
      pose proof (proj1 (inside_app _ _ _ _ _) Hin2) as [Hin3 Hin4].
      rewrite (fdt_rd32_at pre FDT_PROP _ off Hf Hoff); [|by split|done].
      cbn [mbind res_bind]. rewrite !(proj2 (Z.eqb_neq FDT_PROP _)) by done. rewrite Z.eqb_refl.
      destruct (off_next off pre _ _ 1 Hf Hoff eq_refl) as [-> E].
      rewrite (app_assoc pre) in Hf.
      rewrite (fdt_rd32_at _ (Z.of_nat (length v)) _ (off + 1) Hf E);
        [|unfold is_u32; lia|done].
      cbn [mbind res_bind].
      destruct (off_next (off + 1) _ _ _ 1 Hf E eq_refl) as [-> E2].
      rewrite (app_assoc _ (be32 (Z.of_nat (length v)))) in Hf.
      rewrite (app_assoc (be32 o)) in Hf.
      destruct (off_next (off + 1 + 1) _ (be32 o ++ zeropad v) _ (1 + value_words (Z.of_nat (length v))) Hf E2)
        as [-> E3].
      { rewrite length_app, be32_length. pose proof (value_words_spec v Hv). lia. }
      destruct (IH l (((pre ++ be32 FDT_PROP) ++ be32 (Z.of_nat (length v))) ++ be32 o ++ zeropad v) post
        (off + 1 + 1 + (1 + value_words (Z.of_nat (length v))))) as (off' & -> & E'); try done.
      * by rewrite <- !app_assoc in *.
      * inside_from Hin.
      * simpl in Hfu. lia.
      * exists off'. split; [done|]. by rewrite <- !app_assoc in *.
    + cbn [enc_items enc_item] in *. fold enc_items in *. destruct Hi as [Hn Hb]. fold items_ok in Hb.
      rewrite <- !app_assoc in Hf, Hin.
      pose proof (proj1 (inside_app _ _ _ _ _) Hin) as [Hin1 Hin2].
      rewrite (fdt_rd32_at pre FDT_BEGIN_NODE _ off Hf Hoff); [|by split|done].
      cbn [mbind res_bind]. rewrite !(proj2 (Z.eqb_neq FDT_BEGIN_NODE _)) by done. rewrite Z.eqb_refl.
      destruct (off_next off pre _ _ 1 Hf Hoff eq_refl) as [-> E].
      rewrite (app_assoc pre) in Hf.
      rewrite (strlen_at _ n _ (off + 1) Hf E Hn). cbn [mbind res_bind].
      assert (Z.of_nat (length n) + 4 < 4294967296) as Hnl.
      { unfold capacity in Hcap. rewrite Hf, !length_app, !be32_length, pad_name_length in Hcap.
        pose proof (Nat.div_mod_eq (length n + 4) 4). pose proof (Nat.mod_upper_bound (length n + 4) 4). lia. }
      destruct (off_next (off + 1) _ _ _ (name_words (Z.of_nat (length n))) Hf E) as [-> E2].
      { by apply name_words_spec. }
      rewrite (app_assoc _ (pad_name n)) in Hf.
      destruct (IH b ((pre ++ be32 FDT_BEGIN_NODE) ++ pad_name n) _ _ Hf E2) as (o2 & -> & E3); [|done| |].
      * inside_from Hin.
      * simpl in Hfu. fold tokens_of in Hfu. lia.
      * cbn [mbind res_bind Z.eqb negb].
        destruct (IH l (((pre ++ be32 FDT_BEGIN_NODE) ++ pad_name n) ++ enc_items b ++ be32 FDT_END_NODE) post o2)
          as (off' & -> & E'); try done.
        -- by rewrite <- !app_assoc in *.
        -- inside_from Hin.
        -- simpl in Hfu. fold tokens_of in Hfu. lia.
        -- exists off'. split; [done|]. by rewrite <- !app_assoc in *.
Qed.

(** The name a property refers to, in the strings block. *)
Definition prop_named (o : Z) (nm : list Z) : Prop :=
  cstr nm ∧ ∃ p, fdt_pname f o = Ret (Some p) ∧ c_strlen f p = Ret (Z.of_nat (length nm)) ∧
    rd f p (Z.of_nat (length nm)) = Ret nm.

(** Items that are passed over when looking for [name]. *)
Definition other_than (name : list Z) (i : item) : Prop :=
  match i with
  | INop => True
  | IProp o _ => ∃ nm, prop_named o nm ∧ nm ≠ name
  | INode _ _ => False
  end.

Lemma name_test o nm name :
  prop_named o nm → cstr name →
  (pname ← fdt_pname f o;
   match pname with None => Ret false | Some p => name_is f p name end) = Ret (bool_decide (nm = name)).
Proof.
  intros (Hnm & p & -> & E2 & E3) Hn. cbn [mbind res_bind]. unfold name_is. rewrite E2. cbn [mbind res_bind].
  rewrite E3. cbn [mbind res_bind]. f_equal. apply Bool.eq_iff_eq_true.
  rewrite Z.eqb_eq, bool_decide_eq_true. by apply strcmp_eq_0.
Qed.

(** One property record. *)
Lemma prop_loop_prop fuel name pre o v post off nm :
  f = pre ++ enc_item (IProp o v) ++ post → 4 * off = Z.of_nat (length pre) →
  inside os ss pre (enc_item (IProp o v)) → item_ok (IProp o v) → prop_named o nm → cstr name →
  prop_loop (S fuel) f name off =
    (if bool_decide (nm = name)
     then Ret (Some (off + 1, 4 * (off + 3), Z.of_nat (length v)))
     else prop_loop fuel f name (off + 3 + value_words (Z.of_nat (length v)))) ∧
  4 * (off + 3 + value_words (Z.of_nat (length v))) = Z.of_nat (length (pre ++ enc_item (IProp o v))).
Proof using Hos Hss Hcap.
  intros Hf Hoff Hin [Ho Hv] Hnm Hname. cbn [enc_item] in *. cbn [prop_loop].
  rewrite <- !app_assoc in Hf.
  rewrite (fdt_rd32_at pre FDT_PROP _ off Hf Hoff); [|by split|inside_from Hin].
  cbn [mbind res_bind]. rewrite !(proj2 (Z.eqb_neq FDT_PROP _)) by done. rewrite Z.eqb_refl.
  destruct (off_next off pre _ _ 1 Hf Hoff eq_refl) as [-> E]. rewrite (app_assoc pre) in Hf.
  rewrite (fdt_rd32_at _ (Z.of_nat (length v)) _ (off + 1) Hf E); [|unfold is_u32; lia|inside_from Hin].
  cbn [mbind res_bind].
  destruct (off_next (off + 1) _ _ _ 1 Hf E eq_refl) as [-> E2].
  rewrite (app_assoc _ (be32 (Z.of_nat (length v)))) in Hf.
  rewrite (fdt_rd32_at _ o _ (off + 1 + 1) Hf E2); [|done|inside_from Hin]. cbn [mbind res_bind].
  destruct (off_next (off + 1 + 1) _ _ _ 1 Hf E2 eq_refl) as [-> E3].
  rewrite (app_assoc _ (be32 o)) in Hf.
  destruct (off_next (off + 1 + 1 + 1) _ (zeropad v) _ (value_words (Z.of_nat (length v))) Hf E3) as [E4 E5].
  { by apply value_words_spec. }
  pose proof (name_test o nm name Hnm Hname) as Ht.
  destruct (fdt_pname f o) as [pname|] eqn:Ep; cbn [mbind res_bind] in *; [|done].
  rewrite Ht. cbn [mbind res_bind]. replace (off + 1 + 1 + 1) with (off + 3) in * by lia.
  rewrite shiftl2 by (unfold capacity in Hcap; rewrite Hf, (length_app _ (zeropad v ++ post)) in Hcap; lia).
  rewrite E4. split; [by destruct (bool_decide _)|]. rewrite E5. by rewrite <- !app_assoc.
Qed.

Lemma prop_loop_skip fuel name ps pre post off :
  f = pre ++ enc_items ps ++ post → 4 * off = Z.of_nat (length pre) →
  inside os ss pre (enc_items ps) → items_ok ps → Forall (other_than name) ps → cstr name →
  ∃ off', prop_loop (length ps + fuel) f name off = prop_loop fuel f name off' ∧
    4 * off' = Z.of_nat (length (pre ++ enc_items ps)).
Proof using Hos Hss Hcap.
  intros Hf Hoff Hin Hok Hoth Hname. revert pre off Hf Hoff Hin Hok.
  induction Hoth as [|i ps Hi _ IH]; intros pre off Hf Hoff Hin Hok.
  { exists off. by rewrite app_nil_r. }
  destruct Hok as [Hiok Hok]. cbn [enc_items] in *. fold enc_items in *. cbn [length Nat.add].
  rewrite <- app_assoc in Hf. destruct i as [|o v|n b]; [| |done].
  - cbn [enc_item prop_loop] in *.
    rewrite (fdt_rd32_at pre FDT_NOP _ off Hf Hoff); [|by split|inside_from Hin].
    cbn [mbind res_bind]. rewrite Z.eqb_refl.
    destruct (off_next off pre _ _ 1 Hf Hoff eq_refl) as [-> E]. rewrite (app_assoc pre) in Hf.
    destruct (IH _ (off + 1) Hf E) as (off' & -> & E'); [inside_from Hin|done|].
    exists off'. split; [done|]. by rewrite <- app_assoc in E'.
  - destruct Hi as (nm & Hnm & Hne).
    destruct (prop_loop_prop (length ps + fuel) name pre o v _ off nm Hf Hoff) as [-> E];
      [inside_from Hin|done|done|done|].
    rewrite bool_decide_eq_false_2 by done. rewrite (app_assoc pre) in Hf.
    destruct (IH _ _ Hf E) as (off' & -> & E'); [inside_from Hin|done|].
    exists off'. split; [done|]. by rewrite <- app_assoc in E'.
Qed.

Lemma skip_begin_at pre nn post off :
  f = pre ++ (be32 FDT_BEGIN_NODE ++ pad_name nn) ++ post → 4 * off = Z.of_nat (length pre) →
  inside os ss pre (be32 FDT_BEGIN_NODE ++ pad_name nn) → cstr nn →
  ∃ off', skip_begin_node f off = Ret (Some off') ∧
    4 * off' = Z.of_nat (length (pre ++ be32 FDT_BEGIN_NODE ++ pad_name nn)).
Proof using Hos Hss Hcap.
  intros Hf Hoff Hin Hn. unfold skip_begin_node. rewrite <- !app_assoc in Hf.
  rewrite (fdt_rd32_at pre FDT_BEGIN_NODE _ off Hf Hoff); [|by split|inside_from Hin].
  cbn [mbind res_bind]. rewrite Z.eqb_refl. cbn [negb].
  destruct (off_next off pre _ _ 1 Hf Hoff eq_refl) as [-> E]. rewrite (app_assoc pre) in Hf.
  rewrite (strlen_at _ nn _ (off + 1) Hf E Hn). cbn [mbind res_bind].
  assert (Z.of_nat (length nn) + 4 < 4294967296) as Hnl.
  { unfold capacity in Hcap. rewrite Hf, !length_app, !be32_length, pad_name_length in Hcap.
    pose proof (Nat.div_mod_eq (length nn + 4) 4). pose proof (Nat.mod_upper_bound (length nn + 4) 4). lia. }
  destruct (off_next (off + 1) _ _ _ (name_words (Z.of_nat (length nn))) Hf E) as [-> E2].
  { by apply name_words_spec. }
  eexists. split; [done|]. by rewrite <- app_assoc in E2.
Qed.
End Walk.

Lemma key_decode_encode off depth :
  0 <= off < 16777216 → 0 <= depth < 256 →
  fdt_key_decode (fdt_key_encode (mk_key off depth)) = mk_key off depth.
Proof.
  intros Ho Hd. unfold fdt_key_encode, fdt_key_decode. cbn [k_offset k_depth].
  rewrite Z.shiftl_mul_pow2 by lia. change (2 ^ 24) with 16777216.
  rewrite u32_id by (unfold is_u32; lia). rewrite Z.lor_comm.
  change 16777216 with (2 ^ 24). rewrite <- Z.shiftl_mul_pow2 by lia.
  rewrite shiftl_lor by (change (2 ^ 24) with 16777216; lia).
  change 16777215 with (2 ^ 24 - 1). rewrite land_ones_mod by lia. rewrite Z.shiftr_div_pow2 by lia.
  change (2 ^ 24) with 16777216. f_equal; dlia.
Qed.

(** *** Erasing *)

Definition nops (n : nat) : list Z := concat (replicate n (be32 FDT_NOP)).

Lemma write_nops_at count pre bs post start :
  4 * start = Z.of_nat (length pre) → length bs = (4 * count)%nat →
  write_nops (pre ++ bs ++ post) start count = Ret (pre ++ nops count ++ post).
Proof.
  revert pre bs start. induction count as [|count IH]; intros pre bs start Hs Hl.
  - destruct bs; [done|]. simpl in Hl. lia.
  - cbn [write_nops]. unfold wr_be32.
    rewrite <- (take_drop 4 bs), <- app_assoc.
    rewrite wr_at; [|lia|rewrite length_take, be32_length; lia]. cbn [mbind res_bind].
    rewrite (app_assoc pre). rewrite IH.
    + unfold nops. cbn [replicate concat]. by rewrite <- !app_assoc.
    + rewrite length_app, be32_length. lia.
    + rewrite length_drop. lia.
Qed.

Lemma pad_name_drop4 n :
  (4 <= length n)%nat → pad_name n = take 4 n ++ pad_name (drop 4 n).
Proof.
  intros H. unfold pad_name. rewrite length_drop, app_assoc, take_drop. f_equal. f_equal.
  replace (length n + 4)%nat with (length n - 4 + 4 + 1 * 4)%nat by lia.
  rewrite Nat.div_add by done. lia.
Qed.

(** The step [skip_node_after_token] takes into the name is harmless when the
    name has at least four characters. *)
Lemma skip_after_token_at f os ss fuel n b pre post off :
  hdr f H_OFF_STRUCT = Ret os → hdr f H_SIZE_STRUCT = Ret ss → capacity f < 4294967296 →
  f = pre ++ pad_name n ++ enc_items b ++ be32 FDT_END_NODE ++ post →
  4 * off = Z.of_nat (length pre) →
  inside os ss pre (pad_name n ++ enc_items b ++ be32 FDT_END_NODE) →
  cstr n → (4 <= length n)%nat → items_ok b → (tokens_of b < fuel)%nat →
  ∃ off', skip_node_after_token fuel f off = Ret (0, off') ∧
    4 * off' = Z.of_nat (length (pre ++ pad_name n ++ enc_items b ++ be32 FDT_END_NODE)).
Proof.
  intros Hos Hss Hcap Hf Hoff Hin Hn Hlen Hb Hfu. unfold skip_node_after_token.
  rewrite pad_name_drop4 in Hf, Hin |- * by done. rewrite <- !app_assoc in Hf.
  destruct (off_next f Hcap off pre (take 4 n) _ 1 Hf Hoff) as [-> E].
  { rewrite length_take. lia. }
  rewrite (app_assoc pre) in Hf.
  assert (cstr (drop 4 n)) as Hn4 by (by apply Forall_drop).
  rewrite (strlen_at f Hcap _ (drop 4 n) _ (off + 1) Hf E Hn4). cbn [mbind res_bind].
  assert (Z.of_nat (length (drop 4 n)) + 4 < 4294967296) as Hnl.
  { unfold capacity in Hcap. rewrite Hf, !length_app, length_take, pad_name_length in Hcap.
    pose proof (Nat.div_mod_eq (length (drop 4 n) + 4) 4).
    pose proof (Nat.mod_upper_bound (length (drop 4 n) + 4) 4). lia. }
  destruct (off_next f Hcap (off + 1) _ _ _ (name_words (Z.of_nat (length (drop 4 n)))) Hf E) as [-> E2].
  { by apply name_words_spec. }
  rewrite (app_assoc _ (pad_name (drop 4 n))) in Hf.
  destruct (skip_items f os ss Hos Hss Hcap fuel b _ post _ Hf E2) as (off' & -> & E'); [inside_from Hin|done|done|].
  exists off'. split; [done|]. by rewrite <- !app_assoc in *.
Qed.

Lemma enc_node n b :
  enc_item (INode n b) = be32 FDT_BEGIN_NODE ++ pad_name n ++ enc_items b ++ be32 FDT_END_NODE.
Proof. done. Qed.

(** ** Properties *)

(** [fdt_erase_node] overwrites exactly the node it is given (begin token,
    name, properties, subnodes and end token) with NOPs and nothing else, when
    the node's name has at least four characters. *)
Theorem fdt_erase_node_exact f os ss fuel n b pre post off depth :
  hdr f H_OFF_STRUCT = Ret os → hdr f H_SIZE_STRUCT = Ret ss → capacity f < 4294967296 →
  f = pre ++ enc_item (INode n b) ++ post → 4 * off = Z.of_nat (length pre) →
  inside os ss pre (enc_item (INode n b)) → item_ok (INode n b) → (4 <= length n)%nat →
  0 < off < 16777216 → 0 <= depth < 256 → (tokens_of b < fuel)%nat →
  ∃ k, fdt_erase_node fuel f (fdt_key_encode (mk_key off depth)) = Ret (pre ++ nops k ++ post) ∧
    length (nops k) = length (enc_item (INode n b)).
Proof.
  intros Hos Hss Hcap Hf Hoff Hin [Hn Hb] Hlen Ho Hd Hfu. fold items_ok in Hb. rewrite enc_node in *.
  unfold fdt_erase_node. rewrite key_decode_encode by lia. cbn [k_offset].
  rewrite (proj2 (Z.eqb_neq _ 0)).
  2: { intros E. pose proof (key_decode_encode off depth ltac:(lia) Hd) as K. rewrite E in K.
       apply (f_equal k_offset) in K. cbn in K. rewrite Z.land_0_l in K. lia. }
  unfold skip_node_at_token. rewrite <- !app_assoc in Hf.
  rewrite (fdt_rd32_at f os ss Hos Hss Hcap pre FDT_BEGIN_NODE _ off Hf Hoff); [|by split|inside_from Hin].
  cbn [mbind res_bind]. rewrite Z.eqb_refl.
  destruct (off_next f Hcap off pre _ _ 1 Hf Hoff eq_refl) as [-> E].
  pose proof Hf as Hf'. rewrite (app_assoc pre) in Hf'.
  destruct (skip_after_token_at f os ss fuel n b _ post (off + 1) Hos Hss Hcap Hf' E) as (off' & -> & E');
    [inside_from Hin|done..|].
  cbn [mbind res_bind Z.eqb negb].
  set (bs := be32 FDT_BEGIN_NODE ++ pad_name n ++ enc_items b ++ be32 FDT_END_NODE) in *.
  assert (4 * off' = Z.of_nat (length pre + length bs)) as Eo.
  { rewrite E'. unfold bs. rewrite !length_app. lia. }
  assert (Z.of_nat (length pre + length bs) < 4294967296) as Hlt.
  { unfold capacity in Hcap. rewrite Hf in Hcap. unfold bs. rewrite !length_app in *. lia. }
  rewrite u32_id by (unfold is_u32; lia).
  assert (length bs = 4 * Z.to_nat (off' - off))%nat as Hbl by lia.
  exists (Z.to_nat (off' - off)). split.
  - assert (f = pre ++ bs ++ post) as -> by (rewrite Hf; unfold bs; by rewrite <- !app_assoc).
    by apply write_nops_at.
  - rewrite Hbl. unfold nops. clear. induction (Z.to_nat (off' - off)) as [|k IH]; [done|].
    cbn [replicate concat]. rewrite length_app, IH, be32_length. lia.
Qed.

(** A node up to and including one property, the items before it passed over. *)
Record node_with (f : fdt) (os ss : Z) (pre nn : list Z) (ps : list item) (o : Z) (v post : list Z)
    (name : list Z) (off : Z) : Prop := {
  nw_os : hdr f H_OFF_STRUCT = Ret os;
  nw_ss : hdr f H_SIZE_STRUCT = Ret ss;
  nw_cap : capacity f < 4294967296;
  nw_f : f = pre ++ ((be32 FDT_BEGIN_NODE ++ pad_name nn) ++ enc_items ps ++ enc_item (IProp o v)) ++ post;
  nw_off : 4 * off = Z.of_nat (length pre);
  nw_range : 0 <= off < 16777216;
  nw_in : inside os ss pre ((be32 FDT_BEGIN_NODE ++ pad_name nn) ++ enc_items ps ++ enc_item (IProp o v));
  nw_nn : cstr nn;
  nw_ps : items_ok ps;
  nw_item : item_ok (IProp o v);
  nw_name : cstr name;
  nw_other : Forall (other_than f name) ps;
  nw_named : prop_named f o name;
}.

Lemma fdt_find_property_at f os ss pre nn ps o v post name off depth fuel :
  node_with f os ss pre nn ps o v post name off → 0 <= depth < 256 → (length ps < fuel)%nat →
  ∃ o2, fdt_find_property fuel f (fdt_key_encode (mk_key off depth)) name
      = Ret (Some (o2 + 1, 4 * (o2 + 3), Z.of_nat (length v))) ∧
    4 * o2 = Z.of_nat (length (pre ++ (be32 FDT_BEGIN_NODE ++ pad_name nn) ++ enc_items ps)) ∧ 0 <= o2.
Proof.
  intros [Hos Hss Hcap Hf Hoff Ho Hin Hnn Hps Hiok Hname Hoth Hnm] Hd Hfu.
  unfold fdt_find_property. rewrite key_decode_encode by done. cbn [k_offset].
  set (head := be32 FDT_BEGIN_NODE ++ pad_name nn) in *.
  rewrite <- !app_assoc in Hf.
  destruct (skip_begin_at f os ss Hos Hss Hcap pre nn _ off Hf Hoff) as (o1 & -> & E1);
    [fold head; inside_from Hin|done|]. fold head in E1. cbn [mbind res_bind].
  rewrite (app_assoc pre) in Hf.
  replace fuel with (length ps + S (fuel - length ps - 1))%nat by lia.
  destruct (prop_loop_skip f os ss Hos Hss Hcap (S (fuel - length ps - 1)) name ps _ _ o1 Hf E1)
    as (o2 & -> & E2); [inside_from Hin|done|done|done|].
  rewrite (app_assoc _ (enc_items ps)) in Hf.
  destruct (prop_loop_prop f os ss Hos Hss Hcap (fuel - length ps - 1) name _ o v post o2 name Hf E2) as [-> E3];
    [inside_from Hin|done|done|done|].
  rewrite bool_decide_eq_true_2 by done. exists o2. rewrite <- app_assoc in E2. split; [done|].
  split; [done|lia].
Qed.

(** The value of the property, in the buffer. *)
Lemma value_at pre head ps o v post p :
  p = Z.of_nat (length (pre ++ head ++ enc_items ps) + 12) →
  rd (pre ++ (head ++ enc_items ps ++ enc_item (IProp o v)) ++ post) p (Z.of_nat (length v)) = Ret v.
Proof.
  intros ->. cbn [enc_item]. unfold zeropad.
  set (z := replicate _ 0).
  replace (pre ++ (head ++ enc_items ps ++ be32 FDT_PROP ++ be32 (Z.of_nat (length v)) ++ be32 o ++ v ++ z) ++ post)
    with ((pre ++ head ++ enc_items ps ++ be32 FDT_PROP ++ be32 (Z.of_nat (length v)) ++ be32 o) ++ v ++ z ++ post)
    by (by rewrite <- !app_assoc).
  apply rd_at. rewrite !length_app, !be32_length. lia.
Qed.

(** [fdt_get_property] finds a property by name: on a blob that holds a node
    whose items before the property are NOPs and properties with other names, it
    returns where the value is and how long, and that is where the value is. *)
Theorem fdt_get_property_correct f os ss pre nn ps o v post name off depth fuel :
  node_with f os ss pre nn ps o v post name off → 0 <= depth < 256 → (length ps < fuel)%nat →
  ∃ p, fdt_get_property fuel f (fdt_key_encode (mk_key off depth)) name
      = Ret (Some (p, Z.of_nat (length v))) ∧
    rd f p (Z.of_nat (length v)) = Ret v.
Proof.
  intros W Hd Hfu. destruct (fdt_find_property_at _ _ _ _ _ _ _ _ _ _ _ depth fuel W Hd Hfu) as (o2 & E & E2 & Ho2).
  unfold fdt_get_property. rewrite E. cbn [mbind res_bind]. rewrite (proj2 (Z.eqb_neq _ 0)) by lia.
  eexists. split; [done|]. rewrite (nw_f _ _ _ _ _ _ _ _ _ _ _ W). apply value_at. lia.
Qed.

(** *** Overwriting a property in place *)

Lemma rd_prefix pre x off n :
  0 <= off → 0 <= n → off + n <= Z.of_nat (length pre) →
  rd (pre ++ x) off n = Ret (take (Z.to_nat n) (drop (Z.to_nat off) pre)).
Proof.
  intros. rewrite rd_ok by (rewrite ?length_app; lia). rewrite drop_app_le by lia.
  by rewrite take_app_le by (rewrite length_drop; lia).
Qed.

Lemma rd_suffix x y post off n :
  length x = length y → Z.of_nat (length x) <= off → rd (x ++ post) off n = rd (y ++ post) off n.
Proof.
  intros Hl Ho. unfold rd. rewrite !length_app, Hl.
  destruct (_ && _)%bool; [|done]. do 2 f_equal. rewrite !drop_app, Hl.
  by rewrite (drop_ge x), (drop_ge y) by lia.
Qed.

Lemma c_strlen_suffix x y post off :
  length x = length y → Z.of_nat (length x) <= off → c_strlen (x ++ post) off = c_strlen (y ++ post) off.
Proof.
  intros Hl Ho. unfold c_strlen. rewrite !drop_app, Hl. by rewrite (drop_ge x), (drop_ge y) by lia.
Qed.

(** Names live in the strings block, behind what is rewritten. *)
Lemma prop_named_keep pre x y post st o nm :
  length x = length y → (40 <= length pre)%nat → hdr (pre ++ x ++ post) H_OFF_STRINGS = Ret st →
  Z.of_nat (length pre + length x) <= st →
  prop_named (pre ++ x ++ post) o nm → prop_named (pre ++ y ++ post) o nm.
Proof.
  intros Hl H40 Hst Hle (Hc & p & H1 & H2 & H3). split; [done|]. exists p.
  assert (∀ i, 0 <= i <= 9 → hdr (pre ++ y ++ post) i = hdr (pre ++ x ++ post) i) as Hh.
  { intros i Hi. unfold hdr, rd_be32. by rewrite !rd_prefix by lia. }
  assert (st <= p) as Hp.
  { unfold fdt_pname in H1. rewrite Hst in H1. cbn [mbind res_bind] in H1.
    destruct (hdr _ H_SIZE_STRINGS); [|done]. cbn [mbind res_bind] in H1.
    destruct (u32 (o + st) <? st) eqn:E; cbn [orb] in H1; [done|]. bool_to_prop.
    destruct (_ <=? _); simplify_eq/=. lia. }
  split.
  - unfold fdt_pname in *. by rewrite !Hh by (unfold H_OFF_STRINGS, H_SIZE_STRINGS; lia).
  - rewrite !app_assoc in *.
    rewrite (c_strlen_suffix (pre ++ y) (pre ++ x)), (rd_suffix (pre ++ y) (pre ++ x))
      by (rewrite !length_app; lia). done.
Qed.

Lemma wr_at_drop pre old post bs dst :
  dst = Z.of_nat (length pre) → (length bs <= length old)%nat →
  wr (pre ++ old ++ post) dst bs = Ret (pre ++ bs ++ drop (length bs) old ++ post).
Proof.
  intros Hd Hl. rewrite <- (take_drop (length bs) old) at 1. rewrite <- app_assoc.
  rewrite wr_at; [done|done|]. rewrite length_take. lia.
Qed.

Lemma memcpy_and_zeropad_at pre old post data dst :
  dst = Z.of_nat (length pre) → (length (zeropad data) <= length old)%nat →
  memcpy_and_zeropad (pre ++ old ++ post) dst data =
    Ret (pre ++ zeropad data ++ drop (length (zeropad data)) old ++ post).
Proof.
  intros Hd Hl. unfold memcpy_and_zeropad. pose proof Hl as Hl'. unfold zeropad in Hl'.
  rewrite length_app, length_replicate in Hl'. rewrite wr_at_drop by (done || lia). cbn [mbind res_bind].
  change 3 with (2 ^ 2 - 1). rewrite land_ones_mod by lia. change (2 ^ 2) with 4.
  unfold zeropad. destruct (Z.of_nat (length data) mod 4 =? 0) eqn:E; bool_to_prop.
  - rewrite E. simpl. by rewrite app_nil_r.
  - assert ((4 - Z.of_nat (length data) mod 4) mod 4 = 4 - Z.of_nat (length data) mod 4) as Em by dlia.
    rewrite Em in *. rewrite (app_assoc pre data).
    rewrite wr_at_drop; [|rewrite length_app; lia|rewrite length_replicate, length_drop; lia].
    rewrite drop_drop, length_app, length_replicate. by rewrite <- !app_assoc.
Qed.

(** A property that gets a value no longer than the one it has is rewritten
    in place: the blob keeps its size and everything outside the property, the
    words no longer needed become NOPs, and looking the property up in the new
    blob gives the new value. *)
Theorem fdt_set_property_in_place f os ss st pre nn ps o v post name off depth fuel data malloc :
  node_with f os ss pre nn ps o v post name off → 0 <= depth < 256 → (length ps < fuel)%nat →
  (40 <= length pre)%nat → hdr f H_OFF_STRINGS = Ret st →
  Z.of_nat (length f) - Z.of_nat (length post) <= st →
  (length data <= length v)%nat →
  let key := fdt_key_encode (mk_key off depth) in
  ∃ f' k p, fdt_set_property malloc fuel f key name (Some data) = Ret (0, f') ∧
    f' = pre ++ ((be32 FDT_BEGIN_NODE ++ pad_name nn) ++ enc_items ps ++ enc_item (IProp o data))
         ++ nops k ++ post ∧ length f' = length f ∧
    fdt_get_property fuel f' key name = Ret (Some (p, Z.of_nat (length data))) ∧
    rd f' p (Z.of_nat (length data)) = Ret data.
Proof.
  intros W Hd Hfu H40 Hst Hstr Hlen key. set (head := be32 FDT_BEGIN_NODE ++ pad_name nn).
  destruct (fdt_find_property_at _ _ _ _ _ _ _ _ _ _ _ depth fuel W Hd Hfu) as (o2 & E & E2 & Ho2).
  pose proof W as [Hos Hss Hcap Hf Hoff Hr Hin Hnn Hps [Ho Hv] Hname Hoth Hnm]. fold head in Hf, E2, Hin.
  assert (Z.of_nat (length data) + 3 < 4294967296) as Hdl by lia.
  pose proof (value_words_spec v Hv) as Hwv. pose proof (value_words_spec data Hdl) as Hwd.
  assert (length (zeropad data) <= length (zeropad v))%nat as Hzl.
  { apply Nat2Z.inj_le. rewrite !zeropad_length. pose proof (Z.div_le_mono (Z.of_nat (length data) + 3) (Z.of_nat (length v) + 3) 4). lia. }
  set (w := Z.to_nat (value_words (Z.of_nat (length v)) - value_words (Z.of_nat (length data)))).
  unfold fdt_set_property, key. rewrite E. cbn [mbind res_bind].
  rewrite (proj2 (Z.leb_le _ _)) by lia.
  set (A := pre ++ head ++ enc_items ps ++ be32 FDT_PROP).
  assert (f = A ++ be32 (Z.of_nat (length v)) ++ be32 o ++ zeropad v ++ post) as Hf2.
  { rewrite Hf. unfold A. cbn [enc_item]. by rewrite <- !app_assoc. }
  assert (Z.of_nat (length A) = 4 * (o2 + 1)) as HA.
  { unfold A. rewrite !length_app, !be32_length in *. lia. }
  rewrite Hf2. rewrite (app_assoc A), (app_assoc (A ++ _)).
  rewrite memcpy_and_zeropad_at; [|rewrite !length_app, !be32_length; lia|done].
  cbn [mbind res_bind]. rewrite <- !app_assoc. unfold wr_be32.
  rewrite wr_at; [|lia|done]. cbn [mbind res_bind].
  rewrite (app_assoc A), (app_assoc (A ++ _)), (app_assoc ((A ++ _) ++ _)).
  rewrite (write_nops_at w); [|rewrite !length_app, !be32_length; lia|rewrite length_drop; unfold w; lia].
  cbn [mbind res_bind].
  set (f' := (((A ++ be32 (Z.of_nat (length data))) ++ be32 o) ++ zeropad data) ++ nops w ++ post).
  assert (f' = pre ++ (head ++ enc_items ps ++ enc_item (IProp o data)) ++ nops w ++ post) as Hf'.
  { unfold f', A. cbn [enc_item]. by rewrite <- !app_assoc. }
  set (x := head ++ enc_items ps ++ enc_item (IProp o v)) in *.
  set (y := (head ++ enc_items ps ++ enc_item (IProp o data)) ++ nops w).
  assert (f' = pre ++ y ++ post) as Hfy by (rewrite Hf'; unfold y; by rewrite <- !app_assoc).
  assert (length (nops w) = 4 * w)%nat as Hnl.
  { clear. unfold nops. induction w as [|n IH]; [done|]. cbn [replicate concat]. rewrite length_app, IH, be32_length. lia. }
  assert (length x = length y) as Hxy.
  { unfold x, y. cbn [enc_item]. rewrite !length_app, !be32_length, Hnl. unfold w. lia. }
  assert (Z.of_nat (length pre + length x) <= st) as Hle.
  { rewrite Hf, !length_app in Hstr. lia. }
  assert (∀ q nm, prop_named f q nm → prop_named f' q nm) as Hkeep.
  { intros q nm. rewrite Hfy, Hf. apply (prop_named_keep pre x y post st); try done. by rewrite <- Hf. }
  assert (∀ i, 0 <= i <= 9 → hdr f' i = hdr f i) as Hh.
  { intros i Hi. rewrite Hfy, Hf. unfold hdr, rd_be32. by rewrite !rd_prefix by lia. }
  assert (length f' = length f) as Hlf by (rewrite Hfy, Hf, !length_app, Hxy; done).
  assert (node_with f' os ss pre nn ps o data (nops w ++ post) name off) as W'.
  { split; try done.
    - by rewrite Hh by (unfold H_OFF_STRUCT; lia).
    - by rewrite Hh by (unfold H_SIZE_STRUCT; lia).
    - unfold capacity in *. by rewrite Hlf.
    - fold head. unfold inside in *. destruct Hin as [Hi1 Hi2]. split; [done|].
      unfold y in Hxy. rewrite length_app in Hxy. lia.
    - eapply Forall_impl; [|exact Hoth]. intros [|q u|? ?]; simpl; try done.
      intros (nm & H1 & H2). exists nm. split; [by apply Hkeep|done].
    - by apply Hkeep. }
  destruct (fdt_find_property_at _ _ _ _ _ _ _ _ _ _ _ depth fuel W' Hd Hfu) as (o3 & E' & E3 & Ho3).
  exists f', w, (4 * (o3 + 3)). split_and!; try done.
  - by rewrite <- Hf2.
  - unfold fdt_get_property. rewrite E'. cbn [mbind res_bind]. by rewrite (proj2 (Z.eqb_neq _ 0)) by lia.
  - rewrite Hf'. apply value_at. fold head in E3. lia.
Qed.

(** ** Blobs *)

(** A header for a structure block of [size] bytes at 40 and a strings block
    behind it. *)
Definition header (size strsize : Z) : list Z :=
  concat (be32 <$> [FDT_MAGIC; 40 + size + strsize; 40; 40 + size; 40; 17; FDT_LAST_COMPVER; 0; strsize; size]).
Definition blob (struct strings : list Z) : list Z :=
  header (Z.of_nat (length struct)) (Z.of_nat (length strings)) ++ struct ++ strings.

(** A root node with two properties (names at 0 and 4 of the strings) and a
    subnode. *)
Definition example_struct (body : list item) : list Z :=
  enc_item (INode [] ([INop; IProp 0 [1; 2; 3]; IProp 4 [7; 7; 7; 7; 7; 7]] ++ body)) ++ be32 FDT_END.
Definition example_strings : list Z := [114; 101; 103; 0; 109; 101; 109; 0].
Definition example_blob (body : list item) : list Z := blob (example_struct body) example_strings.
Definition name_reg : list Z := [114; 101; 103].
Definition name_mem : list Z := [109; 101; 109].

(** Erasing a node whose name is shorter than four characters takes too
    much: [skip_node_after_token] steps over one word more than the begin token,
    so for an empty subnode "a" the token after its name is taken for the name,
    and the end token of the parent is erased with the node; the tree that is left
    no longer closes its root. *)
Theorem fdt_erase_short_name :
  let body := [INode [97] []] in
  let f := example_blob body in
  let before := header 68 8 ++ be32 FDT_BEGIN_NODE ++ pad_name [] ++
    enc_items [INop; IProp 0 [1; 2; 3]; IProp 4 [7; 7; 7; 7; 7; 7]] in
  fdt_validate f = Ret None ∧
  f = before ++ enc_item (INode [97] []) ++ be32 FDT_END_NODE ++ be32 FDT_END ++ example_strings ∧
  fdt_erase_node 9 f (fdt_key_encode (mk_key 22 1)) =
    Ret (before ++ nops 4 ++ be32 FDT_END ++ example_strings).
Proof. cbv zeta. split_and!; vm_compute; reflexivity. Qed.

(** A validated blob whose only property claims to be 0xfffffff1 bytes long. *)
Definition looping_blob : list Z :=
  blob (be32 FDT_BEGIN_NODE ++ be32 0 ++ be32 FDT_PROP ++ be32 4294967281 ++ be32 0 ++ be32 FDT_END_NODE ++ be32 FDT_END) [0].

Lemma shiftl2_mod a b : a mod 1073741824 = b mod 1073741824 → u32 (Z.shiftl a 2) = u32 (Z.shiftl b 2).
Proof. intros. unfold u32. rewrite !Z.shiftl_mul_pow2 by lia. change (2 ^ 2) with 4. dlia. Qed.

Lemma fdt_rd32_mod f a b : a mod 1073741824 = b mod 1073741824 → fdt_rd32 f a = fdt_rd32 f b.
Proof. intros E. unfold fdt_rd32. by rewrite (shiftl2_mod a b E). Qed.

(** The walks do not end on every blob that validates: a property length
    close to 2^32 moves the word offset around so that, with the two bits the
    conversion to bytes drops, it comes back to the same property, and
    [skip_node] goes round forever. *)
Theorem fdt_skip_node_loops :
  fdt_validate looping_blob = Ret None ∧ ∀ fuel, skip_node fuel looping_blob 12 = Fault NoFuel.
Proof.
  split; [vm_compute; reflexivity|].
  assert (∀ fuel off, off mod 1073741824 = 12 → is_u32 off →
    skip_node fuel looping_blob off = Fault NoFuel) as H.
  { induction fuel as [|fuel IH]; intros off Ho Hu; [done|]. cbn [skip_node].
    rewrite (fdt_rd32_mod looping_blob off 12) by (rewrite Ho; done).
    replace (fdt_rd32 looping_blob 12) with (Ret FDT_PROP) by (vm_compute; reflexivity).
    cbn [mbind res_bind]. rewrite !(proj2 (Z.eqb_neq FDT_PROP _)) by done. rewrite Z.eqb_refl.
    assert (u32 (off + 1) mod 1073741824 = 13) as E by (unfold u32, is_u32 in *; dlia).
    rewrite (fdt_rd32_mod looping_blob (u32 (off + 1)) 13) by (rewrite E; done).
    replace (fdt_rd32 looping_blob 13) with (Ret 4294967281) by (vm_compute; reflexivity).
    cbn [mbind res_bind]. replace (value_words 4294967281) with 1073741821 by (vm_compute; reflexivity).
    apply IH; [|apply u32_range]. unfold u32, is_u32 in *. dlia. }
  intros fuel. apply H; [done|]. unfold is_u32. lia.
Qed.

Lemma example_validates body : body = [] ∨ body = [INode [99; 112; 117; 115] [INop]] →
  fdt_validate (example_blob body) = Ret None.
Proof. intros [-> | ->]; vm_compute; reflexivity. Qed.

Lemma name_reg_cstr : cstr name_reg.
Proof. repeat (constructor; [unfold is_char; lia|]). constructor. Qed.
Lemma name_mem_cstr : cstr name_mem.
Proof. repeat (constructor; [unfold is_char; lia|]). constructor. Qed.

Lemma example_node : node_with (example_blob []) 40 56 (header 56 8) [] [INop; IProp 0 [1; 2; 3]] 4
  [7; 7; 7; 7; 7; 7] (be32 FDT_END_NODE ++ be32 FDT_END ++ example_strings) name_mem 10.
Proof.
  split.
  - vm_compute. reflexivity.
  - vm_compute. reflexivity.
  - vm_compute. reflexivity.
  - vm_compute. reflexivity.
  - vm_compute. reflexivity.
  - lia.
  - vm_compute. split; discriminate.
  - constructor.
  - simpl. unfold is_u32. lia.
  - simpl. unfold is_u32. lia.
  - apply name_mem_cstr.
  - constructor; [exact I|]. constructor; [|constructor]. exists name_reg. split; [|discriminate].
    split; [apply name_reg_cstr|]. exists 96. split_and!; vm_compute; reflexivity.
  - split; [apply name_mem_cstr|]. exists 100. split_and!; vm_compute; reflexivity.
Qed.

Lemma fdt_get_property_correct_witness :
  ∃ p, fdt_get_property 3 (example_blob []) (fdt_key_encode (mk_key 10 0)) name_mem = Ret (Some (p, 6)) ∧
    rd (example_blob []) p 6 = Ret [7; 7; 7; 7; 7; 7].
Proof.
  apply (fdt_get_property_correct _ _ _ _ _ _ _ _ _ _ _ 0 3 example_node); [lia|simpl; lia].
Defined.

Lemma fdt_set_property_in_place_witness :
  let key := fdt_key_encode (mk_key 10 0) in
  ∃ f' k p, fdt_set_property (λ _, None) 3 (example_blob []) key name_mem (Some [9; 8]) = Ret (0, f') ∧
    f' = header 56 8 ++ ((be32 FDT_BEGIN_NODE ++ pad_name []) ++ enc_items [INop; IProp 0 [1; 2; 3]] ++
           enc_item (IProp 4 [9; 8])) ++ nops k ++ be32 FDT_END_NODE ++ be32 FDT_END ++ example_strings ∧
    length f' = length (example_blob []) ∧
    fdt_get_property 3 f' key name_mem = Ret (Some (p, 2)) ∧ rd f' p 2 = Ret [9; 8].
Proof.
  apply (fdt_set_property_in_place (example_blob []) 40 56 96 (header 56 8) [] [INop; IProp 0 [1; 2; 3]] 4
    [7; 7; 7; 7; 7; 7] (be32 FDT_END_NODE ++ be32 FDT_END ++ example_strings) name_mem 10 0 3 [9; 8]
    (λ _, None) example_node); [lia|simpl; lia|vm_compute; lia|vm_compute; reflexivity|
    vm_compute; discriminate|simpl; lia].
Defined.

(** A subnode with a long enough name: cpus. *)
Definition name_cpus : list Z := [99; 112; 117; 115].
Lemma fdt_erase_node_exact_witness :
  let f := example_blob [INode name_cpus [INop]] in
  ∃ k, fdt_erase_node 3 f (fdt_key_encode (mk_key 22 1)) =
      Ret (header 76 8 ++ (be32 FDT_BEGIN_NODE ++ pad_name [] ++ enc_items [INop; IProp 0 [1; 2; 3];
             IProp 4 [7; 7; 7; 7; 7; 7]]) ++ nops k ++ be32 FDT_END_NODE ++ be32 FDT_END ++ example_strings) ∧
    length (nops k) = length (enc_item (INode name_cpus [INop])).
Proof.
  apply (fdt_erase_node_exact (example_blob [INode name_cpus [INop]]) 40 76 3 name_cpus [INop]
    (header 76 8 ++ be32 FDT_BEGIN_NODE ++ pad_name [] ++ enc_items [INop; IProp 0 [1; 2; 3];
             IProp 4 [7; 7; 7; 7; 7; 7]]) (be32 FDT_END_NODE ++ be32 FDT_END ++ example_strings) 22 1).
  - vm_compute. reflexivity.
  - vm_compute. reflexivity.
  - vm_compute. reflexivity.
  - vm_compute. reflexivity.
  - vm_compute. reflexivity.
  - vm_compute. split; discriminate.
  - split; [|done]. repeat (constructor; [unfold is_char; lia|]). constructor.
  - simpl. lia.
  - lia.
  - lia.
  - simpl. lia.
Defined.
