(* ===== verification/Vllp.v ===== *)
(** * Vllp: the reliable multi-channel link over CAN ([src/net/vllp.c])

    A VLLP server multiplexes up to fifteen channels over one pair of CAN
    identifiers.  Messages of a channel carry a CRC-32 seeded per message, are
    cut into fragments of at most one frame, and each frame is acknowledged with
    an alternating bit in each direction (the S and E bits of its header).
    Channel 14, the control channel, opens and closes the others.

    The state [vllp_t] is the record [vllp]; a [struct vllp_channel] is a
    [channel] stored in [w_chans] under its address, so that the lists
    [channels] and [established_channels] and the pointer [cmc] share it, and an
    access to a freed channel is [OutOfBounds].  The operations run in a state
    and fault monad over the [world]: the connection, the channels, the packet
    buffer pools of [Pbuf], the clock, and what was handed out ([dsig_emit_pbuf]
    and [net_task_raise]).  A timer is its expiry time while it is armed.

    Parameters: the callbacks of the service behind a channel
    ([pushpull_app_fn_t], function pointers), the table of services, which the
    linker collects, the allocator, and the checksum ([Crc32Spec]). *)

From Stdlib Require Import ZArith Lia.
From stdpp Require Import base list numbers gmap strings.
From S2P Require Import Prelude Crc Pbuf.

Open Scope Z_scope.

Definition VLLP_CHANNEL_STATE_ESTABLISHED : Z := 2.
Definition VLLP_CHANNEL_STATE_CLOSED_SENT : Z := 3.
Definition VLLP_VERSION : Z := 2.
Definition VLLP_SYN : Z := 15.
Definition VLLP_HDR_S : Z := 128.
Definition VLLP_HDR_E : Z := 64.
Definition VLLP_HDR_F : Z := 32.
Definition VLLP_HDR_L : Z := 16.
Definition VLLP_CMC_OPCODE_OPEN : Z := 0.
Definition VLLP_CMC_OPCODE_OPEN_RESPONSE : Z := 2.
Definition VLLP_CMC_OPCODE_CLOSE : Z := 3.
Definition PUSHPULL_EVENT_CLOSE : Z := 1.

Definition ERR_NO_BUFFER : Z := -7.
Definition ERR_BAD_STATE : Z := -13.
Definition ERR_NOT_FOUND : Z := -17.
Definition ERR_CHECKSUM_ERROR : Z := -18.
Definition ERR_MALFORMED : Z := -19.
Definition ERR_NO_MEMORY : Z := -29.
Definition ERR_EXIST : Z := -35.

(** [flags & bit] as a truth value. *)
Definition bit_set (flags bit : Z) : bool := negb (Z.land flags bit =? 0).

(** Why a channel was closed: a fixed string, or [error_to_string] of a code. *)
Inductive reason :=
| Because (s : string)
| PeerError (code : Z).

(** Calls that leave the component. *)
Inductive event :=
| Emit (signal : Z) (pb : list pbuf)
| Raise (vc : Z) (signals : Z).

(** ** State *)

Record vllp := mk_vllp {
  channels : list Z;
  established_channels : list Z;
  ack_timer : option Z;
  rtx_timer : option Z;
  timeout_timer : option Z;
  current_tx_buf : list pbuf;
  current_tx_len : Z;
  current_tx_channel : Z;
  cmc : Z;
  rxid : Z;
  txid : Z;
  crc_IV : Z;
  channel_iv_cnt : Z;
  remote_flow_status : Z;
  local_flow_status : Z;
  transmitted_local_flow_status : Z;
  connected : bool;
  SE : Z;
  mtu : Z;
  timeout : Z;
}.

Definition set_channels (x : list Z) (r : vllp) : vllp :=
  mk_vllp x (established_channels r) (ack_timer r) (rtx_timer r) (timeout_timer r)
    (current_tx_buf r) (current_tx_len r) (current_tx_channel r) (cmc r) (rxid r) (txid r)
    (crc_IV r) (channel_iv_cnt r) (remote_flow_status r) (local_flow_status r)
    (transmitted_local_flow_status r) (connected r) (SE r) (mtu r) (timeout r).
Definition set_established (x : list Z) (r : vllp) : vllp :=
  mk_vllp (channels r) x (ack_timer r) (rtx_timer r) (timeout_timer r) (current_tx_buf r)
    (current_tx_len r) (current_tx_channel r) (cmc r) (rxid r) (txid r) (crc_IV r)
    (channel_iv_cnt r) (remote_flow_status r) (local_flow_status r)
    (transmitted_local_flow_status r) (connected r) (SE r) (mtu r) (timeout r).
Definition set_ack_timer (x : option Z) (r : vllp) : vllp :=
  mk_vllp (channels r) (established_channels r) x (rtx_timer r) (timeout_timer r)
    (current_tx_buf r) (current_tx_len r) (current_tx_channel r) (cmc r) (rxid r) (txid r)
    (crc_IV r) (channel_iv_cnt r) (remote_flow_status r) (local_flow_status r)
    (transmitted_local_flow_status r) (connected r) (SE r) (mtu r) (timeout r).
Definition set_rtx_timer (x : option Z) (r : vllp) : vllp :=
  mk_vllp (channels r) (established_channels r) (ack_timer r) x (timeout_timer r)
    (current_tx_buf r) (current_tx_len r) (current_tx_channel r) (cmc r) (rxid r) (txid r)
    (crc_IV r) (channel_iv_cnt r) (remote_flow_status r) (local_flow_status r)
    (transmitted_local_flow_status r) (connected r) (SE r) (mtu r) (timeout r).
Definition set_timeout_timer (x : option Z) (r : vllp) : vllp :=
  mk_vllp (channels r) (established_channels r) (ack_timer r) (rtx_timer r) x (current_tx_buf r)
    (current_tx_len r) (current_tx_channel r) (cmc r) (rxid r) (txid r) (crc_IV r)
    (channel_iv_cnt r) (remote_flow_status r) (local_flow_status r)
    (transmitted_local_flow_status r) (connected r) (SE r) (mtu r) (timeout r).
Definition set_tx_buf (x : list pbuf) (r : vllp) : vllp :=
  mk_vllp (channels r) (established_channels r) (ack_timer r) (rtx_timer r) (timeout_timer r) x
    (current_tx_len r) (current_tx_channel r) (cmc r) (rxid r) (txid r) (crc_IV r)
    (channel_iv_cnt r) (remote_flow_status r) (local_flow_status r)
    (transmitted_local_flow_status r) (connected r) (SE r) (mtu r) (timeout r).
Definition set_tx_len (x : Z) (r : vllp) : vllp :=
  mk_vllp (channels r) (established_channels r) (ack_timer r) (rtx_timer r) (timeout_timer r)
    (current_tx_buf r) x (current_tx_channel r) (cmc r) (rxid r) (txid r) (crc_IV r)
    (channel_iv_cnt r) (remote_flow_status r) (local_flow_status r)
    (transmitted_local_flow_status r) (connected r) (SE r) (mtu r) (timeout r).
Definition set_tx_channel (x : Z) (r : vllp) : vllp :=
  mk_vllp (channels r) (established_channels r) (ack_timer r) (rtx_timer r) (timeout_timer r)
    (current_tx_buf r) (current_tx_len r) x (cmc r) (rxid r) (txid r) (crc_IV r) (channel_iv_cnt
    r) (remote_flow_status r) (local_flow_status r) (transmitted_local_flow_status r) (connected
    r) (SE r) (mtu r) (timeout r).
Definition set_crc_IV (x : Z) (r : vllp) : vllp :=
  mk_vllp (channels r) (established_channels r) (ack_timer r) (rtx_timer r) (timeout_timer r)
    (current_tx_buf r) (current_tx_len r) (current_tx_channel r) (cmc r) (rxid r) (txid r) x
    (channel_iv_cnt r) (remote_flow_status r) (local_flow_status r)
    (transmitted_local_flow_status r) (connected r) (SE r) (mtu r) (timeout r).
Definition set_iv_cnt (x : Z) (r : vllp) : vllp :=
  mk_vllp (channels r) (established_channels r) (ack_timer r) (rtx_timer r) (timeout_timer r)
    (current_tx_buf r) (current_tx_len r) (current_tx_channel r) (cmc r) (rxid r) (txid r)
    (crc_IV r) x (remote_flow_status r) (local_flow_status r) (transmitted_local_flow_status r)
    (connected r) (SE r) (mtu r) (timeout r).
Definition set_remote_flow (x : Z) (r : vllp) : vllp :=
  mk_vllp (channels r) (established_channels r) (ack_timer r) (rtx_timer r) (timeout_timer r)
    (current_tx_buf r) (current_tx_len r) (current_tx_channel r) (cmc r) (rxid r) (txid r)
    (crc_IV r) (channel_iv_cnt r) x (local_flow_status r) (transmitted_local_flow_status r)
    (connected r) (SE r) (mtu r) (timeout r).
Definition set_local_flow (x : Z) (r : vllp) : vllp :=
  mk_vllp (channels r) (established_channels r) (ack_timer r) (rtx_timer r) (timeout_timer r)
    (current_tx_buf r) (current_tx_len r) (current_tx_channel r) (cmc r) (rxid r) (txid r)
    (crc_IV r) (channel_iv_cnt r) (remote_flow_status r) x (transmitted_local_flow_status r)
    (connected r) (SE r) (mtu r) (timeout r).
Definition set_transmitted_flow (x : Z) (r : vllp) : vllp :=
  mk_vllp (channels r) (established_channels r) (ack_timer r) (rtx_timer r) (timeout_timer r)
    (current_tx_buf r) (current_tx_len r) (current_tx_channel r) (cmc r) (rxid r) (txid r)
    (crc_IV r) (channel_iv_cnt r) (remote_flow_status r) (local_flow_status r) x (connected r)
    (SE r) (mtu r) (timeout r).
Definition set_connected (x : bool) (r : vllp) : vllp :=
  mk_vllp (channels r) (established_channels r) (ack_timer r) (rtx_timer r) (timeout_timer r)
    (current_tx_buf r) (current_tx_len r) (current_tx_channel r) (cmc r) (rxid r) (txid r)
    (crc_IV r) (channel_iv_cnt r) (remote_flow_status r) (local_flow_status r)
    (transmitted_local_flow_status r) x (SE r) (mtu r) (timeout r).
Definition set_SE (x : Z) (r : vllp) : vllp :=
  mk_vllp (channels r) (established_channels r) (ack_timer r) (rtx_timer r) (timeout_timer r)
    (current_tx_buf r) (current_tx_len r) (current_tx_channel r) (cmc r) (rxid r) (txid r)
    (crc_IV r) (channel_iv_cnt r) (remote_flow_status r) (local_flow_status r)
    (transmitted_local_flow_status r) (connected r) x (mtu r) (timeout r).

(** The callbacks of a service, on the state [App] behind [app_opaque].  A
    packet passed to [push] is the service's from then on. *)
Record app_fn (App : Type) := mk_app_fn {
  push : App → list pbuf → netmem → Z * App * netmem;
  may_push : option (App → bool);
  pull : App → netmem → list pbuf * App * netmem;
  close : App → reason → App;
}.
Arguments push {App} _ _ _ _.
Arguments may_push {App} _.
Arguments pull {App} _ _ _.
Arguments close {App} _ _ _.

Record service (App : Type) := mk_service {
  s_name : list Z;
  open_pushpull : pushpull → Z + App;   (* the error, or the service's state *)
}.
Arguments s_name {App} _.
Arguments open_pushpull {App} _ _.

Section Channel.
Context {App : Type}.

Record channel := mk_channel {
  vc_rxq : list pbuf;
  vc_txq : list pbuf;
  vc_app : option App;
  vc_pp : pushpull;
  tx_crc_IV : Z;
  rx_crc_IV : Z;
  vc_id : Z;
  vc_state : Z;
  app_closed : Z;
  net_closed : bool;
}.

Definition set_rxq (x : list pbuf) (r : channel) : channel :=
  mk_channel x (vc_txq r) (vc_app r) (vc_pp r) (tx_crc_IV r) (rx_crc_IV r) (vc_id r) (vc_state
    r) (app_closed r) (net_closed r).
Definition set_txq (x : list pbuf) (r : channel) : channel :=
  mk_channel (vc_rxq r) x (vc_app r) (vc_pp r) (tx_crc_IV r) (rx_crc_IV r) (vc_id r) (vc_state
    r) (app_closed r) (net_closed r).
Definition set_app (x : option App) (r : channel) : channel :=
  mk_channel (vc_rxq r) (vc_txq r) x (vc_pp r) (tx_crc_IV r) (rx_crc_IV r) (vc_id r) (vc_state
    r) (app_closed r) (net_closed r).
Definition set_pp (x : pushpull) (r : channel) : channel :=
  mk_channel (vc_rxq r) (vc_txq r) (vc_app r) x (tx_crc_IV r) (rx_crc_IV r) (vc_id r) (vc_state
    r) (app_closed r) (net_closed r).
Definition set_tx_crc (x : Z) (r : channel) : channel :=
  mk_channel (vc_rxq r) (vc_txq r) (vc_app r) (vc_pp r) x (rx_crc_IV r) (vc_id r) (vc_state r)
    (app_closed r) (net_closed r).
Definition set_rx_crc (x : Z) (r : channel) : channel :=
  mk_channel (vc_rxq r) (vc_txq r) (vc_app r) (vc_pp r) (tx_crc_IV r) x (vc_id r) (vc_state r)
    (app_closed r) (net_closed r).
Definition set_state (x : Z) (r : channel) : channel :=
  mk_channel (vc_rxq r) (vc_txq r) (vc_app r) (vc_pp r) (tx_crc_IV r) (rx_crc_IV r) (vc_id r) x
    (app_closed r) (net_closed r).
Definition set_app_closed (x : Z) (r : channel) : channel :=
  mk_channel (vc_rxq r) (vc_txq r) (vc_app r) (vc_pp r) (tx_crc_IV r) (rx_crc_IV r) (vc_id r)
    (vc_state r) x (net_closed r).
Definition set_net_closed (x : bool) (r : channel) : channel :=
  mk_channel (vc_rxq r) (vc_txq r) (vc_app r) (vc_pp r) (tx_crc_IV r) (rx_crc_IV r) (vc_id r)
    (vc_state r) (app_closed r) x.

Record world := mk_world {
  w_v : vllp;
  w_chans : gmap Z channel;
  w_nm : netmem;
  w_now : Z;
  w_out : list event;
}.
End Channel.
Arguments channel : clear implicits.
Arguments world : clear implicits.

(** ** The monad *)

Definition M (App A : Type) : Type := world App → res (A * world App).

#[export] Instance M_ret {App} : MRet (M App) := λ A a w, Ret (a, w).
#[export] Instance M_bind {App} : MBind (M App) := λ A B k m w,
  match m w with Ret (a, w) => k a w | Fault f => Fault f end.

Section Vllp.
Context {App : Type} (fn : app_fn App) (services : list (service App)).
Context (xalloc : gmap Z (channel App) → option Z) (crc : Z → list Z → Z).
Abbreviation M := (M App).
Abbreviation world := (world App).

Definition get_v : M vllp := λ w, Ret (w_v w, w).
Definition mod_v (f : vllp → vllp) : M () := λ w,
  Ret ((), mk_world (f (w_v w)) (w_chans w) (w_nm w) (w_now w) (w_out w)).
Definition get_chan (h : Z) : M (channel App) := λ w,
  match w_chans w !! h with Some vc => Ret (vc, w) | None => Fault OutOfBounds end.
Definition put_chan (h : Z) (vc : channel App) : M () := λ w,
  Ret ((), mk_world (w_v w) (<[h := vc]> (w_chans w)) (w_nm w) (w_now w) (w_out w)).
Definition mod_chan (h : Z) (f : channel App → channel App) : M () :=
  vc ← get_chan h; put_chan h (f vc).
Definition free_chan (h : Z) : M () := λ w,
  Ret ((), mk_world (w_v w) (delete h (w_chans w)) (w_nm w) (w_now w) (w_out w)).
Definition get_chans : M (gmap Z (channel App)) := λ w, Ret (w_chans w, w).
Definition clock_get : M Z := λ w, Ret (w_now w, w).
Definition output (e : event) : M () := λ w,
  Ret ((), mk_world (w_v w) (w_chans w) (w_nm w) (w_now w) (w_out w ++ [e])).
Definition lift {A} (r : res A) : M A := λ w,
  match r with Ret a => Ret (a, w) | Fault f => Fault f end.
(** A packet buffer operation on the pools. *)
Definition with_nm {A} (f : netmem → res (A * netmem)) : M A := λ w,
  match f (w_nm w) with
  | Ret (a, nm) => Ret (a, mk_world (w_v w) (w_chans w) nm (w_now w) (w_out w))
  | Fault e => Fault e
  end.
Definition free_pbufs (c : list pbuf) : M () :=
  with_nm (λ nm, nm ← pbuf_free nm c; Ret ((), nm)).
(** [pbuf_make(offset, 0)]: a one-buffer packet, or NULL. *)
Definition pbuf_make (offset : Z) : M (list pbuf) :=
  with_nm (λ nm, '(pb, nm) ← pbuf_make0 nm offset false;
                 Ret (match pb with Some pb => [pb] | None => [] end, nm)).
(** More iterations than a pbuf loop over the chain can take. *)
Definition fuel_for (c : list pbuf) : nat := S (length c).

(** Stores at an address inside the last, or the first, buffer of a packet. *)
Definition store_last (c : list pbuf) (pos : Z) (bs : list Z) : res (list pbuf) :=
  match last c with
  | None => Fault OutOfBounds
  | Some pb => m ← wr (db_mem (pb_data pb)) pos bs; Ret (on_last (λ pb, set_mem pb m) c)
  end.
Definition store_head (c : list pbuf) (pos : Z) (bs : list Z) : res (list pbuf) :=
  match c with
  | [] => Fault OutOfBounds
  | pb :: c => m ← wr (db_mem (pb_data pb)) pos bs; Ret (set_mem pb m :: c)
  end.

(** The [net_timer_arm] and [timer_disarm] calls, by timer. *)
Definition arm (set : option Z → vllp → vllp) (delta : Z) : M () :=
  now ← clock_get; mod_v (set (Some (now + delta))).
Definition disarm (set : option Z → vllp → vllp) : M () := mod_v (set None).

(** ** Checksums *)

Fixpoint crc_chain (c : list pbuf) (r : Z) : res Z :=
  match c with
  | [] => Ret r
  | pb :: c => bs ← rd (db_mem (pb_data pb)) (pb_offset pb) (pb_buflen pb); crc_chain c (crc r bs)
  end.
Definition calc_crc32 (pb : list pbuf) (r : Z) : res Z := r ← crc_chain pb r; Ret (not32 r).

(** [vllp_append_crc(iv, pkt, len)] where [pkt] is at [pos] in the last buffer. *)
Definition vllp_append_crc (iv : Z) (pb : list pbuf) (pos len : Z) : res (list pbuf) :=
  match last pb with
  | None => Fault OutOfBounds
  | Some b => bs ← rd (db_mem (pb_data b)) pos len; store_last pb (pos + len) (le32 (not32 (crc iv bs)))
  end.

(** The counter is hashed as it lies in memory, little-endian. *)
Definition vllp_gen_channel_crc : M Z :=
  v ← get_v;
  mod_v (set_iv_cnt (u32 (channel_iv_cnt v + 1)));;
  mret (crc (crc_IV v) (le32 (u32 (channel_iv_cnt v + 1)))).

(** ** Channels *)

Definition vllp_channel_destroy (h : Z) : M () :=
  vc ← get_chan h;
  free_pbufs (vc_txq vc);; free_pbufs (vc_rxq vc);; free_chan h.

Definition vllp_channel_make (id : Z) : M (option Z) :=
  m ← get_chans;
  match xalloc m with
  | None => mret None
  | Some h =>
      put_chan h (mk_channel [] [] None (mk_pushpull 0 0) 0 0 (u8 id) 0 0 false);;
      v ← get_v;
      mod_v (set_channels (h :: channels v));;
      mret (Some h)
  end.

Fixpoint find_channel (l : list Z) (channel_id : Z) : M (option Z) :=
  match l with
  | [] => mret None
  | h :: l => vc ← get_chan h; if vc_id vc =? channel_id then mret (Some h) else find_channel l channel_id
  end.
Definition vllp_channel_find (channel_id : Z) : M (option Z) :=
  v ← get_v; find_channel (channels v) channel_id.

Fixpoint flow_bits (l : list Z) (bits : Z) : M Z :=
  match l with
  | [] => mret bits
  | h :: l =>
      v ← get_v;
      if h =? cmc v then flow_bits l bits
      else
        vc ← get_chan h;
        if net_closed vc then flow_bits l bits
        else match vc_app vc with
        | None => lift (Fault OutOfBounds)
        | Some app =>
            let ready := match may_push fn with Some f => f app | None => false end in
            flow_bits l (if ready then bits else Z.clearbit bits (vc_id vc))
        end
  end.
Definition vllp_refresh_local_flow_status : M bool :=
  v ← get_v;
  bits ← flow_bits (channels v) 65535;
  if local_flow_status v =? bits then mret false
  else mod_v (set_local_flow bits);; mret true.

Definition list_remove (h : Z) (l : list Z) : list Z := filter (λ x, x ≠ h) l.

Definition dsig_emit_pbuf (signal : Z) (pb : list pbuf) : M () := output (Emit signal pb).
Definition net_task_raise (h signals : Z) : M () := output (Raise h signals).

(** The buffer for an outgoing frame: a fresh one, or the one passed in; four
    bytes are left free for the identifier. *)
Definition frame_buffer (pb : list pbuf) : M (list pbuf) :=
  match pb with
  | [] => pbuf_make 4
  | _ => with_nm (λ nm, pbuf_reset nm pb 4 0)
  end.

Definition vllp_tx_ack (pb : list pbuf) : M (list pbuf) :=
  pb ← frame_buffer pb;
  match pb with
  | [] => mret []
  | _ =>
      '(pb, pkt) ← lift (pbuf_append pb 7);
      v ← get_v;
      pb ← lift (store_last pb pkt [u8 (Z.lor (SE v) 31); u8 (local_flow_status v);
                                    u8 (Z.shiftr (local_flow_status v) 8)]);
      mod_v (set_transmitted_flow (local_flow_status v));;
      pb ← lift (vllp_append_crc (crc_IV v) pb pkt 3);
      dsig_emit_pbuf (txid v) pb;;
      arm set_ack_timer 1000000;;
      mret []
  end.

Definition vllp_channel_maybe_destroy (h : Z) : M bool :=
  vc ← get_chan h;
  if ((app_closed vc =? 2) && net_closed vc)%bool then vllp_channel_destroy h;; mret true
  else mret false.

Definition vllp_channel_net_close (h : Z) (why : reason) : M () :=
  vc ← get_chan h;
  if net_closed vc then mret ()
  else match vc_app vc with
  | None => lift (Fault OutOfBounds)
  | Some app =>
      put_chan h (set_net_closed true (set_app (Some (close fn app why)) vc));;
      v ← get_v;
      mod_v (set_channels (list_remove h (channels v)));;
      _ ← vllp_channel_maybe_destroy h;
      mret ()
  end.

(** The successor is read before the channel is closed. *)
Fixpoint close_all (l : list Z) (why : reason) : M () :=
  match l with
  | [] => mret ()
  | h :: l =>
      v ← get_v;
      (if h =? cmc v then mret () else vllp_channel_net_close h why);;
      close_all l why
  end.
Definition vllp_disconnect (why : reason) : M () :=
  v ← get_v;
  if negb (connected v) then mret ()
  else
    disarm set_ack_timer;; disarm set_rtx_timer;; disarm set_timeout_timer;;
    close_all (channels v) why;;
    v ← get_v;
    match current_tx_buf v with
    | [] => mret ()
    | c => free_pbufs c;; mod_v (set_tx_buf [])
    end;;
    mod_v (λ v, set_connected false (set_tx_channel 0 (set_tx_len 0 v))).

Definition vllp_accept_syn (data : list Z) (pb : list pbuf) : M (list pbuf) :=
  match data with
  | [_; version; peer_mtu; iv0; iv1; iv2; iv3] =>
      v ← get_v;
      if negb (version =? VLLP_VERSION) then mret pb
      else if negb (peer_mtu =? mtu v) then mret pb
      else
        (if connected v then vllp_disconnect (Because "reconnected") else mret ());;
        mod_v (λ v, set_iv_cnt 0 (set_crc_IV (rd_le32 iv0 iv1 iv2 iv3)
                      (set_SE VLLP_HDR_E (set_connected true v))));;
        cmc_iv ← vllp_gen_channel_crc;
        mod_chan (cmc v) (λ vc, set_rx_crc (not32 cmc_iv) (set_tx_crc cmc_iv vc));;
        vllp_tx_ack pb
  | _ => mret pb    (* len != 7 *)
  end.

(** ** The control channel *)

Definition send_cmc_message (h : Z) (pb : list pbuf) (opcode target_channel err : Z) : M () :=
  pb ← with_nm (λ nm, pbuf_reset nm pb 1 0);
  '(pb, pos) ← lift (pbuf_append pb 3);
  pb ← lift (store_last pb pos [u8 (Z.lor (Z.shiftl opcode 4) target_channel); u8 err;
                                u8 (Z.shiftr err 8)]);
  mod_chan h (λ vc, set_txq (vc_txq vc ++ pb) vc).

(** [service.c]: the first service with exactly this name. *)
Definition service_find_by_namelen (name : list Z) : option (service App) :=
  list_find (λ s, s_name s = name) services ≫= λ p, Some p.2.

Definition handle_cmc_open (target_channel : Z) (name : list Z) : M Z :=
  iv ← vllp_gen_channel_crc;
  match service_find_by_namelen name with
  | None => mret ERR_NOT_FOUND
  | Some s =>
      other ← vllp_channel_find target_channel;
      match other with
      | Some _ => mret ERR_EXIST
      | None =>
          h ← vllp_channel_make target_channel;
          match h with
          | None => mret ERR_NO_MEMORY
          | Some h =>
              let pp := mk_pushpull (PBUF_DATA_SIZE - 4) 0 in
              mod_chan h (λ vc, set_pp pp (set_state VLLP_CHANNEL_STATE_ESTABLISHED
                                  (set_rx_crc (not32 iv) (set_tx_crc iv vc))));;
              match open_pushpull s pp with
              | inl err =>
                  v ← get_v;
                  mod_v (set_channels (list_remove h (channels v)));; free_chan h;;
                  mret err
              | inr app =>
                  mod_chan h (set_app (Some app));;
                  v ← get_v;
                  mod_v (set_established (established_channels v ++ [h]));;
                  mret 0
              end
          end
      end
  end.

(** [int16_t] of a little-endian pair. *)
Definition s16_le (a b : Z) : Z :=
  let m := Z.lor a (Z.shiftl b 8) in if m <? 32768 then m else m - 65536.

Definition handle_cmc_close (h_cmc : Z) (pb : list pbuf) (target_channel : Z) (data : list Z) : M Z :=
  vc ← vllp_channel_find target_channel;
  err ← match vc with
        | None => mret 0
        | Some h =>
            match data with
            | [a; b] =>
                if h =? h_cmc then mret ERR_MALFORMED
                else vllp_channel_net_close h (PeerError (s16_le a b));; mret 0
            | _ => mret ERR_MALFORMED
            end
        end;
  free_pbufs pb;; mret err.

Definition handle_cmc (h_cmc : Z) (pb : list pbuf) : M Z :=
  match pb with
  | [] => lift (Fault OutOfBounds)
  | b :: _ =>
      if pb_buflen b <? 1 then free_pbufs pb;; mret ERR_BAD_STATE
      else
        u ← lift (rd (db_mem (pb_data b)) (pb_offset b) (pb_buflen b));
        let opcode := Z.shiftr (deref u) 4 in
        let target_channel := Z.land (deref u) 15 in
        if opcode =? VLLP_CMC_OPCODE_OPEN then
          err ← handle_cmc_open target_channel (tail u);
          send_cmc_message h_cmc pb VLLP_CMC_OPCODE_OPEN_RESPONSE target_channel err;;
          mret 0
        else if opcode =? VLLP_CMC_OPCODE_CLOSE then
          handle_cmc_close h_cmc pb target_channel (tail u)
        else mret ERR_BAD_STATE
  end.

(** ** Receiving *)

(** The part of [vllp_channel_receive] that stores a fragment in [rxq]: the
    queue after it, or [None] when no buffer could be had. *)
Definition store_fragment (rxq : list pbuf) (data : list Z) : M (option (list pbuf)) :=
  let len := Z.of_nat (length data) in
  '(stop, rxq, pb, data) ←
    match last rxq with
    | Some pb =>
        let avail := PBUF_DATA_SIZE - pb_buflen pb in
        let to_copy := Z.min avail len in
        '(stop, next) ←
          (if len <? to_copy then
             next ← pbuf_make 0;
             match next with
             | [] => mret (true, [])
             | _ => mret (false, on_head (λ b, set_flags b 0) next)
             end
           else mret (false, []));
        if (stop : bool) then mret (true, rxq, [], data)
        else
          m ← lift (wr (db_mem (pb_data pb)) (pb_buflen pb) (take (Z.to_nat to_copy) data));
          mret (false,
                on_last (λ pb, set_mem (set_win pb (pb_offset pb) (u16 (pb_buflen pb + to_copy))) m) rxq,
                next, drop (Z.to_nat to_copy) data)
    | None =>
        pb ← pbuf_make 0;
        match pb with
        | [] => mret (true, rxq, [], data)
        | _ => mret (false, rxq, on_head (λ b, set_flags b 0) pb, data)
        end
    end;
  if (stop : bool) then mret None
  else
    rxq ← match pb with
          | [] => mret rxq
          | b :: _ =>
              if PBUF_DATA_SIZE <? Z.of_nat (length data) then lift (Fault Assert)
              else
                m ← lift (wr (db_mem (pb_data b)) 0 data);
                mret (rxq ++ [set_mem (set_win b (pb_offset b)
                        (u16 (pb_buflen b + Z.of_nat (length data)))) m])
          end;
    match rxq with
    | [] => lift (Fault OutOfBounds)
    | _ => mret (Some (on_head (λ b, set_pktlen b (u16 (pb_pktlen b + len))) rxq))
    end.

(** Delivery of a complete message to the service, or to the control channel. *)
Definition deliver (h : Z) (pb : list pbuf) : M Z :=
  v ← get_v;
  if h =? cmc v then handle_cmc h pb
  else
    vc ← get_chan h;
    match vc_app vc with
    | None => lift (Fault OutOfBounds)
    | Some app =>
        events ← (λ w, let '(events, app, nm) := push fn app pb (w_nm w) in
                       Ret (events, mk_world (w_v w) (<[h := set_app (Some app) vc]> (w_chans w)) nm
                                      (w_now w) (w_out w)));
        (if events =? 0 then mret () else net_task_raise h events);;
        mret 0
    end.

Definition vllp_channel_receive (channel_id : Z) (data : list Z) : M Z :=
  let last_ := bit_set (deref data) VLLP_HDR_L in
  let data := tail data in
  found ← vllp_channel_find channel_id;
  match found with
  | None => mret 0
  | Some h =>
      vc ← get_chan h;
      v ← get_v;
      if net_closed vc then mret 0
      else if (last_ && negb (bit_set (local_flow_status v) (Z.shiftl 1 channel_id)))%bool
      then mret ERR_NO_BUFFER
      else
        stored ← store_fragment (vc_rxq vc) data;
        match stored with
        | None => mret ERR_NO_BUFFER
        | Some rxq =>
            if negb last_ then mod_chan h (set_rxq rxq);; mret 0
            else
              let pb := on_last (λ b, set_flags b PBUF_EOP) rxq in
              let pb := on_head (λ b, or_flag b PBUF_SOP) pb in
              mod_chan h (set_rxq []);;
              bad ← lift (calc_crc32 pb (rx_crc_IV vc));
              if negb (bad =? 0) then mret ERR_CHECKSUM_ERROR
              else
                mod_chan h (λ vc, set_rx_crc (u32 (rx_crc_IV vc + 1)) vc);;
                pb ← with_nm (λ nm, pbuf_trim (fuel_for pb) nm pb 4);
                deliver h pb
        end
  end.

(** ** Transmitting *)

Definition fdcan_adapation_pad_ladder (len : Z) : Z :=
  if len <? 12 then 12
  else if len <? 16 then 16
  else if len <? 20 then 20
  else if len <? 24 then 24
  else if len <? 32 then 32
  else if len <? 48 then 48
  else 64.

(** The frame [vllp_tx] fills in: room for the header byte, the fragment, and
    the padding to the next FDCAN length, whose last byte is the pad count. *)
Definition fill_frame (pb : list pbuf) (fragment : list Z) : res (list pbuf) :=
  match pb with
  | [] => Fault OutOfBounds
  | b :: _ =>
      let n := u16 (Z.of_nat (length fragment) + 1) in
      let pb := [set_pktlen (set_win b (pb_offset b) n) n] in
      pb ← store_head pb (pb_offset b + 1) fragment;
      if 8 <? n then
        let pad := fdcan_adapation_pad_ladder n - n in
        '(pb, padding) ← pbuf_append pb pad;
        store_last pb (padding + pad - 1) [u8 pad]
      else Ret pb
  end.

Definition vllp_tx (pb : list pbuf) : M (list pbuf) :=
  v ← get_v;
  match current_tx_buf v with
  | [] => mret pb
  | src :: _ =>
      pb ← frame_buffer pb;
      match pb with
      | [] => mret ()
      | b :: _ =>
          let last_ := if pb_pktlen src =? current_tx_len v then VLLP_HDR_L else 0 in
          '(missing, src) ← with_nm (λ nm,
             '(missing, c, nm) ← pbuf_pullup (fuel_for (current_tx_buf v)) nm (current_tx_buf v)
                                   (current_tx_len v);
             Ret (missing, c, nm));
          mod_v (set_tx_buf src);;
          if negb (missing =? 0) then lift (Fault Panic)
          else
            fragment ← lift (match src with
                             | [] => Fault OutOfBounds
                             | s :: _ => rd (db_mem (pb_data s)) (pb_offset s) (current_tx_len v)
                             end);
            pb ← lift (fill_frame pb fragment);
            let channel := current_tx_channel v in
            let flow := bit_set (local_flow_status v) (Z.shiftl 1 channel) in
            mod_v (λ v, set_transmitted_flow
              (if flow then Z.setbit (transmitted_local_flow_status v) channel
               else Z.clearbit (transmitted_local_flow_status v) channel) v);;
            pb ← lift (store_head pb (pb_offset b)
                   [u8 (Z.lor (Z.lor (Z.lor (SE v) last_) (if flow then VLLP_HDR_F else 0)) channel)]);
            dsig_emit_pbuf (txid v) pb
      end;;
      arm set_rtx_timer 25000;;
      arm set_ack_timer 1000000;;
      mret []
  end.

Definition vllp_fragment (pb : list pbuf) : M (list pbuf) :=
  v ← get_v;
  match current_tx_buf v with
  | [] => lift (Fault OutOfBounds)
  | b :: _ =>
      mod_v (λ v, set_SE (Z.lxor (SE v) VLLP_HDR_S)
                    (set_tx_len (u16 (Z.min (u32 (mtu v - 1)) (pb_pktlen b))) v));;
      vllp_tx pb
  end.

Definition vllp_channel_tx (h : Z) (pb reuse : list pbuf) : M (list pbuf) :=
  vc ← get_chan h;
  crc32 ← lift (calc_crc32 pb (tx_crc_IV vc));
  put_chan h (set_tx_crc (u32 (tx_crc_IV vc + 1)) vc);;
  '(pb, crcbuf) ← lift (pbuf_append pb 4);
  pb ← lift (store_last pb crcbuf (le32 crc32));
  mod_v (λ v, set_tx_channel (vc_id vc) (set_tx_buf pb v));;
  reuse ← vllp_fragment reuse;
  mod_v (λ v, set_established (list_remove h (established_channels v) ++ [h]) v);;
  mret reuse.

Definition vllp_tx_close (h : Z) : M Z :=
  mod_v (λ v, set_established (list_remove h (established_channels v)) v);;
  mod_chan h (set_state VLLP_CHANNEL_STATE_CLOSED_SENT);;
  v ← get_v;
  if negb (connected v) then mret 0
  else
    pb ← pbuf_make 0;
    match pb with
    | [] => mret ERR_NO_BUFFER
    | _ =>
        vc ← get_chan h;
        send_cmc_message (cmc v) pb VLLP_CMC_OPCODE_CLOSE (vc_id vc) 0;;
        c ← get_chan (cmc v);
        let '(pb, rest) := pbuf_splice (vc_txq c) in
        put_chan (cmc v) (set_txq rest c);;
        _ ← vllp_channel_tx (cmc v) pb [];
        mret 0
    end.

(** The loop over the established channels, then the flow status. *)
Fixpoint tx_loop (l : list Z) (reuse : list pbuf) : M (list pbuf) :=
  match l with
  | [] =>
      v ← get_v;
      if negb (transmitted_local_flow_status v =? local_flow_status v)
      then vllp_tx_ack reuse else mret reuse
  | h :: l =>
      vc ← get_chan h;
      match vc_app vc with
      | Some app =>
          if app_closed vc =? 1 then
            err ← vllp_tx_close h;
            if negb (err =? 0) then tx_loop l reuse
            else
              mod_chan h (set_app_closed 2);;
              _ ← vllp_channel_maybe_destroy h;
              mret reuse
          else if net_closed vc then tx_loop l reuse
          else
            out ← (λ w, let '(out, app, nm) := pull fn app (w_nm w) in
                        Ret (out, mk_world (w_v w) (<[h := set_app (Some app) vc]> (w_chans w)) nm
                                    (w_now w) (w_out w)));
            match out with [] => tx_loop l reuse | _ => vllp_channel_tx h out reuse end
      | None =>
          let '(out, rest) := pbuf_splice (vc_txq vc) in
          put_chan h (set_txq rest vc);;
          match out with [] => tx_loop l reuse | _ => vllp_channel_tx h out reuse end
      end
  end.
Definition vllp_maybe_tx (reuse : list pbuf) : M (list pbuf) :=
  v ← get_v;
  match current_tx_buf v with
  | [] => tx_loop (established_channels v) reuse
  | _ => mret reuse
  end.

Definition vllp_ack_payload (pb : list pbuf) : M (list pbuf) :=
  disarm set_rtx_timer;;
  v ← get_v;
  c ← with_nm (λ nm, pbuf_drop (fuel_for (current_tx_buf v)) nm (current_tx_buf v)
                       (current_tx_len v) true);
  mod_v (set_tx_buf c);;
  match c with [] => mret pb | _ => vllp_fragment pb end.

(** ** The receive path *)

(** The frame without its FDCAN padding; [None] when the pad count is not less
    than the length. *)
Definition unpad (data : list Z) : option (list Z) :=
  let len := Z.of_nat (length data) in
  if 8 <? len then
    let pad := default 0 (last data) in
    if len <=? pad then None else Some (take (Z.to_nat (len - pad)) data)
  else Some data.

Definition peer_accepted (hdr se : Z) : bool :=
  negb (Bool.eqb (negb (bit_set hdr VLLP_HDR_E)) (negb (bit_set se VLLP_HDR_S))).
Definition we_can_accept (hdr se : Z) : bool :=
  Bool.eqb (negb (bit_set hdr VLLP_HDR_S)) (negb (bit_set se VLLP_HDR_E)).

(** The data part of a frame: [false] when the connection was dropped. *)
Definition rx_data (channel_id : Z) (u : list Z) (can_accept : bool) : M bool :=
  '(go, ack_delay) ←
    (if can_accept then
       err ← vllp_channel_receive channel_id u;
       if err =? 0 then
         mod_v (λ v, set_SE (Z.lxor (SE v) VLLP_HDR_E)
                  (set_transmitted_flow (Z.clearbit (transmitted_local_flow_status v) channel_id) v));;
         mret (true, 1000)
       else if err =? ERR_NO_BUFFER then mret (true, 10000)
       else if err =? ERR_CHECKSUM_ERROR then vllp_disconnect (Because "Invalid CRC");; mret (false, 0)
       else if err =? ERR_BAD_STATE then vllp_disconnect (Because "Bad state");; mret (false, 0)
       else lift (Fault Panic)
     else mret (true, 1000));
  if (go : bool) then
    mod_v (λ v, set_remote_flow
      (if bit_set (deref u) VLLP_HDR_F then Z.setbit (remote_flow_status v) channel_id
       else Z.clearbit (remote_flow_status v) channel_id) v);;
    arm set_ack_timer ack_delay;;
    mret true
  else mret false.

Definition rx_tx (accepted : bool) (pb : list pbuf) : M (list pbuf) :=
  v ← get_v;
  pb ← match current_tx_buf v with
       | [] => mret pb
       | _ => if negb accepted then arm set_rtx_timer 1000;; mret pb else vllp_ack_payload pb
       end;
  vllp_maybe_tx pb.

Definition vllp_rx (pb : list pbuf) : M (list pbuf) :=
  v ← get_v;
  arm set_timeout_timer (timeout v * 1000000);;
  _ ← vllp_refresh_local_flow_status;
  raw ← lift (match pb with
              | [] => Ret []
              | b :: _ => rd (db_mem (pb_data b)) (pb_offset b) (pb_buflen b)
              end);
  match raw with
  | [] => mret pb
  | _ =>
      match unpad raw with
      | None => vllp_disconnect (Because "invalid pad");; mret pb
      | Some u =>
          let hdr := deref u in
          if hdr =? VLLP_SYN then vllp_accept_syn u pb
          else
            v ← get_v;
            ok ← (if Z.land hdr 31 =? 31 then
                    if negb (not32 (crc (crc_IV v) u) =? 0) then mret false
                    else match u with
                    | [_; lo; hi; _; _; _; _] =>
                        mod_v (set_remote_flow (Z.lor lo (Z.shiftl hi 8)));; mret true
                    | _ => mret false
                    end
                  else mret true);
            if negb ok then mret pb
            else if negb (connected v) then mret pb
            else
              let channel_id := Z.land hdr 15 in
              go ← (if channel_id =? 15 then mret true
                    else rx_data channel_id u (we_can_accept hdr (SE v)));
              if (go : bool) then rx_tx (peer_accepted hdr (SE v)) pb
              else mret pb
      end
  end.

(** ** Timers, tasks and entry points *)

Definition vllp_ack_timer : M () :=
  mod_v (set_ack_timer None);;
  _ ← vllp_refresh_local_flow_status;
  _ ← vllp_tx_ack [];
  mret ().

Definition vllp_rtx_timer : M () :=
  mod_v (set_rtx_timer None);;
  _ ← vllp_refresh_local_flow_status;
  _ ← vllp_tx [];
  mret ().

Definition vllp_timeout_timer : M () :=
  mod_v (set_timeout_timer None);;
  vllp_disconnect (Because "timeout").

Definition vllp_channel_task_cb (h signals : Z) : M () :=
  vc ← get_chan h;
  let closing := bit_set signals PUSHPULL_EVENT_CLOSE in
  if (closing && negb (app_closed vc =? 0))%bool then mret ()
  else
    (if closing then mod_chan h (set_app_closed 1) else mret ());;
    changed ← vllp_refresh_local_flow_status;
    (if (changed : bool) then _ ← vllp_tx_ack []; mret () else mret ());;
    _ ← vllp_maybe_tx [];
    mret ().

Definition vllp_net_event_cb (h events : Z) : M () := net_task_raise h events.

(** [vllp_input] over the list [vllps]: the connection with this receive
    identifier is the one in focus while it handles the frame. *)
Fixpoint vllp_input (vllps : list vllp) (id : Z) (pb : list pbuf) (w : world)
    : res (list pbuf * list vllp * world) :=
  match vllps with
  | [] => Ret (pb, [], w)
  | v :: vs =>
      if rxid v =? id then
        match (pb ← vllp_rx pb; free_pbufs pb)
                (mk_world v (w_chans w) (w_nm w) (w_now w) (w_out w)) with
        | Ret (_, w) => Ret ([], w_v w :: vs, w)
        | Fault f => Fault f
        end
      else '(pb, vs, w) ← vllp_input vs id pb w; Ret (pb, v :: vs, w)
  end.

(** The zeroed connection with its control channel, channel 14; [v_alloc]: the
    connection itself could be allocated. *)
Definition vllp_server_create (v_alloc : bool) (vllps : list vllp) (txid rxid mtu timeout : Z)
    (w : world) : res (option (list vllp) * world) :=
  if negb v_alloc then Ret (None, w) else
  let v0 cmc := mk_vllp [] [] None None None [] 0 0 cmc (u32 rxid) (u32 txid) 0 0 0 0 0 false 0
                  (if 8 <? mtu then u8 (mtu - 1) else u8 mtu) (u8 timeout) in
  match vllp_channel_make 14 (mk_world (v0 0) (w_chans w) (w_nm w) (w_now w) (w_out w)) with
  | Fault f => Fault f
  | Ret (None, w) => Ret (None, w)
  | Ret (Some cmc, w) =>
      match mod_chan cmc (set_state VLLP_CHANNEL_STATE_ESTABLISHED) w with
      | Fault f => Fault f
      | Ret (_, w) =>
          let v := set_established [cmc] (set_channels [cmc] (v0 cmc)) in
          Ret (Some (v :: vllps), mk_world v (w_chans w) (w_nm w) (w_now w) (w_out w))
      end
  end.
End Vllp.
