(* ===== verification/VllpLink.v ===== *)
(** * VllpLink: messages over VLLP frames ([src/net/vllp.c])

    What the transmit path puts on the wire for a message, what the receive
    path makes of it, and that the second undoes the first: fragmentation, FDCAN
    padding, the per-message checksum and reassembly.  The last part runs the
    model on concrete connections. *)

From Stdlib Require Import ZArith Lia.
From stdpp Require Import base list numbers gmap strings.
From S2P Require Import Prelude Crc Pbuf Vllp.

Open Scope Z_scope.

(** ** Running the monad *)

Lemma bind_ok {App A B} (m : M App A) (k : A → M App B) w a w' :
  m w = Ret (a, w') → (m ≫= k) w = k a w'.
Proof. intros E. unfold mbind, M_bind. by rewrite E. Qed.

Lemma bind_inv {App A B} (m : M App A) (k : A → M App B) w b w'' :
  (m ≫= k) w = Ret (b, w'') → ∃ a w', m w = Ret (a, w') ∧ k a w' = Ret (b, w'').
Proof. unfold mbind, M_bind. destruct (m w) as [[a w']|]; [eauto|done]. Qed.

(** ** Frames *)

(** The lengths a CAN FD frame can have. *)
Definition can_len (n : nat) : Prop :=
  (n <= 8)%nat ∨ n ∈ [12; 16; 20; 24; 32; 48; 64]%nat.

Lemma pad_ladder_spec n :
  8 < n < 64 → n < fdcan_adapation_pad_ladder n <= 64 ∧
  Z.to_nat (fdcan_adapation_pad_ladder n) ∈ [12; 16; 20; 24; 32; 48; 64]%nat.
Proof.
  intros Hn. unfold fdcan_adapation_pad_ladder.
  repeat case_match; bool_to_prop; (split; [lia|set_solver]).
Qed.

Lemma mem_split (m : list Z) (n k : nat) :
  (n + k <= length m)%nat → ∃ m1 m2 m3, m = m1 ++ m2 ++ m3 ∧ length m1 = n ∧ length m2 = k.
Proof.
  intros H. exists (take n m), (take k (drop n m)), (drop k (drop n m)).
  rewrite !take_drop, !length_take, length_drop. split; [done|lia].
Qed.

(** A buffer whose contents are known up to its length. *)
Lemma window_at pb pre bs post :
  db_mem (pb_data pb) = pre ++ bs ++ post → pb_offset pb = Z.of_nat (length pre) →
  pb_buflen pb = Z.of_nat (length bs) → window pb = bs.
Proof.
  intros E Ho Hl. unfold window. rewrite E, Ho, Hl, !Nat2Z.id.
  by rewrite drop_app_length, take_app_length.
Qed.

Lemma pb_ok_mem pb m n k :
  pb_ok pb → length m = Z.to_nat PBUF_DATA_SIZE → 0 <= n → pb_offset pb + n <= PBUF_DATA_SIZE →
  pb_ok (set_pktlen (set_win (set_mem pb m) (pb_offset pb) n) k).
Proof. intros [? ? ? ? ? ?] **. split; cbn; try done; lia. Qed.

(** The frame built in buffer [b] around a fragment of at most 62 bytes reads
    back, without its padding, as header byte and fragment. *)
Lemma fill_frame_ok b fragment hdr :
  pb_ok b → pb_offset b = 4 → (length fragment <= 62)%nat →
  ∃ pb1 pb2, fill_frame [b] fragment = Ret pb1 ∧ store_head pb1 (pb_offset b) [hdr] = Ret pb2 ∧
    packet pb2 ∧ unpad (payload pb2) = Some (hdr :: fragment) ∧ can_len (length (payload pb2)) ∧
    pb_addr <$> pb2 = [pb_addr b] ∧ (db_addr ∘ pb_data) <$> pb2 = [db_addr (pb_data b)].
Proof.
  intros Hb Ho Hf. pose proof Hb as [Hm _ _ _ Ha Hd].
  destruct (mem_split (db_mem (pb_data b)) 4 1) as (m1 & x & r1 & E1 & L1 & Lx); [rewrite Hm; unfold PBUF_DATA_SIZE; lia|].
  assert (length r1 = 507%nat) as Lr1 by (rewrite E1, !length_app, L1, Lx in Hm; unfold PBUF_DATA_SIZE in Hm; lia).
  destruct (mem_split r1 0 (length fragment)) as (m0 & f & r2 & E2 & L0 & Lf); [lia|].
  destruct m0; [|done]. cbn [app] in E2. subst r1. rewrite length_app in Lr1.
  unfold fill_frame. set (n := u16 _).
  assert (n = Z.of_nat (length fragment) + 1) as En by (apply u16_id; lia). clearbody n.
  unfold store_head. cbn [mbind res_bind set_pktlen set_win pb_data db_mem].
  rewrite E1, Ho.
  assert (wr (m1 ++ x ++ f ++ r2) (4 + 1) fragment = Ret (m1 ++ x ++ fragment ++ r2)) as ->.
  { rewrite !app_assoc. rewrite <- (app_assoc (m1 ++ x)). rewrite (wr_at (m1 ++ x) f fragment r2).
    - by rewrite !app_assoc.
    - rewrite length_app. lia.
    - done. }
  cbn [mbind res_bind]. destruct (8 <? n) eqn:E8; bool_to_prop.
  2: { eexists _, _. split; [done|]. cbn [store_head set_mem pb_data db_mem].
       rewrite (wr_at m1 x [hdr] (fragment ++ r2)) by (rewrite ?Lx; lia || done).
       cbn [mbind res_bind]. split; [done|].
       match goal with |- packet [?p] ∧ _ => set (q := p) end.
       assert (window q = hdr :: fragment) as Hw.
       { apply (window_at q m1 (hdr :: fragment) r2); cbn; [done|lia|lia]. }
       assert (pb_ok q) as Hq.
       { split; cbn; try done; unfold PBUF_DATA_SIZE; [|lia..]. rewrite !length_app. cbn. rewrite length_app. lia. }
       unfold payload. cbn [mbind list_bind]. rewrite Hw, app_nil_r. split_and!; try done.
       - split; [by constructor|]. cbn. lia.
       - unfold unpad. rewrite (proj2 (Z.ltb_ge _ _)); [done|cbn [length]; lia].
       - left. cbn [length]. lia. }
  destruct (pad_ladder_spec n) as [Hl1 Hl2]; [lia|].
  set (lad := fdcan_adapation_pad_ladder n) in *. clearbody lad. set (pad := lad - n).
  destruct (mem_split r2 (Z.to_nat (pad - 1)) 1) as (j & y & r3 & E3 & Lj & Ly); [lia|]. subst r2.
  rewrite !length_app, Ly in Lr1.
  unfold pbuf_append. cbn [on_head set_mem set_pktlen set_win last pb_offset pb_buflen].
  rewrite (proj2 (Z.ltb_ge _ _)) by (unfold PBUF_DATA_SIZE; lia).
  cbn [mbind res_bind on_last]. unfold store_last. cbn [last set_win set_pktlen set_mem pb_data db_mem].
  assert (wr (m1 ++ x ++ fragment ++ j ++ y ++ r3) (4 + n + pad - 1) [u8 pad] =
          Ret (m1 ++ x ++ fragment ++ j ++ [u8 pad] ++ r3)) as ->.
  { rewrite !app_assoc. rewrite <- (app_assoc _ y).
    rewrite (wr_at (((m1 ++ x) ++ fragment) ++ j) y [u8 pad] r3).
    - by rewrite !app_assoc.
    - rewrite !length_app. lia.
    - done. }
  cbn [mbind res_bind on_last]. eexists _, _. split; [done|].
  cbn [store_head set_mem pb_data db_mem].
  rewrite (wr_at m1 x [hdr] _) by (rewrite ?Lx; lia || done).
  cbn [mbind res_bind]. split; [done|].
  match goal with |- packet [?p] ∧ _ => set (q := p) end.
  assert (u8 pad = pad) as Hpad by (apply u8_id; unfold is_byte; lia).
  assert (window q = (hdr :: fragment ++ j) ++ [pad]) as Hw.
  { apply (window_at q m1 _ r3); cbn.
    - rewrite Hpad. by rewrite <- !app_assoc.
    - lia.
    - rewrite !length_app. cbn. rewrite u16_id by lia. lia. }
  assert (pb_ok q) as Hq.
  { split; cbn; try done; unfold PBUF_DATA_SIZE; rewrite ?u16_id by lia; try lia.
    rewrite !length_app. cbn. rewrite !length_app. cbn. lia. }
  unfold payload. cbn [mbind list_bind]. rewrite Hw, app_nil_r. split_and!; try done.
  - split; [by constructor|]. cbn. rewrite !u16_id by lia. lia.
  - unfold unpad. rewrite last_snoc.
    set (l := (hdr :: fragment ++ j) ++ [pad]).
    assert (Z.of_nat (length l) = lad) as El by (unfold l; rewrite !length_app; cbn; rewrite length_app; lia).
    rewrite El. rewrite (proj2 (Z.ltb_lt 8 lad)) by lia.
    change (default 0 (Some pad)) with pad. rewrite (proj2 (Z.leb_gt lad pad)) by lia. f_equal.
    unfold l. rewrite app_comm_cons, <- app_assoc, take_app_le by (cbn [length]; lia).
    apply take_ge. cbn [length]. lia.
  - right. cbn [length]. rewrite !length_app. cbn. rewrite length_app.
    replace (S _) with (Z.to_nat lad) by lia. done.
Qed.

(** ** Transmitting a fragment *)

Lemma pbuf_reset_ok nm pb :
  nm_ok nm → packet pb → pb ≠ [] →
  ∃ b nm', pbuf_reset nm pb 4 0 = Ret ([b], nm') ∧ nm_ok nm' ∧ pb_ok b ∧ pb_offset b = 4 ∧
    conserved nm pb nm' [b].
Proof.
  intros Hnm (Hok & _ & _) Hne. destruct pb as [|b pb]; [done|]. apply Forall_cons_1 in Hok as [Hb Hok].
  pose proof Hb as [Hm Ho Hl Hf Ha Hd]. unfold pbuf_reset. rewrite (proj2 (Z.ltb_ge _ _)) by lia.
  destruct (pbuf_free_ok nm pb Hnm Hok) as (nm' & E & Hnm' & Hcv). rewrite E.
  cbn [mbind res_bind]. eexists _, nm'. split; [done|]. split; [done|]. split_and!; try done.
  destruct Hcv as [H1 H2]. unfold conserved, headers, buffers in *. cbn. cbn in H1, H2.
  rewrite app_nil_r in H1, H2.
  split; [rewrite <- H1|rewrite <- H2]; solve_Permutation.
Qed.

Definition set_nm {App} (nm : netmem) (w : world App) : world App :=
  mk_world (w_v w) (w_chans w) nm (w_now w) (w_out w).

Section Link.
Context {App : Type} (fn : app_fn App) (services : list (service App)).
Context (xalloc : gmap Z (channel App) → option Z) (crc : Z → list Z → Z) `{!Crc32Spec crc}.

Lemma pbuf_make_ok offset (w : world App) :
  nm_ok (w_nm w) → 0 <= offset <= PBUF_DATA_SIZE →
  ∃ pb nm', pbuf_make offset w = Ret (pb, set_nm nm' w) ∧ nm_ok nm' ∧
    (pb = [] ∨ ∃ b, pb = [b] ∧ pb_ok b ∧ pb_offset b = offset ∧ pb_buflen b = 0 ∧ pb_pktlen b = 0) ∧
    conserved (w_nm w) [] nm' pb.
Proof.
  intros Hnm Ho. unfold PBUF_DATA_SIZE in Ho.
  unfold pbuf_make, with_nm, pbuf_make0, pbuf_make_irq_blocked0.
  destruct (get_both_cases (w_nm w) false (λ a d, mk_pbuf a (Z.lor PBUF_SOP PBUF_EOP) 0 0 (u16 offset) 0 d) Hnm)
    as [[? _]|[(nm' & _ & -> & Hnm' & Hcv)|(a & d & nm' & -> & Hnm' & Ha & Hd & Hl & H1 & H2)]]; [done|..];
    cbn [mbind res_bind].
  - eexists [], nm'. split_and!; try done. by left.
  - eexists [_], nm'. split; [done|]. split; [done|]. split.
    + right. eexists. split; [done|]. cbn. rewrite u16_id by lia.
      split_and!; try done. split; cbn; unfold PBUF_DATA_SIZE; try done; lia.
    + unfold conserved, headers, buffers in *. cbn in *. rewrite app_nil_r in *.
      split; [rewrite H1|rewrite H2]; solve_Permutation.
Qed.

Lemma frame_buffer_ok pb (w : world App) :
  nm_ok (w_nm w) → packet pb →
  ∃ pb' nm', frame_buffer pb w = Ret (pb', set_nm nm' w) ∧ nm_ok nm' ∧
    (pb' = [] ∨ ∃ b, pb' = [b] ∧ pb_ok b ∧ pb_offset b = 4) ∧ (pb ≠ [] → pb' ≠ []) ∧
    conserved (w_nm w) pb nm' pb'.
Proof.
  intros Hnm Hpb. destruct pb as [|b0 pb].
  - destruct (pbuf_make_ok 4 w Hnm) as (pb & nm' & E & Hnm' & Hb & Hcv); [vm_compute; done|].
    exists pb, nm'. split_and!; try done. destruct Hb as [->|(b & -> & ? & ? & _)]; eauto.
  - destruct (pbuf_reset_ok (w_nm w) (b0 :: pb) Hnm Hpb) as (b & nm' & E & Hnm' & Hb & Ho & Hcv); [done|].
    exists [b], nm'. unfold frame_buffer, with_nm. rewrite E. split_and!; eauto.
Qed.

(** The header byte of the fragment a connection is sending. *)
Definition tx_hdr (v : vllp) (final : bool) : Z :=
  u8 (Z.lor (Z.lor (Z.lor (SE v) (if final then VLLP_HDR_L else 0))
        (if bit_set (local_flow_status v) (Z.shiftl 1 (current_tx_channel v)) then VLLP_HDR_F else 0))
      (current_tx_channel v)).

(** The connection after [vllp_tx]: the packet being sent may have been pulled
    up, the flow bit is noted as sent, and the timers run. *)
Definition after_tx (now x : Z) (src : list pbuf) (v : vllp) : vllp :=
  set_ack_timer (Some (now + 1000000)) (set_rtx_timer (Some (now + 25000))
    (set_transmitted_flow x (set_tx_buf src v))).

(** A frame that carries header byte and fragment. *)
Definition carries (frame : list pbuf) (hdr : Z) (fragment : list Z) : Prop :=
  packet frame ∧ unpad (payload frame) = Some (hdr :: fragment) ∧ can_len (length (payload frame)).

Definition frames_of (w w' : world App) (frames : list (list pbuf)) : Prop :=
  w_out w' = w_out w ++ (Emit (txid (w_v w)) <$> frames).

Lemma vllp_tx_ok pb (w : world App) :
  let v := w_v w in
  nm_ok (w_nm w) → packet pb → packet (current_tx_buf v) → current_tx_buf v ≠ [] →
  0 <= current_tx_len v <= 62 → current_tx_len v <= chain_len (current_tx_buf v) →
  ∃ frames src x nm',
    vllp_tx pb w = Ret ([], mk_world (after_tx (w_now w) x src v) (w_chans w) nm' (w_now w)
                              (w_out w ++ (Emit (txid v) <$> frames))) ∧
    nm_ok nm' ∧ packet src ∧ src ≠ [] ∧ payload src = payload (current_tx_buf v) ∧
    (frames = [] ∨ ∃ frame, frames = [frame] ∧
       carries frame (tx_hdr v (current_tx_len v =? chain_len (current_tx_buf v)))
         (take (Z.to_nat (current_tx_len v)) (payload (current_tx_buf v)))) ∧
    (pb ≠ [] → frames ≠ []) ∧
    conserved (w_nm w) (pb ++ current_tx_buf v) nm' (concat frames ++ src).
Proof.
  intros v Hnm Hpb Hsrc Hne Hlen1 Hlen2. unfold vllp_tx.
  rewrite (bind_ok get_v _ w v w) by done.
  destruct (current_tx_buf v) as [|s0 srcs] eqn:Esrc; [done|]. rewrite <- Esrc in *. clear Hne.
  destruct (frame_buffer_ok pb w Hnm Hpb) as (pb' & nm1 & E1 & Hnm1 & Hb & Hne & Hcv1).
  rewrite (bind_ok _ _ _ _ _ E1).
  destruct Hb as [->|(b & -> & Hb & Ho)].
  { eexists [], (current_tx_buf v), (transmitted_local_flow_status v), nm1. split.
    { cbn. unfold set_nm. cbn. by rewrite app_nil_r. }
    split_and!; try done; [by rewrite Esrc|by left|by intros ?%Hne|].
    by apply (conserved_app _ _ _ _ (current_tx_buf v)) in Hcv1. }
  assert (pb_pktlen s0 = chain_len (current_tx_buf v)) as Hpl.
  { destruct Hsrc as (_ & _ & Hp). rewrite Esrc in *. done. }
  rewrite Esrc in Hsrc.
  destruct (pbuf_pullup_ok (fuel_for (s0 :: srcs)) nm1 s0 srcs (current_tx_len v) Hnm1 Hsrc)
    as (s & src & nm2 & E2 & Hpay & Hsrc' & Hnm2 & Hbl & Hcv2 & _ & _);
    [unfold PBUF_DATA_SIZE; lia|unfold fuel_for; cbn; lia|].
  rewrite <- Esrc in E2, Hpay, Hbl, Hcv2, Hsrc. rewrite Z.max_l in E2 by lia. rewrite Z.min_l in Hbl by lia.
  pose proof Hsrc' as (Hok' & Hlt' & Hpk'). apply Forall_cons_1 in Hok' as [Hs Hok'].
  set (fr := take (Z.to_nat (current_tx_len v)) (payload (current_tx_buf v))).
  assert (rd (db_mem (pb_data s)) (pb_offset s) (current_tx_len v) = Ret fr) as Erd.
  { rewrite rd_window by (done || lia). f_equal. unfold fr. rewrite <- Hpay, payload_cons.
    rewrite take_app_le; [done|]. rewrite window_length by done. lia. }
  assert (length fr = Z.to_nat (current_tx_len v)) as Hfr.
  { unfold fr. rewrite length_take. pose proof (payload_length _ (proj1 Hsrc)). lia. }
  set (last_ := if pb_pktlen s0 =? current_tx_len v then VLLP_HDR_L else 0).
  set (flow := bit_set (local_flow_status v) (Z.shiftl 1 (current_tx_channel v))).
  destruct (fill_frame_ok b fr (u8 (Z.lor (Z.lor (Z.lor (SE v) last_) (if flow then VLLP_HDR_F else 0))
    (current_tx_channel v))) Hb Ho) as (pb1 & pb2 & E3 & E4 & Hpk2 & Hun & Hcan & Hid1 & Hid2); [lia|].
  eexists [pb2], (s :: src), _, nm2. split.
  { unfold mbind, M_bind, with_nm, set_nm. cbn [w_nm w_v w_chans w_now w_out].
    rewrite E2. cbn [mbind res_bind]. cbn -[Z.add fill_frame store_head rd tx_hdr fr].
    rewrite Erd. cbn -[Z.add fill_frame store_head tx_hdr fr]. rewrite E3.
    cbn -[Z.add store_head tx_hdr fr]. fold last_ flow. rewrite E4. cbn -[Z.add]. reflexivity. }
  split_and!; try done.
  - right. exists pb2. split; [done|]. split_and!; try done. rewrite Hun. do 2 f_equal.
    unfold tx_hdr. fold flow. do 3 f_equal. unfold last_. rewrite Hpl. by rewrite Z.eqb_sym.
  - eapply conserved_trans; [apply conserved_app, Hcv1|]. cbn [concat]. rewrite app_nil_r.
    eapply conserved_trans.
    { apply (conserved_perm _ (current_tx_buf v ++ [b]) _ nm2 ((s :: src) ++ [b])); [solve_Permutation|done|].
      by apply conserved_app. }
    eapply conserved_perm; [done|apply Permutation_app_comm|].
    apply conserved_same. split; rewrite !fmap_app; cbn; [by rewrite Hid1|by rewrite Hid2].
Qed.
(** *** A whole message *)

Lemma crc_chain_ok c r : Forall pb_ok c → crc_chain crc c r = Ret (crc r (payload c)).
Proof.
  intros Hc. revert r. induction Hc as [|b c Hb Hc IH]; intros r; cbn [crc_chain].
  - by rewrite crc_nil.
  - pose proof Hb as [_ _ ? _ _ _]. rewrite rd_window by (done || lia). cbn [mbind res_bind].
    rewrite take_ge by (rewrite window_length by done; lia).
    by rewrite IH, payload_cons, crc_app.
Qed.

(** Room made at the end of a packet and filled at once. *)
Lemma append_store_ok c pb bs :
  packet (c ++ [pb]) → pb_offset pb + pb_buflen pb + Z.of_nat (length bs) <= PBUF_DATA_SIZE →
  chain_len (c ++ [pb]) + Z.of_nat (length bs) < 65536 →
  ∃ c1 pos c2, pbuf_append (c ++ [pb]) (Z.of_nat (length bs)) = Ret (c1, pos) ∧
    store_last c1 pos bs = Ret c2 ∧ packet c2 ∧ c2 ≠ [] ∧ payload c2 = payload (c ++ [pb]) ++ bs ∧
    same_ids (c ++ [pb]) c2.
Proof.
  intros Hc Hfit Hlt. pose proof Hc as (Hok & Hl & Hp). apply Forall_app in Hok as [Hokc Hpb].
  apply Forall_cons_1 in Hpb as [Hpb _]. pose proof Hpb as [Hm Ho Hbl Hft _ _].
  pose proof (chain_len_nonneg _ (proj1 Hc)) as Hnn. set (n := Z.of_nat (length bs)) in *.
  destruct (wr (db_mem (pb_data pb)) (pb_offset pb + pb_buflen pb) bs) as [m|] eqn:Ew;
    [|rewrite wr_ok in Ew by (unfold PBUF_DATA_SIZE in *; lia); done].
  destruct (window_wr pb m bs Hpb Hfit Ew) as [Hok' Hw']. fold n in Hok', Hw'.
  set (pb' := set_mem _ m) in Hok', Hw'.
  destruct (on_head_snoc (λ h, u16 (pb_pktlen h + n)) c pb) as (c1 & k & E & H1 & H2 & H3 & H4 & H5 & H6 & H7).
  destruct (packet_update_last (λ t, set_mem (set_win t (pb_offset t) (u16 (pb_buflen t + n))) m) n c pb pb' Hc Hok')
    as (k' & Hc' & Hpl & Hcl & Hlast & Hid & Hfl); try done; [|lia|].
  { intros j. unfold pb', set_mem, set_win, set_pktlen. cbn. unfold PBUF_DATA_SIZE in Hfit. by rewrite u16_id by lia. }
  cbv zeta in *. unfold pbuf_append. rewrite E in *. rewrite last_snoc. cbn [set_pktlen pb_offset pb_buflen].
  rewrite (proj2 (Z.ltb_ge _ _)) by lia. eexists _, _, _. split; [done|]. unfold store_last.
  rewrite on_last_snoc, last_snoc. cbn [set_win set_pktlen pb_data]. rewrite Ew. cbn [mbind res_bind].
  split; [done|]. rewrite on_last_snoc. rewrite on_last_snoc in Hc', Hpl, Hid. split_and!.
  - done.
  - by destruct c1.
  - etransitivity; [exact Hpl|]. rewrite Hw', payload_app, payload_cons, app_nil_r. by rewrite app_assoc.
  - by apply Hid.
Qed.
(** A message cut in pieces of [k] bytes; the last may be shorter. *)
Fixpoint chop (fuel k : nat) (m : list Z) : list (list Z) :=
  match fuel with
  | O => []
  | S f => if (length m <=? k)%nat then [m] else take k m :: chop f k (drop k m)
  end.

Lemma chop_concat fuel k m : (length m <= fuel * k)%nat → concat (chop fuel k m) = m.
Proof.
  revert m. induction fuel as [|fuel IH]; intros m Hm; cbn [chop]; [destruct m; [done|cbn in Hm; lia]|].
  destruct (length m <=? k)%nat eqn:E; cbn [concat]; [by rewrite app_nil_r|].
  apply Nat.leb_gt in E. rewrite IH by (rewrite length_drop; lia). apply take_drop.
Qed.

(** The S and E bits; the S bit flips with every new fragment. *)
Definition se_bits (se : Z) : Prop := se ∈ [0; 64; 128; 192].

(** [frames] carry the fragments [frs] of channel [id], alternating the S bit
    from [se] on, with the L bit on the last. *)
Fixpoint sent (id se : Z) (frs : list (list Z)) (frames : list (list pbuf)) : Prop :=
  match frs, frames with
  | [], [] => True
  | f :: frs, fr :: frames =>
      (∃ hdr, carries fr hdr f ∧ Z.land hdr 15 = id ∧ Z.land hdr 192 = se ∧
         bit_set hdr VLLP_HDR_L = bool_decide (frs = [])) ∧
      sent id (Z.lxor se VLLP_HDR_S) frs frames
  | _, _ => False
  end.

Definition hdr_check (se id : Z) (l f : bool) : bool :=
  let h := u8 (Z.lor (Z.lor (Z.lor se (if l then VLLP_HDR_L else 0)) (if f then VLLP_HDR_F else 0)) id) in
  ((Z.land h 15 =? id) && (Z.land h 192 =? se) && Bool.eqb (bit_set h VLLP_HDR_L) l)%bool.

Lemma hdr_check_all se id l f : se_bits se → 0 <= id < 16 → hdr_check se id l f = true.
Proof.
  intros Hse Hid. assert (id ∈ seqZ 0 16) as Hin by (apply elem_of_seqZ; lia).
  assert (forallb (λ se, forallb (λ id, hdr_check se id false false && hdr_check se id false true
    && hdr_check se id true false && hdr_check se id true true)%bool (seqZ 0 16)) [0; 64; 128; 192] = true)
    as H by (vm_compute; reflexivity).
  rewrite forallb_forall in H. specialize (H se (proj1 (list_elem_of_In _ _) Hse)).
  rewrite forallb_forall in H. specialize (H id (proj1 (list_elem_of_In _ _) Hin)).
  cbv beta in H. bool_to_prop. by destruct l, f.
Qed.

Lemma tx_hdr_bits v final :
  se_bits (SE v) → 0 <= current_tx_channel v < 16 →
  Z.land (tx_hdr v final) 15 = current_tx_channel v ∧ Z.land (tx_hdr v final) 192 = SE v ∧
  bit_set (tx_hdr v final) VLLP_HDR_L = final.
Proof.
  intros Hse Hid. unfold tx_hdr. set (f := bit_set (local_flow_status v) _).
  pose proof (hdr_check_all (SE v) (current_tx_channel v) final f Hse Hid) as H. unfold hdr_check in H.
  cbv zeta in H. bool_to_prop. split_and!; try done. by apply Bool.eqb_prop.
Qed.

Lemma se_flip se : se_bits se → se_bits (Z.lxor se VLLP_HDR_S).
Proof. unfold se_bits. rewrite !list_elem_of_In. cbn. intuition (subst; cbn; auto). Qed.

(** A connection in the middle of a message: [rest] is what the peer has not
    acknowledged, the current fragment included. *)
Record sending (w : world App) (id : Z) (rest : list Z) : Prop := {
  snd_nm : nm_ok (w_nm w);
  snd_buf : packet (current_tx_buf (w_v w));
  snd_rest : payload (current_tx_buf (w_v w)) = rest;
  snd_some : current_tx_buf (w_v w) ≠ [];
  snd_mtu : 2 <= mtu (w_v w) <= 63;
  snd_se : se_bits (SE (w_v w));
  snd_id : current_tx_channel (w_v w) = id ∧ 0 <= id < 16;
}.
Definition payload_mtu (w : world App) : nat := Z.to_nat (mtu (w_v w) - 1).

(** One fragment on its way: what [vllp_fragment] changes. *)
Definition next_fragment (w w' : world App) (id : Z) (rest : list Z) : Prop :=
  sending w' id rest ∧ mtu (w_v w') = mtu (w_v w) ∧ txid (w_v w') = txid (w_v w) ∧
  current_tx_len (w_v w') = Z.of_nat (Nat.min (payload_mtu w) (length rest)) ∧
  SE (w_v w') = Z.lxor (SE (w_v w)) VLLP_HDR_S ∧ w_chans w' = w_chans w ∧
  ∃ frame hdr, w_out w' = w_out w ++ [Emit (txid (w_v w)) frame] ∧
    carries frame hdr (take (payload_mtu w) rest) ∧ Z.land hdr 15 = id ∧
    Z.land hdr 192 = SE (w_v w') ∧ bit_set hdr VLLP_HDR_L = (length rest <=? payload_mtu w)%nat.

Lemma vllp_fragment_ok pb (w : world App) id rest :
  sending w id rest → packet pb → pb ≠ [] →
  ∃ w', vllp_fragment pb w = Ret ([], w') ∧ next_fragment w w' id rest.
Proof.
  intros [Hnm Hbuf Hrest Hne Hmtu Hse [Hch Hid]] Hpb Hpne. unfold vllp_fragment.
  rewrite (bind_ok get_v _ w (w_v w) w) by done.
  destruct (current_tx_buf (w_v w)) as [|b src] eqn:Esrc; [done|]. clear Hne.
  pose proof Hbuf as (Hok & Hlt & Hpk). pose proof (payload_length _ Hok) as Hpl. rewrite Hrest in Hpl.
  pose proof (chain_len_nonneg _ Hok) as Hnn. rewrite Hpk.
  unfold payload_mtu. set (K := Z.to_nat (mtu (w_v w) - 1)).
  assert (u16 (Z.min (u32 (mtu (w_v w) - 1)) (chain_len (b :: src))) =
    Z.of_nat (Nat.min K (length rest))) as En.
  { rewrite u32_id by (unfold is_u32; lia). rewrite u16_id by lia. lia. }
  set (n := Z.of_nat (Nat.min K (length rest))).
  set (v1 := set_SE (Z.lxor (SE (w_v w)) VLLP_HDR_S) (set_tx_len n (w_v w))).
  set (w1 := mk_world v1 (w_chans w) (w_nm w) (w_now w) (w_out w)).
  rewrite (bind_ok (mod_v _) _ w tt w1) by (unfold mod_v, w1, v1; by rewrite En).
  destruct (vllp_tx_ok pb w1) as (frames & src' & x & nm' & E & Hnm' & Hpk' & Hne' & Hpay' & Hfr & Hfne & _).
  - done.
  - done.
  - unfold w1, v1. cbn. by rewrite Esrc.
  - unfold w1, v1. cbn. by rewrite Esrc.
  - unfold w1, v1. cbn. lia.
  - unfold w1, v1. cbn. rewrite Esrc. lia.
  - rewrite E. eexists. split; [done|]. unfold w1, v1 in *.
    cbn [w_v w_chans w_nm w_now w_out set_SE set_tx_len current_tx_buf current_tx_len] in Hpay', Hfr.
    rewrite Esrc, Hrest in Hpay', Hfr.
    destruct Hfr as [->|(frame & -> & Hcarry)]; [by destruct (Hfne Hpne)|].
    unfold next_fragment, payload_mtu. split_and!; cbn; try done.
    + split; cbn; try done. by apply se_flip.
    + replace (Z.to_nat n) with (K `min` length rest)%nat in Hcarry by lia.
      replace (take (K `min` length rest) rest) with (take K rest) in Hcarry.
      2: { destruct (decide (K <= length rest)%nat); [by rewrite Nat.min_l|].
           rewrite Nat.min_r, !take_ge by lia. done. }
      eexists frame, _. split; [done|]. split; [exact Hcarry|].
      assert ((n =? chain_len (b :: src)) = (length rest <=? K)%nat) as ->.
      { destruct (length rest <=? K)%nat eqn:EK.
        - apply Nat.leb_le in EK. apply Z.eqb_eq. lia.
        - apply Nat.leb_gt in EK. apply Z.eqb_neq. lia. }
      destruct (tx_hdr_bits (set_SE (Z.lxor (SE (w_v w)) VLLP_HDR_S) (set_tx_len n (w_v w))) (length rest <=? K)%nat)
        as (H1 & H2 & H3); cbn; [by apply se_flip|by rewrite Hch|].
      rewrite H1, H2, H3. done.
Qed.
Lemma vllp_ack_payload_ok pb (w : world App) id rest :
  sending w id rest → current_tx_len (w_v w) = Z.of_nat (Nat.min (payload_mtu w) (length rest)) →
  packet pb → pb ≠ [] →
  if (length rest <=? payload_mtu w)%nat
  then ∃ w', vllp_ack_payload pb w = Ret (pb, w') ∧ current_tx_buf (w_v w') = [] ∧
         nm_ok (w_nm w') ∧ w_chans w' = w_chans w ∧ w_out w' = w_out w
  else ∃ w', vllp_ack_payload pb w = Ret ([], w') ∧
         next_fragment w w' id (drop (payload_mtu w) rest).
Proof.
  intros [Hnm Hbuf Hrest Hne Hmtu Hse Hid] Hlen Hpb Hpne. unfold vllp_ack_payload, disarm.
  set (w1 := mk_world (set_rtx_timer None (w_v w)) (w_chans w) (w_nm w) (w_now w) (w_out w)).
  rewrite (bind_ok (mod_v _) _ w tt w1), (bind_ok get_v _ w1 (w_v w1) w1) by done.
  pose proof (payload_length _ (proj1 Hbuf)) as Hpl. rewrite Hrest in Hpl.
  destruct (drop_loop_ok (current_tx_buf (w_v w)) (w_nm w) (current_tx_len (w_v w)) true
    (fuel_for (current_tx_buf (w_v w))) Hnm Hbuf Hne) as (c & nm' & E & Hpay & Hc & Hnm' & _ & _ & _ & Hnil);
    [lia|unfold fuel_for; lia|].
  set (w2 := mk_world (w_v w1) (w_chans w) nm' (w_now w) (w_out w)).
  rewrite (bind_ok (with_nm _) _ w1 c w2).
  2: { unfold with_nm, pbuf_drop, w1. cbn [w_v w_nm set_rtx_timer current_tx_buf current_tx_len].
       destruct (current_tx_buf (w_v w)); [done|]. by rewrite E. }
  set (w3 := mk_world (set_tx_buf c (w_v w1)) (w_chans w) nm' (w_now w) (w_out w)).
  rewrite (bind_ok (mod_v _) _ w2 tt w3) by done.
  rewrite Hrest, Hlen, Nat2Z.id in Hpay. rewrite Hlen in Hnil.
  destruct (length rest <=? payload_mtu w)%nat eqn:EK.
  - apply Nat.leb_le in EK. assert (c = []) as -> by (apply Hnil; split; [done|lia]).
    exists w3. done.
  - apply Nat.leb_gt in EK. destruct c as [|b c]; [destruct (proj1 Hnil eq_refl); lia|].
    destruct (vllp_fragment_ok pb w3 id (drop (payload_mtu w) rest)) as (w' & E' & Hnext); [|done..|].
    + split; try done. cbn [w3 w_v set_tx_buf current_tx_buf]. by rewrite Hpay, Nat.min_l by lia.
    + exists w'. split; [exact E'|exact Hnext].
Qed.

Lemma send_rest fuel id : ∀ rest (w : world App) acks,
  sending w id rest → current_tx_len (w_v w) = Z.of_nat (Nat.min (payload_mtu w) (length rest)) →
  (length rest <= fuel * payload_mtu w)%nat → Forall (λ pb, packet pb ∧ pb ≠ []) acks →
  length acks = length (chop fuel (payload_mtu w) rest) →
  ∃ l w' frames, mapM vllp_ack_payload acks w = Ret (l, w') ∧ (0 < fuel → current_tx_buf (w_v w') = [])%nat ∧
    nm_ok (w_nm w') ∧ w_chans w' = w_chans w ∧ w_out w' = w_out w ++ (Emit (txid (w_v w)) <$> frames) ∧
    sent id (Z.lxor (SE (w_v w)) VLLP_HDR_S) (tail (chop fuel (payload_mtu w) rest)) frames.
Proof.
  induction fuel as [|fuel IH]; intros rest w acks Hsnd Hlen Hfuel Hacks Hn; cbn [chop] in *.
  { destruct acks; [|done]. eexists _, w, []. split; [done|]. split; [lia|].
    rewrite app_nil_r. split_and!; try done. apply Hsnd. }
  destruct acks as [|pb acks]; [by destruct (_ <=? _)%nat|]. apply Forall_cons_1 in Hacks as [[Hpb Hpne] Hacks].
  pose proof (vllp_ack_payload_ok pb w id rest Hsnd Hlen Hpb Hpne) as Hack.
  cbn [mapM]. destruct (length rest <=? payload_mtu w)%nat eqn:EK.
  - destruct acks; [|done]. destruct Hack as (w' & E & Hbuf & Hnm & Hch & Hout).
    rewrite (bind_ok _ _ _ _ _ E). eexists _, w', []. split; [done|]. cbn. rewrite app_nil_r. done.
  - apply Nat.leb_gt in EK. destruct Hack as (w' & E & Hsnd' & Hm & Ht & Hl' & Hse & Hch & frame & hdr & Ho & Hc & H1 & H2 & H3).
    rewrite (bind_ok _ _ _ _ _ E).
    assert (payload_mtu w' = payload_mtu w) as Hpm by (unfold payload_mtu; by rewrite Hm).
    destruct (IH (drop (payload_mtu w) rest) w' acks Hsnd') as (l & w'' & frames & E' & Hbuf & Hnm & Hch' & Hout & Hs);
      rewrite ?Hpm in *; try done.
    { rewrite length_drop. lia. } { cbn in Hn. lia. }
    rewrite (bind_ok _ _ _ _ _ E'). eexists _, w'', (frame :: frames). split; [done|].
    assert (0 < fuel)%nat by (destruct fuel; [lia|lia]). split_and!; try done; [by auto|by rewrite Hch'|..].
    + rewrite Hout, Ho, Ht. by rewrite <- app_assoc.
    + cbn [tail]. rewrite Hse in Hs, H2. destruct fuel as [|fuel]; [lia|]. cbn [chop] in *.
      destruct (length (drop (payload_mtu w) rest) <=? payload_mtu w)%nat eqn:E2; cbn [tail] in Hs.
      * split; [|exact Hs]. exists hdr. rewrite take_ge in Hc by by apply Nat.leb_le. done.
      * split; [|exact Hs]. exists hdr. split_and!; try done. rewrite H3. symmetry. apply bool_decide_eq_false.
        apply Nat.leb_gt in E2. destruct fuel as [|fuel]; [rewrite length_drop in E2; lia|]. cbn [chop].
        by destruct (_ <=? _)%nat.
Qed.
(** The bytes of a message on the wire: its data and their checksum. *)
Definition wire (iv : Z) (data : list Z) : list Z := data ++ le32 (not32 (crc iv data)).

Lemma send_message_ok (w : world App) h vc c pb reuse acks fuel :
  let out := c ++ [pb] in let m := wire (tx_crc_IV vc) (payload out) in
  nm_ok (w_nm w) → w_chans w !! h = Some vc → packet out →
  pb_offset pb + pb_buflen pb + 4 <= PBUF_DATA_SIZE → chain_len out + 4 < 65536 →
  0 <= vc_id vc < 16 → 2 <= mtu (w_v w) <= 63 → se_bits (SE (w_v w)) →
  packet reuse → reuse ≠ [] → Forall (λ pb, packet pb ∧ pb ≠ []) acks →
  (length m <= fuel * payload_mtu w)%nat → length acks = length (chop fuel (payload_mtu w) m) →
  ∃ l w' frames,
    (_ ← vllp_channel_tx crc h out reuse; mapM vllp_ack_payload acks) w = Ret (l, w') ∧
    current_tx_buf (w_v w') = [] ∧ nm_ok (w_nm w') ∧
    w_chans w' = <[h := set_tx_crc (u32 (tx_crc_IV vc + 1)) vc]> (w_chans w) ∧
    w_out w' = w_out w ++ (Emit (txid (w_v w)) <$> frames) ∧
    sent (vc_id vc) (Z.lxor (SE (w_v w)) VLLP_HDR_S) (chop fuel (payload_mtu w) m) frames.
Proof.
  intros out m Hnm Hh Hout Hroom Hlt Hid Hmtu Hse Hre Hrne Hacks Hfuel Hn.
  assert (4%nat = length (le32 (not32 (crc (tx_crc_IV vc) (payload out))))) as L4 by done.
  destruct (append_store_ok c pb (le32 (not32 (crc (tx_crc_IV vc) (payload out)))) Hout)
    as (c1 & pos & c2 & E1 & E2 & Hc2 & Hne2 & Hpay2 & _); [done|done|].
  fold out in E1, Hpay2. change (Z.of_nat (length (le32 _))) with 4 in E1. fold (wire (tx_crc_IV vc) (payload out)) in Hpay2. fold m in Hpay2.
  set (vc1 := set_tx_crc (u32 (tx_crc_IV vc + 1)) vc).
  set (w2 := mk_world (set_tx_channel (vc_id vc) (set_tx_buf c2 (w_v w))) (<[h := vc1]> (w_chans w))
               (w_nm w) (w_now w) (w_out w)).
  destruct (vllp_fragment_ok reuse w2 (vc_id vc) m) as (w3 & E3 & Hnext); [by split|done..|].
  pose proof Hnext as (Hsnd & Hm & Ht & Hl & Hse' & Hch & frame & hdr & Ho & Hcarry & H1 & H2 & H3).
  set (w4 := mk_world (set_established (list_remove h (established_channels (w_v w3)) ++ [h]) (w_v w3))
               (w_chans w3) (w_nm w3) (w_now w3) (w_out w3)).
  assert (vllp_channel_tx crc h out reuse w = Ret ([], w4)) as E.
  { unfold vllp_channel_tx. rewrite (bind_ok (get_chan h) _ w vc w) by (unfold get_chan; by rewrite Hh).
    rewrite (bind_ok (lift _) _ w (not32 (crc (tx_crc_IV vc) (payload out))) w).
    2: { unfold lift, calc_crc32. by rewrite crc_chain_ok by apply Hout. }
    rewrite (bind_ok (put_chan _ _) _ w tt (mk_world (w_v w) (<[h := vc1]> (w_chans w)) (w_nm w) (w_now w) (w_out w))) by done.
    rewrite (bind_ok (lift _) _ _ (c1, pos) (mk_world (w_v w) (<[h := vc1]> (w_chans w)) (w_nm w) (w_now w) (w_out w)))
      by (unfold lift; by rewrite E1). cbv beta iota.
    rewrite (bind_ok (lift _) _ _ c2 (mk_world (w_v w) (<[h := vc1]> (w_chans w)) (w_nm w) (w_now w) (w_out w)))
      by (unfold lift; by rewrite E2).
    rewrite (bind_ok (mod_v _) _ _ tt w2) by done. by rewrite (bind_ok _ _ _ _ _ E3). }
  rewrite (bind_ok _ _ _ _ _ E). assert (payload_mtu w4 = payload_mtu w) as Hpm.
  { unfold payload_mtu, w4. cbn [w_v set_established mtu]. by rewrite Hm. }
  destruct (send_rest fuel (vc_id vc) m w4 acks) as (l & w' & frames & E' & Hbuf & Hnm' & Hch' & Hout' & Hs);
    rewrite ?Hpm in *; try done.
  { destruct Hsnd. by split. }
  assert (0 < fuel)%nat by (destruct fuel; [unfold m, wire in Hfuel; rewrite length_app, <- L4 in Hfuel; cbn in Hfuel; lia|lia]).
  exists l, w', (frame :: frames). split; [exact E'|]. split_and!; try done; [by auto|by rewrite Hch'|..].
  - rewrite Hout'. unfold w4. cbn [w_out w_v set_established txid]. rewrite Ho, Ht. cbn. by rewrite <- app_assoc.
  - destruct fuel as [|fuel]; [lia|]. cbn [chop tail] in *.
    change (payload_mtu w2) with (payload_mtu w) in *.
    change (SE (w_v w4)) with (SE (w_v w3)) in Hs. rewrite Hse' in Hs, H2.
    destruct (length m <=? payload_mtu w)%nat eqn:EK; cbn [tail] in Hs; (split; [|exact Hs]); exists hdr.
    + rewrite take_ge in Hcarry by by apply Nat.leb_le. done.
    + split_and!; try done. rewrite H3. symmetry. apply bool_decide_eq_false.
      apply Nat.leb_gt in EK. destruct fuel as [|fuel]; [cbn in Hfuel; lia|]. cbn [chop]. by destruct (_ <=? _)%nat.
Qed.
(** ** Receiving a message *)

(** The receive queue after the bytes [d] of a message. *)
Definition holds (rxq : list pbuf) (d : list Z) : Prop :=
  (rxq = [] ∧ d = []) ∨
  ∃ b, rxq = [b] ∧ pb_ok b ∧ pb_offset b = 0 ∧ window b = d ∧ pb_pktlen b = Z.of_nat (length d).

(** Both pools have a buffer to spare. *)
Definition spare (nm : netmem) : Prop := 2 <= pp_avail (pbufs nm) ∧ 2 <= pp_avail (pbuf_datas nm).

Lemma pbuf_make_spare offset (w : world App) pb w' :
  spare (w_nm w) → pbuf_make offset w = Ret (pb, w') → pb ≠ [].
Proof.
  intros [H1 H2]. unfold pbuf_make, with_nm, pbuf_make0, pbuf_make_irq_blocked0, get_both, pbuf_get0,
    pbuf_data_get0, pbuf_pool_get, pool_pop. cbn [negb].
  rewrite (proj2 (Z.ltb_ge (pp_avail (pbufs _)) _)) by lia.
  destruct (pp_items (pbufs (w_nm w))) as [|a la]; [done|]. cbn [mbind res_bind pbuf_datas].
  rewrite (proj2 (Z.ltb_ge (pp_avail (pbuf_datas _)) _)) by lia.
  destruct (pp_items (pbuf_datas (w_nm w))) as [|d ld]; [done|]. cbn [mbind res_bind]. by intros [= <- _].
Qed.

Lemma store_fragment_ok (w : world App) rxq d data :
  nm_ok (w_nm w) → holds rxq d → (length d + length data <= 512)%nat →
  ∃ r nm', store_fragment rxq data w = Ret (r, set_nm nm' w) ∧ nm_ok nm' ∧
    (spare (w_nm w) ∨ rxq ≠ [] → r ≠ None) ∧
    match r with
    | None => rxq = []
    | Some rxq' => holds rxq' (d ++ data) ∧ rxq' ≠ [] ∧ conserved (w_nm w) rxq nm' rxq'
    end.
Proof.
  intros Hnm Hd Hlen. unfold store_fragment. set (n := Z.of_nat (length data)). destruct Hd as [[-> ->]|(b & -> & Hb & Ho & Hw & Hp)].
  - cbn [last]. destruct (pbuf_make_ok 0 w Hnm) as (pb & nm' & E & Hnm' & Hpb & Hcv); [unfold PBUF_DATA_SIZE; lia|].
    unfold mbind at 1, M_bind at 1. rewrite (bind_ok _ _ _ _ _ E).
    destruct Hpb as [->|(b & -> & Hb & Ho & Hl & Hp)].
    + exists None, nm'. cbn. split_and!; try done.
      intros [Hs|?]; [|done]. by pose proof (pbuf_make_spare _ _ _ _ Hs E).
    + cbn [on_head mret M_ret]. rewrite (proj2 (Z.ltb_ge _ _)) by (unfold PBUF_DATA_SIZE; lia).
      pose proof Hb as [Hm _ _ _ Ha Hda].
      set (b0 := set_flags b 0). destruct (wr (db_mem (pb_data b0)) 0 data) as [m|] eqn:Ew.
      2: { rewrite wr_ok in Ew; [done|lia|]. cbn. rewrite Hm. unfold PBUF_DATA_SIZE. lia. }
      destruct (window_wr b0 m data) as [Hok' Hw'].
      { by apply set_flags_ok. } { cbn. rewrite Ho, Hl. unfold PBUF_DATA_SIZE. lia. }
      { cbn. by rewrite Ho, Hl. }
      eexists (Some _), nm'. split.
      { cbn -[wr u16 Z.of_nat]. reflexivity. }
      split_and!; try done. right. eexists. split; [done|]. cbn [b0 set_flags pb_offset pb_buflen pb_pktlen] in *.
      change (pb_pktlen (set_mem _ m)) with (pb_pktlen b). rewrite Hl in Hok', Hw' |- *. rewrite Hp.
      rewrite !(u16_id (0 + _)) by lia.
      assert (window b0 = []) as Hw0.
      { apply nil_length_inv. rewrite window_length by by apply set_flags_ok. cbn. by rewrite Hl. }
      split_and!; try done; try lia; [by apply set_pktlen_ok|]. etransitivity; [exact Hw'|by rewrite Hw0].
  - cbn [last]. pose proof Hb as [Hm _ Hl0 _ Ha Hda]. pose proof (window_length b Hb) as Hwl. rewrite Hw in Hwl.
    rewrite (Z.min_r _ n) by (unfold PBUF_DATA_SIZE; lia). rewrite Z.ltb_irrefl.
    destruct (wr (db_mem (pb_data b)) (pb_buflen b) data) as [m|] eqn:Ew.
    2: { rewrite wr_ok in Ew; [done|lia|]. rewrite Hm. unfold PBUF_DATA_SIZE. lia. }
    destruct (window_wr b m data Hb) as [Hok' Hw'].
    { rewrite Ho. unfold PBUF_DATA_SIZE. lia. } { by rewrite Ho. }
    assert (take (Z.to_nat n) data = data) as Et by (apply take_ge; lia).
    eexists (Some _), (w_nm w). split.
    { unfold mbind, M_bind, mret, M_ret, lift. rewrite Et, Ew. cbn -[wr u16 Z.of_nat]. unfold set_nm. destruct w. reflexivity. }
    split_and!; try done. right. eexists. split; [done|]. cbn [set_pktlen set_win pb_offset pb_buflen].
    fold n in Hok', Hw'. rewrite (u16_id (pb_buflen b + n)), Hp by lia. rewrite u16_id by lia.
    split_and!; try done; [by apply set_pktlen_ok|etransitivity; [exact Hw'|by rewrite Hw]|rewrite length_app; cbn; lia].
Qed.
Lemma find_channel_ext l id (w w' : world App) r :
  (∀ h, vc_id <$> w_chans w !! h = vc_id <$> w_chans w' !! h) →
  find_channel l id w = Ret (r, w) → find_channel l id w' = Ret (r, w').
Proof.
  intros Hext. induction l as [|h l IH]; cbn [find_channel]; [by intros [= ->]|].
  unfold mbind, M_bind, get_chan. specialize (Hext h).
  destruct (w_chans w !! h) as [vc|], (w_chans w' !! h) as [vc'|]; try done.
  injection Hext as ->. destruct (vc_id vc' =? id); [by intros [= ->]|done].
Qed.

Lemma channel_find_ok (w : world App) id r :
  find_channel (channels (w_v w)) id w = Ret (r, w) → vllp_channel_find id w = Ret (r, w).
Proof. intros H. unfold vllp_channel_find. by rewrite (bind_ok get_v _ w (w_v w) w). Qed.

(** A channel that has received the bytes [d] of a message so far. *)
Record receiving (w : world App) (id h : Z) (vc : channel App) (d : list Z) : Prop := {
  rcv_nm : nm_ok (w_nm w);
  rcv_find : find_channel (channels (w_v w)) id w = Ret (Some h, w);
  rcv_chan : w_chans w !! h = Some vc;
  rcv_open : net_closed vc = false;
  rcv_rxq : holds (vc_rxq vc) d;
}.

(** The world with channel [h] and the pools replaced. *)
Definition with_chan (w : world App) (h : Z) (vc : channel App) (nm : netmem) : world App :=
  mk_world (w_v w) (<[h := vc]> (w_chans w)) nm (w_now w) (w_out w).

Lemma receiving_with_chan w id h vc d vc' d' nm' :
  receiving w id h vc d → nm_ok nm' → vc_id vc' = vc_id vc → net_closed vc' = false →
  holds (vc_rxq vc') d' → receiving (with_chan w h vc' nm') id h vc' d'.
Proof.
  intros [Hnm Hf Hc Ho Hr] Hnm' Hid Ho' Hr'. split; try done.
  - eapply find_channel_ext; [|exact Hf]. intros k. cbn. destruct (decide (k = h)) as [->|Hk].
    + rewrite Hc, lookup_insert_eq. cbn. by rewrite Hid.
    + by rewrite lookup_insert_ne by done.
  - cbn. apply lookup_insert_eq.
Qed.

Lemma receive_fragment_ok (w : world App) id h vc d hdr data :
  receiving w id h vc d → bit_set hdr VLLP_HDR_L = false → (length d + length data <= 512)%nat →
  spare (w_nm w) ∨ vc_rxq vc ≠ [] →
  ∃ rxq nm', vllp_channel_receive fn services xalloc crc id (hdr :: data) w =
      Ret (0, with_chan w h (set_rxq rxq vc) nm') ∧
    receiving (with_chan w h (set_rxq rxq vc) nm') id h (set_rxq rxq vc) (d ++ data) ∧ rxq ≠ [].
Proof.
  intros Hr Hl Hlen Hsp. pose proof Hr as [Hnm Hf Hc Ho Hq]. unfold vllp_channel_receive.
  cbn [deref tail]. rewrite Hl.
  rewrite (bind_ok _ _ _ _ _ (channel_find_ok _ _ _ Hf)).
  rewrite (bind_ok (get_chan h) _ w vc w) by (unfold get_chan; by rewrite Hc).
  rewrite (bind_ok get_v _ w (w_v w) w) by done. rewrite Ho. cbn [andb].
  destruct (store_fragment_ok w (vc_rxq vc) d data Hnm Hq Hlen) as (r & nm' & E & Hnm' & Hsome & Hcase).
  rewrite (bind_ok _ _ _ _ _ E). destruct r as [rxq|]; [|by destruct (Hsome Hsp)].
  destruct Hcase as (Hh & Hne & _). cbn [negb].
  exists rxq, nm'. split; [|split; [|done]].
  - unfold mod_chan, mbind, M_bind, get_chan, put_chan, set_nm. cbn. by rewrite Hc.
  - by eapply receiving_with_chan.
Qed.

Lemma receive_last_ok (w : world App) id h vc d hdr data :
  let body := d ++ data in
  receiving w id h vc d → bit_set hdr VLLP_HDR_L = true →
  bit_set (local_flow_status (w_v w)) (Z.shiftl 1 id) = true →
  (4 <= length body <= 512)%nat → spare (w_nm w) ∨ vc_rxq vc ≠ [] →
  let recv := vllp_channel_receive fn services xalloc crc id (hdr :: data) w in
  if bool_decide (crc (rx_crc_IV vc) body = 4294967295) then
    ∃ pb nm', recv = deliver fn services xalloc crc h pb
        (with_chan w h (set_rx_crc (u32 (rx_crc_IV vc + 1)) (set_rxq [] vc)) nm') ∧
      packet pb ∧ pb ≠ [] ∧ payload pb = take (length body - 4) body ∧ nm_ok nm'
  else ∃ nm', recv = Ret (ERR_CHECKSUM_ERROR, with_chan w h (set_rxq [] vc) nm').
Proof.
  intros body Hr Hl Hflow Hlen Hsp. pose proof Hr as [Hnm Hf Hc Ho Hq]. unfold vllp_channel_receive.
  cbn [deref tail]. rewrite Hl.
  rewrite (bind_ok _ _ _ _ _ (channel_find_ok _ _ _ Hf)).
  rewrite (bind_ok (get_chan h) _ w vc w) by (unfold get_chan; by rewrite Hc).
  rewrite (bind_ok get_v _ w (w_v w) w) by done. rewrite Ho, Hflow. cbn [andb negb].
  destruct (store_fragment_ok w (vc_rxq vc) d data Hnm Hq) as (r & nm' & E & Hnm' & Hsome & Hcase).
  { unfold body in Hlen. rewrite length_app in Hlen. lia. }
  rewrite (bind_ok _ _ _ _ _ E). destruct r as [rxq|]; [|by destruct (Hsome Hsp)].
  destruct Hcase as ([[-> _]|(b & -> & Hb & Hbo & Hw & Hp)] & Hne & _); [done|]. fold body in Hw, Hp.
  cbn [on_last on_head]. set (b1 := or_flag (set_flags b PBUF_EOP) PBUF_SOP).
  assert (pb_ok b1) as Hb1 by (by apply set_flags_ok, set_flags_ok).
  assert (Forall pb_ok [b1]) as Hb1s by by apply Forall_singleton.
  assert (payload [b1] = body) as Hpay.
  { rewrite payload_cons, app_nil_r. by rewrite <- Hw. }
  set (w1 := with_chan w h (set_rxq [] vc) nm').
  rewrite (bind_ok (mod_chan _ _) _ _ tt w1)
    by (unfold mod_chan, mbind, M_bind, get_chan, put_chan, set_nm; cbn; by rewrite Hc).
  rewrite (bind_ok (lift _) _ w1 (not32 (crc (rx_crc_IV vc) body)) w1).
  2: { unfold lift, calc_crc32. rewrite crc_chain_ok by done. by rewrite Hpay. }
  case_bool_decide as Hcrc.
  - rewrite Hcrc. cbn [not32 Z.lxor]. change (negb (not32 4294967295 =? 0)) with false. cbv iota.
    set (vc2 := set_rx_crc (u32 (rx_crc_IV vc + 1)) (set_rxq [] vc)).
    rewrite (bind_ok (mod_chan _ _) _ w1 tt (with_chan w h vc2 nm')).
    2: { unfold mod_chan, mbind, M_bind, get_chan, put_chan, w1, with_chan. cbn. rewrite lookup_insert_eq.
         cbn. by rewrite insert_insert_eq. }
    assert (chain_len [b1] = Z.of_nat (length body)) as Hcl
      by (rewrite <- payload_length, Hpay by done; done).
    destruct (pbuf_trim_ok (fuel_for [b1]) nm' [b1] 4 Hnm') as (pb & nm2 & E2 & Hpne & Hpp & Hpk & Hnm2 & _); try done.
    { split; [done|]. rewrite Hcl. split; [lia|]. done. } { lia. } { unfold fuel_for. cbn. lia. }
    rewrite (bind_ok (with_nm _) _ _ pb (with_chan w h vc2 nm2)) by (unfold with_nm; cbn [w_nm with_chan]; by rewrite E2).
    exists pb, nm2. split_and!; try done. rewrite Hpp, Hcl, Hpay. f_equal. lia.
  - rewrite (proj2 (Z.eqb_neq _ 0)).
    + exists nm'. done.
    + intros H0. apply Hcrc. rewrite <- (not32_involutive (crc _ _)), H0. done.
Qed.
Lemma with_chan_twice w h vc1 vc2 nm1 nm2 :
  with_chan (with_chan w h vc1 nm1) h vc2 nm2 = with_chan w h vc2 nm2.
Proof. unfold with_chan. cbn. by rewrite insert_insert_eq. Qed.

(** A frame without padding: header byte and fragment. *)
Definition frame_bytes (u : Z * list Z) : list Z := u.1 :: u.2.
Abbreviation receive id := (λ u, vllp_channel_receive fn services xalloc crc id (frame_bytes u)).

Lemma receive_init_ok us : ∀ (w : world App) id h vc d,
  receiving w id h vc d → Forall (λ u, bit_set u.1 VLLP_HDR_L = false) us →
  (length d + length (concat us.*2) <= 512)%nat → spare (w_nm w) ∨ vc_rxq vc ≠ [] →
  us = [] ∨ ∃ rxq nm', let w' := with_chan w h (set_rxq rxq vc) nm' in
    mapM (receive id) us w = Ret (replicate (length us) 0, w') ∧
    receiving w' id h (set_rxq rxq vc) (d ++ concat us.*2) ∧ rxq ≠ [].
Proof.
  induction us as [|u us IH]; intros w id h vc d Hr Hl Hlen Hsp; [by left|right].
  apply Forall_cons_1 in Hl as [Hu Hl]. rewrite fmap_cons in *. cbn [concat] in *. rewrite length_app in Hlen.
  destruct (receive_fragment_ok w id h vc d u.1 u.2 Hr Hu) as (rxq & nm' & E & Hr' & Hne); [lia|done|].
  cbn [mapM]. change (u.1 :: u.2) with (frame_bytes u) in E. rewrite (bind_ok _ _ _ _ _ E).
  destruct (IH (with_chan w h (set_rxq rxq vc) nm') id h (set_rxq rxq vc) (d ++ u.2) Hr' Hl)
    as [->|(rxq2 & nm2 & E2 & Hr2 & Hne2)].
  - rewrite length_app. lia.
  - by right.
  - exists rxq, nm'. cbn [mapM]. cbn [fmap list_fmap concat]. rewrite app_nil_r. done.
  - exists rxq2, nm2. rewrite (bind_ok _ _ _ _ _ E2). cbv zeta in *. rewrite with_chan_twice in Hr2 |- *.
    rewrite <- app_assoc in Hr2. done.
Qed.

Lemma mapM_app_ret {A B} (f : A → M App B) l1 l2 w k1 w1 :
  mapM f l1 w = Ret (k1, w1) →
  mapM f (l1 ++ l2) w = (k2 ← mapM f l2; mret (k1 ++ k2)) w1.
Proof.
  revert w k1. induction l1 as [|x l1 IH]; intros w k1; cbn [mapM app].
  - intros [= <- <-]. unfold mbind, M_bind, mret, M_ret. by destruct (mapM f l2 w) as [[]|].
  - intros (y & w2 & Ey & Ek)%bind_inv. apply bind_inv in Ek as (k & w3 & Ek & Eq).
    injection Eq as <- <-. rewrite (bind_ok _ _ _ _ _ Ey). unfold mbind at 1, M_bind at 1.
    rewrite (IH _ _ Ek). unfold mbind, M_bind. by destruct (mapM f l2 w3) as [[]|].
Qed.

(** Delivery of a message of an application channel. *)
Definition delivered (w w' : world App) (h : Z) (vc : channel App) (app : App) (pb : list pbuf)
    (nm : netmem) : Prop :=
  let '(events, app', nm') := push fn app pb nm in
  w' = mk_world (w_v w) (<[h := set_app (Some app') (set_rx_crc (u32 (rx_crc_IV vc + 1)) (set_rxq [] vc))]> (w_chans w))
         nm' (w_now w) (w_out w ++ if events =? 0 then [] else [Raise h events]).

Lemma receive_message_ok (w : world App) id h vc app us x :
  let body := concat (us ++ [x]).*2 in
  receiving w id h vc [] → h ≠ cmc (w_v w) → vc_app vc = Some app → spare (w_nm w) →
  bit_set (local_flow_status (w_v w)) (Z.shiftl 1 id) = true →
  Forall (λ u, bit_set u.1 VLLP_HDR_L = false) us → bit_set x.1 VLLP_HDR_L = true →
  (4 <= length body <= 512)%nat →
  let r := mapM (receive id) (us ++ [x]) w in
  if bool_decide (crc (rx_crc_IV vc) body = 4294967295) then
    ∃ pb nm w', r = Ret (replicate (length (us ++ [x])) 0, w') ∧ packet pb ∧ pb ≠ [] ∧ nm_ok nm ∧
      payload pb = take (length body - 4) body ∧ delivered w w' h vc app pb nm
  else ∃ nm, r = Ret (replicate (length us) 0 ++ [ERR_CHECKSUM_ERROR], with_chan w h (set_rxq [] vc) nm).
Proof.
  intros body Hr Hcmc Happ Hsp Hflow Hus Hx Hlen r.
  assert (body = concat us.*2 ++ x.2) as Hbody.
  { unfold body. rewrite fmap_app, concat_app. cbn. by rewrite app_nil_r. }
  assert (∃ rxq nm', let w' := with_chan w h (set_rxq rxq vc) nm' in
    mapM (receive id) us w = Ret (replicate (length us) 0, w') ∧
    receiving w' id h (set_rxq rxq vc) (concat us.*2) ∧ (spare nm' ∨ rxq ≠ []))
    as (rxq & nm' & E & Hr' & Hsp').
  { destruct (receive_init_ok us w id h vc [] Hr Hus) as [->|(rxq & nm' & E & Hr' & Hne)].
    - cbn. rewrite Hbody, length_app in Hlen. lia.
    - by left.
    - exists (vc_rxq vc), (w_nm w). cbn [mapM]. assert (set_rxq (vc_rxq vc) vc = vc) as Eq by by destruct vc.
      assert (with_chan w h vc (w_nm w) = w) as Ew.
      { unfold with_chan. rewrite insert_id by apply Hr. by destruct w. }
      rewrite Eq. cbv zeta. rewrite Ew. split_and!; try done. by left.
    - exists rxq, nm'. split_and!; try done. by right. }
  unfold r. rewrite (mapM_app_ret _ _ _ _ _ _ E). set (w1 := with_chan w h (set_rxq rxq vc) nm') in *.
  cbn [mapM]. rewrite Hbody in Hlen |- *.
  pose proof (receive_last_ok w1 id h (set_rxq rxq vc) (concat us.*2) x.1 x.2 Hr' Hx Hflow Hlen Hsp') as Hlast.
  change (x.1 :: x.2) with (frame_bytes x) in Hlast. cbn [set_rxq rx_crc_IV] in Hlast.
  unfold w1 in Hlast. cbv zeta in Hlast.
  case_bool_decide as Hcrc.
  - destruct Hlast as (pb & nm2 & E2 & Hpk & Hne & Hpay & Hnm2). rewrite with_chan_twice in E2.
    set (vc2 := set_rx_crc (u32 (rx_crc_IV vc + 1)) (set_rxq [] vc)).
    change (set_rx_crc _ _) with vc2 in E2.
    destruct (push fn app pb nm2) as [[events app'] nm3] eqn:Ep.
    exists pb, nm2. eexists. split; [|split_and!; try done; unfold delivered; rewrite Ep; reflexivity].
    unfold mbind, M_bind. unfold w1. rewrite E2. unfold deliver.
    rewrite (bind_ok get_v _ _ (w_v w) (with_chan w h vc2 nm2)) by done.
    rewrite (proj2 (Z.eqb_neq _ _)) by done.
    rewrite (bind_ok (get_chan h) _ _ vc2 (with_chan w h vc2 nm2)) by (unfold get_chan; cbn; by rewrite lookup_insert_eq).
    change (vc_app vc2) with (vc_app vc). rewrite Happ.
    unfold mbind, M_bind. cbn [w_nm with_chan]. rewrite Ep.
    rewrite length_app, replicate_add. cbn [length replicate].
    destruct (events =? 0); cbn; rewrite insert_insert_eq; by rewrite ?app_nil_r.
  - destruct Hlast as (nm2 & E2). rewrite with_chan_twice in E2. exists nm2.
    unfold mbind, M_bind, w1. rewrite E2. done.
Qed.
End Link.

(** What the receiver sees of the frames of a message. *)
Lemma sent_frames id frs : ∀ se frames,
  sent id se frs frames → frs ≠ [] →
  ∃ us x, mapM (λ f, unpad (payload f)) frames = Some (frame_bytes <$> (us ++ [x])) ∧
    Forall (λ u, bit_set u.1 VLLP_HDR_L = false) us ∧ bit_set x.1 VLLP_HDR_L = true ∧
    (us ++ [x]).*2 = frs ∧ Forall (λ f, can_len (length (payload f))) frames.
Proof.
  induction frs as [|f frs IH]; intros se frames Hs Hne; [done|].
  destruct frames as [|fr frames]; [done|]. destruct Hs as [(hdr & (Hp & Hu & Hcan) & _ & _ & Hl) Hs].
  destruct frs as [|f' frs].
  - destruct frames; [|done]. exists [], (hdr, f). cbn. rewrite Hu. split_and!; try done. by apply Forall_singleton.
  - destruct (IH _ _ Hs) as (us & x & E & Hus & Hx & H2 & Hc); [done|].
    exists ((hdr, f) :: us), x. cbn [mapM]. rewrite Hu. cbn [mbind option_bind]. rewrite E. cbn [mbind option_bind].
    split_and!; try done.
    + by constructor.
    + cbn [app]. rewrite fmap_cons. by rewrite H2.
    + by constructor.
Qed.

(** ** Properties *)

(** The fragments of one message, received in order on an open application
    channel, are delivered to the service exactly when the checksum over all of
    them is right: the service then gets one well-formed packet with precisely the
    message (the fragments joined, without the checksum), every fragment is
    answered by 0, and the checksum seed moves on.  Otherwise the last fragment is
    answered by [ERR_CHECKSUM_ERROR], and the service is not called.  The message
    and its checksum must fit one buffer. *)
Theorem vllp_receive_message {App} (fn : app_fn App) services xalloc crc `{!Crc32Spec crc}
    (w : world App) id h vc app us x :
  let body := concat (us ++ [x]).*2 in
  receiving w id h vc [] → h ≠ cmc (w_v w) → vc_app vc = Some app → spare (w_nm w) →
  bit_set (local_flow_status (w_v w)) (Z.shiftl 1 id) = true →
  Forall (λ u, bit_set u.1 VLLP_HDR_L = false) us → bit_set x.1 VLLP_HDR_L = true →
  (4 <= length body <= 512)%nat →
  let r := mapM (λ u, vllp_channel_receive fn services xalloc crc id (frame_bytes u)) (us ++ [x]) w in
  if bool_decide (crc (rx_crc_IV vc) body = 4294967295) then
    ∃ pb nm w', r = Ret (replicate (length (us ++ [x])) 0, w') ∧ packet pb ∧ pb ≠ [] ∧ nm_ok nm ∧
      payload pb = take (length body - 4) body ∧ delivered fn w w' h vc app pb nm
  else ∃ nm, r = Ret (replicate (length us) 0 ++ [ERR_CHECKSUM_ERROR], with_chan w h (set_rxq [] vc) nm).
Proof. by apply receive_message_ok. Qed.

(** The send path composed with the receive path. *)
Lemma message_roundtrip_ok {App1 App2} (fn2 : app_fn App2) services2 xalloc2 crc `{!Crc32Spec crc}
    (w1 : world App1) (w2 : world App2) h1 vc1 c pb reuse acks h2 vc2 app2 :
  let data := payload (c ++ [pb]) in
  let m := wire crc (tx_crc_IV vc1) data in
  nm_ok (w_nm w1) → w_chans w1 !! h1 = Some vc1 → packet (c ++ [pb]) → bytes data →
  pb_offset pb + pb_buflen pb + 4 <= PBUF_DATA_SIZE → (length data + 4 <= 512)%nat →
  0 <= vc_id vc1 < 16 → 2 <= mtu (w_v w1) <= 63 → se_bits (SE (w_v w1)) →
  packet reuse → reuse ≠ [] → Forall (λ pb, packet pb ∧ pb ≠ []) acks →
  length acks = length (chop (length m) (payload_mtu w1) m) →
  receiving w2 (vc_id vc1) h2 vc2 [] → h2 ≠ cmc (w_v w2) → vc_app vc2 = Some app2 → spare (w_nm w2) →
  bit_set (local_flow_status (w_v w2)) (Z.shiftl 1 (vc_id vc1)) = true →
  is_u32 (tx_crc_IV vc1) → rx_crc_IV vc2 = tx_crc_IV vc1 →
  ∃ l w1' frames us pb' nm w2',
    (_ ← vllp_channel_tx crc h1 (c ++ [pb]) reuse; mapM vllp_ack_payload acks) w1 = Ret (l, w1') ∧
    current_tx_buf (w_v w1') = [] ∧ w_out w1' = w_out w1 ++ (Emit (txid (w_v w1)) <$> frames) ∧
    Forall (λ f, can_len (length (payload f))) frames ∧
    mapM (λ f, unpad (payload f)) frames = Some us ∧
    mapM (vllp_channel_receive fn2 services2 xalloc2 crc (vc_id vc1)) us w2 = Ret (replicate (length us) 0, w2') ∧
    payload pb' = data ∧ packet pb' ∧ nm_ok nm ∧ delivered fn2 w2 w2' h2 vc2 app2 pb' nm.
Proof.
  intros data m Hnm Hh Hout Hbytes Hroom Hlen Hid Hmtu Hse Hre Hrne Hacks Hn Hr Hcmc Happ Hsp Hflow Hiv Heq.
  assert (length m = length data + 4)%nat as Hm by (unfold m, wire; by rewrite length_app).
  pose proof (payload_length _ (proj1 Hout)) as Hpl. fold data in Hpl.
  assert (1 <= payload_mtu w1)%nat as Hk by (unfold payload_mtu; lia).
  destruct (send_message_ok crc w1 h1 vc1 c pb reuse acks (length m)) as (l & w1' & frames & E & Hbuf & _ & _ & Ho & Hs);
    try done; [lia|fold data; fold m; nia|].
  fold data in Hs. fold m in Hs.
  assert (concat (chop (length m) (payload_mtu w1) m) = m) as Hcc by (apply chop_concat; nia).
  destruct (sent_frames _ _ _ _ Hs) as (us & x & Eu & Hus & Hx & H2 & Hcan).
  { intros E0. rewrite E0 in Hcc. cbn in Hcc. rewrite <- Hcc in Hm. cbn in Hm. lia. }
  pose proof (receive_message_ok fn2 services2 xalloc2 crc w2 (vc_id vc1) h2 vc2 app2 us x Hr Hcmc Happ Hsp Hflow Hus Hx) as Hrm.
  rewrite H2, Hcc, Heq in Hrm. cbv zeta in Hrm. rewrite bool_decide_eq_true_2 in Hrm.
  2: { unfold m, wire. by apply crc_residue; auto using crc_u32, not32_u32. }
  destruct Hrm as (pb' & nm & w2' & Er & Hpk & Hne & Hnm' & Hpay & Hdel); [lia|].
  exists l, w1', frames, (frame_bytes <$> (us ++ [x])), pb', nm, w2'. split_and!; try done.
  - rewrite length_fmap, <- Er. clear. generalize (us ++ [x]). intros k. revert w2.
    induction k as [|u k IH]; intros w2; [done|]. rewrite fmap_cons. cbn [mapM].
    unfold mbind, M_bind. destruct (vllp_channel_receive _ _ _ _ _ _ w2) as [[]|]; [|done]. by rewrite IH.
  - rewrite Hpay, Hm. unfold m, wire. rewrite take_app_le by lia. apply take_ge. lia.
Qed.

(** C5: a message of at most 508 bytes sent by one side arrives at the other.
    [vllp_channel_tx] and one [vllp_ack_payload] per acknowledged fragment emit frames of
    lengths CAN FD has, and leave nothing to send; those frames, with their padding taken
    off and fed in order to [vllp_channel_receive] of a peer with the same checksum seed,
    deliver to the peer's service a packet with exactly the bytes sent.  The last buffer
    of the message has room for the 4-byte checksum, the mtu is between 2 and 63, and the
    peer's channel is open, with its flow bit set, no message half received, and pool
    buffers to spare.  A longer message is dropped by the receiver
    ([vllp_full_buffer_drops]). *)
Theorem vllp_message_roundtrip {App1 App2} (fn2 : app_fn App2) services2 xalloc2 crc `{!Crc32Spec crc}
    (w1 : world App1) (w2 : world App2) h1 vc1 c pb reuse acks h2 vc2 app2 :
  let data := payload (c ++ [pb]) in
  let m := wire crc (tx_crc_IV vc1) data in
  nm_ok (w_nm w1) → w_chans w1 !! h1 = Some vc1 → packet (c ++ [pb]) → bytes data →
  pb_offset pb + pb_buflen pb + 4 <= PBUF_DATA_SIZE → (length data + 4 <= 512)%nat →
  0 <= vc_id vc1 < 16 → 2 <= mtu (w_v w1) <= 63 → se_bits (SE (w_v w1)) →
  packet reuse → reuse ≠ [] → Forall (λ pb, packet pb ∧ pb ≠ []) acks →
  length acks = length (chop (length m) (payload_mtu w1) m) →
  receiving w2 (vc_id vc1) h2 vc2 [] → h2 ≠ cmc (w_v w2) → vc_app vc2 = Some app2 → spare (w_nm w2) →
  bit_set (local_flow_status (w_v w2)) (Z.shiftl 1 (vc_id vc1)) = true →
  is_u32 (tx_crc_IV vc1) → rx_crc_IV vc2 = tx_crc_IV vc1 →
  ∃ l w1' frames us pb' nm w2',
    (_ ← vllp_channel_tx crc h1 (c ++ [pb]) reuse; mapM vllp_ack_payload acks) w1 = Ret (l, w1') ∧
    current_tx_buf (w_v w1') = [] ∧ w_out w1' = w_out w1 ++ (Emit (txid (w_v w1)) <$> frames) ∧
    Forall (λ f, can_len (length (payload f))) frames ∧
    mapM (λ f, unpad (payload f)) frames = Some us ∧
    mapM (vllp_channel_receive fn2 services2 xalloc2 crc (vc_id vc1)) us w2 = Ret (replicate (length us) 0, w2') ∧
    payload pb' = data ∧ packet pb' ∧ delivered fn2 w2 w2' h2 vc2 app2 pb' nm.
Proof.
  intros data m H1 H2 H3 H4 H5 H6 H7 H8 H9 H10 H11 H12 H13 H14 H15 H16 H17 H18 H19 H20.
  destruct (message_roundtrip_ok fn2 services2 xalloc2 crc w1 w2 h1 vc1 c pb reuse acks h2 vc2 app2)
    as (l & w1' & frames & us & pb' & nm & w2' & ? & ? & ? & ? & ? & ? & ? & ? & ? & ?); try done.
  by exists l, w1', frames, us, pb', nm, w2'.
Qed.

(** ** Concrete connections *)

Module Demo.
(** A service that records the messages it gets, is always ready, and has
    nothing to send. *)
Definition App : Type := list (list Z).
Definition fn : app_fn App :=
  mk_app_fn App (λ a pb nm, (0, a ++ [payload pb], nm)) (Some (λ _, true))
    (λ a nm, ([], a, nm)) (λ a _, a).
Definition services : list (service App) := [mk_service App [101; 99; 104; 111] (λ _, inr [])].
Definition xalloc (m : gmap Z (channel App)) : option Z := Some (1 + Z.of_nat (size m)).

Definition nm0 : netmem :=
  mk_netmem (mk_pool [16; 32; 48; 64; 80; 96; 112; 128] 8 8 0)
    (mk_pool (zero_dbuf <$> [512; 1024; 1536; 2048; 2560; 3072; 3584; 4096]) 8 8 0).
Definition v0 : vllp := mk_vllp [] [] None None None [] 0 0 0 0 0 0 0 0 0 0 false 0 0 0.
Definition w0 : world App := mk_world v0 ∅ nm0 0 [].

(** A packet holding [bs], taken from the pools. *)
Definition frame (nm : netmem) (bs : list Z) : res (list pbuf * netmem) :=
  '(pb, nm) ← pbuf_make0 nm 0 false;
  match pb with
  | None => Fault Blocked
  | Some pb =>
      m ← wr (db_mem (pb_data pb)) 0 bs;
      let n := Z.of_nat (length bs) in
      Ret ([set_mem (set_pktlen (set_win pb 0 n) n) m], nm)
  end.

(** The server (identifiers 66 and 77, 8-byte frames) and frames arriving. *)
Definition start : res (list vllp * world App) :=
  match vllp_server_create xalloc true [] 66 77 8 10 w0 with
  | Ret (Some vs, w) => Ret (vs, w)
  | Ret (None, _) => Fault Blocked
  | Fault f => Fault f
  end.
Definition input (bs : list Z) (s : list vllp * world App) : res (list vllp * world App) :=
  let '(vs, w) := s in
  '(pb, nm) ← frame (w_nm w) bs;
  '(_, vs, w) ← vllp_input fn services xalloc crc32 vs 77 pb (set_nm nm w);
  Ret (vs, w).
Fixpoint inputs (l : list (list Z)) (s : list vllp * world App) : res (list vllp * world App) :=
  match l with [] => Ret s | bs :: l => s ← input bs s; inputs l s end.

Definition syn : list Z := [15; 2; 8; 1; 2; 3; 4].
Definition cmc_iv : Z := crc32 (rd_le32 1 2 3 4) (le32 1).
(** A control message as the peer sends it first after a SYN. *)
Definition cmc_msg (data : list Z) : list Z := wire crc32 (not32 cmc_iv) data.
Definition open_echo : list Z := cmc_msg [3; 101; 99; 104; 111].

(** The connection state and the channels' identifiers after some frames. *)
Definition status (r : res (list vllp * world App)) : res (bool * list Z) :=
  '(_, w) ← r; Ret (connected (w_v w), vc_id <$> (map_to_list (w_chans w)).*2).
End Demo.

(** SYN, then OPEN of a service in two fragments: channel 3 is open. *)
Example demo_open :
  Demo.status (s ← Demo.start; Demo.inputs [Demo.syn; 206 :: take 7 Demo.open_echo; 94 :: drop 7 Demo.open_echo] s)
  = Ret (true, [3; 14]).
Proof. vm_compute. reflexivity. Qed.

(** One control message takes the whole node down.  A CLOSE for the control
    channel itself (with a right checksum) is answered [ERR_MALFORMED] by
    [handle_cmc_close]; [vllp_rx] has no case for that error and panics.  The
    same happens for a CLOSE of any open channel whose length is not 2. *)
Theorem vllp_malformed_close_panics :
  (s ← Demo.start; Demo.inputs [Demo.syn; 222 :: Demo.cmc_msg [62; 0; 0]] s) = Fault Panic ∧
  (s ← Demo.start; Demo.inputs [Demo.syn; 222 :: Demo.cmc_msg [62; 0]] s) = Fault Panic.
Proof. split; vm_compute; reflexivity. Qed.

(** A reconnect keeps the control channel's half-received message.  A peer
    that restarts in the middle of a two-fragment OPEN and connects again sends
    a correct OPEN, but the old fragment is still queued in front of it, so the
    checksum is wrong and the new connection is dropped at once; without the stale
    fragment the same frames open the channel. *)
Theorem vllp_reconnect_keeps_fragment :
  Demo.status (s ← Demo.start; Demo.inputs
    [Demo.syn; 206 :: take 7 Demo.open_echo; Demo.syn;
     206 :: take 7 Demo.open_echo; 94 :: drop 7 Demo.open_echo] s) = Ret (false, [14]) ∧
  Demo.status (s ← Demo.start; Demo.inputs
    [Demo.syn; Demo.syn; 206 :: take 7 Demo.open_echo; 94 :: drop 7 Demo.open_echo] s) = Ret (true, [3; 14]).
Proof. split; vm_compute; reflexivity. Qed.

(** A message longer than one buffer cannot be received.  When the last buffer
    of the queue is full, the test that should allocate the next one
    ([to_copy > len], with [to_copy] the minimum of [len] and the room) is never
    true: the fragment is accepted, its length is added to the packet's, and
    none of its bytes is stored. *)
Theorem vllp_full_buffer_drops {App} (w : world App) b data :
  pb_ok b → pb_buflen b = PBUF_DATA_SIZE →
  ∃ b', store_fragment [b] data w = Ret (Some [b'], w) ∧ window b' = window b ∧
    pb_pktlen b' = u16 (pb_pktlen b + Z.of_nat (length data)).
Proof.
  intros [Hm _ _ _ _ _] Hfull. unfold store_fragment. cbn [last]. rewrite Hfull, Z.sub_diag.
  rewrite (Z.min_l 0) by lia. rewrite (proj2 (Z.ltb_ge _ 0)) by lia.
  change (take (Z.to_nat 0) data) with ([] : list Z).
  eexists. split.
  { unfold mbind, M_bind, mret, M_ret, lift. cbn -[wr u16 Z.of_nat PBUF_DATA_SIZE].
    rewrite wr_ok; [|unfold PBUF_DATA_SIZE; lia|rewrite Hm; unfold PBUF_DATA_SIZE; cbn [length]; lia].
    cbn -[u16 Z.of_nat PBUF_DATA_SIZE]. reflexivity. }
  split; [|done]. unfold window. cbn -[u16 Z.of_nat PBUF_DATA_SIZE]. rewrite Hfull.
  f_equal. f_equal. rewrite Nat.add_0_r. apply take_drop.
Qed.

(** A close that finds no buffer is lost.  [vllp_tx_close] takes the channel
    off the list of established channels before it asks for a buffer, so when it
    fails, and [vllp_maybe_tx] goes on to retry later, there is nothing left that
    would: the channel is not in the list that later calls walk. *)
Theorem vllp_close_not_retried {App} crc (w : world App) h vc :
  w_chans w !! h = Some vc → connected (w_v w) = true → pp_avail (pbufs (w_nm w)) < 2 →
  ∃ w', vllp_tx_close crc h w = Ret (ERR_NO_BUFFER, w') ∧ h ∉ established_channels (w_v w').
Proof.
  intros Hc Hcon Hav. unfold vllp_tx_close.
  set (w1 := mk_world (set_established (list_remove h (established_channels (w_v w))) (w_v w))
               (w_chans w) (w_nm w) (w_now w) (w_out w)).
  set (w2 := with_chan w1 h (set_state VLLP_CHANNEL_STATE_CLOSED_SENT vc) (w_nm w)).
  exists w2. split.
  { rewrite (bind_ok (mod_v _) _ w tt w1) by done.
    rewrite (bind_ok (mod_chan _ _) _ w1 tt w2)
      by (unfold mod_chan, mbind, M_bind, get_chan; cbn [w_chans w1]; by rewrite Hc).
    rewrite (bind_ok get_v _ w2 (w_v w2) w2) by done. cbn [w_v w2 w1 with_chan set_established connected].
    rewrite Hcon. cbn [negb]. rewrite (bind_ok (pbuf_make 0) _ w2 [] w2); [done|].
    unfold pbuf_make, with_nm, pbuf_make0, pbuf_make_irq_blocked0, get_both, pbuf_get0, pbuf_pool_get.
    cbn [w_nm w2 with_chan negb]. rewrite (proj2 (Z.ltb_lt _ _)) by lia. cbn. by destruct (w_nm w). }
  cbn. unfold list_remove. rewrite list_elem_of_filter. by intros [? _].
Qed.

(** ** Witnesses *)

Module Wit.
Definition chan (app : option Demo.App) (id iv : Z) : channel Demo.App :=
  mk_channel [] [] app (mk_pushpull 508 0) iv iv id VLLP_CHANNEL_STATE_ESTABLISHED 0 false.
Definition w : world Demo.App :=
  mk_world (mk_vllp [2; 1] [1; 2] None None None [] 0 0 1 77 66 9 2 65535 65535 65535 true 64 8 10)
    {[ 1 := chan None 14 5; 2 := chan (Some []) 3 7 ]} Demo.nm0 0 [].
Definition pb (a : Z) (bs : list Z) : pbuf :=
  mk_pbuf (16 * a) 3 0 (Z.of_nat (length bs)) 0 (Z.of_nat (length bs))
    (mk_dbuf (512 * a) (bs ++ replicate (512 - length bs) 0)).

Lemma nm_wit : nm_ok Demo.nm0 ∧ spare Demo.nm0.
Proof.
  split; [|split; vm_compute; congruence].
  split; [|split]; [split..|]; try reflexivity; repeat constructor.
Qed.

Lemma rcv_wit : receiving w 3 2 (chan (Some []) 3 7) [].
Proof. split; [apply nm_wit|reflexivity|reflexivity|reflexivity|by left]. Qed.

Lemma packet_wit : packet [pb 20 [10; 20; 30]] ∧ packet [pb 21 [0]].
Proof.
  split; (split; [apply Forall_singleton; split; vm_compute; congruence || reflexivity|]); split; vm_compute; congruence || reflexivity.
Qed.
End Wit.

Lemma vllp_receive_message_witness :
  ∃ pb nm w', mapM (λ u, vllp_channel_receive Demo.fn Demo.services Demo.xalloc crc32 3 (frame_bytes u))
      ([(3, [1; 2; 3])] ++ [(19, 4 :: le32 (not32 (crc32 7 [1; 2; 3; 4])))]) Wit.w = Ret ([0; 0], w') ∧
    payload pb = [1; 2; 3; 4] ∧
    delivered Demo.fn Wit.w w' 2 (Wit.chan (Some []) 3 7) [] pb nm.
Proof.
  pose proof (vllp_receive_message Demo.fn Demo.services Demo.xalloc crc32 Wit.w 3 2
    (Wit.chan (Some []) 3 7) [] [(3, [1; 2; 3])] (19, 4 :: le32 (not32 (crc32 7 [1; 2; 3; 4])))
    Wit.rcv_wit) as H.
  cbv zeta in H. rewrite bool_decide_eq_true_2 in H by (vm_compute; reflexivity).
  destruct H as (pb & nm & w' & E & _ & _ & _ & Hp & Hd);
    [vm_compute; congruence|reflexivity|apply Wit.nm_wit|reflexivity|by apply Forall_singleton|reflexivity|cbn; lia|].
  exists pb, nm, w'. split_and!; [exact E|exact Hp|exact Hd].
Defined.

Lemma vllp_message_roundtrip_witness :
  ∃ l w1' frames us pb' nm w2',
    (_ ← vllp_channel_tx crc32 2 ([] ++ [Wit.pb 20 [10; 20; 30]]) [Wit.pb 21 [0]];
     mapM vllp_ack_payload [[Wit.pb 21 [0]]]) Wit.w = Ret (l, w1') ∧
    w_out w1' = Emit 66 <$> frames ∧ mapM (λ f, unpad (payload f)) frames = Some us ∧
    mapM (vllp_channel_receive Demo.fn Demo.services Demo.xalloc crc32 3) us Wit.w = Ret (replicate (length us) 0, w2') ∧
    payload pb' = [10; 20; 30] ∧ delivered Demo.fn Wit.w w2' 2 (Wit.chan (Some []) 3 7) [] pb' nm.
Proof.
  destruct (vllp_message_roundtrip Demo.fn Demo.services Demo.xalloc crc32 Wit.w Wit.w 2
    (Wit.chan (Some []) 3 7) [] (Wit.pb 20 [10; 20; 30]) [Wit.pb 21 [0]] [[Wit.pb 21 [0]]] 2
    (Wit.chan (Some []) 3 7) []) as (l & w1' & frames & us & pb' & nm & w2' & E & _ & Ho & _ & Eu & Er & Hp & _ & Hd);
    [apply Wit.nm_wit|reflexivity|apply Wit.packet_wit
    |vm_compute; do 3 (apply Forall_cons_2; [split; congruence|]); apply Forall_nil_2
    |vm_compute; congruence|vm_compute; lia|vm_compute; split; congruence|vm_compute; split; congruence
    |vm_compute; repeat constructor
    |apply Wit.packet_wit|done|apply Forall_singleton; split; [apply Wit.packet_wit|done]
    |vm_compute; reflexivity|apply Wit.rcv_wit|vm_compute; congruence|reflexivity|apply Wit.nm_wit
    |reflexivity|vm_compute; split; congruence|reflexivity|].
  exists l, w1', frames, us, pb', nm, w2'. split_and!; [exact E|exact Ho|exact Eu|exact Er|exact Hp|exact Hd].
Defined.

Lemma vllp_full_buffer_drops_witness :
  ∃ b', store_fragment [Wit.pb 20 (replicate 512 7)] [1; 2; 3] Wit.w = Ret (Some [b'], Wit.w) ∧
    window b' = window (Wit.pb 20 (replicate 512 7)) ∧ pb_pktlen b' = 515.
Proof.
  apply (vllp_full_buffer_drops Wit.w (Wit.pb 20 (replicate 512 7)) [1; 2; 3]);
    [split; vm_compute; congruence || reflexivity|reflexivity].
Defined.

Lemma vllp_close_not_retried_witness :
  ∃ w', vllp_tx_close crc32 2 (set_nm (mk_netmem (mk_pool [] 0 0 0) (mk_pool [] 0 0 0)) Wit.w)
    = Ret (ERR_NO_BUFFER, w') ∧ 2 ∉ established_channels (w_v w').
Proof.
  apply (vllp_close_not_retried crc32 (set_nm (mk_netmem (mk_pool [] 0 0 0) (mk_pool [] 0 0 0)) Wit.w) 2
    (Wit.chan (Some []) 3 7)); [reflexivity|reflexivity|vm_compute; reflexivity].
Defined.
