(* ===== verification/VllpArq.v ===== *)
(** * VllpArq: the alternating-bit acknowledgement of VLLP ([src/net/vllp.c])

    Every VLLP frame carries the sender's S bit (which fragment this is) and E bit
    (which fragment it expects next).  This file states what that buys as an
    abstract protocol: two endpoints that follow the rules of [vllp_rx] on the
    two bits, joined by links that lose and repeat frames but keep their order,
    as a CAN bus does.  The invariant of the protocol gives exactly-once, in-order
    delivery of fragments in both directions.  The second part is the refinement:
    the operations of [Vllp] move the two bits and the state of the fragment
    being sent as the abstract endpoint does. *)

From Stdlib Require Import ZArith Lia.
From stdpp Require Import base list numbers gmap strings sorting.
From S2P Require Import Prelude Crc Pbuf Vllp VllpLink.

Open Scope Z_scope.

(** ** The endpoint rules *)

Definition flip (b : bool) (bit se : Z) : Z := if b then Z.lxor se bit else se.

(** The control state of an endpoint: the S and E bits, and whether a fragment
    awaits its acknowledgement.  On a frame with header [hdr] it may take the
    fragment in the frame ([acc]) and, once nothing is outstanding, start the next
    fragment of its own ([start]). *)
Definition ctl : Type := Z * bool.
Definition still_busy (hdr : Z) (c : ctl) : bool := (c.2 && negb (peer_accepted hdr c.1))%bool.
Definition ctl_recv (hdr : Z) (acc start : bool) (c : ctl) : ctl :=
  (flip start VLLP_HDR_S (flip acc VLLP_HDR_E c.1), (start || still_busy hdr c)%bool).
Definition recv_allowed (hdr : Z) (data acc start : bool) (c : ctl) : Prop :=
  (acc = true → data = true ∧ we_can_accept hdr c.1 = true) ∧
  (start = true → still_busy hdr c = false).

(** ** The system *)

Section System.
Context {F : Type}.   (* fragments *)

Record ep := mk_ep {
  e_ctl : ctl;
  e_started : list F;      (* the fragments this side has sent, in order *)
  e_delivered : list F;    (* the fragments it has taken from its peer, in order *)
}.

(** A frame: its header byte and, unless it is an ACK, its fragment. *)
Definition frm : Type := Z * option F.

(** What an endpoint puts on the wire: its bits with the outstanding fragment, or
    without. *)
Definition may_emit (e : ep) (f : frm) : Prop :=
  Z.land f.1 192 = Z.land (e_ctl e).1 192 ∧
  match f.2 with
  | None => True
  | Some x => (e_ctl e).2 = true ∧ last (e_started e) = Some x
  end.

(** Steps of one endpoint, with the frame received. *)
Inductive ep_step : ep → option frm → ep → Prop :=
| ep_recv e f acc start new :
    recv_allowed f.1 (bool_decide (is_Some f.2)) acc start (e_ctl e) →
    (start = false → new = []) → (start = true → length new = 1%nat) →
    ep_step e (Some f)
      (mk_ep (ctl_recv f.1 acc start (e_ctl e)) (e_started e ++ new)
         (e_delivered e ++ if acc then option_list f.2 else []))
| ep_start e x :
    (e_ctl e).2 = false →
    ep_step e None
      (mk_ep (flip true VLLP_HDR_S (e_ctl e).1, true) (e_started e ++ [x]) (e_delivered e)).

(** The two endpoints and the frames on their way, oldest first. *)
Record sys := mk_sys { sA : ep; sB : ep; fAB : list frm; fBA : list frm }.

Definition swap (s : sys) : sys := mk_sys (sB s) (sA s) (fBA s) (fAB s).

Inductive step_A : sys → sys → Prop :=
| st_start s e : ep_step (sA s) None e → step_A s (mk_sys e (sB s) (fAB s) (fBA s))
| st_emit s f : may_emit (sA s) f → step_A s (mk_sys (sA s) (sB s) (fAB s ++ [f]) (fBA s))
| st_recv s f rest e :
    fBA s = f :: rest → ep_step (sA s) (Some f) e → step_A s (mk_sys e (sB s) (fAB s) rest)
| st_lose s l1 f l2 : fAB s = l1 ++ f :: l2 → step_A s (mk_sys (sA s) (sB s) (l1 ++ l2) (fBA s))
| st_repeat s l1 f l2 :
    fAB s = l1 ++ f :: l2 → step_A s (mk_sys (sA s) (sB s) (l1 ++ f :: f :: l2) (fBA s)).

Inductive step : sys → sys → Prop :=
| step_at_A s s' : step_A s s' → step s s'
| step_at_B s s' : step_A (swap s) s' → step s (swap s').

(** Both sides right after the SYN exchange: E set, nothing outstanding.  (The
    peer in this repository, [host/dsig/vllp.c], starts the same way and applies
    the same two tests to received headers.) *)
Definition ep0 : ep := mk_ep (VLLP_HDR_E, false) [] [].
Definition sys0 : sys := mk_sys ep0 ep0 [] [].

(** ** Bits *)

Lemma bit_set_pow2 z k : 0 <= k → bit_set z (2 ^ k) = Z.testbit z k.
Proof.
  intros Hk. unfold bit_set. destruct (Z.testbit z k) eqn:E.
  - apply negb_true_iff, Z.eqb_neq. intros H0. assert (Z.testbit (Z.land z (2 ^ k)) k = true) as Ht.
    { rewrite Z.land_spec, E, Z.pow2_bits_true by lia. done. }
    by rewrite H0, Z.bits_0 in Ht.
  - apply negb_false_iff, Z.eqb_eq. apply Z.bits_inj'. intros i Hi. rewrite Z.land_spec, Z.bits_0.
    destruct (decide (i = k)) as [->|]; [by rewrite E|]. rewrite Z.pow2_bits_false by lia. apply andb_false_r.
Qed.

Abbreviation Sbit z := (Z.testbit z 7).
Abbreviation Ebit z := (Z.testbit z 6).

Lemma peer_accepted_bits hdr se : peer_accepted hdr se = xorb (Ebit hdr) (Sbit se).
Proof.
  unfold peer_accepted. change VLLP_HDR_E with (2 ^ 6). change VLLP_HDR_S with (2 ^ 7).
  rewrite !bit_set_pow2 by lia. by destruct (Z.testbit hdr 6), (Z.testbit se 7).
Qed.
Lemma we_can_accept_bits hdr se : we_can_accept hdr se = negb (xorb (Sbit hdr) (Ebit se)).
Proof.
  unfold we_can_accept. change VLLP_HDR_E with (2 ^ 6). change VLLP_HDR_S with (2 ^ 7).
  rewrite !bit_set_pow2 by lia. by destruct (Z.testbit hdr 7), (Z.testbit se 6).
Qed.

Lemma flip_S_bits b se : Sbit (flip b VLLP_HDR_S se) = xorb b (Sbit se) ∧ Ebit (flip b VLLP_HDR_S se) = Ebit se.
Proof.
  unfold VLLP_HDR_S. destruct b; cbn [flip]; [|by rewrite xorb_false_l]. rewrite !Z.lxor_spec.
  change (Z.testbit 128 7) with true. change (Z.testbit 128 6) with false. by destruct (Sbit se), (Ebit se).
Qed.
Lemma flip_E_bits b se : Ebit (flip b VLLP_HDR_E se) = xorb b (Ebit se) ∧ Sbit (flip b VLLP_HDR_E se) = Sbit se.
Proof.
  unfold VLLP_HDR_E. destruct b; cbn [flip]; [|by rewrite xorb_false_l]. rewrite !Z.lxor_spec.
  change (Z.testbit 64 7) with false. change (Z.testbit 64 6) with true. by destruct (Sbit se), (Ebit se).
Qed.

Lemma land_192_bits x y : Z.land x 192 = Z.land y 192 → Sbit x = Sbit y ∧ Ebit x = Ebit y.
Proof.
  intros H. split.
  - assert (Z.testbit (Z.land x 192) 7 = Z.testbit (Z.land y 192) 7) as H7 by by rewrite H.
    rewrite !Z.land_spec in H7. change (Z.testbit 192 7) with true in H7. by rewrite !andb_true_r in H7.
  - assert (Z.testbit (Z.land x 192) 6 = Z.testbit (Z.land y 192) 6) as H6 by by rewrite H.
    rewrite !Z.land_spec in H6. change (Z.testbit 192 6) with true in H6. by rewrite !andb_true_r in H6.
Qed.
(** ** The invariant

    Number the fragments of one direction from 1.  [n] have been started, [m]
    delivered.  A frame of that direction has the number [i] of fragments started
    when it was sent, a frame of the other direction the number [j] delivered when
    it was sent.  Read around the loop, from the sender over the wire to the
    receiver and back, these numbers never increase, and the whole loop spans at
    most one fragment: that is why one bit is enough. *)

(** Numbers of the frames on a link, oldest first. *)
Definition numbered (P : frm → nat → Prop) (lo hi : nat) (l : list frm) : Prop :=
  ∃ ns, Forall2 P l ns ∧ StronglySorted le ns ∧ Forall (λ i, lo <= i <= hi)%nat ns.

Definition fwd_ok (started : list F) (f : frm) (i : nat) : Prop :=
  match f.2 with
  | None => True
  | Some x => Sbit f.1 = Nat.odd i ∧ ∃ k, i = S k ∧ started !! k = Some x
  end.
Definition back_ok (f : frm) (j : nat) : Prop := Ebit f.1 = negb (Nat.odd j).

Record dir_inv (tx rx : ep) (fwd back : list frm) : Prop := {
  d_take : e_delivered rx = take (length (e_delivered rx)) (e_started tx);
  d_fwd : numbered (fwd_ok (e_started tx)) (length (e_delivered rx)) (length (e_started tx)) fwd;
  d_back : numbered back_ok (length (e_started tx) - if (e_ctl tx).2 then 1 else 0)
             (length (e_delivered rx)) back;
  d_span : (length (e_started tx) - (if (e_ctl tx).2 then 1 else 0) <= length (e_delivered rx)
            <= length (e_started tx))%nat;
  d_S : Sbit (e_ctl tx).1 = Nat.odd (length (e_started tx));
  d_E : Ebit (e_ctl rx).1 = negb (Nat.odd (length (e_delivered rx)));
}.

(** *** Links *)

Lemma numbered_nil P lo hi : numbered P lo hi [].
Proof. exists []. by repeat constructor. Qed.

Lemma numbered_sub P lo hi l1 l l2 :
  numbered P lo hi (l1 ++ l ++ l2) → numbered P lo hi (l1 ++ l2).
Proof.
  intros (ns & H2 & Hs & Hf). apply Forall2_app_inv_l in H2 as (n1 & n23 & H1 & H23 & ->).
  apply Forall2_app_inv_l in H23 as (n2 & n3 & H2 & H3 & ->). exists (n1 ++ n3).
  rewrite !Forall_app in Hf. split; [by apply Forall2_app|]. split; [|rewrite Forall_app; tauto].
  clear -Hs. induction n1 as [|x n1 IH]; cbn in *.
  - by apply StronglySorted_app_1_r in Hs.
  - apply StronglySorted_cons in Hs as [Hx Hs]. apply StronglySorted_cons. rewrite !Forall_app in *. split; [tauto|by apply IH].
Qed.

Lemma numbered_repeat P lo hi l1 f l2 :
  numbered P lo hi (l1 ++ f :: l2) → numbered P lo hi (l1 ++ f :: f :: l2).
Proof.
  intros (ns & H2 & Hs & Hf). apply Forall2_app_inv_l in H2 as (n1 & n23 & H1 & H23 & ->).
  apply Forall2_cons_inv_l in H23 as (i & n3 & Hi & H3 & ->). exists (n1 ++ i :: i :: n3).
  rewrite !Forall_app, !Forall_cons in Hf. split; [by apply Forall2_app; [|constructor; [|constructor]]|].
  split; [|rewrite !Forall_app, !Forall_cons; tauto].
  clear -Hs. induction n1 as [|x n1 IH]; cbn in *.
  - apply StronglySorted_cons. split; [|done]. apply StronglySorted_cons in Hs as [Hx _]. by constructor.
  - apply StronglySorted_cons in Hs as [Hx Hs]. apply StronglySorted_cons.
    rewrite !Forall_app, !Forall_cons in *. split; [tauto|by apply IH].
Qed.

Lemma numbered_snoc P lo hi l f :
  numbered P lo hi l → (lo <= hi)%nat → P f hi → numbered P lo hi (l ++ [f]).
Proof.
  intros (ns & H2 & Hs & Hf) Hle Hp. exists (ns ++ [hi]). split; [by apply Forall2_app; [|repeat constructor]|].
  split; [|rewrite Forall_app, Forall_singleton; split; [done|lia]].
  clear -Hs Hf. induction ns as [|x ns IH]; cbn; [repeat constructor|].
  apply Forall_cons in Hf as [Hx Hf]. apply StronglySorted_cons in Hs as [Hxs Hs].
  apply StronglySorted_cons. rewrite Forall_app, Forall_singleton. split; [split; [done|lia]|by apply IH].
Qed.

(** Taking the oldest frame off: its number bounds the rest from below. *)
Lemma numbered_pop P lo hi f l :
  numbered P lo hi (f :: l) → ∃ i, P f i ∧ (lo <= i <= hi)%nat ∧ numbered P i hi l.
Proof.
  intros (ns & H2 & Hs & Hf). apply Forall2_cons_inv_l in H2 as (i & n3 & Hi & H3 & ->).
  apply Forall_cons in Hf as [Hr Hf]. apply StronglySorted_cons in Hs as [Hx Hs].
  exists i. split; [done|]. split; [done|]. exists n3. split; [done|]. split; [done|].
  rewrite Forall_forall in *. intros k Hk. specialize (Hf k Hk). specialize (Hx k Hk). lia.
Qed.

Lemma numbered_weaken (P Q : frm → nat → Prop) lo hi lo' hi' l :
  numbered P lo hi l → (lo' <= lo)%nat → (hi <= hi')%nat → (∀ f i, P f i → Q f i) → numbered Q lo' hi' l.
Proof.
  intros (ns & H2 & Hs & Hf) Hlo Hhi HPQ. exists ns. split; [by eapply Forall2_impl|]. split; [done|].
  rewrite Forall_forall in *. intros k Hk. specialize (Hf k Hk). lia.
Qed.

Lemma fwd_ok_app started x f i : fwd_ok started f i → fwd_ok (started ++ x) f i.
Proof.
  unfold fwd_ok. destruct f.2; [|done]. intros (? & k & -> & Hk). split; [done|].
  exists k. split; [done|]. by apply lookup_app_l_Some.
Qed.
(** *** Steps *)

(** Only this much of each endpoint matters to a direction. *)
Lemma dir_inv_ext tx tx' rx rx' fwd back :
  dir_inv tx rx fwd back →
  e_started tx' = e_started tx → (e_ctl tx').2 = (e_ctl tx).2 → Sbit (e_ctl tx').1 = Sbit (e_ctl tx).1 →
  e_delivered rx' = e_delivered rx → Ebit (e_ctl rx').1 = Ebit (e_ctl rx).1 →
  dir_inv tx' rx' fwd back.
Proof. intros [? ? ? ? ? ?] E1 E2 E3 E4 E5. split; rewrite ?E1, ?E2, ?E3, ?E4, ?E5; done. Qed.

Lemma dir_links tx rx fwd back fwd' back' :
  dir_inv tx rx fwd back →
  (∀ P lo hi, numbered P lo hi fwd → numbered P lo hi fwd') →
  (∀ P lo hi, numbered P lo hi back → numbered P lo hi back') → dir_inv tx rx fwd' back'.
Proof. intros [? ? ? ? ? ?] H1 H2. split; auto. Qed.

Lemma odd_S n : Nat.odd (S n) = negb (Nat.odd n).
Proof. rewrite Nat.odd_succ, <- Nat.negb_odd. done. Qed.

Lemma dir_start tx rx fwd back x :
  dir_inv tx rx fwd back → (e_ctl tx).2 = false →
  dir_inv (mk_ep (flip true VLLP_HDR_S (e_ctl tx).1, true) (e_started tx ++ [x]) (e_delivered tx))
    rx fwd back.
Proof.
  intros [Ht Hf Hb Hsp HS HE] Hbusy. rewrite Hbusy in *.
  split; cbn [e_ctl e_started e_delivered fst snd]; rewrite ?length_app; cbn [length].
  - rewrite take_app_le by lia. done.
  - eapply numbered_weaken; [exact Hf|lia|lia|]. intros f i. apply fwd_ok_app.
  - eapply numbered_weaken; [exact Hb|lia|lia|done].
  - lia.
  - rewrite (proj1 (flip_S_bits true _)), HS, Nat.add_1_r, odd_S. done.
  - done.
Qed.

Lemma dir_emit_fwd tx rx fwd back f :
  dir_inv tx rx fwd back → may_emit tx f → dir_inv tx rx (fwd ++ [f]) back.
Proof.
  intros [Ht Hf Hb Hsp HS HE] [Hbits Hdata]. split; try done.
  apply numbered_snoc; [done|lia|]. unfold fwd_ok. destruct f.2 as [x|]; [|done].
  destruct Hdata as [Hbusy Hlast]. destruct (land_192_bits _ _ Hbits) as [-> _]. split; [done|].
  apply last_Some in Hlast as [l ->]. exists (length l). rewrite length_app. cbn. split; [lia|].
  rewrite lookup_app_r, Nat.sub_diag by lia. done.
Qed.

Lemma dir_emit_back tx rx fwd back f :
  dir_inv tx rx fwd back → may_emit rx f → dir_inv tx rx fwd (back ++ [f]).
Proof.
  intros [Ht Hf Hb Hsp HS HE] [Hbits _]. split; try done.
  apply numbered_snoc; [done|lia|]. unfold back_ok. destruct (land_192_bits _ _ Hbits) as [_ ->]. done.
Qed.

(** Two numbers at most one apart are equal when their parities are. *)
Lemma parity_eq i j : (i <= j <= S i)%nat → Nat.odd i = Nat.odd j → i = j.
Proof.
  intros Hr Ho. destruct (decide (j = S i)) as [->|]; [|lia]. rewrite odd_S in Ho. by destruct (Nat.odd i).
Qed.

(** The receiver takes a fragment exactly when it is the next one. *)
Lemma dir_recv_fwd tx rx rx' f fwd back (acc : bool) :
  dir_inv tx rx (f :: fwd) back →
  (acc = true → is_Some f.2 ∧ we_can_accept f.1 (e_ctl rx).1 = true) →
  e_delivered rx' = e_delivered rx ++ (if acc then option_list f.2 else []) →
  Ebit (e_ctl rx').1 = xorb acc (Ebit (e_ctl rx).1) →
  dir_inv tx rx' fwd back.
Proof.
  intros [Ht Hf Hb Hsp HS HE] Hacc Hd' HE'. destruct (numbered_pop _ _ _ _ _ Hf) as (i & Hi & Hr & Hrest).
  destruct acc.
  - destruct Hacc as [[x Hx] Hcan]; [done|]. rewrite Hx in Hd'. cbn [option_list] in Hd'.
    unfold fwd_ok in Hi. rewrite Hx in Hi. destruct Hi as (HSi & k & -> & Hk).
    rewrite we_can_accept_bits, HSi, HE in Hcan.
    assert (S k = S (length (e_delivered rx))) as Ek.
    { destruct (decide (S k = length (e_delivered rx))) as [E|E]; [|destruct ((e_ctl tx).2); lia].
      rewrite <- E in Hcan. by destruct (Nat.odd (S k)). }
    injection Ek as ->. split; rewrite ?Hd', ?length_app; cbn [length]; rewrite ?Nat.add_1_r.
    + rewrite (take_S_r _ _ x) by done. by rewrite <- Ht.
    + done.
    + eapply numbered_weaken; [exact Hb|lia|lia|done].
    + apply lookup_lt_Some in Hk. lia.
    + done.
    + rewrite HE', HE, odd_S. by destruct (Nat.odd _).
  - rewrite app_nil_r in Hd'. rewrite xorb_false_l in HE'. split; rewrite ?Hd'; try done; [|by rewrite HE'].
    eapply numbered_weaken; [exact Hrest|lia|lia|done].
Qed.

(** The sender counts its fragment as taken exactly when it was. *)
Lemma dir_recv_back tx tx' rx f fwd back :
  dir_inv tx rx fwd (f :: back) → e_started tx' = e_started tx →
  (e_ctl tx').2 = still_busy f.1 (e_ctl tx) → Sbit (e_ctl tx').1 = Sbit (e_ctl tx).1 →
  dir_inv tx' rx fwd back.
Proof.
  intros [Ht Hf Hb Hsp HS HE] E1 E2 E3. destruct (numbered_pop _ _ _ _ _ Hb) as (j & Hj & Hr & Hrest).
  unfold still_busy in E2. destruct (e_ctl tx).2.
  - cbn [andb] in E2. rewrite peer_accepted_bits, HS in E2. unfold back_ok in Hj. rewrite Hj in E2.
    destruct (decide (j = length (e_started tx))) as [->|Hne].
    + assert ((e_ctl tx').2 = false) as E2' by (rewrite E2; by destruct (Nat.odd _)).
      split; rewrite ?E1, ?E2', ?E3; try done; [|lia]. eapply numbered_weaken; [exact Hrest|lia|lia|done].
    + assert ((e_ctl tx').2 = true) as E2'.
      { rewrite E2. destruct (Nat.odd j) eqn:Oj, (Nat.odd (length (e_started tx))) eqn:On; try done.
        - exfalso. apply Hne, parity_eq; [lia|congruence].
        - exfalso. apply Hne, parity_eq; [lia|congruence]. }
      split; rewrite ?E1, ?E2', ?E3; try done. eapply numbered_weaken; [exact Hrest|lia|lia|done].
  - cbn [andb] in E2. split; rewrite ?E1, ?E2, ?E3; try done. eapply numbered_weaken; [exact Hrest|lia|lia|done].
Qed.

(** *** The system *)

Definition inv (s : sys) : Prop :=
  dir_inv (sA s) (sB s) (fAB s) (fBA s) ∧ dir_inv (sB s) (sA s) (fBA s) (fAB s).

Lemma inv0 : inv sys0.
Proof. split; (split; [done|apply numbered_nil|apply numbered_nil|cbn; lia|done|done]). Qed.

Lemma inv_recv s f rest e :
  inv s → fBA s = f :: rest → ep_step (sA s) (Some f) e → inv (mk_sys e (sB s) (fAB s) rest).
Proof.
  intros [HA HB] Ef Hstep. rewrite Ef in *. inversion Hstep as [e0 f0 acc start new Hal Hn0 Hn1|]; subst.
  destruct Hal as [Hacc Hstart]. set (eA := sA s) in *.
  set (e1 := mk_ep (ctl_recv f.1 acc false (e_ctl eA)) (e_started eA)
    (e_delivered eA ++ if acc then option_list f.2 else [])).
  assert (dir_inv e1 (sB s) (fAB s) rest) as HA1.
  { eapply dir_recv_back; [exact HA|done|done|]. apply (proj2 (flip_E_bits acc (e_ctl eA).1)). }
  assert (dir_inv (sB s) e1 rest (fAB s)) as HB1.
  { eapply dir_recv_fwd; [exact HB| |done|].
    - intros ->. destruct Hacc as [Hd Hc]; [done|]. split; [by apply bool_decide_eq_true in Hd|done].
    - apply (proj1 (flip_E_bits acc (e_ctl eA).1)). }
  destruct start; [|rewrite (Hn0 eq_refl), app_nil_r; by split].
  destruct new as [|x [|]]; try by specialize (Hn1 eq_refl). split; cbn [sA sB fAB fBA].
  - apply (dir_start e1 _ _ _ x) in HA1; [exact HA1|]. cbn. by apply Hstart.
  - eapply dir_inv_ext; [exact HB1|done..|].
    apply (proj2 (flip_S_bits true (flip acc VLLP_HDR_E (e_ctl eA).1))).
Qed.

Lemma inv_step_A s s' : inv s → step_A s s' → inv s'.
Proof.
  intros Hinv Hst. destruct Hst as [s e He|s f Hf|s f rest e Ef He|s l1 f l2 El|s l1 f l2 El].
  - inversion He as [|e0 x Hb]; subst. destruct Hinv as [HA HB]. split; cbn [sA sB fAB fBA].
    + by apply dir_start.
    + eapply dir_inv_ext; [exact HB|done..|]. apply (proj2 (flip_S_bits true (e_ctl (sA s)).1)).
  - destruct Hinv as [HA HB]. split; cbn [sA sB fAB fBA]; [by apply dir_emit_fwd|by apply dir_emit_back].
  - by eapply inv_recv.
  - destruct Hinv as [HA HB]. rewrite El in *.
    split; (eapply dir_links; [eassumption| |]); cbn; try done; intros P lo hi; by apply (numbered_sub _ _ _ l1 [f]).
  - destruct Hinv as [HA HB]. rewrite El in *.
    split; (eapply dir_links; [eassumption| |]); cbn; try done; intros P lo hi; by apply numbered_repeat.
Qed.

Lemma inv_step s s' : inv s → step s s' → inv s'.
Proof.
  intros Hinv Hstep. destruct Hstep as [s1 s2 Hst|s1 s2 Hst]; [by eapply inv_step_A|].
  assert (inv s2) as [H1 H2]; [|by split]. eapply inv_step_A; [|exact Hst]. destruct Hinv. by split.
Qed.

Lemma inv_reachable s : rtc step sys0 s → inv s.
Proof. intros H. pattern s. eapply rtc_ind_r; [apply inv0| |exact H]. intros. by eapply inv_step. Qed.
End System.

(** ** Exactly once, in order *)

(** C3: over links that lose and repeat frames (and keep their order), two
    endpoints that follow the rules of [vllp_rx] on the S and E bits deliver, in
    each direction, exactly the fragments that were sent, in order and once each:
    at every moment what was delivered is what was started, up to the one fragment
    that is still outstanding, and with nothing outstanding the two are equal. *)
Theorem vllp_arq_exactly_once {F} (s : @sys F) :
  rtc step sys0 s →
  ∀ tx rx, (tx = sA s ∧ rx = sB s) ∨ (tx = sB s ∧ rx = sA s) →
  ∃ rest, e_started tx = e_delivered rx ++ rest ∧
    (length rest <= 1)%nat ∧ ((e_ctl tx).2 = false → rest = []).
Proof.
  intros Hr tx rx Hends. assert (∃ fwd back, dir_inv tx rx fwd back) as (fwd & back & [Ht _ _ Hsp _ _]).
  { destruct (inv_reachable s Hr) as [HA HB]. destruct Hends as [[-> ->]|[-> ->]]; eauto. }
  exists (drop (length (e_delivered rx)) (e_started tx)). rewrite length_drop. split_and!.
  - rewrite Ht at 1. by rewrite take_drop.
  - destruct (e_ctl tx).2; lia.
  - intros Hb. rewrite Hb in Hsp. apply drop_ge. lia.
Qed.

(** ** Refinement: the operations of [Vllp] follow the rules *)

(** The control state of a connection. *)
Definition ctl_of {App} (w : world App) : ctl :=
  (SE (w_v w), match current_tx_buf (w_v w) with [] => false | _ => true end).

Create HintDb keeps.

Section Refine.
Context {App : Type} (fn : app_fn App) (services : list (service App)).
Context (xalloc : gmap Z (channel App) → option Z) (crc : Z → list Z → Z).

(** Operations that move neither the bits, nor the outstanding fragment, nor the
    connection. *)
Definition kept (w w' : world App) : Prop :=
  ctl_of w' = ctl_of w ∧ connected (w_v w') = connected (w_v w).
Definition keeps {A} (m : M App A) : Prop := ∀ w a w', m w = Ret (a, w') → kept w w'.

Lemma kept_trans w1 w2 w3 : kept w1 w2 → kept w2 w3 → kept w1 w3.
Proof. intros [E1 E2] [E3 E4]. split; congruence. Qed.

Lemma keeps_bind {A B} (m : M App A) (k : A → M App B) :
  keeps m → (∀ a, keeps (k a)) → keeps (m ≫= k).
Proof.
  intros Hm Hk w b w'' (a & w' & E1 & E2)%bind_inv.
  eapply kept_trans; [by eapply Hm|by eapply Hk].
Qed.

Lemma keeps_ret {A} (a : A) : keeps (mret a).
Proof. by intros w a' w' [= _ <-]. Qed.
Lemma keeps_lift {A} (r : res A) : keeps (lift r).
Proof. intros w a w'. unfold lift. destruct r; [|done]. by intros [= _ <-]. Qed.
Lemma keeps_with_nm {A} (f : netmem → res (A * netmem)) : keeps (with_nm f).
Proof. intros w a w'. unfold with_nm. destruct (f (w_nm w)) as [[]|]; [|done]. by intros [= _ <-]. Qed.
Lemma keeps_mod_v f :
  (∀ v, SE (f v) = SE v ∧ current_tx_buf (f v) = current_tx_buf v ∧ connected (f v) = connected v) →
  keeps (mod_v f).
Proof.
  intros Hf w a w' [= _ <-]. destruct (Hf (w_v w)) as (E1 & E2 & E3). unfold kept, ctl_of. cbn.
  by rewrite E1, E2, E3.
Qed.

Lemma keeps_get_v : keeps get_v.
Proof. by intros w a w' [= _ <-]. Qed.
Lemma keeps_clock_get : keeps clock_get.
Proof. by intros w a w' [= _ <-]. Qed.
Lemma keeps_get_chans : keeps get_chans.
Proof. by intros w a w' [= _ <-]. Qed.
Lemma keeps_get_chan h : keeps (get_chan h).
Proof. intros w a w'. unfold get_chan. destruct (w_chans w !! h); [|done]. by intros [= _ <-]. Qed.
Lemma keeps_put_chan h vc : keeps (put_chan h vc).
Proof. by intros w a w' [= _ <-]. Qed.
Lemma keeps_free_chan h : keeps (free_chan h).
Proof. by intros w a w' [= _ <-]. Qed.
Lemma keeps_output e : keeps (output e).
Proof. by intros w a w' [= _ <-]. Qed.
End Refine.

#[export] Hint Resolve keeps_ret keeps_lift keeps_with_nm keeps_get_v keeps_clock_get keeps_get_chans
  keeps_get_chan keeps_put_chan keeps_free_chan keeps_output : keeps.

(** Through a monadic program: every call keeps, on every branch. *)
Ltac keeps :=
  repeat first
    [ progress intros | solve [eauto with keeps] | apply keeps_bind
    | (apply keeps_mod_v; intros; done) | case_match ].

Section Operations.
Context {App : Type} (fn : app_fn App) (services : list (service App)).
Context (xalloc : gmap Z (channel App) → option Z) (crc : Z → list Z → Z).

Lemma keeps_mod_chan h f : keeps (mod_chan (App := App) h f).
Proof. unfold mod_chan. keeps. Qed.
Hint Resolve keeps_mod_chan : keeps.
Lemma keeps_free_pbufs c : keeps (free_pbufs (App := App) c).
Proof. unfold free_pbufs. keeps. Qed.
Lemma keeps_pbuf_make o : keeps (pbuf_make (App := App) o).
Proof. unfold pbuf_make. keeps. Qed.
Hint Resolve keeps_free_pbufs keeps_pbuf_make : keeps.
Lemma keeps_frame_buffer pb : keeps (frame_buffer (App := App) pb).
Proof. unfold frame_buffer. keeps. Qed.
Hint Resolve keeps_frame_buffer : keeps.
Lemma keeps_arm set d :
  (∀ x v, SE (set x v) = SE v ∧ current_tx_buf (set x v) = current_tx_buf v ∧ connected (set x v) = connected v) →
  keeps (arm (App := App) set d).
Proof. intros H. unfold arm. apply keeps_bind; [keeps|]. intros now. apply keeps_mod_v, H. Qed.
Lemma keeps_arm_ack d : keeps (arm (App := App) set_ack_timer d).
Proof. by apply keeps_arm. Qed.
Lemma keeps_arm_rtx d : keeps (arm (App := App) set_rtx_timer d).
Proof. by apply keeps_arm. Qed.
Lemma keeps_arm_timeout d : keeps (arm (App := App) set_timeout_timer d).
Proof. by apply keeps_arm. Qed.
Hint Resolve keeps_arm_ack keeps_arm_rtx keeps_arm_timeout : keeps.

Lemma keeps_gen_crc : keeps (vllp_gen_channel_crc (App := App) crc).
Proof. unfold vllp_gen_channel_crc. keeps. Qed.
Lemma keeps_destroy h : keeps (vllp_channel_destroy (App := App) h).
Proof. unfold vllp_channel_destroy. keeps. Qed.
Hint Resolve keeps_gen_crc keeps_destroy : keeps.
Lemma keeps_maybe_destroy h : keeps (vllp_channel_maybe_destroy (App := App) h).
Proof. unfold vllp_channel_maybe_destroy. keeps. Qed.
Hint Resolve keeps_maybe_destroy : keeps.
Lemma keeps_make id : keeps (vllp_channel_make xalloc id).
Proof. unfold vllp_channel_make. keeps. Qed.
Lemma keeps_find id : keeps (vllp_channel_find (App := App) id).
Proof.
  unfold vllp_channel_find. apply keeps_bind; [keeps|]. intros v. generalize (channels v).
  intros l. induction l as [|h l IH]; cbn [find_channel]; keeps.
Qed.
Lemma keeps_refresh : keeps (vllp_refresh_local_flow_status fn).
Proof.
  unfold vllp_refresh_local_flow_status. apply keeps_bind; [keeps|]. intros v. apply keeps_bind; [|keeps].
  generalize (channels v). generalize 65535. intros bits l. revert bits.
  induction l as [|h l IH]; intros bits; cbn [flow_bits]; keeps.
Qed.
Hint Resolve keeps_make keeps_find keeps_refresh : keeps.
Lemma keeps_tx_ack pb : keeps (vllp_tx_ack (App := App) crc pb).
Proof. unfold vllp_tx_ack, dsig_emit_pbuf. keeps. Qed.
Lemma keeps_net_close h why : keeps (vllp_channel_net_close fn h why).
Proof. unfold vllp_channel_net_close. keeps. Qed.
Hint Resolve keeps_tx_ack keeps_net_close : keeps.
Lemma keeps_send_cmc h pb op ch err : keeps (send_cmc_message (App := App) h pb op ch err).
Proof. unfold send_cmc_message. keeps. Qed.
Lemma keeps_cmc_open ch name : keeps (handle_cmc_open services xalloc crc ch name).
Proof. unfold handle_cmc_open. keeps. Qed.
Lemma keeps_cmc_close h pb ch data : keeps (handle_cmc_close fn h pb ch data).
Proof. unfold handle_cmc_close. keeps. Qed.
Hint Resolve keeps_send_cmc keeps_cmc_open keeps_cmc_close : keeps.
Lemma keeps_handle_cmc h pb : keeps (handle_cmc fn services xalloc crc h pb).
Proof. unfold handle_cmc. keeps. Qed.
Lemma keeps_store_fragment rxq data : keeps (store_fragment (App := App) rxq data).
Proof. unfold store_fragment. keeps. Qed.
Hint Resolve keeps_handle_cmc keeps_store_fragment : keeps.
Lemma keeps_push h vc app pb :
  keeps (λ w, let '(events, app, nm) := push fn app pb (w_nm w) in
    Ret (events, mk_world (w_v w) (<[h := set_app (Some app) vc]> (w_chans w)) nm (w_now w) (w_out w))).
Proof. intros w a w' E. destruct (push fn app pb (w_nm w)) as [[events app'] nm]. by injection E as _ <-. Qed.
Lemma keeps_pull h vc app :
  keeps (λ w, let '(out, app, nm) := pull fn app (w_nm w) in
    Ret (out, mk_world (w_v w) (<[h := set_app (Some app) vc]> (w_chans w)) nm (w_now w) (w_out w))).
Proof. intros w a w' E. destruct (pull fn app (w_nm w)) as [[out app'] nm]. by injection E as _ <-. Qed.
Hint Resolve keeps_push keeps_pull : keeps.
Lemma keeps_deliver h pb : keeps (deliver fn services xalloc crc h pb).
Proof. unfold deliver, net_task_raise. keeps. Qed.
Hint Resolve keeps_deliver : keeps.
Lemma keeps_receive id data : keeps (vllp_channel_receive fn services xalloc crc id data).
Proof. unfold vllp_channel_receive. keeps. Qed.
Hint Resolve keeps_receive : keeps.
Lemma pullup_loop_nonempty fuel : ∀ nm pb next n m c nm',
  pullup_loop fuel nm pb next n = Ret (m, c, nm') → c ≠ [].
Proof.
  induction fuel as [|fuel IH]; intros nm pb next n m c nm'; cbn [pullup_loop]; [done|].
  destruct (n =? 0); [by intros [= _ <- _]|]. destruct next as [|x rest]; [by intros [= _ <- _]|].
  intros (bs & _ & E)%res_bind_ret. apply res_bind_ret in E as (mem & _ & E). cbv zeta in E.
  destruct (_ =? 0); [|by eapply IH]. apply res_bind_ret in E as (nm1 & _ & E). by eapply IH.
Qed.
Lemma pbuf_pullup_nonempty fuel nm c n m c' nm' : pbuf_pullup fuel nm c n = Ret (m, c', nm') → c' ≠ [].
Proof.
  unfold pbuf_pullup. destruct c as [|pb next]; [done|]. destruct (n <=? pb_buflen pb); [by intros [= _ <- _]|].
  intros (pb1 & _ & E)%res_bind_ret. by eapply pullup_loop_nonempty.
Qed.

Lemma vllp_tx_keeps pb : keeps (vllp_tx (App := App) pb).
Proof.
  intros w a w' (v & w0 & [= <- <-] & E)%bind_inv.
  destruct (current_tx_buf (w_v w)) as [|s l] eqn:Es; [by injection E as _ <-|].
  apply bind_inv in E as (pb1 & w1 & E1 & E). apply keeps_frame_buffer in E1 as Hk1.
  eapply kept_trans; [exact Hk1|]. apply bind_inv in E as (u & w2 & E2 & E).
  assert (kept w1 w2) as Hk2.
  { destruct pb1 as [|b pb1]; [by injection E2 as _ <-|].
    apply bind_inv in E2 as ([missing src] & w3 & E3 & E2).
    assert (src ≠ []) as Hne.
    { unfold with_nm in E3. destruct (_ ≫= _) as [[[m c] nm]|] eqn:Ep in E3; [|done]. injection E3 as -> -> _.
      apply res_bind_ret in Ep as ([[m' c'] nm''] & Ep & Eq). injection Eq as <- <- <-. by eapply pbuf_pullup_nonempty. }
    apply keeps_with_nm in E3 as Hk3. eapply kept_trans; [exact Hk3|].
    apply bind_inv in E2 as (u' & w4 & E4 & E2). injection E4 as _ <-.
    eapply (kept_trans _ (mk_world (set_tx_buf src (w_v w3)) (w_chans w3) (w_nm w3) (w_now w3) (w_out w3))).
    { split; [|done]. unfold ctl_of. cbn. destruct src; [done|]. destruct Hk1 as [H1 _], Hk3 as [H3 _].
      rewrite H1 in H3. unfold ctl_of in H3. rewrite Es in H3. injection H3 as -> ->. done. }
    revert E2. assert (∀ A (m : M App A) w a w', keeps m → m w = Ret (a, w') → kept w w') as Hx by (intros A m ? ? ? Hm; apply Hm).
    apply Hx. unfold dsig_emit_pbuf. keeps. }
  eapply kept_trans; [exact Hk2|]. revert E.
  assert (keeps (arm (App := App) set_rtx_timer 25000;; arm set_ack_timer 1000000;; mret ([] : list pbuf))) as Hx by keeps.
  apply Hx.
Qed.

(** The start of a fragment: the S bit flips and a fragment is outstanding. *)
Definition started_one (w w' : world App) : Prop :=
  ctl_of w' = (flip true VLLP_HDR_S (SE (w_v w)), true) ∧ connected (w_v w') = connected (w_v w).

Lemma started_kept w1 w2 w3 : started_one w1 w2 → kept w2 w3 → started_one w1 w3.
Proof. intros [E1 E2] [E3 E4]. split; congruence. Qed.
Lemma kept_started w1 w2 w3 : kept w1 w2 → started_one w2 w3 → started_one w1 w3.
Proof. intros [E1 E2] [E3 E4]. injection E1 as E1 _. split; [by rewrite E3, E1|congruence]. Qed.

Lemma vllp_fragment_starts pb w a w' : vllp_fragment pb w = Ret (a, w') → started_one w w'.
Proof.
  intros (v & w0 & [= <- <-] & E)%bind_inv. destruct (current_tx_buf (w_v w)) as [|b l] eqn:Es; [done|].
  apply bind_inv in E as (u & w1 & [= _ <-] & E). apply vllp_tx_keeps in E as [E1 E2].
  split; [|by rewrite E2]. rewrite E1. unfold ctl_of. cbn. by rewrite Es.
Qed.

Lemma vllp_channel_tx_starts h pb reuse w a w' :
  vllp_channel_tx crc h pb reuse w = Ret (a, w') → started_one w w'.
Proof.
  intros (vc & w1 & E1 & E)%bind_inv. apply keeps_get_chan in E1.
  apply bind_inv in E as (c & w2 & E2 & E). apply keeps_lift in E2.
  apply bind_inv in E as (u & w3 & E3 & E). apply keeps_put_chan in E3.
  apply bind_inv in E as ([pb1 pos] & w4 & E4 & E). apply keeps_lift in E4.
  apply bind_inv in E as (pb2 & w5 & E5 & E). apply keeps_lift in E5.
  apply bind_inv in E as (u' & w6 & [= _ <-] & E).
  apply bind_inv in E as (r & w7 & E7 & E). apply vllp_fragment_starts in E7.
  apply bind_inv in E as (u'' & w8 & [= _ <-] & [= _ <-]).
  do 5 (eapply kept_started; [eassumption|]). destruct E7 as [H1 H2]. split; [exact H1|exact H2].
Qed.
(** A call that keeps everything or starts one fragment. *)
Definition kept_or_started (w w' : world App) : Prop := kept w w' ∨ started_one w w'.

Lemma kept_then w1 w2 w3 : kept w1 w2 → kept_or_started w2 w3 → kept_or_started w1 w3.
Proof. intros H [H'|H']; [left; by eapply kept_trans|right; by eapply kept_started]. Qed.

Lemma keeps_elim {A} (m : M App A) w a w' : m w = Ret (a, w') → keeps m → kept w w'.
Proof. intros E H. by eapply H. Qed.

(** A failed close keeps; a successful one starts the close message, when there
    is a connection to send it on. *)
Lemma vllp_tx_close_cases h w err w' :
  vllp_tx_close crc h w = Ret (err, w') → if err =? 0 then kept_or_started w w' else kept w w'.
Proof.
  intros (u & w1 & E1 & E)%bind_inv. apply keeps_elim in E1; [|keeps].
  apply bind_inv in E as (u2 & w2 & E2 & E). apply keeps_elim in E2; [|keeps].
  apply bind_inv in E as (v & w2' & [= <- <-] & E). assert (kept w w2) as Hk by by eapply kept_trans.
  destruct (negb (connected (w_v w2))); [injection E as <- <-; by left|].
  apply bind_inv in E as (pb & w3 & E3 & E). apply keeps_elim in E3; [|keeps].
  assert (kept w w3) as Hk3 by by eapply kept_trans.
  destruct pb as [|b pb]; [injection E as <- <-; done|].
  apply bind_inv in E as (vc & w4 & E4 & E). apply keeps_elim in E4; [|keeps].
  apply bind_inv in E as (u5 & w5 & E5 & E). apply keeps_elim in E5; [|keeps].
  apply bind_inv in E as (c & w6 & E6 & E). apply keeps_elim in E6; [|keeps].
  destruct (pbuf_splice (vc_txq c)) as [out rest].
  apply bind_inv in E as (u7 & w7 & E7 & E). apply keeps_elim in E7; [|keeps].
  apply bind_inv in E as (r & w8 & E8 & [= <- <-]). apply vllp_channel_tx_starts in E8.
  right. do 5 (eapply kept_started; [eassumption|]). done.
Qed.

Lemma tx_loop_cases l : ∀ reuse w a w', tx_loop fn crc l reuse w = Ret (a, w') → kept_or_started w w'.
Proof.
  induction l as [|h l IH]; intros reuse w a w'; cbn [tx_loop].
  - intros E. left. eapply keeps_elim; [exact E|]. keeps.
  - intros (vc & w1 & E1 & E)%bind_inv. apply keeps_elim in E1; [|keeps]. eapply kept_then; [exact E1|].
    destruct (vc_app vc) as [app|].
    + destruct (app_closed vc =? 1).
      * apply bind_inv in E as (err & w2 & E2 & E). apply vllp_tx_close_cases in E2.
        destruct (err =? 0); cbn [negb] in E; [|eapply kept_then; [exact E2|by eapply IH]].
        apply keeps_elim in E; [|keeps]. destruct E2 as [E2|E2]; [left; by eapply kept_trans|right; by eapply started_kept].
      * destruct (net_closed vc); [by eapply IH|].
        apply bind_inv in E as (out & w2 & E2 & E). apply (keeps_pull h vc app w1) in E2. eapply kept_then; [exact E2|].
        destruct out as [|b out]; [by eapply IH|]. right. by eapply vllp_channel_tx_starts.
    + destruct (pbuf_splice (vc_txq vc)) as [out rest].
      apply bind_inv in E as (u & w2 & E2 & E). apply keeps_elim in E2; [|keeps]. eapply kept_then; [exact E2|].
      destruct out as [|b out]; [by eapply IH|]. right. by eapply vllp_channel_tx_starts.
Qed.

(** What sending may do to the control state: start a fragment if none is
    outstanding. *)
Definition may_start (c : ctl) (w w' : world App) : Prop :=
  ∃ start, (start = true → c.2 = false) ∧
    ctl_of w' = (flip start VLLP_HDR_S c.1, (start || c.2)%bool) ∧ connected (w_v w') = connected (w_v w).

Lemma vllp_maybe_tx_start reuse w a w' :
  vllp_maybe_tx fn crc reuse w = Ret (a, w') → may_start (ctl_of w) w w'.
Proof.
  intros (v & w1 & [= <- <-] & E)%bind_inv. unfold may_start.
  destruct (current_tx_buf (w_v w)) as [|b l] eqn:Es.
  - assert (ctl_of w = (SE (w_v w), false)) as Hc by (unfold ctl_of; by rewrite Es). rewrite Hc.
    apply tx_loop_cases in E as [[E1 E2]|[E1 E2]].
    + exists false. split; [done|]. by rewrite E1.
    + exists true. by rewrite E1.
  - injection E as _ <-. exists false. split; [done|]. unfold ctl_of. by rewrite Es.
Qed.

Lemma vllp_ack_payload_cases pb w a w' :
  vllp_ack_payload pb w = Ret (a, w') →
  (ctl_of w' = (SE (w_v w), false) ∧ connected (w_v w') = connected (w_v w)) ∨ started_one w w'.
Proof.
  intros (u & w1 & [= _ <-] & E)%bind_inv. apply bind_inv in E as (v & w2 & [= <- <-] & E).
  apply bind_inv in E as (c & w3 & E3 & E). apply keeps_elim in E3; [|keeps].
  apply bind_inv in E as (u' & w4 & [= _ <-] & E). destruct E3 as [E3 E3']. unfold ctl_of in E3.
  cbn [w_v set_rtx_timer SE current_tx_buf] in E3. injection E3 as E3 _.
  destruct c as [|b c].
  - injection E as _ <-. left. unfold ctl_of. cbn. by rewrite E3.
  - right. apply vllp_fragment_starts in E as [H1 H2]. split; [rewrite H1; cbn; by rewrite E3|by rewrite H2].
Qed.

Lemma rx_tx_start accepted pb w a w' :
  rx_tx fn crc accepted pb w = Ret (a, w') →
  may_start (SE (w_v w), ((ctl_of w).2 && negb accepted)%bool) w w'.
Proof.
  intros (v & w1 & [= <- <-] & E)%bind_inv. apply bind_inv in E as (pb1 & w2 & E2 & E).
  apply vllp_maybe_tx_start in E as (st & Hst & Ectl & Econ). unfold may_start.
  assert (ctl_of w = (SE (w_v w), match current_tx_buf (w_v w) with [] => false | _ => true end)) as Hc by done.
  rewrite Hc. cbn [fst snd]. destruct (current_tx_buf (w_v w)) as [|b l] eqn:Es.
  - injection E2 as _ <-. rewrite Hc in Hst, Ectl. exists st. done.
  - destruct accepted; cbn [negb andb] in *.
    + apply vllp_ack_payload_cases in E2 as [[E2 E2']|[E2 E2']]; rewrite E2 in *; cbn [fst snd] in *.
      * exists st. split; [done|]. by rewrite Ectl, Econ.
      * exists true. destruct st; [by specialize (Hst eq_refl)|]. cbn [flip orb] in *. by rewrite Econ.
    + apply keeps_elim in E2 as [E2 E2']; [|keeps]. rewrite E2, Hc in Hst, Ectl. exists st.
      by rewrite Econ, E2'.
Qed.

Lemma vllp_disconnect_down why w a w' : vllp_disconnect fn why w = Ret (a, w') → connected (w_v w') = false.
Proof.
  intros (v & w1 & [= <- <-] & E)%bind_inv. destruct (connected (w_v w)) eqn:Ec; cbn [negb] in E.
  - repeat (apply bind_inv in E as (? & ? & _ & E)). by injection E as _ <-.
  - injection E as _ <-. done.
Qed.

Lemma rx_data_cases ch u can w go w' :
  rx_data fn services xalloc crc ch u can w = Ret (go, w') →
  if go then ∃ acc, (acc = true → can = true) ∧ ctl_of w' = (flip acc VLLP_HDR_E (SE (w_v w)), (ctl_of w).2) ∧
    connected (w_v w') = connected (w_v w)
  else connected (w_v w') = false.
Proof.
  intros ([go1 delay] & w1 & E1 & E)%bind_inv.
  assert (if go1 then ∃ acc, (acc = true → can = true) ∧
    ctl_of w1 = (flip acc VLLP_HDR_E (SE (w_v w)), (ctl_of w).2) ∧ connected (w_v w1) = connected (w_v w)
    else connected (w_v w1) = false) as H1.
  { clear E. destruct can; [|injection E1 as <- _ <-; by exists false].
    apply bind_inv in E1 as (err & w2 & E2 & E1). apply keeps_elim in E2 as [E2 E2']; [|keeps].
    injection E2 as E2 E3. destruct (err =? 0).
    { apply bind_inv in E1 as (u' & w3 & [= _ <-] & [= <- _ <-]). exists true. split; [done|].
      unfold ctl_of. cbn. by rewrite E2, E3. }
    destruct (err =? ERR_NO_BUFFER).
    { injection E1 as <- _ <-. exists false. split; [done|]. unfold ctl_of. cbn. by rewrite E2, E3. }
    destruct (err =? ERR_CHECKSUM_ERROR).
    { apply bind_inv in E1 as (u' & w3 & E3' & [= <- _ <-]). by apply vllp_disconnect_down in E3'. }
    destruct (err =? ERR_BAD_STATE); [|done].
    apply bind_inv in E1 as (u' & w3 & E3' & [= <- _ <-]). by apply vllp_disconnect_down in E3'. }
  destruct go1; [|by injection E as <- <-].
  apply bind_inv in E as (u' & w2 & E2 & E). apply keeps_elim in E2 as [E2 E2']; [|keeps].
  apply bind_inv in E as (u'' & w3 & E3 & [= <- <-]). apply keeps_elim in E3 as [E3 E3']; [|keeps].
  destruct H1 as (acc & Ha & Hc & Hd). exists acc. split; [done|]. split; congruence.
Qed.
End Operations.

(** The bytes of a frame as [vllp_rx] sees them. *)
Definition frame_of (pb : list pbuf) : res (list Z) :=
  match pb with
  | [] => Ret []
  | b :: _ => rd (db_mem (pb_data b)) (pb_offset b) (pb_buflen b)
  end.

(** C10: on a connection that stays up, a frame that is not a SYN moves the S and
    E bits and the outstanding fragment exactly as a step of the abstract
    endpoint: the E bit flips only for a data frame that carries the expected
    fragment, the outstanding fragment is released only when the peer's E bit says
    it was taken, and the S bit flips only to start a fragment when none is
    outstanding.  (An ACK with a wrong checksum or length changes none of them.) *)
Theorem vllp_rx_refines_arq {App} (fn : app_fn App) services xalloc crc pb (w : world App) pb' w' raw u :
  vllp_rx fn services xalloc crc pb w = Ret (pb', w') →
  frame_of pb = Ret raw → raw ≠ [] → unpad raw = Some u → deref u ≠ VLLP_SYN →
  connected (w_v w) = true → connected (w_v w') = true →
  ctl_of w' = ctl_of w ∨
  ∃ acc start, recv_allowed (deref u) (negb (Z.land (deref u) 15 =? 15)) acc start (ctl_of w) ∧
    ctl_of w' = ctl_recv (deref u) acc start (ctl_of w).
Proof.
  intros E Hraw Hne Hu Hsyn Hcon Hcon'. unfold vllp_rx in E.
  apply bind_inv in E as (v & w0 & [= <- <-] & E).
  apply bind_inv in E as (u1 & w1 & E1 & E). apply keeps_elim in E1; [|apply keeps_arm_timeout].
  apply bind_inv in E as (u2 & w2 & E2 & E). apply keeps_elim in E2; [|apply keeps_refresh].
  apply bind_inv in E as (raw' & w3 & E3 & E). unfold lift in E3. fold (frame_of pb) in E3. rewrite Hraw in E3.
  injection E3 as <- <-. assert (kept w w2) as [Hk1 Hk2] by by eapply kept_trans. clear E1 E2.
  destruct raw as [|x raw]; [done|]. rewrite Hu in E. rewrite (proj2 (Z.eqb_neq _ _)) in E by done.
  apply bind_inv in E as (v2 & w3 & [= <- <-] & E).
  apply bind_inv in E as (ok & w3 & E3 & E). apply keeps_elim in E3 as [E3 E3'].
  2: { destruct (_ =? 31); [|keeps]. destruct (negb _); [keeps|].
       do 8 (destruct u as [|? u]; [keeps|]). keeps. }
  destruct ok; cbn [negb] in E; [|injection E as _ <-; left; congruence].
  rewrite Hk2, Hcon in E. cbn [negb] in E.
  apply bind_inv in E as (go & w4 & E4 & E).
  assert (SE (w_v w2) = SE (w_v w)) as HSE by (by injection Hk1).
  assert (if go then ∃ acc, (acc = true → negb (Z.land (deref u) 15 =? 15) = true ∧
      we_can_accept (deref u) (SE (w_v w)) = true) ∧
      ctl_of w4 = (flip acc VLLP_HDR_E (SE (w_v w)), (ctl_of w).2)
    else connected (w_v w4) = false) as Hgo.
  { destruct (Z.land (deref u) 15 =? 15) eqn:Ech.
    - injection E4 as <- <-. exists false. split; [done|]. rewrite E3, Hk1. done.
    - apply rx_data_cases in E4. destruct go; [|done]. destruct E4 as (acc & Ha & Hc & _).
      exists acc. split; [intros Hacc; by rewrite <- HSE, Ha|]. rewrite Hc, E3, Hk1.
      assert (SE (w_v w3) = SE (w_v w2)) as -> by (by injection E3). by rewrite HSE. }
  destruct go; [|injection E as _ <-; congruence].
  destruct Hgo as (acc & Hacc & Hc4). apply rx_tx_start in E as (start & Hstart & Hc' & _).
  injection Hc4 as HSE4 Hbusy4. right. exists acc, start.
  assert ((ctl_of w4).2 = (ctl_of w).2) as Hb4 by exact Hbusy4.
  unfold recv_allowed, ctl_recv, still_busy. change ((ctl_of w).1) with (SE (w_v w)).
  cbn [fst snd] in Hstart, Hc'. rewrite Hb4, HSE, HSE4 in *. split; [|done]. split; done.
Qed.

Lemma vllp_timers_keep {App} (fn : app_fn App) crc :
  keeps (vllp_ack_timer fn crc) ∧ keeps (vllp_rtx_timer fn).
Proof.
  split.
  - unfold vllp_ack_timer. apply keeps_bind; [by apply keeps_mod_v|]. intros.
    apply keeps_bind; [apply keeps_refresh|]. intros. apply keeps_bind; [apply keeps_tx_ack|keeps].
  - unfold vllp_rtx_timer. apply keeps_bind; [by apply keeps_mod_v|]. intros.
    apply keeps_bind; [apply keeps_refresh|]. intros. apply keeps_bind; [apply vllp_tx_keeps|keeps].
Qed.

(** The other entry points, where no frame came in, are the remaining steps of
    the abstract endpoint: the acknowledge and retransmit timers change neither the
    bits nor the outstanding fragment (they only send frames with them), and an
    event from a service starts at most one fragment, only when none is
    outstanding. *)
Theorem vllp_events_refine_arq {App} (fn : app_fn App) crc (w : world App) :
  (∀ w', vllp_ack_timer fn crc w = Ret (tt, w') → ctl_of w' = ctl_of w) ∧
  (∀ w', vllp_rtx_timer fn w = Ret (tt, w') → ctl_of w' = ctl_of w) ∧
  (∀ h signals w', vllp_channel_task_cb fn crc h signals w = Ret (tt, w') →
     ctl_of w' = ctl_of w ∨
     ((ctl_of w).2 = false ∧ ctl_of w' = (flip true VLLP_HDR_S (ctl_of w).1, true))).
Proof.
  destruct (vllp_timers_keep fn crc) as [Hack Hrtx]. split_and!.
  - intros w' E. by apply Hack in E as [? _].
  - intros w' E. by apply Hrtx in E as [? _].
  - intros h signals w' E. unfold vllp_channel_task_cb in E.
    apply bind_inv in E as (vc & w1 & E1 & E). apply keeps_get_chan in E1.
    destruct (_ && _)%bool; [injection E as <-; left; apply E1|].
    apply bind_inv in E as (u1 & w2 & E2 & E).
    apply keeps_elim in E2; [|case_match; [apply keeps_mod_chan|apply keeps_ret]].
    apply bind_inv in E as (ch & w3 & E3 & E). apply keeps_elim in E3; [|apply keeps_refresh].
    apply bind_inv in E as (u2 & w4 & E4 & E).
    apply keeps_elim in E4; [|destruct ch; [apply keeps_bind; [apply keeps_tx_ack|keeps]|apply keeps_ret]].
    apply bind_inv in E as (r & w5 & E5 & [= <-]).
    assert (kept w w4) as [Hk _] by (do 3 (eapply kept_trans; [eassumption|]); eassumption).
    apply vllp_maybe_tx_start in E5 as (start & Hs & Hc & _). rewrite Hk in Hs, Hc.
    destruct start; [right; by auto|left]. rewrite Hc. by destruct (ctl_of w).
Qed.

(** ** Witnesses *)

Lemma vllp_arq_exactly_once_witness :
  ∃ s : sys (F := nat), rtc step sys0 s ∧ e_started (sA s) = [7%nat] ∧ e_delivered (sB s) = [7%nat] ∧
    ∃ rest, e_started (sA s) = e_delivered (sB s) ++ rest ∧ (length rest <= 1)%nat.
Proof.
  set (a1 := mk_ep (192, true) [7%nat] []).
  set (b1 := mk_ep (ctl_recv 195 true false (64, false)) [] [7%nat]).
  assert (rtc step sys0 (mk_sys a1 b1 [] [])) as Hr.
  { eapply rtc_l; [apply step_at_A, (st_start sys0 a1), (ep_start ep0 7%nat); reflexivity|].
    eapply rtc_l; [apply step_at_A, (st_emit _ (195, Some 7%nat)); split; [reflexivity|by split]|].
    eapply rtc_l; [|apply rtc_refl].
    apply (step_at_B _ (mk_sys b1 a1 [] [])).
    eapply st_recv; [reflexivity|].
    apply (ep_recv ep0 (195, Some 7%nat) true false []); [split|done|done]; by intros. }
  exists (mk_sys a1 b1 [] []). split; [exact Hr|]. split; [done|]. split; [done|].
  destruct (vllp_arq_exactly_once _ Hr a1 b1) as (rest & E & Hl & _); [by left|]. by exists rest.
Defined.

Module RxWit.
(** A data frame with the expected S bit and a whole message in it. *)
Definition pb : list pbuf := [Wit.pb 20 (211 :: 1 :: le32 (not32 (crc32 7 [1])))].
Definition run := vllp_rx Demo.fn Demo.services Demo.xalloc crc32 pb Wit.w.
Definition pb' : list pbuf := match run with Ret (pb, _) => pb | Fault _ => [] end.
Definition w' : world Demo.App := match run with Ret (_, w) => w | Fault _ => Wit.w end.
End RxWit.

Lemma vllp_rx_refines_arq_witness :
  ctl_of RxWit.w' = (0, false) ∧
  (ctl_of RxWit.w' = ctl_of Wit.w ∨
   ∃ acc start, recv_allowed 211 true acc start (ctl_of Wit.w) ∧
     ctl_of RxWit.w' = ctl_recv 211 acc start (ctl_of Wit.w)).
Proof.
  split; [vm_compute; reflexivity|].
  apply (vllp_rx_refines_arq Demo.fn Demo.services Demo.xalloc crc32 RxWit.pb Wit.w RxWit.pb' RxWit.w'
    (211 :: 1 :: le32 (not32 (crc32 7 [1]))) (211 :: 1 :: le32 (not32 (crc32 7 [1]))));
    [vm_compute; reflexivity|vm_compute; reflexivity|done|vm_compute; reflexivity
    |vm_compute; congruence|reflexivity|vm_compute; reflexivity].
Defined.
