(* ===== verification/VllpHost.v ===== *)
(** * VllpHost: the other end of VLLP ([src/host/dsig/vllp.c])

    The library a host computer talks to a device with.  It is the peer of
    [Vllp]: it sends the SYN, opens channels by name, cuts messages into fragments
    and reassembles those of the device; in the server role it answers a peer of
    its own kind.

    A [struct vllp] is the record [vllp], a [struct vllp_channel] a [channel] in
    [w_chans] under its address, so that the list of all channels, the queues of
    channels to open and to send from, and the holders of references share it; an
    access to a freed channel, or taking a channel off a list that it is not on,
    is [OutOfBounds].  Every definition runs with the mutex held, from the place
    where it is taken, or taken again after a wait, to the next wait: one pass of
    [vllp_thread] or of the receive thread of a channel is one definition, and so
    is a call of the user up to where it blocks.  The mutex is given up around a
    callback, which is an event of the output; other definitions may run there.

    Parameters: the callback that opens channels of a server (a function pointer),
    the system's random numbers, [rand], [calloc] (its result is used without a
    check, so it is an address), and the checksum.  The log lines are left out, as
    are the capacity of the receive buffer and the condition variables, which only
    decide when a blocked pass runs again. *)

From Stdlib Require Import ZArith Lia.
From stdpp Require Import base list numbers gmap.
From S2P Require Import Prelude Crc LibC.
From S2P Require Vllp.
Import Vllp (bit_set, s16_le, fdcan_adapation_pad_ladder, peer_accepted, we_can_accept).
Import Vllp (VLLP_VERSION, VLLP_SYN, VLLP_HDR_S, VLLP_HDR_E, VLLP_HDR_F, VLLP_HDR_L).
Import Vllp (VLLP_CMC_OPCODE_OPEN, VLLP_CMC_OPCODE_OPEN_RESPONSE, VLLP_CMC_OPCODE_CLOSE).

Open Scope Z_scope.

Definition VLLP_ACK_INTERVAL : Z := 1000000.
Definition VLLP_RTX_TIMEOUT : Z := 25000.
Definition VLLP_ERR_TIMEOUT : Z := -2.
Definition VLLP_ERR_BAD_STATE : Z := -13.
Definition VLLP_ERR_CHECKSUM_ERROR : Z := -18.
Definition VLLP_ERR_MALFORMED : Z := -19.
Definition VLLP_FDCAN_ADAPTATION : Z := 1.
Definition VLLP_CHANNEL_RECONNECT : Z := 2.
Definition INT64_MAX : Z := 9223372036854775807.

(** ** State *)

(** A queued packet, by its type: a message or fragment, the end of the stream
    with its error code, or the news that the channel is open. *)
Inductive pkt :=
| PktMsg (data : list Z)
| PktEof (error_code : Z)
| PktRdy.

Inductive vllp_channel_state :=
| CREATED | PENDING_OPEN | OPEN_SENT | ESTABLISHED | ACTIVE | CLOSE_SENT | CLOSED.

#[export] Instance vllp_channel_state_eq_dec : EqDecision vllp_channel_state.
Proof. solve_decision. Defined.

(** What leaves the library: a frame ([tx]), the callbacks of a channel, and the
    end of the object itself. *)
Inductive event :=
| Tx (data : list Z)
| CallRx (h : Z) (data : list Z)
| CallEof (h error_code : Z)
| CallRdy (h : Z)
| Destroyed.

Record channel := mk_channel {
  vc_txq : list pkt;
  vc_mtxq : list pkt;
  vc_rxq : list pkt;
  has_rx : bool;
  has_eof : bool;
  has_rdy : bool;
  tx_crc_IV : Z;
  rx_crc_IV : Z;
  rxbuf : list Z;   (* the [rxlen] bytes in use *)
  vc_name : list Z; (* without the NUL *)
  vc_flags : Z;
  refcount : Z;
  vc_state : vllp_channel_state;
  vc_id : Z;
  rx_thread_run : bool;
  is_closed : bool;
  closed_status : Z;
}.

Definition set_vc_txq (x : list pkt) (r : channel) : channel :=
  mk_channel x (vc_mtxq r) (vc_rxq r) (has_rx r) (has_eof r) (has_rdy r) (tx_crc_IV r)
    (rx_crc_IV r) (rxbuf r) (vc_name r) (vc_flags r) (refcount r) (vc_state r) (vc_id r)
    (rx_thread_run r) (is_closed r) (closed_status r).
Definition set_vc_mtxq (x : list pkt) (r : channel) : channel :=
  mk_channel (vc_txq r) x (vc_rxq r) (has_rx r) (has_eof r) (has_rdy r) (tx_crc_IV r)
    (rx_crc_IV r) (rxbuf r) (vc_name r) (vc_flags r) (refcount r) (vc_state r) (vc_id r)
    (rx_thread_run r) (is_closed r) (closed_status r).
Definition set_vc_rxq (x : list pkt) (r : channel) : channel :=
  mk_channel (vc_txq r) (vc_mtxq r) x (has_rx r) (has_eof r) (has_rdy r) (tx_crc_IV r)
    (rx_crc_IV r) (rxbuf r) (vc_name r) (vc_flags r) (refcount r) (vc_state r) (vc_id r)
    (rx_thread_run r) (is_closed r) (closed_status r).
Definition set_has_rx (x : bool) (r : channel) : channel :=
  mk_channel (vc_txq r) (vc_mtxq r) (vc_rxq r) x (has_eof r) (has_rdy r) (tx_crc_IV r)
    (rx_crc_IV r) (rxbuf r) (vc_name r) (vc_flags r) (refcount r) (vc_state r) (vc_id r)
    (rx_thread_run r) (is_closed r) (closed_status r).
Definition set_has_eof (x : bool) (r : channel) : channel :=
  mk_channel (vc_txq r) (vc_mtxq r) (vc_rxq r) (has_rx r) x (has_rdy r) (tx_crc_IV r)
    (rx_crc_IV r) (rxbuf r) (vc_name r) (vc_flags r) (refcount r) (vc_state r) (vc_id r)
    (rx_thread_run r) (is_closed r) (closed_status r).
Definition set_has_rdy (x : bool) (r : channel) : channel :=
  mk_channel (vc_txq r) (vc_mtxq r) (vc_rxq r) (has_rx r) (has_eof r) x (tx_crc_IV r)
    (rx_crc_IV r) (rxbuf r) (vc_name r) (vc_flags r) (refcount r) (vc_state r) (vc_id r)
    (rx_thread_run r) (is_closed r) (closed_status r).
Definition set_tx_crc_IV (x : Z) (r : channel) : channel :=
  mk_channel (vc_txq r) (vc_mtxq r) (vc_rxq r) (has_rx r) (has_eof r) (has_rdy r) x (rx_crc_IV r)
    (rxbuf r) (vc_name r) (vc_flags r) (refcount r) (vc_state r) (vc_id r) (rx_thread_run r)
    (is_closed r) (closed_status r).
Definition set_rx_crc_IV (x : Z) (r : channel) : channel :=
  mk_channel (vc_txq r) (vc_mtxq r) (vc_rxq r) (has_rx r) (has_eof r) (has_rdy r) (tx_crc_IV r) x
    (rxbuf r) (vc_name r) (vc_flags r) (refcount r) (vc_state r) (vc_id r) (rx_thread_run r)
    (is_closed r) (closed_status r).
Definition set_rxbuf (x : list Z) (r : channel) : channel :=
  mk_channel (vc_txq r) (vc_mtxq r) (vc_rxq r) (has_rx r) (has_eof r) (has_rdy r) (tx_crc_IV r)
    (rx_crc_IV r) x (vc_name r) (vc_flags r) (refcount r) (vc_state r) (vc_id r)
    (rx_thread_run r) (is_closed r) (closed_status r).
Definition set_vc_name (x : list Z) (r : channel) : channel :=
  mk_channel (vc_txq r) (vc_mtxq r) (vc_rxq r) (has_rx r) (has_eof r) (has_rdy r) (tx_crc_IV r)
    (rx_crc_IV r) (rxbuf r) x (vc_flags r) (refcount r) (vc_state r) (vc_id r) (rx_thread_run r)
    (is_closed r) (closed_status r).
Definition set_vc_flags (x : Z) (r : channel) : channel :=
  mk_channel (vc_txq r) (vc_mtxq r) (vc_rxq r) (has_rx r) (has_eof r) (has_rdy r) (tx_crc_IV r)
    (rx_crc_IV r) (rxbuf r) (vc_name r) x (refcount r) (vc_state r) (vc_id r) (rx_thread_run r)
    (is_closed r) (closed_status r).
Definition set_refcount (x : Z) (r : channel) : channel :=
  mk_channel (vc_txq r) (vc_mtxq r) (vc_rxq r) (has_rx r) (has_eof r) (has_rdy r) (tx_crc_IV r)
    (rx_crc_IV r) (rxbuf r) (vc_name r) (vc_flags r) x (vc_state r) (vc_id r) (rx_thread_run r)
    (is_closed r) (closed_status r).
Definition set_vc_state (x : vllp_channel_state) (r : channel) : channel :=
  mk_channel (vc_txq r) (vc_mtxq r) (vc_rxq r) (has_rx r) (has_eof r) (has_rdy r) (tx_crc_IV r)
    (rx_crc_IV r) (rxbuf r) (vc_name r) (vc_flags r) (refcount r) x (vc_id r) (rx_thread_run r)
    (is_closed r) (closed_status r).
Definition set_vc_id (x : Z) (r : channel) : channel :=
  mk_channel (vc_txq r) (vc_mtxq r) (vc_rxq r) (has_rx r) (has_eof r) (has_rdy r) (tx_crc_IV r)
    (rx_crc_IV r) (rxbuf r) (vc_name r) (vc_flags r) (refcount r) (vc_state r) x
    (rx_thread_run r) (is_closed r) (closed_status r).
Definition set_rx_thread_run (x : bool) (r : channel) : channel :=
  mk_channel (vc_txq r) (vc_mtxq r) (vc_rxq r) (has_rx r) (has_eof r) (has_rdy r) (tx_crc_IV r)
    (rx_crc_IV r) (rxbuf r) (vc_name r) (vc_flags r) (refcount r) (vc_state r) (vc_id r) x
    (is_closed r) (closed_status r).
Definition set_is_closed (x : bool) (r : channel) : channel :=
  mk_channel (vc_txq r) (vc_mtxq r) (vc_rxq r) (has_rx r) (has_eof r) (has_rdy r) (tx_crc_IV r)
    (rx_crc_IV r) (rxbuf r) (vc_name r) (vc_flags r) (refcount r) (vc_state r) (vc_id r)
    (rx_thread_run r) x (closed_status r).
Definition set_closed_status (x : Z) (r : channel) : channel :=
  mk_channel (vc_txq r) (vc_mtxq r) (vc_rxq r) (has_rx r) (has_eof r) (has_rdy r) (tx_crc_IV r)
    (rx_crc_IV r) (rxbuf r) (vc_name r) (vc_flags r) (refcount r) (vc_state r) (vc_id r)
    (rx_thread_run r) (is_closed r) x.

Record vllp := mk_vllp {
  rxq : list (list Z);
  current_tx : option (list Z);  (* the bytes of the fragment *)
  next_ack : Z;
  next_rtx : Z;
  cmc : Z;
  channels : list Z;
  pending_open : list Z;
  active_channels : list Z;
  v_flags : Z;
  crc_IV : Z;
  channel_iv_cnt : Z;
  available_channel_ids : Z;
  remote_flow_status : Z;
  local_flow_status : Z;
  run : bool;
  connected : bool;
  SE : Z;
  mtu : Z;
  timeout : Z;         (* in seconds *)
  v_refcount : Z;
  has_open_channel : bool;
}.

Definition set_rxq (x : list (list Z)) (r : vllp) : vllp :=
  mk_vllp x (current_tx r) (next_ack r) (next_rtx r) (cmc r) (channels r) (pending_open r)
    (active_channels r) (v_flags r) (crc_IV r) (channel_iv_cnt r) (available_channel_ids r)
    (remote_flow_status r) (local_flow_status r) (run r) (connected r) (SE r) (mtu r) (timeout r)
    (v_refcount r) (has_open_channel r).
Definition set_current_tx (x : option (list Z)) (r : vllp) : vllp :=
  mk_vllp (rxq r) x (next_ack r) (next_rtx r) (cmc r) (channels r) (pending_open r)
    (active_channels r) (v_flags r) (crc_IV r) (channel_iv_cnt r) (available_channel_ids r)
    (remote_flow_status r) (local_flow_status r) (run r) (connected r) (SE r) (mtu r) (timeout r)
    (v_refcount r) (has_open_channel r).
Definition set_next_ack (x : Z) (r : vllp) : vllp :=
  mk_vllp (rxq r) (current_tx r) x (next_rtx r) (cmc r) (channels r) (pending_open r)
    (active_channels r) (v_flags r) (crc_IV r) (channel_iv_cnt r) (available_channel_ids r)
    (remote_flow_status r) (local_flow_status r) (run r) (connected r) (SE r) (mtu r) (timeout r)
    (v_refcount r) (has_open_channel r).
Definition set_next_rtx (x : Z) (r : vllp) : vllp :=
  mk_vllp (rxq r) (current_tx r) (next_ack r) x (cmc r) (channels r) (pending_open r)
    (active_channels r) (v_flags r) (crc_IV r) (channel_iv_cnt r) (available_channel_ids r)
    (remote_flow_status r) (local_flow_status r) (run r) (connected r) (SE r) (mtu r) (timeout r)
    (v_refcount r) (has_open_channel r).
Definition set_cmc (x : Z) (r : vllp) : vllp :=
  mk_vllp (rxq r) (current_tx r) (next_ack r) (next_rtx r) x (channels r) (pending_open r)
    (active_channels r) (v_flags r) (crc_IV r) (channel_iv_cnt r) (available_channel_ids r)
    (remote_flow_status r) (local_flow_status r) (run r) (connected r) (SE r) (mtu r) (timeout r)
    (v_refcount r) (has_open_channel r).
Definition set_channels (x : list Z) (r : vllp) : vllp :=
  mk_vllp (rxq r) (current_tx r) (next_ack r) (next_rtx r) (cmc r) x (pending_open r)
    (active_channels r) (v_flags r) (crc_IV r) (channel_iv_cnt r) (available_channel_ids r)
    (remote_flow_status r) (local_flow_status r) (run r) (connected r) (SE r) (mtu r) (timeout r)
    (v_refcount r) (has_open_channel r).
Definition set_pending_open (x : list Z) (r : vllp) : vllp :=
  mk_vllp (rxq r) (current_tx r) (next_ack r) (next_rtx r) (cmc r) (channels r) x
    (active_channels r) (v_flags r) (crc_IV r) (channel_iv_cnt r) (available_channel_ids r)
    (remote_flow_status r) (local_flow_status r) (run r) (connected r) (SE r) (mtu r) (timeout r)
    (v_refcount r) (has_open_channel r).
Definition set_active_channels (x : list Z) (r : vllp) : vllp :=
  mk_vllp (rxq r) (current_tx r) (next_ack r) (next_rtx r) (cmc r) (channels r) (pending_open r)
    x (v_flags r) (crc_IV r) (channel_iv_cnt r) (available_channel_ids r) (remote_flow_status r)
    (local_flow_status r) (run r) (connected r) (SE r) (mtu r) (timeout r) (v_refcount r)
    (has_open_channel r).
Definition set_v_flags (x : Z) (r : vllp) : vllp :=
  mk_vllp (rxq r) (current_tx r) (next_ack r) (next_rtx r) (cmc r) (channels r) (pending_open r)
    (active_channels r) x (crc_IV r) (channel_iv_cnt r) (available_channel_ids r)
    (remote_flow_status r) (local_flow_status r) (run r) (connected r) (SE r) (mtu r) (timeout r)
    (v_refcount r) (has_open_channel r).
Definition set_crc_IV (x : Z) (r : vllp) : vllp :=
  mk_vllp (rxq r) (current_tx r) (next_ack r) (next_rtx r) (cmc r) (channels r) (pending_open r)
    (active_channels r) (v_flags r) x (channel_iv_cnt r) (available_channel_ids r)
    (remote_flow_status r) (local_flow_status r) (run r) (connected r) (SE r) (mtu r) (timeout r)
    (v_refcount r) (has_open_channel r).
Definition set_channel_iv_cnt (x : Z) (r : vllp) : vllp :=
  mk_vllp (rxq r) (current_tx r) (next_ack r) (next_rtx r) (cmc r) (channels r) (pending_open r)
    (active_channels r) (v_flags r) (crc_IV r) x (available_channel_ids r) (remote_flow_status r)
    (local_flow_status r) (run r) (connected r) (SE r) (mtu r) (timeout r) (v_refcount r)
    (has_open_channel r).
Definition set_available_channel_ids (x : Z) (r : vllp) : vllp :=
  mk_vllp (rxq r) (current_tx r) (next_ack r) (next_rtx r) (cmc r) (channels r) (pending_open r)
    (active_channels r) (v_flags r) (crc_IV r) (channel_iv_cnt r) x (remote_flow_status r)
    (local_flow_status r) (run r) (connected r) (SE r) (mtu r) (timeout r) (v_refcount r)
    (has_open_channel r).
Definition set_remote_flow_status (x : Z) (r : vllp) : vllp :=
  mk_vllp (rxq r) (current_tx r) (next_ack r) (next_rtx r) (cmc r) (channels r) (pending_open r)
    (active_channels r) (v_flags r) (crc_IV r) (channel_iv_cnt r) (available_channel_ids r) x
    (local_flow_status r) (run r) (connected r) (SE r) (mtu r) (timeout r) (v_refcount r)
    (has_open_channel r).
Definition set_local_flow_status (x : Z) (r : vllp) : vllp :=
  mk_vllp (rxq r) (current_tx r) (next_ack r) (next_rtx r) (cmc r) (channels r) (pending_open r)
    (active_channels r) (v_flags r) (crc_IV r) (channel_iv_cnt r) (available_channel_ids r)
    (remote_flow_status r) x (run r) (connected r) (SE r) (mtu r) (timeout r) (v_refcount r)
    (has_open_channel r).
Definition set_run (x : bool) (r : vllp) : vllp :=
  mk_vllp (rxq r) (current_tx r) (next_ack r) (next_rtx r) (cmc r) (channels r) (pending_open r)
    (active_channels r) (v_flags r) (crc_IV r) (channel_iv_cnt r) (available_channel_ids r)
    (remote_flow_status r) (local_flow_status r) x (connected r) (SE r) (mtu r) (timeout r)
    (v_refcount r) (has_open_channel r).
Definition set_connected (x : bool) (r : vllp) : vllp :=
  mk_vllp (rxq r) (current_tx r) (next_ack r) (next_rtx r) (cmc r) (channels r) (pending_open r)
    (active_channels r) (v_flags r) (crc_IV r) (channel_iv_cnt r) (available_channel_ids r)
    (remote_flow_status r) (local_flow_status r) (run r) x (SE r) (mtu r) (timeout r)
    (v_refcount r) (has_open_channel r).
Definition set_SE (x : Z) (r : vllp) : vllp :=
  mk_vllp (rxq r) (current_tx r) (next_ack r) (next_rtx r) (cmc r) (channels r) (pending_open r)
    (active_channels r) (v_flags r) (crc_IV r) (channel_iv_cnt r) (available_channel_ids r)
    (remote_flow_status r) (local_flow_status r) (run r) (connected r) x (mtu r) (timeout r)
    (v_refcount r) (has_open_channel r).
Definition set_mtu (x : Z) (r : vllp) : vllp :=
  mk_vllp (rxq r) (current_tx r) (next_ack r) (next_rtx r) (cmc r) (channels r) (pending_open r)
    (active_channels r) (v_flags r) (crc_IV r) (channel_iv_cnt r) (available_channel_ids r)
    (remote_flow_status r) (local_flow_status r) (run r) (connected r) (SE r) x (timeout r)
    (v_refcount r) (has_open_channel r).
Definition set_timeout (x : Z) (r : vllp) : vllp :=
  mk_vllp (rxq r) (current_tx r) (next_ack r) (next_rtx r) (cmc r) (channels r) (pending_open r)
    (active_channels r) (v_flags r) (crc_IV r) (channel_iv_cnt r) (available_channel_ids r)
    (remote_flow_status r) (local_flow_status r) (run r) (connected r) (SE r) (mtu r) x
    (v_refcount r) (has_open_channel r).
Definition set_v_refcount (x : Z) (r : vllp) : vllp :=
  mk_vllp (rxq r) (current_tx r) (next_ack r) (next_rtx r) (cmc r) (channels r) (pending_open r)
    (active_channels r) (v_flags r) (crc_IV r) (channel_iv_cnt r) (available_channel_ids r)
    (remote_flow_status r) (local_flow_status r) (run r) (connected r) (SE r) (mtu r) (timeout r)
    x (has_open_channel r).
Definition set_has_open_channel (x : bool) (r : vllp) : vllp :=
  mk_vllp (rxq r) (current_tx r) (next_ack r) (next_rtx r) (cmc r) (channels r) (pending_open r)
    (active_channels r) (v_flags r) (crc_IV r) (channel_iv_cnt r) (available_channel_ids r)
    (remote_flow_status r) (local_flow_status r) (run r) (connected r) (SE r) (mtu r) (timeout r)
    (v_refcount r) x.

(** [open_channel_result_t], with the callbacks as whether they are set. *)
Record open_channel_result := mk_open_result { r_error : Z; r_rx : bool; r_eof : bool }.

Record world := mk_world {
  w_v : vllp;
  w_chans : gmap Z channel;
  w_now : Z;
  w_rnd : nat;             (* random numbers drawn so far *)
  w_out : list event;
}.

(** ** The monad *)

Definition M (A : Type) : Type := world → res (A * world).
#[export] Instance M_ret : MRet M := λ A a w, Ret (a, w).
#[export] Instance M_bind : MBind M := λ A B k m w,
  match m w with Ret (a, w) => k a w | Fault f => Fault f end.

Definition get_v : M vllp := λ w, Ret (w_v w, w).
Definition mod_v (f : vllp → vllp) : M () := λ w,
  Ret ((), mk_world (f (w_v w)) (w_chans w) (w_now w) (w_rnd w) (w_out w)).
Definition get_chan (h : Z) : M channel := λ w,
  match w_chans w !! h with Some vc => Ret (vc, w) | None => Fault OutOfBounds end.
Definition put_chan (h : Z) (vc : channel) : M () := λ w,
  Ret ((), mk_world (w_v w) (<[h := vc]> (w_chans w)) (w_now w) (w_rnd w) (w_out w)).
Definition mod_chan (h : Z) (f : channel → channel) : M () := vc ← get_chan h; put_chan h (f vc).
Definition free_chan (h : Z) : M () := λ w,
  Ret ((), mk_world (w_v w) (delete h (w_chans w)) (w_now w) (w_rnd w) (w_out w)).
Definition get_ts : M Z := λ w, Ret (w_now w, w).
Definition next_rnd : M nat := λ w,
  Ret (w_rnd w, mk_world (w_v w) (w_chans w) (w_now w) (S (w_rnd w)) (w_out w)).
Definition output (e : event) : M () := λ w,
  Ret ((), mk_world (w_v w) (w_chans w) (w_now w) (w_rnd w) (w_out w ++ [e])).
Definition fault {A} (f : fault) : M A := λ _, Fault f.

(** Taking an element off a list. *)
Definition list_unlink (h : Z) (get : vllp → list Z) (set : list Z → vllp → vllp) : M () :=
  v ← get_v; if bool_decide (h ∈ get v) then mod_v (set (filter (λ x, x ≠ h) (get v))) else fault OutOfBounds.
Definition channels_remove (h : Z) : M () := list_unlink h channels set_channels.
Definition pending_remove (h : Z) : M () := list_unlink h pending_open set_pending_open.
Definition active_remove (h : Z) : M () := list_unlink h active_channels set_active_channels.
Definition pending_append (h : Z) : M () := mod_v (λ v, set_pending_open (pending_open v ++ [h]) v).
Definition active_append (h : Z) : M () := mod_v (λ v, set_active_channels (active_channels v ++ [h]) v).

Definition is_server (v : vllp) : bool := has_open_channel v.
Definition is_client (v : vllp) : bool := negb (has_open_channel v).
Definition id_bit (id : Z) : Z := Z.shiftl 1 id.
(** [available_channel_ids |= (1 << id)] *)
Definition free_id (id : Z) : M () :=
  mod_v (λ v, set_available_channel_ids (u16 (Z.lor (available_channel_ids v) (id_bit id))) v).

Section Host.
Context (open_channel : list Z → Z → open_channel_result).
Context (getrandom : nat → option Z) (rand : nat → Z).
Context (calloc : gmap Z channel → Z) (crc : Z → list Z → Z).

(** ** References *)

Definition drain_rxq : M () := mod_v (set_rxq []).
Definition vllp_retain : M () := mod_v (λ v, set_v_refcount (u32 (v_refcount v + 1)) v).
Definition vllp_release : M () :=
  mod_v (λ v, set_v_refcount (u32 (v_refcount v - 1)) v);;
  v ← get_v;
  if negb (v_refcount v =? 0) then mret () else
  match channels v, pending_open v, active_channels v with
  | [], [], [] => drain_rxq;; mod_v (set_current_tx None);; output Destroyed
  | _, _, _ => fault Assert
  end.

Definition vllp_channel_retain (h : Z) : M () := mod_chan h (λ vc, set_refcount (refcount vc + 1) vc).
Definition vllp_channel_release (h : Z) : M () :=
  mod_chan h (λ vc, set_refcount (refcount vc - 1) vc);;
  vc ← get_chan h;
  if negb (refcount vc =? 0) then mret () else vllp_release;; free_chan h.

Definition channel_enq_rx_meta (h : Z) (p : pkt) : M () := mod_chan h (λ vc, set_vc_rxq (vc_rxq vc ++ [p]) vc).
Definition vllp_channel_set_state (h : Z) (st : vllp_channel_state) : M () := mod_chan h (set_vc_state st).
Definition vllp_channel_unlink (h : Z) : M () := channels_remove h;; vllp_channel_release h.

(** ** Losing the connection *)

(** The body of the loop over the channels: whether the channel goes. *)
Definition disconnect_channel (h : Z) : M bool :=
  v ← get_v;
  if h =? cmc v then mret false else
  vc ← get_chan h;
  let reconnect := bit_set (vc_flags vc) VLLP_CHANNEL_RECONNECT in
  let again := channel_enq_rx_meta h (PktEof 0);; vllp_channel_set_state h PENDING_OPEN;;
               pending_append h;; vllp_channel_retain h;; mret true in
  keep ← match vc_state vc with
    | PENDING_OPEN =>
        if reconnect then mret true else pending_remove h;; vllp_channel_release h;; mret false
    | ACTIVE =>
        active_remove h;; vllp_channel_release h;;
        if reconnect then again else mret false
    | ESTABLISHED => if reconnect then again else mret false
    | CLOSE_SENT => vllp_channel_set_state h CLOSED;; mret false
    | _ => mret false
    end;
  if (keep : bool) then mret false else
  vc ← get_chan h;
  channels_remove h;;
  (if is_client v then free_id (vc_id vc) else mret ());;
  mret true.

Fixpoint disconnect_loop (l tmp : list Z) : M (list Z) :=
  match l with
  | [] => mret tmp
  | h :: l => gone ← disconnect_channel h; disconnect_loop l (if gone : bool then h :: tmp else tmp)
  end.

Fixpoint eof_loop (tmp : list Z) (error : Z) : M () :=
  match tmp with
  | [] => mret ()
  | h :: tmp =>
      vc ← get_chan h;
      (if has_eof vc then output (CallEof h error) else mret ());;
      vllp_channel_release h;;
      eof_loop tmp error
  end.

Definition vllp_disconnect (error : Z) : M () :=
  v ← get_v;
  if negb (connected v) then mret () else
  tmp ← disconnect_loop (channels v) [];
  eof_loop tmp error;;
  now ← get_ts;
  mod_v (λ v, set_SE VLLP_HDR_E (set_connected false (set_next_rtx INT64_MAX
                (set_next_ack (now + VLLP_ACK_INTERVAL) v)))).

(** ** Frames *)

Definition vllp_generate_crc (iv : Z) (pkt : list Z) : list Z := pkt ++ le32 (not32 (crc iv pkt)).

Definition vllp_gen_channel_crc : M Z :=
  mod_v (λ v, set_channel_iv_cnt (u32 (channel_iv_cnt v + 1)) v);;
  v ← get_v; mret (crc (crc_IV v) (le32 (channel_iv_cnt v))).

Definition vllp_send_syn : M () :=
  k ← next_rnd;
  match getrandom k with
  | None => mret ()
  | Some iv =>
      mod_v (set_crc_IV iv);;
      drain_rxq;;
      mod_v (set_channel_iv_cnt 0);;
      cmc_iv ← vllp_gen_channel_crc;
      v ← get_v;
      mod_chan (cmc v) (λ vc, set_rx_crc_IV cmc_iv (set_tx_crc_IV (not32 cmc_iv) vc));;
      output (Tx (VLLP_SYN :: VLLP_VERSION :: mtu v :: le32 iv))
  end.

Definition vllp_send_ack : M () :=
  v ← get_v;
  output (Tx (vllp_generate_crc (crc_IV v)
    [u8 (Z.lor (SE v) 31); u8 (local_flow_status v); u8 (Z.shiftr (local_flow_status v) 8)])).

Definition vllp_accept_syn (u8s : list Z) (now : Z) : M Z :=
  v ← get_v;
  if is_client v then mret VLLP_ERR_MALFORMED else
  match u8s with
  | [_; version; m; a; b; c; d] =>
      if negb (version =? VLLP_VERSION) then mret VLLP_ERR_MALFORMED else
      if negb (m =? mtu v) then mret VLLP_ERR_MALFORMED else
      vllp_disconnect VLLP_ERR_BAD_STATE;;
      mod_v (λ v, set_connected true (set_next_rtx INT64_MAX
                    (set_next_ack (now + VLLP_ACK_INTERVAL) (set_crc_IV (rd_le32 a b c d) v))));;
      mod_v (set_channel_iv_cnt 0);;
      cmc_iv ← vllp_gen_channel_crc;
      mod_chan (cmc v) (λ vc, set_rx_crc_IV (not32 cmc_iv) (set_tx_crc_IV cmc_iv vc));;
      vllp_send_ack;;
      mret 0
  | _ => mret VLLP_ERR_MALFORMED
  end.

(** The header written into the fragment at each transmission. *)
Definition send_hdr (v : vllp) (b0 : Z) : Z :=
  let channel_id := Z.land b0 15 in
  let flow := if negb (channel_id =? 15) && bit_set (local_flow_status v) (id_bit channel_id)
              then VLLP_HDR_F else 0 in
  u8 (Z.lor (Z.lor (Z.land b0 (Z.lor 15 VLLP_HDR_L)) (SE v)) flow).

(** [None]: the frame does not fit the 64 bytes for a padded one. *)
Definition pad_frame (v_flags : Z) (data : list Z) : option (list Z) :=
  let n := Z.of_nat (length data) in
  if bit_set v_flags VLLP_FDCAN_ADAPTATION && (8 <? n) then
    if 64 <? n then None else
    let len := fdcan_adapation_pad_ladder n in
    Some (take (Z.to_nat (len - 1)) (data ++ replicate (Z.to_nat (64 - n)) 0) ++ [u8 (len - n)])
  else Some data.

(** [vllp_send_pkt(v, v->current_tx)], its only use. *)
Definition vllp_send_pkt : M () :=
  v ← get_v;
  match current_tx v with
  | None | Some [] => fault OutOfBounds
  | Some (b0 :: data) =>
      let data := send_hdr v b0 :: data in
      mod_v (set_current_tx (Some data));;
      match pad_frame (v_flags v) data with
      | None => fault OutOfBounds
      | Some pkt => output (Tx pkt)
      end
  end.

(** ** Sending on a channel *)

(** The fragments of a message; an MTU of 0 makes the size of the copy negative,
    an MTU of 1 makes no progress. *)
Fixpoint fragment_loop (fuel : nat) (id mtu : Z) (data : list Z) : res (list pkt) :=
  match fuel with
  | O => Fault NoFuel
  | S fuel =>
      let fsize := Z.min (Z.of_nat (length data) + 1) mtu in
      if fsize <? 1 then Fault OutOfBounds else
      let f := take (Z.to_nat (fsize - 1)) data in
      let rest := drop (Z.to_nat (fsize - 1)) data in
      match rest with
      | [] => Ret [PktMsg (Z.lor id VLLP_HDR_L :: f)]
      | _ => fs ← fragment_loop fuel id mtu rest; Ret (PktMsg (id :: f) :: fs)
      end
  end.

Fixpoint fragment_all (ms : list pkt) (mtu : Z) (vc : channel) : res channel :=
  match ms with
  | [] => Ret vc
  | PktMsg m :: ms =>
      let data := vllp_generate_crc (tx_crc_IV vc) m in
      fs ← fragment_loop (S (length data)) (vc_id vc) mtu data;
      fragment_all ms mtu (set_tx_crc_IV (u32 (tx_crc_IV vc + 1)) (set_vc_txq (vc_txq vc ++ fs) vc))
  | p :: ms => fragment_all ms mtu (set_vc_txq (vc_txq vc ++ [p]) vc)
  end.

Definition fragment (h : Z) : M () :=
  v ← get_v; vc ← get_chan h;
  match fragment_all (vc_mtxq vc) (mtu v) (set_vc_mtxq [] vc) with
  | Ret vc => put_chan h vc
  | Fault f => fault f
  end.

Fixpoint find_channel (l : list Z) (channel_id : Z) : M (option Z) :=
  match l with
  | [] => mret None
  | h :: l => vc ← get_chan h; if vc_id vc =? channel_id then mret (Some h) else find_channel l channel_id
  end.
Definition channel_find (channel_id : Z) : M (option Z) := v ← get_v; find_channel (channels v) channel_id.

Definition channel_send_vp (h : Z) (vp : pkt) : M () :=
  mod_chan h (λ vc, set_vc_mtxq (vc_mtxq vc ++ [vp]) vc);;
  vc ← get_chan h;
  if bool_decide (vc_state vc = ESTABLISHED) then
    vllp_channel_set_state h ACTIVE;; active_append h;; vllp_channel_retain h
  else mret ().
Definition channel_send_message (h : Z) (data : list Z) : M () := channel_send_vp h (PktMsg data).
Definition channel_send_close (h error_code : Z) : M () :=
  vllp_channel_retain h;; channel_send_vp h (PktEof error_code).

(** ** The control channel *)

Definition channel_make (id : Z) (st : vllp_channel_state) : M Z := λ w,
  let h := calloc (w_chans w) in
  (put_chan h (mk_channel [] [] [] false false false 0 0 [] [] 0 2 st id false false 0);;
   mod_v (λ v, set_channels (h :: channels v) v);;
   vllp_retain;;
   mret h) w.

Definition cmc_handle_open (target_channel : Z) (data : list Z) : M Z :=
  match data with
  | [] => mret VLLP_ERR_MALFORMED
  | _ =>
      found ← channel_find target_channel;
      match found with
      | Some _ => mret VLLP_ERR_BAD_STATE
      | None =>
          h ← channel_make target_channel CREATED;
          iv ← vllp_gen_channel_crc;
          mod_chan h (λ vc, set_rx_crc_IV (not32 iv) (set_tx_crc_IV iv vc));;
          let r := open_channel (take (strlen data) data) h in
          (if r_error r =? 0 then
             mod_chan h (set_vc_flags 0);;
             vllp_channel_set_state h ESTABLISHED;;
             mod_chan h (λ vc, set_has_eof (r_eof r) (set_has_rx (r_rx r) vc))
           else
             vllp_channel_unlink h;;
             vllp_channel_set_state h CLOSED;;
             vllp_channel_release h);;
          v ← get_v;
          channel_send_message (cmc v)
            [u8 (Z.lor target_channel (Z.shiftl VLLP_CMC_OPCODE_OPEN_RESPONSE 4));
             u8 (r_error r); u8 (Z.shiftr (r_error r) 8)];;
          mret 0
      end
  end.

Definition cmc_handle_open_response (target_channel : Z) (data : list Z) : M Z :=
  found ← channel_find target_channel;
  match found with
  | None => mret VLLP_ERR_BAD_STATE
  | Some h =>
      vc ← get_chan h;
      if bool_decide (vc_state vc ≠ OPEN_SENT) then mret VLLP_ERR_BAD_STATE else
      match data with
      | [a; b] =>
          let err := s16_le a b in
          (if err =? 0 then
             (if bit_set (vc_flags vc) VLLP_CHANNEL_RECONNECT then
                mod_chan h (λ vc, set_closed_status 0 (set_is_closed false (set_rxbuf [] (set_vc_rxq [] vc))))
              else mret ());;
             channel_enq_rx_meta h PktRdy;;
             match vc_mtxq vc with
             | [] => vllp_channel_set_state h ESTABLISHED
             | _ => vllp_channel_set_state h ACTIVE;; active_append h;; vllp_channel_retain h
             end
           else
             vllp_channel_set_state h CLOSED;;
             free_id (vc_id vc);;
             channels_remove h;;
             channel_enq_rx_meta h (PktEof err);;
             vllp_channel_release h);;
          mret 0
      | _ => mret VLLP_ERR_MALFORMED
      end
  end.

Definition cmc_handle_close (target_channel : Z) (data : list Z) : M Z :=
  match data with
  | a :: b :: _ =>
      let error_code := s16_le a b in
      found ← channel_find target_channel;
      match found with
      | None => mret 0
      | Some h =>
          v ← get_v;
          if h =? cmc v then mret VLLP_ERR_MALFORMED else
          vc ← get_chan h;
          match vc_state vc with
          | ACTIVE | ESTABLISHED =>
              channel_send_close h error_code;;
              channel_enq_rx_meta h (PktEof error_code);;
              mret 0
          | CLOSE_SENT =>
              vllp_channel_set_state h CLOSED;;
              (if is_client v then free_id (vc_id vc) else mret ());;
              channels_remove h;;
              channel_enq_rx_meta h (PktEof error_code);;
              vllp_channel_release h;;
              mret 0
          | _ => mret 0
          end
      end
  | _ => mret VLLP_ERR_MALFORMED
  end.

Definition cmc_rx (data : list Z) : M Z :=
  match data with
  | [] => mret VLLP_ERR_MALFORMED
  | b0 :: data =>
      let opcode := Z.shiftr b0 4 in
      let channel := Z.land b0 15 in
      v ← get_v;
      if is_client v then
        if opcode =? VLLP_CMC_OPCODE_OPEN_RESPONSE then cmc_handle_open_response channel data else
        if opcode =? VLLP_CMC_OPCODE_CLOSE then cmc_handle_close channel data else
        mret VLLP_ERR_MALFORMED
      else
        if opcode =? VLLP_CMC_OPCODE_OPEN then cmc_handle_open channel data else
        if opcode =? VLLP_CMC_OPCODE_CLOSE then cmc_handle_close channel data else
        mret VLLP_ERR_MALFORMED
  end.

(** ** The receive path *)

(** A message shorter than its checksum that passes the check makes the length
    wrap around: the copy, or the handler of the control channel, runs past the
    buffer. *)
Definition vllp_channel_receive (channel_id hdr : Z) (payload : list Z) : M Z :=
  found ← channel_find channel_id;
  match found with
  | None => mret 0
  | Some h =>
      vc ← get_chan h;
      let msg := rxbuf vc ++ payload in
      if negb (bit_set hdr VLLP_HDR_L) then mod_chan h (set_rxbuf msg);; mret 0 else
      if negb (not32 (crc (rx_crc_IV vc) msg) =? 0) then
        mod_chan h (set_rxbuf []);; mret VLLP_ERR_CHECKSUM_ERROR
      else
        mod_chan h (λ vc, set_rxbuf [] (set_rx_crc_IV (u32 (rx_crc_IV vc + 1)) vc));;
        if (length msg <? 4)%nat then fault OutOfBounds else
        let msg := take (length msg - 4) msg in
        v ← get_v;
        if h =? cmc v then cmc_rx msg else
        mod_chan h (λ vc, set_vc_rxq (vc_rxq vc ++ [PktMsg msg]) vc);;
        mret 0
  end.

(** The part for an ACK packet: an error, or its flow status. *)
Definition rx_ack (u8s : list Z) : M Z :=
  v ← get_v;
  if negb (not32 (crc (crc_IV v) u8s) =? 0) then mret VLLP_ERR_CHECKSUM_ERROR else
  match u8s with
  | [_; a; b; _; _; _; _] => mod_v (set_remote_flow_status (Z.lor a (Z.shiftl b 8)));; mret 0
  | _ => mret VLLP_ERR_MALFORMED
  end.

(** The part for a packet of a channel. *)
Definition rx_data (u8s : list Z) (now : Z) (can_accept : bool) : M Z :=
  let b0 := deref u8s in
  let channel_id := Z.land b0 15 in
  err ← (if can_accept then
           err ← vllp_channel_receive channel_id b0 (tail u8s);
           if err =? 0 then mod_v (λ v, set_SE (Z.lxor (SE v) VLLP_HDR_E) v);; mret 0 else mret err
         else mret 0);
  if negb (err =? 0) then mret err else
  mod_v (λ v, set_remote_flow_status
    (Z.lor (Z.ldiff (remote_flow_status v) (id_bit channel_id))
       (if bit_set b0 VLLP_HDR_F then id_bit channel_id else 0))
    (set_next_ack (Z.min (next_ack v) (now + 1000)) v));;
  mret 0.

(** The part for the packet that is outstanding. *)
Definition rx_tx (accepted : bool) (now : Z) : M () :=
  mod_v (λ v,
    match current_tx v with
    | None => v
    | Some _ =>
        if negb accepted then set_next_rtx (Z.min (next_rtx v) (now + 1000)) v
        else set_next_rtx INT64_MAX (set_current_tx None v)
    end).

Definition vllp_handle_rx (u8s : list Z) (now : Z) : M Z :=
  match u8s with
  | [] => mret VLLP_ERR_MALFORMED
  | b0 :: _ =>
      if b0 =? VLLP_SYN then vllp_accept_syn u8s now else
      err ← (if Z.land b0 31 =? 31 then rx_ack u8s else mret 0);
      if negb (err =? 0) then mret err else
      v ← get_v;
      let accepted := peer_accepted b0 (SE v) in
      let can_accept := we_can_accept b0 (SE v) in
      if negb (connected v) then
        if is_client v then
          if negb (b0 =? 95) then mret VLLP_ERR_BAD_STATE
          else mod_v (λ v, set_next_ack 0 (set_connected true v));; mret 0
        else mret 0
      else
      err ← (if negb (Z.land b0 15 =? 15) then rx_data u8s now can_accept else mret 0);
      if negb (err =? 0) then mret err else
      rx_tx accepted now;;
      mret 0
  end.

(** ** The transmit path *)

Definition enqueue_channel_open (h : Z) : M () :=
  iv ← vllp_gen_channel_crc;
  mod_chan h (λ vc, set_rx_crc_IV iv (set_tx_crc_IV (not32 iv) vc));;
  vc ← get_chan h; v ← get_v;
  channel_send_message (cmc v) (u8 (Z.lor (Z.shiftl VLLP_CMC_OPCODE_OPEN 4) (vc_id vc)) :: vc_name vc).

(** The loop takes the first of the queue until none is left, and nothing it
    calls puts one on: that is each of them in turn. *)
Fixpoint pending_loop (l : list Z) : M () :=
  match l with
  | [] => mret ()
  | h :: l =>
      pending_remove h;;
      vc ← get_chan h;
      (if bool_decide (vc_state vc = PENDING_OPEN) then mret () else fault Assert);;
      vllp_channel_set_state h OPEN_SENT;;
      enqueue_channel_open h;;
      vllp_channel_release h;;
      pending_loop l
  end.
Definition handle_pending_channels : M () := v ← get_v; pending_loop (pending_open v).

(** What is sent for a packet of the transmit queue as a fragment. *)
Definition pkt_bytes (p : pkt) : list Z :=
  match p with PktMsg d => d | PktEof e => le32 e | PktRdy => le32 0 end.

(** What the walk over the active channels came to. *)
Inductive scan := NothingToSend | Sent | Again.

(** The end of a stream comes up: tell the peer. *)
Definition send_close (h : Z) (txq : list pkt) (error_code : Z) : M () :=
  mod_chan h (set_vc_txq txq);;
  active_remove h;;
  vllp_channel_release h;;
  vc ← get_chan h; v ← get_v;
  channel_send_message (cmc v)
    [u8 (Z.lor (Z.shiftl VLLP_CMC_OPCODE_CLOSE 4) (vc_id vc)); u8 error_code; u8 (Z.shiftr error_code 8)];;
  vllp_channel_set_state h CLOSE_SENT;;
  vllp_channel_release h.

Definition send_fragment (h : Z) (vp : pkt) (txq : list pkt) (now : Z) : M () :=
  mod_chan h (set_vc_txq txq);;
  active_remove h;;
  vc ← get_chan h;
  mod_v (λ v, set_next_ack (now + VLLP_ACK_INTERVAL) (set_next_rtx (now + VLLP_RTX_TIMEOUT)
    (set_SE (Z.lxor (SE v) VLLP_HDR_S) (set_current_tx (Some (pkt_bytes vp))
    (set_remote_flow_status (Z.ldiff (remote_flow_status v) (id_bit (vc_id vc))) v)))));;
  match txq with
  | [] => vllp_channel_set_state h ESTABLISHED;; vllp_channel_release h
  | _ => active_append h
  end;;
  vllp_send_pkt.

Fixpoint tx_scan (l : list Z) (now : Z) : M scan :=
  match l with
  | [] => mret NothingToSend
  | h :: l =>
      vc ← get_chan h;
      (if bool_decide (vc_state vc = ACTIVE) then mret () else fault Assert);;
      fragment h;;
      vc ← get_chan h; v ← get_v;
      match vc_txq vc with
      | [] => fault Assert
      | PktEof error_code :: txq => send_close h txq error_code;; mret Again
      | vp :: txq =>
          if negb (bit_set (remote_flow_status v) (id_bit (vc_id vc))) then tx_scan l now
          else send_fragment h vp txq now;; mret Sent
      end
  end.

(** When to look again: 0 is at once.  The recursion is after a close message was
    queued, which takes a channel off the active ones. *)
Fixpoint vllp_tx (fuel : nat) (now : Z) : M Z :=
  match fuel with
  | O => fault NoFuel
  | S fuel =>
      v ← get_v;
      if negb (connected v) then
        if is_server v then mret INT64_MAX else
        if next_ack v <=? now then
          vllp_send_syn;;
          mod_v (set_next_ack (now + VLLP_ACK_INTERVAL));;
          mret 0
        else mret (next_ack v)
      else
      match current_tx v with
      | Some _ =>
          if next_rtx v <=? now then
            mod_v (λ v, set_next_ack (now + VLLP_ACK_INTERVAL) (set_next_rtx (now + VLLP_RTX_TIMEOUT) v));;
            vllp_send_pkt;;
            mret 0
          else mret (next_rtx v)
      | None =>
          r ← tx_scan (active_channels v) now;
          match r with
          | Again => vllp_tx fuel now
          | Sent => mret 0
          | NothingToSend =>
              v ← get_v;
              if next_ack v <=? now then
                k ← next_rnd;
                let interval := 900000 + VLLP_ACK_INTERVAL * Z.rem (rand k) 200 / 1000 in
                mod_v (set_next_ack (now + interval));;
                vllp_send_ack;;
                mret 0
              else mret (Z.min (next_rtx v) (next_ack v))
          end
      end
  end.
(** One call more than there are active channels, the control channel included. *)
Definition tx_fuel (v : vllp) : nat := S (S (length (active_channels v))).

(** ** The thread *)

Inductive pass := Continue | CondWait | TimedWait (wakeup : Z) | Exit.

Definition thread_start : M () := mod_v (λ v, set_next_rtx INT64_MAX (set_next_ack 0 v)).

Definition thread_exit : M () :=
  v ← get_v;
  let h := cmc v in
  vc ← get_chan h;
  (if bool_decide (vc_state vc = ACTIVE) then active_remove h;; vllp_channel_release h else mret ());;
  vllp_channel_unlink h;;
  vllp_channel_release h.

(** One pass of the loop of [vllp_thread], with its [timeout]. *)
Definition vllp_thread_pass (tmo : Z) : M (Z * pass) :=
  v ← get_v;
  if negb (run v) then thread_exit;; mret (tmo, Exit) else
  now ← get_ts;
  (if connected v then handle_pending_channels else mret ());;
  if negb (tmo =? 0) && (tmo <? now) then
    vllp_disconnect VLLP_ERR_TIMEOUT;; mret (0, Continue)
  else
  v ← get_v;
  match rxq v with
  | vp :: q =>
      mod_v (set_rxq q);;
      err ← vllp_handle_rx vp now;
      if err =? 0 then mret (now + timeout v * 1000000, Continue)
      else vllp_disconnect VLLP_ERR_MALFORMED;; mret (tmo, Continue)
  | [] =>
      wakeup ← vllp_tx (tx_fuel v) now;
      if wakeup =? 0 then mret (tmo, Continue) else
      if wakeup =? INT64_MAX then mret (tmo, CondWait) else mret (tmo, TimedWait wakeup)
  end.

(** ** Creation and the end *)

Definition new_vllp (mtu timeout v_flags : Z) : vllp :=
  mk_vllp [] None 0 0 0 [] [] [] v_flags 0 0 0 65535 65535 true false VLLP_HDR_E
    (u8 (if bit_set v_flags VLLP_FDCAN_ADAPTATION && (8 <? mtu) then mtu - 1 else mtu)) (u8 timeout) 1 false.

(** Fresh objects: the world the state starts in is the result. *)
Definition vllp_create (mtu timeout v_flags : Z) : M bool :=
  if mtu <? 8 then mret false else
  mod_v (λ _, new_vllp mtu timeout v_flags);;
  h ← channel_make 14 ESTABLISHED;
  mod_v (set_cmc h);;
  mret true.

(** The result of [vllp_create] is used without a check. *)
Definition vllp_create_client (mtu timeout v_flags : Z) : M () :=
  ok ← vllp_create mtu timeout v_flags;
  if (ok : bool) then mod_v (set_available_channel_ids 16383) else fault OutOfBounds.
Definition vllp_create_server (mtu timeout v_flags : Z) : M () :=
  ok ← vllp_create mtu timeout v_flags;
  if (ok : bool) then mod_v (set_has_open_channel true) else fault OutOfBounds.

Definition vllp_destroy : M () := mod_v (set_run false);; thread_exit;; vllp_release.

(** ** Calls from outside *)

Definition input_unpad (v_flags : Z) (data : list Z) : option (list Z) :=
  let len := Z.of_nat (length data) in
  if bit_set v_flags VLLP_FDCAN_ADAPTATION && (8 <? len) then
    let pad := default 0 (last data) in
    if len <=? pad then None else Some (take (Z.to_nat (len - pad)) data)
  else Some data.

Definition vllp_input (data : list Z) : M () :=
  v ← get_v;
  match input_unpad (v_flags v) data with
  | None | Some [] => mret ()
  | Some data => mod_v (λ v, set_rxq (rxq v ++ [data]) v)
  end.

(** One pass of the loop of [vllp_channel_rx_thread]; [false] when it ends or
    waits. *)
Definition vllp_channel_rx_pass (h : Z) : M bool :=
  vc ← get_chan h;
  if negb (rx_thread_run vc) then mret false else
  match vc_rxq vc with
  | [] => mret false
  | vp :: q =>
      mod_chan h (set_vc_rxq q);;
      (if has_eof vc then
         match vp with
         | PktEof error_code =>
             output (CallEof h error_code);;
             if negb (bit_set (vc_flags vc) VLLP_CHANNEL_RECONNECT) then mod_chan h (set_has_eof false)
             else mret ()
         | PktRdy => if has_rdy vc then output (CallRdy h) else mret ()
         | PktMsg data => output (CallRx h data)
         end
       else mret ());;
      mret true
  end.

(** [ffs(ids) - 1] of a 16-bit value that is not 0. *)
Definition first_id (ids : Z) : Z := default 0 (head (filter (λ i, Z.testbit ids i = true) (seqZ 0 16))).

Definition vllp_channel_create (name : list Z) (flags : Z) (rx eof rdy : bool) : M (option Z) :=
  v ← get_v;
  if is_server v then mret None else
  if negb (Bool.eqb rx eof) then mret None else
  if available_channel_ids v =? 0 then mret None else
  h ← channel_make (first_id (available_channel_ids v)) PENDING_OPEN;
  mod_chan h (λ vc, set_vc_flags flags (set_vc_name (take (strlen name) name)
    (set_has_rdy rdy (set_has_eof eof (set_has_rx rx vc)))));;
  mod_v (λ v, set_available_channel_ids
    (Z.ldiff (available_channel_ids v) (id_bit (first_id (available_channel_ids v)))) v);;
  pending_append h;;
  vllp_channel_retain h;;
  (if rx then vllp_channel_retain h;; mod_chan h (set_rx_thread_run true) else mret ());;
  mret (Some h).

Definition vllp_channel_send (h : Z) (data : list Z) : M () := channel_send_message h data.

(** [vllp_channel_close] up to where it may wait for the peer; [true] when it
    does. *)
Definition vllp_channel_close (h error_code : Z) (wait : bool) : M bool :=
  vc ← get_chan h;
  (if rx_thread_run vc then mod_chan h (set_rx_thread_run false);; vllp_channel_release h else mret ());;
  vc ← get_chan h; v ← get_v;
  match vc_state vc with
  | CREATED => fault Panic
  | PENDING_OPEN =>
      pending_remove h;;
      (if is_client v then free_id (vc_id vc) else mret ());;
      vllp_channel_release h;;
      vllp_channel_unlink h;;
      vllp_channel_release h;;
      mret false
  | st =>
      match st with
      | OPEN_SENT | ESTABLISHED | ACTIVE => channel_send_close h error_code
      | CLOSE_SENT => vllp_channel_unlink h
      | _ => mret ()
      end;;
      if wait then mret true else vllp_channel_release h;; mret false
  end.

(** A pass of the wait; [true] when it goes on. *)
Definition close_wait_pass (h : Z) (timed_out : bool) : M bool :=
  vc ← get_chan h; v ← get_v;
  if bool_decide (vc_state vc ≠ CLOSED) && negb timed_out then mret true else
  (if bool_decide (vc_state vc ≠ CLOSED) then
     vllp_channel_set_state h CLOSED;;
     (if is_client v then free_id (vc_id vc) else mret ());;
     channels_remove h;;
     vllp_channel_release h
   else mret ());;
  vllp_channel_release h;;
  mret false.

(** The error code and the data of [vllp_channel_read]. *)
Definition read_result : Type := Z * option (list Z).

(** The loop over what is queued: [None] when it waits. *)
Fixpoint read_loop (h : Z) (q : list pkt) : M (option read_result) :=
  match q with
  | [] => mret None
  | vp :: q =>
      mod_chan h (set_vc_rxq q);;
      match vp with
      | PktEof err => mod_chan h (λ vc, set_closed_status err (set_is_closed true vc));; mret (Some (err, None))
      | PktRdy => read_loop h q
      | PktMsg data => mret (Some (0, Some data))
      end
  end.

(** The call, and each pass after a wait; a wait that timed out is the end, whatever
    has come in the meantime. *)
Definition read_pass (h : Z) (timed_out : bool) : M (option read_result) :=
  if timed_out then
    mod_chan h (λ vc, set_closed_status VLLP_ERR_TIMEOUT (set_is_closed true vc));;
    mret (Some (VLLP_ERR_TIMEOUT, None))
  else vc ← get_chan h; read_loop h (vc_rxq vc).
Definition vllp_channel_read (h : Z) : M (option read_result) :=
  vc ← get_chan h;
  if is_closed vc then mret (Some (closed_status vc, None)) else read_pass h false.
End Host.

