(* ===== verification/VllpHostSpec.v ===== *)
(** * VllpHostSpec: the two ends of VLLP together

    [VllpHost] (the library of the host computer) as the second endpoint of the
    protocol that [Vllp] (the device) is the first of: it takes only steps of the
    alternating-bit endpoint of [VllpArq], the two agree on the connection after
    a SYN, and messages pass in both directions.  Ends with what goes wrong when a
    channel is closed after its connection was lost. *)

From Stdlib Require Import ZArith Lia.
From stdpp Require Import base list numbers gmap.
From S2P Require Import Prelude Crc LibC Pbuf.
From S2P Require Vllp VllpLink.
From S2P Require Import VllpArq VllpHost.
Import VllpHost.
Import Vllp (bit_set, peer_accepted, we_can_accept, unpad, fdcan_adapation_pad_ladder).
Import Vllp (VLLP_SYN, VLLP_HDR_S, VLLP_HDR_E, VLLP_HDR_F, VLLP_HDR_L).

Open Scope Z_scope.

#[local] Existing Instances Vllp.M_ret Vllp.M_bind.

(** ** The monad *)

Lemma host_bind_ok {A B} (m : VllpHost.M A) (k : A → VllpHost.M B) w a w' :
  m w = Ret (a, w') → (m ≫= k) w = k a w'.
Proof. intros E. unfold mbind, VllpHost.M_bind. by rewrite E. Qed.
Lemma host_bind_inv {A B} (m : VllpHost.M A) (k : A → VllpHost.M B) w b w'' :
  (m ≫= k) w = Ret (b, w'') → ∃ a w', m w = Ret (a, w') ∧ k a w' = Ret (b, w'').
Proof. unfold mbind, VllpHost.M_bind. destruct (m w) as [[a w']|]; [eauto|done]. Qed.

(** ** The endpoint

    The state of the alternating bit on the host. *)
Definition host_ctl (w : world) : ctl := (SE (w_v w), bool_decide (is_Some (current_tx (w_v w)))).

(** Operations that move neither the bits, nor the outstanding fragment, nor the
    connection, and send nothing, as long as the object lives. *)
Definition quiet (w w' : world) : Prop :=
  SE (w_v w') = SE (w_v w) ∧ current_tx (w_v w') = current_tx (w_v w) ∧
  connected (w_v w') = connected (w_v w) ∧ w_out w' = w_out w.
Definition stays (w w' : world) : Prop :=
  (∃ l, w_out w' = w_out w ++ l) ∧ (Destroyed ∉ w_out w' → quiet w w').
Definition stay {A} (m : VllpHost.M A) : Prop := ∀ w a w', m w = Ret (a, w') → stays w w'.

Create HintDb stay.

Section Stay.
Context (open_channel : list Z → Z → open_channel_result).
Context (getrandom : nat → option Z) (rand : nat → Z).
Context (calloc : gmap Z channel → Z) (crc : Z → list Z → Z).

Lemma stays_refl w : stays w w.
Proof. split; [exists []; by rewrite app_nil_r|by intros]. Qed.
Lemma stays_trans w1 w2 w3 : stays w1 w2 → stays w2 w3 → stays w1 w3.
Proof.
  intros [[l1 E1] Q1] [[l2 E2] Q2]. split; [exists (l1 ++ l2); by rewrite E2, E1, (assoc_L (++))|].
  intros Hd. assert (Destroyed ∉ w_out w2) as Hd2 by (intros H; apply Hd; rewrite E2; set_solver).
  destruct (Q1 Hd2) as (? & ? & ? & ?), (Q2 Hd) as (? & ? & ? & ?). split_and!; congruence.
Qed.
Lemma stay_bind {A B} (m : VllpHost.M A) (k : A → VllpHost.M B) :
  stay m → (∀ a, stay (k a)) → stay (m ≫= k).
Proof.
  intros Hm Hk w b w'' (a & w' & E1 & E2)%host_bind_inv.
  eapply stays_trans; [by eapply Hm|by eapply Hk].
Qed.
Lemma stay_ret {A} (a : A) : stay (mret a).
Proof. intros w x w' [= _ <-]. apply stays_refl. Qed.
Lemma stay_fault {A} f : stay (fault (A := A) f).
Proof. done. Qed.
Lemma stay_get_v : stay get_v.
Proof. intros w x w' [= _ <-]. apply stays_refl. Qed.
Lemma stay_get_ts : stay get_ts.
Proof. intros w x w' [= _ <-]. apply stays_refl. Qed.
Lemma stay_mod_v f :
  (∀ v, SE (f v) = SE v ∧ current_tx (f v) = current_tx v ∧ connected (f v) = connected v) → stay (mod_v f).
Proof.
  intros Hf w x w' [= _ <-]. split; [exists []; by rewrite app_nil_r|]. intros _.
  destruct (Hf (w_v w)) as (? & ? & ?). by split_and!.
Qed.
Lemma stay_get_chan h : stay (get_chan h).
Proof.
  intros w x w'. unfold get_chan. destruct (w_chans w !! h); [|done]. intros [= _ <-]. apply stays_refl.
Qed.
Lemma stay_put_chan h vc : stay (put_chan h vc).
Proof. intros w x w' [= _ <-]. split; [exists []; by rewrite app_nil_r|by intros]. Qed.
Lemma stay_free_chan h : stay (free_chan h).
Proof. intros w x w' [= _ <-]. split; [exists []; by rewrite app_nil_r|by intros]. Qed.
Lemma stay_destroyed : stay (output Destroyed).
Proof.
  intros w x w' [= _ <-]. split; [by exists [Destroyed]|]. cbn. intros []. apply elem_of_app. right. by left.
Qed.
End Stay.

#[export] Hint Resolve stay_ret stay_fault stay_get_v stay_get_ts stay_get_chan stay_put_chan stay_free_chan
  stay_destroyed : stay.

(** Through a monadic program: every call leaves things, on every branch. *)
Ltac stay :=
  repeat first
    [ progress intros | solve [eauto with stay] | apply stay_bind
    | (apply stay_mod_v; intros; done) | case_match ].

Section Quiet.
Context (open_channel : list Z → Z → open_channel_result).
Context (calloc : gmap Z channel → Z) (crc : Z → list Z → Z).

Lemma stay_mod_chan h f : stay (mod_chan h f).
Proof. unfold mod_chan. stay. Qed.
Hint Resolve stay_mod_chan : stay.
Lemma stay_channels_remove h : stay (channels_remove h).
Proof. unfold channels_remove, list_unlink. stay. Qed.
Lemma stay_pending_remove h : stay (pending_remove h).
Proof. unfold pending_remove, list_unlink. stay. Qed.
Lemma stay_active_remove h : stay (active_remove h).
Proof. unfold active_remove, list_unlink. stay. Qed.
Lemma stay_active_append h : stay (active_append h).
Proof. unfold active_append. stay. Qed.
Lemma stay_free_id i : stay (free_id i).
Proof. unfold free_id. stay. Qed.
Hint Resolve stay_channels_remove stay_pending_remove stay_active_remove stay_active_append stay_free_id : stay.

(** The end of the object clears the outstanding fragment, and says so. *)
Lemma stay_vllp_release : stay vllp_release.
Proof.
  unfold vllp_release, drain_rxq.
  assert (stay (mod_v (set_rxq []);; mod_v (set_current_tx None);; output Destroyed)); [|stay].
  intros w x w' E. apply host_bind_inv in E as (u1 & w1 & [= _ <-] & E).
  apply host_bind_inv in E as (u2 & w2 & [= _ <-] & E).
  injection E as _ <-. split; [by exists [Destroyed]|]. cbn. intros []. apply elem_of_app. right. by left.
Qed.
Hint Resolve stay_vllp_release : stay.
Lemma stay_channel_release h : stay (vllp_channel_release h).
Proof. unfold vllp_channel_release. stay. Qed.
Lemma stay_channel_retain h : stay (vllp_channel_retain h).
Proof. unfold vllp_channel_retain. stay. Qed.
Lemma stay_set_state h st : stay (vllp_channel_set_state h st).
Proof. unfold vllp_channel_set_state. stay. Qed.
Lemma stay_enq_rx_meta h p : stay (channel_enq_rx_meta h p).
Proof. unfold channel_enq_rx_meta. stay. Qed.
Hint Resolve stay_channel_release stay_channel_retain stay_set_state stay_enq_rx_meta : stay.
Lemma stay_unlink h : stay (vllp_channel_unlink h).
Proof. unfold vllp_channel_unlink. stay. Qed.
Lemma stay_channel_make id st : stay (channel_make calloc id st).
Proof.
  intros w a w' E. unfold channel_make in E. revert E.
  assert (∀ h vc, stay (put_chan h vc;; mod_v (λ v, set_channels (h :: channels v) v);; vllp_retain;; mret h))
    as H by (unfold vllp_retain; stay).
  apply H.
Qed.
Lemma stay_gen_channel_crc : stay (vllp_gen_channel_crc crc).
Proof. unfold vllp_gen_channel_crc. stay. Qed.
Lemma stay_find_channel l id : stay (find_channel l id).
Proof. induction l as [|h l IH]; cbn [find_channel]; stay. Qed.
Hint Resolve stay_unlink stay_channel_make stay_gen_channel_crc stay_find_channel : stay.
Lemma stay_channel_find id : stay (channel_find id).
Proof. unfold channel_find. stay. Qed.
Lemma stay_send_vp h p : stay (channel_send_vp h p).
Proof. unfold channel_send_vp. stay. Qed.
Hint Resolve stay_channel_find stay_send_vp : stay.
Lemma stay_send_message h d : stay (channel_send_message h d).
Proof. unfold channel_send_message. stay. Qed.
Lemma stay_send_channel_close h e : stay (channel_send_close h e).
Proof. unfold channel_send_close. stay. Qed.
Lemma stay_fragment h : stay (fragment crc h).
Proof. unfold fragment. stay. Qed.
Hint Resolve stay_send_message stay_send_channel_close stay_fragment : stay.
Lemma stay_send_close h q e : stay (send_close h q e).
Proof. unfold send_close. stay. Qed.
Lemma stay_handle_open c d : stay (cmc_handle_open open_channel calloc crc c d).
Proof. unfold cmc_handle_open. stay. Qed.
Lemma stay_handle_open_response c d : stay (cmc_handle_open_response c d).
Proof. unfold cmc_handle_open_response. stay. Qed.
Lemma stay_handle_close c d : stay (cmc_handle_close c d).
Proof. unfold cmc_handle_close. stay. Qed.
Hint Resolve stay_send_close stay_handle_open stay_handle_open_response stay_handle_close : stay.
Lemma stay_cmc_rx d : stay (cmc_rx open_channel calloc crc d).
Proof. unfold cmc_rx. stay. Qed.
Hint Resolve stay_cmc_rx : stay.
Lemma stay_receive c h d : stay (VllpHost.vllp_channel_receive open_channel calloc crc c h d).
Proof. unfold VllpHost.vllp_channel_receive. stay. Qed.
End Quiet.

#[export] Hint Resolve stay_mod_chan stay_channels_remove stay_pending_remove stay_active_remove
  stay_active_append stay_free_id stay_channel_release stay_channel_retain stay_set_state stay_enq_rx_meta
  stay_unlink stay_gen_channel_crc stay_channel_find stay_send_message stay_fragment stay_send_close
  stay_receive : stay.

(** ** Header bits *)

Lemma u8_testbit z i : 0 <= i < 8 → Z.testbit (u8 z) i = Z.testbit z i.
Proof. intros Hi. unfold u8. change 256 with (2 ^ 8). by rewrite Z.mod_pow2_bits_low by lia. Qed.
(** The two top bits of a byte made of [se] and bits below. *)
Lemma top_bits se x :
  Z.land x 192 = 0 → Z.land (u8 (Z.lor se x)) 192 = Z.land se 192.
Proof.
  intros Hx. apply Z.bits_inj'. intros i Hi. rewrite !Z.land_spec.
  destruct (decide (i = 6 ∨ i = 7)) as [Hi67|Hi67].
  - rewrite u8_testbit, Z.lor_spec by lia. f_equal.
    assert (Z.testbit (Z.land x 192) i = false) as Hb by (by rewrite Hx, Z.bits_0).
    rewrite Z.land_spec in Hb. assert (Z.testbit 192 i = true) as H1 by (by destruct Hi67 as [->| ->]).
    rewrite H1, andb_true_r in Hb. by rewrite Hb, orb_false_r.
  - assert (Z.testbit 192 i = false) as ->; [|by rewrite !andb_false_r].
    change 192 with (Z.lor (2 ^ 6) (2 ^ 7)). by rewrite Z.lor_spec, !Z.pow2_bits_false by lia.
Qed.

Lemma send_hdr_bits v b0 : Z.land (send_hdr v b0) 192 = Z.land (SE v) 192.
Proof.
  unfold send_hdr. set (flow := if (_ && _)%bool then _ else _).
  rewrite (Z.lor_comm (Z.land b0 _)), <- Z.lor_assoc. apply top_bits. rewrite Z.land_lor_distr_l, <- Z.land_assoc.
  change (Z.land (Z.lor 15 VLLP_HDR_L) 192) with 0. rewrite Z.land_0_r.
  unfold flow. by destruct (_ && _)%bool.
Qed.
Lemma send_hdr_ack se : Z.land (u8 (Z.lor se 31)) 192 = Z.land se 192 ∧ Z.land (u8 (Z.lor se 31)) 31 = 31.
Proof.
  split; [by apply top_bits|]. apply Z.bits_inj'. intros i Hi. rewrite Z.land_spec.
  destruct (Z.testbit 31 i) eqn:E; [|by rewrite andb_false_r]. rewrite andb_true_r.
  assert (i < 5) as Hi5.
  { destruct (decide (i < 5)); [done|]. change 31 with (Z.ones 5) in E. by rewrite Z.ones_spec_high in E by lia. }
  rewrite u8_testbit, Z.lor_spec, E by lia. apply orb_true_r.
Qed.

Lemma pad_frame_head fl b data p : pad_frame fl (b :: data) = Some p → deref p = b.
Proof.
  unfold pad_frame. set (n := Z.of_nat (length (b :: data))).
  destruct (_ && _)%bool eqn:E; [|by intros [= <-]]. apply andb_true_iff in E as [_ E%Z.ltb_lt].
  destruct (64 <? n); [done|]. intros [= <-].
  assert (1 < fdcan_adapation_pad_ladder n) by (unfold fdcan_adapation_pad_ladder; repeat case_match; lia).
  by destruct (Z.to_nat (fdcan_adapation_pad_ladder n - 1)) eqn:Ek; [lia|].
Qed.

(** ** Refinement *)

Section Refine.
Context (open_channel : list Z → Z → open_channel_result).
Context (getrandom : nat → option Z) (rand : nat → Z).
Context (calloc : gmap Z channel → Z) (crc : Z → list Z → Z).

(** A frame the endpoint may put on the wire: an ACK, or the outstanding fragment,
    with its S and E bits. *)
Definition host_emits (w : world) (f : list Z) : Prop :=
  Z.land (deref f) 192 = Z.land (SE (w_v w)) 192 ∧
  (Z.land (deref f) 31 = 31 ∨ ∃ d, current_tx (w_v w) = Some d ∧ pad_frame (v_flags (w_v w)) d = Some f).

Lemma host_rx_ack_stays u w err w' : rx_ack crc u w = Ret (err, w') → stays w w'.
Proof.
  assert (stay (rx_ack crc u)) as H; [|by apply H]. unfold rx_ack.
  apply stay_bind; [stay|]. intros v. case_match; [stay|]. do 8 (case_match; [stay|]). stay.
Qed.

Lemma host_rx_data_cases u now can w w' :
  VllpHost.rx_data open_channel calloc crc u now can w = Ret (0, w') → Destroyed ∉ w_out w' →
  SE (w_v w') = flip can VLLP_HDR_E (SE (w_v w)) ∧ current_tx (w_v w') = current_tx (w_v w) ∧
  connected (w_v w') = connected (w_v w) ∧ w_out w' = w_out w.
Proof.
  intros (err & w1 & E1 & E)%host_bind_inv Hd.
  assert (err = 0 ∧ w_out w' = w_out w1 ∧ SE (w_v w') = SE (w_v w1) ∧
    current_tx (w_v w') = current_tx (w_v w1) ∧ connected (w_v w') = connected (w_v w1)) as (-> & Eo & Es & Et & Ec).
  { destruct (err =? 0) eqn:Ee; cbn [negb] in E.
    - apply Z.eqb_eq in Ee as ->. by injection E as <-.
    - injection E as -> _. by rewrite Z.eqb_refl in Ee. }
  clear E. rewrite Eo, Es, Et, Ec. rewrite Eo in Hd. destruct can; cbn [flip].
  - apply host_bind_inv in E1 as (err & w2 & E2 & E1). destruct (err =? 0) eqn:Ee.
    + apply host_bind_inv in E1 as (x & w3 & [= _ <-] & [= <-]). apply stay_receive in E2 as [_ Hq].
      destruct (Hq Hd) as (H1 & H2 & H3 & H4). split_and!; try done. cbn. by rewrite H1.
    + injection E1 as -> _. by rewrite Z.eqb_refl in Ee.
  - by injection E1 as <-.
Qed.

Lemma host_rx_refines u now w w' :
  vllp_handle_rx open_channel calloc crc u now w = Ret (0, w') → connected (w_v w) = true →
  deref u ≠ VLLP_SYN → Destroyed ∉ w_out w' →
  let data := negb (Z.land (deref u) 15 =? 15) in
  let acc := (data && we_can_accept (deref u) (SE (w_v w)))%bool in
  connected (w_v w') = true ∧ w_out w' = w_out w ∧ recv_allowed (deref u) data acc false (host_ctl w) ∧
  host_ctl w' = ctl_recv (deref u) acc false (host_ctl w).
Proof.
  intros E Hc Hsyn Hd. destruct u as [|b0 u]; [done|]. change (deref (b0 :: u)) with b0 in *. intros data acc.
  unfold vllp_handle_rx in E. rewrite (proj2 (Z.eqb_neq _ _) Hsyn) in E.
  apply host_bind_inv in E as (err & w1 & E1 & E).
  destruct (err =? 0) eqn:Ee; cbn [negb] in E; [|injection E as -> _; by rewrite Z.eqb_refl in Ee].
  apply host_bind_inv in E as (v & w1' & [= <- <-] & E).
  assert (stays w w1) as [_ Hq1].
  { destruct (_ =? 31); [by eapply host_rx_ack_stays|by injection E1 as _ <-; apply stays_refl]. }
  destruct (connected (w_v w1)) eqn:Hc1; cbn [negb] in E.
  2: { assert (Destroyed ∉ w_out w1) as Hd1.
       { destruct (is_client _); [|by injection E as <-]. destruct (negb _); [by injection E as ? <-|].
         apply host_bind_inv in E as (x & w2 & [= _ <-] & [= <-]). exact Hd. }
       destruct (Hq1 Hd1) as (_ & _ & ? & _). congruence. }
  apply host_bind_inv in E as (err2 & w2 & E2 & E).
  destruct (err2 =? 0) eqn:Ee2; cbn [negb] in E; [|injection E as -> _; by rewrite Z.eqb_refl in Ee2].
  apply Z.eqb_eq in Ee2 as ->. apply host_bind_inv in E as (x & w3 & [= _ <-] & [= <-]).
  cbn [w_out w_v] in *. set (can := we_can_accept b0 (SE (w_v w1))) in *.
  assert (SE (w_v w2) = flip (data && can) VLLP_HDR_E (SE (w_v w1)) ∧ current_tx (w_v w2) = current_tx (w_v w1) ∧
    connected (w_v w2) = connected (w_v w1) ∧ w_out w2 = w_out w1) as (Es & Et & Ec & Eo).
  { unfold data. destruct (Z.land b0 15 =? 15) eqn:E15; cbn [negb andb] in *; [by injection E2 as <-|].
    by apply host_rx_data_cases in E2. }
  rewrite Eo in Hd. destruct (Hq1 Hd) as (Es1 & Et1 & Ec1 & Eo1).
  unfold can in *. rewrite Es1 in *. fold acc in Es. unfold host_ctl, ctl_recv, recv_allowed, still_busy.
  cbn [fst snd flip orb]. rewrite Et, Et1.
  assert (connected (match current_tx (w_v w) with
    | Some _ => if negb (peer_accepted b0 (SE (w_v w))) then set_next_rtx (Z.min (next_rtx (w_v w2)) (now + 1000)) (w_v w2)
        else set_next_rtx INT64_MAX (set_current_tx None (w_v w2)) | None => w_v w2 end) = true) as ->
    by (repeat case_match; cbn; congruence).
  split_and!; [done|congruence| |done|].
  - intros Ha. by apply andb_true_iff in Ha.
  - destruct (current_tx (w_v w)) as [d|] eqn:Ed; cbn [andb].
    + rewrite (bool_decide_true (is_Some (Some d))) by eauto. destruct (peer_accepted b0 (SE (w_v w))); cbn [negb andb].
      * cbn [w_v SE current_tx set_next_rtx set_current_tx]. by rewrite Es.
      * cbn [w_v SE current_tx set_next_rtx set_current_tx]. by rewrite Es, ?Et, ?Et1, ?Ed.
    + cbn [w_v]. by rewrite Es, ?Et, ?Et1, ?Ed.
Qed.

Lemma host_send_pkt_ok w x w' :
  vllp_send_pkt w = Ret (x, w') →
  SE (w_v w') = SE (w_v w) ∧ connected (w_v w') = connected (w_v w) ∧
  is_Some (current_tx (w_v w)) ∧ is_Some (current_tx (w_v w')) ∧
  ∃ f, w_out w' = w_out w ++ [Tx f] ∧ host_emits w' f.
Proof.
  intros (v & w1 & [= <- <-] & E)%host_bind_inv. destruct (current_tx (w_v w)) as [[|b0 data]|] eqn:Et; [done| |done].
  apply host_bind_inv in E as (y & w2 & [= _ <-] & E).
  destruct (pad_frame _ _) as [f|] eqn:Ef; [|done]. injection E as _ <-. cbn.
  split_and!; [done|done|by eexists|by eexists|]. exists f. split; [done|]. split.
  - cbn. rewrite (pad_frame_head _ _ _ _ Ef). apply send_hdr_bits.
  - right. eexists. by split.
Qed.

Lemma host_send_ack_ok w x w' :
  vllp_send_ack crc w = Ret (x, w') →
  w_v w' = w_v w ∧ ∃ f, w_out w' = w_out w ++ [Tx f] ∧ host_emits w' f.
Proof.
  intros (v & w1 & [= <- <-] & [= _ <-])%host_bind_inv. cbn. split; [done|]. eexists. split; [done|].
  destruct (send_hdr_ack (SE (w_v w))) as [H1 H2]. split; [exact H1|]. left. exact H2.
Qed.

(** A new fragment goes out. *)
Definition starts (w w' : world) : Prop :=
  connected (w_v w') = connected (w_v w) ∧ host_ctl w' = (flip true VLLP_HDR_S (SE (w_v w)), true) ∧
  ∃ f, w_out w' = w_out w ++ [Tx f] ∧ host_emits w' f.

Lemma stay_elim {A} (m : VllpHost.M A) w a w' : m w = Ret (a, w') → stay m → stays w w'.
Proof. intros E H. by eapply H. Qed.

Lemma stays_starts w1 w2 w3 : stays w1 w2 → starts w2 w3 → Destroyed ∉ w_out w3 → starts w1 w3.
Proof.
  intros [_ Q] (H1 & H2 & f & H3 & H4) Hd.
  destruct Q as (E1 & E2 & E3 & E4); [intros H; apply Hd; rewrite H3; set_solver|].
  split; [congruence|]. rewrite <- E1. split; [done|]. exists f. by rewrite <- E4.
Qed.
Lemma stays_quiet w1 w2 w3 : stays w1 w2 → quiet w2 w3 → Destroyed ∉ w_out w3 → quiet w1 w3.
Proof.
  intros [_ Q] (H1 & H2 & H3 & H4) Hd. destruct Q as (E1 & E2 & E3 & E4); [by rewrite <- H4|].
  split_and!; congruence.
Qed.

Lemma send_fragment_starts h vp txq now w x w' :
  send_fragment h vp txq now w = Ret (x, w') → Destroyed ∉ w_out w' → starts w w'.
Proof.
  intros (u1 & w1 & E1 & E)%host_bind_inv Hd. apply stay_elim in E1; [|stay].
  apply host_bind_inv in E as (u2 & w2 & E2 & E). apply stay_elim in E2; [|stay].
  apply host_bind_inv in E as (vc & w3 & E3 & E). apply stay_elim in E3; [|stay].
  apply host_bind_inv in E as (u4 & w4 & [= _ <-] & E).
  apply host_bind_inv in E as (u5 & w5 & E5 & E). apply stay_elim in E5 as [_ Q5]; [|stay].
  apply host_send_pkt_ok in E as (Hs & Hc & _ & Ht & f & Ho & He).
  assert (stays w w3) as Hw by (do 2 (eapply stays_trans; [eassumption|]); done).
  apply (stays_starts _ w3); [done| |done].
  destruct Q5 as (Es5 & Et5 & Ec5 & Eo5); [intros H; apply Hd; rewrite Ho; set_solver|].
  cbn in Es5, Et5, Ec5, Eo5. split; [congruence|]. unfold host_ctl. rewrite bool_decide_true by done.
  split; [cbn; congruence|]. exists f. split; [congruence|done].
Qed.

Lemma tx_scan_cases l now : ∀ w r w',
  tx_scan crc l now w = Ret (r, w') → Destroyed ∉ w_out w' →
  match r with Sent => starts w w' | _ => quiet w w' end.
Proof.
  induction l as [|h l IH]; intros w r w'; cbn [tx_scan].
  { intros [= <- <-] _. by split_and!. }
  intros (vc & w1 & E1 & E)%host_bind_inv Hd. apply stay_elim in E1; [|stay].
  apply host_bind_inv in E as (u2 & w2 & E2 & E). apply stay_elim in E2; [|stay].
  apply host_bind_inv in E as (u3 & w3 & E3 & E). apply stay_elim in E3; [|stay].
  apply host_bind_inv in E as (vc4 & w4 & E4 & E). apply stay_elim in E4; [|stay].
  apply host_bind_inv in E as (v & w5 & [= <- <-] & E).
  assert (stays w w4) as Hw by (do 3 (eapply stays_trans; [eassumption|]); done).
  clear E1 E2 E3 E4. assert (∀ vp txq, (if negb (bit_set (remote_flow_status (w_v w4)) (id_bit (vc_id vc4)))
      then tx_scan crc l now else send_fragment h vp txq now;; mret Sent) w4 = Ret (r, w') →
    match r with Sent => starts w w' | _ => quiet w w' end) as Hfrag.
  { intros vp txq E'. destruct (negb _).
    - apply IH in E'; [|done]. destruct r; [by eapply stays_quiet|by eapply stays_starts|by eapply stays_quiet].
    - apply host_bind_inv in E' as (u6 & w6 & E6 & [= <- <-]). apply send_fragment_starts in E6; [|done].
      by eapply stays_starts. }
  destruct (vc_txq vc4) as [|[d|e|] txq]; [done|by eapply Hfrag| |by eapply Hfrag].
  apply host_bind_inv in E as (u6 & w6 & E6 & [= <- <-]). apply stay_elim in E6; [|stay].
  destruct (stays_trans _ _ _ Hw E6) as [_ Q]. by apply Q.
Qed.

(** The output only grows. *)
Definition grows (w w' : world) : Prop := ∃ l, w_out w' = w_out w ++ l.
Lemma grows_trans w1 w2 w3 : grows w1 w2 → grows w2 w3 → grows w1 w3.
Proof. intros [l1 E1] [l2 E2]. exists (l1 ++ l2). by rewrite E2, E1, (assoc_L (++)). Qed.
Lemma grows_alive w w' : grows w w' → Destroyed ∉ w_out w' → Destroyed ∉ w_out w.
Proof. intros [l E] Hd H. apply Hd. rewrite E. set_solver. Qed.
Definition grow {A} (m : VllpHost.M A) : Prop := ∀ w a w', m w = Ret (a, w') → grows w w'.
Lemma stay_grow {A} (m : VllpHost.M A) : stay m → grow m.
Proof. intros H w a w' E. by apply H in E as [? _]. Qed.
Lemma grow_bind {A B} (m : VllpHost.M A) (k : A → VllpHost.M B) :
  grow m → (∀ a, grow (k a)) → grow (m ≫= k).
Proof. intros Hm Hk w b w'' (a & w' & E1 & E2)%host_bind_inv. eapply grows_trans; [by eapply Hm|by eapply Hk]. Qed.
Lemma grow_output e : grow (output e).
Proof. intros w x w' [= _ <-]. by eexists. Qed.
Lemma grow_mod_v f : grow (mod_v f).
Proof. intros w x w' [= _ <-]. exists []. by rewrite app_nil_r. Qed.
Lemma grow_next_rnd : grow next_rnd.
Proof. intros w x w' [= _ <-]. exists []. by rewrite app_nil_r. Qed.
Ltac grow :=
  repeat first
    [ progress intros | (apply stay_grow; solve [eauto with stay]) | apply grow_output | apply grow_mod_v
    | apply grow_next_rnd | apply grow_bind | (apply stay_grow; solve [stay]) | case_match ].
Lemma grow_send_pkt : grow vllp_send_pkt.
Proof. unfold vllp_send_pkt. grow. Qed.
Lemma grow_tx_scan l now : grow (tx_scan crc l now).
Proof.
  induction l as [|h l IH]; cbn [tx_scan]; [grow|]. pose proof grow_send_pkt.
  unfold send_fragment. grow; first [apply IH | by apply H | idtac].
Qed.
Lemma grow_tx fuel now : grow (vllp_tx getrandom rand crc fuel now).
Proof.
  induction fuel as [|fuel IH]; cbn [vllp_tx]; [done|]. pose proof grow_send_pkt. pose proof grow_tx_scan.
  unfold vllp_send_syn, vllp_send_ack, drain_rxq. grow; auto.
Qed.

(** What a call of [vllp_tx] does to the endpoint: it may start one fragment when
    none is outstanding, and it puts at most one frame on the wire. *)
Lemma host_tx_refines fuel now : ∀ w t w',
  vllp_tx getrandom rand crc fuel now w = Ret (t, w') → connected (w_v w) = true → Destroyed ∉ w_out w' →
  connected (w_v w') = true ∧
  (∃ start, (start = true → (host_ctl w).2 = false) ∧
     host_ctl w' = (flip start VLLP_HDR_S (host_ctl w).1, (start || (host_ctl w).2)%bool)) ∧
  ∃ frames, w_out w' = w_out w ++ (Tx <$> frames) ∧ (length frames <= 1)%nat ∧ Forall (host_emits w') frames.
Proof.
  assert (∀ c : ctl, c = (flip false VLLP_HDR_S c.1, (false || c.2)%bool)) as Hid by (by intros []).
  induction fuel as [|fuel IH]; intros w t w'; cbn [vllp_tx]; [done|].
  intros (v & w1 & [= <- <-] & E)%host_bind_inv Hc Hd. rewrite Hc in E. cbn [negb] in E.
  destruct (current_tx (w_v w)) as [d|] eqn:Et.
  - destruct (next_rtx (w_v w) <=? now).
    + apply host_bind_inv in E as (x & w2 & [= _ <-] & E).
      apply host_bind_inv in E as (y & w3 & E3 & [= _ <-]).
      apply host_send_pkt_ok in E3 as (Es & Ec & Ht & Ht' & f & Ho & He). cbn in Es, Ec, Ht, Ho.
      split; [congruence|]. split.
      * exists false. split; [done|]. rewrite <- Hid. unfold host_ctl. rewrite !bool_decide_true by done. congruence.
      * exists [f]. split; [done|]. split; [done|]. by apply Forall_singleton.
    + injection E as _ <-. split; [done|]. split; [exists false; split; [done|apply Hid]|].
      exists []. rewrite app_nil_r. split; [done|]. split; [cbn; lia|by apply Forall_nil].
  - apply host_bind_inv in E as (r & w2 & E2 & E). destruct r.
    + apply host_bind_inv in E as (v2 & w2' & [= <- <-] & E).
      destruct (next_ack (w_v w2) <=? now).
      * apply host_bind_inv in E as (k & w3 & [= <- <-] & E). apply host_bind_inv in E as (x & w4 & [= _ <-] & E).
        apply host_bind_inv in E as (y & w5 & E5 & [= _ <-]). apply host_send_ack_ok in E5 as (Ev & f & Ho & He).
        cbn in Ev, Ho. apply tx_scan_cases in E2; [|intros H; apply Hd; rewrite Ho; set_solver].
        destruct E2 as (H1 & H2 & H3 & H4). rewrite Ev. split; [cbn; congruence|]. split.
        { exists false. split; [done|]. rewrite <- Hid. unfold host_ctl. rewrite Ev. cbn. by rewrite H1, H2. }
        exists [f]. split; [by rewrite Ho, H4|]. split; [done|]. by apply Forall_singleton.
      * injection E as _ <-. apply tx_scan_cases in E2 as (H1 & H2 & H3 & H4); [|done].
        split; [congruence|]. split.
        { exists false. split; [done|]. rewrite <- Hid. unfold host_ctl. by rewrite H1, H2. }
        exists []. rewrite app_nil_r. split; [done|]. split; [cbn; lia|by apply Forall_nil].
    + injection E as _ <-. apply tx_scan_cases in E2 as (H1 & H2 & f & H3 & H4); [|done].
      split; [congruence|]. split; [exists true; split; [by unfold host_ctl; rewrite Et|done]|].
      exists [f]. split; [done|]. split; [done|]. by apply Forall_singleton.
    + apply grow_tx in E as Hg. apply grows_alive in Hg; [|done]. apply tx_scan_cases in E2 as (H1 & H2 & H3 & H4); [|done].
      destruct (IH w2 t w') as (? & ? & ?); [done|congruence|done|]. unfold host_ctl in *. rewrite H1, H2, H4 in *. done.
Qed.
End Refine.

(** ** A call of [vllp_tx] returns

    Given what the library keeps true of the channels it sends on: they are on the
    active list once, ACTIVE, with something queued, and hold the references of their
    list and of their owner or the peer. *)

Definition pkt_ok (m : Z) (p : pkt) : Prop :=
  match p with PktMsg d => d ≠ [] ∧ Z.of_nat (length d) <= m | _ => True end.
Definition no_eof (l : list pkt) : Prop := Forall (λ p, match p with PktEof _ => False | _ => True end) l.

Record sendable (m : Z) (vc : channel) : Prop := {
  sn_state : vc_state vc = ACTIVE;
  sn_queue : vc_txq vc ++ vc_mtxq vc ≠ [];
  sn_pkts : Forall (pkt_ok m) (vc_txq vc);
  sn_refs : 2 <= refcount vc;
}.

Definition others (w : world) : list Z := filter (λ h, h ≠ cmc (w_v w)) (active_channels (w_v w)).

Record tx_ready (w : world) : Prop := {
  tr_mtu : 8 <= mtu (w_v w) ∧ (bit_set (v_flags (w_v w)) VLLP_FDCAN_ADAPTATION = true → mtu (w_v w) <= 64);
  tr_cur d : current_tx (w_v w) = Some d → d ≠ [] ∧ Z.of_nat (length d) <= mtu (w_v w);
  tr_nodup : NoDup (active_channels (w_v w));
  tr_active h : h ∈ active_channels (w_v w) → ∃ vc, w_chans w !! h = Some vc ∧ sendable (mtu (w_v w)) vc;
  tr_cmc : ∃ vc, w_chans w !! cmc (w_v w) = Some vc ∧ 1 <= refcount vc ∧ no_eof (vc_txq vc ++ vc_mtxq vc) ∧
    Forall (pkt_ok (mtu (w_v w))) (vc_txq vc) ∧ (vc_state vc = ACTIVE ↔ cmc (w_v w) ∈ active_channels (w_v w));
  tr_refs : Z.of_nat (length (others w)) + 1 < v_refcount (w_v w) < 4294967296;
}.

Lemma fragment_loop_total fuel id m data :
  8 <= m → data ≠ [] → (length data <= fuel)%nat →
  ∃ fs, fragment_loop fuel id m data = Ret fs ∧ fs ≠ [] ∧ Forall (pkt_ok m) fs ∧ no_eof fs.
Proof.
  intros Hm. revert data. induction fuel as [|fuel IH]; intros data Hne Hl; [destruct data; [done|cbn in Hl; lia]|].
  cbn [fragment_loop]. set (n := Z.min (Z.of_nat (length data) + 1) m).
  assert (0 < length data)%nat by (destruct data; [done|cbn; lia]).
  destruct (n <? 1) eqn:E; bool_to_prop; [lia|].
  assert (∀ x, pkt_ok m (PktMsg (x :: take (Z.to_nat (n - 1)) data))) as Hp.
  { intros x. split; [done|]. cbn [length]. rewrite length_take. lia. }
  destruct (drop (Z.to_nat (n - 1)) data) as [|y rest] eqn:Er.
  - eexists. split; [done|]. split_and!; [done| |]; apply Forall_singleton; [apply Hp|done].
  - assert (length (drop (Z.to_nat (n - 1)) data) = length data - Z.to_nat (n - 1))%nat as Hd by apply length_drop.
    destruct (IH (drop (Z.to_nat (n - 1)) data)) as (fs & E2 & _ & H2 & H3); [by rewrite Er|rewrite Hd; lia|].
    rewrite Er in E2. rewrite E2. eexists. split; [done|]. split_and!; [done| |]; by constructor.
Qed.

Lemma fragment_all_total crc m ms : ∀ vc,
  8 <= m → Forall (pkt_ok m) (vc_txq vc) →
  ∃ vc', fragment_all crc ms m vc = Ret vc' ∧ Forall (pkt_ok m) (vc_txq vc') ∧
    (vc_txq vc ++ ms ≠ [] → vc_txq vc' ≠ []) ∧ (no_eof (vc_txq vc ++ ms) → no_eof (vc_txq vc')) ∧
    vc_state vc' = vc_state vc ∧ refcount vc' = refcount vc ∧ vc_id vc' = vc_id vc ∧ vc_mtxq vc' = vc_mtxq vc.
Proof.
  induction ms as [|p ms IH]; intros vc Hm Hp.
  { exists vc. rewrite app_nil_r. by split_and!. }
  assert (∀ vc1 fs, vc_state vc1 = vc_state vc ∧ refcount vc1 = refcount vc ∧ vc_id vc1 = vc_id vc ∧ vc_mtxq vc1 = vc_mtxq vc →
    vc_txq vc1 = vc_txq vc ++ fs → Forall (pkt_ok m) fs → fs ≠ [] → (no_eof [p] → no_eof fs) →
    ∃ vc', fragment_all crc ms m vc1 = Ret vc' ∧ Forall (pkt_ok m) (vc_txq vc') ∧
      (vc_txq vc ++ p :: ms ≠ [] → vc_txq vc' ≠ []) ∧ (no_eof (vc_txq vc ++ p :: ms) → no_eof (vc_txq vc')) ∧
      vc_state vc' = vc_state vc ∧ refcount vc' = refcount vc ∧ vc_id vc' = vc_id vc ∧ vc_mtxq vc' = vc_mtxq vc) as Hgo.
  { intros vc1 fs (A1 & A2 & A3 & A4) E Hf Hne Hno. destruct (IH vc1 Hm) as (vc' & E' & H1 & H2 & H3 & H4 & H5 & H6 & H7).
    { rewrite E. by apply Forall_app. }
    exists vc'. split_and!; try done; try congruence.
    - intros _. apply H2. rewrite E. destruct (vc_txq vc), fs; done.
    - unfold no_eof in *. rewrite Forall_app, Forall_cons. intros (B1 & B2 & B3). apply H3. rewrite E, !Forall_app.
      split_and!; [done|by apply Hno, Forall_singleton|done]. }
  destruct p as [d|e|]; cbn [fragment_all].
  - destruct (fragment_loop_total (S (length (vllp_generate_crc crc (tx_crc_IV vc) d))) (vc_id vc) m
      (vllp_generate_crc crc (tx_crc_IV vc) d)) as (fs & -> & F1 & F2 & F3); [done|by destruct d|lia|].
    cbn [mbind res_bind]. by eapply (Hgo _ fs).
  - eapply (Hgo _ [PktEof e]); [by split_and!|done|by repeat constructor|done|done].
  - eapply (Hgo _ [PktRdy]); [by split_and!|done|by repeat constructor|done|done].
Qed.

Definition with_chan (h : Z) (vc : channel) (w : world) : world :=
  mk_world (w_v w) (<[h := vc]> (w_chans w)) (w_now w) (w_rnd w) (w_out w).
Definition with_v (v : vllp) (w : world) : world := mk_world v (w_chans w) (w_now w) (w_rnd w) (w_out w).

Lemma mod_chan_ok h f w vc : w_chans w !! h = Some vc → mod_chan h f w = Ret (tt, with_chan h (f vc) w).
Proof. intros E. unfold mod_chan. rewrite (host_bind_ok (get_chan h) _ w vc w); [done|]. unfold get_chan. by rewrite E. Qed.
Lemma get_chan_ok h w vc : w_chans w !! h = Some vc → get_chan h w = Ret (vc, w).
Proof. intros E. unfold get_chan. by rewrite E. Qed.
Lemma active_remove_ok h w :
  h ∈ active_channels (w_v w) →
  active_remove h w = Ret (tt, with_v (set_active_channels (filter (λ x, x ≠ h) (active_channels (w_v w))) (w_v w)) w).
Proof. intros Hh. unfold active_remove, list_unlink. rewrite (host_bind_ok get_v _ w (w_v w) w) by done. by rewrite bool_decide_true. Qed.

Lemma chan_release_ok h w vc :
  w_chans w !! h = Some vc → 2 <= refcount vc →
  vllp_channel_release h w = Ret (tt, with_chan h (set_refcount (refcount vc - 1) vc) w).
Proof.
  intros E Hr. unfold vllp_channel_release.
  rewrite (host_bind_ok _ _ w tt _ (mod_chan_ok h _ w vc E)).
  rewrite (host_bind_ok (get_chan h) _ _ _ _ (get_chan_ok h (with_chan h _ w) _ (lookup_insert_eq _ _ _))).
  cbn [refcount set_refcount]. rewrite (proj2 (Z.eqb_neq _ _)) by lia. done.
Qed.

(** The last reference to a channel: it is freed, and its reference to the whole. *)
Lemma chan_release_last h w vc :
  w_chans w !! h = Some vc → refcount vc = 1 → 1 < v_refcount (w_v w) < 4294967296 →
  vllp_channel_release h w =
    Ret (tt, mk_world (set_v_refcount (v_refcount (w_v w) - 1) (w_v w)) (delete h (w_chans w)) (w_now w) (w_rnd w) (w_out w)).
Proof.
  intros E Hr Hv. unfold vllp_channel_release.
  rewrite (host_bind_ok _ _ w tt _ (mod_chan_ok h _ w vc E)).
  rewrite (host_bind_ok (get_chan h) _ _ _ _ (get_chan_ok h (with_chan h _ w) _ (lookup_insert_eq _ _ _))).
  cbn [refcount set_refcount]. rewrite Hr. change (1 - 1 =? 0) with true. cbn [negb].
  set (w1 := with_chan h _ w). unfold vllp_release.
  assert (u32 (v_refcount (w_v w) - 1) = v_refcount (w_v w) - 1) as Hu by (apply u32_id; unfold is_u32; lia).
  assert ((mod_v (λ v, set_v_refcount (u32 (v_refcount v - 1)) v);;
    v ← get_v;
    if negb (v_refcount v =? 0) then mret () else
    match channels v, pending_open v, active_channels v with
    | [], [], [] => drain_rxq;; mod_v (set_current_tx None);; output Destroyed
    | _, _, _ => fault Assert
    end) w1 = Ret (tt, with_v (set_v_refcount (v_refcount (w_v w) - 1) (w_v w)) w1)) as Er.
  { rewrite (host_bind_ok (mod_v _) _ w1 tt (with_v (set_v_refcount (u32 (v_refcount (w_v w) - 1)) (w_v w)) w1)) by done.
    rewrite Hu. set (w2 := with_v _ w1). rewrite (host_bind_ok get_v _ w2 (w_v w2) w2) by done.
    change (v_refcount (w_v w2)) with (v_refcount (w_v w) - 1).
    by rewrite (proj2 (Z.eqb_neq (v_refcount (w_v w) - 1) 0)) by lia. }
  rewrite (host_bind_ok _ _ w1 tt _ Er). unfold free_chan, with_v, w1, with_chan. cbn. by rewrite delete_insert_eq.
Qed.

(** Another record for a channel that keeps what is required of it. *)
Lemma tx_ready_chan h vc vc' w :
  tx_ready w → w_chans w !! h = Some vc →
  (sendable (mtu (w_v w)) vc → sendable (mtu (w_v w)) vc') →
  (h = cmc (w_v w) → 1 <= refcount vc → no_eof (vc_txq vc ++ vc_mtxq vc) → Forall (pkt_ok (mtu (w_v w))) (vc_txq vc) →
     1 <= refcount vc' ∧ no_eof (vc_txq vc' ++ vc_mtxq vc') ∧ Forall (pkt_ok (mtu (w_v w))) (vc_txq vc') ∧
     vc_state vc' = vc_state vc) →
  tx_ready (with_chan h vc' w).
Proof.
  intros [H1 H2 H3 H4 H5 H6] E Hs Hc. split; try done; cbn [w_v w_chans with_chan].
  - intros k Hk. destruct (H4 k Hk) as (x & Ex & Sx). destruct (decide (h = k)) as [<-|Hne].
    + exists vc'. rewrite lookup_insert_eq. split; [done|]. apply Hs. congruence.
    + exists x. by rewrite lookup_insert_ne.
  - destruct H5 as (x & Ex & A1 & A2 & A3 & A4). destruct (decide (h = cmc (w_v w))) as [->|Hne].
    + exists vc'. rewrite lookup_insert_eq. rewrite E in Ex. injection Ex as <-.
      destruct (Hc eq_refl A1 A2 A3) as (? & ? & ? & ->). by split_and!.
    + exists x. rewrite lookup_insert_ne by done. by split_and!.
Qed.

Lemma fragment_ready crc h w :
  tx_ready w → h ∈ active_channels (w_v w) →
  ∃ vc', fragment crc h w = Ret (tt, with_chan h vc' w) ∧ tx_ready (with_chan h vc' w) ∧
    sendable (mtu (w_v w)) vc' ∧ vc_txq vc' ≠ [] ∧ (h = cmc (w_v w) → no_eof (vc_txq vc')).
Proof.
  intros Hr Hh. destruct (tr_active w Hr h Hh) as (vc & E & [S1 S2 S3 S4]).
  destruct (fragment_all_total crc (mtu (w_v w)) (vc_mtxq vc) (set_vc_mtxq [] vc)) as
    (vc' & Ef & F1 & F2 & F3 & F4 & F5 & F6 & F7); [apply Hr|done|].
  cbn [vc_txq set_vc_mtxq vc_state refcount vc_mtxq] in F2, F3, F4, F5, F7.
  assert (sendable (mtu (w_v w)) vc') as Hs'.
  { split; [congruence|rewrite F7, app_nil_r; by apply F2|done|lia]. }
  exists vc'. split_and!; try done; [| |by apply F2|].
  - unfold fragment. rewrite (host_bind_ok get_v _ w (w_v w) w) by done.
    rewrite (host_bind_ok (get_chan h) _ w vc w) by by apply get_chan_ok. by rewrite Ef.
  - apply (tx_ready_chan h vc); try done. intros _ A1 A2 A3. rewrite F7, app_nil_r.
    split_and!; [lia|by apply F3|done|done].
  - intros ->. apply F3. destruct (tr_cmc w Hr) as (x & Ex & _ & A2 & _). congruence.
Qed.

(** A control message: the control channel becomes active if it was not. *)
Lemma host_message_ok w cc data :
  let c := cmc (w_v w) in let act := active_channels (w_v w) in
  w_chans w !! c = Some cc → NoDup act → 1 <= refcount cc →
  (vc_state cc = ACTIVE ↔ c ∈ act) → (c ∈ act → 2 <= refcount cc) →
  ∃ cc' act', channel_send_message c data w =
      Ret (tt, with_chan c cc' (with_v (set_active_channels act' (w_v w)) w)) ∧
    1 <= refcount cc' ∧ vc_txq cc' = vc_txq cc ∧ vc_mtxq cc' = vc_mtxq cc ++ [PktMsg data] ∧
    (vc_state cc' = ACTIVE ↔ c ∈ act') ∧ (c ∈ act' → 2 <= refcount cc') ∧
    (∀ k, k ≠ c → (k ∈ act' ↔ k ∈ act)) ∧ NoDup act' ∧ filter (λ k, k ≠ c) act' = filter (λ k, k ≠ c) act.
Proof.
  intros c act Ec Hnd C1 C4 C5. unfold channel_send_message, channel_send_vp.
  rewrite (host_bind_ok _ _ w tt _ (mod_chan_ok c _ w cc Ec)). set (cc1 := set_vc_mtxq _ cc). set (w4 := with_chan c cc1 w).
  assert (w_chans w4 !! c = Some cc1) as E4 by apply lookup_insert_eq.
  rewrite (host_bind_ok (get_chan c) _ w4 cc1 w4) by by apply get_chan_ok.
  change (vc_state cc1) with (vc_state cc). destruct (decide (vc_state cc = ESTABLISHED)) as [He|He].
  - rewrite bool_decide_true by done. assert (c ∉ act) as Hca2 by (rewrite <- C4; congruence).
    unfold vllp_channel_set_state. rewrite (host_bind_ok _ _ w4 tt _ (mod_chan_ok c _ w4 cc1 E4)).
    unfold active_append.
    rewrite (host_bind_ok (mod_v _) _ _ tt (with_v (set_active_channels (act ++ [c]) (w_v w)) (with_chan c (set_vc_state ACTIVE cc1) w4))) by done.
    unfold vllp_channel_retain. rewrite (mod_chan_ok c _ _ (set_vc_state ACTIVE cc1)) by apply lookup_insert_eq.
    exists (set_refcount (refcount cc + 1) (set_vc_state ACTIVE cc1)), (act ++ [c]). split.
    { unfold with_chan, with_v, w4. cbn. by rewrite !insert_insert_eq. }
    cbn. split_and!; try done; [lia| | | | |].
    + split; [|done]. intros _. set_solver.
    + intros _. lia.
    + intros k Hk. set_solver.
    + apply NoDup_app. split_and!; [done| |apply NoDup_singleton]. by intros x Hx ->%list_elem_of_singleton.
    + rewrite filter_app, (filter_cons_False _ c) by tauto. by rewrite app_nil_r.
  - rewrite bool_decide_false by done. exists cc1, act. split; [|by split_and!].
    assert (∀ v, set_active_channels (active_channels v) v = v) as Hv by by intros [].
    unfold act. by rewrite Hv.
Qed.

Lemma filter_both_lt (l : list Z) h c :
  h ∈ l → h ≠ c → (length (filter (λ x, x ≠ c) (filter (λ x, x ≠ h) l)) < length (filter (λ x, x ≠ c) l))%nat.
Proof.
  intros Hh Hne. assert (∀ l : list Z, length (filter (λ x, x ≠ c) (filter (λ x, x ≠ h) l)) <= length (filter (λ x, x ≠ c) l))%nat as Hle.
  { clear. intros l. induction l as [|x l IH]; [done|]. rewrite !filter_cons.
    destruct (decide (x ≠ h)), (decide (x ≠ c)); rewrite ?filter_cons, ?decide_True, ?decide_False by done; cbn; lia. }
  induction l as [|x l IH]; [by apply elem_of_nil in Hh|]. rewrite !filter_cons.
  destruct (decide (x = h)) as [->|Hx].
  - rewrite (decide_False (P := h ≠ h)), (decide_True (P := h ≠ c)) by tauto. cbn. specialize (Hle l). lia.
  - apply elem_of_cons in Hh as [->|Hh]; [done|]. specialize (IH Hh).
    rewrite (decide_True (P := x ≠ h)) by done. rewrite filter_cons. case_decide; cbn; lia.
Qed.

Lemma send_close_ready h txq e w vc :
  tx_ready w → h ∈ active_channels (w_v w) → h ≠ cmc (w_v w) →
  w_chans w !! h = Some vc → sendable (mtu (w_v w)) vc →
  ∃ w', send_close h txq e w = Ret (tt, w') ∧ tx_ready w' ∧ (length (others w') < length (others w))%nat ∧
    w_out w' = w_out w.
Proof.
  intros Hr Hh Hne E Hs. pose proof Hr as [M1 M2 M3 M4 (cc & Ec & C1 & C2 & C3 & C4) M6].
  destruct Hs as [S1 S2 S3 S4]. unfold send_close.
  rewrite (host_bind_ok _ _ w tt _ (mod_chan_ok h _ w vc E)). set (vc1 := set_vc_txq txq vc). set (w1 := with_chan h vc1 w).
  assert (w_chans w1 !! h = Some vc1) as E1 by apply lookup_insert_eq.
  rewrite (host_bind_ok _ _ w1 tt _ (active_remove_ok h w1 Hh)).
  change (active_channels (w_v w1)) with (active_channels (w_v w)). set (act := filter (λ x, x ≠ h) (active_channels (w_v w))).
  set (w2 := with_v _ w1).
  rewrite (host_bind_ok _ _ w2 tt _ (chan_release_ok h w2 vc1 E1 S4)). change (refcount vc1) with (refcount vc).
  set (vc3 := set_refcount (refcount vc - 1) vc1). set (w3 := with_chan h vc3 w2).
  assert (w_chans w3 !! h = Some vc3) as E3 by apply lookup_insert_eq.
  rewrite (host_bind_ok (get_chan h) _ w3 vc3 w3) by by apply get_chan_ok.
  rewrite (host_bind_ok get_v _ w3 (w_v w3) w3) by done.
  set (c := cmc (w_v w)) in *. change (cmc (w_v w3)) with c. set (data := [_; _; _]).
  assert (w_chans w3 !! c = Some cc) as Ec3.
  { cbn [w_chans with_chan with_v w3 w2 w1]. by rewrite !lookup_insert_ne. }
  assert (c ∈ act ↔ c ∈ active_channels (w_v w)) as Hca by (unfold act; rewrite list_elem_of_filter; naive_solver).
  destruct (host_message_ok w3 cc data Ec3) as (cc' & act' & Em & D1 & D2 & D3 & D4 & D5 & D6 & D7 & D8);
    [by apply NoDup_filter|done|by change (vc_state cc = ACTIVE ↔ c ∈ act); rewrite C4, Hca| |].
  { change (c ∈ act → 2 <= refcount cc). rewrite Hca. intros Hin.
    destruct (M4 c Hin) as (x & Ex & [_ _ _ Sx]). rewrite Ec in Ex. by injection Ex as <-. }
  change (cmc (w_v w3)) with c in *. change (active_channels (w_v w3)) with act in *.
  rewrite (host_bind_ok _ _ w3 tt _ Em). set (w5 := with_chan c cc' _).
  assert (w_chans w5 !! h = Some vc3) as E5 by (cbn; rewrite lookup_insert_ne by done; exact E3).
  unfold vllp_channel_set_state. rewrite (host_bind_ok _ _ w5 tt _ (mod_chan_ok h _ w5 vc3 E5)).
  set (vc6 := set_vc_state CLOSE_SENT vc3). set (w6 := with_chan h vc6 w5).
  assert (w_chans w6 !! h = Some vc6) as E6 by apply lookup_insert_eq.
  assert (h ∉ act') as Hh' by (rewrite D6 by done; unfold act; rewrite list_elem_of_filter; tauto).
  (* what holds of the lists in the end *)
  assert (∀ k, k ∈ act' → k ≠ h ∧ (k ≠ c → k ∈ active_channels (w_v w))) as Hact.
  { intros k Hk. split; [by intros ->|]. intros Hkc. apply D6 in Hk; [|done]. by apply list_elem_of_filter in Hk as [_ ?]. }
  assert (length (filter (λ k, k ≠ c) act') < length (filter (λ k, k ≠ c) (active_channels (w_v w))))%nat as Hlen.
  { rewrite D8. by apply filter_both_lt. }
  assert (∀ v6 chs, mtu v6 = mtu (w_v w) → v_flags v6 = v_flags (w_v w) → current_tx v6 = current_tx (w_v w) →
    active_channels v6 = act' → cmc v6 = c → (∀ k, k ≠ h → chs !! k = w_chans w6 !! k) →
    v_refcount (w_v w) - 1 <= v_refcount v6 <= v_refcount (w_v w) →
    tx_ready (mk_world v6 chs (w_now w) (w_rnd w) (w_out w)) ∧
    (length (others (mk_world v6 chs (w_now w) (w_rnd w) (w_out w))) < length (others w))%nat) as Hfin.
  { intros v6 chs X1 X2 X3 X4 X5 X6 X7. split; [|unfold others; cbn; by rewrite X4, X5].
    assert (∀ k, k ≠ h → k ≠ c → chs !! k = w_chans w !! k) as Hold.
    { intros k N1 N2. rewrite X6 by done. cbn. by rewrite !lookup_insert_ne. }
    assert (chs !! c = Some cc') as Hcc by (rewrite X6 by done; cbn; by rewrite lookup_insert_ne, lookup_insert_eq).
    split; cbn [w_v w_chans]; rewrite ?X1, ?X2, ?X3, ?X4, ?X5; try done.
    - intros k Hk. destruct (Hact k Hk) as [N1 Hk2]. destruct (decide (k = c)) as [->|N2].
      + exists cc'. split; [done|]. split; [by apply D4|rewrite D3; destruct (vc_txq cc'), (vc_mtxq cc); done|by rewrite D2|by apply D5].
      + destruct (M4 k (Hk2 N2)) as (x & Ex & Sx). exists x. by rewrite Hold.
    - exists cc'. split; [done|]. split_and!; [done| |by rewrite D2|done].
      rewrite D2, D3, app_assoc. apply Forall_app. split; [done|]. by apply Forall_singleton.
    - unfold others in *. cbn. rewrite X4, X5. fold c in M6. lia. }
  destruct (decide (2 <= refcount vc6)) as [Hrc|Hrc].
  - rewrite (chan_release_ok h w6 vc6 E6 Hrc). eexists. split; [done|]. split; [|done].
    apply Hfin; try done; [|cbn; lia]. intros k Hk. cbn. by rewrite lookup_insert_ne.
  - assert (refcount vc6 = 1) as Hr1 by (cbn in *; lia).
    rewrite (chan_release_last h w6 vc6 E6 Hr1) by (cbn; lia). eexists. split; [done|]. split; [|done].
    apply Hfin; try done; [|cbn; lia]. intros k Hk. cbn. by rewrite lookup_delete_ne.
Qed.

Lemma send_pkt_total w d m :
  current_tx (w_v w) = Some d → d ≠ [] → Z.of_nat (length d) <= m →
  (bit_set (v_flags (w_v w)) VLLP_FDCAN_ADAPTATION = true → m <= 64) →
  ∃ v f, vllp_send_pkt w = Ret (tt, mk_world v (w_chans w) (w_now w) (w_rnd w) (w_out w ++ [Tx f])).
Proof.
  intros Et Hne Hl Hm. unfold vllp_send_pkt. rewrite (host_bind_ok get_v _ w (w_v w) w) by done.
  rewrite Et. destruct d as [|b0 d]; [done|].
  rewrite (host_bind_ok (mod_v _) _ w tt (with_v (set_current_tx (Some (send_hdr (w_v w) b0 :: d)) (w_v w)) w)) by done.
  unfold pad_frame. cbn [length] in *. destruct (bit_set _ _) eqn:Eb; cbn [andb]; [|by do 2 eexists].
  specialize (Hm eq_refl). destruct (8 <? _); [|by do 2 eexists].
  destruct (64 <? _) eqn:E; bool_to_prop; [lia|]. by do 2 eexists.
Qed.

Lemma send_fragment_total h vp txq now w vc :
  tx_ready w → h ∈ active_channels (w_v w) → w_chans w !! h = Some vc → sendable (mtu (w_v w)) vc →
  vc_txq vc = vp :: txq →
  ∃ w' f, send_fragment h vp txq now w = Ret (tt, w') ∧ w_out w' = w_out w ++ [Tx f].
Proof.
  intros Hr Hh E [S1 S2 S3 S4] Eq. unfold send_fragment.
  rewrite (host_bind_ok _ _ w tt _ (mod_chan_ok h _ w vc E)). set (vc1 := set_vc_txq txq vc). set (w1 := with_chan h vc1 w).
  rewrite (host_bind_ok _ _ w1 tt _ (active_remove_ok h w1 Hh)). set (w2 := with_v _ w1).
  assert (w_chans w2 !! h = Some vc1) as E2 by apply lookup_insert_eq.
  rewrite (host_bind_ok (get_chan h) _ w2 vc1 w2) by by apply get_chan_ok.
  destruct (tr_mtu w Hr) as [Hm1 Hm2].
  assert (pkt_bytes vp ≠ [] ∧ Z.of_nat (length (pkt_bytes vp)) <= mtu (w_v w)) as [Hp1 Hp2].
  { rewrite Eq in S3. apply Forall_cons in S3 as [Hp _]. destruct vp; [exact Hp|cbn; split; [done|lia]..]. }
  assert (∃ v3, w2 = w2 ∧ mod_v (λ v, set_next_ack (now + VLLP_ACK_INTERVAL) (set_next_rtx (now + VLLP_RTX_TIMEOUT)
    (set_SE (Z.lxor (SE v) VLLP_HDR_S) (set_current_tx (Some (pkt_bytes vp))
    (set_remote_flow_status (Z.ldiff (remote_flow_status v) (id_bit (vc_id vc1))) v))))) w2 = Ret (tt, with_v v3 w2) ∧
    current_tx v3 = Some (pkt_bytes vp) ∧ v_flags v3 = v_flags (w_v w)) as (v3 & _ & E3 & C1 & C2).
  { eexists. split; [done|]. by split_and!. }
  rewrite (host_bind_ok _ _ w2 tt _ E3). set (w3 := with_v v3 w2).
  assert (∃ w4, (match txq with
      | [] => vllp_channel_set_state h ESTABLISHED;; vllp_channel_release h
      | _ => active_append h end) w3 = Ret (tt, w4) ∧ current_tx (w_v w4) = Some (pkt_bytes vp) ∧
      v_flags (w_v w4) = v_flags (w_v w) ∧ w_out w4 = w_out w) as (w4 & E4 & F1 & F2 & F3).
  { destruct txq as [|p txq']; [|eexists; split; [done|]; by split_and!].
    unfold vllp_channel_set_state. assert (w_chans w3 !! h = Some vc1) as Ec by exact E2.
    rewrite (host_bind_ok _ _ w3 tt _ (mod_chan_ok h _ w3 vc1 Ec)).
    rewrite (chan_release_ok h _ (set_vc_state ESTABLISHED vc1)) by (apply lookup_insert_eq || done).
    eexists. split; [done|]. by split_and!. }
  rewrite (host_bind_ok _ _ w3 tt w4 E4).
  destruct (send_pkt_total w4 (pkt_bytes vp) (mtu (w_v w)) F1 Hp1 Hp2) as (v5 & f & E5); [by rewrite F2|].
  rewrite E5. do 2 eexists. split; [done|]. cbn. by rewrite F3.
Qed.

(** A walk returns, and if it found a channel to close there are fewer left. *)
Lemma tx_scan_total crc now l : ∀ w,
  tx_ready w → (∀ h, h ∈ l → h ∈ active_channels (w_v w)) →
  ∃ r w', tx_scan crc l now w = Ret (r, w') ∧
    match r with
    | Sent => ∃ f, w_out w' = w_out w ++ [Tx f]
    | Again => tx_ready w' ∧ (length (others w') < length (others w))%nat ∧ w_out w' = w_out w
    | NothingToSend => w_out w' = w_out w
    end.
Proof.
  induction l as [|h l IH]; intros w Hr Hin; cbn [tx_scan]; [by do 2 eexists|].
  assert (h ∈ active_channels (w_v w)) as Hh by (apply Hin; by left).
  destruct (tr_active w Hr h Hh) as (vc & E & Hs).
  rewrite (host_bind_ok (get_chan h) _ w vc w) by by apply get_chan_ok.
  rewrite bool_decide_true by apply Hs. rewrite (host_bind_ok (mret ()) _ w () w) by done.
  destruct (fragment_ready crc h w Hr Hh) as (vc' & Ef & Hr' & Hs' & Hne & Hno).
  rewrite (host_bind_ok _ _ w tt _ Ef). set (w1 := with_chan h vc' w) in *.
  assert (w_chans w1 !! h = Some vc') as E1 by apply lookup_insert_eq.
  rewrite (host_bind_ok (get_chan h) _ w1 vc' w1) by by apply get_chan_ok.
  rewrite (host_bind_ok get_v _ w1 (w_v w1) w1) by done.
  assert (∀ vp txq, vc_txq vc' = vp :: txq → ∃ r w',
    (if negb (bit_set (remote_flow_status (w_v w1)) (id_bit (vc_id vc'))) then tx_scan crc l now
     else send_fragment h vp txq now;; mret Sent) w1 = Ret (r, w') ∧
    match r with
    | Sent => ∃ f, w_out w' = w_out w ++ [Tx f]
    | Again => tx_ready w' ∧ (length (others w') < length (others w))%nat ∧ w_out w' = w_out w
    | NothingToSend => w_out w' = w_out w
    end) as Hgo.
  { intros vp txq Eq. destruct (negb _).
    - refine (IH w1 Hr' _). intros k Hk. apply Hin. by right.
    - destruct (send_fragment_total h vp txq now w1 vc' Hr' Hh E1 Hs' Eq) as (w' & f & E2 & Ho).
      rewrite (host_bind_ok _ _ w1 tt w' E2). exists Sent, w'. split; [done|]. by exists f. }
  destruct (vc_txq vc') as [|[d|e|] txq] eqn:Eq; [done|by apply Hgo| |by apply Hgo].
  assert (h ≠ cmc (w_v w1)) as Hnc.
  { intros Hc. specialize (Hno Hc). rewrite ?Eq in Hno. by apply Forall_cons in Hno as [? _]. }
  destruct (send_close_ready h txq e w1 vc' Hr' Hh Hnc E1 Hs') as (w' & E2 & H1 & H2 & H3).
  rewrite (host_bind_ok _ _ w1 tt w' E2). exists Again, w'. split; [done|]. by split_and!.
Qed.

Lemma vllp_tx_total getrandom rand crc now fuel : ∀ w,
  connected (w_v w) = true → tx_ready w → Destroyed ∉ w_out w → (length (others w) < fuel)%nat →
  ∃ t w', vllp_tx getrandom rand crc fuel now w = Ret (t, w') ∧ Destroyed ∉ w_out w'.
Proof.
  induction fuel as [|fuel IH]; intros w Hc Hr Hd Hf; [lia|]. cbn [vllp_tx].
  assert (∀ f, Destroyed ∉ w_out w ++ [Tx f]) as Htx
    by (intros f [?|Hx]%elem_of_app; [done|by apply list_elem_of_singleton in Hx]).
  rewrite (host_bind_ok get_v _ w (w_v w) w) by done. rewrite Hc. cbn [negb].
  destruct (current_tx (w_v w)) as [d|] eqn:Et.
  - destruct (next_rtx (w_v w) <=? now); [|by do 2 eexists].
    destruct (tr_cur w Hr d Et) as [D1 D2].
    set (w1 := with_v (set_next_ack (now + VLLP_ACK_INTERVAL) (set_next_rtx (now + VLLP_RTX_TIMEOUT) (w_v w))) w).
    rewrite (host_bind_ok (mod_v _) _ w tt w1) by done.
    destruct (send_pkt_total w1 d (mtu (w_v w)) Et D1 D2 (proj2 (tr_mtu w Hr))) as (v & f & E).
    rewrite (host_bind_ok _ _ w1 tt _ E). do 2 eexists. split; [reflexivity|apply Htx].
  - destruct (tx_scan_total crc now (active_channels (w_v w)) w Hr ltac:(done)) as (r & w2 & E & Hcase).
    rewrite (host_bind_ok _ _ w r w2 E). destruct r.
    + rewrite (host_bind_ok get_v _ w2 (w_v w2) w2) by done.
      destruct (next_ack (w_v w2) <=? now); [|eexists _, w2; split; [done|by rewrite Hcase]].
      match goal with |- ∃ t w', ?m w2 = _ ∧ _ =>
        assert (∃ f w3, m w2 = Ret (0, w3) ∧ w_out w3 = w_out w2 ++ [Tx f]) as (f & w3 & -> & E3)
          by (do 2 eexists; split; reflexivity) end.
      do 2 eexists. split; [done|]. rewrite E3, Hcase. apply Htx.
    + destruct Hcase as [f Ho]. eexists _, w2. split; [done|]. by rewrite Ho.
    + destruct Hcase as (Hr2 & Hlt & Ho). assert (Destroyed ∉ w_out w2) as Hd2 by by rewrite Ho.
      destruct (tx_scan_cases (λ _ _, mk_open_result 0 false false) crc _ _ _ _ _ E Hd2) as (_ & _ & Hc2 & _). apply IH; [congruence|done|done|lia].
Qed.

(** C11: the host is an endpoint of the alternating-bit protocol.  On a connection that
    stays up, a frame that is not a SYN and is handled without error moves the S and
    E bits and the outstanding fragment exactly as a step of the abstract endpoint
    (the E bit flips if and only if the frame carries the expected fragment) and
    sends nothing; and a call of [vllp_tx], with the channels it sends on as [tx_ready]
    says, returns, starts at most one fragment, only when none is outstanding, and puts
    at most one frame on the wire, an ACK or the outstanding fragment, with the
    endpoint's bits. *)
Theorem host_refines_arq oc getrandom rand calloc crc (w : world) :
  connected (w_v w) = true →
  (∀ u now w', vllp_handle_rx oc calloc crc u now w = Ret (0, w') → deref u ≠ VLLP_SYN → Destroyed ∉ w_out w' →
     let data := negb (Z.land (deref u) 15 =? 15) in
     let acc := (data && we_can_accept (deref u) (SE (w_v w)))%bool in
     connected (w_v w') = true ∧ w_out w' = w_out w ∧ recv_allowed (deref u) data acc false (host_ctl w) ∧
     host_ctl w' = ctl_recv (deref u) acc false (host_ctl w)) ∧
  (∀ now, tx_ready w → Destroyed ∉ w_out w →
     ∃ t w', vllp_tx getrandom rand crc (tx_fuel (w_v w)) now w = Ret (t, w') ∧
     connected (w_v w') = true ∧
     (∃ start, (start = true → (host_ctl w).2 = false) ∧
        host_ctl w' = (flip start VLLP_HDR_S (host_ctl w).1, (start || (host_ctl w).2)%bool)) ∧
     ∃ frames, w_out w' = w_out w ++ (Tx <$> frames) ∧ (length frames <= 1)%nat ∧ Forall (host_emits w') frames).
Proof.
  intros Hc. split.
  - intros u now w' E Hs Hd. by eapply host_rx_refines.
  - intros now Hr Hd. destruct (vllp_tx_total getrandom rand crc now (tx_fuel (w_v w)) w Hc Hr Hd) as (t & w' & E & Hd').
    { unfold tx_fuel, others. pose proof (length_filter (λ h, h ≠ cmc (w_v w)) (active_channels (w_v w))). lia. }
    exists t, w'. split; [done|]. by eapply host_tx_refines.
Qed.

(** ** Messages from the host to the device *)

(** The MTU of the host, less the header. *)
Definition room (w : world) : nat := Z.to_nat (mtu (w_v w) - 1).

(** What a fragment looks like in the queue: header byte with the channel, and the
    L bit on the last. *)
Fixpoint queued (id : Z) (frs : list (list Z)) : list pkt :=
  match frs with
  | [] => []
  | [f] => [PktMsg (Z.lor id VLLP_HDR_L :: f)]
  | f :: frs => PktMsg (id :: f) :: queued id frs
  end.

Lemma queued_cons id f frs : frs ≠ [] → queued id (f :: frs) = PktMsg (id :: f) :: queued id frs.
Proof. by destruct frs. Qed.

Lemma chop_ne fuel k m : (0 < fuel)%nat → VllpLink.chop fuel k m ≠ [].
Proof. destruct fuel; [lia|]. cbn. by case_match. Qed.

Lemma fragment_loop_ok fuel id mtu data :
  2 <= mtu → data ≠ [] → (length data <= fuel)%nat →
  fragment_loop fuel id mtu data = Ret (queued id (VllpLink.chop fuel (Z.to_nat (mtu - 1)) data)).
Proof.
  intros Hmtu. revert data. induction fuel as [|fuel IH]; intros data Hne Hl; [destruct data; [done|cbn in Hl; lia]|].
  cbn [fragment_loop VllpLink.chop]. set (k := Z.to_nat (mtu - 1)).
  rewrite (proj2 (Z.ltb_ge _ _)) by (destruct data; [done|cbn [length]; lia]).
  assert (Z.to_nat (Z.min (Z.of_nat (length data) + 1) mtu - 1) = Nat.min (length data) k) as -> by (unfold k; lia).
  destruct (length data <=? k)%nat eqn:E.
  - apply Nat.leb_le in E. rewrite Nat.min_l by done. by rewrite drop_all, take_ge.
  - apply Nat.leb_gt in E. rewrite Nat.min_r by lia.
    assert (length (drop k data) = length data - k)%nat as Hd by apply length_drop.
    destruct (drop k data) as [|x rest] eqn:Er; [cbn in Hd; lia|]. rewrite <- Er in *.
    assert (0 < k)%nat by (unfold k; lia).
    rewrite IH by (rewrite ?Hd; try lia; by rewrite Er). cbn [mbind res_bind].
    rewrite queued_cons; [done|]. apply chop_ne. lia.
Qed.

(** [fragment] turns the one message that waits into fragments. *)
Lemma fragment_ok crc h (w : world) vc data :
  w_chans w !! h = Some vc → vc_mtxq vc = [PktMsg data] → 2 <= mtu (w_v w) →
  let m := VllpLink.wire crc (tx_crc_IV vc) data in
  fragment crc h w = Ret (tt, mk_world (w_v w)
    (<[h := set_tx_crc_IV (u32 (tx_crc_IV vc + 1))
              (set_vc_txq (vc_txq vc ++ queued (vc_id vc) (VllpLink.chop (S (length m)) (room w) m))
                 (set_vc_mtxq [] vc))]> (w_chans w)) (w_now w) (w_rnd w) (w_out w)).
Proof.
  intros Hh Hm Hmtu m. unfold fragment.
  rewrite (host_bind_ok get_v _ w (w_v w) w) by done.
  rewrite (host_bind_ok (get_chan h) _ w vc w) by (unfold get_chan; by rewrite Hh).
  rewrite Hm. cbn [fragment_all]. change (vllp_generate_crc crc (tx_crc_IV _) data) with m.
  change (vc_id (set_vc_mtxq [] vc)) with (vc_id vc).
  rewrite fragment_loop_ok; [done|done| |lia].
  unfold m, VllpLink.wire. by destruct data.
Qed.

Definition hdr_kept (se id : Z) (l f : bool) : bool :=
  let h := u8 (Z.lor (Z.lor (Z.land (if l then Z.lor id 16 else id) 31) se) (if f then 32 else 0)) in
  ((Z.land h 15 =? id) && Bool.eqb (bit_set h 16) l && negb (Z.land h 31 =? 31))%bool.
Lemma hdr_kept_all se id l f : VllpLink.se_bits se → 0 <= id < 15 → hdr_kept se id l f = true.
Proof.
  intros Hse Hid. assert (id ∈ seqZ 0 15) as Hin by (apply elem_of_seqZ; lia).
  assert (forallb (λ se, forallb (λ id, hdr_kept se id false false && hdr_kept se id false true
    && hdr_kept se id true false && hdr_kept se id true true)%bool (seqZ 0 15)) [0; 64; 128; 192] = true)
    as H by (vm_compute; reflexivity).
  rewrite forallb_forall in H. specialize (H se (proj1 (list_elem_of_In _ _) Hse)).
  rewrite forallb_forall in H. specialize (H id (proj1 (list_elem_of_In _ _) Hin)).
  bool_to_prop. by destruct l, f.
Qed.

(** What [vllp_send_pkt] writes into a queued header keeps the channel and the L
    bit. *)
Lemma send_hdr_kept v id (l : bool) :
  VllpLink.se_bits (SE v) → 0 <= id < 15 →
  let h := send_hdr v (if l then Z.lor id VLLP_HDR_L else id) in
  Z.land h 15 = id ∧ bit_set h VLLP_HDR_L = l.
Proof.
  intros Hse Hid h. unfold h, send_hdr, VLLP_HDR_L, VLLP_HDR_F.
  change (Z.lor 15 16) with 31. set (f := (_ && _)%bool).
  pose proof (hdr_kept_all (SE v) id l f Hse Hid) as H. unfold hdr_kept in H. cbv zeta in H.
  bool_to_prop. split; [done|]. by apply Bool.eqb_prop.
Qed.

(** A frame padded for CAN FD and received by the device. *)
Lemma pad_frame_unpad fl d :
  (length d <= 63)%nat → bit_set fl VLLP_FDCAN_ADAPTATION = true →
  ∃ p, pad_frame fl d = Some p ∧ unpad p = Some d ∧ VllpLink.can_len (length p).
Proof.
  intros Hl Hfl. unfold pad_frame. rewrite Hfl. set (n := Z.of_nat (length d)). cbn [andb].
  destruct (8 <? n) eqn:E; [|exists d; split; [done|]; split].
  - apply Z.ltb_lt in E. rewrite (proj2 (Z.ltb_ge 64 n)) by lia.
    destruct (VllpLink.pad_ladder_spec n) as [Hlad Hin]; [lia|].
    set (len := fdcan_adapation_pad_ladder n) in *. eexists. split; [done|].
    set (body := take (Z.to_nat (len - 1)) (d ++ replicate (Z.to_nat (64 - n)) 0)).
    assert (length body = Z.to_nat (len - 1)) as Hb by (unfold body; rewrite length_take, length_app, length_replicate; lia).
    assert (Z.of_nat (length (body ++ [u8 (len - n)])) = len) as Hlen by (rewrite length_app, Hb; cbn [length]; lia).
    split.
    + unfold unpad. rewrite Hlen, (proj2 (Z.ltb_lt 8 len)) by lia. rewrite last_snoc. cbn [from_option id].
      rewrite u8_id by (unfold is_byte; lia). rewrite (proj2 (Z.leb_gt _ _)) by lia.
      f_equal. replace (len - (len - n)) with n by lia.
      rewrite take_app_le by lia. unfold body. rewrite take_take, Nat.min_l by lia.
      unfold n. rewrite Nat2Z.id. apply take_app_length.
    + right. assert (length (body ++ [u8 (len - n)]) = Z.to_nat len) as -> by lia. done.
  - unfold unpad. fold n. by rewrite E.
  - left. apply Z.ltb_ge in E. lia.
Qed.


(** The frame [vllp_send_pkt] makes of a queued fragment in state [v]. *)
Definition sent_as (v : vllp) (p : pkt) : option (list Z) :=
  match p with PktMsg (b0 :: d) => pad_frame (v_flags v) (send_hdr v b0 :: d) | _ => None end.
(** A state in which frames are padded for CAN FD. *)
Definition fd_state (v : vllp) : Prop :=
  VllpLink.se_bits (SE v) ∧ bit_set (v_flags v) VLLP_FDCAN_ADAPTATION = true.

Lemma sent_as_ok v id (l : bool) f :
  fd_state v → 0 <= id < 15 → (length f <= 62)%nat →
  ∃ hdr fr, sent_as v (PktMsg ((if l then Z.lor id VLLP_HDR_L else id) :: f)) = Some fr ∧
    unpad fr = Some (hdr :: f) ∧ VllpLink.can_len (length fr) ∧ Z.land hdr 15 = id ∧ bit_set hdr VLLP_HDR_L = l.
Proof.
  intros [Hse Hfl] Hid Hl. destruct (send_hdr_kept v id l Hse Hid) as [H1 H2].
  set (b0 := if l then _ else _) in *. destruct (pad_frame_unpad (v_flags v) (send_hdr v b0 :: f)) as (fr & E & Eu & Hc);
    [cbn; lia|done|]. by exists (send_hdr v b0), fr.
Qed.

Lemma sent_queue_ok id frs : ∀ vs,
  0 <= id < 15 → frs ≠ [] → Forall (λ f, length f <= 62)%nat frs → Forall fd_state vs → length vs = length frs →
  ∃ frames us x, zip_with sent_as vs (queued id frs) = Some <$> frames ∧
    mapM unpad frames = Some (VllpLink.frame_bytes <$> (us ++ [x])) ∧
    Forall (λ u, bit_set u.1 VLLP_HDR_L = false) us ∧ bit_set x.1 VLLP_HDR_L = true ∧
    (us ++ [x]).*2 = frs ∧ Forall (λ u, Z.land u.1 15 = id) (us ++ [x]) ∧
    Forall (λ fr, VllpLink.can_len (length fr)) frames.
Proof.
  induction frs as [|f frs IH]; intros vs Hid Hne Hl Hvs Hn; [done|].
  destruct vs as [|v vs]; [done|]. apply Forall_cons_1 in Hvs as [Hv Hvs]. apply Forall_cons_1 in Hl as [Hf Hl].
  destruct (decide (frs = [])) as [->|Hfrs].
  - destruct vs; [|done]. destruct (sent_as_ok v id true f Hv Hid Hf) as (hdr & fr & E & Eu & Hc & H1 & H2).
    exists [fr], [], (hdr, f). cbn [queued zip_with fmap list_fmap]. split_and!; try done.
    + by f_equal.
    + cbn [mapM]. by rewrite Eu.
    + by apply Forall_singleton.
    + by apply Forall_singleton.
  - destruct (IH vs) as (frames & us & x & E & Eu & Hus & Hx & H2 & Hids & Hc); [done|done|done|done|by injection Hn|].
    destruct (sent_as_ok v id false f Hv Hid Hf) as (hdr & fr & E1 & Eu1 & Hc1 & H3 & H4).
    exists (fr :: frames), ((hdr, f) :: us), x. rewrite queued_cons by done. cbn [zip_with fmap list_fmap app].
    split_and!; try done; try by constructor.
    + rewrite E1. f_equal. exact E.
    + cbn [mapM]. rewrite Eu1, Eu. done.
    + cbn. f_equal. exact H2.
Qed.

Lemma chop_length fuel k m : (0 < k)%nat → Forall (λ f, length f <= k)%nat (VllpLink.chop fuel k m).
Proof.
  intros Hk. revert m. induction fuel as [|fuel IH]; intros m; cbn [VllpLink.chop]; [done|].
  destruct (length m <=? k)%nat eqn:E; [apply Forall_singleton; by apply Nat.leb_le|].
  constructor; [rewrite length_take; lia|done].
Qed.

Lemma mapM_fmap_frames {App B C} (f : B → Vllp.M App C) (k : list (Z * list Z)) g w :
  mapM f (g <$> k) w = mapM (λ u, f (g u)) k w.
Proof.
  revert w. induction k as [|u k IH]; intros w; [done|]. rewrite fmap_cons. cbn [mapM].
  unfold mbind, Vllp.M_bind. destruct (f (g u) w) as [[]|]; [|done]. by rewrite IH.
Qed.

(** C12: a message of the host of at most 508 bytes arrives at the device.
    [fragment] cuts what waits on a channel into a queue of fragments; the frames
    [vllp_send_pkt] makes of them, whatever the S, E and flow bits at the time, have
    lengths CAN FD has, and without their padding, fed in order to
    [vllp_channel_receive] of the device, give the service there a packet with exactly
    the bytes sent.  The mtu is between 2 and 63, the channel is not the last of the 16,
    the device's end of it is open with the same checksum seed, its flow bit set, no
    message half received and pool buffers to spare; a longer message does not fit the
    device's buffer and is dropped ([vllp_full_buffer_drops]). *)
Theorem host_to_device {App} (fn : Vllp.app_fn App) services xalloc crc `{!Crc32Spec crc}
    (w1 : world) h1 vc1 data vs (w2 : Vllp.world App) h2 vc2 app2 :
  let m := VllpLink.wire crc (tx_crc_IV vc1) data in
  w_chans w1 !! h1 = Some vc1 → vc_mtxq vc1 = [PktMsg data] → vc_txq vc1 = [] →
  bytes data → (length data + 4 <= 512)%nat → 0 <= vc_id vc1 < 15 → 2 <= mtu (w_v w1) <= 63 →
  Forall fd_state vs → length vs = length (VllpLink.chop (S (length m)) (room w1) m) →
  VllpLink.receiving w2 (vc_id vc1) h2 vc2 [] → h2 ≠ Vllp.cmc (Vllp.w_v w2) → Vllp.vc_app vc2 = Some app2 →
  VllpLink.spare (Vllp.w_nm w2) →
  bit_set (Vllp.local_flow_status (Vllp.w_v w2)) (Z.shiftl 1 (vc_id vc1)) = true →
  is_u32 (tx_crc_IV vc1) → Vllp.rx_crc_IV vc2 = tx_crc_IV vc1 →
  ∃ w1' vc1' frames us pb' nm w2',
    fragment crc h1 w1 = Ret (tt, w1') ∧ w_chans w1' !! h1 = Some vc1' ∧ vc_mtxq vc1' = [] ∧
    zip_with sent_as vs (vc_txq vc1') = Some <$> frames ∧
    Forall (λ fr, VllpLink.can_len (length fr)) frames ∧ mapM unpad frames = Some us ∧
    Forall (λ u, Z.land (deref u) 15 = vc_id vc1) us ∧
    mapM (Vllp.vllp_channel_receive fn services xalloc crc (vc_id vc1)) us w2 = Ret (replicate (length us) 0, w2') ∧
    payload pb' = data ∧ packet pb' ∧ VllpLink.delivered fn w2 w2' h2 vc2 app2 pb' nm.
Proof.
  intros m Hh Hmq Htq Hb Hlen Hid Hmtu Hvs Hn Hr Hcmc Happ Hsp Hflow Hiv Heq.
  assert (length m = length data + 4)%nat as Hm by (unfold m, VllpLink.wire; by rewrite length_app).
  pose proof (fragment_ok crc h1 w1 vc1 data Hh Hmq (proj1 Hmtu)) as Ef. cbv zeta in Ef. fold m in Ef.
  assert (1 <= room w1 <= 62)%nat as Hk by (unfold room; lia).
  set (frs := VllpLink.chop (S (length m)) (room w1) m) in *.
  assert (concat frs = m) as Hcc by (apply VllpLink.chop_concat; nia).
  destruct (sent_queue_ok (vc_id vc1) frs vs) as (frames & us & x & E & Eu & Hus & Hx & H2 & Hids & Hcan); try done.
  { apply chop_ne. lia. }
  { eapply Forall_impl; [apply chop_length; lia|]. cbn. lia. }
  pose proof (VllpLink.receive_message_ok fn services xalloc crc w2 (vc_id vc1) h2 vc2 app2 us x Hr Hcmc Happ Hsp Hflow Hus Hx) as Hrm.
  rewrite H2, Hcc, Heq in Hrm. cbv zeta in Hrm. rewrite bool_decide_eq_true_2 in Hrm.
  2: { unfold m, VllpLink.wire. by apply crc_residue; auto using crc_u32, not32_u32. }
  destruct Hrm as (pb' & nm & w2' & Er & Hpk & _ & _ & Hpay & Hdel); [lia|].
  eexists _, _, frames, (VllpLink.frame_bytes <$> (us ++ [x])), pb', nm, w2'. split; [exact Ef|].
  split; [apply lookup_insert_eq|]. cbn [vc_txq vc_mtxq set_tx_crc_IV set_vc_txq set_vc_mtxq]. rewrite Htq.
  split_and!; try done.
  - by apply Forall_fmap.
  - rewrite length_fmap, <- Er. apply mapM_fmap_frames.
  - rewrite Hpay, Hm. unfold m, VllpLink.wire. rewrite take_app_le by lia. apply take_ge. lia.
Qed.

(** ** Messages from the device to the host *)

Lemma host_find_ext l id (w w' : world) r :
  (∀ h, vc_id <$> w_chans w !! h = vc_id <$> w_chans w' !! h) →
  find_channel l id w = Ret (r, w) → find_channel l id w' = Ret (r, w').
Proof.
  intros Hext. induction l as [|h l IH]; cbn [find_channel]; [by intros [= ->]|].
  unfold mbind, VllpHost.M_bind, get_chan. specialize (Hext h).
  destruct (w_chans w !! h) as [vc|], (w_chans w' !! h) as [vc'|]; try done.
  injection Hext as ->. destruct (vc_id vc' =? id); [by intros [= ->]|done].
Qed.

(** The world with channel [h] replaced. *)
Definition with_channel (w : world) (h : Z) (vc : channel) : world :=
  mk_world (w_v w) (<[h := vc]> (w_chans w)) (w_now w) (w_rnd w) (w_out w).
Lemma with_channel_twice w h vc vc' : with_channel (with_channel w h vc) h vc' = with_channel w h vc'.
Proof. unfold with_channel. cbn. by rewrite insert_insert_eq. Qed.

(** The channel of the host that takes messages of channel [id]. *)
Record listening (w : world) (id h : Z) (vc : channel) : Prop := {
  lst_find : find_channel (channels (w_v w)) id w = Ret (Some h, w);
  lst_chan : w_chans w !! h = Some vc;
  lst_cmc : h ≠ cmc (w_v w);
}.
Lemma listening_with w id h vc vc' :
  listening w id h vc → vc_id vc' = vc_id vc → listening (with_channel w h vc') id h vc'.
Proof.
  intros [Hf Hc Hn] Hid. split; [|apply lookup_insert_eq|done]. eapply host_find_ext; [|exact Hf].
  intros k. cbn. destruct (decide (k = h)) as [->|Hk]; [by rewrite lookup_insert_eq, Hc; cbn; rewrite Hid|].
  by rewrite lookup_insert_ne by done.
Qed.

Section HostReceive.
Context (open_channel : list Z → Z → open_channel_result).
Context (calloc : gmap Z channel → Z) (crc : Z → list Z → Z).
Abbreviation receive id := (λ u, VllpHost.vllp_channel_receive open_channel calloc crc id (deref u) (tail u)).

Lemma host_mod_chan w h vc f :
  w_chans w !! h = Some vc → mod_chan h f w = Ret (tt, with_channel w h (f vc)).
Proof. intros H. unfold mod_chan, mbind, VllpHost.M_bind, get_chan. by rewrite H. Qed.

Lemma host_receive_fragment w id h vc u :
  listening w id h vc → bit_set u.1 VLLP_HDR_L = false →
  receive id (VllpLink.frame_bytes u) w = Ret (0, with_channel w h (set_rxbuf (rxbuf vc ++ u.2) vc)).
Proof.
  intros [Hf Hc Hn] Hl. unfold VllpHost.vllp_channel_receive. cbn [VllpLink.frame_bytes deref tail].
  assert (channel_find id w = Ret (Some h, w)) as Hf'.
  { unfold channel_find. by rewrite (host_bind_ok get_v _ w (w_v w) w). }
  rewrite (host_bind_ok _ _ _ _ _ Hf'). rewrite (host_bind_ok (get_chan h) _ w vc w) by (unfold get_chan; by rewrite Hc).
  rewrite Hl. cbn [negb]. by rewrite (host_bind_ok _ _ _ _ _ (host_mod_chan w h vc _ Hc)).
Qed.

Lemma host_receive_init us : ∀ w id h vc,
  listening w id h vc → Forall (λ u, bit_set u.1 VLLP_HDR_L = false) us →
  mapM (receive id) (VllpLink.frame_bytes <$> us) w =
    Ret (replicate (length us) 0, with_channel w h (set_rxbuf (rxbuf vc ++ concat us.*2) vc)).
Proof.
  induction us as [|u us IH]; intros w id h vc Hr Hl.
  - cbn. rewrite app_nil_r. unfold with_channel.
    rewrite insert_id by (destruct vc; apply Hr). by destruct w.
  - apply Forall_cons_1 in Hl as [Hu Hl]. rewrite fmap_cons. cbn [mapM].
    rewrite (host_bind_ok _ _ _ _ _ (host_receive_fragment w id h vc u Hr Hu)).
    set (vc1 := set_rxbuf _ vc). assert (listening (with_channel w h vc1) id h vc1) as Hr1 by by eapply listening_with.
    rewrite (host_bind_ok _ _ _ _ _ (IH _ _ _ _ Hr1 Hl)). rewrite with_channel_twice. cbn.
    by rewrite <- (assoc_L (++)).
Qed.

Lemma host_receive_last w id h vc u data :
  listening w id h vc → bit_set u.1 VLLP_HDR_L = true → rxbuf vc ++ u.2 = VllpLink.wire crc (rx_crc_IV vc) data →
  crc (rx_crc_IV vc) (rxbuf vc ++ u.2) = 4294967295 →
  receive id (VllpLink.frame_bytes u) w = Ret (0, with_channel w h
    (set_vc_rxq (vc_rxq vc ++ [PktMsg data]) (set_rxbuf [] (set_rx_crc_IV (u32 (rx_crc_IV vc + 1)) vc)))).
Proof.
  intros [Hf Hc Hn] Hl Hm Hcrc. unfold VllpHost.vllp_channel_receive. cbn [VllpLink.frame_bytes deref tail].
  assert (channel_find id w = Ret (Some h, w)) as Hf'.
  { unfold channel_find. by rewrite (host_bind_ok get_v _ w (w_v w) w). }
  rewrite (host_bind_ok _ _ _ _ _ Hf'). rewrite (host_bind_ok (get_chan h) _ w vc w) by (unfold get_chan; by rewrite Hc).
  rewrite Hl. cbn [negb]. rewrite Hcrc. change (not32 4294967295 =? 0) with true. cbn [negb].
  rewrite (host_bind_ok _ _ _ _ _ (host_mod_chan w h vc _ Hc)). set (vc1 := set_rxbuf [] _).
  assert (length (rxbuf vc ++ u.2) = length data + 4)%nat as Hlen by (rewrite Hm; unfold VllpLink.wire; by rewrite length_app).
  rewrite (proj2 (Nat.ltb_ge _ _)) by lia.
  assert (take (length (rxbuf vc ++ u.2) - 4) (rxbuf vc ++ u.2) = data) as ->.
  { rewrite Hlen, Hm. unfold VllpLink.wire. rewrite take_app_le by lia. apply take_ge. lia. }
  rewrite (host_bind_ok get_v _ _ (w_v w) (with_channel w h vc1)) by done. rewrite (proj2 (Z.eqb_neq _ _)) by done.
  rewrite (host_bind_ok _ _ _ _ _ (host_mod_chan (with_channel w h vc1) h vc1 _ (lookup_insert_eq _ _ _))).
  by rewrite with_channel_twice.
Qed.

Lemma host_mapM_app {A B} (f : A → VllpHost.M B) l1 l2 w k1 w1 :
  mapM f l1 w = Ret (k1, w1) → mapM f (l1 ++ l2) w = (k2 ← mapM f l2; mret (k1 ++ k2)) w1.
Proof.
  revert w k1. induction l1 as [|x l1 IH]; intros w k1; cbn [mapM app].
  - intros [= <- <-]. unfold mbind, VllpHost.M_bind, mret, VllpHost.M_ret. by destruct (mapM f l2 w) as [[]|].
  - intros (y & w2 & Ey & Ek)%host_bind_inv. apply host_bind_inv in Ek as (k & w3 & Ek & Eq).
    injection Eq as <- <-. rewrite (host_bind_ok _ _ _ _ _ Ey). unfold mbind at 1, VllpHost.M_bind at 1.
    rewrite (IH _ _ Ek). unfold mbind, VllpHost.M_bind. by destruct (mapM f l2 w3) as [[]|].
Qed.

(** The frames of a message. *)
Lemma host_receive_message w id h vc us x data :
  listening w id h vc → rxbuf vc = [] → Forall (λ u, bit_set u.1 VLLP_HDR_L = false) us → bit_set x.1 VLLP_HDR_L = true →
  concat (us ++ [x]).*2 = VllpLink.wire crc (rx_crc_IV vc) data → crc (rx_crc_IV vc) (VllpLink.wire crc (rx_crc_IV vc) data) = 4294967295 →
  mapM (receive id) (VllpLink.frame_bytes <$> (us ++ [x])) w = Ret (replicate (length (us ++ [x])) 0, with_channel w h
    (set_vc_rxq (vc_rxq vc ++ [PktMsg data]) (set_rxbuf [] (set_rx_crc_IV (u32 (rx_crc_IV vc + 1)) vc)))).
Proof.
  intros Hr Hb Hus Hx Hm Hcrc. rewrite fmap_app, (host_mapM_app _ _ _ _ _ _ (host_receive_init us w id h vc Hr Hus)).
  set (vc1 := set_rxbuf _ vc). assert (listening (with_channel w h vc1) id h vc1) as Hr1 by by eapply listening_with.
  assert (rxbuf vc1 ++ x.2 = VllpLink.wire crc (rx_crc_IV vc1) data) as Hm1.
  { unfold vc1. cbn. rewrite Hb. rewrite <- Hm, fmap_app, concat_app. cbn. by rewrite app_nil_r. }
  rewrite fmap_cons. cbn [mapM fmap list_fmap].
  unfold mbind at 1 2 3, VllpHost.M_bind at 1 2 3.
  rewrite (host_receive_last _ id h vc1 x data Hr1 Hx Hm1) by (rewrite Hm1; exact Hcrc).
  rewrite with_channel_twice, length_app, replicate_add. done.
Qed.
End HostReceive.

(** C13: a message of the device arrives at the host.  The frames [vllp_channel_tx] and the
    acknowledgements of the device emit, without their padding and fed in order to
    [vllp_channel_receive] of the host, put exactly the bytes sent on the receive
    queue of the channel, and the checksum seed moves on as the device's does. *)
Theorem device_to_host {App} oc calloc crc `{!Crc32Spec crc}
    (w1 : Vllp.world App) h1 vc1 c pb reuse acks (w2 : world) h2 vc2 :
  let data := payload (c ++ [pb]) in
  let m := VllpLink.wire crc (Vllp.tx_crc_IV vc1) data in
  nm_ok (Vllp.w_nm w1) → Vllp.w_chans w1 !! h1 = Some vc1 → packet (c ++ [pb]) → bytes data →
  pb_offset pb + pb_buflen pb + 4 <= PBUF_DATA_SIZE → chain_len (c ++ [pb]) + 4 < 65536 →
  0 <= Vllp.vc_id vc1 < 16 → 2 <= Vllp.mtu (Vllp.w_v w1) <= 63 → VllpLink.se_bits (Vllp.SE (Vllp.w_v w1)) →
  packet reuse → reuse ≠ [] → Forall (λ pb, packet pb ∧ pb ≠ []) acks →
  length acks = length (VllpLink.chop (length m) (VllpLink.payload_mtu w1) m) →
  listening w2 (Vllp.vc_id vc1) h2 vc2 → rxbuf vc2 = [] →
  is_u32 (Vllp.tx_crc_IV vc1) → rx_crc_IV vc2 = Vllp.tx_crc_IV vc1 →
  ∃ l w1' frames us w2' vc2',
    (_ ← Vllp.vllp_channel_tx crc h1 (c ++ [pb]) reuse; mapM Vllp.vllp_ack_payload acks) w1 = Ret (l, w1') ∧
    Vllp.current_tx_buf (Vllp.w_v w1') = [] ∧
    Vllp.w_out w1' = Vllp.w_out w1 ++ (Vllp.Emit (Vllp.txid (Vllp.w_v w1)) <$> frames) ∧
    mapM (λ f, input_unpad VLLP_FDCAN_ADAPTATION (payload f)) frames = Some us ∧
    mapM (λ u, VllpHost.vllp_channel_receive oc calloc crc (Vllp.vc_id vc1) (deref u) (tail u)) us w2 =
      Ret (replicate (length us) 0, w2') ∧
    w_chans w2' !! h2 = Some vc2' ∧ vc_rxq vc2' = vc_rxq vc2 ++ [PktMsg data] ∧ rxbuf vc2' = [] ∧
    (Vllp.tx_crc_IV <$> Vllp.w_chans w1' !! h1) = Some (rx_crc_IV vc2').
Proof.
  intros data m Hnm Hh Hout Hbytes Hroom Hlt Hid Hmtu Hse Hre Hrne Hacks Hn Hr Hb Hiv Heq.
  assert (length m = length data + 4)%nat as Hm by (unfold m, VllpLink.wire; by rewrite length_app).
  assert (1 <= VllpLink.payload_mtu w1)%nat as Hk by (unfold VllpLink.payload_mtu; lia).
  destruct (VllpLink.send_message_ok crc w1 h1 vc1 c pb reuse acks (length m))
    as (l & w1' & frames & E & Hbuf & _ & Hch & Ho & Hs); try done; [fold data; fold m; nia|].
  fold data in Hs. fold m in Hs.
  assert (concat (VllpLink.chop (length m) (VllpLink.payload_mtu w1) m) = m) as Hcc by (apply VllpLink.chop_concat; nia).
  destruct (VllpLink.sent_frames _ _ _ _ Hs) as (us & x & Eu & Hus & Hx & H2 & _).
  { intros E0. rewrite E0 in Hcc. cbn in Hcc. rewrite <- Hcc in Hm. cbn in Hm. lia. }
  pose proof (host_receive_message oc calloc crc w2 _ h2 vc2 us x data Hr Hb Hus Hx) as Hrm.
  rewrite H2, Hcc, Heq in Hrm.
  specialize (Hrm eq_refl). rewrite <- (length_fmap VllpLink.frame_bytes) in Hrm.
  eexists l, w1', frames, _, _, _. split; [exact E|]. split; [exact Hbuf|]. split; [exact Ho|].
  split; [|split; [apply Hrm; unfold VllpLink.wire; apply crc_residue; auto using crc_u32, not32_u32|]].
  - rewrite <- Eu. clear. induction frames as [|f fs IH]; [done|]. cbn [mapM]. rewrite IH.
    assert (input_unpad VLLP_FDCAN_ADAPTATION (payload f) = unpad (payload f)) as ->; [|done].
    unfold input_unpad, unpad. change (bit_set _ _) with true. done.
  - split; [apply lookup_insert_eq|]. cbn. by rewrite Hch, lookup_insert_eq.
Qed.

(** ** The connection *)

Section Connect.
Context {App : Type} (fn : Vllp.app_fn App) (services : list (Vllp.service App)).
Context (xalloc : gmap Z (Vllp.channel App) → option Z).
Context (oc : list Z → Z → open_channel_result) (getrandom : nat → option Z) (rand : nat → Z).
Context (calloc : gmap Z channel → Z) (crc : Z → list Z → Z) `{!Crc32Spec crc}.

(** The ACK packet. *)
Definition ack_bytes (iv se flow : Z) : list Z :=
  let b := [u8 (Z.lor se 31); u8 flow; u8 (Z.shiftr flow 8)] in b ++ le32 (not32 (crc iv b)).
(** The SYN packet. *)
Definition syn_bytes (mtu iv : Z) : list Z := VLLP_SYN :: Vllp.VLLP_VERSION :: mtu :: le32 iv.

Lemma ack_verifies iv se flow : is_u32 iv → crc iv (ack_bytes iv se flow) = 4294967295.
Proof.
  intros Hiv. assert (bytes [u8 (Z.lor se 31); u8 flow; u8 (Z.shiftr flow 8)]) as Hb by (repeat constructor; apply u8_byte).
  unfold ack_bytes. apply crc_residue; auto using crc_u32, not32_u32.
Qed.

(** The acknowledgement the device builds in the buffer of the received frame. *)
Lemma device_tx_ack b (w : Vllp.world App) :
  pb_ok b →
  ∃ frame v', Vllp.vllp_tx_ack crc [b] w = Ret ([], Vllp.mk_world v' (Vllp.w_chans w) (Vllp.w_nm w) (Vllp.w_now w)
      (Vllp.w_out w ++ [Vllp.Emit (Vllp.txid (Vllp.w_v w)) frame])) ∧
    payload frame = ack_bytes (Vllp.crc_IV (Vllp.w_v w)) (Vllp.SE (Vllp.w_v w)) (Vllp.local_flow_status (Vllp.w_v w)) ∧
    v' = Vllp.set_ack_timer (Some (Vllp.w_now w + 1000000))
           (Vllp.set_transmitted_flow (Vllp.local_flow_status (Vllp.w_v w)) (Vllp.w_v w)).
Proof.
  intros [Hm Ho Hl Hf Ha Hd]. set (v := Vllp.w_v w).
  destruct (VllpLink.mem_split (db_mem (pb_data b)) 4 3) as (m1 & m2 & r & E & L1 & L2); [rewrite Hm; unfold PBUF_DATA_SIZE; lia|].
  destruct (VllpLink.mem_split r 0 4) as (m0 & m3 & m4 & Er & L0 & L3).
  { rewrite E, !length_app, L1, L2 in Hm. unfold PBUF_DATA_SIZE in Hm. lia. }
  destruct m0; [|done]. cbn [app] in Er. subst r.
  set (bs := [u8 (Z.lor (Vllp.SE v) 31); u8 (Vllp.local_flow_status v); u8 (Z.shiftr (Vllp.local_flow_status v) 8)]).
  set (b1 := set_pktlen (set_win (set_credits (set_flags b (Z.lor PBUF_SOP PBUF_EOP)) 0) 4 0) 0).
  set (b2 := set_win (set_pktlen b1 7) 4 7).
  set (c := le32 (not32 (crc (Vllp.crc_IV v) bs))).
  set (b3 := set_mem b2 (m1 ++ bs ++ m3 ++ m4)). set (b4 := set_mem b3 (m1 ++ bs ++ c ++ m4)).
  exists [b4]. eexists. split; [|split; [|reflexivity]].
  - unfold Vllp.vllp_tx_ack.
    rewrite (VllpLink.bind_ok (Vllp.frame_buffer [b]) _ w [b1] w).
    2: { unfold Vllp.frame_buffer, Vllp.with_nm, pbuf_reset. rewrite (proj2 (Z.ltb_ge _ _)) by lia. cbn. by destruct w. }
    rewrite (VllpLink.bind_ok (Vllp.lift _) _ w ([b2], 4) w) by done. cbv beta iota.
    rewrite (VllpLink.bind_ok Vllp.get_v _ w v w) by done. fold bs.
    rewrite (VllpLink.bind_ok (Vllp.lift _) _ w [b3] w).
    2: { unfold Vllp.lift, Vllp.store_last. cbn [last]. change (db_mem (pb_data b2)) with (db_mem (pb_data b)).
         rewrite E. rewrite (wr_at m1 m2 bs) by (rewrite ?L1, ?L2; done). done. }
    set (w1 := Vllp.mk_world (Vllp.set_transmitted_flow (Vllp.local_flow_status v) v) (Vllp.w_chans w) (Vllp.w_nm w)
                 (Vllp.w_now w) (Vllp.w_out w)).
    rewrite (VllpLink.bind_ok (Vllp.mod_v _) _ w tt w1) by done.
    rewrite (VllpLink.bind_ok (Vllp.lift _) _ w1 [b4] w1).
    2: { unfold Vllp.lift, Vllp.vllp_append_crc. cbn [last].
         change (db_mem (pb_data b3)) with (m1 ++ bs ++ m3 ++ m4).
         change 3 with (Z.of_nat (length bs)) at 1. rewrite (rd_at m1 bs) by (rewrite L1; done). cbn [mbind res_bind].
         unfold Vllp.store_last. cbn [last]. change (db_mem (pb_data b3)) with (m1 ++ bs ++ m3 ++ m4). fold c.
         rewrite (assoc_L (++)). rewrite (wr_at (m1 ++ bs) m3 c) by (rewrite ?length_app, ?L1, ?L3; done).
         cbn [mbind res_bind]. by rewrite <- (assoc_L (++)). }
    reflexivity.
  - unfold payload. cbn [mbind list_bind]. rewrite app_nil_r. unfold window.
    change (db_mem (pb_data b4)) with (m1 ++ bs ++ c ++ m4). change (pb_buflen b4) with 7. change (pb_offset b4) with 4.
    rewrite drop_app_length' by (rewrite L1; done). rewrite (assoc_L (++)). by rewrite take_app_length'.
Qed.

(** The seed of the control channel. *)
Definition cmc_seed (iv : Z) : Z := crc iv (le32 1).

Lemma device_accepts b iv (w : Vllp.world App) vc :
  let v := Vllp.w_v w in
  Vllp.connected v = false → Vllp.channels v = [Vllp.cmc v] → Vllp.w_chans w !! Vllp.cmc v = Some vc →
  pb_ok b → window b = syn_bytes (Vllp.mtu v) iv → is_u32 iv →
  ∃ frame w', Vllp.vllp_rx fn services xalloc crc [b] w = Ret ([], w') ∧
    Vllp.w_out w' = Vllp.w_out w ++ [Vllp.Emit (Vllp.txid v) frame] ∧
    payload frame = ack_bytes iv VLLP_HDR_E 65535 ∧
    Vllp.connected (Vllp.w_v w') = true ∧ Vllp.crc_IV (Vllp.w_v w') = iv ∧ Vllp.channel_iv_cnt (Vllp.w_v w') = 1 ∧
    ctl_of w' = (VLLP_HDR_E, (ctl_of w).2) ∧
    Vllp.w_chans w' = <[Vllp.cmc v := Vllp.set_rx_crc (not32 (cmc_seed iv)) (Vllp.set_tx_crc (cmc_seed iv) vc)]> (Vllp.w_chans w).
Proof.
  intros v Hc Hch Hh Hb Hw Hiv. pose proof Hb as [_ _ Hl _ _ _].
  set (v1 := Vllp.set_timeout_timer (Some (Vllp.w_now w + Vllp.timeout v * 1000000)) v).
  set (v2 := if Vllp.local_flow_status v =? 65535 then v1 else Vllp.set_local_flow 65535 v1).
  assert (Vllp.local_flow_status v2 = 65535) as Hfl.
  { unfold v2. destruct (_ =? _) eqn:E; [by apply Z.eqb_eq in E|done]. }
  assert (Vllp.connected v2 = false ∧ Vllp.mtu v2 = Vllp.mtu v ∧ Vllp.cmc v2 = Vllp.cmc v ∧ Vllp.txid v2 = Vllp.txid v ∧
    Vllp.current_tx_buf v2 = Vllp.current_tx_buf v) as (Hc2 & Hm2 & Hcmc2 & Ht2 & Hb2)
    by (unfold v2; by destruct (_ =? _)).
  set (W v (chans : gmap Z (Vllp.channel App)) := Vllp.mk_world v chans (Vllp.w_nm w) (Vllp.w_now w) (Vllp.w_out w)).
  set (v3 := Vllp.set_iv_cnt 0 (Vllp.set_crc_IV iv (Vllp.set_SE VLLP_HDR_E (Vllp.set_connected true v2)))).
  set (v4 := Vllp.set_iv_cnt 1 v3).
  set (vc' := Vllp.set_rx_crc (not32 (cmc_seed iv)) (Vllp.set_tx_crc (cmc_seed iv) vc)).
  destruct (device_tx_ack b (W v4 (<[Vllp.cmc v := vc']> (Vllp.w_chans w))) Hb) as (frame & v' & E & Hp & Hv').
  exists frame, (Vllp.mk_world v' (<[Vllp.cmc v := vc']> (Vllp.w_chans w)) (Vllp.w_nm w) (Vllp.w_now w)
    (Vllp.w_out w ++ [Vllp.Emit (Vllp.txid v4) frame])).
  split; [|split_and!; [..|reflexivity]]; cycle 1.
  - cbn [Vllp.w_out]. by rewrite <- Ht2.
  - rewrite Hp, <- Hfl. done.
  - by rewrite Hv'.
  - by rewrite Hv'.
  - by rewrite Hv'.
  - unfold ctl_of. cbn [Vllp.w_v]. rewrite Hv'. cbn. by rewrite Hb2.
  - unfold Vllp.vllp_rx.
    rewrite (VllpLink.bind_ok Vllp.get_v _ w v w) by done.
    rewrite (VllpLink.bind_ok (Vllp.arm _ _) _ w tt (W v1 (Vllp.w_chans w))) by done.
    rewrite (VllpLink.bind_ok (Vllp.vllp_refresh_local_flow_status fn) _ _ (negb (Vllp.local_flow_status v =? 65535)) (W v2 (Vllp.w_chans w))).
    2: { unfold Vllp.vllp_refresh_local_flow_status. rewrite (VllpLink.bind_ok Vllp.get_v _ _ v1 (W v1 (Vllp.w_chans w))) by done.
         change (Vllp.channels v1) with (Vllp.channels v). rewrite Hch.
         rewrite (VllpLink.bind_ok (Vllp.flow_bits fn _ _) _ _ 65535 (W v1 (Vllp.w_chans w))).
         2: { cbn [Vllp.flow_bits]. rewrite (VllpLink.bind_ok Vllp.get_v _ _ v1 (W v1 (Vllp.w_chans w))) by done.
              change (Vllp.cmc v1) with (Vllp.cmc v). by rewrite Z.eqb_refl. }
         change (Vllp.local_flow_status v1) with (Vllp.local_flow_status v). unfold v2. by destruct (_ =? _). }
    rewrite (VllpLink.bind_ok (Vllp.lift _) _ _ (syn_bytes (Vllp.mtu v) iv) (W v2 (Vllp.w_chans w))).
    2: { unfold Vllp.lift. rewrite rd_window by (done || lia). rewrite take_ge by (by rewrite window_length). by rewrite Hw. }
    change (unpad (syn_bytes (Vllp.mtu v) iv)) with (Some (syn_bytes (Vllp.mtu v) iv)).
    cbv beta iota zeta. unfold syn_bytes at 1 2. cbn [deref]. rewrite Z.eqb_refl. unfold syn_bytes. cbv beta iota.
    unfold Vllp.vllp_accept_syn, le32. cbv beta iota.
    rewrite (VllpLink.bind_ok Vllp.get_v _ _ v2 (W v2 (Vllp.w_chans w))) by done.
    rewrite Z.eqb_refl, Hm2, Z.eqb_refl. cbn [negb]. rewrite Hc2.
    rewrite (VllpLink.bind_ok (mret tt) _ _ tt (W v2 (Vllp.w_chans w))) by done. rewrite rd_le32_le32 by done.
    rewrite (VllpLink.bind_ok (Vllp.mod_v _) _ _ tt (W v3 (Vllp.w_chans w))) by done.
    rewrite (VllpLink.bind_ok (Vllp.vllp_gen_channel_crc crc) _ _ (cmc_seed iv) (W v4 (Vllp.w_chans w))) by done.
    rewrite Hcmc2.
    rewrite (VllpLink.bind_ok (Vllp.mod_chan _ _) _ _ tt (W v4 (<[Vllp.cmc v := vc']> (Vllp.w_chans w)))).
    2: { unfold Vllp.mod_chan. by rewrite (VllpLink.bind_ok (Vllp.get_chan _) _ _ vc (W v4 (Vllp.w_chans w)))
           by (unfold Vllp.get_chan; cbn [Vllp.w_chans W]; by rewrite Hh). }
    exact E.
Qed.

Abbreviation thread_pass := (vllp_thread_pass oc getrandom rand calloc crc).

(** A host that is to send a SYN. *)
Record idle_client (w : world) (tmo iv : Z) (vc : channel) : Prop := {
  ic_run : run (w_v w) = true;
  ic_client : has_open_channel (w_v w) = false;
  ic_down : connected (w_v w) = false;
  ic_rxq : rxq (w_v w) = [];
  ic_ack : next_ack (w_v w) <= w_now w;
  ic_tmo : tmo = 0 ∨ w_now w <= tmo;
  ic_rnd : getrandom (w_rnd w) = Some iv;
  ic_cmc : w_chans w !! cmc (w_v w) = Some vc;
}.

Definition after_syn (w : world) (iv : Z) (vc : channel) : world :=
  let v := w_v w in
  mk_world (set_next_ack (w_now w + VLLP_ACK_INTERVAL) (set_channel_iv_cnt 1 (set_channel_iv_cnt 0 (set_rxq [] (set_crc_IV iv v)))))
    (<[cmc v := set_rx_crc_IV (cmc_seed iv) (set_tx_crc_IV (not32 (cmc_seed iv)) vc)]> (w_chans w))
    (w_now w) (S (w_rnd w)) (w_out w ++ [Tx (syn_bytes (mtu v) iv)]).

Lemma tmo_running (w : world) tmo : tmo = 0 ∨ w_now w <= tmo → (negb (tmo =? 0) && (tmo <? w_now w))%bool = false.
Proof. intros [->|H]; [done|]. rewrite (proj2 (Z.ltb_ge _ _)) by done. apply andb_false_r. Qed.

Lemma host_sends_syn w tmo iv vc :
  idle_client w tmo iv vc → thread_pass tmo w = Ret ((tmo, Continue), after_syn w iv vc).
Proof.
  intros [Hr Hcl Hd Hq Ha Ht Hrnd Hc]. unfold vllp_thread_pass.
  rewrite (host_bind_ok get_v _ w (w_v w) w) by done. rewrite Hr. cbn [negb].
  rewrite (host_bind_ok get_ts _ w (w_now w) w) by done. rewrite Hd.
  rewrite (host_bind_ok (mret tt) _ w tt w) by done. rewrite tmo_running by done.
  rewrite (host_bind_ok get_v _ w (w_v w) w) by done. rewrite Hq.
  rewrite (host_bind_ok (vllp_tx _ _ _ _ _) _ w 0 (after_syn w iv vc)); [done|].
  unfold tx_fuel. cbn [vllp_tx]. rewrite (host_bind_ok get_v _ w (w_v w) w) by done.
  rewrite Hd. cbn [negb]. unfold is_server. rewrite Hcl, (proj2 (Z.leb_le _ _)) by done.
  set (v := w_v w) in *. set (v1 := set_channel_iv_cnt 1 (set_channel_iv_cnt 0 (set_rxq [] (set_crc_IV iv v)))).
  set (vc1 := set_rx_crc_IV (cmc_seed iv) (set_tx_crc_IV (not32 (cmc_seed iv)) vc)).
  rewrite (host_bind_ok (vllp_send_syn _ _) _ w tt (mk_world v1 (<[cmc v := vc1]> (w_chans w))
    (w_now w) (S (w_rnd w)) (w_out w ++ [Tx (syn_bytes (mtu v) iv)]))); [done|].
  unfold vllp_send_syn, mbind at 1, VllpHost.M_bind at 1. cbn [next_rnd]. unfold next_rnd. rewrite Hrnd.
  set (W v := mk_world v (w_chans w) (w_now w) (S (w_rnd w)) (w_out w)).
  rewrite (host_bind_ok (mod_v _) _ _ tt (W (set_crc_IV iv v))) by done.
  rewrite (host_bind_ok drain_rxq _ _ tt (W (set_rxq [] (set_crc_IV iv v)))) by done.
  rewrite (host_bind_ok (mod_v _) _ _ tt (W (set_channel_iv_cnt 0 (set_rxq [] (set_crc_IV iv v))))) by done.
  rewrite (host_bind_ok (vllp_gen_channel_crc crc) _ _ (cmc_seed iv) (W v1)) by done.
  rewrite (host_bind_ok get_v _ _ v1 (W v1)) by done.
  rewrite (host_bind_ok _ _ _ _ _ (host_mod_chan (W v1) (cmc v) vc _ Hc)). done.
Qed.

(** The acknowledgement of the SYN comes in. *)
Lemma host_gets_ack w tmo iv flow :
  run (w_v w) = true → has_open_channel (w_v w) = false → connected (w_v w) = false → rxq (w_v w) = [] →
  tmo = 0 ∨ w_now w <= tmo → crc_IV (w_v w) = iv → is_u32 iv →
  ∃ v', (vllp_input (ack_bytes iv VLLP_HDR_E flow);; thread_pass tmo) w =
      Ret ((w_now w + timeout (w_v w) * 1000000, Continue), mk_world v' (w_chans w) (w_now w) (w_rnd w) (w_out w)) ∧
    connected v' = true ∧ crc_IV v' = iv ∧ channel_iv_cnt v' = channel_iv_cnt (w_v w) ∧ SE v' = SE (w_v w) ∧
    current_tx v' = current_tx (w_v w) ∧ cmc v' = cmc (w_v w).
Proof.
  intros Hr Hcl Hd Hq Ht Hiv Hu. set (a := ack_bytes iv VLLP_HDR_E flow). set (v := w_v w) in *.
  set (W v := mk_world v (w_chans w) (w_now w) (w_rnd w) (w_out w)).
  set (v1 := set_rxq [a] v). assert (W v = w) as Ew by (by destruct w).
  rewrite (host_bind_ok (vllp_input a) _ w tt (W v1)).
  2: { unfold vllp_input. rewrite (host_bind_ok get_v _ w v w) by done.
       assert (input_unpad (v_flags v) a = Some a) as -> by (unfold input_unpad; change (length a) with 7%nat; by rewrite andb_false_r).
       change a with (u8 (Z.lor VLLP_HDR_E 31) :: tail a) at 1. cbv beta iota. unfold mod_v. fold v. rewrite Hq. done. }
  set (v2 := set_rxq [] v1). set (fl := Z.lor (u8 flow) (Z.shiftl (u8 (Z.shiftr flow 8)) 8)).
  set (v3 := set_remote_flow_status fl v2). set (v4 := set_next_ack 0 (set_connected true v3)).
  exists v4. split; [|by split_and!].
  unfold vllp_thread_pass. rewrite (host_bind_ok get_v _ _ v1 (W v1)) by done. change (run v1) with (run v). rewrite Hr. cbn [negb].
  rewrite (host_bind_ok get_ts _ _ (w_now w) (W v1)) by done. change (connected v1) with (connected v). rewrite Hd.
  rewrite (host_bind_ok (mret tt) _ _ tt (W v1)) by done. rewrite tmo_running by done.
  rewrite (host_bind_ok get_v _ _ v1 (W v1)) by done. change (rxq v1) with [a]. cbv beta iota.
  rewrite (host_bind_ok (mod_v _) _ _ tt (W v2)) by done.
  rewrite (host_bind_ok (vllp_handle_rx _ _ _ _ _) _ _ 0 (W v4)); [done|].
  unfold vllp_handle_rx. change a with (95 :: tail a) at 1. cbv beta iota.
  change (95 =? VLLP_SYN) with false. change (Z.land 95 31 =? 31) with true. cbv beta iota.
  rewrite (host_bind_ok (rx_ack _ _) _ _ 0 (W v3)).
  2: { unfold rx_ack. rewrite (host_bind_ok get_v _ _ v2 (W v2)) by done. change (crc_IV v2) with (crc_IV v). rewrite Hiv.
       unfold a. rewrite ack_verifies by done. done. }
  change (negb (0 =? 0)) with false. cbv iota.
  rewrite (host_bind_ok get_v _ _ v3 (W v3)) by done. change (connected v3) with (connected v). rewrite Hd. cbn [negb].
  unfold is_client. change (has_open_channel v3) with (has_open_channel v). rewrite Hcl. done.
Qed.
End Connect.

(** A client and a device that are not connected become so: the thread of the host
    sends a SYN with a random seed, the device answers it with an ACK, and when
    the host has taken that, both are connected with the same seed and count of
    channels, both expect and send fragments from the start, and what one will put
    into the checksums of the control channel the other will look for. *)
Theorem vllp_connects {App} (fn : Vllp.app_fn App) services xalloc oc getrandom rand calloc crc `{!Crc32Spec crc}
    (w1 : world) tmo iv vc1 (w2 : Vllp.world App) vc2 b :
  idle_client getrandom w1 tmo iv vc1 → SE (w_v w1) = VLLP_HDR_E → is_u32 iv →
  Vllp.connected (Vllp.w_v w2) = false → Vllp.channels (Vllp.w_v w2) = [Vllp.cmc (Vllp.w_v w2)] →
  Vllp.w_chans w2 !! Vllp.cmc (Vllp.w_v w2) = Some vc2 → Vllp.mtu (Vllp.w_v w2) = mtu (w_v w1) →
  pb_ok b → window b = syn_bytes (mtu (w_v w1)) iv →
  ∃ w1' w1'' w2' frame vc1' vc2',
    vllp_thread_pass oc getrandom rand calloc crc tmo w1 = Ret ((tmo, Continue), w1') ∧
    w_out w1' = w_out w1 ++ [Tx (window b)] ∧
    Vllp.vllp_rx fn services xalloc crc [b] w2 = Ret ([], w2') ∧
    Vllp.w_out w2' = Vllp.w_out w2 ++ [Vllp.Emit (Vllp.txid (Vllp.w_v w2)) frame] ∧
    (vllp_input (payload frame);; vllp_thread_pass oc getrandom rand calloc crc tmo) w1' =
      Ret ((w_now w1 + timeout (w_v w1) * 1000000, Continue), w1'') ∧
    connected (w_v w1'') = true ∧ Vllp.connected (Vllp.w_v w2') = true ∧
    crc_IV (w_v w1'') = iv ∧ Vllp.crc_IV (Vllp.w_v w2') = iv ∧
    channel_iv_cnt (w_v w1'') = Vllp.channel_iv_cnt (Vllp.w_v w2') ∧
    host_ctl w1'' = (VLLP_HDR_E, (host_ctl w1).2) ∧ ctl_of w2' = (VLLP_HDR_E, (ctl_of w2).2) ∧
    w_chans w1'' !! cmc (w_v w1'') = Some vc1' ∧ Vllp.w_chans w2' !! Vllp.cmc (Vllp.w_v w2) = Some vc2' ∧
    tx_crc_IV vc1' = Vllp.rx_crc_IV vc2' ∧ rx_crc_IV vc1' = Vllp.tx_crc_IV vc2'.
Proof.
  intros Hc HSE Hiv Hd Hch Hh Hm Hb Hw.
  pose proof (host_sends_syn oc getrandom rand calloc crc w1 tmo iv vc1 Hc) as E1. pose proof Hc as [Hr Hcl _ _ _ Ht _ _].
  destruct (device_accepts fn services xalloc crc b iv w2 vc2 Hd Hch Hh Hb) as
    (frame & w2' & E2 & Ho2 & Hp & Hc2 & Hi2 & Hn2 & Hctl2 & Hch2); [by rewrite Hm|done|].
  destruct (host_gets_ack oc getrandom rand calloc crc (after_syn crc w1 iv vc1) tmo iv 65535)
    as (v' & E3 & Hc3 & Hi3 & Hn3 & Hs3 & Ht3 & Hcmc3); try done; [by destruct Hc|].
  eexists _, _, w2', frame, _, _. split; [exact E1|]. split; [by rewrite Hw|]. split; [exact E2|]. split; [exact Ho2|].
  rewrite Hp. split; [exact E3|]. cbn [w_v w_chans]. rewrite Hcmc3, Hch2.
  split_and!; try done; [|..|apply lookup_insert_eq|apply lookup_insert_eq|done|done].
  - by rewrite Hn3, Hn2.
  - unfold host_ctl. cbn [w_v]. by rewrite Hs3, Ht3, <- HSE.
Qed.

(** ** The two together, run

    A client of this library and the device of [VllpLink.Demo], joined by a link
    that loses nothing; the clock stands still unless it is set. *)
Module Pair.
Definition oc (name : list Z) (h : Z) : open_channel_result := mk_open_result (-17) false false.
Definition getrandom (k : nat) : option Z := Some (1000 + Z.of_nat k).
Definition rand (k : nat) : Z := 0.
(** The first address above those in use. *)
Definition calloc (m : gmap Z channel) : Z := map_fold (λ h _ a, Z.max (h + 1) a) 1 m.

Definition nm : netmem :=
  mk_netmem (mk_pool ((λ i, 16 * i) <$> seqZ 1 60) 60 60 0)
    (mk_pool (zero_dbuf <$> ((λ i, 512 * i) <$> seqZ 1 60)) 60 60 0).

(** Host, the timeout of its thread, device. *)
Record pair := mk_pair { p_host : world; p_tmo : Z; p_dev : Vllp.world VllpLink.Demo.App }.
Definition no_v : vllp := new_vllp 0 0 0.

Definition on_host {A} (m : VllpHost.M A) (p : pair) : res (A * pair) :=
  '(a, w) ← m (p_host p); Ret (a, mk_pair w (p_tmo p) (p_dev p)).
Definition at_time (now : Z) (p : pair) : pair :=
  let w := p_host p in mk_pair (mk_world (w_v w) (w_chans w) now (w_rnd w) (w_out w)) (p_tmo p) (p_dev p).

(** The host with 8-byte frames and a timeout of 5 seconds. *)
Definition start : res pair :=
  s ← VllpLink.Demo.start;
  let d := s.2 in
  let d := Vllp.mk_world (default (Vllp.w_v d) (head s.1)) (Vllp.w_chans d) nm (Vllp.w_now d) [] in
  '(_, w) ← (vllp_create_client calloc 8 5 0;; thread_start) (mk_world no_v ∅ 1 0 []);
  Ret (mk_pair w 0 d).

Fixpoint to_device (out : list event) (d : Vllp.world VllpLink.Demo.App) : res (Vllp.world VllpLink.Demo.App) :=
  match out with
  | [] => Ret d
  | Tx bs :: out => s ← VllpLink.Demo.input bs ([Vllp.w_v d], d); to_device out s.2
  | _ :: out => to_device out d
  end.
Fixpoint to_host (out : list Vllp.event) : VllpHost.M () :=
  match out with
  | [] => mret ()
  | Vllp.Emit _ pb :: out => vllp_input (payload pb);; to_host out
  | _ :: out => to_host out
  end.

(** One pass of the host's thread, what it sent to the device, the device's ACK if
    it is due within half a second, and what the device sent back; and the frames of the host. *)
Definition round (p : pair) : res (list (list Z) * pair) :=
  '((tmo, _), w) ← vllp_thread_pass oc getrandom rand calloc crc32 (p_tmo p) (p_host p);
  d ← to_device (w_out w) (p_dev p);
  '(_, d) ← match Vllp.ack_timer (Vllp.w_v d) with
            | Some t => if t <? Vllp.w_now d + 500000 then Vllp.vllp_ack_timer VllpLink.Demo.fn crc32 d
                        else Ret (tt, d)
            | None => Ret (tt, d)
            end;
  '(_, w') ← to_host (Vllp.w_out d) (mk_world (w_v w) (w_chans w) (w_now w) (w_rnd w) []);
  Ret (omap (λ e, match e with Tx bs => Some bs | _ => None end) (w_out w),
       mk_pair w' tmo (Vllp.mk_world (Vllp.w_v d) (Vllp.w_chans d) (Vllp.w_nm d) (Vllp.w_now d) [])).
Fixpoint rounds (n : nat) (p : pair) : res (list (list Z) * pair) :=
  match n with
  | O => Ret ([], p)
  | S n => '(f, p) ← round p; '(fs, p) ← rounds n p; Ret (f ++ fs, p)
  end.
Definition create (p : pair) : res (option Z * pair) :=
  on_host (vllp_channel_create calloc [101; 99; 104; 111] 0 false false false) p.
Definition state_of (p : pair) (h : Z) : option vllp_channel_state := vc_state <$> w_chans (p_host p) !! h.
Definition device_channels (p : pair) : list Z := Vllp.vc_id <$> (map_to_list (Vllp.w_chans (p_dev p))).*2.
End Pair.

(** From nothing to a message in the hands of the service: connect, open a channel
    by name, send ten bytes. *)
Example host_device_session :
  (p ← Pair.start; '(_, p) ← Pair.rounds 3 p; '(a, p) ← Pair.create p; '(_, p) ← Pair.rounds 12 p;
   '(_, p) ← Pair.on_host (vllp_channel_send (default 0 a) [1; 2; 3; 4; 5; 6; 7; 8; 9; 10]) p;
   '(_, p) ← Pair.rounds 12 p;
   Ret (Pair.state_of p (default 0 a), omap Vllp.vc_app (map_to_list (Vllp.w_chans (Pair.p_dev p))).*2)) =
  Ret (Some ESTABLISHED, [[[1; 2; 3; 4; 5; 6; 7; 8; 9; 10]]]).
Proof. vm_compute. reflexivity. Qed.

Module Lost.
(** A channel is open when the connection times out; its owner has another one
    opened, and gets the same number for it. *)
Definition lost : res (Z * Pair.pair) :=
  p ← Pair.start; '(_, p) ← Pair.rounds 3 p; '(a, p) ← Pair.create p; '(_, p) ← Pair.rounds 12 p;
  '(_, p) ← Pair.round (Pair.at_time 6000000 p);
  Ret (default 0 a, p).
End Lost.

(** A channel that lost its connection cannot be closed without harm.
    [vllp_disconnect] takes it off the list of channels and frees its number but
    leaves its state [ESTABLISHED], so [vllp_channel_close], which the owner has to
    call to give back the reference, puts it on the queue of active channels: when
    the connection is back, the host sends a CLOSE (byte 48) for the number, which by
    then belongs to the new channel that nobody closed.  With [wait], the close times
    out and takes the channel off a list it is not on. *)
Theorem host_close_after_disconnect :
  ('(a, p) ← Lost.lost; '(b, p) ← Pair.create p;
   '(_, p) ← Pair.on_host (vllp_channel_close a 0 false) p;
   '(fs, p) ← Pair.rounds 20 (Pair.at_time 8000000 p);
   Ret (Pair.state_of p a, Pair.state_of p (default 0 b), drop 3 (take 4 <$> fs))) =
  Ret (None, Some ESTABLISHED, [[190; 48; 0; 0]]) ∧
  ('(a, p) ← Lost.lost; '(waits, p) ← Pair.on_host (vllp_channel_close a 0 true) p;
   Ret (waits, match close_wait_pass a true (Pair.p_host p) with Fault f => Some f | Ret _ => None end)) =
  Ret (true, Some OutOfBounds).
Proof. split; vm_compute; reflexivity. Qed.

(** The frame size is checked and the result of the check is not: a client or a
    server for frames of less than 8 bytes is written to through NULL. *)
Theorem host_small_mtu_crashes calloc mtu timeout fl w :
  mtu < 8 → vllp_create_client calloc mtu timeout fl w = Fault OutOfBounds ∧
  vllp_create_server calloc mtu timeout fl w = Fault OutOfBounds.
Proof.
  intros H. unfold vllp_create_client, vllp_create_server, vllp_create.
  rewrite (proj2 (Z.ltb_lt _ _)) by done. done.
Qed.

(** ** Witnesses *)

Module HostWit.
(** The pair with its channel open. *)
Definition opened : res (option Z * Pair.pair) :=
  p ← Pair.start; '(_, p) ← Pair.rounds 3 p; '(a, p) ← Pair.create p; '(_, p) ← Pair.rounds 12 p; Ret (a, p).
Definition get {A} (d : A) (r : res A) : A := match r with Ret a => a | Fault _ => d end.
Definition host : world := get (mk_world Pair.no_v ∅ 0 0 []) ('(_, p) ← opened; Ret (Pair.p_host p)).
(** A fragment of channel 0, not the last of its message. *)
Definition u : list Z := [64; 1; 2; 3].
Definition rx := vllp_handle_rx Pair.oc Pair.calloc crc32 u 7 host.
Definition host' : world := get host ('(_, w) ← rx; Ret w).

(** A host with the bytes 10, 20, 30 waiting on channel 3, as the peer of [VllpLink.Wit.w]. *)
Definition vc (iv : Z) (mtxq : list pkt) : channel :=
  mk_channel [] mtxq [] false false false iv iv [] [] 0 2 ESTABLISHED 3 false false 0.
Definition w (mtxq : list pkt) : world :=
  mk_world (set_cmc 1 (set_channels [2; 1] (set_connected true (new_vllp 64 5 1))))
    {[ 1 := set_vc_mtxq [] (mk_channel [] [] [] false false false 5 5 [] [] 0 2 ESTABLISHED 14 false false 0);
       2 := vc 7 mtxq ]} 0 0 [].
Definition busy : world :=
  mk_world (set_v_refcount 3 (set_active_channels [2] (w_v (w []))))
    (<[ 2 := set_vc_state ACTIVE (vc 7 [PktMsg [10; 20; 30]]) ]> (w_chans (w []))) 0 0 [].
Lemma busy_ready : tx_ready busy.
Proof.
  split; cbn.
  - split; [vm_compute; congruence|intros _; vm_compute; congruence].
  - done.
  - apply NoDup_singleton.
  - intros h ->%list_elem_of_singleton. eexists. split; [reflexivity|].
    split; [reflexivity|done|by apply Forall_nil|vm_compute; congruence].
  - eexists. split; [reflexivity|]. split_and!; [vm_compute; congruence|by apply Forall_nil|by apply Forall_nil|].
    split; [done|by intros ?%list_elem_of_singleton].
  - vm_compute. split; congruence.
Qed.
Lemma listening_wit : listening (w []) 3 2 (vc 7 []).
Proof. split; [reflexivity|reflexivity|vm_compute; congruence]. Qed.

(** A fresh client and a fresh device. *)
Definition client : world := get (mk_world Pair.no_v ∅ 0 0 []) (p ← Pair.start; Ret (Pair.p_host p)).
Definition device : Vllp.world VllpLink.Demo.App :=
  get VllpLink.Demo.w0 (p ← Pair.start; Ret (Pair.p_dev p)).
Definition syn : pbuf := VllpLink.Wit.pb 20 (syn_bytes 8 1000).
Definition cmc1 : channel := default (vc 0 []) (w_chans client !! 1).
Definition cmc2 : Vllp.channel VllpLink.Demo.App := default (VllpLink.Wit.chan None 0 0) (Vllp.w_chans device !! Vllp.cmc (Vllp.w_v device)).
End HostWit.

(** The host with a message waiting on its second channel: it starts a fragment. *)
Lemma host_refines_arq_witness :
  HostWit.rx = Ret (0, HostWit.host') ∧
  host_ctl HostWit.host' = ctl_recv 64 true false (host_ctl HostWit.host) ∧
  (∃ t w', vllp_tx Pair.getrandom Pair.rand crc32 (tx_fuel (w_v (HostWit.busy))) 7 HostWit.busy = Ret (t, w') ∧
    ∃ frames, w_out w' = Tx <$> frames ∧ (length frames <= 1)%nat ∧ Forall (host_emits w') frames).
Proof.
  assert (HostWit.rx = Ret (0, HostWit.host')) as E by (vm_compute; reflexivity). split; [exact E|]. split.
  - destruct (host_refines_arq Pair.oc Pair.getrandom Pair.rand Pair.calloc crc32 HostWit.host) as [H _]; [vm_compute; reflexivity|].
    destruct (H HostWit.u 7 HostWit.host' E) as (_ & _ & _ & Hc); [vm_compute; congruence|vm_compute; by intros ?%elem_of_nil|].
    exact Hc.
  - destruct (host_refines_arq Pair.oc Pair.getrandom Pair.rand Pair.calloc crc32 HostWit.busy) as [_ H]; [vm_compute; reflexivity|].
    destruct (H 7 HostWit.busy_ready) as (t & w' & E2 & _ & _ & frames & Ho & Hl & Hf); [by intros ?%elem_of_nil|].
    exists t, w'. split; [exact E2|]. exists frames. split_and!; [exact Ho|exact Hl|exact Hf].
Defined.

Lemma host_to_device_witness :
  ∃ w1' vc1' frames us pb' nm w2',
    fragment crc32 2 (HostWit.w [PktMsg [10; 20; 30]]) = Ret (tt, w1') ∧ w_chans w1' !! 2 = Some vc1' ∧
    zip_with sent_as [w_v (HostWit.w [])] (vc_txq vc1') = Some <$> frames ∧ mapM unpad frames = Some us ∧
    mapM (Vllp.vllp_channel_receive VllpLink.Demo.fn VllpLink.Demo.services VllpLink.Demo.xalloc crc32 3) us VllpLink.Wit.w
      = Ret (replicate (length us) 0, w2') ∧ payload pb' = [10; 20; 30] ∧
    VllpLink.delivered VllpLink.Demo.fn VllpLink.Wit.w w2' 2 (VllpLink.Wit.chan (Some []) 3 7) [] pb' nm.
Proof.
  destruct (host_to_device VllpLink.Demo.fn VllpLink.Demo.services VllpLink.Demo.xalloc crc32
    (HostWit.w [PktMsg [10; 20; 30]]) 2 (HostWit.vc 7 [PktMsg [10; 20; 30]]) [10; 20; 30] [w_v (HostWit.w [])]
    VllpLink.Wit.w 2 (VllpLink.Wit.chan (Some []) 3 7) [])
    as (w1' & vc1' & frames & us & pb' & nm & w2' & E & Hv & _ & Ez & _ & Eu & _ & Er & Hp & _ & Hd);
    [reflexivity|reflexivity|reflexivity
    |do 3 (apply Forall_cons_2; [split; vm_compute; congruence|]); apply Forall_nil_2
    |vm_compute; lia|vm_compute; split; congruence|vm_compute; split; congruence
    |apply Forall_singleton; split; [vm_compute; repeat constructor|reflexivity]
    |vm_compute; reflexivity|apply VllpLink.Wit.rcv_wit|vm_compute; congruence|reflexivity|apply VllpLink.Wit.nm_wit
    |reflexivity|vm_compute; split; congruence|reflexivity|].
  exists w1', vc1', frames, us, pb', nm, w2'. split_and!; [exact E|exact Hv|exact Ez|exact Eu|exact Er|exact Hp|exact Hd].
Defined.

Lemma device_to_host_witness :
  ∃ l w1' frames us w2' vc2',
    (_ ← Vllp.vllp_channel_tx crc32 2 ([] ++ [VllpLink.Wit.pb 20 [10; 20; 30]]) [VllpLink.Wit.pb 21 [0]];
     mapM Vllp.vllp_ack_payload [[VllpLink.Wit.pb 21 [0]]]) VllpLink.Wit.w = Ret (l, w1') ∧
    mapM (λ f, input_unpad VLLP_FDCAN_ADAPTATION (payload f)) frames = Some us ∧
    mapM (λ u, VllpHost.vllp_channel_receive Pair.oc Pair.calloc crc32 3 (deref u) (tail u)) us (HostWit.w []) =
      Ret (replicate (length us) 0, w2') ∧
    w_chans w2' !! 2 = Some vc2' ∧ vc_rxq vc2' = [PktMsg [10; 20; 30]].
Proof.
  destruct (device_to_host Pair.oc Pair.calloc crc32 VllpLink.Wit.w 2
    (VllpLink.Wit.chan (Some []) 3 7) [] (VllpLink.Wit.pb 20 [10; 20; 30]) [VllpLink.Wit.pb 21 [0]] [[VllpLink.Wit.pb 21 [0]]]
    (HostWit.w []) 2 (HostWit.vc 7 [])) as (l & w1' & frames & us & w2' & vc2' & E & _ & _ & Eu & Er & Hv & Hq & _ & _);
    [apply VllpLink.Wit.nm_wit|reflexivity|apply VllpLink.Wit.packet_wit
    |vm_compute; do 3 (apply Forall_cons_2; [split; congruence|]); apply Forall_nil_2
    |vm_compute; congruence|vm_compute; congruence|vm_compute; split; congruence|vm_compute; split; congruence
    |vm_compute; repeat constructor
    |apply VllpLink.Wit.packet_wit|done|apply Forall_singleton; split; [apply VllpLink.Wit.packet_wit|done]
    |vm_compute; reflexivity|apply HostWit.listening_wit|reflexivity|vm_compute; split; congruence|reflexivity|].
  exists l, w1', frames, us, w2', vc2'. split_and!; [exact E|exact Eu|exact Er|exact Hv|exact Hq].
Defined.

Lemma vllp_connects_witness :
  ∃ w1'' w2' frame, Vllp.vllp_rx VllpLink.Demo.fn VllpLink.Demo.services VllpLink.Demo.xalloc crc32 [HostWit.syn] HostWit.device
      = Ret ([], w2') ∧ Vllp.w_out w2' = [Vllp.Emit 66 frame] ∧
    connected (w_v w1'') = true ∧ Vllp.connected (Vllp.w_v w2') = true ∧ crc_IV (w_v w1'') = 1000.
Proof.
  destruct (vllp_connects VllpLink.Demo.fn VllpLink.Demo.services VllpLink.Demo.xalloc Pair.oc Pair.getrandom Pair.rand Pair.calloc
    crc32 HostWit.client 0 1000 HostWit.cmc1 HostWit.device HostWit.cmc2 HostWit.syn)
    as (w1' & w1'' & w2' & frame & vc1' & vc2' & _ & _ & E & Ho & _ & Hc & Hd & Hi & _);
    [split; (try by left); vm_compute; congruence || reflexivity|vm_compute; reflexivity|vm_compute; split; congruence
    |vm_compute; reflexivity|vm_compute; reflexivity|vm_compute; reflexivity|vm_compute; reflexivity
    |split; vm_compute; congruence || reflexivity|vm_compute; reflexivity|].
  exists w1'', w2', frame. split_and!; [exact E|exact Ho|exact Hc|exact Hd|exact Hi].
Defined.

Lemma host_small_mtu_crashes_witness :
  vllp_create_client Pair.calloc 7 5 0 (mk_world Pair.no_v ∅ 0 0 []) = Fault OutOfBounds ∧
  vllp_create_server Pair.calloc 7 5 0 (mk_world Pair.no_v ∅ 0 0 []) = Fault OutOfBounds.
Proof. apply (host_small_mtu_crashes Pair.calloc 7 5 0 (mk_world Pair.no_v ∅ 0 0 [])). lia. Defined.
