(* ===== verification/PushPull.v ===== *)
(** * PushPull: the stream adapter for network services ([src/net/pushpull.c])

    A service that speaks the stream interface is put behind a network channel by
    [pushpull_stream_t]: its thread reads and writes bytes, the network side pushes
    and pulls packets.  [pps] is the state both share under its mutex; every
    operation runs with the mutex held and gives it up only in [cond_wait], so an
    operation is modelled as passes: a pass runs to its return ([RDone], [WDone]) or
    to the wait ([RWait], [WWait]), and is entered again, with its local variables,
    when the thread was signalled.  The condition variable is its wait list, ordered
    by priority as [Sched] has it; [pps_woken] is who was signalled and has not run.

    [pp_step] is the interleaving of one reader, one writer and the network, and
    [stream_fifo] the byte-stream property of all its runs.  [stream_app] is the
    adapter as service behind a VLLP channel, and [stream_over_vllp] composes two of
    them through the link. *)

From Stdlib Require Import ZArith Lia.
From stdpp Require Import base list numbers gmap strings.
From S2P Require Import Prelude Crc Pbuf Sched Vllp VllpLink.

Open Scope Z_scope.

Definition PUSHPULL_EVENT_PUSH : Z := 2.
Definition PUSHPULL_EVENT_PULL : Z := 4.
Definition ERR_INTERRUPTED : Z := -48.
Definition STREAM_WRITE_NO_WAIT : Z := 1.

(** ** State *)

(** [pushpull_stream_t]; [pps_txbuf] is the chain from [pps_txbuf_head] to
    [pps_txbuf_tail], [pps_events] the calls of [net->event] so far. *)
Record pps := mk_pps {
  pps_pp : pushpull;
  pps_cond : list nat;
  pps_rxbuf : list pbuf;
  pps_txbuf : list pbuf;
  pps_shutdown : bool;
  pps_flushed : bool;
  pps_events : list Z;
  pps_woken : list nat;
}.

Definition set_rxbuf (x : list pbuf) (p : pps) : pps :=
  mk_pps (pps_pp p) (pps_cond p) x (pps_txbuf p) (pps_shutdown p) (pps_flushed p) (pps_events p)
    (pps_woken p).
Definition set_txbuf (x : list pbuf) (p : pps) : pps :=
  mk_pps (pps_pp p) (pps_cond p) (pps_rxbuf p) x (pps_shutdown p) (pps_flushed p) (pps_events p)
    (pps_woken p).
Definition set_shutdown (p : pps) : pps :=
  mk_pps (pps_pp p) (pps_cond p) (pps_rxbuf p) (pps_txbuf p) true (pps_flushed p) (pps_events p)
    (pps_woken p).
Definition set_flushed (x : bool) (p : pps) : pps :=
  mk_pps (pps_pp p) (pps_cond p) (pps_rxbuf p) (pps_txbuf p) (pps_shutdown p) x (pps_events p)
    (pps_woken p).
Definition net_event (e : Z) (p : pps) : pps :=
  mk_pps (pps_pp p) (pps_cond p) (pps_rxbuf p) (pps_txbuf p) (pps_shutdown p) (pps_flushed p)
    (pps_events p ++ [e]) (pps_woken p).
Definition set_cond (c w : list nat) (p : pps) : pps :=
  mk_pps (pps_pp p) c (pps_rxbuf p) (pps_txbuf p) (pps_shutdown p) (pps_flushed p) (pps_events p) w.

(** [cond_signal]: the first waiter, if any. *)
Definition signal (p : pps) : pps :=
  match pps_cond p with
  | [] => p
  | t :: rest => set_cond rest (pps_woken p ++ [t]) p
  end.

Section Streams.
(** Priorities of the threads. *)
Context (prio : nat → Z).

(** [cond_wait] by thread [t], up to the sleep. *)
Definition wait (t : nat) (p : pps) : pps :=
  set_cond (list_insert_sorted (task_prio_cmp prio) t (pps_cond p)) (pps_woken p) p.

(** ** The stream side *)

Inductive rd_out := RDone (r : Z) | RWait (off : Z).

(** [pushpull_stream_read] by thread [t] from [off] on: how the pass ends, the bytes
    it stored to the buffer, the state. *)
Fixpoint read_pass (fuel : nat) (t : nat) (p : pps) (nm : netmem) (off size requested : Z)
    : res (rd_out * list Z * pps * netmem) :=
  match fuel with
  | O => Fault NoFuel
  | S f =>
      if pps_shutdown p then Ret (RDone ERR_INTERRUPTED, [], p, nm)
      else match pps_rxbuf p with
      | [] =>
          if requested <=? off then Ret (RDone off, [], p, nm)
          else Ret (RWait off, [], wait t (net_event PUSHPULL_EVENT_PUSH p), nm)
      | pb :: _ =>
          let avail := pb_pktlen pb in
          let to_copy := Z.min avail (size - off) in
          '(bs, c, nm) ← pbuf_read (fuel_for (pps_rxbuf p)) nm (pps_rxbuf p) to_copy;
          let p := set_rxbuf c p in
          if off + to_copy =? size then Ret (RDone (off + to_copy), bs, p, nm)
          else
            '(o, bs', p, nm) ← read_pass f t p nm (off + to_copy) size requested;
            Ret (o, bs ++ bs', p, nm)
      end
  end.

Inductive wr_out := WDone (written : Z) | WWait (rest : list Z) (written : Z).

Definition flush_event (p : pps) : pps := net_event PUSHPULL_EVENT_PULL (set_flushed true p).

(** A head buffer for the packet to fill; [false]: there is none, and the caller does
    not wait. *)
Definition get_head (p : pps) (nm : netmem) (flags : Z) : res (bool * pps * netmem) :=
  match pps_txbuf p with
  | _ :: _ => Ret (true, p, nm)
  | [] =>
      '(pb, nm) ← pbuf_make0 nm (preferred_offset (pps_pp p)) false;
      match pb with
      | Some pb => Ret (true, set_txbuf [pb] p, nm)
      | None =>
          let p := flush_event p in
          if bit_set flags STREAM_WRITE_NO_WAIT then Ret (false, p, nm)
          else
            '(pb, nm) ← pbuf_make0 nm (preferred_offset (pps_pp p)) true;
            match pb with
            | Some pb => Ret (true, set_txbuf [pb] p, nm)
            | None => Fault OutOfBounds
            end
      end
  end.

(** Another buffer behind a full tail; [remain] is 0 when there is none. *)
Definition extend (p : pps) (nm : netmem) (remain : Z) : res (Z * pps * netmem) :=
  match last (pps_txbuf p) with
  | None => Fault OutOfBounds
  | Some tl =>
      if (negb (remain =? 0) && (pb_buflen tl + pb_offset tl =? PBUF_DATA_SIZE))%bool then
        '(pb, nm) ← pbuf_make0 nm 0 false;
        match pb with
        | None => Ret (0, p, nm)
        | Some pb =>
            Ret (remain, set_txbuf (on_last (λ t, clear_flag t PBUF_EOP) (pps_txbuf p) ++
                                    [clear_flag pb PBUF_SOP]) p, nm)
        end
      else Ret (remain, p, nm)
  end.

(** The copy into the tail buffer: the bytes left. *)
Definition fill (p : pps) (remain : Z) (buf : list Z) : res (list Z * Z * pps) :=
  match last (pps_txbuf p) with
  | None => Fault OutOfBounds
  | Some pb =>
      let to_copy := Z.min (Z.min (Z.of_nat (length buf)) remain)
                       (PBUF_DATA_SIZE - (pb_offset pb + pb_buflen pb)) in
      m ← wr (db_mem (pb_data pb)) (pb_offset pb + pb_buflen pb) (take (Z.to_nat to_copy) buf);
      let c := on_head (λ h, set_pktlen h (u16 (pb_pktlen h + to_copy))) (pps_txbuf p) in
      let c := on_last (λ t, set_mem (set_win t (pb_offset t) (u16 (pb_buflen t + to_copy))) m) c in
      Ret (drop (Z.to_nat to_copy) buf, to_copy, set_txbuf c p)
  end.

(** [pushpull_stream_write] by thread [t]: the bytes still to write, the count. *)
Fixpoint write_pass (fuel : nat) (t : nat) (p : pps) (nm : netmem) (buf : list Z) (flags written : Z)
    : res (wr_out * pps * netmem) :=
  match fuel with
  | O => Fault NoFuel
  | S f =>
      match buf with
      | [] => Ret (WDone written, p, nm)
      | _ =>
          if pps_shutdown p then Ret (WDone written, p, nm)
          else
            '(have, p, nm) ← get_head p nm flags;
            if negb have then Ret (WDone written, p, nm)
            else
              let remain := match pps_txbuf p with
                            | [] => 0
                            | hd :: _ => u32 (max_fragment_size (pps_pp p) - pb_pktlen hd)
                            end in
              '(remain, p, nm) ← extend p nm remain;
              if remain =? 0 then Ret (WWait buf written, wait t (flush_event p), nm)
              else
                '(buf, n, p) ← fill p remain buf;
                write_pass f t p nm buf flags (written + n)
      end
  end.
(** [stream_flush]: a write of NULL. *)
Definition write_flush (p : pps) : pps :=
  match pps_txbuf p with [] => p | _ => flush_event p end.

(** ** The network side *)

Definition pushpull_stream_pull (p : pps) : list pbuf * pps :=
  if pps_flushed p then
    match pps_txbuf p with
    | [] => ([], p)
    | pb => (pb, set_flushed false (signal (set_txbuf [] p)))
    end
  else ([], p).

Definition pushpull_stream_push (p : pps) (pb : list pbuf) : res pps :=
  match pps_rxbuf p with
  | [] => Ret (signal (set_rxbuf pb p))
  | _ => Fault Assert
  end.
Definition pushpull_stream_may_push (p : pps) : bool :=
  match pps_rxbuf p with [] => true | _ => false end.
Definition pushpull_stream_close_pp (p : pps) : pps := signal (set_shutdown p).

(** [pushpull_stream_destroy]: [None] while it waits for the network to close. *)
Definition pushpull_stream_wait_shutdown (t : nat) (p : pps) (nm : netmem)
    : res (option netmem * pps) :=
  if pps_shutdown p then
    nm ← pbuf_free nm (pps_rxbuf p);
    nm ← pbuf_free nm (pps_txbuf p);
    Ret (Some nm, p)
  else Ret (None, wait t p).
Definition pushpull_stream_destroy (t : nat) (p : pps) (nm : netmem) : res (option netmem * pps) :=
  pushpull_stream_wait_shutdown t (net_event PUSHPULL_EVENT_CLOSE p) nm.
End Streams.

(** ** Opening *)

(** The bridge is made unless the service has the packet interface.  [alloc] is the
    outcome of [xalloc], [open_stream] the service's entry point. *)
Definition service_open_pushpull {App} (open_pp : option (pushpull → Z + App)) (bridge : pps → App)
    (alloc : bool) (open_stream : pps → Z) (pp : pushpull) : Z + App :=
  match open_pp with
  | Some open => open pp
  | None =>
      if negb alloc then inl ERR_NO_MEMORY
      else
        let p := mk_pps pp [] [] [] false false [] [] in
        let err := open_stream p in
        if err =? 0 then inr (bridge p) else inl err
  end.

(** The adapter as a service of [Vllp]; a failed assertion is kept as the state. *)
Definition stream_app : app_fn (res pps) := {|
  push := λ a pb nm, (0, p ← a; pushpull_stream_push p pb, nm);
  may_push := Some (λ a, match a with Ret p => pushpull_stream_may_push p | Fault _ => false end);
  pull := λ a nm, match a with
                  | Ret p => let '(pb, p) := pushpull_stream_pull p in (pb, Ret p, nm)
                  | Fault f => ([], Fault f, nm)
                  end;
  close := λ a _, p ← a; Ret (pushpull_stream_close_pp p);
|}.

(** ** Invariants of the adapter *)

(** What the channel prescribes for its packets. *)
Definition pp_ok (pp : pushpull) : Prop :=
  0 < max_fragment_size pp < 65536 ∧ 0 <= preferred_offset pp <= PBUF_DATA_SIZE.

(** The packet being filled is sound and within the fragment size. *)
Definition tx_ok (p : pps) : Prop :=
  pp_ok (pps_pp p) ∧ packet (pps_txbuf p) ∧ chain_len (pps_txbuf p) <= max_fragment_size (pps_pp p).

(** Operations of the writer leave the reader's side alone. *)
Definition rest_same (p p' : pps) : Prop :=
  pps_pp p' = pps_pp p ∧ pps_rxbuf p' = pps_rxbuf p ∧ pps_shutdown p' = pps_shutdown p ∧
  pps_woken p' = pps_woken p.

Lemma rest_same_refl p : rest_same p p.
Proof. done. Qed.
Lemma rest_same_trans p1 p2 p3 : rest_same p1 p2 → rest_same p2 p3 → rest_same p1 p3.
Proof. unfold rest_same. naive_solver congruence. Qed.
#[local] Hint Resolve rest_same_refl rest_same_trans : mios.

Lemma pbuf_make0_ok nm off wait :
  nm_ok nm → 0 <= off <= PBUF_DATA_SIZE →
  (wait = true ∧ pbuf_make0 nm off wait = Fault Blocked) ∨
  (∃ nm', wait = false ∧ pbuf_make0 nm off wait = Ret (None, nm') ∧ nm_ok nm' ∧ ¬ spare nm) ∨
  (∃ pb nm', pbuf_make0 nm off wait = Ret (Some pb, nm') ∧ nm_ok nm' ∧ packet [pb] ∧
     pb_pktlen pb = 0 ∧ pb_buflen pb = 0 ∧ pb_offset pb = off ∧ window pb = [] ∧
     has_flag pb PBUF_EOP = true).
Proof.
  intros Hnm Hoff. unfold pbuf_make0, pbuf_make_irq_blocked0. unfold PBUF_DATA_SIZE in Hoff.
  destruct (get_both_cases nm wait (λ a d, mk_pbuf a (Z.lor PBUF_SOP PBUF_EOP) 0 0 (u16 off) 0 d) Hnm)
    as [[-> E]|[(nm' & -> & E & Hnm' & _)|(a & d & nm' & E & Hnm' & Ha & Hd & Hm & _)]].
  - left. done.
  - right. left. exists nm'. split_and!; try done.
    intros [H1 H2]. destruct Hnm as (Hp & Hq & _). revert E.
    unfold get_both, pbuf_get0, pbuf_data_get0, pbuf_pool_get, pool_pop. cbn [negb].
    rewrite (proj2 (Z.ltb_ge _ 2)) by done. destruct Hp as [Hp _], Hq as [Hq _].
    destruct (pp_items (pbufs nm)) as [|a l]; [simpl in Hp; lia|]. cbn [mbind res_bind pbuf_datas].
    rewrite (proj2 (Z.ltb_ge _ 2)) by done.
    destruct (pp_items (pbuf_datas nm)) as [|d l']; [simpl in Hq; lia|]. done.
  - right. right. rewrite u16_id in E |- * by lia.
    set (pb := mk_pbuf a (Z.lor PBUF_SOP PBUF_EOP) 0 0 off 0 d) in *. exists pb, nm'. split_and!; try done.
    split_and!; [|simpl; lia|done]. apply Forall_singleton.
    split; simpl; unfold PBUF_DATA_SIZE in *; try done; lia.
Qed.

Lemma tx_ok_single p pb :
  pp_ok (pps_pp p) → packet [pb] → pb_buflen pb = 0 → tx_ok (set_txbuf [pb] p).
Proof. intros Hpp Hpk Hb. split_and!; [done|done|]. cbn. destruct Hpp. lia. Qed.

Lemma get_head_ok p nm flags :
  nm_ok nm → tx_ok p →
  (get_head p nm flags = Fault Blocked ∧ pps_txbuf p = [] ∧ ¬ spare nm) ∨
  ∃ have p' nm', get_head p nm flags = Ret (have, p', nm') ∧ nm_ok nm' ∧ tx_ok p' ∧
    payload (pps_txbuf p') = payload (pps_txbuf p) ∧ rest_same p p' ∧ pps_cond p' = pps_cond p ∧
    (if (have : bool) then pps_txbuf p' ≠ [] ∧
       (pps_txbuf p = [] → ∃ pb, pps_txbuf p' = [pb] ∧ pb_offset pb = preferred_offset (pps_pp p) ∧ pb_buflen pb = 0)
     else bit_set flags STREAM_WRITE_NO_WAIT = true ∧ ¬ spare nm ∧ pps_txbuf p = []).
Proof.
  intros Hnm Hok. pose proof Hok as ([Hmfs Hpo] & Hpk & Hlen). unfold get_head.
  destruct (pps_txbuf p) as [|h c] eqn:Etx.
  2: { right. exists true, p, nm. rewrite Etx. split_and!; try done. }
  destruct (pbuf_make0_ok nm (preferred_offset (pps_pp p)) false Hnm Hpo)
    as [[E _]|[(nm' & _ & E & Hnm' & Hsp)|(pb & nm' & E & Hnm' & Hpb & Hpl & Hbl & Hof & Hw & _)]]; [done| |];
    rewrite E; cbn [mbind res_bind].
  - destruct (bit_set flags STREAM_WRITE_NO_WAIT) eqn:Ef.
    + right. exists false, (flush_event p), nm'. cbn. rewrite Etx. split_and!; try done.
    + unfold flush_event. cbn [net_event set_flushed pps_pp].
      destruct (pbuf_make0_ok nm' (preferred_offset (pps_pp p)) true Hnm' Hpo)
        as [[_ E2]|[(? & ? & _)|(pb & nm2 & E2 & Hnm2 & Hpb & Hpl & Hbl & Hof & Hw & _)]]; [|done|];
        rewrite E2; cbn [mbind res_bind]; [by left|].
      right. exists true. eexists _, nm2. split; [done|]. cbn [set_txbuf pps_txbuf].
      split_and!; try done.
      * by apply (tx_ok_single (flush_event p)).
      * by rewrite payload_cons, Hw.
      * intros _. by exists pb.
  - right. exists true. eexists _, nm'. split; [done|]. cbn [set_txbuf pps_txbuf].
    split_and!; try done.
    + by apply tx_ok_single.
    + by rewrite payload_cons, Hw.
    + intros _. by exists pb.
Qed.

(** Adding an empty buffer at the end of a packet. *)
Lemma packet_extend c tl pb :
  packet (c ++ [tl]) → packet [pb] → pb_buflen pb = 0 → window pb = [] →
  packet (c ++ [clear_flag tl PBUF_EOP; clear_flag pb PBUF_SOP]) ∧
  payload (c ++ [clear_flag tl PBUF_EOP; clear_flag pb PBUF_SOP]) = payload (c ++ [tl]) ∧
  chain_len (c ++ [clear_flag tl PBUF_EOP; clear_flag pb PBUF_SOP]) = chain_len (c ++ [tl]).
Proof.
  intros (Hok & Hl & Hp) (Hok2 & _ & _) Hb Hw. apply Forall_app in Hok as [Hok1 Htl].
  apply Forall_cons_1 in Htl as [Htl _]. apply Forall_cons_1 in Hok2 as [Hpb _].
  assert (chain_len (c ++ [clear_flag tl PBUF_EOP; clear_flag pb PBUF_SOP]) = chain_len (c ++ [tl])) as Hcl.
  { rewrite !chain_len_app. simpl. lia. }
  split_and!; [split_and!| |done].
  - apply Forall_app. split; [done|]. apply Forall_cons_2; [by apply set_flags_ok|].
    apply Forall_singleton. by apply set_flags_ok.
  - lia.
  - rewrite Hcl. by destruct c.
  - rewrite !payload_app, !payload_cons. f_equal. unfold payload at 1. cbn [mbind list_bind].
    change (window (clear_flag pb PBUF_SOP)) with (window pb). rewrite Hw. done.
Qed.

Definition tail_full (c : list pbuf) : Prop :=
  ∃ tl, last c = Some tl ∧ pb_buflen tl + pb_offset tl = PBUF_DATA_SIZE.

Lemma extend_ok p nm remain :
  nm_ok nm → tx_ok p → pps_txbuf p ≠ [] → 0 <= remain →
  ∃ remain' p' nm', extend p nm remain = Ret (remain', p', nm') ∧ nm_ok nm' ∧ tx_ok p' ∧
    pps_txbuf p' ≠ [] ∧ payload (pps_txbuf p') = payload (pps_txbuf p) ∧ rest_same p p' ∧
    pps_cond p' = pps_cond p ∧
    chain_len (pps_txbuf p') = chain_len (pps_txbuf p) ∧ (remain' = 0 ∨ remain' = remain) ∧
    (remain' ≠ 0 → ∃ tl, last (pps_txbuf p') = Some tl ∧ pb_buflen tl + pb_offset tl < PBUF_DATA_SIZE) ∧
    (∀ pb, pps_txbuf p = [pb] → pb_buflen pb + pb_offset pb < PBUF_DATA_SIZE → remain' = remain) ∧
    (remain' = 0 → remain = 0 ∨ tail_full (pps_txbuf p')).
Proof.
  intros Hnm (Hpp & Hpk & Hlen) Hne Hrem. unfold extend.
  destruct (pps_txbuf p) as [|tl c _] eqn:Etx using rev_ind; [done|]. rewrite last_snoc.
  assert (pb_ok tl) as Htl.
  { destruct Hpk as (H & _). apply Forall_app in H as [_ H]. by apply Forall_cons_1 in H as [? _]. }
  destruct (negb (remain =? 0) && (pb_buflen tl + pb_offset tl =? PBUF_DATA_SIZE))%bool eqn:E; bool_to_prop.
  - destruct (pbuf_make0_ok nm 0 false Hnm) as [[E2 _]|[(nm' & _ & E2 & Hnm' & _)|
      (pb & nm' & E2 & Hnm' & Hpb & _ & Hbl & Hof & Hw & _)]]; [unfold PBUF_DATA_SIZE; lia|done| |];
      rewrite E2; cbn [mbind res_bind].
    + exists 0, p, nm'. rewrite Etx. split_and!; try done.
      * unfold tx_ok. by rewrite Etx.
      * by left.
      * intros pb Hc Hlt. apply (app_inj_tail c [] tl pb) in Hc as [_ ->]. lia.
      * intros _. right. exists tl. by rewrite last_snoc.
    + destruct (packet_extend c tl pb Hpk Hpb Hbl Hw) as (H1 & H2 & H3).
      rewrite on_last_snoc, <- app_assoc. cbn [app]. eexists _, _, nm'. split; [done|].
      cbn [set_txbuf pps_txbuf pps_pp]. split_and!; try done.
      * split_and!; cbn; [done|done|lia].
      * by destruct c.
      * by right.
      * intros _. exists (clear_flag pb PBUF_SOP). split; [|cbn; rewrite Hbl, Hof; unfold PBUF_DATA_SIZE; lia].
        change [clear_flag tl PBUF_EOP; clear_flag pb PBUF_SOP]
          with ([clear_flag tl PBUF_EOP] ++ [clear_flag pb PBUF_SOP]). rewrite app_assoc. apply last_snoc.
  - exists remain, p, nm. rewrite Etx. split_and!; try done; [unfold tx_ok; by rewrite Etx|by right| |intros ?; by left].
    intros Hr. exists tl. split; [apply last_snoc|]. destruct Htl.
    destruct E as [E|E]; bool_to_prop; lia.
Qed.

(** The copy appends to the packet what fits the fragment and the tail buffer. *)
Lemma fill_ok p remain buf tl :
  tx_ok p → last (pps_txbuf p) = Some tl → pb_buflen tl + pb_offset tl < PBUF_DATA_SIZE →
  0 < remain → chain_len (pps_txbuf p) + remain <= max_fragment_size (pps_pp p) → buf ≠ [] →
  ∃ n p', fill p remain buf = Ret (drop (Z.to_nat n) buf, n, p') ∧ 0 < n <= Z.of_nat (length buf) ∧
    tx_ok p' ∧ pps_txbuf p' ≠ [] ∧ payload (pps_txbuf p') = payload (pps_txbuf p) ++ take (Z.to_nat n) buf ∧
    rest_same p p' ∧ pps_cond p' = pps_cond p.
Proof.
  intros (Hpp & Hpk & Hlen) Hlast Hroom Hrem Hfit Hne. apply last_Some in Hlast as [c Etx].
  unfold fill. rewrite Etx in *. rewrite last_snoc.
  assert (0 < length buf)%nat as Hlb by (destruct buf; [done|simpl; lia]).
  set (n := Z.min _ _). assert (0 < n <= Z.of_nat (length buf) ∧ n <= remain ∧
    pb_offset tl + pb_buflen tl + n <= PBUF_DATA_SIZE) as (Hn & Hn2 & Hn3) by (unfold n; lia).
  pose proof Hpk as (Hok & Hl & Hp). apply Forall_app in Hok as [Hok1 Hok2].
  apply Forall_cons_1 in Hok2 as [Htl _]. pose proof (chain_len_nonneg _ Hok1) as Hnn.
  assert (Z.of_nat (length (take (Z.to_nat n) buf)) = n) as Hln by (rewrite length_take; lia).
  pose proof Htl as [Hm Ho Hbl Hft _ _]. pose proof Hpp as [Hmfs Hpo].
  destruct (wr (db_mem (pb_data tl)) (pb_offset tl + pb_buflen tl) (take (Z.to_nat n) buf))
    as [m|] eqn:Ew; [|rewrite wr_ok in Ew by (unfold PBUF_DATA_SIZE in *; lia); done].
  cbn [mbind res_bind].
  destruct (window_wr tl m (take (Z.to_nat n) buf) Htl) as [Hok' Hw']; [lia|done|].
  rewrite Hln in Hok', Hw'. set (tl' := set_mem _ m) in Hok', Hw'. unfold PBUF_DATA_SIZE in *.
  destruct (packet_update_last
    (λ t, set_mem (set_win t (pb_offset t) (u16 (pb_buflen t + n))) m) n c tl tl' Hpk Hok')
    as (k & Hc' & Hpl & Hcl & Hlast & _).
  { intros k. unfold tl', set_mem, set_win, set_pktlen. cbn. by rewrite u16_id by lia. }
  { done. } { lia. } { rewrite chain_len_app in *. simpl in *. lia. }
  cbv zeta in *. eexists n, _. split; [done|]. cbn [set_txbuf pps_txbuf]. split_and!; try done.
  - lia.
  - lia.
  - split_and!; [done|done|]. cbn. lia.
  - intros E. rewrite E in Hlast. done.
  - rewrite Hpl, Hw', payload_app, payload_cons, app_nil_r. by rewrite app_assoc.
Qed.

(** How a writer's pass that took the first [k] bytes of [buf] ends. *)
Definition write_end (t : nat) (prio : nat → Z) (p p' : pps) (buf : list Z) (flags written : Z)
    (k : nat) (o : wr_out) : Prop :=
  match o with
  | WDone w => w = written + Z.of_nat k ∧ pps_cond p' = pps_cond p ∧
      (k = length buf ∨ pps_shutdown p = true ∨ bit_set flags STREAM_WRITE_NO_WAIT = true)
  | WWait rest w => w = written + Z.of_nat k ∧ rest = drop k buf ∧ rest ≠ [] ∧
      pps_flushed p' = true ∧ pps_txbuf p' ≠ [] ∧ pps_shutdown p = false ∧
      (chain_len (pps_txbuf p') = max_fragment_size (pps_pp p) ∨ tail_full (pps_txbuf p')) ∧
      pps_cond p' = list_insert_sorted (task_prio_cmp prio) t (pps_cond p)
  end.

Lemma write_pass_ok prio t fuel : ∀ p nm buf flags written,
  nm_ok nm → tx_ok p → (length buf < fuel)%nat →
  (write_pass prio fuel t p nm buf flags written = Fault Blocked ∧ pps_txbuf p = [] ∧ ¬ spare nm) ∨
  ∃ o p' nm' k, write_pass prio fuel t p nm buf flags written = Ret (o, p', nm') ∧
    (k <= length buf)%nat ∧ nm_ok nm' ∧ tx_ok p' ∧ rest_same p p' ∧
    payload (pps_txbuf p') = payload (pps_txbuf p) ++ take k buf ∧
    write_end t prio p p' buf flags written k o ∧
    (pps_txbuf p = [] → spare nm → buf ≠ [] → pps_shutdown p = false →
     preferred_offset (pps_pp p) < PBUF_DATA_SIZE → (0 < k)%nat).
Proof.
  induction fuel as [|fuel IH]; intros p nm buf flags written Hnm Htx Hf; [lia|].
  cbn [write_pass]. destruct buf as [|b0 buf0].
  { right. exists (WDone written), p, nm, 0%nat. cbn. rewrite app_nil_r. split_and!; try done; [lia|by left]. }
  set (buf := b0 :: buf0) in *. destruct (pps_shutdown p) eqn:Esd.
  { right. exists (WDone written), p, nm, 0%nat. cbn [take]. rewrite app_nil_r.
    split_and!; try done; [lia|]. split_and!; [lia|done|by right; left]. }
  destruct (get_head_ok p nm flags Hnm Htx) as [[E Hb]|(have & p1 & nm1 & E & Hnm1 & Htx1 & Hpl1 & Hs1 & Hc1 & Hh)];
    rewrite E; cbn [mbind res_bind]; [by left|]. right.
  destruct have; cbn [negb].
  2: { exists (WDone written), p1, nm1, 0%nat. cbn [take]. rewrite app_nil_r. destruct Hh as (Hfl & Hsp & _).
       split_and!; try done; [lia|]. split_and!; [lia|done|by right; right]. }
  destruct Hh as [Hne1 Hfresh]. destruct (pps_txbuf p1) as [|hd c1] eqn:Etx1; [done|]. rewrite <- Etx1 in *.
  pose proof Htx1 as ((Hmfs & _) & (Hok1 & _ & Hp1) & Hlen1).
  assert (u32 (max_fragment_size (pps_pp p1) - pb_pktlen hd)
    = max_fragment_size (pps_pp p1) - chain_len (pps_txbuf p1)) as Hrem.
  { rewrite Etx1 in Hp1. rewrite Hp1, <- Etx1. apply u32_id. pose proof (chain_len_nonneg _ Hok1).
    unfold is_u32. lia. }
  rewrite Hrem. set (remain := _ - chain_len _).
  destruct (extend_ok p1 nm1 remain) as (remain' & p2 & nm2 & E2 & Hnm2 & Htx2 & Hne2 & Hpl2 & Hs2 & Hc2 & Hcl2 & Hr2 & Hroom & Hkeep & Hwhy2);
    [done|done|done|unfold remain; lia|]. rewrite E2. cbn [mbind res_bind].
  pose proof (rest_same_trans _ _ _ Hs1 Hs2) as Hs12. destruct Hs12 as (Hpp2 & Hrx2 & Hsd2 & Hwk2).
  destruct (remain' =? 0) eqn:E0; bool_to_prop.
  - exists (WWait buf written). eexists _, nm2, 0%nat. split; [done|]. cbn [take drop]. rewrite app_nil_r.
    split_and!; try done; [lia|by rewrite <- Hpl1, <- Hpl2| |].
    + cbn [write_end]. split_and!; try done; [lia| |cbn; congruence].
      cbn [wait flush_event net_event set_flushed set_cond pps_txbuf].
      destruct (Hwhy2 E0) as [Hr0|Hfull]; [left|by right]. destruct Hs1 as (Hpp1 & _).
      unfold remain in Hr0. rewrite Hcl2, <- Hpp1. lia.
    + intros Hn Hsp _ _ Hpo. exfalso. destruct (Hfresh Hn) as (pb & Epb & Hof & Hbl).
      rewrite (Hkeep pb Epb) in E0 by lia. unfold remain in E0. rewrite Epb in E0. simpl in E0. lia.
  - assert (remain' = remain) as -> by (destruct Hr2; [lia|done]).
    destruct (Hroom E0) as (tl & Hlast & Hlt). pose proof Htx2 as (_ & _ & Hl2).
    destruct Hs2 as (Hpp12 & _).
    destruct (fill_ok p2 remain buf tl) as (n & p3 & E3 & Hn & Htx3 & Hne3 & Hpl3 & Hs3 & Hc3);
      [done|done|done|unfold remain in *; lia|unfold remain in *; rewrite Hpp12, Hcl2; lia|done|].
    rewrite E3. cbn [mbind res_bind].
    destruct (IH p3 nm2 (drop (Z.to_nat n) buf) flags (written + n)) as [[E4 [Hb _]]|
      (o & p4 & nm4 & k & E4 & Hk & Hnm4 & Htx4 & Hs4 & Hpl4 & Hend & _)];
      [done|done|rewrite length_drop; lia|done|].
    exists o, p4, nm4, (Z.to_nat n + k)%nat. rewrite length_drop in Hk.
    pose proof Hs3 as (Hpp3 & Hrx3 & Hsd3 & Hwk3). split_and!; try done; [lia| | | |lia].
    + pose proof Hs4 as (? & ? & ? & ?). unfold rest_same. split_and!; congruence.
    + rewrite Hpl4, Hpl3, Hpl2, Hpl1, <- app_assoc. f_equal. apply take_take_drop.
    + destruct o as [w|rest w]; cbn [write_end] in *.
      * destruct Hend as (-> & Hcd & Hwhy). split_and!; [lia|congruence|].
        rewrite length_drop in Hwhy. destruct Hwhy as [H|[H|H]]; [left; lia|right; left; congruence|by right; right].
      * destruct Hend as (-> & -> & H1 & H2 & H3 & H4 & H6 & H5). rewrite drop_drop in *.
        split_and!; try done; [lia| |congruence].
        assert (pps_pp p3 = pps_pp p) as <- by congruence. done.
Qed.

(** ** The reader *)

(** No buffer of the chain is empty. *)
Definition filled (c : list pbuf) : Prop := Forall (λ pb, 0 < pb_buflen pb) c.

Lemma filled_on_head n c : filled c → filled (on_head (λ x, set_pktlen x n) c).
Proof. destruct c; [done|]. intros [? ?]%Forall_cons_1. by apply Forall_cons_2. Qed.

Lemma filled_empty c : Forall pb_ok c → filled c → payload c = [] → c = [].
Proof.
  destruct c as [|pb c]; [done|]. intros [Hok _]%Forall_cons_1 [Hf _]%Forall_cons_1 E.
  rewrite payload_cons in E. apply app_eq_nil in E as [E _]. apply (f_equal length) in E.
  rewrite window_length in E by done. simpl in E. lia.
Qed.

Lemma read_loop_filled fuel : ∀ nm c out len out' c' nm',
  packet c → 0 <= len <= chain_len c → filled c →
  read_loop fuel nm c out len = Ret (out', c', nm') → filled c'.
Proof.
  induction fuel as [|fuel IH]; intros nm c out len out' c' nm' Hc Hlen Hf; [done|].
  cbn [read_loop]. destruct (len =? 0) eqn:E; bool_to_prop; [by intros [= _ <- _]|].
  destruct c as [|pb next]; [done|]. pose proof Hc as (Hok & Hl & Hp).
  apply Forall_cons_1 in Hok as [Hpb Hok]. apply Forall_cons_1 in Hf as [Hf0 Hf].
  pose proof (chain_len_nonneg _ Hok) as Hnn. simpl in Hlen. pose proof Hpb as [_ _ Hbl _ _ _].
  set (n := Z.min len (pb_buflen pb)). rewrite rd_window by (done || lia). cbn [mbind res_bind].
  destruct (advance_ok pb next n Hc ltac:(lia)) as (Hs1 & Hs2 & Hs3 & Hs4 & Hs5). rewrite Hs2.
  destruct (pb_buflen pb - n =? 0) eqn:E2; bool_to_prop.
  - destruct (put_both nm (advance pb n)) as [nm1|]; [|done]. cbn [mbind res_bind].
    apply IH; [eapply packet_tail; [exact Hc|lia]|rewrite on_head_len; lia|by apply filled_on_head].
  - apply IH; [done|cbn [chain_len]; lia|]. apply Forall_cons_2; [lia|done].
Qed.

(** What one [pbuf_read] of the received packet does. *)
Lemma rx_read nm c pb cs n :
  nm_ok nm → packet c → c = pb :: cs → 0 <= n <= pb_pktlen pb →
  ∃ c' nm', pbuf_read (fuel_for c) nm c n = Ret (take (Z.to_nat n) (payload c), c', nm') ∧
    payload c' = drop (Z.to_nat n) (payload c) ∧ packet c' ∧ nm_ok nm' ∧ (filled c → filled c').
Proof.
  intros Hnm Hc -> Hn. pose proof Hc as (_ & _ & Hp). unfold pbuf_read.
  rewrite (proj2 (Z.ltb_ge _ _)) by lia.
  destruct (read_loop_ok (pb :: cs) nm [] n (fuel_for (pb :: cs))) as (c' & nm' & E & H1 & H2 & H3 & _);
    [done|done|lia|unfold fuel_for; lia|].
  exists c', nm'. split_and!; try done. intros Hf. eapply read_loop_filled; [..|exact E]; [done|lia|done].
Qed.

(** How a reader's pass that stored [data] ends. *)
Definition read_end (t : nat) (prio : nat → Z) (p p' : pps) (off requested : Z) (data : list Z)
    (o : rd_out) : Prop :=
  match o with
  | RDone r => pps_cond p' = pps_cond p ∧
      r = (if pps_shutdown p then ERR_INTERRUPTED else off + Z.of_nat (length data))
  | RWait off' => off' = off + Z.of_nat (length data) ∧ off' < requested ∧ pps_rxbuf p' = [] ∧
      pps_cond p' = list_insert_sorted (task_prio_cmp prio) t (pps_cond p)
  end.

(** Operations of the reader leave the writer's side alone. *)
Definition tx_same (p p' : pps) : Prop :=
  pps_pp p' = pps_pp p ∧ pps_txbuf p' = pps_txbuf p ∧ pps_shutdown p' = pps_shutdown p ∧
  pps_flushed p' = pps_flushed p ∧ pps_woken p' = pps_woken p.

Lemma read_pass_ok prio t fuel : ∀ p nm off size requested o data p' nm',
  nm_ok nm → packet (pps_rxbuf p) → 0 <= off <= size →
  read_pass prio fuel t p nm off size requested = Ret (o, data, p', nm') →
  payload (pps_rxbuf p) = data ++ payload (pps_rxbuf p') ∧ packet (pps_rxbuf p') ∧ nm_ok nm' ∧
  off + Z.of_nat (length data) <= size ∧ tx_same p p' ∧ read_end t prio p p' off requested data o.
Proof.
  induction fuel as [|fuel IH]; intros p nm off size requested o data p' nm' Hnm Hrx Hoff; [done|].
  cbn [read_pass]. destruct (pps_shutdown p) eqn:Esd.
  { intros [= <- <- <- <-]. cbn. rewrite Esd. split_and!; try done; lia. }
  destruct (pps_rxbuf p) as [|pb cs] eqn:Erx.
  { destruct (requested <=? off) eqn:E; bool_to_prop; intros [= <- <- <- <-].
    - rewrite Erx. split_and!; try done; [simpl; lia|]. cbn. rewrite Esd. split; [done|lia].
    - cbn [wait set_cond net_event pps_rxbuf]. rewrite Erx. split_and!; try done; [simpl; lia|].
      cbn. split_and!; try done; lia. }
  pose proof Hrx as (Hok & Hl & Hp). pose proof (chain_len_nonneg _ Hok) as Hnn.
  set (n := Z.min (pb_pktlen pb) (size - off)).
  destruct (rx_read nm (pb :: cs) pb cs n Hnm Hrx eq_refl ltac:(lia)) as (c' & nm1 & E & Hpl & Hpk & Hnm1 & _).
  rewrite E. cbn [mbind res_bind].
  assert (Z.of_nat (length (take (Z.to_nat n) (payload (pb :: cs)))) = n) as Hlen.
  { rewrite length_take. pose proof (payload_length _ Hok). lia. }
  clear E. generalize dependent (payload (pb :: cs)). intros D Hpl Hlen.
  destruct (off + n =? size) eqn:Es; bool_to_prop.
  - intros [= <- <- <- <-]. cbn [set_rxbuf pps_rxbuf].
    split_and!; try done; [by rewrite Hpl, take_drop|lia|]. cbn [read_end]. rewrite Esd, Hlen. done.
  - destruct (read_pass prio fuel t (set_rxbuf c' p) nm1 (off + n) size requested)
      as [[[[o1 d1] p1] nm2]|] eqn:E1; [|done]. cbn [mbind res_bind]. intros [= <- <- <- <-].
    destruct (IH (set_rxbuf c' p) nm1 (off + n) size requested o1 d1 p1 nm2 Hnm1 Hpk ltac:(lia) E1) as (H1 & H2 & H3 & H4 & H5 & H6).
    cbn [set_rxbuf pps_rxbuf] in H1. rewrite length_app, Nat2Z.inj_add, Hlen.
    split_and!; try done; [|lia|].
    + rewrite <- app_assoc, <- H1, Hpl. by rewrite take_drop.
    + unfold read_end in *. cbn [set_rxbuf pps_shutdown pps_cond] in H6.
      rewrite length_app, Nat2Z.inj_add, Hlen. destruct o1.
      * rewrite Esd in *. destruct H6. split; [done|lia].
      * destruct H6 as (? & ? & ? & ?). split_and!; try done; lia.
Qed.

(** A pass ends after two rounds when no received buffer is empty. *)
Lemma read_pass_total prio t fuel p nm off size requested :
  nm_ok nm → packet (pps_rxbuf p) → filled (pps_rxbuf p) → 0 <= off <= size → (2 <= fuel)%nat →
  ∃ o data p' nm', read_pass prio fuel t p nm off size requested = Ret (o, data, p', nm') ∧
    filled (pps_rxbuf p').
Proof.
  intros Hnm Hrx Hf Hoff Hfu. destruct fuel as [|[|fuel]]; [lia|lia|]. cbn [read_pass].
  destruct (pps_shutdown p) eqn:Esd; [by eexists _, _, _, _|].
  destruct (pps_rxbuf p) as [|pb cs] eqn:Erx.
  { case_match; eexists _, _, _, _; (split; [done|]); cbn; by rewrite Erx. }
  pose proof Hrx as (Hok & Hl & Hp). pose proof (chain_len_nonneg _ Hok) as Hnn.
  set (n := Z.min (pb_pktlen pb) (size - off)).
  destruct (rx_read nm (pb :: cs) pb cs n Hnm Hrx eq_refl ltac:(lia)) as (c' & nm1 & E & Hpl & Hpk & Hnm1 & Hf').
  rewrite E. cbn [mbind res_bind].
  destruct (off + n =? size) eqn:Es; bool_to_prop; [eexists _, _, _, _; split; [done|by apply Hf']|].
  assert (c' = []) as ->.
  { apply filled_empty; [by destruct Hpk|by apply Hf'|]. rewrite Hpl. apply drop_ge.
    pose proof (payload_length _ Hok). lia. }
  cbn [set_rxbuf pps_shutdown pps_rxbuf]. rewrite Esd.
  case_match; cbn [mbind res_bind]; eexists _, _, _, _; (split; [done|]); apply Forall_nil_2.
Qed.

(** ** A reader, a writer and the network *)

Definition READER : nat := 0.
Definition WRITER : nat := 1.

(** The threads are idle or asleep inside their call; the ghost fields record the
    bytes taken from the writer and given to the reader, and the contents of the
    packets pulled and pushed. *)
Record sys := mk_sys {
  y_p : pps;
  y_nm : netmem;
  y_writer : option (list Z * Z * Z);   (* bytes left, flags, count *)
  y_reader : option (Z * Z * Z);        (* offset, size, requested *)
  g_written : list Z;
  g_pulled : list (list Z);
  g_pushed : list (list Z);
  g_read : list Z;
}.

Definition unwake (t : nat) (p : pps) : pps := set_cond (pps_cond p) (filter (λ x, x ≠ t) (pps_woken p)) p.

(** The state after a writer's pass over [buf] that started with [start] bytes written. *)
Definition after_write (y : sys) (buf : list Z) (flags start : Z) (o : wr_out) (p : pps) (nm : netmem) : sys :=
  let '(w, blocked) := match o with
                       | WDone w => (w, None)
                       | WWait rest w => (w, Some (rest, flags, w))
                       end in
  mk_sys p nm blocked (y_reader y) (g_written y ++ take (Z.to_nat (w - start)) buf) (g_pulled y)
    (g_pushed y) (g_read y).
Definition after_read (y : sys) (size requested : Z) (o : rd_out) (data : list Z) (p : pps) (nm : netmem) : sys :=
  mk_sys p nm (y_writer y)
    (match o with RDone _ => None | RWait off => Some (off, size, requested) end)
    (g_written y) (g_pulled y) (g_pushed y) (g_read y ++ data).
Definition with_p (y : sys) (p : pps) : sys :=
  mk_sys p (y_nm y) (y_writer y) (y_reader y) (g_written y) (g_pulled y) (g_pushed y) (g_read y).

Section System.
Context (prio : nat → Z).

Inductive pp_step : sys → sys → Prop :=
| st_write y buf flags o p nm :
    y_writer y = None →
    write_pass prio (S (length buf)) WRITER (y_p y) (y_nm y) buf flags 0 = Ret (o, p, nm) →
    pp_step y (after_write y buf flags 0 o p nm)
| st_write_resume y rest flags written o p nm :
    y_writer y = Some (rest, flags, written) → WRITER ∈ pps_woken (y_p y) →
    write_pass prio (S (length rest)) WRITER (unwake WRITER (y_p y)) (y_nm y) rest flags written
      = Ret (o, p, nm) →
    pp_step y (after_write y rest flags written o p nm)
| st_flush y : y_writer y = None → pp_step y (with_p y (write_flush (y_p y)))
| st_read y fuel size requested o data p nm :
    y_reader y = None → 0 <= size →
    read_pass prio fuel READER (y_p y) (y_nm y) 0 size requested = Ret (o, data, p, nm) →
    pp_step y (after_read y size requested o data p nm)
| st_read_resume y fuel off size requested o data p nm :
    y_reader y = Some (off, size, requested) → READER ∈ pps_woken (y_p y) →
    read_pass prio fuel READER (unwake READER (y_p y)) (y_nm y) off size requested = Ret (o, data, p, nm) →
    pp_step y (after_read y size requested o data p nm)
| st_pull y pb p :
    pushpull_stream_pull (y_p y) = (pb, p) →
    pp_step y (mk_sys p (y_nm y) (y_writer y) (y_reader y) (g_written y)
                 (g_pulled y ++ match pb with [] => [] | _ => [payload pb] end) (g_pushed y) (g_read y))
| st_push y pb p :
    packet pb → pushpull_stream_push (y_p y) pb = Ret p →
    pp_step y (mk_sys p (y_nm y) (y_writer y) (y_reader y) (g_written y) (g_pulled y)
                 (g_pushed y ++ [payload pb]) (g_read y))
| st_close y : pp_step y (with_p y (pushpull_stream_close_pp (y_p y)))
| st_pools y nm :   (* buffers taken and returned elsewhere *)
    nm_ok nm →
    pp_step y (mk_sys (y_p y) nm (y_writer y) (y_reader y) (g_written y) (g_pulled y) (g_pushed y) (g_read y)).

Definition sys_init (pp : pushpull) (nm : netmem) : sys :=
  mk_sys (mk_pps pp [] [] [] false false [] []) nm None None [] [] [] [].

Record sys_ok (pp : pushpull) (y : sys) : Prop := {
  so_nm : nm_ok (y_nm y);
  so_tx : tx_ok (y_p y);
  so_pp : pps_pp (y_p y) = pp;
  so_rx : packet (pps_rxbuf (y_p y));
  so_out : g_written y = concat (g_pulled y) ++ payload (pps_txbuf (y_p y));
  so_in : concat (g_pushed y) = g_read y ++ payload (pps_rxbuf (y_p y));
  so_frag : Forall (λ f, Z.of_nat (length f) <= max_fragment_size pp) (g_pulled y);
  so_rd : match y_reader y with Some (off, size, _) => 0 <= off <= size | None => True end;
}.

Lemma signal_same p :
  pps_pp (signal p) = pps_pp p ∧ pps_rxbuf (signal p) = pps_rxbuf p ∧
  pps_txbuf (signal p) = pps_txbuf p ∧ pps_flushed (signal p) = pps_flushed p ∧
  pps_shutdown (signal p) = pps_shutdown p.
Proof. unfold signal. by destruct (pps_cond p). Qed.

Lemma sys_ok_write pp y q buf flags start o p nm :
  sys_ok pp y → pps_pp q = pps_pp (y_p y) → pps_txbuf q = pps_txbuf (y_p y) →
  pps_rxbuf q = pps_rxbuf (y_p y) →
  write_pass prio (S (length buf)) WRITER q (y_nm y) buf flags start = Ret (o, p, nm) →
  sys_ok pp (after_write y buf flags start o p nm).
Proof.
  intros [Hnm Htx Hpp Hrx Hout Hin Hfr Hrd] E1 E2 E3 Ew.
  assert (tx_ok q) as Htq by (unfold tx_ok in *; by rewrite E1, E2).
  destruct (write_pass_ok prio WRITER (S (length buf)) q (y_nm y) buf flags start Hnm Htq ltac:(lia))
    as [[E _]|(o' & p' & nm' & k & E & Hk & Hnm' & Htx' & (Hs1 & Hs2 & _) & Hpl & Hend & _)]; [congruence|].
  rewrite Ew in E. injection E as <- <- <-.
  assert (∃ b, after_write y buf flags start o p nm = mk_sys p nm b (y_reader y)
    (g_written y ++ take k buf) (g_pulled y) (g_pushed y) (g_read y)) as [b ->].
  { unfold after_write. destruct o as [w|rest w]; cbn [write_end] in Hend; destruct Hend as (-> & _);
      replace (Z.to_nat (start + Z.of_nat k - start)) with k by lia; by eexists. }
  split; cbn; try done; [congruence|by rewrite Hs2, E3| |by rewrite Hs2, E3].
  rewrite Hpl, E2, Hout. by rewrite <- app_assoc.
Qed.

Lemma sys_ok_read pp y q fuel off size requested o data p nm :
  sys_ok pp y → pps_pp q = pps_pp (y_p y) → pps_txbuf q = pps_txbuf (y_p y) →
  pps_rxbuf q = pps_rxbuf (y_p y) → 0 <= off <= size →
  read_pass prio fuel READER q (y_nm y) off size requested = Ret (o, data, p, nm) →
  sys_ok pp (after_read y size requested o data p nm).
Proof.
  intros [Hnm Htx Hpp Hrx Hout Hin Hfr Hrd] E1 E2 E3 Hoff Er.
  destruct (read_pass_ok _ _ _ _ _ _ _ _ _ _ _ _ Hnm ltac:(by rewrite E3) Hoff Er)
    as (H1 & H2 & H3 & H4 & (H5 & H6 & _) & H7).
  split; cbn; try done.
  - unfold tx_ok in *. by rewrite H5, H6, E1, E2.
  - congruence.
  - by rewrite H6, E2.
  - rewrite Hin, <- E3, H1. by rewrite <- app_assoc.
  - destruct o as [r|off']; [done|]. cbn [read_end] in H7. lia.
Qed.

Lemma sys_ok_step pp y y' : pp_step y y' → sys_ok pp y → sys_ok pp y'.
Proof.
  intros Hst Hok. pose proof Hok as [Hnm Htx Hpp Hrx Hout Hin Hfr Hrd]. destruct Hst.
  - by eapply (sys_ok_write pp y (y_p y)).
  - by eapply (sys_ok_write pp y (unwake WRITER (y_p y))).
  - unfold write_flush. destruct (pps_txbuf (y_p y)) eqn:E; split; cbn; rewrite ?E; done.
  - apply (sys_ok_read pp y (y_p y) fuel 0 size requested o data p nm); done.
  - rewrite H in Hrd.
    by apply (sys_ok_read pp y (unwake READER (y_p y)) fuel off size requested o data p nm).
  - unfold pushpull_stream_pull in H. destruct (pps_flushed (y_p y)).
    2: { injection H as <- <-. rewrite app_nil_r. by split. }
    destruct (pps_txbuf (y_p y)) as [|b c] eqn:Etx.
    { injection H as <- <-. rewrite app_nil_r. split; try done. cbn. by rewrite Etx. }
    injection H as <- <-. destruct (signal_same (set_txbuf [] (y_p y))) as (S1 & S2 & S3 & S4 & S5).
    destruct Htx as (Hpo & (Hok1 & Hl & Hp) & Hlen). cbn in S1, S2, S3.
    split; cbn [y_p y_nm y_reader g_written g_pulled g_pushed g_read set_flushed pps_pp pps_rxbuf pps_txbuf].
    + done.
    + unfold tx_ok. cbn [set_flushed pps_pp pps_txbuf]. rewrite S1, S3. split_and!; [done|by split_and!|].
      destruct Hpo. cbn. lia.
    + by rewrite S1.
    + by rewrite S2.
    + rewrite S3, Hout, concat_app. cbn [concat]. by rewrite !app_nil_r.
    + by rewrite S2.
    + apply Forall_app_2; [done|]. apply Forall_singleton. rewrite payload_length by (by rewrite Etx in Hok1).
      rewrite <- Hpp. by rewrite Etx in Hlen.
    + done.
  - unfold pushpull_stream_push in H0. destruct (pps_rxbuf (y_p y)) eqn:Erx; [|done]. injection H0 as <-.
    destruct (signal_same (set_rxbuf pb (y_p y))) as (S1 & S2 & S3 & S4 & S5). cbn in S1, S2, S3.
    split; cbn [y_p y_nm y_reader g_written g_pulled g_pushed g_read]; rewrite ?S1, ?S2, ?S3; try done.
    + unfold tx_ok. by rewrite S1, S3.
    + rewrite concat_app, Hin. cbn. by rewrite !app_nil_r.
  - destruct (signal_same (set_shutdown (y_p y))) as (S1 & S2 & S3 & S4 & S5). cbn in S1, S2, S3.
    unfold pushpull_stream_close_pp, with_p.
    split; cbn [y_p y_nm y_reader g_written g_pulled g_pushed g_read]; rewrite ?S1, ?S2, ?S3; try done.
    unfold tx_ok. by rewrite S1, S3.
  - by split.
Qed.

Lemma sys_ok_run pp nm y :
  pp_ok pp → nm_ok nm → rtc pp_step (sys_init pp nm) y → sys_ok pp y.
Proof.
  intros Hpp Hnm Hrun. assert (sys_ok pp (sys_init pp nm)) as H0.
  { pose proof Hpp as [Hm Ho]. split; cbn; try done. split_and!; [done|done|cbn; lia]. }
  revert H0. induction Hrun as [|y0 y1 y2 Hs _ IH]; [done|].
  intros H0. apply IH. by apply (sys_ok_step pp y0).
Qed.

(** ** Properties *)

(** C8: the adapter is a pair of byte streams, whatever the interleaving of reads,
    writes, flushes, pushes, pulls, closing and buffer shortage: the bytes accepted from
    the writer are, in order, the contents of the packets pulled and of the one being
    filled, no packet exceeds the fragment size, and the contents of the packets pushed
    are, in order, the bytes read and those still to read. *)
Theorem stream_fifo pp nm y :
  pp_ok pp → nm_ok nm → rtc pp_step (sys_init pp nm) y →
  g_written y = concat (g_pulled y) ++ payload (pps_txbuf (y_p y)) ∧
  concat (g_pushed y) = g_read y ++ payload (pps_rxbuf (y_p y)) ∧
  Forall (λ f, Z.of_nat (length f) <= max_fragment_size pp) (g_pulled y).
Proof.
  intros Hpp Hnm Hrun. by destruct (sys_ok_run pp nm y Hpp Hnm Hrun).
Qed.

(** One turn of a network that serves the channel: it pulls a packet, sends it and so
    gives its buffers back (the pools are [nm0] then), and the writer runs if the pull
    has woken it. *)
Definition serve (nm0 : netmem) (y : sys) : res sys :=
  let '(pb, p) := pushpull_stream_pull (y_p y) in
  let y := mk_sys p nm0 (y_writer y) (y_reader y) (g_written y)
             (g_pulled y ++ match pb with [] => [] | _ => [payload pb] end) (g_pushed y) (g_read y) in
  match y_writer y with
  | None => Ret y
  | Some (rest, flags, written) =>
      if decide (WRITER ∈ pps_woken p) then
        '(o, p, nm) ← write_pass prio (S (length rest)) WRITER (unwake WRITER p) nm0 rest flags written;
        Ret (after_write y rest flags written o p nm)
      else Fault Blocked
  end.
Fixpoint serve_n (n : nat) (nm0 : netmem) (y : sys) : res sys :=
  match n with O => Ret y | S n => y ← serve nm0 y; serve_n n nm0 y end.

(** A turn is made of steps of the system. *)
Lemma serve_steps nm0 y y' : nm_ok nm0 → serve nm0 y = Ret y' → rtc pp_step y y'.
Proof.
  intros Hnm. unfold serve. destruct (pushpull_stream_pull (y_p y)) as [pb p] eqn:E.
  set (y1 := mk_sys p (y_nm y) (y_writer y) (y_reader y) (g_written y)
    (g_pulled y ++ match pb with [] => [] | _ => [payload pb] end) (g_pushed y) (g_read y)).
  set (y2 := mk_sys p nm0 (y_writer y) (y_reader y) (g_written y)
    (g_pulled y ++ match pb with [] => [] | _ => [payload pb] end) (g_pushed y) (g_read y)).
  assert (rtc pp_step y y2) as Hr.
  { eapply rtc_l; [by apply (st_pull y pb p)|]. eapply rtc_l; [by apply (st_pools y1 nm0)|]. done. }
  cbn [y_writer y2]. destruct (y_writer y) as [[[rest flags] written]|] eqn:Ew; [|by intros [= <-]].
  case_decide as Hw; [|done].
  destruct (write_pass _ _ _ _ _ _ _ _) as [[[o p'] nm']|] eqn:E2; [|done]. cbn [mbind res_bind].
  intros [= <-]. eapply rtc_r; [exact Hr|]. by apply (st_write_resume y2 rest flags written).
Qed.

(** The writer sleeps, alone on the condition variable, with a packet handed over. *)
Definition blocked (y : sys) (rest : list Z) (flags written : Z) : Prop :=
  y_writer y = Some (rest, flags, written) ∧ rest ≠ [] ∧ pps_cond (y_p y) = [WRITER] ∧
  pps_flushed (y_p y) = true ∧ pps_txbuf (y_p y) ≠ [] ∧ pps_shutdown (y_p y) = false.

Lemma serve_progress nm0 y rest flags written :
  nm_ok nm0 → spare nm0 → tx_ok (y_p y) → preferred_offset (pps_pp (y_p y)) < PBUF_DATA_SIZE →
  bit_set flags STREAM_WRITE_NO_WAIT = false → blocked y rest flags written →
  ∃ y' k, serve nm0 y = Ret y' ∧ (0 < k <= length rest)%nat ∧ tx_ok (y_p y') ∧
    pps_pp (y_p y') = pps_pp (y_p y) ∧ g_written y' = g_written y ++ take k rest ∧
    if decide (k = length rest) then y_writer y' = None
    else blocked y' (drop k rest) flags (written + Z.of_nat k).
Proof.
  intros Hnm Hsp Htx Hpo Hfl (Hw & Hr & Hc & Hf & Ht & Hsd). unfold serve, pushpull_stream_pull.
  rewrite Hf. destruct (pps_txbuf (y_p y)) as [|b c] eqn:Etx; [done|]. rewrite Hw.
  cbn [y_writer]. unfold signal. cbn [set_txbuf pps_cond]. rewrite Hc.
  set (q := set_flushed false (set_cond [] (pps_woken (set_txbuf [] (y_p y)) ++ [WRITER]) (set_txbuf [] (y_p y)))).
  rewrite decide_True by (cbn; apply elem_of_app; right; by apply list_elem_of_singleton).
  assert (tx_ok (unwake WRITER q)) as Hq.
  { destruct Htx as (Hpp & _). split_and!; cbn; [done|by split_and!|destruct Hpp; lia]. }
  destruct (write_pass_ok prio WRITER (S (length rest)) (unwake WRITER q) nm0 rest flags written Hnm Hq ltac:(lia))
    as [[_ [_ ?]]|(o & p' & nm' & k & -> & Hk & Hnm' & Htx' & (Hs1 & Hs2 & Hs3 & Hs4) & Hpl & Hend & Hpos)]; [done|].
  specialize (Hpos eq_refl Hsp Hr Hsd Hpo). cbn [mbind res_bind].
  eexists _, k. split; [done|]. unfold after_write. destruct o as [w|rest' w]; cbn [write_end] in Hend.
  - destruct Hend as (-> & _ & Hwhy). cbn [y_p y_writer g_written].
    replace (Z.to_nat (written + Z.of_nat k - written)) with k by lia.
    destruct Hwhy as [->|[Hx|Hx]]; [|cbn in Hx; congruence|congruence].
    rewrite decide_True by done. split_and!; try done; lia.
  - destruct Hend as (-> & -> & H1 & H2 & H3 & H4 & _ & H5). cbn [y_p y_writer g_written].
    replace (Z.to_nat (written + Z.of_nat k - written)) with k by lia.
    split_and!; try done. rewrite decide_False.
    + unfold blocked. cbn [y_p y_writer]. split_and!; try done. by rewrite Hs3.
    + intros ->. by rewrite drop_all in H1.
Qed.

Lemma serve_n_finishes nm0 n : ∀ y rest flags written,
  nm_ok nm0 → spare nm0 → tx_ok (y_p y) → preferred_offset (pps_pp (y_p y)) < PBUF_DATA_SIZE →
  bit_set flags STREAM_WRITE_NO_WAIT = false → blocked y rest flags written → (length rest <= n)%nat →
  ∃ m y', (m <= n)%nat ∧ serve_n m nm0 y = Ret y' ∧ rtc pp_step y y' ∧ y_writer y' = None ∧
    g_written y' = g_written y ++ rest.
Proof.
  induction n as [|n IH]; intros y rest flags written Hnm Hsp Htx Hpo Hfl Hb Hn.
  { destruct Hb as (_ & Hr & _). destruct rest; [done|simpl in Hn; lia]. }
  destruct (serve_progress nm0 y rest flags written) as (y1 & k & E & Hk & Htx1 & Hpp1 & Hg & Hnext); try done.
  pose proof (serve_steps nm0 y y1 Hnm E) as Hs. destruct (decide (k = length rest)) as [->|Hne].
  - exists 1%nat, y1. cbn [serve_n]. rewrite E. cbn. split_and!; try done; [lia|]. by rewrite Hg, firstn_all.
  - destruct (IH y1 (drop k rest) flags (written + Z.of_nat k)) as (m & y2 & Hm & E2 & Hs2 & Hw & Hg2);
      try done; [by rewrite Hpp1|rewrite length_drop; lia|].
    exists (S m), y2. cbn [serve_n]. rewrite E. cbn [mbind res_bind]. split_and!; try done; [lia|by etransitivity|].
    by rewrite Hg2, Hg, <- app_assoc, take_drop.
Qed.

(** C15: a writer that went to sleep gets done.  In a run from the start with no other
    sleeper, as long as the network keeps serving the channel and returns the buffers of
    what it sent, the write ends after at most as many turns as it had bytes left, with
    all of them accepted, in order. *)
Theorem blocked_writer_finishes pp nm nm0 y rest flags written :
  pp_ok pp → preferred_offset pp < PBUF_DATA_SIZE → nm_ok nm → nm_ok nm0 → spare nm0 →
  rtc pp_step (sys_init pp nm) y → blocked y rest flags written →
  bit_set flags STREAM_WRITE_NO_WAIT = false →
  ∃ m y', (m <= length rest)%nat ∧ serve_n m nm0 y = Ret y' ∧ rtc pp_step y y' ∧ y_writer y' = None ∧
    g_written y' = g_written y ++ rest ∧
    g_written y' = concat (g_pulled y') ++ payload (pps_txbuf (y_p y')).
Proof.
  intros Hpp Hpo Hnm Hnm0 Hsp Hrun Hb Hfl. pose proof (sys_ok_run pp nm y Hpp Hnm Hrun) as Hok.
  destruct (serve_n_finishes nm0 (length rest) y rest flags written) as (m & y' & Hm & E & Hs & Hw & Hg);
    try done; [apply Hok|by rewrite (so_pp _ _ Hok)|].
  exists m, y'. split_and!; try done. apply (so_out pp).
  apply (sys_ok_run pp nm y' Hpp Hnm). by etransitivity.
Qed.
End System.

(** ** Over VLLP: one buffer per packet

    A VLLP channel prescribes packets of at most [PBUF_DATA_SIZE - 4] bytes from
    offset 0, so that the checksum fits the same buffer. *)

Definition vllp_pp : pushpull := mk_pushpull (PBUF_DATA_SIZE - 4) 0.

Definition single (c : list pbuf) : Prop := c = [] ∨ ∃ pb, c = [pb] ∧ pb_offset pb = 0.

Lemma vllp_pp_ok : pp_ok vllp_pp.
Proof. unfold pp_ok, vllp_pp, PBUF_DATA_SIZE. cbn. lia. Qed.

Lemma get_head_single p nm flags have p' nm' :
  nm_ok nm → pps_pp p = vllp_pp → single (pps_txbuf p) →
  get_head p nm flags = Ret (have, p', nm') → single (pps_txbuf p').
Proof.
  intros Hnm Hpp Hs. unfold get_head. destruct Hs as [Etx|(pb & Etx & Ho)]; rewrite Etx.
  2: { intros [= _ <- _]. right. by exists pb. }
  rewrite Hpp. unfold vllp_pp. cbn [preferred_offset].
  destruct (pbuf_make0_ok nm 0 false Hnm) as [[E _]|[(nm1 & _ & E & Hnm1 & _)|(pb & nm1 & E & _ & _ & _ & _ & Ho & _)]];
    [unfold PBUF_DATA_SIZE; lia|done| |]; rewrite E; cbn [mbind res_bind].
  - case_match; [intros [= _ <- _]; left; done|].
    change (pps_pp (flush_event p)) with (pps_pp p). rewrite Hpp. unfold vllp_pp. cbn [preferred_offset].
    destruct (pbuf_make0_ok nm1 0 true Hnm1) as [[_ E2]|[(? & ? & _)|(pb & nm2 & E2 & _ & _ & _ & _ & Ho & _)]];
      [unfold PBUF_DATA_SIZE; lia| |done|]; rewrite E2; cbn [mbind res_bind]; [done|].
    intros [= _ <- _]. right. by exists pb.
  - intros [= _ <- _]. right. by exists pb.
Qed.

Lemma write_pass_single prio t fuel : ∀ p nm buf flags written o p' nm',
  nm_ok nm → tx_ok p → pps_pp p = vllp_pp → single (pps_txbuf p) →
  write_pass prio fuel t p nm buf flags written = Ret (o, p', nm') → single (pps_txbuf p').
Proof.
  induction fuel as [|fuel IH]; intros p nm buf flags written o p' nm' Hnm Htx Hpp Hs; [done|].
  cbn [write_pass]. destruct buf as [|b0 buf0]; [by intros [= _ <- _]|].
  set (buf := b0 :: buf0). destruct (pps_shutdown p); [by intros [= _ <- _]|].
  destruct (get_head_ok p nm flags Hnm Htx) as [[E _]|(have & p1 & nm1 & E & Hnm1 & Htx1 & _ & (Hpp1 & _) & _ & Hh)];
    rewrite E; cbn [mbind res_bind]; [done|].
  pose proof (get_head_single _ _ _ _ _ _ Hnm Hpp Hs E) as Hs1. rewrite Hpp in Hpp1.
  destruct have; cbn [negb]; [|by intros [= _ <- _]].
  destruct Hs1 as [Etx|(pb & Etx & Ho)]; [by destruct Hh|]. rewrite Etx.
  pose proof Htx1 as (_ & (Hok & _ & Hp) & Hlen). rewrite Etx in Hp, Hlen, Hok. rewrite Hpp1 in Hlen |- *.
  apply Forall_cons_1 in Hok as [Hpb _]. cbn [chain_len] in Hp, Hlen. destruct Hpb as [_ _ Hbl _ _ _].
  cbn [max_fragment_size vllp_pp] in Hlen |- *. unfold PBUF_DATA_SIZE in Hlen.
  set (remain := u32 _). unfold extend. rewrite Etx. cbn [last].
  rewrite (proj2 (Z.eqb_neq (pb_buflen pb + pb_offset pb) PBUF_DATA_SIZE)) by (unfold PBUF_DATA_SIZE; lia).
  rewrite andb_false_r. cbn [mbind res_bind]. destruct (remain =? 0) eqn:Er; bool_to_prop.
  { intros [= _ <- _]. right. exists pb. cbn. done. }
  assert (remain = 508 - pb_buflen pb) as Hrem.
  { unfold remain, PBUF_DATA_SIZE. rewrite Hp. rewrite u32_id; [lia|unfold is_u32; lia]. }
  destruct (fill_ok p1 remain buf pb) as (n & p2 & E2 & Hn & Htx2 & Hne2 & _ & (Hpp2 & _) & _);
    [done|by rewrite Etx|unfold PBUF_DATA_SIZE; lia|lia| |done|].
  { rewrite Etx, Hpp1. cbn [chain_len max_fragment_size vllp_pp]. unfold PBUF_DATA_SIZE. lia. }
  rewrite E2. cbn [mbind res_bind]. apply IH; [done|done|by rewrite Hpp2, Hpp1|].
  unfold fill in E2. rewrite Etx in E2. cbn [last] in E2.
  destruct (wr _ _ _) as [m|]; [|done]. cbn [mbind res_bind] in E2. injection E2 as _ _ <-.
  right. eexists. split; [done|]. done.
Qed.

(** A fresh adapter takes up to a fragment's worth of bytes into one buffer. *)
Lemma write_fresh prio t p nm data :
  nm_ok nm → spare nm → pps_pp p = vllp_pp → pps_txbuf p = [] → pps_shutdown p = false →
  data ≠ [] → Z.of_nat (length data) <= PBUF_DATA_SIZE - 4 →
  ∃ p' nm' pb, write_pass prio (S (length data)) t p nm data 0 0 = Ret (WDone (Z.of_nat (length data)), p', nm') ∧
    nm_ok nm' ∧ pps_txbuf p' = [pb] ∧ pb_offset pb = 0 ∧ packet [pb] ∧ window pb = data.
Proof.
  intros Hnm Hsp Hpp Htx Hsd Hne Hlen.
  assert (tx_ok p) as Hok.
  { unfold tx_ok. rewrite Htx, Hpp. split_and!; [apply vllp_pp_ok|done|unfold PBUF_DATA_SIZE; cbn; lia]. }
  destruct (write_pass_ok prio t (S (length data)) p nm data 0 0 Hnm Hok ltac:(lia))
    as [(_ & _ & ?)|(o & p' & nm' & k & E & Hk & Hnm' & Htx' & (Hs1 & Hs2 & Hs3 & _) & Hpl & Hend & Hpos)]; [done|].
  rewrite Htx in Hpl. cbn [app] in Hpl. change (payload []) with ([] : list Z) in Hpl. cbn [app] in Hpl.
  pose proof Htx' as (_ & (Hok' & Hl' & Hp') & Hlen').
  pose proof (payload_length _ Hok') as Hpll. rewrite Hpl, length_take in Hpll.
  assert (single (pps_txbuf p')) as Hsg.
  { eapply (write_pass_single prio t _ p); [exact Hnm|done|done|by left|exact E]. }
  specialize (Hpos Htx Hsp Hne Hsd ltac:(by rewrite Hpp)).
  destruct Hsg as [E0|(pb & E0 & Ho)].
  { rewrite E0 in Hpll. simpl in Hpll. lia. }
  assert (k = length data) as ->.
  { destruct o as [w|rest w]; cbn [write_end] in Hend.
    - destruct Hend as (_ & _ & [?|[?|?]]); [done|congruence|done].
    - exfalso. destruct Hend as (_ & -> & Hr & _ & _ & _ & Hwhy & _). rewrite E0, Hpp in Hwhy.
      assert (k < length data)%nat.
      { destruct (decide (k < length data)%nat) as [|Hge]; [done|]. by rewrite drop_ge in Hr by lia. }
      rewrite E0 in Hpll. rewrite E0 in Hlen'. cbn [chain_len] in *. unfold PBUF_DATA_SIZE in *.
      rewrite Hs1, Hpp in Hlen'. cbn [vllp_pp max_fragment_size] in *. unfold PBUF_DATA_SIZE in *.
      destruct Hwhy as [Hwhy|(tl & [= <-] & Hwhy)]; unfold PBUF_DATA_SIZE in *; lia. }
  rewrite firstn_all in Hpl. rewrite E0 in Hpl. cbn in Hpl. rewrite app_nil_r in Hpl.
  assert (o = WDone (Z.of_nat (length data))) as ->.
  { destruct o as [w|rest w]; cbn [write_end] in Hend; [destruct Hend as (-> & _); f_equal; lia|].
    destruct Hend as (_ & -> & Hr & _). by rewrite drop_all in Hr. }
  exists p', nm', pb. rewrite E0 in Hok', Hl', Hp'. split_and!; try done.
Qed.

(** A read of exactly what was received. *)
Lemma read_exact prio t p nm data :
  nm_ok nm → packet (pps_rxbuf p) → payload (pps_rxbuf p) = data → data ≠ [] → pps_shutdown p = false →
  ∃ p' nm', read_pass prio 2 t p nm 0 (Z.of_nat (length data)) 1
    = Ret (RDone (Z.of_nat (length data)), data, p', nm').
Proof.
  intros Hnm Hpk Hpl Hne Hsd. cbn [read_pass]. rewrite Hsd.
  destruct (pps_rxbuf p) as [|pb cs] eqn:Erx; [by rewrite <- Hpl in Hne|].
  pose proof Hpk as (Hok & _ & Hp). pose proof (payload_length _ Hok) as Hl. rewrite Hpl in Hl.
  rewrite Hp, <- Hl, Z.sub_0_r, Z.min_id.
  destruct (rx_read nm (pb :: cs) pb cs (Z.of_nat (length data)) Hnm Hpk eq_refl ltac:(lia))
    as (c' & nm' & -> & _).
  cbn [mbind res_bind]. rewrite Z.add_0_l, Z.eqb_refl, Hpl, Nat2Z.id, firstn_all. by eexists _, _.
Qed.

(** What the service behind a channel is given when a message is delivered to the
    adapter. *)
Lemma delivered_stream {w w' : world (res pps)} h vc p pb nm :
  pps_rxbuf p = [] → delivered stream_app w w' h vc (Ret p) pb nm →
  ∃ vc' p', w_chans w' !! h = Some vc' ∧ vc_app vc' = Some (Ret p') ∧ w_nm w' = nm ∧
    pps_rxbuf p' = pb ∧ pps_shutdown p' = pps_shutdown p ∧ w_out w' = w_out w.
Proof.
  intros Hrx. unfold delivered. cbn [push stream_app mbind res_bind].
  unfold pushpull_stream_push. rewrite Hrx. cbn [mbind res_bind]. rewrite Z.eqb_refl, app_nil_r. intros ->.
  destruct (signal_same (set_rxbuf pb p)) as (S1 & S2 & S3 & S4 & S5).
  eexists _, (signal (set_rxbuf pb p)). cbn [w_chans w_nm w_out]. rewrite lookup_insert_eq.
  split_and!; try done.
Qed.

(** C14: a byte stream over the link.  Up to 508 bytes written to the adapter of one
    node and flushed are pulled as one packet, sent by VLLP in frames that CAN FD has,
    and, when those frames are received by a peer with the same checksum seed whose
    adapter is ready, a read of that many bytes on the peer returns exactly them. *)
Theorem stream_over_vllp {App1} prio services2 xalloc2 crc `{!Crc32Spec crc}
    (w1 : world App1) (w2 : world (res pps)) h1 vc1 p1 data reuse acks h2 vc2 p2 :
  let m := wire crc (tx_crc_IV vc1) data in
  (* the sending side *)
  nm_ok (w_nm w1) → spare (w_nm w1) → w_chans w1 !! h1 = Some vc1 →
  pps_pp p1 = vllp_pp → pps_txbuf p1 = [] → pps_shutdown p1 = false →
  bytes data → data ≠ [] → Z.of_nat (length data) <= PBUF_DATA_SIZE - 4 →
  0 <= vc_id vc1 < 16 → 2 <= mtu (w_v w1) <= 63 → se_bits (SE (w_v w1)) →
  packet reuse → reuse ≠ [] → Forall (λ pb, packet pb ∧ pb ≠ []) acks →
  length acks = length (chop (length m) (payload_mtu w1) m) →
  (* the receiving side *)
  receiving w2 (vc_id vc1) h2 vc2 [] → h2 ≠ cmc (w_v w2) → vc_app vc2 = Some (Ret p2) → spare (w_nm w2) →
  pps_rxbuf p2 = [] → pps_shutdown p2 = false →
  bit_set (local_flow_status (w_v w2)) (Z.shiftl 1 (vc_id vc1)) = true →
  is_u32 (tx_crc_IV vc1) → rx_crc_IV vc2 = tx_crc_IV vc1 →
  ∃ p1' nm1 out p1'' l w1' frames us w2' vc2' p2' p2'' nm2,
    write_pass prio (S (length data)) WRITER p1 (w_nm w1) data 0 0
      = Ret (WDone (Z.of_nat (length data)), p1', nm1) ∧
    pushpull_stream_pull (write_flush p1') = (out, p1'') ∧
    (_ ← vllp_channel_tx crc h1 out reuse; mapM vllp_ack_payload acks) (set_nm nm1 w1) = Ret (l, w1') ∧
    w_out w1' = w_out w1 ++ (Emit (txid (w_v w1)) <$> frames) ∧
    Forall (λ f, can_len (length (payload f))) frames ∧
    mapM (λ f, unpad (payload f)) frames = Some us ∧
    mapM (vllp_channel_receive stream_app services2 xalloc2 crc (vc_id vc1)) us w2
      = Ret (replicate (length us) 0, w2') ∧
    w_chans w2' !! h2 = Some vc2' ∧ vc_app vc2' = Some (Ret p2') ∧
    read_pass prio 2 READER p2' (w_nm w2') 0 (Z.of_nat (length data)) 1
      = Ret (RDone (Z.of_nat (length data)), data, p2'', nm2).
Proof.
  intros m Hnm1 Hsp1 Hh1 Hpp Htx Hsd Hb Hne Hlen Hid Hmtu Hse Hre Hrne Hacks Hn Hrcv Hcmc Happ Hsp2 Hrx2 Hsd2 Hflow Hiv Heq.
  destruct (write_fresh prio WRITER p1 (w_nm w1) data) as (p1' & nm1 & pb & Ew & Hnm1' & Etx & Ho & Hpk & Hw); try done.
  assert (∃ p1'', pushpull_stream_pull (write_flush p1') = ([pb], p1'')) as [p1'' Epull].
  { unfold write_flush. rewrite Etx. unfold pushpull_stream_pull. cbn. rewrite Etx. by eexists. }
  assert (payload ([] ++ [pb]) = data) as Hpay by (cbn; by rewrite app_nil_r).
  pose proof Hpk as (Hok & _ & _). pose proof (payload_length _ Hok) as Hpl. cbn [chain_len] in Hpl.
  change (payload [pb]) with (payload ([] ++ [pb])) in Hpl. rewrite Hpay in Hpl.
  pose proof (message_roundtrip_ok stream_app services2 xalloc2 crc (set_nm nm1 w1) w2 h1 vc1 [] pb reuse acks h2 vc2 (Ret p2)) as Hr.
  cbv zeta in Hr. rewrite Hpay in Hr. unfold PBUF_DATA_SIZE in *.
  destruct Hr as (l & w1' & frames & us & pb' & nm & w2' & Es & _ & Hout & Hcan & Hun & Hrx & Hpay' & Hpk' & Hnm' & Hdel);
    try done; [lia|lia|].
  destruct (delivered_stream h2 vc2 p2 pb' nm Hrx2 Hdel) as (vc2' & p2' & Hl & Ha & Hn2 & Hrxb & Hsd2' & _).
  assert (packet (pps_rxbuf p2')) as Hpk2 by (by rewrite Hrxb).
  destruct (read_exact prio READER p2' (w_nm w2') data) as (p2'' & nm2 & Er);
    [by rewrite Hn2|done|by rewrite Hrxb|done|by rewrite Hsd2'|].
  by exists p1', nm1, [pb], p1'', l, w1', frames, us, w2', vc2', p2', p2'', nm2.
Qed.

(** ** Limits of the adapter *)

(** A received packet without data is never taken off the queue: the reader loops with
    the mutex held. *)
Lemma read_empty_hangs prio t fuel : ∀ p nm off size requested pb cs,
  pps_shutdown p = false → pps_rxbuf p = pb :: cs → pb_pktlen pb = 0 → off < size →
  read_pass prio fuel t p nm off size requested = Fault NoFuel.
Proof.
  induction fuel as [|fuel IH]; intros p nm off size requested pb cs Hsd Hrx Hpl Hoff; [done|].
  cbn [read_pass]. rewrite Hsd, Hrx, Hpl. rewrite Z.min_l by lia.
  unfold pbuf_read. rewrite Hpl. change (0 <? 0) with false. cbv iota.
  cbn [fuel_for length read_loop]. change (0 =? 0) with true. cbv iota. cbn [mbind res_bind].
  rewrite Z.add_0_r, (proj2 (Z.eqb_neq off size)) by lia.
  by rewrite (IH (set_rxbuf (pb :: cs) p) nm off size requested pb cs).
Qed.

(** A peer can hang the service behind a stream channel: a message of no data and a
    right checksum is delivered as a packet without bytes, and every read on the stream
    then loops forever, holding the mutex the network side needs. *)
Theorem empty_message_hangs_reader services xalloc crc `{!Crc32Spec crc} (w : world (res pps)) id h vc p x :
  receiving w id h vc [] → h ≠ cmc (w_v w) → vc_app vc = Some (Ret p) → spare (w_nm w) →
  bit_set (local_flow_status (w_v w)) (Z.shiftl 1 id) = true → bit_set x.1 VLLP_HDR_L = true →
  length x.2 = 4%nat → crc (rx_crc_IV vc) x.2 = 4294967295 →
  pps_rxbuf p = [] → pps_shutdown p = false →
  ∃ w' vc' p', vllp_channel_receive stream_app services xalloc crc id (frame_bytes x) w = Ret (0, w') ∧
    w_chans w' !! h = Some vc' ∧ vc_app vc' = Some (Ret p') ∧
    ∀ prio t fuel nm size requested, 0 < size →
      read_pass prio fuel t p' nm 0 size requested = Fault NoFuel.
Proof.
  intros Hrcv Hcmc Happ Hsp Hflow HL Hlen Hcrc Hrx Hsd.
  pose proof (receive_message_ok stream_app services xalloc crc w id h vc (Ret p) [] x Hrcv Hcmc Happ Hsp Hflow) as H.
  cbn [app fmap list_fmap concat] in H. rewrite app_nil_r in H. cbv zeta in H.
  rewrite bool_decide_eq_true_2 in H by done.
  destruct H as (pb & nm & w' & E & Hpk & Hne & _ & Hpay & Hdel); [constructor|done|lia|].
  destruct (delivered_stream h vc p pb nm Hrx Hdel) as (vc' & p' & Hl & Ha & _ & Hrxb & Hsd' & _).
  exists w', vc', p'. split_and!; try done.
  - cbn [mapM] in E. unfold mbind, M_bind in E.
    destruct (vllp_channel_receive stream_app services xalloc crc id (frame_bytes x) w) as [[r w1]|]; [|done].
    by injection E as -> ->.
  - intros prio t fuel nm' size requested Hsz. destruct pb as [|pb cs]; [done|].
    eapply read_empty_hangs; [by rewrite Hsd'|exact Hrxb| |lia].
    destruct Hpk as (Hok & _ & Hp). rewrite Hp, <- (payload_length _ Hok), Hpay, Hlen. done.
Qed.

(** A write that asked not to wait does wait once the packet is full: it goes to
    sleep on the condition variable with none of its bytes taken. *)
Theorem no_wait_write_sleeps prio t p nm buf flags written hd cs :
  pps_shutdown p = false → pps_txbuf p = hd :: cs → pb_pktlen hd = max_fragment_size (pps_pp p) →
  buf ≠ [] → bit_set flags STREAM_WRITE_NO_WAIT = true →
  ∃ p', write_pass prio (S (length buf)) t p nm buf flags written = Ret (WWait buf written, p', nm) ∧
    t ∈ pps_cond p' ∧ pps_txbuf p' = pps_txbuf p.
Proof.
  intros Hsd Htx Hfull Hne Hfl. cbn [write_pass]. destruct buf as [|b buf]; [done|]. rewrite Hsd.
  unfold get_head. rewrite Htx. cbn [mbind res_bind negb]. rewrite Htx, Hfull, Z.sub_diag.
  change (u32 0) with 0. unfold extend. rewrite Htx.
  destruct (last (hd :: cs)) as [tl|] eqn:El; [|by apply last_None in El].
  change (0 =? 0) with true. cbn [negb andb mbind res_bind]. eexists. split; [done|].
  split; [|done]. cbn. rewrite list_insert_sorted_perm. by left.
Qed.

(** A small system: fragments of four bytes, pools of eight buffers. *)
Definition small_pp : pushpull := mk_pushpull 4 0.
Definition flat : nat → Z := λ _, 0.

(** The outcome of a pass, evaluated. *)
Definition after_w (y : sys) (buf : list Z) : sys :=
  match write_pass flat (S (length buf)) WRITER (y_p y) (y_nm y) buf 0 0 with
  | Ret (o, p, nm) => after_write y buf 0 0 o p nm
  | Fault _ => y
  end.
Definition after_r (y : sys) (size requested : Z) : sys :=
  match read_pass flat 2 READER (y_p y) (y_nm y) 0 size requested with
  | Ret (o, data, p, nm) => after_read y size requested o data p nm
  | Fault _ => y
  end.
Definition after_pull (y : sys) : sys :=
  let '(pb, p) := pushpull_stream_pull (y_p y) in
  mk_sys p (y_nm y) (y_writer y) (y_reader y) (g_written y)
    (g_pulled y ++ match pb with [] => [] | _ => [payload pb] end) (g_pushed y) (g_read y).
Definition after_resume_r (y : sys) : sys :=
  match y_reader y with
  | Some (off, size, requested) =>
      match read_pass flat 2 READER (unwake READER (y_p y)) (y_nm y) off size requested with
      | Ret (o, data, p, nm) => after_read y size requested o data p nm
      | Fault _ => y
      end
  | None => y
  end.

Definition y_reading : sys := after_r (sys_init small_pp Demo.nm0) 10 1.
Definition y_both : sys := after_w y_reading [1; 2; 3; 4; 5; 6].
Definition y_pulled : sys := after_pull y_both.
Definition y_lost : sys := after_resume_r y_pulled.
Definition y_writing : sys := after_w (sys_init small_pp Demo.nm0) [1; 2; 3; 4; 5; 6].

Lemma lost_run : rtc (pp_step flat) (sys_init small_pp Demo.nm0) y_lost.
Proof.
  eapply (rtc_l _ _ y_reading).
  { unfold y_reading, after_r.
    destruct (read_pass _ _ _ _ _ _ _ _) as [[[[o d] p] nm]|] eqn:E; [|by vm_compute in E].
    by apply (st_read flat _ 2 10 1). }
  eapply (rtc_l _ _ y_both).
  { unfold y_both, after_w.
    destruct (write_pass _ _ _ _ _ _ _ _) as [[[o p] nm]|] eqn:E; [|by vm_compute in E].
    by apply (st_write flat y_reading). }
  eapply (rtc_l _ _ y_pulled).
  { unfold y_pulled, after_pull. destruct (pushpull_stream_pull (y_p y_both)) as [pb p] eqn:E.
    by apply (st_pull flat y_both). }
  eapply rtc_l; [|done]. unfold y_lost, after_resume_r.
  assert (y_reader y_pulled = Some (0, 10, 1)) as -> by (vm_compute; reflexivity).
  destruct (read_pass _ _ _ _ _ _ _ _) as [[[[o d] p] nm]|] eqn:E; [|by vm_compute in E].
  apply (st_read_resume flat y_pulled 2 0); [by vm_compute|vm_compute; by left|done].
Qed.

(** Reader and writer share one condition variable, and each event signals one
    sleeper: after the network has pulled the writer's packet, the wake-up can go to the
    reader.  The writer then sleeps on with an empty packet; it is not woken however
    often the network pulls. *)
Theorem lost_wakeup :
  ∃ y, rtc (pp_step flat) (sys_init small_pp Demo.nm0) y ∧
    y_writer y = Some ([5; 6], 0, 4) ∧ WRITER ∈ pps_cond (y_p y) ∧ pps_woken (y_p y) = [] ∧
    g_pulled y = [[1; 2; 3; 4]] ∧
    pushpull_stream_pull (y_p y) = ([], y_p y) ∧ serve flat Demo.nm0 y = Fault Blocked.
Proof.
  exists y_lost. split; [exact lost_run|].
  split_and!; try (vm_compute; reflexivity). vm_compute. by left.
Qed.

(** ** Witnesses *)

Lemma small_pp_ok : pp_ok small_pp.
Proof. unfold pp_ok, small_pp, PBUF_DATA_SIZE. cbn. lia. Qed.

Lemma stream_fifo_witness :
  g_written y_lost = [1; 2; 3; 4] ∧ concat (g_pulled y_lost) ++ payload (pps_txbuf (y_p y_lost)) = [1; 2; 3; 4] ∧
  Forall (λ f, Z.of_nat (length f) <= 4) (g_pulled y_lost).
Proof.
  destruct (stream_fifo flat small_pp Demo.nm0 y_lost small_pp_ok (proj1 Wit.nm_wit) lost_run) as (H1 & _ & H3).
  rewrite <- H1. split_and!; [vm_compute; reflexivity|vm_compute; reflexivity|exact H3].
Defined.

Lemma writing_run : rtc (pp_step flat) (sys_init small_pp Demo.nm0) y_writing.
Proof.
  eapply rtc_l; [|done]. unfold y_writing, after_w.
  destruct (write_pass _ _ _ _ _ _ _ _) as [[[o p] nm]|] eqn:E; [|by vm_compute in E].
  by apply (st_write flat (sys_init small_pp Demo.nm0)).
Qed.

Lemma blocked_writer_finishes_witness :
  ∃ m y', (m <= 2)%nat ∧ serve_n flat m Demo.nm0 y_writing = Ret y' ∧ y_writer y' = None ∧
    g_written y' = [1; 2; 3; 4; 5; 6].
Proof.
  destruct (blocked_writer_finishes flat small_pp Demo.nm0 Demo.nm0 y_writing [5; 6] 0 4)
    as (m & y' & Hm & E & _ & Hw & Hg & _);
    [apply small_pp_ok|vm_compute; reflexivity|apply Wit.nm_wit|apply Wit.nm_wit|apply Wit.nm_wit
    |apply writing_run|split_and!; vm_compute; congruence || reflexivity|vm_compute; reflexivity|].
  exists m, y'. split_and!; [exact Hm|exact E|exact Hw|]. rewrite Hg. vm_compute. reflexivity.
Defined.

Definition fresh : pps := mk_pps vllp_pp [] [] [] false false [] [].

Module WitStream.
Definition chan (app : option (res pps)) (id iv : Z) : channel (res pps) :=
  mk_channel [] [] app (mk_pushpull 508 0) iv iv id VLLP_CHANNEL_STATE_ESTABLISHED 0 false.
Definition w : world (res pps) :=
  mk_world (mk_vllp [2; 1] [1; 2] None None None [] 0 0 1 77 66 9 2 65535 65535 65535 true 64 8 10)
    {[ 1 := chan None 14 5; 2 := chan (Some (Ret fresh)) 3 7 ]} Demo.nm0 0 [].
Lemma rcv : receiving w 3 2 (chan (Some (Ret fresh)) 3 7) [].
Proof. split; [apply Wit.nm_wit|reflexivity|reflexivity|reflexivity|by left]. Qed.
End WitStream.

Lemma stream_over_vllp_witness :
  ∃ frames us w2' vc2' p2' p2'' nm2,
    Forall (λ f, can_len (length (payload f))) frames ∧ mapM (λ f, unpad (payload f)) frames = Some us ∧
    mapM (vllp_channel_receive stream_app [] (λ _, None) crc32 3) us WitStream.w = Ret (replicate (length us) 0, w2') ∧
    w_chans w2' !! 2 = Some vc2' ∧ vc_app vc2' = Some (Ret p2') ∧
    read_pass flat 2 READER p2' (w_nm w2') 0 3 1 = Ret (RDone 3, [10; 20; 30], p2'', nm2).
Proof.
  destruct (stream_over_vllp flat [] (λ _, None) crc32 Wit.w WitStream.w 2 (Wit.chan (Some []) 3 7) fresh
    [10; 20; 30] [Wit.pb 21 [0]] [[Wit.pb 21 [0]]] 2 (WitStream.chan (Some (Ret fresh)) 3 7) fresh)
    as (p1' & nm1 & out & p1'' & l & w1' & frames & us & w2' & vc2' & p2' & p2'' & nm2 & _ & _ & _ & _ & H1 & H2 & H3 & H4 & H5 & H6);
    [apply Wit.nm_wit|apply Wit.nm_wit|reflexivity|reflexivity|reflexivity|reflexivity
    |do 3 (apply Forall_cons_2; [split; cbn; lia|]); apply Forall_nil_2|done|vm_compute; congruence
    |vm_compute; split; congruence|vm_compute; split; congruence|vm_compute; repeat constructor
    |apply Wit.packet_wit|done|apply Forall_singleton; split; [apply Wit.packet_wit|done]
    |vm_compute; reflexivity|apply WitStream.rcv|vm_compute; congruence|reflexivity|apply Wit.nm_wit
    |reflexivity|reflexivity|reflexivity|vm_compute; split; congruence|reflexivity|].
  exists frames, us, w2', vc2', p2', p2'', nm2. split_and!; [exact H1|exact H2|exact H3|exact H4|exact H5|exact H6].
Defined.

Lemma empty_message_hangs_reader_witness :
  ∃ w' vc' p', vllp_channel_receive stream_app [] (λ _, None) crc32 3
      (frame_bytes (19, le32 (not32 (crc32 7 [])))) WitStream.w = Ret (0, w') ∧
    w_chans w' !! 2 = Some vc' ∧ vc_app vc' = Some (Ret p') ∧
    ∀ prio t fuel nm size requested, 0 < size →
      read_pass prio fuel t p' nm 0 size requested = Fault NoFuel.
Proof.
  apply (empty_message_hangs_reader [] (λ _, None) crc32 WitStream.w 3 2 (WitStream.chan (Some (Ret fresh)) 3 7)
    fresh (19, le32 (not32 (crc32 7 []))));
    [apply WitStream.rcv|vm_compute; congruence|reflexivity|apply Wit.nm_wit|reflexivity|reflexivity|reflexivity
    |vm_compute; reflexivity|reflexivity|reflexivity].
Defined.

Lemma no_wait_write_sleeps_witness :
  ∃ p', write_pass flat 3 WRITER (set_txbuf [Wit.pb 20 [1; 2; 3; 4]] (mk_pps small_pp [] [] [] false false [] []))
      Demo.nm0 [5; 6] STREAM_WRITE_NO_WAIT 0 = Ret (WWait [5; 6] 0, p', Demo.nm0) ∧
    WRITER ∈ pps_cond p' ∧ pps_txbuf p' = [Wit.pb 20 [1; 2; 3; 4]].
Proof.
  apply (no_wait_write_sleeps flat WRITER
    (set_txbuf [Wit.pb 20 [1; 2; 3; 4]] (mk_pps small_pp [] [] [] false false [] [])) Demo.nm0 [5; 6]
    STREAM_WRITE_NO_WAIT 0 (Wit.pb 20 [1; 2; 3; 4]) []); [reflexivity|reflexivity|reflexivity|done|reflexivity].
Defined.
