(* ===== verification/Ipv4.v ===== *)
(** * Ipv4: checksums, routes and the IPv4 input path ([src/net/ipv4/ipv4.c])

    A chain of packet buffers is the list of its windows ([list (list Z)]), the
    bytes each buffer shows: the code of this layer only looks at those.
    [win_pullup], [win_drop] and [win_trim] are what [pbuf_pullup], [pbuf_drop] and
    [pbuf_trim] do to the windows; [Pbuf] models and verifies them on buffers.
    Addresses and ports are kept as the 32-bit and 16-bit values that a little-endian
    load of the header field gives, as the code keeps them.

    The checksum is proved equal to the one's complement sum of RFC 1071, written as
    [oc] of the sum of the words, and a field filled with it makes the packet verify. *)

From Stdlib Require Import ZArith Lia.
From stdpp Require Import base list numbers.
From S2P Require Import Prelude.

Open Scope Z_scope.

(** ** Windows of a buffer chain *)

Abbreviation windows := (list (list Z)).

Definition pktlen (c : windows) : Z := Z.of_nat (length (concat c)).

(** Remove [n] bytes from the front; buffers that become empty go, the last stays. *)
Fixpoint win_drop (n : nat) (c : windows) : windows :=
  match c with
  | [] => []
  | w :: next =>
      match drop n w with
      | [] => match next with [] => [[]] | _ => win_drop (n - length w) next end
      | w' => w' :: next
      end
  end.

Fixpoint win_skip (n : nat) (c : windows) : windows :=
  match n, c with
  | O, _ => c
  | _, [] => []
  | _, w :: next =>
      match drop n w with
      | [] => win_skip (n - length w) next
      | w' => w' :: next
      end
  end.

(** Make the first [n] bytes contiguous; the number of bytes missing. *)
Definition win_pullup (n : nat) (c : windows) : Z * windows :=
  match c with
  | [] => (Z.of_nat n, [])
  | w :: next =>
      if (n <=? length w)%nat then (0, c)
      else let k := (n - length w)%nat in
           let got := take k (concat next) in
           (Z.of_nat (k - length got), (w ++ got) :: win_skip k next)
  end.

Fixpoint win_take (keep : nat) (c : windows) : windows :=
  match c with
  | [] => []
  | w :: next => if (keep =? 0)%nat then [] else take keep w :: win_take (keep - length w) next
  end.

(** Remove [n] bytes from the end. *)
Definition win_trim (n : nat) (c : windows) : windows :=
  match c with
  | [] => []
  | w :: next =>
      if (n =? 0)%nat then c
      else let keep := (length (concat c) - n)%nat in
           take keep w :: win_take (keep - length w) next
  end.

(** Loads from and stores to the first window. *)
Definition byte_at (w : list Z) (i : nat) : Z := default 0 (w !! i).
Definition ld16 (w : list Z) (i : nat) : Z := byte_at w i + 256 * byte_at w (i + 1).
Definition ld32 (w : list Z) (i : nat) : Z := ld16 w i + 65536 * ld16 w (i + 2).
Definition store (i : nat) (bs : list Z) (w : list Z) : list Z :=
  take i w ++ bs ++ drop (i + length bs) w.
Definition on_first (f : list Z → list Z) (c : windows) : windows :=
  match c with [] => [] | w :: next => f w :: next end.
Definition first (c : windows) : list Z := match c with [] => [] | w :: _ => w end.

Definition be16 (x : Z) : list Z := [u8 (Z.shiftr x 8); u8 x].
Definition htons (x : Z) : Z := u8 (Z.shiftr x 8) + 256 * u8 x.
Definition htonl (x : Z) : Z :=
  u8 (Z.shiftr x 24) + 256 * u8 (Z.shiftr x 16) + 65536 * u8 (Z.shiftr x 8) + 16777216 * u8 x.

(** ** Checksums *)

Fixpoint ipv4_cksum_add (sum : Z) (bs : list Z) : Z :=
  match bs with
  | a :: b :: rest => ipv4_cksum_add (u32 (sum + (a + 256 * b))) rest
  | [a] => u32 (sum + a)
  | [] => sum
  end.

Definition ipv4_cksum_pseudo (src_addr dst_addr protocol len : Z) : Z :=
  ipv4_cksum_add 0 (le32 src_addr ++ le32 dst_addr ++ [0; u8 protocol] ++ be16 (u16 len)).

Fixpoint fold_loop (fuel : nat) (sum : Z) : res Z :=
  match fuel with
  | O => Fault NoFuel
  | S f => if 65535 <? sum then fold_loop f (Z.shiftr sum 16 + Z.land sum 65535) else Ret (u16 sum)
  end.
(** A 32-bit sum is folded after at most two rounds. *)
Definition ipv4_cksum_fold (sum : Z) : res Z := fold_loop 3 sum.

Fixpoint cksum_loop (sum : Z) (c : windows) (offset length_ : Z) : Z :=
  match c with
  | [] => sum
  | w :: next =>
      let buflen := Z.of_nat (length w) in
      if length_ =? 0 then sum
      else if buflen <? offset then cksum_loop sum next (offset - buflen) length_
      else
        let clen := Z.min length_ (buflen - offset) in
        cksum_loop (ipv4_cksum_add sum (take (Z.to_nat clen) (drop (Z.to_nat offset) w)))
          next 0 (length_ - clen)
  end.
Definition ipv4_cksum_pbuf (sum : Z) (c : windows) (offset length_ : Z) : res Z :=
  s ← ipv4_cksum_fold (cksum_loop sum c offset length_); Ret (Z.lxor s 65535).

(** ** Routes *)

Definition NETIF_F_TX_IPV4_CKSUM_OFFLOAD : Z := 256.
Definition NETIF_F_TX_ICMP_CKSUM_OFFLOAD : Z := 512.
Definition NETIF_F_TX_TCP_CKSUM_OFFLOAD : Z := 2048.

(** The IPv4 part of [netif_t]. *)
Record netif := mk_netif {
  ni_flags : Z;
  ni_ipv4_local_addr : Z;
  ni_ipv4_local_prefixlen : Z;
}.
(** [nexthop_t]; its interface is its position in [netifs]. *)
Record nexthop := mk_nexthop { nh_addr : Z; nh_netif : nat }.
Record routes := mk_routes { ipv4_nexthops : list nexthop; netifs : list netif }.

(** [~((1 << (32 - prefixlen)) - 1)]. *)
Definition mask_from_prefixlen (prefixlen : Z) : Z :=
  not32 (u32 (Z.shiftl 1 (32 - prefixlen) - 1)).
Definition ipv4_prefix_match (addr prefix prefixlen : Z) : bool :=
  let mask := htonl (mask_from_prefixlen prefixlen) in
  Z.land addr mask =? Z.land prefix mask.

Fixpoint find_netif (addr : Z) (i : nat) (l : list netif) : option nat :=
  match l with
  | [] => None
  | ni :: rest =>
      if ni_ipv4_local_addr ni =? 0 then find_netif addr (S i) rest
      else if ipv4_prefix_match addr (ni_ipv4_local_addr ni) (ni_ipv4_local_prefixlen ni)
      then Some i else find_netif addr (S i) rest
  end.

(** [mem]: whether [xalloc] finds memory for a new entry. *)
Definition ipv4_nexthop_resolve (mem : bool) (r : routes) (addr : Z) : option nexthop * routes :=
  match List.find (λ nh, nh_addr nh =? addr) (ipv4_nexthops r) with
  | Some nh => (Some nh, r)
  | None =>
      match find_netif addr 0 (netifs r) with
      | None => (None, r)
      | Some i =>
          if mem then
            let nh := mk_nexthop addr i in
            (Some nh, mk_routes (nh :: ipv4_nexthops r) (netifs r))
          else (None, r)
      end
  end.

(** ** Input *)

Definition PBUF_CKSUM_OK : Z := 4.
Definition PBUF_BCAST : Z := 16.
Definition PBUF_MCAST : Z := 32.
Definition IPPROTO_ICMP : Z := 1.
Definition IPPROTO_IGMP : Z := 2.
Definition IPPROTO_TCP : Z := 6.
Definition IPPROTO_UDP : Z := 17.

(** What [ipv4_input] does with a packet: drop it, count it as bad and drop it, or
    hand it, with its flags, to a protocol. *)
Inductive disposition :=
| Drop
| BadCksum
| Fragmented
| Bad
| Deliver (proto : Z) (flags : Z) (pb : windows).

(** Whether the flag is set. *)
Definition has (flags f : Z) : bool := negb (Z.land flags f =? 0).

Definition ipv4_input (flags : Z) (pb : windows) : res disposition :=
  let '(missing, pb) := win_pullup 20 pb in
  if negb (missing =? 0) then Ret Drop
  else
    let ip := first pb in
    if negb (byte_at ip 0 =? 69) then Ret Drop
    else
      bad ← (if has flags PBUF_CKSUM_OK then Ret false
             else c ← ipv4_cksum_pbuf 0 pb 0 20; Ret (negb (c =? 0)));
      if (bad : bool) then Ret BadCksum
      else if negb (Z.land (htons (ld16 ip 6)) 16383 =? 0) then Ret Fragmented
      else
        let len := htons (ld16 ip 2) in
        if pktlen pb <? len then Ret Bad
        else
          let pb := if len <? pktlen pb then win_trim (Z.to_nat (pktlen pb - len)) pb else pb in
          let dst := ld32 ip 16 in
          let flags :=
            if dst =? 4294967295 then Z.lor flags PBUF_BCAST
            else if Z.land dst (htonl 4026531840) =? htonl 3758096384 then Z.lor flags PBUF_MCAST
            else flags in
          let proto := byte_at ip 9 in
          if ((proto =? IPPROTO_ICMP) || (proto =? IPPROTO_IGMP) || (proto =? IPPROTO_UDP)
              || (proto =? IPPROTO_TCP))%bool
          then Ret (Deliver proto flags pb)
          else Ret Drop.

Definition INT32_MAX : Z := 2147483647.

(** [icmp_input_icmp_echo] on interface [ni]: the next hop and the packet given to its
    interface, if there is a route, and the routes. *)
Definition icmp_input_icmp_echo (mem : bool) (r : routes) (ni : netif) (pb : windows) (icmp_offset : Z)
    : res (option (nexthop * windows) * routes) :=
  let src := ld32 (first pb) 12 in
  let '(nh, r) := ipv4_nexthop_resolve mem r src in
  match nh with
  | None => Ret (None, r)
  | Some nh =>
      match netifs r !! nh_netif nh with
      | None => Fault OutOfBounds
      | Some out =>
          let off := Z.to_nat icmp_offset in
          let pb := on_first (store 16 (le32 src)) pb in
          let pb := on_first (store 12 (le32 (ni_ipv4_local_addr ni))) pb in
          let pb := on_first (store off [0]) pb in
          let pb := on_first (store (off + 2) [0; 0]) pb in
          pb ← (if has (ni_flags out) NETIF_F_TX_ICMP_CKSUM_OFFLOAD then Ret pb
                else c ← ipv4_cksum_pbuf 0 pb icmp_offset INT32_MAX;
                     Ret (on_first (store (off + 2) (le16 c)) pb));
          let pb := on_first (store 10 [0; 0]) pb in
          pb ← (if has (ni_flags out) NETIF_F_TX_IPV4_CKSUM_OFFLOAD then Ret pb
                else c ← ipv4_cksum_pbuf 0 pb 0 20;
                     Ret (on_first (store 10 (le16 c)) pb));
          Ret (Some (nh, pb), r)
      end
  end.

(** [ipv4_input_icmp]: [None] when the packet is dropped. *)
Definition ipv4_input_icmp (mem : bool) (r : routes) (ni : netif) (flags : Z) (pb : windows)
    (icmp_offset : Z) : res (option (nexthop * windows) * routes) :=
  if ni_ipv4_local_addr ni =? 0 then Ret (None, r)
  else if has flags PBUF_MCAST then Ret (None, r)
  else
    c ← ipv4_cksum_pbuf 0 pb icmp_offset INT32_MAX;
    if negb (c =? 0) then Ret (None, r)
    else
      let '(missing, pb) := win_pullup (Z.to_nat icmp_offset + 4) pb in
      if negb (missing =? 0) then Ret (None, r)
      else if byte_at (first pb) (Z.to_nat icmp_offset) =? 8
      then icmp_input_icmp_echo mem r ni pb icmp_offset
      else Ret (None, r).

(** ** Windows *)

Lemma win_drop_concat n c : concat (win_drop n c) = drop n (concat c).
Proof.
  revert n. induction c as [|w c IH]; intros n; cbn [win_drop concat]; [by rewrite drop_nil|].
  rewrite drop_app. destruct (drop n w) as [|x l] eqn:E.
  - cbn [app]. destruct c as [|w' c].
    + cbn [concat]. by rewrite drop_nil, app_nil_r.
    + by rewrite IH.
  - cbn [concat]. assert (n - length w = 0)%nat as ->; [|by rewrite drop_0].
    apply (f_equal length) in E. rewrite length_drop in E. cbn in E. lia.
Qed.

Lemma win_skip_concat n c : concat (win_skip n c) = drop n (concat c).
Proof.
  revert n. induction c as [|w c IH]; intros [|n]; cbn [win_skip concat]; rewrite ?drop_0, ?drop_nil; try done.
  rewrite drop_app. destruct (drop (S n) w) as [|x l] eqn:E.
  - cbn [app]. by rewrite IH.
  - cbn [concat]. assert (S n - length w = 0)%nat as ->; [|by rewrite drop_0].
    apply (f_equal length) in E. rewrite length_drop in E. cbn [length] in E. lia.
Qed.

(** A pullup keeps the bytes; when none is missing the first window has [n]. *)
Lemma win_pullup_spec n c missing c' :
  win_pullup n c = (missing, c') →
  concat c' = concat c ∧ missing = Z.max 0 (Z.of_nat n - pktlen c) ∧
  (missing = 0 → (n <= length (first c'))%nat).
Proof.
  unfold pktlen. destruct c as [|w next]; cbn [win_pullup].
  { intros [= <- <-]. split_and!; [done|cbn; lia|cbn; lia]. }
  destruct (Nat.leb_spec n (length w)) as [Hle|Hgt]; intros [= <- <-]; cbn [concat first].
  - rewrite length_app. split; [done|]. lia.
  - rewrite win_skip_concat, <- app_assoc, take_drop, !length_app, length_take.
    split; [done|]. lia.
Qed.

Lemma win_take_concat n c : concat (win_take n c) = take n (concat c).
Proof.
  revert n. induction c as [|w c IH]; intros n; cbn [win_take concat]; [by rewrite take_nil|].
  destruct (Nat.eqb_spec n 0) as [->|]; [done|]. cbn [concat]. by rewrite take_app, IH.
Qed.

Lemma win_trim_spec n c :
  concat (win_trim n c) = take (length (concat c) - n) (concat c) ∧
  first (win_trim n c) = take (length (concat c) - n) (first c).
Proof.
  destruct c as [|w next]; [done|]. unfold win_trim. destruct (Nat.eqb_spec n 0) as [->|].
  - rewrite Nat.sub_0_r. split; [by rewrite take_ge|]. cbn [first concat]. rewrite length_app, take_ge; [done|lia].
  - cbn [concat first]. by rewrite win_take_concat, take_app.
Qed.

(** ** The one's complement sum *)

(** Sum of the 16-bit little-endian words of a byte string. *)
Fixpoint wsum (bs : list Z) : Z :=
  match bs with
  | a :: b :: rest => a + 256 * b + wsum rest
  | [a] => a
  | [] => 0
  end.

(** One's complement value of a sum of words. *)
Definition oc (s : Z) : Z := if s =? 0 then 0 else (s - 1) mod 65535 + 1.

Lemma list_ind2 {A} (P : list A → Prop) :
  P [] → (∀ a, P [a]) → (∀ a b l, P l → P (a :: b :: l)) → ∀ l, P l.
Proof.
  intros H0 H1 H2 l. enough (P l ∧ ∀ a, P (a :: l)) as [? _] by done.
  induction l as [|a l [IH1 IH2]]; split; eauto.
Qed.

Lemma wsum_bound bs : bytes bs → 0 <= wsum bs <= 32768 * (Z.of_nat (length bs) + 1).
Proof.
  induction bs as [|a|a b l IH] using list_ind2; intros H; decompose_Forall_hyps;
    unfold is_byte in *; cbn [wsum length]; [lia|lia|]. specialize (IH ltac:(done)). lia.
Qed.

Lemma wsum_app l1 l2 : Nat.Even (length l1) → wsum (l1 ++ l2) = wsum l1 + wsum l2.
Proof.
  induction l1 as [|a|a b l IH] using list_ind2; intros H; cbn [length] in H; [done| |].
  - destruct H as [k Hk]. lia.
  - cbn [app wsum]. rewrite IH; [lia|]. destruct H as [k Hk]. exists (k - 1)%nat. lia.
Qed.

Lemma cksum_add_spec bs sum : is_u32 sum → ipv4_cksum_add sum bs = u32 (sum + wsum bs).
Proof.
  revert sum. induction bs as [|a|a b l IH] using list_ind2; intros sum Hs; cbn [ipv4_cksum_add wsum].
  - by rewrite Z.add_0_r, u32_id.
  - done.
  - rewrite IH by auto with mios. unfold u32. rewrite Zplus_mod_idemp_l. f_equal. lia.
Qed.

(** Every window but the last has an even number of bytes. *)
Definition even_windows (c : windows) : Prop :=
  Forall (λ w, Nat.Even (length w)) (removelast c).

Lemma cksum_loop_offset sum w next off len :
  0 <= off <= Z.of_nat (length w) →
  cksum_loop sum (w :: next) off len = cksum_loop sum (drop (Z.to_nat off) w :: next) 0 len.
Proof.
  intros H. cbn [cksum_loop]. rewrite length_drop.
  destruct (len =? 0); [done|]. rewrite !(proj2 (Z.ltb_ge _ _)) by lia.
  replace (Z.of_nat (length w - Z.to_nat off) - 0) with (Z.of_nat (length w) - off) by lia.
  change (Z.to_nat 0) with 0%nat. by rewrite drop_0.
Qed.

Lemma cksum_loop_spec c sum len :
  is_u32 sum → even_windows c → 0 <= len →
  cksum_loop sum c 0 len = u32 (sum + wsum (take (Z.to_nat len) (concat c))).
Proof.
  revert sum len. induction c as [|w c IH]; intros sum len Hs Hev Hl.
  { cbn. by rewrite take_nil, Z.add_0_r, u32_id. }
  cbn [cksum_loop concat]. destruct (Z.eqb_spec len 0) as [->|].
  { by rewrite take_0, Z.add_0_r, u32_id. }
  rewrite (proj2 (Z.ltb_ge _ _)) by lia. rewrite Z.sub_0_r. change (Z.to_nat 0) with 0%nat.
  rewrite drop_0, cksum_add_spec by done. rewrite IH; [|auto with mios| |lia].
  2:{ destruct c; [constructor|]. unfold even_windows in *. cbn in Hev. by inversion Hev. }
  rewrite take_app. unfold u32. rewrite Zplus_mod_idemp_l, <- Z.add_assoc. f_equal. f_equal.
  destruct (decide (len <= Z.of_nat (length w))) as [Hle|Hgt].
  - rewrite Z.min_l by lia. replace (Z.to_nat (len - len)) with 0%nat by lia.
    replace (Z.to_nat len - length w)%nat with 0%nat by lia. by rewrite !take_0, app_nil_r, Z.add_0_r.
  - rewrite Z.min_r by lia. rewrite Nat2Z.id. rewrite (take_ge w (Z.to_nat len)), (take_ge w (length w)) by lia.
    replace (Z.to_nat (len - Z.of_nat (length w))) with (Z.to_nat len - length w)%nat by lia.
    destruct c as [|w' c].
    + cbn [concat]. by rewrite take_nil, app_nil_r, Z.add_0_r.
    + rewrite wsum_app; [done|]. unfold even_windows in Hev. cbn in Hev. by inversion Hev.
Qed.

Lemma land_16 s : Z.land s 65535 = s mod 65536.
Proof. apply (land_ones_mod s 16). lia. Qed.

Lemma fold_step s : 65535 < s < 4294967296 →
  let s' := Z.shiftr s 16 + Z.land s 65535 in s' < s ∧ 0 < s' <= 131070 ∧ oc s' = oc s.
Proof.
  intros H. cbn zeta. rewrite land_16, Z.shiftr_div_pow2 by lia. change (2 ^ 16) with 65536.
  assert (s = 65536 * (s / 65536) + s mod 65536) as E by (apply Z.div_mod; lia).
  assert (0 <= s mod 65536 < 65536) by (apply Z.mod_pos_bound; lia).
  assert (1 <= s / 65536 <= 65535) by dlia. set (q := s / 65536) in *. set (m := s mod 65536) in *.
  split_and!; [lia|lia|lia|]. unfold oc. rewrite !(proj2 (Z.eqb_neq _ _)) by lia. f_equal.
  replace (s - 1) with (q + m - 1 + q * 65535) by lia. by rewrite Z_mod_plus_full.
Qed.

(** Folding a 32-bit sum takes at most two rounds and gives its one's complement
    value. *)
Lemma cksum_fold_spec s : is_u32 s → ipv4_cksum_fold s = Ret (oc s).
Proof.
  intros Hs. unfold is_u32 in Hs. unfold ipv4_cksum_fold.
  assert (∀ f x, 0 <= x <= 65535 → fold_loop (S f) x = Ret (oc x)) as Hend.
  { intros f x Hx. cbn [fold_loop]. rewrite (proj2 (Z.ltb_ge _ _)) by lia. f_equal. unfold oc, u16.
    destruct (Z.eqb_spec x 0) as [->|]; [done|]. rewrite !Z.mod_small by lia. lia. }
  destruct (decide (s <= 65535)); [apply Hend; lia|]. cbn [fold_loop].
  rewrite (proj2 (Z.ltb_lt _ _)) by lia. destruct (fold_step s) as (? & ? & <-); [lia|].
  set (x := Z.shiftr s 16 + Z.land s 65535) in *.
  destruct (decide (x <= 65535)); [apply (Hend 1%nat); lia|].
  rewrite (proj2 (Z.ltb_lt _ _)) by lia. destruct (fold_step x) as (? & ? & <-); [lia|].
  set (y := Z.shiftr x 16 + Z.land x 65535) in *. apply (Hend 0%nat).
  split; [lia|]. subst y. rewrite land_16, Z.shiftr_div_pow2 by lia. change (2 ^ 16) with 65536. dlia.
Qed.

Lemma oc_range s : 0 <= s → 0 <= oc s <= 65535 ∧ (oc s = 0 ↔ s = 0).
Proof.
  intros. unfold oc. destruct (Z.eqb_spec s 0); [lia|].
  pose proof (Z.mod_pos_bound (s - 1) 65535). lia.
Qed.

Lemma not16 s : 0 <= s <= 65535 → Z.lxor s 65535 = 65535 - s.
Proof.
  intros. assert (Z.lxor s 65535 + s = 65535) as E; [|lia].
  rewrite Z.add_nocarry_lxor.
  - xor_ac.
  - change 65535 with (Z.ones 16). apply Z.bits_inj'; intros i Hi.
    rewrite Z.land_spec, Z.lxor_spec, Z.bits_0, Z.testbit_ones_nonneg by lia.
    destruct (Z.ltb_spec i 16); [by destruct (Z.testbit s i)|].
    rewrite (Z.bits_above_log2 s i); [done|lia|]. destruct (decide (s = 0)) as [->|]; [cbn; lia|].
    apply Z.log2_lt_pow2; [lia|]. apply Z.lt_le_trans with (2 ^ 16); [lia|].
    apply Z.pow_le_mono_r; lia.
Qed.

(** The checksum over [len] bytes from [off] in the first window. *)
Lemma cksum_pbuf_spec sum w next off len :
  0 <= sum → 0 <= off <= Z.of_nat (length w) → 0 <= len →
  even_windows (drop (Z.to_nat off) w :: next) → bytes (concat (w :: next)) →
  let bs := take (Z.to_nat len) (drop (Z.to_nat off) (concat (w :: next))) in
  sum + 32768 * (Z.of_nat (length bs) + 1) < 4294967296 →
  ipv4_cksum_pbuf sum (w :: next) off len = Ret (65535 - oc (sum + wsum bs)).
Proof.
  cbn zeta. intros Hs Ho Hl Hev Hb Hbig. unfold ipv4_cksum_pbuf.
  cbn [concat] in *. rewrite drop_app_le in * by lia.
  set (bs := take _ _) in *.
  assert (bytes bs) as Hbs.
  { apply Forall_take, Forall_app; split; apply Forall_app in Hb as [??]; [by apply Forall_drop|done]. }
  pose proof (wsum_bound bs Hbs) as Hw.
  assert (is_u32 sum) by (unfold is_u32; lia).
  rewrite cksum_loop_offset by done. rewrite cksum_loop_spec by done. cbn [concat].
  fold bs. rewrite u32_id by (unfold is_u32; lia).
  rewrite cksum_fold_spec by (unfold is_u32; lia). cbn [mbind res_bind].
  rewrite not16; [done|]. apply oc_range. lia.
Qed.

Lemma wsum_le16 c : 0 <= c <= 65535 → wsum (le16 c) = c.
Proof.
  intros. cbn [le16 wsum]. unfold u8. rewrite Z.shiftr_div_pow2 by lia. change (2 ^ 8) with 256. dlia.
Qed.

(** A field at an even offset that holds the checksum of the rest makes the whole sum
    to minus zero. *)
Lemma oc_filled sum pre post :
  0 <= sum → bytes pre → bytes post → Nat.Even (length pre) →
  let c := 65535 - oc (sum + wsum (pre ++ [0; 0] ++ post)) in
  oc (sum + wsum (pre ++ le16 c ++ post)) = 65535.
Proof.
  cbn zeta. intros Hs Hpre Hpost Hev. rewrite !wsum_app by (done || by exists 1%nat).
  pose proof (wsum_bound pre Hpre). pose proof (wsum_bound post Hpost).
  set (S0 := sum + (wsum pre + (wsum [0; 0] + wsum post))). assert (0 <= S0) by (subst S0; cbn; lia).
  destruct (oc_range S0) as [Hr Hz]; [done|]. rewrite wsum_le16 by lia.
  replace (sum + (wsum pre + (65535 - oc S0 + wsum post))) with (S0 + 65535 - oc S0) by (subst S0; cbn; lia).
  unfold oc in *. destruct (Z.eqb_spec S0 0) as [->|]; [done|].
  rewrite (proj2 (Z.eqb_neq _ _)) by dlia. dlia.
Qed.

(** *** Stores *)

Lemma store_spec i bs w : (i + length bs <= length w)%nat →
  ∃ pre old post, w = pre ++ old ++ post ∧ length pre = i ∧ length old = length bs ∧
    store i bs w = pre ++ bs ++ post.
Proof.
  intros H. exists (take i w), (take (length bs) (drop i w)), (drop (i + length bs) w).
  rewrite <- drop_drop, !take_drop, !length_take, length_drop.
  split_and!; [done|lia|lia|]. unfold store. by rewrite drop_drop.
Qed.

Lemma store_length i bs w : (i + length bs <= length w)%nat → length (store i bs w) = length w.
Proof. intros H. unfold store. rewrite !length_app, length_take, length_drop. lia. Qed.

Lemma store_bytes i bs w : bytes bs → bytes w → bytes (store i bs w).
Proof. intros. unfold store. rewrite !Forall_app. split_and!; [by apply Forall_take|done|by apply Forall_drop]. Qed.

Lemma byte_at_store i bs w j : (i + length bs <= length w)%nat →
  byte_at (store i bs w) j =
  if decide (i ≤ j < i + length bs)%nat then byte_at bs (j - i) else byte_at w j.
Proof.
  intros H. unfold byte_at, store. case_decide as Hd.
  - rewrite lookup_app_r, length_take, lookup_app_l; rewrite ?length_take; try lia.
    do 2 f_equal. lia.
  - destruct (decide (j < i)%nat).
    + rewrite lookup_app_l, lookup_take_lt; rewrite ?length_take; (done || lia).
    + rewrite lookup_app_r, length_take, lookup_app_r, lookup_drop; rewrite ?length_take; try lia.
      do 2 f_equal. lia.
Qed.

Lemma drop_store i bs w n : (i + length bs <= n)%nat → (n <= length w)%nat → drop n (store i bs w) = drop n w.
Proof.
  intros. unfold store. rewrite app_assoc, drop_app_ge; rewrite !length_app, length_take; [|lia].
  rewrite drop_drop. f_equal. lia.
Qed.

Lemma ld32_le32 x : is_u32 x → ld32 (le32 x) 0 = x.
Proof. intros. rewrite <- (rd_le32_le32 x) at 2 by done. unfold ld32, ld16, byte_at, rd_le32. cbn. lia. Qed.

(** *** Fields at the place where they were put *)

Lemma byte_at_add pre l k : byte_at (pre ++ l) (length pre + k) = byte_at l k.
Proof. unfold byte_at. rewrite lookup_app_r by lia. do 2 f_equal. lia. Qed.

Lemma ld16_at pre a b post : ld16 (pre ++ [a; b] ++ post) (length pre) = a + 256 * b.
Proof.
  unfold ld16. rewrite <- (Nat.add_0_r (length pre)) at 1. by rewrite !byte_at_add.
Qed.

Lemma htons_be16 x : 0 <= x < 65536 → htons (u8 (Z.shiftr x 8) + 256 * u8 x) = x.
Proof.
  intros H. unfold htons, u8. rewrite !Z.shiftr_div_pow2 by lia. change (2 ^ 8) with 256. dlia.
Qed.

Lemma ld32_at pre x post : is_u32 x → ld32 (pre ++ le32 x ++ post) (length pre) = x.
Proof.
  intros Hx. unfold ld32, ld16. rewrite <- (Nat.add_0_r (length pre)) at 1. rewrite <- !Nat.add_assoc, !byte_at_add.
  cbn. rewrite <- (rd_le32_le32 x Hx) at 5. unfold rd_le32. lia.
Qed.

Lemma htons_swap a b : is_byte a → is_byte b → htons (a + 256 * b) = b + 256 * a.
Proof. unfold is_byte, htons, u8. intros. rewrite Z.shiftr_div_pow2 by lia. change (2 ^ 8) with 256. dlia. Qed.

Lemma htonl_swap a b c d : is_byte a → is_byte b → is_byte c → is_byte d →
  htonl (a + 256 * b + 65536 * (c + 256 * d)) = d + 256 * c + 65536 * b + 16777216 * a.
Proof.
  unfold is_byte, htonl, u8. intros. rewrite !Z.shiftr_div_pow2 by lia.
  change (2 ^ 8) with 256. change (2 ^ 16) with 65536. change (2 ^ 24) with 16777216. dlia.
Qed.

Lemma ld32_be32 pre x post : is_u32 x → htonl (ld32 (pre ++ be32 x ++ post) (length pre)) = x.
Proof.
  intros Hx. unfold ld32, ld16. rewrite <- (Nat.add_0_r (length pre)) at 1. rewrite <- !Nat.add_assoc, !byte_at_add.
  cbn [byte_at be32 app lookup list_lookup default Nat.add]. unfold id. rewrite htonl_swap by apply u8_byte.
  rewrite <- (rd_le32_le32 x Hx) at 5. unfold rd_le32. lia.
Qed.

(** *** Filling a checksum field *)

Lemma take_store i f w off len :
  (length f = 2)%nat → (off <= i)%nat → (i + 2 <= length w)%nat → (i + 2 - off <= len)%nat →
  ∀ rest, take len (drop off (store i f w ++ rest)) =
    take (i - off) (drop off w) ++ f ++ take (len - (i + 2 - off)) (drop (i + 2) w ++ rest).
Proof.
  intros Hf Hoff Hi Hlen rest. unfold store. rewrite Hf, <- !app_assoc.
  rewrite drop_app_le by (rewrite length_take; lia).
  assert (drop off (take i w) = take (i - off) (drop off w)) as ->.
  { rewrite take_drop_commute. do 2 f_equal. lia. }
  set (pre := take (i - off) (drop off w)).
  assert (length pre = i - off)%nat as Hp by (subst pre; rewrite length_take, length_drop; lia).
  rewrite take_app_ge by lia. rewrite take_app_ge by lia. do 3 f_equal. lia.
Qed.

Definition small (n : nat) : Prop := Z.of_nat n < 65536.

(** Clearing the field at [i], summing, and storing the result there makes the same
    sum come out as 0. *)
Lemma fill_verifies sum w next off len i :
  0 <= sum <= 1073741824 → (off <= i)%nat → (i + 2 <= length w)%nat →
  Z.of_nat (i + 2 - off) <= len → Nat.Even (i - off) →
  even_windows (drop off w :: next) → bytes (concat (w :: next)) →
  small (length (concat (w :: next))) →
  ∃ c, ipv4_cksum_pbuf sum (store i [0; 0] w :: next) (Z.of_nat off) len = Ret c ∧ 0 <= c <= 65535 ∧
    ipv4_cksum_pbuf sum (store i (le16 c) (store i [0; 0] w) :: next) (Z.of_nat off) len = Ret 0.
Proof.
  intros Hs Hoff Hi Hlen He Hev Hb Hsm. cbn [concat] in Hb. apply Forall_app in Hb as [Hbw Hbn].
  set (pre := take (i - off) (drop off w)).
  set (post := take (Z.to_nat len - (i + 2 - off)) (drop (i + 2) w ++ concat next)).
  assert (bytes pre ∧ bytes post) as [Hbpre Hbpost].
  { subst pre post. split; [by apply Forall_take, Forall_drop|].
    apply Forall_take, Forall_app. split; [by apply Forall_drop|done]. }
  assert (length pre = i - off)%nat as Hlpre by (subst pre; rewrite length_take, length_drop; lia).
  assert (∀ f, length f = 2%nat → bytes f →
    ipv4_cksum_pbuf sum (store i f w :: next) (Z.of_nat off) len =
    Ret (65535 - oc (sum + wsum (pre ++ f ++ post)))) as Hck.
  { intros f Hf Hbf. rewrite cksum_pbuf_spec.
    - cbn [concat]. rewrite Nat2Z.id, take_store by lia. done.
    - lia.
    - rewrite store_length by lia. lia.
    - lia.
    - rewrite Nat2Z.id. unfold even_windows in *. destruct next; [constructor|].
      cbn [removelast] in *. inversion Hev; subst. constructor; [|done].
      rewrite length_drop, store_length by lia. by rewrite <- length_drop.
    - cbn [concat]. apply Forall_app. split; [by apply store_bytes|done].
    - cbn [concat]. rewrite Nat2Z.id, length_take, length_drop, length_app, store_length by lia.
      unfold small in Hsm. cbn [concat] in Hsm. rewrite length_app in Hsm. lia. }
  eexists. rewrite Hck by (first [done | repeat constructor; unfold is_byte; lia]).
  pose proof (wsum_bound _ Hbpre). pose proof (wsum_bound _ Hbpost).
  assert (0 <= sum + wsum (pre ++ [0; 0] ++ post)) as Hnn.
  { rewrite !wsum_app by (rewrite ?Hlpre; done || by exists 1%nat). cbn [wsum]. lia. }
  pose proof (oc_range _ Hnn).
  split; [reflexivity|]. split; [lia|].
  assert (store i (le16 (65535 - oc (sum + wsum (pre ++ [0; 0] ++ post)))) (store i [0; 0] w) =
          store i (le16 (65535 - oc (sum + wsum (pre ++ [0; 0] ++ post)))) w) as ->.
  { unfold store. cbn [length]. rewrite take_app_le by (rewrite length_take; lia).
    rewrite take_take, Nat.min_id. do 2 f_equal. set (d := le16 _).
    replace (length d) with 2%nat by done. clearbody d.
    rewrite app_assoc, drop_app_ge; rewrite length_app, length_take; cbn [length]; [|lia].
    rewrite drop_drop. f_equal. lia. }
  rewrite Hck by (done || auto with mios). f_equal.
  rewrite oc_filled; [done|lia|done|done|by rewrite Hlpre].
Qed.

(** The sum only looks at the bytes from its offset on. *)
Lemma cksum_pbuf_drop sum w w' next off len :
  (off <= length w)%nat → (off <= length w')%nat → drop off w = drop off w' →
  ipv4_cksum_pbuf sum (w :: next) (Z.of_nat off) len = ipv4_cksum_pbuf sum (w' :: next) (Z.of_nat off) len.
Proof.
  intros H H' E. unfold ipv4_cksum_pbuf. rewrite (cksum_loop_offset _ w), (cksum_loop_offset _ w') by lia.
  by rewrite !Nat2Z.id, E.
Qed.

Lemma even_windows_cons w w' next :
  (Nat.Even (length w) → Nat.Even (length w')) → even_windows (w :: next) → even_windows (w' :: next).
Proof.
  intros H Hev. unfold even_windows in *. destruct next; [constructor|]. cbn [removelast] in *.
  inversion Hev; subst. constructor; auto.
Qed.

Lemma pseudo_bound src dst pr len : 0 <= ipv4_cksum_pseudo src dst pr len <= 1073741824.
Proof.
  unfold ipv4_cksum_pseudo. rewrite cksum_add_spec by (unfold is_u32; lia).
  set (bs := le32 src ++ _). assert (bytes bs) as Hb.
  { subst bs. repeat constructor; first [apply u8_byte | unfold is_byte; lia]. }
  pose proof (wsum_bound bs Hb) as Hw. change (length bs) with 12%nat in Hw.
  rewrite u32_id by (unfold is_u32; lia). lia.
Qed.

Lemma headers_fit (h w0 w : list Z) next :
  bytes h → Nat.Even (length h) → bytes w0 → (Nat.Even (length w) → Nat.Even (length w0)) → even_windows (w :: next) →
  bytes (concat next) → small (length h + length w0 + length (concat next)) →
  even_windows (drop 0 (h ++ w0) :: next) ∧ bytes (concat ((h ++ w0) :: next)) ∧ small (length (concat ((h ++ w0) :: next))).
Proof.
  intros Hbh [j Hj] Hb0 He Hev Hbn Hsm. rewrite drop_0. split_and!.
  - eapply even_windows_cons; [|exact Hev]. intros [m Hm]%He. rewrite length_app. exists (j + m)%nat. lia.
  - cbn [concat]. by rewrite !Forall_app.
  - unfold small in *. cbn [concat]. rewrite !length_app. lia.
Qed.

(** ** Routes *)

(** The next hops are on interfaces that are there. *)
Definition routes_ok (r : routes) : Prop :=
  Forall (λ nh, nh_netif nh < length (netifs r))%nat (ipv4_nexthops r).

Lemma find_netif_lt addr i l k : find_netif addr i l = Some k → (i <= k < i + length l)%nat.
Proof.
  revert i. induction l as [|ni l IH]; intros i; cbn [find_netif length]; [done|].
  repeat case_match; [intros ?%IH; lia|intros [= <-]; lia|intros ?%IH; lia].
Qed.

Lemma resolve_ok mem r addr nh r' :
  routes_ok r → ipv4_nexthop_resolve mem r addr = (nh, r') →
  routes_ok r' ∧ netifs r' = netifs r ∧
  ∀ x, nh = Some x → (nh_netif x < length (netifs r'))%nat.
Proof.
  intros Hr. unfold ipv4_nexthop_resolve. destruct (List.find _ _) as [x|] eqn:E.
  { intros [= <- <-]. split; [done|]. split; [done|]. intros ? [= <-].
    apply List.find_some in E as [E _]. unfold routes_ok in Hr. rewrite List.Forall_forall in Hr. by apply Hr. }
  destruct (find_netif _ _ _) as [i|] eqn:Ef; [|by intros [= <- <-]].
  apply find_netif_lt in Ef. destruct mem; intros [= <- <-]; [|done].
  split_and!; [|done|].
  - constructor; [cbn; lia|done].
  - intros ? [= <-]. cbn. lia.
Qed.

(** ** Properties *)

Lemma icmp_echo_ok mem r ni w next nh r' out :
  (24 <= length w)%nat → bytes (concat (w :: next)) → is_u32 (ni_ipv4_local_addr ni) →
  small (length (concat (w :: next))) → even_windows (w :: next) →
  ipv4_nexthop_resolve mem r (ld32 w 12) = (Some nh, r') → netifs r' !! nh_netif nh = Some out →
  has (ni_flags out) NETIF_F_TX_ICMP_CKSUM_OFFLOAD = false →
  has (ni_flags out) NETIF_F_TX_IPV4_CKSUM_OFFLOAD = false →
  ∃ w', icmp_input_icmp_echo mem r ni (w :: next) 20 = Ret (Some (nh, w' :: next), r') ∧
    length w' = length w ∧
    ld32 w' 16 = ld32 w 12 ∧ ld32 w' 12 = ni_ipv4_local_addr ni ∧ byte_at w' 20 = 0 ∧
    take 10 w' = take 10 w ∧ drop 24 w' = drop 24 w ∧
    ipv4_cksum_pbuf 0 (w' :: next) 0 20 = Ret 0 ∧
    ipv4_cksum_pbuf 0 (w' :: next) 20 INT32_MAX = Ret 0.
Proof.
  intros Hw Hb Hla Hsm Hev Hr Hni Hf1 Hf2.
  unfold icmp_input_icmp_echo. cbn [first]. rewrite Hr, Hni, Hf1, Hf2. cbn [on_first].
  change (Z.to_nat 20) with 20%nat. cbn [Nat.add].
  set (w1 := store 16 (le32 (ld32 w 12)) w).
  set (w2 := store 12 (le32 (ni_ipv4_local_addr ni)) w1). set (w3 := store 20 [0] w2).
  assert (∀ i bs u, bytes bs → (i + length bs <= 24)%nat → bytes u ∧ length u = length w →
    bytes (store i bs u) ∧ length (store i bs u) = length w) as Hst.
  { intros i bs u ? ? [? Hl]. split; [by apply store_bytes|]. by rewrite store_length by lia. }
  apply Forall_app in Hb as [Hbw Hbn]. assert (bytes w3 ∧ length w3 = length w) as [Hb3 Hl3].
  { apply Hst; [repeat constructor; unfold is_byte; lia|cbn; lia|].
    apply Hst; [auto with mios|cbn; lia|]. apply Hst; [auto with mios|cbn; lia|done]. }
  assert (∀ u n, Nat.Even n → length u = length w → even_windows (drop n u :: next)) as Hevd.
  { intros u n Hn Hu. unfold even_windows in *. destruct next; [constructor|]. cbn [removelast] in *.
    inversion Hev as [|? ? He]; subst. constructor; [|done]. rewrite length_drop, Hu.
    destruct Hn as [k ->], He as [j ->]. exists (j - k)%nat. lia. }
  assert (∀ u, length u = length w → small (length (concat (u :: next)))) as Hsmu.
  { intros u Hu. unfold small in *. cbn [concat] in *. rewrite length_app in *. lia. }
  destruct (fill_verifies 0 w3 next 20 INT32_MAX 22) as (c & Hc & Hcr & Hv);
    [lia|lia|lia|unfold INT32_MAX; lia|by exists 1%nat|by apply Hevd; [exists 10%nat|]
    |by apply Forall_app|by apply Hsmu|].
  change (Z.of_nat 20) with 20 in *. rewrite Hc. cbn [mbind res_bind on_first].
  set (w5 := store 22 (le16 c) (store 22 [0; 0] w3)) in *.
  assert (bytes w5 ∧ length w5 = length w) as [Hb5 Hl5].
  { apply Hst; [auto with mios|cbn; lia|]. apply Hst; [repeat constructor; unfold is_byte; lia|cbn; lia|done]. }
  destruct (fill_verifies 0 w5 next 0 20 10) as (d & Hd & Hdr & Hvd);
    [lia|lia|lia|lia|by exists 5%nat|by apply Hevd; [exists 0%nat|]|by apply Forall_app|by apply Hsmu|].
  change (Z.of_nat 0) with 0 in *. rewrite Hd. cbn [mbind res_bind on_first].
  set (w7 := store 10 (le16 d) (store 10 [0; 0] w5)) in *.
  assert (length w7 = length w) as Hl7.
  { apply Hst; [auto with mios|cbn; lia|].
    apply Hst; [repeat constructor; unfold is_byte; lia|cbn; lia|done]. }
  exists w7. split; [done|]. split; [done|].
  assert (ipv4_cksum_pbuf 0 (w7 :: next) 20 INT32_MAX = Ret 0) as Hv7.
  { rewrite <- Hv. apply (cksum_pbuf_drop 0 w7 w5 next 20); [lia|lia|].
    subst w7. by rewrite !drop_store by (rewrite ?store_length; cbn; lia). }
  do 24 (destruct w as [|? w]; [cbn in Hw; lia|]). decompose_Forall_hyps.
  split_and!; try done.
  - apply ld32_le32. unfold ld32, ld16, byte_at, is_u32, is_byte in *. cbn. lia.
  - by apply ld32_le32.
Qed.

(** An ICMP echo request is answered to its sender when there is a route: the
    reply goes from the interface's address to the source address of the request,
    carries type 0 and the request's bytes after the ICMP checksum unchanged, and both
    its checksums verify. *)
Theorem icmp_echo_reply mem r ni w next nh r' out :
  (24 <= length w)%nat → bytes (concat (w :: next)) → is_u32 (ni_ipv4_local_addr ni) →
  small (length (concat (w :: next))) → even_windows (w :: next) →
  ipv4_nexthop_resolve mem r (ld32 w 12) = (Some nh, r') → netifs r' !! nh_netif nh = Some out →
  has (ni_flags out) NETIF_F_TX_ICMP_CKSUM_OFFLOAD = false →
  has (ni_flags out) NETIF_F_TX_IPV4_CKSUM_OFFLOAD = false →
  ∃ w', icmp_input_icmp_echo mem r ni (w :: next) 20 = Ret (Some (nh, w' :: next), r') ∧
    length w' = length w ∧
    ld32 w' 16 = ld32 w 12 ∧ ld32 w' 12 = ni_ipv4_local_addr ni ∧ byte_at w' 20 = 0 ∧
    take 10 w' = take 10 w ∧ drop 24 w' = drop 24 w ∧
    ipv4_cksum_pbuf 0 (w' :: next) 0 20 = Ret 0 ∧
    ipv4_cksum_pbuf 0 (w' :: next) 20 INT32_MAX = Ret 0.
Proof. exact (icmp_echo_ok mem r ni w next nh r' out). Qed.

(** The header fields [ipv4_input] checks, on the bytes of the packet. *)
Definition ip_total_length (bs : list Z) : Z := htons (ld16 bs 2).
Definition ip_header_ok (bs : list Z) : Prop :=
  byte_at bs 0 = 69 ∧ Z.land (htons (ld16 bs 6)) 16383 = 0 ∧
  20 <= Z.of_nat (length bs) ∧ ip_total_length bs <= Z.of_nat (length bs).

Lemma byte_at_app w l i : (i < length w)%nat → byte_at (w ++ l) i = byte_at w i.
Proof. intros. unfold byte_at. by rewrite lookup_app_l. Qed.

Lemma cksum_header w next :
  (20 <= length w)%nat → bytes w →
  ipv4_cksum_pbuf 0 (w :: next) 0 20 = Ret (65535 - oc (wsum (take 20 w))).
Proof.
  intros Hw Hb. unfold ipv4_cksum_pbuf. cbn [cksum_loop].
  rewrite (proj2 (Z.eqb_neq 20 0)), (proj2 (Z.ltb_ge _ _)) by lia.
  rewrite Z.sub_0_r, Z.min_l by lia. change (Z.to_nat 0) with 0%nat. change (Z.to_nat 20) with 20%nat.
  rewrite drop_0, cksum_add_spec by (unfold is_u32; lia).
  assert (∀ s, cksum_loop s next 0 (20 - 20) = s) as -> by by destruct next.
  pose proof (wsum_bound (take 20 w) (Forall_take _ _ _ Hb)) as Hs.
  rewrite length_take in Hs. rewrite Z.add_0_l, u32_id by (unfold is_u32; lia).
  rewrite cksum_fold_spec by (unfold is_u32; lia). cbn [mbind res_bind].
  by rewrite not16 by (apply oc_range; lia).
Qed.

Lemma ipv4_input_ok flags c :
  bytes (concat c) →
  let bs := concat c in let proto := byte_at bs 9 in
  ∃ d, ipv4_input flags c = Ret d ∧
  ((∃ p f pb, d = Deliver p f pb) ↔
   ip_header_ok bs ∧ proto ∈ [IPPROTO_ICMP; IPPROTO_IGMP; IPPROTO_UDP; IPPROTO_TCP] ∧
   (has flags PBUF_CKSUM_OK = true ∨ oc (wsum (take 20 bs)) = 65535)) ∧
  (∀ p f pb, d = Deliver p f pb →
     p = proto ∧ concat pb = take (Z.to_nat (ip_total_length bs)) bs).
Proof.
  intros Hb bs proto. unfold ipv4_input. destruct (win_pullup 20 c) as [missing pb] eqn:Ep.
  apply win_pullup_spec in Ep as (Ec & Em & Ef). unfold pktlen in Em. fold bs in Em, Ec.
  assert (∀ d (Q R : Prop), ¬ Q → (∀ p f pb, d ≠ Deliver p f pb) →
    ∃ d', Ret d = Ret d' ∧ ((∃ p f pb, d' = Deliver p f pb) ↔ Q ∧ R) ∧
      (∀ p f pb, d' = Deliver p f pb → p = proto ∧ concat pb = take (Z.to_nat (ip_total_length bs)) bs)) as Hno.
  { intros d Q R HQ Hd. exists d. split; [done|]. split; [|by intros ? ? ? ?%Hd].
    split; [by intros (?&?&?&?%Hd)|tauto]. }
  unfold ip_header_ok. destruct (Z.eqb_spec missing 0) as [E0|E0]; cbn [negb].
  2:{ apply Hno; [lia|done]. }
  specialize (Ef E0). destruct pb as [|w next]; [cbn in Ef; lia|]. cbn [first] in *.
  assert (∀ i, (i < 20)%nat → byte_at w i = byte_at bs i) as Hat.
  { intros i Hi. rewrite <- Ec. cbn [concat]. rewrite byte_at_app; [done|lia]. }
  assert (ld16 w 2 = ld16 bs 2 ∧ ld16 w 6 = ld16 bs 6 ∧ ld32 w 16 = ld32 bs 16) as (E2 & E6 & E16).
  { unfold ld32, ld16. by rewrite !Hat by lia. }
  rewrite E2, E6, E16, !Hat by lia. fold (ip_total_length bs). fold proto.
  destruct (Z.eqb_spec (byte_at bs 0) 69) as [E69|E69]; cbn [negb]; [|apply Hno; [tauto|done]].
  assert (bytes w) as Hbw.
  { unfold bs in Hb. fold bs in Hb. rewrite <- Ec in Hb. cbn [concat] in Hb. by apply Forall_app in Hb as [? _]. }
  assert (take 20 w = take 20 bs) as Et.
  { rewrite <- Ec. cbn [concat]. by rewrite take_app_le by lia. }
  rewrite cksum_header, Et by done. cbn [mbind res_bind].
  pose proof (wsum_bound (take 20 w) (Forall_take _ _ _ Hbw)) as Hs. rewrite Et in Hs.
  pose proof (oc_range (wsum (take 20 bs)) ltac:(lia)) as Hoc.
  set (bad := if has flags PBUF_CKSUM_OK then Ret false else _).
  assert (∃ b : bool, bad = Ret b ∧ (b = false ↔
    has flags PBUF_CKSUM_OK = true ∨ oc (wsum (take 20 bs)) = 65535)) as (b & -> & Hbad).
  { subst bad. destruct (has flags PBUF_CKSUM_OK).
    - exists false. split; [done|]. tauto.
    - eexists. split; [reflexivity|]. rewrite negb_false_iff, Z.eqb_eq. split; [right; lia|].
      intros [?|?]; [done|lia]. }
  cbn [mbind res_bind]. destruct b.
  { exists BadCksum. split; [done|]. split; [|done]. split; [by intros (?&?&?&?)|].
    intros (_ & _ & H). by apply Hbad in H. }
  destruct (Z.eqb_spec (Z.land (htons (ld16 bs 6)) 16383) 0) as [Efr|Efr]; cbn [negb]; [|apply Hno; [tauto|done]].
  unfold pktlen. rewrite Ec. fold bs.
  destruct (Z.ltb_spec (Z.of_nat (length bs)) (ip_total_length bs)) as [Hl|Hl]; [apply Hno; [lia|done]|].
  set (pb' := if _ <? _ then _ else _).
  assert (concat pb' = take (Z.to_nat (ip_total_length bs)) bs) as Epb.
  { subst pb'. destruct (Z.ltb_spec (ip_total_length bs) (Z.of_nat (length bs))).
    - rewrite (proj1 (win_trim_spec _ _)), Ec. fold bs. f_equal. lia.
    - rewrite Ec. fold bs. rewrite take_ge; [done|]. lia. }
  destruct (_ || _)%bool eqn:Ep.
  - eexists. split; [reflexivity|]. split; [|by intros ? ? ? [= <- <- <-]].
    split; [intros _|eauto]. split; [lia|]. split; [|by apply Hbad].
    rewrite !elem_of_cons. bool_to_prop. rewrite !orb_true_iff, !Z.eqb_eq in Ep. tauto.
  - exists Drop. split; [done|]. split; [|done]. split; [by intros (?&?&?&?)|].
    intros (_ & H & _). rewrite !elem_of_cons, elem_of_nil in H.
    rewrite !orb_false_iff, !Z.eqb_neq in Ep. tauto.
Qed.

(** [ipv4_input] always comes to a decision, and delivers a packet to a protocol
    exactly when its header is an unfragmented, option-less IPv4 header of that protocol
    whose total length the packet reaches, with a checksum that verifies (unless the
    hardware checked it); what is delivered is the packet cut to its total length. *)
Theorem ipv4_input_correct flags c :
  bytes (concat c) →
  let bs := concat c in let proto := byte_at bs 9 in
  ∃ d, ipv4_input flags c = Ret d ∧
  ((∃ p f pb, d = Deliver p f pb) ↔
   ip_header_ok bs ∧ proto ∈ [IPPROTO_ICMP; IPPROTO_IGMP; IPPROTO_UDP; IPPROTO_TCP] ∧
   (has flags PBUF_CKSUM_OK = true ∨ oc (wsum (take 20 bs)) = 65535)) ∧
  (∀ p f pb, d = Deliver p f pb →
     p = proto ∧ concat pb = take (Z.to_nat (ip_total_length bs)) bs).
Proof. exact (ipv4_input_ok flags c). Qed.

(** A buffer with an odd number of bytes that is not the last one shifts the sum
    of what follows by a byte: the same two bytes in one buffer and in two give
    different checksums. *)
Theorem cksum_odd_window a b :
  is_byte a → 0 < b < 256 →
  ipv4_cksum_pbuf 0 [[a]; [b]] 0 2 ≠ ipv4_cksum_pbuf 0 [[a; b]] 0 2.
Proof.
  unfold is_byte. intros Ha Hb.
  unfold ipv4_cksum_pbuf.
  change (cksum_loop 0 [[a]; [b]] 0 2) with (u32 (u32 a + b)).
  change (cksum_loop 0 [[a; b]] 0 2) with (u32 (a + 256 * b)).
  rewrite !u32_id by (unfold is_u32; rewrite ?u32_id; unfold is_u32; lia).
  rewrite !cksum_fold_spec by (unfold is_u32; lia). cbn [mbind res_bind].
  rewrite !not16 by (apply oc_range; lia). intros [= E]. unfold oc in E.
  rewrite !(proj2 (Z.eqb_neq _ _)), !Z.mod_small in E by lia. lia.
Qed.

(** ** Witnesses *)

Definition example_ni : netif := mk_netif 0 33663168 24.
Definition example_routes : routes := mk_routes [] [example_ni].
(** An echo request from 192.168.1.9 to 192.168.1.2. *)
Definition example_ping : list Z :=
  [69; 0; 0; 30; 0; 1; 0; 0; 64; 1; 247; 130; 192; 168; 1; 9; 192; 168; 1; 2;
   8; 0; 246; 252; 0; 1; 0; 2; 1; 0].

Lemma icmp_echo_reply_witness :
  ∃ w', icmp_input_icmp_echo true example_routes example_ni [example_ping] 20 =
    Ret (Some (mk_nexthop 151103680 0, [w']), mk_routes [mk_nexthop 151103680 0] [example_ni]) ∧
    byte_at w' 20 = 0 ∧ ipv4_cksum_pbuf 0 [w'] 20 INT32_MAX = Ret 0.
Proof.
  destruct (icmp_echo_reply true example_routes example_ni example_ping [] (mk_nexthop 151103680 0)
              (mk_routes [mk_nexthop 151103680 0] [example_ni]) example_ni)
    as (w' & E & _ & _ & _ & H & _ & _ & _ & Hc).
  - cbn. lia.
  - repeat constructor; unfold is_byte; lia.
  - vm_compute. split; congruence.
  - vm_compute. reflexivity.
  - repeat constructor.
  - vm_compute. reflexivity.
  - reflexivity.
  - reflexivity.
  - reflexivity.
  - by exists w'.
Defined.

Lemma ipv4_input_correct_witness :
  ipv4_input 0 [take 8 example_ping; drop 8 example_ping ++ [0; 0]] =
    Ret (Deliver IPPROTO_ICMP 0 [take 20 example_ping; drop 20 example_ping]) ∧
  ∃ d, ipv4_input 0 [take 8 example_ping; drop 8 example_ping ++ [0; 0]] = Ret d.
Proof.
  split; [vm_compute; reflexivity|].
  destruct (ipv4_input_correct 0 [take 8 example_ping; drop 8 example_ping ++ [0; 0]]) as (d & E & _).
  - repeat constructor; unfold is_byte; lia.
  - by exists d.
Defined.

Lemma cksum_odd_window_witness :
  ipv4_cksum_pbuf 0 [[1]; [2]] 0 2 ≠ ipv4_cksum_pbuf 0 [[1; 2]] 0 2.
Proof. apply (cksum_odd_window 1 2); unfold is_byte; lia. Defined.
