(* ===== verification/Ether.v ===== *)
(** * Ether: Ethernet and ARP ([src/net/ether.c], [net/ether.h], [net/netif.h])

    The neighbours of an interface are its next hops, each with a countdown [nh_state]
    that is also its state: [NEXTHOP_IDLE] (nothing known), up to [NEXTHOP_RESOLVE] (asked,
    one packet kept back), above it resolved; a second takes one off, an ARP reply sets
    255.  [ether] is an interface with them, what it sent so far, and whether the next
    packet buffers will be there ([bufs]).

    Packets are windows as in [Ipv4]; a frame given to the driver is its bytes.
    [ether_stack] joins this file with the IPv4 input path: what arrives as a frame and is
    answered by [Ipv4] leaves as a frame. *)

From Stdlib Require Import ZArith Lia.
From stdpp Require Import base list numbers relations gmap.
From S2P Require Import Prelude Ipv4.

Open Scope Z_scope.

Definition ETHERTYPE_IPV4 : Z := 2048.
Definition ETHERTYPE_ARP : Z := 2054.
Definition ETHERTYPE_PTPv2 : Z := 35063.
Definition NEXTHOP_IDLE : Z := 0.
Definition NEXTHOP_RESOLVE : Z := 5.
Definition NEXTHOP_ACTIVE : Z := 10.
Definition ether_bcast : list Z := replicate 6 255.

(** [nexthop_t]; an entry that was never resolved has an [nh_hwaddr] that nothing wrote. *)
Record nh_entry := NhEntry {
  nh_ip : Z;
  nh_state : Z;
  nh_in_use : Z;
  nh_hwaddr : list Z;
  nh_pending : option windows }.

(** What the interface does to the outside: a frame for the driver, a packet freed, a
    next hop freed, and a read of a next hop behind its [free]. *)
Inductive ev :=
| EFrame (f : list Z)
| EFreePkt
| EFreeNh (ip : Z)
| EStaleNh (ip : Z)
| ETxTime (cb : Z)
| EPtp (f : windows).

(** [ether_netif_t] *)
Record ether := Ether {
  eni_addr : list Z;
  eni_ip : Z;                        (* [ni_ipv4_local_addr] *)
  eni_nexthops : list nh_entry;
  eni_out : list ev;
  eni_bufs : list bool }.

Definition emit (e : ev) (n : ether) : ether :=
  Ether (eni_addr n) (eni_ip n) (eni_nexthops n) (eni_out n ++ [e]) (eni_bufs n).
Definition set_nexthops (l : list nh_entry) (n : ether) : ether :=
  Ether (eni_addr n) (eni_ip n) l (eni_out n) (eni_bufs n).
(** [pbuf_make(14, 0)]: whether there is a buffer. *)
Definition next_buf (n : ether) : bool * ether :=
  match eni_bufs n with
  | [] => (true, n)
  | b :: l => (b, Ether (eni_addr n) (eni_ip n) (eni_nexthops n) (eni_out n) l)
  end.

Definition eth_hdr (dst src : list Z) (ether_type : Z) : list Z :=
  dst ++ src ++ [u8 (Z.shiftr ether_type 8); u8 ether_type].

Definition ether_output (pb : windows) (ether_type : Z) (dstmac : list Z) (n : ether) : ether :=
  emit (EFrame (eth_hdr dstmac (eni_addr n) ether_type ++ concat pb)) n.

(** [struct arp_pkt] *)
Definition arp_pkt (oper : Z) (sha : list Z) (spa : Z) (tha : list Z) (tpa : Z) : list Z :=
  [0; 1] ++ be16 ETHERTYPE_IPV4 ++ [6; 4] ++ be16 oper ++ sha ++ le32 spa ++ tha ++ le32 tpa.

Definition arp_send_who_has (addr : Z) (n : ether) : ether :=
  let '(ok, n) := next_buf n in
  if ok then
    ether_output [arp_pkt 1 (eni_addr n) (eni_ip n) (replicate 6 0) addr] ETHERTYPE_ARP ether_bcast n
  else n.

(** Bytes [i, i + 6) of the first window. *)
Definition mac_at (w : list Z) (i : nat) : list Z := take 6 (drop i w).

(** The [LIST_FOREACH] of an ARP reply from [spa] with [sha]: every entry with that
    address is resolved, up to one that has a packet waiting. *)
Fixpoint arp_learn (spa : Z) (sha : list Z) (l : list nh_entry) : list nh_entry * option windows :=
  match l with
  | [] => ([], None)
  | nh :: rest =>
      if nh_ip nh =? spa then
        match nh_pending nh with
        | Some pb => (NhEntry (nh_ip nh) 255 (nh_in_use nh) sha None :: rest, Some pb)
        | None =>
            let '(rest, p) := arp_learn spa sha rest in
            (NhEntry (nh_ip nh) 255 (nh_in_use nh) sha None :: rest, p)
        end
      else let '(rest, p) := arp_learn spa sha rest in (nh :: rest, p)
  end.

(** [arp_input]: the packet to be freed, unless it was used for the reply. *)
Definition arp_input (pb : windows) (n : ether) : option windows * ether :=
  let '(missing, pb) := win_pullup 28 pb in
  if negb (missing =? 0) then (Some pb, n)
  else
    let ap := first pb in
    let oper := ld16 ap 6 in
    let sha := mac_at ap 8 in
    let spa := ld32 ap 14 in
    if ((oper =? htons 1) && (ld32 ap 24 =? eni_ip n))%bool then
      let w := store 6 (le16 (htons 2)) ap in
      let w := store 18 sha w in
      let w := store 24 (le32 spa) w in
      let w := store 8 (eni_addr n) w in
      let w := store 14 (le32 (eni_ip n)) w in
      (None, ether_output (on_first (λ _, w) pb) ETHERTYPE_ARP sha n)
    else if oper =? htons 2 then
      let '(l, p) := arp_learn spa sha (eni_nexthops n) in
      let n := set_nexthops l n in
      (Some pb, match p with Some q => ether_output q ETHERTYPE_IPV4 sha n | None => n end)
    else (Some pb, n).

(** [ether_nexthop_periodic]: one entry, [None] when it is destroyed; [in_use] is read
    and changed behind that too. *)
Definition periodic_one (nh : nh_entry) (n : ether) : option nh_entry * ether :=
  let st := u8 (nh_state nh - 1) in
  if st =? 0 then
    let n := match nh_pending nh with Some _ => emit EFreePkt n | None => n end in
    let n := emit (EFreeNh (nh_ip nh)) n in
    (None, emit (EStaleNh (nh_ip nh)) n)
  else
    let n := if ((st <? NEXTHOP_ACTIVE) && negb (nh_in_use nh =? 0))%bool
             then arp_send_who_has (nh_ip nh) n else n in
    let use := if nh_in_use nh =? 0 then 0 else nh_in_use nh - 1 in
    (Some (NhEntry (nh_ip nh) st use (nh_hwaddr nh) (nh_pending nh)), n).

Fixpoint periodic_loop (l : list nh_entry) (n : ether) : list nh_entry * ether :=
  match l with
  | [] => ([], n)
  | nh :: rest =>
      let '(r, n) := periodic_one nh n in
      let '(rest, n) := periodic_loop rest n in
      (match r with Some nh => nh :: rest | None => rest end, n)
  end.
Definition ether_nexthop_periodic (n : ether) : ether :=
  let '(l, n) := periodic_loop (eni_nexthops n) n in set_nexthops l n.

(** [ether_ipv4_output_mcast]; the address is in host order. *)
Definition mcast_mac (a : Z) : list Z := [1; 0; 94; Z.land (Z.shiftr a 16) 127; u8 (Z.shiftr a 8); u8 a].
Definition ether_ipv4_output_mcast (pb : windows) (ipv4_addr : Z) (n : ether) : ether :=
  emit (EFrame (mcast_mac ipv4_addr ++ eni_addr n ++ [8; 0] ++ concat pb)) n.

(** [ether_ipv4_output] to the next hop at position [i] of the list, or to none. *)
Definition ether_ipv4_output (nh : option nat) (pb : windows) (n : ether) : res ether :=
  match nh with
  | None =>
      let dst := htonl (ld32 (first pb) 16) in
      if ((3758096384 <=? dst) && (dst <? 4026531840))%bool then Ret (ether_ipv4_output_mcast pb dst n)
      else Ret (ether_output pb ETHERTYPE_IPV4 ether_bcast n)
  | Some i =>
      match eni_nexthops n !! i with
      | None => Fault OutOfBounds
      | Some nh =>
          let set st p n := set_nexthops (<[i := NhEntry (nh_ip nh) st 5 (nh_hwaddr nh) p]> (eni_nexthops n)) n in
          if nh_state nh <=? NEXTHOP_RESOLVE then
            let '(st, n) :=
              if nh_state nh =? NEXTHOP_IDLE then (NEXTHOP_RESOLVE, arp_send_who_has (nh_ip nh) n)
              else (nh_state nh - 1, n) in
            let n := match nh_pending nh with Some _ => emit EFreePkt n | None => n end in
            Ret (set st (Some pb) n)
          else Ret (ether_output pb ETHERTYPE_IPV4 (nh_hwaddr nh) (set (nh_state nh) (nh_pending nh) n))
      end
  end.

(** What [ether_input] does with a frame: drop it, or hand it on. *)
Inductive eth_disp :=
| EthFree (pb : windows)             (* returned to the caller, who frees it *)
| EthConsumed                        (* turned into the reply *)
| EthIpv4 (pb : windows).            (* to [ipv4_input] *)

(** [ether_input]; [ts] is the time stamp in front of the packet, if any, with its
    callback. *)
Definition ether_input (ptp : bool) (ts : option (option Z)) (pb : windows) (n : ether)
    : eth_disp * ether :=
  match ts with
  | Some (Some cb) => (EthFree pb, emit (ETxTime cb) n)
  | _ =>
      let '(missing, pb) := win_pullup 14 pb in
      if negb (missing =? 0) then (EthFree pb, n)
      else
        let eh := first pb in
        if (negb (bool_decide (take 6 eh = eni_addr n)) && (Z.land (byte_at eh 0) 1 =? 0))%bool
        then (EthFree pb, n)
        else
          let etype := htons (ld16 eh 12) in
          if (ptp && (etype =? ETHERTYPE_PTPv2))%bool then (EthConsumed, emit (EPtp pb) n)
          else
            let pb := win_drop 14 pb in
            if etype =? ETHERTYPE_IPV4 then (EthIpv4 pb, n)
            else if etype =? ETHERTYPE_ARP then
              let '(r, n) := arp_input pb n in
              (match r with Some pb => EthFree pb | None => EthConsumed end, n)
            else (EthFree pb, n)
  end.

(** ** The IPv4 stack on the interface *)

(** [ipv4_nexthop_resolve] as it shows here: the position of the entry, which is made
    ([NEXTHOP_IDLE], address not written) when it is new. *)
Definition nh_find (ip : Z) (l : list nh_entry) : option nat :=
  fst <$> list_find (λ nh, nh_ip nh = ip) l.
Definition nh_resolve (ip : Z) (junk : list Z) (n : ether) : nat * ether :=
  match nh_find ip (eni_nexthops n) with
  | Some i => (i, n)
  | None => (0%nat, set_nexthops (NhEntry ip NEXTHOP_IDLE 0 junk None :: eni_nexthops n) n)
  end.

(** A frame for the stack with a single interface [ni]: through [ether_input],
    [ipv4_input] and, for ICMP, to the reply. *)
Definition ether_stack (junk : list Z) (flags : Z) (frame : windows) (r : routes) (ni : netif) (n : ether)
    : res (ether * routes) :=
  let '(d, n) := ether_input false None frame n in
  match d with
  | EthIpv4 pb =>
      v ← ipv4_input flags pb;
      match v with
      | Deliver proto flags pb =>
          if proto =? IPPROTO_ICMP then
            '(o, r) ← ipv4_input_icmp true r ni flags pb 20;
            match o with
            | Some (nh, pb) =>
                let '(i, n) := nh_resolve (nh_addr nh) junk n in
                n ← ether_ipv4_output (Some i) pb n;
                Ret (n, r)
            | None => Ret (n, r)
            end
          else Ret (n, r)
      | _ => Ret (n, r)
      end
  | _ => Ret (n, r)
  end.

(** * Lemmas *)

Definition is_mac (m : list Z) : Prop := length m = 6%nat ∧ bytes m.

Lemma pullup_one n w : (n <= length w)%nat → win_pullup n [w] = (0, [w]).
Proof. intros H. unfold win_pullup. by rewrite (proj2 (Nat.leb_le _ _)). Qed.

Lemma eth_hdr_length dst src t : is_mac dst → is_mac src → length (eth_hdr dst src t) = 14%nat.
Proof. intros [H1 _] [H2 _]. unfold eth_hdr. rewrite !length_app. cbn. lia. Qed.

Lemma drop_hdr dst src t p : is_mac dst → is_mac src →
  win_drop 14 [eth_hdr dst src t ++ p] = [p].
Proof.
  intros H1 H2. cbn [win_drop]. rewrite drop_app_length' by (by rewrite eth_hdr_length).
  by destruct p.
Qed.

(** The fields of a frame as [ether_input] reads them. *)
Lemma hdr_fields dst src t p : is_mac dst → is_mac src → 0 <= t < 65536 →
  take 6 (eth_hdr dst src t ++ p) = dst ∧ byte_at (eth_hdr dst src t ++ p) 0 = byte_at dst 0 ∧
  htons (ld16 (eth_hdr dst src t ++ p) 12) = t.
Proof.
  intros [H1 B1] [H2 _] Ht. unfold eth_hdr. split_and!.
  - rewrite <- !app_assoc. by rewrite take_app_length'.
  - unfold byte_at. by rewrite <- !app_assoc, lookup_app_l by lia.
  - pose proof (ld16_at (dst ++ src) (u8 (Z.shiftr t 8)) (u8 t) p) as E.
    rewrite length_app, H1, H2 in E. cbn [Nat.add] in E.
    assert ((dst ++ src ++ [u8 (Z.shiftr t 8); u8 t]) ++ p = (dst ++ src) ++ [u8 (Z.shiftr t 8); u8 t] ++ p) as ->
      by (by rewrite <- !app_assoc).
    rewrite E. by apply htons_be16.
Qed.

(** A frame to this interface, or to a group, is handed on by its type. *)
Lemma ether_input_frame dst src t p n :
  is_mac dst → is_mac src → 0 <= t < 65536 →
  dst = eni_addr n ∨ Z.land (byte_at dst 0) 1 ≠ 0 →
  ether_input false None [eth_hdr dst src t ++ p] n =
    if t =? ETHERTYPE_IPV4 then (EthIpv4 [p], n)
    else if t =? ETHERTYPE_ARP then
      let '(r, n) := arp_input [p] n in (match r with Some pb => EthFree pb | None => EthConsumed end, n)
    else (EthFree [p], n).
Proof.
  intros Hd Hs Ht Hto. destruct (hdr_fields dst src t p Hd Hs Ht) as (F1 & F2 & F3).
  unfold ether_input. rewrite pullup_one by (rewrite length_app, eth_hdr_length; [lia|done..]).
  cbn [first negb Z.eqb]. rewrite F1, F2, F3, drop_hdr by done.
  assert ((negb (bool_decide (dst = eni_addr n)) && (Z.land (byte_at dst 0) 1 =? 0))%bool = false) as ->.
  { destruct Hto as [->|Hne]; [by rewrite bool_decide_true|].
    rewrite (proj2 (Z.eqb_neq _ _)) by done. apply andb_false_r. }
  done.
Qed.

(** The fields of an ARP packet. *)
Record arp_fields (w : list Z) (oper : Z) (sha : list Z) (spa : Z) (tpa : Z) : Prop := {
  af_len : (28 <= length w)%nat;
  af_oper : ld16 w 6 = htons oper;
  af_sha : mac_at w 8 = sha;
  af_spa : ld32 w 14 = spa;
  af_tpa : ld32 w 24 = tpa }.

Lemma arp_pkt_fields oper sha spa tha tpa pad :
  is_mac sha → is_mac tha → is_u32 spa → is_u32 tpa →
  arp_fields (arp_pkt oper sha spa tha tpa ++ pad) oper sha spa tpa.
Proof.
  intros [H1 _] [H2 _] Hs Ht. unfold arp_pkt. split.
  - rewrite !length_app. cbn [length be16 le32]. lia.
  - done.
  - unfold mac_at. cbn [app be16 drop]. rewrite <- !app_assoc. by apply take_app_length'.
  - pose proof (ld32_at ([0; 1] ++ be16 ETHERTYPE_IPV4 ++ [6; 4] ++ be16 oper ++ sha) spa (tha ++ le32 tpa ++ pad) Hs) as E.
    rewrite !length_app, H1 in E. cbn [length be16] in E. repeat rewrite <- app_assoc in E. repeat rewrite <- app_assoc. exact E.
  - pose proof (ld32_at ([0; 1] ++ be16 ETHERTYPE_IPV4 ++ [6; 4] ++ be16 oper ++ sha ++ le32 spa ++ tha) tpa pad Ht) as E.
    rewrite !length_app, H1, H2 in E. cbn [length be16 le32] in E. repeat rewrite <- app_assoc in E. repeat rewrite <- app_assoc. exact E.
Qed.

(** A request for our address becomes the reply: the same packet with the parties
    exchanged. *)
Lemma arp_answer sha spa tha pad n :
  is_mac sha → is_mac tha → is_mac (eni_addr n) → is_u32 spa → is_u32 (eni_ip n) →
  arp_input [arp_pkt 1 sha spa tha (eni_ip n) ++ pad] n =
  (None, ether_output [arp_pkt 2 (eni_addr n) (eni_ip n) sha spa ++ pad] ETHERTYPE_ARP sha n).
Proof.
  intros Hsha Htha Hme Hspa Hip.
  destruct (arp_pkt_fields 1 sha spa tha (eni_ip n) pad Hsha Htha Hspa Hip) as [F1 F2 F3 F4 F5].
  unfold arp_input. rewrite pullup_one by done. cbn [first negb Z.eqb on_first]. rewrite F2, F3, F4, F5, !Z.eqb_refl.
  cbn [andb]. do 2 f_equal. unfold arp_pkt.
  destruct Hsha as [Ls _], Htha as [Lt _], Hme as [Lm _].
  do 7 (destruct sha as [|? sha]; cbn in Ls; try lia).
  do 7 (destruct tha as [|? tha]; cbn in Lt; try lia).
  destruct n as [me ip l o bf]. cbn [eni_addr eni_ip] in *. do 7 (destruct me as [|? me]; cbn in Lm; try lia).
  reflexivity.
Qed.

Lemma arp_learn_spec spa sha l : NoDup (nh_ip <$> l) →
  arp_learn spa sha l =
    ((λ nh, if nh_ip nh =? spa then NhEntry (nh_ip nh) 255 (nh_in_use nh) sha None else nh) <$> l,
     list_find (λ nh, nh_ip nh = spa) l ≫= λ p, nh_pending p.2).
Proof.
  induction l as [|nh l IH]; [done|]. rewrite fmap_cons. intros [Hni Hnd]%NoDup_cons.
  cbn [arp_learn list_find]. rewrite fmap_cons. destruct (Z.eqb_spec (nh_ip nh) spa) as [E|E].
  - rewrite decide_True by done. cbn [mbind option_bind snd].
    assert ((λ nh, if nh_ip nh =? spa then NhEntry (nh_ip nh) 255 (nh_in_use nh) sha None else nh) <$> l = l) as El.
    { clear -Hni E. induction l as [|x l IH]; [done|]. rewrite fmap_cons. rewrite IH by set_solver.
      destruct (Z.eqb_spec (nh_ip x) spa); [|done]. exfalso. apply Hni. set_solver. }
    destruct (nh_pending nh) as [pb|]; [by rewrite El|]. rewrite (IH Hnd), El.
    destruct (list_find _ l) as [[i x]|] eqn:Ef; [|done]. exfalso.
    apply list_find_Some in Ef as (E1 & E2 & _). apply Hni. apply list_elem_of_fmap.
    exists x. split; [congruence|by eapply list_elem_of_lookup_2].
  - rewrite decide_False by done. rewrite (IH Hnd). by destruct (list_find _ l) as [[i x]|].
Qed.

Lemma set_nexthops_emit l e n : set_nexthops l (emit e n) = emit e (set_nexthops l n).
Proof. done. Qed.

(** *** Runs of an interface *)

(** The sender and its address, when a packet is an ARP reply. *)
Definition reply_of (pb : windows) : option (Z * list Z) :=
  let '(missing, pb) := win_pullup 28 pb in
  if negb (missing =? 0) then None
  else if ld16 (first pb) 6 =? htons 2 then Some (ld32 (first pb) 14, mac_at (first pb) 8) else None.

Definition learn (pb : windows) (L : gmap Z (list Z)) : gmap Z (list Z) :=
  match reply_of pb with Some (spa, sha) => <[spa := sha]> L | None => L end.

(** Packets out, ARP packets in, seconds passing and new next hops, in any order; [L] is
    what the last reply from each address said.  Seconds pass only while no entry is in
    [NEXTHOP_IDLE]. *)
Inductive arp_step : ether * gmap Z (list Z) → ether * gmap Z (list Z) → Prop :=
| arp_out nh pb n n' L : ether_ipv4_output nh pb n = Ret n' → arp_step (n, L) (n', L)
| arp_in pb n r n' L : arp_input pb n = (r, n') → arp_step (n, L) (n', learn pb L)
| arp_tick n L : Forall (λ nh, nh_state nh ≠ NEXTHOP_IDLE) (eni_nexthops n) →
    arp_step (n, L) (ether_nexthop_periodic n, L)
| arp_new ip junk n i n' L : nh_resolve ip junk n = (i, n') → arp_step (n, L) (n', L).

(** Above [NEXTHOP_RESOLVE] the hardware address is the one of the last reply. *)
Definition nh_sound (L : gmap Z (list Z)) (nh : nh_entry) : Prop :=
  0 <= nh_state nh < 256 ∧ (NEXTHOP_RESOLVE < nh_state nh → L !! nh_ip nh = Some (nh_hwaddr nh)).
Definition arp_inv (s : ether * gmap Z (list Z)) : Prop :=
  NoDup (nh_ip <$> eni_nexthops s.1) ∧ Forall (nh_sound s.2) (eni_nexthops s.1).

Lemma who_has_frame addr n :
  eni_nexthops (arp_send_who_has addr n) = eni_nexthops n ∧ eni_addr (arp_send_who_has addr n) = eni_addr n ∧
  eni_ip (arp_send_who_has addr n) = eni_ip n.
Proof.
  unfold arp_send_who_has, next_buf. destruct (eni_bufs n) as [|[|] bs]; done.
Qed.

Lemma periodic_one_nexthops nh n :
  eni_nexthops (periodic_one nh n).2 = eni_nexthops n.
Proof.
  unfold periodic_one. case_match; cbn; [by destruct (nh_pending nh)|].
  case_match; [apply who_has_frame|done].
Qed.

(** What a second leaves of the list. *)
Definition ticked (nh : nh_entry) : option nh_entry :=
  if u8 (nh_state nh - 1) =? 0 then None
  else Some (NhEntry (nh_ip nh) (u8 (nh_state nh - 1))
               (if nh_in_use nh =? 0 then 0 else nh_in_use nh - 1) (nh_hwaddr nh) (nh_pending nh)).

Lemma periodic_loop_fst l : ∀ n, (periodic_loop l n).1 = omap ticked l.
Proof.
  induction l as [|nh l IH]; intros n; cbn [periodic_loop]; [done|].
  destruct (periodic_one nh n) as [r n1] eqn:E. specialize (IH n1).
  destruct (periodic_loop l n1) as [rest n2]. cbn [fst] in *. subst rest.
  assert (r = ticked nh) as ->.
  { unfold periodic_one in E. unfold ticked. case_match; injection E as <- <-; done. }
  cbn [omap list_omap]. by destruct (ticked nh).
Qed.

Lemma periodic_nexthops n : eni_nexthops (ether_nexthop_periodic n) = omap ticked (eni_nexthops n).
Proof.
  unfold ether_nexthop_periodic. pose proof (periodic_loop_fst (eni_nexthops n) n) as E.
  by destruct (periodic_loop (eni_nexthops n) n).
Qed.

Lemma omap_ticked_ips l : sublist (nh_ip <$> omap ticked l) (nh_ip <$> l).
Proof.
  induction l as [|nh l IH]; [done|]. cbn [omap list_omap]. rewrite fmap_cons.
  destruct (ticked nh) as [x|] eqn:E; [|by constructor]. rewrite fmap_cons.
  assert (nh_ip x = nh_ip nh) as -> by (unfold ticked in E; case_match; by simplify_eq/=). by constructor.
Qed.

(** A packet to a next hop: kept back while it is not resolved, sent otherwise. *)
Lemma ipv4_output_cases i pb n nh : eni_nexthops n !! i = Some nh → 0 <= nh_state nh →
  ∃ n', ether_ipv4_output (Some i) pb n = Ret n' ∧ eni_addr n' = eni_addr n ∧
  ((nh_state nh <= NEXTHOP_RESOLVE ∧ ∃ st, 0 <= st <= NEXTHOP_RESOLVE ∧
      eni_nexthops n' = <[i := NhEntry (nh_ip nh) st 5 (nh_hwaddr nh) (Some pb)]> (eni_nexthops n)) ∨
   (NEXTHOP_RESOLVE < nh_state nh ∧
      eni_nexthops n' = <[i := NhEntry (nh_ip nh) (nh_state nh) 5 (nh_hwaddr nh) (nh_pending nh)]> (eni_nexthops n) ∧
      eni_out n' = eni_out n ++ [EFrame (eth_hdr (nh_hwaddr nh) (eni_addr n) ETHERTYPE_IPV4 ++ concat pb)])).
Proof.
  intros Hi H0. unfold ether_ipv4_output. rewrite Hi. unfold NEXTHOP_RESOLVE, NEXTHOP_IDLE.
  destruct (Z.leb_spec (nh_state nh) 5) as [Hle|Hgt].
  - destruct (Z.eqb_spec (nh_state nh) 0) as [E|E].
    + eexists. split; [reflexivity|]. pose proof (who_has_frame (nh_ip nh) n) as (W1 & W2 & W3). split.
      * by destruct (nh_pending nh).
      * left. split; [done|]. exists 5. split; [lia|]. destruct (nh_pending nh); cbn; by rewrite W1.
    + eexists. split; [reflexivity|]. split; [by destruct (nh_pending nh)|]. left. split; [done|].
      exists (nh_state nh - 1). split; [lia|]. by destruct (nh_pending nh).
  - eexists. split; [reflexivity|]. split; [done|]. right. done.
Qed.

Lemma inv_out nh pb n n' L : arp_inv (n, L) → ether_ipv4_output nh pb n = Ret n' → arp_inv (n', L).
Proof.
  intros [Hnd Hs] Ho. cbn [fst snd] in *.
  destruct nh as [i|].
  - destruct (eni_nexthops n !! i) as [nh|] eqn:Ei; [|unfold ether_ipv4_output in Ho; by rewrite Ei in Ho].
    pose proof (Forall_lookup_1 _ _ _ _ Hs Ei) as Hnh.
    destruct (ipv4_output_cases i pb n nh Ei ltac:(apply Hnh)) as (n2 & E & _ & Hc). rewrite E in Ho. injection Ho as ->.
    assert (∃ st p, eni_nexthops n' = <[i := NhEntry (nh_ip nh) st 5 (nh_hwaddr nh) p]> (eni_nexthops n) ∧
      nh_sound L (NhEntry (nh_ip nh) st 5 (nh_hwaddr nh) p)) as (st & p & El & Hsd).
    { unfold nh_sound, NEXTHOP_RESOLVE in *. cbn [nh_state nh_ip nh_hwaddr].
      destruct Hc as [(Hle & st & Hst & El)|(Hgt & El & _)]; [exists st, (Some pb)|exists (nh_state nh), (nh_pending nh)];
        (split; [done|]); [split; lia|exact Hnh]. }
    split; cbn [fst snd]; rewrite El.
    + assert (nh_ip <$> <[i := NhEntry (nh_ip nh) st 5 (nh_hwaddr nh) p]> (eni_nexthops n) = nh_ip <$> eni_nexthops n) as ->; [|done].
      rewrite list_fmap_insert. cbn. apply list_insert_id. by rewrite list_lookup_fmap, Ei.
    + apply Forall_insert; done.
  - unfold ether_ipv4_output in Ho. case_match; injection Ho as <-; done.
Qed.

Lemma inv_in pb n r n' L : arp_inv (n, L) → arp_input pb n = (r, n') → arp_inv (n', learn pb L).
Proof.
  intros [Hnd Hs] Ha. cbn [fst snd] in *.
  unfold arp_input in Ha. unfold arp_inv, learn, reply_of. cbn [fst snd].
  destruct (win_pullup 28 pb) as [missing pb']. destruct (Z.eqb_spec missing 0); cbn [negb] in *;
    [|by injection Ha as <- <-].
  destruct (Z.eqb_spec (ld16 (first pb') 6) (htons 1)) as [E1|E1]; cbn [andb] in Ha.
  - rewrite E1 in *. change (htons 1 =? htons 2) with false in *. cbv iota in Ha |- *.
    case_match; injection Ha as <- <-; done.
  - destruct (Z.eqb_spec (ld16 (first pb') 6) (htons 2)) as [E2|E2]; [|by injection Ha as <- <-].
    rewrite arp_learn_spec in Ha by done. cbv iota zeta in Ha. set (spa := ld32 _ 14) in *. set (sha := mac_at _ 8) in *.
    assert (eni_nexthops n' = (λ nh, if nh_ip nh =? spa then NhEntry (nh_ip nh) 255 (nh_in_use nh) sha None else nh)
      <$> eni_nexthops n) as ->.
    { injection Ha as _ <-. by case_match. }
    split.
    + rewrite <- list_fmap_compose. erewrite list_fmap_ext; [exact Hnd|]. intros k x _. unfold compose. by destruct (nh_ip x =? spa).
    + apply Forall_fmap. eapply Forall_impl; [exact Hs|]. intros x [Hx1 Hx2]. unfold compose, nh_sound.
      destruct (Z.eqb_spec (nh_ip x) spa) as [E|E]; cbn [nh_state nh_ip nh_hwaddr].
      * split; [lia|]. intros _. rewrite E. apply lookup_insert_eq.
      * split; [done|]. intros H. rewrite lookup_insert_ne by done. by apply Hx2.
Qed.

Lemma inv_tick n L : arp_inv (n, L) → Forall (λ nh, nh_state nh ≠ NEXTHOP_IDLE) (eni_nexthops n) →
  arp_inv (ether_nexthop_periodic n, L).
Proof.
  intros [Hnd Hs] Hi. cbn [fst snd] in *.
  unfold arp_inv. cbn [fst snd]. rewrite periodic_nexthops. split.
  - eapply sublist_NoDup; [exact Hnd|apply omap_ticked_ips].
  - apply Forall_forall. intros x Hx. apply list_elem_of_omap in Hx as (y & Hy & Ht).
    rewrite Forall_forall in Hs, Hi. pose proof (Hs y Hy) as [S1 S2]. pose proof (Hi y Hy) as Hne.
    unfold ticked in Ht. unfold NEXTHOP_IDLE in Hne. rewrite u8_id in Ht by (unfold is_byte; lia).
    case_match; [done|]. injection Ht as <-. unfold nh_sound, NEXTHOP_RESOLVE in *. cbn [nh_state nh_ip nh_hwaddr].
    split; [lia|]. intros ?. apply S2. lia.
Qed.

Lemma inv_new ip junk n i n' L : arp_inv (n, L) → nh_resolve ip junk n = (i, n') → arp_inv (n', L).
Proof.
  intros [Hnd Hs] Hr. cbn [fst snd] in *.
  unfold nh_resolve in Hr. destruct (nh_find ip (eni_nexthops n)) as [j|] eqn:Ef; injection Hr as <- <-; [done|].
  split; cbn.
  - apply NoDup_cons. split; [|done]. intros (x & Ex & Hx)%list_elem_of_fmap. unfold nh_find in Ef.
    destruct (list_find (λ nh, nh_ip nh = ip) (eni_nexthops n)) as [[? ?]|] eqn:El; [done|].
    apply list_find_None in El. rewrite Forall_forall in El. by apply (El x Hx).
  - constructor; [|done]. unfold nh_sound, NEXTHOP_RESOLVE, NEXTHOP_IDLE. cbn. lia.
Qed.

Lemma arp_step_inv s s' : arp_inv s → arp_step s s' → arp_inv s'.
Proof.
  intros H Hs. destruct Hs; [by eapply inv_out|by eapply inv_in|by apply inv_tick|by eapply inv_new].
Qed.

(** Asking, answering and learning, frame by frame. *)
Lemma idle_output i pb n ip use junk :
  eni_nexthops n !! i = Some (NhEntry ip NEXTHOP_IDLE use junk None) → hd true (eni_bufs n) = true →
  ∃ n', ether_ipv4_output (Some i) pb n = Ret n' ∧
    eni_out n' = eni_out n ++ [EFrame (eth_hdr ether_bcast (eni_addr n) ETHERTYPE_ARP ++
                                 arp_pkt 1 (eni_addr n) (eni_ip n) (replicate 6 0) ip)] ∧
    eni_nexthops n' = <[i := NhEntry ip NEXTHOP_RESOLVE 5 junk (Some pb)]> (eni_nexthops n) ∧
    eni_addr n' = eni_addr n ∧ eni_ip n' = eni_ip n.
Proof.
  intros Hi Hbuf. unfold ether_ipv4_output. rewrite Hi. unfold arp_send_who_has, next_buf.
  destruct n as [am ai al ao [|[|] ab]]; [| |done];
    (eexists; split; [reflexivity|]; cbn; by rewrite app_nil_r).
Qed.

Lemma bcast_mac : is_mac ether_bcast ∧ is_mac (replicate 6 0).
Proof. by split; (split; [done|]); apply Forall_replicate; unfold is_byte. Qed.

Lemma request_answered mac ip pad n :
  is_mac mac → is_mac (eni_addr n) → is_u32 ip → is_u32 (eni_ip n) →
  ether_input false None
    [eth_hdr ether_bcast mac ETHERTYPE_ARP ++ arp_pkt 1 mac ip (replicate 6 0) (eni_ip n) ++ pad] n =
  (EthConsumed,
   emit (EFrame (eth_hdr mac (eni_addr n) ETHERTYPE_ARP ++
                 arp_pkt 2 (eni_addr n) (eni_ip n) mac ip ++ pad)) n).
Proof.
  intros Hm Hn Hip Hnip. destruct bcast_mac as [Mb M0].
  rewrite ether_input_frame by (done || (right; by vm_compute)).
  change (ETHERTYPE_ARP =? ETHERTYPE_IPV4) with false. change (ETHERTYPE_ARP =? ETHERTYPE_ARP) with true.
  cbv iota. rewrite arp_answer by done. cbv iota. unfold ether_output. cbn [concat]. by rewrite app_nil_r.
Qed.

Lemma reply_learned mac ip tpa pad n i st use junk pb :
  is_mac mac → is_mac (eni_addr n) → is_u32 ip → is_u32 tpa → NoDup (nh_ip <$> eni_nexthops n) →
  eni_nexthops n !! i = Some (NhEntry ip st use junk (Some pb)) →
  ∃ d n', ether_input false None
      [eth_hdr (eni_addr n) mac ETHERTYPE_ARP ++ arp_pkt 2 mac ip (eni_addr n) tpa ++ pad] n = (d, n') ∧
    eni_nexthops n' !! i = Some (NhEntry ip 255 use mac None) ∧
    eni_out n' = eni_out n ++ [EFrame (eth_hdr mac (eni_addr n) ETHERTYPE_IPV4 ++ concat pb)].
Proof.
  intros Hm Hn Hip Htpa Hnd Hi. rewrite ether_input_frame by auto || done.
  change (ETHERTYPE_ARP =? ETHERTYPE_IPV4) with false. change (ETHERTYPE_ARP =? ETHERTYPE_ARP) with true.
  cbv iota. unfold arp_input. destruct (arp_pkt_fields 2 mac ip (eni_addr n) tpa pad Hm Hn Hip Htpa) as [F1 F2 F3 F4 F5].
  rewrite pullup_one by done. cbn [first negb Z.eqb]. rewrite F2, F3, F4.
  change (htons 2 =? htons 1) with false. rewrite Z.eqb_refl. cbn [andb]. rewrite arp_learn_spec by done.
  assert (list_find (λ nh, nh_ip nh = ip) (eni_nexthops n) = Some (i, NhEntry ip st use junk (Some pb))) as ->.
  { apply list_find_Some. split_and!; [done|done|]. intros k y Hk Hlt Ey.
    assert (k = i); [|lia]. apply (NoDup_lookup _ k i ip Hnd); rewrite list_lookup_fmap; [rewrite Hk|rewrite Hi]; cbn; congruence. }
  cbn [mbind option_bind snd nh_pending]. eexists _, _. split; [reflexivity|].
  cbn [ether_output emit eni_nexthops set_nexthops eni_out eni_addr]. split; [|done].
  rewrite list_lookup_fmap, Hi. cbn. by rewrite Z.eqb_refl.
Qed.

(** ** Properties *)

(** Two hosts find each other: a packet for a next hop that is not known makes the
    sender ask for its address; the frame, however padded, makes the other host answer;
    the answer makes the sender record the hardware address and send the packet it kept
    to it, and the other host hands exactly that packet to IPv4. *)
Theorem arp_resolution a b i use junk pb pad1 pad2 :
  is_mac (eni_addr a) → is_mac (eni_addr b) → is_u32 (eni_ip a) → is_u32 (eni_ip b) →
  NoDup (nh_ip <$> eni_nexthops a) →
  eni_nexthops a !! i = Some (NhEntry (eni_ip b) NEXTHOP_IDLE use junk None) →
  hd true (eni_bufs a) = true →
  ∃ who reply a1 b1 d a2,
    ether_ipv4_output (Some i) pb a = Ret a1 ∧ eni_out a1 = eni_out a ++ [EFrame who] ∧
    ether_input false None [who ++ pad1] b = (EthConsumed, b1) ∧
    eni_out b1 = eni_out b ++ [EFrame reply] ∧
    ether_input false None [reply ++ pad2] a1 = (d, a2) ∧
    eni_nexthops a2 !! i = Some (NhEntry (eni_ip b) 255 5 (eni_addr b) None) ∧
    let f := eth_hdr (eni_addr b) (eni_addr a) ETHERTYPE_IPV4 ++ concat pb in
    eni_out a2 = eni_out a1 ++ [EFrame f] ∧
    ether_input false None [f] b1 = (EthIpv4 [concat pb], b1).
Proof.
  intros Ma Mb Ia Ib Hnd Hi Hbuf.
  destruct (idle_output i pb a _ _ _ Hi Hbuf) as (a1 & E1 & O1 & N1 & A1 & I1).
  assert (i < length (eni_nexthops a))%nat as Hlt by (by eapply lookup_lt_Some).
  destruct (reply_learned (eni_addr b) (eni_ip b) (eni_ip a) (pad1 ++ pad2) a1 i NEXTHOP_RESOLVE 5 junk pb)
    as (d & a2 & E2 & N2 & O2); try (by rewrite ?A1).
  { rewrite N1, list_fmap_insert. cbn. rewrite list_insert_id; [done|]. by rewrite list_lookup_fmap, Hi. }
  { by rewrite N1, list_lookup_insert_eq. }
  rewrite A1 in E2, O2.
  eexists _, (eth_hdr (eni_addr a) (eni_addr b) ETHERTYPE_ARP ++ arp_pkt 2 (eni_addr b) (eni_ip b) (eni_addr a) (eni_ip a) ++ pad1),
    a1, _, d, a2.
  split; [done|]. split; [done|]. split.
  { rewrite <- app_assoc. by apply request_answered. }
  split; [done|]. split; [by rewrite <- !app_assoc|]. split; [done|]. split; [done|].
  by rewrite ether_input_frame by auto || done.
Qed.

(** Packets go where the last answer said: in every run in which no second passes
    while a next hop is idle, a packet for a next hop is either kept until its address
    is known, or sent to the hardware address of the last ARP reply from that next hop. *)
Theorem arp_sends_to_learned s n L i nh pb :
  arp_inv s → rtc arp_step s (n, L) → eni_nexthops n !! i = Some nh →
  ∃ n', ether_ipv4_output (Some i) pb n = Ret n' ∧
    ((nh_state nh <= NEXTHOP_RESOLVE ∧
      ∃ st, eni_nexthops n' !! i = Some (NhEntry (nh_ip nh) st 5 (nh_hwaddr nh) (Some pb))) ∨
     (∃ mac, L !! nh_ip nh = Some mac ∧
        eni_out n' = eni_out n ++ [EFrame (eth_hdr mac (eni_addr n) ETHERTYPE_IPV4 ++ concat pb)])).
Proof.
  intros Hinv Hr Hi. assert (arp_inv (n, L)) as [_ Hs].
  { remember (n, L) as t eqn:Et. clear Et Hi. induction Hr as [|? ? ? Hst _ IH]; [done|].
    apply IH. by eapply arp_step_inv. }
  cbn in Hs. pose proof (Forall_lookup_1 _ _ _ _ Hs Hi) as [S1 S2].
  destruct (ipv4_output_cases i pb n nh Hi ltac:(lia)) as (n' & E & _ & Hc). exists n'. split; [done|].
  destruct Hc as [(Hle & st & Hst & El)|(Hgt & El & Eo)].
  - left. split; [done|]. exists st. rewrite El. apply list_lookup_insert_eq. by eapply lookup_lt_Some.
  - right. exists (nh_hwaddr nh). split; [by apply S2|done].
Qed.

(** A whole ICMP packet for this host in one buffer is delivered as it is. *)
Lemma icmp_delivered p :
  bytes p → ip_header_ok p → ip_total_length p = Z.of_nat (length p) → byte_at p 9 = IPPROTO_ICMP →
  oc (wsum (take 20 p)) = 65535 → Z.land (ld32 p 16) (htonl 4026531840) ≠ htonl 3758096384 →
  ipv4_input 0 [p] = Ret (Deliver IPPROTO_ICMP (if ld32 p 16 =? 4294967295 then PBUF_BCAST else 0) [p]).
Proof.
  intros Hb (K1 & K2 & K3 & K4) Htl Hproto Hck Hmc. unfold ipv4_input. rewrite pullup_one by lia.
  cbn [first negb Z.eqb]. rewrite K1, K2. change (69 =? 69) with true. cbn [negb].
  change (has 0 PBUF_CKSUM_OK) with false. rewrite cksum_header by (lia || done). rewrite Hck.
  cbn [mbind res_bind]. change (65535 - 65535 =? 0) with true. change (0 =? 0) with true. cbn [negb].
  unfold pktlen. cbn [concat]. rewrite app_nil_r. fold (ip_total_length p). rewrite Htl, Z.ltb_irrefl.
  rewrite (proj2 (Z.eqb_neq _ _) Hmc), Hproto. by destruct (ld32 p 16 =? 4294967295).
Qed.

(** A ping is answered on the wire: a frame for this host with an ICMP echo request in
    a well-formed IPv4 packet from a neighbour whose hardware address is known makes the
    host send exactly one frame, to that neighbour, with the reply: addresses exchanged,
    the request's data, both checksums right. *)
Theorem ping_answered junk src p r ni n i nh r' out st use mac pend :
  is_mac src → is_mac (eni_addr n) → is_mac mac →
  bytes p → (24 <= length p)%nat → Z.of_nat (length p) < 65536 →
  ip_header_ok p → ip_total_length p = Z.of_nat (length p) → byte_at p 9 = IPPROTO_ICMP →
  oc (wsum (take 20 p)) = 65535 → byte_at p 20 = 8 →
  ipv4_cksum_pbuf 0 [p] 20 INT32_MAX = Ret 0 →
  Z.land (ld32 p 16) (htonl 4026531840) ≠ htonl 3758096384 →
  ni_ipv4_local_addr ni ≠ 0 → is_u32 (ni_ipv4_local_addr ni) →
  ipv4_nexthop_resolve true r (ld32 p 12) = (Some nh, r') → netifs r' !! nh_netif nh = Some out →
  has (ni_flags out) NETIF_F_TX_ICMP_CKSUM_OFFLOAD = false →
  has (ni_flags out) NETIF_F_TX_IPV4_CKSUM_OFFLOAD = false →
  nh_find (nh_addr nh) (eni_nexthops n) = Some i →
  eni_nexthops n !! i = Some (NhEntry (nh_addr nh) st use mac pend) → NEXTHOP_RESOLVE < st →
  ∃ n' q, ether_stack junk 0 [eth_hdr (eni_addr n) src ETHERTYPE_IPV4 ++ p] r ni n = Ret (n', r') ∧
    eni_out n' = eni_out n ++ [EFrame (eth_hdr mac (eni_addr n) ETHERTYPE_IPV4 ++ q)] ∧
    length q = length p ∧ ld32 q 16 = ld32 p 12 ∧ ld32 q 12 = ni_ipv4_local_addr ni ∧
    byte_at q 20 = 0 ∧ drop 24 q = drop 24 p ∧
    ipv4_cksum_pbuf 0 [q] 0 20 = Ret 0 ∧ ipv4_cksum_pbuf 0 [q] 20 INT32_MAX = Ret 0.
Proof.
  intros Hsrc Hme Hmac Hb Hlen Hsmall Hok Htl Hproto Hck Htype Hick Hmc Hla Hlau Hres Hni Hf1 Hf2 Hfind Hi Hst.
  unfold ether_stack. rewrite ether_input_frame by auto || done.
  change (ETHERTYPE_IPV4 =? ETHERTYPE_IPV4) with true. cbv iota.
  rewrite icmp_delivered by done. cbn [mbind res_bind].
  change (IPPROTO_ICMP =? IPPROTO_ICMP) with true. cbv iota. unfold ipv4_input_icmp.
  rewrite (proj2 (Z.eqb_neq _ _) Hla).
  assert (has (if ld32 p 16 =? 4294967295 then PBUF_BCAST else 0) PBUF_MCAST = false) as -> by (by case_match).
  rewrite Hick. cbn [mbind res_bind negb Z.eqb]. change (Z.to_nat 20 + 4)%nat with 24%nat.
  rewrite pullup_one by done. cbn [negb Z.eqb first]. change (Z.to_nat 20) with 20%nat. rewrite Htype.
  change (8 =? 8) with true. cbv iota.
  destruct (icmp_echo_ok true r ni p [] nh r' out) as (w & -> & W1 & W2 & W3 & W4 & W5 & W6 & W7 & W8); try done.
  { cbn [concat]. by rewrite app_nil_r. } { unfold small. cbn [concat]. by rewrite app_nil_r. } { constructor. }
  cbn [mbind res_bind]. unfold nh_resolve. rewrite Hfind.
  destruct (ipv4_output_cases i [w] n _ Hi) as (n' & -> & _ & Hc); [unfold NEXTHOP_RESOLVE in Hst; cbn; lia|].
  destruct Hc as [[Hle _]|(_ & _ & Eo)]; [cbn in Hle; lia|]. cbn [mbind res_bind].
  exists n', w. split; [done|]. cbn [nh_hwaddr concat] in Eo. rewrite app_nil_r in Eo. done.
Qed.

(** ** Behaviour the code does not mean to have *)

(** The countdown of a next hop that was asked, packet by packet. *)
Lemma countdown_step mac myip ip junk st use pend out bufs p :
  0 < st <= NEXTHOP_RESOLVE →
  ∃ out', ether_ipv4_output (Some 0%nat) p (Ether mac myip [NhEntry ip st use junk pend] out bufs) =
    Ret (Ether mac myip [NhEntry ip (st - 1) 5 junk (Some p)] out' bufs).
Proof.
  unfold NEXTHOP_RESOLVE. intros Hst. unfold ether_ipv4_output.
  cbn [eni_nexthops lookup list_lookup nh_state nh_ip nh_hwaddr nh_pending].
  unfold NEXTHOP_RESOLVE, NEXTHOP_IDLE. rewrite (proj2 (Z.leb_le _ _)), (proj2 (Z.eqb_neq _ _)) by lia.
  destruct pend; by eexists.
Qed.

(** [k] packets to the first next hop. *)
Fixpoint outputs (k : nat) (p : windows) (n : ether) : res ether :=
  match k with
  | O => Ret n
  | S k => n ← ether_ipv4_output (Some 0%nat) p n; outputs k p n
  end.

Lemma outputs_S k p n n' : ether_ipv4_output (Some 0%nat) p n = Ret n' → outputs (S k) p n = outputs k p n'.
Proof. intros E. cbn [outputs]. by rewrite E. Qed.

Lemma countdown mac myip ip junk p k : ∀ use pend out,
  (k <= 5)%nat → ∃ out' use' pend', outputs k p (Ether mac myip [NhEntry ip (Z.of_nat k) use junk pend] out []) =
    Ret (Ether mac myip [NhEntry ip 0 use' junk pend'] out' []).
Proof.
  induction k as [|k IH]; intros use pend out Hk; [by eexists _, _, _|].
  destruct (countdown_step mac myip ip junk (Z.of_nat (S k)) use pend out [] p) as [o E];
    [unfold NEXTHOP_RESOLVE; lia|].
  rewrite (outputs_S k p _ _ E). replace (Z.of_nat (S k) - 1) with (Z.of_nat k) by lia.
  apply IH. lia.
Qed.

(** A next hop that does not answer is taken for resolved: the countdown of an
    unresolved entry runs on with every packet, and once it has reached idle the next
    second takes it from 0 to 255.  From then on packets go to a hardware address that
    nothing has written: here after six packets and a second without an answer. *)
Theorem arp_unanswered_goes_astray mac myip ip junk out p :
  let n0 := Ether mac myip [NhEntry ip NEXTHOP_IDLE 0 junk None] out [] in
  ∃ n6 n', outputs 6 p n0 = Ret n6 ∧
    ether_ipv4_output (Some 0%nat) p (ether_nexthop_periodic n6) = Ret n' ∧
    last (eni_out n') = Some (EFrame (eth_hdr junk mac ETHERTYPE_IPV4 ++ concat p)).
Proof.
  intros n0. assert (∃ out1, ether_ipv4_output (Some 0%nat) p n0 =
    Ret (Ether mac myip [NhEntry ip (Z.of_nat 5) 5 junk (Some p)] out1 [])) as [out1 E0] by (by eexists).
  rewrite (outputs_S 5 p _ _ E0).
  destruct (countdown mac myip ip junk p 5 5 (Some p) out1) as (o & u & q & ->); [lia|].
  assert (∃ u', ether_nexthop_periodic (Ether mac myip [NhEntry ip 0 u junk q] o []) =
    Ether mac myip [NhEntry ip 255 u' junk q] o []) as [u' E7] by (by eexists).
  eexists _, _. split; [reflexivity|]. rewrite E7. split; [reflexivity|].
  cbn [ether_output emit eni_out]. by rewrite last_snoc.
Qed.

Lemma periodic_one_out nh n : ∃ o, eni_out (periodic_one nh n).2 = eni_out n ++ o.
Proof.
  unfold periodic_one. case_match; cbn [snd].
  - destruct (nh_pending nh); cbn [emit eni_out]; rewrite <- !app_assoc; eauto.
  - case_match; [|exists []; by rewrite app_nil_r]. unfold arp_send_who_has, next_buf.
    destruct (eni_bufs n) as [|[|] bs]; cbn; try (by eexists); exists []; by rewrite app_nil_r.
Qed.

Lemma periodic_loop_out l : ∀ n, ∃ o, eni_out (periodic_loop l n).2 = eni_out n ++ o.
Proof.
  induction l as [|nh l IH]; intros n; cbn [periodic_loop]; [exists []; by rewrite app_nil_r|].
  destruct (periodic_one_out nh n) as [o Ho]. destruct (periodic_one nh n) as [r n1]. cbn [snd] in Ho.
  destruct (IH n1) as [o' Ho']. destruct (periodic_loop l n1) as [rest n2]. cbn [snd] in *.
  exists (o ++ o'). by rewrite Ho', Ho, app_assoc.
Qed.

(** A next hop that runs out is freed and then read: its use counter is looked at, and
    counted down, behind [free]. *)
Theorem nexthop_read_after_free n l1 nh l2 :
  eni_nexthops n = l1 ++ nh :: l2 → nh_state nh = 1 →
  ∃ o1 o2, eni_out (ether_nexthop_periodic n) = o1 ++ [EFreeNh (nh_ip nh); EStaleNh (nh_ip nh)] ++ o2.
Proof.
  intros E Hs. unfold ether_nexthop_periodic. rewrite E. clear E.
  assert (∀ m, ∃ o1 o2, eni_out (periodic_loop (l1 ++ nh :: l2) m).2 =
    o1 ++ [EFreeNh (nh_ip nh); EStaleNh (nh_ip nh)] ++ o2) as H.
  { induction l1 as [|x l1 IH]; intros m; cbn [app periodic_loop].
    - unfold periodic_one. rewrite Hs. change (u8 (1 - 1) =? 0) with true. cbv iota.
      set (m0 := match nh_pending nh with Some _ => _ | None => _ end). set (m1 := emit (EStaleNh _) _).
      destruct (periodic_loop_out l2 m1) as [o Ho].
      destruct (periodic_loop l2 m1) as [rest m2]. cbn [snd] in *. exists (eni_out m0), o.
      rewrite Ho. unfold m1. cbn [emit eni_out]. by rewrite <- !app_assoc.
    - destruct (periodic_one x m) as [r m1]. destruct (IH m1) as (o1 & o2 & Ho).
      destruct (periodic_loop (l1 ++ nh :: l2) m1) as [rest m2]. cbn [snd] in *. by exists o1, o2. }
  specialize (H n). by destruct (periodic_loop (l1 ++ nh :: l2) n).
Qed.

(** ** Witnesses *)

Definition ex_a : ether := Ether [2; 0; 0; 0; 0; 1] 16777226 [NhEntry 33554442 0 0 [0; 0; 0; 0; 0; 0] None] [] [].
Definition ex_b : ether := Ether [2; 0; 0; 0; 0; 2] 33554442 [] [] [].
Definition ex_pkt : windows := [[69; 0; 0; 20]; [1; 2; 3]].

Lemma arp_resolution_witness :
  ∃ who reply a1 b1 d a2,
    ether_ipv4_output (Some 0%nat) ex_pkt ex_a = Ret a1 ∧ eni_out a1 = eni_out ex_a ++ [EFrame who] ∧
    ether_input false None [who ++ replicate 18 0] ex_b = (EthConsumed, b1) ∧
    eni_out b1 = eni_out ex_b ++ [EFrame reply] ∧
    ether_input false None [reply ++ []] a1 = (d, a2) ∧
    eni_nexthops a2 !! 0%nat = Some (NhEntry (eni_ip ex_b) 255 5 (eni_addr ex_b) None) ∧
    let f := eth_hdr (eni_addr ex_b) (eni_addr ex_a) ETHERTYPE_IPV4 ++ concat ex_pkt in
    eni_out a2 = eni_out a1 ++ [EFrame f] ∧
    ether_input false None [f] b1 = (EthIpv4 [concat ex_pkt], b1).
Proof.
  apply (arp_resolution ex_a ex_b 0 0 [0; 0; 0; 0; 0; 0] ex_pkt (replicate 18 0) []); try reflexivity.
  - split; [done|]. repeat constructor; unfold is_byte; lia.
  - split; [done|]. repeat constructor; unfold is_byte; lia.
  - unfold is_u32. cbn. lia.
  - unfold is_u32. cbn. lia.
  - apply NoDup_singleton.
Defined.

Lemma ex_a_inv : arp_inv (ex_a, ∅).
Proof.
  split; [apply NoDup_singleton|]. constructor; [|constructor]. unfold nh_sound, NEXTHOP_RESOLVE. cbn. lia.
Qed.

(** The next hop answered. *)
Definition ex_reply : windows := [arp_pkt 2 [2; 0; 0; 0; 0; 2] 33554442 [2; 0; 0; 0; 0; 1] 16777226].
Definition ex_a_known : ether := (arp_input ex_reply ex_a).2.

Lemma arp_sends_to_learned_witness :
  ∃ n', ether_ipv4_output (Some 0%nat) ex_pkt ex_a_known = Ret n' ∧
    ((255 <= NEXTHOP_RESOLVE ∧
      ∃ st, eni_nexthops n' !! 0%nat = Some (NhEntry 33554442 st 5 [2; 0; 0; 0; 0; 2] (Some ex_pkt))) ∨
     (∃ mac, learn ex_reply ∅ !! 33554442 = Some mac ∧
        eni_out n' = eni_out ex_a_known ++ [EFrame (eth_hdr mac (eni_addr ex_a_known) ETHERTYPE_IPV4 ++ concat ex_pkt)])).
Proof.
  apply (arp_sends_to_learned (ex_a, ∅) ex_a_known (learn ex_reply ∅) 0
    (NhEntry 33554442 255 0 [2; 0; 0; 0; 0; 2] None) ex_pkt ex_a_inv).
  - apply rtc_once. apply (arp_in ex_reply ex_a (arp_input ex_reply ex_a).1). reflexivity.
  - reflexivity.
Defined.

Definition ex_host : ether :=
  Ether [2; 0; 0; 0; 0; 2] 33663168 [NhEntry 151103680 255 0 [2; 0; 0; 0; 0; 9] None] [] [].

Lemma ping_answered_witness :
  ∃ n' q, ether_stack [] 0 [eth_hdr [2; 0; 0; 0; 0; 2] [2; 0; 0; 0; 0; 9] ETHERTYPE_IPV4 ++ example_ping]
      example_routes example_ni ex_host = Ret (n', mk_routes [mk_nexthop 151103680 0] [example_ni]) ∧
    eni_out n' = [EFrame (eth_hdr [2; 0; 0; 0; 0; 9] [2; 0; 0; 0; 0; 2] ETHERTYPE_IPV4 ++ q)] ∧
    length q = length example_ping ∧ ld32 q 16 = ld32 example_ping 12 ∧ ld32 q 12 = 33663168 ∧
    byte_at q 20 = 0 ∧ drop 24 q = drop 24 example_ping ∧
    ipv4_cksum_pbuf 0 [q] 0 20 = Ret 0 ∧ ipv4_cksum_pbuf 0 [q] 20 INT32_MAX = Ret 0.
Proof.
  assert (bytes example_ping) as Hb by (repeat constructor; unfold is_byte; lia).
  apply (ping_answered [] [2; 0; 0; 0; 0; 9] example_ping example_routes example_ni ex_host 0
    (mk_nexthop 151103680 0) (mk_routes [mk_nexthop 151103680 0] [example_ni]) example_ni 255 0 [2; 0; 0; 0; 0; 9] None);
    try reflexivity; try exact Hb.
  - split; [done|]. repeat constructor; unfold is_byte; lia.
  - split; [done|]. repeat constructor; unfold is_byte; lia.
  - split; [done|]. repeat constructor; unfold is_byte; lia.
  - cbn. lia.
  - split; [reflexivity|]. split; [reflexivity|]. split; vm_compute; discriminate.
  - vm_compute. discriminate.
  - vm_compute. discriminate.
  - unfold is_u32. cbn. lia.
Defined.

Lemma nexthop_read_after_free_witness :
  ∃ o1 o2, eni_out (ether_nexthop_periodic (set_nexthops [NhEntry 5 1 0 [] None] ex_b)) =
    o1 ++ [EFreeNh 5; EStaleNh 5] ++ o2.
Proof.
  exact (nexthop_read_after_free (set_nexthops [NhEntry 5 1 0 [] None] ex_b) [] (NhEntry 5 1 0 [] None) []
    eq_refl eq_refl).
Defined.
