(* ===== verification/Udp.v ===== *)
(** * Udp: datagrams ([src/net/ipv4/udp.c], [udp.h], [net/dsig_udp.c])

    Packets are windows as in [Ipv4].  To send, the code puts headers in front of them:
    [pkt] keeps the free bytes in front of the first window, and [win_prepend] uses those
    or a new buffer.  To receive, [udp_input_ipv4] reads the ports where they should be
    without looking whether the packet is that long: [behind] are the bytes the first
    buffer holds behind its window.  The receivers linked into the image are a table from
    ports to handlers.

    [udp_roundtrip] joins the two directions with the IPv4 input path. *)

From Stdlib Require Import ZArith Lia.
From stdpp Require Import base list numbers.
From S2P Require Import Prelude Ipv4.

Open Scope Z_scope.

(** ** Buffers *)

Record pkt := Pkt { pk_room : nat; pk_win : windows }.

(** [pbuf_prepend] with [wait] set, and the header [hdr] written to the new bytes. *)
Definition win_prepend (hdr : list Z) (extra_offset : nat) (p : pkt) : pkt :=
  if (length hdr + extra_offset <=? pk_room p)%nat
  then Pkt (pk_room p - length hdr) (on_first (app hdr) (pk_win p))
  else Pkt extra_offset (hdr :: pk_win p).

(** [pbuf_drop], which panics when the packet is too short. *)
Definition drop_or_panic (n : nat) (c : windows) : res windows :=
  if pktlen c <? Z.of_nat n then Fault Panic else Ret (win_drop n c).

Definition PBUF_DATA_SIZE : nat := 512.

(** [pbuf_pullup], which asserts that a buffer can hold what it is to hold. *)
Definition pullup_or_assert (n : nat) (c : windows) : res (Z * windows) :=
  if ((length (first c) <? n) && (PBUF_DATA_SIZE <? n))%nat%bool then Fault Assert
  else Ret (win_pullup n c).

(** ** Output *)

Definition udp_hdr (src_port dst_port len cksum : Z) : list Z :=
  be16 (u16 src_port) ++ be16 (u16 dst_port) ++ be16 (u16 len) ++ le16 cksum.
Definition udp_ip_hdr (total id src dst cksum : Z) : list Z :=
  [69; 0] ++ be16 (u16 total) ++ le16 (u16 id) ++ [0; 0] ++ [255; IPPROTO_UDP] ++ le16 cksum ++
  le32 src ++ le32 dst.

(** What is handed to [ni_output_ipv4]: the interface, the next hop and the packet. *)
Record ip_out := IpOut { io_netif : nat; io_nexthop : option nexthop; io_pkt : windows }.

(** [udp_send] on interface [ni], or on the one that leads to [dst_addr]; [rnd] is what
    [rand] returns. *)
Definition udp_send (mem : bool) (rnd : Z) (r : routes) (ni : option nat) (p : pkt) (dst_addr : Z)
    (nh : option nexthop) (src_port dst_port : Z) : res (option ip_out * routes) :=
  let '(to, r) :=
    match ni with
    | Some i => (Some (i, nh), r)
    | None =>
        let '(nh, r) := ipv4_nexthop_resolve mem r dst_addr in
        ((λ h, (nh_netif h, Some h)) <$> nh, r)
    end in
  match to with
  | None => Ret (None, r)
  | Some (i, nh) =>
      match netifs r !! i with
      | None => Fault OutOfBounds
      | Some ni =>
          let len := 8 + pktlen (pk_win p) in
          let p := win_prepend (udp_hdr src_port dst_port len 0) 20 p in
          c ← (if has (ni_flags ni) NETIF_F_TX_IPV4_CKSUM_OFFLOAD then Ret 0
               else ipv4_cksum_pbuf
                      (ipv4_cksum_pseudo (ni_ipv4_local_addr ni) dst_addr IPPROTO_UDP (pktlen (pk_win p)))
                      (pk_win p) 0 (pktlen (pk_win p)));
          let p := Pkt (pk_room p) (on_first (store 6 (le16 c)) (pk_win p)) in
          let total := 20 + pktlen (pk_win p) in
          let p := win_prepend (udp_ip_hdr total rnd (ni_ipv4_local_addr ni) dst_addr 0) 0 p in
          c ← (if has (ni_flags ni) NETIF_F_TX_IPV4_CKSUM_OFFLOAD then Ret 0
               else ipv4_cksum_pbuf 0 (pk_win p) 0 20);
          Ret (Some (IpOut i nh (on_first (store 10 (le16 c)) (pk_win p))), r)
      end
  end.

(** ** Input *)

Section Input.
Context {H : Type}.

(** [_udpinput_array_begin] .. [_udpinput_array_end] *)
Implicit Type table : list (Z * H).

Fixpoint find_port (dst_port : Z) table : option H :=
  match table with
  | [] => None
  | (port, h) :: rest => if port =? dst_port then Some h else find_port dst_port rest
  end.

(** [udp_input_ipv4]: the handler that gets the packet, if any. *)
Definition udp_input_ipv4 table (behind : list Z) (pb : windows) (udp_offset : nat) : option H :=
  let udp := first pb ++ behind in
  find_port (htons (ld16 udp (udp_offset + 2))) table.

(** [ipv4_input] up to the handler of a datagram: the handler and what it is given.
    When the packet is cut to its length, what is cut off stays behind the window, in
    front of the [stale] bytes that were there. *)
Definition ipv4_input_udp table (flags : Z) (stale : list Z) (pb : windows) : res (option (H * windows)) :=
  d ← ipv4_input flags pb;
  match d with
  | Deliver proto _ pb' =>
      if proto =? IPPROTO_UDP then
        let behind := drop (length (first pb')) (first (win_pullup 20 pb).2) ++ stale in
        Ret ((λ h, (h, pb')) <$> udp_input_ipv4 table behind pb' 20)
      else Ret None
  | _ => Ret None
  end.
End Input.

(** ** DSIG over UDP *)

Definition DSIG_UDP_PORT : Z := 54550.
(** [htonl(0xefffd516)] *)
Definition DSIG_UDP_GROUP : Z := htonl 4026520854.

(** [dsig_udp_input]: the signal and its data for [dsig_input], or a packet that is
    dropped. *)
Definition dsig_udp_input (pb : windows) (udp_offset : nat) : res (option (Z * windows)) :=
  pb ← drop_or_panic (udp_offset + 8) pb;
  if pktlen pb <? 4 then Ret None
  else
    '(missing, pb) ← pullup_or_assert (length (concat pb)) pb;
    if negb (missing =? 0) then Ret None
    else
      let signal := ld32 (first pb) 0 in
      pb ← drop_or_panic 4 pb;
      Ret (Some (signal, pb)).

(** [dsig_udp_output] *)
Definition dsig_udp_output (rnd : Z) (r : routes) (ni : nat) (p : pkt) (id : Z)
    : res (option ip_out * routes) :=
  udp_send true rnd r (Some ni) (win_prepend (le32 id) 28 p) DSIG_UDP_GROUP None DSIG_UDP_PORT DSIG_UDP_PORT.

(** * Lemmas *)

Lemma win_prepend_spec hdr extra p :
  pk_win p ≠ [] → Nat.Even (length hdr) → even_windows (pk_win p) →
  ∃ x rest room, win_prepend hdr extra p = Pkt room ((hdr ++ x) :: rest) ∧ x ++ concat rest = concat (pk_win p) ∧
    even_windows ((hdr ++ x) :: rest).
Proof.
  intros Hne He Hev. unfold win_prepend. destruct (pk_win p) as [|w next]; [done|]. case_match.
  - exists w, next. eexists. cbn [on_first concat]. split; [done|]. split; [done|].
    eapply even_windows_cons; [|exact Hev]. rewrite length_app. intros [m ->]. destruct He as [k ->]. exists (k + m)%nat. lia.
  - exists [], (w :: next). eexists. cbn [app concat]. rewrite app_nil_r. split; [done|]. split; [done|].
    unfold even_windows in *. cbn [removelast]. constructor; [done|]. exact Hev.
Qed.

Lemma store_app_l i bs h x : (i + length bs <= length h)%nat → store i bs (h ++ x) = store i bs h ++ x.
Proof.
  intros H. unfold store. rewrite take_app_le, drop_app_le by lia. by rewrite <- !app_assoc.
Qed.

(** A header with its checksum field at [i], filled over the first [len] bytes of the
    chain it starts. *)
Lemma fill_header sum (h : Z → list Z) x rest len i :
  0 <= sum <= 1073741824 → (i + 2 <= length (h 0%Z))%nat → Nat.Even i → Z.of_nat (i + 2) <= len →
  (∀ c, h c = store i (le16 c) (h 0%Z)) → (∀ c, bytes (h c)) →
  even_windows ((h 0 ++ x) :: rest) → bytes (x ++ concat rest) →
  small (length (h 0%Z) + length (x ++ concat rest)) →
  ∃ c, ipv4_cksum_pbuf sum ((h 0 ++ x) :: rest) 0 len = Ret c ∧ 0 <= c <= 65535 ∧
    on_first (store i (le16 c)) ((h 0 ++ x) :: rest) = (h c ++ x) :: rest ∧
    oc (sum + wsum (take (Z.to_nat len) (h c ++ x ++ concat rest))) = 65535.
Proof.
  intros Hs Hi He Hl Hh Hbh Hev Hb Hsm.
  assert (∀ c, length (h c) = length (h 0%Z)) as Hlen.
  { intros c. rewrite Hh. by apply store_length. }
  apply Forall_app in Hb as [Hbx Hbr]. rewrite length_app in Hsm.
  assert (∀ c, store i (le16 c) (h 0 ++ x) = h c ++ x) as Hst.
  { intros c. rewrite store_app_l by (cbn [length le16]; lia). by rewrite <- Hh. }
  destruct (fill_verifies sum (h 0 ++ x) rest 0 len i) as (c & Hc & Hcr & Hv); rewrite ?drop_0; try done.
  - lia.
  - rewrite length_app. lia.
  - lia.
  - by rewrite Nat.sub_0_r.
  - cbn [concat]. rewrite !Forall_app. done.
  - unfold small in *. cbn [concat]. rewrite !length_app. lia.
  - change [0; 0] with (le16 0) in *. rewrite !Hst in Hc, Hv. change (Z.of_nat 0) with 0 in *.
    assert (store i (le16 c) (h 0 ++ x) = h c ++ x) as Es by apply Hst.
    rewrite Es in Hv. exists c. split; [done|]. split; [done|]. split; [by cbn [on_first]; rewrite Es|].
    rewrite cksum_pbuf_spec in Hv.
    + cbn [concat] in Hv. change (Z.to_nat 0) with 0%nat in Hv. rewrite drop_0, <- app_assoc in Hv.
      injection Hv as Hv. lia.
    + lia.
    + lia.
    + lia.
    + change (Z.to_nat 0) with 0%nat. rewrite drop_0. eapply even_windows_cons; [|exact Hev].
      by rewrite !length_app, (Hlen c).
    + cbn [concat]. by rewrite !Forall_app.
    + unfold small in *. rewrite length_take. cbn [concat]. rewrite !length_drop, !length_app, (Hlen c). lia.
Qed.

Lemma udp_hdr_ok sp dp len : length (udp_hdr sp dp len 0%Z) = 8%nat ∧
  (∀ c, bytes (udp_hdr sp dp len c)) ∧ (∀ c, udp_hdr sp dp len c = store 6 (le16 c) (udp_hdr sp dp len 0)).
Proof. split_and!; [done| |done]. intros c. repeat constructor; apply u8_byte. Qed.

Lemma udp_ip_hdr_ok total id src dst : length (udp_ip_hdr total id src dst 0%Z) = 20%nat ∧
  (∀ c, bytes (udp_ip_hdr total id src dst c)) ∧
  (∀ c, udp_ip_hdr total id src dst c = store 10 (le16 c) (udp_ip_hdr total id src dst 0)).
Proof.
  split_and!; [done| |done]. intros c. repeat constructor; first [apply u8_byte | unfold is_byte, IPPROTO_UDP; lia].
Qed.

(** The checksum field of a header, filled unless the interface does it. *)
Lemma fill_or_offload (off : bool) sum (h : Z → list Z) x rest len i :
  0 <= sum <= 1073741824 → (i + 2 <= length (h 0%Z))%nat → Nat.Even i → Z.of_nat (i + 2) <= len →
  (∀ c, h c = store i (le16 c) (h 0)) → (∀ c, bytes (h c)) →
  even_windows ((h 0 ++ x) :: rest) → bytes (x ++ concat rest) →
  small (length (h 0%Z) + length (x ++ concat rest)) →
  ∃ c, (if off then Ret 0 else ipv4_cksum_pbuf sum ((h 0 ++ x) :: rest) 0 len) = Ret c ∧
    on_first (store i (le16 c)) ((h 0 ++ x) :: rest) = (h c ++ x) :: rest ∧
    (off = false → oc (sum + wsum (take (Z.to_nat len) (h c ++ x ++ concat rest))) = 65535).
Proof.
  intros Hs Hi He Hl Hh Hbh Hev Hb Hsm. destruct off.
  - exists 0. split; [done|]. split; [|done]. cbn [on_first]. by rewrite store_app_l, <- Hh by (cbn [length le16]; lia).
  - destruct (fill_header sum h x rest len i) as (c & E & _ & Ef & Ho); try done. by exists c.
Qed.

(** The packet [udp_send] makes. *)
Lemma udp_send_packet mem rnd r i p dst nh sp dp ni :
  pk_win p ≠ [] → even_windows (pk_win p) → bytes (concat (pk_win p)) → small (28 + length (concat (pk_win p))) →
  netifs r !! i = Some ni →
  let data := concat (pk_win p) in
  let len := 8 + Z.of_nat (length data) in
  let src := ni_ipv4_local_addr ni in
  ∃ q c e, udp_send mem rnd r (Some i) p dst nh sp dp = Ret (Some (IpOut i nh q), r) ∧
    concat q = udp_ip_hdr (20 + len) rnd src dst e ++ udp_hdr sp dp len c ++ data ∧
    (has (ni_flags ni) NETIF_F_TX_IPV4_CKSUM_OFFLOAD = false →
     oc (wsum (take 20 (concat q))) = 65535 ∧
     oc (ipv4_cksum_pseudo src dst IPPROTO_UDP len + wsum (drop 20 (concat q))) = 65535).
Proof.
  intros Hne Hev Hb Hsm Hni data len src. unfold udp_send. rewrite Hni.
  assert (8 + pktlen (pk_win p) = len) as -> by done. unfold small in Hsm. fold data in Hb, Hsm.
  destruct (udp_hdr_ok sp dp len) as (Hl1 & Hb1 & Hs1).
  destruct (win_prepend_spec (udp_hdr sp dp len 0) 20 p) as (x & rest & room & -> & Ex & Evx);
    [done|by exists 4%nat|done|]. cbn [pk_win pk_room]. fold data in Ex.
  assert (∀ c, length (udp_hdr sp dp len c) = 8%nat) as Hl1' by done.
  assert (∀ c, pktlen ((udp_hdr sp dp len c ++ x) :: rest) = len) as Hp.
  { intros c. unfold pktlen. cbn [concat]. rewrite <- app_assoc, Ex, length_app, Hl1'. lia. }
  rewrite Hp. fold src.
  destruct (fill_or_offload (has (ni_flags ni) NETIF_F_TX_IPV4_CKSUM_OFFLOAD)
    (ipv4_cksum_pseudo src dst IPPROTO_UDP len) (udp_hdr sp dp len) x rest len 6) as (c & -> & Hfst & Hv);
    [apply pseudo_bound|lia|by exists 3%nat|lia|done|done|done|by rewrite Ex|rewrite Ex; unfold small; lia|].
  cbn [mbind res_bind]. rewrite Hfst, Hp.
  destruct (udp_ip_hdr_ok (20 + len) rnd src dst) as (Hl2 & Hb2 & Hs2).
  destruct (win_prepend_spec (udp_ip_hdr (20 + len) rnd src dst 0) 0 (Pkt room ((udp_hdr sp dp len c ++ x) :: rest)))
    as (y & rest2 & room2 & -> & Ey & Evy); [done|by exists 10%nat| |].
  { eapply even_windows_cons; [|exact Evx]. by rewrite !length_app, !Hl1'. }
  cbn [pk_win concat] in Ey. rewrite <- app_assoc, Ex in Ey. cbn [pk_win].
  assert (length (y ++ concat rest2) = Z.to_nat len) as Hly by (rewrite Ey, length_app, Hl1'; lia).
  destruct (fill_or_offload (has (ni_flags ni) NETIF_F_TX_IPV4_CKSUM_OFFLOAD)
    0 (udp_ip_hdr (20 + len) rnd src dst) y rest2 20 10) as (e & -> & Hfst2 & Hve);
    [lia|lia|by exists 5%nat|lia|done|done|done|rewrite Ey; apply Forall_app; split; [apply Hb1|done]
    |rewrite Hly; unfold small; lia|].
  cbn [mbind res_bind]. rewrite Hfst2.
  exists ((udp_ip_hdr (20 + len) rnd src dst e ++ y) :: rest2), c, e.
  split; [done|]. cbn [concat]. rewrite <- app_assoc, Ey. split; [done|]. intros Hf. split.
  - rewrite <- Ey. exact (Hve Hf).
  - rewrite drop_app_length' by done. specialize (Hv Hf). rewrite Ex, take_ge in Hv; [done|].
    rewrite <- Ey, Hly. lia.
Qed.

(** What is delivered starts with the front of the first window, cut to the total
    length. *)
Lemma deliver_first flags c proto f pb :
  (20 <= length (first c))%nat → ipv4_input flags c = Ret (Deliver proto f pb) →
  win_pullup 20 c = (0, c) ∧ first pb = take (Z.to_nat (ip_total_length (first c))) (first c).
Proof.
  intros Hf. unfold ipv4_input. destruct c as [|w next]; [cbn in Hf; lia|]. cbn [first] in Hf.
  assert (win_pullup 20 (w :: next) = (0, w :: next)) as E.
  { cbn [win_pullup]. by rewrite (proj2 (Nat.leb_le _ _)). }
  rewrite E. split; [done|]. cbn [negb Z.eqb first] in *. fold (ip_total_length w) in *.
  case_match; [done|]. destruct (if has flags PBUF_CKSUM_OK then _ else _) as [[|]|]; [done| |done].
  cbn [mbind res_bind] in *. case_match; [done|]. case_match; [done|]. bool_to_prop.
  destruct (_ || _)%bool eqn:Ep; [|done]. set (tr := win_trim _ _) in *.
  match goal with H : Ret _ = Ret _ |- _ => injection H as _ _ <- end.
  case_match; bool_to_prop; [subst tr|].
  - rewrite (proj2 (win_trim_spec _ _)). cbn [first]. f_equal. unfold pktlen in *. lia.
  - cbn [first]. unfold pktlen in *. cbn [concat] in *. rewrite length_app in *. rewrite take_ge; [done|lia].
Qed.

Lemma byte_at_take n w i : (i < n)%nat → byte_at (take n w) i = byte_at w i.
Proof. intros. unfold byte_at. by rewrite lookup_take_lt. Qed.

(** A datagram with a good header that starts with its IP and UDP header in one buffer
    reaches the handler of the port the bytes behind the IP header name. *)
Lemma udp_reaches_handler {H} (table : list (Z * H)) stale c h :
  bytes (concat c) → (24 <= length (first c))%nat → ip_header_ok (concat c) →
  byte_at (concat c) 9 = IPPROTO_UDP → oc (wsum (take 20 (concat c))) = 65535 →
  20 <= ip_total_length (concat c) → find_port (htons (ld16 (concat c) 22)) table = Some h →
  ∃ pb, ipv4_input_udp table 0 stale c = Ret (Some (h, pb)) ∧
    concat pb = take (Z.to_nat (ip_total_length (concat c))) (concat c) ∧
    first pb = take (Z.to_nat (ip_total_length (concat c))) (first c).
Proof.
  intros Hb Hf Hok Hp Hck Hmin Hport. destruct (ipv4_input_ok 0 c Hb) as (d & Hd & Hiff & Hdel).
  destruct Hiff as [_ Hiff]. destruct Hiff as (p & f & pb & ->).
  { split; [done|]. split; [|by right]. rewrite Hp. by right; right; left. }
  destruct (Hdel p f pb eq_refl) as [-> Hcat]. clear Hdel.
  destruct (deliver_first 0 c _ _ _ ltac:(lia) Hd) as [Hpull Hfirst].
  destruct c as [|w next]; [cbn in Hf; lia|]. cbn [first concat] in *.
  assert (∀ i, (i < 24)%nat → byte_at (w ++ concat next) i = byte_at w i) as Hat.
  { intros i Hi. apply byte_at_app. lia. }
  assert (ip_total_length w = ip_total_length (w ++ concat next)) as Et.
  { unfold ip_total_length, ld16. by rewrite !Hat by lia. }
  exists pb. rewrite Hfirst, Et. split; [|done].
  unfold ipv4_input_udp. rewrite Hd. cbn [mbind res_bind]. rewrite Hp. change (IPPROTO_UDP =? IPPROTO_UDP) with true.
  cbv iota. rewrite Hpull. cbn [snd first]. unfold udp_input_ipv4. rewrite Hfirst, Et.
  set (t := Z.to_nat (ip_total_length (w ++ concat next))).
  rewrite app_assoc, length_take.
  assert (take t w ++ drop (t `min` length w) w = w) as ->.
  { destruct (decide (t <= length w)%nat).
    - rewrite Nat.min_l by lia. apply take_drop.
    - rewrite Nat.min_r, take_ge, drop_all by lia. apply app_nil_r. }
  assert (ld16 (w ++ stale) (20 + 2) = ld16 (w ++ concat next) 22) as ->.
  { unfold ld16. rewrite !Hat by lia. by rewrite !byte_at_app by lia. }
  by rewrite Hport.
Qed.

Lemma drop_ok n c : (n <= length (concat c))%nat → drop_or_panic n c = Ret (win_drop n c).
Proof. intros. unfold drop_or_panic, pktlen. by rewrite (proj2 (Z.ltb_ge _ _)) by lia. Qed.

Lemma drop_short n c : (length (concat c) < n)%nat → drop_or_panic n c = Fault Panic.
Proof. intros. unfold drop_or_panic, pktlen. by rewrite (proj2 (Z.ltb_lt _ _)) by lia. Qed.

Lemma ld16_be16 pre x post : 0 <= x < 65536 → htons (ld16 (pre ++ be16 x ++ post) (length pre)) = x.
Proof.
  intros Hx. unfold be16. rewrite ld16_at. by apply htons_be16.
Qed.

(** The fields of a datagram as the receiver reads them. *)
Lemma udp_fields total id src dst e sp dp len c l :
  is_u32 src → is_u32 dst → 0 <= total < 65536 →
  let bs := udp_ip_hdr total id src dst e ++ udp_hdr sp dp len c ++ l in
  byte_at bs 0 = 69 ∧ Z.land (htons (ld16 bs 6)) 16383 = 0 ∧ ip_total_length bs = total ∧
  byte_at bs 9 = IPPROTO_UDP ∧ ld32 bs 12 = src ∧ ld32 bs 16 = dst ∧
  htons (ld16 bs 20) = u16 sp ∧ htons (ld16 bs 22) = u16 dp ∧ drop 28 bs = l.
Proof.
  intros Hs Hd Ht bs. assert (∀ x, 0 <= u16 x < 65536) as Hu by (intros; unfold u16; apply Z.mod_pos_bound; lia).
  split_and!; try done.
  - pose proof (ld16_be16 [69; 0] (u16 total) (le16 (u16 id) ++ [0; 0] ++ [255; IPPROTO_UDP] ++ le16 e ++
      le32 src ++ le32 dst ++ udp_hdr sp dp len c ++ l) (Hu _)) as E. rewrite (u16_id total) in E at 2 by done. exact E.
  - change (ld32 (le32 src) 0 = src). by apply ld32_le32.
  - change (ld32 (le32 dst) 0 = dst). by apply ld32_le32.
  - exact (ld16_be16 (udp_ip_hdr total id src dst e) (u16 sp) (be16 (u16 dp) ++ be16 (u16 len) ++ le16 c ++ l) (Hu _)).
  - exact (ld16_be16 (udp_ip_hdr total id src dst e ++ be16 (u16 sp)) (u16 dp) (be16 (u16 len) ++ le16 c ++ l) (Hu _)).
Qed.

(** * Properties *)

Section Roundtrip.
Context {H : Type} (table : list (Z * H)).

(** What has arrived at the other side: the bytes of the packet and padding, in buffers
    of which the first holds the IP and the UDP header. *)
Definition received (q : windows) (pad : list Z) (c : windows) : Prop :=
  bytes pad ∧ concat c = concat q ++ pad ∧ (28 <= length (first c))%nat.

Lemma udp_roundtrip_ok mem rnd r i p dst nh sp dp ni h :
  pk_win p ≠ [] → even_windows (pk_win p) → bytes (concat (pk_win p)) → small (28 + length (concat (pk_win p))) →
  netifs r !! i = Some ni → has (ni_flags ni) NETIF_F_TX_IPV4_CKSUM_OFFLOAD = false →
  is_u32 (ni_ipv4_local_addr ni) → is_u32 dst → find_port (u16 dp) table = Some h →
  let data := concat (pk_win p) in
  let len := 8 + Z.of_nat (length data) in
  ∃ q, udp_send mem rnd r (Some i) p dst nh sp dp = Ret (Some (IpOut i nh q), r) ∧
    length (concat q) = (28 + length data)%nat ∧ ld32 (concat q) 16 = dst ∧
    oc (ipv4_cksum_pseudo (ni_ipv4_local_addr ni) dst IPPROTO_UDP len + wsum (drop 20 (concat q))) = 65535 ∧
    ∀ pad stale c, received q pad c →
      ∃ pb, ipv4_input_udp table 0 stale c = Ret (Some (h, pb)) ∧ concat pb = concat q ∧
        (28 <= length (first pb))%nat ∧ ld32 (first pb) 12 = ni_ipv4_local_addr ni ∧
        htons (ld16 (first pb) 20) = u16 sp ∧ drop 28 (concat pb) = data.
Proof.
  intros Hne Hev Hb Hsm Hni Hf Hsrc Hdst Hport data len.
  destruct (udp_send_packet mem rnd r i p dst nh sp dp ni) as (q & ck & e & -> & Eq & Hsums); try done.
  destruct (Hsums Hf) as [Hck Hu].
  fold data len in Eq, Hu. set (src := ni_ipv4_local_addr ni) in *. unfold small in Hsm. fold data in Hsm, Hb.
  assert (length (concat q) = 28 + length data)%nat as Hlq.
  { rewrite Eq, !length_app. cbn [length udp_ip_hdr udp_hdr app le16 be16 le32]. lia. }
  destruct (udp_fields (20 + len) rnd src dst e sp dp len ck data) as (F0 & F6 & Ft & F9 & F12 & F16 & F20 & F22 & Fd);
    [done|done|lia|]. rewrite <- Eq in F0, F6, Ft, F9, F12, F16, F20, F22, Fd.
  exists q. split; [done|]. split; [done|]. split; [done|]. split; [done|].
  intros pad stale c (Hbp & Ec & Hfc).
  assert (∀ i, (i < 28)%nat → byte_at (concat c) i = byte_at (concat q) i) as Hat.
  { intros j Hj. rewrite Ec. apply byte_at_app. lia. }
  assert (∀ i, (i < 27)%nat → ld16 (concat c) i = ld16 (concat q) i) as Hat16.
  { intros j Hj. unfold ld16. by rewrite !Hat by lia. }
  assert (ip_total_length (concat c) = 20 + len) as Etc by (unfold ip_total_length; by rewrite Hat16 by lia).
  destruct (udp_reaches_handler table stale c h) as (pb & E & Ecat & Efst).
  - rewrite Ec, Eq. rewrite !Forall_app. split_and!; [apply udp_ip_hdr_ok|apply udp_hdr_ok|done|done].
  - lia.
  - unfold ip_header_ok. rewrite !Hat, !Hat16, Etc, Ec, length_app by lia. split_and!; [done|done|lia|lia].
  - by rewrite Hat by lia.
  - rewrite Ec, take_app_le by lia. done.
  - lia.
  - by rewrite Hat16, F22 by lia.
  - exists pb. split; [done|]. rewrite Etc in Ecat, Efst.
    assert (concat pb = concat q) as Epb.
    { rewrite Ecat, Ec, take_app_le, take_ge by lia. done. }
    assert (28 <= length (first pb))%nat as Hfp by (rewrite Efst, length_take; lia).
    assert (∀ j, (j < 28)%nat → byte_at (first pb) j = byte_at (concat q) j) as Hpb.
    { intros j Hj. rewrite <- Epb. destruct pb as [|w' n']; [cbn in Hfp; lia|]. cbn [first concat] in *.
      by rewrite byte_at_app by lia. }
    split; [done|]. split; [done|]. unfold ld32, ld16 in *. rewrite !Hpb by lia. split_and!; [done|done|].
    by rewrite Epb.
Qed.

(** A datagram reaches the receiver of its port: what [udp_send] hands to the
    interface, arriving at a host of this code with any padding and in any buffers
    that keep its headers together, is given to the first handler of the destination
    port, with the sender's address and port in its headers and the sender's data
    behind them; and its UDP checksum verifies. *)
Theorem udp_roundtrip mem rnd r i p dst nh sp dp ni h :
  pk_win p ≠ [] → even_windows (pk_win p) → bytes (concat (pk_win p)) → small (28 + length (concat (pk_win p))) →
  netifs r !! i = Some ni → has (ni_flags ni) NETIF_F_TX_IPV4_CKSUM_OFFLOAD = false →
  is_u32 (ni_ipv4_local_addr ni) → is_u32 dst → find_port (u16 dp) table = Some h →
  let data := concat (pk_win p) in
  let len := 8 + Z.of_nat (length data) in
  ∃ q, udp_send mem rnd r (Some i) p dst nh sp dp = Ret (Some (IpOut i nh q), r) ∧
    oc (ipv4_cksum_pseudo (ni_ipv4_local_addr ni) dst IPPROTO_UDP len + wsum (drop 20 (concat q))) = 65535 ∧
    ∀ pad stale c, received q pad c →
      ∃ pb, ipv4_input_udp table 0 stale c = Ret (Some (h, pb)) ∧
        ld32 (first pb) 12 = ni_ipv4_local_addr ni ∧ htons (ld16 (first pb) 20) = u16 sp ∧
        drop 28 (concat pb) = data.
Proof.
  intros Hne Hev Hb Hsm Hni Hf Hs Hd Hp.
  destruct (udp_roundtrip_ok mem rnd r i p dst nh sp dp ni h) as (q & E & _ & _ & Hck & Hr); try done.
  exists q. split; [done|]. split; [done|]. intros pad stale c Hc.
  destruct (Hr pad stale c Hc) as (pb & ? & _ & _ & ? & ? & ?). by exists pb.
Qed.
End Roundtrip.

(** [dsig_udp_input] on a datagram whose payload one buffer can hold. *)
Lemma dsig_udp_input_ok pb :
  (32 <= length (concat pb) <= 28 + PBUF_DATA_SIZE)%nat →
  ∃ pb', dsig_udp_input pb 20 = Ret (Some (ld32 (drop 28 (concat pb)) 0, pb')) ∧ concat pb' = drop 32 (concat pb).
Proof.
  intros Hl. unfold dsig_udp_input. rewrite drop_ok by lia. cbn [mbind res_bind].
  set (p1 := win_drop (20 + 8) pb). assert (concat p1 = drop 28 (concat pb)) as E1 by apply win_drop_concat.
  assert (length (concat p1) = length (concat pb) - 28)%nat as Hl1 by (by rewrite E1, length_drop).
  unfold pktlen. rewrite (proj2 (Z.ltb_ge _ _)) by lia. unfold pullup_or_assert.
  rewrite (proj2 (Nat.ltb_ge PBUF_DATA_SIZE _)), andb_false_r by lia. cbn [mbind res_bind].
  destruct (win_pullup (length (concat p1)) p1) as [m p2] eqn:Ep.
  destruct (win_pullup_spec _ _ _ _ Ep) as (E2 & -> & Hf). unfold pktlen in *.
  replace (Z.max 0 (Z.of_nat (length (concat p1)) - Z.of_nat (length (concat p1)))) with 0 in * by lia.
  cbn [negb Z.eqb]. specialize (Hf eq_refl). rewrite drop_ok by (rewrite E2; lia). cbn [mbind res_bind].
  exists (win_drop 4 p2). rewrite win_drop_concat, E2, E1, drop_drop. split; [|done]. do 3 f_equal.
  rewrite <- E1, <- E2. destruct p2 as [|w n]; [cbn in Hf; lia|]. cbn [first concat] in *.
  unfold ld32, ld16. by rewrite !byte_at_app by lia.
Qed.

(** A signal that fits a buffer goes over UDP unchanged: what [dsig_udp_output]
    sends to the group reaches [dsig_udp_input] at the receivers, which hands the same
    signal number and the same data to [dsig_input]. *)
Theorem dsig_udp_roundtrip {H} (table : list (Z * H)) rnd r i room w id ni h :
  bytes w → is_u32 id → (length w + 4 <= PBUF_DATA_SIZE)%nat →
  netifs r !! i = Some ni → has (ni_flags ni) NETIF_F_TX_IPV4_CKSUM_OFFLOAD = false →
  is_u32 (ni_ipv4_local_addr ni) → find_port DSIG_UDP_PORT table = Some h →
  ∃ q, dsig_udp_output rnd r i (Pkt room [w]) id = Ret (Some (IpOut i None q), r) ∧
    ld32 (concat q) 16 = DSIG_UDP_GROUP ∧
    ∀ pad stale c, received q pad c →
      ∃ pb pb', ipv4_input_udp table 0 stale c = Ret (Some (h, pb)) ∧
        dsig_udp_input pb 20 = Ret (Some (id, pb')) ∧ concat pb' = w.
Proof.
  unfold PBUF_DATA_SIZE. intros Hb Hid Hl Hni Hf Hs Hp. unfold dsig_udp_output.
  destruct (win_prepend_spec (le32 id) 28 (Pkt room [w])) as (x & rest & rm & -> & Ex & Hev);
    [done|by exists 2%nat|constructor|]. cbn [pk_win concat] in Ex. rewrite app_nil_r in Ex.
  assert (concat ((le32 id ++ x) :: rest) = le32 id ++ w) as Ed.
  { cbn [concat]. by rewrite <- app_assoc, Ex. }
  destruct (udp_roundtrip_ok table true rnd r i (Pkt rm ((le32 id ++ x) :: rest)) DSIG_UDP_GROUP None
    DSIG_UDP_PORT DSIG_UDP_PORT ni h) as (q & -> & Hlq & Hdst & _ & Hr); cbn [pk_win]; rewrite ?Ed; try done.
  - rewrite Forall_app. split; [repeat constructor; apply u8_byte|done].
  - unfold small. rewrite length_app. cbn [length le32]. lia.
  - exists q. split; [done|]. split; [done|]. intros pad stale c Hc.
    destruct (Hr pad stale c Hc) as (pb & E & Epb & _ & _ & _ & Edr). cbn [pk_win] in Edr. rewrite Ed in Edr.
    cbn [pk_win] in Hlq. rewrite Ed, length_app in Hlq. cbn [length le32] in Hlq.
    destruct (dsig_udp_input_ok pb) as (pb' & E' & Hpb'); [rewrite Epb; unfold PBUF_DATA_SIZE; lia|].
    exists pb, pb'. split; [done|].
    rewrite E', Edr, Hpb'. split.
    + do 3 f_equal. pose proof (ld32_at [] id w Hid) as E0. exact E0.
    + change 32%nat with (28 + 4)%nat. by rewrite <- drop_drop, Edr.
Qed.

(** ** Behaviour the code does not mean to have *)

(** A datagram for the DSIG port with more data than one buffer holds stops the
    system: [dsig_udp_input] wants the whole payload in the first buffer, and the
    [assert] in [pbuf_pullup] fails. *)
Theorem dsig_udp_long_asserts pb :
  (28 + PBUF_DATA_SIZE < length (concat pb))%nat → Forall (λ w, length w <= PBUF_DATA_SIZE)%nat pb →
  dsig_udp_input pb 20 = Fault Assert.
Proof.
  unfold PBUF_DATA_SIZE. intros Hl Hw. unfold dsig_udp_input. rewrite drop_ok by lia. cbn [mbind res_bind].
  set (p1 := win_drop (20 + 8) pb). assert (concat p1 = drop 28 (concat pb)) as E1 by apply win_drop_concat.
  assert (length (concat p1) = length (concat pb) - 28)%nat as Hl1 by (by rewrite E1, length_drop).
  unfold pktlen. rewrite (proj2 (Z.ltb_ge _ _)) by lia. unfold pullup_or_assert, PBUF_DATA_SIZE.
  assert (∀ n c, Forall (λ w, length w <= 512)%nat c → (length (first (win_drop n c)) <= 512)%nat) as Hfirst.
  { intros n c Hc. revert n. induction Hc as [|x c Hx Hc IH]; intros n; cbn [win_drop]; [cbn; lia|].
    destruct (drop n x) as [|y l] eqn:Edr.
    - destruct c; [cbn; lia|apply IH].
    - cbn [first]. rewrite <- Edr, length_drop. lia. }
  specialize (Hfirst (20 + 8)%nat pb Hw). fold p1 in Hfirst.
  by rewrite !(proj2 (Nat.ltb_lt _ _)) by lia.
Qed.

(** A packet that ends before its UDP header stops the system: [ipv4_input] accepts
    a total length of 20 to 27 bytes and [udp_input_ipv4] reads the port from the bytes
    that were cut off, so the handler is called, and the first thing each handler does is
    to drop 28 bytes: [pbuf_drop] panics. *)
Theorem udp_short_panics {H} (table : list (Z * H)) stale c h :
  bytes (concat c) → (24 <= length (first c))%nat → ip_header_ok (concat c) →
  byte_at (concat c) 9 = IPPROTO_UDP → oc (wsum (take 20 (concat c))) = 65535 →
  20 <= ip_total_length (concat c) < 28 → find_port (htons (ld16 (concat c) 22)) table = Some h →
  ∃ pb, ipv4_input_udp table 0 stale c = Ret (Some (h, pb)) ∧ drop_or_panic 28 pb = Fault Panic ∧
    dsig_udp_input pb 20 = Fault Panic.
Proof.
  intros Hb Hf Hok Hp Hck Ht Hport.
  destruct (udp_reaches_handler table stale c h) as (pb & E & Ec & _); try done; [lia|].
  assert (drop_or_panic 28 pb = Fault Panic) as Hd.
  { apply drop_short. rewrite Ec, length_take. lia. }
  exists pb. split; [done|]. split; [done|]. unfold dsig_udp_input. change (20 + 8)%nat with 28%nat. by rewrite Hd.
Qed.

(** A checksum that comes out as 0 is sent as 0, which tells the receiver that there is
    none; it should be sent as 0xffff. *)
Theorem udp_zero_checksum_sent :
  ∃ data q, udp_send true 0 (mk_routes [] [example_ni]) (Some 0%nat) (Pkt 44 [data]) 151103680 None 68 67 =
    Ret (Some (IpOut 0 None [q]), mk_routes [] [example_ni]) ∧ take 2 (drop 26 q) = [0; 0].
Proof. exists [123; 247]. eexists. split; vm_compute; reflexivity. Qed.

(** ** Witnesses *)

Definition ex_table : list (Z * nat) := [(68, 0%nat); (123, 1%nat); (DSIG_UDP_PORT, 2%nat)].
Definition ex_data : list Z := [1; 2; 3; 4; 5].

Lemma udp_roundtrip_witness :
  ∃ q, udp_send true 7 (mk_routes [] [example_ni]) (Some 0%nat) (Pkt 44 [ex_data]) 151103680 None 1000 123 =
      Ret (Some (IpOut 0 None q), mk_routes [] [example_ni]) ∧
    ∀ pad stale c, received q pad c →
      ∃ pb, ipv4_input_udp ex_table 0 stale c = Ret (Some (1%nat, pb)) ∧ drop 28 (concat pb) = ex_data.
Proof.
  destruct (udp_roundtrip ex_table true 7 (mk_routes [] [example_ni]) 0 (Pkt 44 [ex_data]) 151103680 None 1000 123
    example_ni 1%nat) as (q & E & _ & Hr); try done.
  - constructor.
  - repeat constructor; unfold is_byte; lia.
  - exists q. split; [exact E|]. intros pad stale c Hc. destruct (Hr pad stale c Hc) as (pb & H1 & _ & _ & H2).
    by exists pb.
Defined.

Lemma dsig_udp_roundtrip_witness :
  ∃ q, dsig_udp_output 7 (mk_routes [] [example_ni]) 0 (Pkt 0 [ex_data]) 4660 =
      Ret (Some (IpOut 0 None q), mk_routes [] [example_ni]) ∧
    ld32 (concat q) 16 = DSIG_UDP_GROUP ∧
    ∀ pad stale c, received q pad c →
      ∃ pb pb', ipv4_input_udp ex_table 0 stale c = Ret (Some (2%nat, pb)) ∧
        dsig_udp_input pb 20 = Ret (Some (4660, pb')) ∧ concat pb' = ex_data.
Proof.
  apply (dsig_udp_roundtrip ex_table 7 (mk_routes [] [example_ni]) 0 0 ex_data 4660 example_ni 2%nat); try done.
  - repeat constructor; unfold is_byte; lia.
  - unfold PBUF_DATA_SIZE. cbn. lia.
Defined.

Lemma dsig_udp_long_asserts_witness :
  dsig_udp_input [replicate 512 0; replicate 512 0] 20 = Fault Assert.
Proof.
  apply dsig_udp_long_asserts.
  - vm_compute. lia.
  - repeat constructor; vm_compute; lia.
Defined.

(** A frame's worth of bytes whose IP header ends the packet at 20 bytes; the port 68 is
    in the bytes behind it. *)
Definition ex_short : list Z :=
  [69; 0; 0; 20; 0; 0; 0; 0; 64; 17; 247; 125; 192; 168; 1; 9; 192; 168; 1; 2; 0; 67; 0; 68; 0; 8; 0; 0].

Lemma udp_short_panics_witness :
  ∃ pb, ipv4_input_udp ex_table 0 [] [ex_short] = Ret (Some (0%nat, pb)) ∧ drop_or_panic 28 pb = Fault Panic ∧
    dsig_udp_input pb 20 = Fault Panic.
Proof.
  apply (udp_short_panics ex_table [] [ex_short] 0%nat).
  - repeat constructor; unfold is_byte; lia.
  - vm_compute. lia.
  - unfold ip_header_ok. vm_compute. intuition discriminate.
  - reflexivity.
  - vm_compute. reflexivity.
  - vm_compute. intuition discriminate.
  - reflexivity.
Defined.
