(* ===== verification/Dhcp.v ===== *)
(** * Dhcp: the DHCP client ([src/net/ipv4/dhcpv4.c], [dhcpv4.h])

    [dhcp] is the DHCP part of [ether_netif_t] with what it works on: the routes, of which
    the interface is the one at [d_if], the expiry of [eni_dhcp_timer], the time, and the
    answers of [rand], [pbuf_make] and [xalloc] to come ([env]).  What the client does to
    the outside is a list of events.  The times are 64-bit microseconds, which do not wrap.

    Handlers are the functions the network thread calls: [dhcpv4_input] for a datagram to
    port 68, [dhcp_timer_cb], and [dhcpv4_status_change] when the link goes up or down.
    [dstep] is a step of the network thread.

    [tlvs] is the reference reading of an option list, on the bytes; [parse_opts] walks
    buffers. *)

From Stdlib Require Import ZArith Lia.
From stdpp Require Import base list numbers relations.
From S2P Require Import Prelude Ipv4 Udp.

Open Scope Z_scope.

Definition DHCP_STATE_IDLE : Z := 0.
Definition DHCP_STATE_SELECTING : Z := 1.
Definition DHCP_STATE_REQUESTING : Z := 2.
Definition DHCP_STATE_BOUND : Z := 3.

Definition DHCP_SUBNET_MASK : Z := 1.
Definition DHCP_GATEWAY : Z := 3.
Definition DHCP_NTP_SERVER : Z := 42.
Definition DHCP_VENDOR_SPECIFIC_INFO : Z := 43.
Definition DHCP_REQUESTED_IP_ADDRESS : Z := 50.
Definition DHCP_LEASE_TIME : Z := 51.
Definition DHCP_MESSAGE_TYPE : Z := 53.
Definition DHCP_SERVER_IDENTIFIER : Z := 54.
Definition DHCP_PARAMETER_REQUEST_LIST : Z := 55.
Definition DHCP_VENDOR_CLASS_ID : Z := 60.
Definition DHCP_CLIENT_IDENTIFIER : Z := 61.
Definition DHCP_BOOT_FILE_NAME : Z := 67.

Definition DHCPDISCOVER : Z := 1.
Definition DHCPOFFER : Z := 2.
Definition DHCPREQUEST : Z := 3.
Definition DHCPACK : Z := 5.
Definition NETIF_F_UP : Z := 1.
Definition INADDR_BROADCAST : Z := 4294967295.

(** ** State *)

(** What [rand], [pbuf_make] and [xalloc] answer next. *)
Record env := Env { e_rand : list Z; e_bufs : list bool; e_mem : list bool }.
Definition next_rand (e : env) : Z * env :=
  (default 0 (head (e_rand e)), Env (tail (e_rand e)) (e_bufs e) (e_mem e)).
Definition next_buf (e : env) : bool * env :=
  (default true (head (e_bufs e)), Env (e_rand e) (tail (e_bufs e)) (e_mem e)).
Definition next_mem (e : env) : bool * env :=
  (default true (head (e_mem e)), Env (e_rand e) (e_bufs e) (tail (e_mem e))).

Inductive dlog :=
| LSelecting
| LOfferNotSelecting
| LOffer (yiaddr from : Z)
| LAck (yiaddr from : Z)
| LNotRequested
| LNotSource.

Inductive devent :=
| DLog (m : dlog)
| DSend (o : ip_out)
| DUpdate (vsi bootfile : option (list Z))
| DNtp (server : Z).

Record dhcp := Dhcp {
  d_state : Z;
  d_retries : Z;
  d_xid : Z;
  d_server_ip : Z;
  d_requested_ip : Z;
  d_timer : option Z;
  d_mac : list Z;
  d_if : nat;
  d_routes : routes;
  d_now : Z;
  d_env : env;
  d_out : list devent }.

Definition set_state (s : Z) (d : dhcp) : dhcp :=
  Dhcp s (d_retries d) (d_xid d) (d_server_ip d) (d_requested_ip d) (d_timer d) (d_mac d) (d_if d)
    (d_routes d) (d_now d) (d_env d) (d_out d).
Definition set_retries (n : Z) (d : dhcp) : dhcp :=
  Dhcp (d_state d) n (d_xid d) (d_server_ip d) (d_requested_ip d) (d_timer d) (d_mac d) (d_if d)
    (d_routes d) (d_now d) (d_env d) (d_out d).
Definition set_xid (x : Z) (d : dhcp) : dhcp :=
  Dhcp (d_state d) (d_retries d) x (d_server_ip d) (d_requested_ip d) (d_timer d) (d_mac d) (d_if d)
    (d_routes d) (d_now d) (d_env d) (d_out d).
Definition set_lease (server requested : Z) (d : dhcp) : dhcp :=
  Dhcp (d_state d) (d_retries d) (d_xid d) server requested (d_timer d) (d_mac d) (d_if d)
    (d_routes d) (d_now d) (d_env d) (d_out d).
Definition set_timer (t : option Z) (d : dhcp) : dhcp :=
  Dhcp (d_state d) (d_retries d) (d_xid d) (d_server_ip d) (d_requested_ip d) t (d_mac d) (d_if d)
    (d_routes d) (d_now d) (d_env d) (d_out d).
Definition set_routes (r : routes) (d : dhcp) : dhcp :=
  Dhcp (d_state d) (d_retries d) (d_xid d) (d_server_ip d) (d_requested_ip d) (d_timer d) (d_mac d) (d_if d)
    r (d_now d) (d_env d) (d_out d).
Definition set_now (t : Z) (d : dhcp) : dhcp :=
  Dhcp (d_state d) (d_retries d) (d_xid d) (d_server_ip d) (d_requested_ip d) (d_timer d) (d_mac d) (d_if d)
    (d_routes d) t (d_env d) (d_out d).
Definition set_env (e : env) (d : dhcp) : dhcp :=
  Dhcp (d_state d) (d_retries d) (d_xid d) (d_server_ip d) (d_requested_ip d) (d_timer d) (d_mac d) (d_if d)
    (d_routes d) (d_now d) e (d_out d).
Definition emit (e : devent) (d : dhcp) : dhcp :=
  Dhcp (d_state d) (d_retries d) (d_xid d) (d_server_ip d) (d_requested_ip d) (d_timer d) (d_mac d) (d_if d)
    (d_routes d) (d_now d) (d_env d) (d_out d ++ [e]).

(** [eni_ni] *)
Definition d_ni (d : dhcp) : netif := default (mk_netif 0 0 0) (netifs (d_routes d) !! d_if d).
Definition d_addr (d : dhcp) : Z := ni_ipv4_local_addr (d_ni d).
Definition set_ni (ni : netif) (d : dhcp) : dhcp :=
  set_routes (mk_routes (ipv4_nexthops (d_routes d)) (<[d_if d := ni]> (netifs (d_routes d)))) d.
Definition set_addr (addr prefixlen : Z) (d : dhcp) : dhcp := set_ni (mk_netif (ni_flags (d_ni d)) addr prefixlen) d.

(** [net_timer_arm(&eni->eni_dhcp_timer, clock_get() + usec)] *)
Definition arm (usec : Z) (d : dhcp) : dhcp := set_timer (Some (d_now d + usec)) d.

Section Client.
(** [DHCPV4_VCID], if the build defines it. *)
Context (vcid : option (list Z)).

(** ** Messages *)

(** The message is made in a buffer with 44 bytes left free in front.  [pbuf_append]
    asserts that it fits. *)
Definition append (bs m : list Z) : res (list Z) :=
  if (44 + length m + length bs <=? PBUF_DATA_SIZE)%nat then Ret (m ++ bs) else Fault Assert.

(** [make_option], and its bytes written. *)
Definition append_option_copy (code : Z) (data : list Z) (m : list Z) : res (list Z) :=
  let len := u8 (Z.of_nat (length data)) in
  append ([code; len] ++ take (Z.to_nat len) data) m.
Definition append_option_u8 (code data : Z) (m : list Z) : res (list Z) := append_option_copy code [data] m.
Definition append_option_v4addr (code addr : Z) (m : list Z) : res (list Z) :=
  append_option_copy code (le32 addr) m.
Definition append_end (m : list Z) : res (list Z) := append [255] m.
Definition append_client_identifier (d : dhcp) (m : list Z) : res (list Z) :=
  append_option_copy DHCP_CLIENT_IDENTIFIER (1 :: d_mac d) m.
Definition append_parameter_request_list (m : list Z) : res (list Z) :=
  append_option_copy DHCP_PARAMETER_REQUEST_LIST [DHCP_SUBNET_MASK; DHCP_GATEWAY; DHCP_LEASE_TIME] m.
Definition append_default_options (d : dhcp) (m : list Z) : res (list Z) :=
  m ← append_client_identifier d m;
  m ← append_parameter_request_list m;
  match vcid with Some s => append_option_copy DHCP_VENDOR_CLASS_ID s m | None => Ret m end.

(** [dhcp_hdr_t] of a message from the client. *)
Definition dhcp_hdr (xid ciaddr : Z) (mac : list Z) : list Z :=
  [1; 1; 6; 0] ++ le32 xid ++ [0; 0; 0; 0] ++ le32 ciaddr ++ replicate 12 0 ++ mac ++ replicate 10 0 ++
  replicate 192 0 ++ [99; 130; 83; 99].
Definition SIZEOF_DHCP_HDR : nat := 240.

(** [dhcpv4_make]: the header, when there is a buffer. *)
Definition dhcpv4_make (d : dhcp) : res (option (list Z) * dhcp) :=
  let '(ok, e) := next_buf (d_env d) in
  if ok then
    let '(x, e) := next_rand e in
    let d := set_xid (u32 x) (set_env e d) in
    m ← append (dhcp_hdr (d_xid d) (d_addr d) (d_mac d)) [];
    Ret (Some m, d)
  else Ret (None, set_env e d).

Definition dhcpv4_send (m : list Z) (dst_addr : Z) (d : dhcp) : res dhcp :=
  let '(to, d) :=
    if negb (dst_addr =? INADDR_BROADCAST) then
      let '(mem, e) := next_mem (d_env d) in
      let '(nh, r) := ipv4_nexthop_resolve mem (d_routes d) dst_addr in
      ((λ h, (nh_netif h, Some h)) <$> nh, set_routes r (set_env e d))
    else (Some (d_if d, None), d) in
  match to with
  | None => Ret d
  | Some (ni, nh) =>
      let '(x, e) := next_rand (d_env d) in
      let d := set_env e d in
      '(o, r) ← udp_send true x (d_routes d) (Some ni) (Pkt 44 [m]) dst_addr nh 68 67;
      match o with
      | Some o => Ret (emit (DSend o) (set_routes r d))
      | None => Ret (set_routes r d)
      end
  end.

Definition dhcpv4_send_discover (d : dhcp) : res dhcp :=
  '(m, d) ← dhcpv4_make d;
  match m with
  | None => Ret d
  | Some m =>
      m ← append_option_u8 DHCP_MESSAGE_TYPE DHCPDISCOVER m;
      m ← append_default_options d m;
      m ← append_end m;
      dhcpv4_send m INADDR_BROADCAST d
  end.

Definition dhcpv4_send_request (d : dhcp) : res dhcp :=
  '(m, d) ← dhcpv4_make d;
  match m with
  | None => Ret d
  | Some m =>
      m ← append_option_u8 DHCP_MESSAGE_TYPE DHCPREQUEST m;
      m ← append_default_options d m;
      m ← (if d_addr d =? 0 then
             m ← append_option_v4addr DHCP_SERVER_IDENTIFIER (d_server_ip d) m;
             append_option_v4addr DHCP_REQUESTED_IP_ADDRESS (d_requested_ip d) m
           else Ret m);
      m ← append_end m;
      dhcpv4_send m (if d_addr d =? 0 then INADDR_BROADCAST else d_server_ip d) d
  end.

Definition dhcpv4_discover (d : dhcp) : res dhcp :=
  let d := if negb (d_state d =? DHCP_STATE_SELECTING)
           then set_state DHCP_STATE_SELECTING (emit (DLog LSelecting) d) else d in
  let d := set_addr 0 (ni_ipv4_local_prefixlen (d_ni d)) d in
  let d := set_lease 0 0 d in
  d ← dhcpv4_send_discover d;
  Ret (arm 500000 d).

Definition dhcpv4_request (d : dhcp) : res dhcp :=
  let d := if negb (d_state d =? DHCP_STATE_REQUESTING)
           then set_retries 0 (set_state DHCP_STATE_REQUESTING d) else d in
  d ← dhcpv4_send_request d;
  let d := set_retries (u8 (d_retries d + 1)) d in
  Ret (arm (500000 * d_retries d) d).

(** ** Options of a reply *)

Inductive field := FMsgtype | FNetmask | FGateway | FLeaseTime | FServerId | FNtp.
#[export] Instance field_eq_dec : EqDecision field.
Proof. solve_decision. Defined.

(** [parsed_opts_t]; the bits of [valid] are one [bool] per field. *)
Record parsed_opts := PO {
  po_val : field → option (list Z);
  po_vsi : option (list Z);
  po_bootfile : option (list Z) }.

(** The table [options]: the field, its type and its length. *)
Definition options : list (field * Z * Z) :=
  [(FMsgtype, DHCP_MESSAGE_TYPE, 1); (FNetmask, DHCP_SUBNET_MASK, 4); (FGateway, DHCP_GATEWAY, 4);
   (FLeaseTime, DHCP_LEASE_TIME, 4); (FServerId, DHCP_SERVER_IDENTIFIER, 4); (FNtp, DHCP_NTP_SERVER, 4)].
Definition option_field (type len : Z) : option field :=
  (λ x, x.1.1) <$> List.find (λ x, ((x.1.2 =? type) && (x.2 =? len))%bool) options.

(** What the body of the loop in [parse_opts] does with one option. *)
Definition take_option (type : Z) (data : list Z) (po : parsed_opts) (e : env) : parsed_opts * env :=
  let '(po, e) :=
    match po_vsi po with
    | None => if type =? DHCP_VENDOR_SPECIFIC_INFO then
                let '(ok, e) := next_buf e in
                (PO (po_val po) (if ok then Some data else None) (po_bootfile po), e)
              else (po, e)
    | Some _ => (po, e)
    end in
  let '(po, e) :=
    match po_bootfile po with
    | None => if type =? DHCP_BOOT_FILE_NAME then
                let '(ok, e) := next_mem e in
                (PO (po_val po) (po_vsi po) (if ok then Some data else None), e)
              else (po, e)
    | Some _ => (po, e)
    end in
  match option_field type (Z.of_nat (length data)) with
  | Some f => (PO (λ g, if decide (g = f) then Some data else po_val po g) (po_vsi po) (po_bootfile po), e)
  | None => (po, e)
  end.

Fixpoint parse_loop (fuel : nat) (pb : windows) (po : parsed_opts) (e : env)
    : res (windows * parsed_opts * env) :=
  match fuel with
  | O => Fault NoFuel
  | S fuel =>
      '(missing, pb) ← pullup_or_assert 1 pb;
      if negb (missing =? 0) then Ret (pb, po, e)
      else
        let type := byte_at (first pb) 0 in
        if type =? 255 then Ret (pb, po, e)
        else
          pb ← drop_or_panic 1 pb;
          if type =? 0 then parse_loop fuel pb po e
          else
            '(missing, pb) ← pullup_or_assert 1 pb;
            if negb (missing =? 0) then Ret (pb, po, e)
            else
              let len := byte_at (first pb) 0 in
              pb ← drop_or_panic 1 pb;
              if pktlen pb <? len then Ret (pb, po, e)
              else
                '(missing, pb) ← pullup_or_assert (Z.to_nat len) pb;
                if negb (missing =? 0) then Ret (pb, po, e)
                else
                  let '(po, e) := take_option type (take (Z.to_nat len) (first pb)) po e in
                  pb ← drop_or_panic (Z.to_nat len) pb;
                  parse_loop fuel pb po e
  end.
(** Every round takes at least a byte. *)
Definition parse_opts (pb : windows) (e : env) : res (windows * parsed_opts * env) :=
  parse_loop (S (length (concat pb))) pb (PO (λ _, None) None None) e.

(** ** Handlers *)

(** [dhcpv4_update]; whether the thread is there or not, the arguments are gone. *)
Definition dhcpv4_update (vsi bootfile : option (list Z)) (d : dhcp) : dhcp := emit (DUpdate vsi bootfile) d.

(** [__builtin_ffs] *)
Definition ffs (x : Z) : Z := if x =? 0 then 0 else Z.log2 (Z.land x (- x)) + 1.

(** A field as the 32-bit value that was copied to it. *)
Definition po_u32 (po : parsed_opts) (f : field) : Z := ld32 (default [] (po_val po f)) 0.
(** [(po.valid & REQUIRED_OPTIONS_FROM_SERVER) == REQUIRED_OPTIONS_FROM_SERVER] *)
Definition required (po : parsed_opts) : bool :=
  forallb (λ f, bool_decide (is_Some (po_val po f))) [FMsgtype; FNetmask; FGateway; FLeaseTime; FServerId].

Definition input_offer (yiaddr from : Z) (po : parsed_opts) (d : dhcp) : res dhcp :=
  if negb (d_state d =? DHCP_STATE_SELECTING) then Ret (emit (DLog LOfferNotSelecting) d)
  else
    let d := emit (DLog (LOffer yiaddr from)) d in
    let d := set_lease (po_u32 po FServerId) yiaddr d in
    dhcpv4_request (set_retries 0 d).

Definition input_ack (yiaddr from : Z) (po : parsed_opts) (d : dhcp) : dhcp :=
  if (negb (d_state d =? DHCP_STATE_REQUESTING) && negb (d_state d =? DHCP_STATE_BOUND))%bool then d
  else
    let d := if negb (d_addr d =? yiaddr) then emit (DLog (LAck yiaddr from)) d else d in
    if negb (d_requested_ip d =? yiaddr) then emit (DLog LNotRequested) d
    else if negb (d_server_ip d =? from) then emit (DLog LNotSource) d
    else
      let d := set_addr yiaddr (u8 (33 - ffs (htonl (po_u32 po FNetmask)))) d in
      let d := set_state DHCP_STATE_BOUND d in
      let d := dhcpv4_update (po_vsi po) (po_bootfile po) d in
      let d := arm (1000000 * (htonl (po_u32 po FLeaseTime) / 2)) d in
      match po_val po FNtp with
      | Some _ => emit (DNtp (po_u32 po FNtp)) d
      | None => d
      end.

(** [dhcpv4_input]: the client afterwards; the packet is freed by the caller. *)
Definition dhcpv4_input (pb : windows) (udp_offset : nat) (d : dhcp) : res dhcp :=
  let from := ld32 (first pb) 12 in
  pb ← drop_or_panic (udp_offset + 8) pb;
  '(missing, pb) ← pullup_or_assert SIZEOF_DHCP_HDR pb;
  if negb (missing =? 0) then Ret d
  else
    let dh := first pb in
    if negb (byte_at dh 0 =? 2) then Ret d
    else if negb (ld32 dh 4 =? d_xid d) then Ret d
    else
      let yiaddr := ld32 dh 16 in
      pb ← drop_or_panic SIZEOF_DHCP_HDR pb;
      '(_, po, e) ← parse_opts pb (d_env d);
      let d := set_env e d in
      if required po then
        let msgtype := byte_at (default [] (po_val po FMsgtype)) 0 in
        if msgtype =? DHCPOFFER then input_offer yiaddr from po d
        else if msgtype =? DHCPACK then Ret (input_ack yiaddr from po d)
        else Ret d
      else Ret d.

Definition dhcp_timer_cb (d : dhcp) : res dhcp :=
  if d_state d =? DHCP_STATE_SELECTING then dhcpv4_discover d
  else if d_state d =? DHCP_STATE_REQUESTING then
    if 5 <=? d_retries d then dhcpv4_discover d else dhcpv4_request d
  else if d_state d =? DHCP_STATE_BOUND then dhcpv4_request d
  else Ret d.

Definition dhcpv4_status_change (d : dhcp) : res dhcp :=
  let d := dhcpv4_update None None d in
  if negb (has (ni_flags (d_ni d)) NETIF_F_UP) then Ret d
  else if ((d_state d =? DHCP_STATE_IDLE) || (d_state d =? DHCP_STATE_SELECTING))%bool then dhcpv4_discover d
  else if ((d_state d =? DHCP_STATE_REQUESTING) || (d_state d =? DHCP_STATE_BOUND))%bool then dhcpv4_request d
  else Ret d.
End Client.

(** * The reference reading of options *)

(** The options in a list of bytes, up to the end mark or one that is cut off. *)
Fixpoint tlvs (fuel : nat) (bs : list Z) : list (Z * list Z) :=
  match fuel, bs with
  | S fuel, t :: rest =>
      if t =? 255 then []
      else if t =? 0 then tlvs fuel rest
      else match rest with
           | [] => []
           | l :: rest =>
               if (length rest <? Z.to_nat l)%nat then []
               else (t, take (Z.to_nat l) rest) :: tlvs fuel (drop (Z.to_nat l) rest)
           end
  | _, _ => []
  end.
Definition options_of (bs : list Z) : list (Z * list Z) := tlvs (S (length bs)) bs.

(** The option that fills a field: the last one with the field's type and length. *)
Definition opt_value (f : field) (opts : list (Z * list Z)) : option (list Z) :=
  snd <$> last (filter (λ o, option_field o.1 (Z.of_nat (length o.2)) = Some f) opts).

(** The bytes of an option, and of a list of them. *)
Definition enc_option (o : Z * list Z) : list Z := [o.1; Z.of_nat (length o.2)] ++ o.2.
Definition enc_options (opts : list (Z * list Z)) : list Z := (opts ≫= enc_option) ++ [255].
Definition option_ok (o : Z * list Z) : Prop := 0 < o.1 < 255 ∧ (length o.2 < 256)%nat.

Fixpoint take_options (opts : list (Z * list Z)) (po : parsed_opts) (e : env) : parsed_opts * env :=
  match opts with
  | [] => (po, e)
  | (t, data) :: rest => let '(po, e) := take_option t data po e in take_options rest po e
  end.

(** ** Walking buffers *)

Lemma pull_front n pb : (n <= PBUF_DATA_SIZE)%nat →
  ∃ pb', pullup_or_assert n pb = Ret (Z.max 0 (Z.of_nat n - Z.of_nat (length (concat pb))), pb') ∧
    concat pb' = concat pb ∧ ((n <= length (concat pb))%nat → take n (first pb') = take n (concat pb)).
Proof.
  intros Hn. unfold pullup_or_assert. rewrite (proj2 (Nat.ltb_ge PBUF_DATA_SIZE n)), andb_false_r by done.
  destruct (win_pullup n pb) as [m pb'] eqn:E. destruct (win_pullup_spec _ _ _ _ E) as (E1 & E2 & E3).
  exists pb'. unfold pktlen in *. rewrite E2. split; [done|]. split; [done|]. intros Hl.
  rewrite <- E1 in *. specialize (E3 ltac:(lia)). destruct pb' as [|w next]; [cbn in *; assert (n = 0%nat) as -> by lia; done|].
  cbn [first concat] in *. by rewrite take_app_le by lia.
Qed.

Lemma byte_of_front pb t rest : take 1 (first pb) = take 1 (t :: rest) → byte_at (first pb) 0 = t.
Proof. destruct (first pb); cbn; congruence. Qed.

(** [parse_opts] reads from buffers, however the bytes are spread over them, the options
    the bytes hold; it does not fail and its fuel is enough. *)
Lemma parse_loop_ok fuel pb po e :
  bytes (concat pb) → (length (concat pb) < fuel)%nat →
  ∃ pb', parse_loop fuel pb po e =
    Ret (pb', (take_options (tlvs fuel (concat pb)) po e).1, (take_options (tlvs fuel (concat pb)) po e).2).
Proof.
  revert pb po e. induction fuel as [|fuel IH]; intros pb po e Hb Hf; [lia|].
  cbn [parse_loop tlvs]. destruct (pull_front 1 pb) as (p1 & -> & C1 & T1); [unfold PBUF_DATA_SIZE; lia|].
  cbn [mbind res_bind]. destruct (concat pb) as [|t rest] eqn:Ec; [by eexists|].
  cbn [length] in *. rewrite (proj2 (Z.eqb_eq _ 0)) by lia. cbn [negb].
  rewrite (byte_of_front _ t rest) by (apply T1; lia). apply Forall_cons in Hb as [Ht Hb].
  destruct (Z.eqb_spec t 255) as [->|]; [by eexists|]. rewrite drop_ok by (rewrite C1; cbn; lia). cbn [mbind res_bind].
  set (p2 := win_drop 1 p1). assert (concat p2 = rest) as C2 by (unfold p2; by rewrite win_drop_concat, C1).
  destruct (Z.eqb_spec t 0) as [->|].
  { destruct (IH p2 po e) as [pb' E]; [by rewrite C2|rewrite C2; lia|]. exists pb'. by rewrite E, C2. }
  destruct (pull_front 1 p2) as (p3 & -> & C3 & T3); [unfold PBUF_DATA_SIZE; lia|]. cbn [mbind res_bind].
  rewrite C2 in *. destruct rest as [|l rest]; [by eexists|]. cbn [length] in *.
  rewrite (proj2 (Z.eqb_eq _ 0)) by lia. cbn [negb]. rewrite (byte_of_front _ l rest) by (apply T3; lia).
  apply Forall_cons in Hb as [Hl Hb]. unfold is_byte in Hl.
  rewrite drop_ok by (rewrite C3; cbn; lia). cbn [mbind res_bind].
  set (p4 := win_drop 1 p3). assert (concat p4 = rest) as C4 by (unfold p4; by rewrite win_drop_concat, C3).
  unfold pktlen. rewrite C4. destruct (Z.ltb_spec (Z.of_nat (length rest)) l) as [Hsh|Hen].
  { rewrite (proj2 (Nat.ltb_lt _ _)) by lia. by eexists. }
  rewrite (proj2 (Nat.ltb_ge _ _)) by lia.
  destruct (pull_front (Z.to_nat l) p4) as (p5 & -> & C5 & T5); [unfold PBUF_DATA_SIZE; lia|]. cbn [mbind res_bind].
  rewrite C4 in *. rewrite (proj2 (Z.eqb_eq _ 0)) by lia. cbn [negb]. rewrite T5 by lia. cbn [take_options].
  destruct (take_option t (take (Z.to_nat l) rest) po e) as [po' e']. rewrite drop_ok by (rewrite C5; lia).
  cbn [mbind res_bind]. destruct (IH (win_drop (Z.to_nat l) p5) po' e') as [pb' E].
  - rewrite win_drop_concat, C5. by apply Forall_drop.
  - rewrite win_drop_concat, C5, length_drop. lia.
  - exists pb'. by rewrite E, win_drop_concat, C5.
Qed.

Lemma take_option_val t data po e f :
  po_val (take_option t data po e).1 f =
  if decide (option_field t (Z.of_nat (length data)) = Some f) then Some data else po_val po f.
Proof.
  unfold take_option. destruct (match po_vsi po with None => _ | Some _ => _ end) as [p1 e1] eqn:E1.
  assert (po_val p1 = po_val po) as H1 by (repeat case_match; by simplify_eq/=).
  destruct (match po_bootfile p1 with None => _ | Some _ => _ end) as [p2 e2] eqn:E2.
  assert (po_val p2 = po_val p1) as H2 by (repeat case_match; by simplify_eq/=).
  destruct (option_field t (Z.of_nat (length data))) as [g|]; cbn [fst po_val].
  - destruct (decide (f = g)) as [->|]; [by rewrite decide_True|].
    rewrite decide_False by congruence. by rewrite H2, H1.
  - by rewrite decide_False, H2, H1.
Qed.

Lemma take_options_val opts : ∀ po e f,
  po_val (take_options opts po e).1 f =
  match opt_value f opts with Some v => Some v | None => po_val po f end.
Proof.
  induction opts as [|[t data] opts IH]; intros po e f; [done|]. cbn [take_options].
  pose proof (take_option_val t data po e f) as Hv. destruct (take_option t data po e) as [po' e'].
  rewrite IH. cbn [fst] in Hv. unfold opt_value. rewrite filter_cons. cbn [fst snd]. case_decide; [|by rewrite Hv].
  rewrite last_cons. destruct (last (filter _ opts)); [done|]. by rewrite Hv.
Qed.

(** [parse_opts] is the reference reading of the options: it comes to an end without
    a fault on every packet, whatever buffers its bytes are in and whatever they are, and
    a field is valid exactly when an option with its type and length is in the list, with
    the value of the last one. *)
Theorem parse_opts_correct pb e :
  bytes (concat pb) →
  ∃ pb' po e', parse_opts pb e = Ret (pb', po, e') ∧ ∀ f, po_val po f = opt_value f (options_of (concat pb)).
Proof.
  intros Hb. unfold parse_opts. destruct (parse_loop_ok (S (length (concat pb))) pb (PO (λ _, None) None None) e)
    as [pb' ->]; [done|lia|].
  eexists _, _, _. split; [reflexivity|]. intros f. rewrite take_options_val. cbn [po_val].
  unfold options_of. by destruct (opt_value _ _).
Qed.

(** ** Options that were written *)

Lemma tlvs_enc opts rest : ∀ fuel, Forall option_ok opts → (length (opts ≫= enc_option) < fuel)%nat →
  tlvs fuel ((opts ≫= enc_option) ++ 255 :: rest) = opts.
Proof.
  induction opts as [|[t data] opts IH]; intros fuel Hok Hf.
  { destruct fuel; [lia|]. done. }
  apply Forall_cons in Hok as [[Ht Hd] Hok]. cbn [fst snd] in *. destruct fuel as [|fuel]; [lia|].
  rewrite bind_cons in *. unfold enc_option at 1. cbn [fst snd app]. cbn [tlvs].
  rewrite (proj2 (Z.eqb_neq _ _)), (proj2 (Z.eqb_neq _ _)) by lia. rewrite Nat2Z.id, <- app_assoc.
  rewrite (proj2 (Nat.ltb_ge _ _)) by (rewrite length_app; lia). rewrite take_app_length, drop_app_length.
  f_equal. apply IH; [done|]. rewrite length_app in Hf. cbn in Hf. lia.
Qed.

(** An option list that was written is read back. *)
Theorem options_roundtrip opts : Forall option_ok opts → options_of (enc_options opts) = opts.
Proof.
  intros Hok. unfold options_of, enc_options. apply (tlvs_enc opts []); [done|].
  rewrite length_app. cbn. lia.
Qed.

(** * The client *)

Section ClientFacts.
Context (vcid : option (list Z)).

(** The vendor class fits the messages. *)
Definition vcid_ok : Prop := match vcid with Some s => bytes s ∧ (length s <= 196)%nat | None => True end.

(** The interface and the interfaces of the next hops are there. *)
Record dhcp_wf (d : dhcp) : Prop := {
  wf_if : (d_if d < length (netifs (d_routes d)))%nat;
  wf_nh : routes_ok (d_routes d);
  wf_mac : length (d_mac d) = 6%nat ∧ bytes (d_mac d) }.

(** What sending a message may change: next hops, the transaction, what is used up of the
    environment, and the packets sent. *)
Record sent (d d' : dhcp) : Prop := {
  se_state : d_state d' = d_state d;
  se_retries : d_retries d' = d_retries d;
  se_server : d_server_ip d' = d_server_ip d;
  se_requested : d_requested_ip d' = d_requested_ip d;
  se_timer : d_timer d' = d_timer d;
  se_mac : d_mac d' = d_mac d;
  se_if : d_if d' = d_if d;
  se_now : d_now d' = d_now d;
  se_netifs : netifs (d_routes d') = netifs (d_routes d);
  se_out : ∃ o, d_out d' = d_out d ++ (DSend <$> o) }.

Lemma sent_refl d : sent d d.
Proof. split; try done. exists []. by rewrite app_nil_r. Qed.

Lemma sent_ni d d' : sent d d' → d_ni d' = d_ni d.
Proof. intros []. unfold d_ni. by rewrite se_netifs0, se_if0. Qed.

Lemma append_fits bs m : (44 + length m + length bs <= PBUF_DATA_SIZE)%nat → append bs m = Ret (m ++ bs).
Proof. intros H. unfold append. by rewrite (proj2 (Nat.leb_le _ _)). Qed.

Lemma append_option_ok code data m :
  (length data < 256)%nat → (46 + length m + length data <= PBUF_DATA_SIZE)%nat →
  append_option_copy code data m = Ret (m ++ enc_option (code, data)).
Proof.
  intros Hl Hf. unfold append_option_copy. rewrite u8_id by (unfold is_byte; lia).
  rewrite Nat2Z.id, take_ge by lia. apply append_fits. unfold enc_option. cbn [length app snd]. lia.
Qed.

Definition vcid_opts : list (Z * list Z) := match vcid with Some s => [(DHCP_VENDOR_CLASS_ID, s)] | None => [] end.
Definition default_opts (d : dhcp) : list (Z * list Z) :=
  [(DHCP_CLIENT_IDENTIFIER, 1 :: d_mac d);
   (DHCP_PARAMETER_REQUEST_LIST, [DHCP_SUBNET_MASK; DHCP_GATEWAY; DHCP_LEASE_TIME])] ++ vcid_opts.
(** The options of a DISCOVER and of a REQUEST. *)
Definition discover_opts (d : dhcp) : list (Z * list Z) := (DHCP_MESSAGE_TYPE, [DHCPDISCOVER]) :: default_opts d.
Definition request_opts (d : dhcp) : list (Z * list Z) :=
  (DHCP_MESSAGE_TYPE, [DHCPREQUEST]) :: default_opts d ++
  (if d_addr d =? 0 then [(DHCP_SERVER_IDENTIFIER, le32 (d_server_ip d));
                          (DHCP_REQUESTED_IP_ADDRESS, le32 (d_requested_ip d))] else []).

Lemma vcid_opts_ok : vcid_ok → bytes (vcid_opts ≫= enc_option) ∧ (length (vcid_opts ≫= enc_option) <= 198)%nat ∧
  Forall option_ok vcid_opts.
Proof.
  unfold vcid_ok, vcid_opts. destruct vcid as [s|]; [|repeat constructor; cbn; lia].
  intros [Hb Hl]. cbn [mbind list_bind]. rewrite app_nil_r. unfold enc_option, DHCP_VENDOR_CLASS_ID.
  cbn [fst snd app length]. split_and!; [|lia|].
  - constructor; [unfold is_byte; lia|]. constructor; [unfold is_byte; lia|done].
  - constructor; [|constructor]. unfold option_ok. cbn [fst snd]. lia.
Qed.

Lemma append_default_ok d m :
  vcid_ok → length (d_mac d) = 6%nat → (length m <= 243)%nat →
  append_default_options vcid d m = Ret (m ++ (default_opts d ≫= enc_option)).
Proof.
  intros Hv Hm Hl. unfold append_default_options, append_client_identifier, append_parameter_request_list.
  rewrite append_option_ok by (unfold PBUF_DATA_SIZE; cbn [length]; lia). cbn [mbind res_bind].
  rewrite append_option_ok by (unfold PBUF_DATA_SIZE, enc_option; rewrite ?length_app; cbn [length fst snd app]; lia).
  cbn [mbind res_bind]. unfold default_opts, vcid_opts. unfold vcid_ok in Hv. destruct vcid as [s|].
  - destruct Hv as [_ Hs]. rewrite append_option_ok.
    + cbn [app mbind list_bind]. by rewrite !app_nil_r, <- !app_assoc.
    + lia.
    + unfold PBUF_DATA_SIZE, enc_option. rewrite !length_app. cbn [length fst snd app]. lia.
  - cbn [app mbind list_bind]. by rewrite !app_nil_r, <- !app_assoc.
Qed.

Lemma dhcp_hdr_ok xid ci mac : length mac = 6%nat → bytes mac →
  length (dhcp_hdr xid ci mac) = 240%nat ∧ bytes (dhcp_hdr xid ci mac).
Proof.
  intros Hl Hb. unfold dhcp_hdr. rewrite !length_app, !length_replicate. cbn [length le32]. split; [lia|].
  repeat (apply Forall_app; split); try (by apply Forall_replicate; unfold is_byte; lia); try done;
    repeat constructor; first [apply u8_byte | unfold is_byte; lia].
Qed.

(** A packet with message [m] for [dst]. *)
Definition carries (q : windows) (dst : Z) (m : list Z) : Prop :=
  ld32 (concat q) 16 = dst ∧ drop 28 (concat q) = m.

Lemma udp_send_carries rnd r i m dst nh ni :
  bytes m → (length m <= 468)%nat → is_u32 dst → netifs r !! i = Some ni →
  ∃ q, udp_send true rnd r (Some i) (Pkt 44 [m]) dst nh 68 67 = Ret (Some (IpOut i nh q), r) ∧ carries q dst m.
Proof.
  intros Hb Hl Hd Hni. assert (concat (pk_win (Pkt 44 [m])) = m) as Ec by (cbn; apply app_nil_r).
  destruct (udp_send_packet true rnd r i (Pkt 44 [m]) dst nh 68 67 ni) as (q & c & e & E & Eq & _);
    rewrite ?Ec; try done.
  - constructor.
  - unfold small. lia.
  - rewrite Ec in Eq. exists q. split; [done|]. split.
    + rewrite Eq. change (ld32 (le32 dst) 0 = dst). by apply ld32_le32.
    + by rewrite Eq.
Qed.

Lemma dhcpv4_send_ok m dst d :
  dhcp_wf d → bytes m → (length m <= 468)%nat → is_u32 dst →
  ∃ d', dhcpv4_send m dst d = Ret d' ∧ sent d d' ∧ dhcp_wf d' ∧ d_xid d' = d_xid d ∧
    (dst = INADDR_BROADCAST →
     ∃ q, d_out d' = d_out d ++ [DSend (IpOut (d_if d) None q)] ∧ carries q dst m).
Proof.
  intros [W1 W2 W3] Hb Hl Hd. unfold dhcpv4_send.
  assert (∀ i r e nh, (i < length (netifs (d_routes d)))%nat → netifs r = netifs (d_routes d) →
    routes_ok r → ∃ q d', ('(o, r) ← udp_send true (next_rand e).1 r (Some i) (Pkt 44 [m]) dst nh 68 67;
      match o with
      | Some o => Ret (emit (DSend o) (set_routes r (set_env (next_rand e).2 (set_routes r (set_env e d)))))
      | None => Ret (set_routes r (set_env (next_rand e).2 (set_routes r (set_env e d))))
      end) = Ret d' ∧ sent d d' ∧ dhcp_wf d' ∧ d_xid d' = d_xid d ∧ d_out d' = d_out d ++ [DSend (IpOut i nh q)] ∧
      carries q dst m) as Hgo.
  { intros i r e nh Hi Hn Hf. rewrite <- Hn in Hi. apply lookup_lt_is_Some in Hi as [ni Hni].
    destruct (udp_send_carries (next_rand e).1 r i m dst nh ni) as (q & -> & Hq); try done.
    cbn [mbind res_bind]. exists q. eexists. split; [reflexivity|]. split_and!; try done.
    - split; try done. by exists [IpOut i nh q].
    - split; cbn [emit set_routes set_env d_if d_routes d_mac]; [by rewrite Hn|done|done]. }
  destruct (Z.eqb_spec dst INADDR_BROADCAST) as [->|Hne]; cbn [negb].
  - destruct (next_rand (d_env d)) as [x e] eqn:Er.
    destruct (Hgo (d_if d) (d_routes d) (d_env d) None) as (q & d' & E & H1 & H2 & H3 & H4 & H5); try done.
    rewrite Er in E. cbn [fst snd] in E. exists d'. split_and!; try done. by eauto.
  - destruct (next_mem (d_env d)) as [mem e].
    destruct (ipv4_nexthop_resolve mem (d_routes d) dst) as [nh r] eqn:Er.
    destruct (resolve_ok _ _ _ _ _ W2 Er) as (Hf & Hn & Hh). destruct nh as [h|]; cbn [fmap option_fmap option_map].
    + destruct (next_rand e) as [x e'] eqn:Ex.
      destruct (Hgo (nh_netif h) r e (Some h)) as (q & d' & E & H1 & H2 & H3 & _); try done; [by rewrite <- Hn; apply Hh|].
      rewrite Ex in E. cbn [fst snd] in E. exists d'. split_and!; try done.
      cbn [d_env set_routes set_env]. by rewrite Ex.
    + eexists. split; [reflexivity|]. split_and!; try done.
      * split; try done. exists []. by rewrite app_nil_r.
      * split; cbn [set_routes set_env d_if d_routes d_mac]; rewrite ?Hn; done.
Qed.

(** Whether [pbuf_make] will find a buffer. *)
Definition buf_ready (d : dhcp) : Prop := (next_buf (d_env d)).1 = true.

(** The message with options [opts] that the client [d] sends to [dst], as the packet
    [q]: with the transaction number it now waits for. *)
Definition message (q : windows) (dst : Z) (d : dhcp) (opts : list (Z * list Z)) : Prop :=
  carries q dst (dhcp_hdr (d_xid d) (d_addr d) (d_mac d) ++ enc_options opts).

Lemma sent_set_xid x e d d' : sent (set_xid x (set_env e d)) d' → sent d d'.
Proof. intros []. by split. Qed.

Lemma wf_set_xid x e d : dhcp_wf d → dhcp_wf (set_xid x (set_env e d)).
Proof. intros []. by split. Qed.

Lemma default_enc d : default_opts d ≫= enc_option =
  [61; Z.of_nat (S (length (d_mac d))); 1] ++ d_mac d ++ [55; 3; 1; 3; 51] ++ (vcid_opts ≫= enc_option).
Proof. reflexivity. Qed.

(** The first part of every message: the header, the type and the default options. *)
Lemma message_head t x ci d d1 :
  vcid_ok → dhcp_wf d → is_byte t → d_mac d1 = d_mac d →
  let m := dhcp_hdr x ci (d_mac d) ++ (((DHCP_MESSAGE_TYPE, [t]) :: default_opts d) ≫= enc_option) in
  (m ← append_option_u8 DHCP_MESSAGE_TYPE t (dhcp_hdr x ci (d_mac d)); append_default_options vcid d1 m) = Ret m ∧
  (length m <= 455)%nat ∧ bytes m.
Proof.
  intros Hv [_ _ [Hm Hmb]] Ht Emac m. destruct (dhcp_hdr_ok x ci (d_mac d) Hm Hmb) as [Hl Hb].
  destruct (vcid_opts_ok Hv) as (Vb & Vl & _).
  unfold append_option_u8. rewrite append_option_ok by (rewrite ?Hl; unfold PBUF_DATA_SIZE; cbn [length]; lia).
  cbn [mbind res_bind]. rewrite append_default_ok; [|done|by rewrite Emac|rewrite length_app, Hl; cbn; lia].
  assert (default_opts d1 = default_opts d) as -> by (unfold default_opts; by rewrite Emac).
  split; [subst m; by rewrite <- app_assoc|]. subst m. rewrite bind_cons, default_enc.
  rewrite !length_app, !Forall_app, Hl, Hm. cbn [length enc_option fst snd app]. split; [lia|].
  split; [done|]. split; [repeat constructor; unfold is_byte, DHCP_MESSAGE_TYPE in *; lia|].
  split; [repeat constructor; unfold is_byte; lia|]. split; [done|]. split; [|done].
  repeat constructor; unfold is_byte; lia.
Qed.

Lemma make_cases d : dhcp_wf d →
  (∃ e, ¬ buf_ready d ∧ dhcpv4_make d = Ret (None, set_env e d)) ∨
  (∃ x e, dhcpv4_make d = Ret (Some (dhcp_hdr x (d_addr d) (d_mac d)), set_xid x (set_env e d))).
Proof.
  intros Hwf. unfold dhcpv4_make, buf_ready. destruct (next_buf (d_env d)) as [ok e]. destruct ok; cbn [fst].
  - right. destruct (next_rand e) as [x e']. exists (u32 x), e'. cbn [d_xid d_mac set_xid].
    change (d_addr (set_xid (u32 x) (set_env e' d))) with (d_addr d). change (d_mac (set_env e' d)) with (d_mac d).
    destruct (wf_mac d Hwf) as [Hm Hmb]. destruct (dhcp_hdr_ok (u32 x) (d_addr d) (d_mac d) Hm Hmb) as [Hl _].
    by rewrite append_fits by (rewrite Hl; cbn; unfold PBUF_DATA_SIZE; lia).
  - left. exists e. split; [done|]. done.
Qed.

Lemma sent_set_env e d : sent d (set_env e d).
Proof. split; try done. exists []. by rewrite app_nil_r. Qed.

(** The last part: the end mark, and on its way. *)
Lemma message_tail x e m opts dst d :
  dhcp_wf d → bytes m → (length m <= 467)%nat → is_u32 dst →
  m ++ [255] = dhcp_hdr x (d_addr d) (d_mac d) ++ enc_options opts →
  ∃ d', (m ← append_end m; dhcpv4_send m dst (set_xid x (set_env e d))) = Ret d' ∧ sent d d' ∧ dhcp_wf d' ∧
    (dst = INADDR_BROADCAST →
     ∃ q, d_out d' = d_out d ++ [DSend (IpOut (d_if d) None q)] ∧ message q dst d' opts).
Proof.
  intros Hwf Hb Hl Hd Em. unfold append_end.
  rewrite append_fits by (unfold PBUF_DATA_SIZE; cbn [length]; lia). cbn [mbind res_bind].
  destruct (dhcpv4_send_ok (m ++ [255]) dst (set_xid x (set_env e d))) as (d' & -> & Hs & Hw & Hx & Hq).
  - by apply wf_set_xid.
  - rewrite Forall_app. split; [done|]. repeat constructor; unfold is_byte; lia.
  - rewrite length_app. cbn. lia.
  - done.
  - exists d'. split; [done|]. split; [by eapply sent_set_xid|]. split; [done|]. intros E.
    destruct (Hq E) as (q & Eo & Hc). exists q. split; [done|]. rewrite Em in Hc. unfold message, d_addr in *.
    rewrite Hx, (sent_ni _ _ Hs), (se_mac _ _ Hs). exact Hc.
Qed.

Lemma send_discover_ok d :
  vcid_ok → dhcp_wf d →
  ∃ d', dhcpv4_send_discover vcid d = Ret d' ∧ sent d d' ∧ dhcp_wf d' ∧
    (buf_ready d → ∃ q, d_out d' = d_out d ++ [DSend (IpOut (d_if d) None q)] ∧
       message q INADDR_BROADCAST d' (discover_opts d)).
Proof.
  intros Hv Hwf. unfold dhcpv4_send_discover.
  destruct (make_cases d Hwf) as [(e & Hno & ->)|(x & e & ->)]; cbn [mbind res_bind].
  { eexists. split; [reflexivity|]. split; [apply sent_set_env|]. split; [destruct Hwf; by split|done]. }
  destruct (message_head DHCPDISCOVER x (d_addr d) d (set_xid x (set_env e d))) as (E & Hl & Hb); try done.
  unfold mbind in E. unfold mbind. destruct (append_option_u8 _ _ _) as [m|]; [|done]. cbn [res_bind] in *. rewrite E.
  cbn [res_bind]. set (m1 := _ ++ _) in *.
  destruct (message_tail x e m1 (discover_opts d) INADDR_BROADCAST d) as (d' & E' & Hs & Hw & Hq); try done; [lia| |].
  { subst m1. unfold enc_options, discover_opts. by rewrite <- app_assoc. }
  exists d'. split; [exact E'|]. split; [done|]. split; [done|]. intros _. by apply Hq.
Qed.

Lemma send_request_ok d :
  vcid_ok → dhcp_wf d → is_u32 (d_server_ip d) →
  ∃ d', dhcpv4_send_request vcid d = Ret d' ∧ sent d d' ∧ dhcp_wf d' ∧
    (buf_ready d → d_addr d = 0 → ∃ q, d_out d' = d_out d ++ [DSend (IpOut (d_if d) None q)] ∧
       message q INADDR_BROADCAST d' (request_opts d)).
Proof.
  intros Hv Hwf Hsv. unfold dhcpv4_send_request.
  destruct (make_cases d Hwf) as [(e & Hno & ->)|(x & e & ->)]; cbn [mbind res_bind].
  { eexists. split; [reflexivity|]. split; [apply sent_set_env|]. split; [destruct Hwf; by split|done]. }
  destruct (message_head DHCPREQUEST x (d_addr d) d (set_xid x (set_env e d))) as (E & Hl & Hb); try done.
  unfold mbind in E. unfold mbind. destruct (append_option_u8 _ _ _) as [m|]; [|done]. cbn [res_bind] in *. rewrite E.
  cbn [res_bind]. set (m1 := _ ++ _) in *. clear E m.
  change (d_addr (set_xid x (set_env e d))) with (d_addr d).
  change (d_server_ip (set_xid x (set_env e d))) with (d_server_ip d).
  change (d_requested_ip (set_xid x (set_env e d))) with (d_requested_ip d).
  set (opts := if d_addr d =? 0 then [(DHCP_SERVER_IDENTIFIER, le32 (d_server_ip d));
                          (DHCP_REQUESTED_IP_ADDRESS, le32 (d_requested_ip d))] else []).
  set (build := if d_addr d =? 0 then _ else Ret m1).
  assert (build = Ret (m1 ++ (opts ≫= enc_option)) ∧ bytes (opts ≫= enc_option) ∧
    (length (opts ≫= enc_option) <= 12)%nat) as (-> & Tb & Tl).
  { subst build opts. unfold append_option_v4addr. destruct (d_addr d =? 0).
    - rewrite append_option_ok by (unfold PBUF_DATA_SIZE; cbn [length le32]; lia). cbn [res_bind].
      rewrite append_option_ok.
      + split; [by rewrite <- app_assoc|]. split; [|cbn; lia]. cbn [mbind list_bind enc_option fst snd app le32 length].
        repeat (apply Forall_cons; split); first [apply u8_byte | exact (List.Forall_nil _)
          | unfold is_byte, DHCP_SERVER_IDENTIFIER, DHCP_REQUESTED_IP_ADDRESS; cbn; lia].
      + cbn. lia.
      + unfold PBUF_DATA_SIZE. rewrite length_app. cbn [length le32 enc_option fst snd app]. lia.
    - cbn [mbind list_bind]. rewrite app_nil_r. split_and!; [done|constructor|cbn; lia]. }
  cbn [res_bind].
  destruct (message_tail x e (m1 ++ (opts ≫= enc_option)) (request_opts d)
    (if d_addr d =? 0 then INADDR_BROADCAST else d_server_ip d) d) as (d' & E' & Hs & Hw & Hq).
  - done.
  - by rewrite Forall_app.
  - rewrite length_app. lia.
  - by destruct (d_addr d =? 0).
  - subst m1. unfold enc_options, request_opts. fold opts.
    change ((DHCP_MESSAGE_TYPE, [DHCPREQUEST]) :: default_opts d ++ opts) with
      (((DHCP_MESSAGE_TYPE, [DHCPREQUEST]) :: default_opts d) ++ opts).
    by rewrite bind_app, <- !app_assoc.
  - exists d'. split; [exact E'|]. split; [done|]. split; [done|]. intros _ Ha.
    rewrite Ha in Hq. by apply Hq.
Qed.

Lemma ni_set_ni ni d : (d_if d < length (netifs (d_routes d)))%nat → d_ni (set_ni ni d) = ni.
Proof.
  intros H. unfold d_ni, set_ni. cbn [set_routes d_routes d_if netifs].
  by rewrite list_lookup_insert_eq by done.
Qed.

Lemma wf_set_ni ni d : dhcp_wf d → dhcp_wf (set_ni ni d).
Proof.
  intros [W1 W2 W3]. unfold set_ni. split; cbn [set_routes d_routes d_if netifs ipv4_nexthops d_mac].
  - by rewrite length_insert.
  - unfold routes_ok in *. cbn [netifs ipv4_nexthops]. by rewrite length_insert.
  - done.
Qed.

(** *** The two ways to send *)

Lemma discover_ok d :
  vcid_ok → dhcp_wf d →
  ∃ d', dhcpv4_discover vcid d = Ret d' ∧ dhcp_wf d' ∧ d_state d' = DHCP_STATE_SELECTING ∧
    d_ni d' = mk_netif (ni_flags (d_ni d)) 0 (ni_ipv4_local_prefixlen (d_ni d)) ∧ d_server_ip d' = 0 ∧
    d_requested_ip d' = 0 ∧ d_retries d' = d_retries d ∧ d_timer d' = Some (d_now d + 500000) ∧ d_now d' = d_now d ∧ d_mac d' = d_mac d ∧ d_if d' = d_if d ∧
    (buf_ready d → ∃ o q, d_out d' = d_out d ++ o ++ [DSend (IpOut (d_if d) None q)] ∧
       message q INADDR_BROADCAST d' (discover_opts d)).
Proof.
  intros Hv Hwf. unfold dhcpv4_discover.
  set (d0 := if negb (d_state d =? DHCP_STATE_SELECTING) then _ else _).
  assert (dhcp_wf d0 ∧ d_state d0 = DHCP_STATE_SELECTING ∧ d_routes d0 = d_routes d ∧ d_if d0 = d_if d ∧
    d_retries d0 = d_retries d ∧ d_now d0 = d_now d ∧ d_env d0 = d_env d ∧ d_mac d0 = d_mac d ∧
    ∃ o, d_out d0 = d_out d ++ o) as (W & Hst & Hr & Hi & Hre & Hn & He & Hmac & o & Ho).
  { subst d0. destruct (Z.eqb_spec (d_state d) DHCP_STATE_SELECTING); cbn [negb].
    - split_and!; try done. exists []. by rewrite app_nil_r.
    - split_and!; try done; [destruct Hwf; by split|]. by eexists. }
  assert (d_ni d0 = d_ni d) as Hni by (unfold d_ni; by rewrite Hr, Hi). clearbody d0.
  set (d1 := set_addr 0 (ni_ipv4_local_prefixlen (d_ni d0)) d0).
  assert (d_ni d1 = mk_netif (ni_flags (d_ni d)) 0 (ni_ipv4_local_prefixlen (d_ni d))) as Hni1.
  { subst d1. unfold set_addr. rewrite ni_set_ni by apply W. by rewrite Hni. }
  destruct (send_discover_ok (set_lease 0 0 d1)) as (d' & -> & Hs & Hw & Hq); [done| |].
  { destruct (wf_set_ni (mk_netif (ni_flags (d_ni d0)) 0 (ni_ipv4_local_prefixlen (d_ni d0))) d0 W). by split. }
  cbn [mbind res_bind]. eexists. split; [reflexivity|]. pose proof (sent_ni _ _ Hs) as Hn'. destruct Hs.
  cbn [arm set_timer d_state d_routes d_server_ip d_requested_ip d_retries d_timer d_now d_out d_mac d_if].
  split_and!; rewrite ?se_state0, ?se_server0, ?se_requested0, ?se_retries0, ?se_now0, ?se_mac0, ?se_if0; try done.
  - destruct Hw. by split.
  - change (d_ni d' = mk_netif (ni_flags (d_ni d)) 0 (ni_ipv4_local_prefixlen (d_ni d))). rewrite Hn'. exact Hni1.
  - cbn. by rewrite Hn.
  - intros Hb. destruct Hq as (q & Eo & Hm); [unfold buf_ready in *; cbn; by rewrite He|].
    exists o, q. rewrite Eo. cbn [set_lease d1 set_addr set_ni set_routes d_out d_if]. rewrite Ho, <- app_assoc, Hi.
    split; [done|]. unfold message in *. cbn [d_xid d_mac] in *. unfold discover_opts, default_opts in *.
    cbn [d_mac set_lease d1 set_addr set_ni set_routes] in Hm. by rewrite Hmac in Hm.
Qed.

Lemma request_ok d :
  vcid_ok → dhcp_wf d → is_u32 (d_server_ip d) →
  let n := u8 ((if d_state d =? DHCP_STATE_REQUESTING then d_retries d else 0) + 1) in
  ∃ d', dhcpv4_request vcid d = Ret d' ∧ dhcp_wf d' ∧ d_state d' = DHCP_STATE_REQUESTING ∧
    d_ni d' = d_ni d ∧ d_server_ip d' = d_server_ip d ∧ d_requested_ip d' = d_requested_ip d ∧ d_retries d' = n ∧
    d_timer d' = Some (d_now d + 500000 * n) ∧ d_now d' = d_now d ∧ d_mac d' = d_mac d ∧ d_if d' = d_if d ∧
    (buf_ready d → d_addr d = 0 → ∃ q, d_out d' = d_out d ++ [DSend (IpOut (d_if d) None q)] ∧
       message q INADDR_BROADCAST d' (request_opts d)).
Proof.
  intros Hv Hwf Hsv n. unfold dhcpv4_request.
  set (d0 := if negb (d_state d =? DHCP_STATE_REQUESTING) then _ else _).
  assert (dhcp_wf d0 ∧ d_state d0 = DHCP_STATE_REQUESTING ∧ u8 (d_retries d0 + 1) = n ∧
    d0 = set_retries (d_retries d0) (set_state DHCP_STATE_REQUESTING d)) as (W & Hst & Hre & Ed).
  { subst d0 n. destruct (Z.eqb_spec (d_state d) DHCP_STATE_REQUESTING) as [E|]; cbn [negb].
    - split_and!; try done. rewrite <- E. by destruct d.
    - split_and!; try done. destruct Hwf; by split. }
  clearbody d0. assert (d_ni d0 = d_ni d ∧ d_server_ip d0 = d_server_ip d ∧ d_requested_ip d0 = d_requested_ip d ∧
    d_now d0 = d_now d ∧ d_env d0 = d_env d ∧ d_mac d0 = d_mac d ∧ d_out d0 = d_out d ∧ d_if d0 = d_if d)
    as (Hni & Hse & Hrq & Hn & He & Hmac & Ho & Hi) by (by rewrite Ed).
  destruct (send_request_ok d0) as (d' & -> & Hs & Hw & Hq); [done|done|by rewrite Hse|].
  cbn [mbind res_bind]. eexists. split; [reflexivity|]. pose proof (sent_ni _ _ Hs) as Hn'. destruct Hs.
  cbn [arm set_timer set_retries d_state d_routes d_server_ip d_requested_ip d_retries d_timer d_now d_out d_mac d_if].
  split_and!; rewrite ?se_state0, ?se_server0, ?se_requested0, ?se_retries0, ?se_now0, ?se_mac0, ?se_if0; try done.
  - destruct Hw. by split.
  - change (d_ni d' = d_ni d). by rewrite Hn'.
  - by rewrite Hre, Hn.
  - intros Hb Ha. destruct Hq as (q & Eo & Hm); [unfold buf_ready in *; by rewrite He|unfold d_addr in *; by rewrite Hni|].
    exists q. rewrite Eo, Ho, Hi. split; [done|].
    unfold message, request_opts, default_opts, d_addr in *. by rewrite Hni, Hmac, Hse, Hrq in Hm.
Qed.

(** *** Receiving *)

(** A packet that is a complete reply in transaction [xid] of type [type] that offers
    address [yiaddr], with option values [val]. *)
Record reply (xid : Z) (pb : windows) (type yiaddr : Z) (val : field → option (list Z)) : Prop := {
  re_bytes : bytes (concat pb);
  re_len : (268 <= length (concat pb))%nat;
  re_op : byte_at (drop 28 (concat pb)) 0 = 2;
  re_xid : ld32 (drop 28 (concat pb)) 4 = xid;
  re_yiaddr : ld32 (drop 28 (concat pb)) 16 = yiaddr;
  re_opts : ∀ f, val f = opt_value f (options_of (drop 268 (concat pb)));
  re_required : Forall (λ f, is_Some (val f)) [FMsgtype; FNetmask; FGateway; FLeaseTime; FServerId];
  re_type : byte_at (default [] (val FMsgtype)) 0 = type }.

Lemma front_reads pb n i : (n <= length (concat pb))%nat → take n (first pb) = take n (concat pb) → (i < n)%nat →
  byte_at (first pb) i = byte_at (concat pb) i.
Proof.
  intros Hl E Hi. rewrite <- (byte_at_take n (first pb)), <- (byte_at_take n (concat pb)) by done. by rewrite E.
Qed.

Lemma take_options_bufs opts : ∀ po e, e_bufs e = [] → e_bufs (take_options opts po e).2 = [].
Proof.
  induction opts as [|[t data] opts IH]; intros po e He; [done|]. cbn [take_options].
  destruct (take_option t data po e) as [po' e'] eqn:E. apply IH. unfold take_option, next_buf, next_mem in E.
  repeat case_match; simplify_eq/=; by rewrite ?He.
Qed.

(** What [dhcpv4_input] makes of a packet that is long enough to be a datagram: nothing,
    or what it does with a reply. *)
Lemma dhcpv4_input_cases pb d :
  bytes (concat pb) → (28 <= length (concat pb))%nat →
  (∃ e, dhcpv4_input vcid pb 20 d = Ret (set_env e d) ∧ ∀ type y val, ¬ reply (d_xid d) pb type y val) ∨
  ∃ type y po e, reply (d_xid d) pb type y (po_val po) ∧ (e_bufs (d_env d) = [] → e_bufs e = []) ∧
    dhcpv4_input vcid pb 20 d =
      if type =? DHCPOFFER then input_offer vcid y (ld32 (first pb) 12) po (set_env e d)
      else if type =? DHCPACK then Ret (input_ack y (ld32 (first pb) 12) po (set_env e d))
      else Ret (set_env e d).
Proof.
  intros Hb Hl. unfold dhcpv4_input. set (from := ld32 (first pb) 12).
  assert (d = set_env (d_env d) d) as Eeta by (by destruct d).
  change (20 + 8)%nat with 28%nat. rewrite drop_ok by done. cbn [mbind res_bind].
  destruct (pull_front SIZEOF_DHCP_HDR (win_drop 28 pb)) as (p1 & -> & C1 & T1);
    [unfold SIZEOF_DHCP_HDR, PBUF_DATA_SIZE; lia|]. cbn [mbind res_bind].
  rewrite win_drop_concat in *. set (m := drop 28 (concat pb)) in *.
  assert (length m = length (concat pb) - 28)%nat as Hlm by apply length_drop.
  unfold SIZEOF_DHCP_HDR in *.
  destruct (Z.eqb_spec (Z.max 0 (Z.of_nat 240 - Z.of_nat (length m))) 0) as [E0|E0]; cbn [negb].
  2:{ left. exists (d_env d). rewrite <- Eeta. split; [done|]. intros ? ? ? []. lia. }
  rewrite <- C1 in T1. assert (∀ i, (i < 240)%nat → byte_at (first p1) i = byte_at m i) as Hat.
  { intros i Hi. rewrite <- C1. apply (front_reads p1 240); [rewrite C1; lia|apply T1; rewrite C1; lia|done]. }
  unfold ld32, ld16. rewrite !Hat by lia. fold (ld16 m 4) (ld16 m (4 + 2)) (ld16 m 16) (ld16 m (16 + 2)).
  fold (ld32 m 4) (ld32 m 16).
  destruct (Z.eqb_spec (byte_at m 0) 2) as [E2|E2]; cbn [negb].
  2:{ left. exists (d_env d). rewrite <- Eeta. split; [done|]. by intros ? ? ? []. }
  destruct (Z.eqb_spec (ld32 m 4) (d_xid d)) as [Ex|Ex]; cbn [negb].
  2:{ left. exists (d_env d). rewrite <- Eeta. split; [done|]. by intros ? ? ? []. }
  rewrite drop_ok by (rewrite C1; lia). cbn [mbind res_bind]. set (p2 := win_drop 240 p1).
  assert (concat p2 = drop 268 (concat pb)) as C2.
  { unfold p2. rewrite win_drop_concat, C1. unfold m. by rewrite drop_drop. }
  unfold parse_opts.
  destruct (parse_loop_ok (S (length (concat p2))) p2 (PO (λ _, None) None None) (d_env d)) as [pb' ->];
    [rewrite C2; by apply Forall_drop|lia|]. cbn [mbind res_bind].
  set (r := take_options _ _ _). set (po := r.1). set (e := r.2).
  assert (∀ f, po_val po f = opt_value f (options_of (drop 268 (concat pb)))) as Hval.
  { intros f. subst po r. rewrite take_options_val. cbn [po_val]. rewrite C2. fold (options_of (drop 268 (concat pb))).
    by destruct (opt_value _ _). }
  destruct (required po) eqn:Er.
  - right. exists (byte_at (default [] (po_val po FMsgtype)) 0), (ld32 m 16), po, e. split; [|split; [apply take_options_bufs|done]].
    split; try done; [lia|]. unfold required in Er. cbn [forallb] in Er.
    rewrite !andb_true_iff, !bool_decide_eq_true in Er. repeat constructor; tauto.
  - left. exists e. split; [done|]. intros type y val R.
    assert (required po = true) as Er'; [|congruence]. unfold required. apply forallb_forall. intros f Hf.
    apply bool_decide_eq_true. rewrite Hval, <- (re_opts _ _ _ _ _ R).
    pose proof (re_required _ _ _ _ _ R) as HF. rewrite List.Forall_forall in HF. by apply HF.
Qed.

(** ** Runs *)

(** [ni_flags] with [NETIF_F_UP] set or cleared, as [netif_task_cb] does. *)
Definition set_up (up : bool) (d : dhcp) : dhcp :=
  set_ni (mk_netif (if up then Z.lor (ni_flags (d_ni d)) NETIF_F_UP else Z.ldiff (ni_flags (d_ni d)) NETIF_F_UP)
            (ni_ipv4_local_addr (d_ni d)) (ni_ipv4_local_prefixlen (d_ni d))) d.

(** The datagrams received so far, each with the transaction that was under way. *)
Abbreviation history := (list (Z * windows)).

(** A step of the network thread: a datagram for the client, the expired timer, a change of
    the link, time, and what there is in memory. *)
Inductive dstep : dhcp * history → dhcp * history → Prop :=
| ds_input pb d d' h :
    bytes (concat pb) → (28 <= length (concat pb))%nat → dhcpv4_input vcid pb 20 d = Ret d' →
    dstep (d, h) (d', h ++ [(d_xid d, pb)])
| ds_timer t d d' h :
    d_timer d = Some t → t <= d_now d → dhcp_timer_cb vcid (set_timer None d) = Ret d' → dstep (d, h) (d', h)
| ds_link up d d' h : dhcpv4_status_change vcid (set_up up d) = Ret d' → dstep (d, h) (d', h)
| ds_time t d h : d_now d <= t → dstep (d, h) (set_now t d, h)
| ds_env e d h : dstep (d, h) (set_env e d, h).

(** Server [s] has offered address [a], and has then granted it. *)
Definition offered (h : history) (a s : Z) : Prop :=
  ∃ h1 x p val h2, h = h1 ++ (x, p) :: h2 ∧ reply x p DHCPOFFER a val ∧ ld32 (default [] (val FServerId)) 0 = s.
Definition granted (h : history) (a s : Z) : Prop :=
  ∃ h1 x p val h2, h = h1 ++ (x, p) :: h2 ∧ offered h1 a s ∧ reply x p DHCPACK a val ∧ ld32 (first p) 12 = s.

Record dinv (s : dhcp * history) : Prop := {
  di_wf : dhcp_wf s.1;
  di_server : is_u32 (d_server_ip s.1);
  di_retries : 0 <= d_retries s.1 <= 255;
  di_state : 0 <= d_state s.1 <= 3;
  di_noaddr : d_state s.1 <= 1 → d_addr s.1 = 0;
  di_offer : 2 <= d_state s.1 → offered s.2 (d_requested_ip s.1) (d_server_ip s.1);
  di_grant : d_addr s.1 ≠ 0 → d_addr s.1 = d_requested_ip s.1 ∧ granted s.2 (d_addr s.1) (d_server_ip s.1);
  di_timer : 1 <= d_state s.1 → ∃ t, d_timer s.1 = Some t ∧ (d_state s.1 < 3 → t <= d_now s.1 + 127500000) }.

Lemma offered_app h k a s : offered h a s → offered (h ++ k) a s.
Proof.
  intros (h1 & x & p & val & h2 & -> & R & E). exists h1, x, p, val, (h2 ++ k).
  split; [by rewrite <- app_assoc|done].
Qed.
Lemma granted_app h k a s : granted h a s → granted (h ++ k) a s.
Proof.
  intros (h1 & x & p & val & h2 & -> & R). exists h1, x, p, val, (h2 ++ k).
  split; [by rewrite <- app_assoc|done].
Qed.

(** The invariant only looks at some fields, and does not mind more history. *)
Lemma dinv_same d d' h k :
  dinv (d, h) → dhcp_wf d' → d_state d' = d_state d → d_retries d' = d_retries d → d_server_ip d' = d_server_ip d →
  d_requested_ip d' = d_requested_ip d → d_timer d' = d_timer d → d_addr d' = d_addr d → d_now d <= d_now d' →
  dinv (d', h ++ k).
Proof.
  intros [] W E1 E2 E3 E4 E5 E6 E7. cbn [fst snd] in *.
  split; cbn [fst snd]; rewrite ?E1, ?E2, ?E3, ?E4, ?E5, ?E6; try done.
  - intros H. by apply offered_app, di_offer0.
  - intros H. destruct (di_grant0 H) as [? G]. split; [done|]. by apply granted_app.
  - intros H. destruct (di_timer0 H) as (t & ? & Ht). exists t. split; [done|]. intros Hs. specialize (Ht Hs). lia.
Qed.

Lemma dinv_discover d h : vcid_ok → dhcp_wf d → 0 <= d_retries d <= 255 →
  ∃ d', dhcpv4_discover vcid d = Ret d' ∧ dinv (d', h).
Proof.
  intros Hv Hwf Hr. destruct (discover_ok d Hv Hwf) as (d' & E & W & Hs & Hn & Hse & Hrq & Hre & Ht & Hnow & _ & _ & _).
  exists d'. split; [done|]. assert (d_addr d' = 0) as Ha by (unfold d_addr; by rewrite Hn).
  split; cbn [fst snd]; rewrite ?Hse, ?Hs, ?Hre; try done; [unfold DHCP_STATE_SELECTING; lia..|].
  intros _. exists (d_now d + 500000). split; [done|]. intros _. rewrite Hnow. lia.
Qed.

Lemma dinv_request d h :
  vcid_ok → dhcp_wf d → is_u32 (d_server_ip d) → offered h (d_requested_ip d) (d_server_ip d) →
  (d_addr d ≠ 0 → d_addr d = d_requested_ip d ∧ granted h (d_addr d) (d_server_ip d)) →
  ∃ d', dhcpv4_request vcid d = Ret d' ∧ dinv (d', h).
Proof.
  intros Hv Hwf Hsv Ho Hg. destruct (request_ok d Hv Hwf Hsv) as (d' & E & W & Hs & Hn & Hse & Hrq & Hre & Ht & Hnow & _ & _ & _).
  exists d'. split; [done|]. assert (d_addr d' = d_addr d) as Ha by (unfold d_addr; by rewrite Hn).
  pose proof (u8_byte ((if d_state d =? DHCP_STATE_REQUESTING then d_retries d else 0) + 1)) as Hu. unfold is_byte in Hu.
  split; cbn [fst snd]; rewrite ?Hse, ?Hs, ?Hre, ?Ha, ?Hrq; try done; [lia|unfold DHCP_STATE_REQUESTING; lia..|].
  intros _. eexists. split; [done|]. intros _. rewrite Hnow. lia.
Qed.

Lemma wf_same d d' : d_routes d' = d_routes d → d_if d' = d_if d → d_mac d' = d_mac d → dhcp_wf d → dhcp_wf d'.
Proof. intros E1 E2 E3 []. split; by rewrite ?E1, ?E2, ?E3. Qed.

(** A field as a 32-bit value. *)
Lemma ld32_u32 l i : bytes l → is_u32 (ld32 l i).
Proof.
  intros H. assert (∀ j, is_byte (byte_at l j)) as Hb.
  { intros j. unfold byte_at. destruct (l !! j) as [x|] eqn:E; cbn; [|unfold is_byte; lia].
    by eapply Forall_lookup_1. }
  pose proof (Hb i). pose proof (Hb (i + 1)%nat). pose proof (Hb (i + 2)%nat). pose proof (Hb (i + 2 + 1)%nat).
  unfold ld32, ld16, is_byte, is_u32 in *. lia.
Qed.

Lemma tlvs_bytes fuel : ∀ bs, bytes bs → Forall (λ o, bytes o.2) (tlvs fuel bs).
Proof.
  induction fuel as [|fuel IH]; intros bs Hb; [constructor|]. cbn [tlvs]. destruct bs as [|t rest]; [constructor|].
  apply Forall_cons in Hb as [_ Hb]. case_match; [constructor|]. case_match; [by apply IH|].
  destruct rest as [|l rest]; [constructor|]. apply Forall_cons in Hb as [_ Hb]. case_match; [constructor|].
  constructor; [by apply Forall_take|]. by apply IH, Forall_drop.
Qed.

Lemma opt_value_bytes f bs v : bytes bs → opt_value f (options_of bs) = Some v → bytes v.
Proof.
  intros Hb. unfold opt_value. destruct (last _) as [o|] eqn:E; [|done]. intros [= <-].
  apply last_Some_elem_of, list_elem_of_filter in E as [_ E].
  pose proof (tlvs_bytes (S (length bs)) bs Hb) as HF. rewrite Forall_forall in HF. by apply HF.
Qed.

Lemma server_u32 xid pb type y po : reply xid pb type y (po_val po) → is_u32 (po_u32 po FServerId).
Proof.
  intros R. unfold po_u32. apply ld32_u32. destruct (po_val po FServerId) as [v|] eqn:E; [|constructor].
  rewrite (re_opts _ _ _ _ _ R) in E. eapply opt_value_bytes; [|exact E].
  apply Forall_drop, (re_bytes _ _ _ _ _ R).
Qed.

(** An ACK counts when the client waits for one, for the address it asked for, from the
    server it asked. *)
Definition ack_accepted (y from : Z) (d : dhcp) : Prop :=
  (d_state d = DHCP_STATE_REQUESTING ∨ d_state d = DHCP_STATE_BOUND) ∧ d_requested_ip d = y ∧ d_server_ip d = from.
#[export] Instance ack_accepted_dec y from d : Decision (ack_accepted y from d).
Proof. unfold ack_accepted. apply _. Defined.

Lemma input_ack_accepted y from po d :
  dhcp_wf d → ack_accepted y from d →
  let d' := input_ack y from po d in
  dhcp_wf d' ∧ d_state d' = DHCP_STATE_BOUND ∧ d_retries d' = d_retries d ∧ d_server_ip d' = d_server_ip d ∧
  d_requested_ip d' = d_requested_ip d ∧ d_now d' = d_now d ∧
  d_ni d' = mk_netif (ni_flags (d_ni d)) y (u8 (33 - ffs (htonl (po_u32 po FNetmask)))) ∧
  d_timer d' = Some (d_now d + 1000000 * (htonl (po_u32 po FLeaseTime) / 2)).
Proof.
  intros W (Hst & Hy & Hf). unfold input_ack.
  assert ((negb (d_state d =? DHCP_STATE_REQUESTING) && negb (d_state d =? DHCP_STATE_BOUND))%bool = false) as ->.
  { by destruct Hst as [-> | ->]. }
  set (d0 := if negb (d_addr d =? y) then _ else _).
  assert (d0 = emit (DLog (LAck y from)) d ∨ d0 = d) as Hd0 by (subst d0; destruct (negb _); auto).
  assert (d_requested_ip d0 = d_requested_ip d ∧ d_server_ip d0 = d_server_ip d ∧ d_ni d0 = d_ni d ∧
    d_retries d0 = d_retries d ∧ d_now d0 = d_now d ∧ dhcp_wf d0) as (E1 & E2 & E3 & E4 & E5 & W0).
  { destruct Hd0 as [-> | ->]; [|done]. split_and!; try done. by apply (wf_same d). }
  clearbody d0. rewrite E1, E2, Hy, Hf, !Z.eqb_refl. cbn [negb].
  set (p := u8 (33 - _)). assert (dhcp_wf (set_addr y p d0)) as W1 by (by apply wf_set_ni).
  assert (d_ni (set_addr y p d0) = mk_netif (ni_flags (d_ni d)) y p) as E6.
  { unfold set_addr. rewrite ni_set_ni by apply W0. by rewrite E3. }
  cbn zeta. destruct (po_val po FNtp);
    (split_and!; [by apply (wf_same (set_addr y p d0))|done|exact E4|by cbn; rewrite E2|by cbn; rewrite E1|exact E5|exact E6|]);
    cbn; by rewrite E5.
Qed.

Lemma input_ack_refused y from po d :
  ¬ ack_accepted y from d →
  ∃ o, input_ack y from po d = Dhcp (d_state d) (d_retries d) (d_xid d) (d_server_ip d) (d_requested_ip d) (d_timer d)
    (d_mac d) (d_if d) (d_routes d) (d_now d) (d_env d) (d_out d ++ o).
Proof.
  intros Hno. unfold input_ack, ack_accepted in *.
  destruct (Z.eqb_spec (d_state d) DHCP_STATE_REQUESTING), (Z.eqb_spec (d_state d) DHCP_STATE_BOUND); cbn [negb andb];
    try (exists []; rewrite app_nil_r; by destruct d).
  all: set (d0 := if negb (d_addr d =? y) then _ else _).
  all: assert (∃ o, d0 = Dhcp (d_state d) (d_retries d) (d_xid d) (d_server_ip d) (d_requested_ip d) (d_timer d)
    (d_mac d) (d_if d) (d_routes d) (d_now d) (d_env d) (d_out d ++ o)) as [o ->]
    by (subst d0; destruct (negb _); [by eexists|exists []; rewrite app_nil_r; by destruct d]).
  all: cbn [d_requested_ip d_server_ip].
  all: destruct (Z.eqb_spec (d_requested_ip d) y), (Z.eqb_spec (d_server_ip d) from); cbn [negb];
    first [exfalso; tauto | eexists; unfold emit; cbn; rewrite <- app_assoc; reflexivity].
Qed.

Lemma dinv_input pb d h :
  vcid_ok → dinv (d, h) → bytes (concat pb) → (28 <= length (concat pb))%nat →
  ∃ d', dhcpv4_input vcid pb 20 d = Ret d' ∧ dinv (d', h ++ [(d_xid d, pb)]).
Proof.
  intros Hv Hi Hb Hl. pose proof Hi as [W Sv Re St Na Of Gr Ti]. cbn [fst snd] in *.
  destruct (dhcpv4_input_cases pb d Hb Hl) as [(e & -> & _)|(type & y & po & e & R & _ & ->)].
  { eexists. split; [done|]. apply (dinv_same d); try done; by apply (wf_same d). }
  assert (dinv (set_env e d, h ++ [(d_xid d, pb)])) as Hsame.
  { apply (dinv_same d); try done; by apply (wf_same d). }
  destruct (Z.eqb_spec type DHCPOFFER) as [->|]; [|destruct (Z.eqb_spec type DHCPACK) as [->|]; [|by eexists]].
  - unfold input_offer. cbn [set_env d_state].
    destruct (Z.eqb_spec (d_state d) DHCP_STATE_SELECTING) as [Es|]; cbn [negb].
    + set (d1 := set_retries 0 _). assert (d_addr d1 = d_addr d) as Ea by done.
      apply (dinv_request d1).
      * done.
      * by apply (wf_same d).
      * by eapply server_u32.
      * exists h, (d_xid d), pb, (po_val po), []. done.
      * rewrite Ea, Na; [done|]. rewrite Es. unfold DHCP_STATE_SELECTING. lia.
    + eexists. split; [done|]. apply (dinv_same d); try done; by apply (wf_same d).
  - eexists. split; [done|]. set (from := ld32 (first pb) 12).
    destruct (decide (ack_accepted y from (set_env e d))) as [Ha|Hno].
    + destruct (input_ack_accepted y from po (set_env e d)) as (W' & E1 & E2 & E3 & E4 & E5 & E6 & E7);
        [by apply (wf_same d)|done|]. destruct Ha as (Hst & Hy & Hf). cbn [set_env d_state d_requested_ip d_server_ip] in *.
      set (d' := input_ack _ _ _ _) in *. assert (d_addr d' = y) as Eaddr by (unfold d_addr; by rewrite E6).
      assert (offered h (d_requested_ip d) (d_server_ip d)) as Hoff.
      { apply Of. unfold DHCP_STATE_REQUESTING, DHCP_STATE_BOUND in Hst. lia. }
      split; cbn [fst snd]; rewrite ?E1, ?E2, ?E3, ?E4, ?Eaddr; unfold DHCP_STATE_BOUND in *; try done; try lia.
      * intros _. by apply offered_app.
      * intros _. split; [done|]. exists h, (d_xid d), pb, (po_val po), []. rewrite <- Hy. split; [done|].
        split; [done|]. split; [by rewrite Hy|done].
      * intros _. eexists. split; [exact E7|]. lia.
    + destruct (input_ack_refused y from po (set_env e d) Hno) as [o ->].
      apply (dinv_same d); try done; by apply (wf_same d).
Qed.

Lemma dinv_timer d h : vcid_ok → dinv (d, h) →
  ∃ d', dhcp_timer_cb vcid (set_timer None d) = Ret d' ∧ dinv (d', h).
Proof.
  intros Hv [W Sv Re St Na Of Gr Ti]. cbn [fst snd] in *. unfold dhcp_timer_cb. cbn [set_timer d_state d_retries].
  assert (dhcp_wf (set_timer None d)) as W' by (by apply (wf_same d)).
  assert (2 <= d_state d → ∃ d', dhcpv4_request vcid (set_timer None d) = Ret d' ∧ dinv (d', h)) as Hreq.
  { intros H2. by apply dinv_request; try done; apply Of. }
  assert (∃ d', dhcpv4_discover vcid (set_timer None d) = Ret d' ∧ dinv (d', h)) as Hdis by (by apply dinv_discover).
  unfold DHCP_STATE_SELECTING, DHCP_STATE_REQUESTING, DHCP_STATE_BOUND.
  destruct (Z.eqb_spec (d_state d) 1); [done|]. destruct (Z.eqb_spec (d_state d) 2).
  - destruct (5 <=? d_retries d); [done|apply Hreq; lia].
  - destruct (Z.eqb_spec (d_state d) 3); [apply Hreq; lia|]. eexists. split; [done|].
    split; cbn [fst snd set_timer d_state]; try done. lia.
Qed.

Lemma dinv_link up d h : vcid_ok → dinv (d, h) →
  ∃ d', dhcpv4_status_change vcid (set_up up d) = Ret d' ∧ dinv (d', h).
Proof.
  intros Hv Hi. pose proof Hi as [W Sv Re St Na Of Gr Ti]. cbn [fst snd] in *. unfold dhcpv4_status_change.
  set (d1 := dhcpv4_update None None (set_up up d)).
  assert (dhcp_wf (set_up up d)) as Wu by (by apply wf_set_ni).
  assert (dhcp_wf d1) as W1 by (by apply (wf_same (set_up up d))).
  assert (d_addr d1 = d_addr d) as Ea.
  { unfold d_addr. change (d_ni d1) with (d_ni (set_up up d)). unfold set_up. by rewrite ni_set_ni by apply W. }
  assert (2 <= d_state d → ∃ d', dhcpv4_request vcid d1 = Ret d' ∧ dinv (d', h)) as Hreq.
  { intros H2. apply dinv_request; try done; [by apply Of|]. by rewrite Ea. }
  assert (∃ d', dhcpv4_discover vcid d1 = Ret d' ∧ dinv (d', h)) as Hdis by (by apply dinv_discover).
  unfold DHCP_STATE_IDLE, DHCP_STATE_SELECTING, DHCP_STATE_REQUESTING, DHCP_STATE_BOUND.
  destruct (negb _).
  { exists d1. split; [done|]. rewrite <- (app_nil_r h). by apply (dinv_same d). }
  change (d_state d1) with (d_state d).
  destruct (Z.eqb_spec (d_state d) 0); [done|]. destruct (Z.eqb_spec (d_state d) 1); [done|]. cbn [orb].
  destruct (Z.eqb_spec (d_state d) 2); [apply Hreq; lia|]. destruct (Z.eqb_spec (d_state d) 3); [apply Hreq; lia|lia].
Qed.

Lemma dstep_inv s s' : vcid_ok → dinv s → dstep s s' → dinv s'.
Proof.
  intros Hv Hi Hst. destruct Hst as [pb d d' h Hb Hl E|t d d' h Ht Hle E|up d d' h E|t d h Hle|e d h].
  - destruct (dinv_input pb d h Hv Hi Hb Hl) as (d2 & E2 & Hi2). rewrite E in E2. by injection E2 as <-.
  - destruct (dinv_timer d h Hv Hi) as (d2 & E2 & Hi2). rewrite E in E2. by injection E2 as <-.
  - destruct (dinv_link up d h Hv Hi) as (d2 & E2 & Hi2). rewrite E in E2. by injection E2 as <-.
  - rewrite <- (app_nil_r h). apply (dinv_same d); try done. destruct Hi as [W]. by apply (wf_same d).
  - rewrite <- (app_nil_r h). apply (dinv_same d); try done. destruct Hi as [W]. by apply (wf_same d).
Qed.

(** A client that has not been started. *)
Definition idle (d : dhcp) : Prop :=
  dhcp_wf d ∧ d_state d = DHCP_STATE_IDLE ∧ d_addr d = 0 ∧ d_retries d = 0 ∧ is_u32 (d_server_ip d).

Lemma idle_inv d : idle d → dinv (d, []).
Proof.
  intros (W & Hs & Ha & Hr & Hsv). split; cbn [fst snd]; rewrite ?Hs, ?Hr; unfold DHCP_STATE_IDLE; try done; lia.
Qed.

Lemma run_inv d s : vcid_ok → idle d → rtc dstep (d, []) s → dinv s.
Proof.
  intros Hv Hid Hr. apply idle_inv in Hid. induction Hr as [|x y z Hst _ IH]; [done|].
  apply IH. by eapply dstep_inv.
Qed.

(** C33: an address is only used after a server has granted it: in every run from the
    start, an interface that has an address has received an OFFER of that address from a
    server and after that an ACK of the address from that server, each in the transaction
    the client was in; and the address is the one it asked for. *)
Theorem dhcp_address_granted d0 d h :
  vcid_ok → idle d0 → rtc dstep (d0, []) (d, h) → d_addr d ≠ 0 →
  d_addr d = d_requested_ip d ∧ granted h (d_addr d) (d_server_ip d) ∧
  (d_state d = DHCP_STATE_REQUESTING ∨ d_state d = DHCP_STATE_BOUND).
Proof.
  intros Hv Hid Hr Ha. destruct (run_inv _ _ Hv Hid Hr) as [W Sv Re St Na Of Gr Ti]. cbn [fst snd] in *.
  destruct (Gr Ha) as [E G]. split; [done|]. split; [done|]. unfold DHCP_STATE_REQUESTING, DHCP_STATE_BOUND.
  destruct (decide (d_state d <= 1)) as [Hle|]; [by apply Na in Hle|]. lia.
Qed.

(** The client never stops: in every reachable state every handler returns, whatever
    datagram of at least 28 bytes arrives, and once it has been started its timer is
    armed, for at most 127.5 seconds from now unless it holds a lease. *)
Theorem dhcp_never_stuck d0 d h :
  vcid_ok → idle d0 → rtc dstep (d0, []) (d, h) →
  (∀ pb, bytes (concat pb) → (28 <= length (concat pb))%nat → ∃ d', dhcpv4_input vcid pb 20 d = Ret d') ∧
  (∃ d', dhcp_timer_cb vcid (set_timer None d) = Ret d') ∧
  (∀ up, ∃ d', dhcpv4_status_change vcid (set_up up d) = Ret d') ∧
  (d_state d ≠ DHCP_STATE_IDLE →
   ∃ t, d_timer d = Some t ∧ (d_state d ≠ DHCP_STATE_BOUND → t <= d_now d + 127500000)).
Proof.
  intros Hv Hid Hr. pose proof (run_inv _ _ Hv Hid Hr) as Hi. split_and!.
  - intros pb Hb Hl. destruct (dinv_input pb d h Hv Hi Hb Hl) as (d' & E & _). by eexists.
  - destruct (dinv_timer d h Hv Hi) as (d' & E & _). by eexists.
  - intros up. destruct (dinv_link up d h Hv Hi) as (d' & E & _). by eexists.
  - intros Hs. destruct Hi as [W Sv Re St Na Of Gr Ti]. cbn [fst snd] in *.
    unfold DHCP_STATE_IDLE, DHCP_STATE_BOUND in *. destruct Ti as (t & E & Ht); [lia|].
    exists t. split; [done|]. intros. apply Ht. lia.
Qed.

Lemma reply_det xid pb t1 y1 v1 t2 y2 v2 :
  reply xid pb t1 y1 v1 → reply xid pb t2 y2 v2 → t1 = t2 ∧ y1 = y2 ∧ ∀ f, v1 f = v2 f.
Proof.
  intros [] []. assert (∀ f, v1 f = v2 f) as E by (intros f; by rewrite re_opts0, re_opts1).
  split_and!; [|congruence|done]. by rewrite <- re_type0, <- re_type1, E.
Qed.

Lemma reply_ext xid pb t y v v' : (∀ f, v f = v' f) → reply xid pb t y v → reply xid pb t y v'.
Proof.
  intros E []. split; try done.
  - intros f. by rewrite <- E.
  - eapply Forall_impl; [exact re_required0|]. intros f. cbn beta. by rewrite E.
  - by rewrite <- E.
Qed.

(** What the client does with a reply. *)
Lemma input_reply pb d type y val :
  reply (d_xid d) pb type y val →
  ∃ po e, (∀ f, po_val po f = val f) ∧ (e_bufs (d_env d) = [] → e_bufs e = []) ∧
    dhcpv4_input vcid pb 20 d =
      if type =? DHCPOFFER then input_offer vcid y (ld32 (first pb) 12) po (set_env e d)
      else if type =? DHCPACK then Ret (input_ack y (ld32 (first pb) 12) po (set_env e d))
      else Ret (set_env e d).
Proof.
  intros R. pose proof (re_len _ _ _ _ _ R). destruct (dhcpv4_input_cases pb d) as [(e & _ & Hno)|(t' & y' & po & e & R' & He & E)].
  - apply R.
  - lia.
  - by destruct (Hno type y val).
  - destruct (reply_det _ _ _ _ _ _ _ _ R R') as (-> & -> & Hv). exists po, e. done.
Qed.

(** A field of a reply as a 32-bit value. *)
Definition val32 (val : field → option (list Z)) (f : field) : Z := ld32 (default [] (val f)) 0.

Definition granted_netif (flags y : Z) (val : field → option (list Z)) : netif :=
  mk_netif flags y (u8 (33 - ffs (htonl (val32 val FNetmask)))).

(** With a server that answers the client gets its lease: when the link comes up it
    broadcasts a DISCOVER; to an OFFER in that transaction, whenever it arrives, it
    broadcasts a REQUEST for the offered address from the server that offered it; and
    with the ACK of that server in that transaction it is bound: it has the address and
    the prefix of the netmask, and will renew at half the lease time. *)
Theorem dhcp_acquires d :
  vcid_ok → idle d → has (ni_flags (d_ni d)) NETIF_F_UP = true → e_bufs (d_env d) = [] →
  ∃ d1 o1 q1, dhcpv4_status_change vcid d = Ret d1 ∧
    d_out d1 = d_out d ++ o1 ++ [DSend (IpOut (d_if d) None q1)] ∧
    message q1 INADDR_BROADCAST d1 (discover_opts d) ∧
    ∀ t1 e1 offer y v1, e_bufs e1 = [] → reply (d_xid d1) offer DHCPOFFER y v1 →
    let s := val32 v1 FServerId in
    ∃ d2 o2 q2, dhcpv4_input vcid offer 20 (set_now t1 (set_env e1 d1)) = Ret d2 ∧
      d_out d2 = d_out d1 ++ o2 ++ [DSend (IpOut (d_if d) None q2)] ∧
      message q2 INADDR_BROADCAST d2 ((DHCP_MESSAGE_TYPE, [DHCPREQUEST]) :: default_opts d ++
        [(DHCP_SERVER_IDENTIFIER, le32 s); (DHCP_REQUESTED_IP_ADDRESS, le32 y)]) ∧
      ∀ t2 e2 ack v2, reply (d_xid d2) ack DHCPACK y v2 → ld32 (first ack) 12 = s →
      ∃ d3, dhcpv4_input vcid ack 20 (set_now t2 (set_env e2 d2)) = Ret d3 ∧ d_state d3 = DHCP_STATE_BOUND ∧
        d_ni d3 = granted_netif (ni_flags (d_ni d)) y v2 ∧
        d_timer d3 = Some (t2 + 1000000 * (htonl (val32 v2 FLeaseTime) / 2)).
Proof.
  intros Hv Hid Hup Hbuf. destruct Hid as (W & Hs & Ha & Hr & Hsv). unfold dhcpv4_status_change.
  set (d0 := dhcpv4_update None None d). change (d_ni d0) with (d_ni d). rewrite Hup. cbn [negb].
  change (d_state d0) with (d_state d). rewrite Hs. change (DHCP_STATE_IDLE =? DHCP_STATE_IDLE) with true. cbn [orb].
  destruct (discover_ok d0 Hv) as (d1 & -> & W1 & S1 & N1 & V1 & R1 & _ & _ & _ & M1 & I1 & Hq); [by apply (wf_same d)|].
  destruct Hq as (o & q1 & Ho & Hm); [unfold buf_ready, d0; cbn; by rewrite Hbuf|].
  exists d1, ([DUpdate None None] ++ o), q1. split; [done|]. split; [rewrite Ho; cbn; by rewrite <- app_assoc|].
  split; [exact Hm|]. intros t1 e1 offer y v1 He1 Hoff. set (s := val32 v1 FServerId).
  destruct (input_reply offer (set_now t1 (set_env e1 d1)) DHCPOFFER y v1 Hoff) as (po & e & Hpo & He & ->).
  change (DHCPOFFER =? DHCPOFFER) with true. cbv iota. unfold input_offer. cbn [set_env set_now d_state].
  rewrite S1. change (DHCP_STATE_SELECTING =? DHCP_STATE_SELECTING) with true. cbn [negb].
  assert (po_u32 po FServerId = s) as Eserver by (unfold po_u32; by rewrite Hpo).
  set (d1' := set_retries 0 _). assert (d_addr d1' = 0) as Ea.
  { change (d_addr d1') with (d_addr d1). unfold d_addr. by rewrite N1. }
  assert (is_u32 s) as Hs32.
  { rewrite <- Eserver. eapply server_u32, reply_ext; [|exact Hoff]. intros f. by rewrite Hpo. }
  destruct (request_ok d1' Hv) as (d2 & -> & W2 & S2 & N2 & V2 & R2 & _ & _ & _ & M2 & I2 & Hq);
    [by apply (wf_same d1)|by rewrite <- Eserver in Hs32|].
  destruct Hq as (q2 & Ho2 & Hm2); [unfold buf_ready; cbn; by rewrite He|done|].
  exists d2, [DLog (LOffer y (ld32 (first offer) 12))], q2. split; [done|].
  split; [rewrite Ho2; cbn; by rewrite I1, <- app_assoc|]. split.
  { unfold request_opts, default_opts in *. rewrite Ea in Hm2. cbn [d_mac d1' set_retries set_lease emit set_env set_now
      d_server_ip d_requested_ip] in Hm2. rewrite Eserver, M1 in Hm2. exact Hm2. }
  intros t2 e2 ack v2 Hack Hfrom.
  destruct (input_reply ack (set_now t2 (set_env e2 d2)) DHCPACK y v2 Hack) as (po2 & e3 & Hpo2 & _ & ->).
  change (DHCPACK =? DHCPOFFER) with false. change (DHCPACK =? DHCPACK) with true. cbv iota. rewrite Hfrom.
  eexists. split; [done|]. destruct (input_ack_accepted y s po2 (set_env e3 (set_now t2 (set_env e2 d2))))
    as (_ & E1 & _ & _ & _ & _ & E6 & E7).
  { by apply (wf_same d2). }
  { split; [left; exact S2|]. split; [cbn; by rewrite R2|cbn; rewrite V2; exact Eserver]. }
  split; [exact E1|]. split.
  - rewrite E6. unfold granted_netif, val32, po_u32. rewrite Hpo2. f_equal.
    change (ni_flags (d_ni d2) = ni_flags (d_ni d)). rewrite N2. change (d_ni d1') with (d_ni d1). by rewrite N1.
  - rewrite E7. unfold val32, po_u32. by rewrite Hpo2.
Qed.

(** ** No answer *)

(** The timer expires with nothing received in between, [k] times. *)
Definition timeout (d : dhcp) : res dhcp :=
  match d_timer d with
  | Some t => dhcp_timer_cb vcid (set_timer None (set_now (Z.max t (d_now d)) d))
  | None => Ret d
  end.
Fixpoint timeouts (k : nat) (d : dhcp) : res dhcp :=
  match k with O => Ret d | S k => d ← timeouts k d; timeout d end.

(** A client that has asked to keep its address [k] times, the last time at [t]. *)
Record asking (d : dhcp) (k t : Z) (d' : dhcp) : Prop := {
  as_wf : dhcp_wf d';
  as_state : d_state d' = DHCP_STATE_REQUESTING;
  as_retries : d_retries d' = k;
  as_ni : d_ni d' = d_ni d;
  as_server : d_server_ip d' = d_server_ip d;
  as_now : d_now d' = t;
  as_timer : d_timer d' = Some (t + 500000 * k) }.

Lemma asking_request d0 d n t :
  vcid_ok → dhcp_wf d → is_u32 (d_server_ip d) → d_ni d = d_ni d0 → d_server_ip d = d_server_ip d0 → d_now d = t →
  n = (if d_state d =? DHCP_STATE_REQUESTING then d_retries d else 0) → 0 <= n < 255 →
  ∃ d', dhcpv4_request vcid d = Ret d' ∧ asking d0 (n + 1) t d'.
Proof.
  intros Hv W Hsv En Es Et En' Hn.
  destruct (request_ok d Hv W Hsv) as (d' & E & W' & S' & N' & V' & _ & R' & T' & Nw & _).
  rewrite <- En', u8_id in * by (unfold is_byte; lia). exists d'. split; [done|].
  split; [done|done|done|congruence|congruence|congruence|]. by rewrite T', Et.
Qed.

Lemma asking_timeout d0 k t d :
  vcid_ok → is_u32 (d_server_ip d0) → 1 <= k < 5 → asking d0 k t d →
  ∃ d', timeout d = Ret d' ∧ asking d0 (k + 1) (t + 500000 * k) d'.
Proof.
  intros Hv Hsv Hk [W S R N V Nw T]. unfold timeout. rewrite T, Nw.
  replace (Z.max (t + 500000 * k) t) with (t + 500000 * k) by lia.
  set (d1 := set_timer None _). unfold dhcp_timer_cb. change (d_state d1) with (d_state d). change (d_retries d1) with (d_retries d).
  rewrite S, R. change (DHCP_STATE_REQUESTING =? DHCP_STATE_SELECTING) with false.
  change (DHCP_STATE_REQUESTING =? DHCP_STATE_REQUESTING) with true. cbv iota. rewrite (proj2 (Z.leb_gt _ _)) by lia.
  apply (asking_request d0 d1); try done.
  - by apply (wf_same d).
  - change (is_u32 (d_server_ip d)). by rewrite V.
  - change ((k = if d_state d =? DHCP_STATE_REQUESTING then d_retries d else 0)). by rewrite S, R.
  - lia.
Qed.

(** A lease that nobody renews is given up 7.5 seconds after the first attempt: when
    the renewal timer of a bound client expires and no answer comes, it asks five times,
    after 0.5, 1, 1.5, 2 and 2.5 seconds, keeping its address; then it drops the address
    and starts over with a DISCOVER. *)
Theorem dhcp_gives_up d t :
  vcid_ok → dhcp_wf d → is_u32 (d_server_ip d) → d_state d = DHCP_STATE_BOUND →
  0 <= d_retries d <= 255 → d_timer d = Some t → d_now d <= t →
  (∀ k, (1 <= k <= 5)%nat → ∃ d', timeouts k d = Ret d' ∧ d_state d' = DHCP_STATE_REQUESTING ∧
     d_retries d' = Z.of_nat k ∧ d_ni d' = d_ni d) ∧
  ∃ d', timeouts 6 d = Ret d' ∧ d_state d' = DHCP_STATE_SELECTING ∧ d_addr d' = 0 ∧ d_now d' = t + 7500000 ∧
    d_timer d' = Some (t + 8000000).
Proof.
  intros Hv W Hsv Est Hre T Hle.
  assert (∃ d1, timeouts 1 d = Ret d1 ∧ asking d 1 t d1) as (d1 & E1 & A1).
  { cbn [timeouts mbind res_bind]. unfold timeout. rewrite T, Z.max_l by done. unfold dhcp_timer_cb.
    cbn [set_timer set_now d_state]. rewrite Est. change (DHCP_STATE_BOUND =? DHCP_STATE_SELECTING) with false.
    change (DHCP_STATE_BOUND =? DHCP_STATE_REQUESTING) with false.
    change (DHCP_STATE_BOUND =? DHCP_STATE_BOUND) with true. cbv iota.
    apply (asking_request d _ 0); try done; [by apply (wf_same d)|]. cbn [set_timer set_now d_state]. by rewrite Est. }
  assert (∀ k j dk, timeouts k d = Ret dk → 1 <= Z.of_nat k < 5 → asking d (Z.of_nat k) j dk →
    ∃ d', timeouts (k + 1) d = Ret d' ∧ asking d (Z.of_nat (k + 1)) (j + 500000 * Z.of_nat k) d') as Hstep.
  { intros k j dk Ek Hk Ak. rewrite Nat.add_comm. cbn [timeouts Nat.add]. rewrite Ek. cbn [mbind res_bind].
    replace (Z.of_nat (S k)) with (Z.of_nat k + 1) by lia. by apply asking_timeout. }
  destruct (Hstep 1%nat t d1 E1 ltac:(lia) A1) as (d2 & E2 & A2). cbn [Nat.add] in E2, A2.
  destruct (Hstep 2%nat _ d2 E2 ltac:(lia) A2) as (d3 & E3 & A3). cbn [Nat.add] in E3, A3.
  destruct (Hstep 3%nat _ d3 E3 ltac:(lia) A3) as (d4 & E4 & A4). cbn [Nat.add] in E4, A4.
  destruct (Hstep 4%nat _ d4 E4 ltac:(lia) A4) as (d5 & E5 & A5). cbn [Nat.add] in E5, A5. clear Hstep. split.
  - intros k Hk. assert (k = 1 ∨ k = 2 ∨ k = 3 ∨ k = 4 ∨ k = 5)%nat as Hk' by lia.
    destruct Hk' as [-> |[-> |[-> |[-> | ->]]]]; eexists; (split; [eassumption|]);
      [destruct A1|destruct A2|destruct A3|destruct A4|destruct A5]; by split_and!.
  - change (timeouts 6 d) with (d' ← timeouts 5 d; timeout d'). rewrite E5. cbn [mbind res_bind]. destruct A5.
    unfold timeout. rewrite as_timer0, as_now0. rewrite Z.max_l by lia. unfold dhcp_timer_cb.
    cbn [set_timer set_now d_state d_retries]. rewrite as_state0, as_retries0.
    change (DHCP_STATE_REQUESTING =? DHCP_STATE_SELECTING) with false.
    change (DHCP_STATE_REQUESTING =? DHCP_STATE_REQUESTING) with true. change (5 <=? Z.of_nat 5) with true. cbv iota.
    set (d6 := set_timer None _).
    destruct (discover_ok d6 Hv) as (d' & E & _ & S' & N' & _ & _ & _ & T' & Nw & _); [by apply (wf_same d5)|].
    exists d'. split; [done|]. split; [done|]. split; [unfold d_addr; by rewrite N'|].
    rewrite Nw, T'. cbn [d6 set_timer set_now d_now]. split; [lia|]. f_equal. lia.
Qed.

(** ** Behaviour the code does not mean to have *)

(** A request to keep an address is sent to the server itself.  When the server is not on
    the interface's network there is no next hop to it, the gateway it named is not kept,
    and nothing is sent. *)
Theorem dhcp_renewal_not_routed m d :
  d_server_ip d ≠ INADDR_BROADCAST →
  List.find (λ nh, nh_addr nh =? d_server_ip d) (ipv4_nexthops (d_routes d)) = None →
  find_netif (d_server_ip d) 0 (netifs (d_routes d)) = None →
  ∃ d', dhcpv4_send m (d_server_ip d) d = Ret d' ∧ d_out d' = d_out d.
Proof.
  intros Hb Hf Hn. unfold dhcpv4_send. rewrite (proj2 (Z.eqb_neq _ _) Hb). cbn [negb].
  destruct (next_mem (d_env d)) as [mem e]. unfold ipv4_nexthop_resolve. rewrite Hf, Hn. by eexists.
Qed.

(** A netmask of 0 gives the prefix length 33, for which [mask_from_prefixlen] shifts by a
    negative number. *)
Theorem dhcp_zero_netmask y from po d :
  dhcp_wf d → ack_accepted y from d → po_u32 po FNetmask = 0 →
  ni_ipv4_local_prefixlen (d_ni (input_ack y from po d)) = 33.
Proof.
  intros W Ha Hz. destruct (input_ack_accepted y from po d W Ha) as (_ & _ & _ & _ & _ & _ & E & _).
  by rewrite E, Hz.
Qed.

(** A datagram that is shorter than its headers stops the system. *)
Theorem dhcp_short_panics pb d : (length (concat pb) < 28)%nat → dhcpv4_input vcid pb 20 d = Fault Panic.
Proof. intros H. unfold dhcpv4_input. by rewrite drop_short. Qed.
End ClientFacts.

(** The prefix length is the number of ones of a netmask. *)
Lemma prefix_of_netmask p : (1 <= p <= 32)%nat →
  33 - ffs (4294967296 - 2 ^ (32 - Z.of_nat p)) = Z.of_nat p.
Proof.
  intros Hp. assert (forallb (λ p, 33 - ffs (4294967296 - 2 ^ (32 - Z.of_nat p)) =? Z.of_nat p) (seq 1 32) = true) as H
    by (vm_compute; reflexivity).
  rewrite forallb_forall in H. apply Z.eqb_eq, H, in_seq. lia.
Qed.

(** * Witnesses *)

Definition ret_or {A} (x : A) (r : res A) : A := match r with Ret a => a | Fault _ => x end.

Lemma ret_or_Ret {A} (a b : A) : Ret a = Ret b → a = b.
Proof. by intros [= ->]. Qed.

(** An interface with its link up, a server 10.0.0.1 and the address 10.0.0.9. *)
Definition ex_mac : list Z := [2; 0; 0; 0; 0; 7].
Definition ex_d0 : dhcp :=
  Dhcp 0 0 0 0 0 None ex_mac 0 (mk_routes [] [mk_netif 1 0 0]) 1000 (Env [] [] []) [].
Definition ex_server : list Z := [10; 0; 0; 1].
Definition ex_lease : list Z := [10; 0; 0; 9].
Definition ex_reply (type : Z) : windows :=
  [replicate 12 0 ++ ex_server ++ replicate 12 0; [2; 1; 6; 0] ++ replicate 12 0 ++ ex_lease ++ replicate 100 0;
   replicate 120 0 ++ enc_options [(53, [type]); (1, [255; 255; 255; 0]); (3, ex_server); (51, [0; 0; 14; 16]);
                                   (54, ex_server)]].
Definition ex_val (type : Z) (f : field) : option (list Z) := opt_value f (options_of (drop 268 (concat (ex_reply type)))).
Definition ex_addr : Z := 150994954.

Lemma ex_reply_ok type : type = DHCPOFFER ∨ type = DHCPACK → reply 0 (ex_reply type) type ex_addr (ex_val type).
Proof.
  intros Ht. assert (forallb (λ b, (0 <=? b) && (b <? 256)) (concat (ex_reply type)) = true) as Hb.
  { by destruct Ht as [-> | ->]; vm_compute. }
  split.
  - apply List.Forall_forall. intros b Hin. rewrite forallb_forall in Hb. specialize (Hb b Hin). bool_to_prop.
    unfold is_byte. lia.
  - by destruct Ht as [-> | ->]; vm_compute; lia.
  - by destruct Ht as [-> | ->]; vm_compute.
  - by destruct Ht as [-> | ->]; vm_compute.
  - by destruct Ht as [-> | ->]; vm_compute.
  - done.
  - destruct Ht as [-> | ->]; repeat constructor; vm_compute; eauto.
  - by destruct Ht as [-> | ->]; vm_compute.
Qed.

Definition ex_d1 : dhcp := ret_or ex_d0 (dhcpv4_status_change None ex_d0).
Definition ex_d2 : dhcp := ret_or ex_d0 (dhcpv4_input None (ex_reply DHCPOFFER) 20 ex_d1).
Definition ex_d3 : dhcp := ret_or ex_d0 (dhcpv4_input None (ex_reply DHCPACK) 20 ex_d2).

Lemma ex_idle : idle ex_d0.
Proof.
  split; [|split_and!; done]. split; [cbn; lia|constructor|]. split; [done|].
  repeat constructor; unfold is_byte; lia.
Qed.

Lemma ex_input type d : type = DHCPOFFER ∨ type = DHCPACK → ∀ h d',
  dhcpv4_input None (ex_reply type) 20 d = Ret d' → dstep None (d, h) (d', h ++ [(d_xid d, ex_reply type)]).
Proof.
  intros Ht h d' E. pose proof (ex_reply_ok type Ht) as R. apply ds_input; [apply R| |done].
  pose proof (re_len _ _ _ _ _ R). lia.
Qed.

Lemma ex_run : rtc (dstep None) (ex_d0, []) (ex_d3, [(0, ex_reply DHCPOFFER); (0, ex_reply DHCPACK)]).
Proof.
  eapply rtc_l; [apply (ds_link None true ex_d0 ex_d1); vm_compute; reflexivity|].
  eapply rtc_l; [apply (ex_input DHCPOFFER ex_d1 ltac:(auto) _ ex_d2); vm_compute; reflexivity|].
  eapply rtc_l; [apply (ex_input DHCPACK ex_d2 ltac:(auto) _ ex_d3); vm_compute; reflexivity|].
  assert (d_xid ex_d1 = 0 ∧ d_xid ex_d2 = 0) as [-> ->] by (by vm_compute). apply rtc_refl.
Qed.

Lemma parse_opts_correct_witness :
  ∃ pb' po e', parse_opts [[53; 1]; [2; 0; 1]; [4; 255; 255; 0; 0; 255]] (Env [] [] []) = Ret (pb', po, e') ∧
    ∀ f, po_val po f = opt_value f [(53, [2]); (1, [255; 255; 0; 0])].
Proof.
  apply (parse_opts_correct [[53; 1]; [2; 0; 1]; [4; 255; 255; 0; 0; 255]] (Env [] [] [])).
  repeat constructor; unfold is_byte; lia.
Defined.

Lemma options_roundtrip_witness : options_of (enc_options [(53, [1]); (61, 1 :: ex_mac)]) = [(53, [1]); (61, 1 :: ex_mac)].
Proof. apply options_roundtrip. repeat constructor; cbn; lia. Defined.

Lemma dhcp_address_granted_witness :
  d_addr ex_d3 = ex_addr ∧
  granted [(0, ex_reply DHCPOFFER); (0, ex_reply DHCPACK)] (d_addr ex_d3) (d_server_ip ex_d3).
Proof.
  split; [vm_compute; reflexivity|].
  apply (dhcp_address_granted None ex_d0 ex_d3 _ I ex_idle ex_run). vm_compute. discriminate.
Defined.

Lemma dhcp_never_stuck_witness : ∃ t, d_timer ex_d3 = Some t.
Proof.
  destruct (dhcp_never_stuck None ex_d0 ex_d3 _ I ex_idle ex_run) as (_ & _ & _ & H).
  destruct H as (t & E & _); [vm_compute; discriminate|]. by exists t.
Defined.

Lemma dhcp_acquires_witness :
  ∃ d3, dhcpv4_input None (ex_reply DHCPACK) 20 (set_now 9 (set_env (Env [] [] [])
      (ret_or ex_d0 (dhcpv4_input None (ex_reply DHCPOFFER) 20 (set_now 5 (set_env (Env [] [] []) ex_d1)))))) = Ret d3 ∧
    d_state d3 = DHCP_STATE_BOUND ∧ ni_ipv4_local_addr (d_ni d3) = ex_addr ∧ ni_ipv4_local_prefixlen (d_ni d3) = 24 ∧
    d_timer d3 = Some 1800000009.
Proof.
  destruct (dhcp_acquires None ex_d0 I ex_idle eq_refl eq_refl) as (d1 & o1 & q1 & E1 & _ & _ & H1).
  assert (dhcpv4_status_change None ex_d0 = Ret ex_d1) as E1' by (vm_compute; reflexivity).
  rewrite E1 in E1'. apply ret_or_Ret in E1'. subst d1.
  destruct (H1 5 (Env [] [] []) (ex_reply DHCPOFFER) ex_addr (ex_val DHCPOFFER) eq_refl
    (ex_reply_ok DHCPOFFER ltac:(auto))) as (d2 & o2 & q2 & E2 & _ & _ & H2).
  assert (d_xid d2 = 0) as Ex.
  { assert (d_xid (ret_or ex_d0 (dhcpv4_input None (ex_reply DHCPOFFER) 20 (set_now 5 (set_env (Env [] [] []) ex_d1)))) = 0) as H
      by (vm_compute; reflexivity). by rewrite E2 in H. }
  destruct (H2 9 (Env [] [] []) (ex_reply DHCPACK) (ex_val DHCPACK)) as (d3 & E3 & S3 & N3 & T3).
  - rewrite Ex. apply ex_reply_ok. auto.
  - vm_compute. reflexivity.
  - exists d3. rewrite E2. cbn [ret_or]. split; [exact E3|]. split; [exact S3|]. rewrite N3, T3. vm_compute. auto.
Defined.

Lemma dhcp_gives_up_witness :
  ∃ d', timeouts None 6 ex_d3 = Ret d' ∧ d_state d' = DHCP_STATE_SELECTING ∧ d_addr d' = 0 ∧
    d_now d' = 1800001000 + 7500000 ∧ d_timer d' = Some (1800001000 + 8000000).
Proof.
  apply (dhcp_gives_up None ex_d3 1800001000).
  - exact I.
  - split; [vm_compute; lia|vm_compute; constructor|]. split; [vm_compute; reflexivity|].
    vm_compute. repeat constructor; discriminate.
  - unfold is_u32. vm_compute. intuition discriminate.
  - vm_compute. reflexivity.
  - vm_compute. intuition discriminate.
  - vm_compute. reflexivity.
  - vm_compute. discriminate.
Defined.

(** The server is on another network. *)
Lemma dhcp_renewal_not_routed_witness :
  ∃ d', dhcpv4_send [] (d_server_ip (set_lease 16777226 150994954 ex_d0)) (set_lease 16777226 150994954 ex_d0) = Ret d' ∧
    d_out d' = [].
Proof. apply (dhcp_renewal_not_routed [] (set_lease 16777226 150994954 ex_d0)); vm_compute; (reflexivity || discriminate). Defined.

Lemma dhcp_zero_netmask_witness :
  ni_ipv4_local_prefixlen (d_ni (input_ack ex_addr 16777226 (PO (λ _, None) None None) ex_d2)) = 33.
Proof.
  apply dhcp_zero_netmask.
  - split; [vm_compute; lia|vm_compute; constructor|]. split; [vm_compute; reflexivity|].
    vm_compute. repeat constructor; discriminate.
  - split; [left; vm_compute; reflexivity|]. split; vm_compute; reflexivity.
  - reflexivity.
Defined.

Lemma dhcp_short_panics_witness : dhcpv4_input None [replicate 20 0] 20 ex_d0 = Fault Panic.
Proof. apply dhcp_short_panics. vm_compute. lia. Defined.
