(* ===== verification/Rpc.v ===== *)
(** * Rpc: remote procedure calls ([src/lib/rpc/rpc_cbor.c], [rpc_core.c],
    [src/net/service/svc_rpc.c], [host/dsig/vllp_rpc.c])

    A request is the length of the method's name, the name, and the arguments as a CBOR
    array; the signature of the method says what they have to be.  Strings are moved and
    ended with a NUL inside the request, and the method gets pointers into it.  The
    service keeps one request and one response and runs the methods in a thread of its
    own.  The last part is the client on the host.

    The build is the one for ARM without floating point registers: three arguments in
    registers, [size_t] and [long] of 32 bits.  Methods are function pointers: a call is a
    parameter that gets the registers and the request. *)

From Stdlib Require Import ZArith Lia.
From stdpp Require Import base list numbers relations.
From S2P Require Import Prelude LibC Ipv4 Udp.

Open Scope Z_scope.

(** ** Arguments *)

Definition ERR_MTU_EXCEEDED : Z := -8.
Definition ERR_NOT_FOUND : Z := -17.
Definition ERR_MALFORMED : Z := -19.
Definition ERR_INVALID_RPC_ARGS : Z := -21.
Definition ERR_INVALID_ARGS : Z := -23.

Definition RPC_ARGS_MAX_GPR : nat := 3.

(** A register: a number, a pointer into the request, or what was never written. *)
Inductive gpr :=
| GInt (z : Z)
| GPtr (off : nat)
| GUndef.

(** [rpc_args_t] by the registers filled so far. *)
Definition rpc_args : Type := list gpr.

Definition byte_of (buf : list Z) (p : nat) : res Z :=
  match buf !! p with Some b => Ret b | None => Fault OutOfBounds end.

(** The bytes of a number, most significant first, into an [int]. *)
Fixpoint be_loop (n : nat) (buf : list Z) (p : nat) (v : Z) : res Z :=
  match n with
  | O => Ret v
  | S n => b ← byte_of buf p; be_loop n buf (S p) (s32 (Z.lor (Z.shiftl v 8) b))
  end.

(** The code returned, and what is stored when it is positive. *)
Definition cbor_decode_scalar (buf : list Z) (p : nat) (cborlen : Z) (neg : bool) : res (Z * option Z) :=
  b ← byte_of buf p;
  let v := Z.land b 31 in
  let fin r v := Ret (r, Some (if neg then Z.lnot v else v)) in
  if 26 <? v then Ret (ERR_INVALID_ARGS, None)
  else if 24 <=? v then
    let n := if v =? 25 then 2%nat else if v =? 26 then 4%nat else 1%nat in
    let r := 1 + Z.of_nat n in
    if cborlen <? r then Ret (ERR_INVALID_ARGS, None)
    else v ← be_loop n buf (S p) 0; fin r v
  else fin 1 v.

Definition cbor_decode_int (buf : list Z) (p : nat) (cborlen : Z) : res (Z * option Z) :=
  b ← byte_of buf p;
  cbor_decode_scalar buf p cborlen (negb (Z.land b 32 =? 0)).

Definition rpc_cbor_get_int (buf : list Z) (p : nat) (cborlen : Z) (ra : rpc_args) : res (Z * rpc_args) :=
  if decide (length ra = RPC_ARGS_MAX_GPR) then Ret (ERR_INVALID_RPC_ARGS, ra) else
  b ← byte_of buf p;
  if 64 <=? b then Ret (ERR_INVALID_RPC_ARGS, ra) else
  '(r, v) ← cbor_decode_int buf p cborlen;
  Ret (r, ra ++ [match v with Some v => GInt v | None => GUndef end]).

Definition rpc_cbor_get_utf8 (buf : list Z) (p : nat) (cborlen : Z) (ra : rpc_args)
    : res (Z * list Z * rpc_args) :=
  if decide (length ra = RPC_ARGS_MAX_GPR) then Ret (ERR_INVALID_RPC_ARGS, buf, ra) else
  b ← byte_of buf p;
  if ((b <? 96) || (122 <? b))%bool then Ret (ERR_INVALID_RPC_ARGS, buf, ra) else
  '(used, v) ← cbor_decode_scalar buf p cborlen false;
  match v with
  | None => Ret (used, buf, ra)
  | Some len =>
      if cborlen <? u32 (used + len) then Ret (ERR_INVALID_RPC_ARGS, buf, ra) else
      data ← rd buf (Z.of_nat p + used) (u32 len);
      buf ← wr buf (Z.of_nat p) data;
      buf ← wr buf (Z.of_nat p + len) [0];
      Ret (used + len, buf, ra ++ [GPtr p])
  end.

Definition rpc_cbor_get_bytestring (buf : list Z) (p : nat) (cborlen : Z) (ra : rpc_args) : res (Z * rpc_args) :=
  if (RPC_ARGS_MAX_GPR <=? length ra + 1)%nat then Ret (ERR_INVALID_RPC_ARGS, ra) else
  b ← byte_of buf p;
  if ((b <? 64) || (90 <? b))%bool then Ret (ERR_INVALID_RPC_ARGS, ra) else
  '(used, v) ← cbor_decode_scalar buf p cborlen false;
  match v with
  | None => Ret (used, ra)
  | Some len =>
      if cborlen <? u32 (used + len) then Ret (ERR_INVALID_RPC_ARGS, ra)
      else Ret (used + len, ra ++ [GPtr (p + Z.to_nat used); GInt len])
  end.

(** ** Dispatch *)

(** [rpc_result_t]: the union is read by its type. *)
Record rpc_result := RpcResult { rr_type : Z; rr_i32 : Z; rr_data : list Z }.

Section Dispatch.
(** The methods with their signatures, and what calling one with its registers and the
    request does. *)
Context {M : Type} (call : M → list gpr → list Z → Z * rpc_result).

(** [rpc_method_resovle]; the first match. *)
Fixpoint rpc_method_resolve (table : list (list Z * M)) (name : list Z) : option (list Z * M) :=
  match table with
  | [] => None
  | (sig, f) :: table =>
      if (strlen sig <? length name)%nat then rpc_method_resolve table name
      else if ((memcmp name sig (length name) =? 0) && (deref (drop (length name) sig) =? 40))%bool
      then Some (sig, f)
      else rpc_method_resolve table name
  end.

(** The arguments the signature asks for; [at_] is what [at] points to. *)
Fixpoint args_loop (at_ : list Z) (buf : list Z) (p : nat) (cborlen : Z) (ra : rpc_args)
    : res (Z * list Z * nat * Z * rpc_args) :=
  match at_ with
  | c :: at_ =>
      if c <? 97 then Ret (0, buf, p, cborlen, ra)
      else if cborlen =? 0 then Ret (ERR_INVALID_RPC_ARGS, buf, p, cborlen, ra)
      else
        '(r, buf, ra) ←
          (if c =? 105 then '(r, ra) ← rpc_cbor_get_int buf p cborlen ra; Ret (r, buf, ra)
           else if c =? 115 then rpc_cbor_get_utf8 buf p cborlen ra
           else if c =? 98 then '(r, ra) ← rpc_cbor_get_bytestring buf p cborlen ra; Ret (r, buf, ra)
           else Ret (ERR_INVALID_RPC_ARGS, buf, ra));
        if r <? 0 then Ret (r, buf, p, cborlen, ra)
        else args_loop at_ buf (p + Z.to_nat r) (cborlen - r) ra
  | [] => Ret (0, buf, p, cborlen, ra)
  end.

(** [rpc_trampoline]: registers that were not filled are 0. *)
Definition rpc_trampoline (ra : rpc_args) (f : M) (buf : list Z) : Z * rpc_result :=
  let g i := default (GInt 0) (ra !! i) in
  call f [g 0%nat; g 1%nat; g 2%nat] buf.

Definition rpc_dispatch_cbor (table : list (list Z * M)) (name buf : list Z) (p : nat) (cborlen : Z)
    : res (Z * option rpc_result * list Z) :=
  '(used, p, cborlen) ←
    (if cborlen =? 0 then Ret (0, p, cborlen) else
     b ← byte_of buf p;
     if negb (Z.shiftr b 5 =? 4) then Ret (ERR_INVALID_RPC_ARGS, p, cborlen)
     else if b =? 159 then Ret (0, S p, cborlen - 1)
     else
       '(used, _) ← cbor_decode_scalar buf p cborlen false;
       if used <? 0 then Ret (used, p, cborlen) else Ret (0, (p + Z.to_nat used)%nat, cborlen - used));
  if used <? 0 then Ret (used, None, buf) else
  match rpc_method_resolve table name with
  | None => Ret (ERR_NOT_FOUND, None, buf)
  | Some (sig, f) =>
      '(r, buf, p, cborlen, ra) ← args_loop (drop (length name + 1) sig) buf p cborlen [];
      if r <? 0 then Ret (r, None, buf) else
      tail ← (if cborlen =? 0 then Ret true
              else if cborlen =? 1 then b ← byte_of buf p; Ret (b =? 255) else Ret false);
      if negb tail then Ret (ERR_INVALID_RPC_ARGS, None, buf)
      else let '(err, rr) := rpc_trampoline ra f buf in Ret (err, Some rr, buf)
  end.

(** ** The service *)

Definition rpc_err (err : Z) : list Z := 101 :: le32 err.

Definition result_bytes (rr : rpc_result) : list Z :=
  let t := rr_type rr in
  if ((t =? 105) || (t =? 102))%bool then le32 (rr_i32 rr)
  else if ((t =? 115) || (t =? 83))%bool then take (strlen (rr_data rr)) (rr_data rr)
  else if ((t =? 98) || (t =? 66))%bool then rr_data rr
  else [].

(** [rpc_dispatch]: the response, in the buffer of the request. *)
Definition rpc_dispatch (table : list (list Z * M)) (pb : windows) : res (list Z) :=
  '(short, pb) ← pullup_or_assert (Z.to_nat (pktlen pb)) pb;
  if negb (short =? 0) then Ret (rpc_err ERR_MTU_EXCEEDED) else
  let req := first pb in
  let len := pktlen pb in
  namelen ← byte_of req 0;
  if len <? 1 + namelen then Ret (rpc_err ERR_MALFORMED) else
  let n := Z.to_nat namelen in
  '(err, rr, _) ← rpc_dispatch_cbor table (take n (drop 1 req)) req (1 + n) (len - 1 - namelen);
  if negb (err =? 0) then Ret (rpc_err err) else
  match rr with
  | None => Ret (rpc_err err)
  | Some rr =>
      let data := result_bytes rr in
      if (1 + length data <=? PBUF_DATA_SIZE)%nat then Ret (Z.lor (rr_type rr) 32 :: data)
      else Fault Assert
  end.
End Dispatch.

(** [svc_rpc_t] with where its thread is: at the top of the loop, in [rpc_dispatch] without
    the mutex, at the loop that waits for the response to be pulled, or gone.
    [sr_waiting]: the thread is asleep on [cond] at that place. *)
Inductive rpc_at :=
| AtLoop
| AtDispatch (pb : windows)
| AtResponse
| AtEnd.

Record svc_rpc := SvcRpc {
  sr_req : option windows;
  sr_resp : option (list Z);
  sr_stop : bool;
  sr_thread : rpc_at;
  sr_waiting : bool;
  sr_pull_events : nat;           (* [PUSHPULL_EVENT_PULL] raised *)
  sr_close_events : nat }.        (* [PUSHPULL_EVENT_CLOSE] raised *)

Definition rpc_may_push (sr : svc_rpc) : bool := match sr_req sr with None => true | Some _ => false end.

(** [cond_signal(&sr->cond)]: the thread is the only one that ever sleeps on it; a signal
    while it does not sleep is lost. *)
Definition sr_signal (sr : svc_rpc) : svc_rpc :=
  SvcRpc (sr_req sr) (sr_resp sr) (sr_stop sr) (sr_thread sr) false (sr_pull_events sr) (sr_close_events sr).
(** [cond_wait(&sr->cond, &sr->mutex)], up to the sleep: the mutex is given up. *)
Definition sr_wait (at_ : rpc_at) (sr : svc_rpc) : svc_rpc :=
  SvcRpc (sr_req sr) (sr_resp sr) (sr_stop sr) at_ true (sr_pull_events sr) (sr_close_events sr).

Definition rpc_push (pb : windows) (sr : svc_rpc) : res svc_rpc :=
  match sr_req sr with
  | Some _ => Fault Assert
  | None =>
      Ret (sr_signal (SvcRpc (Some pb) (sr_resp sr) (sr_stop sr) (sr_thread sr) (sr_waiting sr)
                        (sr_pull_events sr) (sr_close_events sr)))
  end.

Definition rpc_pull (sr : svc_rpc) : option (list Z) * svc_rpc :=
  (sr_resp sr,
   sr_signal (SvcRpc (sr_req sr) None (sr_stop sr) (sr_thread sr) (sr_waiting sr)
                (sr_pull_events sr) (sr_close_events sr))).

Definition rpc_close (sr : svc_rpc) : svc_rpc :=
  sr_signal (SvcRpc (sr_req sr) (sr_resp sr) true (sr_thread sr) (sr_waiting sr)
               (sr_pull_events sr) (sr_close_events sr)).

(** The outer loop of [rpc_thread] from its condition, with the mutex held, to where the
    mutex is given up: what is left of requests and responses is freed at the end. *)
Definition rpc_loop (sr : svc_rpc) : svc_rpc :=
  if sr_stop sr then
    SvcRpc None None (sr_stop sr) AtEnd false (sr_pull_events sr) (S (sr_close_events sr))
  else match sr_req sr with
       | None => sr_wait AtLoop sr
       | Some pb =>
           SvcRpc None (sr_resp sr) (sr_stop sr) (AtDispatch pb) false (sr_pull_events sr) (sr_close_events sr)
       end.

(** The inner loop from its condition: [while(sr->resp && !sr->stop)]. *)
Definition rpc_resp_loop (sr : svc_rpc) : svc_rpc :=
  match sr_resp sr with
  | Some _ => if sr_stop sr then rpc_loop sr else sr_wait AtResponse sr
  | None => rpc_loop sr
  end.

(** [rpc_thread], from where it has got the mutex, or runs [rpc_dispatch] without it, to
    where it gives the mutex up; [None] when it sleeps or is gone. *)
Definition rpc_thread (dispatch : windows → res (list Z)) (sr : svc_rpc) : res (option svc_rpc) :=
  if sr_waiting sr then Ret None
  else match sr_thread sr with
  | AtLoop => Ret (Some (rpc_loop sr))
  | AtDispatch pb =>
      resp ← dispatch pb;
      Ret (Some (rpc_resp_loop
        (SvcRpc (sr_req sr) (Some resp) (sr_stop sr) AtResponse false (S (sr_pull_events sr)) (sr_close_events sr))))
  | AtResponse => Ret (Some (rpc_resp_loop sr))
  | AtEnd => Ret None
  end.

Definition rpc_open : svc_rpc := SvcRpc None None false AtLoop false 0 0.

(** ** The client *)

Definition VLLP_ERR_MALFORMED : Z := -19.
Definition VLLP_ERR_NOT_CONNECTED : Z := -33.

(** [vllp_rpc_result_t]: an error or number, data, or neither. *)
Inductive client_result :=
| CInt (type i32 : Z)
| CData (type : Z) (data : list Z)
| CVoid (type : Z).

Definition rpc_request (method args : list Z) : list Z := u8 (Z.of_nat (length method)) :: method ++ args.

Definition vllp_intbuf (type : Z) (buf : list Z) : client_result :=
  match buf with
  | [a; b; c; d] => CInt type (s32 (rd_le32 a b c d))
  | _ => CInt 101 VLLP_ERR_MALFORMED
  end.

(** What [vllp_rpc_invoke] makes of [result] and the packet that [vllp_channel_read] gives. *)
Definition vllp_rpc_result (result : Z) (buf : option (list Z)) : client_result :=
  if negb (result =? 0) then CInt 101 result else
  match buf with
  | None => CInt 101 VLLP_ERR_NOT_CONNECTED
  | Some [] => CInt 101 VLLP_ERR_MALFORMED
  | Some (type :: data) =>
      if ((type =? 101) || (type =? 102) || (type =? 105))%bool then vllp_intbuf type data
      else if ((type =? 115) || (type =? 98))%bool then CData type data
      else CVoid type
  end.

(** ** CBOR, as RFC 8949 writes it *)

Definition cbor_hdr (major n : Z) : list Z :=
  if n <? 24 then [32 * major + n]
  else if n <? 256 then [32 * major + 24; n]
  else if n <? 65536 then (32 * major + 25) :: [n / 256; n mod 256]
  else (32 * major + 26) :: be32 n.

Inductive carg :=
| AInt (z : Z)
| AStr (s : list Z)
| ABin (s : list Z).

Definition enc_arg (a : carg) : list Z :=
  match a with
  | AInt z => if 0 <=? z then cbor_hdr 0 z else cbor_hdr 1 (-1 - z)
  | AStr s => cbor_hdr 3 (Z.of_nat (length s)) ++ s
  | ABin s => cbor_hdr 2 (Z.of_nat (length s)) ++ s
  end.

Definition enc_args (l : list carg) : list Z := cbor_hdr 4 (Z.of_nat (length l)) ++ (l ≫= enc_arg).

(** The letter of an argument in a signature, and the registers it takes. *)
Definition letter (a : carg) : Z := match a with AInt _ => 105 | AStr _ => 115 | ABin _ => 98 end.
Definition regs (a : carg) : nat := match a with ABin _ => 2 | _ => 1 end.

Definition arg_ok (a : carg) : Prop :=
  match a with AInt z => -2147483648 <= z < 2147483648 | AStr s => bytes s | ABin s => bytes s end.

(** The registers hold the argument. *)
Definition holds (buf : list Z) (a : carg) (g : list gpr) : Prop :=
  match a with
  | AInt z => g = [GInt z]
  | AStr s => ∃ o, g = [GPtr o] ∧ take (length s + 1) (drop o buf) = s ++ [0]
  | ABin s => ∃ o, g = [GPtr o; GInt (Z.of_nat (length s))] ∧ take (length s) (drop o buf) = s
  end.

Fixpoint all_hold (buf : list Z) (l : list carg) (g : list gpr) : Prop :=
  match l with
  | [] => g = []
  | a :: l => ∃ g1 g2, g = g1 ++ g2 ∧ holds buf a g1 ∧ all_hold buf l g2
  end.

Lemma byte_of_mid pre b post : byte_of (pre ++ b :: post) (length pre) = Ret b.
Proof. unfold byte_of. by rewrite list_lookup_middle. Qed.

Lemma be_loop_spec n : ∀ pre bs post v p, length bs = n → p = length pre →
  be_loop n (pre ++ bs ++ post) p v = Ret (foldl (λ v b, s32 (Z.lor (Z.shiftl v 8) b)) v bs).
Proof.
  induction n as [|n IH]; intros pre bs post v p Hl ->; [by destruct bs|].
  destruct bs as [|b bs]; [done|]. cbn. rewrite byte_of_mid. cbn.
  change (pre ++ b :: bs ++ post) with (pre ++ [b] ++ (bs ++ post)). rewrite app_assoc.
  rewrite IH; [done|by injection Hl|rewrite length_app; cbn; lia].
Qed.

Lemma lor_byte v b : 0 <= v < 8388608 → is_byte b → s32 (Z.lor (Z.shiftl v 8) b) = 256 * v + b.
Proof.
  intros Hv Hb. unfold is_byte in *. rewrite shiftl_lor by lia. rewrite s32_id; lia.
Qed.

Lemma land_31 major x : 0 <= x < 32 → Z.land (32 * major + x) 31 = x.
Proof.
  intros. change 31 with (2 ^ 5 - 1). rewrite land_ones_mod by lia. change (2 ^ 5) with 32.
  rewrite Z.add_comm, Z.mul_comm, Z.mod_add by lia. apply Z.mod_small. lia.
Qed.

Lemma cbor_hdr_bytes major n : 0 <= major < 8 → 0 <= n < 4294967296 →
  ∃ b bs, cbor_hdr major n = b :: bs ∧ 32 * major <= b <= 32 * major + 26.
Proof. intros. unfold cbor_hdr. repeat case_match; bool_to_prop; eexists _, _; split; (done || lia). Qed.

(** The header written is the header read. *)
Lemma decode_hdr major n neg pre post cborlen : 0 <= n < 2147483648 →
  Z.of_nat (length (cbor_hdr major n)) <= cborlen →
  cbor_decode_scalar (pre ++ cbor_hdr major n ++ post) (length pre) cborlen neg =
    Ret (Z.of_nat (length (cbor_hdr major n)), Some (if neg then Z.lnot n else n)).
Proof.
  intros Hn Hl. assert (∀ k x bs, cbor_hdr major n = (32 * major + x) :: bs → 24 <= x <= 26 → length bs = k →
    k = (if x =? 25 then 2%nat else if x =? 26 then 4%nat else 1%nat) →
    foldl (λ v b, s32 (Z.lor (Z.shiftl v 8) b)) 0 bs = n →
    cbor_decode_scalar (pre ++ cbor_hdr major n ++ post) (length pre) cborlen neg =
      Ret (Z.of_nat (length (cbor_hdr major n)), Some (if neg then Z.lnot n else n))) as Hlong.
  { intros k x bs E Hx Hk Ek Hf. rewrite E in *. unfold cbor_decode_scalar. cbn [app].
    rewrite byte_of_mid. cbn [mbind res_bind]. rewrite land_31 by lia.
    rewrite (proj2 (Z.ltb_ge 26 x)), (proj2 (Z.leb_le 24 x)), <- Ek by lia. cbn in Hl.
    rewrite (proj2 (Z.ltb_ge cborlen _)) by lia.
    change (pre ++ (32 * major + x) :: bs ++ post) with (pre ++ [32 * major + x] ++ (bs ++ post)).
    rewrite app_assoc, be_loop_spec by (rewrite ?length_app; cbn; lia). rewrite Hf. cbn.
    do 2 f_equal. f_equal. cbn. lia. }
  destruct (Z.lt_ge_cases n 24).
  { assert (cbor_hdr major n = [32 * major + n]) as -> by (unfold cbor_hdr; by rewrite (proj2 (Z.ltb_lt _ _))).
    unfold cbor_decode_scalar. cbn [app]. rewrite byte_of_mid. cbn [mbind res_bind].
    rewrite land_31, (proj2 (Z.ltb_ge 26 n)), (proj2 (Z.leb_gt 24 n)) by lia. done. }
  destruct (Z.lt_ge_cases n 256).
  { apply (Hlong 1%nat 24 [n]); [|lia|done|done|].
    - unfold cbor_hdr. by rewrite (proj2 (Z.ltb_ge n 24)), (proj2 (Z.ltb_lt n 256)) by lia.
    - cbn [foldl]. rewrite lor_byte by (unfold is_byte; lia). lia. }
  destruct (Z.lt_ge_cases n 65536).
  { apply (Hlong 2%nat 25 [n / 256; n mod 256]); [|lia|done|done|].
    - unfold cbor_hdr. by rewrite (proj2 (Z.ltb_ge n 24)), (proj2 (Z.ltb_ge n 256)), (proj2 (Z.ltb_lt n 65536)) by lia.
    - cbn [foldl]. rewrite (lor_byte 0) by (unfold is_byte; dlia). rewrite lor_byte by (unfold is_byte; dlia). dlia. }
  apply (Hlong 4%nat 26 (be32 n)); [|lia|done|done|].
  - unfold cbor_hdr. by rewrite (proj2 (Z.ltb_ge n 24)), (proj2 (Z.ltb_ge n 256)), (proj2 (Z.ltb_ge n 65536)) by lia.
  - unfold be32, u8. rewrite !Z.shiftr_div_pow2 by lia. cbn [foldl].
    change (2 ^ 24) with 16777216. change (2 ^ 16) with 65536. change (2 ^ 8) with 256.
    set (a := _ mod 256) at 1. set (b := (n / 65536) mod 256). set (c := (n / 256) mod 256). set (d := n mod 256).
    assert (0 <= a < 128 ∧ is_byte b ∧ is_byte c ∧ is_byte d ∧ n = ((a * 256 + b) * 256 + c) * 256 + d)
      as (? & ? & ? & ? & En) by (unfold is_byte; subst a b c d; dlia). unfold is_byte in *.
    rewrite (lor_byte 0 a), (lor_byte (256 * 0 + a) b) by (unfold is_byte; lia).
    rewrite (lor_byte (256 * (256 * 0 + a) + b) c) by (unfold is_byte; lia).
    rewrite lor_byte by (unfold is_byte; lia). lia.
Qed.

(** ** One argument *)

(** The three readers on an argument that was written. *)
Lemma get_int_ok pre z post cborlen ra : -2147483648 <= z < 2147483648 → (length ra < 3)%nat →
  Z.of_nat (length (enc_arg (AInt z))) <= cborlen →
  rpc_cbor_get_int (pre ++ enc_arg (AInt z) ++ post) (length pre) cborlen ra =
    Ret (Z.of_nat (length (enc_arg (AInt z))), ra ++ [GInt z]).
Proof.
  intros Hz Hr Hl. unfold rpc_cbor_get_int. rewrite decide_False by (unfold RPC_ARGS_MAX_GPR; lia).
  assert (∃ m n, enc_arg (AInt z) = cbor_hdr m n ∧ 0 <= n < 2147483648 ∧
    (m = 0 ∧ n = z ∨ m = 1 ∧ Z.lnot n = z)) as (m & n & E & Hn & Hm).
  { cbn. destruct (0 <=? z) eqn:Ez; bool_to_prop; eexists _, _; (split_and!; [done|lia|lia|]).
    - left. done.
    - right. split; [done|]. unfold Z.lnot. lia. }
  rewrite E in *. destruct (cbor_hdr_bytes m n) as (b & bs & Eb & Hb); [lia|lia|].
  assert (byte_of (pre ++ cbor_hdr m n ++ post) (length pre) = Ret b) as Ebyte
    by (rewrite Eb; apply byte_of_mid).
  rewrite Ebyte. cbn [mbind res_bind]. rewrite (proj2 (Z.leb_gt 64 b)) by lia.
  unfold cbor_decode_int. rewrite Ebyte. cbn [mbind res_bind]. rewrite decode_hdr by lia.
  cbn [mbind res_bind]. assert (Z.land b 32 = 32 * m) as ->.
  { destruct Hm as [[-> _]|[-> _]].
    - assert (∀ b, 0 <= b <= 26 → Z.land b 32 = 32 * 0) as H; [|apply H; lia]. clear.
      intros b Hb. assert (b ∈ seqZ 0 27) as Hin by (apply elem_of_seqZ; lia). clear Hb. revert b Hin.
      apply Forall_forall. vm_compute. repeat constructor.
    - assert (∀ b, 32 <= b <= 58 → Z.land b 32 = 32 * 1) as H; [|apply H; lia]. clear.
      intros b Hb. assert (b ∈ seqZ 32 27) as Hin by (apply elem_of_seqZ; lia). clear Hb. revert b Hin.
      apply Forall_forall. vm_compute. repeat constructor. }
  by destruct Hm as [[-> ->]|[-> <-]].
Qed.

Lemma cbor_hdr_length major n : (1 <= length (cbor_hdr major n) <= 5)%nat.
Proof. unfold cbor_hdr. repeat case_match; cbn; lia. Qed.

Lemma get_utf8_ok pre s post cborlen ra : Z.of_nat (length s) < 2147483648 → (length ra < 3)%nat →
  Z.of_nat (length (enc_arg (AStr s))) <= cborlen →
  ∃ junk, length (s ++ 0 :: junk) = length (enc_arg (AStr s)) ∧
    rpc_cbor_get_utf8 (pre ++ enc_arg (AStr s) ++ post) (length pre) cborlen ra =
      Ret (Z.of_nat (length (enc_arg (AStr s))), pre ++ (s ++ 0 :: junk) ++ post, ra ++ [GPtr (length pre)]).
Proof.
  intros Hs Hr Hl. set (hdr := cbor_hdr 3 (Z.of_nat (length s))). cbn [enc_arg] in *. fold hdr in Hl |- *.
  rewrite length_app in *. pose proof (cbor_hdr_length 3 (Z.of_nat (length s))) as Hh. fold hdr in Hh.
  destruct (drop (length s) (hdr ++ s)) as [|x junk] eqn:Ej.
  { apply (f_equal length) in Ej. rewrite length_drop, length_app in Ej. cbn in Ej. lia. }
  assert (length (x :: junk) = length hdr) as Lj by (rewrite <- Ej, length_drop, length_app; lia).
  exists junk. split; [rewrite length_app; cbn in *; lia|].
  unfold rpc_cbor_get_utf8. rewrite decide_False by (unfold RPC_ARGS_MAX_GPR; lia).
  destruct (cbor_hdr_bytes 3 (Z.of_nat (length s))) as (b & bs & Eb & Hb); [lia|lia|]. fold hdr in Eb.
  assert (byte_of (pre ++ (hdr ++ s) ++ post) (length pre) = Ret b) as -> by (rewrite Eb; apply byte_of_mid).
  cbn [mbind res_bind]. rewrite (proj2 (Z.ltb_ge b 96)), (proj2 (Z.ltb_ge 122 b)) by lia. cbn [orb].
  pose proof (decode_hdr 3 (Z.of_nat (length s)) false pre (s ++ post) cborlen ltac:(lia) ltac:(fold hdr; lia)) as Ed.
  fold hdr in Ed. rewrite <- !app_assoc, Ed. cbn [mbind res_bind].
  rewrite (u32_id (_ + _)), (u32_id (Z.of_nat _)) by (unfold is_u32; lia).
  rewrite (proj2 (Z.ltb_ge cborlen _)) by lia.
  rewrite (app_assoc pre hdr), rd_at by (rewrite length_app; lia). cbn [mbind res_bind].
  rewrite <- !app_assoc, (app_assoc hdr s), <- (take_drop (length s) (hdr ++ s)), <- (app_assoc (take _ _)).
  rewrite wr_at; [|done|rewrite length_take, length_app; lia]. cbn [mbind res_bind]. rewrite Ej.
  rewrite (app_assoc pre s). change ((x :: junk) ++ post) with ([x] ++ (junk ++ post)).
  rewrite wr_at; [|rewrite length_app; lia|done]. cbn [mbind res_bind].
  rewrite <- Nat2Z.inj_add. do 3 f_equal. cbn. by rewrite <- !app_assoc.
Qed.

Lemma get_bytes_ok pre s post cborlen ra : Z.of_nat (length s) < 2147483648 → (length ra + 1 < 3)%nat →
  Z.of_nat (length (enc_arg (ABin s))) <= cborlen →
  rpc_cbor_get_bytestring (pre ++ enc_arg (ABin s) ++ post) (length pre) cborlen ra =
    Ret (Z.of_nat (length (enc_arg (ABin s))),
      ra ++ [GPtr (length pre + length (cbor_hdr 2 (Z.of_nat (length s)))); GInt (Z.of_nat (length s))]).
Proof.
  intros Hs Hr Hl. set (hdr := cbor_hdr 2 (Z.of_nat (length s))). cbn [enc_arg] in *. fold hdr in Hl |- *.
  rewrite length_app in *. pose proof (cbor_hdr_length 2 (Z.of_nat (length s))) as Hh. fold hdr in Hh.
  unfold rpc_cbor_get_bytestring. rewrite (proj2 (Nat.leb_gt _ _)) by (unfold RPC_ARGS_MAX_GPR; lia).
  destruct (cbor_hdr_bytes 2 (Z.of_nat (length s))) as (b & bs & Eb & Hb); [lia|lia|]. fold hdr in Eb.
  assert (byte_of (pre ++ (hdr ++ s) ++ post) (length pre) = Ret b) as -> by (rewrite Eb; apply byte_of_mid).
  cbn [mbind res_bind]. rewrite (proj2 (Z.ltb_ge b 64)), (proj2 (Z.ltb_ge 90 b)) by lia. cbn [orb].
  pose proof (decode_hdr 2 (Z.of_nat (length s)) false pre (s ++ post) cborlen ltac:(lia) ltac:(fold hdr; lia)) as Ed.
  fold hdr in Ed. rewrite <- !app_assoc, Ed. cbn [mbind res_bind].
  rewrite (u32_id (_ + _)) by (unfold is_u32; lia). rewrite (proj2 (Z.ltb_ge cborlen _)) by lia.
  rewrite Nat2Z.id, <- Nat2Z.inj_add. done.
Qed.

(** What the loop does for one letter. *)
Definition get_arg (c : Z) (buf : list Z) (p : nat) (cborlen : Z) (ra : rpc_args) : res (Z * list Z * rpc_args) :=
  if c =? 105 then '(r, ra) ← rpc_cbor_get_int buf p cborlen ra; Ret (r, buf, ra)
  else if c =? 115 then rpc_cbor_get_utf8 buf p cborlen ra
  else if c =? 98 then '(r, ra) ← rpc_cbor_get_bytestring buf p cborlen ra; Ret (r, buf, ra)
  else Ret (ERR_INVALID_RPC_ARGS, buf, ra).

Lemma get_arg_ok a pre post cborlen ra : arg_ok a → (length ra + regs a <= 3)%nat →
  Z.of_nat (length (enc_arg a)) <= cborlen → cborlen < 2147483648 →
  ∃ x g, length x = length (enc_arg a) ∧ length g = regs a ∧
    get_arg (letter a) (pre ++ enc_arg a ++ post) (length pre) cborlen ra =
      Ret (Z.of_nat (length (enc_arg a)), pre ++ x ++ post, ra ++ g) ∧
    ∀ t, holds (pre ++ x ++ t) a g.
Proof.
  intros Ha Hr Hl Hc. destruct a as [z|s|s]; cbn [letter regs arg_ok holds] in *; unfold get_arg; cbn [Z.eqb Pos.eqb].
  - exists (enc_arg (AInt z)), [GInt z]. rewrite get_int_ok by lia. done.
  - cbn [enc_arg] in Hl. rewrite length_app in Hl.
    destruct (get_utf8_ok pre s post cborlen ra) as (junk & Lj & E); [lia|lia|cbn; rewrite length_app; lia|].
    exists (s ++ 0 :: junk), [GPtr (length pre)]. split_and!; [done..|]. intros t. exists (length pre).
    split; [done|]. rewrite drop_app_length, <- app_assoc. change (0 :: junk) with ([0] ++ junk).
    rewrite <- app_assoc, app_assoc. replace (length s + 1)%nat with (length (s ++ [0])) by (rewrite length_app; done).
    apply take_app_length.
  - cbn [enc_arg] in Hl. rewrite length_app in Hl.
    exists (enc_arg (ABin s)). eexists [_; _].
    rewrite get_bytes_ok by (cbn [enc_arg]; rewrite ?length_app; lia). split_and!; [done..|].
    intros t. eexists. split; [done|]. cbn [enc_arg]. rewrite drop_app_add, <- app_assoc, drop_app_length.
    apply take_app_length.
Qed.

(** ** All arguments *)

Lemma letter_range a : 97 <= letter a.
Proof. destruct a; cbn; lia. Qed.

Lemma enc_arg_length a : (1 <= length (enc_arg a))%nat.
Proof.
  destruct a as [z|s|s]; cbn; [case_match; apply cbor_hdr_length|..]; rewrite length_app;
    match goal with |- context [cbor_hdr ?m ?n] => pose proof (cbor_hdr_length m n) end; lia.
Qed.

Definition sig_end (at_ : list Z) : Prop := match at_ with [] => True | c :: _ => c < 97 end.
Definition regs_of (l : list carg) : nat := foldr (λ a n, (regs a + n)%nat) 0%nat l.

Lemma args_loop_end at_ buf p cborlen ra : sig_end at_ → args_loop at_ buf p cborlen ra = Ret (0, buf, p, cborlen, ra).
Proof. destruct at_ as [|c at_]; [done|]. cbn. intros. by rewrite (proj2 (Z.ltb_lt _ _)). Qed.

Lemma args_loop_ok at_ post l : ∀ pre ra, sig_end at_ → Forall arg_ok l → (length ra + regs_of l <= 3)%nat →
  Z.of_nat (length (l ≫= enc_arg)) + Z.of_nat (length post) < 2147483648 →
  ∃ x g, length x = length (l ≫= enc_arg) ∧
    args_loop ((letter <$> l) ++ at_) (pre ++ (l ≫= enc_arg) ++ post) (length pre)
      (Z.of_nat (length (l ≫= enc_arg)) + Z.of_nat (length post)) ra =
      Ret (0, pre ++ x ++ post, length (pre ++ x), Z.of_nat (length post), ra ++ g) ∧
    all_hold (pre ++ x ++ post) l g.
Proof.
  induction l as [|a l IH]; intros pre ra He Hok Hr Hl.
  { exists [], []. rewrite !app_nil_r. cbn. by rewrite args_loop_end. }
  apply Forall_cons_1 in Hok as [Ha Hok]. cbn [mbind list_bind regs_of foldr] in *. fold (regs_of l) in Hr.
  fold (@mbind list list_bind carg Z enc_arg l) in *.
  rewrite length_app in *. pose proof (enc_arg_length a) as La. pose proof (letter_range a).
  destruct (get_arg_ok a pre ((l ≫= enc_arg) ++ post)
    (Z.of_nat (length (enc_arg a) + length (l ≫= enc_arg)) + Z.of_nat (length post)) ra)
    as (x1 & g1 & Lx & Lg & E1 & H1); [done|lia..|].
  destruct (IH (pre ++ x1) (ra ++ g1)) as (x2 & g2 & Lx2 & E2 & H2); [done|done|rewrite length_app; lia|lia|].
  exists (x1 ++ x2), (g1 ++ g2). split; [rewrite length_app; lia|].
  rewrite <- !app_assoc in *. split; [|by exists g1, g2].
  cbn [fmap list_fmap app args_loop]. rewrite (proj2 (Z.ltb_ge (letter a) 97)), (proj2 (Z.eqb_neq _ 0)) by lia.
  fold (get_arg (letter a) (pre ++ enc_arg a ++ (l ≫= enc_arg) ++ post) (length pre)
    (Z.of_nat (length (enc_arg a) + length (l ≫= enc_arg)) + Z.of_nat (length post)) ra).
  rewrite E1. cbn [mbind res_bind]. rewrite (proj2 (Z.ltb_ge _ 0)) by lia.
  rewrite Nat2Z.id, <- Lx, <- length_app.
  replace (Z.of_nat (length x1 + length (l ≫= enc_arg)) + Z.of_nat (length post) - Z.of_nat (length x1))
    with (Z.of_nat (length (l ≫= enc_arg)) + Z.of_nat (length post)) by lia.
  done.
Qed.

(** ** A whole call *)

Section Call.
Context {M : Type} (call : M → list gpr → list Z → Z * rpc_result) (table : list (list Z * M)).

(** The method named has the signature [name(letters...]. *)
Definition method_for (name : list Z) (l : list carg) (f : M) : Prop :=
  ∃ at_, sig_end at_ ∧ rpc_method_resolve table name = Some (name ++ 40 :: (letter <$> l) ++ at_, f).

Lemma enc_args_head l : Z.of_nat (length l) < 2147483648 →
  ∃ b bs, enc_args l = b :: bs ∧ Z.shiftr b 5 = 4 ∧ b ≠ 159.
Proof.
  intros Hl. unfold enc_args. destruct (cbor_hdr_bytes 4 (Z.of_nat (length l))) as (b & bs & -> & Hb); [lia|lia|].
  exists b, (bs ++ (l ≫= enc_arg)). split; [done|]. rewrite Z.shiftr_div_pow2 by lia. change (2 ^ 5) with 32.
  split; [dlia|lia].
Qed.

(** A request that was encoded calls the method with the arguments. *)
Lemma dispatch_ok pre name l f :
  method_for name l f → Forall arg_ok l → (regs_of l <= 3)%nat →
  Z.of_nat (length (enc_args l)) < 2147483648 →
  ∃ buf g, length buf = length (pre ++ enc_args l) ∧ all_hold buf l g ∧
    rpc_dispatch_cbor call table name (pre ++ enc_args l) (length pre) (Z.of_nat (length (enc_args l))) =
      let '(err, rr) := rpc_trampoline call g f buf in Ret (err, Some rr, buf).
Proof.
  intros (at_ & He & Hm) Hok Hr Hl. set (hdr := cbor_hdr 4 (Z.of_nat (length l))).
  assert (length l <= length (l ≫= enc_arg))%nat as Hle.
  { clear. induction l as [|a l IH]; [done|]. cbn. rewrite length_app. pose proof (enc_arg_length a). lia. }
  unfold enc_args in Hl. fold hdr in Hl. rewrite length_app in Hl.
  destruct (enc_args_head l) as (b & bs & Eb & Hb & Hne); [lia|].
  destruct (args_loop_ok at_ [] l (pre ++ hdr) []) as (x & g & Lx & E & H); [done|done|cbn; lia|cbn; lia|].
  rewrite !app_nil_r in *. rewrite Z.add_0_r in E.
  exists ((pre ++ hdr) ++ x), g. split_and!; [|done|].
  { unfold enc_args. fold hdr. rewrite !length_app. lia. }
  assert (byte_of (pre ++ enc_args l) (length pre) = Ret b) as Ebyte by (rewrite Eb; apply byte_of_mid).
  pose proof (cbor_hdr_length 4 (Z.of_nat (length l))) as Hh. fold hdr in Hh.
  assert (length (enc_args l) = length hdr + length (l ≫= enc_arg))%nat as Le
    by (unfold enc_args; fold hdr; by rewrite length_app).
  unfold rpc_dispatch_cbor. rewrite (proj2 (Z.eqb_neq _ 0)), Ebyte by lia. cbn [mbind res_bind].
  rewrite Hb. cbn [Z.eqb Pos.eqb negb]. rewrite (proj2 (Z.eqb_neq b 159)) by done.
  pose proof (decode_hdr 4 (Z.of_nat (length l)) false pre (l ≫= enc_arg) (Z.of_nat (length (enc_args l)))
    ltac:(lia) ltac:(fold hdr; lia)) as Ed.
  fold (enc_args l) hdr in Ed. rewrite Ed. cbn [mbind res_bind].
  rewrite (proj2 (Z.ltb_ge _ 0)) by lia. cbn [Z.ltb Z.compare]. rewrite Hm.
  rewrite drop_app_add. cbn [drop].
  replace (pre ++ enc_args l) with ((pre ++ hdr) ++ (l ≫= enc_arg)) by (unfold enc_args; by rewrite <- app_assoc).
  replace (length pre + Z.to_nat (Z.of_nat (length hdr)))%nat with (length (pre ++ hdr)) by (rewrite length_app; lia).
  replace (Z.of_nat (length (enc_args l)) - Z.of_nat (length hdr)) with (Z.of_nat (length (l ≫= enc_arg))) by lia.
  cbn [mbind res_bind]. change (0 <? 0) with false. rewrite drop_0, E. done.
Qed.

(** What the client makes of the response. *)
Definition client_view (err : Z) (rr : rpc_result) : client_result :=
  if negb (err =? 0) then CInt 101 (s32 err)
  else let t := rr_type rr in
    if ((t =? 105) || (t =? 102))%bool then CInt t (s32 (rr_i32 rr))
    else if ((t =? 115) || (t =? 83))%bool then CData 115 (take (strlen (rr_data rr)) (rr_data rr))
    else if ((t =? 98) || (t =? 66))%bool then CData 98 (rr_data rr)
    else CVoid (Z.lor t 32).

Lemma intbuf_le32 t x : vllp_intbuf t (le32 x) = CInt t (s32 x).
Proof.
  cbn. f_equal. unfold rd_le32, u8. rewrite !Z.shiftr_div_pow2 by lia.
  change (2 ^ 24) with 16777216. change (2 ^ 16) with 65536. change (2 ^ 8) with 256.
  assert (x mod 256 + 256 * ((x / 256) mod 256) + 65536 * ((x / 65536) mod 256) + 16777216 * ((x / 16777216) mod 256) =
    u32 x) as -> by (unfold u32; dlia).
  unfold s32, u32. by rewrite Z.mod_mod.
Qed.

(** The types the code knows. *)
Definition known_type (t : Z) : Prop := t ∈ [105; 102; 115; 98; 118; 83; 66].

Lemma pullup_all pb : (length (concat pb) <= PBUF_DATA_SIZE)%nat →
  ∃ pb', pullup_or_assert (Z.to_nat (pktlen pb)) pb = Ret (0, pb') ∧ concat pb' = concat pb ∧ first pb' = concat pb.
Proof.
  intros Hn. unfold pullup_or_assert, pktlen. rewrite Nat2Z.id.
  rewrite (proj2 (Nat.ltb_ge PBUF_DATA_SIZE _)), andb_false_r by done.
  destruct (win_pullup _ pb) as [m pb'] eqn:E. apply win_pullup_spec in E as (Ec & Em & Ef).
  unfold pktlen in Em. rewrite Z.sub_diag in Em. cbn in Em. subst m. specialize (Ef eq_refl).
  exists pb'. split_and!; [done..|]. rewrite <- Ec in *. destruct pb' as [|w next]; [done|]. cbn in *.
  rewrite length_app in Ef. destruct (concat next); [by rewrite app_nil_r|cbn in Ef; lia].
Qed.

(** The response, read by the client. *)
Lemma response_view err rr : known_type (rr_type rr) →
  vllp_rpc_result 0 (Some (if negb (err =? 0) then rpc_err err else Z.lor (rr_type rr) 32 :: result_bytes rr)) =
    client_view err rr.
Proof.
  unfold known_type, client_view. intros Ht. destruct (err =? 0); cbn [negb]; [|apply intbuf_le32].
  unfold result_bytes. destruct rr as [t i d]. cbn [rr_type rr_i32 rr_data] in *.
  repeat (apply elem_of_cons in Ht as [->|Ht]; [first [done|apply intbuf_le32]|]). by apply elem_of_nil in Ht.
Qed.

Lemma rpc_dispatch_ok pb name l f :
  concat pb = rpc_request name (enc_args l) → (length (concat pb) <= PBUF_DATA_SIZE)%nat → (length name < 256)%nat →
  method_for name l f → Forall arg_ok l → (regs_of l <= 3)%nat →
  ∃ buf g, all_hold buf l g ∧ let '(err, rr) := rpc_trampoline call g f buf in
    ((1 + length (result_bytes rr) <= PBUF_DATA_SIZE)%nat →
     rpc_dispatch call table pb =
       Ret (if negb (err =? 0) then rpc_err err else Z.lor (rr_type rr) 32 :: result_bytes rr)).
Proof.
  intros Ec Hl Hn Hm Hok Hr. destruct (pullup_all pb Hl) as (pb' & E & Ec' & Ef).
  unfold rpc_request in Ec. rewrite u8_id in Ec by (unfold is_byte; lia).
  set (b := Z.of_nat (length name)) in *. set (pre := b :: name).
  assert (concat pb = pre ++ enc_args l) as Ec2 by exact Ec.
  assert (length (concat pb) = 1 + length name + length (enc_args l))%nat as Ll by (rewrite Ec2, length_app; done).
  unfold PBUF_DATA_SIZE in Hl.
  destruct (dispatch_ok pre name l f) as (buf & g & _ & Hh & Ed); [done..|lia|].
  exists buf, g. split; [done|]. destruct (rpc_trampoline call g f buf) as [err rr] eqn:Et. intros Hfit.
  unfold rpc_dispatch. rewrite E. cbn [mbind res_bind]. change (0 =? 0) with true. cbn [negb].
  rewrite Ef. unfold pktlen. rewrite Ec'. rewrite Ec2 at 1. change (byte_of (pre ++ enc_args l) 0) with (@Ret Z b).
  cbn [mbind res_bind]. rewrite (proj2 (Z.ltb_ge _ (1 + b))) by lia. unfold b at 1 2. rewrite !Nat2Z.id.
  assert (take (length name) (drop 1 (concat pb)) = name) as -> by (rewrite Ec2; apply take_app_length).
  replace (Z.of_nat (length (concat pb)) - 1 - b) with (Z.of_nat (length (enc_args l))) by lia.
  rewrite Ec2. change (1 + length name)%nat with (length pre). rewrite Ed. cbn [mbind res_bind].
  destruct (negb (err =? 0)); [done|]. by rewrite (proj2 (Nat.leb_le _ _)).
Qed.
End Call.

(** ** The service answers every request once *)

Section Service.
Context (dispatch : windows → res (list Z)).

(** A run of the service: what was pushed, what was pulled.  Each step holds the mutex; the
    channel calls nothing after [close]. *)
Record rpc_run := RpcRun { ru_sr : svc_rpc; ru_pushed : list windows; ru_pulled : list (list Z) }.

Inductive rpc_step : rpc_run → rpc_run → Prop :=
| RsPush pb sr sr' ps qs :
    sr_stop sr = false → rpc_may_push sr = true → rpc_push pb sr = Ret sr' →
    rpc_step (RpcRun sr ps qs) (RpcRun sr' (ps ++ [pb]) qs)
| RsPull sr r sr' ps qs :
    sr_stop sr = false → rpc_pull sr = (r, sr') →
    rpc_step (RpcRun sr ps qs) (RpcRun sr' ps (qs ++ option_list r))
| RsClose sr ps qs :
    sr_stop sr = false →
    rpc_step (RpcRun sr ps qs) (RpcRun (rpc_close sr) ps qs)
| RsThread sr sr' ps qs :
    rpc_thread dispatch sr = Ret (Some sr') →
    rpc_step (RpcRun sr ps qs) (RpcRun sr' ps qs).

(** The thread alone, [n] times, as far as it does not sleep. *)
Fixpoint thread_run (n : nat) (sr : svc_rpc) : res svc_rpc :=
  match n with
  | O => Ret sr
  | S n => o ← rpc_thread dispatch sr; match o with None => Ret sr | Some sr => thread_run n sr end
  end.

(** While the service is open the requests pushed are those answered and pulled, the one
    whose response waits, the one being run and the one that waits, in this order. *)
Definition in_work (sr : svc_rpc) : list windows := match sr_thread sr with AtDispatch pb => [pb] | _ => [] end.

(** The thread sleeps only while there is nothing for it to do. *)
Definition idle (sr : svc_rpc) : Prop :=
  sr_stop sr = false ∧
  (sr_thread sr = AtLoop ∧ sr_req sr = None ∨ sr_thread sr = AtResponse ∧ sr_resp sr ≠ None).

Record rpc_inv (c : rpc_run) : Prop := {
  ri_order : sr_stop (ru_sr c) = false →
    ∃ done, ru_pushed c = done ++ in_work (ru_sr c) ++ option_list (sr_req (ru_sr c)) ∧
    mapM dispatch done = Ret (ru_pulled c ++ option_list (sr_resp (ru_sr c)));
  ri_resp : sr_resp (ru_sr c) ≠ None → sr_thread (ru_sr c) = AtResponse;
  ri_wait : sr_waiting (ru_sr c) = true → idle (ru_sr c);
  ri_end : sr_thread (ru_sr c) = AtEnd → sr_stop (ru_sr c) = true;
  ri_closed : sr_close_events (ru_sr c) = match sr_thread (ru_sr c) with AtEnd => 1%nat | _ => 0%nat end;
  ri_events : sr_stop (ru_sr c) = false →
    sr_pull_events (ru_sr c) = (length (ru_pulled c) + length (option_list (sr_resp (ru_sr c))))%nat }.

Lemma mapM_snoc xs x ys y : mapM dispatch xs = Ret ys → dispatch x = Ret y → mapM dispatch (xs ++ [x]) = Ret (ys ++ [y]).
Proof.
  revert ys. induction xs as [|a xs IH]; cbn; intros ys.
  - intros [= <-] ->. done.
  - destruct (dispatch a) as [b|]; [|done]. cbn. destruct (mapM dispatch xs) as [bs|]; [|done]. cbn.
    intros [= <-] Hx. by rewrite (IH bs eq_refl Hx).
Qed.

(** The outer loop, at a state that has no response. *)
Lemma rpc_loop_inv sr ps qs at_ :
  sr_thread sr = at_ → at_ ≠ AtEnd → in_work sr = [] → (sr_stop sr = false → sr_resp sr = None) →
  rpc_inv (RpcRun sr ps qs) → rpc_inv (RpcRun (rpc_loop sr) ps qs).
Proof.
  intros Ea Hne Hw Hn [Ho Hr Hwt Hen Hc He]. unfold rpc_loop. cbn [ru_sr ru_pushed ru_pulled] in *.
  assert (sr_close_events sr = 0%nat) as Hc0 by (rewrite Hc, Ea; by destruct at_).
  destruct (sr_stop sr) eqn:Es; [split; cbn; try done; by rewrite Hc0|].
  destruct (Ho eq_refl) as (dn & Ep & Em). rewrite (Hn eq_refl) in *. rewrite Hw in Ep. specialize (He eq_refl).
  destruct (sr_req sr) as [pb|] eqn:Er; split; cbn; rewrite ?Es, ?Er, ?Hn; try done; intros; try (by exists dn).
  split; [done|]. by left.
Qed.

Lemma rpc_resp_loop_inv sr ps qs :
  sr_thread sr = AtResponse → rpc_inv (RpcRun sr ps qs) → rpc_inv (RpcRun (rpc_resp_loop sr) ps qs).
Proof.
  intros Ea Hi. assert (in_work sr = []) as Hw by (unfold in_work; by rewrite Ea).
  unfold rpc_resp_loop. destruct (sr_resp sr) as [r|] eqn:Er; [|by apply (rpc_loop_inv _ _ _ AtResponse)].
  destruct (sr_stop sr) eqn:Es; [apply (rpc_loop_inv _ _ _ AtResponse); try done; by rewrite Es|].
  destruct Hi as [Ho Hr Hwt Hen Hc He]. cbn [ru_sr ru_pushed ru_pulled] in *. rewrite Ea in Hc. unfold sr_wait.
  split; cbn; rewrite ?Es, ?Er in *; try done.
  - rewrite Hw in Ho. exact Ho.
  - intros _. split; [done|]. right. done.
Qed.

Lemma rpc_step_inv c c' : rpc_step c c' → rpc_inv c → rpc_inv c'.
Proof.
  intros Hs Hi. destruct Hs as [pb sr sr' ps qs Hst Hm Hp|sr r sr' ps qs Hst Hp|sr ps qs Hst|sr sr' ps qs Ht].
  - destruct Hi as [Ho Hr Hwt Hen Hc He]. cbn [ru_sr ru_pushed ru_pulled] in *. destruct (Ho Hst) as (dn & Ep & Em).
    unfold rpc_push, rpc_may_push in *. destruct (sr_req sr); [done|]. injection Hp as <-.
    split; cbn in *; try done. intros _. exists dn. split; [|done]. by rewrite Ep, <- !app_assoc.
  - destruct Hi as [Ho Hr Hwt Hen Hc He]. cbn [ru_sr ru_pushed ru_pulled] in *. destruct (Ho Hst) as (dn & Ep & Em).
    unfold rpc_pull in Hp. injection Hp as <- <-. split; cbn in *; try done.
    + intros _. exists dn. split; [done|]. by rewrite app_nil_r.
    + intros _. rewrite length_app, He by done. lia.
  - destruct Hi as [Ho Hr Hwt Hen Hc He]. cbn [ru_sr ru_pushed ru_pulled] in *. split; cbn in *; try done; congruence.
  - unfold rpc_thread in Ht. destruct (sr_waiting sr) eqn:Ew; [done|].
    destruct (sr_thread sr) as [|pb| |] eqn:Et; [| | |done].
    + injection Ht as <-. apply (rpc_loop_inv _ _ _ AtLoop); try done; [unfold in_work; by rewrite Et|].
      intros _. destruct (sr_resp sr) eqn:Er; [|done]. pose proof (ri_resp _ Hi) as H. cbn in H. rewrite Er, Et in H.
      by specialize (H ltac:(done)).
    + destruct (dispatch pb) as [resp|] eqn:Ed; [|done]. injection Ht as <-. apply rpc_resp_loop_inv; [done|].
      destruct Hi as [Ho Hr Hwt Hen Hc He]. unfold in_work in *. cbn [ru_sr ru_pushed ru_pulled] in *. rewrite Et in *.
      assert (sr_resp sr = None) as En by (destruct (sr_resp sr); [by specialize (Hr ltac:(done))|done]).
      rewrite En in *. split; cbn; try done.
      * intros Hst. destruct (Ho Hst) as (dn & Ep & Em). rewrite app_nil_r in Em.
        exists (dn ++ [pb]). split; [by rewrite Ep, <- app_assoc|]. by apply mapM_snoc.
      * intros Hst. rewrite He by done. cbn. lia.
    + injection Ht as <-. by apply rpc_resp_loop_inv.
Qed.

Lemma rpc_run_inv c : rtc rpc_step (RpcRun rpc_open [] []) c → rpc_inv c.
Proof.
  intros Hr. assert (rpc_inv (RpcRun rpc_open [] [])) as H0 by (split; cbn; try done; by exists []).
  remember (RpcRun rpc_open [] []) as c0 eqn:E0. clear E0. induction Hr; eauto using rpc_step_inv.
Qed.

(** A thread that is awake answers, or ends, in two steps at most. *)
Lemma thread_awake sr : sr_waiting sr = false →
  rpc_thread dispatch sr =
  match sr_thread sr with
  | AtLoop => Ret (Some (rpc_loop sr))
  | AtDispatch pb =>
      resp ← dispatch pb;
      Ret (Some (rpc_resp_loop
        (SvcRpc (sr_req sr) (Some resp) (sr_stop sr) AtResponse false (S (sr_pull_events sr)) (sr_close_events sr))))
  | AtResponse => Ret (Some (rpc_resp_loop sr))
  | AtEnd => Ret None
  end.
Proof. intros Hw. unfold rpc_thread. by rewrite Hw. Qed.

(** Taking a request is followed by its response. *)
Lemma loop_answers sr pb :
  (∀ pb, ∃ r, dispatch pb = Ret r) → sr_stop sr = false → sr_req sr = Some pb →
  ∃ sr', thread_run 1 (rpc_loop sr) = Ret sr' ∧ sr_resp sr' ≠ None.
Proof.
  intros Hd Hs Er. destruct (Hd pb) as [r Ed]. eexists. unfold rpc_loop. rewrite Hs, Er. cbn [thread_run].
  rewrite thread_awake by reflexivity. cbn [sr_thread]. rewrite Ed. split; [reflexivity|]. cbn.
  unfold rpc_resp_loop. done.
Qed.

Lemma thread_answers sr pb :
  (∀ pb, ∃ r, dispatch pb = Ret r) → sr_stop sr = false → sr_waiting sr = false → sr_resp sr = None →
  sr_thread sr ≠ AtEnd → pb ∈ in_work sr ++ option_list (sr_req sr) →
  ∃ n sr', (n <= 2)%nat ∧ thread_run n sr = Ret sr' ∧ sr_resp sr' ≠ None.
Proof.
  intros Hd Hs Hw Hn Ha Hin. unfold in_work in Hin. pose proof (thread_awake sr Hw) as E.
  destruct (sr_thread sr) as [|pb1| |] eqn:Et; [| | |done].
  - destruct (sr_req sr) as [pb2|] eqn:Er; [|by apply elem_of_nil in Hin].
    destruct (loop_answers sr pb2 Hd Hs Er) as (sr' & E' & ?). exists 2%nat, sr'. split; [lia|]. split; [|done].
    cbn [thread_run]. rewrite E. exact E'.
  - destruct (Hd pb1) as [r Ed]. exists 1%nat. eexists. split; [lia|]. cbn [thread_run].
    rewrite E, Ed. split; [reflexivity|]. unfold rpc_resp_loop. cbn [sr_resp sr_stop]. by rewrite Hs.
  - destruct (sr_req sr) as [pb2|] eqn:Er; [|by apply elem_of_nil in Hin].
    destruct (loop_answers sr pb2 Hd Hs Er) as (sr' & E' & ?). exists 2%nat, sr'. split; [lia|]. split; [|done].
    cbn [thread_run]. rewrite E. unfold rpc_resp_loop. rewrite Hn. exact E'.
Qed.

Lemma thread_ends sr :
  (∀ pb, ∃ r, dispatch pb = Ret r) → sr_stop sr = true → sr_waiting sr = false →
  ∃ sr', thread_run 1 sr = Ret sr' ∧ sr_thread sr' = AtEnd.
Proof.
  intros Hd Hs Hw. cbn [thread_run]. unfold rpc_thread. rewrite Hw.
  destruct (sr_thread sr) as [|pb| |] eqn:Et.
  - eexists. split; [reflexivity|]. unfold rpc_loop. by rewrite Hs.
  - destruct (Hd pb) as [r ->]. eexists. split; [reflexivity|]. unfold rpc_resp_loop, rpc_loop. cbn. by rewrite Hs.
  - eexists. split; [reflexivity|]. unfold rpc_resp_loop, rpc_loop. rewrite Hs. by destruct (sr_resp sr).
  - exists sr. done.
Qed.

(** C38: every request is answered once and in order, and no wake-up is lost: whatever the
    order of pushes, pulls, the close and the steps of the thread, which sleeps on the
    condition variable and is woken only by its signals, as long as the service is open the
    responses pulled, with the one that waits, are the results of the first requests
    pushed, at most two more are under way, and the channel was told of every response.  A
    request under way is never stuck: unless a response waits to be pulled, the thread is
    awake and gets to one in at most two steps, if the methods return.  After the close it
    is awake, or has already ended, gets to its end in a step, and tells the channel once. *)
Theorem rpc_exactly_once c :
  rtc rpc_step (RpcRun rpc_open [] []) c →
  let sr := ru_sr c in
  (sr_stop sr = false → ∃ done rest, ru_pushed c = done ++ rest ∧ (length rest <= 2)%nat ∧
    mapM dispatch done = Ret (ru_pulled c ++ option_list (sr_resp sr)) ∧
    sr_pull_events sr = length (ru_pulled c ++ option_list (sr_resp sr)) ∧
    (sr_resp sr = None → rest ≠ [] → (∀ pb, ∃ r, dispatch pb = Ret r) →
      ∃ n sr', (n <= 2)%nat ∧ thread_run n sr = Ret sr' ∧ sr_resp sr' ≠ None)) ∧
  (sr_stop sr = true → (∀ pb, ∃ r, dispatch pb = Ret r) →
    ∃ sr', thread_run 1 sr = Ret sr' ∧ sr_thread sr' = AtEnd) ∧
  sr_close_events sr = match sr_thread sr with AtEnd => 1%nat | _ => 0%nat end.
Proof.
  intros [Ho Hr Hwt Hen Hc He]%rpc_run_inv sr. fold sr in Ho, Hr, Hwt, Hen, Hc, He. split_and!; [| |done].
  - intros Hs. destruct (Ho Hs) as (dn & Ep & Em). exists dn. eexists. split_and!; [exact Ep| |done| |].
    + rewrite length_app. unfold in_work. destruct (sr_thread _), (sr_req _); cbn; lia.
    + rewrite length_app. by apply He.
    + intros Hn Hne Hd. assert (∃ pb, pb ∈ in_work sr ++ option_list (sr_req sr)) as [pb Hin].
      { destruct (in_work sr ++ option_list (sr_req sr)) as [|pb l]; [done|]. exists pb. by left. }
      eapply thread_answers; try done; [|intros E; rewrite Hen in Hs; done].
      destruct (sr_waiting sr); [|done]. destruct (Hwt eq_refl) as [_ [[E1 E2]|[_ E]]]; [|done].
      unfold in_work in Hne. by rewrite E1, E2 in Hne.
  - intros Hs Hd. apply thread_ends; try done. destruct (sr_waiting sr); [|done].
    destruct (Hwt eq_refl) as [E _]. congruence.
Qed.
End Service.

(** ** Theorems *)

(** C37: a call arrives with its arguments and its result comes back: a request that the
    client makes for a method of the table, with 32-bit signed numbers, strings and byte
    strings encoded as CBOR and needing at most three registers, in however many buffers
    it arrives but of at most one buffer's size in all (a longer one trips an assertion,
    [rpc_long_request_asserts]), calls the method with registers that hold exactly these
    arguments, strings ended by a NUL; and the client reads the method's error, or its
    number, string or data, from the response, if that fits a buffer. *)
Theorem rpc_call_roundtrip {M} (call : M → list gpr → list Z → Z * rpc_result) table name l f pb :
  concat pb = rpc_request name (enc_args l) → (length (concat pb) <= PBUF_DATA_SIZE)%nat →
  (length name < 256)%nat → method_for table name l f → Forall arg_ok l → (regs_of l <= 3)%nat →
  ∃ buf g, all_hold buf l g ∧ let '(err, rr) := rpc_trampoline call g f buf in
    (known_type (rr_type rr) → (1 + length (result_bytes rr) <= PBUF_DATA_SIZE)%nat →
     ∃ resp, rpc_dispatch call table pb = Ret resp ∧ vllp_rpc_result 0 (Some resp) = client_view err rr).
Proof.
  intros Ec Hl Hn Hm Hok Hr. destruct (rpc_dispatch_ok call table pb name l f) as (buf & g & Hh & H); [done..|].
  exists buf, g. split; [done|]. destruct (rpc_trampoline call g f buf) as [err rr]. intros Ht Hfit.
  eexists. split; [by apply H|]. by apply response_view.
Qed.

(** A table of two methods: one returns the second of its numbers, one the string it got. *)
Definition ex_call (f : nat) (g : list gpr) (buf : list Z) : Z * rpc_result :=
  match f, g with
  | O, [_; GInt z; _] => (0, RpcResult 105 z [])
  | S O, [GPtr o; _; _] => (0, RpcResult 115 0 (drop o buf))
  | _, _ => (-1, RpcResult 118 0 [])
  end.
Definition ex_sig0 : list Z := [97; 100; 100; 40; 105; 105; 41].
Definition ex_sig1 : list Z := [101; 99; 104; 111; 40; 115; 98; 41].
Definition ex_rpcs : list (list Z * nat) := [(ex_sig0, 0%nat); (ex_sig1, 1%nat)].
Definition ex_name : list Z := [101; 99; 104; 111].
Definition ex_rpc_args : list carg := [AStr [104; 105]; ABin [1; 2; 3]].
Definition ex_req : list Z := rpc_request ex_name (enc_args ex_rpc_args).

Lemma rpc_call_roundtrip_witness :
  (∃ buf g, all_hold buf ex_rpc_args g ∧ let '(err, rr) := rpc_trampoline ex_call g 1%nat buf in
    (known_type (rr_type rr) → (1 + length (result_bytes rr) <= PBUF_DATA_SIZE)%nat →
     ∃ resp, rpc_dispatch ex_call ex_rpcs [take 3 ex_req; drop 3 ex_req] = Ret resp ∧
       vllp_rpc_result 0 (Some resp) = client_view err rr)) ∧
  rpc_dispatch ex_call ex_rpcs [take 3 ex_req; drop 3 ex_req] = Ret [115; 104; 105].
Proof.
  split; [|vm_compute; reflexivity].
  apply (rpc_call_roundtrip ex_call ex_rpcs ex_name ex_rpc_args 1%nat).
  - reflexivity.
  - vm_compute. lia.
  - vm_compute. lia.
  - exists [41]. split; [cbn; lia|reflexivity].
  - repeat constructor; cbn; unfold is_byte; lia.
  - cbn. lia.
Defined.

(** The thread sleeps; the push wakes it, it answers and sleeps until the response is
    pulled; a second request is pushed before the pull, which wakes it again. *)
Lemma rpc_exactly_once_witness :
  let dispatch := rpc_dispatch ex_call ex_rpcs in
  let sr := SvcRpc (Some [ex_req]) None false AtResponse false 1 0 in
  let c := RpcRun sr [[ex_req]; [ex_req]] [[115; 104; 105]] in
  rtc (rpc_step dispatch) (RpcRun rpc_open [] []) c ∧
  (sr_stop sr = false → ∃ done rest, ru_pushed c = done ++ rest ∧ (length rest <= 2)%nat ∧
    mapM dispatch done = Ret (ru_pulled c ++ option_list (sr_resp sr)) ∧
    sr_pull_events sr = length (ru_pulled c ++ option_list (sr_resp sr)) ∧
    (sr_resp sr = None → rest ≠ [] → (∀ pb, ∃ r, dispatch pb = Ret r) →
      ∃ n sr', (n <= 2)%nat ∧ thread_run dispatch n sr = Ret sr' ∧ sr_resp sr' ≠ None)) ∧
  (sr_stop sr = true → (∀ pb, ∃ r, dispatch pb = Ret r) →
    ∃ sr', thread_run dispatch 1 sr = Ret sr' ∧ sr_thread sr' = AtEnd) ∧
  sr_close_events sr = match sr_thread sr with AtEnd => 1%nat | _ => 0%nat end.
Proof.
  intros dispatch sr c. assert (rtc (rpc_step dispatch) (RpcRun rpc_open [] []) c) as H.
  { eapply rtc_l; [by eapply RsThread|].
    eapply rtc_l; [by apply (RsPush _ [ex_req])|].
    eapply rtc_l; [by eapply RsThread|].
    eapply rtc_l; [apply (RsThread _ _ (SvcRpc None (Some [115; 104; 105]) false AtResponse true 1 0)); vm_compute; reflexivity|].
    eapply rtc_l; [by apply (RsPush _ [ex_req])|].
    eapply rtc_l; [by eapply RsThread|].
    eapply rtc_l; [by eapply RsPull|]. apply rtc_refl. }
  split; [exact H|]. exact (rpc_exactly_once dispatch c H).
Defined.

(** A string of length 2^32-1 stops the node: as an [int] the length is -1, the end of the
    string it gives lies inside the request, and the string is moved down with a length
    of 2^32-1. *)
Theorem rpc_string_length_crash :
  rpc_dispatch ex_call ex_rpcs [rpc_request ex_name ([129; 122; 255; 255; 255; 255])] = Fault OutOfBounds.
Proof. vm_compute. reflexivity. Qed.

(** A request of more than a buffer is not refused, as the comment in [rpc_dispatch] has it:
    [pbuf_pullup] asserts. *)
Theorem rpc_long_request_asserts :
  rpc_dispatch ex_call ex_rpcs [replicate 512 0; [0]] = Fault Assert.
Proof. vm_compute. reflexivity. Qed.
