(* ===== verification/Ntp.v ===== *)
(** * Ntp: setting the clock from the network ([src/net/ipv4/ntp.c])

    [ntp] is [g_ntp_state] with the wall clock it sets, the time, the routes its requests
    take, and what it does to the outside.  Time stamps are the 8 bytes of an [ntp_ts_t] as
    they are in the packet.  Times are 64-bit microseconds; the sums the code makes of them
    stay far below the range, so they are not wrapped here.

    [exchange] is the situation the protocol is made for: a server whose clock is ahead by
    an unknown amount, and a request and a reply that take some time each. *)

From Stdlib Require Import ZArith Lia.
From stdpp Require Import base list numbers.
From S2P Require Import Prelude Datetime Ipv4 Udp.

Open Scope Z_scope.

(** ** Time stamps *)

(** Seconds from 1900 to 1970. *)
Definition NTP_EPOCH : Z := 2208988800.

Definition usec_from_ntp_ts (w : list Z) (i : nat) : Z :=
  let seconds := u32 (htonl (ld32 w i) - NTP_EPOCH) in
  let us := u32 (Z.shiftr (htonl (ld32 w (i + 4)) * 1000000) 32) in
  u64 (seconds * 1000000 + us).

Definition ntp_ts_from_usec (usec : Z) : list Z :=
  let seconds := u32 (usec / 1000000) in
  let useconds := usec mod 1000000 in
  let fractions := u32 (Z.shiftr (useconds * 281475258) 16) in
  be32 (u32 (seconds + NTP_EPOCH)) ++ be32 fractions.

(** ** State *)

Inductive nevent :=
| NSend (o : ip_out)
| NRaise                             (* [net_task_raise(&ntp_task, 1)] *)
| NLogUpdated.                       (* the clock has jumped *)

Record ntp := Ntp {
  ntp_server : Z;
  ntp_xmit_time : Z;
  ntp_user_tx : list Z;
  ntp_timer : option Z;
  ntp_clock : wallclock;
  ntp_now : Z;
  ntp_routes : routes;
  ntp_out : list nevent }.

Definition wall (n : ntp) : Z := ntp_now n + utc_offset (ntp_clock n).
Definition nemit (e : nevent) (n : ntp) : ntp :=
  Ntp (ntp_server n) (ntp_xmit_time n) (ntp_user_tx n) (ntp_timer n) (ntp_clock n) (ntp_now n) (ntp_routes n)
    (ntp_out n ++ [e]).
Definition set_ntp_now (t : Z) (n : ntp) : ntp :=
  Ntp (ntp_server n) (ntp_xmit_time n) (ntp_user_tx n) (ntp_timer n) (ntp_clock n) t (ntp_routes n) (ntp_out n).

(** [datetime_set_utc_offset(offset, "NTP")] *)
Definition set_clock (offset : Z) (n : ntp) : ntp :=
  let '(w, significant) := datetime_set_utc_offset (ntp_clock n) offset [78; 84; 80] in
  let n := Ntp (ntp_server n) (ntp_xmit_time n) (ntp_user_tx n) (ntp_timer n) w (ntp_now n) (ntp_routes n)
             (ntp_out n) in
  if (significant : bool) then nemit NLogUpdated n else n.

(** ** Operations *)

(** [ntp_input]; [behind] are the bytes behind the first window when the headers have been
    dropped: the length of the packet is not looked at. *)
Definition ntp_input (behind : list Z) (pb : windows) (udp_offset : nat) (n : ntp) : res ntp :=
  let from := ld32 (first pb) 12 in
  if negb (from =? ntp_server n) then Ret n
  else
    pb ← drop_or_panic (udp_offset + 8) pb;
    let np := first pb ++ behind in
    let version := Z.land (Z.shiftr (byte_at np 0) 3) 7 in
    let mode := Z.land (byte_at np 0) 7 in
    if negb (version =? 4) then Ret n
    else if negb (mode =? 4) then Ret n
    else if negb (bool_decide (take 8 (drop 24 np) = ntp_user_tx n)) then Ret n
    else
      let server_rx := usec_from_ntp_ts np 32 in
      let server_tx := usec_from_ntp_ts np 40 in
      let offset := Z.quot ((server_rx - ntp_xmit_time n) + (server_tx - wall n)) 2 in
      Ret (set_clock offset n).

(** [ntp_pkt_t] of a request. *)
Definition ntp_request (ts : list Z) : list Z := [35; 0; 0; 238] ++ replicate 36 0 ++ ts.

(** [ntp_send]; [buf] and [mem] are the answers of [pbuf_make] and of the allocator,
    [rnd] that of [rand]. *)
Definition ntp_send (buf mem : bool) (rnd : Z) (n : ntp) : res ntp :=
  if buf then
    let wnow := u64 (wall n) in
    let ts := ntp_ts_from_usec wnow in
    '(o, r) ← udp_send mem rnd (ntp_routes n) None (Pkt 44 [ntp_request ts]) (ntp_server n) None 123 123;
    let n := Ntp (ntp_server n) (s64 wnow) ts (Some (ntp_now n + 15000000)) (ntp_clock n) (ntp_now n) r (ntp_out n) in
    Ret (match o with Some o => nemit (NSend o) n | None => n end)
  else Ret n.

(** [ntp_timer_cb]: the timer has expired and is no longer armed. *)
Definition ntp_timer_cb (buf mem : bool) (rnd : Z) (n : ntp) : res ntp :=
  ntp_send buf mem rnd (Ntp (ntp_server n) (ntp_xmit_time n) (ntp_user_tx n) None (ntp_clock n) (ntp_now n)
                          (ntp_routes n) (ntp_out n)).
(** [ntp_cb] *)
Definition ntp_cb := ntp_send.

Definition ntp_set_server (server_addr : Z) (n : ntp) : ntp :=
  if ntp_server n =? server_addr then n
  else nemit NRaise (Ntp server_addr (ntp_xmit_time n) (ntp_user_tx n) (ntp_timer n) (ntp_clock n) (ntp_now n)
                       (ntp_routes n) (ntp_out n)).

(** * Properties *)

Lemma ntp_ts_length u : length (ntp_ts_from_usec u) = 8%nat.
Proof. done. Qed.

(** The conversion of the part of a second and back. *)
Lemma fraction_back u : 0 <= u < 1000000 →
  let f := Z.shiftr (u * 281475258) 16 in
  0 <= f < 4294967296 ∧ u - 1 <= Z.shiftr (f * 1000000) 32 <= u ∧ (u = 0 → Z.shiftr (f * 1000000) 32 = 0).
Proof.
  intros Hu. cbn zeta. rewrite !Z.shiftr_div_pow2 by lia. change (2 ^ 16) with 65536. change (2 ^ 32) with 4294967296.
  split_and!; [dlia|dlia|dlia|dlia|]. intros ->. done.
Qed.

Lemma usec_from_back pre post u : 0 <= u < 4294967296000000 →
  let v := usec_from_ntp_ts (pre ++ ntp_ts_from_usec u ++ post) (length pre) in
  u - 1 <= v <= u ∧ (u mod 1000000 = 0 → v = u).
Proof.
  intros Hu. unfold usec_from_ntp_ts, ntp_ts_from_usec.
  destruct (fraction_back (u mod 1000000)) as (Hf & Hb & Hz); [apply Z.mod_pos_bound; lia|].
  set (f := Z.shiftr (u mod 1000000 * 281475258) 16) in *. set (b := Z.shiftr (f * 1000000) 32) in *.
  set (sec1900 := u32 (u32 (u / 1000000) + NTP_EPOCH)).
  assert (length pre + 4 = length (pre ++ be32 sec1900))%nat as El by (by rewrite length_app).
  rewrite <- app_assoc. rewrite ld32_be32 by apply u32_range.
  rewrite El, (app_assoc pre), ld32_be32 by apply u32_range. unfold sec1900.
  rewrite (u32_id f) by (unfold is_u32; lia). fold b. assert (0 <= u / 1000000 < 4294967296) by dlia.
  rewrite (u32_id (u / 1000000)) by (unfold is_u32; lia).
  assert (u32 (u32 (u / 1000000 + NTP_EPOCH) - NTP_EPOCH) = u / 1000000) as ->.
  { unfold u32, NTP_EPOCH. rewrite Zminus_mod_idemp_l. rewrite Z.mod_small; lia. }
  assert (0 <= u mod 1000000 < 1000000) by (apply Z.mod_pos_bound; lia).
  assert (0 <= b) by (subst b; apply Z.shiftr_nonneg; lia).
  rewrite (u32_id b) by (unfold is_u32; lia). unfold u64. rewrite Z.mod_small by dlia.
  pose proof (Z.div_mod u 1000000). cbn zeta. split; [lia|]. intros E. rewrite E in *. specialize (Hz eq_refl). lia.
Qed.

(** A time stamp keeps the time to the microsecond: what [ntp_ts_from_usec] writes is
    read back by [usec_from_ntp_ts] as the same time or the microsecond before, for every
    time of the 32-bit Unix epoch, and exactly for whole seconds. *)
Theorem ntp_ts_roundtrip u : 0 <= u < 4294967296000000 →
  let v := usec_from_ntp_ts (ntp_ts_from_usec u) 0 in
  u - 1 <= v <= u ∧ (u mod 1000000 = 0 → v = u).
Proof. intros Hu. pose proof (usec_from_back [] [] u Hu) as H. by rewrite app_nil_r in H. Qed.

(** A reply from the server to the request that is under way, received by the server at
    [t2] and sent at [t3] by its clock. *)
Definition server_reply (n : ntp) (pb : windows) (t2 t3 : Z) : Prop :=
  ld32 (first pb) 12 = ntp_server n ∧
  ∃ hdr flags mid post, first pb = hdr ++ flags :: mid ++ ntp_user_tx n ++ ntp_ts_from_usec t2 ++ ntp_ts_from_usec t3 ++ post ∧
    length hdr = 28%nat ∧ length mid = 23%nat ∧ Z.land (Z.shiftr flags 3) 7 = 4 ∧ Z.land flags 7 = 4.

Lemma ntp_input_reply behind pb n t2 t3 :
  server_reply n pb t2 t3 → length (ntp_user_tx n) = 8%nat →
  0 <= t2 < 4294967296000000 → 0 <= t3 < 4294967296000000 →
  ∃ rx tx, t2 - 1 <= rx <= t2 ∧ t3 - 1 <= tx <= t3 ∧
    ntp_input behind pb 20 n = Ret (set_clock (Z.quot ((rx - ntp_xmit_time n) + (tx - wall n)) 2) n).
Proof.
  intros (Hfrom & hdr & flags & mid & post & Ef & Hh & Hm & Hver & Hmode) Hu Ht2 Ht3. unfold ntp_input.
  rewrite Hfrom, Z.eqb_refl. cbn [negb]. change (20 + 8)%nat with 28%nat.
  set (np := flags :: mid ++ ntp_user_tx n ++ ntp_ts_from_usec t2 ++ ntp_ts_from_usec t3 ++ post) in *.
  destruct pb as [|w next]; [cbn [first] in Ef; by destruct hdr|]. cbn [first] in Ef. subst w.
  assert (win_drop 28 ((hdr ++ np) :: next) = np :: next) as Ed.
  { cbn [win_drop]. by rewrite drop_app_length' by done. }
  rewrite drop_ok by (cbn [concat]; rewrite !length_app; lia). rewrite Ed. cbn [mbind res_bind first].
  change (byte_at (np ++ behind) 0) with flags. rewrite Hver, Hmode. change (negb (4 =? 4)) with false. cbv iota.
  set (tail := post ++ behind).
  assert (np ++ behind = (flags :: mid) ++ ntp_user_tx n ++ ntp_ts_from_usec t2 ++ ntp_ts_from_usec t3 ++ tail) as Enp.
  { unfold np, tail. cbn [app]. f_equal. by rewrite <- !app_assoc. }
  rewrite Enp. rewrite drop_app_length' by (cbn; lia). rewrite take_app_length' by done.
  rewrite bool_decide_true by done. cbn [negb].
  assert (length ((flags :: mid) ++ ntp_user_tx n) = 32%nat) as L1 by (rewrite length_app; cbn [length]; lia).
  assert (length (((flags :: mid) ++ ntp_user_tx n) ++ ntp_ts_from_usec t2) = 40%nat) as L2
    by (rewrite length_app, L1, ntp_ts_length; lia).
  destruct (usec_from_back ((flags :: mid) ++ ntp_user_tx n) (ntp_ts_from_usec t3 ++ tail) t2 Ht2) as [B1 _].
  destruct (usec_from_back (((flags :: mid) ++ ntp_user_tx n) ++ ntp_ts_from_usec t2) tail t3 Ht3) as [B2 _].
  rewrite L1 in B1. rewrite L2 in B2. rewrite <- !app_assoc in B1, B2. eexists _, _. split; [exact B1|].
  split; [exact B2|]. by rewrite <- (app_assoc (flags :: mid) (ntp_user_tx n)).
Qed.

Lemma wall_set_clock off n :
  -9223372036854775808 <= utc_offset (ntp_clock n) + off < 9223372036854775808 →
  wall (set_clock off n) = wall n + off.
Proof.
  intros H. unfold set_clock, datetime_set_utc_offset, wall.
  destruct (_ || _)%bool; cbn [nemit ntp_now ntp_clock utc_offset]; rewrite s64_id by done; lia.
Qed.

(** A request leaves with the time it was sent at. *)
Lemma ntp_send_ok mem rnd n o r :
  0 <= wall n < 9223372036854775808 →
  udp_send mem rnd (ntp_routes n) None (Pkt 44 [ntp_request (ntp_ts_from_usec (wall n))]) (ntp_server n) None 123 123
    = Ret (o, r) →
  ∃ n', ntp_send true mem rnd n = Ret n' ∧ ntp_xmit_time n' = wall n ∧ ntp_user_tx n' = ntp_ts_from_usec (wall n) ∧
    ntp_clock n' = ntp_clock n ∧ ntp_now n' = ntp_now n ∧ ntp_server n' = ntp_server n ∧
    ntp_timer n' = Some (ntp_now n + 15000000) ∧
    ntp_out n' = ntp_out n ++ match o with Some o => [NSend o] | None => [] end.
Proof.
  intros Hw Hu. unfold ntp_send. replace (u64 (wall n)) with (wall n) by (unfold u64; rewrite Z.mod_small; lia).
  rewrite Hu. cbn [mbind res_bind]. rewrite s64_id by lia.
  destruct o; eexists; (split; [reflexivity|]); cbn; rewrite ?app_nil_r; by split_and!.
Qed.

(** C39: after an exchange with the server the clock is right, up to half the difference
    between the two travel times and two microseconds: the request leaves at a time by our
    clock, the server, whose clock is ahead of ours by [theta], receives it [a] later and
    answers, the answer takes [b]; then the clock that [ntp_input] sets shows the
    server's time. *)
Theorem ntp_sets_clock behind mem rnd n o r t4 pb t2 t3 theta a b :
  udp_send mem rnd (ntp_routes n) None (Pkt 44 [ntp_request (ntp_ts_from_usec (wall n))]) (ntp_server n) None 123 123
    = Ret (o, r) →
  0 <= wall n < 4294967296000000 → 0 <= ntp_now n <= t4 → t4 < 1000000000000000000 →
  0 <= t2 < 4294967296000000 → 0 <= t3 < 4294967296000000 →
  t2 = wall n + theta + a → t3 = t4 + utc_offset (ntp_clock n) + theta - b →
  Z.abs (a - b) < 4294967296000000 →
  ∃ n1, ntp_send true mem rnd n = Ret n1 ∧
    (server_reply n1 pb t2 t3 →
     ∃ n2, ntp_input behind pb 20 (set_ntp_now t4 n1) = Ret n2 ∧ ntp_now n2 = t4 ∧
       2 * Z.abs (wall n2 - (t3 + b)) <= Z.abs (a - b) + 3).
Proof.
  intros Hu Hw Hn Ht4 Ht2 Ht3 E2 E3 Hab.
  destruct (ntp_send_ok mem rnd n o r) as (n1 & -> & X1 & U1 & C1 & N1 & S1 & _); [lia|done|].
  exists n1. split; [done|]. intros Hrep.
  destruct (ntp_input_reply behind pb (set_ntp_now t4 n1) t2 t3) as (rx & tx & Hrx & Htx & ->);
    [exact Hrep|cbn [set_ntp_now ntp_user_tx]; by rewrite U1|done|done|].
  assert (wall (set_ntp_now t4 n1) = t4 + utc_offset (ntp_clock n)) as Ew.
  { unfold wall. cbn [set_ntp_now ntp_now ntp_clock]. by rewrite C1. }
  change (ntp_xmit_time (set_ntp_now t4 n1)) with (ntp_xmit_time n1). rewrite X1, Ew.
  set (x := rx - wall n + (tx - (t4 + utc_offset (ntp_clock n)))). set (off := Z.quot x 2).
  assert (2 * off - 1 <= x <= 2 * off + 1) as Hoff by (subst off; Z.quot_rem_to_equations; lia).
  assert (Z.abs (x - (2 * theta + (a - b))) <= 2) as Hx by lia.
  assert (utc_offset (ntp_clock n) = wall n - ntp_now n) as Eu by (unfold wall; lia).
  eexists. split; [done|]. split.
  - unfold set_clock. by destruct (datetime_set_utc_offset _ _ _) as [? []].
  - rewrite wall_set_clock.
    + rewrite Ew. lia.
    + cbn [set_ntp_now ntp_clock]. rewrite C1. lia.
Qed.

(** Anything else leaves the clock alone: another sender, another version or mode, or an
    answer to another request. *)
Theorem ntp_ignores behind pb n n' :
  ntp_input behind pb 20 n = Ret n' →
  n' = n ∨ ld32 (first pb) 12 = ntp_server n ∧
    let np := first (win_drop 28 pb) ++ behind in
    take 8 (drop 24 np) = ntp_user_tx n ∧ Z.land (byte_at np 0) 7 = 4 ∧ Z.land (Z.shiftr (byte_at np 0) 3) 7 = 4.
Proof.
  unfold ntp_input. destruct (Z.eqb_spec (ld32 (first pb) 12) (ntp_server n)) as [Ef|]; cbn [negb]; [|by intros [= ->]; left].
  unfold drop_or_panic. destruct (pktlen pb <? Z.of_nat (20 + 8)); [done|]. cbn [mbind res_bind].
  destruct (Z.eqb_spec (Z.land (Z.shiftr (byte_at (first (win_drop (20 + 8) pb) ++ behind) 0) 3) 7) 4) as [Ev|];
    cbn [negb]; [|by intros [= ->]; left].
  destruct (Z.eqb_spec (Z.land (byte_at (first (win_drop (20 + 8) pb) ++ behind) 0) 7) 4) as [Em|];
    cbn [negb]; [|by intros [= ->]; left].
  case_bool_decide as Eo; cbn [negb]; [|by intros [= ->]; left]. intros _. right. done.
Qed.

(** ** Behaviour the code does not mean to have *)

(** Without a packet buffer at the moment the client stops for good: [ntp_send] returns
    before it arms the timer again, and [ntp_set_server] with the server it has does
    nothing. *)
Theorem ntp_stops_without_buffer mem rnd n :
  ∃ n', ntp_timer_cb false mem rnd n = Ret n' ∧ ntp_timer n' = None ∧ ntp_set_server (ntp_server n) n' = n' ∧
    ntp_out n' = ntp_out n.
Proof. eexists. split; [reflexivity|]. split_and!; try done. unfold ntp_set_server. cbn. by rewrite Z.eqb_refl. Qed.

(** ** Witnesses *)

Definition ex_ntp : ntp :=
  Ntp 151103680 0 (replicate 8 0) None (mk_wallclock 0 []) 5000000 (mk_routes [] [example_ni]) [].
Definition ex_ntp_sent : ntp :=
  match ntp_send true true 0 ex_ntp with Ret n => n | Fault _ => ex_ntp end.
(** The server is 1000 seconds ahead; the answer is there after 20 ms. *)
Definition ex_ntp_pkt : windows :=
  [[69; 0; 0; 76; 0; 0; 0; 0; 64; 17; 0; 0; 192; 168; 1; 9; 192; 168; 1; 2; 0; 123; 0; 123; 0; 56; 0; 0] ++
   36 :: replicate 23 0 ++ ntp_user_tx ex_ntp_sent ++ ntp_ts_from_usec 1005010000 ++ ntp_ts_from_usec 1005010000 ++ []].

Lemma ntp_ts_roundtrip_witness : usec_from_ntp_ts (ntp_ts_from_usec 1700000000000000) 0 = 1700000000000000.
Proof. apply (ntp_ts_roundtrip 1700000000000000); [lia|reflexivity]. Defined.

Lemma ntp_sets_clock_witness :
  ∃ n2, ntp_input [] ex_ntp_pkt 20 (set_ntp_now 5020000 ex_ntp_sent) = Ret n2 ∧ ntp_now n2 = 5020000 ∧
    2 * Z.abs (wall n2 - (1005010000 + 10000)) <= 3.
Proof.
  destruct (ntp_sets_clock [] true 0 ex_ntp
    (match udp_send true 0 (ntp_routes ex_ntp) None (Pkt 44 [ntp_request (ntp_ts_from_usec (wall ex_ntp))])
       (ntp_server ex_ntp) None 123 123 with Ret (o, _) => o | Fault _ => None end)
    (match udp_send true 0 (ntp_routes ex_ntp) None (Pkt 44 [ntp_request (ntp_ts_from_usec (wall ex_ntp))])
       (ntp_server ex_ntp) None 123 123 with Ret (_, r) => r | Fault _ => ntp_routes ex_ntp end)
    5020000 ex_ntp_pkt 1005010000 1005010000 1000000000 10000 10000) as (n1 & E1 & H).
  - vm_compute. reflexivity.
  - vm_compute. intuition discriminate.
  - cbn. lia.
  - lia.
  - lia.
  - lia.
  - reflexivity.
  - reflexivity.
  - cbn. lia.
  - assert (n1 = ex_ntp_sent) as -> by (unfold ex_ntp_sent; by rewrite E1).
    apply H. split; [vm_compute; reflexivity|].
    eexists _, _, _, []. split; [unfold ex_ntp_pkt; cbn [first]; reflexivity|]. by split_and!.
Defined.

Lemma ntp_ignores_witness : set_clock 0 ex_ntp = ex_ntp ∨ ld32 (first ex_ntp_pkt) 12 = 151103680.
Proof.
  destruct (ntp_ignores [] ex_ntp_pkt ex_ntp_sent
    (match ntp_input [] ex_ntp_pkt 20 ex_ntp_sent with Ret n => n | Fault _ => ex_ntp_sent end)) as [|[H _]].
  - vm_compute. reflexivity.
  - right. vm_compute. reflexivity.
  - right. exact H.
Defined.

(** A reply that arrives twice is used twice.  The second time the clock is right, but the
    time of the request is still the one by the old clock: half the correction is made
    again.  Here the clock is then 500 seconds ahead. *)
Theorem ntp_duplicate_shifts_clock :
  ∃ n2 n3, ntp_input [] ex_ntp_pkt 20 (set_ntp_now 5020000 ex_ntp_sent) = Ret n2 ∧ wall n2 = 1005020000 ∧
    ntp_input [] ex_ntp_pkt 20 n2 = Ret n3 ∧ wall n3 = 1505020000.
Proof. eexists _, _. split; [vm_compute; reflexivity|]. split; [vm_compute; reflexivity|]. split; vm_compute; reflexivity. Qed.
