(* ===== verification/Dsig.v ===== *)
(** * Dsig: the signal bus ([src/net/dsig.c], [include/mios/dsig.h])

    Signals are numbered messages.  They come from the code of this host ([dsig_emit],
    queued for the network thread) or from an interface ([dsig_input]), and go to the
    subscribers whose mask and number match and on to the other interfaces.  VLLP takes
    the signals it receives on before that.

    A packet on its way is its bytes, in one buffer, as [dsig_input] makes it; one put on the
    send queue carries its number in front.  Subscribers and drivers are function
    pointers: calling them is an event.  Timers are their expiries.

    The last part has the send queue shared between the threads that emit and the network
    thread: every thread goes through its code in the steps its locks allow. *)

From Stdlib Require Import ZArith Lia.
From stdpp Require Import base list numbers gmap relations.
From S2P Require Import Prelude Ipv4 Udp.

Open Scope Z_scope.

(** ** State *)

(** [dsig_sub_t] *)
Record sub := Sub { ds_id : nat; ds_signal : Z; ds_mask : Z; ds_ttl : Z }.

(** [struct dsig_filter]; a table ends at prefix length 0xff. *)
Record dfilter := DFilter { df_prefix : Z; df_prefixlen : Z; df_flags : Z }.

(** What DSIG uses of an interface: whether it can send signals, and its filter. *)
Record dnetif := DNetif { dn_output : bool; dn_filter : option (list dfilter) }.

Inductive devent :=
| ECall (s : nat) (data : option (list Z)) (signal : Z)   (* [ds_cb] *)
| ETx (ni : nat) (id : Z) (flags : Z) (data : list Z)     (* [ni_dsig_output] *)
| EVllp (id : Z) (data : list Z)                          (* [vllp_rx] *)
| EFree.

(** A buffer on the send queue: its bytes, and whether its packet ends there. *)
Record qbuf := QBuf { qb_data : list Z; qb_eop : bool }.

Record dsig := Dsig {
  dsig_subs : list sub;
  dsig_pending_subs : list sub;
  g_solo : option nat;
  ds_timers : gmap nat Z;
  dsig_now : Z;
  dsig_netifs : list dnetif;
  dsig_vllps : list Z;                 (* the receive numbers of the VLLP connections *)
  dsig_send_queue : list qbuf;
  dsig_raised : bool;                  (* [dsig_send_task] *)
  dsig_sub_raised : bool;              (* [dsig_sub_insert_task] *)
  dsig_bufs : list bool;               (* what [pbuf_make] and [pbuf_copy] will find *)
  dsig_out : list devent }.

Definition emit (e : devent) (d : dsig) : dsig :=
  Dsig (dsig_subs d) (dsig_pending_subs d) (g_solo d) (ds_timers d) (dsig_now d) (dsig_netifs d) (dsig_vllps d)
    (dsig_send_queue d) (dsig_raised d) (dsig_sub_raised d) (dsig_bufs d) (dsig_out d ++ [e]).
Definition set_timers (m : gmap nat Z) (d : dsig) : dsig :=
  Dsig (dsig_subs d) (dsig_pending_subs d) (g_solo d) m (dsig_now d) (dsig_netifs d) (dsig_vllps d)
    (dsig_send_queue d) (dsig_raised d) (dsig_sub_raised d) (dsig_bufs d) (dsig_out d).
Definition set_solo (s : option nat) (d : dsig) : dsig :=
  Dsig (dsig_subs d) (dsig_pending_subs d) s (ds_timers d) (dsig_now d) (dsig_netifs d) (dsig_vllps d)
    (dsig_send_queue d) (dsig_raised d) (dsig_sub_raised d) (dsig_bufs d) (dsig_out d).
Definition set_subs (l pending : list sub) (raised : bool) (d : dsig) : dsig :=
  Dsig l pending (g_solo d) (ds_timers d) (dsig_now d) (dsig_netifs d) (dsig_vllps d)
    (dsig_send_queue d) (dsig_raised d) raised (dsig_bufs d) (dsig_out d).
Definition set_queue (q : list qbuf) (raised : bool) (d : dsig) : dsig :=
  Dsig (dsig_subs d) (dsig_pending_subs d) (g_solo d) (ds_timers d) (dsig_now d) (dsig_netifs d) (dsig_vllps d)
    q raised (dsig_sub_raised d) (dsig_bufs d) (dsig_out d).
Definition next_buf (d : dsig) : bool * dsig :=
  match dsig_bufs d with
  | [] => (true, d)
  | b :: l => (b, Dsig (dsig_subs d) (dsig_pending_subs d) (g_solo d) (ds_timers d) (dsig_now d) (dsig_netifs d)
                    (dsig_vllps d) (dsig_send_queue d) (dsig_raised d) (dsig_sub_raised d) l (dsig_out d))
  end.

(** [net_timer_arm(&ds->ds_timer, now + ds->ds_ttl * 1000)], when there is a TTL. *)
Definition arm_sub (s : sub) (d : dsig) : dsig :=
  if ds_ttl s =? 0 then d else set_timers (<[ds_id s := dsig_now d + ds_ttl s * 1000]> (ds_timers d)) d.

(** ** Subscribers *)

Definition sub_matches (signal : Z) (s : sub) : bool := Z.land signal (ds_mask s) =? ds_signal s.

(** [g_solo && ds != g_solo] *)
Definition muted (d : dsig) (s : sub) : bool :=
  match g_solo d with Some i => negb (i =? ds_id s)%nat | None => false end.

Fixpoint dispatch_loop (signal : Z) (data : list Z) (l : list sub) (d : dsig) : dsig :=
  match l with
  | [] => d
  | s :: rest =>
      if muted d s then dispatch_loop signal data rest d
      else if sub_matches signal s then
        dispatch_loop signal data rest (emit (ECall (ds_id s) (Some data) signal) (arm_sub s d))
      else dispatch_loop signal data rest d
  end.
Definition dsig_dispatch (signal : Z) (data : list Z) (d : dsig) : dsig :=
  dispatch_loop signal data (dsig_subs d) d.

(** [sub_timeout]: the timer of a subscription has expired. *)
Definition sub_timeout (s : nat) (d : dsig) : dsig :=
  emit (ECall s None 0) (set_timers (delete s (ds_timers d)) d).

Definition dsig_sub (s : sub) (d : dsig) : dsig :=
  set_subs (dsig_subs d) (s :: dsig_pending_subs d) true d.

(** [dsig_sub_insert_cb]: the pending subscriptions become active. *)
Fixpoint insert_loop (pending : list sub) (d : dsig) : dsig :=
  match pending with
  | [] => d
  | s :: rest =>
      let d := set_subs (dsig_subs d) rest (dsig_sub_raised d) d in
      let d := arm_sub s d in
      insert_loop rest (set_subs (s :: dsig_subs d) rest (dsig_sub_raised d) d)
  end.
Definition dsig_sub_insert_cb (d : dsig) : dsig :=
  insert_loop (dsig_pending_subs d) (set_subs (dsig_subs d) (dsig_pending_subs d) false d).

Definition is_sub (i : option nat) (s : sub) : bool :=
  match i with Some i => (i =? ds_id s)%nat | None => false end.
Fixpoint disarm_others (which : nat) (l : list sub) (d : dsig) : dsig :=
  match l with
  | [] => d
  | s :: rest =>
      disarm_others which rest
        (if (ds_id s =? which)%nat then d else set_timers (delete (ds_id s) (ds_timers d)) d)
  end.
Fixpoint rearm_others (l : list sub) (d : dsig) : dsig :=
  match l with
  | [] => d
  | s :: rest => rearm_others rest (if is_sub (g_solo d) s then d else arm_sub s d)
  end.
Definition dsig_solo (which : option nat) (d : dsig) : dsig :=
  set_solo which
    (match which with
     | Some i => disarm_others i (dsig_subs d) d
     | None => rearm_others (dsig_subs d) d
     end).

(** ** Interfaces *)

Fixpoint dsig_filter_match (dof : list dfilter) (addr : Z) : option dfilter :=
  match dof with
  | [] => None
  | f :: rest =>
      if Z.land addr (mask_from_prefixlen (df_prefixlen f)) =? df_prefix f then Some f
      else dsig_filter_match rest addr
  end.

(** Whether interface [ni] at position [i] is to send the signal, and with which flags. *)
Definition route (id : Z) (exclude : option nat) (i : nat) (ni : dnetif) : option Z :=
  if (bool_decide (exclude = Some i) || negb (dn_output ni))%bool then None
  else match dn_filter ni with
       | None => Some 0
       | Some dof => df_flags <$> dsig_filter_match dof id
       end.

(** The loop of [dsig_output]: [to] is the interface that is next to send; it gets a copy
    when there is another one behind it. *)
Fixpoint output_loop (id : Z) (data : list Z) (exclude : option nat) (i : nat) (l : list dnetif)
    (to : option (nat * Z)) (d : dsig) : option (nat * Z) * dsig :=
  match l with
  | [] => (to, d)
  | ni :: rest =>
      match route id exclude i ni with
      | None => output_loop id data exclude (S i) rest to d
      | Some flags =>
          let d :=
            match to with
            | None => d
            | Some (j, f) =>
                let '(ok, d) := next_buf d in
                if ok then emit (ETx j id f data) d else d
            end in
          output_loop id data exclude (S i) rest (Some (i, flags)) d
      end
  end.

(** [dsig_output]: whether the packet is left to the caller. *)
Definition dsig_output (id : Z) (data : list Z) (exclude : option nat) (d : dsig) : bool * dsig :=
  let d := dsig_dispatch id data d in
  let '(to, d) := output_loop id data exclude 0 (dsig_netifs d) None d in
  match to with
  | Some (j, f) => (false, emit (ETx j id f data) d)
  | None => (true, d)
  end.

(** [dsig_input] on the packet of an interface; the caller frees what is left. *)
Definition dsig_input (id : Z) (pb : windows) (ni : nat) (d : dsig) : res dsig :=
  '(missing, pb) ← pullup_or_assert (length (concat pb)) pb;
  if negb (missing =? 0) then Ret (emit EFree d)
  else
    let data := first pb in
    if bool_decide (id ∈ dsig_vllps d) then Ret (emit (EVllp id data) d)
    else
      let '(keep, d) := dsig_output id data (Some ni) d in
      Ret (if (keep : bool) then emit EFree d else d).

(** ** Sending *)

(** The part of [dsig_send] under the lock: whether the queue was empty, and the queue with
    the packet.  [STAILQ_INSERT_TAIL] makes the first buffer of the packet the end of the
    queue, so what was linked behind it is lost. *)
Definition dsig_insert (pb : windows) (d : dsig) : bool * dsig :=
  (bool_decide (dsig_send_queue d = []),
   set_queue (dsig_send_queue d ++ [QBuf (first pb) (length pb =? 1)%nat]) (dsig_raised d) d).
(** [net_task_raise(&dsig_send_task, 1)] *)
Definition raise_send (d : dsig) : dsig := set_queue (dsig_send_queue d) true d.
Definition dsig_send (pb : windows) (d : dsig) : dsig :=
  let '(empty, d) := dsig_insert pb d in if (empty : bool) then raise_send d else d.

Definition dsig_emit (signal : Z) (data : list Z) (d : dsig) : dsig :=
  if (PBUF_DATA_SIZE - 4 <? length data)%nat then d
  else
    let '(ok, d) := next_buf d in
    if ok then dsig_send [le32 signal ++ data] d else d.

(** [dsig_emit_pbuf]; the packet is freed when there is no buffer for the number. *)
Definition dsig_emit_pbuf (signal : Z) (p : pkt) (d : dsig) : dsig :=
  let '(ok, d) := if (4 <=? pk_room p)%nat then (true, d) else next_buf d in
  if (ok : bool) then dsig_send (pk_win (win_prepend (le32 signal) 0 p)) d else emit EFree d.

(** [pbuf_splice]: the buffers up to the end of the first packet. *)
Fixpoint splice (q : list qbuf) : option (list Z * list qbuf) :=
  match q with
  | [] => None
  | b :: rest =>
      if qb_eop b then Some (qb_data b, rest)
      else '(data, rest) ← splice rest; Some (qb_data b ++ data, rest)
  end.

(** One round of [dsig_send_cb].  A queue without the end of a packet is not changed by
    [pbuf_splice]: its first buffer is used, freed, and used again. *)
Definition send_one (d : dsig) : res (option dsig) :=
  match dsig_send_queue d with
  | [] => Ret None
  | _ =>
      match splice (dsig_send_queue d) with
      | None => Fault OutOfBounds
      | Some (pkt, q) =>
          let d := set_queue q (dsig_raised d) d in
          let '(keep, d) := dsig_output (ld32 pkt 0) (drop 4 pkt) None d in
          Ret (Some (if (keep : bool) then emit EFree d else d))
      end
  end.
Fixpoint send_loop (fuel : nat) (d : dsig) : res dsig :=
  match fuel with
  | O => Fault NoFuel
  | S fuel => o ← send_one d; match o with None => Ret d | Some d => send_loop fuel d end
  end.
(** [dsig_send_cb], with the signal taken off the task; one round per packet. *)
Definition dsig_send_cb (d : dsig) : res dsig :=
  send_loop (S (length (dsig_send_queue d))) (set_queue (dsig_send_queue d) false d).

(** * Properties *)

(** ** Who is called *)

Definition calls_of (signal : Z) (data : list Z) (d : dsig) (l : list sub) : list devent :=
  (λ s, ECall (ds_id s) (Some data) signal) <$> filter (λ s, muted d s = false ∧ sub_matches signal s = true) l.

(** Timers after the matching subscriptions of [l] were armed. *)
Fixpoint armed (signal : Z) (d : dsig) (l : list sub) (m : gmap nat Z) : gmap nat Z :=
  match l with
  | [] => m
  | s :: rest =>
      armed signal d rest
        (if (negb (muted d s) && sub_matches signal s && negb (ds_ttl s =? 0))%bool
         then <[ds_id s := dsig_now d + ds_ttl s * 1000]> m else m)
  end.

Lemma arm_sub_eq s d : arm_sub s d =
  set_timers (if ds_ttl s =? 0 then ds_timers d else <[ds_id s := dsig_now d + ds_ttl s * 1000]> (ds_timers d)) d.
Proof. unfold arm_sub. destruct (ds_ttl s =? 0); [by destruct d|done]. Qed.

Lemma armed_same signal d d' l m : g_solo d' = g_solo d → dsig_now d' = dsig_now d → armed signal d' l m = armed signal d l m.
Proof.
  intros E1 E2. revert m. induction l as [|s l IH]; intros m; cbn [armed]; [done|].
  rewrite IH. unfold muted. by rewrite E1, E2.
Qed.

Lemma dispatch_loop_spec signal data l : ∀ d,
  dispatch_loop signal data l d =
  set_timers (armed signal d l (ds_timers d))
    (Dsig (dsig_subs d) (dsig_pending_subs d) (g_solo d) (ds_timers d) (dsig_now d) (dsig_netifs d) (dsig_vllps d)
       (dsig_send_queue d) (dsig_raised d) (dsig_sub_raised d) (dsig_bufs d) (dsig_out d ++ calls_of signal data d l)).
Proof.
  induction l as [|s l IH]; intros d; cbn [dispatch_loop armed].
  { cbn. rewrite app_nil_r. by destruct d. }
  unfold calls_of. rewrite filter_cons. destruct (muted d s) eqn:Em; cbn [negb andb].
  { rewrite decide_False by naive_solver. by rewrite IH. }
  destruct (sub_matches signal s) eqn:Es; cbn [andb].
  - rewrite decide_True by done. rewrite IH, arm_sub_eq. rewrite (armed_same signal d) by done.
    destruct (ds_ttl s =? 0); cbn [negb]; unfold calls_of, muted, set_timers, emit; cbn; by rewrite <- app_assoc.
  - rewrite decide_False by naive_solver. by rewrite IH.
Qed.

Lemma armed_lookup signal d l m s :
  NoDup (ds_id <$> l) → s ∈ l →
  armed signal d l m !! ds_id s =
  if (negb (muted d s) && sub_matches signal s && negb (ds_ttl s =? 0))%bool
  then Some (dsig_now d + ds_ttl s * 1000) else m !! ds_id s.
Proof.
  revert m. induction l as [|x l IH]; intros m Hnd Hin; [by apply elem_of_nil in Hin|].
  rewrite fmap_cons in Hnd. apply NoDup_cons in Hnd as [Hx Hnd]. cbn [armed].
  assert (∀ m' i, i ∉ ds_id <$> l → armed signal d l m' !! i = m' !! i) as Hother.
  { clear. induction l as [|y l IH]; intros m' i Hi; cbn [armed]; [done|]. rewrite fmap_cons, not_elem_of_cons in Hi.
    rewrite IH by tauto. case_match; [|done]. rewrite lookup_insert_ne by naive_solver. done. }
  apply elem_of_cons in Hin as [-> |Hin].
  - rewrite Hother by done. case_match; [by rewrite lookup_insert_eq|done].
  - rewrite IH by done. case_match; [done|]. case_match; [|done]. rewrite lookup_insert_ne; [done|].
    intros E. apply Hx. rewrite E. apply list_elem_of_fmap. eauto.
Qed.

(** A signal reaches exactly the subscribers it is for: [dsig_dispatch] calls the
    subscribers whose masked number is the signal's, and that are not muted by a solo,
    once each, in list order, with the packet; and each of these that has a TTL gets its
    timeout postponed to that much from now, while no other timer changes. *)
Theorem dsig_dispatch_exact signal data d :
  NoDup (ds_id <$> dsig_subs d) →
  let d' := dsig_dispatch signal data d in
  dsig_out d' = dsig_out d ++ calls_of signal data d (dsig_subs d) ∧
  (∀ s, s ∈ dsig_subs d → ds_timers d' !! ds_id s =
     if (negb (muted d s) && sub_matches signal s && negb (ds_ttl s =? 0))%bool
     then Some (dsig_now d + ds_ttl s * 1000) else ds_timers d !! ds_id s) ∧
  dsig_send_queue d' = dsig_send_queue d ∧ dsig_subs d' = dsig_subs d.
Proof.
  intros Hnd. cbn zeta. unfold dsig_dispatch. rewrite dispatch_loop_spec. split_and!; try done.
  intros s Hs. cbn [set_timers ds_timers]. by apply armed_lookup.
Qed.

(** ** Where it is sent *)

(** The interfaces that are to send a signal, with the flags their filter gives it. *)
Fixpoint routed (id : Z) (exclude : option nat) (i : nat) (l : list dnetif) : list (nat * Z) :=
  match l with
  | [] => []
  | ni :: rest =>
      match route id exclude i ni with
      | None => routed id exclude (S i) rest
      | Some f => (i, f) :: routed id exclude (S i) rest
      end
  end.
Definition tx_of (id : Z) (data : list Z) (x : nat * Z) : devent := ETx x.1 id x.2 data.

(** Events added, nothing else changed but the buffers. *)
Definition with_out (o : list devent) (b : list bool) (d : dsig) : dsig :=
  Dsig (dsig_subs d) (dsig_pending_subs d) (g_solo d) (ds_timers d) (dsig_now d) (dsig_netifs d) (dsig_vllps d)
    (dsig_send_queue d) (dsig_raised d) (dsig_sub_raised d) b (dsig_out d ++ o).

Lemma with_out_nil d : with_out [] (dsig_bufs d) d = d.
Proof. unfold with_out. rewrite app_nil_r. by destruct d. Qed.

Lemma with_out_twice o1 b1 o2 b2 d : with_out o2 b2 (with_out o1 b1 d) = with_out (o1 ++ o2) b2 d.
Proof. unfold with_out. cbn. by rewrite <- app_assoc. Qed.

Definition opt_cons {A} (o : option A) (l : list A) : list A := match o with Some x => x :: l | None => l end.

(** The copies for [xs]: an interface for whose copy there is no buffer goes without; and
    what is left of the buffers. *)
Fixpoint copied (bufs : list bool) (xs : list (nat * Z)) : list (nat * Z) * list bool :=
  match xs with
  | [] => ([], bufs)
  | x :: xs =>
      match bufs with
      | [] => (x :: (copied [] xs).1, (copied [] xs).2)
      | b :: bufs => ((if (b : bool) then [x] else []) ++ (copied bufs xs).1, (copied bufs xs).2)
      end
  end.

Lemma copied_nil xs : copied [] xs = (xs, []).
Proof. induction xs as [|x xs IH]; [done|]. cbn [copied]. by rewrite IH. Qed.

Lemma copied_app xs ys : ∀ bufs,
  copied bufs (xs ++ ys) = ((copied bufs xs).1 ++ (copied (copied bufs xs).2 ys).1, (copied (copied bufs xs).2 ys).2).
Proof.
  induction xs as [|x xs IH]; intros bufs; cbn [copied app fst snd]; [by destruct (copied bufs ys)|].
  destruct bufs as [|b bufs]; rewrite IH; cbn [fst snd]; [done|]. by rewrite app_assoc.
Qed.

Lemma copied_sublist xs : ∀ bufs, (copied bufs xs).1 `sublist_of` xs.
Proof.
  induction xs as [|x xs IH]; intros bufs; cbn [copied fst]; [constructor|].
  destruct bufs as [|[] bufs]; cbn [fst app]; constructor; apply IH.
Qed.

(** All get their copies but the last, which is still to send. *)
Lemma output_loop_spec id data exclude l : ∀ i to d,
  let xs := opt_cons to (routed id exclude i l) in
  let c := copied (dsig_bufs d) (removelast xs) in
  output_loop id data exclude i l to d = (last xs, with_out (tx_of id data <$> c.1) c.2 d).
Proof.
  induction l as [|ni l IH]; intros i to d; cbn zeta; cbn [output_loop routed].
  { destruct to as [x|]; cbn; by rewrite with_out_nil. }
  destruct (route id exclude i ni) as [f|]; [|by apply IH].
  set (d1 := match to with None => d | Some _ => _ end).
  set (c1 := copied (dsig_bufs d) (opt_cons to [])).
  assert (d1 = with_out (tx_of id data <$> c1.1) c1.2 d) as E1.
  { subst d1 c1. destruct to as [[j g]|]; cbn [opt_cons copied fst snd]; [|by rewrite with_out_nil].
    unfold next_buf. destruct (dsig_bufs d) as [|[] bufs] eqn:Hb; cbn [fst snd app fmap list_fmap];
      unfold emit, with_out, tx_of; cbn; rewrite ?Hb, ?app_nil_r; done. }
  rewrite E1, IH. cbn [opt_cons]. rewrite with_out_twice, <- fmap_app. cbn [with_out dsig_bufs].
  destruct to as [x|]; cbn [opt_cons app]; [|done]. rewrite last_cons_cons.
  change (removelast (x :: (i, f) :: ?r)) with ([x] ++ removelast ((i, f) :: r)).
  rewrite copied_app. done.
Qed.

Lemma removelast_snoc {A} (l : list A) x : last l = Some x → removelast l ++ [x] = l.
Proof.
  destruct l as [|l y _] using rev_ind; [done|]. rewrite last_snoc, removelast_last. by intros [= ->].
Qed.

(** The interfaces that get the packet: those with a copy, and the last, with the packet. *)
Definition sent_to (bufs : list bool) (xs : list (nat * Z)) : list (nat * Z) :=
  (copied bufs (removelast xs)).1 ++ option_list (last xs).

Lemma sent_to_nil xs : sent_to [] xs = xs.
Proof.
  unfold sent_to. rewrite copied_nil. cbn [fst]. destruct (last xs) as [x|] eqn:El; simpl option_list.
  - by apply removelast_snoc.
  - apply last_None in El. by subst.
Qed.

Lemma sent_to_sublist bufs xs : sent_to bufs xs `sublist_of` xs ∧ last (sent_to bufs xs) = last xs.
Proof.
  unfold sent_to. destruct (last xs) as [x|] eqn:El; simpl option_list.
  - rewrite last_snoc. split; [|done]. rewrite <- (removelast_snoc xs x El) at 2. apply sublist_app; [apply copied_sublist|done].
  - apply last_None in El. subst. done.
Qed.

Lemma output_general id data exclude d :
  let xs := routed id exclude 0 (dsig_netifs d) in
  let d1 := dsig_dispatch id data d in
  dsig_output id data exclude d =
  (bool_decide (xs = []),
   with_out (tx_of id data <$> sent_to (dsig_bufs d) xs) (copied (dsig_bufs d) (removelast xs)).2 d1).
Proof.
  intros xs d1. unfold dsig_output. fold d1.
  assert (dsig_netifs d1 = dsig_netifs d ∧ dsig_bufs d1 = dsig_bufs d) as [E1 E2].
  { subst d1. unfold dsig_dispatch. by rewrite dispatch_loop_spec. }
  rewrite output_loop_spec, E1, E2 by done. cbn [opt_cons]. fold xs. unfold sent_to.
  destruct (last xs) as [[j f]|] eqn:El; simpl option_list.
  - rewrite bool_decide_false by (by intros ->). unfold emit, with_out. cbn. f_equal. f_equal.
    rewrite <- app_assoc. f_equal. by rewrite fmap_app.
  - apply last_None in El. rewrite El. by rewrite bool_decide_true.
Qed.

Lemma output_spec id data exclude d :
  dsig_bufs d = [] →
  let xs := routed id exclude 0 (dsig_netifs d) in
  let d1 := dsig_dispatch id data d in
  dsig_output id data exclude d = (bool_decide (xs = []), with_out (tx_of id data <$> xs) [] d1).
Proof. intros Hb xs d1. rewrite output_general, Hb, sent_to_nil, copied_nil. done. Qed.

(** A signal goes out once on every other interface that wants it: with buffers for the
    copies, [dsig_output] gives the packet, unchanged, to each interface that sends
    signals and whose filter lets the number through, but not to the one it came from,
    once each and with the flags of the filter, after the local subscribers; and it keeps
    the packet exactly when there is no such interface. *)
Theorem dsig_output_fanout id data exclude d :
  dsig_bufs d = [] →
  let xs := routed id exclude 0 (dsig_netifs d) in
  let '(keep, d') := dsig_output id data exclude d in
  dsig_out d' = dsig_out d ++ calls_of id data d (dsig_subs d) ++ (tx_of id data <$> xs) ∧
  (keep = true ↔ xs = []) ∧
  (∀ i f, (i, f) ∈ xs ↔ ∃ ni, dsig_netifs d !! i = Some ni ∧ route id exclude i ni = Some f) ∧
  NoDup (xs.*1).
Proof.
  intros Hb xs. rewrite output_spec by done. fold xs. split_and!.
  - unfold with_out, dsig_dispatch. rewrite dispatch_loop_spec. cbn. by rewrite app_assoc.
  - rewrite bool_decide_eq_true. done.
  - intros i f. unfold xs. assert (∀ l k, (i, f) ∈ routed id exclude k l ↔
      ∃ j ni, i = (k + j)%nat ∧ l !! j = Some ni ∧ route id exclude i ni = Some f) as H.
    { induction l as [|ni l IH]; intros k; cbn [routed].
      - rewrite elem_of_nil. split; [done|]. by intros (? & ? & _ & ? & _).
      - assert ((i, f) ∈ routed id exclude (S k) l ↔
          ∃ j n, i = (k + S j)%nat ∧ (ni :: l) !! S j = Some n ∧ route id exclude i n = Some f) as E.
        { rewrite IH. split; intros (j & n & ? & ? & ?); exists j, n; split_and!; done || lia. }
        destruct (route id exclude k ni) as [g|] eqn:Er; [rewrite elem_of_cons|]; rewrite E.
        + split.
          * intros [[= -> ->]|(j & n & ? & ? & ?)]; [exists 0%nat, ni; by rewrite Nat.add_0_r|exists (S j), n; done].
          * intros ([|j] & n & Hi & Hn & Hr); [|right; by exists j, n]. rewrite Nat.add_0_r in Hi. subst i.
            injection Hn as ->. left. congruence.
        + split; [intros (j & n & ? & ? & ?); exists (S j), n; done|].
          intros ([|j] & n & Hi & Hn & Hr); [|by exists j, n]. rewrite Nat.add_0_r in Hi. subst i.
          injection Hn as ->. congruence. }
    rewrite H. split; [intros (j & n & -> & ? & ?); by exists n|intros (n & ? & ?); by exists i, n].
  - unfold xs. assert (∀ l k, NoDup ((routed id exclude k l).*1) ∧ Forall (λ i, k <= i)%nat ((routed id exclude k l).*1)) as H;
      [|apply H]. induction l as [|ni l IH]; intros k; cbn [routed]; [split; constructor|].
    destruct (IH (S k)) as [H1 H2].
    assert (Forall (λ i, k <= i)%nat ((routed id exclude (S k) l).*1)) as H3 by (eapply Forall_impl; [exact H2|cbn; lia]).
    destruct (route id exclude k ni); [|done]. rewrite fmap_cons. cbn [fst]. split; [|by constructor].
    apply NoDup_cons. split; [|done]. intros Hin. rewrite Forall_forall in H2. specialize (H2 k Hin). cbn in H2. lia.
Qed.

(** ** The send queue between threads *)

(** The bus with its threads: [c_inflight] threads have found the queue empty and have not
    raised the task yet, the network thread is or is not in [dsig_send_cb]; the signals
    emitted and those handled so far. *)
Record bus := Bus {
  c_dsig : dsig;
  c_inflight : nat;
  c_running : bool;
  c_emitted : list (Z * list Z);
  c_handled : list (Z * list Z) }.

Definition emitted_pkt (x : Z * list Z) : windows := [le32 x.1 ++ x.2].

Inductive bus_step : bus → bus → Prop :=
| bs_insert x d d1 d' (empty : bool) n r em ha :       (* [dsig_emit] finds a buffer; up to the unlock *)
    is_u32 x.1 → (length x.2 <= PBUF_DATA_SIZE - 4)%nat → next_buf d = (true, d1) →
    dsig_insert (emitted_pkt x) d1 = (empty, d') →
    bus_step (Bus d n r em ha) (Bus d' (if empty then S n else n) r (em ++ [x]) ha)
| bs_refuse (x : Z * list Z) d d1 n r em ha :          (* [dsig_emit] returns without sending *)
    (PBUF_DATA_SIZE - 4 < length x.2)%nat ∧ d1 = d ∨
    (length x.2 <= PBUF_DATA_SIZE - 4)%nat ∧ next_buf d = (false, d1) →
    bus_step (Bus d n r em ha) (Bus d1 n r em ha)
| bs_raise d n r em ha : bus_step (Bus d (S n) r em ha) (Bus (raise_send d) n r em ha)
| bs_start d n em ha :                                  (* the network thread takes the task *)
    dsig_raised d = true →
    bus_step (Bus d n false em ha) (Bus (set_queue (dsig_send_queue d) false d) n true em ha)
| bs_round x b q d d' n em ha :
    dsig_send_queue d = b :: q → qb_data b = le32 x.1 ++ x.2 → is_u32 x.1 → send_one d = Ret (Some d') →
    bus_step (Bus d n true em ha) (Bus d' n true em (ha ++ [x]))
| bs_stop d n em ha : send_one d = Ret None → bus_step (Bus d n true em ha) (Bus d n false em ha).

(** A call of [dsig_emit] that nobody gets between is these steps. *)
Lemma dsig_emit_steps x d n r em ha : is_u32 x.1 →
  ∃ em', rtc bus_step (Bus d n r em ha) (Bus (dsig_emit x.1 x.2 d) n r em' ha).
Proof.
  intros Hx. unfold dsig_emit. destruct (Nat.ltb_spec (PBUF_DATA_SIZE - 4) (length x.2)) as [Hl|Hl]; [by exists em|].
  destruct (next_buf d) as [[] d1] eqn:En.
  - exists (em ++ [x]). change [le32 x.1 ++ x.2] with (emitted_pkt x).
    destruct (dsig_insert (emitted_pkt x) d1) as [e d2] eqn:Ei. unfold dsig_send. rewrite Ei.
    eapply rtc_l; [by eapply bs_insert|]. destruct e; [|done]. eapply rtc_l; [apply bs_raise|done].
  - exists em. apply rtc_once. eapply (bs_refuse x). by right.
Qed.

(** What handling a signal does when the interfaces [ys] get it. *)
Definition handling_to (ys : list (nat * Z)) (d : dsig) (x : Z * list Z) : list devent :=
  calls_of x.1 x.2 d (dsig_subs d) ++ (tx_of x.1 x.2 <$> ys) ++
  (if bool_decide (routed x.1 None 0 (dsig_netifs d) = []) then [EFree] else []).
Definition handling (d : dsig) (x : Z * list Z) : list devent := handling_to (routed x.1 None 0 (dsig_netifs d)) d x.

(** The interfaces that get it: those that want it, less those whose copy found no buffer,
    but never less the last. *)
Definition handled_as (d : dsig) (x : Z * list Z) (o : list devent) : Prop :=
  let xs := routed x.1 None 0 (dsig_netifs d) in
  ∃ ys, ys `sublist_of` xs ∧ last ys = last xs ∧ (dsig_bufs d = [] → ys = xs) ∧ o = handling_to ys d x.

Definition queued (x : Z * list Z) : qbuf := QBuf (le32 x.1 ++ x.2) true.

Record bus_inv (d0 : dsig) (c : bus) : Prop := {
  bi_pending : ∃ pend, dsig_send_queue (c_dsig c) = queued <$> pend ∧ c_emitted c = c_handled c ++ pend ∧
                 Forall (λ x, is_u32 x.1) pend;
  bi_wake : dsig_send_queue (c_dsig c) ≠ [] → dsig_raised (c_dsig c) = true ∨ c_running c = true ∨ (0 < c_inflight c)%nat;
  bi_out : ∃ outs, dsig_out (c_dsig c) = dsig_out d0 ++ concat outs ∧ Forall2 (handled_as d0) (c_handled c) outs;
  bi_same : dsig_subs (c_dsig c) = dsig_subs d0 ∧ g_solo (c_dsig c) = g_solo d0 ∧ dsig_netifs (c_dsig c) = dsig_netifs d0 ∧
            (dsig_bufs d0 = [] → dsig_bufs (c_dsig c) = []) }.

Lemma ld32_pkt x : is_u32 x.1 → ld32 (le32 x.1 ++ x.2) 0 = x.1.
Proof. intros H. exact (ld32_at [] x.1 x.2 H). Qed.

(** A round handles the first packet of the queue. *)
Lemma send_one_handles d x q :
  dsig_send_queue d = queued x :: q → is_u32 x.1 →
  ∃ d', send_one d = Ret (Some d') ∧ dsig_send_queue d' = q ∧ dsig_raised d' = dsig_raised d ∧
    dsig_out d' = dsig_out d ++ handling_to (sent_to (dsig_bufs d) (routed x.1 None 0 (dsig_netifs d))) d x ∧
    dsig_subs d' = dsig_subs d ∧ g_solo d' = g_solo d ∧
    dsig_netifs d' = dsig_netifs d ∧ (dsig_bufs d = [] → dsig_bufs d' = []).
Proof.
  intros Eq Hx. unfold send_one. rewrite Eq. cbn [splice queued qb_eop qb_data].
  rewrite ld32_pkt by done. rewrite output_general by done. cbn [set_queue dsig_netifs]. unfold handling_to.
  set (xs := routed x.1 None 0 (dsig_netifs d)). unfold dsig_dispatch. rewrite dispatch_loop_spec.
  change (drop 4 (le32 x.1 ++ x.2)) with x.2.
  destruct (bool_decide (xs = [])); eexists; (split; [reflexivity|]); cbn; rewrite ?app_nil_r, <- ?app_assoc;
    split_and!; try done; intros ->; by rewrite copied_nil.
Qed.

Lemma send_one_round d x q :
  dsig_send_queue d = queued x :: q → is_u32 x.1 → dsig_bufs d = [] →
  ∃ d', send_one d = Ret (Some d') ∧ dsig_send_queue d' = q ∧ dsig_raised d' = dsig_raised d ∧
    dsig_out d' = dsig_out d ++ handling d x ∧ dsig_subs d' = dsig_subs d ∧ g_solo d' = g_solo d ∧
    dsig_netifs d' = dsig_netifs d ∧ dsig_bufs d' = [].
Proof.
  intros Eq Hx Hb. destruct (send_one_handles d x q Eq Hx) as (d' & H1 & H2 & H3 & H4 & H5 & H6 & H7 & H8).
  exists d'. rewrite Hb, sent_to_nil in H4. split_and!; auto.
Qed.

Lemma handling_to_same ys d d' x :
  dsig_subs d' = dsig_subs d → g_solo d' = g_solo d → dsig_netifs d' = dsig_netifs d → handling_to ys d' x = handling_to ys d x.
Proof.
  intros E1 E2 E3. unfold handling_to, calls_of. rewrite E1, E3. do 2 f_equal.
  apply list_filter_iff. intros s. unfold muted. by rewrite E2.
Qed.

Lemma handling_same d d' x :
  dsig_subs d' = dsig_subs d → g_solo d' = g_solo d → dsig_netifs d' = dsig_netifs d → handling d' x = handling d x.
Proof. intros E1 E2 E3. unfold handling. rewrite E3. by apply handling_to_same. Qed.

Lemma queued_inj x y : is_u32 x.1 → is_u32 y.1 → le32 x.1 ++ x.2 = le32 y.1 ++ y.2 → x = y.
Proof.
  intros Hx Hy E. pose proof (ld32_pkt x Hx) as E1. rewrite E, (ld32_pkt y Hy) in E1.
  destruct x, y; cbn in *. subst. f_equal. by injection E.
Qed.

(** Whether there is a round to do, and that it can be done. *)
Lemma bus_round_ok d0 c : bus_inv d0 c →
  ∃ o, send_one (c_dsig c) = Ret o ∧ (o = None ↔ c_handled c = c_emitted c).
Proof.
  intros [(pend & Eq & Ee & Hf) _ _ _]. rewrite Ee. destruct pend as [|y pend].
  - exists None. unfold send_one. rewrite Eq, app_nil_r. done.
  - apply Forall_cons in Hf as [Hy _]. rewrite fmap_cons in Eq.
    destruct (send_one_handles _ y _ Eq Hy) as (d2 & E2 & _). exists (Some d2). split; [done|].
    split; [done|]. intros E. exfalso. apply (f_equal length) in E. rewrite length_app in E. cbn in E. lia.
Qed.

Lemma next_buf_same d b d1 : next_buf d = (b, d1) →
  dsig_send_queue d1 = dsig_send_queue d ∧ dsig_raised d1 = dsig_raised d ∧ dsig_out d1 = dsig_out d ∧
  dsig_subs d1 = dsig_subs d ∧ g_solo d1 = g_solo d ∧ dsig_netifs d1 = dsig_netifs d ∧
  (dsig_bufs d = [] → dsig_bufs d1 = []).
Proof. unfold next_buf. destruct (dsig_bufs d) eqn:E; intros [= <- <-]; split_and!; try done. Qed.

(** A change of the buffers alone. *)
Lemma bus_inv_buf d0 c d1 b n r em ha : c = Bus d1 n r em ha →
  ∀ d, next_buf d = (b, d1) → bus_inv d0 (Bus d n r em ha) → bus_inv d0 c.
Proof.
  intros -> d E [Hp Hw Ho (S1 & S2 & S3 & S4)]. cbn [c_dsig c_inflight c_running c_emitted c_handled] in *.
  destruct (next_buf_same d b d1 E) as (Q & R & O & T1 & T2 & T3 & T4).
  split; cbn [c_dsig c_inflight c_running c_emitted c_handled]; rewrite ?Q, ?R, ?O, ?T1, ?T2, ?T3; try done.
  split_and!; auto.
Qed.

Lemma bus_step_inv d0 c c' : bus_inv d0 c → bus_step c c' → bus_inv d0 c'.
Proof.
  intros Hi Hst. destruct Hst as [x d d1 d' e n r em ha Hx Hl En Ei|x d d1 n r em ha [[? ->]|[? En]]|d n r em ha|d n em ha Hr
    |x b q d d' n em ha Hq Hb Hx E|d n em ha E]; try done.
  - pose proof (bus_inv_buf d0 _ d1 _ n r em ha eq_refl d En Hi) as [(pend & Eq & Ee & Hf) Hw Ho Hs].
    cbn [c_dsig c_inflight c_running c_emitted c_handled] in *. injection Ei as <- <-. split; cbn; try done.
    + exists (pend ++ [x]). rewrite Eq, fmap_app, Ee, <- app_assoc. split_and!; [done|done|].
      apply Forall_app. split; [done|]. constructor; [done|constructor].
    + intros _. case_bool_decide as Hq; [right; right; lia|]. destruct (Hw Hq) as [?|[?|?]]; auto.
  - by eapply bus_inv_buf.
  - destruct Hi as [Hp Hw Ho Hs]. split; cbn in *; try done. by left.
  - destruct Hi as [Hp Hw Ho Hs]. split; cbn in *; try done. by right; left.
  - destruct Hi as [(pend & Eq & Ee & Hf) Hw (outs & Ho & Hh) (S1 & S2 & S3 & S4)].
    cbn [c_dsig c_inflight c_running c_emitted c_handled] in *.
    destruct pend as [|y pend]; [by rewrite Eq in *|]. rewrite fmap_cons in Eq.
    apply Forall_cons in Hf as [Hy Hf]. assert (x = y) as ->.
    { apply queued_inj; try done. rewrite Eq in Hq. injection Hq as <- _. done. }
    destruct (send_one_handles d y (queued <$> pend)) as (d2 & E2 & Q & R & O & T1 & T2 & T3 & T4); try done.
    rewrite E2 in E. injection E as <-. split; cbn [c_dsig c_inflight c_running c_emitted c_handled].
    + exists pend. rewrite Q, Ee, <- app_assoc. done.
    + intros _. by right; left.
    + eexists (outs ++ [_]). rewrite O, Ho, concat_app. cbn [concat]. rewrite app_nil_r, <- app_assoc. split; [done|].
      apply Forall2_app; [done|]. constructor; [|constructor].
      destruct (sent_to_sublist (dsig_bufs d) (routed y.1 None 0 (dsig_netifs d))) as [Hs Hl]. rewrite S3 in *.
      eexists. split_and!; [exact Hs|exact Hl| |by apply handling_to_same].
      intros Hb0. rewrite S4 by done. apply sent_to_nil.
    + rewrite T1, T2, T3. split_and!; auto.
  - destruct (bus_round_ok _ _ Hi) as (o & E' & Ho). cbn [c_dsig c_handled c_emitted] in *. rewrite E in E'. injection E' as <-.
    destruct Hi as [(pend & Eq & Ee & Hf) Hw Hout Hs]. cbn [c_dsig c_inflight c_running c_emitted c_handled] in *.
    split; cbn [c_dsig c_inflight c_running c_emitted c_handled]; try done; [by exists pend|]. intros Hq. exfalso.
    assert (ha = em) as -> by tauto. destruct pend; [by rewrite Eq in Hq|].
    apply (f_equal length) in Ee. rewrite length_app in Ee. cbn in Ee. lia.
Qed.

(** C34: every signal that [dsig_emit] takes is handled once, in order, and none is left
    waiting for a wake-up.  It takes one with at most 508 bytes of data when [pbuf_make]
    gives it a buffer, and drops the others.  However the threads that emit and the network
    thread interleave, and whatever buffers are there, what the network thread has done is
    the handling of the first so many signals taken: each goes to its subscribers, and then
    to the interfaces that want it, in their order and once each, the last of them always,
    another unless [pbuf_copy] found no buffer for it; to all of them when buffers are
    never short.  A round of [dsig_send_cb] never faults, and there is one to do exactly as
    long as a signal has not been handled.  When no thread is about to raise the task, the
    task is not raised and the network thread is not in it, all of them have been handled.
    ([dsig_emit_pbuf] and the copies of the command dsig_tx are not among the steps: see
    [dsig_emit_pbuf_truncates].) *)
Theorem dsig_send_exactly_once d0 c :
  dsig_send_queue d0 = [] → rtc bus_step (Bus d0 0 false [] []) c →
  (∃ pend, c_emitted c = c_handled c ++ pend) ∧
  (∃ outs, dsig_out (c_dsig c) = dsig_out d0 ++ concat outs ∧ Forall2 (handled_as d0) (c_handled c) outs) ∧
  (∃ o, send_one (c_dsig c) = Ret o ∧ (o = None ↔ c_handled c = c_emitted c)) ∧
  (c_inflight c = 0%nat → c_running c = false → dsig_raised (c_dsig c) = false → c_handled c = c_emitted c).
Proof.
  intros Hq Hr. assert (bus_inv d0 c) as Hi.
  { remember (Bus d0 0 false [] []) as c0 eqn:E0. assert (bus_inv d0 c0) as Hi.
    { subst c0. split; cbn; try done; [by exists []|]. exists []. rewrite app_nil_r. by split. }
    clear E0. induction Hr as [|? ? ? Hst _ IH]; [done|]. apply IH. by eapply bus_step_inv. }
  pose proof (bus_round_ok _ _ Hi) as Hro. destruct Hi as [(pend & Eq & Ee & _) Hw Ho _].
  split; [by exists pend|]. split; [done|]. split; [done|]. intros H1 H2 H3. rewrite Ee.
  destruct pend as [|y pend]; [by rewrite app_nil_r|].
  exfalso. destruct Hw as [?|[?|?]]; [by rewrite Eq|congruence|congruence|lia].
Qed.

(** *** On one thread *)

Lemma send_loop_ok pend : ∀ fuel d d0,
  dsig_send_queue d = queued <$> pend → Forall (λ x, is_u32 x.1) pend → (length pend < fuel)%nat →
  dsig_bufs d = [] → dsig_subs d = dsig_subs d0 → g_solo d = g_solo d0 → dsig_netifs d = dsig_netifs d0 →
  ∃ d', send_loop fuel d = Ret d' ∧ dsig_send_queue d' = [] ∧ dsig_out d' = dsig_out d ++ (pend ≫= handling d0).
Proof.
  induction pend as [|x pend IH]; intros fuel d d0 Eq Hf Hl Hb S1 S2 S3; (destruct fuel as [|fuel]; [cbn in Hl; lia|]); cbn [send_loop].
  - unfold send_one. rewrite Eq. cbn. exists d. rewrite app_nil_r. done.
  - apply Forall_cons in Hf as [Hx Hf]. rewrite fmap_cons in Eq.
    destruct (send_one_round d x (queued <$> pend)) as (d1 & -> & Q & _ & O & T1 & T2 & T3 & T4); try done.
    cbn [mbind res_bind]. destruct (IH fuel d1 d0) as (d' & E & Hq & Ho); try done; try congruence; [cbn in Hl; lia|].
    exists d'. split; [done|]. split; [done|]. rewrite Ho, O, <- app_assoc. cbn [mbind list_bind].
    by rewrite (handling_same d0 d) by done.
Qed.

(** [dsig_send_cb] always comes to an end and empties the queue. *)
Theorem dsig_send_cb_drains d pend :
  dsig_send_queue d = queued <$> pend → Forall (λ x, is_u32 x.1) pend → dsig_bufs d = [] →
  ∃ d', dsig_send_cb d = Ret d' ∧ dsig_send_queue d' = [] ∧ dsig_out d' = dsig_out d ++ (pend ≫= handling d).
Proof.
  intros Eq Hf Hb. unfold dsig_send_cb.
  refine (send_loop_ok pend _ (set_queue (dsig_send_queue d) false d) d Eq Hf _ Hb eq_refl eq_refl eq_refl).
  rewrite Eq, length_fmap. lia.
Qed.

(** ** Behaviour the code does not mean to have *)

(** A packet that has no room for the number in its first buffer, or that has more than
    one buffer, is put on the queue as its first buffer alone, which does not end a packet:
    the rest is lost, and [dsig_send_cb] goes on with a buffer that it has freed. *)
Theorem dsig_emit_pbuf_truncates signal p d :
  (pk_room p < 4)%nat → pk_win p ≠ [] → dsig_bufs d = [] → dsig_send_queue d = [] →
  let d' := dsig_emit_pbuf signal p d in
  dsig_send_queue d' = [QBuf (le32 signal) false] ∧ dsig_send_cb d' = Fault OutOfBounds.
Proof.
  intros Hr Hne Hb Hq. unfold dsig_emit_pbuf. rewrite (proj2 (Nat.leb_gt _ _)) by done. unfold next_buf. rewrite Hb.
  unfold win_prepend. rewrite (proj2 (Nat.leb_gt _ _)) by (cbn [length le32]; lia). cbn [pk_win].
  unfold dsig_send, dsig_insert. rewrite Hq. cbn [first length].
  assert ((S (length (pk_win p)) =? 1)%nat = false) as ->.
  { destruct (pk_win p); [done|]. by apply Nat.eqb_neq. }
  split; reflexivity.
Qed.

(** ** Witnesses *)

Definition ex_subs : list sub := [Sub 1 512 65280 100; Sub 2 4660 4294967295 0].
Definition ex_dsig : dsig :=
  Dsig ex_subs [] None ∅ 1000 [DNetif true None; DNetif false None; DNetif true (Some [DFilter 512 24 7])] [77] [] false false [] [].

Lemma dsig_dispatch_exact_witness :
  dsig_out (dsig_dispatch 515 [1; 2] ex_dsig) = [ECall 1 (Some [1; 2]) 515] ∧
  ds_timers (dsig_dispatch 515 [1; 2] ex_dsig) !! 1%nat = Some 101000.
Proof.
  assert (NoDup (ds_id <$> dsig_subs ex_dsig)) as Hn by (apply NoDup_ListNoDup; repeat constructor; cbn; intuition lia).
  destruct (dsig_dispatch_exact 515 [1; 2] ex_dsig Hn) as (E & Ht & _). split.
  - rewrite E. vm_compute. reflexivity.
  - change 1%nat with (ds_id (Sub 1 512 65280 100)). rewrite Ht by (by left). vm_compute. reflexivity.
Defined.

Lemma dsig_output_fanout_witness :
  let '(keep, d') := dsig_output 515 [1; 2] (Some 0%nat) ex_dsig in
  dsig_out d' = [ECall 1 (Some [1; 2]) 515; ETx 2 515 7 [1; 2]].
Proof.
  pose proof (dsig_output_fanout 515 [1; 2] (Some 0%nat) ex_dsig eq_refl) as H.
  destruct (dsig_output 515 [1; 2] (Some 0%nat) ex_dsig) as [keep d']. destruct H as [-> _]. vm_compute. reflexivity.
Defined.

Definition ex_insert (x : Z * list Z) (d : dsig) : dsig := (dsig_insert (emitted_pkt x) d).2.

(** Two threads emit; the first raises the task behind the second; the network thread takes
    the task and handles the first signal, for which one copy finds no buffer. *)
Definition ex_short : dsig := Dsig ex_subs [] None ∅ 1000 (dsig_netifs ex_dsig) [77] [] false false [true; true; false] [].
Definition ex_run (d : dsig) : dsig := default d (match send_one d with Ret o => o | _ => None end).
Definition ex_two : dsig := Eval vm_compute in
  ex_insert (515, [2]) (next_buf (ex_insert (528, [1]) (next_buf ex_short).2)).2.
Definition ex_one : dsig := Eval vm_compute in ex_run (set_queue (dsig_send_queue ex_two) false (raise_send ex_two)).

Lemma dsig_send_exactly_once_witness :
  dsig_out ex_one = [ECall 1 (Some [1]) 528; ETx 2 528 7 [1]] ∧
  (∃ pend, [(528, [1]); (515, [2])] = [(528, [1])] ++ pend) ∧
  (∃ outs, dsig_out ex_one = dsig_out ex_short ++ concat outs ∧ Forall2 (handled_as ex_short) [(528, [1])] outs) ∧
  (∃ o, send_one ex_one = Ret o ∧ (o = None ↔ [(528, [1])] = [(528, [1]); (515, [2])])) ∧
  (0%nat = 0%nat → true = false → dsig_raised ex_one = false → [(528, [1])] = [(528, [1]); (515, [2])]).
Proof.
  split; [reflexivity|].
  apply (dsig_send_exactly_once ex_short (Bus ex_one 0 true [(528, [1]); (515, [2])] [(528, [1])])); [reflexivity|].
  eapply rtc_l; [eapply (bs_insert (528, [1]) _ _ _ true); [unfold is_u32; cbn; lia|cbn; lia|reflexivity|reflexivity]|].
  eapply rtc_l; [eapply (bs_insert (515, [2]) _ _ _ false); [unfold is_u32; cbn; lia|cbn; lia|reflexivity|reflexivity]|].
  eapply rtc_l; [apply bs_raise|]. eapply rtc_l; [by apply bs_start|].
  eapply rtc_l; [eapply (bs_round (528, [1])); [reflexivity|reflexivity|unfold is_u32; cbn; lia|vm_compute; reflexivity]|].
  apply rtc_refl.
Defined.

Lemma dsig_send_cb_drains_witness :
  ∃ d', dsig_send_cb (ex_insert (515, [2]) ex_dsig) = Ret d' ∧ dsig_send_queue d' = [] ∧
    dsig_out d' = [] ++ ([(515, [2])] ≫= handling (ex_insert (515, [2]) ex_dsig)).
Proof.
  apply (dsig_send_cb_drains (ex_insert (515, [2]) ex_dsig) [(515, [2])]); try reflexivity.
  repeat constructor; cbn; lia.
Defined.

Lemma dsig_emit_pbuf_truncates_witness :
  let d' := dsig_emit_pbuf 5 (Pkt 0 [[1; 2; 3]]) ex_dsig in
  dsig_send_queue d' = [QBuf (le32 5) false] ∧ dsig_send_cb d' = Fault OutOfBounds.
Proof. apply (dsig_emit_pbuf_truncates 5 (Pkt 0 [[1; 2; 3]]) ex_dsig); try reflexivity; [cbn; lia|discriminate]. Defined.
