(* ===== verification/NetCore.v ===== *)
(** * NetCore: the network thread ([src/net/net_core.c], [net/net_task.h])

    Everything the network stack does runs on one thread, which works off a queue of tasks
    ([net_task_raise], from any thread or interrupt) and, when there is none, its timers.
    A task is on the queue when it has signals pending; raising it again adds signals.
    [netcore] is the queue with the pending signals; the log of a run ([nc_event]) says what
    was raised and what was run with which signals.

    An interface is such a task: [nif] is the part of [netif_t] it works on, with its
    receive queue, and [netif_task_cb] is its callback.  The driver functions are called as
    events. *)

From Stdlib Require Import ZArith Lia.
From stdpp Require Import base list numbers gmap.
From S2P Require Import Prelude Timer Ipv4 Udp Dsig.

Open Scope Z_scope.

(** ** Tasks *)

(** [net_tasks], and [nt_signals] of each task; a task that is not in the map has none. *)
Record netcore := NetCore { net_tasks : list nat; nc_signals : gmap nat Z }.

Definition nt_signals (n : netcore) (nt : nat) : Z := default 0 (nc_signals n !! nt).

Inductive nc_event :=
| Raised (nt : nat) (signals : Z)
| Ran (nt : nat) (signals : Z)
| Cancelled (nt : nat).

(** [net_task_raise]: the state, and whether the network thread was woken. *)
Definition net_task_raise (nt : nat) (signals : Z) (n : netcore) : res (netcore * bool) :=
  if signals =? 0 then Fault Assert
  else
    let idle := nt_signals n nt =? 0 in
    let q := if idle then net_tasks n ++ [nt] else net_tasks n in
    Ret (NetCore q (<[nt := Z.lor (nt_signals n nt) signals]> (nc_signals n)), idle).

(** [net_task_cancel]; [STAILQ_REMOVE] takes the first entry that is the task. *)
Fixpoint remove_first (nt : nat) (q : list nat) : list nat :=
  match q with
  | [] => []
  | x :: q => if (x =? nt)%nat then q else x :: remove_first nt q
  end.
Definition net_task_cancel (nt : nat) (n : netcore) : netcore :=
  if nt_signals n nt =? 0 then n
  else NetCore (remove_first nt (net_tasks n)) (<[nt := 0]> (nc_signals n)).

(** What [net_thread] does next: a task with its signals; or the timers, when the first one
    has expired; or sleep, at most until then. *)
Inductive next_work :=
| RunTask (nt : nat) (signals : Z)
| RunTimers
| SleepUntil (deadline : option Z).

Definition net_thread (now : Z) (timers : timers) (n : netcore) : next_work * netcore :=
  match net_tasks n with
  | nt :: q => (RunTask nt (nt_signals n nt), NetCore q (<[nt := 0]> (nc_signals n)))
  | [] =>
      match tl timers with
      | [] => (SleepUntil None, n)
      | t :: _ => if t_expire timers t <=? now then (RunTimers, n) else (SleepUntil (Some (t_expire timers t)), n)
      end
  end.

(** ** Interfaces *)

Definition NETIF_TASK_RX : Z := 1.
Definition NETIF_TASK_STATUS_UP : Z := 2.
Definition NETIF_TASK_STATUS_DOWN : Z := 4.
Definition NETIF_TASK_DETACH : Z := 8.
Definition NETIF_F_UP : Z := 1.
Definition NETIF_F_ZOMBIE : Z := 2.

Inductive nif_event :=
| IInput (pkt : list Z)               (* [ni_input] *)
| IStatus (up : bool)                 (* [ni_status_change] *)
| IHook (up : bool)                   (* [GHOOK_NETIF_LINK_STATUS] *)
| IDisable                            (* [dc_disable] *)
| IFreeNexthop (nh : nat)
| IWakeDetach.

Record nif := Nif {
  nf_flags : Z;
  nf_rx_queue : list qbuf;
  nf_nexthops : list nat;
  nf_attached : bool;                  (* on the list [netifs] *)
  nf_out : list nif_event }.

Definition nif_emit (e : nif_event) (n : nif) : nif :=
  Nif (nf_flags n) (nf_rx_queue n) (nf_nexthops n) (nf_attached n) (nf_out n ++ [e]).
Definition set_flags (f : Z) (n : nif) : nif :=
  Nif f (nf_rx_queue n) (nf_nexthops n) (nf_attached n) (nf_out n).
Definition set_rx (q : list qbuf) (n : nif) : nif :=
  Nif (nf_flags n) q (nf_nexthops n) (nf_attached n) (nf_out n).

(** The receive loop of [netif_task_cb].  What the driver has queued ends with the end of a
    packet; else [pbuf_splice] returns a buffer and leaves it on the queue. *)
Fixpoint rx_loop (fuel : nat) (n : nif) : res nif :=
  match fuel with
  | O => Fault NoFuel
  | S fuel =>
      match nf_rx_queue n with
      | [] => Ret n
      | _ =>
          match splice (nf_rx_queue n) with
          | None => Fault OutOfBounds
          | Some (pkt, q) => rx_loop fuel (nif_emit (IInput pkt) (set_rx q n))
          end
      end
  end.

Definition status_change (up : bool) (n : nif) : nif :=
  let f := if up then Z.lor (nf_flags n) NETIF_F_UP else Z.ldiff (nf_flags n) NETIF_F_UP in
  nif_emit (IHook up) (nif_emit (IStatus up) (set_flags f n)).

(** [netif_detach_task] and what is left of the interface. *)
Definition netif_detach_task (n : nif) : nif :=
  let n := Nif (nf_flags n) (nf_rx_queue n) (nf_nexthops n) false (nf_out n) in
  let n := nif_emit IDisable n in
  let n := Nif (nf_flags n) (nf_rx_queue n) [] (nf_attached n) (nf_out n ++ (IFreeNexthop <$> nf_nexthops n)) in
  nif_emit IWakeDetach (set_flags (Z.lor (nf_flags n) NETIF_F_ZOMBIE) (set_rx [] n)).

Definition netif_task_cb (signals : Z) (n : nif) : res nif :=
  n ← (if has signals NETIF_TASK_RX then rx_loop (S (length (nf_rx_queue n))) n else Ret n);
  let n := if (has signals NETIF_TASK_STATUS_UP && negb (has (nf_flags n) NETIF_F_UP))%bool
           then status_change true n else n in
  let n := if (has signals NETIF_TASK_STATUS_DOWN && has (nf_flags n) NETIF_F_UP)%bool
           then status_change false n else n in
  Ret (if has signals NETIF_TASK_DETACH then netif_detach_task n else n).

(** * Properties of the task queue *)

(** A step with what it did. *)
Inductive nc_step : netcore → nc_event → netcore → Prop :=
| nc_raise nt s n n' w : net_task_raise nt s n = Ret (n', w) → nc_step n (Raised nt s) n'
| nc_run now tm nt s n n' : net_thread now tm n = (RunTask nt s, n') → nc_step n (Ran nt s) n'
| nc_cancel nt n : nc_step n (Cancelled nt) (net_task_cancel nt n).

Inductive nc_run_of : netcore → list nc_event → netcore → Prop :=
| ncr_nil n : nc_run_of n [] n
| ncr_cons n e n1 tr n2 : nc_step n e n1 → nc_run_of n1 tr n2 → nc_run_of n (e :: tr) n2.

(** The signals raised for a task and not delivered: those since its last run. *)
Definition since1 (t : nat) (acc : Z) (e : nc_event) : Z :=
  match e with
  | Raised u s => if (u =? t)%nat then Z.lor acc s else acc
  | Ran u _ => if (u =? t)%nat then 0 else acc
  | Cancelled u => if (u =? t)%nat then 0 else acc
  end.
Definition since (t : nat) (tr : list nc_event) : Z := foldl (since1 t) 0 tr.

(** The queue has the tasks with signals, once each. *)
Definition nc_wf (n : netcore) : Prop :=
  NoDup (net_tasks n) ∧ ∀ t, t ∈ net_tasks n ↔ nt_signals n t ≠ 0.

Lemma signals_insert n t x q u :
  nt_signals (NetCore q (<[t := x]> (nc_signals n))) u = if (t =? u)%nat then x else nt_signals n u.
Proof.
  unfold nt_signals. cbn [nc_signals]. destruct (Nat.eqb_spec t u) as [->|Hne].
  - by rewrite lookup_insert_eq.
  - by rewrite lookup_insert_ne.
Qed.

Lemma signals_at q t x m : nt_signals (NetCore q (<[t := x]> m)) t = x.
Proof. unfold nt_signals. cbn [nc_signals]. by rewrite lookup_insert_eq. Qed.

Lemma remove_first_spec t q : NoDup q → NoDup (remove_first t q) ∧ ∀ u, u ∈ remove_first t q ↔ u ∈ q ∧ u ≠ t.
Proof.
  induction q as [|x q IH]; intros Hnd; cbn [remove_first].
  { split; [done|]. intros u. rewrite elem_of_nil. tauto. }
  apply NoDup_cons in Hnd as [Hx Hnd]. destruct (IH Hnd) as [H1 H2].
  destruct (Nat.eqb_spec x t) as [->|Hne].
  - split; [done|]. intros u. rewrite elem_of_cons. split; [intros Hu; split; [by right|]|naive_solver].
    intros ->. done.
  - split.
    + apply NoDup_cons. split; [|done]. rewrite H2. tauto.
    + intros u. rewrite !elem_of_cons, H2. naive_solver.
Qed.

Lemma lor_nonzero a b : b ≠ 0 → Z.lor a b ≠ 0.
Proof. intros Hb H. apply Z.lor_eq_0_iff in H as [_ ?]. done. Qed.

(** A step keeps the queue well formed, and moves the pending signals as [since1] says; a
    task is run with what is pending for it. *)
Lemma nc_step_spec n e n' : nc_wf n → nc_step n e n' →
  nc_wf n' ∧ (∀ t, nt_signals n' t = since1 t (nt_signals n t) e) ∧
  (∀ t s, e = Ran t s → s = nt_signals n t ∧ s ≠ 0).
Proof.
  intros [Hnd Hin] Hst. destruct Hst as [nt s n n' w E|now tm nt s n n' E|nt n].
  - unfold net_task_raise in E. destruct (Z.eqb_spec s 0) as [|Hs]; [done|]. injection E as <- _.
    assert (∀ t, nt_signals (NetCore (if nt_signals n nt =? 0 then net_tasks n ++ [nt] else net_tasks n)
      (<[nt := Z.lor (nt_signals n nt) s]> (nc_signals n))) t = since1 t (nt_signals n t) (Raised nt s)) as Hs1.
    { intros t. rewrite signals_insert. cbn [since1]. by destruct (Nat.eqb_spec nt t) as [->|]. }
    split; [|done]. split; cbn [net_tasks].
    + destruct (Z.eqb_spec (nt_signals n nt) 0) as [E0|]; [|done]. apply NoDup_app. split; [done|].
      split; [|apply NoDup_singleton]. intros x Hx Hx'. apply list_elem_of_singleton in Hx' as ->. by apply Hin in Hx.
    + intros t. rewrite Hs1. cbn [since1]. destruct (Z.eqb_spec (nt_signals n nt) 0) as [E0|E0].
      * rewrite elem_of_app, list_elem_of_singleton, Hin. destruct (Nat.eqb_spec nt t) as [->|Hne].
        -- split; [intros _; by apply lor_nonzero|by right].
        -- split; [intros [?| ->]; done|by left].
      * rewrite Hin. destruct (Nat.eqb_spec nt t) as [->|Hne]; [|done]. split; [intros _; by apply lor_nonzero|done].
  - unfold net_thread in E. destruct (net_tasks n) as [|x q] eqn:Eq; [by repeat case_match|]. injection E as -> <- <-.
    apply NoDup_cons in Hnd as [Hx Hnd]. split_and!.
    + split; [done|]. cbn [net_tasks]. intros t. rewrite signals_insert. specialize (Hin t).
      rewrite elem_of_cons in Hin. destruct (Nat.eqb_spec nt t) as [->|Hne]; [tauto|]. naive_solver.
    + intros t. rewrite signals_insert. done.
    + intros t s [= <- <-]. split; [done|]. apply Hin. by left.
  - unfold net_task_cancel. destruct (Z.eqb_spec (nt_signals n nt) 0) as [E0|E0].
    + split; [done|]. split; [|done]. intros t. cbn [since1]. by destruct (Nat.eqb_spec nt t) as [<-|].
    + destruct (remove_first_spec nt (net_tasks n) Hnd) as [H1 H2]. split_and!; [|intros t; by rewrite signals_insert|done].
      split; [done|]. cbn [net_tasks]. intros t. rewrite H2, signals_insert, Hin.
      destruct (Nat.eqb_spec nt t) as [->|]; naive_solver.
Qed.

Lemma nc_run_spec n tr n' : nc_wf n → nc_run_of n tr n' →
  nc_wf n' ∧ ∀ t, nt_signals n' t = foldl (since1 t) (nt_signals n t) tr.
Proof.
  intros Hwf Hr. induction Hr as [|n e n1 tr n2 Hst _ IH]; [done|].
  destruct (nc_step_spec n e n1 Hwf Hst) as (Hwf1 & Hs & _). destruct (IH Hwf1) as [? Hs2]. split; [done|].
  intros t. cbn [foldl]. by rewrite Hs2, Hs.
Qed.

Lemma nc_run_split n tr1 e tr2 n' : nc_run_of n (tr1 ++ e :: tr2) n' →
  ∃ n1 n2, nc_run_of n tr1 n1 ∧ nc_step n1 e n2 ∧ nc_run_of n2 tr2 n'.
Proof.
  revert n. induction tr1 as [|x tr1 IH]; intros n Hr; cbn [app] in Hr; inversion Hr; subst.
  - eexists _, _. split; [constructor|]. done.
  - destruct (IH _ ltac:(eassumption)) as (n3 & n4 & ? & ? & ?). exists n3, n4. split; [by econstructor|done].
Qed.

Definition netcore0 : netcore := NetCore [] ∅.

Lemma netcore0_wf : nc_wf netcore0.
Proof. split; [constructor|]. intros t. unfold nt_signals. cbn. rewrite elem_of_nil. done. Qed.

(** C36: no signal is lost and none is delivered twice: in every run, a task is run with
    exactly the signals that were raised for it since it last ran, and at least one; and
    what has been raised and not delivered is what the task still holds. *)
Theorem net_signals_exactly_once tr n :
  nc_run_of netcore0 tr n →
  (∀ tr1 t s tr2, tr = tr1 ++ Ran t s :: tr2 → s = since t tr1 ∧ s ≠ 0) ∧
  (∀ t, nt_signals n t = since t tr) ∧ (∀ t, t ∈ net_tasks n ↔ since t tr ≠ 0).
Proof.
  intros Hr. destruct (nc_run_spec _ _ _ netcore0_wf Hr) as [[_ Hin] Hs].
  assert (∀ t, nt_signals netcore0 t = 0) as H0 by done.
  split_and!.
  - intros tr1 t s tr2 ->. destruct (nc_run_split _ _ _ _ _ Hr) as (n1 & n2 & Hr1 & Hst & _).
    destruct (nc_run_spec _ _ _ netcore0_wf Hr1) as [Hwf1 Hs1].
    destruct (nc_step_spec _ _ _ Hwf1 Hst) as (_ & _ & Hran). destruct (Hran t s eq_refl) as [-> Hne].
    split; [|done]. unfold since. by rewrite Hs1, H0.
  - intros t. by rewrite Hs, H0.
  - intros t. by rewrite Hin, Hs, H0.
Qed.

(** The tasks run, in order. *)
Definition ran (tr : list nc_event) : list nat := tr ≫= λ e, match e with Ran t _ => [t] | _ => [] end.
Definition no_cancel (tr : list nc_event) : Prop := Forall (λ e, match e with Cancelled _ => False | _ => True end) tr.

(** Tasks run in the order in which they were raised: whatever is raised meanwhile, a
    task with [k] others in front of it is the [k]-th to run from now on. *)
Theorem net_tasks_fifo n tr n' k t :
  nc_run_of n tr n' → no_cancel tr → net_tasks n !! k = Some t → (k < length (ran tr))%nat →
  ran tr !! k = Some t.
Proof.
  intros Hr Hnc. revert k. induction Hr as [n|n e n1 tr n2 Hst _ IH]; intros k Hk Hl; [cbn in Hl; lia|].
  apply Forall_cons in Hnc as [He Hnc]. specialize (IH Hnc). destruct Hst as [nt s n n' w E|now tm nt s n n' E|nt n]; [| |done].
  - apply IH; [|exact Hl]. unfold net_task_raise in E. destruct (s =? 0); [done|]. injection E as <- _. cbn [net_tasks].
    case_match; [|done]. by apply lookup_app_l_Some.
  - unfold net_thread in E. destruct (net_tasks n) as [|x q] eqn:Eq; [by repeat case_match|]. injection E as -> <- <-.
    change (ran (Ran nt (nt_signals n nt) :: tr)) with (nt :: ran tr) in *. destruct k as [|k]; [done|].
    cbn [lookup list_lookup] in *. apply (IH k Hk). cbn [length] in Hl. lia.
Qed.

(** Timers wait until no task is left. *)
Theorem net_timers_after_tasks now tm n n' : net_thread now tm n = (RunTimers, n') →
  net_tasks n = [] ∧ ∃ t, head (tl tm) = Some t ∧ t_expire tm t <= now.
Proof.
  unfold net_thread. destruct (net_tasks n); [|done]. destruct (tl tm) as [|t l]; [done|].
  destruct (Z.leb_spec (t_expire tm t) now); [|done]. intros _. split; [done|]. by exists t.
Qed.

(** * Properties of interfaces *)

(** The packets in a receive queue. *)
Fixpoint packets (q : list qbuf) : list (list Z) :=
  match q with
  | [] => []
  | b :: rest =>
      if qb_eop b then qb_data b :: packets rest
      else match packets rest with
           | [] => [qb_data b]
           | p :: ps => (qb_data b ++ p) :: ps
           end
  end.
(** The last buffer ends a packet. *)
Fixpoint complete (q : list qbuf) : Prop :=
  match q with [] => True | [b] => qb_eop b = true | _ :: rest => complete rest end.

Lemma complete_tail b q : complete (b :: q) → complete q.
Proof. by destruct q. Qed.

Lemma splice_complete q : complete q → q ≠ [] →
  ∃ pkt q', splice q = Some (pkt, q') ∧ complete q' ∧ (length q' < length q)%nat ∧ packets q = pkt :: packets q'.
Proof.
  induction q as [|b q IH]; intros Hc Hne; [done|]. cbn [splice packets]. destruct (qb_eop b) eqn:Eb.
  - eexists _, _. split; [done|]. split; [by eapply complete_tail|]. split; [cbn; lia|done].
  - destruct q as [|b' q]; [by rewrite Hc in Eb|].
    destruct IH as (pkt & q' & -> & Hc' & Hl & ->); [by eapply complete_tail|done|]. cbn [mbind option_bind].
    eexists _, _. split; [done|]. split; [done|]. split; [cbn in *; lia|done].
Qed.

Lemma rx_loop_ok fuel : ∀ n, complete (nf_rx_queue n) → (length (nf_rx_queue n) < fuel)%nat →
  rx_loop fuel n = Ret (Nif (nf_flags n) [] (nf_nexthops n) (nf_attached n)
                          (nf_out n ++ (IInput <$> packets (nf_rx_queue n)))).
Proof.
  induction fuel as [|fuel IH]; intros n Hc Hl; [lia|]. cbn [rx_loop].
  destruct (nf_rx_queue n) as [|b q] eqn:Eq.
  { cbn. rewrite app_nil_r. rewrite <- Eq. by destruct n. }
  destruct (splice_complete (b :: q)) as (pkt & q' & -> & Hc' & Hl' & ->); [done|done|].
  rewrite IH; [|done|cbn in *; lia]. cbn. by rewrite <- app_assoc.
Qed.

(** An interface gets every packet of its receive queue once, in order, whatever its
    buffers are, before it is told of a change of the link; and its link status changes
    only when it is told so, with one notification. *)
Theorem netif_task_delivers signals n :
  complete (nf_rx_queue n) → has signals NETIF_TASK_RX = true → has signals NETIF_TASK_DETACH = false →
  ∃ n' st, netif_task_cb signals n = Ret n' ∧ nf_rx_queue n' = [] ∧
    nf_out n' = nf_out n ++ (IInput <$> packets (nf_rx_queue n)) ++ st ∧
    (has signals NETIF_TASK_STATUS_UP = false → has signals NETIF_TASK_STATUS_DOWN = false → st = [] ∧ nf_flags n' = nf_flags n) ∧
    (has signals NETIF_TASK_STATUS_UP = true → has signals NETIF_TASK_STATUS_DOWN = false →
       has (nf_flags n) NETIF_F_UP = false → st = [IStatus true; IHook true] ∧ nf_flags n' = Z.lor (nf_flags n) NETIF_F_UP).
Proof.
  intros Hc Hrx Hdt. unfold netif_task_cb. rewrite Hrx, Hdt, rx_loop_ok by (done || lia). cbn [mbind res_bind].
  set (n1 := Nif _ _ _ _ _). set (n2 := if (_ && _)%bool then status_change true n1 else n1).
  set (n3 := if (_ && _)%bool then status_change false n2 else n2).
  assert (∀ b m, nf_rx_queue (status_change b m) = nf_rx_queue m ∧
    nf_out (status_change b m) = nf_out m ++ [IStatus b; IHook b]) as Hsc.
  { intros b m. unfold status_change. cbn. by rewrite <- app_assoc. }
  assert (∃ st, nf_rx_queue n2 = [] ∧ nf_out n2 = nf_out n1 ++ st ∧ (has signals NETIF_TASK_STATUS_UP = false → st = [] ∧ n2 = n1) ∧
    (has signals NETIF_TASK_STATUS_UP = true → has (nf_flags n) NETIF_F_UP = false → st = [IStatus true; IHook true] ∧
       nf_flags n2 = Z.lor (nf_flags n) NETIF_F_UP)) as (st2 & Q2 & O2 & A2 & B2).
  { subst n2. destruct (has signals NETIF_TASK_STATUS_UP && negb (has (nf_flags n1) NETIF_F_UP))%bool eqn:E; bool_to_prop.
    - eexists. split; [apply Hsc|]. split; [apply Hsc|]. split; [congruence|done].
    - exists []. rewrite app_nil_r. split_and!; try done. intros H1 H2. cbn [n1 nf_flags] in E. rewrite H1, H2 in E. by destruct E. }
  assert (∃ st, nf_rx_queue n3 = [] ∧ nf_out n3 = nf_out n2 ++ st ∧ (has signals NETIF_TASK_STATUS_DOWN = false → st = [] ∧ n3 = n2))
    as (st3 & Q3 & O3 & A3).
  { subst n3. destruct (has signals NETIF_TASK_STATUS_DOWN && has (nf_flags n2) NETIF_F_UP)%bool eqn:E; bool_to_prop.
    - eexists. destruct (Hsc false n2) as [E1 E2]. rewrite E1, E2. split; [done|]. split; [done|]. congruence.
    - exists []. by rewrite app_nil_r. }
  exists n3, (st2 ++ st3). split; [done|]. split; [done|].
  split; [rewrite O3, O2; unfold n1; cbn; by rewrite <- !app_assoc|]. split.
  - intros H1 H2. destruct (A2 H1) as [-> E]. destruct (A3 H2) as [-> E']. split; [done|]. by rewrite E', E.
  - intros H1 H2 H3. destruct (B2 H1 H3) as [-> E]. destruct (A3 H2) as [-> E']. split; [done|]. by rewrite E'.
Qed.

(** A detached interface is off the list, its driver is disabled, its next hops are freed
    once each, nothing is left to receive, and who waits for it is woken. *)
Theorem netif_detach_clean n :
  let n' := netif_detach_task n in
  nf_attached n' = false ∧ nf_nexthops n' = [] ∧ nf_rx_queue n' = [] ∧ has (nf_flags n') NETIF_F_ZOMBIE = true ∧
  nf_out n' = nf_out n ++ [IDisable] ++ (IFreeNexthop <$> nf_nexthops n) ++ [IWakeDetach].
Proof.
  cbn. split_and!; try done.
  - unfold has, NETIF_F_ZOMBIE. rewrite negb_true_iff, Z.eqb_neq. intros H.
    assert (Z.testbit (Z.land (Z.lor (nf_flags n) 2) 2) 1 = true) as H1; [|by rewrite H in H1].
    by rewrite Z.land_spec, Z.lor_spec, orb_true_r.
  - by rewrite <- !app_assoc.
Qed.

(** A link that goes down and comes up again before the network thread looks is taken
    for down: both signals are pending then, [netif_task_cb] handles the one for up first,
    which changes nothing, and then the one for down.  The interface stays down until the
    link changes again. *)
Theorem netif_flap_ends_down nt n n1 w1 n2 w2 nif :
  nt_signals n nt = 0 → has (nf_flags nif) NETIF_F_UP = true →
  net_task_raise nt NETIF_TASK_STATUS_DOWN n = Ret (n1, w1) →
  net_task_raise nt NETIF_TASK_STATUS_UP n1 = Ret (n2, w2) →
  ∃ nif', netif_task_cb (nt_signals n2 nt) nif = Ret nif' ∧ has (nf_flags nif') NETIF_F_UP = false ∧
    nf_out nif' = nf_out nif ++ [IStatus false; IHook false].
Proof.
  intros H0 Hup E1 E2. unfold net_task_raise in E1, E2. cbn [Z.eqb] in *. injection E1 as <- _. injection E2 as <- _.
  rewrite !signals_at, H0. change (Z.lor (Z.lor 0 NETIF_TASK_STATUS_DOWN) NETIF_TASK_STATUS_UP) with 6.
  unfold netif_task_cb. change (has 6 NETIF_TASK_RX) with false. change (has 6 NETIF_TASK_STATUS_UP) with true.
  change (has 6 NETIF_TASK_STATUS_DOWN) with true. change (has 6 NETIF_TASK_DETACH) with false. cbn [mbind res_bind].
  rewrite Hup. cbn [negb andb]. rewrite Hup. eexists. split; [done|]. cbn. split; [|by rewrite <- app_assoc].
  unfold has, NETIF_F_UP. rewrite negb_false_iff, Z.eqb_eq. apply Z.bits_inj'. intros i Hi.
  rewrite Z.land_spec, Z.ldiff_spec, Z.bits_0. by destruct (Z.testbit 1 i); rewrite ?andb_false_r.
Qed.

(** ** Witnesses *)

(** Task 1 is raised twice, task 2 once; both run, task 1 with both signals. *)
Definition ex_trace : list nc_event := [Raised 1 1; Raised 2 4; Raised 1 2; Ran 1 3; Ran 2 4].
Definition ex_timers : timers := mk_timers [] ∅.

Lemma ex_nc_run : ∃ n, nc_run_of netcore0 ex_trace n.
Proof.
  eexists. unfold ex_trace.
  do 3 (eapply ncr_cons; [eapply nc_raise; reflexivity|]).
  do 2 (eapply ncr_cons; [eapply (nc_run 0 ex_timers); reflexivity|]). apply ncr_nil.
Qed.

Lemma net_signals_exactly_once_witness : 3 = since 1 [Raised 1 1; Raised 2 4; Raised 1 2] ∧ 3 ≠ 0.
Proof.
  destruct ex_nc_run as [n Hr]. destruct (net_signals_exactly_once ex_trace n Hr) as [H _].
  by apply (H [Raised 1 1; Raised 2 4; Raised 1 2] 1%nat 3 [Ran 2 4]).
Defined.

Lemma net_tasks_fifo_witness : ran [Ran 1 3; Ran 2 4] !! 1%nat = Some 2%nat.
Proof.
  apply (net_tasks_fifo (NetCore [1%nat; 2%nat] (<[1%nat := 3]> (<[2%nat := 4]> ∅))) [Ran 1 3; Ran 2 4]
    (NetCore [] (<[2%nat := 0]> (<[1%nat := 0]> (<[1%nat := 3]> (<[2%nat := 4]> ∅)))))).
  - do 2 (eapply ncr_cons; [eapply (nc_run 0 ex_timers); reflexivity|]). apply ncr_nil.
  - repeat constructor.
  - reflexivity.
  - cbn. lia.
Defined.

Lemma net_timers_after_tasks_witness :
  net_tasks netcore0 = [] ∧ ∃ t, head (tl (mk_timers [3%nat] {[3%nat := 5]})) = Some t ∧
    t_expire (mk_timers [3%nat] {[3%nat := 5]}) t <= 9.
Proof. apply (net_timers_after_tasks 9 (mk_timers [3%nat] {[3%nat := 5]}) netcore0 netcore0). reflexivity. Defined.

Definition ex_nif : nif := Nif 0 [QBuf [1; 2] false; QBuf [3] true; QBuf [4] true] [7%nat] true [].

Lemma netif_task_delivers_witness :
  ∃ n' st, netif_task_cb 3 ex_nif = Ret n' ∧ nf_rx_queue n' = [] ∧
    nf_out n' = [] ++ [IInput [1; 2; 3]; IInput [4]] ++ st.
Proof.
  destruct (netif_task_delivers 3 ex_nif) as (n' & st & E & Q & O & _); try reflexivity. by exists n', st.
Defined.

Lemma netif_flap_ends_down_witness :
  ∃ nif', netif_task_cb 6 (Nif 1 [] [] true []) = Ret nif' ∧ has (nf_flags nif') NETIF_F_UP = false.
Proof.
  destruct (netif_flap_ends_down 5 netcore0 (NetCore [5%nat] (<[5%nat := 4]> ∅)) true
    (NetCore [5%nat] (<[5%nat := 6]> (<[5%nat := 4]> ∅))) false (Nif 1 [] [] true [])) as (n' & E & H & _);
    try reflexivity.
  exists n'. split; [exact E|exact H].
Defined.
