(* ===== verification/Tcp.v ===== *)
(** * Tcp: TCP over IPv4 ([src/net/ipv4/tcp.c])

    The transmission control block [tcb_t] is the record [tcb]; its two FIFOs are one
    memory object, [tcb_buffer], the TX FIFO first, so that a copy that leaves the TX
    FIFO lands in the RX FIFO and a copy that leaves the RX FIFO is [OutOfBounds].
    Sequence numbers are 32-bit values with their wrap-around.

    An operation on one block runs in the monad [C] over a [conn]: the block ([None]
    once it is freed, so that a later access is [OutOfBounds]), whether it is on the
    list [tcbs], the keys of the other blocks on the list, and the surroundings [net]:
    clock, random numbers, whether the next [pbuf_make] and [xalloc] succeed, what the
    drivers' [ni_output_ipv4] return, the routes of [Ipv4], and what was handed out.
    [run] embeds it in the list of all blocks ([world]).

    A packet buffer chain is the list of its windows, as in [Ipv4].  A segment given to
    [tcp_output] is its header and its data; the event [Sent] records it with the bytes
    of the packet.  Buffers for segments start with room for the headers below
    ([TCP_PBUF_HEADROOM]; a received segment had them), so [pbuf_prepend] works in
    place.  A timer is its expiry time while it is armed.

    A thread in a stream operation runs with rescheduling off until it returns or
    sleeps; an operation is a pass that ends in [Done] or [Sleep], and is entered
    again, with what it has left to do, after the wakeup. *)

From Stdlib Require Import ZArith Lia.
From stdpp Require Import base list numbers gmap.
From S2P Require Import Prelude Ipv4.

Open Scope Z_scope.

Definition TCP_EVENT_CONNECT : Z := 1.
Definition TCP_EVENT_CLOSE : Z := 2.
Definition TCP_EVENT_EMIT : Z := 4.
Definition TCP_EVENT_WND_OPEN : Z := 8.
Definition TCP_EVENT_FLUSH : Z := 16.

Definition TCP_KEEPALIVE_INTERVAL : Z := 10000.
Definition TCP_TIMEOUT_INTERVAL : Z := 21000.
Definition TCP_TIMEOUT_HANDSHAKE : Z := 5000.

Definition TCP_STATE_CLOSED : Z := 0.
Definition TCP_STATE_LISTEN : Z := 1.
Definition TCP_STATE_SYN_SENT : Z := 2.
Definition TCP_STATE_SYN_RECEIVED : Z := 3.
Definition TCP_STATE_ESTABLISHED : Z := 4.
Definition TCP_STATE_FIN_WAIT1 : Z := 5.
Definition TCP_STATE_FIN_WAIT2 : Z := 6.
Definition TCP_STATE_CLOSING : Z := 7.
Definition TCP_STATE_TIME_WAIT : Z := 8.
Definition TCP_STATE_CLOSE_WAIT : Z := 9.
Definition TCP_STATE_LAST_ACK : Z := 10.

Definition TCP_F_FIN : Z := 1.
Definition TCP_F_SYN : Z := 2.
Definition TCP_F_RST : Z := 4.
Definition TCP_F_PSH : Z := 8.
Definition TCP_F_ACK : Z := 16.

Definition ERR_NO_BUFFER : Z := -7.
Definition ERR_NOT_CONNECTED : Z := -33.
Definition ERR_NO_ROUTE : Z := -50.
Definition STREAM_WRITE_NO_WAIT : Z := 1.
Definition STREAM_WRITE_ALL : Z := 2.

Definition IPV4_F_DF : Z := 16384.

(** ** State *)

Record tcb := mk_tcb {
  tcb_state : Z;
  tcb_app_closed : bool;
  tcb_pending_syn : Z;
  tcb_pending_fin : Z;
  tcb_fin_received : bool;
  rcv_window_closed : bool;
  fast_reject_limiter : Z;
  tcb_wnd_scale_ok : bool;
  tcb_snd_wnd_shift : Z;
  snd_wrptr : Z;
  snd_nxt : Z;
  snd_una : Z;
  snd_wnd : Z;
  snd_wl1 : Z;
  snd_wl2 : Z;
  tcb_iss : Z;
  rcv_rdptr : Z;
  rcv_nxt : Z;
  rcv_mss : Z;
  tcb_local_addr : Z;
  tcb_remote_addr : Z;
  tcb_remote_port : Z;
  tcb_local_port : Z;
  tcb_max_segment_size : Z;
  tcb_txfifo_size : Z;
  tcb_rxfifo_size : Z;
  tcb_rtx_timer : option Z;
  tcb_delayed_ack_timer : option Z;
  tcb_time_wait_timer : option Z;
  tcb_rto : Z;
  tcb_tx_bytes : Z;
  tcb_rx_bytes : Z;
  tcb_rtx_bytes : Z;
  tcb_last_rx : Z;
  tcb_timo : Z;
  tcb_buffer : list Z;
}.

Definition set_state (x : Z) (t : tcb) : tcb :=
  mk_tcb x (tcb_app_closed t) (tcb_pending_syn t) (tcb_pending_fin t) (tcb_fin_received t)
    (rcv_window_closed t) (fast_reject_limiter t) (tcb_wnd_scale_ok t) (tcb_snd_wnd_shift t)
    (snd_wrptr t) (snd_nxt t) (snd_una t) (snd_wnd t) (snd_wl1 t) (snd_wl2 t) (tcb_iss t)
    (rcv_rdptr t) (rcv_nxt t) (rcv_mss t) (tcb_local_addr t) (tcb_remote_addr t)
    (tcb_remote_port t) (tcb_local_port t) (tcb_max_segment_size t) (tcb_txfifo_size t)
    (tcb_rxfifo_size t) (tcb_rtx_timer t) (tcb_delayed_ack_timer t) (tcb_time_wait_timer t)
    (tcb_rto t) (tcb_tx_bytes t) (tcb_rx_bytes t) (tcb_rtx_bytes t) (tcb_last_rx t) (tcb_timo t)
    (tcb_buffer t).
Definition set_app_closed (x : bool) (t : tcb) : tcb :=
  mk_tcb (tcb_state t) x (tcb_pending_syn t) (tcb_pending_fin t) (tcb_fin_received t)
    (rcv_window_closed t) (fast_reject_limiter t) (tcb_wnd_scale_ok t) (tcb_snd_wnd_shift t)
    (snd_wrptr t) (snd_nxt t) (snd_una t) (snd_wnd t) (snd_wl1 t) (snd_wl2 t) (tcb_iss t)
    (rcv_rdptr t) (rcv_nxt t) (rcv_mss t) (tcb_local_addr t) (tcb_remote_addr t)
    (tcb_remote_port t) (tcb_local_port t) (tcb_max_segment_size t) (tcb_txfifo_size t)
    (tcb_rxfifo_size t) (tcb_rtx_timer t) (tcb_delayed_ack_timer t) (tcb_time_wait_timer t)
    (tcb_rto t) (tcb_tx_bytes t) (tcb_rx_bytes t) (tcb_rtx_bytes t) (tcb_last_rx t) (tcb_timo t)
    (tcb_buffer t).
Definition set_pending_syn (x : Z) (t : tcb) : tcb :=
  mk_tcb (tcb_state t) (tcb_app_closed t) x (tcb_pending_fin t) (tcb_fin_received t)
    (rcv_window_closed t) (fast_reject_limiter t) (tcb_wnd_scale_ok t) (tcb_snd_wnd_shift t)
    (snd_wrptr t) (snd_nxt t) (snd_una t) (snd_wnd t) (snd_wl1 t) (snd_wl2 t) (tcb_iss t)
    (rcv_rdptr t) (rcv_nxt t) (rcv_mss t) (tcb_local_addr t) (tcb_remote_addr t)
    (tcb_remote_port t) (tcb_local_port t) (tcb_max_segment_size t) (tcb_txfifo_size t)
    (tcb_rxfifo_size t) (tcb_rtx_timer t) (tcb_delayed_ack_timer t) (tcb_time_wait_timer t)
    (tcb_rto t) (tcb_tx_bytes t) (tcb_rx_bytes t) (tcb_rtx_bytes t) (tcb_last_rx t) (tcb_timo t)
    (tcb_buffer t).
Definition set_pending_fin (x : Z) (t : tcb) : tcb :=
  mk_tcb (tcb_state t) (tcb_app_closed t) (tcb_pending_syn t) x (tcb_fin_received t)
    (rcv_window_closed t) (fast_reject_limiter t) (tcb_wnd_scale_ok t) (tcb_snd_wnd_shift t)
    (snd_wrptr t) (snd_nxt t) (snd_una t) (snd_wnd t) (snd_wl1 t) (snd_wl2 t) (tcb_iss t)
    (rcv_rdptr t) (rcv_nxt t) (rcv_mss t) (tcb_local_addr t) (tcb_remote_addr t)
    (tcb_remote_port t) (tcb_local_port t) (tcb_max_segment_size t) (tcb_txfifo_size t)
    (tcb_rxfifo_size t) (tcb_rtx_timer t) (tcb_delayed_ack_timer t) (tcb_time_wait_timer t)
    (tcb_rto t) (tcb_tx_bytes t) (tcb_rx_bytes t) (tcb_rtx_bytes t) (tcb_last_rx t) (tcb_timo t)
    (tcb_buffer t).
Definition set_fin_received (x : bool) (t : tcb) : tcb :=
  mk_tcb (tcb_state t) (tcb_app_closed t) (tcb_pending_syn t) (tcb_pending_fin t) x
    (rcv_window_closed t) (fast_reject_limiter t) (tcb_wnd_scale_ok t) (tcb_snd_wnd_shift t)
    (snd_wrptr t) (snd_nxt t) (snd_una t) (snd_wnd t) (snd_wl1 t) (snd_wl2 t) (tcb_iss t)
    (rcv_rdptr t) (rcv_nxt t) (rcv_mss t) (tcb_local_addr t) (tcb_remote_addr t)
    (tcb_remote_port t) (tcb_local_port t) (tcb_max_segment_size t) (tcb_txfifo_size t)
    (tcb_rxfifo_size t) (tcb_rtx_timer t) (tcb_delayed_ack_timer t) (tcb_time_wait_timer t)
    (tcb_rto t) (tcb_tx_bytes t) (tcb_rx_bytes t) (tcb_rtx_bytes t) (tcb_last_rx t) (tcb_timo t)
    (tcb_buffer t).
Definition set_window_closed (x : bool) (t : tcb) : tcb :=
  mk_tcb (tcb_state t) (tcb_app_closed t) (tcb_pending_syn t) (tcb_pending_fin t)
    (tcb_fin_received t) x (fast_reject_limiter t) (tcb_wnd_scale_ok t) (tcb_snd_wnd_shift t)
    (snd_wrptr t) (snd_nxt t) (snd_una t) (snd_wnd t) (snd_wl1 t) (snd_wl2 t) (tcb_iss t)
    (rcv_rdptr t) (rcv_nxt t) (rcv_mss t) (tcb_local_addr t) (tcb_remote_addr t)
    (tcb_remote_port t) (tcb_local_port t) (tcb_max_segment_size t) (tcb_txfifo_size t)
    (tcb_rxfifo_size t) (tcb_rtx_timer t) (tcb_delayed_ack_timer t) (tcb_time_wait_timer t)
    (tcb_rto t) (tcb_tx_bytes t) (tcb_rx_bytes t) (tcb_rtx_bytes t) (tcb_last_rx t) (tcb_timo t)
    (tcb_buffer t).
Definition set_limiter (x : Z) (t : tcb) : tcb :=
  mk_tcb (tcb_state t) (tcb_app_closed t) (tcb_pending_syn t) (tcb_pending_fin t)
    (tcb_fin_received t) (rcv_window_closed t) x (tcb_wnd_scale_ok t) (tcb_snd_wnd_shift t)
    (snd_wrptr t) (snd_nxt t) (snd_una t) (snd_wnd t) (snd_wl1 t) (snd_wl2 t) (tcb_iss t)
    (rcv_rdptr t) (rcv_nxt t) (rcv_mss t) (tcb_local_addr t) (tcb_remote_addr t)
    (tcb_remote_port t) (tcb_local_port t) (tcb_max_segment_size t) (tcb_txfifo_size t)
    (tcb_rxfifo_size t) (tcb_rtx_timer t) (tcb_delayed_ack_timer t) (tcb_time_wait_timer t)
    (tcb_rto t) (tcb_tx_bytes t) (tcb_rx_bytes t) (tcb_rtx_bytes t) (tcb_last_rx t) (tcb_timo t)
    (tcb_buffer t).
Definition set_wrptr (x : Z) (t : tcb) : tcb :=
  mk_tcb (tcb_state t) (tcb_app_closed t) (tcb_pending_syn t) (tcb_pending_fin t)
    (tcb_fin_received t) (rcv_window_closed t) (fast_reject_limiter t) (tcb_wnd_scale_ok t)
    (tcb_snd_wnd_shift t) x (snd_nxt t) (snd_una t) (snd_wnd t) (snd_wl1 t) (snd_wl2 t)
    (tcb_iss t) (rcv_rdptr t) (rcv_nxt t) (rcv_mss t) (tcb_local_addr t) (tcb_remote_addr t)
    (tcb_remote_port t) (tcb_local_port t) (tcb_max_segment_size t) (tcb_txfifo_size t)
    (tcb_rxfifo_size t) (tcb_rtx_timer t) (tcb_delayed_ack_timer t) (tcb_time_wait_timer t)
    (tcb_rto t) (tcb_tx_bytes t) (tcb_rx_bytes t) (tcb_rtx_bytes t) (tcb_last_rx t) (tcb_timo t)
    (tcb_buffer t).
Definition set_nxt (x : Z) (t : tcb) : tcb :=
  mk_tcb (tcb_state t) (tcb_app_closed t) (tcb_pending_syn t) (tcb_pending_fin t)
    (tcb_fin_received t) (rcv_window_closed t) (fast_reject_limiter t) (tcb_wnd_scale_ok t)
    (tcb_snd_wnd_shift t) (snd_wrptr t) x (snd_una t) (snd_wnd t) (snd_wl1 t) (snd_wl2 t)
    (tcb_iss t) (rcv_rdptr t) (rcv_nxt t) (rcv_mss t) (tcb_local_addr t) (tcb_remote_addr t)
    (tcb_remote_port t) (tcb_local_port t) (tcb_max_segment_size t) (tcb_txfifo_size t)
    (tcb_rxfifo_size t) (tcb_rtx_timer t) (tcb_delayed_ack_timer t) (tcb_time_wait_timer t)
    (tcb_rto t) (tcb_tx_bytes t) (tcb_rx_bytes t) (tcb_rtx_bytes t) (tcb_last_rx t) (tcb_timo t)
    (tcb_buffer t).
Definition set_una (x : Z) (t : tcb) : tcb :=
  mk_tcb (tcb_state t) (tcb_app_closed t) (tcb_pending_syn t) (tcb_pending_fin t)
    (tcb_fin_received t) (rcv_window_closed t) (fast_reject_limiter t) (tcb_wnd_scale_ok t)
    (tcb_snd_wnd_shift t) (snd_wrptr t) (snd_nxt t) x (snd_wnd t) (snd_wl1 t) (snd_wl2 t)
    (tcb_iss t) (rcv_rdptr t) (rcv_nxt t) (rcv_mss t) (tcb_local_addr t) (tcb_remote_addr t)
    (tcb_remote_port t) (tcb_local_port t) (tcb_max_segment_size t) (tcb_txfifo_size t)
    (tcb_rxfifo_size t) (tcb_rtx_timer t) (tcb_delayed_ack_timer t) (tcb_time_wait_timer t)
    (tcb_rto t) (tcb_tx_bytes t) (tcb_rx_bytes t) (tcb_rtx_bytes t) (tcb_last_rx t) (tcb_timo t)
    (tcb_buffer t).
Definition set_rdptr (x : Z) (t : tcb) : tcb :=
  mk_tcb (tcb_state t) (tcb_app_closed t) (tcb_pending_syn t) (tcb_pending_fin t)
    (tcb_fin_received t) (rcv_window_closed t) (fast_reject_limiter t) (tcb_wnd_scale_ok t)
    (tcb_snd_wnd_shift t) (snd_wrptr t) (snd_nxt t) (snd_una t) (snd_wnd t) (snd_wl1 t)
    (snd_wl2 t) (tcb_iss t) x (rcv_nxt t) (rcv_mss t) (tcb_local_addr t) (tcb_remote_addr t)
    (tcb_remote_port t) (tcb_local_port t) (tcb_max_segment_size t) (tcb_txfifo_size t)
    (tcb_rxfifo_size t) (tcb_rtx_timer t) (tcb_delayed_ack_timer t) (tcb_time_wait_timer t)
    (tcb_rto t) (tcb_tx_bytes t) (tcb_rx_bytes t) (tcb_rtx_bytes t) (tcb_last_rx t) (tcb_timo t)
    (tcb_buffer t).
Definition set_rcv_nxt (x : Z) (t : tcb) : tcb :=
  mk_tcb (tcb_state t) (tcb_app_closed t) (tcb_pending_syn t) (tcb_pending_fin t)
    (tcb_fin_received t) (rcv_window_closed t) (fast_reject_limiter t) (tcb_wnd_scale_ok t)
    (tcb_snd_wnd_shift t) (snd_wrptr t) (snd_nxt t) (snd_una t) (snd_wnd t) (snd_wl1 t)
    (snd_wl2 t) (tcb_iss t) (rcv_rdptr t) x (rcv_mss t) (tcb_local_addr t) (tcb_remote_addr t)
    (tcb_remote_port t) (tcb_local_port t) (tcb_max_segment_size t) (tcb_txfifo_size t)
    (tcb_rxfifo_size t) (tcb_rtx_timer t) (tcb_delayed_ack_timer t) (tcb_time_wait_timer t)
    (tcb_rto t) (tcb_tx_bytes t) (tcb_rx_bytes t) (tcb_rtx_bytes t) (tcb_last_rx t) (tcb_timo t)
    (tcb_buffer t).
Definition set_mss (x : Z) (t : tcb) : tcb :=
  mk_tcb (tcb_state t) (tcb_app_closed t) (tcb_pending_syn t) (tcb_pending_fin t)
    (tcb_fin_received t) (rcv_window_closed t) (fast_reject_limiter t) (tcb_wnd_scale_ok t)
    (tcb_snd_wnd_shift t) (snd_wrptr t) (snd_nxt t) (snd_una t) (snd_wnd t) (snd_wl1 t)
    (snd_wl2 t) (tcb_iss t) (rcv_rdptr t) (rcv_nxt t) (rcv_mss t) (tcb_local_addr t)
    (tcb_remote_addr t) (tcb_remote_port t) (tcb_local_port t) x (tcb_txfifo_size t)
    (tcb_rxfifo_size t) (tcb_rtx_timer t) (tcb_delayed_ack_timer t) (tcb_time_wait_timer t)
    (tcb_rto t) (tcb_tx_bytes t) (tcb_rx_bytes t) (tcb_rtx_bytes t) (tcb_last_rx t) (tcb_timo t)
    (tcb_buffer t).
Definition set_rtx (x : option Z) (t : tcb) : tcb :=
  mk_tcb (tcb_state t) (tcb_app_closed t) (tcb_pending_syn t) (tcb_pending_fin t)
    (tcb_fin_received t) (rcv_window_closed t) (fast_reject_limiter t) (tcb_wnd_scale_ok t)
    (tcb_snd_wnd_shift t) (snd_wrptr t) (snd_nxt t) (snd_una t) (snd_wnd t) (snd_wl1 t)
    (snd_wl2 t) (tcb_iss t) (rcv_rdptr t) (rcv_nxt t) (rcv_mss t) (tcb_local_addr t)
    (tcb_remote_addr t) (tcb_remote_port t) (tcb_local_port t) (tcb_max_segment_size t)
    (tcb_txfifo_size t) (tcb_rxfifo_size t) x (tcb_delayed_ack_timer t) (tcb_time_wait_timer t)
    (tcb_rto t) (tcb_tx_bytes t) (tcb_rx_bytes t) (tcb_rtx_bytes t) (tcb_last_rx t) (tcb_timo t)
    (tcb_buffer t).
Definition set_dack (x : option Z) (t : tcb) : tcb :=
  mk_tcb (tcb_state t) (tcb_app_closed t) (tcb_pending_syn t) (tcb_pending_fin t)
    (tcb_fin_received t) (rcv_window_closed t) (fast_reject_limiter t) (tcb_wnd_scale_ok t)
    (tcb_snd_wnd_shift t) (snd_wrptr t) (snd_nxt t) (snd_una t) (snd_wnd t) (snd_wl1 t)
    (snd_wl2 t) (tcb_iss t) (rcv_rdptr t) (rcv_nxt t) (rcv_mss t) (tcb_local_addr t)
    (tcb_remote_addr t) (tcb_remote_port t) (tcb_local_port t) (tcb_max_segment_size t)
    (tcb_txfifo_size t) (tcb_rxfifo_size t) (tcb_rtx_timer t) x (tcb_time_wait_timer t)
    (tcb_rto t) (tcb_tx_bytes t) (tcb_rx_bytes t) (tcb_rtx_bytes t) (tcb_last_rx t) (tcb_timo t)
    (tcb_buffer t).
Definition set_tw (x : option Z) (t : tcb) : tcb :=
  mk_tcb (tcb_state t) (tcb_app_closed t) (tcb_pending_syn t) (tcb_pending_fin t)
    (tcb_fin_received t) (rcv_window_closed t) (fast_reject_limiter t) (tcb_wnd_scale_ok t)
    (tcb_snd_wnd_shift t) (snd_wrptr t) (snd_nxt t) (snd_una t) (snd_wnd t) (snd_wl1 t)
    (snd_wl2 t) (tcb_iss t) (rcv_rdptr t) (rcv_nxt t) (rcv_mss t) (tcb_local_addr t)
    (tcb_remote_addr t) (tcb_remote_port t) (tcb_local_port t) (tcb_max_segment_size t)
    (tcb_txfifo_size t) (tcb_rxfifo_size t) (tcb_rtx_timer t) (tcb_delayed_ack_timer t) x
    (tcb_rto t) (tcb_tx_bytes t) (tcb_rx_bytes t) (tcb_rtx_bytes t) (tcb_last_rx t) (tcb_timo t)
    (tcb_buffer t).
Definition set_last_rx (x : Z) (t : tcb) : tcb :=
  mk_tcb (tcb_state t) (tcb_app_closed t) (tcb_pending_syn t) (tcb_pending_fin t)
    (tcb_fin_received t) (rcv_window_closed t) (fast_reject_limiter t) (tcb_wnd_scale_ok t)
    (tcb_snd_wnd_shift t) (snd_wrptr t) (snd_nxt t) (snd_una t) (snd_wnd t) (snd_wl1 t)
    (snd_wl2 t) (tcb_iss t) (rcv_rdptr t) (rcv_nxt t) (rcv_mss t) (tcb_local_addr t)
    (tcb_remote_addr t) (tcb_remote_port t) (tcb_local_port t) (tcb_max_segment_size t)
    (tcb_txfifo_size t) (tcb_rxfifo_size t) (tcb_rtx_timer t) (tcb_delayed_ack_timer t)
    (tcb_time_wait_timer t) (tcb_rto t) (tcb_tx_bytes t) (tcb_rx_bytes t) (tcb_rtx_bytes t) x
    (tcb_timo t) (tcb_buffer t).
Definition set_timo (x : Z) (t : tcb) : tcb :=
  mk_tcb (tcb_state t) (tcb_app_closed t) (tcb_pending_syn t) (tcb_pending_fin t)
    (tcb_fin_received t) (rcv_window_closed t) (fast_reject_limiter t) (tcb_wnd_scale_ok t)
    (tcb_snd_wnd_shift t) (snd_wrptr t) (snd_nxt t) (snd_una t) (snd_wnd t) (snd_wl1 t)
    (snd_wl2 t) (tcb_iss t) (rcv_rdptr t) (rcv_nxt t) (rcv_mss t) (tcb_local_addr t)
    (tcb_remote_addr t) (tcb_remote_port t) (tcb_local_port t) (tcb_max_segment_size t)
    (tcb_txfifo_size t) (tcb_rxfifo_size t) (tcb_rtx_timer t) (tcb_delayed_ack_timer t)
    (tcb_time_wait_timer t) (tcb_rto t) (tcb_tx_bytes t) (tcb_rx_bytes t) (tcb_rtx_bytes t)
    (tcb_last_rx t) x (tcb_buffer t).
Definition set_buffer (x : list Z) (t : tcb) : tcb :=
  mk_tcb (tcb_state t) (tcb_app_closed t) (tcb_pending_syn t) (tcb_pending_fin t)
    (tcb_fin_received t) (rcv_window_closed t) (fast_reject_limiter t) (tcb_wnd_scale_ok t)
    (tcb_snd_wnd_shift t) (snd_wrptr t) (snd_nxt t) (snd_una t) (snd_wnd t) (snd_wl1 t)
    (snd_wl2 t) (tcb_iss t) (rcv_rdptr t) (rcv_nxt t) (rcv_mss t) (tcb_local_addr t)
    (tcb_remote_addr t) (tcb_remote_port t) (tcb_local_port t) (tcb_max_segment_size t)
    (tcb_txfifo_size t) (tcb_rxfifo_size t) (tcb_rtx_timer t) (tcb_delayed_ack_timer t)
    (tcb_time_wait_timer t) (tcb_rto t) (tcb_tx_bytes t) (tcb_rx_bytes t) (tcb_rtx_bytes t)
    (tcb_last_rx t) (tcb_timo t) x.
Definition set_local_port (x : Z) (t : tcb) : tcb :=
  mk_tcb (tcb_state t) (tcb_app_closed t) (tcb_pending_syn t) (tcb_pending_fin t)
    (tcb_fin_received t) (rcv_window_closed t) (fast_reject_limiter t) (tcb_wnd_scale_ok t)
    (tcb_snd_wnd_shift t) (snd_wrptr t) (snd_nxt t) (snd_una t) (snd_wnd t) (snd_wl1 t)
    (snd_wl2 t) (tcb_iss t) (rcv_rdptr t) (rcv_nxt t) (rcv_mss t) (tcb_local_addr t)
    (tcb_remote_addr t) (tcb_remote_port t) x (tcb_max_segment_size t) (tcb_txfifo_size t)
    (tcb_rxfifo_size t) (tcb_rtx_timer t) (tcb_delayed_ack_timer t) (tcb_time_wait_timer t)
    (tcb_rto t) (tcb_tx_bytes t) (tcb_rx_bytes t) (tcb_rtx_bytes t) (tcb_last_rx t) (tcb_timo t)
    (tcb_buffer t).
Definition set_tx_bytes (x : Z) (t : tcb) : tcb :=
  mk_tcb (tcb_state t) (tcb_app_closed t) (tcb_pending_syn t) (tcb_pending_fin t)
    (tcb_fin_received t) (rcv_window_closed t) (fast_reject_limiter t) (tcb_wnd_scale_ok t)
    (tcb_snd_wnd_shift t) (snd_wrptr t) (snd_nxt t) (snd_una t) (snd_wnd t) (snd_wl1 t)
    (snd_wl2 t) (tcb_iss t) (rcv_rdptr t) (rcv_nxt t) (rcv_mss t) (tcb_local_addr t)
    (tcb_remote_addr t) (tcb_remote_port t) (tcb_local_port t) (tcb_max_segment_size t)
    (tcb_txfifo_size t) (tcb_rxfifo_size t) (tcb_rtx_timer t) (tcb_delayed_ack_timer t)
    (tcb_time_wait_timer t) (tcb_rto t) x (tcb_rx_bytes t) (tcb_rtx_bytes t) (tcb_last_rx t)
    (tcb_timo t) (tcb_buffer t).
Definition set_rx_bytes (x : Z) (t : tcb) : tcb :=
  mk_tcb (tcb_state t) (tcb_app_closed t) (tcb_pending_syn t) (tcb_pending_fin t)
    (tcb_fin_received t) (rcv_window_closed t) (fast_reject_limiter t) (tcb_wnd_scale_ok t)
    (tcb_snd_wnd_shift t) (snd_wrptr t) (snd_nxt t) (snd_una t) (snd_wnd t) (snd_wl1 t)
    (snd_wl2 t) (tcb_iss t) (rcv_rdptr t) (rcv_nxt t) (rcv_mss t) (tcb_local_addr t)
    (tcb_remote_addr t) (tcb_remote_port t) (tcb_local_port t) (tcb_max_segment_size t)
    (tcb_txfifo_size t) (tcb_rxfifo_size t) (tcb_rtx_timer t) (tcb_delayed_ack_timer t)
    (tcb_time_wait_timer t) (tcb_rto t) (tcb_tx_bytes t) x (tcb_rtx_bytes t) (tcb_last_rx t)
    (tcb_timo t) (tcb_buffer t).
Definition set_rtx_bytes (x : Z) (t : tcb) : tcb :=
  mk_tcb (tcb_state t) (tcb_app_closed t) (tcb_pending_syn t) (tcb_pending_fin t)
    (tcb_fin_received t) (rcv_window_closed t) (fast_reject_limiter t) (tcb_wnd_scale_ok t)
    (tcb_snd_wnd_shift t) (snd_wrptr t) (snd_nxt t) (snd_una t) (snd_wnd t) (snd_wl1 t)
    (snd_wl2 t) (tcb_iss t) (rcv_rdptr t) (rcv_nxt t) (rcv_mss t) (tcb_local_addr t)
    (tcb_remote_addr t) (tcb_remote_port t) (tcb_local_port t) (tcb_max_segment_size t)
    (tcb_txfifo_size t) (tcb_rxfifo_size t) (tcb_rtx_timer t) (tcb_delayed_ack_timer t)
    (tcb_time_wait_timer t) (tcb_rto t) (tcb_tx_bytes t) (tcb_rx_bytes t) x (tcb_last_rx t)
    (tcb_timo t) (tcb_buffer t).
Definition set_wscale (x : bool) (y : Z) (t : tcb) : tcb :=
  mk_tcb (tcb_state t) (tcb_app_closed t) (tcb_pending_syn t) (tcb_pending_fin t)
    (tcb_fin_received t) (rcv_window_closed t) (fast_reject_limiter t) x y (snd_wrptr t)
    (snd_nxt t) (snd_una t) (snd_wnd t) (snd_wl1 t) (snd_wl2 t) (tcb_iss t) (rcv_rdptr t)
    (rcv_nxt t) (rcv_mss t) (tcb_local_addr t) (tcb_remote_addr t) (tcb_remote_port t)
    (tcb_local_port t) (tcb_max_segment_size t) (tcb_txfifo_size t) (tcb_rxfifo_size t)
    (tcb_rtx_timer t) (tcb_delayed_ack_timer t) (tcb_time_wait_timer t) (tcb_rto t)
    (tcb_tx_bytes t) (tcb_rx_bytes t) (tcb_rtx_bytes t) (tcb_last_rx t) (tcb_timo t)
    (tcb_buffer t).
Definition set_wnd (x : Z) (y : Z) (z : Z) (t : tcb) : tcb :=
  mk_tcb (tcb_state t) (tcb_app_closed t) (tcb_pending_syn t) (tcb_pending_fin t)
    (tcb_fin_received t) (rcv_window_closed t) (fast_reject_limiter t) (tcb_wnd_scale_ok t)
    (tcb_snd_wnd_shift t) (snd_wrptr t) (snd_nxt t) (snd_una t) x y z (tcb_iss t) (rcv_rdptr t)
    (rcv_nxt t) (rcv_mss t) (tcb_local_addr t) (tcb_remote_addr t) (tcb_remote_port t)
    (tcb_local_port t) (tcb_max_segment_size t) (tcb_txfifo_size t) (tcb_rxfifo_size t)
    (tcb_rtx_timer t) (tcb_delayed_ack_timer t) (tcb_time_wait_timer t) (tcb_rto t)
    (tcb_tx_bytes t) (tcb_rx_bytes t) (tcb_rtx_bytes t) (tcb_last_rx t) (tcb_timo t)
    (tcb_buffer t).
Definition set_remote (x : Z) (y : Z) (t : tcb) : tcb :=
  mk_tcb (tcb_state t) (tcb_app_closed t) (tcb_pending_syn t) (tcb_pending_fin t)
    (tcb_fin_received t) (rcv_window_closed t) (fast_reject_limiter t) (tcb_wnd_scale_ok t)
    (tcb_snd_wnd_shift t) (snd_wrptr t) (snd_nxt t) (snd_una t) (snd_wnd t) (snd_wl1 t)
    (snd_wl2 t) (tcb_iss t) (rcv_rdptr t) (rcv_nxt t) (rcv_mss t) (tcb_local_addr t) x y
    (tcb_local_port t) (tcb_max_segment_size t) (tcb_txfifo_size t) (tcb_rxfifo_size t)
    (tcb_rtx_timer t) (tcb_delayed_ack_timer t) (tcb_time_wait_timer t) (tcb_rto t)
    (tcb_tx_bytes t) (tcb_rx_bytes t) (tcb_rtx_bytes t) (tcb_last_rx t) (tcb_timo t)
    (tcb_buffer t).
Definition set_local (x : Z) (y : Z) (t : tcb) : tcb :=
  mk_tcb (tcb_state t) (tcb_app_closed t) (tcb_pending_syn t) (tcb_pending_fin t)
    (tcb_fin_received t) (rcv_window_closed t) (fast_reject_limiter t) (tcb_wnd_scale_ok t)
    (tcb_snd_wnd_shift t) (snd_wrptr t) (snd_nxt t) (snd_una t) (snd_wnd t) (snd_wl1 t)
    (snd_wl2 t) (tcb_iss t) (rcv_rdptr t) (rcv_nxt t) (rcv_mss t) x (tcb_remote_addr t)
    (tcb_remote_port t) y (tcb_max_segment_size t) (tcb_txfifo_size t) (tcb_rxfifo_size t)
    (tcb_rtx_timer t) (tcb_delayed_ack_timer t) (tcb_time_wait_timer t) (tcb_rto t)
    (tcb_tx_bytes t) (tcb_rx_bytes t) (tcb_rtx_bytes t) (tcb_last_rx t) (tcb_timo t)
    (tcb_buffer t).

(** [tcp_hdr_t]; ports as loaded, the other fields in host order. *)
Record tcp_hdr := mk_th {
  th_src_port : Z;
  th_dst_port : Z;
  th_seq : Z;
  th_ack : Z;
  th_off : Z;
  th_flg : Z;
  th_wnd : Z;
}.

(** A segment: header and what follows it, buffer by buffer. *)
Record segment := mk_seg { seg_th : tcp_hdr; seg_data : windows }.

Inductive event :=
| Sent (s : segment) (local_addr remote_addr : Z) (pkt : windows)
| WakeRx
| WakeTx
| Raise (signals : Z).

Record net := mk_net {
  n_now : Z;
  n_rand : list Z;
  n_make : list bool;
  n_xalloc : list bool;
  n_err : list Z;
  n_routes : routes;
  n_out : list event;
}.

Definition emit_event (e : event) (n : net) : net :=
  mk_net (n_now n) (n_rand n) (n_make n) (n_xalloc n) (n_err n) (n_routes n) (n_out n ++ [e]).
Definition set_routes (r : routes) (n : net) : net :=
  mk_net (n_now n) (n_rand n) (n_make n) (n_xalloc n) (n_err n) r (n_out n).

(** The next outcome of each kind. *)
Definition next_rand (n : net) : Z * net :=
  (default 0 (head (n_rand n)),
   mk_net (n_now n) (tail (n_rand n)) (n_make n) (n_xalloc n) (n_err n) (n_routes n) (n_out n)).
Definition next_make (n : net) : bool * net :=
  (default true (head (n_make n)),
   mk_net (n_now n) (n_rand n) (tail (n_make n)) (n_xalloc n) (n_err n) (n_routes n) (n_out n)).
Definition next_xalloc (n : net) : bool * net :=
  (default true (head (n_xalloc n)),
   mk_net (n_now n) (n_rand n) (n_make n) (tail (n_xalloc n)) (n_err n) (n_routes n) (n_out n)).
Definition next_err (n : net) : Z * net :=
  (default 0 (head (n_err n)),
   mk_net (n_now n) (n_rand n) (n_make n) (n_xalloc n) (tail (n_err n)) (n_routes n) (n_out n)).

Record conn := mk_conn {
  c_tcb : option tcb;
  c_linked : bool;
  c_peers : list (Z * Z * Z);
  c_net : net;
}.

(** ** Running an operation *)

Definition C (A : Type) : Type := conn → res (A * conn).
#[export] Instance C_ret : MRet C := λ A a c, Ret (a, c).
#[export] Instance C_bind : MBind C := λ A B k m c,
  match m c with Ret (a, c) => k a c | Fault f => Fault f end.

Definition fail {A} (f : fault) : C A := λ _, Fault f.
Definition lift {A} (r : res A) : C A := λ c,
  match r with Ret a => Ret (a, c) | Fault f => Fault f end.
(** Any access to the block. *)
Definition get : C tcb := λ c,
  match c_tcb c with Some t => Ret (t, c) | None => Fault OutOfBounds end.
Definition modify (f : tcb → tcb) : C unit := λ c,
  match c_tcb c with
  | Some t => Ret (tt, mk_conn (Some (f t)) (c_linked c) (c_peers c) (c_net c))
  | None => Fault OutOfBounds
  end.
Definition on_net {A} (f : net → res (A * net)) : C A := λ c,
  match f (c_net c) with
  | Ret (a, n) => Ret (a, mk_conn (c_tcb c) (c_linked c) (c_peers c) n)
  | Fault f => Fault f
  end.
Definition peek_net {A} (f : net → A * net) : C A := on_net (λ n, Ret (f n)).
Definition put_event (e : event) : C unit := on_net (λ n, Ret (tt, emit_event e n)).
Definition clock_get : C Z := peek_net (λ n, (n_now n, n)).
Definition set_linked (b : bool) : C unit := λ c,
  Ret (tt, mk_conn (c_tcb c) b (c_peers c) (c_net c)).
Definition get_peers : C (list (Z * Z * Z)) := λ c, Ret (c_peers c, c).
Definition free_tcb : C unit := λ c,
  match c_tcb c with
  | Some _ => Ret (tt, mk_conn None (c_linked c) (c_peers c) (c_net c))
  | None => Fault OutOfBounds
  end.
Definition whenM (b : bool) (m : C unit) : C unit := if b then m else mret tt.

(** ** FIFOs *)

Definition tcb_txfifo_used (t : tcb) : Z := u32 (snd_wrptr t - snd_una t).
Definition tcb_txfifo_avail (t : tcb) : Z := u32 (tcb_txfifo_size t - tcb_txfifo_used t).
(** Where the RX FIFO starts in the buffer. *)
Definition tcb_rxfifo (t : tcb) : Z := tcb_txfifo_size t.
Definition tcb_rxfifo_used (t : tcb) : Z := u32 (rcv_nxt t - rcv_rdptr t).
Definition tcb_rxfifo_avail (t : tcb) : Z := u32 (tcb_rxfifo_size t - tcb_rxfifo_used t).

(** Read [len] bytes at sequence [offset] of the FIFO of [size] bytes that starts at
    [base]. *)
Definition wtol_memcpy (buf : list Z) (base len offset size : Z) : res (list Z) :=
  let mask := size - 1 in
  let offset := Z.land offset mask in
  let end_ := Z.land (u32 (offset + len)) mask in
  if offset <=? end_ then rd buf (base + offset) len
  else
    a ← rd buf (base + offset) (size - offset);
    b ← rd buf base end_;
    Ret (a ++ b).

Definition ltow_memcpy (buf : list Z) (base : Z) (src : list Z) (offset size : Z) : res (list Z) :=
  let len := Z.of_nat (length src) in
  let mask := size - 1 in
  let offset := Z.land offset mask in
  let end_ := Z.land (u32 (offset + len)) mask in
  if offset <=? end_ then wr buf (base + offset) src
  else
    buf ← wr buf (base + offset) (take (Z.to_nat (size - offset)) src);
    src ← rd src (size - offset) end_;
    wr buf base src.

(** ** Output *)

Fixpoint on_last_window (f : list Z → list Z) (c : windows) : windows :=
  match c with
  | [] => []
  | [w] => [f w]
  | w :: next => w :: on_last_window f next
  end.

Definition tcp_set_state (state : Z) : C unit := modify (set_state state).

Definition th_bytes (th : tcp_hdr) (cksum : Z) : list Z :=
  le16 (th_src_port th) ++ le16 (th_dst_port th) ++ be32 (th_seq th) ++ be32 (th_ack th) ++
  [u8 (th_off th); u8 (th_flg th)] ++ be16 (th_wnd th) ++ le16 cksum ++ [0; 0].

Definition ip_bytes (total id src dst : Z) : list Z :=
  [69; 0] ++ be16 (u16 total) ++ le16 (u16 id) ++ be16 IPV4_F_DF ++ [255; 6] ++ [0; 0] ++
  le32 src ++ le32 dst.

Definition tcp_output (s : segment) (local_addr remote_addr : Z) (n : net) : res (Z * net) :=
  let '(mem, n) := next_xalloc n in
  let '(nh, r) := ipv4_nexthop_resolve mem (n_routes n) remote_addr in
  let n := set_routes r n in
  match nh with
  | None => Ret (ERR_NO_ROUTE, n)
  | Some nh =>
      match netifs r !! nh_netif nh with
      | None => Fault OutOfBounds
      | Some ni =>
          let local_addr := if local_addr =? 0 then ni_ipv4_local_addr ni else local_addr in
          let pb := on_first (app (th_bytes (seg_th s) 0)) (seg_data s) in
          pb ← (if has (ni_flags ni) NETIF_F_TX_TCP_CKSUM_OFFLOAD then Ret pb
                else
                  c ← ipv4_cksum_pbuf
                        (ipv4_cksum_pseudo local_addr remote_addr IPPROTO_TCP (pktlen pb))
                        pb 0 (pktlen pb);
                  Ret (on_first (store 16 (le16 c)) pb));
          let '(id, n) := next_rand n in
          let pb := on_first (app (ip_bytes (20 + pktlen pb) id local_addr remote_addr)) pb in
          pb ← (if has (ni_flags ni) NETIF_F_TX_IPV4_CKSUM_OFFLOAD then Ret pb
                else c ← ipv4_cksum_pbuf 0 pb 0 20; Ret (on_first (store 10 (le16 c)) pb));
          let '(err, n) := next_err n in
          Ret (err, emit_event (Sent s local_addr remote_addr pb) n)
      end
  end.

(** [tcp_output_tcb] on the packet with flags [flg], sequence number [seq] and
    data. *)
Definition tcp_output_tcb (flg seq : Z) (data : windows) : C Z :=
  t ← get;
  let wnd := Z.min (tcb_rxfifo_avail t) 65535 in
  let opts :=
    if has flg TCP_F_SYN then
      [2; 4; u8 (Z.shiftr (rcv_mss t) 8); u8 (rcv_mss t)] ++
      (if (if has flg TCP_F_ACK then tcb_wnd_scale_ok t else true) then [1; 3; 3; 0] else [])
    else [] in
  let off := Z.shiftl (5 + Z.of_nat (length opts) / 4) 4 in
  let th := mk_th (tcb_local_port t) (tcb_remote_port t) seq (rcv_nxt t) off flg wnd in
  on_net (tcp_output (mk_seg th (on_last_window (λ w, w ++ opts) data))
            (tcb_local_addr t) (tcb_remote_addr t)).

(** Room for payload in the first and in the other buffers of a segment. *)
Definition FIRST_ROOM : Z := 456.
Definition PBUF_ROOM : Z := 512.
Definition MAX_PAYLOAD : Z := 1460.

(** The copy loop of [tcp_emit]: the buffers before the current one, what the current
    one holds, its free room; the buffers and the payload length. *)
Fixpoint emit_loop (fuel : nat) (t : tcb) (n : net) (prev : windows) (p : list Z) (room : Z)
    (seq bytes_in_fifo total : Z) : res (windows * Z * net) :=
  match fuel with
  | O => Fault NoFuel
  | S f =>
      if (negb (bytes_in_fifo =? 0) && (total <? MAX_PAYLOAD))%bool then
        let '(ok, n) := if room =? 0 then next_make n else (true, n) in
        if negb ok then Ret (prev ++ [p], total, n)
        else
          let '(prev, p, room) := if room =? 0 then (prev ++ [p], [], PBUF_ROOM) else (prev, p, room) in
          let to_copy := Z.min (MAX_PAYLOAD - total) (Z.min bytes_in_fifo room) in
          bs ← wtol_memcpy (tcb_buffer t) 0 to_copy seq (tcb_txfifo_size t);
          emit_loop f t n prev (p ++ bs) (room - to_copy) (u32 (seq + to_copy))
            (bytes_in_fifo - to_copy) (total + to_copy)
      else Ret (prev ++ [p], total, n)
  end.
(** Three buffers hold the largest payload. *)
Definition EMIT_FUEL : nat := 4.

(** How much the peer's window lets us send. *)
Definition wnd_room (t : tcb) : Z :=
  let in_flight := u32 (snd_nxt t - snd_una t) in
  if in_flight <? snd_wnd t then snd_wnd t - in_flight else 0.

(** [recycle]: a packet was passed in. *)
Definition tcp_emit (recycle : bool) (seq : Z) (gen_ack : bool) : C Z :=
  ok ← (if recycle then mret true else peek_net next_make);
  if negb ok then mret ERR_NO_BUFFER
  else
    modify (set_dack None);;
    t ← get;
    let bytes_in_fifo := u32 (snd_wrptr t - seq) in
    let bytes_in_fifo :=
      if seq =? snd_nxt t then Z.min bytes_in_fifo (wnd_room t) else bytes_in_fifo in
    if negb (tcb_pending_syn t =? 0) then tcp_output_tcb (tcb_pending_syn t) (tcb_iss t) [[]]
    else if bytes_in_fifo =? 0 then
      if gen_ack then tcp_output_tcb TCP_F_ACK seq [[]] else mret 0
    else if (negb (tcb_pending_fin t =? 0) && (bytes_in_fifo =? 1))%bool then
      whenM (negb (snd_nxt t =? snd_wrptr t)) (modify (set_nxt (snd_wrptr t)));;
      tcp_output_tcb (tcb_pending_fin t) seq [[]]
    else
      let bytes_in_fifo :=
        if negb (tcb_pending_fin t =? 0) then bytes_in_fifo - 1 else bytes_in_fifo in
      '(data, total) ← on_net (λ n,
         '(data, total, n) ← emit_loop EMIT_FUEL t n [] [] FIRST_ROOM seq bytes_in_fifo 0;
         Ret ((data, total), n));
      err ← tcp_output_tcb (Z.lor TCP_F_PSH TCP_F_ACK) seq data;
      if negb (err =? 0) then mret err
      else
        t ← get;
        (if snd_nxt t =? seq then
           modify (set_nxt (u32 (snd_nxt t + total)));;
           modify (set_tx_bytes (u64 (tcb_tx_bytes t + total)))
         else modify (set_rtx_bytes (u64 (tcb_rtx_bytes t + total))));;
        mret 0.

(** [net_timer_arm] of the retransmission timer when nothing is outstanding. *)
Definition arm_if_idle : C unit :=
  t ← get;
  whenM (snd_una t =? snd_nxt t)
    (now ← clock_get; modify (set_rtx (Some (u64 (now + tcb_rto t * 1000))))).

Definition tcp_send_syn (flags : Z) (recycle : bool) : C unit :=
  arm_if_idle;;
  modify (set_pending_syn flags);;
  t ← get;
  modify (set_nxt (u32 (snd_nxt t + 1)));;
  tcp_emit recycle (u32 (snd_nxt t + 1)) false;;
  mret tt.

Definition tcp_send_fin (flags : Z) : C unit :=
  arm_if_idle;;
  modify (set_pending_fin flags);;
  t ← get;
  modify (set_wrptr (u32 (snd_wrptr t + 1)));;
  tcp_emit false (snd_nxt t) false;;
  mret tt.

Definition arm_rtx (now : Z) : C unit :=
  t ← get;
  let ms := if negb (snd_una t =? snd_nxt t) then tcb_rto t else TCP_KEEPALIVE_INTERVAL in
  modify (set_rtx (Some (u64 (now + ms * 1000)))).

Definition tcp_ack (count : Z) : C unit :=
  if count =? 0 then mret tt
  else
    t ← get;
    modify (set_una (u32 (snd_una t + count)));;
    modify (set_pending_syn 0);;
    put_event WakeTx;;
    arm_rtx (tcb_last_rx t);;
    t ← get;
    whenM (negb (snd_wrptr t =? snd_nxt t)) (put_event (Raise TCP_EVENT_EMIT)).

(** ** Closing *)

Definition tcp_destroy : C unit :=
  t ← get;
  if negb (tcb_state t =? TCP_STATE_CLOSED) then mret tt
  else if negb (tcb_app_closed t) then mret tt
  else free_tcb.

Definition tcp_disarm_all_timers : C unit :=
  modify (set_rtx None);; modify (set_dack None);; modify (set_tw None).

Definition tcp_close : C unit :=
  tcp_disarm_all_timers;;
  set_linked false;;
  tcp_set_state TCP_STATE_CLOSED;;
  put_event WakeRx;; put_event WakeTx;;
  tcp_destroy.

Definition tcp_time_wait_cb (now : Z) : C unit := modify (set_tw None);; tcp_close.

Definition tcp_time_wait : C unit :=
  tcp_set_state TCP_STATE_TIME_WAIT;;
  tcp_disarm_all_timers;;
  now ← clock_get;
  modify (set_tw (Some (u64 (now + 5000000)))).

Definition tcp_delayed_ack_cb (now : Z) : C unit :=
  modify (set_dack None);;
  t ← get; tcp_emit false (snd_nxt t) true;; mret tt.

(** The timer is disarmed before its callback runs. *)
Definition tcp_rtx_cb (now : Z) : C unit :=
  modify (set_rtx None);;
  t ← get;
  if u64 (tcb_last_rx t + tcb_timo t) <? now then tcp_close
  else
    (if snd_una t =? snd_wrptr t then
       if tcb_state t =? TCP_STATE_ESTABLISHED then
         ok ← peek_net next_make;
         if ok : bool then
           tcp_output_tcb (Z.lor TCP_F_ACK TCP_F_PSH) (u32 (snd_una t - 1)) [[]];; mret tt
         else mret tt
       else mret tt
     else tcp_emit false (snd_una t) false;; mret tt);;
    arm_rtx now.

(** ** Connecting and the task *)

Definition key (t : tcb) : Z * Z * Z := (tcb_remote_addr t, tcb_remote_port t, tcb_local_port t).

(** [tcb_find] on the keys of a list of blocks: the position of the first match. *)
Fixpoint tcb_find (keys : list (Z * Z * Z)) (remote_addr remote_port local_port : Z) : option nat :=
  match keys with
  | [] => None
  | (a, p, l) :: rest =>
      if ((a =? remote_addr) && (p =? remote_port) && (l =? local_port))%bool then Some O
      else S <$> tcb_find rest remote_addr remote_port local_port
  end.

(** The search for a free port. *)
Fixpoint pick_port (fuel : nat) : C unit :=
  match fuel with
  | O => fail NoFuel
  | S f =>
      r ← peek_net next_rand;
      let local_port := u16 r in
      if local_port <? 1024 then pick_port f
      else
        let local_port := htons local_port in
        t ← get;
        peers ← get_peers;
        match tcb_find peers (tcb_remote_addr t) (tcb_remote_port t) local_port with
        | Some _ => pick_port f
        | None => modify (set_local_port local_port)
        end
  end.

Definition tcp_do_connect (fuel : nat) : C unit :=
  pick_port fuel;;
  now ← clock_get;
  modify (set_last_rx now);;
  tcp_send_syn TCP_F_SYN false;;
  set_linked true.

(** The loop of [tcp_task_cb] that drains the TX FIFO. *)
Fixpoint drain (fuel : nat) (force : bool) : C unit :=
  match fuel with
  | O => fail NoFuel
  | S f =>
      t ← get;
      if snd_wrptr t =? snd_nxt t then mret tt
      else
        let unsent := u32 (snd_wrptr t - snd_nxt t) in
        if wnd_room t =? 0 then mret tt
        else if (negb force && (unsent <? tcb_max_segment_size t)
                 && negb (snd_una t =? snd_nxt t))%bool then mret tt
        else
          err ← tcp_emit false (snd_nxt t) false;
          if negb (err =? 0) then mret tt else drain f force
  end.

Definition can_send (state : Z) : bool :=
  (state =? TCP_STATE_ESTABLISHED) || (state =? TCP_STATE_FIN_WAIT1) ||
  (state =? TCP_STATE_FIN_WAIT2) || (state =? TCP_STATE_CLOSE_WAIT) ||
  (state =? TCP_STATE_CLOSING).

(** [fuel] bounds the search for a port and the loop. *)
Definition tcp_task_cb (fuel : nat) (signals : Z) : C unit :=
  whenM (has signals TCP_EVENT_CONNECT) (tcp_do_connect fuel);;
  whenM (has signals TCP_EVENT_WND_OPEN)
    (t ← get;
     whenM (tcb_state t =? TCP_STATE_ESTABLISHED) (tcp_emit false (snd_nxt t) true;; mret tt));;
  whenM (has signals (Z.lor TCP_EVENT_EMIT TCP_EVENT_FLUSH))
    (t ← get;
     whenM (can_send (tcb_state t))
       (arm_if_idle;; drain fuel (has signals TCP_EVENT_FLUSH)));;
  whenM (has signals TCP_EVENT_CLOSE)
    (modify (set_app_closed true);;
     t ← get;
     (if ((tcb_state t =? TCP_STATE_ESTABLISHED) || (tcb_state t =? TCP_STATE_SYN_RECEIVED))%bool then
        tcp_set_state TCP_STATE_FIN_WAIT1;; tcp_send_fin (Z.lor TCP_F_FIN TCP_F_ACK)
      else if tcb_state t =? TCP_STATE_CLOSE_WAIT then
        tcp_set_state TCP_STATE_LAST_ACK;; tcp_send_fin (Z.lor TCP_F_FIN TCP_F_ACK)
      else mret tt);;
     tcp_destroy).

(** ** Replies without a connection *)

(** The answer to the received header [th], from the interface's address. *)
Definition tcp_reply (ni : netif) (th : tcp_hdr) (remote_addr seq ack flag rcv_wnd : Z) (n : net)
    : res (unit * net) :=
  let th := mk_th (th_dst_port th) (th_src_port th) seq ack 80 flag (Z.min rcv_wnd 65535) in
  '(_, n) ← tcp_output (mk_seg th [[]]) (ni_ipv4_local_addr ni) remote_addr n;
  Ret (tt, n).

Definition tcp_reject (ni : netif) (th : tcp_hdr) (remote_addr ack : Z) (n : net) : res (unit * net) :=
  tcp_reply ni th remote_addr 0 ack (Z.lor TCP_F_ACK TCP_F_RST) 0 n.

(** ** Options *)

Fixpoint tcp_parse_options (fuel : nat) (t : tcb) (buf : list Z) : res tcb :=
  match fuel with
  | O => Fault NoFuel
  | S f =>
      match buf with
      | [] => Ret t
      | b :: rest =>
          if b =? 0 then Ret t
          else if b =? 1 then tcp_parse_options f t rest
          else match rest with
          | [] => Ret t
          | optlen :: _ =>
              if Z.of_nat (length buf) <? optlen then Ret t
              else
                t ← (if b =? 2 then
                       v ← rd buf 2 2;
                       Ret (set_mss (byte_at v 1 + 256 * byte_at v 0) t)
                     else if b =? 3 then
                       Ret (if optlen =? 3 then set_wscale true (Z.min (byte_at buf 2) 14) t else t)
                     else Ret t);
                tcp_parse_options f t (drop (Z.to_nat optlen) buf)
          end
      end
  end.

(** ** The stream interface *)

Inductive out (A : Type) := Done (r : Z) | Sleep (left : A).
Arguments Done {A} _.
Arguments Sleep {A} _.

Definition tcb_rxfifo_user_bytes (t : tcb) : Z :=
  if tcb_state t =? TCP_STATE_CLOSED then ERR_NOT_CONNECTED
  else
    let used := tcb_rxfifo_used t in
    if tcb_fin_received t then if used <=? 1 then ERR_NOT_CONNECTED else used - 1
    else used.

Definition tcp_rxfifo_consume (bytes : Z) : C unit :=
  t ← get;
  modify (set_rdptr (u32 (rcv_rdptr t + bytes)));;
  if negb (rcv_window_closed t) then mret tt
  else
    t ← get;
    let thres := Z.max (tcb_rxfifo_size t / 2) (rcv_mss t * 2) in
    if tcb_rxfifo_avail t <? thres then mret tt
    else modify (set_window_closed false);; put_event (Raise TCP_EVENT_WND_OPEN).

(** A pass of [tcp_stream_read]: how it ends ([Sleep total]) and the bytes stored at
    [buf + total] and on.  Two rounds suffice: a round that copies takes all there is
    or fills the buffer. *)
Fixpoint read_loop (fuel : nat) (size require total : Z) : C (out Z * list Z) :=
  match fuel with
  | O => fail NoFuel
  | S f =>
      if size =? 0 then mret (Done total, [])
      else
        t ← get;
        let used := tcb_rxfifo_user_bytes t in
        if used <? 0 then mret (Done used, [])
        else if used =? 0 then
          if require <=? total then mret (Done total, []) else mret (Sleep total, [])
        else
          let to_copy := Z.min size used in
          bs ← lift (wtol_memcpy (tcb_buffer t) (tcb_rxfifo t) to_copy (rcv_rdptr t)
                       (tcb_rxfifo_size t));
          tcp_rxfifo_consume to_copy;;
          '(o, bs') ← read_loop f (size - to_copy) require (total + to_copy);
          mret (o, bs ++ bs')
  end.
Definition tcp_stream_read (size require total : Z) : C (out Z * list Z) :=
  read_loop 3 (size - total) require total.

(** The copy loop of one buffer of [tcp_stream_writev]: [inr] the bytes written when
    the loop is through, [inl] how the call ends or what is left of this buffer. *)
Fixpoint write_loop (fuel : nat) (buf : list Z) (flags written : Z)
    : C (out (list Z * Z) + Z) :=
  match fuel with
  | O => fail NoFuel
  | S f =>
      match buf with
      | [] => mret (inr written)
      | _ =>
          t ← get;
          let avail := tcb_txfifo_avail t in
          if avail =? 0 then
            if (has flags STREAM_WRITE_NO_WAIT || (tcb_state t =? TCP_STATE_CLOSED))%bool
            then mret (inl (Done written))
            else put_event (Raise TCP_EVENT_EMIT);; mret (inl (Sleep (buf, written)))
          else
            let to_copy := Z.min (Z.of_nat (length buf)) avail in
            m ← lift (ltow_memcpy (tcb_buffer t) 0 (take (Z.to_nat to_copy) buf) (snd_wrptr t)
                        (tcb_txfifo_size t));
            modify (set_buffer m);;
            modify (set_wrptr (u32 (snd_wrptr t + to_copy)));;
            write_loop f (drop (Z.to_nat to_copy) buf) flags (written + to_copy)
      end
  end.

(** The buffers of the vector from the current one on; [Sleep] has what is left. *)
Fixpoint writev_loop (iov : list (list Z)) (flags written : Z) : C (out (list (list Z) * Z)) :=
  match iov with
  | [] =>
      t ← get;
      let unsent := u32 (snd_wrptr t - snd_nxt t) in
      whenM ((tcb_max_segment_size t <=? unsent) || (snd_una t =? snd_nxt t))
        (put_event (Raise TCP_EVENT_EMIT));;
      mret (Done written)
  | buf :: rest =>
      r ← write_loop 3 buf flags written;
      match r with
      | inl (Done w) => mret (Done w)
      | inl (Sleep (buf, w)) => mret (Sleep (buf :: rest, w))
      | inr w => writev_loop rest flags w
      end
  end.

Definition iov_total (iov : list (list Z)) : Z := Z.of_nat (length (concat iov)).

Definition tcp_stream_writev (iov : list (list Z)) (flags : Z) : C (out (list (list Z) * Z)) :=
  t ← get;
  if tcb_state t =? TCP_STATE_CLOSED then mret (Done ERR_NOT_CONNECTED)
  else if (has flags STREAM_WRITE_ALL && (tcb_txfifo_avail t <? iov_total iov))%bool
  then mret (Done 0)
  else writev_loop iov flags 0.

(** [None] is [NULL]. *)
Definition tcp_stream_write (buf : option (list Z)) (flags : Z) : C (out (list (list Z) * Z)) :=
  match buf with
  | None => put_event (Raise TCP_EVENT_FLUSH);; mret (Done 0)
  | Some buf => tcp_stream_writev [buf] flags
  end.

Definition tcp_stream_close : C unit :=
  put_event (Raise TCP_EVENT_FLUSH);; put_event (Raise TCP_EVENT_CLOSE).

Inductive poll_type := POLL_STREAM_READ | POLL_STREAM_WRITE.
(** Whether the caller has to wait on the queue. *)
Definition tcp_stream_poll (type : poll_type) : C bool :=
  t ← get;
  match type with
  | POLL_STREAM_READ => mret (tcb_rxfifo_user_bytes t =? 0)
  | POLL_STREAM_WRITE => mret (tcb_txfifo_avail t =? 0)
  end.

(** What the call returns and the address in the buffer. *)
Definition tcp_stream_peek (wait : bool) : C (out unit * Z) :=
  t ← get;
  let used := tcb_rxfifo_user_bytes t in
  if ((used =? 0) && wait)%bool then mret (Sleep tt, 0)
  else if used <? 1 then mret (Done used, 0)
  else
    let offset := Z.land (rcv_rdptr t) (tcb_rxfifo_size t - 1) in
    mret (Done (if tcb_rxfifo_size t <? used + offset then tcb_rxfifo_size t - offset else used),
          tcb_rxfifo t + offset).

Definition tcp_stream_drop (bytes : Z) : C Z :=
  t ← get;
  let used := tcb_rxfifo_user_bytes t in
  if used <? 1 then mret used
  else if used <? bytes then fail Assert
  else tcp_rxfifo_consume bytes;; mret bytes.

(** [tcb_create] with initial sequence number [iss]; [fill] is what the allocator
    left in the buffer. *)
Definition tcb_create (iss txfifo_size rxfifo_size : Z) (fill : list Z) : tcb :=
  mk_tcb 0 false 0 0 false false 0 false 0
    (u32 (iss + 1)) (u32 iss) (u32 iss) 0 0 0 (u32 iss)
    0 0 1460 0 0 0 0 536 txfifo_size rxfifo_size None None None 250 0 0 0 0
    (TCP_TIMEOUT_HANDSHAKE * 1000) fill.

(** ** Input on a connection *)

(** The segment that arrived: its source address, header, header length, and the
    windows from the TCP header on. *)
Record input := mk_input {
  in_remote : Z;
  in_th : tcp_hdr;
  in_hdr_len : Z;
  in_pb : windows;
}.
Definition in_flag (i : input) : Z := th_flg (in_th i).
Definition in_seg_len (i : input) : Z :=
  u32 (pktlen (in_pb i) - in_hdr_len i +
       b2z (has (in_flag i) TCP_F_SYN) + b2z (has (in_flag i) TCP_F_FIN)).

(** Whether the caller gets the packet back ([Back]) or it was used up. *)
Inductive verdict := Back | Taken.

Section Input.
Context (ni : netif) (i : input).

Definition reply (seq ack flag rcv_wnd : Z) : C verdict :=
  on_net (tcp_reply ni (in_th i) (in_remote i) seq ack flag rcv_wnd);; mret Taken.

(** The part for [SYN_SENT]. *)
Definition input_syn_sent : C verdict :=
  t ← get;
  let flag := in_flag i in let ack := th_ack (in_th i) in let seq := th_seq (in_th i) in
  let una_ack := s32 (ack - snd_una t) in
  let ack_iss := s32 (ack - tcb_iss t) in
  let ack_nxt := s32 (ack - snd_nxt t) in
  if (has flag TCP_F_ACK && ((ack_iss <=? 0) || (0 <? ack_nxt)))%bool then
    if has flag TCP_F_RST then mret Back
    else reply (snd_nxt t) 0 TCP_F_RST 0
  else
    let ack_acceptance := (has flag TCP_F_ACK && (0 <? una_ack) && (0 <=? ack_nxt))%bool in
    if has flag TCP_F_RST then
      whenM ack_acceptance tcp_close;; mret Back
    else if has flag TCP_F_SYN then
      now ← clock_get;
      modify (set_last_rx now);;
      modify (set_rcv_nxt (u32 (seq + 1)));;
      modify (set_rdptr (u32 (seq + 1)));;
      whenM (has flag TCP_F_ACK) (tcp_ack una_ack);;
      t ← get;
      let una_iss := s32 (snd_una t - tcb_iss t) in
      modify (set_wnd (th_wnd (in_th i)) seq ack);;
      if 0 <? una_iss then
        modify (set_timo (TCP_TIMEOUT_INTERVAL * 1000));;
        tcp_set_state TCP_STATE_ESTABLISHED;;
        tcp_emit true (snd_nxt t) true;;
        mret Taken
      else
        tcp_send_syn (Z.lor TCP_F_SYN TCP_F_ACK) true;;
        tcp_set_state TCP_STATE_SYN_RECEIVED;;
        mret Taken
    else mret Back.

(** Step 1, the acceptance test. *)
Definition acceptable (t : tcb) : bool :=
  let nxt_seq := s32 (th_seq (in_th i) - rcv_nxt t) in
  let rcv_wnd := tcb_rxfifo_avail t in
  if in_seg_len i =? 0 then
    if rcv_wnd =? 0 then nxt_seq =? 0 else u32 nxt_seq <? u32 (rcv_nxt t + rcv_wnd)
  else if rcv_wnd =? 0 then false
  else nxt_seq =? 0.

(** Step 5 in the states that can send: the acknowledgement and the window; [Some]
    verdict when the segment is answered and done with. *)
Definition ack_open (una_ack ack_nxt scaled_wnd rcv_wnd : Z) : C (option verdict) :=
  let ack := th_ack (in_th i) in let seq := th_seq (in_th i) in
  if ((0 <=? una_ack) && (0 <=? ack_nxt))%bool then
    tcp_ack una_ack;;
    t ← get;
    let wl1_seq := s32 (seq - snd_wl1 t) in
    let wl2_ack := s32 (ack - snd_wl2 t) in
    whenM ((0 <? wl1_seq) || ((wl1_seq =? 0) && (0 <=? wl2_ack)))
      (modify (set_wnd scaled_wnd seq ack));;
    mret None
  else if una_ack <? 0 then mret None
  else if ack_nxt <? 0 then
    t ← get;
    v ← reply (snd_nxt t) (rcv_nxt t) TCP_F_ACK rcv_wnd; mret (Some v)
  else mret None.

(** ... and what it means for our FIN. *)
Definition ack_fin (ack_nxt : Z) : C (option verdict) :=
  t ← get;
  whenM (((tcb_state t =? TCP_STATE_FIN_WAIT1) || (tcb_state t =? TCP_STATE_CLOSING))
         && (ack_nxt =? 0)) (tcp_set_state TCP_STATE_FIN_WAIT2);;
  mret None.

Definition ack_both (una_ack ack_nxt scaled_wnd rcv_wnd : Z) : C (option verdict) :=
  r ← ack_open una_ack ack_nxt scaled_wnd rcv_wnd;
  match r with Some v => mret (Some v) | None => ack_fin ack_nxt end.

Definition input_ack (rcv_wnd : Z) : C (option verdict) :=
  t ← get;
  let ack := th_ack (in_th i) in let seq := th_seq (in_th i) in
  let una_ack := s32 (ack - snd_una t) in
  let ack_nxt := s32 (snd_nxt t - ack) in
  let scaled_wnd := u32 (Z.shiftl (th_wnd (in_th i)) (tcb_snd_wnd_shift t)) in
  let st := tcb_state t in
  if st =? TCP_STATE_SYN_RECEIVED then
    if ((0 <=? una_ack) && (ack_nxt <=? 0))%bool then
      modify (set_timo (TCP_TIMEOUT_INTERVAL * 1000));;
      tcp_set_state TCP_STATE_ESTABLISHED;;
      modify (set_wnd scaled_wnd seq ack);;
      ack_both una_ack ack_nxt scaled_wnd rcv_wnd
    else v ← reply (snd_nxt t) (rcv_nxt t) TCP_F_RST 0; mret (Some v)
  else if can_send st then ack_both una_ack ack_nxt scaled_wnd rcv_wnd
  else if st =? TCP_STATE_LAST_ACK then tcp_close;; mret None
  else mret None.

(** The copy of the payload into the RX FIFO, buffer by buffer. *)
Fixpoint copy_in (pb : windows) : C unit :=
  match pb with
  | [] => mret tt
  | w :: next =>
      t ← get;
      m ← lift (ltow_memcpy (tcb_buffer t) (tcb_rxfifo t) w (rcv_nxt t) (tcb_rxfifo_size t));
      modify (set_buffer m);;
      modify (set_rcv_nxt (u32 (rcv_nxt t + Z.of_nat (length w))));;
      copy_in next
  end.

(** Step 8 on the payload [pb]: whether the packet is still there. *)
Definition input_payload (pb : windows) : C bool :=
  t ← get;
  let st := tcb_state t in
  if ((st =? TCP_STATE_ESTABLISHED) || (st =? TCP_STATE_FIN_WAIT1) || (st =? TCP_STATE_FIN_WAIT2))%bool
  then
    if pktlen pb =? 0 then mret true
    else if pktlen pb <=? tcb_rxfifo_avail t then
      copy_in pb;;
      modify (set_rx_bytes (u64 (tcb_rx_bytes t + pktlen pb)));;
      put_event WakeRx;;
      t ← get;
      let closed := s32 (tcb_rxfifo_avail t) <? rcv_mss t in
      modify (set_window_closed closed);;
      if snd_wrptr t =? snd_nxt t then
        modify (set_dack None);;
        if (bool_decide (tcb_delayed_ack_timer t ≠ None) || closed)%bool then
          tcp_emit true (snd_nxt t) true;; mret false
        else
          modify (set_dack (Some (u64 (tcb_last_rx t + 20000))));; mret true
      else modify (set_dack (Some (u64 (tcb_last_rx t + 20000))));; mret true
    else mret true
  else mret true.

(** The FIN bit. *)
Definition input_fin (have_pb : bool) : C verdict :=
  t ← get;
  let st := tcb_state t in
  if ((st =? TCP_STATE_CLOSED) || (st =? TCP_STATE_LISTEN) || (st =? TCP_STATE_SYN_SENT))%bool
  then mret (if have_pb then Back else Taken)
  else
    modify (set_fin_received true);;
    put_event WakeRx;;
    modify (set_rcv_nxt (u32 (rcv_nxt t + 1)));;
    tcp_emit have_pb (snd_nxt t) true;;
    t ← get;
    let st := tcb_state t in
    (if ((st =? TCP_STATE_SYN_RECEIVED) || (st =? TCP_STATE_ESTABLISHED))%bool then
       tcp_set_state TCP_STATE_CLOSE_WAIT
     else if st =? TCP_STATE_FIN_WAIT1 then
       if th_ack (in_th i) =? snd_nxt t then tcp_time_wait
       else tcp_set_state TCP_STATE_CLOSING
     else if st =? TCP_STATE_FIN_WAIT2 then tcp_time_wait
     else mret tt);;
    mret Taken.

(** [tcp_input_ipv4] from where the block was found. *)
Definition tcp_input_tcb : C verdict :=
  t ← get;
  let flag := in_flag i in
  if tcb_state t =? TCP_STATE_SYN_SENT then input_syn_sent
  else
    let rcv_wnd := tcb_rxfifo_avail t in
    if negb (acceptable t) then
      if has flag TCP_F_RST then mret Back
      else if fast_reject_limiter t =? 5 then mret Back
      else
        modify (set_limiter (u8 (fast_reject_limiter t + 1)));;
        reply (snd_nxt t) (rcv_nxt t) TCP_F_ACK rcv_wnd
    else
      modify (set_limiter 0);;
      if has flag TCP_F_RST then tcp_close;; mret Back
      else if has flag TCP_F_SYN then reply (snd_nxt t) (rcv_nxt t) TCP_F_RST 0
      else if negb (has flag TCP_F_ACK) then mret Back
      else
        now ← clock_get;
        modify (set_last_rx now);;
        r ← input_ack rcv_wnd;
        match r with
        | Some v => mret v
        | None =>
            have_pb ← input_payload (win_drop (Z.to_nat (in_hdr_len i)) (in_pb i));
            if has flag TCP_F_FIN then input_fin have_pb
            else mret (if have_pb : bool then Back else Taken)
        end.
End Input.

(** ** All connections *)

(** The blocks by address, and the list [tcbs]. *)
Record world := mk_world {
  tcbs : list Z;
  store_ : gmap Z tcb;
  w_next : Z;
  w_net : net;
}.

(** What [tcp_input_ipv4] uses of a service: the logarithms of its FIFO sizes and
    what [open_stream] returns ([None]: not a stream service). *)
Record service := mk_service {
  txfifo_size_log2 : Z;
  rxfifo_size_log2 : Z;
  open_stream : option Z;
}.

Definition keys_of (w : world) (l : list Z) : list (Z * Z * Z) :=
  omap (λ h, key <$> store_ w !! h) l.

(** An operation on the block at [h]. *)
Definition run {A} (h : Z) (m : C A) (w : world) : res (A * world) :=
  let linked := bool_decide (h ∈ tcbs w) in
  let others := filter (λ x, x ≠ h) (tcbs w) in
  '(a, c) ← m (mk_conn (store_ w !! h) linked (keys_of w others) (w_net w));
  let list := if c_linked c then if linked then tcbs w else h :: tcbs w else others in
  Ret (a, mk_world list (partial_alter (λ _, c_tcb c) h (store_ w)) (w_next w) (c_net c)).

Definition with_net {A} (f : net → res (A * net)) (w : world) : res (A * world) :=
  '(a, n) ← f (w_net w); Ret (a, mk_world (tcbs w) (store_ w) (w_next w) n).

(** A new block; [None] when there is no memory. *)
Definition new_tcb (txfifo_size rxfifo_size : Z) (w : world) : option Z * world :=
  let '(mem, n) := next_xalloc (w_net w) in
  let w := mk_world (tcbs w) (store_ w) (w_next w) n in
  if mem then
    let '(iss, n) := next_rand (w_net w) in
    let t := tcb_create iss txfifo_size rxfifo_size
               (replicate (Z.to_nat (txfifo_size + rxfifo_size)) 0) in
    (Some (w_next w), mk_world (tcbs w) (<[w_next w := t]> (store_ w)) (w_next w + 1) n)
  else (None, w).

Section World.
Context (service_find_by_ip_port : Z → option service).

Definition fifo_size (log2 dflt : Z) : Z := if log2 =? 0 then dflt else Z.shiftl 1 log2.

Definition init_tcb (ni : netif) (i : input) (t : tcb) : tcb :=
  let th := in_th i in
  let t := set_local (ni_ipv4_local_addr ni) (th_dst_port th) t in
  let t := set_remote (in_remote i) (th_src_port th) t in
  set_rdptr (u32 (th_seq th + 1)) (set_rcv_nxt (u32 (th_seq th + 1)) t).

(** A SYN to a port: the passive open. *)
Definition tcp_input_listen (fuel : nat) (ni : netif) (i : input) (w : world) : res (verdict * world) :=
  let th := in_th i in
  let flag := in_flag i in
  let seg_len := in_seg_len i in
  let taken (r : res (unit * world)) : res (verdict * world) := '(_, w) ← r; Ret (Taken, w) in
  if negb (flag =? TCP_F_SYN) then
    if has flag TCP_F_RST then Ret (Back, w)
    else if has flag TCP_F_ACK then
      taken (with_net (tcp_reply ni th (in_remote i) (th_ack th) 0 TCP_F_RST 0) w)
    else taken (with_net (tcp_reply ni th (in_remote i) 0 (u32 (th_seq th + seg_len))
                            (Z.lor TCP_F_RST TCP_F_ACK) 0) w)
  else if th_dst_port th =? 0 then Ret (Back, w)
  else
    let reject := λ w, taken (with_net (tcp_reject ni th (in_remote i) (u32 (th_seq th + 1))) w) in
    match service_find_by_ip_port (htons (th_dst_port th)) with
    | None => reject w
    | Some svc =>
        match open_stream svc with
        | None => reject w
        | Some err =>
            let '(h, w) := new_tcb (fifo_size (txfifo_size_log2 svc) 4096)
                             (fifo_size (rxfifo_size_log2 svc) 2048) w in
            match h with
            | None => reject w
            | Some h =>
                '(_, w) ← run h (modify (init_tcb ni i)) w;
                let '(missing, pb) := win_pullup (Z.to_nat (in_hdr_len i)) (in_pb i) in
                '(_, w) ← run h (t ← get;
                                 if missing =? 0 then
                                   t ← lift (tcp_parse_options fuel t
                                           (take (Z.to_nat (in_hdr_len i - 20)) (drop 20 (first pb))));
                                   modify (λ _, t)
                                 else mret tt) w;
                if negb (err =? 0) then
                  '(_, w) ← run h free_tcb w; reject w
                else
                  taken (run h (tcp_send_syn (Z.lor TCP_F_SYN TCP_F_ACK) true;;
                                tcp_set_state TCP_STATE_SYN_RECEIVED;;
                                set_linked true) w)
            end
        end
    end.

Definition rd_be32 (w : list Z) (i : nat) : Z := htonl (ld32 w i).

Definition parse_th (w : list Z) : tcp_hdr :=
  mk_th (ld16 w 0) (ld16 w 2) (rd_be32 w 4) (rd_be32 w 8) (byte_at w 12) (byte_at w 13) (htons (ld16 w 14)).

(** [fuel] bounds the option parser. *)
Definition tcp_input_ipv4 (fuel : nat) (ni : netif) (pb : windows) (tcp_offset : Z) (w : world)
    : res (verdict * world) :=
  let dst_addr := ld32 (first pb) 16 in
  if negb (dst_addr =? ni_ipv4_local_addr ni) then Ret (Back, w)
  else
    let remote_addr := ld32 (first pb) 12 in
    let pb := win_drop (Z.to_nat tcp_offset) pb in
    let '(missing, pb) := win_pullup 20 pb in
    if negb (missing =? 0) then Ret (Back, w)
    else
      let th := parse_th (first pb) in
      let hdr_len := Z.shiftr (Z.land (th_off th) 240) 2 in
      if ((pktlen pb <? hdr_len) || (hdr_len <? 20))%bool then Ret (Back, w)
      else
        let i := mk_input remote_addr th hdr_len pb in
        match tcb_find (keys_of w (tcbs w)) remote_addr (th_src_port th) (th_dst_port th) with
        | None => tcp_input_listen fuel ni i w
        | Some k =>
            match tcbs w !! k with
            | None => Fault OutOfBounds
            | Some h => run h (tcp_input_tcb ni i) w
            end
        end.
End World.

Definition round_down_pow2 (x : Z) : Z := if x =? 0 then 0 else Z.shiftl 1 (Z.log2 x).

Definition tcp_create_socket (txfifo_size rxfifo_size : Z) (w : world) : option Z * world :=
  new_tcb (Z.max (round_down_pow2 (u32 txfifo_size)) 2048)
    (Z.max (round_down_pow2 (u32 rxfifo_size)) 2048) w.

Definition tcp_connect (dst_addr dst_port : Z) : C unit :=
  tcp_set_state TCP_STATE_SYN_SENT;;
  modify (set_remote dst_addr (htons dst_port));;
  put_event (Raise TCP_EVENT_CONNECT).

(** [~port], stored to 16 bits. *)
Definition cmd_killtcp (w : world) : world :=
  mk_world (tcbs w)
    (foldr (λ h m, alter (λ t, set_local_port (Z.lxor (tcb_local_port t) 65535) t) h m) (store_ w) (tcbs w))
    (w_next w) (w_net w).
