(* ===== verification/TcpInv.v ===== *)
(** * TcpInv: the invariant of a TCP connection ([src/net/ipv4/tcp.c])

    [wp] is the total-correctness reading of the operations of [Tcp]: the operation
    returns, and its result satisfies the postcondition.  [tcb_ok] relates a block to
    the bytes the application wrote and the bytes the peer's segments delivered; every
    operation keeps it, against arbitrary input segments within stated limits, and
    every segment sent carries the written bytes at their sequence numbers. *)

From Stdlib Require Import ZArith Lia.
From stdpp Require Import base list numbers gmap.
From S2P Require Import Prelude Ipv4 Tcp.

Open Scope Z_scope.

(** ** Total correctness *)

Definition wp {A} (m : C A) (Q : A → conn → Prop) (c : conn) : Prop :=
  ∃ a c', m c = Ret (a, c') ∧ Q a c'.

Lemma wp_ret {A} (a : A) (Q : A → conn → Prop) c : Q a c → wp (mret a) Q c.
Proof. intros. by exists a, c. Qed.

Lemma wp_bind {A B} (m : C A) (k : A → C B) Q c :
  wp m (λ a c, wp (k a) Q c) c → wp (m ≫= k) Q c.
Proof.
  intros (a & c' & E & b & c'' & E' & H). exists b, c''. split; [|done].
  unfold mbind, C_bind. by rewrite E.
Qed.

Lemma wp_mono {A} (m : C A) (Q Q' : A → conn → Prop) c :
  wp m Q c → (∀ a c', Q a c' → Q' a c') → wp m Q' c.
Proof. intros (a & c' & E & H) Hi. exists a, c'. eauto. Qed.

Abbreviation live t l p n := (mk_conn (Some t) l p n).

Lemma wp_get Q t l p n : Q t (live t l p n) → wp get Q (live t l p n).
Proof. intros. by exists t, (live t l p n). Qed.

Lemma wp_modify f Q t l p n : Q tt (live (f t) l p n) → wp (modify f) Q (live t l p n).
Proof. intros. by exists tt, (live (f t) l p n). Qed.

Lemma wp_event e Q t l p n :
  Q tt (live t l p (emit_event e n)) → wp (put_event e) Q (live t l p n).
Proof. intros. by exists tt, (live t l p (emit_event e n)). Qed.

Lemma wp_clock Q t l p n : Q (n_now n) (live t l p n) → wp clock_get Q (live t l p n).
Proof. intros. by exists (n_now n), (live t l p n). Qed.

Lemma wp_linked b Q t l p n : Q tt (live t b p n) → wp (set_linked b) Q (live t l p n).
Proof. intros. by exists tt, (live t b p n). Qed.

Lemma wp_when_false m Q c : Q tt c → wp (whenM false m) Q c.
Proof. apply wp_ret. Qed.

Lemma wp_lift {A} (r : res A) a (Q : A → conn → Prop) c : r = Ret a → Q a c → wp (lift r) Q c.
Proof. intros -> HQ. by exists a, c. Qed.

(** One step of an operation. *)
Ltac wp_step :=
  lazymatch goal with
  | |- wp (mbind _ _) _ _ => apply wp_bind
  | |- wp (mret _) _ _ => apply wp_ret
  | |- wp get _ _ => apply wp_get
  | |- wp (modify _) _ _ => apply wp_modify
  | |- wp (put_event _) _ _ => apply wp_event
  | |- wp clock_get _ _ => apply wp_clock
  | |- wp (set_linked _) _ _ => apply wp_linked
  end; cbv beta.
Ltac wp_steps := repeat wp_step.

(** ** Rings *)

Definition pow2 (size : Z) : Prop := ∃ p, 0 <= p <= 30 ∧ size = 2 ^ p.

Lemma pow2_pos size : pow2 size → 1 <= size <= 1073741824.
Proof.
  intros (p & Hp & ->). split; [apply (Z.pow_le_mono_r 2 0 p); lia|].
  apply (Z.pow_le_mono_r 2 p 30); lia.
Qed.

Lemma pow2_mask size z : pow2 size → Z.land z (size - 1) = z mod size.
Proof. intros (p & Hp & ->). apply land_ones_mod. lia. Qed.

Lemma pow2_u32 size z : pow2 size → u32 z mod size = z mod size.
Proof.
  intros (p & Hp & ->). unfold u32. change 4294967296 with (2 ^ 32).
  replace (2 ^ 32) with (2 ^ (32 - p) * 2 ^ p) by (rewrite <- Z.pow_add_r by lia; f_equal; lia).
  assert (0 < 2 ^ p) by (apply Z.pow_pos_nonneg; lia).
  assert (0 < 2 ^ (32 - p)) by (apply Z.pow_pos_nonneg; lia).
  rewrite (Z.mul_comm (2 ^ (32 - p))), Z.rem_mul_r by lia.
  rewrite Z.mul_comm, Z_mod_plus_full. apply Z.mod_mod. lia.
Qed.

Lemma wr_lookup m off bs m' (j : Z) :
  wr m off bs = Ret m' → 0 <= j →
  m' !! Z.to_nat j = if decide (off <= j < off + Z.of_nat (length bs))
                     then bs !! Z.to_nat (j - off) else m !! Z.to_nat j.
Proof.
  unfold wr. destruct (_ && _)%bool eqn:E; [|done]. bool_to_prop. intros [= <-] Hj.
  case_decide.
  - rewrite lookup_app_r, lookup_app_l; rewrite ?length_take; try lia. f_equal. lia.
  - destruct (decide (j < off)).
    + rewrite lookup_app_l, lookup_take_lt; rewrite ?length_take; (done || lia).
    + rewrite lookup_app_r, lookup_app_r, lookup_drop; rewrite ?length_take; try lia. f_equal. lia.
Qed.

(** The FIFO at [base] holds [bs] from sequence number [s] on. *)
Definition holds (buf : list Z) (base size s : Z) (bs : list Z) : Prop :=
  ∀ i, 0 <= i < Z.of_nat (length bs) →
    buf !! Z.to_nat (base + (s + i) mod size) = bs !! Z.to_nat i.

Lemma rd_holds buf base o len bs :
  0 <= base → 0 <= o → len = Z.of_nat (length bs) → base + o + len <= Z.of_nat (length buf) →
  (∀ i, 0 <= i < len → buf !! Z.to_nat (base + o + i) = bs !! Z.to_nat i) →
  rd buf (base + o) len = Ret bs.
Proof.
  intros Hb Ho -> Hl H. rewrite rd_ok by lia. f_equal. apply list_eq. intros i.
  destruct (decide (i < length bs)%nat) as [Hi|Hi].
  - rewrite lookup_take_lt, lookup_drop by lia. specialize (H (Z.of_nat i) ltac:(lia)).
    rewrite Nat2Z.id in H. rewrite <- H. f_equal. lia.
  - rewrite !lookup_ge_None_2; [done|lia|rewrite length_take; lia].
Qed.

(** Reading back what the FIFO holds, when it is less than the whole FIFO or starts at
    its beginning. *)
Lemma wtol_ok buf base size s bs :
  pow2 size → 0 <= base → base + size <= Z.of_nat (length buf) →
  (Z.of_nat (length bs) < size ∨ (Z.of_nat (length bs) = size ∧ s mod size = 0)) →
  holds buf base size s bs →
  wtol_memcpy buf base (Z.of_nat (length bs)) s size = Ret bs.
Proof.
  intros Hp Hb Hl Hlen H. pose proof (pow2_pos _ Hp) as Hpos. unfold wtol_memcpy.
  set (len := Z.of_nat (length bs)) in *. rewrite !pow2_mask, pow2_u32 by done.
  pose proof (Z.mod_pos_bound s size ltac:(lia)) as Ho. set (o := s mod size) in *.
  assert (∀ i, 0 <= i < len → (s + i) mod size = if decide (o + i < size) then o + i else o + i - size) as Hmod.
  { intros i Hi. rewrite <- Zplus_mod_idemp_l. fold o. case_decide; [by rewrite Z.mod_small by lia|].
    replace (o + i) with (o + i - size + 1 * size) by lia. rewrite Z_mod_plus_full, Z.mod_small by lia. lia. }
  destruct (decide (o + len < size)) as [Hc|Hc].
  { rewrite (Z.mod_small (o + len)), (proj2 (Z.leb_le _ _)) by lia.
    apply rd_holds; try lia. intros i Hi. rewrite <- H by lia. rewrite Hmod, decide_True by lia. f_equal. lia. }
  assert ((o + len) mod size = o + len - size) as ->.
  { replace (o + len) with (o + len - size + 1 * size) by lia. rewrite Z_mod_plus_full, Z.mod_small by lia. lia. }
  destruct (Z.leb_spec o (o + len - size)) as [Hle|Hgt].
  { apply rd_holds; try lia. intros i Hi. rewrite <- H by lia. rewrite Hmod, decide_True by lia. f_equal. lia. }
  rewrite <- (take_drop (Z.to_nat (size - o)) bs).
  assert (rd buf (base + o) (size - o) = Ret (take (Z.to_nat (size - o)) bs)) as ->.
  { apply rd_holds; rewrite ?length_take; try lia. intros i Hi. rewrite lookup_take_lt, <- H by lia.
    rewrite Hmod, decide_True by lia. f_equal. lia. }
  assert (rd buf base (o + len - size) = Ret (drop (Z.to_nat (size - o)) bs)) as ->.
  { rewrite <- (Z.add_0_r base) at 1. apply rd_holds; rewrite ?length_drop; try lia. intros i Hi.
    rewrite lookup_drop. replace (Z.to_nat (size - o) + Z.to_nat i)%nat with (Z.to_nat (size - o + i)) by lia.
    rewrite <- H by lia. rewrite Hmod, decide_False by lia. f_equal. lia. }
  done.
Qed.

(** Storing to the FIFO changes just the slots of the bytes stored. *)
Lemma ltow_ok buf base size s src :
  pow2 size → 0 <= base → base + size <= Z.of_nat (length buf) →
  (Z.of_nat (length src) < size ∨ (Z.of_nat (length src) = size ∧ s mod size = 0)) →
  ∃ m, ltow_memcpy buf base src s size = Ret m ∧ length m = length buf ∧
    ∀ j, 0 <= j → m !! Z.to_nat j =
      if decide (base <= j < base + size ∧ (j - base - s) mod size < Z.of_nat (length src))
      then src !! Z.to_nat ((j - base - s) mod size) else buf !! Z.to_nat j.
Proof.
  intros Hp Hb Hl Hlen. pose proof (pow2_pos _ Hp) as Hpos. unfold ltow_memcpy.
  set (len := Z.of_nat (length src)) in *. rewrite !pow2_mask, pow2_u32 by done.
  pose proof (Z.mod_pos_bound s size ltac:(lia)) as Ho.
  assert (∀ k, 0 <= k < size → (k - s) mod size = if decide (s mod size <= k) then k - s mod size else k - s mod size + size) as Hmod.
  { intros k Hk. rewrite <- Zminus_mod_idemp_r. case_decide; [by rewrite Z.mod_small by lia|].
    rewrite <- (Z_mod_plus_full (k - s mod size) 1 size), Z.mod_small by lia. lia. }
  set (o := s mod size) in *.
  assert ((o + len) mod size = if decide (o + len < size) then o + len else o + len - size) as Hend.
  { case_decide; [by rewrite Z.mod_small by lia|].
    replace (o + len) with (o + len - size + 1 * size) by lia. rewrite Z_mod_plus_full, Z.mod_small by lia. lia. }
  destruct (Z.leb_spec o ((o + len) mod size)) as [Hle|Hgt].
  - assert (o + len <= size ∧ (o = 0 ∨ o + len < size)) by (rewrite Hend in Hle; case_decide; lia).
    destruct (wr buf (base + o) src) as [m|] eqn:E; [|rewrite wr_ok in E by lia; done].
    exists m. split; [done|]. split; [by apply wr_length in E|]. intros j Hj.
    rewrite (wr_lookup _ _ _ _ _ E) by lia. fold len.
    destruct (decide (base <= j < base + size)) as [Hin|Hin].
    + rewrite Hmod by lia. repeat case_decide; first [lia | done | f_equal; lia].
    + rewrite !decide_False by lia. done.
  - rewrite Hend in *. case_decide; [lia|].
    destruct (wr buf (base + o) (take (Z.to_nat (size - o)) src)) as [m1|] eqn:E1;
      [|rewrite wr_ok in E1 by (rewrite ?length_take; lia); done].
    cbn [mbind res_bind]. rewrite rd_ok by lia. cbn [mbind res_bind].
    rewrite take_ge by (rewrite length_drop; lia).
    pose proof (wr_length _ _ _ _ E1) as Hl1.
    destruct (wr m1 base (drop (Z.to_nat (size - o)) src)) as [m|] eqn:E2;
      [|rewrite wr_ok in E2 by (rewrite ?length_drop; lia); done].
    exists m. split; [done|]. split; [apply wr_length in E2; lia|]. intros j Hj.
    rewrite (wr_lookup _ _ _ _ _ E2), length_drop by lia.
    rewrite (wr_lookup _ _ _ _ _ E1), length_take by lia.
    destruct (decide (base <= j < base + size)) as [Hin|Hin].
    + rewrite Hmod by lia. repeat case_decide;
        first [lia | done | rewrite lookup_drop; f_equal; lia | rewrite lookup_take_lt by lia; f_equal; lia].
    + rewrite !decide_False by lia. done.
Qed.

Lemma holds_u32 buf base size s bs :
  pow2 size → holds buf base size s bs → holds buf base size (u32 s) bs.
Proof.
  intros Hp H i Hi. rewrite <- H by done. do 3 f_equal.
  pose proof (pow2_pos _ Hp). rewrite <- Zplus_mod_idemp_l, pow2_u32 by done. apply Zplus_mod_idemp_l.
Qed.

Lemma holds_sub buf base size s bs k n :
  0 <= k → holds buf base size s bs → holds buf base size (s + k) (take n (drop (Z.to_nat k) bs)).
Proof.
  intros Hk H i Hi. rewrite length_take, length_drop in Hi.
  rewrite lookup_take_lt, lookup_drop by lia.
  replace (Z.to_nat k + Z.to_nat i)%nat with (Z.to_nat (k + i)) by lia.
  rewrite <- H by lia. by rewrite Z.add_assoc.
Qed.

Lemma holds_drop buf base size s bs k :
  0 <= k → holds buf base size s bs → holds buf base size (s + k) (drop (Z.to_nat k) bs).
Proof. intros Hk H. rewrite <- (take_ge (drop _ bs) (length bs)) by (rewrite length_drop; lia). by apply holds_sub. Qed.

(** Appending to what the FIFO holds. *)
Lemma ltow_holds buf base size s bs src :
  pow2 size → 0 <= base → base + size <= Z.of_nat (length buf) →
  Z.of_nat (length bs) + Z.of_nat (length src) <= size →
  (Z.of_nat (length src) < size ∨ (s + Z.of_nat (length bs)) mod size = 0) →
  holds buf base size s bs →
  ∃ m, ltow_memcpy buf base src (u32 (s + Z.of_nat (length bs))) size = Ret m ∧ length m = length buf ∧
    holds m base size s (bs ++ src) ∧
    (∀ j, 0 <= j → j < base ∨ base + size <= j → m !! Z.to_nat j = buf !! Z.to_nat j).
Proof.
  intros Hp Hb Hl Hfit Hal H. pose proof (pow2_pos _ Hp) as Hpos.
  destruct (ltow_ok buf base size (u32 (s + Z.of_nat (length bs))) src Hp Hb Hl) as (m & E & Hlm & Hm).
  { rewrite pow2_u32 by done. lia. }
  exists m. split; [done|]. split; [done|]. split.
  - intros i Hi. rewrite length_app in Hi.
    pose proof (Z.mod_pos_bound (s + i) size ltac:(lia)) as Hr. rewrite Hm by lia.
    set (j := (s + i) mod size) in *.
    assert ((base + j - base - u32 (s + Z.of_nat (length bs))) mod size =
            (i - Z.of_nat (length bs)) mod size) as Ej.
    { replace (base + j - base) with j by lia. subst j.
      rewrite <- (Zminus_mod_idemp_r _ (u32 _)), pow2_u32 by done.
      rewrite Zminus_mod_idemp_r, Zminus_mod_idemp_l. f_equal. lia. }
    rewrite Ej. destruct (decide (i < Z.of_nat (length bs))) as [Hi'|Hi'].
    + rewrite lookup_app_l by lia.
      assert ((i - Z.of_nat (length bs)) mod size = i - Z.of_nat (length bs) + size) as ->.
      { rewrite <- (Z_mod_plus_full _ 1 size), Z.mod_small by lia. lia. }
      rewrite decide_False by lia. rewrite <- H by lia. done.
    + rewrite Z.mod_small by lia. rewrite decide_True by lia.
      rewrite lookup_app_r by lia. f_equal. lia.
  - intros j Hj Hout. rewrite Hm by done. by rewrite decide_False by lia.
Qed.

Lemma holds_frame buf m base size s bs :
  1 <= size → 0 <= base → (∀ j, base <= j < base + size → m !! Z.to_nat j = buf !! Z.to_nat j) →
  holds buf base size s bs → holds m base size s bs.
Proof.
  intros Hs Hb Hf H i Hi. pose proof (Z.mod_pos_bound (s + i) size ltac:(lia)).
  rewrite Hf by lia. by apply H.
Qed.

(** ** Surroundings *)

(** The routes point to interfaces, and every segment sent so far satisfies [P]. *)
Definition net_ok (P : segment → Prop) (n : net) : Prop :=
  routes_ok (n_routes n) ∧ ∀ s l r pkt, Sent s l r pkt ∈ n_out n → P s.

Lemma net_ok_mono (P P' : segment → Prop) n : (∀ s, P s → P' s) → net_ok P n → net_ok P' n.
Proof. intros H [? Hs]. split; [done|]. eauto. Qed.

Lemma net_ok_next P n : net_ok P n →
  net_ok P (snd (next_make n)) ∧ net_ok P (snd (next_rand n)) ∧ net_ok P (snd (next_err n)) ∧
  net_ok P (snd (next_xalloc n)).
Proof. done. Qed.

Lemma net_ok_event P n e :
  net_ok P n → (∀ s l r pkt, e = Sent s l r pkt → P s) → net_ok P (emit_event e n).
Proof.
  intros [Hr Hs] He. split; [done|]. intros s l r pkt. cbn.
  rewrite elem_of_app, list_elem_of_singleton. intros [?|<-]; eauto.
Qed.

Lemma cksum_add_u32 bs sum : is_u32 sum → is_u32 (ipv4_cksum_add sum bs).
Proof. intros. rewrite cksum_add_spec by done. auto with mios. Qed.

Lemma cksum_total sum c off len : is_u32 sum → ∃ r, ipv4_cksum_pbuf sum c off len = Ret r.
Proof.
  intros Hs. unfold ipv4_cksum_pbuf.
  assert (is_u32 (cksum_loop sum c off len)) as Hl.
  { revert sum off len Hs. induction c as [|w c IH]; intros sum off len Hs; cbn [cksum_loop]; [done|].
    repeat case_match; [done|by apply IH|]. apply IH. by apply cksum_add_u32. }
  rewrite cksum_fold_spec by done. cbn. eauto.
Qed.

(** Sending a segment always returns, and records it at most once. *)
Lemma tcp_output_ok P s l r n :
  net_ok P n → P s → ∃ err n', tcp_output s l r n = Ret (err, n') ∧ net_ok P n' ∧ n_now n' = n_now n.
Proof.
  intros Hn Hs. unfold tcp_output. destruct (next_xalloc n) as [mem n0] eqn:E0.
  assert (net_ok P n0 ∧ n_now n0 = n_now n) as [Hn0 Hnow] by (unfold next_xalloc in E0; by simplify_eq/=).
  destruct (ipv4_nexthop_resolve mem (n_routes n0) r) as [nh r'] eqn:Er.
  apply resolve_ok in Er as (Hr' & _ & Hlt); [|apply Hn0].
  assert (net_ok P (set_routes r' n0)) as Hn1 by (split; [done|apply Hn0]).
  destruct nh as [nh|]; [|by eexists _, _].
  destruct (lookup_lt_is_Some_2 _ _ (Hlt _ eq_refl)) as [ni ->].
  set (la := if l =? 0 then _ else _). set (pb := on_first _ (seg_data s)).
  assert (∃ pb1, (if has (ni_flags ni) NETIF_F_TX_TCP_CKSUM_OFFLOAD then Ret pb
    else c ← ipv4_cksum_pbuf (ipv4_cksum_pseudo la r IPPROTO_TCP (pktlen pb)) pb 0 (pktlen pb);
         Ret (on_first (store 16 (le16 c)) pb)) = Ret pb1) as [pb1 ->].
  { destruct (has _ _); [eauto|].
    destruct (cksum_total (ipv4_cksum_pseudo la r IPPROTO_TCP (pktlen pb)) pb 0 (pktlen pb)) as [c ->].
    { by apply cksum_add_u32. } cbn. eauto. }
  cbn [mbind res_bind]. destruct (next_rand _) as [id n2] eqn:E2.
  assert (net_ok P n2 ∧ n_now n2 = n_now n) as [Hn2 Hnow2] by (unfold next_rand in E2; by simplify_eq/=).
  set (pb2 := on_first _ pb1).
  assert (∃ pb3, (if has (ni_flags ni) NETIF_F_TX_IPV4_CKSUM_OFFLOAD then Ret pb2
    else c ← ipv4_cksum_pbuf 0 pb2 0 20; Ret (on_first (store 10 (le16 c)) pb2)) = Ret pb3) as [pb3 ->].
  { destruct (has _ _); [eauto|]. destruct (cksum_total 0 pb2 0 20) as [c ->]; [done|]. cbn. eauto. }
  cbn [mbind res_bind]. destruct (next_err n2) as [err n3] eqn:E3.
  eexists _, _. split; [reflexivity|]. unfold next_err in E3. simplify_eq/=. split; [|done].
  apply net_ok_event; [apply Hn2|]. by intros ? ? ? ? [= <- _ _ _].
Qed.

(** ** The invariant *)

(** Our FIN takes a sequence number once it is pending. *)
Definition fin_slot (t : tcb) : Z := if tcb_pending_fin t =? 0 then 0 else 1.

Record shape (t : tcb) : Prop := {
  sh_tx : pow2 (tcb_txfifo_size t);
  sh_rx : pow2 (tcb_rxfifo_size t);
  sh_tx_min : 1024 <= tcb_txfifo_size t;
  sh_rx_min : 1024 <= tcb_rxfifo_size t;
  sh_buf : Z.of_nat (length (tcb_buffer t)) = tcb_txfifo_size t + tcb_rxfifo_size t;
  sh_wnd : 0 <= snd_wnd t;
}.

(** The send side, for the bytes [W] written so far: [a] and [n] count the sequence
    numbers acknowledged and sent since the initial one, the SYN being the first. *)
Record tx_ok (W : list Z) (a n : Z) (t : tcb) : Prop := {
  tx_una : snd_una t = u32 (tcb_iss t + a);
  tx_nxt : snd_nxt t = u32 (tcb_iss t + n);
  tx_wrptr : snd_wrptr t = u32 (tcb_iss t + 1 + Z.of_nat (length W) + fin_slot t);
  tx_order : 0 <= a <= n ∧ n <= 1 + Z.of_nat (length W) + fin_slot t;
  tx_fits : 1 + Z.of_nat (length W) - a <= tcb_txfifo_size t;
  tx_acked : tcb_pending_syn t = 0 → 1 <= a;
  tx_syn : tcb_pending_syn t ≠ 0 → a = 0 ∧ n = 1 ∧ snd_wnd t = 0;
  tx_flags : tcb_pending_syn t ∈ [0; 2; 18] ∧ tcb_pending_fin t ∈ [0; 17];
  tx_ring : holds (tcb_buffer t) 0 (tcb_txfifo_size t) (tcb_iss t + Z.max a 1)
              (drop (Z.to_nat (Z.max a 1 - 1)) W);
}.

(** The receive side, for the bytes [R] delivered so far of which [d] were read; [irs] is
    the peer's initial sequence number. *)
Record rx_ok (irs : Z) (R : list Z) (d : Z) (t : tcb) : Prop := {
  rx_nxt : rcv_nxt t = u32 (irs + 1 + Z.of_nat (length R) + b2z (tcb_fin_received t));
  rx_rdptr : rcv_rdptr t = u32 (irs + 1 + d);
  rx_order : 0 <= d <= Z.of_nat (length R);
  rx_fits : Z.of_nat (length R) - d <= tcb_rxfifo_size t;
  rx_ring : holds (tcb_buffer t) (tcb_txfifo_size t) (tcb_rxfifo_size t) (irs + 1 + d)
              (drop (Z.to_nat d) R);
}.

(** What the connection state implies. *)
Record st_ok (R : list Z) (t : tcb) : Prop := {
  st_fin : tcb_state t ∈ [TCP_STATE_SYN_SENT; TCP_STATE_SYN_RECEIVED; TCP_STATE_ESTABLISHED;
                          TCP_STATE_CLOSE_WAIT] → tcb_pending_fin t = 0;
  st_rcvd : tcb_state t = TCP_STATE_SYN_RECEIVED → tcb_pending_syn t ≠ 0;
  st_sent : tcb_state t = TCP_STATE_SYN_SENT → tcb_pending_syn t = TCP_F_SYN;
  st_active : tcb_pending_syn t = TCP_F_SYN →
    (tcb_state t = TCP_STATE_SYN_SENT ∨ tcb_state t = TCP_STATE_CLOSED) ∧ R = [] ∧
    tcb_fin_received t = false;
}.

Definition tcb_ok (W : list Z) (irs : Z) (R : list Z) (t : tcb) : Prop :=
  shape t ∧ (∃ a n, tx_ok W a n t) ∧ (∃ d, rx_ok irs R d t) ∧ st_ok R t.

(** The payload [bs] at sequence number [seq] is what was written there. *)
Definition carries (iss : Z) (W : list Z) (seq : Z) (bs : list Z) : Prop :=
  bs = [] ∨ ∃ k, (k + length bs <= length W)%nat ∧ seq = u32 (iss + 1 + Z.of_nat k) ∧
    bs = take (length bs) (drop k W).

(** What every segment sent satisfies: a SYN has the initial sequence number; anything
    else carries bytes written; an acknowledgement is for at most [m] sequence numbers
    after the peer's SYN; a FIN is only sent when one is pending ([f]), and data only once
    our SYN is acknowledged ([q]). *)
Record sent_ok (iss : Z) (W : list Z) (irs m : Z) (f q : bool) (s : segment) : Prop := {
  so_syn : has (th_flg (seg_th s)) TCP_F_SYN = true →
    th_seq (seg_th s) = iss ∧ th_flg (seg_th s) ∈ [2; 18];
  so_data : has (th_flg (seg_th s)) TCP_F_SYN = false →
    carries iss W (th_seq (seg_th s)) (concat (seg_data s));
  so_ack : has (th_flg (seg_th s)) TCP_F_ACK = true → has (th_flg (seg_th s)) TCP_F_RST = false →
    ∃ j, 0 <= j <= m ∧ th_ack (seg_th s) = u32 (irs + 1 + j);
  so_fin : has (th_flg (seg_th s)) TCP_F_FIN = true → f = true;
  so_open : has (th_flg (seg_th s)) TCP_F_SYN = false → concat (seg_data s) ≠ [] → q = true;
}.

Lemma carries_mono iss W W' seq bs : W `prefix_of` W' → carries iss W seq bs → carries iss W' seq bs.
Proof.
  intros [l ->] [->|(k & Hk & Hs & Hb)]; [by left|]. right. exists k. rewrite length_app.
  split_and!; [lia|done|]. rewrite drop_app_le by lia.
  rewrite take_app_le by (rewrite length_drop; lia). done.
Qed.

Lemma sent_ok_mono iss W W' irs m m' f f' q q' s :
  W `prefix_of` W' → m <= m' → (f = true → f' = true) → (q = true → q' = true) →
  sent_ok iss W irs m f q s → sent_ok iss W' irs m' f' q' s.
Proof.
  intros HW Hm Hf Hq [H1 H2 H3 H4 H5]. split; [done| | |auto|auto].
  - intros H. eapply carries_mono; [done|auto].
  - intros Ha Hr. destruct (H3 Ha Hr) as (j & Hj & E). exists j. split; [lia|done].
Qed.

(** What the segments sent on behalf of the block satisfy. *)
Definition closing (t : tcb) : bool := negb (tcb_pending_fin t =? 0).
Definition opened_side (t : tcb) : bool := tcb_pending_syn t =? 0.
(** While our own first SYN is pending there is nothing to acknowledge. *)
Definition acked (R : list Z) (t : tcb) : Z :=
  if decide (tcb_pending_syn t = TCP_F_SYN) then -1
  else Z.of_nat (length R) + b2z (tcb_fin_received t).
Definition log_ok (W : list Z) (irs : Z) (R : list Z) (t : tcb) : segment → Prop :=
  sent_ok (tcb_iss t) W irs (acked R t) (closing t) (opened_side t).

(** Changes that leave the invariant alone. *)
Lemma u32_sub x y : 0 <= x - y < 4294967296 → u32 (u32 x - u32 y) = x - y.
Proof. intros. unfold u32. rewrite <- Zminus_mod. by apply Z.mod_small. Qed.

Lemma u32_eq x y : -4294967296 < x - y < 4294967296 → u32 x = u32 y → x = y.
Proof. unfold u32. intros H E. dlia. Qed.

Lemma s32_sub x y : -2147483648 <= x - y < 2147483648 → s32 (u32 x - u32 y) = x - y.
Proof.
  intros H. rewrite <- (s32_id (x - y)) by done. unfold s32.
  assert (u32 (u32 x - u32 y) = u32 (x - y)) as -> by (unfold u32; by rewrite <- Zminus_mod). done.
Qed.

Lemma u32_add x y : u32 (u32 x + y) = u32 (x + y).
Proof. unfold u32. apply Zplus_mod_idemp_l. Qed.

(** ** Emission *)

Definition even_list (l : list Z) : Prop := Nat.Even (length l).

(** What the copy loop promises: bytes taken off the FIFO in order, at least one when
    there is one and room, in buffers of even length but the last. *)
Definition emit_post (P : segment → Prop) (n : net) (prev : windows) (p : list Z) (room : Z) (rest : list Z)
    (total : Z) (r : res (windows * Z * net)) : Prop :=
  ∃ data total' n', r = Ret (data, total', n') ∧ net_ok P n' ∧ n_now n' = n_now n ∧
    total <= total' <= total + Z.of_nat (length rest) ∧ total' <= MAX_PAYLOAD ∧
    concat data = concat prev ++ p ++ take (Z.to_nat (total' - total)) rest ∧
    (rest ≠ [] → total < MAX_PAYLOAD → 0 < room → total < total') ∧
    (∃ l w, data = l ++ [w] ∧ ∀ w, w ∈ l → even_list w).

Lemma emit_stop P n n1 prev p room rest total :
  net_ok P n1 → n_now n1 = n_now n → rest = [] ∨ total = MAX_PAYLOAD ∨ room = 0 → total <= MAX_PAYLOAD →
  (∀ w, w ∈ prev → even_list w) →
  emit_post P n prev p room rest total (Ret (prev ++ [p], total, n1)).
Proof.
  intros Hn1 Hnow Hend Ht Hev. eexists _, _, _. split; [reflexivity|].
  rewrite Z.sub_diag, take_0, app_nil_r, concat_app. cbn [concat]. rewrite app_nil_r.
  split_and!; try done; try lia; [naive_solver lia|by exists prev, p].
Qed.

Lemma tx_ring_read t s rest k :
  shape t → holds (tcb_buffer t) 0 (tcb_txfifo_size t) s rest → 0 < k <= Z.of_nat (length rest) →
  k < tcb_txfifo_size t →
  wtol_memcpy (tcb_buffer t) 0 k (u32 s) (tcb_txfifo_size t) = Ret (take (Z.to_nat k) rest).
Proof.
  intros Hsh Hh Hk Hlt. assert (length (take (Z.to_nat k) rest) = Z.to_nat k) as El by (rewrite length_take; lia).
  replace k with (Z.of_nat (length (take (Z.to_nat k) rest))) at 1 by lia.
  apply wtol_ok; [apply Hsh|lia|rewrite (sh_buf _ Hsh); pose proof (sh_rx_min _ Hsh); lia|lia|].
  apply holds_u32; [apply Hsh|]. pose proof (holds_sub _ _ _ _ _ 0 (Z.to_nat k) ltac:(lia) Hh) as Hs.
  by rewrite Z.add_0_r in Hs.
Qed.

(** The copy loop takes bytes off the FIFO until they, the buffers or the segment run
    out: at least one if there is one. *)
Lemma emit_loop_ok P t fuel n prev p room s rest total :
  shape t → net_ok P n → holds (tcb_buffer t) 0 (tcb_txfifo_size t) s rest →
  0 <= total <= MAX_PAYLOAD → 0 <= room <= PBUF_ROOM →
  (fuel > 0)%nat →
  (rest = [] ∨ total = MAX_PAYLOAD ∨
   MAX_PAYLOAD - total - (if decide (room = 0) then PBUF_ROOM else room) <= 512 * (Z.of_nat fuel - 2)) →
  (∀ w, w ∈ prev → even_list w) → Nat.Even (length p + Z.to_nat room) →
  emit_post P n prev p room rest total (emit_loop fuel t n prev p room (u32 s) (Z.of_nat (length rest)) total).
Proof.
  intros Hsh Hn. unfold MAX_PAYLOAD, PBUF_ROOM. pose proof (sh_tx_min _ Hsh). pose proof (pow2_pos _ (sh_tx _ Hsh)).
  revert n prev p room s rest total Hn.
  induction fuel as [|fuel IH]; intros n prev p room s rest total Hn Hh Ht Hroom Hf Hmeas Hev Hevp; [lia|].
  cbn [emit_loop]. unfold MAX_PAYLOAD, PBUF_ROOM in *.
  assert (∀ n1, net_ok P n1 → n_now n1 = n_now n → rest = [] ∨ total = 1460 ∨ room = 0 →
    emit_post P n prev p room rest total (Ret (prev ++ [p], total, n1))) as Hstop
    by (intros; apply emit_stop; unfold MAX_PAYLOAD; done || lia).
  destruct (Z.eqb_spec (Z.of_nat (length rest)) 0) as [E0|E0]; cbn [negb andb].
  { apply Hstop; [done|done|]. left. by apply length_zero_iff_nil; lia. }
  assert (rest ≠ []) as Hrne by (intros ->; done).
  destruct (Z.ltb_spec total 1460) as [Hlt|Hge].
  2:{ apply Hstop; [done|done|lia]. }
  destruct Hmeas as [?|[?|Hmeas]]; [done|lia|].
  set (n1 := if room =? 0 then next_make n else (true, n)).
  destruct n1 as [ok n1'] eqn:En1. subst n1.
  assert (net_ok P n1' ∧ n_now n1' = n_now n) as [Hn1 Hnow1].
  { destruct (room =? 0); [unfold next_make in En1|]; by simplify_eq/=. }
  destruct ok; cbn [negb].
  2:{ apply Hstop; [done|done|]. right. right. destruct (Z.eqb_spec room 0); [done|by simplify_eq/=]. }
  set (r := if decide (room = 0) then 512 else room) in *.
  assert ((if room =? 0 then (prev ++ [p], [], 512) else (prev, p, room)) =
          (if decide (room = 0) then prev ++ [p] else prev, if decide (room = 0) then [] else p, r)) as ->.
  { subst r. destruct (Z.eqb_spec room 0); case_decide; done. }
  set (prev' := if decide (room = 0) then prev ++ [p] else prev).
  set (p' := if decide (room = 0) then [] else p).
  assert (concat prev' ++ p' = concat prev ++ p) as Hpp.
  { subst prev' p'. case_decide; [|done]. by rewrite concat_app; cbn [concat]; rewrite !app_nil_r. }
  assert ((∀ w, w ∈ prev' → even_list w) ∧ Nat.Even (length p' + Z.to_nat r)) as [Hev' Hevp'].
  { subst prev' p' r. case_decide as Hr; [|done]. split; [|by exists 256%nat].
    intros w. rewrite elem_of_app, list_elem_of_singleton. intros [?| ->]; [by apply Hev|].
    rewrite Hr in Hevp. change (Z.to_nat 0) with 0%nat in Hevp. by rewrite Nat.add_0_r in Hevp. }
  assert (0 < r <= 512) as Hr by (subst r; case_decide; lia).
  set (k := Z.min (1460 - total) (Z.min (Z.of_nat (length rest)) r)).
  assert (0 < k <= 512 ∧ k <= Z.of_nat (length rest)) as Hk by lia.
  rewrite (tx_ring_read t s rest k) by (done || lia).
  cbn [mbind res_bind]. rewrite u32_add.
  replace (Z.of_nat (length rest) - k) with (Z.of_nat (length (drop (Z.to_nat k) rest))) by (rewrite length_drop; lia).
  destruct (IH n1' prev' (p' ++ take (Z.to_nat k) rest) (r - k) (s + k) (drop (Z.to_nat k) rest) (total + k))
    as (data & total' & n' & E & ? & ? & Htot & ? & Hcat & _ & Hdata).
  - done.
  - apply holds_drop; [lia|done].
  - lia.
  - lia.
  - subst r. case_decide; lia.
  - destruct (decide (k = r)) as [->|].
    + right. right. rewrite decide_True by lia. lia.
    + destruct (decide (k = 1460 - total)); [right; left; lia|]. left. apply length_zero_iff_nil.
      rewrite length_drop. lia.
  - done.
  - rewrite length_app, length_take. replace (length p' + _ + _)%nat with (length p' + Z.to_nat r)%nat by lia. done.
  - exists data, total', n'. rewrite length_drop in Htot. split_and!; try done; try lia; try congruence.
    rewrite Hcat, <- app_assoc, (app_assoc (concat prev')), Hpp, <- app_assoc. do 2 f_equal.
    replace (Z.to_nat (total' - total)) with (Z.to_nat k + Z.to_nat (total' - (total + k)))%nat by lia.
    by rewrite take_take_drop.
Qed.

Lemma on_last_window_nil data : concat (on_last_window (λ w, w ++ []) data) = concat data.
Proof.
  induction data as [|w [|w' data] IH]; [done|cbn; by rewrite !app_nil_r|].
  change (w ++ concat (on_last_window (λ w, w ++ []) (w' :: data)) = w ++ concat (w' :: data)). by rewrite IH.
Qed.

Lemma wp_output_tcb P flg seq data Q t l p n :
  net_ok P n →
  (∀ s, th_flg (seg_th s) = flg → th_seq (seg_th s) = seq → th_ack (seg_th s) = rcv_nxt t →
     (has flg TCP_F_SYN = false → concat (seg_data s) = concat data) → P s) →
  (∀ err n', net_ok P n' → n_now n' = n_now n → Q err (live t l p n')) →
  wp (tcp_output_tcb flg seq data) Q (live t l p n).
Proof.
  intros Hn HP HQ. unfold tcp_output_tcb. wp_steps. set (s := mk_seg _ _).
  destruct (tcp_output_ok P s (tcb_local_addr t) (tcb_remote_addr t) n Hn) as (err & n' & E & Hn' & Hnow).
  - apply HP; try done. intros Hs. subst s. cbn [seg_data]. rewrite Hs. apply on_last_window_nil.
  - exists err, (live t l p n'). split; [|by apply HQ]. unfold on_net. cbn [c_net]. by rewrite E.
Qed.

Lemma wp_make P Q t l p n :
  net_ok P n → (∀ ok n', net_ok P n' → n_now n' = n_now n → Q ok (live t l p n')) →
  wp (peek_net next_make) Q (live t l p n).
Proof. intros Hn HQ. eexists _, _. split; [reflexivity|]. by apply HQ. Qed.

Lemma tx_used W a n t : shape t → tx_ok W a n t →
  u32 (snd_wrptr t - snd_una t) = 1 + Z.of_nat (length W) + fin_slot t - a ∧
  u32 (snd_wrptr t - snd_nxt t) = 1 + Z.of_nat (length W) + fin_slot t - n ∧
  u32 (snd_nxt t - snd_una t) = n - a ∧ 0 <= fin_slot t <= 1 ∧
  1 + Z.of_nat (length W) - a <= 1073741824.
Proof.
  intros Hsh Ht. pose proof (pow2_pos _ (sh_tx _ Hsh)). pose proof (tx_order _ _ _ _ Ht).
  pose proof (tx_fits _ _ _ _ Ht). assert (0 <= fin_slot t <= 1) by (unfold fin_slot; case_match; lia).
  rewrite (tx_wrptr _ _ _ _ Ht), (tx_una _ _ _ _ Ht), (tx_nxt _ _ _ _ Ht).
  rewrite !u32_sub by lia. lia.
Qed.

Definition acks (irs m : Z) (t : tcb) : Prop :=
  tcb_pending_syn t = TCP_F_SYN ∨ (rcv_nxt t = u32 (irs + 1 + m) ∧ 0 <= m).

(** A block after an emission. *)
Definition emitted (t : tcb) (da : option Z) (n x y : Z) : tcb :=
  set_dack da (set_nxt (u32 (tcb_iss t + n)) (set_tx_bytes x (set_rtx_bytes y t))).

Lemma emitted_self t n : snd_nxt t = u32 (tcb_iss t + n) →
  t = emitted t (tcb_delayed_ack_timer t) n (tcb_tx_bytes t) (tcb_rtx_bytes t).
Proof. destruct t; cbn. intros ->. done. Qed.

Lemma tx_ok_emitted W a n t da n' x y :
  tx_ok W a n t → n <= n' <= 1 + Z.of_nat (length W) + fin_slot t → (tcb_pending_syn t ≠ 0 → n' = n) →
  tx_ok W a n' (emitted t da n' x y).
Proof.
  intros Ht Hn Hsyn. pose proof (tx_order _ _ _ _ Ht). destruct Ht as [H1 H2 H3 H4 H5 H6 H7 H8 H9].
  split; try done.
  - change (fin_slot (emitted t da n' x y)) with (fin_slot t). lia.
  - intros Hs. destruct (H7 Hs) as (? & ? & ?). rewrite (Hsyn Hs). done.
Qed.

Lemma has_syn_flags x : x ∈ [0; 2; 18] → x ≠ 0 → has x TCP_F_SYN = true ∧ x ∈ [2; 18] ∧ has x TCP_F_FIN = false.
Proof. intros Hx H0. rewrite !elem_of_cons, elem_of_nil in *. destruct Hx as [->|[->|[->|[]]]]; [done|..]; by auto. Qed.

Lemma sent_plain iss W irs m f q flg seq ack s :
  th_flg (seg_th s) = flg → th_seq (seg_th s) = seq → th_ack (seg_th s) = ack →
  has flg TCP_F_SYN = false → carries iss W seq (concat (seg_data s)) →
  (has flg TCP_F_FIN = true → f = true) → (concat (seg_data s) ≠ [] → q = true) →
  (has flg TCP_F_ACK = true → has flg TCP_F_RST = false → ack = u32 (irs + 1 + m) ∧ 0 <= m) →
  sent_ok iss W irs m f q s.
Proof.
  intros <- <- <- Hs Hc Hf Hq Ha. split.
  - by rewrite Hs.
  - done.
  - intros H1 H2. exists m. destruct (Ha H1 H2). split; [lia|done].
  - done.
  - done.
Qed.

(** The body of [tcp_emit], from where the packet is there and the delayed
    acknowledgement cancelled. *)
Definition emit_body (seq : Z) (gen_ack : bool) (t : tcb) : C Z :=
  let bytes_in_fifo := u32 (snd_wrptr t - seq) in
  let bytes_in_fifo :=
    if seq =? snd_nxt t then Z.min bytes_in_fifo (wnd_room t) else bytes_in_fifo in
  if negb (tcb_pending_syn t =? 0) then tcp_output_tcb (tcb_pending_syn t) (tcb_iss t) [[]]
  else if bytes_in_fifo =? 0 then
    if gen_ack then tcp_output_tcb TCP_F_ACK seq [[]] else mret 0
  else if (negb (tcb_pending_fin t =? 0) && (bytes_in_fifo =? 1))%bool then
    whenM (negb (snd_nxt t =? snd_wrptr t)) (modify (set_nxt (snd_wrptr t)));;
    tcp_output_tcb (tcb_pending_fin t) seq [[]]
  else
    let bytes_in_fifo :=
      if negb (tcb_pending_fin t =? 0) then bytes_in_fifo - 1 else bytes_in_fifo in
    '(data, total) ← on_net (λ n,
       '(data, total, n) ← emit_loop EMIT_FUEL t n [] [] FIRST_ROOM seq bytes_in_fifo 0;
       Ret ((data, total), n));
    err ← tcp_output_tcb (Z.lor TCP_F_PSH TCP_F_ACK) seq data;
    if negb (err =? 0) then mret err
    else
      t ← get;
      (if snd_nxt t =? seq then
         modify (set_nxt (u32 (snd_nxt t + total)));;
         modify (set_tx_bytes (u64 (tcb_tx_bytes t + total)))
       else modify (set_rtx_bytes (u64 (tcb_rtx_bytes t + total))));;
      mret 0.

Lemma wnd_room_nonneg t : 0 <= wnd_room t.
Proof. unfold wnd_room. case_match; bool_to_prop; lia. Qed.

(** What the emission sees of the FIFO: at least what the loop then takes. *)
Lemma emit_ring W a n t s k :
  tx_ok W a n t → 1 <= a → (s = n ∨ s = a) → 0 <= k <= 1 + Z.of_nat (length W) - s →
  holds (tcb_buffer t) 0 (tcb_txfifo_size t) (tcb_iss t + s) (take (Z.to_nat k) (drop (Z.to_nat (s - 1)) W)).
Proof.
  intros Ht Ha Hs Hk. pose proof (tx_order _ _ _ _ Ht).
  pose proof (tx_ring _ _ _ _ Ht) as Hr. rewrite Z.max_l in Hr by lia.
  apply (holds_sub _ _ _ _ _ (s - a) (Z.to_nat k)) in Hr; [|lia].
  rewrite drop_drop in Hr. replace (tcb_iss t + a + (s - a)) with (tcb_iss t + s) in Hr by lia.
  replace (Z.to_nat (a - 1) + Z.to_nat (s - a))%nat with (Z.to_nat (s - 1)) in Hr by lia. done.
Qed.

Lemma emit_at_nxt W a n s t : shape t → tx_ok W a n t → (s = n ∨ s = a) →
  (u32 (tcb_iss t + s) =? snd_nxt t) = bool_decide (s = n).
Proof.
  intros Hsh Ht Hs. destruct (tx_used _ _ _ _ Hsh Ht) as (_ & _ & _ & ? & ?). pose proof (tx_order _ _ _ _ Ht).
  rewrite (tx_nxt _ _ _ _ Ht). case_bool_decide as E; [subst; apply Z.eqb_refl|].
  apply Z.eqb_neq. intros E'. apply u32_eq in E'; lia.
Qed.

Section EmitBody.
Context (W : list Z) (a n irs m s : Z) (t : tcb) (l : bool) (p : list (Z * Z * Z)) (nt : net).
Context (Q : Z → conn → Prop).
Let P := sent_ok (tcb_iss t) W irs m (closing t) (opened_side t).
Let last := 1 + Z.of_nat (length W) + fin_slot t.
Hypothesis Hsh : shape t.
Hypothesis Ht : tx_ok W a n t.
Hypothesis Hn : net_ok P nt.
Hypothesis Hs : s = n ∨ s = a.
Hypothesis Hda : tcb_delayed_ack_timer t = None.
Hypothesis HQ : ∀ err n' x y nt', tx_ok W a n' (emitted t None n' x y) → n <= n' →
  (err = 0 → tcb_pending_syn t = 0 → s = n → 0 < wnd_room t → n < last → n < n') →
  net_ok P nt' → n_now nt' = n_now nt → Q err (live (emitted t None n' x y) l p nt').

(** The block is left as it is. *)
Lemma emit_same err nt' :
  (err = 0 → tcb_pending_syn t = 0 → s = n → 0 < wnd_room t → n < last → False) →
  net_ok P nt' → n_now nt' = n_now nt → Q err (live t l p nt').
Proof using HQ Hda Ht.
  intros Hp Hn' Hnow. pose proof (tx_order _ _ _ _ Ht). rewrite (emitted_self t n (tx_nxt _ _ _ _ Ht)), Hda.
  apply HQ; try done; [|naive_solver lia]. apply tx_ok_emitted with n; [done|lia|done].
Qed.

(** A SYN, or the SYN and the acknowledgement, again. *)
Lemma wp_emit_syn :
  acks irs m t → tcb_pending_syn t ≠ 0 →
  wp (tcp_output_tcb (tcb_pending_syn t) (tcb_iss t) [[]]) Q (live t l p nt).
Proof using HQ Hda Hn Ht.
  intros Hacks Hsyn. pose proof (tx_flags _ _ _ _ Ht) as [Hsynf _]. apply (wp_output_tcb P); [done| |].
  - intros sg Ef Es Ea _. destruct (has_syn_flags _ Hsynf Hsyn) as (H1 & H2 & H3).
    split; rewrite ?Ef; try congruence; [by rewrite Es|].
    destruct Hacks as [->|[Hack Hm]]; [done|]. intros _ _. exists m. split; [lia|congruence].
  - intros err nt' Hn' Hnow. by apply emit_same.
Qed.

Hypothesis Hsyn : tcb_pending_syn t = 0.
Hypothesis Hack : rcv_nxt t = u32 (irs + 1 + m) ∧ 0 <= m.

(** Our FIN, alone. *)
Lemma wp_emit_fin :
  tcb_pending_fin t ≠ 0 →
  wp (whenM (negb (snd_nxt t =? snd_wrptr t)) (modify (set_nxt (snd_wrptr t)));;
      tcp_output_tcb (tcb_pending_fin t) (u32 (tcb_iss t + s)) [[]]) Q (live t l p nt).
Proof using HQ Hack Hda Hn Hsh Ht Hsyn.
  intros Hf. pose proof (tx_order _ _ _ _ Ht) as Hord. pose proof (tx_flags _ _ _ _ Ht) as [_ Hfinf].
  assert (closing t = true ∧ has (tcb_pending_fin t) TCP_F_SYN = false) as [Hcl Hfs].
  { unfold closing. rewrite (proj2 (Z.eqb_neq _ _)) by done.
    rewrite !elem_of_cons, elem_of_nil in Hfinf. by destruct Hfinf as [?|[->|[]]]. }
  apply wp_bind.
  assert (∀ Q' : () → conn → Prop, Q' tt (live (set_nxt (snd_wrptr t) t) l p nt) →
    wp (whenM (negb (snd_nxt t =? snd_wrptr t)) (modify (set_nxt (snd_wrptr t)))) Q' (live t l p nt)) as Hwhen.
  { intros Q' HQ'. destruct (Z.eqb_spec (snd_nxt t) (snd_wrptr t)) as [E|E]; cbn [negb].
    - apply wp_when_false. rewrite <- E in HQ'. by destruct t.
    - by apply wp_modify. }
  apply Hwhen. apply (wp_output_tcb P); [done| |].
  - intros sg Ef Es Eack Ed. eapply sent_plain; [exact Ef|exact Es|exact Eack|done| |done|by rewrite Ed|by intros].
    left. by rewrite Ed.
  - intros err nt' Hn' Hnow.
    assert (set_nxt (snd_wrptr t) t = emitted t None last (tcb_tx_bytes t) (tcb_rtx_bytes t)) as ->.
    { unfold emitted, last. rewrite (tx_wrptr _ _ _ _ Ht), <- Hda, !Z.add_assoc. by destruct t. }
    apply HQ; try done; [|unfold last; lia]. apply tx_ok_emitted with n; [done|unfold last; lia|done].
Qed.

(** Data: [b] bytes are there to send. *)
Lemma wp_emit_data b :
  0 < b <= 1 + Z.of_nat (length W) - s →
  wp ('(data, total) ← on_net (λ n,
        '(data, total, n) ← emit_loop EMIT_FUEL t n [] [] FIRST_ROOM (u32 (tcb_iss t + s)) b 0;
        Ret ((data, total), n));
      err ← tcp_output_tcb (Z.lor TCP_F_PSH TCP_F_ACK) (u32 (tcb_iss t + s)) data;
      if negb (err =? 0) then mret err
      else
        t' ← get;
        (if snd_nxt t' =? u32 (tcb_iss t + s) then
           modify (set_nxt (u32 (snd_nxt t' + total)));;
           modify (set_tx_bytes (u64 (tcb_tx_bytes t' + total)))
         else modify (set_rtx_bytes (u64 (tcb_rtx_bytes t' + total))));;
        mret 0) Q (live t l p nt).
Proof using HQ Hack Hda Hn Hs Hsh Ht Hsyn.
  intros Hb. pose proof (tx_order _ _ _ _ Ht) as Hord. pose proof (tx_acked _ _ _ _ Ht Hsyn) as Ha1.
  destruct (tx_used _ _ _ _ Hsh Ht) as (_ & _ & _ & Hfin & _).
  set (rest := take (Z.to_nat b) (drop (Z.to_nat (s - 1)) W)).
  assert (Z.of_nat (length rest) = b) as Hlr by (subst rest; rewrite length_take, length_drop; lia).
  destruct (emit_loop_ok P t EMIT_FUEL nt [] [] FIRST_ROOM (tcb_iss t + s) rest 0)
    as (data & total & nt1 & E & Hn1 & Hnow1 & Htot & Hmax & Hcat & Hprog & _); try done.
  { apply (emit_ring W a n t); [done|done|done|lia]. }
  { unfold EMIT_FUEL. lia. }
  { right. right. unfold MAX_PAYLOAD, FIRST_ROOM, EMIT_FUEL. rewrite decide_False by lia. lia. }
  { intros w Hw. by apply not_elem_of_nil in Hw. }
  { by exists 228%nat. }
  cbn [concat app] in Hcat. rewrite Z.sub_0_r in Hcat. rewrite Hlr in E, Htot.
  assert (0 < total) as Htp by (apply Hprog; [intros ->; cbn in Hlr; lia|unfold MAX_PAYLOAD; lia|unfold FIRST_ROOM; lia]).
  apply wp_bind. exists (data, total), (live t l p nt1). split; [unfold on_net; cbn [c_net]; by rewrite E|].
  cbv beta iota. apply wp_bind. apply (wp_output_tcb P); [done| |].
  - intros sg Ef Es Eack Ed. eapply sent_plain; [exact Ef|exact Es|exact Eack|done| |done|by unfold opened_side; rewrite Hsyn|by intros].
    right. rewrite Ed, Hcat by done. exists (Z.to_nat (s - 1)).
    assert (length (take (Z.to_nat total) rest) = Z.to_nat total) as -> by (rewrite length_take; lia).
    split_and!; [lia|f_equal; lia|]. subst rest. rewrite take_take. f_equal. lia.
  - intros err nt2 Hn2 Hnow2. destruct (Z.eqb_spec err 0) as [->|Herr]; cbn [negb].
    2:{ apply wp_ret. apply emit_same; [done|done|congruence]. }
    wp_steps. rewrite (Z.eqb_sym (snd_nxt t)), (emit_at_nxt W a n) by done. case_bool_decide as Esn; wp_steps.
    + replace (set_tx_bytes _ _) with (emitted t None (n + total) (u64 (tcb_tx_bytes t + total)) (tcb_rtx_bytes t)).
      2:{ unfold emitted. rewrite (tx_nxt _ _ _ _ Ht), u32_add, <- Hda, Z.add_assoc. by destruct t. }
      apply HQ; [|lia|lia|done|congruence]. apply tx_ok_emitted with n; [done|lia|done].
    + replace (set_rtx_bytes _ _) with (emitted t None n (tcb_tx_bytes t) (u64 (tcb_rtx_bytes t + total))).
      2:{ unfold emitted. rewrite <- (tx_nxt _ _ _ _ Ht), <- Hda. by destruct t. }
      apply HQ; [|lia|lia|done|congruence]. apply tx_ok_emitted with n; [done|lia|done].
Qed.
End EmitBody.

Lemma wp_emit_body W a n irs m s gen_ack Q t l p nt :
  shape t → tx_ok W a n t → acks irs m t →
  net_ok (sent_ok (tcb_iss t) W irs m (closing t) (opened_side t)) nt → (s = n ∨ s = a) → tcb_delayed_ack_timer t = None →
  (∀ err n' x y nt', tx_ok W a n' (emitted t None n' x y) → n <= n' →
     (err = 0 → tcb_pending_syn t = 0 → s = n → 0 < wnd_room t →
      n < 1 + Z.of_nat (length W) + fin_slot t → n < n') →
     net_ok (sent_ok (tcb_iss t) W irs m (closing t) (opened_side t)) nt' → n_now nt' = n_now nt →
     Q err (live (emitted t None n' x y) l p nt')) →
  wp (emit_body (u32 (tcb_iss t + s)) gen_ack t) Q (live t l p nt).
Proof.
  intros Hsh Ht Hacks Hn Hs Hda HQ.
  assert (HQ0 := emit_same W a n irs m s t l p nt Q Ht Hda HQ).
  destruct (tx_used _ _ _ _ Hsh Ht) as (_ & _ & _ & Hfin & Hbig).
  pose proof (tx_order _ _ _ _ Ht) as Hord. pose proof (wnd_room_nonneg t) as Hroom. unfold emit_body.
  assert (u32 (snd_wrptr t - u32 (tcb_iss t + s)) = 1 + Z.of_nat (length W) + fin_slot t - s) as Eb.
  { rewrite (tx_wrptr _ _ _ _ Ht), u32_sub by lia. lia. }
  rewrite Eb, (emit_at_nxt W a n s t Hsh Ht Hs). set (avail := if bool_decide (s = n) then _ else _).
  assert (0 <= avail <= 1 + Z.of_nat (length W) + fin_slot t - s ∧
    (avail = 0 → s = n → wnd_room t = 0 ∨ n = 1 + Z.of_nat (length W) + fin_slot t)) as [Hav Hav0].
  { subst avail. case_bool_decide; lia. }
  destruct (Z.eqb_spec (tcb_pending_syn t) 0) as [Hsyn|Hsyn]; cbn [negb].
  2:{ by eapply wp_emit_syn. }
  assert (rcv_nxt t = u32 (irs + 1 + m) ∧ 0 <= m) as Hack by (destruct Hacks as [E|?]; [by rewrite E in Hsyn|done]).
  destruct (Z.eqb_spec avail 0) as [E0|E0].
  { destruct gen_ack; [|apply wp_ret, HQ0; [lia|done|done]].
    eapply wp_output_tcb; [exact Hn| |].
    - intros sg Ef Es Eack Ed. eapply sent_plain; [exact Ef|exact Es|exact Eack|done| |done|by rewrite Ed|by intros].
      left. by rewrite Ed.
    - intros err nt' Hn' Hnow. apply HQ0; [lia|done|done]. }
  destruct (negb (tcb_pending_fin t =? 0) && (avail =? 1))%bool eqn:Ef1.
  { bool_to_prop. by eapply wp_emit_fin. }
  eapply wp_emit_data; try done.
  unfold fin_slot in *. destruct (tcb_pending_fin t =? 0); cbn [negb andb] in *; bool_to_prop; lia.
Qed.

Lemma wp_emit W a n irs m recycle s gen_ack Q t l p nt :
  shape t → tx_ok W a n t → acks irs m t →
  net_ok (sent_ok (tcb_iss t) W irs m (closing t) (opened_side t)) nt → (s = n ∨ s = a) →
  (∀ err da n' x y nt', tx_ok W a n' (emitted t da n' x y) → n <= n' →
     (err = 0 → tcb_pending_syn t = 0 → s = n → 0 < wnd_room t →
      n < 1 + Z.of_nat (length W) + fin_slot t → n < n') →
     net_ok (sent_ok (tcb_iss t) W irs m (closing t) (opened_side t)) nt' → n_now nt' = n_now nt →
     Q err (live (emitted t da n' x y) l p nt')) →
  wp (tcp_emit recycle (u32 (tcb_iss t + s)) gen_ack) Q (live t l p nt).
Proof.
  intros Hsh Ht Hack Hn Hs HQ. unfold tcp_emit. apply wp_bind.
  assert (∀ Q', (∀ ok nt', net_ok (sent_ok (tcb_iss t) W irs m (closing t) (opened_side t)) nt' → n_now nt' = n_now nt →
      Q' ok (live t l p nt')) → wp (if recycle then mret true else peek_net next_make) Q' (live t l p nt)) as Hmk.
  { intros Q' HQ'. destruct recycle; [by apply wp_ret, HQ'|]. by eapply wp_make. }
  apply Hmk. intros ok nt1 Hn1 Hnow1. destruct ok; cbn [negb].
  - wp_steps. change (wp (emit_body (u32 (tcb_iss (set_dack None t) + s)) gen_ack (set_dack None t)) Q
      (live (set_dack None t) l p nt1)).
    assert (shape (set_dack None t)) by (destruct Hsh; by split).
    assert (tx_ok W a n (set_dack None t)) by (destruct Ht; by split).
    eapply (wp_emit_body W a n irs m); try done. intros err n' x y nt' Ht' Hle Hp Hn' Hnow.
    apply (HQ err None n' x y nt'); try done. congruence.
  - wp_steps. rewrite (emitted_self t n (tx_nxt _ _ _ _ Ht)). apply HQ; try done.
    apply tx_ok_emitted with n; [done|pose proof (tx_order _ _ _ _ Ht); lia|done].
Qed.

(** ** The other operations *)

(** The fields the invariant looks at, the state apart. *)
Definition core (t : tcb) :=
  (tcb_iss t, snd_una t, snd_nxt t, snd_wrptr t, snd_wnd t, (tcb_pending_syn t, tcb_pending_fin t),
   (tcb_txfifo_size t, tcb_rxfifo_size t, tcb_buffer t), (rcv_nxt t, rcv_rdptr t, tcb_fin_received t)).

Lemma core_eq t t' : core t = core t' →
  (shape t → shape t') ∧ (∀ W a n, tx_ok W a n t → tx_ok W a n t') ∧
  (∀ irs R d, rx_ok irs R d t → rx_ok irs R d t').
Proof.
  intros [=]. destruct t, t'; cbn in *; subst. split_and!.
  - by intros [].
  - by intros ? ? ? [].
  - by intros ? ? ? [].
Qed.

Lemma acked_mono R t t' :
  tcb_fin_received t' = tcb_fin_received t →
  (tcb_pending_syn t' = TCP_F_SYN → tcb_pending_syn t = TCP_F_SYN) → acked R t <= acked R t'.
Proof. intros E Hs. unfold acked. rewrite E. destruct (tcb_fin_received t); repeat case_decide; cbn; tauto || lia. Qed.

(** The invariant of a connection: the block, if it is still there, and the log of the
    segments sent. *)
Definition conn_ok (iss : Z) (W : list Z) (irs : Z) (R : list Z) (c : conn) : Prop :=
  match c_tcb c with
  | Some t => tcb_iss t = iss ∧ tcb_ok W irs R t ∧ net_ok (log_ok W irs R t) (c_net c)
  | None => net_ok (sent_ok iss W irs (Z.of_nat (length R) + 1) true true) (c_net c)
  end.

Lemma conn_ok_core iss W irs R t t' l p n l' p' n' :
  conn_ok iss W irs R (live t l p n) → core t = core t' → st_ok R t' →
  (net_ok (log_ok W irs R t) n → net_ok (log_ok W irs R t) n') →
  conn_ok iss W irs R (live t' l' p' n').
Proof.
  intros (Hi & (Hsh & (a & k & Ht) & (d & Hr) & _) & Hn) Hc Hst Hn'.
  destruct (core_eq _ _ Hc) as (H1 & H2 & H3). injection Hc; intros. unfold conn_ok. cbn [c_tcb c_net].
  split; [congruence|]. split; [split_and!; eauto|].
  eapply net_ok_mono; [|by apply Hn']. intros s. unfold log_ok, closing.
  replace (tcb_iss t') with (tcb_iss t) by done. replace (tcb_pending_fin t') with (tcb_pending_fin t) by done.
  replace (opened_side t') with (opened_side t) by (unfold opened_side; congruence).
  apply sent_ok_mono; [done|apply acked_mono; congruence|done|done].
Qed.

Lemma st_ok_same R t t' :
  st_ok R t → tcb_state t' = tcb_state t → tcb_pending_fin t' = tcb_pending_fin t →
  tcb_pending_syn t' = tcb_pending_syn t → tcb_fin_received t' = tcb_fin_received t → st_ok R t'.
Proof. intros [H1 H2 H3 H4] E1 E2 E3 E4. split; rewrite ?E1, ?E2, ?E3, ?E4; done. Qed.

(** A change of fields outside the invariant. *)
Lemma conn_ok_frame iss W irs R t t' l p n l' p' :
  conn_ok iss W irs R (live t l p n) → core t = core t' → tcb_state t' = tcb_state t →
  conn_ok iss W irs R (live t' l' p' n).
Proof.
  intros H Hc Hs. eapply conn_ok_core; [exact H|done| |done].
  destruct H as (_ & (_ & _ & _ & Hst) & _). injection Hc; intros. eapply st_ok_same; [exact Hst|..]; congruence.
Qed.

Lemma conn_ok_event iss W irs R t l p n e :
  conn_ok iss W irs R (live t l p n) → (∀ s x y z, e ≠ Sent s x y z) →
  conn_ok iss W irs R (live t l p (emit_event e n)).
Proof.
  intros (Hi & Ht & Hn) He. split_and!; [done|done|]. apply net_ok_event; [done|]. intros s x y z ->. by destruct (He s x y z).
Qed.

(** Entering a state that asks for nothing. *)
Lemma conn_ok_state iss W irs R t l p n st l' :
  conn_ok iss W irs R (live t l p n) → st_ok R (set_state st t) →
  conn_ok iss W irs R (live (set_state st t) l' p n).
Proof. intros H Hst. by eapply conn_ok_core. Qed.

Lemma rx_acks_open irs R d t : rx_ok irs R d t → tcb_pending_syn t ≠ TCP_F_SYN →
  rcv_nxt t = u32 (irs + 1 + acked R t) ∧ 0 <= acked R t.
Proof.
  intros Hr Hs. unfold acked. rewrite decide_False by done.
  split; [rewrite (rx_nxt _ _ _ _ Hr); f_equal; lia|]. destruct (tcb_fin_received t); cbn; lia.
Qed.

Lemma rx_acks irs R d t : rx_ok irs R d t → acks irs (acked R t) t.
Proof.
  intros Hr. destruct (decide (tcb_pending_syn t = TCP_F_SYN)) as [E|E]; [by left|].
  right. by eapply rx_acks_open.
Qed.

(** An emission keeps the invariant. *)
Lemma wp_emit_ok iss W irs R recycle gen_ack Q t l p nt una :
  conn_ok iss W irs R (live t l p nt) →
  (∀ err da n x y nt', conn_ok iss W irs R (live (emitted t da n x y) l p nt') → n_now nt' = n_now nt →
     Q err (live (emitted t da n x y) l p nt')) →
  wp (tcp_emit recycle (if una : bool then snd_una t else snd_nxt t) gen_ack) Q (live t l p nt).
Proof.
  intros (Hi & (Hsh & (a & n & Ht) & (d & Hr) & Hst) & Hn) HQ.
  replace (if una then snd_una t else snd_nxt t) with (u32 (tcb_iss t + (if una then a else n)))
    by (destruct una; [by rewrite (tx_una _ _ _ _ Ht)|by rewrite (tx_nxt _ _ _ _ Ht)]).
  eapply (wp_emit W a n irs (acked R t)); try done.
  - by eapply rx_acks.
  - destruct una; auto.
  - intros err da n' x y nt' Ht' _ _ Hn' Hnow. apply HQ; [|done].
    split_and!; [done| |done]. split_and!; [by destruct Hsh|by exists a, n'| |].
    + exists d. by destruct Hr.
    + by destruct Hst.
Qed.

Lemma wp_arm_if_idle Q t l p nt :
  (∀ r, Q tt (live (set_rtx r t) l p nt)) → wp arm_if_idle Q (live t l p nt).
Proof.
  intros HQ. unfold arm_if_idle, whenM. wp_steps. case_match; wp_steps; [apply HQ|].
  specialize (HQ (tcb_rtx_timer t)). by destruct t.
Qed.

Lemma wp_arm_rtx now Q t l p nt :
  (∀ r, Q tt (live (set_rtx r t) l p nt)) → wp (arm_rtx now) Q (live t l p nt).
Proof. intros HQ. unfold arm_rtx. wp_steps. apply HQ. Qed.

(** A block after an acknowledgement of [count] more. *)
Definition acked_tcb (t : tcb) (count : Z) (r : option Z) : tcb :=
  set_rtx r (set_pending_syn 0 (set_una (u32 (snd_una t + count)) t)).

Lemma tx_ok_acked W a n t count r :
  tx_ok W a n t → 0 < count <= n - a → tx_ok W (a + count) n (acked_tcb t count r).
Proof.
  intros Ht Hc. pose proof (tx_order _ _ _ _ Ht). destruct Ht as [H1 H2 H3 H4 H5 H6 H7 H8 H9].
  split; try done.
  - cbn. by rewrite H1, u32_add, Z.add_assoc.
  - change (fin_slot (acked_tcb t count r)) with (fin_slot t). lia.
  - cbn [acked_tcb set_rtx set_pending_syn set_una tcb_txfifo_size]. lia.
  - intros _. lia.
  - split; [set_solver|apply H8].
  - change (holds (tcb_buffer t) 0 (tcb_txfifo_size t) (tcb_iss t + Z.max (a + count) 1)
      (drop (Z.to_nat (Z.max (a + count) 1 - 1)) W)).
    apply (holds_drop _ _ _ _ _ (Z.max (a + count) 1 - Z.max a 1)) in H9; [|lia].
    rewrite drop_drop in H9.
    replace (tcb_iss t + Z.max a 1 + (Z.max (a + count) 1 - Z.max a 1)) with (tcb_iss t + Z.max (a + count) 1) in H9 by lia.
    replace (Z.to_nat (Z.max a 1 - 1) + Z.to_nat (Z.max (a + count) 1 - Z.max a 1))%nat
      with (Z.to_nat (Z.max (a + count) 1 - 1)) in H9 by lia. done.
Qed.

Lemma wp_ack P count Q t l p nt :
  net_ok P nt →
  (∀ t' nt', (count = 0 ∧ t' = t) ∨ (count ≠ 0 ∧ ∃ r, t' = acked_tcb t count r) →
     net_ok P nt' → n_now nt' = n_now nt → Q tt (live t' l p nt')) →
  wp (tcp_ack count) Q (live t l p nt).
Proof.
  intros Hn HQ. unfold tcp_ack. destruct (Z.eqb_spec count 0) as [->|Hc].
  { wp_steps. apply HQ; auto. }
  wp_steps. apply wp_arm_rtx. intros r. wp_steps. unfold whenM.
  case_match; wp_steps; (apply HQ; [right; split; [done|by exists r]| |done]);
    repeat (apply net_ok_event; [|done]); done.
Qed.

(** The drain loop ends: every round that goes on has sent something. *)
Lemma wp_drain iss W irs R force fuel Q t l p nt a n :
  conn_ok iss W irs R (live t l p nt) → tx_ok W a n t →
  (Z.to_nat (1 + Z.of_nat (length W) + fin_slot t - n) < fuel)%nat →
  (∀ da n' x y nt', conn_ok iss W irs R (live (emitted t da n' x y) l p nt') → n_now nt' = n_now nt →
     Q tt (live (emitted t da n' x y) l p nt')) →
  wp (drain fuel force) Q (live t l p nt).
Proof.
  revert t n nt. induction fuel as [|fuel IH]; intros t n nt H Ht Hf HQ; [lia|]. cbn [drain].
  pose proof H as (Hi & (Hsh & _ & (d & Hr) & Hst) & Hn).
  assert (Q tt (live t l p nt)) as Hend.
  { specialize (HQ (tcb_delayed_ack_timer t) n (tcb_tx_bytes t) (tcb_rtx_bytes t) nt).
    rewrite <- (emitted_self t n (tx_nxt _ _ _ _ Ht)) in HQ. by apply HQ. }
  wp_steps. destruct (Z.eqb_spec (snd_wrptr t) (snd_nxt t)) as [E|E]; [by wp_steps|].
  destruct (Z.eqb_spec (wnd_room t) 0) as [E0|E0]; [by wp_steps|].
  destruct (_ && _)%bool; [by wp_steps|]. apply wp_bind.
  destruct (tx_used _ _ _ _ Hsh Ht) as (_ & Hu & _ & Hfs & Hbig).
  pose proof (tx_order _ _ _ _ Ht) as Hord.
  assert (n < 1 + Z.of_nat (length W) + fin_slot t) as Hlt.
  { destruct (decide (n = 1 + Z.of_nat (length W) + fin_slot t)) as [En|]; [|lia]. destruct E.
    rewrite (tx_wrptr _ _ _ _ Ht), (tx_nxt _ _ _ _ Ht), En, !Z.add_assoc. done. }
  assert (tcb_pending_syn t = 0) as Hsyn.
  { destruct (decide (tcb_pending_syn t = 0)) as [|Hs]; [done|]. destruct (tx_syn _ _ _ _ Ht Hs) as (_ & _ & Hw).
    destruct E0. unfold wnd_room. rewrite Hw, (proj2 (Z.ltb_ge _ _)); [done|].
    unfold u32. apply Z.mod_pos_bound. lia. }
  rewrite (tx_nxt _ _ _ _ Ht).
  eapply (wp_emit W a n irs (acked R t) _ n); try done; [by eapply rx_acks|by left|].
  intros err da n' x y nt' Ht' Hle Hprog Hn' Hnow.
  assert (conn_ok iss W irs R (live (emitted t da n' x y) l p nt')) as H'.
  { split_and!; [done| |done]. split_and!; [by destruct Hsh|by exists a, n'| |].
    - exists d. by destruct Hr.
    - by destruct Hst. }
  destruct (Z.eqb_spec err 0) as [->|Herr]; cbn [negb]; [|wp_steps; by apply HQ].
  apply (IH _ n'); [done|done| |].
  - pose proof (wnd_room_nonneg t). specialize (Hprog eq_refl Hsyn eq_refl ltac:(lia) Hlt).
    change (fin_slot (emitted t da n' x y)) with (fin_slot t). lia.
  - intros da' n'' x' y' nt'' H'' Hnow''. change (emitted (emitted t da n' x y) da' n'' x' y')
      with (emitted t da' n'' x' y') in *. apply HQ; [done|congruence].
Qed.

Lemma st_ok_other R t st :
  st_ok R t →
  st ∉ [TCP_STATE_SYN_SENT; TCP_STATE_SYN_RECEIVED; TCP_STATE_ESTABLISHED; TCP_STATE_CLOSE_WAIT] →
  st = TCP_STATE_CLOSED ∨ (tcb_state t ≠ TCP_STATE_SYN_SENT ∧ tcb_state t ≠ TCP_STATE_CLOSED) →
  st_ok R (set_state st t).
Proof.
  intros Hst H Hc. split; cbn [set_state tcb_state tcb_pending_syn tcb_fin_received]; [set_solver..|].
  intros E. destruct (st_active _ _ Hst E) as (? & ? & ?). split_and!; [|done|done]. right. tauto.
Qed.

Lemma wp_destroy iss W irs R Q t l p nt :
  conn_ok iss W irs R (live t l p nt) →
  (∀ c', conn_ok iss W irs R c' → c_net c' = nt →
     (c_tcb c' = Some t ∨ (c_tcb c' = None ∧ tcb_app_closed t = true)) → Q tt c') →
  wp tcp_destroy Q (live t l p nt).
Proof.
  intros H HQ. unfold tcp_destroy. wp_steps. repeat case_match; wp_steps; try (apply HQ; by auto).
  exists tt, (mk_conn None l p nt). split; [done|]. apply HQ; [|done|bool_to_prop; auto].
  destruct H as (Hi & _ & Hn). cbn. eapply net_ok_mono; [|exact Hn]. intros s. unfold log_ok. rewrite Hi.
  apply sent_ok_mono; [done| |done|done]. unfold acked. case_decide; destruct (tcb_fin_received t); cbn; lia.
Qed.

Lemma wp_close iss W irs R Q t l p nt :
  conn_ok iss W irs R (live t l p nt) →
  (∀ c', conn_ok iss W irs R c' → (tcb_app_closed t = false → c_tcb c' ≠ None) →
     (∀ t', c_tcb c' = Some t' → tcb_pending_syn t' = tcb_pending_syn t) → Q tt c') →
  wp tcp_close Q (live t l p nt).
Proof.
  intros H HQ. unfold tcp_close, tcp_disarm_all_timers, tcp_set_state. wp_steps.
  eapply (wp_destroy iss W irs R).
  - do 2 (apply conn_ok_event; [|done]). apply conn_ok_state with l; [by eapply conn_ok_frame|].
    pose proof H as (_ & (_ & _ & _ & Hst) & _). apply st_ok_other; [by destruct Hst|set_solver|by left].
  - intros c' Hc' _ Hd. cbn in Hd. apply HQ; [done| |].
    + intros Ha. destruct Hd as [->|[_ ?]]; congruence.
    + intros t' Et'. destruct Hd as [Et|[Et _]]; rewrite Et in Et'; by simplify_eq.
Qed.

Lemma wp_set_state iss W irs R st Q t l p nt :
  conn_ok iss W irs R (live t l p nt) → st_ok R (set_state st t) →
  (conn_ok iss W irs R (live (set_state st t) l p nt) → Q tt (live (set_state st t) l p nt)) →
  wp (tcp_set_state st) Q (live t l p nt).
Proof. intros H Hst HQ. unfold tcp_set_state. wp_steps. apply HQ. by eapply conn_ok_state. Qed.

Lemma wp_time_wait iss W irs R Q t l p nt :
  conn_ok iss W irs R (live t l p nt) →
  tcb_state t ≠ TCP_STATE_SYN_SENT → tcb_state t ≠ TCP_STATE_CLOSED →
  (∀ c', conn_ok iss W irs R c' → c_tcb c' ≠ None → Q tt c') →
  wp tcp_time_wait Q (live t l p nt).
Proof.
  intros H Hs Hc HQ. pose proof H as (_ & (_ & _ & _ & Hst) & _).
  unfold tcp_time_wait, tcp_disarm_all_timers, tcp_set_state. wp_steps. apply HQ; [|done].
  apply (conn_ok_frame iss W irs R (set_state TCP_STATE_TIME_WAIT t) _ l p nt); [|done|done].
  apply (conn_ok_state iss W irs R t l p nt TCP_STATE_TIME_WAIT l); [done|].
  apply st_ok_other; [done|set_solver|by right].
Qed.

(** Our FIN is queued behind the data. *)
Lemma tx_ok_fin W a n t fl :
  tx_ok W a n t → tcb_pending_fin t = 0 → fl = 17 →
  tx_ok W a n (set_wrptr (u32 (snd_wrptr t + 1)) (set_pending_fin fl t)).
Proof.
  intros Ht H0 ->. pose proof (tx_order _ _ _ _ Ht). destruct Ht as [H1 H2 H3 H4 H5 H6 H7 H8 H9].
  unfold fin_slot in *. rewrite H0, Z.eqb_refl in *.
  split; try done; unfold fin_slot; cbn [set_wrptr set_pending_fin tcb_pending_fin snd_wrptr tcb_iss].
  - rewrite H3, u32_add. f_equal. change (17 =? 0) with false. lia.
  - change (17 =? 0) with false. lia.
  - split; [apply H8|set_solver].
Qed.

Lemma wp_send_fin iss W irs R Q t l p nt :
  conn_ok iss W irs R (live t l p nt) → tcb_pending_fin t = 0 →
  tcb_state t ∉ [TCP_STATE_SYN_SENT; TCP_STATE_SYN_RECEIVED; TCP_STATE_ESTABLISHED; TCP_STATE_CLOSE_WAIT] →
  (∀ t' nt', conn_ok iss W irs R (live t' l p nt') → Q tt (live t' l p nt')) →
  wp (tcp_send_fin (Z.lor TCP_F_FIN TCP_F_ACK)) Q (live t l p nt).
Proof.
  intros H H0 Hst HQ. unfold tcp_send_fin. apply wp_bind, wp_arm_if_idle. intros r. wp_steps.
  change (snd_nxt (set_pending_fin _ (set_rtx r t))) with
    (if false then snd_una (set_wrptr (u32 (snd_wrptr t + 1)) (set_pending_fin 17 (set_rtx r t)))
     else snd_nxt (set_wrptr (u32 (snd_wrptr t + 1)) (set_pending_fin 17 (set_rtx r t)))).
  apply (wp_emit_ok iss W irs R).
  - destruct H as (Hi & (Hsh & (a & n & Ht) & (d & Hr) & Hst0) & Hn). split_and!; [done| |].
    + split_and!; [by destruct Hsh| |exists d; by destruct Hr|].
      * exists a, n. apply (tx_ok_fin W a n (set_rtx r t) 17); [by destruct Ht|done|done].
      * split; [cbn [set_wrptr set_pending_fin set_rtx tcb_state]; intros ?; set_solver..|]. apply Hst0.
    + eapply net_ok_mono; [|exact Hn]. intros s. apply sent_ok_mono; [done|done|by intros|done].
  - intros err da n' x y nt' H' _. wp_steps. by apply HQ.
Qed.

(** The parts of the task. *)
Lemma wp_wnd_open iss W irs R (b : bool) a n Q t l p nt :
  conn_ok iss W irs R (live t l p nt) → tx_ok W a n t →
  (∀ da n' x y nt', n <= n' → tx_ok W a n' (emitted t da n' x y) →
     conn_ok iss W irs R (live (emitted t da n' x y) l p nt') → Q tt (live (emitted t da n' x y) l p nt')) →
  wp (whenM b (t ← get; whenM (tcb_state t =? TCP_STATE_ESTABLISHED) (tcp_emit false (snd_nxt t) true;; mret tt))) Q
    (live t l p nt).
Proof.
  intros H Ht HQ. assert (Q tt (live t l p nt)) as Hself.
  { specialize (HQ (tcb_delayed_ack_timer t) n (tcb_tx_bytes t) (tcb_rtx_bytes t) nt).
    rewrite <- (emitted_self t n (tx_nxt _ _ _ _ Ht)) in HQ. by apply HQ. }
  unfold whenM. destruct b; wp_steps; [|done]. case_match; wp_steps; [|done].
  pose proof H as (Hi & (Hsh & _ & (d & Hr) & Hst) & Hn). rewrite (tx_nxt _ _ _ _ Ht).
  eapply (wp_emit W a n irs (acked R t) _ n); try done; [by eapply rx_acks|by left|].
  intros err da n' x y nt' Ht' Hle _ Hn' _. wp_steps. apply HQ; [done|done|].
  split_and!; [done| |done]. split_and!; [by destruct Hsh|by exists a, n'|exists d; by destruct Hr|by destruct Hst].
Qed.

Lemma wp_drain_all iss W irs R (b force : bool) fuel a n Q t l p nt :
  conn_ok iss W irs R (live t l p nt) → tx_ok W a n t →
  (Z.to_nat (1 + Z.of_nat (length W) + fin_slot t - n) < fuel)%nat →
  (∀ t' nt', conn_ok iss W irs R (live t' l p nt') → Q tt (live t' l p nt')) →
  wp (whenM b (t ← get; whenM (can_send (tcb_state t)) (arm_if_idle;; drain fuel force))) Q (live t l p nt).
Proof.
  intros H Ht Hf HQ. unfold whenM. destruct b; wp_steps; [|by apply HQ].
  case_match; wp_steps; [|by apply HQ]. apply wp_arm_if_idle. intros r.
  eapply (wp_drain iss W irs R _ _ _ _ _ _ _ a n); [by eapply conn_ok_frame|by destruct Ht| |eauto].
  change (fin_slot (set_rtx r t)) with (fin_slot t). lia.
Qed.

Lemma wp_finish iss W irs R st t l p nt :
  conn_ok iss W irs R (live t l p nt) → st ∈ [TCP_STATE_FIN_WAIT1; TCP_STATE_LAST_ACK] →
  tcb_state t ∈ [TCP_STATE_ESTABLISHED; TCP_STATE_SYN_RECEIVED; TCP_STATE_CLOSE_WAIT] →
  wp (tcp_set_state st;; tcp_send_fin (Z.lor TCP_F_FIN TCP_F_ACK))
    (λ _ c', ∃ t' nt', c' = live t' l p nt' ∧ conn_ok iss W irs R c') (live t l p nt).
Proof.
  intros H Hst Hs. pose proof H as (_ & (_ & _ & _ & Hok) & _).
  wp_steps. eapply wp_set_state; [exact H| |].
  - apply st_ok_other; [done|set_solver|]. right. split; intros E; rewrite E in Hs; set_solver.
  - intros H'. eapply wp_send_fin; [exact H'| |cbn; set_solver|by intros t' nt' ?; exists t', nt'].
    apply (st_fin _ _ Hok). set_solver.
Qed.

Lemma wp_app_close iss W irs R (b : bool) t l p nt :
  conn_ok iss W irs R (live t l p nt) →
  wp (whenM b
    (modify (set_app_closed true);;
     t ← get;
     (if ((tcb_state t =? TCP_STATE_ESTABLISHED) || (tcb_state t =? TCP_STATE_SYN_RECEIVED))%bool then
        tcp_set_state TCP_STATE_FIN_WAIT1;; tcp_send_fin (Z.lor TCP_F_FIN TCP_F_ACK)
      else if tcb_state t =? TCP_STATE_CLOSE_WAIT then
        tcp_set_state TCP_STATE_LAST_ACK;; tcp_send_fin (Z.lor TCP_F_FIN TCP_F_ACK)
      else mret tt);;
     tcp_destroy)) (λ _ c', conn_ok iss W irs R c') (live t l p nt).
Proof.
  intros H. unfold whenM. destruct b; [|by wp_steps]. wp_steps.
  assert (conn_ok iss W irs R (live (set_app_closed true t) l p nt)) as H1 by by eapply conn_ok_frame.
  set (t1 := set_app_closed true t) in *. clearbody t1.
  assert (∀ t' nt', conn_ok iss W irs R (live t' l p nt') →
    wp tcp_destroy (λ _ c', conn_ok iss W irs R c') (live t' l p nt')) as Hd.
  { intros t' nt' H'. eapply wp_destroy; [exact H'|]. by intros. }
  assert (∀ st, st ∈ [TCP_STATE_FIN_WAIT1; TCP_STATE_LAST_ACK] →
    tcb_state t1 ∈ [TCP_STATE_ESTABLISHED; TCP_STATE_SYN_RECEIVED; TCP_STATE_CLOSE_WAIT] →
    wp (tcp_set_state st;; tcp_send_fin (Z.lor TCP_F_FIN TCP_F_ACK))
      (λ _ c', wp tcp_destroy (λ _ c', conn_ok iss W irs R c') c') (live t1 l p nt)) as Hfin.
  { intros st Hst Hs. eapply wp_mono; [by eapply (wp_finish iss W irs R)|].
    intros _ ? (t' & nt' & -> & H'). by apply Hd. }
  destruct (_ || _)%bool eqn:E; [|destruct (Z.eqb_spec (tcb_state t1) TCP_STATE_CLOSE_WAIT) as [E'|]].
  - apply orb_true_iff in E. rewrite !Z.eqb_eq in E. apply Hfin; set_solver.
  - apply Hfin; [set_solver|]. rewrite E'. set_solver.
  - wp_steps. by apply Hd.
Qed.

(** The invariant holds after the task has run, whatever was signalled except a new
    connect. *)
Lemma wp_task iss W irs R signals fuel t l p nt :
  conn_ok iss W irs R (live t l p nt) → has signals TCP_EVENT_CONNECT = false →
  (Z.to_nat (u32 (snd_wrptr t - snd_nxt t)) < fuel)%nat →
  wp (tcp_task_cb fuel signals) (λ _ c', conn_ok iss W irs R c') (live t l p nt).
Proof.
  intros H Hsig Hf. unfold tcp_task_cb. rewrite Hsig. wp_steps. apply wp_when_false. wp_steps.
  pose proof H as (_ & (Hsh & (a & n & Ht) & _) & _). destruct (tx_used _ _ _ _ Hsh Ht) as (_ & Hun & _).
  eapply wp_wnd_open; [exact H|exact Ht|]. intros da n1 x y nt1 Hle Ht1 H1. wp_steps.
  eapply wp_drain_all; [exact H1|exact Ht1|change (fin_slot (emitted _ _ _ _ _)) with (fin_slot t); lia|].
  intros t2 nt2 H2. by apply wp_app_close.
Qed.

(** The timers keep the invariant: a retransmission sends written bytes from the
    oldest unacknowledged one on (or a keep-alive, or gives the connection up), a
    delayed acknowledgement what is new, and the end of TIME_WAIT closes. *)
Lemma wp_timers iss W irs R now t l p nt :
  conn_ok iss W irs R (live t l p nt) →
  wp (tcp_rtx_cb now) (λ _ c', conn_ok iss W irs R c') (live t l p nt) ∧
  wp (tcp_delayed_ack_cb now) (λ _ c', conn_ok iss W irs R c') (live t l p nt) ∧
  wp (tcp_time_wait_cb now) (λ _ c', conn_ok iss W irs R c') (live t l p nt).
Proof.
  intros H. split_and!.
  - unfold tcp_rtx_cb. wp_steps.
    assert (conn_ok iss W irs R (live (set_rtx None t) l p nt)) as H1 by by eapply conn_ok_frame.
    set (t1 := set_rtx None t) in *. clearbody t1.
    assert (∀ t' nt', conn_ok iss W irs R (live t' l p nt') →
      wp (arm_rtx now) (λ _ c', conn_ok iss W irs R c') (live t' l p nt')) as Harm.
    { intros t' nt' H'. apply wp_arm_rtx. intros r. by eapply conn_ok_frame. }
    case_match; [by eapply wp_close; [exact H1|]|]. wp_steps. case_match; wp_steps.
    + case_match; wp_steps; [|by apply Harm]. pose proof H1 as (Hi & Hok & Hn).
      pose proof Hok as (_ & _ & (d & Hr) & Hst).
      eapply wp_make; [exact Hn|]. intros ok nt' Hn' _. destruct ok; wp_steps; [|by apply Harm; split_and!].
      apply (wp_output_tcb (log_ok W irs R t1)); [done| |].
      * intros s E1 E2 E3 E4. eapply sent_plain; [exact E1|exact E2|exact E3|done|left; by rewrite E4|done|by rewrite E4|].
        intros _ _. apply (rx_acks_open irs R d t1); [done|]. intros Ep. bool_to_prop.
        destruct (st_active _ _ Hst Ep) as [[Es|Es] _];
          by match goal with H : tcb_state t1 = TCP_STATE_ESTABLISHED |- _ => rewrite H in Es end.
      * intros err nt2 Hn2 _. wp_steps. by apply Harm; split_and!.
    + change (snd_una t1) with (if true then snd_una t1 else snd_nxt t1). apply (wp_emit_ok iss W irs R); [done|].
      intros. wp_steps. by apply Harm.
  - unfold tcp_delayed_ack_cb. wp_steps.
    change (snd_nxt ?t) with (if false then snd_una t else snd_nxt t).
    apply (wp_emit_ok iss W irs R); [by eapply conn_ok_frame|]. intros. by wp_steps.
  - unfold tcp_time_wait_cb. wp_steps. eapply wp_close; [by eapply conn_ok_frame|]. by intros.
Qed.

(** ** Writing *)

Lemma tx_avail W a n t : shape t → tx_ok W a n t → tcb_pending_fin t = 0 →
  tcb_txfifo_avail t = tcb_txfifo_size t - (1 + Z.of_nat (length W) - a).
Proof.
  intros Hsh Ht H0. destruct (tx_used _ _ _ _ Hsh Ht) as (Hu & _). pose proof (tx_fits _ _ _ _ Ht).
  pose proof (tx_order _ _ _ _ Ht). pose proof (pow2_pos _ (sh_tx _ Hsh)).
  unfold tcb_txfifo_avail, tcb_txfifo_used. unfold fin_slot in *. rewrite H0, Z.eqb_refl in *.
  rewrite Hu, u32_id by (unfold is_u32; lia). lia.
Qed.

(** A block after [src] was stored behind what was written. *)
Definition wrote (t : tcb) (src : list Z) (m : list Z) : tcb :=
  set_wrptr (u32 (snd_wrptr t + Z.of_nat (length src))) (set_buffer m t).

Lemma store_tx iss W irs R t l p nt src :
  conn_ok iss W irs R (live t l p nt) → tcb_pending_fin t = 0 →
  Z.of_nat (length src) <= tcb_txfifo_avail t → Z.of_nat (length src) < tcb_txfifo_size t →
  ∃ m, ltow_memcpy (tcb_buffer t) 0 src (snd_wrptr t) (tcb_txfifo_size t) = Ret m ∧
    conn_ok iss (W ++ src) irs R (live (wrote t src m) l p nt).
Proof.
  intros (Hi & (Hsh & (a & n & Ht) & (d & Hr) & Hst) & Hn) H0 Hav Hlt.
  rewrite (tx_avail W a n t) in Hav by done.
  pose proof (tx_order _ _ _ _ Ht) as Hord. pose proof (tx_fits _ _ _ _ Ht) as Hfit.
  pose proof (pow2_pos _ (sh_tx _ Hsh)). pose proof (pow2_pos _ (sh_rx _ Hsh)).
  assert (fin_slot t = 0) as Hfs by (unfold fin_slot; by rewrite H0).
  set (u := drop (Z.to_nat (Z.max a 1 - 1)) W).
  assert (Z.of_nat (length u) = 1 + Z.of_nat (length W) - Z.max a 1) as Hu by (subst u; rewrite length_drop; lia).
  destruct (ltow_holds (tcb_buffer t) 0 (tcb_txfifo_size t) (tcb_iss t + Z.max a 1) u src)
    as (m & E & Hlm & Hm & Hfr); [apply Hsh|lia|rewrite (sh_buf _ Hsh); lia|lia|by left|apply Ht|].
  exists m. split.
  { rewrite <- E. f_equal. rewrite (tx_wrptr _ _ _ _ Ht). f_equal. lia. }
  split_and!; [done| |].
  - split_and!.
    + destruct Hsh. split; try done. cbn. by rewrite Hlm.
    + exists a, n. destruct Ht as [T1 T2 T3 T4 T5 T6 T7 T8 T9].
      split; try done; unfold wrote, fin_slot; cbn [set_wrptr set_buffer snd_wrptr tcb_iss tcb_pending_fin
        tcb_txfifo_size tcb_buffer]; fold (fin_slot t).
      * rewrite T3, u32_add, length_app. f_equal. lia.
      * rewrite length_app. lia.
      * rewrite length_app. lia.
      * subst u. rewrite drop_app_le; [done|lia].
    + exists d. destruct Hr as [R1 R2 R3 R4 R5]. split; try done.
      eapply holds_frame; [| | |exact R5]; cbn; [lia|lia|]. intros j Hj. apply Hfr; lia.
    + by destruct Hst.
  - eapply net_ok_mono; [|exact Hn]. intros s. apply sent_ok_mono; [by apply prefix_app_r|done|done|done].
Qed.

Lemma wrote_avail t src m :
  Z.of_nat (length src) <= tcb_txfifo_avail t →
  tcb_txfifo_avail (wrote t src m) = tcb_txfifo_avail t - Z.of_nat (length src).
Proof.
  unfold tcb_txfifo_avail, tcb_txfifo_used, wrote. cbn [set_wrptr set_buffer snd_wrptr snd_una tcb_txfifo_size].
  set (k := Z.of_nat (length src)). assert (0 <= k) by lia. clearbody k. intros Hk.
  assert (u32 (u32 (snd_wrptr t + k) - snd_una t) = u32 (u32 (snd_wrptr t - snd_una t) + k)) as ->.
  { rewrite u32_add. unfold u32. rewrite Zminus_mod_idemp_l. f_equal. lia. }
  set (u := u32 (snd_wrptr t - snd_una t)) in *. clearbody u. unfold u32 in *. dlia.
Qed.

(** The write meets a full FIFO. *)
Lemma wp_fifo_full (flags w : Z) rest (Q : out (list Z * Z) + Z → conn → Prop) t l p nt :
  (∀ nt' r, nt' = nt ∨ nt' = emit_event (Raise TCP_EVENT_EMIT) nt →
     (r = inl (Done w) ∧ (has flags STREAM_WRITE_NO_WAIT = true ∨ tcb_state t = TCP_STATE_CLOSED)) ∨
     r = inl (Sleep (rest, w)) → Q r (live t l p nt')) →
  wp (if (has flags STREAM_WRITE_NO_WAIT || (tcb_state t =? TCP_STATE_CLOSED))%bool
      then mret (inl (Done w)) else put_event (Raise TCP_EVENT_EMIT);; mret (inl (Sleep (rest, w))))
    Q (live t l p nt).
Proof.
  intros HQ. destruct (_ || _)%bool eqn:E; wp_steps; apply HQ; auto. left. split; [done|].
  apply orb_true_iff in E. by rewrite Z.eqb_eq in E.
Qed.

(** How far a write got with [buf]: [j] bytes are written and queued; it wrote all, or
    the FIFO is full, and then it returns if it may not wait and otherwise sleeps. *)
Lemma wp_write_loop iss W irs R flags written buf fuel Q t l p nt :
  conn_ok iss W irs R (live t l p nt) → tcb_pending_fin t = 0 →
  Z.of_nat (length buf) < tcb_txfifo_size t → (2 < fuel)%nat →
  (∀ r t' nt' j, conn_ok iss (W ++ take j buf) irs R (live t' l p nt') → (j <= length buf)%nat →
     tcb_pending_fin t' = 0 → tcb_txfifo_size t' = tcb_txfifo_size t → tcb_state t' = tcb_state t →
     (r = inr (written + Z.of_nat j) ∧ j = length buf ∨
      r = inl (Done (written + Z.of_nat j)) ∧ tcb_txfifo_avail t' = 0 ∧
        (has flags STREAM_WRITE_NO_WAIT = true ∨ tcb_state t = TCP_STATE_CLOSED) ∨
      r = inl (Sleep (drop j buf, written + Z.of_nat j)) ∧ tcb_txfifo_avail t' = 0 ∧ (j < length buf)%nat) →
     Q r (live t' l p nt')) →
  wp (write_loop fuel buf flags written) Q (live t l p nt).
Proof.
  intros H H0 Hlt Hf HQ. destruct fuel as [|fuel]; [lia|]. destruct fuel as [|fuel]; [lia|].
  cbn [write_loop]. destruct buf as [|b buf].
  { wp_steps. apply (HQ _ t nt 0%nat); try done; [by rewrite app_nil_r|]. left. split; [f_equal; lia|done]. }
  (* the FIFO is full *)
  assert (∀ t' nt' j rest, conn_ok iss (W ++ take j (b :: buf)) irs R (live t' l p nt') →
      (j < length (b :: buf))%nat → tcb_pending_fin t' = 0 → tcb_txfifo_size t' = tcb_txfifo_size t →
      tcb_state t' = tcb_state t → tcb_txfifo_avail t' = 0 → rest = drop j (b :: buf) →
      wp (if (has flags STREAM_WRITE_NO_WAIT || (tcb_state t' =? TCP_STATE_CLOSED))%bool
          then mret (inl (Done (written + Z.of_nat j)))
          else put_event (Raise TCP_EVENT_EMIT);; mret (inl (Sleep (rest, written + Z.of_nat j))))
        Q (live t' l p nt')) as Hfull.
  { intros t' nt' j rest H' Hj Hpf Hsz Hst' Ha ->. apply wp_fifo_full. intros nt1 r Hnt Hr.
    apply (HQ r t' nt1 j); try done; [|lia|rewrite <- Hst'; naive_solver].
    destruct Hnt as [->| ->]; [done|by apply conn_ok_event]. }
  wp_steps. destruct (Z.eqb_spec (tcb_txfifo_avail t) 0) as [Ea|Ea].
  { replace written with (written + Z.of_nat 0) by lia. apply (Hfull t nt 0%nat); try done; [|cbn; lia].
    by rewrite app_nil_r. }
  set (k := Z.min (Z.of_nat (length (b :: buf))) (tcb_txfifo_avail t)).
  assert (0 < k <= Z.of_nat (length (b :: buf))) as Hk.
  { assert (0 <= tcb_txfifo_avail t) by (unfold tcb_txfifo_avail, u32; apply Z.mod_pos_bound; lia).
    cbn [length] in *. lia. }
  assert (length (take (Z.to_nat k) (b :: buf)) = Z.to_nat k) as Elk by (rewrite length_take; lia).
  destruct (store_tx iss W irs R t l p nt (take (Z.to_nat k) (b :: buf)) H H0) as (m & Em & Hm); [lia|lia|].
  wp_steps. eapply wp_lift; [exact Em|]. wp_steps.
  replace (set_wrptr _ (set_buffer m t)) with (wrote t (take (Z.to_nat k) (b :: buf)) m)
    by (unfold wrote; by rewrite Elk, Z2Nat.id by lia).
  set (t1 := wrote _ _ _) in *.
  assert (tcb_pending_fin t1 = 0 ∧ tcb_txfifo_size t1 = tcb_txfifo_size t ∧ tcb_state t1 = tcb_state t)
    as (Hp1 & Hs1 & Hst1) by done.
  assert (tcb_txfifo_avail t1 = tcb_txfifo_avail t - k) as Hav1 by (subst t1; rewrite wrote_avail; lia).
  clearbody t1. destruct (drop (Z.to_nat k) (b :: buf)) as [|c rest] eqn:Ed.
  - wp_steps. apply (HQ _ t1 nt (Z.to_nat k)); try done; [lia|]. left.
    apply (f_equal length) in Ed. rewrite length_drop in Ed. cbn [length] in *. split; [f_equal; lia|lia].
  - assert (Z.of_nat (length (b :: buf)) > k) as Hgt.
    { apply (f_equal length) in Ed. rewrite length_drop in Ed. cbn [length] in *. lia. }
    wp_steps. rewrite (proj2 (Z.eqb_eq (tcb_txfifo_avail t1) 0)) by lia.
    replace (written + k) with (written + Z.of_nat (Z.to_nat k)) by lia.
    apply Hfull; try done; lia.
Qed.

(** How a pass of a write that started with [iov] ends after [j] bytes. *)
Definition write_end (flags state : Z) (iov : list (list Z)) (j : nat) (written : Z)
    (o : out (list (list Z) * Z)) (t' : tcb) : Prop :=
  (j <= length (concat iov))%nat ∧
  ((o = Done (written + Z.of_nat j) ∧
      (j = length (concat iov) ∨
       tcb_txfifo_avail t' = 0 ∧ (has flags STREAM_WRITE_NO_WAIT = true ∨ state = TCP_STATE_CLOSED))) ∨
   (∃ left, o = Sleep (left, written + Z.of_nat j) ∧ concat left = drop j (concat iov) ∧
      left ≠ [] ∧ tcb_txfifo_avail t' = 0)).

Lemma wp_writev_loop iss W irs R flags iov written Q t l p nt :
  conn_ok iss W irs R (live t l p nt) → tcb_pending_fin t = 0 →
  Forall (λ b, Z.of_nat (length b) < tcb_txfifo_size t) iov →
  (∀ o t' nt' j, conn_ok iss (W ++ take j (concat iov)) irs R (live t' l p nt') →
     write_end flags (tcb_state t) iov j written o t' → Q o (live t' l p nt')) →
  wp (writev_loop iov flags written) Q (live t l p nt).
Proof.
  revert W written t nt. induction iov as [|buf iov IH]; intros W written t nt H H0 Hall HQ; cbn [writev_loop].
  - wp_steps. unfold whenM. assert (∀ nt', conn_ok iss W irs R (live t l p nt') → Q (Done written) (live t l p nt')) as Hq.
    { intros nt' H'. apply (HQ _ t nt' 0%nat); [by rewrite app_nil_r|]. split; [cbn; lia|].
      left. split; [f_equal; lia|by left]. }
    case_match; wp_steps; apply Hq; [by apply conn_ok_event|done].
  - apply Forall_cons_1 in Hall as [Hb Hall]. wp_steps.
    eapply (wp_write_loop iss W irs R); [done|done|done|lia|].
    intros r t1 nt1 j H1 Hj Hp1 Hs1 Hst1 Hr. cbn [concat].
    destruct Hr as [[-> ->]|[(-> & Ha & Hw)|(-> & Ha & Hlt)]].
    + rewrite take_ge in H1 by lia. apply (IH (W ++ buf)); [done|done|by rewrite Hs1|].
      intros o t2 nt2 j H2 [Hj2 He]. apply (HQ o t2 nt2 (length buf + j)%nat).
      * cbn [concat]. rewrite take_app_add', app_assoc by done. done.
      * unfold write_end in *. rewrite Hst1 in He. cbn [concat]. rewrite length_app.
        split; [lia|]. rewrite drop_app_add' by done.
        replace (written + Z.of_nat (length buf + j)) with (written + Z.of_nat (length buf) + Z.of_nat j) by lia.
        destruct He as [[-> [->|?]]|?]; [left; split; [done|by left]|left; split; [done|by right]|by right].
    + wp_steps. apply (HQ _ t1 nt1 j).
      * cbn [concat]. rewrite take_app_le by done. done.
      * unfold write_end. cbn [concat]. rewrite length_app. split; [lia|]. left. split; [done|]. by right.
    + wp_steps. apply (HQ _ t1 nt1 j).
      * cbn [concat]. rewrite take_app_le by done. done.
      * unfold write_end. cbn [concat]. rewrite length_app. split; [lia|]. right.
        exists (drop j buf :: iov). split_and!; [done| |done|done]. cbn [concat]. rewrite drop_app_le by lia. done.
Qed.

(** A write queues the bytes of its vector behind what was written before, in order. *)
Lemma wp_writev iss W irs R flags iov t l p nt :
  conn_ok iss W irs R (live t l p nt) → tcb_pending_fin t = 0 →
  Forall (λ b, Z.of_nat (length b) < tcb_txfifo_size t) iov →
  wp (tcp_stream_writev iov flags) (λ o c',
    (o = Done ERR_NOT_CONNECTED ∧ tcb_state t = TCP_STATE_CLOSED ∧ c' = live t l p nt) ∨
    (o = Done 0 ∧ has flags STREAM_WRITE_ALL = true ∧ tcb_txfifo_avail t < iov_total iov ∧ c' = live t l p nt) ∨
    ∃ t' j, c_tcb c' = Some t' ∧ conn_ok iss (W ++ take j (concat iov)) irs R c' ∧
      write_end flags (tcb_state t) iov j 0 o t') (live t l p nt).
Proof.
  intros H H0 Hall. unfold tcp_stream_writev. wp_steps.
  destruct (Z.eqb_spec (tcb_state t) TCP_STATE_CLOSED); [wp_steps; by left|].
  destruct (_ && _)%bool eqn:E; [wp_steps; bool_to_prop; right; by left|].
  eapply wp_writev_loop; [done|done|done|]. intros o t' nt' j H' He. right. right. by exists t', j.
Qed.

(** ** Reading *)

Lemma rx_user_bytes irs R d t : shape t → rx_ok irs R d t →
  tcb_rxfifo_user_bytes t =
    if decide (tcb_state t = TCP_STATE_CLOSED ∨ (tcb_fin_received t = true ∧ d = Z.of_nat (length R)))
    then ERR_NOT_CONNECTED else Z.of_nat (length R) - d.
Proof.
  intros Hsh Hr. pose proof (rx_order _ _ _ _ Hr). pose proof (rx_fits _ _ _ _ Hr).
  pose proof (pow2_pos _ (sh_rx _ Hsh)). unfold tcb_rxfifo_user_bytes, tcb_rxfifo_used.
  destruct (Z.eqb_spec (tcb_state t) TCP_STATE_CLOSED); [by rewrite decide_True by auto|].
  rewrite (rx_nxt _ _ _ _ Hr), (rx_rdptr _ _ _ _ Hr).
  destruct (tcb_fin_received t) eqn:Ef; cbn [b2z]; rewrite u32_sub by lia.
  - destruct (Z.leb_spec (irs + 1 + Z.of_nat (length R) + 1 - (irs + 1 + d)) 1).
    + rewrite decide_True by lia. done.
    + rewrite decide_False by naive_solver lia. lia.
  - rewrite decide_False by naive_solver. lia.
Qed.

(** A block after [k] bytes were consumed. *)
Definition consumed (t : tcb) (k : Z) (wc : bool) : tcb :=
  set_window_closed wc (set_rdptr (u32 (rcv_rdptr t + k)) t).

Lemma consumed_ok iss W irs R d t l p nt k wc :
  conn_ok iss W irs R (live t l p nt) → rx_ok irs R d t → 0 <= k <= Z.of_nat (length R) - d →
  conn_ok iss W irs R (live (consumed t k wc) l p nt) ∧ rx_ok irs R (d + k) (consumed t k wc).
Proof.
  intros (Hi & (Hsh & (a & n & Ht) & _ & Hst) & Hn) Hr Hk.
  assert (rx_ok irs R (d + k) (consumed t k wc)) as Hr'.
  { destruct Hr as [R1 R2 R3 R4 R5]. split; try done.
    - cbn. by rewrite R2, u32_add, Z.add_assoc.
    - lia.
    - cbn. lia.
    - apply (holds_drop _ _ _ _ _ k) in R5; [|lia]. rewrite drop_drop in R5.
      replace (Z.to_nat d + Z.to_nat k)%nat with (Z.to_nat (d + k)) in R5 by lia.
      by rewrite <- Z.add_assoc in R5. }
  split; [|done]. split_and!; [done| |done].
  split_and!; [by destruct Hsh|exists a, n; by destruct Ht|by exists (d + k)|by destruct Hst].
Qed.

Lemma wp_consume iss W irs R d k Q t l p nt :
  conn_ok iss W irs R (live t l p nt) → rx_ok irs R d t → 0 <= k <= Z.of_nat (length R) - d →
  (∀ wc nt', conn_ok iss W irs R (live (consumed t k wc) l p nt') → rx_ok irs R (d + k) (consumed t k wc) →
     Q tt (live (consumed t k wc) l p nt')) →
  wp (tcp_rxfifo_consume k) Q (live t l p nt).
Proof.
  intros H Hr Hk HQ. unfold tcp_rxfifo_consume. wp_steps.
  assert (∀ wc, conn_ok iss W irs R (live (consumed t k wc) l p nt) ∧ rx_ok irs R (d + k) (consumed t k wc)) as Hc
    by (intros; by apply consumed_ok).
  assert (set_rdptr (u32 (rcv_rdptr t + k)) t = consumed t k (rcv_window_closed t)) as Eself by by destruct t.
  destruct (rcv_window_closed t) eqn:Ew; cbn [negb]; wp_steps.
  - case_match; wp_steps.
    + rewrite Eself. apply HQ; apply Hc.
    + change (set_window_closed false (set_rdptr (u32 (rcv_rdptr t + k)) t)) with (consumed t k false).
      apply HQ; [apply conn_ok_event; [|done]|]; apply Hc.
  - rewrite Eself. apply HQ; apply Hc.
Qed.

Lemma read_ring irs R d t k : shape t → rx_ok irs R d t →
  0 <= k <= Z.of_nat (length R) - d → k < tcb_rxfifo_size t →
  wtol_memcpy (tcb_buffer t) (tcb_rxfifo t) k (rcv_rdptr t) (tcb_rxfifo_size t) =
    Ret (take (Z.to_nat k) (drop (Z.to_nat d) R)).
Proof.
  intros Hsh Hr Hk Hlt. pose proof (rx_order _ _ _ _ Hr). pose proof (pow2_pos _ (sh_tx _ Hsh)).
  assert (length (take (Z.to_nat k) (drop (Z.to_nat d) R)) = Z.to_nat k) as El by (rewrite length_take, length_drop; lia).
  replace k with (Z.of_nat (length (take (Z.to_nat k) (drop (Z.to_nat d) R)))) at 1 by lia.
  unfold tcb_rxfifo. apply wtol_ok; [apply Hsh|lia|rewrite (sh_buf _ Hsh); lia|lia|].
  rewrite (rx_rdptr _ _ _ _ Hr). apply holds_u32; [apply Hsh|].
  pose proof (holds_sub _ _ _ _ _ 0 (Z.to_nat k) ltac:(lia) (rx_ring _ _ _ _ Hr)) as Hs. by rewrite Z.add_0_r in Hs.
Qed.

(** How a pass of a read ends when it took [bs] of the stream from position [d] on. *)
Definition read_end (R : list Z) (d size require total : Z) (t : tcb) (o : out Z) (bs : list Z) : Prop :=
  let n := total + Z.of_nat (length bs) in
  let at_end := d + Z.of_nat (length bs) = Z.of_nat (length R) in
  n <= size ∧ bs = take (length bs) (drop (Z.to_nat d) R) ∧
  ((o = Done n ∧ (n = size ∨ (require <= n ∧ at_end))) ∨
   (o = Sleep n ∧ n < require ∧ at_end ∧ tcb_fin_received t = false) ∨
   (o = Done ERR_NOT_CONNECTED ∧ n < size ∧
      (tcb_state t = TCP_STATE_CLOSED ∨ tcb_fin_received t = true ∧ at_end))).

Lemma wp_read_idle iss W irs R d size require total Q t l p nt fuel :
  conn_ok iss W irs R (live t l p nt) → rx_ok irs R d t → (0 < fuel)%nat → 0 <= size →
  (size = 0 ∨ d = Z.of_nat (length R) ∨ tcb_state t = TCP_STATE_CLOSED) →
  (∀ o, read_end R d (total + size) require total t o [] → Q (o, []) (live t l p nt)) →
  wp (read_loop fuel size require total) Q (live t l p nt).
Proof.
  intros H Hr Hf Hs Hidle HQ. destruct fuel as [|fuel]; [lia|]. cbn [read_loop].
  pose proof H as (_ & (Hsh & _) & _). pose proof (rx_order _ _ _ _ Hr).
  assert (∀ o, (o = Done total ∧ (size = 0 ∨ require <= total ∧ d = Z.of_nat (length R))) ∨
    (o = Sleep total ∧ total < require ∧ d = Z.of_nat (length R) ∧ tcb_fin_received t = false) ∨
    (o = Done ERR_NOT_CONNECTED ∧ size ≠ 0 ∧
      (tcb_state t = TCP_STATE_CLOSED ∨ tcb_fin_received t = true ∧ d = Z.of_nat (length R))) →
    Q (o, []) (live t l p nt)) as HQ'.
  { intros o Ho. apply HQ. unfold read_end. cbn [length]. rewrite !Z.add_0_r. split; [lia|]. split; [done|].
    destruct Ho as [[-> [->|?]]|[?|(? & ? & ?)]].
    - left. split; [done|]. left. lia.
    - left. split; [done|by right].
    - right. by left.
    - right. right. split; [done|]. split; [lia|done]. }
  destruct (Z.eqb_spec size 0) as [->|Hs0]; [wp_steps; apply HQ'; by auto|]. wp_steps.
  rewrite (rx_user_bytes irs R d t) by done. case_decide as Hd.
  - change (ERR_NOT_CONNECTED <? 0) with true. cbv iota. wp_steps. apply HQ'. naive_solver.
  - destruct Hidle as [?|[Hend|?]]; [done| |tauto].
    rewrite Hend, Z.sub_diag. change (0 <? 0) with false. change (0 =? 0) with true. cbv iota.
    assert (tcb_fin_received t = false) as Hfn by (destruct (tcb_fin_received t); [tauto|done]).
    case_match; bool_to_prop; wp_steps; apply HQ'; [by auto 10 with lia|]. right. left. split_and!; try done.
Qed.

(** A read hands out bytes of the received stream from where the last one stopped. *)
Lemma wp_read iss W irs R d size require total t l p nt :
  conn_ok iss W irs R (live t l p nt) → rx_ok irs R d t →
  0 <= total <= size → size - total < tcb_rxfifo_size t →
  wp (tcp_stream_read size require total) (λ '(o, bs) c', ∃ t', c_tcb c' = Some t' ∧
    conn_ok iss W irs R c' ∧ rx_ok irs R (d + Z.of_nat (length bs)) t' ∧
    read_end R d size require total t o bs) (live t l p nt).
Proof.
  intros H Hr Htot Hsz. unfold tcp_stream_read. pose proof H as (_ & (Hsh & _) & _).
  pose proof (rx_order _ _ _ _ Hr) as Hord.
  destruct (decide (size - total = 0 ∨ d = Z.of_nat (length R) ∨ tcb_state t = TCP_STATE_CLOSED)) as [Hi|Hi].
  { eapply wp_read_idle; [done|done|lia|lia|done|]. intros o Ho. replace (total + (size - total)) with size in Ho by lia.
    exists t. cbn [length]. rewrite Z.add_0_r. done. }
  pose (f := 2%nat). change 3%nat with (S f). assert (0 < f)%nat as Hf by (unfold f; lia). clearbody f.
  cbn [read_loop]. rewrite (proj2 (Z.eqb_neq _ _)) by lia. wp_steps.
  rewrite (rx_user_bytes irs R d t) by done. rewrite decide_False by tauto.
  rewrite (proj2 (Z.ltb_ge _ _)), (proj2 (Z.eqb_neq _ _)) by lia.
  set (k := Z.min _ _). assert (0 < k <= Z.of_nat (length R) - d) as Hk by lia. wp_steps.
  eapply wp_lift; [apply (read_ring irs R d t k); [done|done|lia|lia]|]. wp_steps.
  apply (wp_consume iss W irs R d); [done|done|lia|]. intros wc nt' H' Hr'. wp_steps.
  set (bs := take (Z.to_nat k) (drop (Z.to_nat d) R)).
  assert (length bs = Z.to_nat k) as Hlb by (subst bs; rewrite length_take, length_drop; lia).
  apply (wp_read_idle iss W irs R (d + k)); [done|done|lia|lia| |].
  - destruct (decide (size - total <= Z.of_nat (length R) - d)); [left; lia|right; left; lia].
  - intros o Ho. wp_steps. rewrite app_nil_r. exists (consumed t k wc). split; [done|]. split; [done|].
    rewrite Hlb, Z2Nat.id by lia. split; [done|]. unfold read_end in *. cbn [length] in Ho.
    rewrite !Z.add_0_r in Ho. rewrite Hlb, Z2Nat.id by lia.
    change (tcb_state (consumed t k wc)) with (tcb_state t) in Ho.
    change (tcb_fin_received (consumed t k wc)) with (tcb_fin_received t) in Ho.
    split; [lia|]. split; [by subst bs|].
    replace (total + k + (size - total - k)) with size in Ho by lia. apply Ho.
Qed.
