(* ===== verification/TcpInput.v ===== *)
(** * TcpInput: segments arriving on a TCP connection ([src/net/ipv4/tcp.c])

    [tcp_input_tcb] keeps the invariant of [TcpInv] for every segment within [sane], and
    delivers to the receive stream exactly the payload of segments that are next in
    sequence. *)

From Stdlib Require Import ZArith Lia.
From stdpp Require Import base list numbers gmap.
From S2P Require Import Prelude Ipv4 Tcp TcpInv.

Open Scope Z_scope.

(** What is asked of an arriving segment besides its form: no simultaneous open, no
    acknowledgement of anything but our SYN while that is pending, nothing after the
    peer's FIN, and not in [LAST_ACK]; a closed block is not on the list.  [TcpSpec]
    shows what happens in [LAST_ACK] and on an early acknowledgement. *)
Record sane (i : input) (t : tcb) : Prop := {
  sn_wnd : 0 <= th_wnd (in_th i);
  sn_len : 20 <= in_hdr_len i <= pktlen (in_pb i) ∧ pktlen (in_pb i) < 65536;
  sn_win : Forall (λ w, length w <= 512)%nat (in_pb i);
  sn_seq : is_u32 (th_seq (in_th i)) ∧ is_u32 (th_ack (in_th i));
  sn_open : tcb_state t = TCP_STATE_SYN_SENT → has (in_flag i) TCP_F_SYN = true →
    has (in_flag i) TCP_F_ACK = true;
  sn_syn : tcb_pending_syn t ≠ 0 → tcb_state t ≠ TCP_STATE_SYN_SENT → has (in_flag i) TCP_F_ACK = true →
    has (in_flag i) TCP_F_RST = false → th_ack (in_th i) = snd_nxt t;
  sn_last : tcb_state t ≠ TCP_STATE_LAST_ACK;
  sn_closed : tcb_state t ≠ TCP_STATE_CLOSED;
  sn_fin : tcb_fin_received t = true → th_seq (in_th i) = rcv_nxt t → in_seg_len i = 0;
}.

Definition in_payload (i : input) : list Z := drop (Z.to_nat (in_hdr_len i)) (concat (in_pb i)).

Section Input.
Context (ni : netif) (i : input).

Lemma wp_reply P seq ack flag wnd Q t l p nt :
  net_ok P nt →
  (∀ s, th_flg (seg_th s) = flag → th_seq (seg_th s) = seq → th_ack (seg_th s) = ack →
     concat (seg_data s) = [] → P s) →
  (∀ nt', net_ok P nt' → n_now nt' = n_now nt → Q Taken (live t l p nt')) →
  wp (reply ni i seq ack flag wnd) Q (live t l p nt).
Proof.
  intros Hn HP HQ. unfold reply. wp_steps. unfold tcp_reply. set (s := mk_seg _ _).
  destruct (tcp_output_ok P s (ni_ipv4_local_addr ni) (in_remote i) nt Hn) as (err & n' & E & Hn' & Hnow).
  { by apply HP. }
  exists tt, (live t l p n'). split; [|wp_steps; by apply HQ]. unfold on_net. cbn [c_net]. by rewrite E.
Qed.

(** A reply with flags that make no claim about data keeps the invariant. *)
Lemma wp_reply_ok iss W irs R seq ack flag wnd Q t l p nt :
  conn_ok iss W irs R (live t l p nt) →
  has flag TCP_F_SYN = false → has flag TCP_F_FIN = false →
  (has flag TCP_F_ACK = true → ack = rcv_nxt t ∧ (tcb_state t ∉ [TCP_STATE_SYN_SENT; TCP_STATE_CLOSED])) →
  (∀ nt', conn_ok iss W irs R (live t l p nt') → n_now nt' = n_now nt → Q Taken (live t l p nt')) →
  wp (reply ni i seq ack flag wnd) Q (live t l p nt).
Proof.
  intros (Hi & Hok & Hn) Hs Hf Ha HQ. pose proof Hok as (_ & _ & (d & Hr) & Hst).
  eapply wp_reply; [exact Hn| |].
  - intros s E1 E2 E3 E4. eapply sent_plain; [exact E1|exact E2|exact E3|done|by left|congruence|by rewrite E4|].
    intros Hack _. destruct (Ha Hack) as [-> Hss]. eapply rx_acks_open; [done|].
    intros Ep. destruct (st_active _ _ Hst Ep) as [? _]. set_solver.
  - intros nt' Hn' Hnow. by apply HQ.
Qed.

(** ** Acknowledgements *)

Lemma ack_between x a n ack iss :
  0 <= a <= n → n - a <= 1073741825 → is_u32 ack → x = u32 (iss + a) →
  0 <= s32 (ack - x) → 0 <= s32 (u32 (iss + n) - ack) → 0 <= s32 (ack - x) <= n - a.
Proof.
  intros Ha Hn Hack -> H1 H2. split; [done|]. unfold is_u32 in Hack.
  assert (u32 (ack - u32 (iss + a)) = u32 (ack - (iss + a))) as E1 by (unfold u32; apply Zminus_mod_idemp_r).
  assert (u32 (u32 (iss + n) - ack) = u32 (iss + n - ack)) as E2 by (unfold u32; apply Zminus_mod_idemp_l).
  unfold s32 in *. rewrite E1 in *. rewrite E2 in *. unfold u32 in *.
  repeat case_match; bool_to_prop; dlia.
Qed.

(** The window update. *)
Lemma conn_ok_wnd iss W irs R t l p nt w x y :
  conn_ok iss W irs R (live t l p nt) → 0 <= w → tcb_pending_syn t = 0 →
  conn_ok iss W irs R (live (set_wnd w x y t) l p nt).
Proof.
  intros (Hi & (Hsh & (a & n & Ht) & (d & Hr) & Hst) & Hn) Hw H0. split_and!; [done| |done].
  split_and!; [by destruct Hsh| |exists d; by destruct Hr|by destruct Hst].
  exists a, n. destruct Ht. by split.
Qed.

Lemma conn_ok_acked iss W irs R t l p nt count r a n :
  conn_ok iss W irs R (live t l p nt) → tx_ok W a n t → 0 < count <= n - a →
  tcb_state t ∉ [TCP_STATE_SYN_SENT; TCP_STATE_CLOSED] → tcb_state t ≠ TCP_STATE_SYN_RECEIVED →
  conn_ok iss W irs R (live (acked_tcb t count r) l p nt).
Proof.
  intros (Hi & (Hsh & _ & (d & Hr) & Hst) & Hn) Ht Hc H1 H2. split_and!; [done| |].
  2:{ eapply net_ok_mono; [|exact Hn]. intros s. apply sent_ok_mono; try done. by apply acked_mono. }
  split_and!; [by destruct Hsh| |exists d; by destruct Hr|].
  - exists (a + count), n. by apply tx_ok_acked.
  - destruct Hst. split; try done. cbn [acked_tcb set_rtx set_pending_syn set_una tcb_state]. set_solver.
Qed.

(** What step 5 leaves of the block: everything but the send variables, and the state
    between [FIN_WAIT1] and [FIN_WAIT2]. *)
Definition ack_frame (t t' : tcb) : Prop :=
  rcv_nxt t' = rcv_nxt t ∧ rcv_rdptr t' = rcv_rdptr t ∧ tcb_fin_received t' = tcb_fin_received t ∧
  tcb_rxfifo_size t' = tcb_rxfifo_size t ∧ (tcb_state t' ∉ [TCP_STATE_SYN_SENT; TCP_STATE_CLOSED]) ∧
  tcb_app_closed t' = tcb_app_closed t ∧ tcb_pending_fin t' = tcb_pending_fin t.

Lemma wp_ack_fin iss W irs R ack_nxt Q t l p nt :
  conn_ok iss W irs R (live t l p nt) → tcb_state t ∉ [TCP_STATE_SYN_SENT; TCP_STATE_CLOSED] →
  (∀ t' nt', conn_ok iss W irs R (live t' l p nt') → ack_frame t t' → Q None (live t' l p nt')) →
  wp (ack_fin ack_nxt) Q (live t l p nt).
Proof.
  intros H Hs HQ. pose proof H as (_ & (_ & _ & _ & Hst) & _).
  unfold ack_fin, whenM. wp_steps. case_match; wp_steps; [|by apply HQ].
  eapply wp_set_state; [exact H|apply st_ok_other; set_solver|]. intros H'. wp_steps. apply HQ; [done|].
  unfold ack_frame. cbn [set_state tcb_state]. split_and!; done || set_solver.
Qed.

Lemma wp_ack_open iss W irs R una_ack ack_nxt w rcv_wnd Q t l p nt :
  conn_ok iss W irs R (live t l p nt) → is_u32 (th_ack (in_th i)) → 0 <= w →
  una_ack = s32 (th_ack (in_th i) - snd_una t) → ack_nxt = s32 (snd_nxt t - th_ack (in_th i)) →
  tcb_state t ∉ [TCP_STATE_SYN_SENT; TCP_STATE_CLOSED] → tcb_state t ≠ TCP_STATE_SYN_RECEIVED →
  (tcb_pending_syn t ≠ 0 → th_ack (in_th i) = snd_nxt t) →
  (∀ r t' nt', conn_ok iss W irs R (live t' l p nt') → ack_frame t t' → r ≠ Some Back →
     Q r (live t' l p nt')) →
  wp (ack_open ni i una_ack ack_nxt w rcv_wnd) Q (live t l p nt).
Proof.
  intros H Hack Hw Hua Han Hs1 Hs2 Hsyn HQ. unfold ack_open.
  destruct ((0 <=? una_ack) && (0 <=? ack_nxt))%bool eqn:E.
  - apply andb_true_iff in E as [E1 E2]. apply Z.leb_le in E1, E2.
    pose proof H as (Hi & (Hsh & (a & n & Ht) & _) & Hn). wp_steps. eapply wp_ack; [exact Hn|].
    intros t1 nt1 Ht1 Hn1 _. wp_steps.
    destruct (tx_used _ _ _ _ Hsh Ht) as (_ & _ & _ & Hfs & Hbig). pose proof (tx_order _ _ _ _ Ht).
    assert (0 <= una_ack <= n - a) as Hb.
    { subst. rewrite (tx_nxt _ _ _ _ Ht) in E2. eapply ack_between; [| | |by apply Ht|done|exact E2]; [lia|lia|done]. }
    assert (conn_ok iss W irs R (live t l p nt1)) as H' by (destruct H as (? & ? & _); by split_and!).
    assert (conn_ok iss W irs R (live t1 l p nt1) ∧ ack_frame t t1 ∧ tcb_pending_syn t1 = 0) as (H1 & Hfr & Hp0).
    { destruct Ht1 as [[Hz ->]|[Hne (r & ->)]].
      - split_and!; try done. destruct (decide (tcb_pending_syn t = 0)) as [|Hp]; [done|].
        destruct (tx_syn _ _ _ _ Ht Hp) as (-> & -> & _). rewrite (Hsyn Hp), (tx_nxt _ _ _ _ Ht), (tx_una _ _ _ _ Ht) in Hua.
        rewrite s32_sub in Hua by lia. lia.
      - split_and!; try done. eapply conn_ok_acked; [done|exact Ht|lia|done|done]. }
    unfold whenM. case_match; wp_steps; apply HQ; try done. by apply conn_ok_wnd.
  - case_match; [by wp_steps; apply HQ|]. case_match; wp_steps; [|by apply HQ].
    eapply wp_reply_ok; [exact H|done|done|done|]. intros nt' H' _. wp_steps. by apply HQ.
Qed.

(** Step 5: the segment is answered, or goes on to the later steps. *)
Lemma wp_input_ack iss W irs R rcv_wnd Q t l p nt :
  conn_ok iss W irs R (live t l p nt) → sane i t → has (in_flag i) TCP_F_ACK = true →
  has (in_flag i) TCP_F_RST = false → tcb_state t ∉ [TCP_STATE_SYN_SENT; TCP_STATE_CLOSED] →
  (∀ r t' nt', conn_ok iss W irs R (live t' l p nt') → ack_frame t t' → r ≠ Some Back →
     Q r (live t' l p nt')) →
  wp (input_ack ni i rcv_wnd) Q (live t l p nt).
Proof.
  intros H Hsn Hack Hrst Hss HQ. unfold input_ack. wp_steps.
  set (w := u32 (Z.shiftl _ _)). assert (0 <= w) as Hw by apply u32_range.
  assert (∀ t1 nt1, conn_ok iss W irs R (live t1 l p nt1) → ack_frame t t1 →
    snd_una t1 = snd_una t → snd_nxt t1 = snd_nxt t → tcb_state t1 ≠ TCP_STATE_SYN_RECEIVED →
    (tcb_pending_syn t1 ≠ 0 → th_ack (in_th i) = snd_nxt t1) →
    wp (ack_both ni i (s32 (th_ack (in_th i) - snd_una t)) (s32 (snd_nxt t - th_ack (in_th i))) w rcv_wnd) Q
      (live t1 l p nt1)) as Hboth.
  { intros t1 nt1 H1 Hf1 Eu En Hs1 Hp1. unfold ack_both. wp_steps.
    eapply wp_ack_open; [exact H1|apply Hsn|done|by rewrite Eu|by rewrite En|apply Hf1|done|done|].
    intros r t2 nt2 H2 Hf2 Hr. assert (ack_frame t t2) as Hf by (unfold ack_frame in *; naive_solver congruence).
    destruct r as [v|]; [wp_steps; by apply HQ|]. eapply wp_ack_fin; [exact H2|apply Hf2|].
    intros t3 nt3 H3 Hf3. apply HQ; [done|unfold ack_frame in *; naive_solver congruence|done]. }
  destruct (Z.eqb_spec (tcb_state t) TCP_STATE_SYN_RECEIVED) as [E|E].
  - pose proof H as (Hi & (Hsh & (a & n & Ht) & (d & Hr) & Hst) & Hn).
    pose proof (st_rcvd _ _ Hst E) as Hp. destruct (tx_syn _ _ _ _ Ht Hp) as (-> & -> & _).
    pose proof (sn_syn _ _ Hsn Hp ltac:(set_solver) Hack Hrst) as Ea.
    unfold tcp_set_state. case_match; wp_steps.
    2:{ eapply wp_reply_ok; [exact H|done|done|done|]. intros nt' H' _. wp_steps. by apply HQ. }
    set (t1 := set_wnd _ _ _ _).
    assert (∀ nt1 r, net_ok (log_ok W irs R t) nt1 →
      conn_ok iss W irs R (live (acked_tcb t1 1 r) l p nt1) ∧ ack_frame t (acked_tcb t1 1 r)) as Hest.
    { intros nt1 r Hn1. pose proof (tx_ok_acked W 0 1 t 1 r Ht ltac:(lia)) as Ht1.
      split; [|unfold ack_frame; split_and!; try done; cbn; set_solver].
      split_and!; [done| |].
      - split_and!; [destruct Hsh; by split| |exists d; by destruct Hr|].
        + exists 1, 1. destruct Ht1. split; done.
        + pose proof (st_fin _ _ Hst) as Hfin. split; try done. intros _. apply Hfin. rewrite E. set_solver.
      - eapply net_ok_mono; [|exact Hn1]. intros s. apply sent_ok_mono; [done| |done|done]. by apply acked_mono. }
    assert (s32 (th_ack (in_th i) - snd_una t) = 1 ∧ s32 (snd_nxt t - th_ack (in_th i)) = 0) as [-> ->].
    { rewrite Ea, (tx_nxt _ _ _ _ Ht), (tx_una _ _ _ _ Ht). split; rewrite s32_sub by lia; lia. }
    unfold ack_both, ack_open. change ((0 <=? 1) && (0 <=? 0))%bool with true. cbv iota. wp_steps.
    eapply wp_ack; [exact Hn|]. intros t2 nt2 [[? _]|[_ (r & ->)]] Hn2 _; [lia|]. destruct (Hest nt2 r Hn2) as [H2 Hf2].
    wp_steps. unfold whenM. case_match; wp_steps.
    + eapply wp_ack_fin; [by apply conn_ok_wnd|apply Hf2|]. intros t3 nt3 H3 Hf3.
      apply HQ; [done| |done]. unfold ack_frame in *; naive_solver congruence.
    + eapply wp_ack_fin; [exact H2|apply Hf2|]. intros t3 nt3 H3 Hf3.
      apply HQ; [done| |done]. unfold ack_frame in *; naive_solver congruence.
  - destruct (can_send _).
    + apply Hboth; try done. intros Hp. eapply sn_syn; try done. set_solver.
    + rewrite (proj2 (Z.eqb_neq _ _)) by apply Hsn. wp_steps. by apply HQ.
Qed.

(** ** Payload *)

Definition got (t : tcb) (src m : list Z) : tcb :=
  set_rcv_nxt (u32 (rcv_nxt t + Z.of_nat (length src))) (set_buffer m t).

Lemma store_rx iss W irs R d t l p nt src :
  conn_ok iss W irs R (live t l p nt) → rx_ok irs R d t → tcb_fin_received t = false →
  tcb_state t ∉ [TCP_STATE_SYN_SENT; TCP_STATE_CLOSED] → Z.of_nat (length src) < tcb_rxfifo_size t →
  Z.of_nat (length R) - d + Z.of_nat (length src) <= tcb_rxfifo_size t →
  ∃ m, ltow_memcpy (tcb_buffer t) (tcb_rxfifo t) src (rcv_nxt t) (tcb_rxfifo_size t) = Ret m ∧
    conn_ok iss W irs (R ++ src) (live (got t src m) l p nt) ∧ rx_ok irs (R ++ src) d (got t src m).
Proof.
  intros (Hi & (Hsh & (a & n & Ht) & _ & Hst) & Hn) Hr Hfin Hss Hlt Hfit.
  assert (tcb_pending_syn t ≠ TCP_F_SYN) as Hps by (intros Ep; destruct (st_active _ _ Hst Ep); set_solver).
  pose proof (rx_order _ _ _ _ Hr) as Hord.
  pose proof (pow2_pos _ (sh_tx _ Hsh)). pose proof (pow2_pos _ (sh_rx _ Hsh)).
  set (u := drop (Z.to_nat d) R).
  assert (Z.of_nat (length u) = Z.of_nat (length R) - d) as Hu by (subst u; rewrite length_drop; lia).
  destruct (ltow_holds (tcb_buffer t) (tcb_txfifo_size t) (tcb_rxfifo_size t) (irs + 1 + d) u src)
    as (m & E & Hlm & Hm & Hfr); [apply Hsh|lia|rewrite (sh_buf _ Hsh); lia|lia|by left|apply Hr|].
  assert (rx_ok irs (R ++ src) d (got t src m)) as Hr'.
  { destruct Hr as [R1 R2 R3 R4 R5]. split; try done.
    - cbn [got set_rcv_nxt set_buffer rcv_nxt tcb_fin_received]. rewrite R1, u32_add, length_app, Hfin. cbn [b2z].
      f_equal. lia.
    - rewrite length_app. lia.
    - rewrite length_app. cbn [got set_rcv_nxt set_buffer tcb_rxfifo_size]. lia.
    - cbn. rewrite drop_app_le by lia. done. }
  exists m. split; [|split; [|done]].
  - rewrite <- E. unfold tcb_rxfifo. f_equal. rewrite (rx_nxt _ _ _ _ Hr), Hfin. cbn [b2z]. f_equal. lia.
  - split_and!; [done| |].
    + split_and!.
      * destruct Hsh. split; try done. cbn. by rewrite Hlm.
      * exists a, n. destruct Ht as [T1 T2 T3 T4 T5 T6 T7 T8 T9]. split; try done.
        eapply holds_frame; [| | |exact T9]; cbn; [lia|lia|]. intros j Hj. apply Hfr; lia.
      * by exists d.
      * destruct Hst. split; done.
    + eapply net_ok_mono; [|exact Hn]. intros s. apply sent_ok_mono; [done| |done|done].
      unfold acked. cbn [got set_rcv_nxt set_buffer tcb_pending_syn tcb_fin_received]. rewrite !decide_False by done.
      rewrite length_app. lia.
Qed.

(** What the copy leaves alone. *)
Definition copy_frame (t t' : tcb) : Prop :=
  tcb_fin_received t' = tcb_fin_received t ∧ tcb_state t' = tcb_state t ∧
  tcb_rxfifo_size t' = tcb_rxfifo_size t ∧ tcb_app_closed t' = tcb_app_closed t ∧
  tcb_pending_fin t' = tcb_pending_fin t.

Lemma wp_copy_in iss W irs R d pb Q t l p nt :
  conn_ok iss W irs R (live t l p nt) → rx_ok irs R d t → tcb_fin_received t = false →
  tcb_state t ∉ [TCP_STATE_SYN_SENT; TCP_STATE_CLOSED] → Forall (λ w, length w <= 512)%nat pb →
  Z.of_nat (length R) - d + pktlen pb <= tcb_rxfifo_size t →
  (∀ t', conn_ok iss W irs (R ++ concat pb) (live t' l p nt) → rx_ok irs (R ++ concat pb) d t' →
     copy_frame t t' → Q tt (live t' l p nt)) →
  wp (copy_in pb) Q (live t l p nt).
Proof.
  revert R t. induction pb as [|w pb IH]; intros R t H Hr Hfin Hss Hwin Hfit HQ; cbn [copy_in].
  - wp_steps. apply HQ; cbn [concat]; rewrite ?app_nil_r; done.
  - apply Forall_cons_1 in Hwin as [Hw Hwin]. unfold pktlen in *. cbn [concat] in *. rewrite length_app in Hfit.
    pose proof H as (_ & (Hsh & _) & _). pose proof (sh_rx_min _ Hsh).
    destruct (store_rx iss W irs R d t l p nt w) as (m & E & H1 & Hr1); [done|done|done|done|lia|lia|].
    wp_steps. eapply wp_lift; [exact E|]. wp_steps.
    apply (IH (R ++ w) (got t w m)); try done.
    + rewrite length_app. cbn [got set_rcv_nxt set_buffer tcb_rxfifo_size]. lia.
    + intros t' H' Hr' Hf'. rewrite <- app_assoc in H', Hr'. by apply HQ.
Qed.

Lemma rx_avail irs R d t : shape t → rx_ok irs R d t →
  Z.of_nat (length R) - d + b2z (tcb_fin_received t) <= tcb_rxfifo_size t →
  tcb_rxfifo_avail t = tcb_rxfifo_size t - (Z.of_nat (length R) - d + b2z (tcb_fin_received t)).
Proof.
  intros Hsh Hr Hf. pose proof (rx_order _ _ _ _ Hr). pose proof (pow2_pos _ (sh_rx _ Hsh)).
  unfold tcb_rxfifo_avail, tcb_rxfifo_used. rewrite (rx_nxt _ _ _ _ Hr), (rx_rdptr _ _ _ _ Hr).
  assert (0 <= b2z (tcb_fin_received t) <= 1) by (destruct (tcb_fin_received t); cbn; lia).
  rewrite u32_sub by lia. rewrite u32_id by (unfold is_u32; lia). lia.
Qed.

Lemma wp_input_payload iss W irs R d pb Q t l p nt :
  conn_ok iss W irs R (live t l p nt) → rx_ok irs R d t → tcb_state t ∉ [TCP_STATE_SYN_SENT; TCP_STATE_CLOSED] →
  Forall (λ w, length w <= 512)%nat pb → (concat pb ≠ [] → tcb_fin_received t = false) →
  (∀ b R' t' nt', conn_ok iss W irs R' (live t' l p nt') → (R' = R ∨ R' = R ++ concat pb) →
     copy_frame t t' → Q b (live t' l p nt')) →
  wp (input_payload pb) Q (live t l p nt).
Proof.
  intros H Hr Hss Hwin Hfin HQ. unfold input_payload. wp_steps.
  case_match; [|wp_steps; by apply (HQ _ R t); auto].
  destruct (Z.eqb_spec (pktlen pb) 0) as [E0|E0]; [wp_steps; by apply (HQ _ R t); auto|].
  assert (tcb_fin_received t = false) as Hf0.
  { apply Hfin. intros E. unfold pktlen in E0. by rewrite E in E0. }
  pose proof H as (_ & (Hsh & _) & _).
  destruct (Z.leb_spec (pktlen pb) (tcb_rxfifo_avail t)) as [Hav|Hav]; [|wp_steps; by apply (HQ _ R t); auto].
  rewrite (rx_avail irs R d t) in Hav by (done || rewrite Hf0; cbn; pose proof (rx_fits _ _ _ _ Hr); lia).
  rewrite Hf0 in Hav. cbn [b2z] in Hav. wp_steps.
  apply (wp_copy_in iss W irs R d); [done|done|done|done|done|lia|]. intros t1 H1 Hr1 Hf1. wp_steps.
  set (t2 := set_window_closed _ _). set (nt2 := emit_event _ _).
  assert (conn_ok iss W irs (R ++ concat pb) (live t2 l p nt2)) as H2.
  { subst nt2. apply conn_ok_event; [|done]. by eapply conn_ok_frame. }
  assert (copy_frame t t2) as Hf2 by apply Hf1.
  assert (∀ x b, wp (modify (set_dack x);; mret b) Q (live t2 l p nt2)) as Hd.
  { intros x b. wp_steps. apply (HQ _ (R ++ concat pb)); [by eapply conn_ok_frame|by right|done]. }
  case_match; [|apply Hd]. wp_steps. case_match; wp_steps.
  - change (snd_nxt (set_rx_bytes _ t1)) with
      (if false then snd_una (set_dack None t2) else snd_nxt (set_dack None t2)).
    eapply (wp_emit_ok iss W irs (R ++ concat pb)); [by eapply conn_ok_frame|].
    intros err da n x y nt' H' _. wp_steps. apply (HQ _ (R ++ concat pb)); [done|by right|done].
  - apply (HQ _ (R ++ concat pb)); [by eapply conn_ok_frame|by right|done].
Qed.

(** ** FIN *)

Lemma conn_ok_fin iss W irs R t l p nt :
  conn_ok iss W irs R (live t l p nt) → tcb_fin_received t = false → tcb_state t ∉ [TCP_STATE_SYN_SENT; TCP_STATE_CLOSED] →
  conn_ok iss W irs R (live (set_rcv_nxt (u32 (rcv_nxt t + 1)) (set_fin_received true t)) l p nt).
Proof.
  intros (Hi & (Hsh & (a & n & Ht) & (d & Hr) & Hst) & Hn) Hf Hss.
  assert (tcb_pending_syn t ≠ TCP_F_SYN) as Hps by (intros Ep; destruct (st_active _ _ Hst Ep); set_solver).
  split_and!; [done| |].
  - split_and!; [by destruct Hsh|exists a, n; by destruct Ht| |].
    + exists d. destruct Hr as [R1 R2 R3 R4 R5]. split; try done. cbn. rewrite R1, u32_add, Hf. cbn [b2z]. f_equal. lia.
    + destruct Hst. by split.
  - eapply net_ok_mono; [|exact Hn]. intros s. apply sent_ok_mono; [done| |done|done].
    unfold acked. cbn [set_rcv_nxt set_fin_received tcb_pending_syn tcb_fin_received]. rewrite !decide_False by done.
    rewrite Hf. cbn. lia.
Qed.

Lemma wp_input_fin iss W irs R have_pb Q t l p nt :
  conn_ok iss W irs R (live t l p nt) → tcb_fin_received t = false → tcb_state t ∉ [TCP_STATE_SYN_SENT; TCP_STATE_CLOSED] →
  (∀ v t' nt', conn_ok iss W irs R (live t' l p nt') → Q v (live t' l p nt')) →
  wp (input_fin i have_pb) Q (live t l p nt).
Proof.
  intros H Hf Hss HQ. unfold input_fin. wp_steps. destruct (_ || _)%bool; [wp_steps; by apply HQ|]. wp_steps.
  set (t1 := set_rcv_nxt _ _).
  change (snd_nxt t) with (if false then snd_una t1 else snd_nxt t1).
  eapply (wp_emit_ok iss W irs R).
  { apply (conn_ok_fin iss W irs R t); [by apply conn_ok_event|done|done]. }
  intros err da n x y nt2 H2 _. set (t2 := emitted t1 da n x y) in *. wp_steps.
  assert (tcb_state t2 = tcb_state t) as Est by done. clearbody t2. rewrite Est.
  pose proof H2 as (_ & (_ & _ & _ & Hst2) & _).
  assert (∀ st, st_ok R (set_state st t2) →
    wp (tcp_set_state st) (λ _ c, wp (mret Taken) Q c) (live t2 l p nt2)) as Hset.
  { intros st Hs. eapply wp_set_state; [exact H2|done|]. intros H'. wp_steps. by apply HQ. }
  assert (wp tcp_time_wait (λ _ c, wp (mret Taken) Q c) (live t2 l p nt2)) as Htw.
  { unfold tcp_time_wait, tcp_disarm_all_timers, tcp_set_state. wp_steps. apply HQ.
    apply (conn_ok_frame iss W irs R (set_state TCP_STATE_TIME_WAIT t2) _ l p nt2); [|done|done].
    eapply conn_ok_state; [exact H2|]. apply st_ok_other; [done|set_solver|]. right. rewrite Est. set_solver. }
  destruct ((tcb_state t =? TCP_STATE_SYN_RECEIVED) || (tcb_state t =? TCP_STATE_ESTABLISHED))%bool eqn:E1.
  { apply Hset. destruct Hst2 as [S1 S2 S3 S4].
    split; try done; [|intros Ep; destruct (S4 Ep) as [Hb _]; rewrite Est in Hb; set_solver]. intros _. apply S1.
    apply orb_true_iff in E1. rewrite !Z.eqb_eq in E1. rewrite Est. set_solver. }
  case_match; [case_match; [apply Htw|]|case_match; [apply Htw|]].
  - apply Hset, st_ok_other; [done|set_solver|]. right. rewrite Est. set_solver.
  - wp_steps. by apply HQ.
Qed.

(** ** The answer to our SYN *)

Lemma sent_ok_irs iss W irs irs' m f q s : sent_ok iss W irs (-1) f q s → sent_ok iss W irs' m f true s.
Proof. intros [H1 H2 H3 H4 H5]. split; try done. intros Ha Hr. destruct (H3 Ha Hr) as (j & Hj & _). lia. Qed.

(** The block once the peer's SYN with the acknowledgement of ours is in. *)
Definition opened (t : tcb) (now wnd seq ack : Z) (r : option Z) : tcb :=
  set_state TCP_STATE_ESTABLISHED (set_timo (TCP_TIMEOUT_INTERVAL * 1000) (set_wnd wnd seq ack
    (acked_tcb (set_rdptr (u32 (seq + 1)) (set_rcv_nxt (u32 (seq + 1)) (set_last_rx now t))) 1 r))).

Lemma conn_ok_opened iss W irs R t l p nt nt' now wnd seq ack r :
  conn_ok iss W irs R (live t l p nt) → tcb_state t = TCP_STATE_SYN_SENT → 0 <= wnd →
  net_ok (log_ok W irs R t) nt' →
  conn_ok iss W seq R (live (opened t now wnd seq ack r) l p nt').
Proof.
  intros (Hi & (Hsh & (a & n & Ht) & _ & Hst) & _) Hss Hw Hn.
  pose proof (st_sent _ _ Hst Hss) as Hsyn. destruct (st_active _ _ Hst Hsyn) as (_ & -> & Hfin).
  destruct (tx_syn _ _ _ _ Ht) as (-> & -> & _); [by rewrite Hsyn|].
  pose proof (tx_ok_acked W 0 1 t 1 r Ht ltac:(lia)) as Ht1. split_and!; [done| |].
  - split_and!.
    + destruct Hsh. by split.
    + exists 1, 1. destruct Ht1. by split.
    + exists 0. split; try done.
      * cbn [opened set_state set_timo set_wnd acked_tcb set_rtx set_pending_syn set_una set_rdptr set_rcv_nxt
          set_last_rx rcv_nxt tcb_fin_received length]. rewrite Hfin. cbn [b2z]. f_equal. lia.
      * cbn [opened set_state set_timo set_wnd acked_tcb set_rtx set_pending_syn set_una set_rdptr set_rcv_nxt
          set_last_rx rcv_rdptr]. f_equal. lia.
      * cbn. pose proof (pow2_pos _ (sh_rx _ Hsh)). lia.
      * intros j Hj. rewrite drop_nil in Hj. cbn [length] in Hj. lia.
    + split; try done. intros _. apply (st_fin _ _ Hst). rewrite Hss. set_solver.
  - eapply net_ok_mono; [|exact Hn]. intros s. unfold log_ok, acked. rewrite decide_True by done. apply sent_ok_irs.
Qed.

Lemma s32_mod x y : u32 x = u32 y → s32 x = s32 y.
Proof. unfold s32. by intros ->. Qed.

Lemma syn_acked iss ack :
  is_u32 ack → 0 < s32 (ack - iss) → s32 (ack - u32 (iss + 1)) <= 0 →
  s32 (ack - u32 (iss + 0)) = 1 ∧ s32 (u32 (u32 (iss + 0) + 1) - iss) = 1.
Proof.
  intros Hack H1 H2. rewrite u32_add, Z.add_0_r.
  assert (∀ x, s32 (ack - u32 x) = s32 (ack - x)) as E.
  { intros. apply s32_mod. unfold u32. apply Zminus_mod_idemp_r. }
  rewrite E in H2. rewrite E.
  assert (s32 (u32 (iss + 1) - iss) = s32 1) as ->.
  { apply s32_mod. unfold u32. rewrite Zminus_mod_idemp_l. by replace (iss + 1 - iss) with 1 by lia. }
  split; [|done]. unfold s32, u32 in *. repeat case_match; bool_to_prop; dlia.
Qed.

Lemma wp_input_syn_sent iss W irs R Q t l p nt :
  conn_ok iss W irs R (live t l p nt) → sane i t → tcb_state t = TCP_STATE_SYN_SENT →
  (∀ v c' irs', conn_ok iss W irs' R c' →
     ((irs' = irs ∧ ∀ t', c_tcb c' = Some t' → tcb_pending_syn t' = tcb_pending_syn t) ∨
      (has (in_flag i) TCP_F_SYN = true ∧ irs' = th_seq (in_th i))) →
     (tcb_app_closed t = false → c_tcb c' ≠ None) → Q v c') →
  wp (input_syn_sent ni i) Q (live t l p nt).
Proof.
  intros H Hsn Hss HQ. unfold input_syn_sent. wp_steps.
  assert (∀ v nt', conn_ok iss W irs R (live t l p nt') → Q v (live t l p nt')) as Hself.
  { intros v nt' H'. apply (HQ v _ irs); auto. left. split; [done|]. by intros ? [= <-]. }
  destruct (_ && _)%bool eqn:Eack.
  { case_match; [wp_steps; by apply Hself|]. eapply wp_reply_ok; [exact H|done|done|done|].
    intros nt' H' _. by apply Hself. }
  destruct (has (in_flag i) TCP_F_RST) eqn:Erst.
  { wp_steps. unfold whenM. case_match; wp_steps; [|by apply Hself].
    eapply wp_close; [exact H|]. intros c' H' Hc Hp. wp_steps. apply (HQ _ _ irs); auto. }
  destruct (has (in_flag i) TCP_F_SYN) eqn:Esyn; [|wp_steps; by apply Hself].
  pose proof (sn_open _ _ Hsn Hss Esyn) as Ha. rewrite Ha in *. cbn [andb] in Eack.
  apply orb_false_iff in Eack as [E1 E2]. apply Z.leb_gt in E1. apply Z.ltb_ge in E2.
  pose proof H as (Hi & (Hsh & (a & n & Ht) & _ & Hst) & Hn).
  pose proof (st_sent _ _ Hst Hss) as Hsyn. destruct (st_active _ _ Hst Hsyn) as (_ & -> & Hfin).
  destruct (tx_syn _ _ _ _ Ht) as (-> & -> & _); [by rewrite Hsyn|].
  destruct (syn_acked (tcb_iss t) (th_ack (in_th i))) as [Eu Ei];
    [apply Hsn|done|by rewrite (tx_nxt _ _ _ _ Ht) in E2|].
  rewrite (tx_una _ _ _ _ Ht), Eu. wp_steps. unfold whenM. wp_steps.
  eapply wp_ack; [exact Hn|]. intros t1 nt1 [[? _]|[_ (r & ->)]] Hn1 _; [lia|]. wp_steps.
  change (snd_una (acked_tcb ?u 1 r)) with (u32 (snd_una t + 1)). change (tcb_iss (acked_tcb ?u 1 r)) with (tcb_iss t).
  rewrite (tx_una _ _ _ _ Ht), Ei. change (0 <? 1) with true. cbv iota. unfold tcp_set_state. wp_steps.
  set (t2 := set_state _ _).
  change (snd_nxt (acked_tcb ?u 1 r)) with (if false then snd_una t2 else snd_nxt t2).
  eapply (wp_emit_ok iss W (th_seq (in_th i)) []).
  - eapply (conn_ok_opened iss W irs [] t l p nt); [exact H|done|apply Hsn|done].
  - intros err da n x y nt' H' _. wp_steps. apply (HQ _ _ (th_seq (in_th i))); [done|by right|done].
Qed.

(** ** A segment *)

Lemma win_drop_small n c : Forall (λ w, length w <= 512)%nat c → Forall (λ w, length w <= 512)%nat (win_drop n c).
Proof.
  revert n. induction c as [|w c IH]; intros n H; cbn [win_drop]; [done|].
  apply Forall_cons_1 in H as [Hw Hc]. destruct (drop n w) as [|x l] eqn:E.
  - destruct c; [repeat constructor; cbn; lia|by apply IH].
  - constructor; [|done]. rewrite <- E, length_drop. lia.
Qed.

Lemma seg_len_payload t : sane i t → in_seg_len i = 0 →
  in_payload i = [] ∧ has (in_flag i) TCP_F_FIN = false.
Proof.
  intros Hsn E. destruct (sn_len _ _ Hsn) as [? ?]. unfold in_seg_len, pktlen in *.
  rewrite u32_id in E by (unfold is_u32; repeat case_match; cbn [b2z]; destruct (has _ TCP_F_SYN), (has _ TCP_F_FIN); cbn [b2z]; lia).
  split.
  - apply length_zero_iff_nil. unfold in_payload. rewrite length_drop.
    destruct (has _ TCP_F_SYN), (has _ TCP_F_FIN); cbn [b2z] in E; lia.
  - destruct (has _ TCP_F_FIN); [|done]. destruct (has _ TCP_F_SYN); cbn [b2z] in E; lia.
Qed.

(** What a segment does to the received stream: nothing, or it appends its payload,
    which was next in sequence. *)
Definition delivers (R R' : list Z) (t : tcb) : Prop :=
  R' = R ∨ (R' = R ++ in_payload i ∧ th_seq (in_th i) = rcv_nxt t ∧ tcb_fin_received t = false ∧
            tcb_state t ≠ TCP_STATE_SYN_SENT ∧ has (in_flag i) TCP_F_SYN = false).

(** Data and FIN are only taken in sequence, and not after a FIN. *)
Lemma in_sequence irs R d t :
  sane i t → rx_ok irs R d t → acceptable i t = true →
  in_payload i ≠ [] ∨ has (in_flag i) TCP_F_FIN = true →
  th_seq (in_th i) = rcv_nxt t ∧ tcb_fin_received t = false.
Proof.
  intros Hsn Hr Eacc Hd. assert (in_seg_len i ≠ 0) as Hne.
  { intros E. destruct (seg_len_payload t Hsn E) as [E1 E2]. destruct Hd as [Hd|Hd]; [done|]. by rewrite E2 in Hd. }
  unfold acceptable in Eacc. rewrite (proj2 (Z.eqb_neq _ _)) in Eacc by done.
  destruct (_ =? 0); [done|]. apply Z.eqb_eq in Eacc. destruct (sn_seq _ _ Hsn) as [Hsq _].
  assert (th_seq (in_th i) = rcv_nxt t) as Eq.
  { assert (is_u32 (rcv_nxt t)) as Hrn by (rewrite (rx_nxt _ _ _ _ Hr); auto with mios). unfold is_u32 in *.
    unfold s32, u32 in Eacc. case_match; bool_to_prop; dlia. }
  split; [done|]. destruct (tcb_fin_received t) eqn:Ef; [|done]. by pose proof (sn_fin _ _ Hsn Ef Eq).
Qed.

(** What is left of a connection by a segment. *)
Definition input_post (iss : Z) (W : list Z) (irs : Z) (R : list Z) (t : tcb) (c' : conn) : Prop :=
  ∃ irs' R', conn_ok iss W irs' R' c' ∧ delivers R R' t ∧
    ((irs' = irs ∧ (tcb_pending_syn t = TCP_F_SYN →
        ∀ t', c_tcb c' = Some t' → tcb_pending_syn t' = TCP_F_SYN)) ∨
     (tcb_state t = TCP_STATE_SYN_SENT ∧ has (in_flag i) TCP_F_SYN = true ∧ irs' = th_seq (in_th i))) ∧
    (tcb_app_closed t = false → c_tcb c' ≠ None).

(** A segment that arrives on a connection is processed to the end, the invariant holds
    afterwards, and the received stream is extended by the payload of the segment when
    that is next in sequence, or not at all. *)
Lemma wp_input iss W irs R t l p nt :
  conn_ok iss W irs R (live t l p nt) → sane i t →
  wp (tcp_input_tcb ni i) (λ _ c', input_post iss W irs R t c') (live t l p nt).
Proof.
  intros H Hsn. unfold tcp_input_tcb. wp_steps.
  destruct (Z.eqb_spec (tcb_state t) TCP_STATE_SYN_SENT) as [Hss|Hss].
  { eapply wp_input_syn_sent; [exact H|done|done|]. intros v c' irs' H' Hirs Hc. exists irs', R. split_and!; try done.
    - by left.
    - destruct Hirs as [[-> Hp]|[? ->]]; [left|right; done]. split; [done|]. intros E t' Et'.
      by rewrite (Hp t' Et'). }
  assert (tcb_state t ∉ [TCP_STATE_SYN_SENT; TCP_STATE_CLOSED]) as Hact
    by (pose proof (sn_closed _ _ Hsn); set_solver).
  assert (tcb_pending_syn t ≠ TCP_F_SYN) as Hps.
  { pose proof H as (_ & (_ & _ & _ & Hst) & _). intros Ep. destruct (st_active _ _ Hst Ep). set_solver. }
  assert (∀ c', conn_ok iss W irs R c' → (tcb_app_closed t = false → c_tcb c' ≠ None) →
    input_post iss W irs R t c') as Hsame.
  { intros c' H' Hc. exists irs, R. split_and!; auto; [by left|]. left. by split. }
  destruct (acceptable i t) eqn:Eacc; cbn [negb].
  2:{ case_match; [wp_steps; by apply Hsame|]. case_match; [wp_steps; by apply Hsame|]. wp_steps.
      eapply wp_reply_ok; [by eapply conn_ok_frame|done|done|done|]. intros nt' H' _. by apply Hsame. }
  wp_steps. assert (conn_ok iss W irs R (live (set_limiter 0 t) l p nt)) as H0 by by eapply conn_ok_frame.
  destruct (has (in_flag i) TCP_F_RST) eqn:Erst.
  { wp_steps. eapply wp_close; [exact H0|]. intros c' H' Hc _. wp_steps. by apply Hsame. }
  destruct (has (in_flag i) TCP_F_SYN) eqn:Esyn.
  { eapply wp_reply_ok; [exact H0|done|done|done|]. intros nt' H' _. by apply Hsame. }
  destruct (has (in_flag i) TCP_F_ACK) eqn:Ea; cbn [negb]; [|wp_steps; by apply Hsame]. wp_steps.
  eapply (wp_input_ack iss W irs R); [by eapply conn_ok_frame|by destruct Hsn|done|done|exact Hact|].
  intros r t1 nt1 H1 Hf1 Hr1. destruct r as [v|].
  { wp_steps. apply Hsame; [done|done]. }
  destruct Hf1 as (F1 & F2 & F3 & F4 & F5 & F6 & F7). cbn in F1, F2, F3, F4, F6, F7.
  pose proof H as (_ & (_ & _ & (d & Hr) & _) & _). pose proof (in_sequence irs R d t Hsn Hr Eacc) as Hnext.
  pose proof H1 as (_ & (_ & _ & (d1 & Hr1') & _) & _). wp_steps.
  assert (concat (win_drop (Z.to_nat (in_hdr_len i)) (in_pb i)) = in_payload i) as Ewd by apply win_drop_concat.
  eapply (wp_input_payload iss W irs R d1); [done|done|done|by apply win_drop_small, Hsn| |].
  { rewrite Ewd, F3. intros Hne. by apply Hnext; left. }
  intros b R' t2 nt2 H2 HR Hf2. rewrite Ewd in HR. destruct Hf2 as (G1 & G2 & G3 & G4 & G5).
  assert (delivers R R' t) as Hdel.
  { destruct (decide (in_payload i = [])) as [E|E]; [left; rewrite E, app_nil_r in HR; tauto|].
    destruct HR as [-> | ->]; [by left|]. right. destruct (Hnext (or_introl E)). done. }
  destruct (has (in_flag i) TCP_F_FIN) eqn:Efin.
  - eapply (wp_input_fin iss W irs R'); [done| |by rewrite G2|].
    { rewrite G1, F3. by apply Hnext; right. }
    intros v t3 nt3 H3. exists irs, R'. split_and!; auto. left. by split.
  - wp_steps. exists irs, R'. split_and!; auto. left. by split.
Qed.
End Input.
