(* ===== verification/TcpPair.v ===== *)
(** * TcpPair: two TCP endpoints over an unreliable network ([src/net/ipv4/tcp.c])

    Each endpoint is a connection of [Tcp] with the application above it; the network
    delivers any segment the other side ever sent, any number of times and in any order,
    or not at all.  What an application has read is always a prefix of what the other
    one wrote.  Neither side closes here. *)

From Stdlib Require Import ZArith Lia.
From stdpp Require Import base list numbers gmap.
From S2P Require Import Prelude Ipv4 Tcp TcpInv TcpInput.

Open Scope Z_scope.

(** ** Connections that stay open

    [running b v w]: neither side has closed, with [b] the handshake is through, with
    [v] the connection is past [SYN_SENT] and the read pointer is there, and with [w]
    our SYN is still pending. *)

Record running (b : bool) (v : option Z) (w : bool) (t : tcb) : Prop := {
  rn_open : b = true → tcb_pending_syn t = 0 ∧ tcb_state t ≠ TCP_STATE_SYN_SENT;
  rn_rdptr : ∀ x, v = Some x → rcv_rdptr t = x ∧ tcb_state t ≠ TCP_STATE_SYN_SENT;
  rn_syn : w = true → tcb_pending_syn t = TCP_F_SYN;
  rn_app : tcb_app_closed t = false;
  rn_fin : tcb_pending_fin t = 0;
  rn_peer : tcb_fin_received t = false;
  rn_state : tcb_state t ≠ TCP_STATE_LAST_ACK;
}.

Section Stays.
Context (b : bool) (v : option Z) (w : bool).

Definition runs (c : conn) : Prop := ∃ t, c_tcb c = Some t ∧ running b v w t.

(** [m] never ends that. *)
Definition stays {A} (m : C A) : Prop := ∀ c a c', runs c → m c = Ret (a, c') → runs c'.

Lemma stays_ret {A} (a : A) : stays (mret a).
Proof. intros c ? ? H [= <- <-]. done. Qed.
Lemma stays_fail {A} f : stays (fail f : C A).
Proof. by intros ? ? ? ? [=]. Qed.
Lemma stays_bind {A B} (m : C A) (k : A → C B) : stays m → (∀ a, stays (k a)) → stays (m ≫= k).
Proof.
  intros Hm Hk c b' c' H E. unfold mbind, C_bind in E. destruct (m c) as [[a c1]|] eqn:E1; [|done].
  eapply Hk; [|exact E]. by eapply Hm.
Qed.
Lemma stays_get {B} (k : tcb → C B) : (∀ t, running b v w t → stays (k t)) → stays (get ≫= k).
Proof.
  intros Hk c a c' H E. pose proof H as (t & Et & Ht). unfold mbind, C_bind, get in E. rewrite Et in E.
  by eapply Hk.
Qed.
Lemma stays_modify f : (∀ t, running b v w t → running b v w (f t)) → stays (modify f).
Proof.
  intros Hf c a c' (t & Et & Ht) E. unfold modify in E. rewrite Et in E. simplify_eq. eexists. split; [reflexivity|auto].
Qed.
Lemma stays_on_net {A} (f : net → res (A * net)) : stays (on_net f).
Proof.
  intros c a c' (t & Et & Ht) E. unfold on_net in E. destruct (f _) as [[? ?]|]; simplify_eq. by exists t.
Qed.
Lemma stays_lift {A} (r : res A) : stays (lift r).
Proof. intros c a c' H E. unfold lift in E. by destruct r; simplify_eq. Qed.
Lemma stays_linked x : stays (set_linked x).
Proof. intros c a c' (t & Et & Ht) [= <- <-]. by exists t. Qed.
Lemma stays_when x m : stays m → stays (whenM x m).
Proof. intros. destruct x; [done|apply stays_ret]. Qed.

Lemma running_state t st :
  running b v w t → st ≠ TCP_STATE_SYN_SENT → st ≠ TCP_STATE_LAST_ACK → running b v w (set_state st t).
Proof.
  intros [H1 H6 H7 H2 H3 H4 H5] Hs Hl. split; try done.
  - intros E. split; [by apply H1|done].
  - intros x E. split; [by apply H6|done].
Qed.

Lemma running_emitted t da n x y : running b v w t → running b v w (emitted t da n x y).
Proof. by intros []. Qed.
Lemma running_syn0 t : running b v false t → running b v false (set_pending_syn 0 t).
Proof. intros [H1 H6 H7 H2 H3 H4 H5]. split; try done. intros E. split; [done|by apply H1]. Qed.
End Stays.

Ltac keep_modify :=
  apply stays_modify; intros ? ?;
  first [ by match goal with H : running _ _ _ _ |- _ => destruct H; split end
        | by apply running_state | by apply running_syn0 ].
Ltac keep_step :=
  first
  [ apply stays_ret | apply stays_fail | apply stays_lift | apply stays_linked
  | apply stays_get; intros ? ? | apply stays_on_net | keep_modify
  | apply stays_when | apply stays_bind; [|intros ?]
  | lazymatch goal with |- stays _ _ _ (match ?x with _ => _ end) => destruct x eqn:? end ].
Ltac keep_with tac := repeat first [ tac | keep_step ].
Ltac keep := keep_with fail.

Section Ops.
Context (b : bool) (v : option Z) (w : bool).

Lemma stays_output_tcb flg seq data : stays b v w (tcp_output_tcb flg seq data).
Proof. unfold tcp_output_tcb. keep. Qed.
Lemma stays_clock : stays b v w clock_get.
Proof. apply stays_on_net. Qed.
Lemma stays_event e : stays b v w (put_event e).
Proof. apply stays_on_net. Qed.
Lemma stays_peek {A} (f : net → A * net) : stays b v w (peek_net f).
Proof. apply stays_on_net. Qed.
Ltac k0 := first [ apply stays_output_tcb | apply stays_clock | apply stays_event | apply stays_peek ].
Lemma stays_emit r seq g : stays b v w (tcp_emit r seq g).
Proof. unfold tcp_emit. keep_with k0. Qed.
Lemma stays_arm_if_idle : stays b v w arm_if_idle.
Proof. unfold arm_if_idle. keep_with k0. Qed.
Lemma stays_arm_rtx now : stays b v w (arm_rtx now).
Proof. unfold arm_rtx. keep_with k0. Qed.
Lemma stays_set_state st : st ≠ TCP_STATE_SYN_SENT → st ≠ TCP_STATE_LAST_ACK → stays b v w (tcp_set_state st).
Proof. intros. unfold tcp_set_state. keep. Qed.
Lemma stays_ack n : stays b v false (tcp_ack n).
Proof. unfold tcp_ack. keep_with ltac:(first [k0 | apply stays_arm_rtx]). Qed.
Lemma stays_destroy : stays b v w tcp_destroy.
Proof.
  unfold tcp_destroy. apply stays_get. intros t Ht. rewrite (rn_app _ _ _ _ Ht). keep.
Qed.
Lemma stays_close : stays b v w tcp_close.
Proof.
  unfold tcp_close, tcp_disarm_all_timers.
  keep_with ltac:(first [k0 | apply stays_destroy | apply stays_set_state; done]).
Qed.
Lemma stays_time_wait : stays b v w tcp_time_wait.
Proof. unfold tcp_time_wait, tcp_disarm_all_timers. keep_with ltac:(first [k0 | apply stays_set_state; done]). Qed.
Lemma stays_drain fuel force : stays b v w (drain fuel force).
Proof.
  induction fuel as [|fuel IH]; cbn [drain]; [keep|].
  keep_with ltac:(first [k0 | apply stays_emit | exact IH]).
Qed.
Lemma stays_reply ni i seq ack flag u : stays b v w (reply ni i seq ack flag u).
Proof. unfold reply. keep. Qed.

Ltac k1 := first [ k0 | apply stays_emit | apply stays_arm_if_idle | apply stays_arm_rtx | apply stays_ack
                 | apply stays_close | apply stays_drain | apply stays_reply | apply stays_time_wait
                 | apply stays_set_state; done ].

Lemma stays_task fuel signals :
  has signals TCP_EVENT_CONNECT = false → has signals TCP_EVENT_CLOSE = false →
  stays b v w (tcp_task_cb fuel signals).
Proof.
  intros H1 H2. unfold tcp_task_cb. rewrite H1, H2.
  keep_with ltac:(first [k1 | apply (stays_ret b v)]).
Qed.
Lemma stays_rtx now : stays b v w (tcp_rtx_cb now).
Proof. unfold tcp_rtx_cb. keep_with k1. Qed.
Lemma stays_delayed_ack now : stays b v w (tcp_delayed_ack_cb now).
Proof. unfold tcp_delayed_ack_cb. keep_with k1. Qed.
Lemma stays_time_wait_cb now : stays b v w (tcp_time_wait_cb now).
Proof. unfold tcp_time_wait_cb. keep_with k1. Qed.

Lemma stays_write_loop fuel buf flags u : stays b v w (write_loop fuel buf flags u).
Proof. revert buf u. induction fuel as [|fuel IH]; intros; cbn [write_loop]; keep_with ltac:(first [k0 | apply IH]). Qed.
Lemma stays_writev_loop iov flags u : stays b v w (writev_loop iov flags u).
Proof.
  revert u. induction iov as [|buf iov IH]; intros u; cbn [writev_loop];
    keep_with ltac:(first [k0 | apply stays_write_loop | apply IH]).
Qed.
Lemma stays_writev iov flags : stays b v w (tcp_stream_writev iov flags).
Proof. unfold tcp_stream_writev. keep_with ltac:(apply stays_writev_loop). Qed.
Lemma stays_consume k : stays b None w (tcp_rxfifo_consume k).
Proof. unfold tcp_rxfifo_consume. keep_with k0. Qed.
Lemma stays_read size require total : stays b None w (tcp_stream_read size require total).
Proof.
  unfold tcp_stream_read. generalize 3%nat as fuel. intros fuel. generalize (size - total). revert total.
  induction fuel as [|fuel IH]; intros total sz; cbn [read_loop]; keep_with ltac:(first [apply stays_consume | apply IH]).
Qed.

Lemma stays_copy_in pb : stays b v w (copy_in pb).
Proof. induction pb as [|x pb IH]; cbn [copy_in]; keep_with ltac:(exact IH). Qed.

End Ops.

Ltac k2 := first [ apply stays_output_tcb | apply stays_clock | apply stays_event | apply stays_emit
                 | apply stays_ack | apply stays_close | apply stays_reply | apply stays_copy_in
                 | apply stays_set_state; done ].

Lemma stays_ack_both b v ni i x y z u : stays b v false (ack_both ni i x y z u).
Proof. unfold ack_both, ack_open, ack_fin. keep_with k2. Qed.
Lemma stays_input_ack b v ni i u : stays b v false (input_ack ni i u).
Proof. unfold input_ack. keep_with ltac:(first [apply stays_ack_both | k2]). Qed.
Lemma stays_payload b v pb : stays b v false (input_payload pb).
Proof. unfold input_payload. keep_with k2. Qed.

Lemma stays_syn_sent ni i : stays false None false (input_syn_sent ni i).
Proof.
  assert (∀ fl r, stays false None false (tcp_send_syn fl r)) as Hsyn.
  { intros fl r. unfold tcp_send_syn. keep_with ltac:(first [apply stays_arm_if_idle | apply stays_emit]). }
  unfold input_syn_sent.
  keep_with ltac:(first [apply Hsyn | apply stays_reply | apply stays_close | apply stays_clock | apply stays_ack
                        | apply stays_emit | apply stays_set_state; done]).
Qed.

Lemma stays_input b v ni i : has (in_flag i) TCP_F_FIN = false → stays b v false (tcp_input_tcb ni i).
Proof.
  intros Hf. unfold tcp_input_tcb. apply stays_get. intros t Ht. rewrite Hf.
  destruct (Z.eqb_spec (tcb_state t) TCP_STATE_SYN_SENT) as [E|E].
  - destruct b; [by destruct (rn_open _ _ _ _ Ht eq_refl)|].
    destruct v as [x|]; [by destruct (rn_rdptr _ _ _ _ Ht x eq_refl)|apply stays_syn_sent].
  - keep_with ltac:(first [apply stays_reply | apply stays_close | apply stays_clock | apply stays_input_ack
                          | apply stays_payload]).
Qed.

(** ** Two endpoints *)

Record endpoint := mk_ep {
  ep_conn : conn;
  ep_written : list Z;
  ep_read : list Z;
}.

(** How many bytes a pass of a write that had written [w] before has queued. *)
Definition progress (o : out (list (list Z) * Z)) (w : Z) : nat :=
  match o with Done r => Z.to_nat (r - w) | Sleep (_, r) => Z.to_nat (r - w) end.

(** The input that a segment becomes at the other end. *)
Record arrives (s : segment) (i : input) : Prop := {
  ar_th : in_th i = seg_th s;
  ar_data : has (th_flg (seg_th s)) TCP_F_SYN = false → in_payload i = concat (seg_data s);
  ar_wnd : 0 <= th_wnd (in_th i);
  ar_len : 20 <= in_hdr_len i <= pktlen (in_pb i) ∧ pktlen (in_pb i) < 65536;
  ar_win : Forall (λ w, length w <= 512)%nat (in_pb i);
  ar_seq : is_u32 (th_seq (in_th i)) ∧ is_u32 (th_ack (in_th i));
}.

(** A closed block is not on the list, and only one side opens actively: a SYN that
    meets [SYN_SENT] acknowledges ours. *)
Definition may_meet (t : tcb) (i : input) : Prop :=
  tcb_state t ≠ TCP_STATE_CLOSED ∧
  (tcb_state t = TCP_STATE_SYN_SENT → has (in_flag i) TCP_F_SYN = true → has (in_flag i) TCP_F_ACK = true).

(** Time passes, and what the allocators, the drivers and the random number generator
    will return is anything. *)
Definition surroundings (now : Z) (rand : list Z) (make xalloc : list bool) (err : list Z) : C unit :=
  on_net (λ n, Ret (tt, mk_net now rand make xalloc err (n_routes n) (n_out n))).

(** A step of one endpoint; [sent] is what the other one has handed out so far.  The
    application writes buffers smaller than the TX FIFO and reads into buffers smaller
    than the RX FIFO, and does not close; a sleeping write goes on with what it has
    left. *)
Inductive ep_step (sent : list event) : endpoint → endpoint → Prop :=
| step_write c t W D iov flags o c' :
    c_tcb c = Some t → Forall (λ b, Z.of_nat (length b) < tcb_txfifo_size t) iov →
    tcp_stream_writev iov flags c = Ret (o, c') →
    ep_step sent (mk_ep c W D) (mk_ep c' (W ++ take (progress o 0) (concat iov)) D)
| step_write_on c t W D iov flags w o c' :
    c_tcb c = Some t → Forall (λ b, Z.of_nat (length b) < tcb_txfifo_size t) iov →
    writev_loop iov flags w c = Ret (o, c') →
    ep_step sent (mk_ep c W D) (mk_ep c' (W ++ take (progress o w) (concat iov)) D)
| step_read c t W D size require total o bs c' :
    c_tcb c = Some t → 0 <= total <= size → size - total < tcb_rxfifo_size t →
    tcp_stream_read size require total c = Ret ((o, bs), c') →
    ep_step sent (mk_ep c W D) (mk_ep c' W (D ++ bs))
| step_task c t W D signals c' :
    c_tcb c = Some t → has signals TCP_EVENT_CONNECT = false → has signals TCP_EVENT_CLOSE = false →
    tcp_task_cb (S (Z.to_nat (u32 (snd_wrptr t - snd_nxt t)))) signals c = Ret (tt, c') →
    ep_step sent (mk_ep c W D) (mk_ep c' W D)
| step_timer c W D cb now c' :
    cb ∈ [tcp_rtx_cb; tcp_delayed_ack_cb; tcp_time_wait_cb] → cb now c = Ret (tt, c') →
    ep_step sent (mk_ep c W D) (mk_ep c' W D)
| step_input c t W D ni i s l r pkt v c' :
    c_tcb c = Some t → Sent s l r pkt ∈ sent → arrives s i → may_meet t i →
    tcp_input_tcb ni i c = Ret (v, c') →
    ep_step sent (mk_ep c W D) (mk_ep c' W D)
| step_surroundings c W D now rand make xalloc err c' :
    surroundings now rand make xalloc err c = Ret (tt, c') →
    ep_step sent (mk_ep c W D) (mk_ep c' W D).

Inductive sys_step : endpoint * endpoint → endpoint * endpoint → Prop :=
| step_left a a' b : ep_step (n_out (c_net (ep_conn b))) a a' → sys_step (a, b) (a', b)
| step_right a b b' : ep_step (n_out (c_net (ep_conn a))) b b' → sys_step (a, b) (a, b').

(** The applications write less than 2 to the 32 bytes, so that a sequence number names
    one byte. *)
Definition short (s : endpoint * endpoint) : Prop :=
  Z.of_nat (length (ep_written s.1)) < 4294967296 ∧ Z.of_nat (length (ep_written s.2)) < 4294967296.

(** ** The invariant *)

Record ep_ok (iss irs : Z) (R : list Z) (op : bool) (e : endpoint) : Prop := {
  eo_conn : conn_ok iss (ep_written e) irs R (ep_conn e);
  eo_runs : runs op None false (ep_conn e);
  eo_read : ∃ t d, c_tcb (ep_conn e) = Some t ∧ rx_ok irs R d t ∧ ep_read e = take (Z.to_nat d) R;
}.

(** From the writer [x] to the reader [y]: what [y] has received is a prefix of what [x]
    wrote, [y] counts from [x]'s initial sequence number once it has heard of it, and it
    has heard of data only if [x]'s SYN was acknowledged. *)
Record dir_ok (iss irs : Z) (R : list Z) (op : bool) (x y : endpoint) : Prop := {
  di_prefix : R `prefix_of` ep_written x;
  di_irs : ∀ t, c_tcb (ep_conn y) = Some t → tcb_pending_syn t ≠ TCP_F_SYN → irs = iss;
  di_open : R ≠ [] → op = true;
}.

Definition sys_ok (s : endpoint * endpoint) : Prop :=
  ∃ ia ib ra rb RA RB oa ob,
    ep_ok ia ra RA oa s.1 ∧ ep_ok ib rb RB ob s.2 ∧
    dir_ok ia rb RB oa s.1 s.2 ∧ dir_ok ib ra RA ob s.2 s.1.

Lemma wp_run {A} (m : C A) Q c a c' : wp m Q c → m c = Ret (a, c') → Q a c'.
Proof. intros (a1 & c1 & E & H) E'. rewrite E in E'. by simplify_eq. Qed.

(** The position of the reader, from the block. *)
Lemma rx_pos irs R d d' t :
  rx_ok irs R d t → 0 <= d' <= Z.of_nat (length R) → Z.of_nat (length R) < 4294967296 →
  rcv_rdptr t = u32 (irs + 1 + d') → d = d'.
Proof.
  intros Hr Hd' HR E. pose proof (rx_order _ _ _ _ Hr). rewrite (rx_rdptr _ _ _ _ Hr) in E.
  apply u32_eq in E; lia.
Qed.

Lemma ep_ok_conn iss irs R op x :
  ep_ok iss irs R op x → ∃ t, c_tcb (ep_conn x) = Some t ∧
    ep_conn x = live t (c_linked (ep_conn x)) (c_peers (ep_conn x)) (c_net (ep_conn x)) ∧ running op None false t ∧
    tcb_ok (ep_written x) irs R t.
Proof.
  intros Hx. destruct (eo_runs _ _ _ _ _ Hx) as (t & Et & Ht). exists t.
  pose proof (eo_conn _ _ _ _ _ Hx) as Hc. unfold conn_ok in Hc. rewrite Et in Hc.
  split_and!; try done; [|apply Hc]. destruct (ep_conn x); cbn in *. by rewrite Et.
Qed.

(** After an operation that leaves the read pointer alone. *)
Lemma ep_ok_keep {A} (m : C A) iss irs irs' R R' op x a c' W' :
  ep_ok iss irs R op x → Z.of_nat (length R') < 4294967296 → R `prefix_of` R' →
  (∀ t, c_tcb (ep_conn x) = Some t →
     if decide (tcb_state t = TCP_STATE_SYN_SENT) then R' = R else irs' = irs) →
  m (ep_conn x) = Ret (a, c') → (∀ v, stays op v false m) → conn_ok iss W' irs' R' c' →
  ep_ok iss irs' R' op (mk_ep c' W' (ep_read x)).
Proof.
  intros Hx HR HRR Hsame E Hk Hc. destruct (ep_ok_conn _ _ _ _ _ Hx) as (t & Et & Ex & Hrun & Hok).
  destruct (eo_read _ _ _ _ _ Hx) as (t0 & d & Et0 & Hr & Erd). rewrite Et in Et0. injection Et0 as <-.
  destruct (Hk None _ _ _ (eo_runs _ _ _ _ _ Hx) E) as (t' & Et' & Hrun').
  split; [done|by exists t'|]. cbn [ep_conn ep_read].
  pose proof Hc as Hc'. unfold conn_ok in Hc'. rewrite Et' in Hc'. destruct Hc' as (_ & (_ & _ & (d' & Hr') & Hst') & _).
  specialize (Hsame t Et). pose proof (rx_order _ _ _ _ Hr) as Hord. pose proof (rx_order _ _ _ _ Hr') as Hord'.
  pose proof (prefix_length _ _ HRR) as Hlen.
  assert (d' = d) as ->.
  { case_decide as Hs.
    - destruct Hok as (_ & _ & _ & Hst). destruct (st_active _ _ Hst (st_sent _ _ Hst Hs)) as (_ & -> & _).
      rewrite Hsame in *. cbn in *. lia.
    - subst irs'. apply (rx_pos irs R' d' d t'); [done|lia|done|].
      destruct (Hk (Some (rcv_rdptr t)) (ep_conn x) a c') as (t2 & Et2 & Hrun2); [|done|].
      + exists t. split; [done|]. destruct Hrun. split; try done. by intros ? [= <-].
      + rewrite Et' in Et2. injection Et2 as <-. destruct (rn_rdptr _ _ _ _ Hrun2 _ eq_refl) as [-> _]. apply Hr. }
  exists t', d. split; [done|]. split; [done|]. rewrite Erd. destruct HRR as [k ->].
  by rewrite take_app_le by lia.
Qed.

(** Once the SYN is acknowledged it stays so. *)
Lemma runs_open x iss irs R op t :
  ep_ok iss irs R op x → c_tcb (ep_conn x) = Some t → tcb_pending_syn t = 0 → ep_ok iss irs R true x.
Proof.
  intros [H1 H2 H3] Et Hp. split; [done| |done]. destruct H2 as (t' & Et' & Hrun).
  rewrite Et in Et'. injection Et' as <-. exists t. split; [done|]. unfold conn_ok in H1. rewrite Et in H1.
  destruct H1 as (_ & (_ & _ & _ & Hst) & _). destruct Hrun. split; try done. intros _. split; [done|].
  intros Hs. pose proof (st_sent _ _ Hst Hs). rewrite Hp in *. done.
Qed.

(** What the invariants say of a segment from [y] that [x] gets to see. *)
Lemma segment_sane iss irs R op x iss' irs' R' op' y t i s l r pkt :
  ep_ok iss irs R op x → ep_ok iss' irs' R' op' y → dir_ok iss irs' R' op x y →
  c_tcb (ep_conn x) = Some t → Sent s l r pkt ∈ n_out (c_net (ep_conn y)) → arrives s i → may_meet t i →
  sane i t ∧ has (in_flag i) TCP_F_FIN = false ∧
  (has (in_flag i) TCP_F_SYN = true → th_seq (in_th i) = iss') ∧
  (has (in_flag i) TCP_F_SYN = false → carries iss' (ep_written y) (th_seq (in_th i)) (in_payload i)) ∧
  (has (in_flag i) TCP_F_SYN = false → in_payload i ≠ [] → ∃ ty, c_tcb (ep_conn y) = Some ty ∧ tcb_pending_syn ty = 0).
Proof.
  intros Hx Hy Hd Et Hs Har [Hncl Hopen].
  destruct (ep_ok_conn _ _ _ _ _ Hx) as (t0 & Et0 & _ & Hrun & Hok). rewrite Et in Et0. injection Et0 as <-.
  destruct (ep_ok_conn _ _ _ _ _ Hy) as (ty & Ety & _ & Hruny & Hoky).
  pose proof (eo_conn _ _ _ _ _ Hx) as Hcx. unfold conn_ok in Hcx. rewrite Et in Hcx.
  destruct Hcx as (Hix & (Hshx & (a & n & Htx) & _ & Hstx) & _).
  pose proof (eo_conn _ _ _ _ _ Hy) as Hcy. unfold conn_ok in Hcy. rewrite Ety in Hcy.
  destruct Hcy as (Hiy & _ & Hny). destruct Hny as [_ Hlog]. specialize (Hlog _ _ _ _ Hs).
  unfold log_ok in Hlog. rewrite Hiy in Hlog. destruct Hlog as [L1 L2 L3 L4 L5].
  destruct Har as [A1 A2 A3 A4 A5 A6]. unfold in_flag in *. rewrite A1 in *.
  assert (has (th_flg (seg_th s)) TCP_F_FIN = false) as Hfin.
  { destruct (has (th_flg (seg_th s)) TCP_F_FIN); [|done]. specialize (L4 eq_refl).
    unfold closing in L4. rewrite (rn_fin _ _ _ _ Hruny) in L4. done. }
  split_and!.
  - split; rewrite ?A1; try done.
    + unfold in_flag. rewrite A1. done.
    + intros Hp Hss Hack Hrst. unfold in_flag in Hack, Hrst. rewrite A1 in Hack, Hrst.
      destruct (L3 Hack Hrst) as (j & Hj & Ej). unfold acked in Hj. case_decide as Hps; [lia|].
      rewrite (rn_peer _ _ _ _ Hruny) in Hj. cbn [b2z] in Hj.
      assert (R' = []) as ->.
      { destruct (decide (R' = [])) as [|Hne]; [done|]. pose proof (di_open _ _ _ _ _ _ Hd Hne) as Ho.
        destruct (rn_open _ _ _ _ Hrun Ho). done. }
      cbn in Hj. assert (j = 0) as -> by lia. rewrite Ej, (di_irs _ _ _ _ _ _ Hd _ Ety Hps).
      destruct (tx_syn _ _ _ _ Htx Hp) as (_ & -> & _). rewrite (tx_nxt _ _ _ _ Htx), Hix. f_equal. lia.
    + apply Hrun.
    + intros Hf. by rewrite (rn_peer _ _ _ _ Hrun) in Hf.
  - done.
  - intros Hsy. by apply L1.
  - intros Hsy. rewrite A2 by done. by apply L2.
  - intros Hsy Hne. rewrite A2 in Hne by done. exists ty. split; [done|].
    specialize (L5 Hsy Hne). unfold opened_side in L5. by apply Z.eqb_eq in L5.
Qed.

Lemma write_progress iss irs R W o iov flags st w c' :
  (∃ t' j, c_tcb c' = Some t' ∧ conn_ok iss (W ++ take j (concat iov)) irs R c' ∧
     write_end flags st iov j w o t') →
  conn_ok iss (W ++ take (progress o w) (concat iov)) irs R c'.
Proof.
  intros (t' & j & Et' & Hc & _ & [[-> _]|(rest & -> & _)]); cbn [progress];
    by replace (Z.to_nat (w + Z.of_nat j - w)) with j by lia.
Qed.

Section Step.
Context (iss irs : Z) (R : list Z) (op : bool) (x : endpoint).
Context (iss' irs' : Z) (R' : list Z) (op' : bool) (y : endpoint).
Hypothesis Hshort : Z.of_nat (length (ep_written y)) < 4294967296.
Hypothesis Hx : ep_ok iss irs R op x.
Hypothesis Hy : ep_ok iss' irs' R' op' y.
Hypothesis Hxy : dir_ok iss irs' R' op x y.
Hypothesis Hyx : dir_ok iss' irs R op' y x.

(** The invariants of both endpoints and of the two directions after a step of [x]. *)
Definition step_ok (x' : endpoint) : Prop :=
  ∃ irs2 R2 op2, ep_ok iss irs2 R2 op x' ∧ ep_ok iss' irs' R' op2 y ∧
    dir_ok iss irs' R' op x' y ∧ dir_ok iss' irs2 R2 op2 y x'.

Lemma short_R : Z.of_nat (length R) < 4294967296.
Proof. pose proof (prefix_length _ _ (di_prefix _ _ _ _ _ _ Hyx)). lia. Qed.

(** The received stream stays, and the peer is as known as before. *)
Lemma step_same {A} (m : C A) a x' :
  m (ep_conn x) = Ret (a, ep_conn x') → stays op None true m →
  ep_written x `prefix_of` ep_written x' → ep_ok iss irs R op x' → step_ok x'.
Proof.
  intros E Hk HW Hx'. exists irs, R, op'. split_and!; try done.
  - destruct Hxy as [D1 D2 D3]. split; try done. by etransitivity.
  - destruct Hyx as [D1 D2 D3]. split; try done. intros t' Et' Hp'.
    destruct (ep_ok_conn _ _ _ _ _ Hx) as (t & Et & _ & Hrun & _). apply (D2 t Et). intros Hp. destruct Hp'.
    destruct (Hk (ep_conn x) a (ep_conn x')) as (t2 & Et2 & Hrun2); [|done|].
    + exists t. split; [done|]. destruct Hrun. by split.
    + rewrite Et' in Et2. injection Et2 as <-. by apply (rn_syn _ _ _ _ Hrun2).
Qed.

Lemma step_keep {A} (m : C A) a c' W' :
  m (ep_conn x) = Ret (a, c') → (∀ v w, stays op v w m) → ep_written x `prefix_of` W' →
  conn_ok iss W' irs R c' → step_ok (mk_ep c' W' (ep_read x)).
Proof.
  intros E Hk HW Hc. eapply step_same; [exact E|apply Hk|done|].
  eapply ep_ok_keep; [exact Hx|apply short_R|done| |exact E|by intros|done]. intros t _. by case_decide.
Qed.

Lemma input_step ni i v c' t s l r pkt :
  c_tcb (ep_conn x) = Some t → Sent s l r pkt ∈ n_out (c_net (ep_conn y)) → arrives s i → may_meet t i →
  tcp_input_tcb ni i (ep_conn x) = Ret (v, c') → step_ok (mk_ep c' (ep_written x) (ep_read x)).
Proof.
  intros Et Hs Har Hmeet E.
  destruct (segment_sane _ _ _ _ _ _ _ _ _ _ _ _ _ _ _ _ Hx Hy Hxy Et Hs Har Hmeet) as (Hsane & Hfin & Hsyn & Hdata & Hopn).
  destruct (ep_ok_conn _ _ _ _ _ Hx) as (t0 & Et0 & Ex & Hrun & Hok). rewrite Et in Et0. injection Et0 as <-.
  assert (input_post i iss (ep_written x) irs R t c') as (irs2 & R2 & Hc & Hdel & Hirs & _).
  { pose proof (eo_conn _ _ _ _ _ Hx) as Hcx. rewrite Ex in E, Hcx.
    exact (wp_run _ _ _ _ _ (wp_input ni i iss _ irs R t _ _ _ Hcx Hsane) E). }
  pose proof Hok as (Hsh & _ & (d & Hr) & Hst).
  (* where the payload belongs *)
  assert (R2 `prefix_of` ep_written y ∧ R `prefix_of` R2 ∧ (R2 ≠ R → in_payload i ≠ [] ∧
    has (in_flag i) TCP_F_SYN = false ∧ tcb_state t ≠ TCP_STATE_SYN_SENT)) as (Hpre & HRR & Hne).
  { destruct Hdel as [->|(-> & Eseq & Efin & Hss & Esyn)]; [split; [apply Hyx|done]|].
    destruct (Hdata Esyn) as [Enil|(k & Hk & Ek & Ebs)].
    - rewrite Enil, app_nil_r. split; [apply Hyx|done].
    - assert (irs = iss') as ->.
      { apply (di_irs _ _ _ _ _ _ Hyx _ Et). intros Ep. destruct (st_active _ _ Hst Ep) as [[?|?] _]; [done|].
        by destruct Hmeet. }
      rewrite Eseq, (rx_nxt _ _ _ _ Hr), Efin in Ek. cbn [b2z] in Ek.
      destruct (di_prefix _ _ _ _ _ _ Hyx) as [rest HW].
      assert (length R = k) as <-.
      { apply u32_eq in Ek; rewrite ?HW, ?length_app in *; lia. }
      split_and!; [|by apply prefix_app_r|].
      + rewrite HW in Ebs |- *. rewrite drop_app_length in Ebs. rewrite Ebs. apply prefix_app, prefix_take.
      + intros Hn. split_and!; try done. intros En. by rewrite En, app_nil_r in Hn. }
  assert (Z.of_nat (length R2) < 4294967296) as HR2 by (pose proof (prefix_length _ _ Hpre); lia).
  set (o2 := if decide (R2 = R) then op' else true).
  assert (ep_ok iss' irs' R' o2 y) as Hy2.
  { subst o2. case_decide as Hd; [done|]. destruct (Hne Hd) as (Hn1 & Hn2 & _).
    destruct (Hopn Hn2 Hn1) as (ty & Ety & Hty). by eapply runs_open. }
  assert (ep_ok iss irs2 R2 op (mk_ep c' (ep_written x) (ep_read x))) as Hx2.
  { eapply ep_ok_keep; [exact Hx|done|done| |exact E|by intros; apply stays_input|done].
    intros t1 Et1. rewrite Et in Et1. injection Et1 as <-. case_decide as Hss.
    - destruct (decide (R2 = R)) as [|Hn]; [done|]. by destruct (Hne Hn) as (_ & _ & ?).
    - destruct Hirs as [[-> _]|[? _]]; done. }
  exists irs2, R2, o2. split_and!; try done.
  - by destruct Hxy.
  - split; [done| |].
    + intros t2 Et2 Hp2. destruct Hirs as [[-> Hkeep]|(_ & Esyn & ->)]; [|by apply Hsyn].
      (* not heard of the peer before: the segment did not change that *)
      destruct (decide (tcb_pending_syn t = TCP_F_SYN)) as [Hp|Hp]; [|by apply (di_irs _ _ _ _ _ _ Hyx _ Et)].
      by destruct Hp2; apply Hkeep.
    + intros HR. subst o2. case_decide as Hd; [|done]. subst R2. by apply (di_open _ _ _ _ _ _ Hyx).
Qed.

End Step.

Lemma ep_step_ok iss irs R op x iss' irs' R' op' y x' :
  ep_step (n_out (c_net (ep_conn y))) x x' → Z.of_nat (length (ep_written y)) < 4294967296 →
  ep_ok iss irs R op x → ep_ok iss' irs' R' op' y → dir_ok iss irs' R' op x y → dir_ok iss' irs R op' y x →
  step_ok iss op iss' irs' R' y x'.
Proof.
  intros Hs Hshort Hx Hy Hxy Hyx.
  destruct (ep_ok_conn _ _ _ _ _ Hx) as (t0 & Et0 & Ex & Hrun & Hok).
  pose proof (eo_conn _ _ _ _ _ Hx) as Hcx. pose proof (rn_fin _ _ _ _ Hrun) as Hpf.
  assert (Hkeep := @step_keep iss irs R op x iss' irs' R' op' y Hshort Hx Hy Hxy Hyx).
  destruct Hs as [c t W D iov flags o c' Et Hall E|c t W D iov flags w o c' Et Hall E
    |c t W D size require total o bs c' Et Htot Hsz E|c t W D signals c' Et Hs1 Hs2 E|c W D cb now c' Hcb E
    |c t W D ni i s l r pkt v c' Et Hin Har Hmeet E|c W D now rand make xalloc err c' E]; cbn [ep_conn ep_written ep_read] in *;
    rewrite ?Et0 in *; simplify_eq.
  - eapply Hkeep; [exact E|by intros; apply stays_writev|by apply prefix_app_r|].
    rewrite Ex in E, Hcx.
    destruct (wp_run _ _ _ _ _ (wp_writev iss W irs R flags iov t _ _ _ Hcx Hpf Hall) E)
      as [(-> & _ & ->)|[(-> & _ & _ & ->)|H]].
    + cbn [progress]. by rewrite app_nil_r.
    + cbn [progress]. by rewrite app_nil_r.
    + by apply (write_progress iss irs R W o iov flags (tcb_state t) 0).
  - eapply Hkeep; [exact E|by intros; apply stays_writev_loop|by apply prefix_app_r|].
    rewrite Ex in E, Hcx. apply (write_progress iss irs R W o iov flags (tcb_state t) w).
    refine (wp_run _ (λ o c', ∃ t' j, c_tcb c' = Some t' ∧ conn_ok iss (W ++ take j (concat iov)) irs R c' ∧
      write_end flags (tcb_state t) iov j w o t') _ _ _ _ E).
    eapply (wp_writev_loop iss W irs R); [exact Hcx|done|done|]. intros o1 t' nt' j H' He. by exists t', j.
  - destruct (eo_read _ _ _ _ _ Hx) as (t1 & d & Et1 & Hr & Erd). cbn [ep_conn ep_read] in *. rewrite Et0 in Et1.
    injection Et1 as <-. pose proof (rx_order _ _ _ _ Hr) as Hord.
    pose proof (prefix_length _ _ (di_prefix _ _ _ _ _ _ Hyx)) as HR.
    eapply (step_same iss irs R op _ iss' irs' R' op' y); try done; [apply stays_read|].
    destruct (stays_read op false size require total _ _ _ (eo_runs _ _ _ _ _ Hx) E) as (t2 & Et2 & Hrun2).
    rewrite Ex in E, Hcx.
    destruct (wp_run _ _ _ _ _ (wp_read iss W irs R d size require total t _ _ _ Hcx Hr Htot Hsz) E)
      as (t3 & Et3 & Hc' & Hr' & Hend).
    split; [done|by exists t2|]. exists t3, (d + Z.of_nat (length bs)). split; [done|]. split; [done|].
    cbn [ep_read]. destruct Hend as (_ & Ebs & _). rewrite Erd.
    replace (Z.to_nat (d + Z.of_nat (length bs))) with (Z.to_nat d + length bs)%nat by lia.
    rewrite <- take_take_drop, <- Ebs. done.
  - eapply Hkeep; [exact E|by intros; apply stays_task|done|]. rewrite Ex in E, Hcx.
    refine (wp_run _ _ _ _ _ (wp_task iss W irs R signals _ t _ _ _ Hcx Hs1 _) E). lia.
  - rewrite Ex in E, Hcx.
    destruct (wp_timers iss W irs R now t0 _ _ _ Hcx) as (T1 & T2 & T3). rewrite <- Ex in *.
    rewrite !elem_of_cons, elem_of_nil in Hcb. destruct Hcb as [->|[->|[->|[]]]].
    + eapply Hkeep; [exact E|intros; apply stays_rtx|done|exact (wp_run _ _ _ _ _ T1 E)].
    + eapply Hkeep; [exact E|intros; apply stays_delayed_ack|done|exact (wp_run _ _ _ _ _ T2 E)].
    + eapply Hkeep; [exact E|intros; apply stays_time_wait_cb|done|exact (wp_run _ _ _ _ _ T3 E)].
  - by eapply (input_step iss irs R op (mk_ep c W D) iss' irs' R' op' y).
  - eapply Hkeep; [exact E|intros; apply stays_on_net|done|]. rewrite Ex in E, Hcx.
    unfold surroundings, on_net in E. injection E as <-. by destruct Hcx as (? & ? & ?).
Qed.

Lemma ep_step_written sent x x' : ep_step sent x x' → ep_written x `prefix_of` ep_written x'.
Proof. intros Hs. destruct Hs; cbn [ep_written]; try done; by apply prefix_app_r. Qed.

Lemma sys_step_ok s s' : sys_step s s' → short s → sys_ok s → sys_ok s'.
Proof.
  intros Hs [S1 S2] (ia & ib & ra & rb & RA & RB & oa & ob & HA & HB & HAB & HBA).
  destruct Hs as [a a' b Hs|a b b' Hs]; cbn [fst snd] in *.
  - destruct (ep_step_ok _ _ _ _ _ _ _ _ _ _ _ Hs S2 HA HB HAB HBA) as (irs2 & R2 & op2 & H1 & H2 & H3 & H4).
    exists ia, ib, irs2, rb, R2, RB, oa, op2. done.
  - destruct (ep_step_ok _ _ _ _ _ _ _ _ _ _ _ Hs S1 HB HA HBA HAB) as (irs2 & R2 & op2 & H1 & H2 & H3 & H4).
    exists ia, ib, ra, irs2, RA, R2, op2, ob. done.
Qed.

Lemma sys_step_short s s' : sys_step s s' → short s' → short s.
Proof.
  intros Hs [S1 S2]. destruct Hs as [a a' b Hs|a b b' Hs]; apply ep_step_written, prefix_length in Hs;
    split; cbn [fst snd] in *; lia.
Qed.

Lemma sys_steps_ok s s' : rtc sys_step s s' → short s' → sys_ok s → sys_ok s'.
Proof.
  intros Hs Hsh. assert (short s) as Hs0.
  { induction Hs as [|s s1 s' H1 Hs IH]; [done|]. eapply sys_step_short; [exact H1|auto]. }
  induction Hs as [|s s1 s' H1 Hs IH]; [done|]. intros Hok.
  assert (short s1) as Hs1 by (clear -Hs Hsh; induction Hs as [|? ? ? H ? IH]; [done|eapply sys_step_short; [exact H|auto]]).
  apply IH; [done|done|]. by eapply sys_step_ok.
Qed.

Lemma sys_ok_prefix s : sys_ok s →
  ep_read s.2 `prefix_of` ep_written s.1 ∧ ep_read s.1 `prefix_of` ep_written s.2.
Proof.
  intros (ia & ib & ra & rb & RA & RB & oa & ob & HA & HB & HAB & HBA). split.
  - destruct (eo_read _ _ _ _ _ HB) as (t & d & _ & _ & ->). etransitivity; [apply prefix_take|apply HAB].
  - destruct (eo_read _ _ _ _ _ HA) as (t & d & _ & _ & ->). etransitivity; [apply prefix_take|apply HBA].
Qed.

(** ** Opening *)

(** A block as [tcb_create] leaves it, up to addresses and options, before its SYN. *)
Record fresh (iss irs : Z) (t : tcb) : Prop := {
  fr_shape : shape t;
  fr_iss : tcb_iss t = u32 iss ∧ snd_una t = u32 iss ∧ snd_nxt t = u32 iss ∧ snd_wrptr t = u32 (iss + 1);
  fr_pending : tcb_pending_syn t = 0 ∧ tcb_pending_fin t = 0 ∧ snd_wnd t = 0;
  fr_rx : rcv_nxt t = u32 (irs + 1) ∧ rcv_rdptr t = u32 (irs + 1);
  fr_open : tcb_fin_received t = false ∧ tcb_app_closed t = false;
}.

Definition silent (n : net) : Prop := routes_ok (n_routes n) ∧ ∀ s l r pkt, Sent s l r pkt ∉ n_out n.

Lemma fresh_syn_ok iss irs flags t :
  fresh iss irs t → (flags = 2 ∧ tcb_state t = TCP_STATE_SYN_SENT ∨ flags = 18 ∧ tcb_state t = TCP_STATE_CLOSED) →
  let t' := set_nxt (u32 (snd_nxt t + 1)) (set_pending_syn flags t) in
  tcb_ok [] irs [] t' ∧ rx_ok irs [] 0 t' ∧ running false None false t'.
Proof.
  intros [Hsh (F1 & F2 & F3 & F4) (P1 & P2 & P3) (X1 & X2) (O1 & O2)] Hfl t'.
  pose proof (pow2_pos _ (sh_tx _ Hsh)). pose proof (pow2_pos _ (sh_rx _ Hsh)). pose proof (sh_tx_min _ Hsh).
  assert (rx_ok irs [] 0 t') as Hr.
  { split; try done.
    - cbn [t' set_nxt set_pending_syn rcv_nxt tcb_fin_received length]. rewrite X1, O1. cbn [b2z]. f_equal. lia.
    - cbn [t' set_nxt set_pending_syn rcv_rdptr]. rewrite X2. f_equal. lia.
    - cbn. lia.
    - intros j Hj. rewrite drop_nil in Hj. cbn [length] in Hj. lia. }
  split; [|split; [done|]].
  - split_and!; [by destruct Hsh| |by exists 0|].
    + exists 0, 1. split; cbn [t' set_nxt set_pending_syn tcb_iss snd_una snd_nxt snd_wrptr tcb_pending_syn tcb_txfifo_size
        tcb_buffer length].
      * rewrite F1, F2, Z.add_0_r. unfold u32. by rewrite Z.mod_mod by lia.
      * by rewrite F1, F3.
      * unfold fin_slot. cbn [t' set_nxt set_pending_syn tcb_pending_fin]. rewrite P2, F1, F4, Z.eqb_refl.
        rewrite <- (u32_add iss 1). f_equal. lia.
      * unfold fin_slot. cbn [t' set_nxt set_pending_syn tcb_pending_fin]. rewrite P2, Z.eqb_refl. cbn. lia.
      * cbn. lia.
      * intros E. destruct Hfl as [[-> _]|[-> _]]; done.
      * intros _. done.
      * split; [destruct Hfl as [[-> _]|[-> _]]; set_solver|].
        change (tcb_pending_fin t ∈ [0; 17]). rewrite P2. set_solver.
      * intros j Hj. rewrite drop_nil in Hj. cbn [length] in Hj. lia.
    + split; cbn [t' set_nxt set_pending_syn tcb_state tcb_pending_fin tcb_pending_syn tcb_fin_received].
      * done.
      * intros E. destruct Hfl as [[-> _]|[-> _]]; done.
      * intros E. destruct Hfl as [[-> _]|[_ E']]; [done|]. by rewrite E in E'.
      * intros ->. destruct Hfl as [[_ ?]|[? _]]; [|done]. auto.
  - split; try done. cbn. destruct Hfl as [[_ ->]|[_ ->]]; done.
Qed.

Lemma wp_first_syn iss irs flags recycle Q t l p nt :
  fresh iss irs t → silent nt →
  (flags = 2 ∧ tcb_state t = TCP_STATE_SYN_SENT ∨ flags = 18 ∧ tcb_state t = TCP_STATE_CLOSED) →
  (∀ t' nt', conn_ok (u32 iss) [] irs [] (live t' l p nt') → rx_ok irs [] 0 t' → running false None false t' →
     tcb_pending_syn t' = flags → Q tt (live t' l p nt')) →
  wp (tcp_send_syn flags recycle) Q (live t l p nt).
Proof.
  intros Hfr [Hro Hsi] Hfl HQ. unfold tcp_send_syn. apply wp_bind, wp_arm_if_idle. intros r. wp_steps.
  assert (fresh iss irs (set_rtx r t)) as Hfr' by (destruct Hfr as [[]]; by split).
  destruct (fresh_syn_ok iss irs flags (set_rtx r t) Hfr' Hfl) as (Hok & Hr & Hrun).
  set (t1 := set_nxt _ _) in *.
  change (u32 (snd_nxt (set_pending_syn flags (set_rtx r t)) + 1)) with (if false then snd_una t1 else snd_nxt t1).
  apply (wp_emit_ok (u32 iss) [] irs []).
  - split_and!; [apply Hfr'|done|]. split; [done|]. intros s l' r' pkt Hs. by destruct (Hsi s l' r' pkt).
  - intros err da n x y nt' H' _. wp_steps. apply HQ; [done|by destruct Hr|by destruct Hrun|done].
Qed.

Lemma create_fresh iss tx rx fill irs t :
  pow2 tx → pow2 rx → 1024 <= tx → 1024 <= rx → Z.of_nat (length fill) = tx + rx →
  core t = core (set_rcv_nxt (u32 (irs + 1)) (set_rdptr (u32 (irs + 1)) (tcb_create iss tx rx fill))) →
  tcb_app_closed t = false → fresh iss irs t.
Proof.
  intros Htx Hrx Htm Hrm Hl [= C1 C2 C3 C4 C5 C6 C7 C8 C9 C10 C11 C12 C13] Ha. split.
  - split; rewrite ?C8, ?C9, ?C10, ?C5; done.
  - rewrite C1, C2, C3, C4. done.
  - rewrite C6, C7, C5. done.
  - done.
  - done.
Qed.

(** The passive open of [tcp_input_listen] on the new block: addresses, the options of
    the SYN, our SYN. *)
Definition accepting (ni : netif) (i : input) (ws : bool) (shift mss : Z) : C unit :=
  modify (init_tcb ni i);;
  modify (λ t, set_wscale ws shift (set_mss mss t));;
  tcp_send_syn (Z.lor TCP_F_SYN TCP_F_ACK) true;;
  tcp_set_state TCP_STATE_SYN_RECEIVED;;
  set_linked true.

(** The active open: [tcp_connect] and the task it wakes. *)
Definition connecting (fuel : nat) (dst_addr dst_port : Z) : C unit :=
  tcp_connect dst_addr dst_port;; tcp_do_connect fuel.

Lemma pick_port_ret fuel t l p nt u c' :
  pick_port fuel (live t l p nt) = Ret (u, c') → silent nt →
  ∃ port nt', c' = live (set_local_port port t) l p nt' ∧ silent nt'.
Proof.
  revert nt. induction fuel as [|fuel IH]; intros nt E Hs; cbn [pick_port] in E; [done|].
  unfold mbind, C_bind, peek_net, on_net in E. cbn [c_net next_rand] in E.
  set (nt1 := mk_net _ _ _ _ _ _ _) in E. assert (silent nt1) as Hs1 by done. clearbody nt1.
  cbn [c_tcb c_linked c_peers] in E.
  destruct (u16 _ <? 1024); [by eapply IH|]. unfold get, get_peers, modify in E. cbn [c_tcb c_peers c_linked c_net] in E.
  destruct (tcb_find _ _ _ _); [by eapply IH|]. injection E as _ <-. by eexists _, _.
Qed.

Lemma connecting_ok iss tx rx fill fuel a port l p nt u c :
  pow2 tx → pow2 rx → 1024 <= tx → 1024 <= rx → Z.of_nat (length fill) = tx + rx → silent nt →
  connecting fuel a port (live (tcb_create iss tx rx fill) l p nt) = Ret (u, c) →
  ep_ok (u32 iss) (-1) [] false (mk_ep c [] []) ∧ ∀ t, c_tcb c = Some t → tcb_pending_syn t = TCP_F_SYN.
Proof.
  intros Htx Hrx Htm Hrm Hl Hs E. unfold connecting, tcp_connect, tcp_do_connect, tcp_set_state in E.
  unfold mbind at 1, C_bind at 1 in E. unfold mbind at 1, C_bind at 1 in E.
  unfold modify at 1 in E. cbn [c_tcb c_linked c_peers c_net] in E.
  unfold mbind at 1, C_bind at 1 in E. unfold modify at 1 in E. cbn [c_tcb c_linked c_peers c_net] in E.
  unfold put_event, on_net at 1 in E. cbn [c_tcb c_linked c_peers c_net] in E.
  unfold mbind at 1, C_bind at 1 in E.
  set (t0 := set_remote _ _ _) in E. set (nt0 := emit_event _ nt) in E.
  destruct (pick_port fuel (live t0 l p nt0)) as [[u1 c1]|] eqn:Ep; [|done].
  apply pick_port_ret in Ep as (lp & nt1 & -> & Hs1).
  2:{ split; [apply Hs|]. intros s0 l0 r0 pkt0. unfold nt0. cbn. rewrite elem_of_app, list_elem_of_singleton.
      intros [H|?]; [by destruct Hs as [_ Hs]; destruct (Hs s0 l0 r0 pkt0)|done]. }
  set (t1 := set_local_port lp t0) in E.
  refine (wp_run _ (λ _ c, ep_ok (u32 iss) (-1) [] false (mk_ep c [] []) ∧
    ∀ t, c_tcb c = Some t → tcb_pending_syn t = TCP_F_SYN) _ _ _ _ E).
  wp_steps. apply (wp_first_syn iss (-1)).
  - apply (create_fresh iss tx rx fill); try done.
  - done.
  - by left.
  - intros t' nt' H' Hr Hrun Hp. wp_steps. split; [|by intros ? [= <-]]. split; [done|by exists t'|].
    exists t', 0. done.
Qed.

Lemma accepting_ok iss tx rx fill ni i ws shift mss l p nt u c :
  pow2 tx → pow2 rx → 1024 <= tx → 1024 <= rx → Z.of_nat (length fill) = tx + rx → silent nt →
  accepting ni i ws shift mss (live (tcb_create iss tx rx fill) l p nt) = Ret (u, c) →
  ep_ok (u32 iss) (th_seq (in_th i)) [] false (mk_ep c [] []).
Proof.
  intros Htx Hrx Htm Hrm Hl Hs E.
  refine (wp_run _ (λ _ c, ep_ok (u32 iss) (th_seq (in_th i)) [] false (mk_ep c [] [])) _ _ _ _ E).
  unfold accepting, tcp_set_state. wp_steps. apply (wp_first_syn iss (th_seq (in_th i))).
  - by apply (create_fresh iss tx rx fill).
  - done.
  - by right.
  - intros t' nt' H' Hr Hrun Hp. wp_steps. pose proof H' as (_ & (_ & _ & _ & Hst) & _).
    assert (conn_ok (u32 iss) [] (th_seq (in_th i)) [] (live (set_state TCP_STATE_SYN_RECEIVED t') true p nt')) as H2.
    { eapply conn_ok_state; [exact H'|]. destruct Hst as [S1 S2 S3 S4].
      split; cbn [set_state tcb_state tcb_pending_fin tcb_pending_syn tcb_fin_received]; rewrite ?Hp; try done.
      intros _. by apply (rn_fin _ _ _ _ Hrun). }
    split; [done| |].
    + eexists. split; [reflexivity|]. by apply running_state.
    + eexists _, 0. split; [reflexivity|]. split; [by destruct Hr|done].
Qed.

(** C2: a connection is a byte stream in both directions.  One side connects and the
    other accepts its SYN (not both actively).  Then whatever the network does to the
    segments (lose, repeat, reorder), whatever the drivers and allocators return, and
    however the applications, timers and tasks run, the bytes one application has read
    are a prefix of the bytes the other has written.  Bounds: the FIFOs have at least 1 kB,
    each application writes less than 2 to the 32 bytes, in buffers smaller than the TX
    FIFO, each single read asks for less than the RX FIFO holds (more overruns it, see
    [tcp_read_overruns_fifo]), segment buffers are at most 512 bytes, as the senders make
    them, and neither side closes. *)
Theorem tcp_stream_prefix ia ib tx rx tx' rx' fill fill' fuel addr port ni i ws shift mss l l' p p' nt nt' u u' ca cb s :
  pow2 tx → pow2 rx → 1024 <= tx → 1024 <= rx → Z.of_nat (length fill) = tx + rx → silent nt →
  pow2 tx' → pow2 rx' → 1024 <= tx' → 1024 <= rx' → Z.of_nat (length fill') = tx' + rx' → silent nt' →
  connecting fuel addr port (live (tcb_create ia tx rx fill) l p nt) = Ret (u, ca) →
  accepting ni i ws shift mss (live (tcb_create ib tx' rx' fill') l' p' nt') = Ret (u', cb) →
  th_seq (in_th i) = u32 ia →
  rtc sys_step (mk_ep ca [] [], mk_ep cb [] []) s → short s →
  ep_read s.2 `prefix_of` ep_written s.1 ∧ ep_read s.1 `prefix_of` ep_written s.2.
Proof.
  intros Htx Hrx Htm Hrm Hl Hs Htx' Hrx' Htm' Hrm' Hl' Hs' Ea Eb Hseq Hsteps Hshort.
  destruct (connecting_ok ia tx rx fill fuel addr port l p nt u ca) as [HA Hsyn]; try done.
  pose proof (accepting_ok ib tx' rx' fill' ni i ws shift mss l' p' nt' u' cb Htx' Hrx' Htm' Hrm' Hl' Hs' Eb) as HB.
  apply sys_ok_prefix. eapply sys_steps_ok; [exact Hsteps|done|].
  exists (u32 ia), (u32 ib), (-1), (th_seq (in_th i)), [], [], false, false. split_and!; [done|done| |].
  - split; done.
  - split; [done| |done]. intros t Et Hp. by destruct Hp; apply Hsyn.
Qed.

(** ** A session

    Two hosts on one network: the handshake, two bytes one way. *)

Definition after {A} (m : C A) (c : conn) : conn := match m c with Ret (_, c') => c' | Fault _ => c end.

(** The segments sent, in order. *)
Definition sents (c : conn) : list segment :=
  omap (λ e, match e with Sent s _ _ _ => Some s | _ => None end) (n_out (c_net c)).

Lemma sents_out c k s : sents c !! k = Some s → ∃ l r pkt, Sent s l r pkt ∈ n_out (c_net c).
Proof.
  intros Hs%list_elem_of_lookup_2. apply list_elem_of_omap in Hs as ([s' l r pkt| | |] & Hin & E); simplify_eq. eauto.
Qed.

(** The input at the other end, as one buffer. *)
Definition input_of (remote : Z) (s : segment) : input :=
  mk_input remote (seg_th s) (Z.shiftr (Z.land (th_off (seg_th s)) 240) 2) [th_bytes (seg_th s) 0 ++ concat (seg_data s)].

Lemma th_bytes_ok th ck : bytes (th_bytes th ck) ∧ length (th_bytes th ck) = 20%nat.
Proof. split; [|done]. repeat constructor; first [apply u8_byte | unfold is_byte; lia]. Qed.

Definition in_range (lo x hi : Z) : bool := (lo <=? x) && (x <? hi).

(** A segment that fits a buffer and has its options in the header. *)
Definition plain (s : segment) : bool :=
  let th := seg_th s in
  let len := Z.of_nat (length (concat (seg_data s))) in
  let hdr := Z.shiftr (Z.land (th_off th) 240) 2 in
  in_range 0 (th_seq th) 4294967296 && in_range 0 (th_ack th) 4294967296 && in_range 0 (th_wnd th) 65536 &&
  in_range 0 len 492 && in_range 20 hdr (21 + len) && (has (th_flg th) TCP_F_SYN || (hdr =? 20)).

Lemma plain_arrives remote s : plain s = true → arrives s (input_of remote s).
Proof.
  unfold plain, in_range. intros H. rewrite !andb_true_iff, orb_true_iff, !Z.leb_le, !Z.ltb_lt, Z.eqb_eq in H.
  destruct H as [[[[[[H1 H1'] [H2 H2']] [H3 H3']] [H4 H4']] [H5 H5']] H6].
  destruct (th_bytes_ok (seg_th s) 0) as [_ Hl]. unfold is_u32.
  split; cbn [input_of in_th in_hdr_len in_pb]; try lia; try done.
  - intros Hs. rewrite Hs in H6. destruct H6 as [?|E]; [done|]. unfold in_payload. cbn [in_hdr_len in_pb input_of concat].
    rewrite E, app_nil_r. change (Z.to_nat 20) with 20%nat. by rewrite <- Hl, drop_app_length.
  - unfold pktlen. cbn [concat]. rewrite app_nil_r, length_app, Hl. lia.
  - constructor; [|constructor]. rewrite length_app, Hl. lia.
Qed.

Definition ex_net (rand : list Z) (make : list bool) : net := mk_net 1000000 rand make [] [] example_routes [].
Definition ex_peer : Z := 50440384.
Definition ex_fill : list Z := replicate 2048 0.
Definition nth_sent (c : conn) (k : nat) : segment := default (mk_seg (mk_th 0 0 0 0 0 0 0) []) (sents c !! k).
Definition gets (c : conn) (k : nat) : C verdict := tcp_input_tcb example_ni (input_of ex_peer (nth_sent c k)).

Definition tcb_of (c : conn) : tcb := default (tcb_create 0 0 0 []) (c_tcb c).

Definition ex_a0 : conn := after (connecting 5 ex_peer 80) (live (tcb_create 1000 1024 1024 ex_fill) false [] (ex_net [5000] [])).
Definition ex_b0 : conn :=
  after (accepting example_ni (input_of ex_peer (nth_sent ex_a0 0)) true 0 536)
    (live (tcb_create 7000 1024 1024 ex_fill) false [] (ex_net [] [])).
Definition ex_a1 : conn := after (gets ex_b0 0) ex_a0.
Definition ex_b1 : conn := after (gets ex_a1 1) ex_b0.
Definition ex_a2 : conn := after (tcp_stream_writev [[104; 105]] 0) ex_a1.
Definition ex_a3 : conn := after (tcp_task_cb 3 TCP_EVENT_EMIT) ex_a2.
Definition ex_b2 : conn := after (gets ex_a3 2) ex_b1.
Definition ex_b3 : conn := after (tcp_stream_read 10 0 0) ex_b2.

(** A segment of [c'] reaches [c]. *)
Definition meets (c : conn) (i : input) : bool :=
  match c_tcb c with
  | Some t => negb (tcb_state t =? TCP_STATE_CLOSED) &&
      (negb (tcb_state t =? TCP_STATE_SYN_SENT) || negb (has (in_flag i) TCP_F_SYN) || has (in_flag i) TCP_F_ACK)
  | None => false
  end.

Lemma step_gets c c' k v c2 W D :
  (k <? length (sents c'))%nat = true → plain (nth_sent c' k) = true → meets c (input_of ex_peer (nth_sent c' k)) = true →
  gets c' k c = Ret (v, c2) → ep_step (n_out (c_net c')) (mk_ep c W D) (mk_ep c2 W D).
Proof.
  intros Hk Hp Hm E. apply Nat.ltb_lt, lookup_lt_is_Some_2 in Hk as [s Hs].
  assert (nth_sent c' k = s) as Es by (unfold nth_sent; by rewrite Hs).
  destruct (sents_out _ _ _ Hs) as (l & r & pkt & Hin). rewrite <- Es in Hin.
  unfold meets in Hm. destruct (c_tcb c) as [t|] eqn:Et; [|done].
  eapply step_input; [exact Et|exact Hin|by apply plain_arrives| |exact E].
  rewrite andb_true_iff, !orb_true_iff, !negb_true_iff, !Z.eqb_neq in Hm. split; [tauto|].
  intros H1 H2. rewrite H2 in Hm. naive_solver.
Qed.

Lemma ex_pow2 : pow2 1024.
Proof. exists 10. split; [lia|done]. Qed.

Lemma ex_silent rand make : silent (ex_net rand make).
Proof. split; [constructor|]. intros s l r pkt H. by apply not_elem_of_nil in H. Qed.

Ltac computed := vm_compute; reflexivity.

Lemma session_ok :
  rtc sys_step (mk_ep ex_a0 [] [], mk_ep ex_b0 [] []) (mk_ep ex_a3 [104; 105] [], mk_ep ex_b3 [] [104; 105]).
Proof.
  apply (rtc_l _ _ (mk_ep ex_a1 [] [], mk_ep ex_b0 [] [])).
  { apply step_left. apply (step_gets ex_a0 ex_b0 0 Taken ex_a1); computed. }
  apply (rtc_l _ _ (mk_ep ex_a1 [] [], mk_ep ex_b1 [] [])).
  { apply step_right. apply (step_gets ex_b0 ex_a1 1 Back ex_b1); computed. }
  apply (rtc_l _ _ (mk_ep ex_a2 [104; 105] [], mk_ep ex_b1 [] [])).
  { apply step_left. apply (step_write _ ex_a1 (tcb_of ex_a1) [] [] [[104; 105]] 0 (Done 2) ex_a2);
      [computed|constructor; [computed|constructor]|computed]. }
  apply (rtc_l _ _ (mk_ep ex_a3 [104; 105] [], mk_ep ex_b1 [] [])).
  { apply step_left. apply (step_task _ ex_a2 (tcb_of ex_a2) _ _ TCP_EVENT_EMIT ex_a3); computed. }
  apply (rtc_l _ _ (mk_ep ex_a3 [104; 105] [], mk_ep ex_b2 [] [])).
  { apply step_right. apply (step_gets ex_b1 ex_a3 2 Taken ex_b2); computed. }
  apply (rtc_l _ _ (mk_ep ex_a3 [104; 105] [], mk_ep ex_b3 [] [104; 105])); [|apply rtc_refl].
  apply step_right. apply (step_read _ ex_b2 (tcb_of ex_b2) [] [] 10 0 0 (Done 2) [104; 105] ex_b3);
    [computed|lia|computed|computed].
Qed.

Lemma tcp_stream_prefix_witness :
  rtc sys_step (mk_ep ex_a0 [] [], mk_ep ex_b0 [] []) (mk_ep ex_a3 [104; 105] [], mk_ep ex_b3 [] [104; 105]) ∧
  [104; 105] `prefix_of` [104; 105].
Proof.
  split; [exact session_ok|].
  refine (proj1 (tcp_stream_prefix 1000 7000 1024 1024 1024 1024 ex_fill ex_fill 5 ex_peer 80 example_ni
    (input_of ex_peer (nth_sent ex_a0 0)) true 0 536 false false [] [] (ex_net [5000] []) (ex_net [] []) tt tt
    ex_a0 ex_b0 _ _ _ _ _ _ _ _ _ _ _ _ _ _ _ _ session_ok _));
    try apply ex_pow2; try apply ex_silent; try lia; try (vm_compute; reflexivity). split; vm_compute; reflexivity.
Defined.
