(* ===== verification/TcpSpec.v ===== *)
(** * TcpSpec: what a TCP connection promises ([src/net/ipv4/tcp.c])

    The properties of one connection, on the lemmas of [TcpInv], [TcpInput] and
    [TcpPair]: any sequence of operations runs without a fault and keeps the invariant;
    writes queue and reads hand out the bytes of the stream; every segment leaves with
    checksums that verify.  Then the inputs that the invariant excludes: what the code
    does with an acknowledgement in [LAST_ACK], a SYN with an option of length zero, a
    write as large as the FIFO, a window of one byte before the FIN, an acknowledgement
    of more than our SYN, and a read past the end of the stream.  The last part is a
    session of two endpoints from the handshake to the delivery of data. *)

From Stdlib Require Import ZArith Lia.
From stdpp Require Import base list numbers gmap.
From S2P Require Import Prelude Ipv4 Tcp TcpInv TcpInput TcpPair.

Open Scope Z_scope.

(** ** Any sequence of operations *)

Inductive op :=
| Op_writev (iov : list (list Z)) (flags : Z)
| Op_read (size require total : Z)
| Op_task (signals : Z)
| Op_rtx (now : Z)
| Op_delayed_ack (now : Z)
| Op_time_wait (now : Z)
| Op_input (ni : netif) (i : input).

(** An operation on the block [t]; the task gets fuel for what is unsent. *)
Definition op_run (o : op) (t : tcb) : C unit :=
  match o with
  | Op_writev iov flags => tcp_stream_writev iov flags;; mret tt
  | Op_read size require total => tcp_stream_read size require total;; mret tt
  | Op_task signals => tcp_task_cb (S (Z.to_nat (u32 (snd_wrptr t - snd_nxt t)))) signals
  | Op_rtx now => tcp_rtx_cb now
  | Op_delayed_ack now => tcp_delayed_ack_cb now
  | Op_time_wait now => tcp_time_wait_cb now
  | Op_input ni i => tcp_input_tcb ni i;; mret tt
  end.

(** When it may be called: the application writes before it closes, in buffers smaller
    than the FIFO, and reads into a buffer smaller than the FIFO; the connect event was
    handled; segments are [sane]. *)
Definition op_may (o : op) (t : tcb) : Prop :=
  match o with
  | Op_writev iov _ => tcb_pending_fin t = 0 ∧ Forall (λ b, Z.of_nat (length b) < tcb_txfifo_size t) iov
  | Op_read size _ total => 0 <= total <= size ∧ size - total < tcb_rxfifo_size t
  | Op_task signals => has signals TCP_EVENT_CONNECT = false
  | Op_input _ i => sane i t
  | _ => True
  end.

Fixpoint run_ops (ops : list op) : C unit :=
  match ops with
  | [] => mret tt
  | o :: ops => t ← get; op_run o t;; run_ops ops
  end.

(** The block is there for each operation, and the operation may be called. *)
Fixpoint ops_may (ops : list op) (c : conn) : Prop :=
  match ops with
  | [] => True
  | o :: ops => ∃ t, c_tcb c = Some t ∧ op_may o t ∧ ∀ u c', op_run o t c = Ret (u, c') → ops_may ops c'
  end.

Lemma op_ok iss W irs R o t l p nt :
  conn_ok iss W irs R (live t l p nt) → op_may o t →
  wp (op_run o t) (λ _ c', ∃ W' irs' R', conn_ok iss W' irs' R' c' ∧ W `prefix_of` W' ∧ R `prefix_of` R')
    (live t l p nt).
Proof.
  intros H Hmay.
  assert (∀ (m : C unit), wp m (λ _ c', conn_ok iss W irs R c') (live t l p nt) →
    wp m (λ _ c', ∃ W' irs' R', conn_ok iss W' irs' R' c' ∧ W `prefix_of` W' ∧ R `prefix_of` R')
      (live t l p nt)) as Hsame.
  { intros m Hm. eapply wp_mono; [exact Hm|]. intros u c' H'. by exists W, irs, R. }
  destruct o as [iov flags|size require total|signals|now|now|now|ni i]; cbn [op_run op_may] in *.
  - destruct Hmay as [Hpf Hall]. apply wp_bind. eapply wp_mono; [by apply (wp_writev iss W irs R)|].
    intros o c' Ho. wp_steps. destruct Ho as [(_ & _ & ->)|[(_ & _ & _ & ->)|(t' & j & _ & H' & _)]].
    + by exists W, irs, R.
    + by exists W, irs, R.
    + exists (W ++ take j (concat iov)), irs, R. split_and!; [done|by apply prefix_app_r|done].
  - destruct Hmay as [Htot Hsz]. pose proof H as (_ & (_ & _ & (d & Hr) & _) & _).
    apply wp_bind. eapply wp_mono; [by apply (wp_read iss W irs R d)|].
    intros [o bs] c' (t' & _ & H' & _). wp_steps. by exists W, irs, R.
  - apply Hsame, wp_task; [done|done|lia].
  - apply Hsame, (wp_timers iss W irs R now t l p nt H).
  - apply Hsame, (wp_timers iss W irs R now t l p nt H).
  - apply Hsame, (wp_timers iss W irs R now t l p nt H).
  - apply wp_bind. eapply wp_mono; [by apply (wp_input ni i iss W irs R)|].
    intros v c' (irs' & R' & H' & Hdel & _). wp_steps. exists W, irs', R'. split_and!; [done|done|].
    destruct Hdel as [->|[-> _]]; [done|by apply prefix_app_r].
Qed.

Lemma ops_ok iss ops : ∀ W irs R c,
  conn_ok iss W irs R c → ops_may ops c →
  wp (run_ops ops) (λ _ c', ∃ W' irs' R', conn_ok iss W' irs' R' c' ∧ W `prefix_of` W' ∧ R `prefix_of` R') c.
Proof.
  induction ops as [|o ops IH]; intros W irs R c H Hmay; cbn [run_ops ops_may] in *.
  { wp_steps. by exists W, irs, R. }
  destruct Hmay as (t & Et & Hmay & Hrest). destruct c as [ot l p nt]. cbn in Et. subst ot. wp_steps.
  destruct (op_ok iss W irs R o t l p nt H Hmay) as (u & c1 & E & W1 & irs1 & R1 & H1 & HW1 & HR1).
  exists u, c1. split; [done|]. eapply wp_mono; [eapply IH; [exact H1|by eapply Hrest]|].
  intros u2 c2 (W2 & irs2 & R2 & H2 & HW2 & HR2). exists W2, irs2, R2. split; [done|]. split; by etransitivity.
Qed.

(** A connection that was just opened, from either side, with [iss] our initial sequence
    number. *)
Inductive just_opened : Z → conn → Prop :=
| by_connect iss tx rx fill fuel addr port l p nt u c :
    pow2 tx → pow2 rx → 1024 <= tx → 1024 <= rx → Z.of_nat (length fill) = tx + rx → silent nt →
    connecting fuel addr port (live (tcb_create iss tx rx fill) l p nt) = Ret (u, c) →
    just_opened (u32 iss) c
| by_accept iss tx rx fill ni i ws shift mss l p nt u c :
    pow2 tx → pow2 rx → 1024 <= tx → 1024 <= rx → Z.of_nat (length fill) = tx + rx → silent nt →
    accepting ni i ws shift mss (live (tcb_create iss tx rx fill) l p nt) = Ret (u, c) →
    just_opened (u32 iss) c.

Lemma just_opened_ok iss c : just_opened iss c → ∃ irs, conn_ok iss [] irs [] c.
Proof.
  intros [iss' tx rx fill fuel addr port l p nt u c' H1 H2 H3 H4 H5 H6 E
         |iss' tx rx fill ni i ws shift mss l p nt u c' H1 H2 H3 H4 H5 H6 E].
  - destruct (connecting_ok _ _ _ _ _ _ _ _ _ _ _ _ H1 H2 H3 H4 H5 H6 E) as [Hok _]. exists (-1). apply Hok.
  - pose proof (accepting_ok _ _ _ _ _ _ _ _ _ _ _ _ _ _ H1 H2 H3 H4 H5 H6 E) as Hok.
    exists (th_seq (in_th i)). apply Hok.
Qed.


(** ** Writing and reading *)

(** C16: a write to the stream queues the bytes of its vector behind what was written
    before, in order: it returns the count when all are queued, or fewer with
    [STREAM_WRITE_NO_WAIT] or on a closed connection when the FIFO is full, sleeps with
    just the rest left to do otherwise, and queues nothing when [STREAM_WRITE_ALL] asks
    for more room than there is.  No buffer may be as large as the whole FIFO. *)
Theorem tcp_writev_correct iss W irs R flags iov t l p nt :
  conn_ok iss W irs R (live t l p nt) → tcb_pending_fin t = 0 →
  Forall (λ b, Z.of_nat (length b) < tcb_txfifo_size t) iov →
  ∃ o c', tcp_stream_writev iov flags (live t l p nt) = Ret (o, c') ∧
    if decide (tcb_state t = TCP_STATE_CLOSED) then o = Done ERR_NOT_CONNECTED ∧ c' = live t l p nt
    else if decide (has flags STREAM_WRITE_ALL = true ∧ tcb_txfifo_avail t < iov_total iov)
    then o = Done 0 ∧ c' = live t l p nt
    else ∃ t' j, c_tcb c' = Some t' ∧ conn_ok iss (W ++ take j (concat iov)) irs R c' ∧
      write_end flags (tcb_state t) iov j 0 o t'.
Proof.
  intros H H0 Hall. destruct (decide (tcb_state t = TCP_STATE_CLOSED)) as [Hc|Hc].
  { eexists _, _. split; [|by split]. unfold tcp_stream_writev, mbind, C_bind, get. cbn [c_tcb].
    by rewrite (proj2 (Z.eqb_eq _ _)). }
  destruct (decide _) as [[Hall1 Hall2]|Hn].
  { eexists _, _. split; [|by split]. unfold tcp_stream_writev, mbind, C_bind, get. cbn [c_tcb].
    rewrite (proj2 (Z.eqb_neq _ _)), Hall1, (proj2 (Z.ltb_lt _ _)) by done. done. }
  destruct (wp_writev iss W irs R flags iov t l p nt H H0 Hall) as (o & c' & E & Ho). exists o, c'. split; [done|].
  destruct Ho as [(_ & ? & _)|[(_ & ? & ? & _)|?]]; [done|by destruct Hn|done].
Qed.

(** A read hands out bytes of the received stream from where the last one
    stopped: it returns when the buffer is full or nothing is left and enough was
    read, sleeps when more is required, and fails on a closed connection and at the end
    of the stream.  The buffer must be smaller than the FIFO. *)
Theorem tcp_read_correct iss W irs R d size require total t l p nt :
  conn_ok iss W irs R (live t l p nt) → rx_ok irs R d t →
  0 <= total <= size → size - total < tcb_rxfifo_size t →
  ∃ o bs c' t', tcp_stream_read size require total (live t l p nt) = Ret ((o, bs), c') ∧
    c_tcb c' = Some t' ∧ conn_ok iss W irs R c' ∧ rx_ok irs R (d + Z.of_nat (length bs)) t' ∧
    read_end R d size require total t o bs.
Proof.
  intros H Hr Htot Hsz. destruct (wp_read iss W irs R d size require total t l p nt H Hr Htot Hsz)
    as ([o bs] & c' & E & t' & ?). by exists o, bs, c', t'.
Qed.

(** ** Segments on the wire *)

(** The fields of a header fit their place in the packet. *)
Definition th_fits (th : tcp_hdr) : Prop :=
  (0 <= th_src_port th < 65536 ∧ 0 <= th_dst_port th < 65536) ∧ (is_u32 (th_seq th) ∧ is_u32 (th_ack th)) ∧
  is_byte (th_off th) ∧ is_byte (th_flg th) ∧ 0 <= th_wnd th < 65536.

Lemma le16_val x : 0 <= x < 65536 → u8 x + 256 * u8 (Z.shiftr x 8) = x.
Proof. intros. unfold u8. rewrite Z.shiftr_div_pow2 by lia. change (2 ^ 8) with 256. dlia. Qed.

(** The receiver's reading of the header is the header sent. *)
Lemma parse_th_bytes th ck rest : th_fits th → parse_th (th_bytes th ck ++ rest) = th.
Proof.
  intros ([H1 H2] & [H3 H4] & H5 & H6 & H7). unfold parse_th, rd_be32, th_bytes, ld32, ld16, byte_at.
  cbn [le16 be32 be16 app lookup list_lookup default Nat.add].
  unfold id. rewrite !htonl_swap, htons_swap by apply u8_byte.
  pose proof (rd_le32_le32 (th_seq th) H3) as E1. pose proof (rd_le32_le32 (th_ack th) H4) as E2. unfold rd_le32 in *.
  rewrite E1, E2, (le16_val (th_src_port th)), (le16_val (th_dst_port th)), (le16_val (th_wnd th)), !u8_id by done.
  by destruct th.
Qed.

Lemma ip_bytes_ok total id src dst : bytes (ip_bytes total id src dst) ∧ length (ip_bytes total id src dst) = 20%nat.
Proof. split; [|done]. repeat constructor; first [apply u8_byte | unfold is_byte; lia]. Qed.

(** The two checksums of a segment with header [th] and data [w :: next]. *)
Lemma checksums_filled th w next id src dst :
  even_windows (w :: next) → bytes (concat (w :: next)) → small (40 + length (concat (w :: next))) →
  let len := 20 + Z.of_nat (length (concat (w :: next))) in
  let ps := ipv4_cksum_pseudo src dst IPPROTO_TCP len in
  ∃ c e, ipv4_cksum_pbuf ps ((th_bytes th 0 ++ w) :: next) 0 len = Ret c ∧
    ipv4_cksum_pbuf 0 ((ip_bytes (20 + len) id src dst ++ th_bytes th c ++ w) :: next) 0 20 = Ret e ∧
    let w' := store 10 (le16 e) (ip_bytes (20 + len) id src dst ++ th_bytes th c ++ w) in
    drop 20 w' = th_bytes th c ++ w ∧ length w' = (40 + length w)%nat ∧
    ipv4_cksum_pbuf 0 (w' :: next) 0 20 = Ret 0 ∧ ipv4_cksum_pbuf ps (w' :: next) 20 len = Ret 0.
Proof.
  intros Hev Hb Hsm len ps. unfold small in Hsm. cbn [concat] in Hb, Hsm.
  apply Forall_app in Hb as [Hbw Hbn]. rewrite length_app in Hsm.
  destruct (th_bytes_ok th 0) as [Hb0 Hl0].
  destruct (headers_fit (th_bytes th 0) w w next) as (E1 & E2 & E3);
    [done|by exists 10%nat|done|done|done|done|unfold small; lia|].
  destruct (fill_verifies ps (th_bytes th 0 ++ w) next 0 len 16) as (c & Hc & Hcr & Hv);
    [apply pseudo_bound|lia|rewrite length_app; lia|unfold len; lia|by exists 8%nat|done|done|done|].
  change (store 16 [0; 0] (th_bytes th 0 ++ w)) with (th_bytes th 0 ++ w) in *.
  change (store 16 (le16 c) (th_bytes th 0 ++ w)) with (th_bytes th c ++ w) in Hv.
  destruct (th_bytes_ok th c) as [Hb1 Hl1]. set (w1 := th_bytes th c ++ w) in *.
  assert (length w1 = 20 + length w)%nat as Hlw by (subst w1; rewrite length_app; lia).
  destruct (ip_bytes_ok (20 + len) id src dst) as [Hb2 Hl2]. set (ip := ip_bytes _ _ _ _) in *.
  destruct (headers_fit ip w1 w next) as (G1 & G2 & G3);
    [done|by exists 10%nat|subst w1; by rewrite Forall_app|rewrite Hlw; intros [m ->]; by exists (10 + m)%nat; lia
    |done|done|unfold small; lia|].
  destruct (fill_verifies 0 (ip ++ w1) next 0 20 10) as (e & He & Her & Hve);
    [lia|lia|rewrite length_app; lia|lia|by exists 5%nat|done|done|done|].
  change (store 10 [0; 0] (ip ++ w1)) with (ip ++ w1) in *. change (Z.of_nat 0) with 0 in *.
  assert (drop 20 (store 10 (le16 e) (ip ++ w1)) = w1) as Ed.
  { rewrite drop_store by (rewrite ?length_app; cbn; lia). by rewrite <- Hl2, drop_app_length. }
  assert (length (store 10 (le16 e) (ip ++ w1)) = 40 + length w)%nat as Hls.
  { rewrite store_length by (rewrite length_app; cbn; lia). rewrite length_app. lia. }
  exists c, e. split; [done|]. split; [done|]. cbn zeta. fold w1. split_and!; try done.
  rewrite <- Hv. unfold ipv4_cksum_pbuf.
  rewrite cksum_loop_offset by lia. change (Z.to_nat 20) with 20%nat. by rewrite Ed.
Qed.

(** *** The checksum of RFC 1071

    As the standards have it: over 16-bit words with the first byte the more
    significant, an odd byte at the end padded with zero, the sum with the check field
    in is minus zero, that is a multiple of 65535 and not 0. *)
Fixpoint be_words (bs : list Z) : Z :=
  match bs with
  | a :: b :: rest => 256 * a + b + be_words rest
  | [a] => 256 * a
  | [] => 0
  end.
Definition rfc1071 (bs : list Z) : Prop := 0 < be_words bs ∧ be_words bs mod 65535 = 0.

(** The pseudo header of RFC 793: the addresses, whose words hold their four bytes in
    network order, a zero, the protocol and the length of the segment. *)
Definition pseudo_header (src dst len : Z) : list Z :=
  le32 src ++ le32 dst ++ [0; 6; len / 256; len mod 256].

(** The words read the other way round give 256 times the sum. *)
Lemma be_words_wsum bs : bytes bs → ∃ k, be_words bs = 256 * wsum bs - 65535 * k ∧ 0 <= k ∧ 256 * k <= wsum bs.
Proof.
  induction bs as [|a|a b l IH] using list_ind2; intros H; decompose_Forall_hyps; unfold is_byte in *.
  - by exists 0.
  - exists 0. cbn [be_words wsum]. lia.
  - destruct IH as (k & E & K1 & K2); [done|]. exists (k + b). cbn [be_words wsum]. rewrite E. lia.
Qed.

Lemma oc_rfc1071 bs : bytes bs → oc (wsum bs) = 65535 → rfc1071 bs.
Proof.
  intros Hb Ho. destruct (be_words_wsum bs Hb) as (k & E & H1 & H2). pose proof (wsum_bound bs Hb) as [Hw _].
  unfold oc in Ho. destruct (Z.eqb_spec (wsum bs) 0) as [|Hn]; [done|].
  assert (wsum bs mod 65535 = 0) as Hm by dlia.
  apply Z.mod_divide in Hm as [q Hq]; [|done]. split; [lia|].
  apply Z.mod_divide; [done|]. exists (256 * q - k). lia.
Qed.

(** A sum that the code's check takes is one RFC 1071 takes. *)
Lemma cksum_pbuf_rfc1071 pre sum w next off len :
  bytes pre → Nat.Even (length pre) → sum = wsum pre → (length pre <= 12)%nat →
  0 <= off <= Z.of_nat (length w) → 0 <= len →
  even_windows (drop (Z.to_nat off) w :: next) → bytes (concat (w :: next)) → small (length (concat (w :: next))) →
  ipv4_cksum_pbuf sum (w :: next) off len = Ret 0 →
  rfc1071 (pre ++ take (Z.to_nat len) (drop (Z.to_nat off) (concat (w :: next)))).
Proof.
  intros Hp He -> Hl12 Ho Hl Hev Hb Hsm E. pose proof (wsum_bound pre Hp) as [Hw1 Hw2].
  set (bs := take _ _). assert (bytes bs) as Hbs by (by apply Forall_take, Forall_drop).
  rewrite cksum_pbuf_spec in E; [|lia|done|done|done|done|].
  - injection E as E. apply oc_rfc1071; [by apply Forall_app|]. rewrite wsum_app by done.
    change (65535 - oc (wsum pre + wsum bs) = 0) in E. lia.
  - assert (length bs <= length (concat (w :: next)))%nat by (unfold bs; rewrite length_take, length_drop; lia).
    unfold small in Hsm. fold bs. lia.
Qed.

Lemma pseudo_wsum src dst len :
  0 <= len < 65536 → ipv4_cksum_pseudo src dst IPPROTO_TCP len = wsum (pseudo_header src dst len) ∧
  bytes (pseudo_header src dst len).
Proof.
  intros Hl. assert (be16 (u16 len) = [len / 256; len mod 256]) as Eb.
  { unfold be16, u16, u8. rewrite Z.shiftr_div_pow2 by lia. change (2 ^ 8) with 256.
    rewrite (Z.mod_small len 65536) by lia. f_equal. apply Z.mod_small. dlia. }
  assert (bytes (pseudo_header src dst len)) as Hb.
  { unfold pseudo_header. repeat (apply Forall_app; split); repeat constructor;
      first [apply u8_byte | unfold is_byte; dlia]. }
  split; [|done]. unfold ipv4_cksum_pseudo. rewrite Eb. change (u8 IPPROTO_TCP) with 6.
  change (le32 src ++ le32 dst ++ [0; 6] ++ [len / 256; len mod 256]) with (pseudo_header src dst len).
  pose proof (wsum_bound _ Hb) as Hw. change (length (pseudo_header src dst len)) with 12%nat in Hw.
  rewrite cksum_add_spec by (unfold is_u32; lia). apply u32_id. unfold is_u32. lia.
Qed.

(** C17: a segment leaves as one packet: behind 40 bytes of headers its data is
    unchanged, the IPv4 header has version, length, protocol and the addresses, the
    receiver reads back the TCP header that was sent, and when the interface does not
    offload them both checksums are right by RFC 1071: that of the IPv4 header over its 20
    bytes, that of TCP over the pseudo header of RFC 793, header and data.  All buffers
    but the last must have an even length, as those [tcp_emit] fills have, and the packet
    is shorter than 65536 bytes. *)
Theorem tcp_output_verifies s w next l r n nh r' ni :
  seg_data s = w :: next → even_windows (w :: next) → bytes (concat (w :: next)) →
  small (40 + length (concat (w :: next))) → th_fits (seg_th s) → is_u32 r →
  ipv4_nexthop_resolve (fst (next_xalloc n)) (n_routes n) r = (Some nh, r') → netifs r' !! nh_netif nh = Some ni →
  is_u32 (if l =? 0 then ni_ipv4_local_addr ni else l) →
  has (ni_flags ni) NETIF_F_TX_TCP_CKSUM_OFFLOAD = false → has (ni_flags ni) NETIF_F_TX_IPV4_CKSUM_OFFLOAD = false →
  let src := if l =? 0 then ni_ipv4_local_addr ni else l in
  let len := 20 + Z.of_nat (length (concat (w :: next))) in
  ∃ err n' w', tcp_output s l r n = Ret (err, n') ∧ n_out n' = n_out n ++ [Sent s src r (w' :: next)] ∧
    drop 40 w' = w ∧ length w' = (40 + length w)%nat ∧
    byte_at w' 0 = 69 ∧ 256 * byte_at w' 2 + byte_at w' 3 = 20 + len ∧ byte_at w' 9 = 6 ∧
    ld32 w' 12 = src ∧ ld32 w' 16 = r ∧
    parse_th (drop 20 w') = seg_th s ∧
    rfc1071 (take 20 w') ∧ rfc1071 (pseudo_header src r len ++ drop 20 w' ++ concat next).
Proof.
  intros Hd Hev Hb Hsm Hth Hr Hnh Hni Hsrc Hf1 Hf2 src len.
  set (id_ := default 0 (head (n_rand n))).
  destruct (checksums_filled (seg_th s) w next id_ src r Hev Hb Hsm) as (c & e & Hc & He & Ed & Hl & Hv1 & Hv2).
  cbn zeta in *. fold len in Hc, He, Ed, Hl, Hv1, Hv2. set (w' := store 10 _ _) in *.
  assert (∀ ck, pktlen ((th_bytes (seg_th s) ck ++ w) :: next) = len) as Hp.
  { intros ck. unfold pktlen, len. cbn [concat]. rewrite !length_app. destruct (th_bytes_ok (seg_th s) ck) as [_ ->]. lia. }
  unfold small in Hsm. assert (0 <= len < 65516) as Hlen by (unfold len; lia).
  cbn [concat] in Hb, Hsm. rewrite length_app in Hsm. apply Forall_app in Hb as [Hbw Hbn].
  destruct (th_bytes_ok (seg_th s) c) as [Hbt Hlt]. destruct (ip_bytes_ok (20 + len) id_ src r) as [Hbi Hli].
  assert (bytes w') as Hbw'.
  { apply store_bytes; [repeat constructor; apply u8_byte|]. rewrite !Forall_app. by split_and!. }
  assert (bytes (concat (w' :: next))) as Hball by (cbn [concat]; by apply Forall_app).
  assert (small (length (concat (w' :: next)))) as Hsm' by (unfold small; cbn [concat]; rewrite length_app, Hl; lia).
  assert (Nat.Even (length w) → Nat.Even (length w')) as Hevw by (rewrite Hl; intros [m ->]; exists (20 + m)%nat; lia).
  assert (even_windows (drop 0 w' :: next)) as Hev0 by (rewrite drop_0; by eapply even_windows_cons; [|exact Hev]).
  assert (even_windows (drop 20 w' :: next)) as Hev20.
  { eapply even_windows_cons; [|exact Hev]. rewrite length_drop, Hl. intros [m ->]. exists (10 + m)%nat. lia. }
  exists (default 0 (head (n_err n))). eexists _, w'. split; [|split; [|split_and!]].
  - unfold tcp_output, next_xalloc in *. cbn [fst] in Hnh. cbn [n_routes]. rewrite Hnh, Hni, Hd. cbn [on_first].
    fold src. rewrite Hf1, Hp, Hc. cbn [mbind res_bind on_first].
    change (store 16 (le16 c) (th_bytes (seg_th s) 0 ++ w)) with (th_bytes (seg_th s) c ++ w). rewrite Hp.
    unfold next_rand, next_err. cbn [set_routes n_rand n_err]. fold id_. rewrite Hf2, He. reflexivity.
  - done.
  - rewrite <- (drop_drop _ 20 20), Ed. by rewrite <- Hlt, drop_app_length.
  - done.
  - done.
  - change (256 * u8 (Z.shiftr (u16 (20 + len)) 8) + u8 (u16 (20 + len)) = 20 + len).
    unfold u16, u8. rewrite Z.shiftr_div_pow2 by lia. change (2 ^ 8) with 256. dlia.
  - done.
  - change (ld32 (le32 src) 0 = src). by apply ld32_le32.
  - change (ld32 (le32 r) 0 = r). by apply ld32_le32.
  - rewrite Ed. by apply parse_th_bytes.
  - assert (take 20 w' = [] ++ take (Z.to_nat 20) (drop (Z.to_nat 0) (concat (w' :: next)))) as ->.
    { change (take 20 w' = take 20 (w' ++ concat next)). by rewrite take_app_le by lia. }
    apply (cksum_pbuf_rfc1071 [] 0 w' next 0 20); try done; first [by exists 0%nat | cbn; lia].
  - destruct (pseudo_wsum src r len) as [Ep Hbp]; [lia|]. rewrite Ep in Hv2.
    assert (drop 20 w' ++ concat next = take (Z.to_nat len) (drop (Z.to_nat 20) (concat (w' :: next)))) as ->.
    { cbn [concat]. change (Z.to_nat 20) with 20%nat. rewrite drop_app_le by lia. rewrite take_ge; [done|].
      rewrite length_app, length_drop, Hl. unfold len. cbn [concat]. rewrite length_app. lia. }
    apply (cksum_pbuf_rfc1071 _ (wsum (pseudo_header src r len)) w' next 20 len); try done; first [by exists 6%nat | cbn; lia].
Qed.

(** ** Outside the invariant *)

Lemma run_bind {A B} (m : C A) (k : A → C B) c a c' : m c = Ret (a, c') → (m ≫= k) c = k a c'.
Proof. unfold mbind, C_bind. by intros ->. Qed.

Lemma run_get {B} (k : tcb → C B) t l p nt : (get ≫= k) (live t l p nt) = k t (live t l p nt).
Proof. done. Qed.

Lemma run_modify {B} f (k : unit → C B) t l p nt : (modify f ≫= k) (live t l p nt) = k tt (live (f t) l p nt).
Proof. done. Qed.

Lemma run_clock {B} (k : Z → C B) t l p nt : (clock_get ≫= k) (live t l p nt) = k (n_now nt) (live t l p nt).
Proof. done. Qed.

(** Closing a connection that the application has closed frees the block. *)
Lemma close_frees t l p nt :
  tcb_app_closed t = true → ∃ nt', tcp_close (live t l p nt) = Ret (tt, mk_conn None false p nt').
Proof.
  intros Ha. unfold tcp_close, tcp_disarm_all_timers, tcp_set_state, tcp_destroy, mbind, C_bind, modify, put_event,
    on_net, set_linked, get. cbn [c_tcb c_linked c_peers c_net].
  cbn [set_state set_tw set_dack set_rtx tcb_state tcb_app_closed]. rewrite Ha. cbn. eauto.
Qed.

(** C40: the acknowledgement of our FIN in [LAST_ACK] closes the connection, which
    frees the block, since the application closed it before; the code goes on to read
    the state of the freed block. *)
Theorem tcp_last_ack_uses_freed_block ni i t l p nt :
  tcb_state t = TCP_STATE_LAST_ACK → tcb_app_closed t = true → acceptable i t = true →
  has (in_flag i) TCP_F_ACK = true → has (in_flag i) TCP_F_RST = false → has (in_flag i) TCP_F_SYN = false →
  tcp_input_tcb ni i (live t l p nt) = Fault OutOfBounds.
Proof.
  intros Hst Happ Hacc Hack Hrst Hsyn. unfold tcp_input_tcb. rewrite run_get, Hst, Hacc, Hrst, Hsyn, Hack.
  change (TCP_STATE_LAST_ACK =? TCP_STATE_SYN_SENT) with false. cbn [negb].
  rewrite run_modify, run_clock, run_modify. set (t1 := set_last_rx _ _).
  assert (tcb_state t1 = TCP_STATE_LAST_ACK ∧ tcb_app_closed t1 = true) as [Hs1 Ha1] by done.
  destruct (close_frees t1 l p nt Ha1) as (nt' & E).
  assert (input_ack ni i (tcb_rxfifo_avail t) (live t1 l p nt) = Ret (None, mk_conn None false p nt')) as Ei.
  { unfold input_ack. rewrite run_get, Hs1. change (TCP_STATE_LAST_ACK =? TCP_STATE_SYN_RECEIVED) with false.
    change (can_send TCP_STATE_LAST_ACK) with false. change (TCP_STATE_LAST_ACK =? TCP_STATE_LAST_ACK) with true.
    cbv iota. by rewrite (run_bind _ _ _ _ _ E). }
  rewrite (run_bind _ _ _ _ _ Ei). done.
Qed.

(** The option parser on an option of length zero. *)
Lemma options_zero_length k rest fuel t :
  k <> 0 → k <> 1 → k <> 2 → tcp_parse_options fuel t (k :: 0 :: rest) = Fault NoFuel.
Proof.
  intros H0 H1 H2. revert t. induction fuel as [|fuel IH]; intros t; cbn [tcp_parse_options]; [done|].
  rewrite !(proj2 (Z.eqb_neq _ _)) by done. rewrite (proj2 (Z.ltb_ge _ _)) by lia.
  destruct (k =? 3); cbn [mbind res_bind]; change (Z.to_nat 0) with 0%nat; rewrite drop_0; apply IH.
Qed.

Lemma run_modify_at h f w t :
  store_ w !! h = Some t → ∃ w', run h (modify f) w = Ret (tt, w') ∧ store_ w' !! h = Some (f t).
Proof.
  intros Ht. unfold run. rewrite Ht. eexists. split; [reflexivity|]. cbn [store_]. apply lookup_partial_alter_eq.
Qed.

Lemma run_fault_at {A} h (m : C A) w t f :
  store_ w !! h = Some t → (∀ l p nt, m (live t l p nt) = Fault f) → run h m w = Fault f.
Proof. intros Ht Hm. unfold run. by rewrite Ht, Hm. Qed.

(** A SYN to the port of a service hangs the network task when it carries an option
    (other than end, padding and segment size) whose length byte is zero: the parser
    stays on the option, however long it runs. *)
Theorem tcp_syn_option_hangs svcs fuel ni i w svc err pb k rest :
  in_flag i = TCP_F_SYN → th_dst_port (in_th i) <> 0 →
  svcs (htons (th_dst_port (in_th i))) = Some svc → open_stream svc = Some err →
  fst (next_xalloc (w_net w)) = true →
  win_pullup (Z.to_nat (in_hdr_len i)) (in_pb i) = (0, pb) →
  take (Z.to_nat (in_hdr_len i - 20)) (drop 20 (first pb)) = k :: 0 :: rest → k <> 0 → k <> 1 → k <> 2 →
  tcp_input_listen svcs fuel ni i w = Fault NoFuel.
Proof.
  intros Hf Hp Hs Ho Hx Hpu Hopt K0 K1 K2. unfold tcp_input_listen. rewrite Hf, Z.eqb_refl. cbn [negb].
  rewrite (proj2 (Z.eqb_neq _ _)), Hs, Ho by done. unfold new_tcb.
  destruct (next_xalloc (w_net w)) as [mem n] eqn:En. cbn [fst] in Hx. subst mem.
  destruct (next_rand _) as [iss n'] eqn:Er. set (t := tcb_create _ _ _ _). cbv iota beta.
  cbn [w_next tcbs store_ w_net]. set (w1 := mk_world _ (<[_ := t]> _) _ _).
  destruct (run_modify_at (w_next w) (init_tcb ni i) w1 t) as (w2 & -> & Hw2); [apply lookup_insert_eq|].
  cbn [mbind res_bind]. rewrite Hpu. erewrite run_fault_at; [done|exact Hw2|].
  intros l p nt. rewrite run_get. change (0 =? 0) with true. cbv iota. unfold mbind, C_bind, lift.
  by rewrite Hopt, options_zero_length.
Qed.

(** When the peer's window has room for just one byte and a FIN waits behind
    unsent data, the FIN goes out at the sequence number of the next data byte, and all
    the data counts as sent. *)
Theorem tcp_fin_overtakes_data iss W irs R a n gen_ack t l p nt :
  conn_ok iss W irs R (live t l p nt) → tx_ok W a n t → tcb_pending_syn t = 0 → tcb_pending_fin t <> 0 →
  wnd_room t = 1 → n <= Z.of_nat (length W) →
  has (tcb_pending_fin t) TCP_F_FIN = true ∧ snd_nxt t = u32 (iss + n) ∧ is_Some (W !! Z.to_nat (n - 1)) ∧
  tcp_emit true (snd_nxt t) gen_ack (live t l p nt) =
    tcp_output_tcb (tcb_pending_fin t) (snd_nxt t) [[]] (live (set_nxt (snd_wrptr t) (set_dack None t)) l p nt).
Proof.
  intros (Hi & (Hsh & _) & _) Ht Hsyn Hfin Hroom Hn.
  destruct (tx_used _ _ _ _ Hsh Ht) as (_ & Hu & _). pose proof (tx_flags _ _ _ _ Ht) as [_ Hff].
  pose proof (tx_acked _ _ _ _ Ht Hsyn) as Ha. pose proof (tx_order _ _ _ _ Ht) as Hord.
  assert (fin_slot t = 1) as Hs1 by (unfold fin_slot; by rewrite (proj2 (Z.eqb_neq _ _))).
  rewrite Hs1 in *. split_and!.
  - rewrite !elem_of_cons, elem_of_nil in Hff. by destruct Hff as [?|[->|[]]].
  - by rewrite (tx_nxt _ _ _ _ Ht), Hi.
  - apply lookup_lt_is_Some. lia.
  - unfold tcp_emit. rewrite (run_bind _ _ _ true (live t l p nt)) by done. cbn [negb].
    rewrite run_modify, run_get.
    change (snd_nxt (set_dack None t)) with (snd_nxt t). change (snd_wrptr (set_dack None t)) with (snd_wrptr t).
    change (wnd_room (set_dack None t)) with (wnd_room t).
    change (tcb_pending_syn (set_dack None t)) with (tcb_pending_syn t).
    change (tcb_pending_fin (set_dack None t)) with (tcb_pending_fin t).
    rewrite Z.eqb_refl, Hu, Hroom, Hsyn, Z.min_r by lia. rewrite (proj2 (Z.eqb_neq (tcb_pending_fin t) 0)) by done.
    change (negb (0 =? 0)) with false. change (1 =? 0) with false. change (1 =? 1) with true. cbn [negb andb].
    rewrite (proj2 (Z.eqb_neq _ _)); [cbn [negb whenM]; by rewrite run_modify|].
    rewrite (tx_nxt _ _ _ _ Ht), (tx_wrptr _ _ _ _ Ht), Hs1. intros E. apply u32_eq in E; [lia|].
    pose proof (tx_fits _ _ _ _ Ht). pose proof (pow2_pos _ (sh_tx _ Hsh)). lia.
Qed.

(** A copy of the length of the whole FIFO that does not start at its beginning is not
    wrapped. *)
Lemma ltow_full buf base src s size :
  pow2 size → Z.of_nat (length src) = size → ltow_memcpy buf base src s size = wr buf (base + s mod size) src.
Proof.
  intros Hp Hl. pose proof (pow2_pos _ Hp). unfold ltow_memcpy. rewrite !pow2_mask, pow2_u32, Hl by done.
  rewrite <- Z.add_mod_idemp_r, Z_mod_same_full, Z.add_0_r, Z.mod_mod by lia. by rewrite Z.leb_refl.
Qed.

Lemma wtol_full buf base s size :
  pow2 size → wtol_memcpy buf base size s size = rd buf (base + s mod size) size.
Proof.
  intros Hp. pose proof (pow2_pos _ Hp). unfold wtol_memcpy. rewrite !pow2_mask, pow2_u32 by done.
  rewrite <- Z.add_mod_idemp_r, Z_mod_same_full, Z.add_0_r, Z.mod_mod by lia. by rewrite Z.leb_refl.
Qed.

(** Writing a buffer of exactly the FIFO's size to an empty FIFO whose write
    position is not at its beginning runs past the end of the TX FIFO: the tail of the
    buffer overwrites the beginning of the RX FIFO, and the call reports success. *)
Theorem tcp_write_overruns_fifo flags buf t l p nt :
  shape t → tcb_state t <> TCP_STATE_CLOSED → snd_wrptr t = snd_una t →
  Z.of_nat (length buf) = tcb_txfifo_size t →
  let o := snd_wrptr t mod tcb_txfifo_size t in
  0 < o <= tcb_rxfifo_size t →
  ∃ c' t', tcp_stream_writev [buf] flags (live t l p nt) = Ret (Done (tcb_txfifo_size t), c') ∧ c_tcb c' = Some t' ∧
    ∀ j, 0 <= j < o → tcb_buffer t' !! Z.to_nat (tcb_rxfifo t + j) = buf !! Z.to_nat (tcb_txfifo_size t - o + j).
Proof.
  intros Hsh Hst Hemp Hlen o Ho. pose proof (pow2_pos _ (sh_tx _ Hsh)) as Hpos.
  assert (0 <= o < tcb_txfifo_size t) as Hob by (apply Z.mod_pos_bound; lia).
  assert (tcb_txfifo_avail t = tcb_txfifo_size t) as Hav.
  { unfold tcb_txfifo_avail, tcb_txfifo_used. rewrite Hemp, Z.sub_diag. change (u32 0) with 0.
    rewrite Z.sub_0_r, u32_id by (unfold is_u32; lia). done. }
  destruct (wr (tcb_buffer t) (0 + o) buf) as [m|] eqn:Em.
  2:{ rewrite wr_ok in Em by (rewrite ?(sh_buf _ Hsh); lia). done. }
  assert (write_loop 3 buf flags 0 (live t l p nt) =
    Ret (inr (tcb_txfifo_size t), live (set_wrptr (u32 (snd_wrptr t + tcb_txfifo_size t)) (set_buffer m t)) l p nt)) as Ew.
  { cbn [write_loop]. destruct buf as [|b buf']; [cbn in Hlen; lia|]. set (buf := b :: buf') in *.
    rewrite run_get, Hav, (proj2 (Z.eqb_neq _ _)), Hlen, Z.min_id, take_ge, drop_ge by lia.
    rewrite (run_bind _ _ _ m (live t l p nt)); [by rewrite !run_modify|].
    unfold lift. rewrite ltow_full by (done || apply Hsh). fold o. by rewrite Em. }
  unfold tcp_stream_writev. rewrite run_get, (proj2 (Z.eqb_neq _ _)), Hav by done.
  assert (iov_total [buf] = tcb_txfifo_size t) as -> by (unfold iov_total; cbn [concat]; by rewrite app_nil_r).
  rewrite Z.ltb_irrefl, andb_false_r. cbn [writev_loop]. rewrite (run_bind _ _ _ _ _ Ew). cbv iota beta.
  rewrite run_get. unfold whenM. case_match; eexists _, _;
    (split; [reflexivity|]; split; [reflexivity|]); intros j Hj; cbn [set_wrptr set_buffer tcb_buffer];
    unfold tcb_rxfifo; rewrite (wr_lookup _ _ _ _ _ Em), decide_True by lia; f_equal; lia.
Qed.

(** Reading as many bytes as a full RX FIFO holds reads past the end of the
    block's memory when the read position is not at the beginning of the FIFO. *)
Theorem tcp_read_overruns_fifo size require t l p nt :
  shape t → tcb_state t <> TCP_STATE_CLOSED → tcb_fin_received t = false →
  tcb_rxfifo_used t = tcb_rxfifo_size t → rcv_rdptr t mod tcb_rxfifo_size t <> 0 →
  tcb_rxfifo_size t <= size →
  tcp_stream_read size require 0 (live t l p nt) = Fault OutOfBounds.
Proof.
  intros Hsh Hst Hf Hu Ho Hsz. pose proof (pow2_pos _ (sh_rx _ Hsh)) as Hpos. pose proof (pow2_pos _ (sh_tx _ Hsh)).
  pose proof (Z.mod_pos_bound (rcv_rdptr t) (tcb_rxfifo_size t) ltac:(lia)).
  unfold tcp_stream_read. cbn [read_loop]. rewrite Z.sub_0_r, (proj2 (Z.eqb_neq size 0)), run_get by lia.
  assert (tcb_rxfifo_user_bytes t = tcb_rxfifo_size t) as ->
    by (unfold tcb_rxfifo_user_bytes; by rewrite (proj2 (Z.eqb_neq _ _)), Hf, Hu).
  rewrite (proj2 (Z.ltb_ge _ _)), (proj2 (Z.eqb_neq (tcb_rxfifo_size t) 0)), Z.min_r by lia.
  unfold mbind, C_bind, lift. rewrite wtol_full by apply Hsh. unfold rd, tcb_rxfifo.
  destruct (_ && _)%bool eqn:E; [|done]. rewrite (sh_buf _ Hsh) in E. bool_to_prop. lia.
Qed.

(** Surroundings in which sending to [r] works: there is a route, and the drivers and
    allocators do not fail. *)
Definition works (r : Z) (n : net) : Prop :=
  n_err n = [] ∧ n_make n = [] ∧ ∃ nh ni, netifs (n_routes n) !! nh_netif nh = Some ni ∧
    ∀ mem, ipv4_nexthop_resolve mem (n_routes n) r = (Some nh, n_routes n).

Lemma output_works s l r n : works r n → ∃ n', tcp_output s l r n = Ret (0, n') ∧ works r n'.
Proof.
  intros (He & Hm & nh & ni & Hni & Hr). unfold tcp_output, next_xalloc. cbn [n_routes]. rewrite Hr, Hni.
  set (la := if l =? 0 then _ else _). set (pb := on_first _ (seg_data s)).
  assert (∃ pb1, (if has (ni_flags ni) NETIF_F_TX_TCP_CKSUM_OFFLOAD then Ret pb
    else c ← ipv4_cksum_pbuf (ipv4_cksum_pseudo la r IPPROTO_TCP (pktlen pb)) pb 0 (pktlen pb);
         Ret (on_first (store 16 (le16 c)) pb)) = Ret pb1) as [pb1 ->].
  { destruct (has _ _); [eauto|].
    destruct (cksum_total (ipv4_cksum_pseudo la r IPPROTO_TCP (pktlen pb)) pb 0 (pktlen pb)) as [c ->];
      [by apply cksum_add_u32|]. cbn. eauto. }
  cbn [mbind res_bind]. unfold next_rand. set (pb2 := on_first _ pb1).
  assert (∃ pb3, (if has (ni_flags ni) NETIF_F_TX_IPV4_CKSUM_OFFLOAD then Ret pb2
    else c ← ipv4_cksum_pbuf 0 pb2 0 20; Ret (on_first (store 10 (le16 c)) pb2)) = Ret pb3) as [pb3 ->].
  { destruct (has _ _); [eauto|]. destruct (cksum_total 0 pb2 0 20) as [c ->]; [done|]. cbn. eauto. }
  cbn [mbind res_bind]. unfold next_err, set_routes. cbn [n_err]. rewrite He. eexists. split; [reflexivity|].
  split; [done|]. split; [done|]. by exists nh, ni.
Qed.

(** With the SYN pending, an emission sends it again and moves nothing. *)
Lemma emit_pending_syn seq t l p nt :
  tcb_pending_syn t <> 0 → works (tcb_remote_addr t) nt →
  ∃ nt', tcp_emit false seq false (live t l p nt) = Ret (0, live (set_dack None t) l p nt') ∧
    works (tcb_remote_addr t) nt'.
Proof.
  intros Hsyn Hw. assert (works (tcb_remote_addr t) (snd (next_make nt))) as Hw1.
  { destruct Hw as (He & Hm & Hr). unfold next_make. rewrite Hm. done. }
  unfold tcp_emit. rewrite (run_bind _ _ _ true (live t l p (snd (next_make nt)))).
  2:{ destruct Hw as (_ & Hm & _). unfold peek_net, on_net, next_make. cbn [c_net c_tcb c_linked c_peers]. by rewrite Hm. }
  cbn [negb]. rewrite run_modify, run_get. change (tcb_pending_syn (set_dack None t)) with (tcb_pending_syn t).
  rewrite (proj2 (Z.eqb_neq _ _)) by done. cbn [negb]. unfold tcp_output_tcb. rewrite run_get.
  set (s := mk_seg _ _). destruct (output_works s (tcb_local_addr t) (tcb_remote_addr t) _ Hw1) as (n' & E & Hw').
  exists n'. split; [|done]. unfold on_net. cbn [c_net c_tcb c_linked c_peers].
  change (tcb_local_addr (set_dack None t)) with (tcb_local_addr t).
  change (tcb_remote_addr (set_dack None t)) with (tcb_remote_addr t). by rewrite E.
Qed.

Lemma drain_pending_syn fuel : ∀ t l p nt,
  tcb_pending_syn t <> 0 → snd_wrptr t <> snd_nxt t → wnd_room t <> 0 → works (tcb_remote_addr t) nt →
  drain fuel true (live t l p nt) = Fault NoFuel.
Proof.
  induction fuel as [|fuel IH]; intros t l p nt Hsyn Hne Hroom Hw; cbn [drain]; [done|].
  rewrite run_get, !(proj2 (Z.eqb_neq _ _)) by done. cbn [negb andb].
  destruct (emit_pending_syn (snd_nxt t) t l p nt Hsyn Hw) as (nt' & E & Hw'). rewrite (run_bind _ _ _ _ _ E).
  change (negb (0 =? 0)) with false. cbv iota. by apply IH.
Qed.

(** An acknowledgement of more than our SYN, received in [SYN_RECEIVED], opens the
    connection and leaves the SYN pending. *)
Lemma early_ack_opens ni i t l p nt :
  tcb_state t = TCP_STATE_SYN_RECEIVED → acceptable i t = true → routes_ok (n_routes nt) →
  has (in_flag i) TCP_F_ACK = true → has (in_flag i) TCP_F_RST = false → has (in_flag i) TCP_F_SYN = false →
  0 <= s32 (th_ack (in_th i) - snd_una t) → s32 (snd_nxt t - th_ack (in_th i)) < 0 →
  ∃ t' nt', tcp_input_tcb ni i (live t l p nt) = Ret (Taken, live t' l p nt') ∧
    tcb_state t' = TCP_STATE_ESTABLISHED ∧ tcb_pending_syn t' = tcb_pending_syn t.
Proof.
  intros Hst Hacc Hro Hack Hrst Hsyn Hua Han. unfold tcp_input_tcb. rewrite run_get, Hst, Hacc, Hrst, Hsyn, Hack.
  change (TCP_STATE_SYN_RECEIVED =? TCP_STATE_SYN_SENT) with false. cbn [negb].
  rewrite run_modify, run_clock, run_modify. set (t1 := set_last_rx _ _).
  assert (∃ t2 nt2, input_ack ni i (tcb_rxfifo_avail t) (live t1 l p nt) = Ret (Some Taken, live t2 l p nt2) ∧
    tcb_state t2 = TCP_STATE_ESTABLISHED ∧ tcb_pending_syn t2 = tcb_pending_syn t) as (t2 & nt2 & Ei & H2).
  { unfold input_ack. rewrite run_get. change (tcb_state t1) with (tcb_state t). rewrite Hst, Z.eqb_refl.
    change (snd_una t1) with (snd_una t). change (snd_nxt t1) with (snd_nxt t).
    rewrite (proj2 (Z.leb_le 0 _)), (proj2 (Z.leb_le _ 0)) by lia. cbn [andb].
    unfold tcp_set_state. rewrite !run_modify. set (t2 := set_wnd _ _ _ _). unfold ack_both, ack_open.
    rewrite (proj2 (Z.leb_gt 0 (s32 (snd_nxt t - _)))), andb_false_r by lia.
    rewrite (proj2 (Z.ltb_ge _ 0)), (proj2 (Z.ltb_lt _ 0)) by lia.
    assert (wp (t' ← get; v ← reply ni i (snd_nxt t') (rcv_nxt t') TCP_F_ACK (tcb_rxfifo_avail t); mret (Some v))
      (λ r c', ∃ nt', r = Some Taken ∧ c' = live t2 l p nt') (live t2 l p nt)) as (r & c & E & nt' & -> & ->).
    { wp_steps. eapply (wp_reply ni i (λ _, True)); [by split|done|]. intros nt' _ _. wp_steps. by exists nt'. }
    exists t2, nt'. split; [|done]. by rewrite (run_bind _ _ _ _ _ E). }
  exists t2, nt2. split; [|done]. by rewrite (run_bind _ _ _ _ _ Ei).
Qed.

(** With the SYN still pending on an established connection, as an acknowledgement
    of more than our SYN leaves it, flushing written data never ends: the task sends the
    SYN over and over as long as the drivers take it. *)
Theorem tcp_pending_syn_livelock fuel t l p nt :
  tcb_state t = TCP_STATE_ESTABLISHED → tcb_pending_syn t <> 0 → snd_wrptr t <> snd_nxt t → wnd_room t <> 0 →
  works (tcb_remote_addr t) nt →
  tcp_task_cb fuel TCP_EVENT_FLUSH (live t l p nt) = Fault NoFuel.
Proof.
  intros Hst Hsyn Hne Hroom Hw. unfold tcp_task_cb.
  change (has TCP_EVENT_FLUSH TCP_EVENT_CONNECT) with false. change (has TCP_EVENT_FLUSH TCP_EVENT_WND_OPEN) with false.
  change (has TCP_EVENT_FLUSH (Z.lor TCP_EVENT_EMIT TCP_EVENT_FLUSH)) with true.
  change (has TCP_EVENT_FLUSH TCP_EVENT_FLUSH) with true. cbn [whenM].
  do 2 rewrite (run_bind (mret tt) _ _ tt (live t l p nt)) by done. unfold mbind at 1, C_bind at 1.
  rewrite run_get, Hst. change (can_send TCP_STATE_ESTABLISHED) with true. cbn [whenM].
  assert (∃ t', arm_if_idle (live t l p nt) = Ret (tt, live t' l p nt) ∧ tcb_pending_syn t' <> 0 ∧
    snd_wrptr t' <> snd_nxt t' ∧ wnd_room t' <> 0 ∧ tcb_remote_addr t' = tcb_remote_addr t) as (t' & E & ? & ? & ? & Er).
  { unfold arm_if_idle. rewrite run_get. destruct (_ =? _); cbn [whenM]; [rewrite run_clock|]; eexists; (split; [reflexivity|]); by split_and!. }
  rewrite (run_bind _ _ _ _ _ E), drain_pending_syn; [done|done|done|done|by rewrite Er].
Qed.

(** When the peer has closed and the caller's buffer is larger than what is left,
    the last bytes of the stream are taken out of the FIFO and the call returns
    [ERR_NOT_CONNECTED] instead of their number: the caller never learns of them. *)
Theorem tcp_read_loses_tail iss W irs R d size t l p nt :
  conn_ok iss W irs R (live t l p nt) → rx_ok irs R d t →
  tcb_state t ≠ TCP_STATE_CLOSED → tcb_fin_received t = true →
  d < Z.of_nat (length R) → Z.of_nat (length R) - d < size < tcb_rxfifo_size t →
  wp (tcp_stream_read size 0 0) (λ '(o, bs) c', o = Done ERR_NOT_CONNECTED ∧
    bs = drop (Z.to_nat d) R ∧ bs ≠ [] ∧
    ∃ t', c_tcb c' = Some t' ∧ tcb_rxfifo_user_bytes t' = ERR_NOT_CONNECTED) (live t l p nt).
Proof.
  intros H Hr Hst Hfin Hd Hsz. pose proof (rx_order _ _ _ _ Hr) as Hord.
  pose proof H as (_ & (Hsh & _) & _). unfold tcp_stream_read. cbn [read_loop]. rewrite Z.sub_0_r.
  rewrite (proj2 (Z.eqb_neq _ _)) by lia. wp_steps.
  rewrite (rx_user_bytes irs R d t), decide_False by (done || naive_solver lia).
  rewrite (proj2 (Z.ltb_ge _ _)), (proj2 (Z.eqb_neq _ _)) by lia.
  rewrite Z.min_r by lia. set (k := Z.of_nat (length R) - d) in *. wp_steps.
  eapply wp_lift; [apply (read_ring irs R d t k); [done|done|lia|lia]|]. wp_steps.
  apply (wp_consume iss W irs R d); [done|done|lia|]. intros wc nt' H' Hr'. wp_steps.
  rewrite (proj2 (Z.eqb_neq _ _)) by lia. wp_steps. pose proof H' as (_ & (Hsh' & _) & _).
  assert (tcb_rxfifo_user_bytes (consumed t k wc) = ERR_NOT_CONNECTED) as Eu.
  { rewrite (rx_user_bytes irs R (d + k)) by done. rewrite decide_True; [done|]. right. split; [done|lia]. }
  rewrite Eu. change (ERR_NOT_CONNECTED <? 0) with true. cbv iota. wp_steps.
  rewrite app_nil_r, take_ge by (rewrite length_drop; lia). split; [done|]. split; [done|].
  split; [|by exists (consumed t k wc)]. intros E. apply (f_equal length) in E. rewrite length_drop in E. cbn in E. lia.
Qed.

(** ** Instances *)

(** A segment without options from the peer. *)
Definition ex_in (flags seq ack wnd : Z) (data : list Z) : input :=
  input_of ex_peer (mk_seg (mk_th 20480 34835 seq ack 80 flags wnd) [data]).

Lemma ex_a0_just_opened : just_opened 1000 ex_a0.
Proof.
  apply (by_connect 1000 1024 1024 ex_fill 5 ex_peer 80 false [] (ex_net [5000] []) tt);
    [apply ex_pow2|apply ex_pow2|lia|lia|computed|apply ex_silent|computed].
Qed.

Lemma ex_b0_just_opened : just_opened 7000 ex_b0.
Proof.
  apply (by_accept 7000 1024 1024 ex_fill example_ni (input_of ex_peer (nth_sent ex_a0 0)) true 0 536
    false [] (ex_net [] []) tt); [apply ex_pow2|apply ex_pow2|lia|lia|computed|apply ex_silent|computed].
Qed.

(** [sane], decided. *)
Definition sane_b (i : input) (t : tcb) : bool :=
  (0 <=? th_wnd (in_th i)) && ((20 <=? in_hdr_len i) && (in_hdr_len i <=? pktlen (in_pb i)) && (pktlen (in_pb i) <? 65536)) &&
  forallb (λ w, (length w <=? 512)%nat) (in_pb i) &&
  (in_range 0 (th_seq (in_th i)) 4294967296 && in_range 0 (th_ack (in_th i)) 4294967296) &&
  (negb (tcb_state t =? TCP_STATE_SYN_SENT) || negb (has (in_flag i) TCP_F_SYN) || has (in_flag i) TCP_F_ACK) &&
  ((tcb_pending_syn t =? 0) || (tcb_state t =? TCP_STATE_SYN_SENT) || negb (has (in_flag i) TCP_F_ACK) ||
   has (in_flag i) TCP_F_RST || (th_ack (in_th i) =? snd_nxt t)) &&
  negb (tcb_state t =? TCP_STATE_LAST_ACK) && negb (tcb_state t =? TCP_STATE_CLOSED) &&
  (negb (tcb_fin_received t) || negb (th_seq (in_th i) =? rcv_nxt t) || (in_seg_len i =? 0)).

Lemma sane_b_ok i t : sane_b i t = true → sane i t.
Proof.
  unfold sane_b, in_range. rewrite !andb_true_iff.
  intros [[[[[[[[H1 [[H2 H3] H4]] H5] [[H6 H6'] [H7 H7']]] H8] H9] H10] H11] H12].
  rewrite ?Z.leb_le, ?Z.ltb_lt, ?negb_true_iff, ?Z.eqb_neq in *. unfold is_u32. split; try done.
  - apply Forall_forall. intros w Hw%list_elem_of_In. apply Nat.leb_le. rewrite forallb_forall in H5. by apply H5.
  - intros E1 E2. rewrite E1, E2 in H8. done.
  - intros Hp Hs Ha Hr. rewrite Ha, Hr, !(proj2 (Z.eqb_neq _ _)) in H9 by done. by apply Z.eqb_eq in H9.
  - intros E1 E2. rewrite E1, E2, Z.eqb_refl in H12. by apply Z.eqb_eq in H12.
Qed.

Definition may_b (o : op) (t : tcb) : bool :=
  match o with
  | Op_writev iov _ => (tcb_pending_fin t =? 0) && forallb (λ b, Z.of_nat (length b) <? tcb_txfifo_size t) iov
  | Op_read size _ total => (0 <=? total) && (total <=? size) && (size - total <? tcb_rxfifo_size t)
  | Op_task signals => negb (has signals TCP_EVENT_CONNECT)
  | Op_input _ i => sane_b i t
  | _ => true
  end.

Lemma may_b_ok o t : may_b o t = true → op_may o t.
Proof.
  destruct o; cbn [may_b op_may]; rewrite ?andb_true_iff, ?negb_true_iff, ?Z.leb_le, ?Z.ltb_lt, ?Z.eqb_eq, ?forallb_forall;
    try done; [|by apply sane_b_ok].
  intros [? H]. split; [done|]. apply Forall_forall. intros w Hw%list_elem_of_In. apply Z.ltb_lt. by apply H.
Qed.

(** The operations may run one after the other. *)
Fixpoint ops_b (ops : list op) (c : conn) : bool :=
  match ops with
  | [] => true
  | o :: ops =>
      match c_tcb c with
      | Some t => may_b o t && match op_run o t c with Ret (_, c') => ops_b ops c' | Fault _ => true end
      | None => false
      end
  end.

Lemma ops_b_ok ops : ∀ c, ops_b ops c = true → ops_may ops c.
Proof.
  induction ops as [|o ops IH]; intros c; cbn [ops_b ops_may]; [done|].
  destruct (c_tcb c) as [t|] eqn:Et; [|done]. rewrite andb_true_iff. intros [Hm Hr]. exists t.
  split; [done|]. split; [by apply may_b_ok|]. intros u c' E. rewrite E in Hr. by apply IH.
Qed.


(** The invariant after operations on an opened connection, in a form that names the
    block. *)
Lemma reached iss ops c0 c :
  just_opened iss c0 → ops_b ops c0 = true → run_ops ops c0 = Ret (tt, c) → c_tcb c = Some (tcb_of c) →
  ∃ W irs R, conn_ok iss W irs R (live (tcb_of c) (c_linked c) (c_peers c) (c_net c)).
Proof.
  intros Ho Hb E Ht. destruct (just_opened_ok _ _ Ho) as (irs & H).
  destruct (wp_run _ _ _ _ _ (ops_ok iss ops [] irs [] c0 H (ops_b_ok _ _ Hb)) E) as (W & irs' & R & H' & _).
  exists W, irs', R. destruct c as [ot l p nt]. cbn in *. by rewrite Ht in H'.
Qed.

Abbreviation conn_of c := (live (tcb_of c) (c_linked c) (c_peers c) (c_net c)).

Lemma tcp_writev_correct_witness :
  ∃ W irs R, conn_ok 1000 W irs R (conn_of ex_a1) ∧
  ∃ o c', tcp_stream_writev [[104; 105]; [33]] 0 (conn_of ex_a1) = Ret (o, c') ∧
    ∃ t' j, c_tcb c' = Some t' ∧ conn_ok 1000 (W ++ take j [104; 105; 33]) irs R c' ∧
      write_end 0 TCP_STATE_ESTABLISHED [[104; 105]; [33]] j 0 o t'.
Proof.
  destruct (reached 1000 [Op_input example_ni (input_of ex_peer (nth_sent ex_b0 0))] ex_a0 ex_a1) as (W & irs & R & H);
    [apply ex_a0_just_opened|computed|computed|computed|].
  exists W, irs, R. split; [done|].
  exact (tcp_writev_correct 1000 W irs R 0 [[104; 105]; [33]] (tcb_of ex_a1) _ _ _ H ltac:(computed)
    ltac:(repeat constructor)).
Defined.

Lemma tcp_read_correct_witness :
  ∃ W irs R d, conn_ok 7000 W irs R (conn_of ex_b2) ∧ rx_ok irs R d (tcb_of ex_b2) ∧
  ∃ o bs c' t', tcp_stream_read 10 0 0 (conn_of ex_b2) = Ret ((o, bs), c') ∧ c_tcb c' = Some t' ∧
    conn_ok 7000 W irs R c' ∧ rx_ok irs R (d + Z.of_nat (length bs)) t' ∧ read_end R d 10 0 0 (tcb_of ex_b2) o bs.
Proof.
  destruct (reached 7000 [Op_input example_ni (input_of ex_peer (nth_sent ex_a1 1));
    Op_input example_ni (input_of ex_peer (nth_sent ex_a3 2))] ex_b0 ex_b2) as (W & irs & R & H);
    [apply ex_b0_just_opened|computed|computed|computed|].
  pose proof H as (_ & (_ & _ & (d & Hr) & _) & _). exists W, irs, R, d. split; [done|]. split; [done|].
  exact (tcp_read_correct 7000 W irs R d 10 0 0 (tcb_of ex_b2) _ _ _ H Hr ltac:(lia) ltac:(computed)).
Defined.

(** Three bytes in two buffers to the neighbour. *)
Definition ex_seg : segment := mk_seg (mk_th 20480 34835 1001 7001 80 24 1024) [[104; 105]; [33]].

Lemma tcp_output_verifies_witness :
  ∃ err n' w', tcp_output ex_seg 0 ex_peer (ex_net [] []) = Ret (err, n') ∧
    n_out n' = [Sent ex_seg 33663168 ex_peer [w'; [33]]] ∧ drop 40 w' = [104; 105] ∧
    parse_th (drop 20 w') = seg_th ex_seg ∧ rfc1071 (take 20 w') ∧
    rfc1071 (pseudo_header 33663168 ex_peer 23 ++ drop 20 w' ++ [33]).
Proof.
  destruct (tcp_output_verifies ex_seg [104; 105] [[33]] 0 ex_peer (ex_net [] []) (mk_nexthop ex_peer 0)
    (mk_routes [mk_nexthop ex_peer 0] [example_ni]) example_ni)
    as (err & n' & w' & E & Eo & Ed & _ & _ & _ & _ & _ & _ & Ep & Ec1 & Ec2);
    [done|repeat constructor; by exists 1%nat|repeat constructor; unfold is_byte; lia|done
    |unfold th_fits, is_u32, is_byte; cbn; lia|done|done|done|done|done|done|].
  exists err, n', w'. exact (conj E (conj Eo (conj Ed (conj Ep (conj Ec1 Ec2))))).
Defined.

Ltac distinct := vm_compute; discriminate.

(** Host B: the handshake, the peer's FIN, the application's close; then the
    acknowledgement of our FIN. *)
Definition ex_last : conn :=
  after (run_ops [Op_input example_ni (ex_in 16 1001 7001 1024 []); Op_input example_ni (ex_in 17 1001 7001 1024 []);
                  Op_task TCP_EVENT_CLOSE]) ex_b0.

Lemma tcp_last_ack_uses_freed_block_witness :
  tcb_state (tcb_of ex_last) = TCP_STATE_LAST_ACK ∧
  tcp_input_tcb example_ni (ex_in 16 1002 7002 1024 []) (conn_of ex_last) = Fault OutOfBounds.
Proof. split; [computed|]. apply tcp_last_ack_uses_freed_block; computed. Defined.

(** A SYN with a timestamp option of length zero. *)
Definition ex_bad_syn : input :=
  let th := mk_th 34835 20480 1000 0 96 2 1024 in mk_input ex_peer th 24 [th_bytes th 0 ++ [8; 0; 0; 0]].
Definition ex_svcs (port : Z) : option service := if port =? 80 then Some (mk_service 10 10 (Some 0)) else None.

Lemma tcp_syn_option_hangs_witness :
  ex_svcs 80 = Some (mk_service 10 10 (Some 0)) ∧
  ∀ fuel, tcp_input_listen ex_svcs fuel example_ni ex_bad_syn (mk_world [] ∅ 1 (ex_net [] [])) = Fault NoFuel.
Proof.
  split; [done|]. intros fuel. eapply (tcp_syn_option_hangs ex_svcs fuel example_ni ex_bad_syn _ (mk_service 10 10 (Some 0)) 0 _ 8 [0; 0]);
    first [reflexivity | done].
Defined.

(** Host A with a peer window of one byte: four bytes written, a close, the first byte
    acknowledged with the window still at one. *)
Definition ex_fin_ops : list op :=
  [Op_input example_ni (ex_in 18 7000 1001 1 []); Op_writev [[1; 2; 3; 4]] 0;
   Op_task (Z.lor TCP_EVENT_FLUSH TCP_EVENT_CLOSE); Op_input example_ni (ex_in 16 7001 1002 1 [])].
Definition ex_fin : conn := after (run_ops ex_fin_ops) ex_a0.

Lemma tcp_fin_overtakes_data_witness :
  ∃ W irs R n, conn_ok 1000 W irs R (conn_of ex_fin) ∧ n <= Z.of_nat (length W) ∧
    has (tcb_pending_fin (tcb_of ex_fin)) TCP_F_FIN = true ∧ snd_nxt (tcb_of ex_fin) = u32 (1000 + n) ∧
    is_Some (W !! Z.to_nat (n - 1)) ∧
    tcp_emit true (snd_nxt (tcb_of ex_fin)) false (conn_of ex_fin) =
      tcp_output_tcb (tcb_pending_fin (tcb_of ex_fin)) (snd_nxt (tcb_of ex_fin)) [[]]
        (live (set_nxt (snd_wrptr (tcb_of ex_fin)) (set_dack None (tcb_of ex_fin))) (c_linked ex_fin) (c_peers ex_fin) (c_net ex_fin)).
Proof.
  destruct (reached 1000 ex_fin_ops ex_a0 ex_fin) as (W & irs & R & H);
    [apply ex_a0_just_opened|computed|computed|computed|].
  pose proof H as (_ & (Hsh & (a & n & Ht) & _) & _).
  assert (n <= Z.of_nat (length W)) as Hn.
  { destruct (tx_used _ _ _ _ Hsh Ht) as (_ & Hu & _).
    assert (u32 (snd_wrptr (tcb_of ex_fin) - snd_nxt (tcb_of ex_fin)) = 4) as E by computed.
    assert (fin_slot (tcb_of ex_fin) = 1) as Ef by computed. lia. }
  exists W, irs, R, n. split; [done|]. split; [done|].
  apply (tcp_fin_overtakes_data 1000 W irs R a n false (tcb_of ex_fin) _ _ _ H Ht); [computed|distinct|computed|done].
Defined.

Lemma tcp_write_overruns_fifo_witness :
  ∃ c' t', tcp_stream_writev [replicate 1024 7] 0 (conn_of ex_a1) = Ret (Done 1024, c') ∧ c_tcb c' = Some t' ∧
    ∀ j, 0 <= j < 1001 → tcb_buffer t' !! Z.to_nat (1024 + j) = replicate 1024 7 !! Z.to_nat (1024 - 1001 + j).
Proof.
  destruct (reached 1000 [Op_input example_ni (input_of ex_peer (nth_sent ex_b0 0))] ex_a0 ex_a1) as (W & irs & R & H);
    [apply ex_a0_just_opened|computed|computed|computed|]. pose proof H as (_ & (Hsh & _) & _).
  apply (tcp_write_overruns_fifo 0 (replicate 1024 7) (tcb_of ex_a1) _ _ _ Hsh); [distinct|computed|computed|].
  split; first [computed | distinct].
Defined.

(** An established block whose RX FIFO is full from position 10 on. *)
Definition ex_full : tcb :=
  set_state TCP_STATE_ESTABLISHED (set_rcv_nxt 1034 (set_rdptr 10 (tcb_create 1000 1024 1024 ex_fill))).

Lemma tcp_read_overruns_fifo_witness :
  tcp_stream_read 2048 0 0 (live ex_full true [] (ex_net [] [])) = Fault OutOfBounds.
Proof.
  apply tcp_read_overruns_fifo; [|distinct|computed|computed|distinct|distinct].
  split; [apply ex_pow2|apply ex_pow2|distinct|distinct|computed|distinct].
Defined.

(** Host B gets an acknowledgement of one more than its SYN, then writes. *)
Definition ex_early : conn := after (tcp_stream_writev [[1]] 0) (after (tcp_input_tcb example_ni (ex_in 16 1001 7002 1024 [])) ex_b0).

Lemma tcp_pending_syn_livelock_witness :
  tcb_pending_syn (tcb_of ex_early) = 18 ∧ ∀ fuel, tcp_task_cb fuel TCP_EVENT_FLUSH (conn_of ex_early) = Fault NoFuel.
Proof.
  split; [computed|]. intros fuel. apply tcp_pending_syn_livelock; [computed|distinct|distinct|distinct|].
  split; [computed|]. split; [computed|]. exists (mk_nexthop ex_peer 0), example_ni. split; [computed|]. intros []; computed.
Defined.

(** Host B has two bytes and the FIN, and its application reads with room for more. *)
Definition ex_tail_ops : list op :=
  [Op_input example_ni (ex_in 16 1001 7001 1024 []); Op_input example_ni (ex_in 25 1001 7001 1024 [104; 105])].
Definition ex_tail : conn := after (run_ops ex_tail_ops) ex_b0.

Lemma unread irs R d t n : shape t → rx_ok irs R d t → tcb_rxfifo_user_bytes t = n → (0 <=? n) = true →
  Z.of_nat (length R) - d = n.
Proof. intros Hsh Hr <- Hn. rewrite (rx_user_bytes _ _ _ _ Hsh Hr) in *. by case_decide. Qed.

Lemma tcp_read_loses_tail_witness :
  ∃ W irs R d, conn_ok 7000 W irs R (conn_of ex_tail) ∧ rx_ok irs R d (tcb_of ex_tail) ∧
  wp (tcp_stream_read 10 0 0) (λ '(o, bs) c', o = Done ERR_NOT_CONNECTED ∧ bs = drop (Z.to_nat d) R ∧ bs ≠ [] ∧
    ∃ t', c_tcb c' = Some t' ∧ tcb_rxfifo_user_bytes t' = ERR_NOT_CONNECTED) (conn_of ex_tail).
Proof.
  destruct (reached 7000 ex_tail_ops ex_b0 ex_tail) as (W & irs & R & H);
    [apply ex_b0_just_opened|computed|computed|computed|].
  pose proof H as (_ & (Hsh & _ & (d & Hr) & _) & _).
  assert (Z.of_nat (length R) - d = 2) as E2 by (apply (unread _ _ _ _ 2 Hsh Hr); computed).
  assert (tcb_rxfifo_size (tcb_of ex_tail) = 1024) as Esz by computed.
  exists W, irs, R, d. split; [done|]. split; [done|].
  apply (tcp_read_loses_tail 7000 W irs R d 10 (tcb_of ex_tail) _ _ _ H Hr); [distinct|computed|lia|lia].
Defined.
